(* ===== verification/_CoqProject ===== *)
-Q . S2P
Prelude.v
Privacy.v
SecureStore.v
Encoding.v
Text.v
AttachmentStore.v
AttachmentGC.v
AttachmentDisk.v
AttachmentUpload.v
BlobCache.v
Session.v
SessionSafety.v
PrivacyService.v
Identity.v
IdentityStore.v
NodeBinding.v
ManifestTrust.v
NetworkManifest.v
RefreshPolicy.v
Bootstrap.v
WakuConfig.v
Enrollment.v
MessageStore.v
Inbox.v
GroupModel.v
Wire.v
RateLimiter.v
ServingLimits.v
GroupRuntime.v
GroupMembership.v
GroupInbound.v
GroupStore.v
GroupMessaging.v
GroupService.v
BlobAccess.v
BlobProviders.v
Delivery.v
Messaging.v
BlobService.v
StoragePolicy.v
RpcParams.v
RpcDispatch.v
RpcServer.v
Notifications.v
Runtime.v
WakuNode.v
GoWaku.v
StorageKey.v
Accounts.v
Backup.v
Sanitizer.v
Diagnostics.v
Lifecycle.v
