(* ===== verification/Prelude.v ===== *)
(** * A verification library for the ardents messaging node

    ardents is a daemon for private messaging: identities, end-to-end sessions, direct and group
    conversations over a publish/subscribe network, attachments that daemons serve to each other, and
    local stores, offered to a client over JSON-RPC. This library models the parts that decide who may
    do what, what is kept, and what a peer accepts, and proves what makes them correct. File names below
    are under src/; dsv stands for internal/composition/daemonservice.

    ** The parts of the program and how they interact

    - internal/domains/identity: the keys of the local identity, its contacts with their pinned
      keys, its devices and the revocations it knows of, the seed behind a password, uploads of
      attachments in chunks, and backups.
    - internal/domains/privacy: settings, storage policies, the block list, and the decision what
      to do with a message of an unknown sender.
    - internal/domains/inbox: the threads of unknown senders until they are accepted.
    - internal/domains/messaging: sending and receiving. What is sent is sealed by the session
      of the contact, padded, signed by the active device and published, or queued and retried;
      what arrives passes the privacy policy, the pinned keys and the device signature before it
      reaches the message store, the inbox or the groups.
    - internal/domains/group: groups as replicated state. Every change is a [GroupEvent]; a state
      is what [ApplyGroupEvent] makes of a log of events. The membership service turns a call of
      the local user into a batch of events and commits it ([ApplyEventsWithRollback]: apply, put
      into the registry, persist, undo when that fails); the inbound service authorizes events
      of peers and commits them the same way. Messages to a group are fanned out to its members
      one by one and stored in the message store.
    - internal/crypto: one session per contact with a hash ratchet in each direction.
    - internal/storage: the message store with its queue of unsent messages, and the attachment store
      with quotas and garbage collection.
    - internal/securestore: the passphrase-protected envelope all the files use.
    - internal/bootstrap: which nodes of the network a node starts from: trust bundles, signed manifests,
      their cache and refresh, and the tokens by which nodes enroll.
    - internal/waku: the node of the network, over a bus in the process or over the go-waku library.
    - internal/platform: rate limits, notifications to clients, metrics, and the log's sanitizer.
    - internal/adapters/rpc and the adapters of the domains: the JSON-RPC server.
    - internal/composition: the daemon, which owns the states of the domains and wires them: it hands
      incoming payloads on, publishes, retries, keeps the replay guard, serves blobs to other daemons,
      finds the secret of its storage, switches accounts, and starts and stops the network.

    ** Files and what they model

    Foundations:
    - Prelude (this file): machine integers, time, strings and [TrimSpace] on UTF-8, results, the
      error-state monad with its [let!] notation and its rules, map iteration and sorting as an
      interface ([GoRuntime]), shared tactics and hints.
    - Encoding, Text: base64, RFC 3339 times, and the functions of package strings the source uses.
    - SecureStore: internal/securestore/envelope.go, storeio.go, and the store of one encrypted
      JSON value ([EncStore]) that several components have in common.

    Identity, privacy, inbox:
    - Privacy, PrivacyService: internal/domains/privacy/. State [PrivacyWorld]: settings and block list in
      memory, the two files, the errors recorded.
    - Identity, IdentityStore: internal/domains/identity/domain/ and policy/, the identity file and the calls
      of usecase/service.go that write it. States [Manager] and [IdentityWorld].
    - Inbox: internal/domains/inbox/ and dsv/inbox_runtime_state.go. State [InboxWorld]: the threads with
      their file, and the identity, privacy and message stores.
    - Backup: internal/domains/identity/usecase/backup_flows.go and the restore of usecase/service.go. State
      [BackupWorld]: the identity manager, the message store and the session manager.
    - StorageKey: internal/composition/daemon/storage_key.go, bootstrap.go. Accounts: dsv/account_profiles.go,
      state [Profiles]; the services of a profile are the interface [AccountParts].

    Messages and sessions:
    - MessageStore: internal/storage/message_store.go. State [MessageStore] is the struct plus the contents of
      its file.
    - Session: internal/crypto/session.go, session_store.go. States refer to their map of skipped
      keys through a heap; stores are an interface ([SessionStore]) with the in-memory and the
      file store as instances. SessionSafety: the theorems, against the interface [IsolatedStore].
    - Wire: contracts/infra_ports.go and errors.go, messaging/policy/, and the functions of
      messaging/usecase/flows.go that keep no state.
    - Delivery: dsv/metadata_hardening.go, outbound_delivery.go and the publishing and the retry queue of
      service_runtime.go. State [Node]: the parts of the daemon that messages go through, and what the network
      has taken. Messaging: messaging/usecase/service.go and inbound_service.go as service_wiring.go and
      runtime_inbound.go wire them, on the same [Node].

    Groups:
    - RateLimiter: internal/platform/ratelimiter/map_limiter.go and group/policy/abuse_protection.go.
    - GroupModel: group/model/. GroupRuntime: group/usecase/state_mutation.go; state [Registry]: the map of
      groups, the event logs, and a heap for the maps inside a group state, which struct copies share.
    - GroupMembership: group/usecase/membership_service.go. GroupInbound: usecase/inbound_events.go,
      inbound_orchestration_service.go (events), policy/inbound_state_policy.go and the replay guard of
      dsv/runtime_inbound.go. State [World]: the registry, the limiters, the identifiers, the notifications.
    - GroupStore: group/state_store.go, runtime_state.go. GroupMessaging: usecase/message_fanout_service.go,
      read_service.go and the message half of inbound_orchestration_service.go; the store is the interface
      [MessageRepository], which MessageStore implements. GroupService: group/usecase/service.go.

    Attachments and blobs:
    - AttachmentStore, AttachmentGC, AttachmentDisk: internal/storage/attachment_store.go: its operations and
      quotas, what a collection takes, and what is on disk. AttachmentUpload: uploads in chunks.
    - BlobCache, ServingLimits, BlobAccess, BlobProviders, BlobService, StoragePolicy, NodeBinding: the files of
      dsv on public blobs, limits and presets, access rules, providers, serving and fetching in a [Network] of
      daemons, storage and node policies, and the binding of accounts to nodes, with what a change of the
      account does to it ([bindingReload], state_bootstrap.go).

    Network:
    - ManifestTrust, NetworkManifest, RefreshPolicy, Bootstrap, WakuConfig: internal/bootstrap/ (trust, manifests,
      refresh, the manager with its cache, the configuration). Enrollment: enrollment tokens and the node agent.
    - WakuNode: internal/waku/node.go, message_bus.go; the backend is the interface [goWakuBackend].
      GoWaku: internal/waku/gowaku_enabled.go over the go-waku library, the interface [WakuLib].
    - Lifecycle: dsv/service_runtime.go and data_wipe.go: the running service over WakuNode and Runtime.

    Clients and operation:
    - RpcParams, RpcDispatch, RpcServer: the adapters of the domains and internal/adapters/rpc.
    - Notifications, Runtime: internal/platform/runtime/runtime.go.
    - Sanitizer: internal/platform/privacylog/sanitizer.go and dsv/logging_schema.go. Diagnostics:
      dsv/diagnostics_export.go.

    ** How code becomes definitions

    A function that returns [(T, error)] gives a [result]; one that also changes state is a
    computation in [M], which keeps the state reached before an error, as Go does; one that may panic is
    in [panics]. Methods that run under a lock are one step; where the code takes no lock over a load and a
    save (the session manager) the halves are separate definitions. Goroutines are steps of a relation
    ([net_run], [service_step]) that may be taken in any order; in [net_run] every call of a handler of the bus
    is a step of its own. [uint64], [uint32] and [int64] arithmetic
    wraps where it is written to; times are nanoseconds since the zero time. Maps whose sharing
    can be observed live in heaps; channels live where both ends see them. Reading the clock, random bytes,
    and every outcome of the file system (a failed write, and one that leaves a part of the file) are
    arguments, so theorems range over them. Code outside of src/ (ciphers and hashes, encoding/json, the token bucket, floats, the go-waku
    library) is a class or an argument; what the theorems need of it is stated as laws, with an
    instance that satisfies them at the end of each file.

    ** What the theorems show

    - Groups are replicas of a log: application is deterministic, keeps a well-formedness
      invariant, never applies an event twice, and replicas that report the same version are equal
      (GroupModel). The commit is all or nothing for batches that fail cleanly, as a refinement of
      an abstract commit (GroupRuntime). In every state reachable by any interleaving of local
      calls and network events the registry invariant holds (GroupInbound), and persisting and
      restarting gives the same groups (GroupStore).
    - Authority: each local call changes the registry only by a batch the policy allows its actor;
      nobody else takes the role of an active owner, locally or from the network; removal revokes
      the keys; quotas hold (GroupMembership, GroupInbound); the whole service acts for the local
      identity only (GroupService).
    - Messages: the message store is in step with its file, never lets a status go back, and a
      failed mutation leaves it as it was (MessageStore). A fan-out accounts for every member,
      never publishes a message twice, and publishes what peers accept; only current members get
      messages in (GroupMessaging).
    - Direct messages: what a contact's name gets into the node is signed by one of its devices
      under its pinned key, pinned keys never change, a blocked sender changes nothing, a message
      that was sent is published or queued, and what one node sends arrives at the other
      (Messaging). The padding search ends and gives bucket sizes, and the retry queue drains
      whatever the network does (Delivery).
    - Identity: pinned keys and revocations last, peers accept what an active device signs,
      guessing the password is throttled (Identity), and the file brings everything back after every call that
      writes it, the restore of a backup included (IdentityStore, Backup). A backup brings a device back, and a
      refused one changes nothing (Backup).
    - Privacy and requests: normalized settings are fixed points, the memory of the service is
      always normalized and in step with its files, blocking is exact (Privacy, PrivacyService);
      accepting moves a thread to the message store and requests survive a restart (Inbox).
    - Sessions: messages are delivered in any order within the window, each chain index is opened at
      most once, refused envelopes leave no trace, all on a store whose states are its own, as those of the
      file store are while it persists (SessionSafety). Files decrypt to what was encrypted and nothing weaker is
      accepted (SecureStore).
    - Attachments: quotas hold, a collection takes exactly what is due, attachments survive a restart while
      persistence is on, an upload gives the file that was cut into chunks (Attachment files). Blobs are served
      to and fetched by those the access rules admit and within the limits; zero retention leaves nothing (Blob
      files, StoragePolicy); bindings are proven by the node or come from the file of a profile (NodeBinding).
    - Network: trust changes only by a signature of a root key, a manifest is accepted exactly when it is valid,
      adopted versions never decrease, fallbacks are taken in order (bootstrap files); a token is redeemed at
      most once (Enrollment). A node is open only while it is started, and the bus hands every message over
      once, without an order between messages (WakuNode); a fetch gives each message of all pages once, a query
      fails over, redialling backs off (GoWaku). The flag of the network is on exactly while the node is open,
      the only thing a failed start leaves behind is the backend whose wait for peers failed, and a stop ends
      (Lifecycle).
    - Storage: a key is generated only where there is no data, and kept (StorageKey); the active account is
      always found and survives a restart, unless a write of the registry fails part-way (Accounts).
    - Clients: each of the three handlers reaches the service only for a client with the token, the origin and,
      for calls, the version; a retry is replayed whatever other requests come between; the memory of the server
      is bounded (RpcServer); channel methods check the group (RpcDispatch). Notifications come without gaps, and
      a subscription ends by a step that is named (Notifications); metrics count what happened (Runtime). Values
      of keys and texts with the words that mark secrets, which the specification lists again, do not reach the
      log (Sanitizer), and diagnostics are recent and name no identity (Diagnostics).
    - Behaviour that is not what the code means to do is proved as it is, as an [Example] beside the component:
      for instance an invited member can make itself an owner, a failing batch leaks its prefix into shared
      maps, concurrent sends reuse a message key, payloads that do not parse are stored without a signature,
      a changed password is forgotten, guesses of the RPC token are not limited, a restore that fails loses the
      device's data, a torn write of the registry stops the daemon, a later message overtakes an earlier one, and
      log lines show identifiers through their correlation.

    ** Bounds and fuel

    Loops over lists and maps are structural. The loops with fuel are [skipKeys] (the gap, at
    most 512, computed from the indices: [skipKeys_spec] shows it runs to the end), [dropOldest] and
    [evictLoop] (one entry per round, the number of entries), the search for a padding ([padLoop], whose interval
    shrinks in every round: the fuel is the size of the target), the three attempts of a fetch, and the allocation
    of group and message identifiers, which the source itself bounds. The waits for the network and for pages take the
    events or calls they see as lists, and a theorem says when they end. Counters are at their width;
    theorems that need room in them say so.

    ** What is not modelled

    The construction of the service (service_build.go, storage_bundle.go), the command line tools and the doctor of
    the node agent: input and output only. The go-waku library itself, the loop that writes events to an HTTP
    stream and the constant headers of responses, the lines of the log other than those of logging_schema.go, the
    reset of the notification hub on zero retention, and re-export files. Of encoding/json one deviation is known:
    an object that gives one struct field twice is decoded from the last one alone. *)
From stdpp Require Import base gmap strings list sets option.
From Stdlib Require Import ZArith Lia Ascii String Sorted.
Open Scope string_scope.
Open Scope Z_scope.

(** ** Machine integers *)

(** [uint64] and [uint32] arithmetic: the mathematical result reduced to the width. *)
Definition u64 (z : Z) : Z := z mod 2 ^ 64.
Definition u32 (z : Z) : Z := z mod 2 ^ 32.

(** Go's [byte(x)] conversion of an unsigned integer. *)
Definition to_byte (z : Z) : Z := Z.land z 255.

Lemma u64_range z : 0 <= u64 z < 2 ^ 64.
Proof. unfold u64. apply Z.mod_pos_bound. lia. Qed.

Lemma u32_range z : 0 <= u32 z < 2 ^ 32.
Proof. unfold u32. apply Z.mod_pos_bound. lia. Qed.

Lemma u64_small z : 0 <= z < 2 ^ 64 -> u64 z = z.
Proof. intros. unfold u64. apply Z.mod_small. lia. Qed.

Lemma u32_small z : 0 <= z < 2 ^ 32 -> u32 z = z.
Proof. intros. unfold u32. apply Z.mod_small. lia. Qed.

(** [int64] arithmetic ([int] and [time.Duration] have the same width). *)
Definition s64 (z : Z) : Z := (z + 2 ^ 63) mod 2 ^ 64 - 2 ^ 63.

Lemma s64_range z : - 2 ^ 63 <= s64 z < 2 ^ 63.
Proof. unfold s64. pose proof (Z.mod_pos_bound (z + 2 ^ 63) (2 ^ 64)). lia. Qed.

Lemma s64_small z : - 2 ^ 63 <= z < 2 ^ 63 -> s64 z = z.
Proof. intros. unfold s64. rewrite Z.mod_small; lia. Qed.

(** A sum that wraps at each step is the sum that wraps at the end. *)
Lemma s64_add_l a b : s64 (s64 a + b) = s64 (a + b).
Proof.
  unfold s64. replace ((a + 2 ^ 63) mod 2 ^ 64 - 2 ^ 63 + b + 2 ^ 63)
    with ((a + 2 ^ 63) mod 2 ^ 64 + b) by lia.
  rewrite Z.add_mod_idemp_l by lia. f_equal. f_equal. lia.
Qed.

(** ** Time

    A [time.Time] is its instant in nanoseconds after the zero time of Go
    (year 1, January 1, 00:00:00 UTC), so that the zero value is [0], [UTC()] is
    the identity, and [Before], [After], [Equal] and [Add] are those of [Z]. *)
Definition IsZero (t : Z) : bool := t =? 0.
Definition Before (t u : Z) : bool := t <? u.
Definition After (t u : Z) : bool := u <? t.

Definition Second : Z := 1000000000.
Definition Minute : Z := 60 * Second.

(** [t.Sub(u)] saturates. *)
Definition timeSub (t u : Z) : Z := Z.max (- 2 ^ 63) (Z.min (2 ^ 63 - 1) (t - u)).

(** time.Time.UnixNano, for the dates it is defined on. *)
Definition UnixNano (t : Z) : Z := t - 62135596800 * Second.

(** ** Strings

    A Go string is its sequence of bytes. [strings.TrimSpace] removes Unicode
    white space on both sides; the UTF-8 encodings of those characters are the
    one-, two- and three-byte sequences below (unicode.White_Space). *)
Definition byteN (a : ascii) : nat := nat_of_ascii a.

Definition space1 (a : ascii) : bool :=
  let n := byteN a in
  ((9 <=? n)%nat && (n <=? 13)%nat) || (n =? 32)%nat.

Definition space2 (a b : ascii) : bool :=
  (byteN a =? 194)%nat && ((byteN b =? 133)%nat || (byteN b =? 160)%nat).

Definition space3 (a b c : ascii) : bool :=
  let x := byteN a in let y := byteN b in let z := byteN c in
  ((x =? 225)%nat && (y =? 154)%nat && (z =? 128)%nat)
  || ((x =? 226)%nat && (y =? 128)%nat
      && (((128 <=? z)%nat && (z <=? 138)%nat)
          || (z =? 168)%nat || (z =? 169)%nat || (z =? 175)%nat))
  || ((x =? 226)%nat && (y =? 129)%nat && (z =? 159)%nat)
  || ((x =? 227)%nat && (y =? 128)%nat && (z =? 128)%nat).

Section Trim.
Context (s1 : ascii -> bool) (s2 : ascii -> ascii -> bool)
        (s3 : ascii -> ascii -> ascii -> bool).

(** Strip white-space sequences from the front for as long as there is one. *)
Fixpoint trim_front (l : list ascii) : list ascii :=
  match l with
  | [] => []
  | a :: l1 =>
      if s1 a then trim_front l1 else
      match l1 with
      | [] => l
      | b :: l2 =>
          if s2 a b then trim_front l2 else
          match l2 with
          | [] => l
          | c :: l3 => if s3 a b c then trim_front l3 else l
          end
      end
  end.

(** One step of [trim_front]: the rest after a leading white-space sequence. *)
Definition strip (l : list ascii) : option (list ascii) :=
  match l with
  | [] => None
  | a :: l1 =>
      if s1 a then Some l1 else
      match l1 with
      | [] => None
      | b :: l2 =>
          if s2 a b then Some l2 else
          match l2 with
          | [] => None
          | c :: l3 => if s3 a b c then Some l3 else None
          end
      end
  end.

Lemma trim_front_strip l :
  trim_front l = match strip l with Some l' => trim_front l' | None => l end.
Proof.
  destruct l as [|a l1]; [done|]. cbn [trim_front strip].
  destruct (s1 a); [done|]. destruct l1 as [|b l2]; [done|].
  destruct (s2 a b); [done|]. destruct l2 as [|c l3]; [done|].
  by destruct (s3 a b c).
Qed.

Lemma strip_shorter l l' : strip l = Some l' -> exists x p, l = x :: (p ++ l')%list.
Proof.
  destruct l as [|a l1]; [done|]. cbn [strip].
  destruct (s1 a); [intros [= ->]; by exists a, []|]. destruct l1 as [|b l2]; [done|].
  destruct (s2 a b); [intros [= ->]; by exists a, [b]|]. destruct l2 as [|c l3]; [done|].
  destruct (s3 a b c); [|done]. intros [= ->]. by exists a, [b; c].
Qed.

Lemma strip_app_None t r : strip (t ++ r)%list = None -> strip t = None.
Proof.
  destruct t as [|a [|b [|c t]]]; cbn [strip app]; [done| | |];
    repeat case_match; done.
Qed.

Lemma trim_front_ind (P : list ascii -> Prop) :
  (forall l, strip l = None -> P l) ->
  (forall l l', strip l = Some l' -> P l' -> P l) -> forall l, P l.
Proof.
  intros Hn Hs l. remember (List.length l) as n eqn:En.
  revert l En. induction n as [n IH] using lt_wf_ind. intros l ->.
  destruct (strip l) as [l'|] eqn:E; [|by apply Hn].
  apply (Hs l l' E). apply (IH (List.length l')); [|done].
  destruct (strip_shorter _ _ E) as (x & p & ->). cbn. rewrite length_app. lia.
Qed.

Lemma trim_front_clean l : strip (trim_front l) = None.
Proof.
  induction l as [l E|l l' E IH] using trim_front_ind; rewrite trim_front_strip, E; done.
Qed.

Lemma trim_front_id l : strip l = None -> trim_front l = l.
Proof. intros E. by rewrite trim_front_strip, E. Qed.

Lemma trim_front_suffix l : exists p, l = (p ++ trim_front l)%list.
Proof.
  induction l as [l E|l l' E [p Hp]] using trim_front_ind; rewrite trim_front_strip, E.
  - by exists [].
  - destruct (strip_shorter _ _ E) as (x & q & ->).
    exists (x :: q ++ p)%list. cbn. rewrite <- app_assoc. by rewrite <- Hp.
Qed.
End Trim.

Definition trim_left (l : list ascii) : list ascii := trim_front space1 space2 space3 l.

(** Trimming on the right looks at the same sequences from the other end. *)
Definition trim_right (l : list ascii) : list ascii :=
  reverse (trim_front space1 (fun a b => space2 b a) (fun a b c => space3 c b a) (reverse l)).

Definition TrimSpace (s : string) : string :=
  string_of_list_ascii (trim_right (trim_left (list_ascii_of_string s))).

Arguments TrimSpace : simpl never.

Lemma trim_right_prefix l : exists r, l = (trim_right l ++ r)%list.
Proof.
  unfold trim_right.
  destruct (trim_front_suffix space1 (fun a b => space2 b a)
              (fun a b c => space3 c b a) (reverse l)) as [p Hp].
  exists (reverse p). rewrite <- reverse_app, <- Hp. by rewrite reverse_involutive.
Qed.

(** Trimming is idempotent: a trimmed string has nothing left to trim. *)
Lemma TrimSpace_idemp s : TrimSpace (TrimSpace s) = TrimSpace s.
Proof.
  unfold TrimSpace. rewrite list_ascii_of_string_of_list_ascii.
  set (l := trim_left (list_ascii_of_string s)). f_equal.
  assert (Hl : trim_left (trim_right l) = trim_right l).
  { apply trim_front_id. destruct (trim_right_prefix l) as [r Hr].
    apply (strip_app_None _ _ _ _ r). rewrite <- Hr. apply trim_front_clean. }
  rewrite Hl. unfold trim_right. rewrite reverse_involutive.
  f_equal. apply trim_front_id, trim_front_clean.
Qed.

(** [strings.ToLower] on the ASCII letters. *)
Definition lower_ascii (a : ascii) : ascii :=
  let n := byteN a in
  if (65 <=? n)%nat && (n <=? 90)%nat then ascii_of_nat (n + 32) else a.

Definition ToLowerASCII (s : string) : string :=
  string_of_list_ascii (lower_ascii <$> list_ascii_of_string s).

Definition HasPrefix (s p : string) : bool := String.prefix p s.

(** [strings.ToLower] on any text, character by character through the Unicode tables: it is
    idempotent, maps white space to itself and nothing else to white space, is the
    ASCII mapping on ASCII, and leaves no character out. *)
Definition ascii_text (s : string) : Prop :=
  Forall (fun a => (byteN a < 128)%nat) (list_ascii_of_string s).

Class GoLower := {
  ToLower : string -> string;
  ToLower_idemp : forall s, ToLower (ToLower s) = ToLower s;
  ToLower_TrimSpace : forall s, ToLower (TrimSpace s) = TrimSpace (ToLower s);
  ToLower_ascii : forall s, ascii_text s -> ToLower s = ToLowerASCII s;
  ToLower_empty : forall s, ToLower s = "" -> s = ""
}.

(** [strings.EqualFold]: equality under simple Unicode case folding. *)
Class GoFold := {
  EqualFold : string -> string -> bool;
  EqualFold_ascii : forall s t, ascii_text s -> ascii_text t ->
    EqualFold s t = bool_decide (ToLowerASCII s = ToLowerASCII t)
}.

#[export] Program Instance exFold : GoFold := {
  EqualFold s t := bool_decide (ToLowerASCII s = ToLowerASCII t)
}.
Next Obligation. done. Qed.

Lemma trim_front_map (f : ascii -> ascii) s1 s2 s3 l :
  (forall a, s1 (f a) = s1 a) -> (forall a b, s2 (f a) (f b) = s2 a b) ->
  (forall a b c, s3 (f a) (f b) (f c) = s3 a b c) ->
  trim_front s1 s2 s3 (f <$> l) = f <$> trim_front s1 s2 s3 l.
Proof.
  intros H1 H2 H3.
  induction l as [l E|l l' E IH] using (trim_front_ind s1 s2 s3); rewrite (trim_front_strip _ _ _ l), E;
    rewrite trim_front_strip.
  - replace (strip s1 s2 s3 (f <$> l)) with (@None (list ascii)); [done|].
    symmetry. revert E. unfold strip. destruct l as [|a [|b [|c l]]]; cbn; rewrite ?H1, ?H2, ?H3;
      repeat case_match; done.
  - replace (strip s1 s2 s3 (f <$> l)) with (Some (f <$> l')); [done|].
    symmetry. revert E. unfold strip. destruct l as [|a [|b [|c l]]]; cbn; rewrite ?H1, ?H2, ?H3;
      repeat case_match; intros; simplify_eq; done.
Qed.

Lemma lower_ascii_cases a :
  lower_ascii a = a \/ (65 <= byteN a <= 90)%nat /\ byteN (lower_ascii a) = (byteN a + 32)%nat.
Proof.
  unfold lower_ascii, byteN. destruct (_ && _) eqn:E; [|by left]. right.
  apply andb_true_iff in E as [H1%Nat.leb_le H2%Nat.leb_le].
  split; [lia|]. apply nat_ascii_embedding. lia.
Qed.

(** Comparing a lowered byte with a number that is no letter is comparing the byte. *)
Lemma lower_eqb a n : (n < 65 \/ 122 < n)%nat -> (byteN (lower_ascii a) =? n)%nat = (byteN a =? n)%nat.
Proof.
  intros Hn. destruct (lower_ascii_cases a) as [->|[H ->]]; [done|].
  rewrite (proj2 (Nat.eqb_neq (byteN a + 32) n)), (proj2 (Nat.eqb_neq (byteN a) n)) by lia. done.
Qed.
Lemma lower_leb_r a n : (122 < n)%nat -> (byteN (lower_ascii a) <=? n)%nat = (byteN a <=? n)%nat.
Proof.
  intros Hn. destruct (lower_ascii_cases a) as [->|[H ->]]; [done|].
  rewrite !(proj2 (Nat.leb_le _ _)) by lia. done.
Qed.
Lemma lower_leb_l a n : (122 < n)%nat -> (n <=? byteN (lower_ascii a))%nat = (n <=? byteN a)%nat.
Proof.
  intros Hn. destruct (lower_ascii_cases a) as [->|[H ->]]; [done|].
  rewrite !(proj2 (Nat.leb_gt _ _)) by lia. done.
Qed.

Lemma space1_lower a : space1 (lower_ascii a) = space1 a.
Proof.
  unfold space1. destruct (lower_ascii_cases a) as [->|[H ->]]; [done|].
  rewrite (proj2 (Nat.leb_gt (byteN a + 32) 13)), (proj2 (Nat.leb_gt (byteN a) 13)),
    (proj2 (Nat.eqb_neq (byteN a + 32) 32)), (proj2 (Nat.eqb_neq (byteN a) 32)) by lia.
  by rewrite !andb_false_r.
Qed.
Lemma space2_lower a b : space2 (lower_ascii a) (lower_ascii b) = space2 a b.
Proof. unfold space2. by rewrite !lower_eqb by lia. Qed.
Lemma space3_lower a b c : space3 (lower_ascii a) (lower_ascii b) (lower_ascii c) = space3 a b c.
Proof. unfold space3. cbv zeta. by rewrite !lower_eqb, ?lower_leb_l, ?lower_leb_r by lia. Qed.

(** An instance to compute with, exact on ASCII. *)
#[export] Program Instance exLower : GoLower := { ToLower := ToLowerASCII }.
Next Obligation.
  intros s. unfold ToLowerASCII. rewrite list_ascii_of_string_of_list_ascii. f_equal.
  rewrite <- list_fmap_compose. apply list_fmap_ext. intros _ a _. cbn.
  destruct (lower_ascii_cases a) as [E|[H E]]; [by rewrite !E|].
  unfold lower_ascii at 1. rewrite E. rewrite (proj2 (Nat.leb_gt (byteN a + 32) 90)) by lia.
  by rewrite andb_false_r.
Qed.
Next Obligation.
  intros s. unfold ToLowerASCII, TrimSpace, trim_left, trim_right.
  rewrite !list_ascii_of_string_of_list_ascii. f_equal.
  rewrite (trim_front_map lower_ascii) by (intros; by rewrite ?space1_lower, ?space2_lower, ?space3_lower).
  rewrite <- fmap_reverse.
  rewrite (trim_front_map lower_ascii) by (intros; by rewrite ?space1_lower, ?space2_lower, ?space3_lower).
  by rewrite fmap_reverse.
Qed.
Next Obligation. done. Qed.
Next Obligation. by intros []. Qed.

(** *** Trimming texts made of ASCII *)

Lemma list_ascii_app s t :
  list_ascii_of_string (s +:+ t) = (list_ascii_of_string s ++ list_ascii_of_string t)%list.
Proof. induction s as [|a s IH]; [done|]. cbn. by rewrite <- IH. Qed.

Lemma string_app_assoc s t u : s +:+ (t +:+ u) = (s +:+ t) +:+ u.
Proof. unfold String.append. induction s as [|a s IH]; [done|]. cbn. by f_equal. Qed.

Lemma ascii_text_app s t : ascii_text s -> ascii_text t -> ascii_text (s +:+ t).
Proof. unfold ascii_text. rewrite list_ascii_app. intros. by apply Forall_app. Qed.

(** [ascii_text] of a constant, by evaluation. *)
Ltac ascii_const := unfold ascii_text; apply (bool_decide_eq_true_1 _); vm_compute; reflexivity.

Lemma trim_front_ascii s2 s3 a l :
  space1 a = false -> (forall b, s2 a b = false) -> (forall b c, s3 a b c = false) ->
  trim_front space1 s2 s3 (a :: l) = a :: l.
Proof.
  intros H1 H2 H3. apply trim_front_id. unfold strip. rewrite H1.
  destruct l as [|b l]; [done|]. rewrite H2. destruct l as [|c l]; [done|]. by rewrite H3.
Qed.

(** A text with a letter or a sign at each end has nothing to trim. *)
Lemma TrimSpace_solid a l z :
  (byteN a < 128)%nat -> space1 a = false -> (byteN z < 128)%nat -> space1 z = false ->
  TrimSpace (string_of_list_ascii (a :: l ++ [z])) = string_of_list_ascii (a :: l ++ [z]).
Proof.
  intros Ha Ha1 Hz Hz1. unfold TrimSpace. rewrite list_ascii_of_string_of_list_ascii. f_equal.
  unfold trim_left. rewrite trim_front_ascii; [|done|..].
  - unfold trim_right.
    replace (reverse (a :: l ++ [z])) with (z :: reverse (a :: l))
      by (by rewrite app_comm_cons, reverse_app).
    rewrite trim_front_ascii; [|done|..].
    + by rewrite reverse_cons, reverse_involutive.
    + intros b. unfold space2. rewrite !(proj2 (Nat.eqb_neq (byteN z) _)) by lia. by rewrite andb_false_r.
    + intros b c. unfold space3. cbv zeta. rewrite !(proj2 (Nat.eqb_neq (byteN z) _)) by lia.
      rewrite !(proj2 (Nat.leb_gt _ (byteN z))) by lia. by rewrite !andb_false_r.
  - intros b. unfold space2. by rewrite (proj2 (Nat.eqb_neq (byteN a) _)) by lia.
  - intros b c. unfold space3. cbv zeta. by rewrite !(proj2 (Nat.eqb_neq (byteN a) _)) by lia.
Qed.

(** The last byte of a trimmed text is no white space. *)
Lemma TrimSpace_last s l z :
  list_ascii_of_string (TrimSpace s) = (l ++ [z])%list -> space1 z = false.
Proof.
  unfold TrimSpace. rewrite list_ascii_of_string_of_list_ascii. unfold trim_right.
  set (r := trim_front _ _ _ (reverse _)). intros E.
  assert (Hc : strip space1 (fun a b => space2 b a) (fun a b c => space3 c b a) r = None)
    by apply trim_front_clean.
  apply (f_equal reverse) in E. rewrite reverse_involutive, reverse_app in E. cbn in E.
  rewrite E in Hc. cbn [strip] in Hc. by destruct (space1 z).
Qed.

Lemma length_ascii s : String.length s = List.length (list_ascii_of_string s).
Proof. induction s; cbn; congruence. Qed.

(** Trimming takes bytes away. *)
Lemma TrimSpace_length s : (String.length (TrimSpace s) <= String.length s)%nat.
Proof.
  rewrite !length_ascii. unfold TrimSpace. rewrite list_ascii_of_string_of_list_ascii.
  set (l := list_ascii_of_string s). destruct (trim_front_suffix space1 space2 space3 l) as [p Hp].
  destruct (trim_right_prefix (trim_left l)) as [r Hr]. fold (trim_left l) in Hp.
  apply (f_equal List.length) in Hp, Hr. rewrite length_app in *. lia.
Qed.

Lemma TrimSpace_same_length s :
  String.length (TrimSpace s) = String.length s -> TrimSpace s = s.
Proof.
  rewrite !length_ascii. unfold TrimSpace. rewrite list_ascii_of_string_of_list_ascii.
  set (l := list_ascii_of_string s). intros E.
  destruct (trim_front_suffix space1 space2 space3 l) as [p Hp]. fold (trim_left l) in Hp.
  destruct (trim_right_prefix (trim_left l)) as [r Hr].
  assert (p = [] /\ r = []) as [-> ->].
  { pose proof (f_equal List.length Hp) as H1. pose proof (f_equal List.length Hr) as H2.
    rewrite length_app in H1, H2. split; apply length_zero_iff_nil; lia. }
  rewrite app_nil_r in Hr. rewrite <- Hr. cbn in Hp. rewrite <- Hp.
  apply string_of_list_ascii_of_string.
Qed.

Lemma ascii_text_TrimSpace s : ascii_text s -> ascii_text (TrimSpace s).
Proof.
  unfold ascii_text, TrimSpace. rewrite list_ascii_of_string_of_list_ascii.
  set (l := list_ascii_of_string s).
  destruct (trim_front_suffix space1 space2 space3 l) as [p Hp]. fold (trim_left l) in Hp.
  destruct (trim_right_prefix (trim_left l)) as [r Hr]. intros Hl.
  rewrite Hp, Forall_app in Hl. destruct Hl as [_ Hl]. rewrite Hr, Forall_app in Hl. apply Hl.
Qed.

(** A trimmed text after a solid first byte. *)
Lemma TrimSpace_prefixed a p s :
  (byteN a < 128)%nat -> space1 a = false -> ascii_text s -> TrimSpace s <> "" ->
  TrimSpace (String a p +:+ TrimSpace s) = String a p +:+ TrimSpace s.
Proof.
  intros Ha Ha1 Hs Hne. pose proof (ascii_text_TrimSpace _ Hs) as Ht. unfold ascii_text in Ht.
  destruct (list_ascii_of_string (TrimSpace s)) as [|z l _] eqn:E using rev_ind.
  { by destruct (TrimSpace s). }
  rewrite Forall_app in Ht. destruct Ht as [_ Hz]. inversion Hz as [|? ? Hz1 _]; subst.
  assert (Hk : String a p +:+ TrimSpace s
    = string_of_list_ascii (a :: (list_ascii_of_string p ++ l) ++ [z])).
  { rewrite <- (string_of_list_ascii_of_string (String a p +:+ _)), list_ascii_app, E. cbn.
    by rewrite <- app_assoc. }
  rewrite Hk. apply TrimSpace_solid; [done|done|done|]. by eapply TrimSpace_last.
Qed.

Lemma ToLowerASCII_length s : String.length (ToLowerASCII s) = String.length s.
Proof.
  unfold ToLowerASCII. induction s as [|a s IH]; [done|]. cbn. by f_equal.
Qed.

(** *** The order of strings *)

Lemma string_ltb_asym a b : String.ltb a b = true -> String.ltb b a = false.
Proof.
  unfold String.ltb. rewrite (String.compare_antisym a b). by destruct (String.compare b a).
Qed.

Lemma string_compare_trans a b c :
  String.compare a b <> Lt -> String.compare b c <> Lt -> String.compare a c <> Lt.
Proof.
  revert b c. induction a as [|x a IH]; intros [|y b] [|z c]; cbn; try done.
  unfold Ascii.compare. destruct (N.compare_spec (N_of_ascii x) (N_of_ascii y));
    destruct (N.compare_spec (N_of_ascii y) (N_of_ascii z)); try done;
    destruct (N.compare_spec (N_of_ascii x) (N_of_ascii z)); try done; try lia. apply IH.
Qed.

Lemma string_ltb_neg_trans a b c :
  String.ltb a b = false -> String.ltb b c = false -> String.ltb a c = false.
Proof.
  unfold String.ltb. intros H1 H2. pose proof (string_compare_trans a b c) as H.
  destruct (String.compare a b), (String.compare b c), (String.compare a c); try done; by destruct H.
Qed.

Lemma string_ltb_total a b : String.ltb a b = false -> String.ltb b a = false -> a = b.
Proof.
  unfold String.ltb. rewrite (String.compare_antisym b a).
  destruct (String.compare a b) eqn:E; try done. intros _ _. by apply String.compare_eq_iff.
Qed.

(** ** Bytes

    A byte slice is the list of its values. *)
Definition string_bytes (s : string) : list Z :=
  (fun a => Z.of_nat (byteN a)) <$> list_ascii_of_string s.

(** string(b) of a byte slice. *)
Definition bytes_string (bs : list Z) : string :=
  string_of_list_ascii ((fun z => ascii_of_nat (Z.to_nat z)) <$> bs).

Lemma bytes_string_bytes s : bytes_string (string_bytes s) = s.
Proof.
  unfold bytes_string, string_bytes. rewrite <- list_fmap_compose.
  rewrite <- (string_of_list_ascii_of_string s) at 2. f_equal.
  rewrite <- (list_fmap_id (list_ascii_of_string s)) at 2. apply list_fmap_ext. intros _ a _. cbn.
  rewrite Nat2Z.id. apply ascii_nat_embedding.
Qed.

Definition hex_digit (n : Z) : ascii :=
  ascii_of_nat (Z.to_nat (if n <? 10 then 48 + n else 87 + n)).

(** hex.EncodeToString *)
Definition hexEncode (bs : list Z) : string :=
  string_of_list_ascii (List.concat ((fun b => [hex_digit (b / 16); hex_digit (b mod 16)]) <$> bs)).

(** ** Results and the error-state monad

    A Go function that returns [(A, error)] returns [Ok a] or [Err e]; one that also
    changes state of type [W] is a computation [M W A]. The state reached before
    an error is kept, as Go does not undo the assignments made so far. *)
Inductive result (E A : Type) : Type :=
| Ok (a : A)
| Err (e : E).
Arguments Ok {E A} _.
Arguments Err {E A} _.

#[export] Instance result_eq_dec {E A} `{EqDecision E, EqDecision A} : EqDecision (result E A).
Proof. solve_decision. Defined.

Definition is_ok {E A} (r : result E A) : bool := match r with Ok _ => true | Err _ => false end.

Definition bindR {E A B} (r : result E A) (k : A -> result E B) : result E B :=
  match r with Ok a => k a | Err e => Err e end.

Definition M (W E A : Type) : Type := W -> W * result E A.

Section Monad.
Context {W E : Type}.
Definition retM {A} (a : A) : M W E A := fun w => (w, Ok a).
Definition failM {A} (e : E) : M W E A := fun w => (w, Err e).
Definition bindM {A B} (m : M W E A) (k : A -> M W E B) : M W E B :=
  fun w => let '(w', r) := m w in
           match r with Ok a => k a w' | Err e => (w', Err e) end.
Definition liftM {A} (r : result E A) : M W E A := fun w => (w, r).
Definition getM : M W E W := fun w => (w, Ok w).
Definition putM (w' : W) : M W E unit := fun _ => (w', Ok tt).
Definition modifyM (f : W -> W) : M W E unit := fun w => (f w, Ok tt).
(** [if b { return e }] *)
Definition rejectM (b : bool) (e : E) : M W E unit :=
  if b then failM e else retM tt.
End Monad.

Declare Scope go_scope.
Delimit Scope go_scope with go.
Notation "'let!' x ':=' m 'in' k" := (bindM m (fun x => k))
  (at level 10, x name, m at level 100, k at level 200) : go_scope.
Notation "'let!' ' p ':=' m 'in' k" := (bindM m (fun x => match x with p => k end))
  (at level 10, p pattern, m at level 100, k at level 200) : go_scope.
Notation "m ';;!' k" := (bindM m (fun _ => k))
  (at level 100, k at level 200, right associativity) : go_scope.
Notation "'try!' x ':=' m 'in' k" := (bindR m (fun x => k))
  (at level 10, x name, m at level 100, k at level 200) : go_scope.
(** Boolean equality of two comparable Go values. *)
Notation "a '==' b" := (bool_decide (a = b)) (at level 70) : go_scope.
Open Scope go_scope.

(** A sequence that succeeds is two steps that succeed. *)
Lemma bindM_inv {W E A B} (m : M W E A) (k : A -> M W E B) w w' b :
  bindM m k w = (w', Ok b) -> exists w1 a, m w = (w1, Ok a) /\ k a w1 = (w', Ok b).
Proof. unfold bindM. destruct (m w) as [w1 [a|e]]; [|done]. by exists w1, a. Qed.

(** *** Preservation of a state invariant by a computation, whatever its outcome *)
Definition preserves {W E A} (I : W -> Prop) (m : M W E A) : Prop :=
  forall w, I w -> I (fst (m w)).

Section Preserves.
Context {W E : Type} (I : W -> Prop).

Lemma preserves_ret {A} (a : A) : preserves (E:=E) I (retM a).
Proof. by intros w. Qed.
Lemma preserves_fail {A} (e : E) : preserves (A:=A) I (failM e).
Proof. by intros w. Qed.
Lemma preserves_lift {A} (r : result E A) : preserves I (liftM r).
Proof. by intros w. Qed.
Lemma preserves_get : preserves (E:=E) I getM.
Proof. by intros w. Qed.
Lemma preserves_reject b (e : E) : preserves I (rejectM b e).
Proof. by destruct b; intros w. Qed.
Lemma preserves_modify (f : W -> W) :
  (forall w, I w -> I (f w)) -> preserves (E:=E) I (modifyM f).
Proof. intros Hf w. apply Hf. Qed.
Lemma preserves_bind {A B} (m : M W E A) (k : A -> M W E B) :
  preserves I m -> (forall a, preserves I (k a)) -> preserves I (bindM m k).
Proof.
  intros Hm Hk w Hw. unfold bindM. specialize (Hm w Hw).
  destruct (m w) as [w' [a|e]]; [by apply Hk|done].
Qed.
Lemma preserves_if {A} (b : bool) (m1 m2 : M W E A) :
  preserves I m1 -> preserves I m2 -> preserves I (if b then m1 else m2).
Proof. by destruct b. Qed.
End Preserves.

(** *** Weakest preconditions: every outcome of [m] from [w] satisfies [Q] *)
Definition wp {W E A} (m : M W E A) (Q : W -> result E A -> Prop) (w : W) : Prop :=
  let '(w', r) := m w in Q w' r.

Section WP.
Context {W E : Type}.

Lemma wp_bind {A B} (m : M W E A) (k : A -> M W E B) Q w :
  wp m (fun w' r => match r with Ok a => wp (k a) Q w' | Err e => Q w' (Err e) end) w ->
  wp (bindM m k) Q w.
Proof. unfold wp, bindM. by destruct (m w) as [w' [a|e]]. Qed.
Lemma wp_ret {A} (a : A) (Q : W -> result E A -> Prop) w : Q w (Ok a) -> wp (retM a) Q w.
Proof. done. Qed.
Lemma wp_fail {A} (e : E) (Q : W -> result E A -> Prop) w : Q w (Err e) -> wp (failM e) Q w.
Proof. done. Qed.
Lemma wp_lift {A} (r : result E A) (Q : W -> result E A -> Prop) w :
  (forall a, r = Ok a -> Q w (Ok a)) -> (forall e, r = Err e -> Q w (Err e)) -> wp (liftM r) Q w.
Proof. unfold wp, liftM. destruct r; auto. Qed.
Lemma wp_reject b (e : E) (Q : W -> result E unit -> Prop) w :
  (b = true -> Q w (Err e)) -> (b = false -> Q w (Ok tt)) -> wp (rejectM b e) Q w.
Proof. unfold wp, rejectM, failM, retM. destruct b; auto. Qed.
Lemma wp_if {A} (b : bool) (m1 m2 : M W E A) Q w :
  (b = true -> wp m1 Q w) -> (b = false -> wp m2 Q w) -> wp (if b then m1 else m2) Q w.
Proof. destruct b; auto. Qed.
Lemma wp_run {A} (m : M W E A) Q w : wp m Q w -> Q (fst (m w)) (snd (m w)).
Proof. unfold wp. by destruct (m w). Qed.
End WP.

(** ** Errors

    The sentinel errors of the Go packages, compared by identity; [errorsNew] is
    an error created in place by [errors.New] (or handed in by an injected
    function) with its text; [errorsJoin] is errors.Join of two errors and [categorizedError]
    the wrapper of domains/contracts. *)
Inductive error :=
| ErrGroupNotFound | ErrInvalidGroupTitle | ErrGroupMembershipNotFound
| ErrGroupPermissionDenied | ErrGroupCannotInviteSelf | ErrGroupMemberBlocked
| ErrGroupSenderBlocked | ErrInvalidGroupMemberState | ErrGroupRateLimitExceeded
| ErrGroupMemberLimitExceeded | ErrGroupPendingInvitesLimitExceeded
| ErrInvalidGroupMessageContent
| ErrInvalidGroupID | ErrInvalidGroupMemberID | ErrInvalidGroupMemberRole
| ErrInvalidGroupMemberStatus | ErrInvalidGroupMemberStatusTransition
| ErrInvalidGroupEventID | ErrInvalidGroupEventType | ErrInvalidGroupEventVersion
| ErrInvalidGroupEventActorID | ErrInvalidGroupEventPayload | ErrOutOfOrderGroupEvent
| ErrMessageIDConflict
| ErrInvalidPeerKey | ErrInvalidContact | ErrSessionNotFound | ErrReplayDetected
| ErrInvalidChainIndex
| ErrAuthFailed | ErrInvalidEnvelope | ErrLegacyData | ErrUnsupportedStorageSchema
| fsErrNotExist | ErrInvalidIdentityID
| ErrInvalidMessagePrivacyMode | ErrInvalidStorageProtectionMode | ErrInvalidContentRetentionMode
| ErrInvalidTTLSeconds | ErrInvalidStoragePolicyScope | ErrInvalidStoragePolicyScopeID
| ErrInfiniteTTLRequiresPinned
| ErrInboundBlockedSender | ErrInboundUnknownContactsOnly | ErrInboundUnknownMessageReq
| ErrInboundRejected
| ErrMessageRequestNotFound | ErrOutboundSessionRequired | ErrInvalidGroupWirePayload
| ErrInvalidContactCard | ErrIdentityMismatch | ErrInvalidContactID | ErrContactKeyMismatch
| ErrDeviceNotFound | ErrDeviceRevoked | ErrInvalidDeviceSig | ErrInvalidDeviceCert
| ErrUnverifiedContact
| ErrAttachmentNotFound | ErrAttachmentHardCapReached | ErrAttachmentTemporarilyUnavailable
| ErrAttachmentAccessDenied
| ErrInvalidMnemonic | ErrInvalidPassword | ErrSeedNotAvailable | ErrPasswordRequired
| ErrMnemonicRequired | ErrIdentityInit | ErrPasswordLocked
| errorsNew (text : string)
| errorsJoin (e1 e2 : error)
| categorizedError (category : string) (e : error).

#[export] Instance error_eq_dec : EqDecision error.
Proof. unfold EqDecision, Decision. decide equality; apply String.string_dec. Defined.

(** ** Map iteration and sorting

    [range] visits the entries of a map in an order the language leaves open (and changes from
    one loop to the next), and [sort.Slice] is not stable. Code that uses them is written
    against this interface, one instance per call; a theorem that holds for every instance
    holds whatever the runtime does. *)

(** The orders [sort.Slice] accepts. *)
Record weak_order {A : Type} (less : A -> A -> bool) : Prop := {
  wo_asym : forall a b, less a b = true -> less b a = false;
  wo_neg : forall a b c, less a b = false -> less b c = false -> less a c = false
}.

Class GoRuntime := {
  rangeMap : forall {A : Type}, gmap string A -> list (string * A);
  sortSlice : forall {A : Type}, (A -> A -> bool) -> list A -> list A;
  rangeMap_perm : forall A (m : gmap string A), rangeMap m ≡ₚ map_to_list m;
  sortSlice_perm : forall A (less : A -> A -> bool) l, sortSlice less l ≡ₚ l;
  sortSlice_sorted : forall A (less : A -> A -> bool) l,
    weak_order less -> StronglySorted (fun a b => less b a = false) (sortSlice less l)
}.

(** A runtime to compute with: entries in the order of the map, insertion sort. *)
Fixpoint insertSorted {A} (less : A -> A -> bool) (x : A) (l : list A) : list A :=
  match l with
  | [] => [x]
  | y :: l' => if less y x then y :: insertSorted less x l' else x :: l
  end.

Definition insertionSort {A} (less : A -> A -> bool) (l : list A) : list A :=
  foldr (insertSorted less) [] l.

Lemma insertSorted_perm {A} (less : A -> A -> bool) x l : insertSorted less x l ≡ₚ x :: l.
Proof.
  induction l as [|y l IH]; cbn; [done|]. destruct (less y x); [|done].
  rewrite IH. apply Permutation_swap.
Qed.

Lemma insertionSort_perm {A} (less : A -> A -> bool) l : insertionSort less l ≡ₚ l.
Proof. induction l as [|x l IH]; cbn; [done|]. by rewrite insertSorted_perm, IH. Qed.

Lemma insertSorted_sorted {A} (less : A -> A -> bool) x l :
  weak_order less -> StronglySorted (fun a b => less b a = false) l ->
  StronglySorted (fun a b => less b a = false) (insertSorted less x l).
Proof.
  intros Hw. induction l as [|y l IH]; intros Hs; cbn; [by repeat constructor|].
  inversion Hs as [|? ? Hl Hy]; subst. destruct (less y x) eqn:E.
  - constructor; [by apply IH|]. rewrite insertSorted_perm. constructor; [|done].
    by apply (wo_asym _ Hw).
  - constructor; [done|]. constructor; [done|]. revert Hy. apply Forall_impl.
    intros z Hz. by apply (wo_neg _ Hw z y x).
Qed.

#[export] Program Instance exRuntime : GoRuntime := {
  rangeMap A m := map_to_list m;
  sortSlice A less l := insertionSort less l
}.
Next Obligation. done. Qed.
Next Obligation. intros. apply insertionSort_perm. Qed.
Next Obligation.
  intros A less l Hw. induction l as [|x l IH]; cbn; [constructor|]. by apply insertSorted_sorted.
Qed.

Lemma filter_all {A} (P : A -> Prop) `{!forall x, Decision (P x)} (l : list A) :
  (forall x, x ∈ l -> P x) -> filter P l = l.
Proof.
  induction l as [|x l IH]; intros HP; [done|]. rewrite filter_cons_True by (apply HP; left).
  f_equal. apply IH. intros y Hy. apply HP. by right.
Qed.

(** A loop over a map that puts each entry into another map copies it. *)
Lemma rebuild_map (rt : GoRuntime) {A} (m : gmap string A)
    (f : gmap string A -> string * A -> gmap string A) :
  (forall k a out, m !! k = Some a -> f out (k, a) = <[k := a]> out) ->
  fold_left f (rangeMap m) ∅ = m.
Proof.
  intros Hf. assert (Hgen : forall (l : list (string * A)) (out : gmap string A),
    Forall (fun ka => m !! fst ka = Some (snd ka)) l -> NoDup l.*1 ->
    (forall k, k ∈ l.*1 -> out !! k = None) -> fold_left f l out = out ∪ list_to_map l).
  { induction l as [|[k a] l IH]; intros out Hl Hnd Hout; cbn [fold_left list_to_map foldr];
      [by rewrite map_union_empty|].
    inversion Hl as [|? ? Hk Hl']; inversion Hnd as [|? ? Hn Hnd']; subst. cbn in Hk. rewrite (Hf _ _ _ Hk).
    rewrite IH; [|done|done|].
    - rewrite <- insert_union_l, <- insert_union_r; [done|]. apply Hout. left.
    - intros k' Hk'. rewrite lookup_insert_ne; [apply Hout; by right|]. by intros ->. }
  assert (Hnd : NoDup (rangeMap m).*1) by (rewrite rangeMap_perm; apply NoDup_fst_map_to_list).
  rewrite Hgen; [|..|done|intros; apply lookup_empty].
  - rewrite map_empty_union. transitivity (list_to_map (map_to_list m) : gmap string A).
    + apply list_to_map_proper; [done|]. apply rangeMap_perm.
    + apply list_to_map_to_list.
  - apply list.Forall_forall. intros [k a] Hk. rewrite rangeMap_perm in Hk. by apply elem_of_map_to_list in Hk.
Qed.

Lemma fold_left_fmap {A B C} (f : C -> B -> C) (g : A -> B) (l : list A) c :
  fold_left f (g <$> l) c = fold_left (fun c a => f c (g a)) l c.
Proof. revert c. induction l as [|a l IH]; intros c; [done|]. cbn. apply IH. Qed.

(** Two sorted permutations of a list whose elements the order tells apart are the same. *)
Lemma sorted_unique {A} (less : A -> A -> bool) (l1 l2 : list A) :
  StronglySorted (fun a b => less b a = false) l1 ->
  StronglySorted (fun a b => less b a = false) l2 ->
  l1 ≡ₚ l2 ->
  (forall a b, a ∈ l1 -> b ∈ l1 -> less a b = false -> less b a = false -> a = b) ->
  l1 = l2.
Proof.
  revert l2. induction l1 as [|x l1 IH]; intros l2 H1 H2 Hp Hd.
  - symmetry. by apply Permutation_nil.
  - destruct l2 as [|y l2]; [by apply Permutation_nil_r in Hp|].
    inversion H1 as [|? ? H1' Hx]; inversion H2 as [|? ? H2' Hy]; subst.
    assert (x = y) as ->.
    { assert (Hxin : x ∈ y :: l2) by (rewrite <- Hp; left).
      assert (Hyin : y ∈ x :: l1) by (rewrite Hp; left).
      apply elem_of_cons in Hxin as [|Hxin]; [done|].
      apply elem_of_cons in Hyin as [|Hyin]; [done|].
      rewrite list.Forall_forall in Hx, Hy. apply Hd; [left|by right|..].
      - by apply Hy.
      - by apply Hx. }
    f_equal. apply IH; try done.
    + by apply Permutation_cons_inv in Hp.
    + intros a b Ha Hb. apply Hd; by right.
Qed.

(** In a sorted list every element stands before those of a later part. *)
Lemma sorted_app_elem {A} (R : A -> A -> Prop) l1 l2 a b :
  StronglySorted R (l1 ++ l2) -> a ∈ l1 -> b ∈ l2 -> R a b.
Proof.
  induction l1 as [|x l1 IH]; cbn; intros Hs Ha Hb; [by apply not_elem_of_nil in Ha|].
  inversion Hs as [|? ? Hs' Hx]; subst. apply elem_of_cons in Ha as [->|Ha]; [|by apply IH].
  rewrite list.Forall_forall in Hx. apply Hx, elem_of_app. by right.
Qed.

(** The state a computation ends in, when its outcome is known. *)
Lemma run_eta {W E A} (m : M W E A) w r : snd (m w) = r -> m w = (fst (m w), r).
Proof. intros <-. by destruct (m w). Qed.

(** ** Encodings to compute with: one number per field *)

Definition zs (s : string) : Z := Zpos (encode s).
Definition unzs (z : Z) : string :=
  match z with Zpos p => default "" (decode p) | _ => "" end.
Definition zb (b : bool) : Z := if b then 1 else 0.
Definition unzb (z : Z) : bool := z =? 1.

Lemma unzs_zs s : unzs (zs s) = s.
Proof. unfold unzs, zs. by rewrite decode_encode. Qed.
Lemma unzb_zb b : unzb (zb b) = b.
Proof. by destruct b. Qed.

Definition zenc {A} `{Countable A} (a : A) : Z := Zpos (encode a).
Definition zdec {A} `{Countable A} (z : Z) : option A :=
  match z with Zpos p => decode p | _ => None end.

Lemma zdec_zenc {A} `{Countable A} (a : A) : zdec (zenc a) = Some a.
Proof. apply decode_encode. Qed.

(** ** Shared tactics and hints *)

Create HintDb go.
#[export] Hint Resolve preserves_ret preserves_fail preserves_lift preserves_get
  preserves_reject : go.

(** Split on every [bool_decide] of the goal and the hypotheses. *)
Ltac bdecide :=
  repeat (case_bool_decide; simplify_eq/=; try done).

(** Compute a step of a monadic program whose state is known. *)
Ltac run := cbv [bindM retM failM liftM getM putM modifyM rejectM bindR] in *; cbn beta iota zeta in *.

Example TrimSpace_ex1 : TrimSpace "  a b	 " = "a b". Proof. reflexivity. Qed.
