(* ===== verification/Privacy.v ===== *)
(** * Privacy settings, block list and inbound policy

    Models internal/domains/privacy/model (settings.go, blocklist.go) and policy
    (inbound_policy.go, inbound_group_invite_policy.go): the settings record with its
    normalization, the storage policies per scope, the block list, and the decision what to do
    with a message or an invitation. Modes and scopes are Go strings with named constants and
    stay strings, as other values do occur (in a file, in a request). *)
From S2P Require Import Prelude.
From stdpp Require Import base gmap strings list sets option.
From Stdlib Require Import ZArith Lia Sorted.
Open Scope string_scope.
Open Scope Z_scope.
Open Scope go_scope.

(** ** Modes *)

Definition MessagePrivacyContactsOnly : string := "contacts_only".
Definition MessagePrivacyRequests : string := "requests".
Definition MessagePrivacyEveryone : string := "everyone".
Definition StorageProtectionStandard : string := "standard".
Definition StorageProtectionProtected : string := "protected".
Definition RetentionPersistent : string := "persistent".
Definition RetentionEphemeral : string := "ephemeral".
Definition RetentionZeroRetention : string := "zero_retention".
Definition StoragePolicyScopeGlobal : string := "global".
Definition StoragePolicyScopeGroup : string := "group".
Definition StoragePolicyScopeChannel : string := "channel".
Definition StoragePolicyScopeChat : string := "chat".

Definition DefaultMessagePrivacyMode : string := MessagePrivacyEveryone.
Definition DefaultStorageProtectionMode : string := StorageProtectionStandard.
Definition DefaultContentRetentionMode : string := RetentionPersistent.
Definition DefaultEphemeralMessageTTLSeconds : Z := 86400.
Definition CurrentProfileSchemaVersion : Z := 2.
Definition DefaultEphemeralFileTTLSeconds : Z := 0.

Definition MessagePrivacyMode_Valid (m : string) : bool :=
  (m == MessagePrivacyContactsOnly) || (m == MessagePrivacyRequests) || (m == MessagePrivacyEveryone).
Definition StorageProtectionMode_Valid (m : string) : bool :=
  (m == StorageProtectionStandard) || (m == StorageProtectionProtected).
Definition ContentRetentionMode_Valid (m : string) : bool :=
  (m == RetentionPersistent) || (m == RetentionEphemeral) || (m == RetentionZeroRetention).
Definition StoragePolicyScope_Valid (s : string) : bool :=
  (s == StoragePolicyScopeGlobal) || (s == StoragePolicyScopeGroup)
  || (s == StoragePolicyScopeChannel) || (s == StoragePolicyScopeChat).

(** ** Records *)

Record StoragePolicy := mkPolicy {
  sp_StorageProtection : string; sp_ContentRetentionMode : string;
  sp_MessageTTLSeconds : Z; sp_ImageTTLSeconds : Z; sp_FileTTLSeconds : Z;
  sp_ImageQuotaMB : Z; sp_FileQuotaMB : Z; sp_ImageMaxItemSizeMB : Z; sp_FileMaxItemSizeMB : Z
}.

Record StoragePolicyOverride := mkOverride {
  so_StorageProtection : string; so_ContentRetentionMode : string;
  so_MessageTTLSeconds : Z; so_ImageTTLSeconds : Z; so_FileTTLSeconds : Z;
  so_ImageQuotaMB : Z; so_FileQuotaMB : Z; so_ImageMaxItemSizeMB : Z; so_FileMaxItemSizeMB : Z;
  so_InfiniteTTL : bool; so_PinRequiredForInfinite : bool
}.

Record NodePersonalPolicy := mkPersonal {
  np_StoreEnabled : bool; np_TTLDays : Z; np_QuotaMB : Z; np_PinEnabled : bool
}.

Record NodePublicPolicy := mkPublic {
  nu_RelayEnabled : bool; nu_DiscoveryEnabled : bool; nu_ServingEnabled : bool;
  nu_StoreEnabled : bool; nu_TTLDays : Z; nu_QuotaMB : Z
}.

Record NodePolicies := mkNodePolicies {
  nd_ProfileSchemaVersion : Z; nd_Personal : NodePersonalPolicy; nd_Public : NodePublicPolicy
}.

(** [ps_StorageScopeOverrides] is a map, [None] for nil; [ps_NodePolicies] a pointer. *)
Record PrivacySettings := mkSettings {
  ps_ProfileSchemaVersion : Z;
  ps_MessagePrivacyMode : string; ps_StorageProtection : string; ps_ContentRetentionMode : string;
  ps_MessageTTLSeconds : Z; ps_ImageTTLSeconds : Z; ps_FileTTLSeconds : Z;
  ps_ImageQuotaMB : Z; ps_FileQuotaMB : Z; ps_ImageMaxItemSizeMB : Z; ps_FileMaxItemSizeMB : Z;
  ps_StorageScopeOverrides : option (gmap string StoragePolicyOverride);
  ps_NodePolicies : option NodePolicies
}.

#[export] Instance StoragePolicyOverride_eq_dec : EqDecision StoragePolicyOverride.
Proof. solve_decision. Defined.
#[export] Instance NodePersonalPolicy_eq_dec : EqDecision NodePersonalPolicy.
Proof. solve_decision. Defined.
#[export] Instance NodePublicPolicy_eq_dec : EqDecision NodePublicPolicy.
Proof. solve_decision. Defined.
#[export] Instance NodePolicies_eq_dec : EqDecision NodePolicies.
Proof. solve_decision. Defined.
#[export] Instance PrivacySettings_eq_dec : EqDecision PrivacySettings.
Proof. solve_decision. Defined.

Definition DefaultNodePolicies : NodePolicies :=
  mkNodePolicies CurrentProfileSchemaVersion (mkPersonal true 0 (10 * 1024) true)
    (mkPublic true true true false 0 0).

Definition DefaultPrivacySettings : PrivacySettings :=
  mkSettings CurrentProfileSchemaVersion DefaultMessagePrivacyMode DefaultStorageProtectionMode
    DefaultContentRetentionMode 0 0 0 0 0 0 0 None (Some DefaultNodePolicies).

Definition normalizeProfileSchemaVersion (v : Z) : Z :=
  if v <=? 0 then CurrentProfileSchemaVersion else
  if CurrentProfileSchemaVersion <? v then CurrentProfileSchemaVersion else v.

Definition normalizeTTLSeconds (v : Z) : Z := if v <? 0 then 0 else v.
Definition normalizeLimitValue (v : Z) : Z := if v <? 0 then 0 else v.

Definition normalizeNodePolicies (inp : option NodePolicies) : NodePolicies :=
  match inp with
  | None => DefaultNodePolicies
  | Some inp =>
      let per := nd_Personal inp in let pub := nd_Public inp in
      mkNodePolicies (normalizeProfileSchemaVersion (nd_ProfileSchemaVersion inp))
        (mkPersonal (np_StoreEnabled per) (normalizeLimitValue (np_TTLDays per))
           (normalizeLimitValue (np_QuotaMB per)) (np_PinEnabled per))
        (mkPublic (nu_RelayEnabled pub) (nu_DiscoveryEnabled pub) (nu_ServingEnabled pub)
           (nu_StoreEnabled pub) (normalizeLimitValue (nu_TTLDays pub))
           (normalizeLimitValue (nu_QuotaMB pub)))
  end.

(** ** Parsing *)

Definition ParseMessagePrivacyMode (raw : string) : result error string :=
  let mode := TrimSpace raw in
  if negb (MessagePrivacyMode_Valid mode) then Err ErrInvalidMessagePrivacyMode else Ok mode.
Definition ParseStorageProtectionMode (raw : string) : result error string :=
  let mode := TrimSpace raw in
  if negb (StorageProtectionMode_Valid mode) then Err ErrInvalidStorageProtectionMode else Ok mode.
Definition ParseContentRetentionMode (raw : string) : result error string :=
  let mode := TrimSpace raw in
  if negb (ContentRetentionMode_Valid mode) then Err ErrInvalidContentRetentionMode else Ok mode.

(** ** Normalization

    The scalar part of [NormalizePrivacySettings]: modes that are not valid get their default,
    negative numbers become zero, and the times to live are those of the retention mode. *)

Definition normalMode (valid : string -> bool) (dflt m : string) : string :=
  if negb (valid m) then dflt else m.

(** The two last conditionals, on one of the times to live. *)
Definition retentionTTL (retention : string) (dflt v : Z) : Z :=
  let v := normalizeTTLSeconds v in
  let v := if negb (retention == RetentionEphemeral) then 0 else v in
  if retention == RetentionEphemeral then (if v =? 0 then dflt else v) else v.

Section Settings.
Context `{GoRuntime} `{GoLower}.

Definition normalizeScope (scopeRaw scopeIDRaw : string) : result error (string * string) :=
  let scope := ToLower (TrimSpace scopeRaw) in
  if negb (StoragePolicyScope_Valid scope) then Err ErrInvalidStoragePolicyScope else
  let scopeID := TrimSpace scopeIDRaw in
  if scope == StoragePolicyScopeGlobal then Ok (scope, "") else
  if scopeID == "" then Err ErrInvalidStoragePolicyScopeID else Ok (scope, scopeID).

Definition ScopeOverrideKey (scopeRaw scopeIDRaw : string) : result error string :=
  try! ss := normalizeScope scopeRaw scopeIDRaw in
  let '(scope, scopeID) := ss in
  if scope == StoragePolicyScopeGlobal then Ok scope else Ok (scope +:+ ":" +:+ scopeID).

(** [NormalizePrivacySettings] and the override normalization call each other, but only through
    settings without overrides; [normalizePolicy] is what that call does to the fields of a policy. *)
Definition normalizePolicy (inp : StoragePolicy) : StoragePolicy :=
  let protection := normalMode StorageProtectionMode_Valid DefaultStorageProtectionMode
                      (sp_StorageProtection inp) in
  let retention := normalMode ContentRetentionMode_Valid DefaultContentRetentionMode
                     (sp_ContentRetentionMode inp) in
  mkPolicy protection retention
    (retentionTTL retention DefaultEphemeralMessageTTLSeconds (sp_MessageTTLSeconds inp))
    (retentionTTL retention 0 (sp_ImageTTLSeconds inp))
    (retentionTTL retention DefaultEphemeralFileTTLSeconds (sp_FileTTLSeconds inp))
    (normalizeLimitValue (sp_ImageQuotaMB inp)) (normalizeLimitValue (sp_FileQuotaMB inp))
    (normalizeLimitValue (sp_ImageMaxItemSizeMB inp)) (normalizeLimitValue (sp_FileMaxItemSizeMB inp)).

Definition NormalizeStoragePolicyOverride (inp : StoragePolicyOverride) : StoragePolicyOverride :=
  let base := normalizePolicy
    (mkPolicy (so_StorageProtection inp) (so_ContentRetentionMode inp) (so_MessageTTLSeconds inp)
       (so_ImageTTLSeconds inp) (so_FileTTLSeconds inp) (so_ImageQuotaMB inp) (so_FileQuotaMB inp)
       (so_ImageMaxItemSizeMB inp) (so_FileMaxItemSizeMB inp)) in
  let inf := so_InfiniteTTL inp in
  mkOverride (sp_StorageProtection base)
    (if inf then RetentionPersistent else sp_ContentRetentionMode base)
    (if inf then 0 else sp_MessageTTLSeconds base) (if inf then 0 else sp_ImageTTLSeconds base)
    (if inf then 0 else sp_FileTTLSeconds base)
    (sp_ImageQuotaMB base) (sp_FileQuotaMB base) (sp_ImageMaxItemSizeMB base)
    (sp_FileMaxItemSizeMB base) inf (so_PinRequiredForInfinite inp).

(** One round of the loop over the overrides. *)
Definition addOverride (out : gmap string StoragePolicyOverride)
    (entry : string * StoragePolicyOverride) : gmap string StoragePolicyOverride :=
  let '(key, override) := entry in
  let key := TrimSpace (ToLower key) in
  if key == "" then out else <[key := NormalizeStoragePolicyOverride override]> out.

Definition normalizeStorageScopeOverrides (inp : option (gmap string StoragePolicyOverride))
    : gmap string StoragePolicyOverride :=
  match inp with
  | None => ∅
  | Some inp => fold_left addOverride (rangeMap inp) ∅
  end.

Definition NormalizePrivacySettings (inp : PrivacySettings) : PrivacySettings :=
  let retention := normalMode ContentRetentionMode_Valid DefaultContentRetentionMode
                     (ps_ContentRetentionMode inp) in
  mkSettings (normalizeProfileSchemaVersion (ps_ProfileSchemaVersion inp))
    (normalMode MessagePrivacyMode_Valid DefaultMessagePrivacyMode (ps_MessagePrivacyMode inp))
    (normalMode StorageProtectionMode_Valid DefaultStorageProtectionMode (ps_StorageProtection inp))
    retention
    (retentionTTL retention DefaultEphemeralMessageTTLSeconds (ps_MessageTTLSeconds inp))
    (retentionTTL retention 0 (ps_ImageTTLSeconds inp))
    (retentionTTL retention DefaultEphemeralFileTTLSeconds (ps_FileTTLSeconds inp))
    (normalizeLimitValue (ps_ImageQuotaMB inp)) (normalizeLimitValue (ps_FileQuotaMB inp))
    (normalizeLimitValue (ps_ImageMaxItemSizeMB inp)) (normalizeLimitValue (ps_FileMaxItemSizeMB inp))
    (Some (normalizeStorageScopeOverrides (ps_StorageScopeOverrides inp)))
    (Some (normalizeNodePolicies (ps_NodePolicies inp))).

Definition policyOf (settings : PrivacySettings) : StoragePolicy :=
  mkPolicy (ps_StorageProtection settings) (ps_ContentRetentionMode settings)
    (ps_MessageTTLSeconds settings) (ps_ImageTTLSeconds settings) (ps_FileTTLSeconds settings)
    (ps_ImageQuotaMB settings) (ps_FileQuotaMB settings) (ps_ImageMaxItemSizeMB settings)
    (ps_FileMaxItemSizeMB settings).

(** The settings of a policy, the other fields at their zero values. *)
Definition settingsOf (p : StoragePolicy) : PrivacySettings :=
  mkSettings 0 DefaultMessagePrivacyMode (sp_StorageProtection p) (sp_ContentRetentionMode p)
    (sp_MessageTTLSeconds p) (sp_ImageTTLSeconds p) (sp_FileTTLSeconds p) (sp_ImageQuotaMB p)
    (sp_FileQuotaMB p) (sp_ImageMaxItemSizeMB p) (sp_FileMaxItemSizeMB p) None None.

Definition NormalizeStoragePolicy (inp : StoragePolicy) : StoragePolicy :=
  policyOf (NormalizePrivacySettings (settingsOf inp)).

Definition StoragePolicyFromSettings (settings : PrivacySettings) : StoragePolicy :=
  policyOf (NormalizePrivacySettings settings).

Definition ParseStoragePolicy (storageProtection retention : string)
    (messageTTL imageTTL fileTTL imageQuota fileQuota imageMax fileMax : Z)
    : result error StoragePolicy :=
  try! protectionMode := ParseStorageProtectionMode storageProtection in
  try! retentionMode := ParseContentRetentionMode retention in
  if (messageTTL <? 0) || (imageTTL <? 0) || (fileTTL <? 0) then Err ErrInvalidTTLSeconds else
  if (imageQuota <? 0) || (fileQuota <? 0) || (imageMax <? 0) || (fileMax <? 0)
  then Err ErrInvalidTTLSeconds else
  Ok (NormalizeStoragePolicy (mkPolicy protectionMode retentionMode messageTTL imageTTL fileTTL
        imageQuota fileQuota imageMax fileMax)).

(** StoragePolicyOverride.Resolve *)
Definition Resolve (inp : StoragePolicyOverride) (isPinned : bool) : result error StoragePolicy :=
  let n := NormalizeStoragePolicyOverride inp in
  if so_InfiniteTTL n && so_PinRequiredForInfinite n && negb isPinned
  then Err ErrInfiniteTTLRequiresPinned else
  Ok (NormalizeStoragePolicy
        (mkPolicy (so_StorageProtection n) (so_ContentRetentionMode n) (so_MessageTTLSeconds n)
           (so_ImageTTLSeconds n) (so_FileTTLSeconds n) (so_ImageQuotaMB n) (so_FileQuotaMB n)
           (so_ImageMaxItemSizeMB n) (so_FileMaxItemSizeMB n))).

(** Reading a map that may be nil. *)
Definition overridesOf (settings : PrivacySettings) : gmap string StoragePolicyOverride :=
  default ∅ (ps_StorageScopeOverrides settings).

Definition ResolveStoragePolicyForScope (settings : PrivacySettings) (scopeRaw scopeIDRaw : string)
    (isPinned : bool) : result error StoragePolicy :=
  let settings := NormalizePrivacySettings settings in
  try! key := ScopeOverrideKey scopeRaw scopeIDRaw in
  match overridesOf settings !! key with
  | Some override => Resolve override isPinned
  | None =>
      let userDefault := StoragePolicyFromSettings settings in
      if StorageProtectionMode_Valid (sp_StorageProtection userDefault)
         && ContentRetentionMode_Valid (sp_ContentRetentionMode userDefault)
      then Ok userDefault else
      Ok (NormalizeStoragePolicy (mkPolicy DefaultStorageProtectionMode DefaultContentRetentionMode
            0 0 0 0 0 0 0))
  end.
End Settings.

(** ** The block list *)

Definition NormalizeIdentityID (identityID : string) : result error string :=
  let identityID := TrimSpace identityID in
  if negb (HasPrefix identityID "aim1") || (String.length identityID <? 12)%nat
  then Err ErrInvalidIdentityID else Ok identityID.

(** [entries] is a map, [None] for nil. *)
Record Blocklist := mkBlocklist { bl_entries : option (gset string) }.

Definition blockedIDs (b : Blocklist) : gset string := default ∅ (bl_entries b).

Fixpoint addIDs (entries : gset string) (ids : list string) : result error (gset string) :=
  match ids with
  | [] => Ok entries
  | raw :: ids =>
      try! id := NormalizeIdentityID raw in
      addIDs ({[id]} ∪ entries) ids
  end.

Definition NewBlocklist (ids : list string) : result error Blocklist :=
  try! entries := addIDs ∅ ids in Ok (mkBlocklist (Some entries)).

(** The methods; a pointer to the list is never nil here. *)
Definition Blocklist_Add (b : Blocklist) (identityID : string) : Blocklist * option error :=
  let entries := blockedIDs b in
  match NormalizeIdentityID identityID with
  | Err err => (mkBlocklist (Some entries), Some err)
  | Ok id => (mkBlocklist (Some ({[id]} ∪ entries)), None)
  end.

Definition Blocklist_Remove (b : Blocklist) (identityID : string) : Blocklist * option error :=
  match NormalizeIdentityID identityID with
  | Err err => (b, Some err)
  | Ok id => (mkBlocklist ((fun e => e ∖ {[id]}) <$> bl_entries b), None)
  end.

Definition Blocklist_Contains (b : Blocklist) (identityID : string) : bool :=
  match NormalizeIdentityID identityID with
  | Err _ => false
  | Ok id => bool_decide (id ∈ blockedIDs b)
  end.

(** sort.Strings of the keys. *)
Definition Blocklist_List `{GoRuntime} (b : Blocklist) : list string :=
  sortSlice String.ltb (elements (blockedIDs b)).

(** ** The inbound policy *)

Definition InboundMessageActionReject : string := "reject".
Definition InboundMessageActionAcceptChat : string := "accept_chat".
Definition InboundMessageActionQueueRequest : string := "queue_request".
Definition InboundMessageReasonTrustedContact : string := "trusted_contact".
Definition InboundMessageReasonBlockedSender : string := "blocked_sender".
Definition InboundMessageReasonUnknownContactsOnly : string := "unknown_sender_contacts_only".
Definition InboundMessageReasonUnknownMessageReq : string := "unknown_sender_requests_mode".
Definition InboundMessageReasonUnknownEveryoneMode : string := "unknown_sender_everyone_mode".

Record InboundMessagePolicyInput := mkPolicyInput {
  pi_IsKnownContact : bool; pi_IsBlocked : bool; pi_PrivacyMode : string
}.
Record InboundMessagePolicyDecision := mkDecision { pd_Action : string; pd_Reason : string }.

(** The settings made up for one mode. *)
Definition modeSettings (mode : string) : PrivacySettings :=
  mkSettings 0 mode "" "" 0 0 0 0 0 0 0 None None.

Definition EvaluateInboundMessagePolicy `{GoRuntime} `{GoLower} (input : InboundMessagePolicyInput)
    : InboundMessagePolicyDecision :=
  if pi_IsBlocked input
  then mkDecision InboundMessageActionReject InboundMessageReasonBlockedSender else
  if pi_IsKnownContact input
  then mkDecision InboundMessageActionAcceptChat InboundMessageReasonTrustedContact else
  let mode := ps_MessagePrivacyMode
                (NormalizePrivacySettings (modeSettings (pi_PrivacyMode input))) in
  if mode == MessagePrivacyRequests
  then mkDecision InboundMessageActionQueueRequest InboundMessageReasonUnknownMessageReq else
  if mode == MessagePrivacyEveryone
  then mkDecision InboundMessageActionAcceptChat InboundMessageReasonUnknownEveryoneMode else
  mkDecision InboundMessageActionReject InboundMessageReasonUnknownContactsOnly.

Definition ShouldAutoAddUnknownSenderContact (decision : InboundMessagePolicyDecision)
    (conversationType : string) (isVerifiedContact hasCard : bool) : bool :=
  if TrimSpace conversationType == "group" then false else
  if negb (pd_Reason decision == InboundMessageReasonUnknownEveryoneMode) then false else
  if isVerifiedContact then false else negb hasCard.

Definition ShouldBypassInboundDeviceAuth (decision : InboundMessagePolicyDecision)
    (conversationType : string) (isVerifiedContact hasCard : bool) : bool :=
  if TrimSpace conversationType == "group" then false else
  if negb (pd_Reason decision == InboundMessageReasonUnknownEveryoneMode) then false else
  if isVerifiedContact then false else negb hasCard.

Definition InboundPolicyError (reason : string) : error :=
  if reason == InboundMessageReasonBlockedSender then ErrInboundBlockedSender else
  if reason == InboundMessageReasonUnknownContactsOnly then ErrInboundUnknownContactsOnly else
  if reason == InboundMessageReasonUnknownMessageReq then ErrInboundUnknownMessageReq else
  ErrInboundRejected.

Definition InboundGroupInviteActionReject : string := "reject".
Definition InboundGroupInviteActionAcceptInvite : string := "accept_invite".
Definition InboundGroupInviteActionQueueRequest : string := "queue_request".

Definition EvaluateInboundGroupInvitePolicy `{GoRuntime} `{GoLower}
    (input : InboundMessagePolicyInput) : InboundMessagePolicyDecision :=
  let base := EvaluateInboundMessagePolicy input in
  if pd_Action base == InboundMessageActionReject then
    if pd_Reason base == InboundMessageReasonBlockedSender
    then mkDecision InboundGroupInviteActionReject InboundMessageReasonBlockedSender
    else mkDecision InboundGroupInviteActionReject InboundMessageReasonUnknownContactsOnly
  else if pd_Action base == InboundMessageActionQueueRequest
  then mkDecision InboundGroupInviteActionQueueRequest InboundMessageReasonUnknownMessageReq
  else if pd_Reason base == InboundMessageReasonTrustedContact
  then mkDecision InboundGroupInviteActionAcceptInvite InboundMessageReasonTrustedContact
  else mkDecision InboundGroupInviteActionAcceptInvite InboundMessageReasonUnknownEveryoneMode.

(** ** Well-formed settings *)

Definition ttl_ok (retention : string) (message image file : Z) : Prop :=
  if bool_decide (retention = RetentionEphemeral) then 0 < message /\ 0 <= image /\ 0 <= file
  else message = 0 /\ image = 0 /\ file = 0.

Record policy_ok (p : StoragePolicy) : Prop := {
  po_protection : StorageProtectionMode_Valid (sp_StorageProtection p) = true;
  po_retention : ContentRetentionMode_Valid (sp_ContentRetentionMode p) = true;
  po_ttl : ttl_ok (sp_ContentRetentionMode p) (sp_MessageTTLSeconds p) (sp_ImageTTLSeconds p)
             (sp_FileTTLSeconds p);
  po_limits : 0 <= sp_ImageQuotaMB p /\ 0 <= sp_FileQuotaMB p
              /\ 0 <= sp_ImageMaxItemSizeMB p /\ 0 <= sp_FileMaxItemSizeMB p
}.

Definition overridePolicy (o : StoragePolicyOverride) : StoragePolicy :=
  mkPolicy (so_StorageProtection o) (so_ContentRetentionMode o) (so_MessageTTLSeconds o)
    (so_ImageTTLSeconds o) (so_FileTTLSeconds o) (so_ImageQuotaMB o) (so_FileQuotaMB o)
    (so_ImageMaxItemSizeMB o) (so_FileMaxItemSizeMB o).

Definition override_ok (o : StoragePolicyOverride) : Prop :=
  policy_ok (overridePolicy o)
  /\ (so_InfiniteTTL o = true -> so_ContentRetentionMode o = RetentionPersistent).

Definition node_ok (n : NodePolicies) : Prop :=
  1 <= nd_ProfileSchemaVersion n <= 2
  /\ 0 <= np_TTLDays (nd_Personal n) /\ 0 <= np_QuotaMB (nd_Personal n)
  /\ 0 <= nu_TTLDays (nd_Public n) /\ 0 <= nu_QuotaMB (nd_Public n).

Definition key_ok `{GoLower} (k : string) : Prop := TrimSpace (ToLower k) = k /\ k <> "".

Record settings_ok `{GoLower} (s : PrivacySettings) : Prop := {
  st_version : 1 <= ps_ProfileSchemaVersion s <= 2;
  st_mode : MessagePrivacyMode_Valid (ps_MessagePrivacyMode s) = true;
  st_policy : policy_ok (policyOf s);
  st_overrides : exists m, ps_StorageScopeOverrides s = Some m
    /\ map_Forall (fun k o => key_ok k /\ override_ok o) m;
  st_node : exists n, ps_NodePolicies s = Some n /\ node_ok n
}.

Section Normal.
Context `{GoRuntime} `{GoLower}.

(** The call of [NormalizePrivacySettings] inside of the override normalization. *)
Lemma NormalizeStoragePolicy_policy p : NormalizeStoragePolicy p = normalizePolicy p.
Proof. done. Qed.

Lemma StoragePolicyFromSettings_policy s :
  StoragePolicyFromSettings s = normalizePolicy (policyOf s).
Proof. done. Qed.

Lemma normalMode_valid valid dflt m : valid dflt = true -> valid (normalMode valid dflt m) = true.
Proof. intros Hd. unfold normalMode. by destruct (valid m) eqn:E. Qed.
Lemma normalMode_id valid dflt m : valid m = true -> normalMode valid dflt m = m.
Proof. unfold normalMode. by intros ->. Qed.

Lemma limit_nonneg v : 0 <= normalizeLimitValue v.
Proof. unfold normalizeLimitValue. destruct (Z.ltb_spec v 0); lia. Qed.
Lemma limit_id v : 0 <= v -> normalizeLimitValue v = v.
Proof. intros. unfold normalizeLimitValue. by rewrite (proj2 (Z.ltb_ge v 0)). Qed.

Lemma version_ok v : 1 <= normalizeProfileSchemaVersion v <= 2.
Proof.
  unfold normalizeProfileSchemaVersion, CurrentProfileSchemaVersion.
  destruct (Z.leb_spec v 0); [lia|]. destruct (Z.ltb_spec 2 v); lia.
Qed.
Lemma version_id v : 1 <= v <= 2 -> normalizeProfileSchemaVersion v = v.
Proof.
  intros. unfold normalizeProfileSchemaVersion, CurrentProfileSchemaVersion.
  destruct (Z.leb_spec v 0); [lia|]. destruct (Z.ltb_spec 2 v); lia.
Qed.

Lemma retentionTTL_ok retention m i f :
  ttl_ok retention (retentionTTL retention DefaultEphemeralMessageTTLSeconds m)
    (retentionTTL retention 0 i) (retentionTTL retention DefaultEphemeralFileTTLSeconds f).
Proof.
  unfold ttl_ok, retentionTTL, normalizeTTLSeconds, DefaultEphemeralMessageTTLSeconds,
    DefaultEphemeralFileTTLSeconds.
  case_bool_decide; cbn [negb]; [|done].
  destruct (Z.ltb_spec m 0), (Z.ltb_spec i 0), (Z.ltb_spec f 0);
    repeat match goal with |- context [?x =? ?y] => destruct (Z.eqb_spec x y) end; lia.
Qed.

Lemma retentionTTL_id retention m i f :
  ttl_ok retention m i f ->
  retentionTTL retention DefaultEphemeralMessageTTLSeconds m = m
  /\ retentionTTL retention 0 i = i /\ retentionTTL retention DefaultEphemeralFileTTLSeconds f = f.
Proof.
  unfold ttl_ok, retentionTTL, normalizeTTLSeconds, DefaultEphemeralMessageTTLSeconds,
    DefaultEphemeralFileTTLSeconds.
  case_bool_decide; cbn [negb]; [|by intros (-> & -> & ->)]. intros (Hm & Hi & Hf).
  rewrite !(proj2 (Z.ltb_ge _ _)) by lia.
  repeat match goal with |- context [?x =? ?y] => destruct (Z.eqb_spec x y) end; lia.
Qed.

Lemma normalizePolicy_ok p : policy_ok (normalizePolicy p).
Proof.
  constructor; cbn [normalizePolicy sp_StorageProtection sp_ContentRetentionMode
    sp_MessageTTLSeconds sp_ImageTTLSeconds sp_FileTTLSeconds sp_ImageQuotaMB sp_FileQuotaMB
    sp_ImageMaxItemSizeMB sp_FileMaxItemSizeMB].
  - by apply normalMode_valid.
  - by apply normalMode_valid.
  - apply retentionTTL_ok.
  - repeat split; apply limit_nonneg.
Qed.

Lemma normalizePolicy_id p : policy_ok p -> normalizePolicy p = p.
Proof.
  intros [H1 H2 H3 (H4 & H5 & H6 & H7)]. unfold normalizePolicy.
  rewrite (normalMode_id _ _ _ H1), (normalMode_id _ _ _ H2).
  apply retentionTTL_id in H3 as (-> & -> & ->). rewrite !limit_id by done. by destruct p.
Qed.

Lemma normalizeOverride_ok o : override_ok (NormalizeStoragePolicyOverride o).
Proof.
  destruct (normalizePolicy_ok (overridePolicy o)) as [H1 H2 H3 H4].
  split; cbn [NormalizeStoragePolicyOverride so_InfiniteTTL so_ContentRetentionMode].
  - constructor; cbn; destruct (so_InfiniteTTL o); done.
  - by intros ->.
Qed.

Lemma normalizeOverride_id o : override_ok o -> NormalizeStoragePolicyOverride o = o.
Proof.
  intros [Hp Hinf]. assert (Ht := po_ttl _ Hp). unfold NormalizeStoragePolicyOverride.
  change (mkPolicy _ _ _ _ _ _ _ _ _) with (overridePolicy o). rewrite (normalizePolicy_id _ Hp).
  destruct o as [pr re m i f q1 q2 q3 q4 inf pin]. cbn in *. destruct inf; [|done].
  rewrite Hinf in Ht by done. destruct Ht as (-> & -> & ->). by rewrite Hinf.
Qed.

(** The loop over the overrides only adds normal entries, and reproduces normal ones. *)
Lemma addOverrides_ok l out :
  map_Forall (fun k o => key_ok k /\ override_ok o) out ->
  map_Forall (fun k o => key_ok k /\ override_ok o) (fold_left addOverride l out).
Proof.
  revert out. induction l as [|[k o] l IH]; intros out Hout; cbn [fold_left]; [done|].
  apply IH. unfold addOverride. case_bool_decide; [done|]. apply map_Forall_insert_2; [|done].
  split; [|apply normalizeOverride_ok]. split; [|done].
  by rewrite ToLower_TrimSpace, ToLower_idemp, TrimSpace_idemp.
Qed.

Lemma normalizeOverrides_id m :
  map_Forall (fun k o => key_ok k /\ override_ok o) m ->
  normalizeStorageScopeOverrides (Some m) = m.
Proof.
  intros Hm. apply rebuild_map. intros k o out Hk. destruct (Hm _ _ Hk) as [[Ht Hne] Ho].
  unfold addOverride. by rewrite Ht, (bool_decide_false _ Hne), (normalizeOverride_id _ Ho).
Qed.

Lemma normalizeNode_ok n : node_ok (normalizeNodePolicies n).
Proof.
  destruct n as [[v [? ? ? ?] [? ? ? ? ? ?]]|]; cbn; [|by vm_compute].
  split; [apply version_ok|]. cbn. repeat split; apply limit_nonneg.
Qed.

Lemma normalizeNode_id n : node_ok n -> normalizeNodePolicies (Some n) = n.
Proof.
  destruct n as [v [? ? ? ?] [? ? ? ? ? ?]]. intros (Hv & H1 & H2 & H3 & H4). cbn in *.
  by rewrite (version_id _ Hv), !limit_id by done.
Qed.

Lemma normalize_ok s : settings_ok (NormalizePrivacySettings s).
Proof.
  constructor.
  - apply version_ok.
  - by apply normalMode_valid.
  - change (policyOf (NormalizePrivacySettings s)) with (normalizePolicy (policyOf s)).
    apply normalizePolicy_ok.
  - eexists. split; [done|]. unfold normalizeStorageScopeOverrides.
    destruct (ps_StorageScopeOverrides s); [apply addOverrides_ok|]; apply map_Forall_empty.
  - eexists. split; [done|]. apply normalizeNode_ok.
Qed.

Lemma normalize_id s : settings_ok s -> NormalizePrivacySettings s = s.
Proof.
  intros [Hv Hm Hp (m & Ho & Hmo) (n & Hn & Hno)]. pose proof (normalizePolicy_id _ Hp) as He.
  unfold normalizePolicy, policyOf in He. cbn in He. injection He as E1 E2 E3 E4 E5 E6 E7 E8 E9.
  unfold NormalizePrivacySettings. rewrite Ho, Hn, (normalizeOverrides_id _ Hmo), (normalizeNode_id _ Hno).
  rewrite (version_id _ Hv), (normalMode_id _ _ _ Hm), E1, E3, E4, E5, E2, E6, E7, E8, E9.
  rewrite <- Ho, <- Hn. by destruct s.
Qed.
End Normal.

(** C40: Normalization settles the settings. Whatever a file or a request contains, the normalized settings
    are well-formed: known modes, no negative number, times to live exactly when the retention is
    ephemeral, overrides under clean keys and normalized themselves, node policies present. And
    normalizing again changes nothing, in whatever order the runtime visits the overrides. *)
Theorem normalization_settles `{GoLower} (rt1 rt2 : GoRuntime) (s : PrivacySettings) :
  settings_ok (@NormalizePrivacySettings rt1 _ s)
  /\ @NormalizePrivacySettings rt2 _ (@NormalizePrivacySettings rt1 _ s)
     = @NormalizePrivacySettings rt1 _ s.
Proof. split; [apply normalize_ok|apply normalize_id, normalize_ok]. Qed.
