(* ===== verification/SecureStore.v ===== *)
(** * Encrypted files

    Models internal/securestore (envelope.go, storeio.go): the envelope a secret-protected
    file is wrapped in, and the reading and writing of such files. Argon2id, XChaCha20-Poly1305
    and encoding/json are an interface ([Cipher], [EnvelopeCodec]); random bytes and the outcomes
    of the file system are arguments. [zeroBytes] overwrites the derived key after its last use and
    is not observable. *)
From S2P Require Import Prelude.
From stdpp Require Import base gmap strings list sets option.
From Stdlib Require Import ZArith Lia.
Open Scope string_scope.
Open Scope Z_scope.
Open Scope go_scope.

(** ** Interfaces *)

Class Cipher := {
  (** argon2.IDKey with the parameters of this package *)
  argonKey : list Z -> list Z -> list Z;
  (** aead.Seal(nil, nonce, plaintext, nil) and aead.Open *)
  aeadSeal : list Z -> list Z -> list Z -> list Z;
  aeadOpen : list Z -> list Z -> list Z -> option (list Z)
}.

(** Documented behaviour: the key has the requested length, a sealed text opens under the same
    key and nonce, and carries a 16-byte tag. *)
Class CipherLaws (C : Cipher) : Prop := {
  argonKey_length : forall p s, length (argonKey p s) = 32%nat;
  aead_open_seal : forall k n p, aeadOpen k n (aeadSeal k n p) = Some p;
  aeadSeal_length : forall k n p, length (aeadSeal k n p) = (length p + 16)%nat
}.

Definition envelopeVersion : Z := 1.
Definition saltSize : nat := 16.
Definition nonceSizeX : nat := 24.
Definition filePrefix : list Z := (string_bytes "AIMENC1" ++ [10])%list.
Definition argonTime : Z := 2.
Definition argonMemoryKB : Z := 64 * 1024.
Definition argonThreads : Z := 1.

Record Envelope := mkEnvelope {
  ev_Version : Z; ev_KDF : string; ev_KDFTime : Z; ev_KDFMemoryKB : Z; ev_KDFThreads : Z;
  ev_Salt : list Z; ev_Nonce : list Z; ev_Ciphertext : list Z
}.

(** json.Marshal and json.Unmarshal on envelopes. *)
Class EnvelopeCodec := {
  marshalEnvelope : Envelope -> list Z;
  unmarshalEnvelope : list Z -> option Envelope
}.

Class EnvelopeCodecLaws (C : EnvelopeCodec) : Prop := {
  envelope_roundtrip : forall e, unmarshalEnvelope (marshalEnvelope e) = Some e
}.

(** The random bytes an encryption draws: [rand.Read] of the salt, then of the nonce. *)
Record Random := mkRandom { rnd_salt : result error (list Z); rnd_nonce : result error (list Z) }.

Definition random_ok (r : Random) : Prop :=
  (exists s, rnd_salt r = Ok s /\ length s = saltSize)
  /\ (exists n, rnd_nonce r = Ok n /\ length n = nonceSizeX).

Section Envelope.
Context `{Cipher} `{EnvelopeCodec}.

Definition deriveKey (passphrase : string) (salt : list Z) : list Z :=
  argonKey (string_bytes passphrase) salt.

(** chacha20poly1305.NewX: the key, when it has the right length. *)
Definition newX (key : list Z) : result error (list Z) :=
  if (length key =? 32)%nat then Ok key else Err (errorsNew "chacha20poly1305: bad key length").

Definition EncryptEnvelope (r : Random) (passphrase : string) (plaintext : list Z)
    : result error Envelope :=
  try! salt := rnd_salt r in
  let key := deriveKey passphrase salt in
  try! aead := newX key in
  try! nonce := rnd_nonce r in
  let ciphertext := aeadSeal aead nonce plaintext in
  Ok (mkEnvelope envelopeVersion "argon2id" argonTime argonMemoryKB argonThreads
        salt nonce ciphertext).

Definition Encrypt (r : Random) (passphrase : string) (plaintext : list Z)
    : result error (list Z) :=
  try! env := EncryptEnvelope r passphrase plaintext in
  Ok (filePrefix ++ marshalEnvelope env)%list.

(** [env] is a pointer, nil for [None]. *)
Definition isValidEnvelope (env : option Envelope) : bool :=
  match env with
  | None => false
  | Some env =>
      if negb (ev_Version env =? envelopeVersion) || negb (ev_KDF env == "argon2id")
      then false else
      if negb (ev_KDFTime env =? argonTime) || negb (ev_KDFMemoryKB env =? argonMemoryKB)
         || negb (ev_KDFThreads env =? argonThreads)
      then false else
      if negb (length (ev_Salt env) =? saltSize)%nat
         || negb (length (ev_Nonce env) =? nonceSizeX)%nat
         || (length (ev_Ciphertext env) =? 0)%nat
      then false else true
  end.

Definition DecryptEnvelope (passphrase : string) (env : option Envelope)
    : result error (list Z) :=
  match env with
  | Some env =>
      if negb (isValidEnvelope (Some env)) then Err ErrInvalidEnvelope else
      let key := deriveKey passphrase (ev_Salt env) in
      try! aead := newX key in
      match aeadOpen aead (ev_Nonce env) (ev_Ciphertext env) with
      | None => Err ErrAuthFailed
      | Some plaintext => Ok plaintext
      end
  | None => Err ErrInvalidEnvelope
  end.

(** strings.HasPrefix(string(data), filePrefix) *)
Definition hasFilePrefix (data : list Z) : bool :=
  bool_decide (take (length filePrefix) data = filePrefix).

Definition Decrypt (passphrase : string) (data : list Z) : result error (list Z) :=
  if negb (hasFilePrefix data) then Err ErrLegacyData else
  let data := drop (length filePrefix) data in
  match unmarshalEnvelope data with
  | None => Err ErrInvalidEnvelope
  | Some env => DecryptEnvelope passphrase (Some env)
  end.

(** ** storeio.go *)

Definition NormalizeStorageConfig (path secret : string) : string * string :=
  (TrimSpace path, TrimSpace secret).

Definition IsStorageConfigured (path secret : string) : bool :=
  negb (TrimSpace path == "") && negb (TrimSpace secret == "").

(** A file: its contents, or absent. [readErr] is another failure of os.ReadFile. *)
Definition readFile (disk : option (list Z)) (readErr : option error) : result error (list Z) :=
  match readErr with
  | Some err => Err err
  | None => match disk with Some data => Ok data | None => Err fsErrNotExist end
  end.

Definition ReadDecryptedFile (disk : option (list Z)) (readErr : option error) (secret : string)
    : result error (list Z) :=
  try! raw := readFile disk readErr in
  Decrypt secret raw.

(** What the file system does to one write: os.MkdirAll and os.WriteFile may fail, the latter
    after it has truncated or partly written the file. *)
Record WriteOutcome := mkWrite {
  wo_mkdir : option error;
  wo_write : option (error * option (list Z))
}.

Definition write_ok (o : WriteOutcome) : Prop := wo_mkdir o = None /\ wo_write o = None.

Definition writeFile (o : WriteOutcome) (data : list Z) : option (list Z) * option error :=
  match wo_write o with
  | None => (Some data, None)
  | Some (err, remains) => (remains, Some err)
  end.

Definition WriteEncryptedJSON (r : Random) (o : WriteOutcome) (secret : string)
    (payload : result error (list Z)) (disk : option (list Z))
    : option (list Z) * option error :=
  match payload with
  | Err err => (disk, Some err)
  | Ok payload =>
      match Encrypt r secret payload with
      | Err err => (disk, Some err)
      | Ok encrypted =>
          match wo_mkdir o with
          | Some err => (disk, Some err)
          | None => writeFile o encrypted
          end
      end
  end.

(** ** Lemmas *)

Lemma hasFilePrefix_app l : hasFilePrefix (filePrefix ++ l) = true.
Proof. unfold hasFilePrefix. apply bool_decide_true. by rewrite take_app_length. Qed.

Lemma Decrypt_nil pass : Decrypt pass [] = Err ErrLegacyData.
Proof. reflexivity. Qed.

Lemma EncryptEnvelope_Decrypt `{!CipherLaws _} r pass p :
  random_ok r -> exists env, EncryptEnvelope r pass p = Ok env /\ DecryptEnvelope pass (Some env) = Ok p.
Proof.
  intros [(s & Hs & Hsl) (n & Hn & Hnl)]. unfold EncryptEnvelope, bindR.
  assert (Hkey : newX (deriveKey pass s) = Ok (deriveKey pass s))
    by (unfold newX, deriveKey; by rewrite argonKey_length).
  rewrite Hs, Hkey, Hn. eexists. split; [done|].
  unfold DecryptEnvelope, isValidEnvelope. cbn [ev_Version ev_KDF ev_KDFTime ev_KDFMemoryKB
    ev_KDFThreads ev_Salt ev_Nonce ev_Ciphertext].
  rewrite Hsl, Hnl, aeadSeal_length, bool_decide_true by done.
  replace (length p + 16 =? 0)%nat with false by (symmetry; apply Nat.eqb_neq; lia).
  rewrite !Z.eqb_refl, !Nat.eqb_refl. cbn. unfold bindR. by rewrite Hkey, aead_open_seal.
Qed.

Lemma Encrypt_Decrypt `{!CipherLaws _} `{!EnvelopeCodecLaws _} r pass p :
  random_ok r -> exists data, Encrypt r pass p = Ok data /\ Decrypt pass data = Ok p.
Proof.
  intros Hr. destruct (EncryptEnvelope_Decrypt r pass p Hr) as (env & He & Hd).
  unfold Encrypt. rewrite He. eexists. split; [done|].
  unfold Decrypt. by rewrite hasFilePrefix_app, drop_app_length, envelope_roundtrip.
Qed.

(** Decryption undoes encryption: with any passphrase, text and random bytes, encrypting
    succeeds and decrypting the result with the same passphrase gives the text back. *)
Theorem Decrypt_inverts_Encrypt `{!CipherLaws _} `{!EnvelopeCodecLaws _}
    (r : Random) (passphrase : string) (plaintext : list Z) :
  random_ok r ->
  exists data, Encrypt r passphrase plaintext = Ok data /\ Decrypt passphrase data = Ok plaintext.
Proof. apply Encrypt_Decrypt. Qed.

(** Decryption accepts only what it should. A text comes out only of data that carries the
    file prefix and a complete envelope with exactly the current version and key-derivation
    parameters (a weakened envelope is refused), whose ciphertext the cipher authenticates
    under the key derived from this passphrase. *)
Theorem Decrypt_accepts_only_current_envelopes (passphrase : string) (data plaintext : list Z) :
  Decrypt passphrase data = Ok plaintext ->
  exists env, unmarshalEnvelope (drop (length filePrefix) data) = Some env
    /\ take (length filePrefix) data = filePrefix
    /\ ev_Version env = 1 /\ ev_KDF env = "argon2id" /\ ev_KDFTime env = 2
    /\ ev_KDFMemoryKB env = 65536 /\ ev_KDFThreads env = 1
    /\ length (ev_Salt env) = 16%nat /\ length (ev_Nonce env) = 24%nat
    /\ aeadOpen (deriveKey passphrase (ev_Salt env)) (ev_Nonce env) (ev_Ciphertext env)
       = Some plaintext.
Proof.
  unfold Decrypt, hasFilePrefix. case_bool_decide as Hp; cbn [negb]; [|done].
  destruct (unmarshalEnvelope _) as [env|]; [|done]. unfold DecryptEnvelope.
  destruct (isValidEnvelope (Some env)) eqn:Hv; cbn [negb]; [|done]. unfold newX, bindR.
  destruct (length _ =? 32)%nat; [|done]. destruct (aeadOpen _ _ _) eqn:Ho; [|done].
  intros [= ->]. exists env. revert Hv. unfold isValidEnvelope, envelopeVersion, argonTime,
    argonMemoryKB, argonThreads, saltSize, nonceSizeX.
  repeat match goal with |- context [(?a =? ?b)%Z] =>
    destruct (Z.eqb_spec a b); cbn [negb orb]; [|by repeat case_match] end.
  case_bool_decide; cbn [negb orb]; [|done].
  repeat match goal with |- context [(?a =? ?b)%nat] =>
    destruct (Nat.eqb_spec a b); cbn [negb orb]; try done end.
Qed.
End Envelope.

(** What one call meets outside of the program: the runtime's orders, random bytes, and the
    outcomes of reading and writing the file. *)
Record StoreEnv := mkEnv {
  env_rt : GoRuntime; env_rand : Random; env_read : option error; env_write : WriteOutcome;
  env_remove : option error
}.

(** Nothing fails. *)
Definition env_ok (env : StoreEnv) : Prop :=
  random_ok (env_rand env) /\ env_read env = None /\ write_ok (env_write env)
  /\ env_remove env = None.

(** ** Stores of one encrypted JSON value

    Several components keep a value in a file of this form: a struct with a path and a secret, here
    with the contents of the file. encoding/json is an interface per type. *)

Class JsonCodec (A : Type) := {
  marshalJSON : A -> result error (list Z);
  unmarshalJSON : list Z -> result error A
}.

(** [a] is encoded to something that is decoded to [b]. *)
Definition json_reads {A} `{JsonCodec A} (a b : A) : Prop :=
  exists bs, marshalJSON a = Ok bs /\ unmarshalJSON bs = Ok b.

Record EncStore := mkEncStore { es_path : string; es_secret : string; es_disk : option (list Z) }.

Definition with_es_disk (s : EncStore) (d : option (list Z)) : EncStore :=
  mkEncStore (es_path s) (es_secret s) d.

Definition es_configured (s : EncStore) : bool := IsStorageConfigured (es_path s) (es_secret s).

Section EncStores.
Context {cipher : Cipher} {ecodec : EnvelopeCodec} {A : Type} {codec : JsonCodec A}.

Definition ConfigureStore (path secret : string) (s : EncStore) : EncStore :=
  let '(path, secret) := NormalizeStorageConfig path secret in mkEncStore path secret (es_disk s).

(** securestore.WriteEncryptedJSON on the store's file. *)
Definition writeStore (env : StoreEnv) (state : A) : M EncStore error unit := fun s =>
  let '(disk, err) := WriteEncryptedJSON (env_rand env) (env_write env) (es_secret s)
                        (marshalJSON state) (es_disk s) in
  (with_es_disk s disk, match err with Some err => Err err | None => Ok tt end).

(** Reading, decrypting and decoding it. *)
Definition readStore (env : StoreEnv) (s : EncStore) : result error A :=
  try! plaintext := ReadDecryptedFile (es_disk s) (env_read env) (es_secret s) in
  unmarshalJSON plaintext.

(** os.Remove; a missing file is no error. *)
Definition wipeStore (env : StoreEnv) (blank : bool) : M EncStore error unit := fun s =>
  if blank then (s, Ok tt) else
  match es_disk s, env_remove env with
  | None, None => (s, Ok tt)
  | _, Some err => if err == fsErrNotExist then (s, Ok tt) else (s, Err err)
  | Some _, None => (with_es_disk s None, Ok tt)
  end.

(** The file holds the encoding of [a]. *)
Definition store_holds (s : EncStore) (a : A) : Prop :=
  exists bs, marshalJSON a = Ok bs /\ ReadDecryptedFile (es_disk s) None (es_secret s) = Ok bs.

(** The file is decoded to [a]. *)
Definition store_reads (s : EncStore) (a : A) : Prop :=
  exists bs, ReadDecryptedFile (es_disk s) None (es_secret s) = Ok bs /\ unmarshalJSON bs = Ok a.

Lemma store_holds_reads s a b : store_holds s a -> json_reads a b -> store_reads s b.
Proof. intros (bs & Hm & Hd) (bs' & Hm' & Hu). exists bs. split; [done|congruence]. Qed.

Lemma writeStore_holds `{!CipherLaws cipher} `{!EnvelopeCodecLaws ecodec} env a s :
  env_ok env ->
  (exists e, marshalJSON a = Err e /\ writeStore env a s = (s, Err e))
  \/ exists d, writeStore env a s = (with_es_disk s d, Ok tt) /\ store_holds (with_es_disk s d) a.
Proof.
  intros (Hr & _ & [Hmk Hwr] & _). unfold writeStore, WriteEncryptedJSON.
  destruct (marshalJSON a) as [bs|e] eqn:Em; [|left; exists e; by destruct s]. right.
  destruct (Encrypt_Decrypt (env_rand env) (es_secret s) bs Hr) as (data & Henc & Hdec).
  rewrite Henc, Hmk. unfold writeFile. rewrite Hwr. exists (Some data). split; [done|].
  exists bs. split; [done|]. unfold ReadDecryptedFile, readFile, bindR. done.
Qed.

Lemma readStore_holds env s a b :
  env_read env = None -> store_holds s a -> json_reads a b -> readStore env s = Ok b.
Proof.
  intros He (bs & Hm & Hd) (bs' & Hm' & Hu). unfold readStore. rewrite He, Hd. cbn. congruence.
Qed.

Lemma writeStore_path env a s :
  exists d r, writeStore env a s = (with_es_disk s d, r).
Proof. unfold writeStore. destruct (WriteEncryptedJSON _ _ _ _ _) as [d e]. eauto. Qed.
End EncStores.

(** ** A cipher to compute with *)

#[export] Instance exCipher : Cipher := {
  argonKey p s := replicate 32 7;
  aeadSeal k n p := (replicate 16 9 ++ p)%list;
  aeadOpen k n c := if bool_decide (take 16 c = replicate 16 9) then Some (drop 16 c) else None
}.

#[export] Instance exCipherLaws : CipherLaws exCipher.
Proof.
  constructor; intros.
  - done.
  - unfold aeadOpen, aeadSeal, exCipher. by rewrite bool_decide_true.
  - unfold aeadSeal, exCipher. rewrite length_app, length_replicate. lia.
Qed.

#[export] Instance Envelope_eq_dec : EqDecision Envelope.
Proof. solve_decision. Defined.

#[export] Instance Envelope_countable : Countable Envelope.
Proof.
  apply (inj_countable'
    (fun e => (ev_Version e, ev_KDF e, ev_KDFTime e, ev_KDFMemoryKB e, ev_KDFThreads e,
               ev_Salt e, ev_Nonce e, ev_Ciphertext e))
    (fun '(v, k, t, m, th, s, n, c) => mkEnvelope v k t m th s n c)).
  by intros [].
Defined.

#[export] Instance exEnvelopeCodec : EnvelopeCodec := {
  marshalEnvelope e := [Zpos (encode e)];
  unmarshalEnvelope l := match l with [Zpos p] => decode p | _ => None end
}.

#[export] Instance exEnvelopeCodecLaws : EnvelopeCodecLaws exEnvelopeCodec.
Proof. constructor. intros e. apply decode_encode. Qed.

Definition ex_random : Random := mkRandom (Ok (replicate 16 1)) (Ok (replicate 24 2)).

Lemma ex_random_ok : random_ok ex_random.
Proof. split; eexists; split; reflexivity. Qed.

Definition ex_env : StoreEnv := mkEnv exRuntime ex_random None (mkWrite None None) None.

Lemma ex_env_ok : env_ok ex_env.
Proof. split; [apply ex_random_ok|]. done. Qed.

Lemma Decrypt_inverts_Encrypt_witness :
  exists data, Encrypt ex_random "pass" [1; 2; 3] = Ok data /\ Decrypt "pass" data = Ok [1; 2; 3].
Proof. apply (Decrypt_inverts_Encrypt ex_random "pass" [1; 2; 3]). apply ex_random_ok. Defined.

Lemma Decrypt_accepts_only_current_envelopes_witness :
  exists env, aeadOpen (deriveKey "pass" (ev_Salt env)) (ev_Nonce env) (ev_Ciphertext env)
              = Some [5] /\ ev_KDFTime env = 2.
Proof.
  destruct (Encrypt ex_random "pass" [5]) as [data|] eqn:E; [|exfalso; vm_compute in E; discriminate].
  destruct (Decrypt_accepts_only_current_envelopes "pass" data [5])
    as (env & _ & _ & _ & _ & Ht & _ & _ & _ & _ & Ho).
  - vm_compute in E. injection E as <-. vm_compute. reflexivity.
  - exists env. split; assumption.
Defined.
