(* ===== verification/Encoding.v ===== *)
(** * Text encodings of the standard library

    What the program uses of encoding/base64 and of the layout time.RFC3339Nano. *)
From stdpp Require Import base gmap strings list sets option list_numbers pretty.
From Stdlib Require Import ZArith Lia Ascii String.
From S2P Require Import Prelude.
Open Scope string_scope.
Open Scope Z_scope.
Open Scope go_scope.

(** ** base64.StdEncoding *)

Definition b64value (a : ascii) : option Z :=
  let n := Z.of_nat (nat_of_ascii a) in
  if (65 <=? n) && (n <=? 90) then Some (n - 65) else
  if (97 <=? n) && (n <=? 122) then Some (n - 71) else
  if (48 <=? n) && (n <=? 57) then Some (n + 4) else
  if n =? 43 then Some 62 else if n =? 47 then Some 63 else None.

Definition b64digit (v : Z) : ascii :=
  ascii_of_nat (Z.to_nat (if v <? 26 then v + 65 else if v <? 52 then v + 71
                          else if v <? 62 then v - 4 else if v =? 62 then 43 else 47)).

Definition pad : ascii := "="%char.

(** Quantum by quantum; only the last one is padded, and the bits it drops are not checked. *)
Fixpoint decodeQuanta (l : list ascii) : option (list Z) :=
  match l with
  | [] => Some []
  | a :: b :: c :: d :: rest =>
      match b64value a, b64value b with
      | Some x, Some y =>
          if bool_decide (c = pad) then
            if bool_decide (d = pad) && bool_decide (rest = []) then Some [x * 4 + y / 16] else None
          else
          match b64value c with
          | None => None
          | Some z =>
              if bool_decide (d = pad) then
                if bool_decide (rest = []) then Some [x * 4 + y / 16; y mod 16 * 16 + z / 4] else None
              else
              match b64value d, decodeQuanta rest with
              | Some w, Some bs =>
                  Some (x * 4 + y / 16 :: y mod 16 * 16 + z / 4 :: z mod 4 * 64 + w :: bs)
              | _, _ => None
              end
          end
      | _, _ => None
      end
  | _ => None
  end.

Definition isNewline (a : ascii) : bool :=
  let n := nat_of_ascii a in (n =? 10)%nat || (n =? 13)%nat.

(** DecodeString skips line ends. *)
Definition DecodeString (s : string) : option (list Z) :=
  decodeQuanta (filter (fun a => isNewline a = false) (list_ascii_of_string s)).

Fixpoint encodeQuanta (bs : list Z) : list ascii :=
  match bs with
  | [] => []
  | [p] => [b64digit (p / 4); b64digit (p mod 4 * 16); pad; pad]
  | [p; q] => [b64digit (p / 4); b64digit (p mod 4 * 16 + q / 16); b64digit (q mod 16 * 4); pad]
  | p :: q :: r :: bs =>
      b64digit (p / 4) :: b64digit (p mod 4 * 16 + q / 16) :: b64digit (q mod 16 * 4 + r / 64)
      :: b64digit (r mod 64) :: encodeQuanta bs
  end.

Definition EncodeToString (bs : list Z) : string := string_of_list_ascii (encodeQuanta bs).

Definition DecodedLen (n : Z) : Z := n / 4 * 3.

(** A property of the digits that is checked for each of them. *)
Lemma b64digit_forall (P : Z -> bool) v :
  forallb P (seqZ 0 64) = true -> 0 <= v < 64 -> P v = true.
Proof. intros H Hv. rewrite forallb_forall in H. apply H, list_elem_of_In, elem_of_seqZ. lia. Qed.

Lemma b64value_digit v : 0 <= v < 64 -> b64value (b64digit v) = Some v.
Proof.
  intros Hv. pose proof (b64digit_forall (fun v => bool_decide (b64value (b64digit v) = Some v)) v
    ltac:(by vm_compute) Hv) as H. by apply bool_decide_eq_true in H.
Qed.

Lemma b64digit_plain v : 0 <= v < 64 -> b64digit v <> pad /\ isNewline (b64digit v) = false.
Proof.
  intros Hv. pose proof (b64digit_forall
    (fun v => bool_decide (b64digit v <> pad) && negb (isNewline (b64digit v))) v
    ltac:(by vm_compute) Hv) as H. cbv beta in H.
  by rewrite andb_true_iff, bool_decide_eq_true, negb_true_iff in H.
Qed.

(** Lists of bytes three at a time. *)
Lemma triples_ind (P : list Z -> Prop) :
  P [] -> (forall p, P [p]) -> (forall p q, P [p; q]) ->
  (forall p q r bs, P bs -> P (p :: q :: r :: bs)) -> forall bs, P bs.
Proof.
  intros H0 H1 H2 H3. fix IH 1. intros [|p [|q [|r bs]]]; [done|done|done|apply H3, IH].
Qed.

(** lia with division and remainder by constants. *)
Ltac divlia := Z.div_mod_to_equations; lia.

Lemma decodeQuanta_encode bs :
  Forall (fun b => 0 <= b < 256) bs -> decodeQuanta (encodeQuanta bs) = Some bs.
Proof.
  induction bs as [|p|p q|p q r bs IH] using triples_ind; intros Hb; [done|..];
    repeat (apply List.Forall_cons_iff in Hb as [? Hb]); cbv beta in *; cbn [encodeQuanta decodeQuanta];
    rewrite !b64value_digit by divlia.
  - rewrite !bool_decide_true by done. cbn [andb]. do 2 f_equal. divlia.
  - rewrite (bool_decide_false (_ = pad)), bool_decide_true, bool_decide_true
      by (done || apply b64digit_plain; divlia). do 2 f_equal; [divlia|f_equal; divlia].
  - rewrite !(bool_decide_false (_ = pad)) by (apply b64digit_plain; divlia). rewrite IH by done.
    do 2 f_equal; [divlia|f_equal; [divlia|f_equal; divlia]].
Qed.

Lemma filter_none l :
  Forall (fun a => isNewline a = false) l -> filter (fun a => isNewline a = false) l = l.
Proof.
  induction 1 as [|a l Ha _ IH]; [done|]. rewrite filter_cons_True by done. by rewrite IH.
Qed.

(** base64: what is encoded is decoded. *)
Theorem DecodeString_EncodeToString (bs : list Z) :
  Forall (fun b => 0 <= b < 256) bs -> DecodeString (EncodeToString bs) = Some bs.
Proof.
  intros Hb. unfold DecodeString, EncodeToString. rewrite list_ascii_of_string_of_list_ascii.
  rewrite filter_none; [by apply decodeQuanta_encode|].
  induction bs as [|p|p q|p q r bs IH] using triples_ind; [apply List.Forall_nil|..];
    repeat (apply List.Forall_cons_iff in Hb as [? Hb]); cbv beta in *; cbn [encodeQuanta];
    repeat (apply List.Forall_cons; [first [done|apply b64digit_plain; divlia]|]);
    first [apply List.Forall_nil|by apply IH].
Qed.

(** ** base64.RawURLEncoding *)

(** The other alphabet, and no padding. *)
Definition urlDigit (a : ascii) : ascii :=
  if bool_decide (a = "+"%char) then "-"%char else if bool_decide (a = "/"%char) then "_"%char else a.

Definition RawURLEncodeToString (bs : list Z) : string :=
  string_of_list_ascii (urlDigit <$> filter (fun a => a <> pad) (encodeQuanta bs)).

Definition urlValue (a : ascii) : option Z :=
  if bool_decide (a = "-"%char) then Some 62 else if bool_decide (a = "_"%char) then Some 63 else
  if bool_decide (a = "+"%char) || bool_decide (a = "/"%char) then None else b64value a.

(** The last quantum has two to four digits; the bits it drops are not checked. *)
Fixpoint decodeRaw (l : list ascii) : option (list Z) :=
  match l with
  | [] => Some []
  | [_] => None
  | [a; b] =>
      match urlValue a, urlValue b with Some x, Some y => Some [x * 4 + y / 16] | _, _ => None end
  | [a; b; c] =>
      match urlValue a, urlValue b, urlValue c with
      | Some x, Some y, Some z => Some [x * 4 + y / 16; y mod 16 * 16 + z / 4]
      | _, _, _ => None
      end
  | a :: b :: c :: d :: rest =>
      match urlValue a, urlValue b, urlValue c, urlValue d, decodeRaw rest with
      | Some x, Some y, Some z, Some w, Some bs =>
          Some (x * 4 + y / 16 :: y mod 16 * 16 + z / 4 :: z mod 4 * 64 + w :: bs)
      | _, _, _, _, _ => None
      end
  end.

Definition RawURLDecodeString (s : string) : option (list Z) :=
  decodeRaw (filter (fun a => isNewline a = false) (list_ascii_of_string s)).

Lemma urlDigit_spec v : 0 <= v < 64 ->
  urlValue (urlDigit (b64digit v)) = Some v /\ isNewline (urlDigit (b64digit v)) = false
  /\ urlDigit (b64digit v) <> "."%char.
Proof.
  intros Hv. pose proof (b64digit_forall (fun v => bool_decide (urlValue (urlDigit (b64digit v)) = Some v)
    && negb (isNewline (urlDigit (b64digit v))) && bool_decide (urlDigit (b64digit v) <> "."%char)) v
    ltac:(by vm_compute) Hv) as H. cbv beta in H.
  rewrite !andb_true_iff, negb_true_iff, !bool_decide_eq_true in H. by destruct H as [[? ?] ?].
Qed.

Lemma urlValue_digit v : 0 <= v < 64 -> urlValue (urlDigit (b64digit v)) = Some v.
Proof. apply urlDigit_spec. Qed.

(** The digits of [RawURLEncodeToString], quantum by quantum. *)
Fixpoint encodeRaw (bs : list Z) : list ascii :=
  let digit v := urlDigit (b64digit v) in
  match bs with
  | [] => []
  | [p] => [digit (p / 4); digit (p mod 4 * 16)]
  | [p; q] => [digit (p / 4); digit (p mod 4 * 16 + q / 16); digit (q mod 16 * 4)]
  | p :: q :: r :: bs =>
      digit (p / 4) :: digit (p mod 4 * 16 + q / 16) :: digit (q mod 16 * 4 + r / 64)
      :: digit (r mod 64) :: encodeRaw bs
  end.

Lemma RawURLEncode_quanta bs :
  Forall (fun b => 0 <= b < 256) bs -> RawURLEncodeToString bs = string_of_list_ascii (encodeRaw bs).
Proof.
  intros Hb. unfold RawURLEncodeToString. f_equal.
  induction bs as [|p|p q|p q r bs IH] using triples_ind; [done|..];
    repeat (apply List.Forall_cons_iff in Hb as [? Hb]); cbv beta in *; cbn [encodeQuanta encodeRaw];
    repeat (rewrite filter_cons_True by (apply b64digit_plain; divlia)).
  - done.
  - done.
  - rewrite !fmap_cons. by rewrite IH.
Qed.

Lemma decodeRaw_encode bs :
  Forall (fun b => 0 <= b < 256) bs -> decodeRaw (encodeRaw bs) = Some bs.
Proof.
  induction bs as [|p|p q|p q r bs IH] using triples_ind; intros Hb; [done|..];
    repeat (apply List.Forall_cons_iff in Hb as [? Hb]); cbv beta in *; cbn [encodeRaw decodeRaw].
  - rewrite !urlValue_digit by divlia. do 2 f_equal. divlia.
  - rewrite !urlValue_digit by divlia. do 2 f_equal; [divlia|f_equal; divlia].
  - rewrite !urlValue_digit by divlia. rewrite IH by done.
    do 2 f_equal; [divlia|f_equal; [divlia|f_equal; divlia]].
Qed.

(** No digit is skipped, and none is the separator of tokens. *)
Lemma encodeRaw_plain bs :
  Forall (fun b => 0 <= b < 256) bs -> Forall (fun a => isNewline a = false /\ a <> "."%char) (encodeRaw bs).
Proof.
  intros Hb. induction bs as [|p|p q|p q r bs IH] using triples_ind; [apply List.Forall_nil|..];
    repeat (apply List.Forall_cons_iff in Hb as [? Hb]); cbv beta in *; cbn [encodeRaw];
    repeat (apply List.Forall_cons; [apply urlDigit_spec; divlia|]); first [apply List.Forall_nil|by apply IH].
Qed.

(** Characters that trimming leaves alone. *)
Definition textChar (a : ascii) : Prop := (byteN a < 128)%nat /\ space1 a = false.

Lemma b64digit_text v : 0 <= v < 64 -> textChar (b64digit v).
Proof.
  intros Hv. pose proof (b64digit_forall (fun v => (byteN (b64digit v) <? 128)%nat && negb (space1 (b64digit v))) v ltac:(by vm_compute) Hv) as H.
  cbv beta in H. rewrite andb_true_iff, negb_true_iff in H. destruct H as [H1 H2]. split; [by apply Nat.ltb_lt|done].
Qed.

Lemma encodeQuanta_text bs : Forall (fun b => 0 <= b < 256) bs -> Forall textChar (encodeQuanta bs).
Proof.
  intros Hb. assert (Hpad : textChar pad) by (split; [by apply Nat.ltb_lt|done]).
  induction bs as [|p|p q|p q r bs IH] using triples_ind; [apply List.Forall_nil|..];
    repeat (apply List.Forall_cons_iff in Hb as [? Hb]); cbv beta in *; cbn [encodeQuanta];
    repeat (apply List.Forall_cons; [first [exact Hpad | apply b64digit_text; divlia]|]); first [apply List.Forall_nil|by apply IH].
Qed.

Lemma TrimSpace_text (l : list ascii) : (2 <= List.length l)%nat -> Forall textChar l -> TrimSpace (string_of_list_ascii l) = string_of_list_ascii l.
Proof.
  intros Hlen Hl. destruct l as [|a l]; [cbn in Hlen; lia|]. destruct l as [|z l _] using rev_ind; [cbn in Hlen; lia|].
  apply List.Forall_cons_iff in Hl as [[Ha Ha'] Hl]. apply Forall_app in Hl as [_ Hz].
  apply List.Forall_cons_iff in Hz as [[Hz Hz'] _]. by apply TrimSpace_solid.
Qed.

(** A base64 text has no white space around it. *)
Lemma EncodeToString_text bs : bs <> [] -> Forall (fun b => 0 <= b < 256) bs ->
  TrimSpace (EncodeToString bs) = EncodeToString bs /\ EncodeToString bs <> "".
Proof.
  intros Hne Hb. split; [|by destruct bs as [|p [|q [|r bs]]]].
  apply TrimSpace_text; [destruct bs as [|p [|q [|r bs]]]; cbn; (done || lia)|by apply encodeQuanta_text].
Qed.

(** What is encoded is decoded, without padding too. *)
Theorem RawURLDecodeString_RawURLEncodeToString (bs : list Z) :
  Forall (fun b => 0 <= b < 256) bs -> RawURLDecodeString (RawURLEncodeToString bs) = Some bs.
Proof.
  intros Hb. unfold RawURLDecodeString. rewrite RawURLEncode_quanta by done.
  rewrite list_ascii_of_string_of_list_ascii, filter_none; [by apply decodeRaw_encode|].
  eapply Forall_impl; [by apply encodeRaw_plain|]. by intros a [? _].
Qed.

(** ** time.Format *)

(** Decimal digits, with zeros in front up to a width. *)
Definition appendInt (width : nat) (n : Z) : string :=
  let digits := pretty (Z.abs n) in
  (if n <? 0 then "-" else "")
  +:+ string_of_list_ascii (replicate (width - String.length digits) "0"%char) +:+ digits.

(** Year, month and day of a number of days after January 1 of the year 1, in the proleptic
    Gregorian calendar: years are counted from March, in eras of 400 years. *)
Definition civil (days : Z) : Z * Z * Z :=
  let z := days + 306 in
  let doe := z mod 146097 in
  let yoe := (doe - doe / 1460 + doe / 36524 - doe / 146096) / 365 in
  let doy := doe - (365 * yoe + yoe / 4 - yoe / 100) in
  let mp := (5 * doy + 2) / 153 in
  let month := if mp <? 10 then mp + 3 else mp - 9 in
  (yoe + z / 146097 * 400 + (if month <=? 2 then 1 else 0), month, doy - (153 * mp + 2) / 5 + 1).

(** A fraction of a second: nine digits without the zeros at the end, nothing for zero. *)
Definition fraction (ns : Z) : string :=
  let digits := reverse (trim_front (fun a => bool_decide (a = "0"%char)) (fun _ _ => false)
                           (fun _ _ _ => false) (reverse (list_ascii_of_string (appendInt 9 ns)))) in
  if bool_decide (digits = []) then "" else "." +:+ string_of_list_ascii digits.

(** t.UTC().Format(time.RFC3339Nano) *)
Definition FormatRFC3339Nano (t : Z) : string :=
  let '(year, month, day) := civil (t / (86400 * Second)) in
  let secs := t / Second mod 86400 in
  appendInt 4 year +:+ "-" +:+ appendInt 2 month +:+ "-" +:+ appendInt 2 day +:+ "T"
  +:+ appendInt 2 (secs / 3600) +:+ ":" +:+ appendInt 2 (secs / 60 mod 60) +:+ ":"
  +:+ appendInt 2 (secs mod 60) +:+ fraction (t mod Second) +:+ "Z".

Example format_examples :
  (FormatRFC3339Nano 0, FormatRFC3339Nano (62135596800 * Second + 1500000000),
   FormatRFC3339Nano ((62135596800 + 1709210096) * Second + 7))
  = ("0001-01-01T00:00:00Z", "1970-01-01T00:00:01.5Z", "2024-02-29T12:34:56.000000007Z").
Proof. vm_compute. reflexivity. Qed.

Example rawurl_example : RawURLEncodeToString [251; 255; 254; 1] = "-__-AQ".
Proof. vm_compute. reflexivity. Qed.
