(* ===== verification/Text.v ===== *)
(** * Functions of the packages strings and errors

    What the program uses of [strings.Split], [strings.SplitN], [strings.Contains] and
    [strings.TrimPrefix], for separators of one byte. *)
From stdpp Require Import base strings list option.
From Stdlib Require Import ZArith Lia Ascii String.
From S2P Require Import Prelude.
Open Scope string_scope.
Open Scope go_scope.

Section Pieces.
Context (sep : ascii).

(** The first piece and the rest. *)
Fixpoint splitList (l : list ascii) : list ascii * list (list ascii) :=
  match l with
  | [] => ([], [])
  | a :: l =>
      let '(p, ps) := splitList l in
      if bool_decide (a = sep) then ([], p :: ps) else (a :: p, ps)
  end.

Fixpoint cutList (l : list ascii) : option (list ascii * list ascii) :=
  match l with
  | [] => None
  | a :: l =>
      if bool_decide (a = sep) then Some ([], l) else
      '(p, r) ← cutList l; Some (a :: p, r)
  end.

Lemma splitList_clean l : sep ∉ l -> splitList l = (l, []).
Proof.
  induction l as [|a l IH]; intros H; [done|]. apply not_elem_of_cons in H as [Ha Hl]. cbn.
  rewrite IH by done. by rewrite bool_decide_false.
Qed.

Lemma splitList_app l r : sep ∉ l -> splitList (l ++ sep :: r) = (l, fst (splitList r) :: snd (splitList r)).
Proof.
  induction l as [|a l IH]; intros H.
  - cbn. destruct (splitList r). by rewrite bool_decide_true.
  - apply not_elem_of_cons in H as [Ha Hl]. cbn. rewrite IH by done. by rewrite bool_decide_false.
Qed.

Lemma cutList_app l r : sep ∉ l -> cutList (l ++ sep :: r) = Some (l, r).
Proof.
  induction l as [|a l IH]; intros H; cbn.
  - by rewrite bool_decide_true.
  - apply not_elem_of_cons in H as [Ha Hl]. rewrite bool_decide_false by done. by rewrite IH.
Qed.

Lemma cutList_Some l p r : cutList l = Some (p, r) -> l = (p ++ sep :: r)%list /\ sep ∉ p.
Proof.
  revert p. induction l as [|a l IH]; intros p; cbn; [done|]. case_bool_decide as Ha.
  - intros [= <- <-]. subst. split; [done|apply not_elem_of_nil].
  - destruct (cutList l) as [[p' r']|]; cbn; [|done]. intros [= <- <-].
    destruct (IH p') as [-> Hp]; [done|]. split; [done|]. by apply not_elem_of_cons.
Qed.

End Pieces.

(** [strings.Split]: never empty. *)
Definition Split (s : string) (sep : ascii) : list string :=
  let '(p, ps) := splitList sep (list_ascii_of_string s) in string_of_list_ascii <$> p :: ps.

(** [strings.SplitN(s, sep, 2)]: the pieces before and after the first separator. *)
Definition Cut (s : string) (sep : ascii) : option (string * string) :=
  '(p, r) ← cutList sep (list_ascii_of_string s); Some (string_of_list_ascii p, string_of_list_ascii r).

Fixpoint isPrefix (p l : list ascii) : bool :=
  match p, l with
  | [], _ => true
  | a :: p, b :: l => bool_decide (a = b) && isPrefix p l
  | _ :: _, [] => false
  end.

Fixpoint containsList (sub l : list ascii) : bool :=
  isPrefix sub l || match l with [] => false | _ :: l => containsList sub l end.

Definition Contains (s sub : string) : bool :=
  containsList (list_ascii_of_string sub) (list_ascii_of_string s).

Definition TrimPrefix (s p : string) : string :=
  if HasPrefix s p
  then string_of_list_ascii (drop (String.length p) (list_ascii_of_string s)) else s.

Lemma Split_pair a b sep :
  sep ∉ list_ascii_of_string a -> sep ∉ list_ascii_of_string b ->
  Split (a +:+ String sep b) sep = [a; b].
Proof.
  intros Ha Hb. unfold Split. rewrite list_ascii_app. cbn [list_ascii_of_string].
  rewrite splitList_app by done. rewrite (splitList_clean _ (list_ascii_of_string b)) by done. cbn.
  by rewrite !string_of_list_ascii_of_string.
Qed.

Lemma Cut_app a b sep :
  sep ∉ list_ascii_of_string a -> Cut (a +:+ String sep b) sep = Some (a, b).
Proof.
  intros Ha. unfold Cut. rewrite list_ascii_app. cbn [list_ascii_of_string]. rewrite cutList_app by done. cbn.
  by rewrite !string_of_list_ascii_of_string.
Qed.

Lemma isPrefix_app p l : isPrefix p (p ++ l) = true.
Proof. induction p as [|a p IH]; [done|]. cbn. by rewrite bool_decide_true, IH. Qed.

Lemma containsList_app sub l r : containsList sub (l ++ sub ++ r) = true.
Proof.
  induction l as [|a l IH]; cbn.
  - destruct sub as [|b sub]; [by destruct r|]. cbn [app containsList]. change (b :: sub ++ r)%list with ((b :: sub) ++ r)%list.
    by rewrite isPrefix_app.
  - rewrite IH. apply orb_true_r.
Qed.

Lemma Contains_app a sub b : Contains (a +:+ sub +:+ b) sub = true.
Proof. unfold Contains. rewrite !list_ascii_app. apply containsList_app. Qed.

Example split_keeps_empty : Split "a,,b" ","%char = ["a"; ""; "b"].
Proof. reflexivity. Qed.
Example cut_once : Cut "k:v:w" ":"%char = Some ("k", "v:w").
Proof. reflexivity. Qed.
Example contains_inner : Contains "open /data/network/cache" "network" = true.
Proof. reflexivity. Qed.

(** ** Texts of errors and values *)

(** [err.Error()], for errors that are kept as text. *)
Class GoErrorText := { ErrorText : error -> string }.

(** The verb [%q], and the error of encoding/base64 for an input it cannot decode. *)
Class GoFormat := { Quote : string -> string; CorruptInput : string -> error }.

#[export] Instance exErrorText : GoErrorText := {
  ErrorText e := match e with errorsNew text => text | _ => "error" end
}.

#[export] Instance exFormat : GoFormat := {
  Quote s := "'" +:+ s +:+ "'";
  CorruptInput _ := errorsNew "illegal base64 data"
}.
