(* ===== verification/AttachmentStore.v ===== *)
(** * The attachment store

    Models internal/storage/attachment_store.go and the attachment record of pkg/models: metadata
    in an index file, one file per attachment, quotas per class with eviction of what was used
    least recently, pins, and garbage collection. The state is the struct together with the files
    under its directory. Methods run under the store's lock, so each is one step; [Get] releases
    it while it reads the file, and is given with its parts. [int64] and [int] are 64 bits wide.
    encoding/json is an interface; random bytes and the outcomes of the file system are
    arguments. *)
From stdpp Require Import base gmap strings list sets option.
From Stdlib Require Import ZArith Lia Ascii String Sorted.
From S2P Require Import Prelude SecureStore.
Open Scope string_scope.
Open Scope Z_scope.
Open Scope go_scope.

(** ** path/filepath on Unix

    A path is whether it is rooted, and its elements from the last to the first. *)

Abbreviation path := (bool * list (list ascii))%type.

(** The elements between slashes. *)
Fixpoint splitSlash (l : list ascii) : list (list ascii) :=
  match l with
  | [] => [[]]
  | a :: l =>
      if bool_decide (a = "/"%char) then [] :: splitSlash l else
      match splitSlash l with
      | [] => [[a]]
      | c :: cs => (a :: c) :: cs
      end
  end.

Definition dot : list ascii := ["."%char].
Definition dotdot : list ascii := ["."%char; "."%char].

(** Empty elements and [.] disappear, [..] takes the element before it away. *)
Definition cleanElement (rooted : bool) (out : list (list ascii)) (c : list ascii)
    : list (list ascii) :=
  if (c == []) || (c == dot) then out else
  if c == dotdot then
    match out with
    | [] => if rooted then [] else [dotdot]
    | x :: out' => if x == dotdot then dotdot :: out else out'
    end
  else c :: out.

Definition Clean (text : string) : path :=
  let l := list_ascii_of_string text in
  let rooted := match l with a :: _ => bool_decide (a = "/"%char) | [] => false end in
  (rooted, fold_left (cleanElement rooted) (splitSlash l) []).

(** filepath.Join of two elements, the second of which is not empty. *)
Definition Join (dir name : string) : path :=
  Clean (if dir == "" then name else dir +:+ "/" +:+ name).

(** Whether [p] lies in the directory [d], or is it. *)
Definition within (d p : path) : bool :=
  bool_decide (fst d = fst p)
  && bool_decide (drop (List.length (snd p) - List.length (snd d)) (snd p) = snd d).

(** ** pkg/models *)

Definition AttachmentClassImage : string := "image".
Definition AttachmentClassFile : string := "file".
Definition AttachmentPinStateUnpinned : string := "unpinned".
Definition AttachmentPinStatePinned : string := "pinned".

Record AttachmentMeta := mkMeta {
  am_ID : string; am_Name : string; am_MimeType : string; am_Class : string;
  am_LastAccessAt : Z; am_PinState : string; am_Size : Z; am_CreatedAt : Z
}.

#[export] Instance AttachmentMeta_eq_dec : EqDecision AttachmentMeta.
Proof. solve_decision. Defined.

Abbreviation Items := (gmap string AttachmentMeta).
(** The marks of a collection: the cause for each identifier. *)
Abbreviation GCMarks := (gmap string string).

(** Assignments to single fields. *)
Definition with_class (m : AttachmentMeta) (c : string) : AttachmentMeta :=
  mkMeta (am_ID m) (am_Name m) (am_MimeType m) c (am_LastAccessAt m) (am_PinState m) (am_Size m)
    (am_CreatedAt m).
Definition with_access (m : AttachmentMeta) (t : Z) : AttachmentMeta :=
  mkMeta (am_ID m) (am_Name m) (am_MimeType m) (am_Class m) t (am_PinState m) (am_Size m)
    (am_CreatedAt m).
Definition with_pin (m : AttachmentMeta) (p : string) : AttachmentMeta :=
  mkMeta (am_ID m) (am_Name m) (am_MimeType m) (am_Class m) (am_LastAccessAt m) p (am_Size m)
    (am_CreatedAt m).

Definition ClassifyAttachmentMime `{GoLower} (mimeType : string) : string :=
  let mimeType := ToLower (TrimSpace mimeType) in
  if HasPrefix mimeType "image/" then AttachmentClassImage else AttachmentClassFile.

(** ** The store *)

Definition attachmentIndexSchemaVersion : Z := 2.

Record attachmentClassLimits := mkLimits {
  ImageQuotaBytes : Z; ImageMaxItemBytes : Z; FileQuotaBytes : Z; FileMaxItemBytes : Z
}.

Record attachmentHardCapPolicy := mkHardCap {
  HighWatermarkPercent : Z; FullCapPercent : Z; AggressiveTargetPercent : Z
}.

Record attachmentHardCapHits := mkHits { ImageFullCapHits : Z; FileFullCapHits : Z }.

Record AttachmentGCReport := mkReport {
  gc_DryRun : bool; gc_DeletedCount : Z;
  gc_DeletedByClass : gmap string Z; gc_DeletedByCause : gmap string Z
}.

(** [as_files] are the files under the directory. *)
Record AttachmentStore := mkAttachmentStore {
  as_dir : string; as_secret : string; as_items : Items; as_blobs : gmap string (list Z);
  as_persist : bool; as_limits : attachmentClassLimits; as_hardCap : attachmentHardCapPolicy;
  as_hits : attachmentHardCapHits; as_files : gmap path (list Z)
}.

Definition with_items (s : AttachmentStore) (i : Items) : AttachmentStore :=
  mkAttachmentStore (as_dir s) (as_secret s) i (as_blobs s) (as_persist s) (as_limits s)
    (as_hardCap s) (as_hits s) (as_files s).
Definition with_blobs (s : AttachmentStore) (b : gmap string (list Z)) : AttachmentStore :=
  mkAttachmentStore (as_dir s) (as_secret s) (as_items s) b (as_persist s) (as_limits s)
    (as_hardCap s) (as_hits s) (as_files s).
Definition with_files (s : AttachmentStore) (f : gmap path (list Z)) : AttachmentStore :=
  mkAttachmentStore (as_dir s) (as_secret s) (as_items s) (as_blobs s) (as_persist s)
    (as_limits s) (as_hardCap s) (as_hits s) f.
Definition with_hits (s : AttachmentStore) (h : attachmentHardCapHits) : AttachmentStore :=
  mkAttachmentStore (as_dir s) (as_secret s) (as_items s) (as_blobs s) (as_persist s)
    (as_limits s) (as_hardCap s) h (as_files s).

(** [indexPath] is set when there is a directory. *)
Definition indexPath (s : AttachmentStore) : path := Join (as_dir s) "index.json".
Definition filePath (s : AttachmentStore) (id : string) : path := Join (as_dir s) (id +:+ ".bin").

(** The index as it is encoded; a decoded map may be nil. *)
Record attachmentIndex := mkIndex {
  ix_SchemaVersion : Z; ix_Items : option Items
}.

(** What one call meets outside of the program. *)
Record AttachmentEnv := mkAttEnv {
  ae_rt : GoRuntime; ae_rand : path -> Random; ae_mkdir : option error;
  ae_read : path -> option error; ae_write : path -> option (error * option (list Z));
  ae_remove : path -> option error; ae_removeAll : option (error * gmap path (list Z))
}.

Section Store.
Context {cipher : Cipher} {ecodec : EnvelopeCodec} {lower : GoLower} {fold : GoFold}
        {codec : JsonCodec attachmentIndex}.

Abbreviation op := (M AttachmentStore error).

(** *** Files *)

Definition readPath (env : AttachmentEnv) (s : AttachmentStore) (p : path) : result error (list Z) :=
  readFile (as_files s !! p) (ae_read env p).

(** os.WriteFile: the file afterwards, whole or what a failed write has left of it. *)
Definition writePath (env : AttachmentEnv) (p : path) (data : list Z) : op unit := fun s =>
  let put (d : option (list Z)) := with_files s (partial_alter (fun _ => d) p (as_files s)) in
  match ae_write env p with
  | None => (put (Some data), Ok tt)
  | Some (err, remains) => (put remains, Err err)
  end.

(** os.Remove where a missing file is no error. *)
Definition removePath (env : AttachmentEnv) (p : path) : op unit := fun s =>
  match as_files s !! p, ae_remove env p with
  | None, None => (s, Ok tt)
  | _, Some err => (s, if err == fsErrNotExist then Ok tt else Err err)
  | Some _, None => (with_files s (delete p (as_files s)), Ok tt)
  end.

(** The bytes of a file: encrypted when there is a secret. *)
Definition sealFile (env : AttachmentEnv) (s : AttachmentStore) (p : path) (data : list Z)
    : result error (list Z) :=
  if negb (as_secret s == "") then Encrypt (ae_rand env p) (as_secret s) data else Ok data.

Definition persistItemsLocked (env : AttachmentEnv) (items : Items) : op unit := fun s =>
  if (as_dir s == "") || negb (as_persist s) then (s, Ok tt) else
  match (try! data := marshalJSON (mkIndex attachmentIndexSchemaVersion (Some items)) in
         sealFile env s (indexPath s) data) with
  | Err err => (s, Err err)
  | Ok data => writePath env (indexPath s) data s
  end.

(** *** Classes and usage *)

Definition mbToBytes (mb : Z) : Z := if mb <=? 0 then 0 else s64 (s64 (mb * 1024) * 1024).

Definition normalizedClass (meta : AttachmentMeta) : string :=
  let class := ToLower (TrimSpace (am_Class meta)) in
  let class := if class == "" then ClassifyAttachmentMime (am_MimeType meta) else class in
  if class == "image" then "image" else "file".

(** The maximal item and the quota of a class. *)
Definition classLimitsLocked (s : AttachmentStore) (class : string) : Z * Z :=
  if ToLower (TrimSpace class) == "image"
  then (ImageMaxItemBytes (as_limits s), ImageQuotaBytes (as_limits s))
  else (FileMaxItemBytes (as_limits s), FileQuotaBytes (as_limits s)).

(** A sum over the entries that satisfy a test. *)
Definition sumSizes (entries : list (string * AttachmentMeta))
    (counted : string -> AttachmentMeta -> bool) : Z :=
  fold_left (fun sum '(id, meta) =>
    if counted id meta then s64 (sum + am_Size meta) else sum) entries 0.

(** The class of an entry as [usageByClassLocked] and [PurgeOlderThanByClass] see it. *)
Definition metaClass (meta : AttachmentMeta) : string :=
  let class := ToLower (TrimSpace (am_Class meta)) in
  if class == "" then ClassifyAttachmentMime (am_MimeType meta) else class.

Definition usageByClassLocked (rt : GoRuntime) (s : AttachmentStore) (class : string) : Z :=
  let normalizedClass := ToLower (TrimSpace class) in
  sumSizes (rangeMap (as_items s)) (fun _ meta => metaClass meta == normalizedClass).

Definition usageByClassExcludingLocked (rt : GoRuntime) (s : AttachmentStore) (class : string)
    (excluded : gmap string string) : Z :=
  let class := ToLower (TrimSpace class) in
  sumSizes (rangeMap (as_items s))
    (fun id meta => bool_decide (excluded !! id = None) && (normalizedClass meta == class)).

(** *** Eviction *)

Definition isPinned (meta : AttachmentMeta) : bool :=
  TrimSpace (am_PinState meta) == AttachmentPinStatePinned.

(** The time an attachment was used last. *)
Definition lastUse (meta : AttachmentMeta) : Z :=
  if IsZero (am_LastAccessAt meta) then am_CreatedAt meta else am_LastAccessAt meta.

Definition candidateLess (a b : string * Z) : bool :=
  if snd a =? snd b then String.ltb (fst a) (fst b) else Before (snd a) (snd b).

Definition lruCandidatesLocked (rt : GoRuntime) (s : AttachmentStore) (class : string)
    (excluded : gmap string string) : list string :=
  let class := ToLower (TrimSpace class) in
  let candidates := omap (fun '(id, meta) =>
    if negb (bool_decide (excluded !! id = None)) || isPinned meta
       || negb (normalizedClass meta == class) then None
    else Some (id, lastUse meta)) (rangeMap (as_items s)) in
  (sortSlice candidateLess candidates).*1.

(** The loop over the candidates: what it takes until the usage is low enough. *)
Fixpoint takeUntil (items : Items) (candidates : list string) (usage targetUsage : Z)
    : list string :=
  match candidates with
  | [] => []
  | id :: rest =>
      match items !! id with
      | None => takeUntil items rest usage targetUsage
      | Some meta =>
          let usage := s64 (usage - am_Size meta) in
          id :: (if usage <=? targetUsage then [] else takeUntil items rest usage targetUsage)
      end
  end.

(** The loop of [deleteIDsLocked]. *)
Fixpoint removeFiles (env : AttachmentEnv) (ids : list string) : op unit :=
  match ids with
  | [] => retM tt
  | id :: ids =>
      modifyM (fun s => with_blobs s (delete id (as_blobs s))) ;;!
      (fun s => if as_persist s && negb (TrimSpace (as_dir s) == "")
                then removePath env (filePath s id) s else (s, Ok tt)) ;;!
      removeFiles env ids
  end.

Definition deleteIDsLocked (env : AttachmentEnv) (ids : list string) : op unit := fun s =>
  match ids with
  | [] => (s, Ok tt)
  | _ =>
      let nextItems := foldr delete (as_items s) ids in
      (removeFiles env ids ;;!
       persistItemsLocked env nextItems ;;!
       modifyM (fun s => with_items s nextItems)) s
  end.

Definition enforceClassLimitsLocked (env : AttachmentEnv) (class : string) (size : Z) : op unit :=
  fun s =>
  let usage := usageByClassLocked (ae_rt env) in
  let '(maxItemBytes, quotaBytes) := classLimitsLocked s class in
  if (0 <? maxItemBytes) && (maxItemBytes <? size)
  then (s, Err (errorsNew "attachment exceeds class max item size")) else
  let fullCapBytes :=
    let b := Z.quot (s64 (quotaBytes * FullCapPercent (as_hardCap s))) 100 in
    if b <=? 0 then quotaBytes else b in
  if (0 <? quotaBytes) && (fullCapBytes <=? usage s class) then
    (with_hits s (if EqualFold (TrimSpace class) "image"
                  then mkHits (s64 (ImageFullCapHits (as_hits s) + 1)) (FileFullCapHits (as_hits s))
                  else mkHits (ImageFullCapHits (as_hits s)) (s64 (FileFullCapHits (as_hits s) + 1))),
     Err ErrAttachmentHardCapReached) else
  if (0 <? quotaBytes) && (quotaBytes <? s64 (usage s class + size)) then
    let targetUsage := let t := s64 (quotaBytes - size) in if t <? 0 then 0 else t in
    let toDelete :=
      if targetUsage <? usage s class
      then takeUntil (as_items s) (lruCandidatesLocked (ae_rt env) s class ∅)
             (usage s class) targetUsage
      else [] in
    (deleteIDsLocked env toDelete ;;!
     fun s => (s, if quotaBytes <? s64 (usage s class + size)
                  then Err (errorsNew "attachment class quota exceeded") else Ok tt)) s
  else (s, Ok tt).

(** *** Adding and reading *)

(** The file and the index of an attachment that has passed the limits, when there is a
    directory and persistence is on. *)
Definition storeBlob (env : AttachmentEnv) (id : string) (data : list Z) : op unit := fun s =>
  match ae_mkdir env with
  | Some err => (s, Err err)
  | None =>
      match sealFile env s (filePath s id) data with
      | Err err => (s, Err err)
      | Ok blob => writePath env (filePath s id) blob s
      end
  end.

Definition commitMeta (env : AttachmentEnv) (id : string) (meta : AttachmentMeta) : op unit := fun s =>
  let nextItems := <[id := meta]> (as_items s) in
  (persistItemsLocked env nextItems ;;!
   modifyM (fun s => with_items s nextItems)) s.

(** Without persistence the bytes stay in memory. *)
Definition keepInMemory (id : string) (meta : AttachmentMeta) (data : list Z) (s : AttachmentStore)
    : AttachmentStore :=
  with_blobs (with_items s (<[id := meta]> (as_items s))) (<[id := data]> (as_blobs s)).

Definition newAttachmentID (buf : result error (list Z)) : result error string :=
  try! buf := buf in
  Ok ("att1_" +:+ hexEncode buf).

(** The part of [Put] under the lock. The limits run in [envLimits], the rest in [env]; a failed
    index is followed by the removal of the file, whose error is dropped. *)
Definition putLocked (envLimits env : AttachmentEnv) (meta : AttachmentMeta) (data : list Z)
    : op AttachmentMeta :=
  let id := am_ID meta in
  enforceClassLimitsLocked envLimits (am_Class meta) (am_Size meta) ;;!
  fun s =>
    if as_dir s == "" then (with_items s (<[id := meta]> (as_items s)), Ok meta) else
    if negb (as_persist s) then (keepInMemory id meta data s, Ok meta) else
    match storeBlob env id data s with
    | (s, Err err) => (s, Err err)
    | (s, Ok _) =>
        match commitMeta env id meta s with
        | (s, Err err) => (fst (removePath env (filePath s id) s), Err err)
        | (s, Ok _) => (s, Ok meta)
        end
    end.

Definition newMeta (id name mimeType : string) (now : Z) (data : list Z) : AttachmentMeta :=
  let mimeType := if mimeType == "" then "application/octet-stream" else mimeType in
  mkMeta id name mimeType (ClassifyAttachmentMime mimeType) now AttachmentPinStateUnpinned
    (Z.of_nat (List.length data)) now.

Definition Put (envLimits env : AttachmentEnv) (now : Z) (buf : result error (list Z))
    (name mimeType : string) (data : list Z) : op AttachmentMeta :=
  if (List.length data =? 0)%nat then failM (errorsNew "attachment data is empty") else
  let! id := liftM (newAttachmentID buf) in
  putLocked envLimits env (newMeta id name mimeType now data) data.

(** The defaults of [PutExisting]. *)
Definition completeMeta (now : Z) (meta : AttachmentMeta) (data : list Z) : AttachmentMeta :=
  let mimeType := if TrimSpace (am_MimeType meta) == "" then "application/octet-stream"
                  else am_MimeType meta in
  let class := if TrimSpace (am_Class meta) == "" then ClassifyAttachmentMime mimeType
               else am_Class meta in
  let size := if am_Size meta <=? 0 then Z.of_nat (List.length data) else am_Size meta in
  let createdAt := if IsZero (am_CreatedAt meta) then now else am_CreatedAt meta in
  let lastAccessAt := if IsZero (am_LastAccessAt meta) then createdAt else am_LastAccessAt meta in
  let pinState := if TrimSpace (am_PinState meta) == "" then AttachmentPinStateUnpinned
                  else am_PinState meta in
  mkMeta (am_ID meta) (am_Name meta) mimeType class lastAccessAt pinState size createdAt.

Definition PutExisting (envLimits env : AttachmentEnv) (now : Z) (meta : AttachmentMeta)
    (data : list Z) : op unit :=
  if TrimSpace (am_ID meta) == "" then failM (errorsNew "attachment id is required") else
  if (List.length data =? 0)%nat then failM (errorsNew "attachment data is empty") else
  let meta := completeMeta now meta data in
  enforceClassLimitsLocked envLimits (am_Class meta) (am_Size meta) ;;!
  fun s =>
    if as_dir s == "" then (with_items s (<[am_ID meta := meta]> (as_items s)), Ok tt) else
    if negb (as_persist s) then (keepInMemory (am_ID meta) meta data s, Ok tt) else
    (storeBlob env (am_ID meta) data ;;! commitMeta env (am_ID meta) meta) s.

Definition touchLastAccess (env : AttachmentEnv) (id : string) (at_ : Z) : op unit := fun s =>
  match as_items s !! id with
  | None => (s, Err ErrAttachmentNotFound)
  | Some meta =>
      if negb (Before (am_LastAccessAt meta) at_) then (s, Ok tt) else
      commitMeta env id (with_access meta at_) s
  end.

(** The part of [Get] before the last access is noted: the bytes in memory, or of the file, which
    may be one of the time before there was a secret. *)
Definition readBlob (env : AttachmentEnv) (s : AttachmentStore) (id : string)
    : result error (list Z) :=
  match as_blobs s !! id with
  | Some blob => Ok blob
  | None =>
      if as_dir s == "" then Err ErrAttachmentNotFound else
      match readPath env s (filePath s id) with
      | Err err => Err (if err == fsErrNotExist then ErrAttachmentNotFound else err)
      | Ok data =>
          if as_secret s == "" then Ok data else
          match Decrypt (as_secret s) data with
          | Ok plain => Ok plain
          | Err err => if err == ErrLegacyData then Ok data else Err err
          end
      end
  end.

Definition Get (env : AttachmentEnv) (now : Z) (id : string) : op (AttachmentMeta * list Z) := fun s =>
  match as_items s !! id with
  | None => (s, Err ErrAttachmentNotFound)
  | Some meta =>
      match readBlob env s id with
      | Err err => (s, Err err)
      | Ok data => (fst (touchLastAccess env id now s), Ok (meta, data))
      end
  end.

Definition SetPinState (env : AttachmentEnv) (now : Z) (id pinState : string) : op unit := fun s =>
  let id := TrimSpace id in
  let pinState := ToLower (TrimSpace pinState) in
  if id == "" then (s, Err (errorsNew "attachment id is required")) else
  if negb ((pinState == AttachmentPinStatePinned) || (pinState == AttachmentPinStateUnpinned))
  then (s, Err (errorsNew "invalid pin state")) else
  match as_items s !! id with
  | None => (s, Err ErrAttachmentNotFound)
  | Some meta =>
      if am_PinState meta == pinState then (s, Ok tt) else
      commitMeta env id (with_access (with_pin meta pinState) now) s
  end.

(** *** Garbage collection *)

Definition tryMarkDelete (id cause : string) (marks : GCMarks) : GCMarks :=
  match marks !! id with
  | Some _ => marks
  | None => <[id := cause]> marks
  end.

(** [now.Add(-time.Duration(ttl) * time.Second)] *)
Definition ttlCutoff (now ttl : Z) : Z := now + s64 (s64 (- ttl) * Second).

(** Whether the first phase marks an attachment. *)
Definition expired (now imageTTLSeconds fileTTLSeconds : Z) (meta : AttachmentMeta) : bool :=
  let ttl := if normalizedClass meta == "image" then imageTTLSeconds else fileTTLSeconds in
  negb (isPinned meta) && (0 <? ttl)
  && negb (After (am_CreatedAt meta) (ttlCutoff now ttl)).

Definition markExpired (rt : GoRuntime) (now imageTTLSeconds fileTTLSeconds : Z) (items : Items)
    : GCMarks :=
  fold_left (fun marks '(id, meta) =>
    if expired now imageTTLSeconds fileTTLSeconds meta then tryMarkDelete id "expired" marks
    else marks) (rangeMap items) ∅.

(** The usage a class is brought down to, from a usage of [usage]. *)
Definition gcTarget (s : AttachmentStore) (quotaBytes usage : Z) : Z :=
  let highWatermarkBytes :=
    let b := Z.quot (s64 (quotaBytes * HighWatermarkPercent (as_hardCap s))) 100 in
    if b <=? 0 then quotaBytes else b in
  if highWatermarkBytes <=? usage then
    let aggressiveTargetBytes :=
      Z.quot (s64 (quotaBytes * AggressiveTargetPercent (as_hardCap s))) 100 in
    if (0 <? aggressiveTargetBytes) && (aggressiveTargetBytes <? quotaBytes)
    then aggressiveTargetBytes else quotaBytes
  else quotaBytes.

(** The second phase, for one class: the attachments it takes. *)
Definition lruVictims (rt : GoRuntime) (s : AttachmentStore) (class : string) (marks : GCMarks)
    : list string :=
  let quotaBytes := snd (classLimitsLocked s class) in
  if quotaBytes <=? 0 then [] else
  let usage := usageByClassExcludingLocked rt s class marks in
  let targetUsage := gcTarget s quotaBytes usage in
  if usage <=? targetUsage then [] else
  takeUntil (as_items s) (lruCandidatesLocked rt s class marks) usage targetUsage.

Definition markLRU (rt : GoRuntime) (s : AttachmentStore) (class : string) (marks : GCMarks)
    : GCMarks :=
  fold_left (fun marks id => tryMarkDelete id "lru" marks) (lruVictims rt s class marks) marks.

Definition gcMarks (rt : GoRuntime) (s : AttachmentStore) (now imageTTL fileTTL : Z) : GCMarks :=
  markLRU rt s "file" (markLRU rt s "image" (markExpired rt now imageTTL fileTTL (as_items s))).

Definition count1 (counts : gmap string Z) (key : string) : gmap string Z :=
  <[key := default 0 (counts !! key) + 1]> counts.

Definition addToReport (items : Items) (report : AttachmentGCReport) (mark : string * string)
    : AttachmentGCReport :=
  let '(id, cause) := mark in
  match items !! id with
  | None => report
  | Some meta =>
      mkReport (gc_DryRun report) (gc_DeletedCount report + 1)
        (count1 (gc_DeletedByClass report) (normalizedClass meta))
        (count1 (gc_DeletedByCause report) cause)
  end.

Definition gcReport (rt : GoRuntime) (items : Items) (marks : GCMarks) (dryRun : bool)
    : AttachmentGCReport :=
  fold_left (addToReport items) (rangeMap marks)
    (mkReport dryRun 0 (<["image" := 0]> {["file" := 0]}) (<["expired" := 0]> {["lru" := 0]})).

Definition runGCLocked (env : AttachmentEnv) (now imageTTL fileTTL : Z) (dryRun : bool)
    : op AttachmentGCReport := fun s =>
  let marks := gcMarks (ae_rt env) s now imageTTL fileTTL in
  let report := gcReport (ae_rt env) (as_items s) marks dryRun in
  if (gc_DeletedCount report =? 0) || dryRun then (s, Ok report) else
  (deleteIDsLocked env (@rangeMap (ae_rt env) _ marks).*1 ;;! retM report) s.

Definition RunGC (env : AttachmentEnv) (clock now imageTTL fileTTL : Z) (dryRun : bool)
    : op AttachmentGCReport :=
  runGCLocked env (if IsZero now then clock else now) imageTTL fileTTL dryRun.

Definition purge (env : AttachmentEnv) (old : AttachmentMeta -> bool) : op Z := fun s =>
  let deletedIDs := omap (fun '(id, meta) => if old meta then Some id else None)
                      (@rangeMap (ae_rt env) _ (as_items s)) in
  match deletedIDs with
  | [] => (s, Ok 0)
  | _ => (deleteIDsLocked env deletedIDs ;;! retM (Z.of_nat (List.length deletedIDs))) s
  end.

Definition PurgeOlderThan (env : AttachmentEnv) (cutoff : Z) : op Z :=
  purge env (fun meta => negb (After (am_CreatedAt meta) cutoff)).

Definition PurgeOlderThanByClass (env : AttachmentEnv) (class : string) (cutoff : Z) : op Z :=
  let class := ToLower (TrimSpace class) in
  if class == "" then failM (errorsNew "attachment class is required") else
  purge env (fun meta => (metaClass meta == class) && negb (After (am_CreatedAt meta) cutoff)).

(** *** Settings, statistics, wiping *)

Definition SetPersistenceEnabled (enabled : bool) (s : AttachmentStore) : AttachmentStore :=
  mkAttachmentStore (as_dir s) (as_secret s) (as_items s) (as_blobs s) enabled (as_limits s)
    (as_hardCap s) (as_hits s) (as_files s).

Definition SetClassPolicies (imageQuotaMB imageMaxItemSizeMB fileQuotaMB fileMaxItemSizeMB : Z)
    (s : AttachmentStore) : AttachmentStore :=
  mkAttachmentStore (as_dir s) (as_secret s) (as_items s) (as_blobs s) (as_persist s)
    (mkLimits (mbToBytes imageQuotaMB) (mbToBytes imageMaxItemSizeMB) (mbToBytes fileQuotaMB)
       (mbToBytes fileMaxItemSizeMB))
    (as_hardCap s) (as_hits s) (as_files s).

Definition clampHardCap (high full aggressive : Z) : attachmentHardCapPolicy :=
  let high := if high <? 1 then 1 else high in
  let high := if 100 <? high then 100 else high in
  let full := if full <? high then high else full in
  let full := if 100 <? full then 100 else full in
  let aggressive := if aggressive <? 1 then 1 else aggressive in
  let aggressive := if high <? aggressive then high else aggressive in
  mkHardCap high full aggressive.

Definition SetHardCapPolicy (high full aggressive : Z) (s : AttachmentStore) : AttachmentStore :=
  mkAttachmentStore (as_dir s) (as_secret s) (as_items s) (as_blobs s) (as_persist s)
    (as_limits s) (clampHardCap high full aggressive) (as_hits s) (as_files s).

(** The share of a quota in use, in percent; there is none without a quota. *)
Definition usagePercent (rt : GoRuntime) (s : AttachmentStore) (class : string) : option Z :=
  let quota := snd (classLimitsLocked s class) in
  if 0 <? quota then Some (Z.quot (s64 (usageByClassLocked rt s class * 100)) quota) else None.

Definition HardCapStats (rt : GoRuntime) (s : AttachmentStore) : gmap string Z :=
  let high := HighWatermarkPercent (as_hardCap s) in
  let full := FullCapPercent (as_hardCap s) in
  let stats := list_to_map [
    ("image_high_watermark_percent", high); ("image_full_cap_percent", full);
    ("file_high_watermark_percent", high); ("file_full_cap_percent", full);
    ("image_full_cap_hits", ImageFullCapHits (as_hits s));
    ("file_full_cap_hits", FileFullCapHits (as_hits s))] in
  let stats := match usagePercent rt s "image" with
               | Some p => <["image_usage_percent" := p]> stats | None => stats end in
  match usagePercent rt s "file" with
  | Some p => <["file_usage_percent" := p]> stats | None => stats end.

Definition UsageByClass (rt : GoRuntime) (s : AttachmentStore) : gmap string Z :=
  <["image" := usageByClassLocked rt s "image"]> {["file" := usageByClassLocked rt s "file"]}.

Definition ListMetas (rt : GoRuntime) (s : AttachmentStore) : list AttachmentMeta :=
  (rangeMap (as_items s)).*2.

(** os.RemoveAll of the directory; a failure may have removed a part of it. *)
Definition Wipe (env : AttachmentEnv) : op unit := fun s =>
  let s := with_blobs (with_items s ∅) ∅ in
  if TrimSpace (as_dir s) == "" then (s, Ok tt) else
  match ae_removeAll env with
  | Some (err, remain) => (with_files s remain, if err == fsErrNotExist then Ok tt else Err err)
  | None => (with_files s (filter (fun pf => within (Clean (as_dir s)) (fst pf) = false) (as_files s)),
             Ok tt)
  end.

(** *** Opening a store *)

(** The loop of [load]: what it makes of an entry, and whether it changed it. *)
Definition normalizeMeta (now : Z) (meta : AttachmentMeta) : AttachmentMeta * bool :=
  let '(meta, n1) := if TrimSpace (am_Class meta) == ""
                     then (with_class meta (ClassifyAttachmentMime (am_MimeType meta)), true)
                     else (meta, false) in
  let '(meta, n2) := if TrimSpace (am_PinState meta) == ""
                     then (with_pin meta AttachmentPinStateUnpinned, true) else (meta, false) in
  if IsZero (am_LastAccessAt meta)
  then (with_access meta (if negb (IsZero (am_CreatedAt meta)) then am_CreatedAt meta else now), true)
  else (meta, n1 || n2).

(** The loop of [migrateLegacyFiles]. *)
Fixpoint migrateFiles (env : AttachmentEnv) (ids : list string) : op unit :=
  match ids with
  | [] => retM tt
  | id :: ids =>
      (fun s =>
         let p := filePath s id in
         match readPath env s p with
         | Err err => (s, if err == fsErrNotExist then Ok tt else Err err)
         | Ok raw =>
             match Decrypt (as_secret s) raw with
             | Ok _ => (s, Ok tt)
             | Err derr =>
                 if negb (derr == ErrLegacyData) then (s, Err derr) else
                 match Encrypt (ae_rand env p) (as_secret s) raw with
                 | Err err => (s, Err err)
                 | Ok enc => writePath env p enc s
                 end
             end
         end) ;;!
      migrateFiles env ids
  end.

Definition migrateLegacyFiles (env : AttachmentEnv) (items : Items) : op unit := fun s =>
  if as_secret s == "" then (s, Ok tt) else
  migrateFiles env (@rangeMap (ae_rt env) _ items).*1 s.

(** The index decrypted, and whether it was one of the time before there was a secret. *)
Definition openIndex (secret : string) (data : list Z) : result error (list Z * bool) :=
  if negb (secret == "") then
    match Decrypt secret data with
    | Ok plain => Ok (plain, false)
    | Err derr => if derr == ErrLegacyData then Ok (data, true) else Err derr
    end
  else Ok (data, false).

(** [envMigrate] serves the migration of the files, [env] the rest. *)
Definition load (env envMigrate : AttachmentEnv) (now : Z) : op unit := fun s =>
  match readPath env s (indexPath s) with
  | Err err => (s, if err == fsErrNotExist then Ok tt else Err err)
  | Ok [] => (s, Ok tt)
  | Ok data =>
      match (try! opened := openIndex (as_secret s) data in
             try! payload := unmarshalJSON (fst opened) in Ok (payload, snd opened)) with
      | Err err => (s, Err err)
      | Ok (payload, indexWasLegacy) =>
          let v := ix_SchemaVersion payload in
          if negb (v =? 0) && (attachmentIndexSchemaVersion <? v)
          then (s, Err ErrUnsupportedStorageSchema) else
          let schemaMigrated := (v =? 0) || (v <? attachmentIndexSchemaVersion) in
          let items := default (as_items s) (ix_Items payload) in
          let s := with_items s (fst ∘ normalizeMeta now <$> items) in
          let normalized := existsb (fun '(_, meta) => snd (normalizeMeta now meta))
                              (@rangeMap (ae_rt env) _ items) in
          let persist (b : bool) : op unit :=
            if b then (fun s => persistItemsLocked env (as_items s) s) else retM tt in
          if negb (as_secret s == "") then
            (migrateLegacyFiles envMigrate (default ∅ (ix_Items payload)) ;;!
             persist (indexWasLegacy || normalized || schemaMigrated)) s
          else persist (normalized || schemaMigrated) s
      end
  end.

Definition NewAttachmentStoreWithSecret (env envMigrate : AttachmentEnv) (now : Z)
    (dir secret : string) (files : gmap path (list Z))
    : gmap path (list Z) * result error AttachmentStore :=
  let s := mkAttachmentStore dir (TrimSpace secret) ∅ ∅ true (mkLimits 0 0 0 0) (mkHardCap 90 100 75)
             (mkHits 0 0) files in
  if dir == "" then (files, Ok s) else
  let '(s, r) := load env envMigrate now s in
  (as_files s, match r with Ok _ => Ok s | Err err => Err err end).
End Store.

(** ** Paths of attachments *)

(** An identifier without a slash, as [newAttachmentID] makes them. *)
Definition plain (id : string) : Prop :=
  Forall (fun a => a <> "/"%char) (list_ascii_of_string id).

Lemma splitSlash_app d n : splitSlash (d ++ "/"%char :: n) = (splitSlash d ++ splitSlash n)%list.
Proof.
  induction d as [|a d IH]; cbn [splitSlash app]; [by rewrite bool_decide_true|].
  case_bool_decide; rewrite IH; [done|]. destruct (splitSlash d) as [|c cs] eqn:E; [|done].
  exfalso. revert E. destruct d as [|b d]; [done|]. cbn. by repeat case_match.
Qed.

Lemma splitSlash_plain n : Forall (fun a => a <> "/"%char) n -> splitSlash n = [n].
Proof.
  induction 1 as [|a n Ha _ IH]; [done|]. cbn. by rewrite bool_decide_false, IH.
Qed.

(** Joining a directory and a name is putting the name in front. *)
Lemma Join_name dir name :
  dir <> "" -> plain name -> (2 < String.length name)%nat ->
  Join dir name = (fst (Clean dir), list_ascii_of_string name :: snd (Clean dir)).
Proof.
  intros Hd Hn Hl. rewrite length_ascii in Hl. unfold Join. rewrite bool_decide_false by done.
  unfold Clean. rewrite !list_ascii_app. change (list_ascii_of_string "/") with ["/"%char]. cbn [app].
  destruct (list_ascii_of_string dir) as [|a d] eqn:Ed; [by destruct dir|].
  rewrite splitSlash_app, (splitSlash_plain _ Hn), fold_left_app. cbn [fold_left app fst snd]. f_equal.
  set (n := list_ascii_of_string name) in *. unfold cleanElement at 1.
  assert (n <> [] /\ n <> dot /\ n <> dotdot) as (H1 & H2 & H3)
    by (split_and!; intros E; rewrite E in Hl; cbn in Hl; lia).
  by rewrite (bool_decide_false _ H1), (bool_decide_false _ H2), (bool_decide_false _ H3).
Qed.

Lemma plain_app a b : plain a -> plain b -> plain (a +:+ b).
Proof. unfold plain. rewrite list_ascii_app. intros. by apply Forall_app. Qed.

Lemma bin_plain : plain ".bin".
Proof. unfold plain. by repeat constructor. Qed.

Lemma filePath_eq s id :
  as_dir s <> "" -> plain id ->
  filePath s id = (fst (Clean (as_dir s)), list_ascii_of_string (id +:+ ".bin") :: snd (Clean (as_dir s))).
Proof.
  intros Hd Hp. apply Join_name; [done|apply plain_app; [done|apply bin_plain]|].
  rewrite length_ascii, list_ascii_app, length_app. cbn. lia.
Qed.

Lemma indexPath_eq s :
  as_dir s <> "" ->
  indexPath s = (fst (Clean (as_dir s)), list_ascii_of_string "index.json" :: snd (Clean (as_dir s))).
Proof.
  intros Hd. apply Join_name; [done| |cbn; lia]. unfold plain. by repeat constructor.
Qed.

(** Different attachments have different files, and none is the index. *)
Lemma filePath_inj s id1 id2 :
  as_dir s <> "" -> plain id1 -> plain id2 -> filePath s id1 = filePath s id2 -> id1 = id2.
Proof.
  intros Hd H1 H2. rewrite !filePath_eq by done. intros [= E]. rewrite !list_ascii_app in E.
  apply app_inv_tail in E. by rewrite <- (string_of_list_ascii_of_string id1), E,
    string_of_list_ascii_of_string.
Qed.

Lemma filePath_not_index s id : as_dir s <> "" -> plain id -> filePath s id <> indexPath s.
Proof.
  intros Hd Hp. rewrite filePath_eq, indexPath_eq by done. intros [= E].
  rewrite list_ascii_app in E. apply (f_equal reverse) in E. rewrite reverse_app in E. by cbn in E.
Qed.

(** ** Sums of sizes *)

Fixpoint total (entries : list (string * AttachmentMeta))
    (counted : string -> AttachmentMeta -> bool) : Z :=
  match entries with
  | [] => 0
  | (id, meta) :: entries => (if counted id meta then am_Size meta else 0) + total entries counted
  end.

Lemma total_perm l1 l2 counted : l1 ≡ₚ l2 -> total l1 counted = total l2 counted.
Proof.
  induction 1 as [|[id m] l1 l2 _ IH|[i m] [j n] l|l1 l2 l3 _ IH1 _ IH2]; cbn; [done|lia|lia|congruence].
Qed.

Lemma sumSizes_total l counted : sumSizes l counted = s64 (total l counted).
Proof.
  unfold sumSizes. change 0 with (s64 0) at 1. rewrite <- (Z.add_0_l (total l counted)).
  generalize 0. induction l as [|[id m] l IH]; intros a; cbn [fold_left total].
  - by rewrite Z.add_0_r.
  - destruct (counted id m).
    + rewrite s64_add_l, IH, Z.add_assoc. done.
    + by rewrite IH.
Qed.

Section Quotas.
Context {cipher : Cipher} {ecodec : EnvelopeCodec} {lower : GoLower} {fold : GoFold}
        {codec : JsonCodec attachmentIndex}.

(** The size of the attachments of a class, and of all. *)
Definition usageOf (items : Items) (class : string) : Z :=
  total (map_to_list items) (fun _ meta => metaClass meta == class).
Definition allSizes (items : Items) : Z := total (map_to_list items) (fun _ _ => true).

Definition sized (items : Items) : Prop := map_Forall (fun _ meta => 0 <= am_Size meta) items.

Lemma usageByClass_eq rt s class :
  usageByClassLocked rt s class = s64 (usageOf (as_items s) (ToLower (TrimSpace class))).
Proof.
  unfold usageByClassLocked, usageOf. rewrite sumSizes_total. f_equal. apply total_perm, rangeMap_perm.
Qed.

Lemma total_insert (items : Items) id meta counted :
  items !! id = None ->
  total (map_to_list (<[id := meta]> items)) counted
  = (if counted id meta then am_Size meta else 0) + total (map_to_list items) counted.
Proof. intros H. by rewrite (total_perm _ _ _ (map_to_list_insert _ _ _ H)). Qed.

Lemma total_delete (items : Items) id meta counted :
  items !! id = Some meta ->
  total (map_to_list items) counted
  = (if counted id meta then am_Size meta else 0) + total (map_to_list (delete id items)) counted.
Proof.
  intros H. rewrite <- total_insert by apply lookup_delete_eq. by rewrite insert_delete_id.
Qed.

Lemma total_bounds items counted :
  sized items -> 0 <= total (map_to_list items) counted <= allSizes items.
Proof.
  unfold sized, allSizes. rewrite map_Forall_to_list. induction 1 as [|[id m] l Hm _ IH]; cbn; [lia|].
  cbn in Hm. destruct (counted id m); lia.
Qed.

Lemma sized_insert items id meta : sized items -> 0 <= am_Size meta -> sized (<[id := meta]> items).
Proof. intros Hs Hm. by apply map_Forall_insert_2. Qed.

Lemma sized_sub items items' : sized items -> items' ⊆ items -> sized items'.
Proof. intros Hs Hsub id m Hm. apply (Hs id). by eapply lookup_weaken. Qed.

(** Taking attachments away does not raise a sum, adding one raises it by its size at most. *)
Lemma total_sub items items' counted :
  sized items -> items' ⊆ items ->
  total (map_to_list items') counted <= total (map_to_list items) counted.
Proof.
  revert items. induction items' as [|id m items' Hid IH] using map_ind; intros items Hs Hsub.
  - rewrite map_to_list_empty. by apply total_bounds.
  - assert (Hm : items !! id = Some m) by (eapply lookup_weaken; [apply lookup_insert_eq|done]).
    rewrite total_insert by done. rewrite (total_delete _ _ _ _ Hm). apply Z.add_le_mono_l. apply IH.
    + apply (sized_sub items); [done|]. apply delete_subseteq.
    + apply map_subseteq_spec. intros i x Hx. destruct (decide (i = id)) as [->|Hi]; [congruence|].
      rewrite lookup_delete_ne by done. eapply lookup_weaken; [|done]. by rewrite lookup_insert_ne.
Qed.

Lemma total_insert_le items id meta counted :
  sized items -> 0 <= am_Size meta ->
  total (map_to_list (<[id := meta]> items)) counted
  <= (if counted id meta then am_Size meta else 0) + total (map_to_list items) counted.
Proof.
  intros Hs Hm. rewrite <- (insert_delete_eq items id), total_insert by apply lookup_delete_eq.
  apply Z.add_le_mono_l. apply total_sub; [done|]. apply delete_subseteq.
Qed.

(** *** What the operations leave alone *)

Definition config (s : AttachmentStore) :=
  (as_dir s, as_secret s, as_persist s, as_limits s, as_hardCap s).

(** The files and the bytes in memory may change, nothing else. *)
Definition sameItems (s s' : AttachmentStore) : Prop :=
  config s' = config s /\ as_items s' = as_items s /\ as_hits s' = as_hits s.

Lemma writePath_same env p data s : sameItems s (fst (writePath env p data s)).
Proof. unfold writePath. by destruct (ae_write env p) as [[]|]. Qed.

Lemma removePath_same env p s : sameItems s (fst (removePath env p s)).
Proof. unfold removePath. by destruct (as_files s !! p), (ae_remove env p). Qed.

Lemma persistItems_same env items s : sameItems s (fst (persistItemsLocked env items s)).
Proof.
  unfold persistItemsLocked. destruct (_ || _); [done|]. destruct (try! data := _ in _); [|done].
  apply writePath_same.
Qed.

Lemma sameItems_trans s1 s2 s3 : sameItems s1 s2 -> sameItems s2 s3 -> sameItems s1 s3.
Proof. intros (H1 & H2 & H3) (H4 & H5 & H6). split_and!; congruence. Qed.

Lemma storeBlob_same env id data s : sameItems s (fst (storeBlob env id data s)).
Proof.
  unfold storeBlob. destruct (ae_mkdir env); [done|]. destruct (sealFile _ _ _ _); [|done].
  apply writePath_same.
Qed.

Lemma removeFiles_same env ids s : sameItems s (fst (removeFiles env ids s)).
Proof.
  revert s. induction ids as [|id ids IH]; intros s; [done|]. cbn [removeFiles].
  unfold bindM, modifyM. set (s1 := with_blobs _ _). assert (Hs1 : sameItems s s1) by done.
  destruct (as_persist s1 && _).
  - pose proof (removePath_same env (filePath s1 id) s1) as H.
    destruct (removePath env (filePath s1 id) s1) as [s2 [u|e]]; cbn in *.
    + apply (sameItems_trans _ s2), IH. by apply (sameItems_trans _ s1).
    + by apply (sameItems_trans _ s1).
  - by apply (sameItems_trans _ s1), IH.
Qed.

(** Deleting either fails and keeps the entries, or removes them all. *)
Lemma deleteIDs_items env ids s s' r :
  deleteIDsLocked env ids s = (s', r) ->
  config s' = config s /\ as_hits s' = as_hits s
  /\ (as_items s' = as_items s \/ as_items s' = foldr delete (as_items s) ids).
Proof.
  unfold deleteIDsLocked. destruct ids as [|id ids]; [intros [= <- <-]; auto|].
  unfold bindM. pose proof (removeFiles_same env (id :: ids) s) as H1.
  destruct (removeFiles env (id :: ids) s) as [s1 [[]|e]].
  - set (next := foldr _ _ _) in *. pose proof (persistItems_same env next s1) as H2.
    destruct (persistItemsLocked env next s1) as [s2 [[]|e]]; cbn in H1, H2; intros [= <- <-];
      destruct (sameItems_trans _ _ _ H1 H2) as (Hc & Hi & Hh); split_and!; auto.
  - intros [= <- <-]. destruct H1 as (Hc & Hi & Hh). auto.
Qed.

Lemma foldr_delete_sub (items : Items) ids : foldr delete items ids ⊆ items.
Proof.
  induction ids as [|id ids IH]; cbn; [done|]. etrans; [apply delete_subseteq|done].
Qed.

Lemma deleteIDs_sub env ids s : as_items (fst (deleteIDsLocked env ids s)) ⊆ as_items s.
Proof.
  destruct (deleteIDsLocked env ids s) as [s' r] eqn:E.
  destruct (deleteIDs_items _ _ _ _ _ E) as (_ & _ & Hi). cbn [fst].
  destruct Hi as [->| ->]; [done|]. apply foldr_delete_sub.
Qed.

(** *** Quotas *)

Definition quotaOf (s : AttachmentStore) (class : string) : Z := snd (classLimitsLocked s class).

Lemma quotaOf_config s s' class : config s' = config s -> quotaOf s' class = quotaOf s class.
Proof. unfold quotaOf, classLimitsLocked. intros [= _ _ _ -> _]. done. Qed.

Lemma enforce_spec env class size s s' r :
  enforceClassLimitsLocked env class size s = (s', r) ->
  config s' = config s /\ as_items s' ⊆ as_items s
  /\ (r = Ok tt -> 0 < quotaOf s class ->
      s64 (s64 (usageOf (as_items s') (ToLower (TrimSpace class))) + size) <= quotaOf s class).
Proof.
  unfold enforceClassLimitsLocked, quotaOf. destruct (classLimitsLocked s class) as [maxItem quota].
  cbn [snd]. destruct (_ && _); [by intros [= <- <-]|]. set (full := if _ <=? 0 then _ else _).
  destruct (_ && _); [by intros [= <- <-]|].
  destruct ((0 <? quota) && _) eqn:E.
  - set (ids := if _ <? _ then takeUntil _ _ _ _ else []). unfold bindM.
    destruct (deleteIDsLocked env ids s) as [s1 [[]|e]] eqn:Ed; intros [= <- <-].
    + destruct (deleteIDs_items _ _ _ _ _ Ed) as (Hc & _ & _).
      pose proof (deleteIDs_sub env ids s) as Hs. rewrite Ed in Hs. split_and!; [done|done|].
      intros Hr _. rewrite usageByClass_eq in Hr. by destruct (Z.ltb_spec quota
        (s64 (s64 (usageOf (as_items s1) (ToLower (TrimSpace class))) + size))).
    + destruct (deleteIDs_items _ _ _ _ _ Ed) as (Hc & _ & _).
      pose proof (deleteIDs_sub env ids s) as Hs. rewrite Ed in Hs. by split_and!.
  - intros [= <- <-]. split_and!; [done|done|]. intros _ Hq. rewrite usageByClass_eq in E.
    rewrite (proj2 (Z.ltb_lt 0 quota) Hq) in E. by apply Z.ltb_ge in E.
Qed.

(** An attachment is added to what the limits have left, or not at all. *)
Definition adds (s1 s' : AttachmentStore) (id : string) (meta : AttachmentMeta) : Prop :=
  config s' = config s1 /\ (as_items s' = as_items s1 \/ as_items s' = <[id := meta]> (as_items s1)).

Lemma commitMeta_adds env id meta s : adds s (fst (commitMeta env id meta s)) id meta.
Proof.
  unfold commitMeta, bindM, adds. set (next := insert id meta _).
  pose proof (persistItems_same env next s) as (Hc & Hi & _).
  destruct (persistItemsLocked env next s) as [s1 [[]|e]]; cbn in *; auto.
Qed.

Lemma same_adds s1 s2 s3 id meta : sameItems s1 s2 -> adds s2 s3 id meta -> adds s1 s3 id meta.
Proof. intros (Hc & Hi & _) [Hc' Hi']. unfold adds. rewrite <- Hi, <- Hc. done. Qed.

Lemma adds_then_same s1 s2 s3 id meta : adds s1 s2 id meta -> sameItems s2 s3 -> adds s1 s3 id meta.
Proof. intros [Hc' Hi'] (Hc & Hi & _). unfold adds. rewrite Hi, Hc. done. Qed.

Lemma store_then_commit env id meta data s :
  adds s (fst ((storeBlob env id data ;;! commitMeta env id meta) s)) id meta.
Proof.
  unfold bindM. pose proof (storeBlob_same env id data s) as H.
  destruct (storeBlob env id data s) as [s1 [[]|e]]; cbn [fst] in *.
  - eapply same_adds; [done|apply commitMeta_adds].
  - destruct H as (Hc & Hi & _). split; auto.
Qed.

(** Both ways of adding run the limits and then add one attachment. *)
Lemma putLocked_shape envL env meta data s :
  exists s1 r, enforceClassLimitsLocked envL (am_Class meta) (am_Size meta) s = (s1, r)
    /\ (fst (putLocked envL env meta data s) = s1
        \/ r = Ok tt /\ adds s1 (fst (putLocked envL env meta data s)) (am_ID meta) meta).
Proof.
  unfold putLocked, bindM.
  destruct (enforceClassLimitsLocked envL _ _ s) as [s1 [[]|e]]; exists s1; eexists; (split; [done|]); [right|by left].
  split; [done|]. destruct (as_dir s1 == ""); [by split; [|right]|].
  destruct (negb (as_persist s1)); [by split; [|right]|].
  pose proof (storeBlob_same env (am_ID meta) data s1) as H1.
  destruct (storeBlob env _ data s1) as [s2 [[]|e]]; cbn [fst] in *.
  - pose proof (commitMeta_adds env (am_ID meta) meta s2) as H2.
    destruct (commitMeta env _ meta s2) as [s3 [[]|e]]; cbn [fst] in *; [by eapply same_adds|].
    eapply same_adds; [done|]. eapply adds_then_same; [done|]. apply removePath_same.
  - destruct H1 as (Hc & Hi & _). split; auto.
Qed.

Lemma PutExisting_shape envL env now meta data s :
  let s' := fst (PutExisting envL env now meta data s) in let meta' := completeMeta now meta data in
  s' = s \/ data <> [] /\ exists s1 r, enforceClassLimitsLocked envL (am_Class meta') (am_Size meta') s = (s1, r)
      /\ (s' = s1 \/ r = Ok tt /\ adds s1 s' (am_ID meta') meta').
Proof.
  unfold PutExisting. destruct (TrimSpace (am_ID meta) == ""); [by left|].
  destruct data as [|b data]; [by left|]. cbn [List.length Nat.eqb]. right. split; [done|].
  set (meta' := completeMeta _ _ _).
  pose proof (fun s1 => store_then_commit env (am_ID meta') meta' (b :: data) s1) as Hadd.
  set (add := storeBlob _ _ _ ;;! _) in *. unfold bindM.
  destruct (enforceClassLimitsLocked envL _ _ s) as [s1 [[]|e]]; exists s1; eexists; (split; [done|]); [right|by left].
  split; [done|]. change (am_ID meta) with (am_ID meta'). destruct (as_dir s1 == ""); [by split; [|right]|].
  destruct (negb (as_persist s1)); [by split; [|right]|]. apply Hadd.
Qed.

(** *** The calls of a store, as steps *)

(** The sizes in the index and a new one add up to an [int64]. *)
Definition fits (s : AttachmentStore) (size : Z) : Prop := allSizes (as_items s) + size < 2 ^ 63.

(** Every call but [SetClassPolicies], with the second half of [Get] also as a step of its own, since
    other calls can come between the halves. *)
Inductive attachment_call : AttachmentStore -> AttachmentStore -> Prop :=
| ac_put envL env now buf name mime data s :
    fits s (Z.of_nat (List.length data)) ->
    attachment_call s (fst (Put envL env now buf name mime data s))
| ac_put_existing envL env now meta data s :
    fits s (am_Size (completeMeta now meta data)) ->
    attachment_call s (fst (PutExisting envL env now meta data s))
| ac_get env now id s : attachment_call s (fst (Get env now id s))
| ac_touch env id at_ s : attachment_call s (fst (touchLastAccess env id at_ s))
| ac_pin env now id pin s : attachment_call s (fst (SetPinState env now id pin s))
| ac_gc env clock now image file dry s :
    attachment_call s (fst (RunGC env clock now image file dry s))
| ac_purge env cutoff s : attachment_call s (fst (PurgeOlderThan env cutoff s))
| ac_purge_class env class cutoff s :
    attachment_call s (fst (PurgeOlderThanByClass env class cutoff s))
| ac_wipe env s : attachment_call s (fst (Wipe env s))
| ac_persist enabled s : attachment_call s (SetPersistenceEnabled enabled s)
| ac_hard_cap high full aggressive s :
    attachment_call s (SetHardCapPolicy high full aggressive s).

(** What a call does to the entries: some go, one is touched, or one is added within the limits. *)
Inductive entries_change (s s' : AttachmentStore) : Prop :=
| ec_drop : as_items s' ⊆ as_items s -> entries_change s s'
| ec_touch id meta meta' :
    as_items s !! id = Some meta -> as_items s' = <[id := meta']> (as_items s) ->
    am_Size meta' = am_Size meta -> metaClass meta' = metaClass meta -> entries_change s s'
| ec_add envL meta s1 :
    enforceClassLimitsLocked envL (am_Class meta) (am_Size meta) s = (s1, Ok tt) ->
    as_items s' = <[am_ID meta := meta]> (as_items s1) ->
    TrimSpace (am_Class meta) <> "" -> 0 <= am_Size meta -> fits s (am_Size meta) ->
    entries_change s s'.

Lemma touch_change env id meta meta' s :
  as_items s !! id = Some meta -> am_Size meta' = am_Size meta -> metaClass meta' = metaClass meta ->
  as_limits (fst (commitMeta env id meta' s)) = as_limits s
  /\ entries_change s (fst (commitMeta env id meta' s)).
Proof.
  intros Hm Hz Hc. destruct (commitMeta_adds env id meta' s) as [Hcfg Hi]. split; [by injection Hcfg|].
  destruct Hi as [Hi|Hi]; [apply ec_drop; by rewrite Hi|by eapply ec_touch].
Qed.

Lemma touchLastAccess_change env id at_ s :
  as_limits (fst (touchLastAccess env id at_ s)) = as_limits s
  /\ entries_change s (fst (touchLastAccess env id at_ s)).
Proof.
  unfold touchLastAccess. destruct (as_items s !! id) as [meta|] eqn:Em; [|by split; [|apply ec_drop]].
  destruct (negb _); [by split; [|apply ec_drop]|]. by eapply touch_change.
Qed.

Lemma deleteIDs_change env ids s :
  as_limits (fst (deleteIDsLocked env ids s)) = as_limits s
  /\ entries_change s (fst (deleteIDsLocked env ids s)).
Proof.
  split; [|apply ec_drop, deleteIDs_sub]. destruct (deleteIDsLocked env ids s) as [s' r] eqn:E.
  destruct (deleteIDs_items _ _ _ _ _ E) as (Hc & _). by injection Hc.
Qed.

Lemma purge_change env old s :
  as_limits (fst (purge env old s)) = as_limits s /\ entries_change s (fst (purge env old s)).
Proof.
  unfold purge. set (ids := omap _ _). clearbody ids. destruct ids as [|i ids]; [by split; [|apply ec_drop]|].
  unfold bindM. pose proof (deleteIDs_change env (i :: ids) s) as H.
  by destruct (deleteIDsLocked env (i :: ids) s) as [s' [[]|e]].
Qed.

Lemma newMeta_class id name mime now data :
  TrimSpace (am_Class (newMeta id name mime now data)) <> "".
Proof.
  unfold newMeta, ClassifyAttachmentMime. cbn [am_Class]. by destruct (HasPrefix _ _).
Qed.

Lemma completeMeta_ok now meta data :
  data <> [] -> TrimSpace (am_Class (completeMeta now meta data)) <> ""
  /\ 0 <= am_Size (completeMeta now meta data).
Proof.
  intros Hd. unfold completeMeta. cbn [am_Class am_Size]. split.
  - case_bool_decide; [|done]. unfold ClassifyAttachmentMime. by destruct (HasPrefix _ _).
  - destruct (Z.leb_spec (am_Size meta) 0); lia.
Qed.

Lemma add_change envL meta s s1 r s' :
  enforceClassLimitsLocked envL (am_Class meta) (am_Size meta) s = (s1, r) ->
  s' = s1 \/ r = Ok tt /\ adds s1 s' (am_ID meta) meta ->
  TrimSpace (am_Class meta) <> "" -> 0 <= am_Size meta -> fits s (am_Size meta) ->
  as_limits s' = as_limits s /\ entries_change s s'.
Proof.
  intros He Hs' Hc Hz Hf. destruct (enforce_spec _ _ _ _ _ _ He) as (Hcfg & Hsub & _).
  destruct Hs' as [-> |[-> [Hcfg' Hi]]].
  - split; [by injection Hcfg|by apply ec_drop].
  - rewrite Hcfg in Hcfg'. split; [by injection Hcfg'|].
    destruct Hi as [Hi|Hi]; [apply ec_drop; by rewrite Hi|by eapply ec_add].
Qed.

Lemma attachment_call_change s s' :
  attachment_call s s' -> as_limits s' = as_limits s /\ entries_change s s'.
Proof.
  intros [envL env now buf name mime data ? Hf|envL env now meta data ? Hf|env now id ?|?|env now id pin ?
    |env clock now image file dry ?|?|env class cutoff ?|env ?|?|?].
  - unfold Put. destruct (List.length data =? 0)%nat; [by split; [|apply ec_drop]|].
    unfold bindM, liftM. destruct (newAttachmentID buf) as [id|e]; [|by split; [|apply ec_drop]].
    set (meta := newMeta id name mime now data).
    destruct (putLocked_shape envL env meta data s0) as (s1 & r & He & Hs1).
    eapply add_change; [done|done|apply newMeta_class|cbn; lia|done].
  - destruct (PutExisting_shape envL env now meta data s0) as [->|(Hd & s1 & r & He & Hs1)];
      [by split; [|apply ec_drop]|].
    destruct (completeMeta_ok now meta data Hd) as [Hc Hz]. by eapply add_change.
  - unfold Get. destruct (as_items s0 !! id); [|by split; [|apply ec_drop]].
    destruct (readBlob env s0 id); [|by split; [|apply ec_drop]]. apply touchLastAccess_change.
  - apply touchLastAccess_change.
  - unfold SetPinState. destruct (_ == ""); [by split; [|apply ec_drop]|].
    destruct (negb _); [by split; [|apply ec_drop]|].
    destruct (as_items s0 !! _) as [meta|] eqn:Em; [|by split; [|apply ec_drop]].
    destruct (_ == _); [by split; [|apply ec_drop]|]. by eapply touch_change.
  - unfold RunGC, runGCLocked. destruct (_ || dry); [by split; [|apply ec_drop]|]. unfold bindM.
    set (ids := (rangeMap _).*1). pose proof (deleteIDs_change env ids s0) as H.
    by destruct (deleteIDsLocked env ids s0) as [s2 [[]|e]].
  - apply purge_change.
  - unfold PurgeOlderThanByClass. destruct (_ == ""); [by split; [|apply ec_drop]|apply purge_change].
  - unfold Wipe. destruct (_ == ""); [|destruct (ae_removeAll env) as [[e f]|]];
      (split; [done|apply ec_drop, map_empty_subseteq]).
  - by split; [|apply ec_drop].
  - by split; [|apply ec_drop].
Qed.

(** *** The quotas hold *)

(** The two classes there are. *)
Definition isClass (class : string) : Prop := class = "image" \/ class = "file".

Definition within_quota (s : AttachmentStore) (class : string) : Prop :=
  0 < quotaOf s class -> usageOf (as_items s) class <= quotaOf s class.

Lemma ToLower_class class : isClass class -> ToLower (TrimSpace class) = class.
Proof.
  intros [-> | ->]; rewrite ToLower_TrimSpace, ToLower_ascii by ascii_const; reflexivity.
Qed.

Lemma quotaOf_normal s c1 c2 :
  ToLower (TrimSpace c1) = ToLower (TrimSpace c2) -> quotaOf s c1 = quotaOf s c2.
Proof. unfold quotaOf, classLimitsLocked. by intros ->. Qed.

Lemma metaClass_given meta :
  TrimSpace (am_Class meta) <> "" -> metaClass meta = ToLower (TrimSpace (am_Class meta)).
Proof. intros H. unfold metaClass. case_bool_decide as E; [|done]. by apply ToLower_empty in E. Qed.

Lemma total_update items id meta meta' counted :
  items !! id = Some meta -> am_Size meta' = am_Size meta -> counted id meta' = counted id meta ->
  total (map_to_list (<[id := meta']> items)) counted = total (map_to_list items) counted.
Proof.
  intros Hm Hz Hc. rewrite (total_delete items id meta) by done.
  rewrite <- (insert_delete_eq items id meta'), total_insert by apply lookup_delete_eq. by rewrite Hz, Hc.
Qed.

Lemma change_keeps_quota s s' class :
  isClass class -> as_limits s' = as_limits s -> entries_change s s' ->
  sized (as_items s) -> within_quota s class ->
  sized (as_items s') /\ within_quota s' class.
Proof.
  intros Hcl Hlim Hch Hs Hq.
  assert (Hquota : quotaOf s' class = quotaOf s class)
    by (unfold quotaOf, classLimitsLocked; by rewrite Hlim).
  unfold within_quota in *. rewrite Hquota. unfold usageOf in *.
  destruct Hch as [Hsub|id meta meta' Hm Hi Hz Hc|envL meta s1 He Hi Hc Hz Hf].
  - split; [by eapply sized_sub|]. intros H. specialize (Hq H).
    etrans; [by apply (total_sub (as_items s))|done].
  - rewrite Hi, (total_update _ _ meta) by (done || by rewrite Hc). split; [|done].
    apply sized_insert; [done|]. rewrite Hz. by apply (Hs id).
  - destruct (enforce_spec _ _ _ _ _ _ He) as (Hcfg & Hsub & Hroom). specialize (Hroom eq_refl).
    pose proof (sized_sub _ _ Hs Hsub) as Hs1. rewrite Hi. split; [by apply sized_insert|]. intros H.
    pose proof (total_insert_le (as_items s1) (am_ID meta) meta (fun _ m => metaClass m == class) Hs1 Hz)
      as Hle. cbv beta in Hle. rewrite (metaClass_given meta Hc) in Hle.
    pose proof (total_sub _ _ (fun _ m => metaClass m == class) Hs Hsub).
    destruct (decide (ToLower (TrimSpace (am_Class meta)) = class)) as [E|E].
    + rewrite bool_decide_true in Hle by done.
      assert (Hqe : quotaOf s (am_Class meta) = quotaOf s class)
        by (apply quotaOf_normal; by rewrite E, ToLower_class).
      rewrite Hqe in Hroom. specialize (Hroom H). unfold usageOf in Hroom. rewrite E, s64_add_l in Hroom.
      pose proof (total_bounds (as_items s1) (fun _ m => metaClass m == class) Hs1).
      pose proof (total_bounds (as_items s) (fun _ m => metaClass m == class) Hs).
      unfold fits in Hf. rewrite s64_small in Hroom by lia. lia.
    + rewrite bool_decide_false in Hle by done. specialize (Hq H). lia.
Qed.

(** C13: The quotas hold. From a store whose images and files are within their quotas, every sequence
    of calls (adding, reading, pinning, collecting, purging, wiping, and turning persistence on
    and off, whatever the file system does meanwhile) leaves the images within the quota of
    images and the files within that of files, as long as the limits are not changed and the
    sizes do not overflow. *)
Theorem attachment_quotas_hold (s s' : AttachmentStore) (class : string) :
  isClass class -> sized (as_items s) -> within_quota s class ->
  rtc attachment_call s s' ->
  as_limits s' = as_limits s /\ sized (as_items s') /\ within_quota s' class.
Proof.
  intros Hcl Hs Hq Hr. revert Hs Hq. induction Hr as [s|s s1 s' Hcall _ IH]; [done|]. intros Hs Hq.
  destruct (attachment_call_change _ _ Hcall) as [Hlim Hch].
  destruct (change_keeps_quota _ _ _ Hcl Hlim Hch Hs Hq) as [Hs1 Hq1].
  destruct (IH Hs1 Hq1) as [Hlim' H']. split; [congruence|done].
Qed.

(** *** Eviction *)

(** The order of eviction: the time of the last use, then the identifier. *)
Definition usedBefore (items : Items) (a b : string) : Prop :=
  exists ma mb, items !! a = Some ma /\ items !! b = Some mb
    /\ (lastUse ma < lastUse mb \/ lastUse ma = lastUse mb /\ String.ltb b a = false).

Definition candidate (items : Items) (class : string) (excluded : GCMarks) (id : string) : Prop :=
  exists meta, items !! id = Some meta /\ excluded !! id = None /\ isPinned meta = false
    /\ normalizedClass meta = class.

Lemma candidateLess_order : weak_order candidateLess.
Proof.
  split; unfold candidateLess, Before.
  - intros [a x] [b y]; cbn [fst snd]. destruct (Z.eqb_spec x y) as [->|Hxy].
    + rewrite Z.eqb_refl. apply string_ltb_asym.
    + rewrite (proj2 (Z.eqb_neq y x)) by lia. rewrite Z.ltb_lt, Z.ltb_ge. lia.
  - intros [a x] [b y] [c z]; cbn [fst snd].
    destruct (Z.eqb_spec x y) as [->|Hxy]; destruct (Z.eqb_spec y z) as [->|Hyz];
      rewrite ?Z.ltb_ge; intros H1 H2.
    + by eapply string_ltb_neg_trans.
    + lia.
    + rewrite (proj2 (Z.eqb_neq x z)) by lia. apply Z.ltb_ge. lia.
    + rewrite (proj2 (Z.eqb_neq x z)) by lia. apply Z.ltb_ge. lia.
Qed.

Lemma candidates_elem rt s class excluded id :
  isClass class ->
  id ∈ lruCandidatesLocked rt s class excluded <-> candidate (as_items s) class excluded id.
Proof.
  intros Hcl. unfold lruCandidatesLocked. rewrite (ToLower_class _ Hcl). cbv zeta.
  rewrite sortSlice_perm, list_elem_of_fmap. unfold candidate. split.
  - intros ([i t] & -> & Hin). apply list_elem_of_omap in Hin as ([j meta] & Hj & E).
    rewrite rangeMap_perm, elem_of_map_to_list in Hj. destruct (_ || _) eqn:Eb; [done|].
    injection E as -> <-. cbn. apply orb_false_iff in Eb as [Eb Ec]. apply orb_false_iff in Eb as [Ea Eb].
    apply negb_false_iff, bool_decide_eq_true in Ea, Ec. by exists meta.
  - intros (meta & Hm & He & Hp & Hc). exists (id, lastUse meta). split; [done|].
    apply list_elem_of_omap. exists (id, meta). rewrite rangeMap_perm, elem_of_map_to_list.
    split; [done|]. by rewrite Hp, !bool_decide_true.
Qed.

Lemma candidates_sorted rt s class excluded :
  isClass class ->
  StronglySorted (usedBefore (as_items s)) (lruCandidatesLocked rt s class excluded).
Proof.
  intros Hcl. unfold lruCandidatesLocked. rewrite (ToLower_class _ Hcl). cbv zeta.
  set (l := omap _ _). pose proof (sortSlice_sorted _ _ l candidateLess_order) as Hs.
  assert (Hin : Forall (fun c => exists m, as_items s !! fst c = Some m /\ snd c = lastUse m)
                  (sortSlice candidateLess l)).
  { rewrite sortSlice_perm. apply list.Forall_forall. intros [id t] Hin.
    apply list_elem_of_omap in Hin as ([j meta] & Hj & E).
    rewrite rangeMap_perm, elem_of_map_to_list in Hj. destruct (_ || _); [done|].
    injection E as -> <-. by exists meta. }
  induction Hs as [|a l' Hs IH Ha]; cbn; [constructor|]. inversion Hin as [|? ? (ma & Hma & Ea) Hin']; subst.
  constructor; [by apply IH|]. apply Forall_fmap. rewrite list.Forall_forall in Ha, Hin' |- *.
  intros b Hb. destruct (Hin' _ Hb) as (mb & Hmb & Eb). exists ma, mb. split_and!; [done..|].
  specialize (Ha _ Hb). unfold candidateLess, Before in Ha. rewrite Ea, Eb in Ha.
  destruct (Z.eqb_spec (lastUse mb) (lastUse ma)); [by right|]. left. apply Z.ltb_ge in Ha. lia.
Qed.

(** What the loop takes are the first candidates. *)
Lemma takeUntil_prefix items l usage target :
  Forall (fun id => is_Some (items !! id)) l -> takeUntil items l usage target `prefix_of` l.
Proof.
  intros Hl. revert usage. induction Hl as [|id l [meta Hm] _ IH]; intros usage; [done|].
  cbn [takeUntil]. rewrite Hm. apply prefix_cons. destruct (_ <=? target); [apply prefix_nil|apply IH].
Qed.

(** Victims are candidates, and every candidate that stays was used after them. *)
Definition lru_choice (items : Items) (class : string) (excluded : GCMarks) (victims : list string)
    : Prop :=
  Forall (candidate items class excluded) victims
  /\ forall a b, a ∈ victims -> candidate items class excluded b -> b ∉ victims ->
     usedBefore items a b.

Lemma takeUntil_choice rt s class excluded usage target :
  isClass class ->
  lru_choice (as_items s) class excluded
    (takeUntil (as_items s) (lruCandidatesLocked rt s class excluded) usage target).
Proof.
  intros Hcl. set (l := lruCandidatesLocked rt s class excluded).
  assert (Hl : forall id, id ∈ l <-> candidate (as_items s) class excluded id)
    by (intros; by apply candidates_elem).
  assert (Hsome : Forall (fun id => is_Some (as_items s !! id)) l).
  { apply list.Forall_forall. intros id (meta & Hm & _)%Hl. by exists meta. }
  destruct (takeUntil_prefix _ _ usage target Hsome) as [rest E]. split.
  - apply list.Forall_forall. intros id Hid. apply Hl. rewrite E. set_solver.
  - intros a b Ha Hb Hnb. apply Hl in Hb. rewrite E in Hb. apply elem_of_app in Hb as [|Hb]; [done|].
    pose proof (candidates_sorted rt s class excluded Hcl) as Hs. fold l in Hs. rewrite E in Hs.
    by eapply sorted_app_elem.
Qed.

Lemma foldr_delete_lookup (items : Items) ids id :
  foldr delete items ids !! id = if bool_decide (id ∈ ids) then None else items !! id.
Proof.
  induction ids as [|i ids IH]; cbn; [by rewrite bool_decide_false by set_solver|].
  destruct (decide (i = id)) as [->|Hne].
  - by rewrite lookup_delete_eq, bool_decide_true by set_solver.
  - rewrite lookup_delete_ne, IH by done. do 2 case_bool_decide; set_solver.
Qed.

Lemma lru_choice_none items class excluded : lru_choice items class excluded [].
Proof. split; [constructor|]. intros a b Ha. by apply elem_of_nil in Ha. Qed.

(** What the limits of a class take away. *)
Lemma enforce_choice env class size s s' r :
  isClass class -> enforceClassLimitsLocked env class size s = (s', r) ->
  exists victims, lru_choice (as_items s) class ∅ victims
    /\ as_items s' = foldr delete (as_items s) victims.
Proof.
  intros Hcl. unfold enforceClassLimitsLocked. destruct (classLimitsLocked s class) as [maxItem quota].
  assert (Hnone : exists victims, lru_choice (as_items s) class ∅ victims
    /\ as_items s = foldr delete (as_items s) victims) by (exists []; split; [apply lru_choice_none|done]).
  destruct (_ && _); [by intros [= <- <-]|]. set (full := if _ <=? 0 then _ else _).
  destruct (_ && _); [by intros [= <- <-]|]. destruct (_ && _); [|by intros [= <- <-]].
  set (target := if _ <? 0 then _ else _).
  cbv zeta. set (ids := if _ <? _ then takeUntil _ _ _ _ else []). unfold bindM.
  assert (Hids : lru_choice (as_items s) class ∅ ids)
    by (unfold ids; case_match; [by apply takeUntil_choice|apply lru_choice_none]).
  clearbody ids. destruct (deleteIDsLocked env ids s) as [s1 [[]|e]] eqn:Ed; intros [= <- <-];
    destruct (deleteIDs_items _ _ _ _ _ Ed) as (_ & _ & [-> | ->]); (done || (exists ids; done)).
Qed.

Definition removed (s s' : AttachmentStore) (id : string) : Prop :=
  is_Some (as_items s !! id) /\ as_items s' !! id = None.

(** Adding an attachment, under an identifier that is not in use, evicts by last use and spares
    pins. Whatever [Put] ends with, an
    attachment that has disappeared belongs to the class of the new one and is not pinned, and
    every unpinned attachment of that class that is still there was used after it (or at the same
    time, with an identifier that is not smaller). *)
Theorem eviction_is_least_recently_used (envL env : AttachmentEnv) (now : Z)
    (buf : result error (list Z)) (name mimeType : string) (data : list Z) (s s' : AttachmentStore)
    (r : result error AttachmentMeta) (a : string) :
  (forall id, newAttachmentID buf = Ok id -> as_items s !! id = None) ->
  Put envL env now buf name mimeType data s = (s', r) -> removed s s' a ->
  exists class, class = am_Class (newMeta a name mimeType now data)
    /\ candidate (as_items s) class ∅ a
    /\ forall b, candidate (as_items s) class ∅ b -> is_Some (as_items s' !! b) ->
       usedBefore (as_items s) a b.
Proof.
  intros Hfresh. unfold Put.
  destruct (List.length data =? 0)%nat; [intros [= <- <-] [[? H1] H2]; congruence|].
  unfold bindM, liftM. destruct (newAttachmentID buf) as [id|e];
    [|intros [= <- <-] [[? H1] H2]; congruence]. specialize (Hfresh _ eq_refl). intros E [Hs Hn].
  destruct (putLocked_shape envL env (newMeta id name mimeType now data) data s)
    as (s1 & r1 & He & Hs'). rewrite E in Hs'. cbn [fst] in Hs'.
  set (class := am_Class (newMeta a name mimeType now data)). exists class. split; [done|].
  assert (Hcl : isClass class).
  { unfold class, newMeta, ClassifyAttachmentMime, isClass. cbn. destruct (HasPrefix _ _); auto. }
  destruct (enforce_choice _ _ _ _ _ _ Hcl He) as (victims & [Hv Hord] & Hi).
  assert (Hsub : forall b, is_Some (as_items s1 !! b) -> is_Some (as_items s' !! b)).
  { intros b Hb. destruct Hs' as [->|[_ [_ [->| ->]]]]; [done|done|]. by apply lookup_insert_is_Some'; right. }
  assert (Ha : a ∈ victims).
  { destruct (decide (a ∈ victims)) as [|Hna]; [done|]. exfalso. apply (is_Some_None (A := AttachmentMeta)).
    rewrite <- Hn. apply Hsub. by rewrite Hi, foldr_delete_lookup, bool_decide_false. }
  rewrite list.Forall_forall in Hv. split; [by apply Hv|]. intros b Hb Hbs. apply Hord; [done|done|].
  intros Hbv. destruct Hs' as [-> |[_ [_ [Hi'|Hi']]]].
  - rewrite Hi, foldr_delete_lookup, bool_decide_true in Hbs by done. by destruct Hbs.
  - rewrite Hi', Hi, foldr_delete_lookup, bool_decide_true in Hbs by done. by destruct Hbs.
  - destruct Hb as (meta & Hm & _). assert (b <> id) by congruence.
    cbn [am_ID newMeta] in Hi'. rewrite Hi', lookup_insert_ne, Hi, foldr_delete_lookup,
      bool_decide_true in Hbs by done. by destruct Hbs.
Qed.
End Quotas.

(** ** Examples *)

#[export] Instance AttachmentMeta_countable : Countable AttachmentMeta.
Proof.
  apply (inj_countable'
    (fun m => (am_ID m, am_Name m, am_MimeType m, am_Class m, am_LastAccessAt m, am_PinState m,
               am_Size m, am_CreatedAt m))
    (fun '(i, n, t, c, a, p, z, d) => mkMeta i n t c a p z d)).
  by intros [].
Defined.

#[export] Instance attachmentIndex_eq_dec : EqDecision attachmentIndex.
Proof. solve_decision. Defined.
#[export] Instance attachmentIndex_countable : Countable attachmentIndex.
Proof.
  apply (inj_countable' (fun i => (ix_SchemaVersion i, ix_Items i)) (fun '(v, i) => mkIndex v i)).
  by intros [].
Defined.

#[export] Instance exIndexCodec : JsonCodec attachmentIndex := {
  marshalJSON ix := Ok [Zpos (encode ix)];
  unmarshalJSON bs := match bs with
                      | [Zpos p] => match decode p with Some ix => Ok ix | None => Err (errorsNew "json") end
                      | _ => Err (errorsNew "json")
                      end
}.

Definition ex_att_env : AttachmentEnv :=
  mkAttEnv exRuntime (fun _ => ex_random) None (fun _ => None) (fun _ => None) (fun _ => None) None.

(** An image as a peer describes it, of [size] bytes and last used at [t]. *)
Definition ex_image (id : string) (t size : Z) : AttachmentMeta :=
  mkMeta id "" "image/png" "image" t "unpinned" size t.

Definition ex_store0 : AttachmentStore :=
  SetClassPolicies 1 0 1 0
    (mkAttachmentStore "/data/att" "" ∅ ∅ true (mkLimits 0 0 0 0) (mkHardCap 90 100 75) (mkHits 0 0) ∅).

Definition ex_put (id : string) (t size : Z) (s : AttachmentStore) : AttachmentStore :=
  fst (PutExisting ex_att_env ex_att_env t (ex_image id t size) [1; 2; 3] s).

(** Two images of 500000 bytes, of which "a" was used last. *)
Definition ex_store2 : AttachmentStore :=
  fst (Get ex_att_env 30 "a" (ex_put "b" 20 500000 (ex_put "a" 10 500000 ex_store0))).

Definition ex_data : list Z := replicate (Z.to_nat 60000) 7.
Definition ex_put3 : AttachmentStore * result error AttachmentMeta :=
  Put ex_att_env ex_att_env 40 (Ok [17; 34]) "n" "image/png" ex_data ex_store2.
Definition ex_store3 : AttachmentStore := fst ex_put3.

Example ex_store3_keeps_a :
  (elements (dom (as_items ex_store2)), elements (dom (as_items ex_store3)))
  = (["a"; "b"], ["att1_1122"; "a"]).
Proof. vm_compute. reflexivity. Qed.

Lemma attachment_quotas_hold_witness : within_quota ex_store2 "image".
Proof.
  apply (attachment_quotas_hold ex_store0 ex_store2 "image").
  - left. reflexivity.
  - apply map_Forall_empty.
  - intros _. vm_compute. discriminate.
  - eapply rtc_l; [apply (ac_put_existing ex_att_env ex_att_env 10 (ex_image "a" 10 500000) [1; 2; 3] ex_store0)|].
    { vm_compute. reflexivity. }
    eapply rtc_l; [apply (ac_put_existing ex_att_env ex_att_env 20 (ex_image "b" 20 500000) [1; 2; 3])|].
    { vm_compute. reflexivity. }
    apply rtc_once. apply ac_get.
Defined.

Lemma ex_candidate_a : candidate (as_items ex_store2) "image" ∅ "a".
Proof.
  exists (mkMeta "a" "" "image/png" "image" 30 "unpinned" 500000 10). split_and!; vm_compute; reflexivity.
Qed.

Lemma holds_check {A} (o : option A) : match o with Some _ => true | None => false end = true -> is_Some o.
Proof. destruct o; [by eexists|done]. Qed.
Lemma holds_not_check {A} (o : option A) : match o with Some _ => true | None => false end = false -> o = None.
Proof. by destruct o. Qed.

Lemma ex_store3_has_a : is_Some (as_items ex_store3 !! "a").
Proof. apply holds_check. vm_compute. reflexivity. Qed.

Lemma ex_class3 : am_Class (newMeta "b" "n" "image/png" 40 ex_data) = "image".
Proof. vm_compute. reflexivity. Qed.

Lemma ex_removed_b : removed ex_store2 ex_store3 "b".
Proof. split; [apply holds_check|apply holds_not_check]; vm_compute; reflexivity. Qed.

Lemma eviction_is_least_recently_used_witness :
  exists class, class = "image" /\ candidate (as_items ex_store2) class ∅ "b"
    /\ usedBefore (as_items ex_store2) "b" "a".
Proof.
  destruct (eviction_is_least_recently_used ex_att_env ex_att_env 40 (Ok [17; 34]) "n" "image/png"
    ex_data ex_store2 ex_store3 (snd ex_put3) "b")
    as (class & Hclass & Hb & Hord).
  - intros id [= <-]. vm_compute. reflexivity.
  - unfold ex_store3, ex_put3. destruct (Put _ _ _ _ _ _ _ _). reflexivity.
  - exact ex_removed_b.
  - rewrite ex_class3 in Hclass. subst class. exists "image". split; [reflexivity|]. split; [exact Hb|].
    apply Hord; [exact ex_candidate_a|exact ex_store3_has_a].
Defined.

(** A file that cannot fit takes everything unpinned with it before it is refused: the quota of
    images is 1 MiB, the new one is larger, and there is no limit for one item. *)
Example refused_put_evicts_all :
  let '(s, r) := PutExisting ex_att_env ex_att_env 50 (ex_image "big" 50 2000000) [1] ex_store2 in
  (as_items s, r) = (∅, Err (errorsNew "attachment class quota exceeded")).
Proof. vm_compute. reflexivity. Qed.

(** An identifier with slashes is a path outside of the directory. *)
Example existing_id_leaves_directory :
  as_files (ex_put "../../etc/x" 10 5 ex_store0) !! Clean "/etc/x.bin" = Some [1; 2; 3].
Proof. vm_compute. reflexivity. Qed.

(** A class other than the two has a quota of its own, which [UsageByClass] does not show. *)
Example other_class_is_not_counted :
  let s := fst (PutExisting ex_att_env ex_att_env 10
                  (mkMeta "x" "" "a/b" "video" 10 "" 1000000 10) [1] ex_store2) in
  (UsageByClass exRuntime s !! "file", usageByClassLocked exRuntime s "video") = (Some 0, 1000000).
Proof. vm_compute. reflexivity. Qed.

(** A time to live of three hundred years overflows, and everything has expired. *)
Example huge_ttl_expires_all :
  expired 63900000000000000000 9467280000 0 (ex_image "a" 63899999999000000000 1) = true.
Proof. vm_compute. reflexivity. Qed.
