(* ===== verification/AttachmentGC.v ===== *)
(** * What a collection of attachments takes

    The marks of [RunGC] (what has expired, then what was used least recently in a class above its
    quota), the entries it removes and its report, for the store of AttachmentStore. *)
From stdpp Require Import base gmap strings list sets option.
From Stdlib Require Import ZArith Lia Ascii String Sorted.
From S2P Require Import Prelude SecureStore AttachmentStore.
Open Scope string_scope.
Open Scope Z_scope.
Open Scope go_scope.

Section Collection.
Context {cipher : Cipher} {ecodec : EnvelopeCodec} {lower : GoLower} {fold : GoFold}
        {codec : JsonCodec attachmentIndex}.

(** ** The marks *)

Lemma tryMark_lookup id cause marks j :
  tryMarkDelete id cause marks !! j
  = match marks !! j with Some c => Some c | None => if decide (j = id) then Some cause else None end.
Proof.
  unfold tryMarkDelete. destruct (decide (j = id)) as [->|Hne].
  - destruct (marks !! id) eqn:E; [by rewrite E|by rewrite lookup_insert_eq].
  - destruct (marks !! id); [by destruct (marks !! j)|]. rewrite lookup_insert_ne by done.
    by destruct (marks !! j).
Qed.

(** Marking in a loop: a mark stays, and a test decides which identifiers get one. *)
Lemma fold_marks {A} (step : GCMarks -> A -> GCMarks) (hit : A -> string -> bool) cause l marks j :
  (forall m a, step m a !! j
     = match m !! j with Some c => Some c | None => if hit a j then Some cause else None end) ->
  fold_left step l marks !! j
  = match marks !! j with
    | Some c => Some c
    | None => if existsb (fun a => hit a j) l then Some cause else None
    end.
Proof.
  intros Hstep. revert marks. induction l as [|a l IH]; intros marks; cbn; [by destruct (marks !! j)|].
  rewrite IH, Hstep. destruct (marks !! j); [done|]. by destruct (hit a j).
Qed.

Lemma markExpired_lookup rt now image file (items : Items) id :
  markExpired rt now image file items !! id
  = match items !! id with
    | Some meta => if expired now image file meta then Some "expired" else None
    | None => None
    end.
Proof.
  unfold markExpired. rewrite (fold_marks _
    (fun e j => bool_decide (fst e = j) && expired now image file (snd e)) "expired").
  - rewrite lookup_empty. destruct (existsb _ _) eqn:E.
    + apply existsb_exists in E as ([k m] & Hin & [Hk Hm]%andb_true_iff). cbn in Hk, Hm.
      apply bool_decide_eq_true in Hk as ->. apply list_elem_of_In in Hin.
      rewrite rangeMap_perm, elem_of_map_to_list in Hin. by rewrite Hin, Hm.
    + destruct (items !! id) as [meta|] eqn:Em; [|done]. destruct (expired _ _ _ meta) eqn:Ex; [|done].
      enough (existsb (fun e => bool_decide (fst e = id) && expired now image file (snd e)) (rangeMap items)
              = true) by congruence.
      apply existsb_exists. exists (id, meta). split; [|by rewrite bool_decide_true].
      apply list_elem_of_In. by rewrite rangeMap_perm, elem_of_map_to_list.
  - intros m [k meta]. cbn [fst snd]. destruct (expired now image file meta).
    + rewrite tryMark_lookup, andb_true_r. destruct (m !! id); [done|].
      destruct (decide (id = k)) as [->|Hne]; [by rewrite bool_decide_true|].
      by rewrite bool_decide_false.
    + rewrite andb_false_r. by destruct (m !! id).
Qed.

Lemma markLRU_lookup rt s class marks id :
  markLRU rt s class marks !! id
  = match marks !! id with
    | Some c => Some c
    | None => if bool_decide (id ∈ lruVictims rt s class marks) then Some "lru" else None
    end.
Proof.
  unfold markLRU. generalize (lruVictims rt s class marks) as l. intros l.
  rewrite (fold_marks _ (fun k j => bool_decide (j = k)) "lru").
  - destruct (marks !! id); [done|]. destruct (existsb _ l) eqn:E.
    + apply existsb_exists in E as (k & Hin & ->%bool_decide_eq_true). apply list_elem_of_In in Hin.
      by rewrite bool_decide_true.
    + rewrite bool_decide_false; [done|]. intros Hin%list_elem_of_In.
      enough (existsb (fun a => bool_decide (id = a)) l = true) by congruence.
      apply existsb_exists. exists id. by rewrite bool_decide_true.
  - intros m k. rewrite tryMark_lookup. destruct (m !! id); [done|].
    destruct (decide (id = k)) as [->|Hne]; [by rewrite bool_decide_true|].
    by rewrite bool_decide_false.
Qed.

(** The victims of a class are chosen by last use, and only above a quota. *)
Lemma lruVictims_choice rt s class marks :
  isClass class -> lru_choice (as_items s) class marks (lruVictims rt s class marks)
  /\ (lruVictims rt s class marks <> [] -> 0 < quotaOf s class).
Proof.
  intros Hcl. unfold lruVictims, quotaOf. set (quota := snd _).
  destruct (Z.leb_spec quota 0); [split; [apply lru_choice_none|done]|].
  destruct (_ <=? _); [split; [apply lru_choice_none|done]|].
  split; [by apply takeUntil_choice|done].
Qed.

(** ** How far the eviction of a class goes *)

Definition normalUsage (items : Items) (class : string) : Z :=
  total (map_to_list items) (fun _ meta => normalizedClass meta == class).

(** The entries without a mark. *)
Definition unmarked (items : Items) (marks : GCMarks) : Items :=
  filter (fun e => marks !! e.1 = None) items.

Lemma unmarked_lookup items marks id :
  unmarked items marks !! id = if bool_decide (marks !! id = None) then items !! id else None.
Proof.
  unfold unmarked. rewrite map_lookup_filter. destruct (items !! id) as [meta|]; cbn.
  - by case_guard; [rewrite bool_decide_true|rewrite bool_decide_false].
  - by case_bool_decide.
Qed.

Lemma unmarked_sub items marks : unmarked items marks ⊆ items.
Proof. apply map_filter_subseteq. Qed.

Lemma usageExcluding_eq rt s class marks :
  isClass class -> sized (as_items s) -> allSizes (as_items s) < 2 ^ 63 ->
  usageByClassExcludingLocked rt s class marks = normalUsage (unmarked (as_items s) marks) class.
Proof.
  intros Hcl Hs Hb. unfold usageByClassExcludingLocked, normalUsage. rewrite (ToLower_class _ Hcl). cbv zeta.
  rewrite sumSizes_total, (total_perm _ _ _ (rangeMap_perm _ (as_items s))).
  set (counted := fun id m => _ && _).
  assert (E : total (map_to_list (as_items s)) counted
              = total (map_to_list (unmarked (as_items s) marks)) (fun _ m => normalizedClass m == class)).
  { clear Hs Hb. induction (as_items s) as [|id m items Hid IH] using map_ind; [done|].
    rewrite total_insert, IH by done. unfold counted at 1, unmarked. rewrite map_filter_insert.
    cbn [fst]. case_decide as Hd.
    - rewrite total_insert by (rewrite map_lookup_filter, Hid; done). by rewrite bool_decide_true.
    - rewrite bool_decide_false by done. by rewrite delete_id by done. }
  rewrite E. apply s64_small. pose proof (unmarked_sub (as_items s) marks) as Hsub.
  pose proof (total_bounds _ (fun _ m => normalizedClass m == class) (sized_sub _ _ Hs Hsub)) as [H1 _].
  pose proof (total_sub _ _ (fun _ m => normalizedClass m == class) Hs Hsub) as H2.
  pose proof (total_bounds _ (fun _ m => normalizedClass m == class) Hs) as [_ H3]. lia.
Qed.

Lemma foldr_delete_delete (items : Items) ids id :
  foldr delete (delete id items) ids = delete id (foldr delete items ids).
Proof. induction ids as [|i ids IH]; cbn; [done|]. by rewrite IH, delete_delete. Qed.

(** The loop stops below the target, or after the last candidate. *)
Lemma takeUntil_reaches items rest l target counted usage :
  rest ⊆ items -> sized rest -> total (map_to_list rest) counted = usage -> usage < 2 ^ 63 ->
  NoDup l -> Forall (fun id => exists meta, rest !! id = Some meta /\ counted id meta = true) l ->
  l <> [] ->
  let taken := takeUntil items l usage target in
  total (map_to_list (foldr delete rest taken)) counted <= target \/ taken = l.
Proof.
  intros Hsub Hs Hu Hb Hnd Hl _. cbv zeta.
  revert rest usage Hsub Hs Hu Hb Hl. induction Hnd as [|id l Hid Hnd IH]; intros rest usage Hsub Hs Hu Hb Hl;
    [by right|].
  inversion Hl as [|? ? (meta & Hm & Hc) Hl']; subst. cbn [takeUntil].
  rewrite (lookup_weaken _ _ _ _ Hm Hsub).
  pose proof (total_delete rest id meta counted Hm) as Hd. rewrite Hc in Hd.
  assert (Hs' : sized (delete id rest)) by (eapply sized_sub, delete_subseteq; done).
  pose proof (total_bounds _ counted Hs'). pose proof (Hs id meta Hm) as Hm0. cbn in Hm0.
  rewrite s64_small by lia.
  replace (_ - am_Size meta) with (total (map_to_list (delete id rest)) counted) by lia.
  destruct (Z.leb_spec (total (map_to_list (delete id rest)) counted) target); [left; cbn; lia|].
  cbn [foldr]. rewrite <- foldr_delete_delete.
  destruct (IH (delete id rest) (total (map_to_list (delete id rest)) counted)) as [?| ->]; try done.
  - etrans; [apply delete_subseteq|done].
  - lia.
  - rewrite list.Forall_forall in Hl' |- *. intros i Hi. destruct (Hl' i Hi) as (m & Hm' & Hc').
    exists m. rewrite lookup_delete_ne by set_solver. done.
  - by left.
  - by right.
Qed.

Lemma candidates_NoDup rt s class marks : NoDup (lruCandidatesLocked rt s class marks).
Proof.
  unfold lruCandidatesLocked. rewrite sortSlice_perm.
  assert (Hnd : NoDup (rangeMap (as_items s)).*1) by (rewrite rangeMap_perm; apply NoDup_fst_map_to_list).
  induction (rangeMap (as_items s)) as [|[id meta] l IH]; cbn; [constructor|].
  inversion Hnd as [|? ? Hid Hnd']; subst. destruct (_ || _); [by apply IH|].
  cbn. constructor; [|by apply IH]. intros ([j t] & -> & Hin)%list_elem_of_fmap.
  apply list_elem_of_omap in Hin as ([k m] & Hk & E). destruct (_ || _); [done|]. injection E as -> _.
  apply Hid. apply list_elem_of_fmap. by exists (j, m).
Qed.

(** ** What a collection does *)

Lemma deleteIDs_ok env ids s s' :
  deleteIDsLocked env ids s = (s', Ok tt) -> as_items s' = foldr delete (as_items s) ids.
Proof.
  unfold deleteIDsLocked. destruct ids as [|id ids]; [by intros [= <-]|]. unfold bindM.
  destruct (removeFiles _ _ _) as [s1 [[]|e]]; [|done].
  by destruct (persistItemsLocked _ _ _) as [s2 [[]|e]]; intros [= <-].
Qed.

Lemma gcMarks_in rt s now image file id :
  is_Some (gcMarks rt s now image file !! id) -> is_Some (as_items s !! id).
Proof.
  assert (Hlru : forall class marks, isClass class ->
    (is_Some (marks !! id) -> is_Some (as_items s !! id)) ->
    is_Some (markLRU rt s class marks !! id) -> is_Some (as_items s !! id)).
  { intros class marks Hcl IH. rewrite markLRU_lookup. destruct (marks !! id); [intros _; by apply IH|].
    case_bool_decide as Hin; [intros _|by intros []].
    destruct (lruVictims_choice rt s class marks Hcl) as [[Hv _] _]. rewrite list.Forall_forall in Hv.
    destruct (Hv _ Hin) as (meta & Hm & _). by exists meta. }
  unfold gcMarks. apply Hlru; [by right|]. apply Hlru; [by left|]. rewrite markExpired_lookup.
  destruct (as_items s !! id); [by eexists|]. by intros [].
Qed.

Lemma report_count items l r :
  Forall (fun mark => is_Some (items !! mark.1)) l ->
  gc_DeletedCount (fold_left (addToReport items) l r) = gc_DeletedCount r + Z.of_nat (List.length l).
Proof.
  revert r. induction l as [|[id cause] l IH]; intros r Hl; [cbn; lia|].
  inversion Hl as [|? ? [meta Hm] Hl']; subst. cbn [fold_left]. rewrite IH by done. unfold addToReport.
  cbn in Hm. rewrite Hm. cbn [gc_DeletedCount List.length]. lia.
Qed.

Lemma gcReport_count rt items marks dry :
  (forall id, is_Some (marks !! id) -> is_Some (items !! id)) ->
  gc_DeletedCount (gcReport rt items marks dry) = Z.of_nat (size marks).
Proof.
  intros H. unfold gcReport. rewrite report_count.
  - cbn [gc_DeletedCount]. by rewrite (Permutation_length (rangeMap_perm _ marks)), length_map_to_list.
  - apply list.Forall_forall. intros [id c]. rewrite rangeMap_perm, elem_of_map_to_list. cbn.
    intros Hid. apply H. by exists c.
Qed.

Lemma unmarked_keys rt items (marks : GCMarks) :
  foldr delete items (@rangeMap rt _ marks).*1 = unmarked items marks.
Proof.
  apply map_eq. intros id. rewrite foldr_delete_lookup, unmarked_lookup.
  assert (Hk : id ∈ (@rangeMap rt _ marks).*1 <-> is_Some (marks !! id)).
  { rewrite list_elem_of_fmap. split.
    - intros ([k c] & -> & Hin). rewrite rangeMap_perm, elem_of_map_to_list in Hin. by exists c.
    - intros [c Hc]. exists (id, c). by rewrite rangeMap_perm, elem_of_map_to_list. }
  pose proof (eq_None_not_Some (marks !! id)). do 2 case_bool_decide; tauto.
Qed.

Lemma unmarked_size items (marks : GCMarks) :
  (forall id, is_Some (marks !! id) -> is_Some (items !! id)) ->
  (size (unmarked items marks) + size marks = size items)%nat.
Proof.
  intros H. rewrite <- !size_dom.
  assert (E : dom items = dom (unmarked items marks) ∪ dom marks).
  { apply set_eq. intros id. rewrite elem_of_union, !elem_of_dom, unmarked_lookup.
    case_bool_decide as Hm.
    - rewrite Hm. split; [by left|]. intros [?|[? ?]]; [done|done].
    - split; [intros _; right; by apply not_eq_None_Some|]. intros [[? ?]|?]; [done|by apply H]. }
  rewrite E, size_union; [done|]. intros id. rewrite !elem_of_dom, unmarked_lookup.
  case_bool_decide as Hm; [by rewrite Hm; intros _ []|by intros []].
Qed.

(** A dry run reports the same numbers. *)
Lemma dryReport rt items marks :
  let report := gcReport rt items marks false in
  gcReport rt items marks true
  = mkReport true (gc_DeletedCount report) (gc_DeletedByClass report) (gc_DeletedByCause report).
Proof.
  unfold gcReport. cbv zeta. set (r := mkReport false _ _ _).
  change (mkReport true _ _ _) with
    (mkReport true (gc_DeletedCount r) (gc_DeletedByClass r) (gc_DeletedByCause r)) at 1.
  generalize r. induction (rangeMap marks) as [|[id c] l IH]; intros r'; [done|]. cbn [fold_left].
  rewrite <- IH. f_equal. unfold addToReport. by destruct (items !! id).
Qed.

(** The entries after a collection are those without a mark, and the report counts the others. *)
Lemma runGC_result env now image file s s' report :
  runGCLocked env now image file false s = (s', Ok report) ->
  as_items s' = unmarked (as_items s) (gcMarks (ae_rt env) s now image file)
  /\ report = gcReport (ae_rt env) (as_items s) (gcMarks (ae_rt env) s now image file) false
  /\ gc_DeletedCount report + Z.of_nat (size (as_items s')) = Z.of_nat (size (as_items s)).
Proof.
  unfold runGCLocked. set (marks := gcMarks _ _ _ _ _).
  assert (Hin : forall id, is_Some (marks !! id) -> is_Some (as_items s !! id)) by apply gcMarks_in.
  pose proof (gcReport_count (ae_rt env) (as_items s) marks false Hin) as Hc.
  pose proof (unmarked_size (as_items s) marks Hin) as Hz. set (rep := gcReport _ _ _ _) in *.
  rewrite orb_false_r. destruct (Z.eqb_spec (gc_DeletedCount rep) 0) as [H0|H0].
  - intros [= <- <-]. assert (E : marks = ∅) by (apply map_size_empty_inv; lia).
    assert (Eu : unmarked (as_items s) marks = as_items s)
      by (apply map_eq; intros id; by rewrite unmarked_lookup, E, lookup_empty, bool_decide_true).
    rewrite Eu. split_and!; [done|done|lia].
  - unfold bindM. destruct (deleteIDsLocked _ _ s) as [s1 [[]|e]] eqn:Ed; [|done].
    intros [= <- <-]. apply deleteIDs_ok in Ed. rewrite unmarked_keys in Ed. rewrite Ed.
    split_and!; [done|done|lia].
Qed.

(** ** How far the second phase goes *)

Lemma normalUsage_part items class :
  normalUsage items class
  = total (map_to_list (filter (fun e => normalizedClass e.2 = class) items)) (fun _ _ => true).
Proof.
  unfold normalUsage. induction items as [|id m items Hid IH] using map_ind; [done|].
  rewrite total_insert, IH by done. rewrite map_filter_insert. cbn [snd].
  case_decide as Hd.
  - rewrite total_insert by (rewrite map_lookup_filter, Hid; done). by rewrite bool_decide_true.
  - rewrite bool_decide_false by done. by rewrite delete_id by done.
Qed.

(** Marks on other classes do not matter to the usage of a class. *)
Lemma normalUsage_marks items (marks marks' : GCMarks) class :
  (forall id meta, items !! id = Some meta -> normalizedClass meta = class ->
     (marks !! id = None <-> marks' !! id = None)) ->
  normalUsage (unmarked items marks) class = normalUsage (unmarked items marks') class.
Proof.
  intros H. rewrite !normalUsage_part. do 2 f_equal. apply map_eq. intros id.
  rewrite !map_lookup_filter, !unmarked_lookup. destruct (items !! id) as [meta|] eqn:Em;
    [|by do 2 case_bool_decide].
  specialize (H id meta Em). do 2 case_bool_decide; cbn; try done; case_guard; naive_solver.
Qed.

Lemma markLRU_unmarked rt s class marks :
  unmarked (as_items s) (markLRU rt s class marks)
  = foldr delete (unmarked (as_items s) marks) (lruVictims rt s class marks).
Proof.
  apply map_eq. intros id. rewrite foldr_delete_lookup, !unmarked_lookup, markLRU_lookup.
  destruct (marks !! id); repeat case_bool_decide; congruence.
Qed.

Lemma candidate_unmarked items class (marks : GCMarks) id :
  candidate (unmarked items marks) class ∅ id <-> candidate items class marks id.
Proof.
  unfold candidate. split; intros (meta & Hm & He & H); exists meta; rewrite unmarked_lookup in *.
  - case_bool_decide; [|done]. by rewrite lookup_empty in He.
  - by rewrite bool_decide_true, lookup_empty.
Qed.

(** A class with a quota comes down to its target, unless nothing unpinned is left of it. *)
Lemma lru_room rt s class marks :
  isClass class -> sized (as_items s) -> allSizes (as_items s) < 2 ^ 63 -> 0 < quotaOf s class ->
  let left := normalUsage (unmarked (as_items s) marks) class in
  let items' := unmarked (as_items s) (markLRU rt s class marks) in
  normalUsage items' class <= gcTarget s (quotaOf s class) left
  \/ forall id, ~ candidate items' class ∅ id.
Proof.
  intros Hcl Hs Hb Hq. cbv zeta. rewrite markLRU_unmarked. unfold lruVictims.
  fold (quotaOf s class). rewrite (proj2 (Z.leb_gt _ 0)) by done. rewrite usageExcluding_eq by done.
  set (left := normalUsage (unmarked (as_items s) marks) class). set (target := gcTarget _ _ left).
  destruct (Z.leb_spec left target); [by left|]. set (l := lruCandidatesLocked rt s class marks).
  set (rest := unmarked (as_items s) marks) in *. pose proof (unmarked_sub (as_items s) marks) as Hsub.
  fold rest in Hsub. pose proof (sized_sub _ _ Hs Hsub) as Hs'.
  assert (Hl : forall id, id ∈ l <-> candidate rest class ∅ id)
    by (intros id; unfold rest; rewrite candidate_unmarked; by apply candidates_elem).
  destruct (decide (l = [])) as [->|Hne]; [right; intros id Hid; by apply Hl, elem_of_nil in Hid|].
  destruct (takeUntil_reaches (as_items s) rest l target (fun _ m => normalizedClass m == class) left)
    as [Hle|E]; [done..| | | |done|by left|].
  - pose proof (total_bounds _ (fun _ m => normalizedClass m == class) Hs').
    pose proof (total_sub _ _ (fun _ _ => true) Hs Hsub). unfold left, normalUsage, allSizes in *. lia.
  - apply candidates_NoDup.
  - apply list.Forall_forall. intros id (meta & Hm & _ & _ & Hc)%Hl. exists meta.
    by rewrite Hc, bool_decide_true.
  - right. rewrite E. intros id (meta & Hm & He & Hp & Hc). rewrite foldr_delete_lookup in Hm.
    case_bool_decide as Hin; [done|]. apply Hin, Hl. by exists meta.
Qed.

(** What a collection at time [now] does to the entries of a store. *)
Record collects (s s' : AttachmentStore) (now image file : Z) : Prop := mkCollects {
  (** What is left was there and has not expired. *)
  co_left id meta : as_items s' !! id = Some meta ->
    as_items s !! id = Some meta /\ expired now image file meta = false;
  (** What is pinned is left. *)
  co_pinned id meta : as_items s !! id = Some meta -> isPinned meta = true ->
    as_items s' !! id = Some meta;
  (** What goes before it has expired is of a class with a quota, and the unpinned attachments of
      that class that are left were used after it. *)
  co_order a meta : as_items s !! a = Some meta -> expired now image file meta = false ->
    as_items s' !! a = None ->
    0 < quotaOf s (normalizedClass meta)
    /\ forall b, candidate (as_items s') (normalizedClass meta) ∅ b -> usedBefore (as_items s) a b;
  (** A class with a quota comes down to the target of the usage that has not expired, or to its
      pinned attachments. *)
  co_room class : isClass class -> 0 < quotaOf s class ->
    normalUsage (as_items s') class
      <= gcTarget s (quotaOf s class)
           (normalUsage (filter (fun e => expired now image file e.2 = false) (as_items s)) class)
    \/ forall id, ~ candidate (as_items s') class ∅ id;
}.

Lemma markLRU_other rt s class marks id meta :
  isClass class -> as_items s !! id = Some meta -> normalizedClass meta <> class ->
  markLRU rt s class marks !! id = marks !! id.
Proof.
  intros Hcl Hm Hne. rewrite markLRU_lookup. destruct (marks !! id); [done|].
  case_bool_decide as Hin; [|done]. exfalso. destruct (lruVictims_choice rt s class marks Hcl) as [[Hv _] _].
  rewrite list.Forall_forall in Hv. destruct (Hv _ Hin) as (m & Hm' & _ & _ & Hc). congruence.
Qed.

Lemma markLRU_none rt s class marks id :
  markLRU rt s class marks !! id = None -> marks !! id = None.
Proof. rewrite markLRU_lookup. by destruct (marks !! id). Qed.

(** Each class is marked from marks that agree with those of the first phase on the class. *)
Lemma gcMarks_class rt s now image file class :
  isClass class -> let m2 := gcMarks rt s now image file in
  exists marks, (forall id meta, as_items s !! id = Some meta -> normalizedClass meta = class ->
      marks !! id = markExpired rt now image file (as_items s) !! id
      /\ m2 !! id = markLRU rt s class marks !! id)
    /\ (forall id, m2 !! id = None -> markLRU rt s class marks !! id = None).
Proof.
  intros [-> | ->]; cbv zeta; unfold gcMarks; set (m0 := markExpired _ _ _ _ _).
  - exists m0. split; [|by intros id ?%markLRU_none].
    intros id meta Hm Hc. split; [done|].
    apply (markLRU_other _ _ _ _ _ meta); [by right|done|by rewrite Hc].
  - exists (markLRU rt s "image" m0). split; [|done]. intros id meta Hm Hc. split; [|done].
    apply (markLRU_other _ _ _ _ _ meta); [by left|done|by rewrite Hc].
Qed.

Lemma expired_unpinned now image file meta : expired now image file meta = true -> isPinned meta = false.
Proof. unfold expired. by destruct (isPinned meta). Qed.

Lemma normalizedClass_isClass meta : isClass (normalizedClass meta).
Proof. unfold normalizedClass, isClass. destruct (_ == "image"); auto. Qed.

(** What the marks leave of an entry: what has not expired and was not a victim of its class. *)
Lemma gcMarks_none rt s now image file id meta :
  as_items s !! id = Some meta -> exists marks,
  (gcMarks rt s now image file !! id = None <->
     expired now image file meta = false /\ id ∉ lruVictims rt s (normalizedClass meta) marks)
  /\ forall i, gcMarks rt s now image file !! i = None ->
     marks !! i = None /\ i ∉ lruVictims rt s (normalizedClass meta) marks.
Proof.
  intros Hm. destruct (gcMarks_class rt s now image file _ (normalizedClass_isClass meta)) as (marks & Ha & Hn).
  exists marks. split.
  - destruct (Ha id meta Hm eq_refl) as [E0 ->]. rewrite markLRU_lookup, E0, markExpired_lookup, Hm.
    destruct (expired now image file meta); [naive_solver|]. case_bool_decide; naive_solver.
  - intros i Hi%Hn. rewrite markLRU_lookup in Hi. destruct (marks !! i); [done|].
    split; [done|]. by case_bool_decide.
Qed.

Lemma gc_room rt s now image file class :
  sized (as_items s) -> allSizes (as_items s) < 2 ^ 63 -> isClass class -> 0 < quotaOf s class ->
  let items' := unmarked (as_items s) (gcMarks rt s now image file) in
  normalUsage items' class
    <= gcTarget s (quotaOf s class)
         (normalUsage (filter (fun e => expired now image file e.2 = false) (as_items s)) class)
  \/ forall id, ~ candidate items' class ∅ id.
Proof.
  intros Hs Hb Hcl Hq. cbv zeta. destruct (gcMarks_class rt s now image file _ Hcl) as (marks & Ha & Hn).
  destruct (lru_room rt s class marks Hcl Hs Hb Hq) as [Hr|Hr].
  - left. etrans; [|etrans; [apply Hr|]].
    + apply total_sub; [apply (sized_sub (as_items s)); [done|apply unmarked_sub]|].
      apply map_subseteq_spec. intros id x. rewrite !unmarked_lookup. case_bool_decide; [|done].
      by rewrite bool_decide_true by auto.
    + apply Z.eq_le_incl. f_equal. rewrite !normalUsage_part. do 2 f_equal. apply map_eq. intros id.
      rewrite !map_lookup_filter, unmarked_lookup. destruct (as_items s !! id) as [meta|] eqn:Em;
        [|by case_bool_decide].
      cbn. specialize (Ha id meta Em). rewrite markExpired_lookup, Em in Ha.
      destruct (decide (normalizedClass meta = class)) as [Hc|Hc].
      * destruct (Ha Hc) as [-> _]. destruct (expired now image file meta); repeat case_guard; done.
      * case_bool_decide; by simplify_option_eq.
  - right. intros id (meta & Hm & He & Hp & Hc). apply (Hr id). exists meta. split_and!; [|done..].
    rewrite unmarked_lookup in Hm |- *. case_bool_decide; [|done]. by rewrite bool_decide_true by auto.
Qed.

Lemma runGC_collects env now image file s s' report :
  sized (as_items s) -> allSizes (as_items s) < 2 ^ 63 ->
  runGCLocked env now image file false s = (s', Ok report) -> collects s s' now image file.
Proof.
  intros Hs Hb (Hi & _)%runGC_result.
  pose proof (gcMarks_none (ae_rt env) s now image file) as Hnone.
  pose proof (gc_room (ae_rt env) s now image file) as Hroom. cbv zeta in Hroom. rewrite <- Hi in Hroom.
  set (m2 := gcMarks _ _ _ _ _) in *.
  assert (Hl : forall id, as_items s' !! id = if bool_decide (m2 !! id = None) then as_items s !! id else None)
    by (intros id; rewrite Hi; apply unmarked_lookup).
  split; [| | |auto].
  - intros id meta Hm. rewrite Hl in Hm. case_bool_decide; [|done].
    destruct (Hnone _ _ Hm) as (marks & Hx & _). naive_solver.
  - intros id meta Hm Hp. rewrite Hl, bool_decide_true; [done|].
    destruct (Hnone _ _ Hm) as (marks & Hx & _). apply Hx. split.
    + destruct (expired now image file meta) eqn:Ex; [|done]. apply expired_unpinned in Ex. congruence.
    + intros Hin. destruct (lruVictims_choice (ae_rt env) s _ marks (normalizedClass_isClass meta)) as [[Hv _] _].
      rewrite list.Forall_forall in Hv. destruct (Hv _ Hin) as (m & Hm' & _ & Hp' & _). congruence.
  - intros a meta Hm Hx Hgone. destruct (Hnone _ _ Hm) as (marks & Ha & Hb').
    destruct (lruVictims_choice (ae_rt env) s _ marks (normalizedClass_isClass meta)) as [[Hv Hord] Hq].
    assert (Hin : a ∈ lruVictims (ae_rt env) s (normalizedClass meta) marks).
    { destruct (decide (a ∈ lruVictims (ae_rt env) s (normalizedClass meta) marks)) as [|Hna]; [done|].
      rewrite Hl, bool_decide_true in Hgone by (apply Ha; done). congruence. }
    split; [apply Hq; by destruct (lruVictims _ _ _ _); [apply elem_of_nil in Hin|]|].
    intros b (mb & Hmb & _ & Hp & Hc). rewrite Hl in Hmb. case_bool_decide as H2; [|done].
    destruct (Hb' b H2) as [Hmark Hbv]. apply Hord; [done| |done]. by exists mb.
Qed.

End Collection.

(** ** An example *)

(** In a directory with two images and a file that has expired, the collection takes the file and
    the image that was used least recently. *)
Definition ex_gc_store : AttachmentStore :=
  ex_put "b" 20 500000 (ex_put "a" 30 500000
    (fst (PutExisting ex_att_env ex_att_env 5 (mkMeta "f" "" "text/plain" "file" 5 "" 10 5) [1]
      (SetPersistenceEnabled false ex_store0)))).

Lemma ex_gc_sized : sized (as_items ex_gc_store).
Proof.
  assert (H : map_Forall (fun _ m => bool_decide (0 <= am_Size m) = true) (as_items ex_gc_store))
    by (apply (bool_decide_unpack _); vm_compute; exact I).
  intros id m Hm. exact (proj1 (bool_decide_eq_true _) (H id m Hm)).
Qed.

