(* ===== verification/AttachmentDisk.v ===== *)
(** * Attachments on disk

    What is in the directory of a store as long as the disk works: an index that decodes to the
    entries, and for every entry a file with its bytes. A store opened on the same directory has
    the same attachments with the same bytes. *)
From stdpp Require Import base gmap strings list sets option.
From Stdlib Require Import ZArith Lia Ascii String Sorted.
From S2P Require Import Prelude SecureStore AttachmentStore AttachmentGC.
Open Scope string_scope.
Open Scope Z_scope.
Open Scope go_scope.

(** A time that encoding/json encodes: one of the years 0 to 9999. *)
Definition jsonTime (t : Z) : Prop := - 31622400 * Second <= t < 315537897600 * Second.

(** Reading the clock after year 1. *)
Definition clock_ok (t : Z) : Prop := 0 < t < 315537897600 * Second.

(** encoding/json fails only on a time out of range. *)
Class IndexCodecLaws (codec : JsonCodec attachmentIndex) : Prop := {
  index_encodes items :
    map_Forall (fun _ m => jsonTime (am_CreatedAt m) /\ jsonTime (am_LastAccessAt m)) items ->
    exists bs, bs <> [] /\ marshalJSON (mkIndex attachmentIndexSchemaVersion (Some items)) = Ok bs
}.

(** A call during which the disk and the random source work. *)
Definition disk_ok (env : AttachmentEnv) : Prop :=
  (forall p, random_ok (ae_rand env p)) /\ ae_mkdir env = None
  /\ (forall p, ae_read env p = None) /\ (forall p, ae_write env p = None)
  /\ (forall p, ae_remove env p = None).

Section Disk.
Context {cipher : Cipher} {ecodec : EnvelopeCodec} {lower : GoLower} {fold : GoFold}
        {codec : JsonCodec attachmentIndex}
        {cl : CipherLaws cipher} {el : EnvelopeCodecLaws ecodec} {il : IndexCodecLaws codec}.

(** The bytes of a file are those of [data], encrypted when there is a secret. *)
Definition unseals (secret : string) (raw data : list Z) : Prop :=
  if secret == "" then raw = data else Decrypt secret raw = Ok data.

Lemma unseals_nonempty secret raw data : unseals secret raw data -> data <> [] -> raw <> [].
Proof.
  unfold unseals. case_bool_decide; intros Hu Hd ->; [congruence|]. by rewrite Decrypt_nil in Hu.
Qed.

Lemma sealFile_unseals env s p data :
  disk_ok env -> exists raw, sealFile env s p data = Ok raw /\ unseals (as_secret s) raw data.
Proof.
  intros (Hr & _). unfold sealFile, unseals. case_bool_decide; cbn [negb]; [by exists data|].
  by apply Encrypt_Decrypt.
Qed.

(** ** What the directory holds *)

(** An entry as the store writes it: what [load] would fill in is there. *)
Definition entry_ok (id : string) (m : AttachmentMeta) : Prop :=
  plain id /\ TrimSpace (am_Class m) <> "" /\ TrimSpace (am_PinState m) <> ""
  /\ am_LastAccessAt m <> 0 /\ jsonTime (am_CreatedAt m) /\ jsonTime (am_LastAccessAt m).

(** The file of an identifier holds [data]. *)
Definition holds (s : AttachmentStore) (id : string) (data : list Z) : Prop :=
  exists raw, as_files s !! filePath s id = Some raw /\ unseals (as_secret s) raw data.

(** The index file encodes the entries, or there is neither. *)
Definition indexed (s : AttachmentStore) (items : Items) : Prop :=
  items = ∅ /\ as_files s !! indexPath s = None
  \/ exists raw bs, as_files s !! indexPath s = Some raw /\ raw <> []
     /\ unseals (as_secret s) raw bs
     /\ marshalJSON (mkIndex attachmentIndexSchemaVersion (Some items)) = Ok bs.

Record base (s : AttachmentStore) : Prop := mkBase {
  ba_dir : as_dir s <> ""; ba_persist : as_persist s = true; ba_blobs : as_blobs s = ∅;
  ba_secret : TrimSpace (as_secret s) = as_secret s
}.

Record on_disk (s : AttachmentStore) : Prop := mkOnDisk {
  od_base : base s;
  od_entries : map_Forall entry_ok (as_items s);
  od_files : forall id, is_Some (as_items s !! id) -> exists data, holds s id data;
  od_index : indexed s (as_items s)
}.

Lemma with_files_same s f : with_files s f = s <-> f = as_files s.
Proof. split; [by intros <-|intros ->; by destruct s]. Qed.

(** Writing the index. *)
Lemma persist_writes env items s :
  base s -> disk_ok env -> map_Forall entry_ok items ->
  exists raw, persistItemsLocked env items s = (with_files s (<[indexPath s := raw]> (as_files s)), Ok tt)
    /\ indexed (with_files s (<[indexPath s := raw]> (as_files s))) items.
Proof.
  intros [Hd Hp _ _] Henv Hok. unfold persistItemsLocked. rewrite Hp, bool_decide_false by done. cbn [orb negb].
  destruct (index_encodes items) as (bs & Hne & Hbs).
  { intros id m Hm. destruct (Hok id m Hm) as (_ & _ & _ & _ & ?). done. }
  destruct (sealFile_unseals env s (indexPath s) bs Henv) as (raw & Hraw & Hun).
  destruct Henv as (_ & _ & _ & Hw & _). unfold bindR. rewrite Hbs, Hraw. unfold writePath. rewrite Hw.
  exists raw. split; [done|]. right. exists raw, bs. cbn [as_files with_files]. split_and!; [|by eapply unseals_nonempty|done..].
  apply lookup_insert_eq.
Qed.

(** Files other than the one written hold what they held. *)
Lemma holds_other s id p d data :
  base s -> filePath s id <> p -> holds s id data ->
  holds (with_files s (partial_alter (fun _ => d) p (as_files s))) id data.
Proof.
  intros Hb Hne (raw & Hf & Hu). exists raw. split; [|done].
  cbn [as_files with_files]. by rewrite lookup_partial_alter_ne.
Qed.

(** ** One call

    What a call leaves of the attachment [keep]: its bytes, and all of its entry but the last
    access and the pin. *)

Definition sameBlob (m m' : AttachmentMeta) : Prop :=
  am_ID m' = am_ID m /\ am_Name m' = am_Name m /\ am_MimeType m' = am_MimeType m
  /\ am_Class m' = am_Class m /\ am_Size m' = am_Size m /\ am_CreatedAt m' = am_CreatedAt m.

Definition keeps (id : string) (s s' : AttachmentStore) : Prop :=
  forall m', as_items s' !! id = Some m' ->
  exists m, as_items s !! id = Some m /\ sameBlob m m' /\ forall data, holds s id data -> holds s' id data.

(** A store on disk before and after. *)
Definition step_ok (id : string) (s s' : AttachmentStore) : Prop :=
  on_disk s' /\ keeps id s s' /\ as_dir s' = as_dir s /\ as_secret s' = as_secret s.

Lemma sameBlob_refl m : sameBlob m m.
Proof. by split_and!. Qed.

Lemma sameBlob_trans m1 m2 m3 : sameBlob m1 m2 -> sameBlob m2 m3 -> sameBlob m1 m3.
Proof. unfold sameBlob. intuition congruence. Qed.

Lemma keeps_refl id s : keeps id s s.
Proof. intros m Hm. exists m. split_and!; [done|apply sameBlob_refl|done]. Qed.

Lemma step_ok_refl id s : on_disk s -> step_ok id s s.
Proof. intros H. by split_and!; [|apply keeps_refl|..]. Qed.

Lemma step_ok_trans id s1 s2 s3 : step_ok id s1 s2 -> step_ok id s2 s3 -> step_ok id s1 s3.
Proof.
  intros (_ & Hk1 & Hd1 & Hs1) (H & Hk2 & Hd2 & Hs2). split_and!; [done| |congruence..].
  intros m3 Hm3. destruct (Hk2 _ Hm3) as (m2 & Hm2 & Hsame2 & Hb2).
  destruct (Hk1 _ Hm2) as (m1 & Hm1 & Hsame1 & Hb1). exists m1.
  split_and!; [done|by eapply sameBlob_trans|auto].
Qed.

(** ** The primitives *)

Lemma holds_index s id raw data :
  base s -> plain id -> holds s id data ->
  holds (with_files s (<[indexPath s := raw]> (as_files s))) id data.
Proof.
  intros Hb Hp H. apply holds_other; [done| |done]. apply filePath_not_index; [apply Hb|done].
Qed.

(** The index is written and the entry follows. *)
Lemma commitMeta_ok env id meta s :
  base s -> disk_ok env -> map_Forall entry_ok (as_items s) -> entry_ok id meta ->
  (forall i, is_Some (as_items s !! i) -> exists data, holds s i data) ->
  (exists data, holds s id data) ->
  exists raw, let s' := with_items (with_files s (<[indexPath s := raw]> (as_files s)))
                          (<[id := meta]> (as_items s)) in
    commitMeta env id meta s = (s', Ok tt) /\ on_disk s'.
Proof.
  intros Hb Henv Hok Hm Hf Hid. unfold commitMeta, bindM. set (next := <[id := meta]> (as_items s)).
  assert (Hnext : map_Forall entry_ok next) by by apply map_Forall_insert_2.
  destruct (persist_writes env next s Hb Henv Hnext) as (raw & -> & Hix). exists raw. cbv zeta.
  split; [done|]. split; [by destruct Hb|done| |done].
  intros i Hi. cbn [as_items with_items] in Hi. destruct Hi as [m Hi].
  destruct (Hnext i m Hi) as [Hplain _].
  assert (exists data, holds s i data) as [data Hh].
  { destruct (decide (i = id)) as [->|Hne]; [done|]. apply Hf. exists m.
    unfold next in Hi. by rewrite lookup_insert_ne in Hi. }
  exists data. by apply (holds_index s i raw).
Qed.

(** An entry whose last access or pin changes. *)
Lemma touch_ok env id m m' s keep :
  on_disk s -> disk_ok env -> as_items s !! id = Some m -> sameBlob m m' -> entry_ok id m' ->
  step_ok keep s (fst (commitMeta env id m' s)).
Proof.
  intros [Hb Hok Hf Hix] Henv Hm Hsame Hm'.
  destruct (commitMeta_ok env id m' s Hb Henv Hok Hm' Hf) as (raw & -> & Hod); [apply Hf; by exists m|].
  split_and!; [done| |done..]. intros m1 Hm1. cbn [fst as_items with_items] in Hm1.
  destruct (decide (keep = id)) as [->|Hne].
  - rewrite lookup_insert_eq in Hm1. injection Hm1 as <-. exists m. split_and!; [done..|].
    intros data. apply holds_index; [done|]. apply Hm'.
  - rewrite lookup_insert_ne in Hm1 by done. exists m1. split_and!; [done|apply sameBlob_refl|].
    intros data. apply holds_index; [done|]. by destruct (Hok _ _ Hm1).
Qed.

Lemma removeFiles_ok env ids s :
  base s -> disk_ok env ->
  exists f, removeFiles env ids s = (with_files s f, Ok tt)
    /\ forall p, p ∉ filePath s <$> ids -> f !! p = as_files s !! p.
Proof.
  intros Hb Henv. revert s Hb. induction ids as [|id ids IH]; intros s Hb.
  { exists (as_files s). split; [by rewrite (proj2 (with_files_same s _)) by done|done]. }
  cbn [removeFiles]. unfold bindM, modifyM.
  assert (Es : with_blobs s (delete id (as_blobs s)) = s)
    by (destruct Hb as [_ _ Hbl _]; rewrite Hbl, delete_empty; rewrite <- Hbl; by destruct s).
  rewrite Es. assert (exists f1, (if as_persist s && negb (TrimSpace (as_dir s) == "")
      then removePath env (filePath s id) s else (s, Ok tt)) = (with_files s f1, Ok tt)
      /\ forall p, p <> filePath s id -> f1 !! p = as_files s !! p) as (f1 & -> & Hf1).
  { destruct Henv as (_ & _ & _ & _ & Hr). destruct (as_persist s && _).
    - unfold removePath. rewrite Hr. destruct (as_files s !! filePath s id).
      + exists (delete (filePath s id) (as_files s)). split; [done|]. intros p Hp. by rewrite lookup_delete_ne.
      + exists (as_files s). split; [by rewrite (proj2 (with_files_same s _)) by done|done].
    - exists (as_files s). split; [by rewrite (proj2 (with_files_same s _)) by done|done]. }
  destruct (IH (with_files s f1)) as (f & -> & Hf); [by destruct Hb|]. exists f. split; [done|].
  intros p Hp. cbn [fmap list_fmap] in Hp. apply not_elem_of_cons in Hp as [Hp1 Hp2].
  rewrite Hf by done. by apply Hf1.
Qed.

(** Entries that go, with their files. *)
Lemma delete_ok env ids s keep :
  on_disk s -> disk_ok env -> Forall (fun id => is_Some (as_items s !! id)) ids ->
  exists s', deleteIDsLocked env ids s = (s', Ok tt) /\ step_ok keep s s'.
Proof.
  intros Hod Henv Hids. unfold deleteIDsLocked.
  destruct ids as [|i0 ids0]; [exists s; split; [done|by apply step_ok_refl]|].
  set (ids := i0 :: ids0) in *. destruct Hod as [Hb Hok Hf Hix].
  set (next := foldr delete (as_items s) ids).
  assert (Hnext : forall i m, next !! i = Some m -> as_items s !! i = Some m /\ filePath s i ∉ filePath s <$> ids).
  { intros i m Hm. unfold next in Hm. rewrite foldr_delete_lookup in Hm. case_bool_decide as Hin; [done|].
    split; [done|]. intros (j & Hj & Hjin)%list_elem_of_fmap. destruct (Hok _ _ Hm) as [Hp _].
    rewrite list.Forall_forall in Hids. destruct (Hids _ Hjin) as [mj Hmj]. destruct (Hok _ _ Hmj) as [Hpj _].
    apply filePath_inj in Hj as ->; [done|apply Hb|done|done]. }
  assert (Hnok : map_Forall entry_ok next) by (intros i m Hm; apply Hok, Hnext, Hm).
  unfold bindM, modifyM. destruct (removeFiles_ok env ids s Hb Henv) as (f & -> & Hfs).
  assert (Hb1 : base (with_files s f)) by by destruct Hb.
  destruct (persist_writes env next _ Hb1 Henv Hnok) as (raw & -> & Hix'). eexists. split; [done|].
  assert (Hkeep : forall i m data, next !! i = Some m -> holds s i data ->
    holds (with_files (with_files s f) (<[indexPath s := raw]> f)) i data).
  { intros i m data Hm (r & Hr & Hu). destruct (Hnext _ _ Hm) as [Hm1 Hnot].
    apply (holds_index (with_files s f) i raw); [done|by destruct (Hok _ _ Hm1)|].
    exists r. split; [|done]. cbn [as_files with_files]. rewrite <- Hr. by apply Hfs. }
  split_and!; [|intros m Hm; cbn [as_items with_items] in Hm|done..].
  - split; [by destruct Hb|done| |done]. intros i [m Hm]. cbn [as_items with_items] in Hm.
    destruct (Hf i) as [data Hh]; [exists m; by apply Hnext|]. exists data. by eapply Hkeep.
  - exists m. destruct (Hnext _ _ Hm). split_and!; [done|apply sameBlob_refl|].
    intros data. by eapply Hkeep.
Qed.

(** An attachment that is added, with its file. *)
Lemma add_ok env id meta data s keep :
  on_disk s -> disk_ok env -> entry_ok id meta ->
  exists s1 s', storeBlob env id data s = (s1, Ok tt) /\ commitMeta env id meta s1 = (s', Ok tt)
    /\ as_items s' !! id = Some meta /\ holds s' id data /\ on_disk s'
    /\ as_dir s' = as_dir s /\ as_secret s' = as_secret s /\ (id <> keep -> keeps keep s s').
Proof.
  intros [Hb Hok Hf Hix] Henv Hm. destruct (sealFile_unseals env s (filePath s id) data Henv) as (raw & Hraw & Hun).
  unfold storeBlob. rewrite Hraw. destruct Henv as (Hr & Hmk & Hrd & Hw & Hrm). rewrite Hmk.
  assert (Henv : disk_ok env) by done. unfold writePath at 1. rewrite Hw. eexists.
  set (s1 := with_files s _). assert (Hb1 : base s1) by by destruct Hb.
  assert (Hid : holds s1 id data) by (exists raw; split; [apply lookup_insert_eq|done]).
  assert (Hother : forall i m d, as_items s !! i = Some m -> i <> id -> holds s i d -> holds s1 i d).
  { intros i m d Hi Hne. apply holds_other; [done|]. intros E. apply Hne.
    apply (filePath_inj s); [apply Hb|by destruct (Hok _ _ Hi)|apply Hm|done]. }
  destruct (commitMeta_ok env id meta s1 Hb1 Henv Hok Hm) as (raw' & Hc & Hod); [|by exists data|].
  { intros i Hi. destruct (decide (i = id)) as [->|Hne]; [by exists data|].
    destruct (Hf i Hi) as [d Hd]. destruct Hi as [m Hi]. exists d. by eapply Hother. }
  rewrite Hc. eexists. split_and!; [done|done|apply lookup_insert_eq| |done|done|done|].
  - apply (holds_index s1 id raw'); [done|apply Hm|done].
  - intros Hne m Hm1. cbn [as_items with_items] in Hm1. rewrite lookup_insert_ne in Hm1 by done.
    exists m. split_and!; [done|apply sameBlob_refl|]. intros d Hd.
    apply (holds_index s1 keep raw'); [done|by destruct (Hok _ _ Hm1)|]. by eapply Hother.
Qed.

(** ** The calls *)

Lemma takeUntil_in items l usage target :
  Forall (fun id => is_Some (items !! id)) (takeUntil items l usage target).
Proof.
  revert usage. induction l as [|id l IH]; intros usage; [constructor|]. cbn [takeUntil].
  destruct (items !! id) eqn:E; [|apply IH]. constructor; [by eexists|]. destruct (_ <=? _); [constructor|apply IH].
Qed.

(** Settings and counters do not matter. *)
Lemma settings_ok keep s s' :
  on_disk s -> (as_dir s', as_secret s', as_persist s') = (as_dir s, as_secret s, as_persist s) ->
  (as_items s', as_blobs s', as_files s') = (as_items s, as_blobs s, as_files s) -> step_ok keep s s'.
Proof.
  destruct s, s'. cbn. intros [[] ? ? ?] [= -> -> ->] [= -> -> ->].
  split_and!; [|intros m Hm; exists m; split_and!; [done|apply sameBlob_refl|done]|done..].
  by split; [split|..].
Qed.

Lemma enforce_ok env class size s keep :
  on_disk s -> disk_ok env -> step_ok keep s (fst (enforceClassLimitsLocked env class size s)).
Proof.
  intros Hod Henv. unfold enforceClassLimitsLocked. destruct (classLimitsLocked s class) as [maxItem quota].
  destruct (_ && _); [by apply step_ok_refl|]. set (full := if _ <=? 0 then _ else _).
  destruct (_ && _); [by apply settings_ok|]. destruct (_ && _); [|by apply step_ok_refl]. cbv zeta. set (target := if _ <? 0 then _ else _).
  set (ids := if _ <? _ then takeUntil _ _ _ _ else []). unfold bindM.
  assert (Hids : Forall (fun id => is_Some (as_items s !! id)) ids)
    by (unfold ids; case_match; [apply takeUntil_in|constructor]).
  destruct (delete_ok env ids s keep Hod Henv Hids) as (s' & -> & H). done.
Qed.

Definition is_byte (b : Z) : Prop := 0 <= b < 256.

Lemma hexEncode_plain bs : Forall is_byte bs -> plain (hexEncode bs).
Proof.
  intros H. unfold plain, hexEncode. rewrite list_ascii_of_string_of_list_ascii.
  assert (Hd : forall n, 0 <= n < 16 -> hex_digit n <> "/"%char).
  { assert (Hall : Forall (fun n => hex_digit n <> "/"%char) (seqZ 0 16))
      by (apply (bool_decide_unpack _); vm_compute; exact I).
    intros n Hn. rewrite List.Forall_forall in Hall. apply Hall, list_elem_of_In, elem_of_seqZ. lia. }
  induction H as [|b bs Hb _ IH]; [constructor|]. cbn. unfold is_byte in Hb.
  pose proof (Z.mod_pos_bound b 16 ltac:(lia)). pose proof (Z.div_pos b 16 ltac:(lia) ltac:(lia)).
  pose proof (Z.div_lt_upper_bound b 16 16 ltac:(lia) ltac:(lia)).
  constructor; [apply Hd; lia|]. constructor; [apply Hd; lia|done].
Qed.

(** The calls of a store while its persistence is on and the disk works: every operation that changes
    the store, with these bounds. The clock shows one of the years 1 to 9999. What [PutExisting] is
    given has an identifier without a slash and times that encoding/json encodes. Nothing is put in
    under the identifier [keep]. A directory that is wiped has a name that is not blank. *)
Inductive disk_call (keep : string) : AttachmentStore -> AttachmentStore -> Prop :=
| dc_put envL env now bs name mime data s :
    disk_ok envL -> disk_ok env -> clock_ok now -> Forall is_byte bs ->
    newAttachmentID (Ok bs) <> Ok keep ->
    disk_call keep s (fst (Put envL env now (Ok bs) name mime data s))
| dc_put_existing envL env now meta data s :
    disk_ok envL -> disk_ok env -> clock_ok now -> plain (am_ID meta) ->
    jsonTime (am_CreatedAt meta) -> jsonTime (am_LastAccessAt meta) -> am_ID meta <> keep ->
    disk_call keep s (fst (PutExisting envL env now meta data s))
| dc_get env now id s : disk_ok env -> clock_ok now -> disk_call keep s (fst (Get env now id s))
| dc_touch env id at_ s : disk_ok env -> clock_ok at_ ->
    disk_call keep s (fst (touchLastAccess env id at_ s))
| dc_pin env now id pin s : disk_ok env -> clock_ok now ->
    disk_call keep s (fst (SetPinState env now id pin s))
| dc_gc env clock now image file dry s : disk_ok env ->
    disk_call keep s (fst (RunGC env clock now image file dry s))
| dc_purge env cutoff s : disk_ok env -> disk_call keep s (fst (PurgeOlderThan env cutoff s))
| dc_purge_class env class cutoff s : disk_ok env ->
    disk_call keep s (fst (PurgeOlderThanByClass env class cutoff s))
| dc_policies a b c d s : disk_call keep s (SetClassPolicies a b c d s)
| dc_hard_cap high full aggressive s :
    disk_call keep s (SetHardCapPolicy high full aggressive s)
| dc_persist s : disk_call keep s (SetPersistenceEnabled true s)
| dc_wipe env s : ae_removeAll env = None -> TrimSpace (as_dir s) <> "" -> disk_call keep s (fst (Wipe env s)).

Lemma clock_json t : clock_ok t -> jsonTime t /\ t <> 0.
Proof. unfold clock_ok, jsonTime, Second. lia. Qed.

Lemma class_nonblank mime : TrimSpace (ClassifyAttachmentMime mime) <> "".
Proof. unfold ClassifyAttachmentMime. by destruct (HasPrefix _ _). Qed.

Lemma newMeta_ok id name mime now data :
  plain id -> clock_ok now -> entry_ok id (newMeta id name mime now data).
Proof.
  intros Hp [Hj Hz]%clock_json. unfold newMeta, entry_ok. cbn [am_Class am_PinState am_LastAccessAt am_CreatedAt].
  split_and!; [done|apply class_nonblank|done..].
Qed.

Lemma completeMeta_entry now meta data :
  plain (am_ID meta) -> clock_ok now -> jsonTime (am_CreatedAt meta) -> jsonTime (am_LastAccessAt meta) ->
  entry_ok (am_ID meta) (completeMeta now meta data).
Proof.
  intros Hp [Hj Hz]%clock_json Hc Ha. unfold completeMeta, entry_ok, IsZero.
  cbn [am_Class am_PinState am_LastAccessAt am_CreatedAt]. split_and!.
  - done.
  - case_bool_decide; [apply class_nonblank|done].
  - by case_bool_decide.
  - destruct (Z.eqb_spec (am_LastAccessAt meta) 0); [|done]. by destruct (Z.eqb_spec (am_CreatedAt meta) 0).
  - by destruct (Z.eqb_spec (am_CreatedAt meta) 0).
  - destruct (Z.eqb_spec (am_LastAccessAt meta) 0); [|done]. by destruct (Z.eqb_spec (am_CreatedAt meta) 0).
Qed.

(** Limits and then an attachment of another identifier. *)
Lemma put_step envL env meta data s keep :
  on_disk s -> disk_ok envL -> disk_ok env -> entry_ok (am_ID meta) meta ->
  (am_ID meta <> keep -> step_ok keep s (fst (putLocked envL env meta data s)))
  /\ forall m, snd (putLocked envL env meta data s) = Ok m ->
     m = meta /\ let s' := fst (putLocked envL env meta data s) in
     on_disk s' /\ as_items s' !! am_ID meta = Some meta /\ holds s' (am_ID meta) data
     /\ as_dir s' = as_dir s /\ as_secret s' = as_secret s.
Proof.
  intros Hod HL He Hm. unfold putLocked. pose proof (enforce_ok envL (am_Class meta) (am_Size meta) s keep Hod HL) as H1.
  unfold bindM. destruct (enforceClassLimitsLocked envL _ _ s) as [s1 [[]|e]]; cbn [fst] in H1; [|by split].
  destruct H1 as (Hod1 & Hk1 & Hd1 & Hs1). pose proof (od_base _ Hod1) as [Hd Hp _ _].
  rewrite bool_decide_false, Hp by done. cbn [negb].
  destruct (add_ok env (am_ID meta) meta data s1 keep Hod1 He Hm)
    as (s2 & s3 & -> & -> & Hi & Hh & Hod3 & Hd3 & Hs3 & Hk3). cbn [fst snd]. split.
  - intros Hne. apply (step_ok_trans _ _ s1); [done|]. split_and!; [done|by apply Hk3|done..].
  - intros m [= <-]. split_and!; [done..|congruence|congruence].
Qed.

Lemma PutExisting_ok envL env now meta data s keep :
  on_disk s -> disk_ok envL -> disk_ok env -> clock_ok now -> plain (am_ID meta) ->
  jsonTime (am_CreatedAt meta) -> jsonTime (am_LastAccessAt meta) -> am_ID meta <> keep ->
  step_ok keep s (fst (PutExisting envL env now meta data s)).
Proof.
  intros Hod HL He Hn Hp Hc Ha Hk.
  unfold PutExisting. destruct (TrimSpace (am_ID meta) == ""); [by apply step_ok_refl|].
  destruct (List.length data =? 0)%nat; [by apply step_ok_refl|]. set (m := completeMeta now meta data).
  pose proof (completeMeta_entry now meta data Hp Hn Hc Ha) as Hm. fold m in Hm.
  pose proof (enforce_ok envL (am_Class m) (am_Size m) s keep Hod HL) as H1. unfold bindM.
  destruct (enforceClassLimitsLocked envL _ _ s) as [s1 [[]|e]]; cbn [fst] in H1; [|done].
  pose proof H1 as (Hod1 & _ & Hd1 & Hs1). pose proof (od_base _ Hod1) as [Hd Hp1 _ _].
  rewrite bool_decide_false, Hp1 by done. cbn [negb].
  destruct (add_ok env (am_ID m) m data s1 keep Hod1 He Hm) as (s2 & s3 & -> & -> & _ & _ & Hod3 & Hd3 & Hs3 & Hk3).
  apply (step_ok_trans _ _ s1); [done|]. split_and!; [done|by apply Hk3|done..].
Qed.

Lemma touchLastAccess_ok env id at_ s keep :
  on_disk s -> disk_ok env -> clock_ok at_ -> step_ok keep s (fst (touchLastAccess env id at_ s)).
Proof.
  intros Hod Henv [Hj Hz]%clock_json. unfold touchLastAccess.
  destruct (as_items s !! id) as [m|] eqn:Em; [|by apply step_ok_refl].
  destruct (negb _); [by apply step_ok_refl|]. eapply touch_ok; [done|done|done|by split_and!|].
  destruct (od_entries _ Hod _ _ Em) as (? & ? & ? & ? & ? & ?). by split_and!.
Qed.

Lemma delete_step env ids s keep (r : Z) :
  on_disk s -> disk_ok env -> Forall (fun id => is_Some (as_items s !! id)) ids ->
  step_ok keep s (fst ((deleteIDsLocked env ids ;;! retM r) s)).
Proof.
  intros Hod Henv Hids. destruct (delete_ok env ids s keep Hod Henv Hids) as (s' & E & H).
  unfold bindM. by rewrite E.
Qed.

Lemma purge_ok env old s keep :
  on_disk s -> disk_ok env -> step_ok keep s (fst (purge env old s)).
Proof.
  intros Hod Henv. unfold purge. set (ids := omap _ _).
  assert (Hids : Forall (fun id => is_Some (as_items s !! id)) ids).
  { apply list.Forall_forall. intros id ([i m] & Hin & E)%list_elem_of_omap. destruct (old m); [|done].
    injection E as ->. rewrite rangeMap_perm, elem_of_map_to_list in Hin. by exists m. }
  clearbody ids. destruct ids; [by apply step_ok_refl|]. by apply delete_step.
Qed.

(** A wiped directory has no index. *)
Lemma wipe_ok env s keep :
  on_disk s -> ae_removeAll env = None -> TrimSpace (as_dir s) <> "" -> step_ok keep s (fst (Wipe env s)).
Proof.
  intros [[Hd Hp Hbl Hsec] _ _ _] Hr Ht. unfold Wipe. cbn [as_dir with_items with_blobs].
  rewrite bool_decide_false, Hr by done. cbn [fst]. split_and!; [|by intros m|done..].
  split; [by split| | |].
  - apply map_Forall_empty.
  - intros id [m Hm]. cbn [as_items with_files with_items with_blobs] in Hm. by rewrite lookup_empty in Hm.
  - left. split; [done|]. cbn [as_files with_files with_items with_blobs]. apply map_lookup_filter_None. right.
    intros x _. cbn [fst]. unfold indexPath. cbn [as_dir with_files with_items with_blobs].
    pose proof (indexPath_eq s Hd) as E. unfold indexPath in E. rewrite E. unfold within. cbn [fst snd].
    rewrite bool_decide_true, length_cons, Nat.sub_succ_l, Nat.sub_diag by done. cbn [drop andb].
    rewrite drop_0. by rewrite bool_decide_true.
Qed.

Lemma disk_call_ok keep s s' : disk_call keep s s' -> on_disk s -> step_ok keep s s'.
Proof.
  intros [envL env now bs name mime data ? HL He Hn Hbs Hk|envL env now meta data ? HL He Hn Hp Hc Ha Hk
    |env now id ? He Hn|?|env now id pin ? He Hn|env clock now image file dry ? He|?
    |env class cutoff ? He|?|?|?|env ? Hr Ht] Hod.
  - unfold Put. destruct (List.length data =? 0)%nat; [by apply step_ok_refl|]. unfold bindM, liftM.
    cbn [newAttachmentID] in *. set (id := "att1_" +:+ hexEncode bs) in *.
    apply (proj1 (put_step envL env (newMeta id name mime now data) data s0 keep Hod HL He
      (newMeta_ok id name mime now data (plain_app "att1_" _ ltac:(by repeat constructor) (hexEncode_plain bs Hbs)) Hn))).
    intros E. apply Hk. by rewrite <- E.
  - by apply PutExisting_ok.
  - unfold Get. destruct (as_items s0 !! id); [|by apply step_ok_refl].
    destruct (readBlob env s0 id); [|by apply step_ok_refl]. by apply touchLastAccess_ok.
  - by apply touchLastAccess_ok.
  - unfold SetPinState. destruct (_ == ""); [by apply step_ok_refl|].
    destruct (negb _) eqn:Epin; [by apply step_ok_refl|].
    destruct (as_items s0 !! _) as [m|] eqn:Em; [|by apply step_ok_refl].
    destruct (am_PinState m == _); [by apply step_ok_refl|]. apply clock_json in Hn as [Hj Hz].
    eapply touch_ok; [done|done|done|by split_and!|].
    destruct (od_entries _ Hod _ _ Em) as (? & ? & ? & ? & ? & ?). split_and!; [done..| |done|done|done].
    cbn [am_PinState with_access with_pin]. apply negb_false_iff, orb_true_iff in Epin.
    by destruct Epin as [->%bool_decide_eq_true| ->%bool_decide_eq_true].
  - unfold RunGC, runGCLocked. destruct (_ || dry); [by apply step_ok_refl|].
    set (marks := gcMarks _ _ _ _ _).
    assert (Hids : Forall (fun id => is_Some (as_items s0 !! id)) (@rangeMap (ae_rt env) _ marks).*1).
    { apply list.Forall_forall. intros id ([i c] & -> & Hin)%list_elem_of_fmap.
      rewrite rangeMap_perm, elem_of_map_to_list in Hin. apply (gcMarks_in _ _ _ _ _ _ (ex_intro _ c Hin)). }
    destruct (delete_ok env _ s0 keep Hod He Hids) as (s2 & E & H). unfold bindM. by rewrite E.
  - by apply purge_ok.
  - unfold PurgeOlderThanByClass. destruct (_ == ""); [by apply step_ok_refl|]. by apply purge_ok.
  - by apply settings_ok.
  - by apply settings_ok.
  - destruct (od_base _ Hod) as [_ Hp _ _]. apply settings_ok; [done|cbn; by rewrite Hp|done].
  - by apply wipe_ok.
Qed.

(** ** Opening the directory again *)

Lemma normalizeMeta_ok now id m : entry_ok id m -> normalizeMeta now m = (m, false).
Proof.
  intros (_ & Hc & Hp & Ha & _). unfold normalizeMeta. rewrite bool_decide_false, bool_decide_false by done.
  unfold IsZero. by rewrite (proj2 (Z.eqb_neq _ _)).
Qed.

Lemma migrateFiles_ok env ids s :
  disk_ok env -> as_secret s <> "" ->
  Forall (fun id => exists data, holds s id data) ids -> migrateFiles env ids s = (s, Ok tt).
Proof.
  intros (_ & _ & Hr & _) Hs. induction 1 as [|id ids (data & raw & Hf & Hu) _ IH]; [done|].
  cbn [migrateFiles]. unfold bindM, readPath, readFile. rewrite Hr, Hf.
  unfold unseals in Hu. rewrite bool_decide_false in Hu by done. by rewrite Hu.
Qed.

(** The index decodes to what it was encoded from. *)
Definition index_faithful (items : Items) : Prop :=
  let ix := mkIndex attachmentIndexSchemaVersion (Some items) in json_reads ix ix.

(** Opening a directory gives its entries and leaves the files alone. *)
Lemma reopen_ok env envM now s :
  on_disk s -> disk_ok env -> disk_ok envM -> index_faithful (as_items s) ->
  exists s2, NewAttachmentStoreWithSecret env envM now (as_dir s) (as_secret s) (as_files s)
             = (as_files s, Ok s2)
    /\ as_items s2 = as_items s /\ as_files s2 = as_files s /\ as_dir s2 = as_dir s
    /\ as_secret s2 = as_secret s /\ as_blobs s2 = ∅.
Proof.
  intros [[Hd Hp Hbl Hsec] Hok Hf Hix] He HeM (bs & Hm & Hu). unfold NewAttachmentStoreWithSecret.
  rewrite bool_decide_false, Hsec by done. set (s0 := mkAttachmentStore _ _ _ _ _ _ _ _ _).
  unfold load, readPath, readFile. rewrite (proj1 (proj2 (proj2 He))).
  change (as_files s0 !! indexPath s0) with (as_files s !! indexPath s).
  destruct Hix as [[Hi ->]|(raw & bs' & -> & Hne & Hun & Hbs)].
  { exists s0. split_and!; [done|by rewrite Hi|done..]. }
  destruct raw as [|b raw]; [done|].
  assert (bs' = bs) as -> by congruence. set (ix := mkIndex _ _) in *.
  assert (Hopen : openIndex (as_secret s0) (b :: raw) = Ok (bs, false)).
  { unfold openIndex, unseals in *. change (as_secret s0) with (as_secret s).
    case_bool_decide; cbn [negb]; [by subst|]. by rewrite Hun. }
  unfold bindR. rewrite Hopen. cbn [fst snd]. rewrite Hu. cbn [ix_SchemaVersion ix_Items ix].
  change (default (as_items s0) (Some (as_items s))) with (as_items s).
  change (default ∅ (Some (as_items s))) with (as_items s).
  assert (Hmap : fst ∘ normalizeMeta now <$> as_items s = as_items s).
  { apply map_eq. intros id. rewrite lookup_fmap. destruct (as_items s !! id) as [m|] eqn:Em; [|done].
    cbn. f_equal. by rewrite (normalizeMeta_ok now id m (Hok _ _ Em)). }
  assert (Hnorm : existsb (fun '(_, meta) => snd (normalizeMeta now meta)) (@rangeMap (ae_rt env) _ (as_items s)) = false).
  { destruct (existsb _ _) eqn:E; [|done]. apply existsb_exists in E as ([id m] & Hin & E).
    apply list_elem_of_In in Hin. rewrite rangeMap_perm, elem_of_map_to_list in Hin.
    by rewrite (normalizeMeta_ok now id m (Hok _ _ Hin)) in E. }
  rewrite Hmap, Hnorm. rewrite Z.ltb_irrefl. change (attachmentIndexSchemaVersion =? 0) with false.
  cbn [negb andb orb].
  set (s1 := with_items s0 (as_items s)). exists s1.
  change (as_secret s1) with (as_secret s0). destruct (as_secret s0 == "") eqn:Es; cbn [negb].
  - by split_and!.
  - unfold bindM, migrateLegacyFiles. change (as_secret s1) with (as_secret s0). rewrite Es.
    apply bool_decide_eq_false in Es. rewrite (migrateFiles_ok envM _ s1); [by split_and!|done|done|].
    apply list.Forall_forall. intros id ([i m] & -> & Hin)%list_elem_of_fmap.
    rewrite rangeMap_perm, elem_of_map_to_list in Hin. destruct (Hf i) as [data Hh]; [by exists m|].
    by exists data.
Qed.

(** What a file holds is what is read. *)
Lemma readBlob_holds env s id data :
  disk_ok env -> as_dir s <> "" -> as_blobs s = ∅ -> holds s id data -> readBlob env s id = Ok data.
Proof.
  intros (_ & _ & Hr & _) Hd Hbl (raw & Hf & Hu). unfold readBlob. rewrite Hbl, lookup_empty.
  rewrite bool_decide_false by done. unfold readPath, readFile. rewrite Hr, Hf. unfold unseals in Hu.
  case_bool_decide; [by subst|]. by rewrite Hu.
Qed.

(** A store that was just opened on an empty directory is on disk. *)
Lemma new_on_disk dir secret files :
  dir <> "" -> files !! Join dir "index.json" = None ->
  on_disk (mkAttachmentStore dir (TrimSpace secret) ∅ ∅ true (mkLimits 0 0 0 0) (mkHardCap 90 100 75)
             (mkHits 0 0) files).
Proof.
  intros Hd Hf. split.
  - split; [done..|]. apply TrimSpace_idemp.
  - apply map_Forall_empty.
  - intros id [m Hm]. cbn [as_items] in Hm. by rewrite lookup_empty in Hm.
  - by left.
Qed.

(** C12: Attachments survive a restart, byte for byte, as long as persistence stays on and the disk
    works. A store is opened on a directory without an index; any calls follow, an attachment is put
    in, any calls follow: Put, PutExisting, Get, pins, collections, purges, settings and Wipe, with
    a clock in the years 1 to 9999, the identifiers given to PutExisting without a slash and its
    times ones that encoding/json encodes, and nothing put in under the identifier of the
    attachment. If the attachment is then still in the store, a store opened on the same directory
    with the same secret has the same entries, opening leaves the files as they are, and [Get]
    returns the entry, unchanged but for its last access and its pin, with exactly the bytes that
    were put in. (What is put in while persistence is off is in memory only.) *)
Theorem attachments_survive_restart (dir secret : string) (files : gmap path (list Z))
    (envL env env1 envM env2 : AttachmentEnv) (now now1 now2 : Z) (bs : list Z)
    (name mime : string) (data : list Z) (s s1 s2 : AttachmentStore) (meta meta2 : AttachmentMeta) :
  dir <> "" -> files !! Join dir "index.json" = None ->
  rtc (disk_call (am_ID meta))
    (mkAttachmentStore dir (TrimSpace secret) ∅ ∅ true (mkLimits 0 0 0 0) (mkHardCap 90 100 75)
       (mkHits 0 0) files) s ->
  disk_ok envL -> disk_ok env -> clock_ok now -> Forall is_byte bs ->
  Put envL env now (Ok bs) name mime data s = (s1, Ok meta) ->
  rtc (disk_call (am_ID meta)) s1 s2 ->
  as_items s2 !! am_ID meta = Some meta2 -> index_faithful (as_items s2) ->
  disk_ok env1 -> disk_ok envM -> disk_ok env2 ->
  sameBlob meta meta2
  /\ exists s3, NewAttachmentStoreWithSecret env1 envM now1 dir secret (as_files s2) = (as_files s2, Ok s3)
     /\ as_items s3 = as_items s2
     /\ snd (Get env2 now2 (am_ID meta) s3) = Ok (meta2, data).
Proof.
  intros Hdir Hidx Hrun HL He Hn Hbs Hput Hrun2 Hm2 Hfaith He1 HeM He2.
  assert (Hsteps : forall a b, rtc (disk_call (am_ID meta)) a b -> on_disk a -> step_ok (am_ID meta) a b).
  { induction 1 as [|a b c Hab _ IH]; intros Ha; [by apply step_ok_refl|].
    pose proof (disk_call_ok _ _ _ Hab Ha) as H. eapply step_ok_trans; [done|]. apply IH, H. }
  destruct (Hsteps _ _ Hrun (new_on_disk dir secret files Hdir Hidx)) as (Hod & _ & Hd0 & Hs0).
  cbn [as_dir as_secret] in Hd0, Hs0. unfold Put in Hput. destruct (List.length data =? 0)%nat; [done|].
  unfold bindM, liftM, newAttachmentID, bindR in Hput. set (id := "att1_" +:+ hexEncode bs) in *.
  pose proof (newMeta_ok id name mime now data
    (plain_app "att1_" _ ltac:(by repeat constructor) (hexEncode_plain bs Hbs)) Hn) as Hentry.
  destruct (put_step envL env (newMeta id name mime now data) data s id Hod HL He Hentry) as [_ Hok].
  rewrite Hput in Hok.
  destruct (Hok _ eq_refl) as (-> & Hod1 & Hi1 & Hh1 & Hd1 & Hs1). cbn [fst] in *.
  destruct (Hsteps _ _ Hrun2 Hod1) as (Hod2 & Hk2 & Hd2 & Hs2).
  destruct (Hk2 _ Hm2) as (m1 & Hm1 & Hsame & Hbytes). rewrite Hi1 in Hm1. injection Hm1 as <-.
  split; [done|]. assert (Edir : dir = as_dir s2) by congruence.
  destruct (reopen_ok env1 envM now1 s2 Hod2 He1 HeM Hfaith) as (s3 & Hnew & Hi3 & Hf3 & Hd3 & Hs3 & Hb3).
  exists s3. split_and!; [|done|].
  - rewrite Edir, <- Hnew. unfold NewAttachmentStoreWithSecret. by rewrite Hs2, Hs1, Hs0, TrimSpace_idemp.
  - unfold Get. rewrite Hi3, Hm2.
    rewrite (readBlob_holds env2 s3 _ data He2); [done|congruence|done|].
    destruct (Hbytes _ Hh1) as (raw & Hr & Hu). exists raw. unfold filePath. by rewrite Hf3, Hd3, Hs3.
Qed.
End Disk.

(** ** Examples *)

#[export] Instance exIndexCodecLaws : IndexCodecLaws exIndexCodec.
Proof. constructor. intros items _. eexists. split; [|reflexivity]. done. Qed.

Lemma ex_index_faithful items : index_faithful items.
Proof.
  eexists. split; [reflexivity|]. cbn [unmarshalJSON exIndexCodec]. by rewrite decode_encode.
Qed.

Lemma ex_disk_ok : disk_ok ex_att_env.
Proof. split; [intros p; apply ex_random_ok|]. done. Qed.

Definition ex_dir : AttachmentStore :=
  mkAttachmentStore "att" (TrimSpace "secret") ∅ ∅ true (mkLimits 0 0 0 0) (mkHardCap 90 100 75)
    (mkHits 0 0) ∅.
Definition ex_dir1 : AttachmentStore := fst (PutExisting ex_att_env ex_att_env 10 (ex_image "old" 10 3) [7; 8; 9] ex_dir).
Definition ex_dir2 : AttachmentStore := fst (Put ex_att_env ex_att_env 20 (Ok [17]) "n" "text/plain" [1; 2] ex_dir1).
Definition ex_dir3 : AttachmentStore := fst (SetPinState ex_att_env 30 "att1_11" "pinned" ex_dir2).

Lemma attachments_survive_restart_witness :
  exists s3, NewAttachmentStoreWithSecret ex_att_env ex_att_env 50 "att" "secret" (as_files ex_dir3)
             = (as_files ex_dir3, Ok s3)
    /\ as_items s3 = as_items ex_dir3
    /\ snd (Get ex_att_env 60 "att1_11" s3)
       = Ok (mkMeta "att1_11" "n" "text/plain" "file" 30 "pinned" 2 20, [1; 2]).
Proof.
  pose proof (attachments_survive_restart "att" "secret" ∅ ex_att_env ex_att_env ex_att_env ex_att_env
    ex_att_env 20 50 60 [17] "n" "text/plain" [1; 2] ex_dir1 ex_dir2 ex_dir3
    (newMeta "att1_11" "n" "text/plain" 20 [1; 2])
    (mkMeta "att1_11" "n" "text/plain" "file" 30 "pinned" 2 20)) as H.
  apply H; clear H; try apply ex_disk_ok.
  - done.
  - reflexivity.
  - apply rtc_once. apply dc_put_existing; try apply ex_disk_ok; try done.
    repeat (constructor; [discriminate|]). constructor.
  - done.
  - by repeat constructor.
  - apply injective_projections; [reflexivity|vm_compute; reflexivity].
  - apply rtc_once. apply dc_pin; [apply ex_disk_ok|done].
  - vm_compute. reflexivity.
  - apply ex_index_faithful.
Defined.

(** What is put in while persistence is off is gone after a restart, although persistence was turned on again. *)
Example put_without_persistence_is_lost :
  let s := SetPersistenceEnabled true
             (fst (Put ex_att_env ex_att_env 20 (Ok [17]) "n" "text/plain" [1; 2] (SetPersistenceEnabled false ex_dir))) in
  is_Some (as_items s !! "att1_11")
  /\ match NewAttachmentStoreWithSecret ex_att_env ex_att_env 50 "att" "secret" (as_files s) with
     | (_, Ok s2) => as_items s2 = ∅
     | _ => False
     end.
Proof. vm_compute. split; [by eexists|done]. Qed.
