(* ===== verification/AttachmentUpload.v ===== *)
(** * Uploading attachments in chunks

    Models internal/domains/identity/usecase/attachment_chunk_upload.go, the attachment half of
    usecase/service.go, and the checks of policy/input_validation.go and policy/image_safety.go.
    The state is the map of upload sessions and the attachment store they end in. The image
    codecs and SHA-256 are parameters. *)
From stdpp Require Import base gmap strings list sets option list_numbers.
From Stdlib Require Import ZArith Lia Ascii String.
From S2P Require Import Prelude Encoding SecureStore AttachmentStore.
Open Scope string_scope.
Open Scope Z_scope.
Open Scope go_scope.

(** ** Images *)

(** net/http.DetectContentType and the decoders and encoders of the package image. *)
Class ImageCodec := {
  image : Type;
  DetectContentType : list Z -> string;
  DecodeConfig : list Z -> option (Z * Z * string);
  DecodeImage : list Z -> option image;
  jpegEncode : Z -> image -> option (list Z);
  pngEncode : image -> option (list Z)
}.

Definition maxImageWidth : Z := 8192.
Definition maxImageHeight : Z := 8192.
Definition maxImagePixels : Z := 30000000.
Definition jpegQuality : Z := 85.
Definition errInvalidImagePayload : error := errorsNew "invalid image payload".

Definition isSupportedImageMime (mimeType : string) : bool :=
  (mimeType == "image/jpeg") || (mimeType == "image/png") || (mimeType == "image/gif").

Definition isSafeImageBounds (width height : Z) : bool :=
  if (width <=? 0) || (height <=? 0) then false else
  if (maxImageWidth <? width) || (maxImageHeight <? height) then false else
  s64 (width * height) <=? maxImagePixels.

Section Payload.
Context {lower : GoLower} {codec : ImageCodec}.

Definition isClaimedImageMime (mimeType : string) : bool :=
  HasPrefix (ToLower (TrimSpace mimeType)) "image/".

Definition imageFormatToMime (format : string) : option string :=
  let f := ToLower (TrimSpace format) in
  if f == "jpeg" then Some "image/jpeg" else if f == "png" then Some "image/png"
  else if f == "gif" then Some "image/gif" else None.

(** The switch on the format: jpeg and png are encoded anew. *)
Definition reencode (format : string) (data : list Z) : result error (list Z) :=
  let encode (enc : image -> option (list Z)) :=
    match DecodeImage data with
    | None => Err errInvalidImagePayload
    | Some img => match enc img with Some buf => Ok buf | None => Err errInvalidImagePayload end
    end in
  if format == "jpeg" then encode (jpegEncode jpegQuality) else
  if format == "png" then encode pngEncode else Ok data.

Definition sizeOf (data : list Z) : Z := Z.of_nat (List.length data).

Definition normalizeAttachmentPayload (name mimeType : string) (data : list Z) (maxBytes : Z)
    : result error (string * string * list Z) :=
  let name := TrimSpace name in
  let mimeType := TrimSpace mimeType in
  if (name == "") || (sizeOf data =? 0)
  then Err (errorsNew "attachment name and data are required") else
  if maxBytes <? sizeOf data then Err (errorsNew "attachment exceeds maximum size") else
  if negb (isClaimedImageMime mimeType) then Ok (name, mimeType, data) else
  let detectedMime := ToLower (TrimSpace (DetectContentType data)) in
  if negb (isSupportedImageMime detectedMime) then Err errInvalidImagePayload else
  match DecodeConfig data with
  | None => Err errInvalidImagePayload
  | Some (width, height, format) =>
      if negb (isSafeImageBounds width height)
      then Err (errorsNew "image dimensions exceed safety limits") else
      match imageFormatToMime format with
      | None => Err errInvalidImagePayload
      | Some canonicalMime =>
          try! normalized := reencode format data in
          if (sizeOf normalized =? 0) || (maxBytes <? sizeOf normalized)
          then Err (errorsNew "attachment exceeds maximum size") else
          Ok (name, canonicalMime, normalized)
      end
  end.

Definition maxAttachmentBytes : Z := 5 * 1024 * 1024.
Definition maxChunkedAttachmentMB : Z := 64.
Definition maxChunkedAttachmentBytes : Z := maxChunkedAttachmentMB * 1024 * 1024.
Definition minAttachmentChunkSize : Z := 16 * 1024.
Definition maxAttachmentChunkSize : Z := 1024 * 1024.

Definition NormalizeDirectAttachmentPayload (name mimeType : string) (data : list Z) :=
  normalizeAttachmentPayload name mimeType data maxAttachmentBytes.
Definition NormalizeChunkedAttachmentPayload (name mimeType : string) (data : list Z) :=
  normalizeAttachmentPayload name mimeType data maxChunkedAttachmentBytes.

(** ** Input checks *)

Definition DecodeAttachmentInput (name mimeType dataBase64 : string)
    : result error (string * string * list Z) :=
  let name := TrimSpace name in
  let mimeType := TrimSpace mimeType in
  let dataBase64 := TrimSpace dataBase64 in
  if (name == "") || (dataBase64 == "")
  then Err (errorsNew "attachment name and data are required") else
  if maxAttachmentBytes <? DecodedLen (Z.of_nat (String.length dataBase64))
  then Err (errorsNew "attachment exceeds maximum size") else
  match DecodeString dataBase64 with
  | None => Err (errorsNew "invalid attachment encoding")
  | Some data =>
      if maxAttachmentBytes <? sizeOf data then Err (errorsNew "attachment exceeds maximum size")
      else NormalizeDirectAttachmentPayload name mimeType data
  end.

Definition ValidateAttachmentID (attachmentID : string) : result error string :=
  let attachmentID := TrimSpace attachmentID in
  if attachmentID == "" then Err (errorsNew "attachment id is required") else Ok attachmentID.

Definition ValidateAttachmentUploadInit (name mimeType : string)
    (totalSize totalChunks chunkSize : Z) : result error (string * string * Z * Z * Z) :=
  let name := TrimSpace name in
  let mimeType := TrimSpace mimeType in
  if name == "" then Err (errorsNew "attachment name is required") else
  if (totalSize <=? 0) || (maxChunkedAttachmentBytes <? totalSize)
  then Err (errorsNew "attachment exceeds maximum size") else
  if (totalChunks <=? 0) || (10000 <? totalChunks) then Err (errorsNew "invalid chunk count") else
  if (chunkSize <? minAttachmentChunkSize) || (maxAttachmentChunkSize <? chunkSize)
  then Err (errorsNew "invalid chunk size") else
  if totalSize <=? s64 (s64 (totalChunks - 1) * chunkSize)
  then Err (errorsNew "invalid chunk manifest") else
  Ok (name, mimeType, totalSize, totalChunks, chunkSize).

Definition ValidateAttachmentChunkInput (uploadID : string) (index : Z) (data : list Z)
    (expectedChunkSize totalSize totalChunks : Z) : result error string :=
  let uploadID := TrimSpace uploadID in
  if uploadID == "" then Err (errorsNew "upload id is required") else
  if (index <? 0) || (totalChunks <=? index) then Err (errorsNew "invalid chunk index") else
  if sizeOf data =? 0 then Err (errorsNew "chunk data is required") else
  if (index <? totalChunks - 1) && negb (sizeOf data =? expectedChunkSize)
  then Err (errorsNew "invalid chunk size") else
  let remaining := s64 (totalSize - s64 (expectedChunkSize * (totalChunks - 1))) in
  if (index =? totalChunks - 1) && ((remaining <=? 0) || negb (sizeOf data =? remaining))
  then Err (errorsNew "invalid final chunk size") else
  Ok uploadID.

Definition isLowerHex (a : ascii) : bool :=
  let n := nat_of_ascii a in
  ((48 <=? n)%nat && (n <=? 57)%nat) || ((97 <=? n)%nat && (n <=? 102)%nat).

Definition NormalizeOptionalSHA256Hex (raw field : string) : result error string :=
  let value := ToLower (TrimSpace raw) in
  let invalid := errorsNew ("invalid " +:+ field +:+ " digest") in
  if value == "" then Ok "" else
  if negb (String.length value =? 64)%nat then Err invalid else
  if forallb isLowerHex (list_ascii_of_string value) then Ok value else Err invalid.
End Payload.

(** ** Sessions *)

Record attachmentUploadSession := mkSession {
  us_ID : string; us_Name : string; us_MimeType : string; us_TotalSize : Z; us_TotalChunks : Z;
  us_ChunkSize : Z; us_FileSHA256 : string; us_Chunks : gmap Z (list Z); us_UpdatedAt : Z
}.

Record AttachmentUploadInitResult := mkInitResult { ui_UploadID : string; ui_TotalChunks : Z; ui_ChunkSize : Z }.
Record AttachmentUploadChunkResult := mkChunkResult {
  uc_UploadID : string; uc_ReceivedChunk : Z; uc_ReceivedCount : Z; uc_TotalChunks : Z
}.
Record AttachmentUploadStatus := mkUploadStatus {
  ut_UploadID : string; ut_ReceivedCount : Z; ut_TotalChunks : Z; ut_NextChunk : Z
}.

(** The upload sessions of the service, and its attachment store. *)
Record UploadService := mkUploadService {
  up_uploads : gmap string attachmentUploadSession; up_store : AttachmentStore
}.

Definition with_uploads (s : UploadService) (u : gmap string attachmentUploadSession) : UploadService :=
  mkUploadService u (up_store s).

Definition uploadTTL : Z := 15 * Minute.

Definition purgeExpiredAttachmentUploads (now : Z) (s : UploadService) : UploadService :=
  with_uploads s
    (filter (fun e => timeSub now (us_UpdatedAt e.2) <= uploadTTL) (up_uploads s)).

(** The chunks in order, none missing. *)
Definition assemble (chunks : gmap Z (list Z)) (totalChunks : Z) : option (list Z) :=
  fold_left (fun data i =>
    match data, chunks !! i with
    | Some data, Some chunk => Some (data ++ chunk)%list
    | _, _ => None
    end) (seqZ 0 totalChunks) (Some []).

(** The loop of [GetAttachmentUploadStatus], [n] rounds before the end. *)
Fixpoint nextChunk (chunks : gmap Z (list Z)) (i : Z) (n : nat) : Z :=
  match n with
  | O => i
  | S n => match chunks !! i with None => i | Some _ => nextChunk chunks (i + 1) n end
  end.

Section Service.
Context {cipher : Cipher} {ecodec : EnvelopeCodec} {lower : GoLower} {fold : GoFold}
        {json : JsonCodec attachmentIndex} {codec : ImageCodec} (sha256 : list Z -> list Z).

Abbreviation op := (M UploadService error).

(** A call on the attachment store. *)
Definition onStore {A} (c : M AttachmentStore error A) : op A := fun s =>
  let '(st, r) := c (up_store s) in (mkUploadService (up_uploads s) st, r).

Definition PutAttachment (envL env : AttachmentEnv) (now : Z) (buf : result error (list Z))
    (name mimeType dataBase64 : string) : op AttachmentMeta :=
  let! '(name, mimeType, data) := liftM (DecodeAttachmentInput name mimeType dataBase64) in
  onStore (Put envL env now buf name mimeType data).

Definition GetAttachment (env : AttachmentEnv) (now : Z) (attachmentID : string)
    : op (AttachmentMeta * list Z) :=
  let! attachmentID := liftM (ValidateAttachmentID attachmentID) in
  onStore (Get env now attachmentID).

Definition newUploadID (buf : result error (list Z)) : result error string :=
  try! buf := buf in Ok ("upl_" +:+ hexEncode buf).

Definition InitAttachmentUpload (buf : result error (list Z)) (now : Z) (name mimeType : string)
    (totalSize totalChunks chunkSize : Z) (fileSHA256 : string) : op AttachmentUploadInitResult :=
  let! '(name, mimeType, totalSize, totalChunks, chunkSize) :=
    liftM (ValidateAttachmentUploadInit name mimeType totalSize totalChunks chunkSize) in
  let! fileSHA256 := liftM (NormalizeOptionalSHA256Hex fileSHA256 "file") in
  let! uploadID := liftM (newUploadID buf) in
  modifyM (fun s =>
    let s := purgeExpiredAttachmentUploads now s in
    with_uploads s (<[uploadID := mkSession uploadID name mimeType totalSize totalChunks chunkSize
                                    fileSHA256 ∅ now]> (up_uploads s))) ;;!
  retM (mkInitResult uploadID totalChunks chunkSize).

Definition withChunk (s : attachmentUploadSession) (index : Z) (data : list Z) (now : Z)
    : attachmentUploadSession :=
  mkSession (us_ID s) (us_Name s) (us_MimeType s) (us_TotalSize s) (us_TotalChunks s)
    (us_ChunkSize s) (us_FileSHA256 s) (<[index := data]> (us_Chunks s)) now.

(** [now] is read for the purge, [now'] when the chunk is kept. *)
Definition PutAttachmentChunk (now now' : Z) (uploadID : string) (chunkIndex : Z)
    (dataBase64 chunkSHA256 : string) : op AttachmentUploadChunkResult :=
  let! chunkSHA256 := liftM (NormalizeOptionalSHA256Hex chunkSHA256 "chunk") in
  match DecodeString (TrimSpace dataBase64) with
  | None => failM (errorsNew "invalid attachment encoding")
  | Some data =>
      modifyM (purgeExpiredAttachmentUploads now) ;;!
      fun s =>
        match up_uploads s !! TrimSpace uploadID with
        | None => (s, Err (errorsNew "upload session not found"))
        | Some session =>
            match ValidateAttachmentChunkInput uploadID chunkIndex data (us_ChunkSize session)
                    (us_TotalSize session) (us_TotalChunks session) with
            | Err err => (s, Err err)
            | Ok uploadID =>
                if negb (chunkSHA256 == "") && negb (hexEncode (sha256 data) == chunkSHA256)
                then (s, Err (errorsNew "chunk integrity check failed")) else
                let session := withChunk session chunkIndex data now' in
                (with_uploads s (<[uploadID := session]> (up_uploads s)),
                 Ok (mkChunkResult uploadID chunkIndex (Z.of_nat (size (us_Chunks session)))
                       (us_TotalChunks session)))
            end
        end
  end.

Definition GetAttachmentUploadStatus (now : Z) (uploadID : string) : op AttachmentUploadStatus :=
  modifyM (purgeExpiredAttachmentUploads now) ;;!
  fun s =>
    match up_uploads s !! TrimSpace uploadID with
    | None => (s, Err (errorsNew "upload session not found"))
    | Some session =>
        (s, Ok (mkUploadStatus (us_ID session) (Z.of_nat (size (us_Chunks session)))
                  (us_TotalChunks session)
                  (nextChunk (us_Chunks session) 0 (Z.to_nat (us_TotalChunks session)))))
    end.

(** The checks of a commit, up to the payload. *)
Definition commitPayload (session : attachmentUploadSession) : result error (string * string * list Z) :=
  match assemble (us_Chunks session) (us_TotalChunks session) with
  | None => Err (errorsNew "upload is incomplete")
  | Some data =>
      if negb (sizeOf data =? us_TotalSize session) then Err (errorsNew "invalid upload size") else
      if negb (us_FileSHA256 session == "") && negb (hexEncode (sha256 data) == us_FileSHA256 session)
      then Err (errorsNew "file integrity check failed") else
      NormalizeChunkedAttachmentPayload (us_Name session) (us_MimeType session) data
  end.

Definition CommitAttachmentUpload (envL env : AttachmentEnv) (now nowPut : Z)
    (buf : result error (list Z)) (uploadID : string) : op AttachmentMeta :=
  let uploadID := TrimSpace uploadID in
  if uploadID == "" then failM (errorsNew "upload id is required") else
  modifyM (purgeExpiredAttachmentUploads now) ;;!
  fun s =>
    match up_uploads s !! uploadID with
    | None => (s, Err (errorsNew "upload session not found"))
    | Some session =>
        match commitPayload session with
        | Err err => (s, Err err)
        | Ok (name, mimeType, normalized) =>
            onStore (Put envL env nowPut buf name mimeType normalized)
              (with_uploads s (delete uploadID (up_uploads s)))
        end
    end.

(** ** What the checks let through *)

(** The payload that is stored: named, not empty, not too large, and an image only as one of three
    formats within the bounds. *)
Lemma normalizeAttachmentPayload_ok name mime data maxBytes name' mime' data' :
  normalizeAttachmentPayload name mime data maxBytes = Ok (name', mime', data') ->
  name' = TrimSpace name /\ name' <> "" /\ 0 < sizeOf data' <= maxBytes
  /\ (isClaimedImageMime (TrimSpace mime) = false -> mime' = TrimSpace mime /\ data' = data)
  /\ (isClaimedImageMime (TrimSpace mime) = true ->
      isSupportedImageMime mime' = true
      /\ exists w h format, DecodeConfig data = Some (w, h, format) /\ isSafeImageBounds w h = true).
Proof.
  unfold normalizeAttachmentPayload. case_bool_decide as Hn; [done|].
  destruct (Z.eqb_spec (sizeOf data) 0) as [|Hz]; [done|]. cbn [orb].
  destruct (Z.ltb_spec maxBytes (sizeOf data)); [done|].
  assert (0 < sizeOf data) by (unfold sizeOf in *; lia).
  destruct (isClaimedImageMime (TrimSpace mime)); cbn [negb].
  - destruct (isSupportedImageMime _); [|done]. cbn [negb].
    destruct (DecodeConfig data) as [[[w h] format]|]; [|done].
    destruct (isSafeImageBounds w h) eqn:Hb; [|done]. cbn [negb].
    destruct (imageFormatToMime format) as [m|] eqn:Hm; [|done]. unfold bindR.
    destruct (reencode format data) as [out|]; [|done].
    destruct (Z.eqb_spec (sizeOf out) 0); [done|]. destruct (Z.ltb_spec maxBytes (sizeOf out)); [done|].
    cbn [orb]. intros [= <- <- <-]. split_and!; try done; [unfold sizeOf in *; lia|].
    intros _. split; [|by eauto]. unfold imageFormatToMime in Hm. cbv zeta in Hm.
    repeat case_bool_decide; by simplify_eq.
  - intros [= <- <- <-]. by split_and!.
Qed.

(** ** Chunks of a file *)

(** Chunk [i] of [n]: [size] bytes, the last one what is left. *)
Definition chunkOf (data : list Z) (n size i : Z) : list Z :=
  let rest := drop (Z.to_nat (i * size)) data in
  if i =? n - 1 then rest else take (Z.to_nat size) rest.

Lemma assemble_S chunks (k : nat) :
  assemble chunks (Z.of_nat (S k))
  = match assemble chunks (Z.of_nat k), chunks !! Z.of_nat k with
    | Some data, Some chunk => Some (data ++ chunk)%list
    | _, _ => None
    end.
Proof. unfold assemble. by rewrite seqZ_S, fold_left_app, Z.add_0_l. Qed.

Lemma assemble_chunks data n size chunks :
  0 < n -> 0 < size -> (forall i, 0 <= i < n -> chunks !! i = Some (chunkOf data n size i)) ->
  assemble chunks n = Some data.
Proof.
  intros Hn Hsize Hc.
  assert (Hk : forall k : nat, Z.of_nat k < n ->
    assemble chunks (Z.of_nat k) = Some (take (Z.to_nat (Z.of_nat k * size)) data)).
  { induction k as [|k IH]; intros Hk; [by rewrite take_0|].
    rewrite assemble_S, IH, Hc by lia. unfold chunkOf. rewrite (proj2 (Z.eqb_neq _ _)) by lia.
    f_equal. rewrite take_take_drop. f_equal. lia. }
  replace n with (Z.of_nat (S (Z.to_nat (n - 1)))) by lia.
  rewrite assemble_S, Hk by lia. rewrite Z2Nat.id by lia. rewrite Hc by lia. unfold chunkOf.
  rewrite Z.eqb_refl. by rewrite take_drop.
Qed.

Lemma chunkOf_length data n size i :
  0 < size -> 0 <= i < n -> (n - 1) * size < sizeOf data ->
  sizeOf (chunkOf data n size i) = if i =? n - 1 then sizeOf data - size * (n - 1) else size.
Proof.
  intros Hs Hi Ht. unfold chunkOf, sizeOf in *. destruct (Z.eqb_spec i (n - 1)) as [->|Hne].
  - rewrite length_drop. assert (0 <= (n - 1) * size) by nia. lia.
  - rewrite length_take, length_drop. assert (0 <= i * size) by nia.
    assert (i * size + size <= (n - 1) * size) by nia. lia.
Qed.

(** ** Reassembly *)

Inductive UploadCall :=
| UInit (buf : result error (list Z)) (now : Z) (name mimeType : string)
    (totalSize totalChunks chunkSize : Z) (fileSHA256 : string)
| UChunk (now now' : Z) (uploadID : string) (chunkIndex : Z) (dataBase64 chunkSHA256 : string)
| UStatus (now : Z) (uploadID : string)
| UCommit (envL env : AttachmentEnv) (now nowPut : Z) (buf : result error (list Z)) (uploadID : string).

Definition run_upload (s : UploadService) (c : UploadCall) : UploadService :=
  match c with
  | UInit buf now name mime total chunks size sha =>
      fst (InitAttachmentUpload buf now name mime total chunks size sha s)
  | UChunk now now' id i data sha => fst (PutAttachmentChunk now now' id i data sha s)
  | UStatus now id => fst (GetAttachmentUploadStatus now id s)
  | UCommit envL env now nowPut buf id => fst (CommitAttachmentUpload envL env now nowPut buf id s)
  end.

(** A call in the time to live of the upload [u] that spoils nothing of it: no new upload gets its
    identifier, a chunk sent for it is that of [data], and it is not committed yet. *)
Definition gentle (u : string) (t0 : Z) (data : list Z) (n size : Z) (c : UploadCall) : Prop :=
  let timely t := t0 <= t <= t0 + uploadTTL in
  match c with
  | UInit buf now _ _ _ _ _ _ => timely now /\ newUploadID buf <> Ok u
  | UChunk now now' id i data64 _ =>
      timely now /\ timely now'
      /\ (TrimSpace id = u -> 0 <= i < n -> DecodeString (TrimSpace data64) = Some (chunkOf data n size i))
  | UStatus now _ => timely now
  | UCommit _ _ now _ _ id => timely now /\ TrimSpace id <> u
  end.

(** A call that brings chunk [i], with its digest or with none. *)
Definition delivers (u : string) (data : list Z) (n size i : Z) (c : UploadCall) : Prop :=
  match c with
  | UChunk _ _ id j data64 sha =>
      TrimSpace id = u /\ j = i /\ DecodeString (TrimSpace data64) = Some (chunkOf data n size i)
      /\ exists d, NormalizeOptionalSHA256Hex sha "chunk" = Ok d
         /\ (d = "" \/ d = hexEncode (sha256 (chunkOf data n size i)))
  | _ => False
  end.

(** The session of [u] while chunks of [data] come in; those of [got] are there. *)
Record collecting (u : string) (t0 : Z) (data : list Z) (n size : Z) (sha name mime : string)
    (got : Z -> Prop) (s : attachmentUploadSession) : Prop := mkCollecting {
  co_manifest : (us_Name s, us_MimeType s, us_TotalSize s, us_TotalChunks s, us_ChunkSize s, us_FileSHA256 s)
                = (name, mime, sizeOf data, n, size, sha);
  co_time : t0 <= us_UpdatedAt s <= t0 + uploadTTL;
  co_chunks : forall i c, us_Chunks s !! i = Some c -> 0 <= i < n /\ c = chunkOf data n size i;
  co_got : forall i, got i -> is_Some (us_Chunks s !! i)
}.

Lemma purge_keeps t0 now s u session :
  t0 <= now <= t0 + uploadTTL -> t0 <= us_UpdatedAt session <= t0 + uploadTTL ->
  up_uploads s !! u = Some session ->
  up_uploads (purgeExpiredAttachmentUploads now s) !! u = Some session.
Proof.
  intros Ht Hu Hs. unfold purgeExpiredAttachmentUploads. cbn [up_uploads with_uploads].
  rewrite map_lookup_filter, Hs. cbn. rewrite option_guard_True; [done|].
  cbn. unfold timeSub, uploadTTL, Minute, Second in *. lia.
Qed.

Lemma ValidateInit_ok name mime total n size r :
  ValidateAttachmentUploadInit name mime total n size = Ok r ->
  r = (TrimSpace name, TrimSpace mime, total, n, size)
  /\ 0 < n <= 10000 /\ 0 < size <= maxAttachmentChunkSize /\ 0 < total <= maxChunkedAttachmentBytes
  /\ (n - 1) * size < total.
Proof.
  unfold ValidateAttachmentUploadInit, maxChunkedAttachmentBytes, maxChunkedAttachmentMB,
    minAttachmentChunkSize, maxAttachmentChunkSize.
  case_bool_decide; [done|].
  destruct (Z.leb_spec total 0); [done|]. destruct (Z.ltb_spec (64 * 1024 * 1024) total); [done|].
  destruct (Z.leb_spec n 0); [done|]. destruct (Z.ltb_spec 10000 n); [done|].
  destruct (Z.ltb_spec size (16 * 1024)); [done|]. destruct (Z.ltb_spec (1024 * 1024) size); [done|].
  cbn [orb]. rewrite (s64_small (n - 1)) by lia. rewrite s64_small by nia.
  destruct (Z.leb_spec total ((n - 1) * size)); [done|]. intros [= <-]. split_and!; (done || lia).
Qed.

(** A chunk of the file passes the checks. *)
Lemma ValidateChunk_chunkOf id data n size i :
  TrimSpace id <> "" -> 0 < n <= 10000 -> 0 < size <= maxAttachmentChunkSize ->
  sizeOf data <= maxChunkedAttachmentBytes -> (n - 1) * size < sizeOf data -> 0 <= i < n ->
  ValidateAttachmentChunkInput id i (chunkOf data n size i) size (sizeOf data) n = Ok (TrimSpace id).
Proof.
  unfold maxChunkedAttachmentBytes, maxChunkedAttachmentMB, maxAttachmentChunkSize.
  intros Hid Hn Hs Ht Hm Hi. unfold ValidateAttachmentChunkInput. rewrite bool_decide_false by done.
  rewrite (proj2 (Z.ltb_ge i 0)), (proj2 (Z.leb_gt n i)) by lia. cbn [orb].
  pose proof (chunkOf_length data n size i ltac:(lia) Hi Hm) as Hl.
  rewrite (s64_small (size * (n - 1))) by nia. rewrite s64_small by nia. rewrite Hl.
  destruct (Z.eqb_spec i (n - 1)) as [->|Hne].
  - rewrite (proj2 (Z.eqb_neq _ 0)) by lia. rewrite Z.ltb_irrefl, Z.eqb_refl.
    rewrite (proj2 (Z.leb_gt _ 0)) by lia. done.
  - rewrite (proj2 (Z.eqb_neq _ 0)) by lia. rewrite Z.eqb_refl. by rewrite andb_false_r.
Qed.

(** An upload of a file, as [InitAttachmentUpload] accepts it. *)
Record upload_params (u : string) (data : list Z) (n size : Z) : Prop := mkParams {
  pa_id : u <> ""; pa_n : 0 < n <= 10000; pa_size : 0 < size <= maxAttachmentChunkSize;
  pa_total : sizeOf data <= maxChunkedAttachmentBytes; pa_last : (n - 1) * size < sizeOf data
}.

Section Collecting.
Context (u : string) (t0 : Z) (data : list Z) (n size : Z) (sha name mime : string)
        (params : upload_params u data n size).

Abbreviation collecting' := (collecting u t0 data n size sha name mime).

(** The session that is there, and the chunks it has. *)
Definition open_with (got : Z -> Prop) (s : UploadService) : Prop :=
  exists session, up_uploads s !! u = Some session /\ collecting' got session.

Lemma open_weaken got got' s : open_with got s -> (forall i, got' i -> got i) -> open_with got' s.
Proof. intros (x & Hx & [? ? ? Hg]) H. exists x. split; [done|]. by split; [..|auto]. Qed.

Lemma open_purge now got s :
  t0 <= now <= t0 + uploadTTL -> open_with got s -> open_with got (purgeExpiredAttachmentUploads now s).
Proof. intros Ht (x & Hx & Hc). exists x. split; [by eapply purge_keeps, Hx; [|apply Hc]|done]. Qed.

Lemma open_other id session got s :
  id <> u -> open_with got s -> open_with got (with_uploads s (<[id := session]> (up_uploads s))).
Proof. intros Hne (x & Hx & Hc). exists x. split; [|done]. cbn. by rewrite lookup_insert_ne. Qed.

(** A chunk of the file is added. *)
Lemma withChunk_collecting got session i now :
  t0 <= now <= t0 + uploadTTL -> 0 <= i < n -> collecting' got session ->
  collecting' (fun j => got j \/ j = i) (withChunk session i (chunkOf data n size i) now).
Proof.
  intros Ht Hi [Hm Htm Hc Hg]. split; [done|done| |].
  - intros j c. cbn [us_Chunks withChunk]. rewrite lookup_insert_Some. intros [[<- <-]|[_ Hj]]; auto.
  - intros j [Hj| ->]; cbn [us_Chunks withChunk].
    + destruct (decide (i = j)) as [->|Hne]; [by rewrite lookup_insert_eq|].
      rewrite lookup_insert_ne by done. auto.
    + by rewrite lookup_insert_eq.
Qed.

(** One chunk for the upload. *)
Lemma chunk_step now now' id i data64 digest got s :
  gentle u t0 data n size (UChunk now now' id i data64 digest) -> open_with got s ->
  open_with (fun j => got j \/ 0 <= j < n /\ delivers u data n size j (UChunk now now' id i data64 digest))
    (fst (PutAttachmentChunk now now' id i data64 digest s)).
Proof.
  intros (Ht & Ht' & Hdata) Hopen. unfold PutAttachmentChunk, bindM, liftM, modifyM, failM.
  destruct (NormalizeOptionalSHA256Hex digest "chunk") as [d|e] eqn:Ed;
    [|eapply open_weaken; [done|]; intros j [|[_ (_ & _ & _ & d & Hd & _)]]; [done|congruence]].
  destruct (DecodeString (TrimSpace data64)) as [bs|] eqn:Eb;
    [|eapply open_weaken; [done|]; intros j [|[_ (_ & _ & Hd & _)]]; [done|congruence]].
  pose proof (open_purge now got s Ht Hopen) as Hp. set (s1 := purgeExpiredAttachmentUploads now s) in *.
  destruct (decide (TrimSpace id = u)) as [Hid|Hid].
  2: { assert (Hw : forall x, open_with got x -> open_with (fun j => got j \/ 0 <= j < n
         /\ delivers u data n size j (UChunk now now' id i data64 digest)) x)
         by (intros x Hx; eapply open_weaken; [exact Hx|]; intros j [|[_ (? & _)]]; [done|congruence]).
       destruct (up_uploads s1 !! TrimSpace id); [|by apply Hw].
       destruct (ValidateAttachmentChunkInput _ _ _ _ _ _) as [id'|] eqn:Ev; [|by apply Hw].
       destruct (_ && _); [by apply Hw|]. apply Hw, open_other; [|done].
       unfold ValidateAttachmentChunkInput in Ev. repeat case_match; congruence. }
  rewrite Hid. destruct Hp as (session & Hs & Hc). rewrite Hs. pose proof (co_manifest _ _ _ _ _ _ _ _ _ _ Hc) as Hm.
  injection Hm as _ _ -> -> -> _. destruct (decide (0 <= i < n)) as [Hi|Hi].
  - specialize (Hdata Hid Hi). assert (bs = chunkOf data n size i) as -> by congruence.
    destruct params. rewrite ValidateChunk_chunkOf by (done || congruence). rewrite Hid.
    destruct (negb (d == "") && _) eqn:Edig; cbn [fst].
    + exists session. split; [done|]. destruct Hc as [? ? ? Hg]. split; [done..|].
      intros j [|[_ (_ & <- & _ & d' & Hd' & Hor)]]; [auto|]. exfalso.
      assert (d' = d) as -> by congruence. destruct Hor as [-> | ->]; [done|].
      rewrite andb_true_iff, !negb_true_iff, !bool_decide_eq_false in Edig. by destruct Edig.
    + exists (withChunk session i (chunkOf data n size i) now'). cbn [up_uploads with_uploads].
      rewrite lookup_insert_eq. split; [done|].
      destruct (withChunk_collecting got session i now' Ht' Hi Hc) as [? ? ? Hg]. split; [done..|].
      intros j [|[_ (_ & -> & _)]]; apply Hg; auto.
  - assert (Ev : exists e, ValidateAttachmentChunkInput id i bs size (sizeOf data) n = Err e).
    { unfold ValidateAttachmentChunkInput. case_bool_decide; [by eexists|].
      destruct (Z.ltb_spec i 0), (Z.leb_spec n i); cbn [orb]; try (by eexists). lia. }
    destruct Ev as [e ->]. exists session. split; [done|]. destruct Hc as [? ? ? Hg]. split; [done..|].
    intros j [|[Hj (_ & -> & _)]]; [auto|done].
Qed.

(** One call while the chunks come in. *)
Lemma gentle_step c got s :
  gentle u t0 data n size c -> open_with got s ->
  open_with (fun j => got j \/ 0 <= j < n /\ delivers u data n size j c) (run_upload s c).
Proof.
  destruct c as [buf now nm mm total chunks sz sha'|now now' id i d64 dg|now id|envL env now nowPut buf id];
    intros Hg Hopen; [| by apply chunk_step| |];
    (eapply (open_weaken got); [|intros j [|[_ []]]; done]); cbn [run_upload].
  - destruct Hg as [Ht Hne]. unfold InitAttachmentUpload, bindM, liftM, modifyM, retM.
    destruct (ValidateAttachmentUploadInit _ _ _ _ _) as [[[[[? ?] ?] ?] ?]|]; [|done].
    destruct (NormalizeOptionalSHA256Hex _ _); [|done]. destruct (newUploadID buf) as [id|]; [|done].
    cbn [fst]. apply open_other; [congruence|]. by apply open_purge.
  - unfold GetAttachmentUploadStatus, bindM, modifyM. pose proof (open_purge now got s Hg Hopen).
    by destruct (up_uploads _ !! _).
  - destruct Hg as [Ht Hne]. unfold CommitAttachmentUpload. case_bool_decide; [done|].
    unfold bindM, modifyM. pose proof (open_purge now got s Ht Hopen) as Hp.
    set (s1 := purgeExpiredAttachmentUploads now s) in *.
    destruct (up_uploads s1 !! _) as [session|]; [|done].
    destruct (commitPayload session) as [[[? ?] ?]|]; [|done].
    unfold onStore. destruct (Put _ _ _ _ _ _ _ _) as [st r]. cbn [fst].
    destruct Hp as (x & Hx & Hc). exists x. split; [|done]. cbn. by rewrite lookup_delete_ne.
Qed.

Lemma gentle_run calls got s :
  Forall (gentle u t0 data n size) calls -> open_with got s ->
  open_with (fun j => got j \/ 0 <= j < n /\ Exists (delivers u data n size j) calls)
    (fold_left run_upload calls s).
Proof.
  intros Hc. revert got s. induction Hc as [|c calls Hg _ IH]; intros got s Hopen.
  - eapply open_weaken; [done|]. intros j [|[_ H]]; [done|]. by apply Exists_nil in H.
  - cbn [fold_left]. eapply open_weaken; [apply IH; by apply gentle_step|].
    intros j [|[Hj [H|H]%Exists_cons]]; auto.
Qed.

(** The commit, when every chunk is there. *)
Lemma commit_complete envL env now nowPut buf id s :
  TrimSpace id = u -> t0 <= now <= t0 + uploadTTL -> sha = "" \/ sha = hexEncode (sha256 data) ->
  open_with (fun i => 0 <= i < n) s ->
  let committed := CommitAttachmentUpload envL env now nowPut buf id s in
  match NormalizeChunkedAttachmentPayload name mime data with
  | Err err => snd committed = Err err
  | Ok (name', mime', data') =>
      let put := Put envL env nowPut buf name' mime' data' (up_store s) in
      up_store (fst committed) = fst put /\ snd committed = snd put
      /\ up_uploads (fst committed) !! u = None
  end.
Proof.
  intros Hid Ht Hsha Hopen. cbv zeta. unfold CommitAttachmentUpload, bindM, modifyM.
  rewrite Hid, bool_decide_false by apply params.
  destruct (open_purge now _ s Ht Hopen) as (session & Hs & [Hm _ Hc Hg]). rewrite Hs. injection Hm as Hn1 Hn2 H1 H2 H3 H4.
  assert (Hall : forall i, 0 <= i < n -> us_Chunks session !! i = Some (chunkOf data n size i)).
  { intros i Hi. destruct (Hg i Hi) as [c E]. rewrite E. f_equal. by apply Hc in E as [_ ->]. }
  unfold commitPayload. rewrite H2, (assemble_chunks data n size) by (done || apply params).
  rewrite H1, Z.eqb_refl, H4, Hn1, Hn2. cbn [negb].
  assert (Hd : negb (sha == "") && negb (hexEncode (sha256 data) == sha) = false).
  { destruct Hsha as [-> | ->]; [done|].
    apply andb_false_iff. right. by rewrite bool_decide_true. }
  rewrite Hd. destruct (NormalizeChunkedAttachmentPayload name mime data) as [[[n' m'] d']|err]; [|done].
  unfold onStore. cbn [up_store with_uploads up_uploads purgeExpiredAttachmentUploads].
  destruct (Put _ _ _ _ _ _ _ _) as [st r]. split_and!; [done..|]. cbn. apply lookup_delete_eq.
Qed.
End Collecting.

(** C33: An upload puts together exactly the file. After an upload of [n] chunks is opened for a file,
    with the digest of the file or with none, any calls may follow within the time to live: the
    chunks of the file in any order, any number of times, also with wrong digests, and other
    uploads' calls between them. Once every chunk has come in with its digest or with none, the
    commit does on the attachment store what putting in the checked payload of exactly that file
    does, and the session is gone; a payload that the checks refuse gives their error. *)
Theorem upload_reassembles_file (s s1 : UploadService) (buf pbuf : result error (list Z))
    (t0 now nowPut n size : Z) (name mime digest id : string) (data : list Z)
    (res : AttachmentUploadInitResult) (calls : list UploadCall) (envL env : AttachmentEnv) :
  InitAttachmentUpload buf t0 name mime (sizeOf data) n size digest s = (s1, Ok res) ->
  (exists d, NormalizeOptionalSHA256Hex digest "file" = Ok d /\ (d = "" \/ d = hexEncode (sha256 data))) ->
  Forall (gentle (ui_UploadID res) t0 data n size) calls ->
  (forall i, 0 <= i < n -> Exists (delivers (ui_UploadID res) data n size i) calls) ->
  TrimSpace id = ui_UploadID res -> t0 <= now <= t0 + uploadTTL ->
  let s2 := fold_left run_upload calls s1 in
  let committed := CommitAttachmentUpload envL env now nowPut pbuf id s2 in
  match NormalizeChunkedAttachmentPayload name mime data with
  | Err err => snd committed = Err err
  | Ok (name', mime', data') =>
      let put := Put envL env nowPut pbuf name' mime' data' (up_store s2) in
      up_store (fst committed) = fst put /\ snd committed = snd put
      /\ up_uploads (fst committed) !! ui_UploadID res = None
  end.
Proof.
  intros Hinit (d & Hd & Hdig) Hgentle Hall Hid Ht. cbv zeta.
  unfold InitAttachmentUpload, bindM, liftM, modifyM, retM in Hinit.
  destruct (ValidateAttachmentUploadInit _ _ _ _ _) as [r|] eqn:Ev; [|done].
  apply ValidateInit_ok in Ev as (-> & Hn & Hs & Htot & Hlast). rewrite Hd in Hinit.
  destruct (newUploadID buf) as [u|] eqn:Eu; [|done]. injection Hinit as Hs1 <-.
  cbn [ui_UploadID] in *.
  assert (params : upload_params u data n size).
  { split; [|done|done|by apply Htot|done]. intros ->. unfold newUploadID, bindR in Eu.
    by destruct buf. }
  assert (Hopen : open_with u t0 data n size d (TrimSpace name) (TrimSpace mime) (fun _ => False) s1).
  { rewrite <- Hs1. eexists. split; [apply lookup_insert_eq|]. split; cbn.
    - done.
    - unfold uploadTTL, Minute, Second in *. lia.
    - intros i c Hc. by rewrite lookup_empty in Hc.
    - done. }
  apply (gentle_run _ _ _ _ _ _ _ _ params calls) in Hopen; [|done].
  assert (Enorm : NormalizeChunkedAttachmentPayload (TrimSpace name) (TrimSpace mime) data
                  = NormalizeChunkedAttachmentPayload name mime data).
  { unfold NormalizeChunkedAttachmentPayload, normalizeAttachmentPayload. by rewrite !TrimSpace_idemp. }
  rewrite <- Enorm. eapply (commit_complete u t0 data n size d); [done|done|done|done|].
  eapply open_weaken; [done|]. intros i Hi. right. auto.
Qed.
End Service.

(** ** Examples *)

(** A codec that knows no image. *)
#[export] Instance exImages : ImageCodec := {
  image := unit; DetectContentType _ := "application/octet-stream"; DecodeConfig _ := None;
  DecodeImage _ := None; jpegEncode _ _ := None; pngEncode _ := None
}.

Definition ex_hash (bs : list Z) : list Z := [fold_left Z.add bs 0 mod 256].
Definition ex_uploads : UploadService :=
  mkUploadService ∅ (mkAttachmentStore "" "" ∅ ∅ true (mkLimits 0 0 0 0) (mkHardCap 90 100 75) (mkHits 0 0) ∅).

(** A file of two chunks. *)
Definition ex_file : list Z := (replicate 16384 7 ++ [2; 3])%list.
Definition ex_chunk (i : Z) : UploadCall :=
  UChunk 200 200 "upl_01" i (EncodeToString (chunkOf ex_file 2 16384 i)) "".
Definition ex_calls : list UploadCall :=
  [ex_chunk 1; UInit (Ok [2]) 300 "other" "" 5 1 20000 ""; ex_chunk 0; UStatus 400 "upl_01"].
Definition ex_opened : UploadService :=
  fst (InitAttachmentUpload (Ok [1]) 100 " n " "text/plain" 16386 2 16384 "" ex_uploads).

(** The last chunk has no limit of its own: one chunk of 64 MiB, of a size of at most 16 KiB. *)
Example last_chunk_exceeds_chunk_size :
  is_ok (ValidateAttachmentUploadInit "n" "" (64 * 1024 * 1024) 1 (16 * 1024)) = true.
Proof. vm_compute. reflexivity. Qed.

Lemma ex_decodes i :
  (i = 0 \/ i = 1) ->
  DecodeString (TrimSpace (EncodeToString (chunkOf ex_file 2 16384 i))) = Some (chunkOf ex_file 2 16384 i).
Proof. intros [-> | ->]; apply (bool_decide_unpack _); vm_compute; exact I. Qed.

Lemma upload_reassembles_file_witness :
  let committed := CommitAttachmentUpload ex_hash ex_att_env ex_att_env 500 600 (Ok [9]) "upl_01"
                     (fold_left (run_upload ex_hash) ex_calls ex_opened) in
  snd committed = Ok (newMeta "att1_09" "n" "text/plain" 600 ex_file)
  /\ up_uploads (fst committed) !! "upl_01" = None.
Proof.
  pose proof (upload_reassembles_file ex_hash ex_uploads ex_opened (Ok [1]) (Ok [9]) 100 500 600 2 16384
    " n " "text/plain" "" "upl_01" ex_file (mkInitResult "upl_01" 2 16384) ex_calls ex_att_env ex_att_env) as H.
  cbv zeta in H |- *.
  replace (NormalizeChunkedAttachmentPayload " n " "text/plain" ex_file)
    with (Ok (E := error) ("n", "text/plain", ex_file)) in H by reflexivity.
  destruct H as (_ & H1 & H2).
  - apply injective_projections; [reflexivity|vm_compute; reflexivity].
  - exists "". split; [reflexivity|by left].
  - unfold uploadTTL, Minute, Second. repeat constructor; try lia; try discriminate; intros; apply ex_decodes; auto.
  - intros i Hi. assert (i = 0 \/ i = 1) as [-> | ->] by lia.
    + do 2 apply Exists_cons_tl. apply Exists_cons_hd. split; [reflexivity|]. split; [reflexivity|].
      split; [by apply ex_decodes; left|]. exists "". split; [reflexivity|by left].
    + apply Exists_cons_hd. split; [reflexivity|]. split; [reflexivity|].
      split; [by apply ex_decodes; right|]. exists "". split; [reflexivity|by left].
  - reflexivity.
  - unfold uploadTTL, Minute, Second. lia.
  - split; [|exact H2]. rewrite H1. vm_compute. reflexivity.
Defined.
