(* ===== verification/BlobCache.v ===== *)
(** * The cache of public blobs

    Models internal/composition/daemonservice/public_ephemeral_cache.go: blobs of other peers, kept
    in memory for a while and within a budget of bytes. A method that is given the zero time
    reads the clock; what it reads is the argument [clock]. *)
From stdpp Require Import base gmap strings list sets option.
From Stdlib Require Import ZArith Lia Ascii String.
From S2P Require Import Prelude SecureStore AttachmentStore.
Open Scope string_scope.
Open Scope Z_scope.
Open Scope go_scope.

Record publicEphemeralBlobEntry := mkCacheEntry {
  pe_meta : AttachmentMeta; pe_data : list Z; pe_size : Z; pe_expiresAt : Z; pe_lastAccess : Z
}.

Record publicEphemeralBlobCache := mkCache {
  pc_ttl : Z; pc_maxBytes : Z; pc_used : Z; pc_items : gmap string publicEphemeralBlobEntry
}.

Abbreviation Entries := (gmap string publicEphemeralBlobEntry).

Definition with_entries (c : publicEphemeralBlobCache) (used : Z) (items : Entries)
    : publicEphemeralBlobCache := mkCache (pc_ttl c) (pc_maxBytes c) used items.

(** [delete(c.items, id)] with the bytes of the entry taken off. *)
Definition dropEntry (c : publicEphemeralBlobCache) (id : string) (e : publicEphemeralBlobEntry)
    : publicEphemeralBlobCache :=
  with_entries c (s64 (pc_used c - pe_size e)) (delete id (pc_items c)).

Definition clampUsed (c : publicEphemeralBlobCache) : publicEphemeralBlobCache :=
  if pc_used c <? 0 then with_entries c 0 (pc_items c) else c.

Definition pruneExpiredLocked (rt : GoRuntime) (now : Z) (c : publicEphemeralBlobCache)
    : publicEphemeralBlobCache :=
  if (size (pc_items c) =? 0)%nat then c else
  clampUsed (fold_left (fun c '(id, e) =>
    if negb (After (pe_expiresAt e) now) then dropEntry c id e else c) (rangeMap (pc_items c)) c).

(** The entry that was used first, in the order of one pass over the map. *)
Definition oldest (rt : GoRuntime) (items : Entries) : string * Z :=
  fold_left (fun '(oldestID, oldestAt) '(id, e) =>
    if (oldestID == "") || Before (pe_lastAccess e) oldestAt then (id, pe_lastAccess e)
    else (oldestID, oldestAt)) (rangeMap items) ("", 0).

(** One entry goes in every round, so as many rounds as there are entries are enough. *)
Fixpoint evictLoop (rt : GoRuntime) (fuel : nat) (c : publicEphemeralBlobCache)
    : publicEphemeralBlobCache :=
  match fuel with
  | O => c
  | S fuel =>
      if (0 <? pc_maxBytes c) && (pc_maxBytes c <? pc_used c) && negb (size (pc_items c) =? 0)%nat then
        let '(oldestID, _) := oldest rt (pc_items c) in
        match pc_items c !! oldestID with
        | None => c
        | Some e => if oldestID == "" then c else evictLoop rt fuel (dropEntry c oldestID e)
        end
      else c
  end.

Definition enforceBudgetLocked (rt : GoRuntime) (c : publicEphemeralBlobCache)
    : publicEphemeralBlobCache :=
  clampUsed (evictLoop rt (size (pc_items c)) c).

Definition Configure (rt : GoRuntime) (clock maxMB ttlMinutes : Z) (c : publicEphemeralBlobCache)
    : publicEphemeralBlobCache :=
  let maxBytes := if maxMB <=? 0 then 0 else s64 (s64 (maxMB * 1024) * 1024) in
  let ttl := if ttlMinutes <=? 0 then 0 else s64 (ttlMinutes * Minute) in
  if (maxBytes <=? 0) || (ttl <=? 0) then mkCache ttl maxBytes 0 ∅ else
  enforceBudgetLocked rt (pruneExpiredLocked rt clock (mkCache ttl maxBytes (pc_used c) (pc_items c))).

Definition newPublicEphemeralBlobCache (rt : GoRuntime) (clock maxMB ttlMinutes : Z)
    : publicEphemeralBlobCache := Configure rt clock maxMB ttlMinutes (mkCache 0 0 0 ∅).

Definition orClock (now clock : Z) : Z := if IsZero now then clock else now.

Definition cachePut (rt : GoRuntime) (clock : Z) (meta : AttachmentMeta) (data : list Z) (now : Z)
    (c : publicEphemeralBlobCache) : publicEphemeralBlobCache * bool :=
  let now := orClock now clock in
  let id := TrimSpace (am_ID meta) in
  if (id == "") || (List.length data =? 0)%nat then (c, false) else
  if (pc_maxBytes c <=? 0) || (pc_ttl c <=? 0) then (c, false) else
  let c := pruneExpiredLocked rt now c in
  let sz := Z.of_nat (List.length data) in
  if pc_maxBytes c <? sz then (c, false) else
  let c := match pc_items c !! id with Some existing => dropEntry c id existing | None => c end in
  let e := mkCacheEntry meta data sz (now + pc_ttl c) now in
  (enforceBudgetLocked rt (with_entries c (s64 (pc_used c + sz)) (<[id := e]> (pc_items c))), true).

Definition cacheGet (rt : GoRuntime) (clock : Z) (id : string) (now : Z) (c : publicEphemeralBlobCache)
    : publicEphemeralBlobCache * option (AttachmentMeta * list Z) :=
  let now := orClock now clock in
  let id := TrimSpace id in
  if id == "" then (c, None) else
  let c := pruneExpiredLocked rt now c in
  match pc_items c !! id with
  | None => (c, None)
  | Some e =>
      let e' := mkCacheEntry (pe_meta e) (pe_data e) (pe_size e) (now + pc_ttl c) now in
      (with_entries c (pc_used c) (<[id := e']> (pc_items c)), Some (pe_meta e, pe_data e))
  end.

Definition PurgeExpired (rt : GoRuntime) (clock now : Z) (c : publicEphemeralBlobCache)
    : publicEphemeralBlobCache := pruneExpiredLocked rt (orClock now clock) c.

(** ** The bytes in the cache *)

Definition cachedBytes (items : Entries) : Z := map_fold (fun _ e sum => pe_size e + sum) 0 items.

Lemma cachedBytes_insert items id e :
  items !! id = None -> cachedBytes (<[id := e]> items) = pe_size e + cachedBytes items.
Proof. intros H. unfold cachedBytes. apply (map_fold_insert_L (fun _ e sum => pe_size e + sum) 0); [intros; lia|done]. Qed.

Lemma cachedBytes_delete items id e :
  items !! id = Some e -> cachedBytes items = pe_size e + cachedBytes (delete id items).
Proof. intros H. unfold cachedBytes. apply (map_fold_delete_L (fun _ e sum => pe_size e + sum) 0); [intros; lia|done]. Qed.

(** An entry as [Put] makes them. *)
Definition cached_ok (id : string) (e : publicEphemeralBlobEntry) : Prop :=
  id <> "" /\ TrimSpace (am_ID (pe_meta e)) = id /\ pe_size e = Z.of_nat (List.length (pe_data e))
  /\ 0 < pe_size e.

Lemma cachedBytes_nonneg items : map_Forall cached_ok items -> 0 <= cachedBytes items.
Proof.
  induction items as [|id e items Hid IH] using map_ind; intros H; [done|].
  rewrite cachedBytes_insert by done. apply map_Forall_insert in H as [(_ & _ & _ & He) H]; [|done].
  specialize (IH H). lia.
Qed.

(** The bookkeeping is exact, and below [bound]. *)
Record counted (bound : Z) (c : publicEphemeralBlobCache) : Prop := mkCounted {
  ct_entries : map_Forall cached_ok (pc_items c);
  ct_used : pc_used c = cachedBytes (pc_items c);
  ct_bound : pc_used c <= bound
}.

Lemma counted_range bound c : counted bound c -> 0 <= pc_used c.
Proof. intros [H -> _]. by apply cachedBytes_nonneg. Qed.

Lemma clampUsed_counted bound c : counted bound c -> clampUsed c = c.
Proof.
  intros H. unfold clampUsed. apply counted_range in H. by rewrite (proj2 (Z.ltb_ge _ _)).
Qed.

Lemma dropEntry_counted bound c id e :
  bound < 2 ^ 63 -> counted bound c -> pc_items c !! id = Some e ->
  counted (bound - pe_size e) (dropEntry c id e).
Proof.
  intros Hb [He Hu Hle] Hid. pose proof (cachedBytes_delete _ _ _ Hid) as Hd.
  destruct (He _ _ Hid) as (_ & _ & _ & Hpos).
  pose proof (cachedBytes_nonneg _ (map_Forall_delete _ _ id He)) as Hn.
  split; cbn [dropEntry with_entries pc_items pc_used].
  - by apply map_Forall_delete.
  - rewrite s64_small by lia. lia.
  - rewrite s64_small by lia. lia.
Qed.

Lemma counted_mono b1 b2 c : b1 <= b2 -> counted b1 c -> counted b2 c.
Proof. intros Hb [? ? ?]. split; [done..|lia]. Qed.

(** ** Pruning *)

Definition live (now : Z) (e : publicEphemeralBlobEntry) : Prop := now < pe_expiresAt e.

#[export] Instance live_dec now e : Decision (live now e).
Proof. unfold live. apply _. Defined.

Lemma prune_fold now bound l c :
  bound < 2 ^ 63 -> counted bound c -> NoDup l.*1 ->
  Forall (fun ie => pc_items c !! ie.1 = Some ie.2) l ->
  let c' := fold_left (fun c '(id, e) =>
    if negb (After (pe_expiresAt e) now) then dropEntry c id e else c) l c in
  counted bound c' /\ (pc_ttl c', pc_maxBytes c') = (pc_ttl c, pc_maxBytes c)
  /\ forall j, pc_items c' !! j
     = match pc_items c !! j with
       | Some e => if (bool_decide (live now e) || negb (bool_decide (j ∈ l.*1)))%bool then Some e else None
       | None => None
       end.
Proof.
  intros Hb. revert c. induction l as [|[id e] l IH]; intros c Hc Hnd Hl; cbn [fold_left].
  { split_and!; [done|done|]. intros j. destruct (pc_items c !! j); [|done].
    rewrite (bool_decide_false (j ∈ _)) by apply not_elem_of_nil. by rewrite orb_true_r. }
  inversion Hnd as [|? ? Hid Hnd']; subst. inversion Hl as [|? ? He Hl']; subst. cbn [fst snd] in *.
  assert (Hmem : forall j, bool_decide (j ∈ ((id, e) :: l).*1) = bool_decide (j = id) || bool_decide (j ∈ l.*1)).
  { intros j. rewrite fmap_cons. cbn [fst]. repeat case_bool_decide; set_solver. }
  unfold After. destruct (Z.ltb_spec now (pe_expiresAt e)) as [Hlive|Hdead]; cbn [negb].
  - destruct (IH c Hc Hnd' Hl') as (H1 & H2 & H3). split_and!; [done|done|]. intros j. rewrite H3, Hmem.
    destruct (pc_items c !! j) as [e'|] eqn:Ej; [|done]. destruct (decide (j = id)) as [->|Hne].
    + assert (e' = e) as -> by congruence. by rewrite (bool_decide_true (live now e)).
    + by rewrite (bool_decide_false (j = id)).
  - destruct (IH (dropEntry c id e)) as (H1 & H2 & H3).
    { destruct (Hc) as [Hok _ _]. destruct (Hok _ _ He) as (_ & _ & _ & Hpos).
      eapply counted_mono; [|by apply dropEntry_counted]. lia. }
    { done. }
    { rewrite list.Forall_forall in Hl' |- *. intros [j ej] Hj. cbn. rewrite lookup_delete_ne.
      - by apply (Hl' (j, ej)).
      - intros ->. apply Hid. apply list_elem_of_fmap. by exists (j, ej). }
    split_and!; [done|done|]. intros j. rewrite H3, Hmem. cbn [dropEntry with_entries pc_items].
    destruct (decide (j = id)) as [->|Hne].
    + rewrite lookup_delete_eq, He, bool_decide_false by (unfold live; lia).
      by rewrite bool_decide_true.
    + rewrite lookup_delete_ne by done. by rewrite (bool_decide_false (j = id)).
Qed.

(** Pruning leaves the entries that have not expired. *)
Lemma prune_spec rt now bound c :
  bound < 2 ^ 63 -> counted bound c ->
  let c' := pruneExpiredLocked rt now c in
  counted bound c' /\ (pc_ttl c', pc_maxBytes c') = (pc_ttl c, pc_maxBytes c)
  /\ forall j, pc_items c' !! j
     = match pc_items c !! j with
       | Some e => if bool_decide (live now e) then Some e else None
       | None => None
       end.
Proof.
  intros Hb Hc. unfold pruneExpiredLocked. destruct (size (pc_items c) =? 0)%nat eqn:Ez.
  { split_and!; [done|done|]. intros j. apply Nat.eqb_eq, map_size_empty_inv in Ez. by rewrite Ez. }
  destruct (prune_fold now bound (rangeMap (pc_items c)) c) as (H1 & H2 & H3); [done|done| | |].
  - rewrite rangeMap_perm. apply NoDup_fst_map_to_list.
  - apply list.Forall_forall. intros [j e]. by rewrite rangeMap_perm, elem_of_map_to_list.
  - cbv zeta in *. rewrite (clampUsed_counted _ _ H1). split_and!; [done|done|]. intros j. rewrite H3.
    destruct (pc_items c !! j) as [e|] eqn:Ej; [|done].
    rewrite (bool_decide_true (j ∈ _)); [by rewrite orb_false_r|].
    apply list_elem_of_fmap. exists (j, e). by rewrite rangeMap_perm, elem_of_map_to_list.
Qed.

(** ** The budget *)

Lemma oldest_fold l best :
  (best.1 = "" \/ best.1 <> "") -> Forall (fun ie => ie.1 <> "") l ->
  let r := fold_left (fun '(oldestID, oldestAt) '(id, e) =>
    if (oldestID == "") || Before (pe_lastAccess e) oldestAt then (id, pe_lastAccess e)
    else (oldestID, oldestAt)) l best in
  (r = best /\ (best.1 = "" -> l = [])
   \/ exists id e, (id, e) ∈ l /\ r = (id, pe_lastAccess e))
  /\ (best.1 <> "" -> r.2 <= best.2)
  /\ forall id e, (id, e) ∈ l -> r.2 <= pe_lastAccess e.
Proof.
  intros _ Hl. revert best. induction Hl as [|[id e] l Hid _ IH]; intros [bid bat]; cbn [fold_left fst snd].
  { split_and!; [left; by split|done|]. intros id e H. by apply elem_of_nil in H. }
  cbn [fst] in Hid. destruct ((bid == "") || Before (pe_lastAccess e) bat) eqn:E.
  - destruct (IH (id, pe_lastAccess e)) as (H1 & H2 & H3). cbn [fst snd] in *. specialize (H2 Hid).
    split_and!.
    + right. destruct H1 as [[-> _]|(i & e' & Hin & ->)]; [exists id, e|exists i, e']; split; set_solver.
    + intros Hb. unfold Before in E. rewrite bool_decide_false in E by done. apply Z.ltb_lt in E. lia.
    + intros i e' [[= -> ->]|Hin]%elem_of_cons; [done|by eapply H3].
  - destruct (IH (bid, bat)) as (H1 & H2 & H3). cbn [fst snd] in *.
    apply orb_false_iff in E as [Eb Ec]. apply bool_decide_eq_false in Eb. unfold Before in Ec. apply Z.ltb_ge in Ec.
    specialize (H2 Eb). split_and!.
    + destruct H1 as [[-> _]|(i & e' & Hin & ->)]; [by left|right; exists i, e'; split; set_solver].
    + done.
    + intros i e' [[= -> ->]|Hin]%elem_of_cons; [lia|by eapply H3].
Qed.

(** The oldest entry is one of the entries, and none was used before it. *)
Lemma oldest_spec rt items :
  map_Forall cached_ok items -> items <> ∅ ->
  exists id e, items !! id = Some e /\ oldest rt items = (id, pe_lastAccess e)
    /\ forall j ej, items !! j = Some ej -> pe_lastAccess e <= pe_lastAccess ej.
Proof.
  intros Hok Hne. unfold oldest.
  destruct (oldest_fold (rangeMap items) ("", 0)) as (H1 & _ & H3); [by left| |].
  - apply list.Forall_forall. intros [id e]. rewrite rangeMap_perm, elem_of_map_to_list.
    intros H. by destruct (Hok _ _ H).
  - set (r := fold_left _ _ _) in *. destruct H1 as [[_ H1]|(id & e & Hin & Hr)].
    + exfalso. apply Hne. specialize (H1 eq_refl). apply map_to_list_empty_iff.
      pose proof (rangeMap_perm _ items) as Hp. rewrite H1 in Hp. by apply Permutation_nil in Hp.
    + rewrite rangeMap_perm, elem_of_map_to_list in Hin. exists id, e. split_and!; [done|done|].
      intros j ej Hj. rewrite Hr in H3. apply (H3 j). by rewrite rangeMap_perm, elem_of_map_to_list.
Qed.

(** Eviction ends below the budget, and keeps what was used last. *)
Lemma evict_spec rt fuel bound c :
  bound < 2 ^ 63 -> counted bound c -> (size (pc_items c) <= fuel)%nat ->
  let c' := evictLoop rt fuel c in
  counted bound c' /\ (pc_ttl c', pc_maxBytes c') = (pc_ttl c, pc_maxBytes c)
  /\ pc_items c' ⊆ pc_items c /\ (0 < pc_maxBytes c -> pc_used c' <= pc_maxBytes c)
  /\ forall j ej k ek, pc_items c !! j = Some ej -> pc_items c' !! j = None ->
     pc_items c' !! k = Some ek -> pe_lastAccess ej <= pe_lastAccess ek.
Proof.
  intros Hb. revert c. induction fuel as [|fuel IH]; intros c Hc Hsize; cbn [evictLoop].
  - assert (Hz : pc_items c = ∅) by (apply map_size_empty_inv; lia). destruct Hc as [Hok Hu Hle].
    split_and!; [done|done|done| |congruence]. intros Hm. rewrite Hu, Hz. change (cachedBytes ∅) with 0. lia.
  - destruct (_ && _) eqn:E.
    2: { split_and!; [done|done|done| |congruence]. intros Hm. destruct Hc as [Hok Hu Hle].
         rewrite (proj2 (Z.ltb_lt 0 _) Hm) in E. cbn [andb] in E.
         destruct (Z.ltb_spec (pc_maxBytes c) (pc_used c)) as [Hlt|]; [|lia]. cbn [andb] in E.
         apply negb_false_iff, Nat.eqb_eq, map_size_empty_inv in E. rewrite Hu, E.
         change (cachedBytes ∅) with 0. lia. }
    rewrite !andb_true_iff, negb_true_iff, Nat.eqb_neq in E. destruct E as [_ Hne].
    destruct (oldest_spec rt (pc_items c)) as (id & e & He & Ho & Hmin);
      [apply Hc|intros Hz; by rewrite Hz in Hne|].
    rewrite Ho, He. pose proof (ct_entries _ _ Hc _ _ He) as (Hid & _ & _ & Hpos).
    rewrite bool_decide_false by done.
    pose proof (dropEntry_counted bound c id e Hb Hc He) as Hd.
    destruct (IH (dropEntry c id e)) as (H1 & H2 & H3 & H4 & H5).
    { eapply counted_mono; [|done]. lia. }
    { cbn [dropEntry with_entries pc_items]. rewrite map_size_delete_Some by by eexists. lia. }
    cbn [dropEntry with_entries pc_items pc_ttl pc_maxBytes] in *. split_and!; [done|done| |done|].
    + etrans; [done|apply delete_subseteq].
    + intros j ej k ek Hj Hgone Hk. destruct (decide (j = id)) as [->|Hji].
      * assert (ej = e) as -> by congruence. apply (Hmin k). eapply lookup_weaken; [|done].
        eapply lookup_weaken in Hk; [|done]. by apply lookup_delete_Some in Hk as [_ ?].
      * eapply (H5 j); [by rewrite lookup_delete_ne|done|done].
Qed.

Lemma enforce_budget_spec rt bound c :
  bound < 2 ^ 63 -> counted bound c ->
  let c' := enforceBudgetLocked rt c in
  counted bound c' /\ (pc_ttl c', pc_maxBytes c') = (pc_ttl c, pc_maxBytes c)
  /\ pc_items c' ⊆ pc_items c /\ (0 < pc_maxBytes c -> pc_used c' <= pc_maxBytes c)
  /\ forall j ej k ek, pc_items c !! j = Some ej -> pc_items c' !! j = None ->
     pc_items c' !! k = Some ek -> pe_lastAccess ej <= pe_lastAccess ek.
Proof.
  intros Hb Hc. cbv zeta. unfold enforceBudgetLocked.
  pose proof (evict_spec rt (size (pc_items c)) bound c Hb Hc (le_n _)) as H. cbv zeta in H.
  pose proof (proj1 H) as H1. by rewrite (clampUsed_counted _ _ H1).
Qed.

(** ** The calls *)

(** The budget holds, and a cache that is switched off is empty. *)
Record cache_ok (c : publicEphemeralBlobCache) : Prop := mkCacheOk {
  ca_counted : counted (Z.max 0 (pc_maxBytes c)) c;
  ca_off : pc_maxBytes c <= 0 \/ pc_ttl c <= 0 -> pc_items c = ∅;
  ca_size : pc_maxBytes c < 2 ^ 62
}.

Lemma counted_empty bound ttl maxBytes : 0 <= bound -> counted bound (mkCache ttl maxBytes 0 ∅).
Proof. intros H. split; [apply map_Forall_empty|done|done]. Qed.

Lemma cache_on c id e : cache_ok c -> pc_items c !! id = Some e -> 0 < pc_maxBytes c /\ 0 < pc_ttl c.
Proof.
  intros [_ Hoff _] He. destruct (Z.leb_spec (pc_maxBytes c) 0); [rewrite Hoff, lookup_empty in He by auto; done|].
  destruct (Z.leb_spec (pc_ttl c) 0); [rewrite Hoff, lookup_empty in He by auto; done|done].
Qed.

(** What prune leaves is a cache again. *)
Lemma prune_ok rt now c : cache_ok c -> cache_ok (pruneExpiredLocked rt now c).
Proof.
  intros [Hc Hoff Hsz]. destruct (prune_spec rt now (Z.max 0 (pc_maxBytes c)) c ltac:(lia) Hc) as (H1 & H2 & H3).
  injection H2 as Ht Hm. split; rewrite ?Hm, ?Ht; [done| |done]. intros H. apply map_eq. intros j.
  by rewrite H3, (Hoff H), lookup_empty.
Qed.

(** The middle of [Put]: the entry is there, and the budget may be exceeded by its size. *)
Lemma insert_counted c id e sz :
  cache_ok c -> cached_ok id e -> pe_size e = sz -> sz <= pc_maxBytes c ->
  let c1 := match pc_items c !! id with Some old => dropEntry c id old | None => c end in
  let c2 := with_entries c1 (s64 (pc_used c1 + sz)) (<[id := e]> (pc_items c1)) in
  counted (2 * pc_maxBytes c) c2 /\ pc_items c2 = <[id := e]> (pc_items c)
  /\ (pc_ttl c2, pc_maxBytes c2) = (pc_ttl c, pc_maxBytes c).
Proof.
  intros [Hc Hoff Hsz] He <- Hle. cbv zeta. pose proof He as (Hne & Hid & Hlen & Hpos).
  set (c1 := match pc_items c !! id with Some old => dropEntry c id old | None => c end).
  assert (H1 : counted (Z.max 0 (pc_maxBytes c)) c1 /\ pc_items c1 !! id = None
               /\ <[id := e]> (pc_items c1) = <[id := e]> (pc_items c)
               /\ (pc_ttl c1, pc_maxBytes c1) = (pc_ttl c, pc_maxBytes c)).
  { unfold c1. destruct (pc_items c !! id) as [old|] eqn:Eo; [|by split_and!].
    destruct (ct_entries _ _ Hc _ _ Eo) as (_ & _ & _ & Hp). split_and!; [|apply lookup_delete_eq| |done].
    - apply (counted_mono (Z.max 0 (pc_maxBytes c) - pe_size old)); [lia|]. apply dropEntry_counted; [lia|done|done].
    - cbn. by rewrite insert_delete_eq. }
  destruct H1 as (H1 & Hn & Hi & Hcfg). pose proof (counted_range _ _ H1) as H0. destruct H1 as [Hok Hu Hbd].
  cbn [with_entries pc_items pc_ttl pc_maxBytes]. split_and!; [|done|done].
  split; cbn [with_entries pc_items pc_used].
  - by apply map_Forall_insert_2.
  - rewrite s64_small by lia. rewrite cachedBytes_insert by done. lia.
  - rewrite s64_small by lia. lia.
Qed.

Lemma cachePut_ok rt clock meta data now c :
  cache_ok c -> cache_ok (fst (cachePut rt clock meta data now c)).
Proof.
  intros Hc. unfold cachePut. destruct ((TrimSpace _ == "") || _) eqn:E1; [done|].
  destruct ((pc_maxBytes c <=? 0) || _) eqn:E2; [done|].
  apply orb_false_iff in E1 as [Eid Elen]. apply orb_false_iff in E2 as [Em Et].
  set (c1 := pruneExpiredLocked rt (orClock now clock) c).
  assert (Hc1 : cache_ok c1) by by apply prune_ok.
  destruct (prune_spec rt (orClock now clock) (Z.max 0 (pc_maxBytes c)) c ltac:(pose proof (ca_size _ Hc); lia) (ca_counted _ Hc)) as (_ & Hcfg & _).
  fold c1 in Hcfg. injection Hcfg as Ht1 Hm1.
  destruct (Z.ltb_spec (pc_maxBytes c1) (Z.of_nat (List.length data))) as [|Hle]; [done|].
  cbn [fst]. set (e := mkCacheEntry meta data (Z.of_nat (List.length data)) _ _).
  assert (He : cached_ok (TrimSpace (am_ID meta)) e).
  { apply bool_decide_eq_false in Eid. apply Nat.eqb_neq in Elen. split_and!; cbn; [done|done|done|lia]. }
  destruct (insert_counted c1 (TrimSpace (am_ID meta)) e _ Hc1 He eq_refl Hle) as (H2 & _ & Hcfg2).
  change (pe_size e) with (Z.of_nat (List.length data)) in *.
  set (c2 := with_entries _ _ _) in *. pose proof (ca_size _ Hc1) as Hsz. pose proof (f_equal snd Hcfg2 : pc_maxBytes c2 = pc_maxBytes c1) as Hm2.
  destruct (enforce_budget_spec rt (2 * pc_maxBytes c1) c2 ltac:(lia) H2) as (H3 & Hcfg3 & _ & Hbd & _).
  pose proof (f_equal snd Hcfg3) as Hm3. cbn [snd] in Hm3. apply Z.leb_gt in Em, Et.
  pose proof (f_equal fst Hcfg3) as Ht3. pose proof (f_equal fst Hcfg2) as Ht2. cbn [fst] in Ht2, Ht3.
  split; rewrite Hm3, Hm2, Hm1; [|intros [?|?]; [lia|rewrite Ht3, Ht2, Ht1 in *; lia]|congruence].
  destruct H3 as [Hok Hu _]. split; [done|done|]. rewrite Hm2, Hm1 in Hbd. specialize (Hbd Em). lia.
Qed.

Lemma cacheGet_ok rt clock id now c : cache_ok c -> cache_ok (fst (cacheGet rt clock id now c)).
Proof.
  intros Hc. unfold cacheGet. destruct (TrimSpace id == ""); [done|].
  pose proof (prune_ok rt (orClock now clock) c Hc) as Hp.
  set (c1 := pruneExpiredLocked rt (orClock now clock) c) in *.
  destruct (pc_items c1 !! TrimSpace id) as [e|] eqn:Ee; [|done]. cbn [fst].
  destruct (cache_on _ _ _ Hp Ee) as [Hm Ht]. destruct Hp as [[Hok Hu Hle] Hoff Hsz].
  split; cbn [with_entries pc_items pc_used pc_maxBytes pc_ttl]; [|intros; lia|done].
  pose proof (Hok _ _ Ee) as Hokid. split; cbn [with_entries pc_items pc_used]; [| |done].
  - by apply map_Forall_insert_2.
  - rewrite Hu, (cachedBytes_delete _ _ _ Ee), <- (insert_delete_eq (pc_items c1) (TrimSpace id)).
    by rewrite cachedBytes_insert by apply lookup_delete_eq.
Qed.

Lemma Configure_ok rt clock maxMB ttl c :
  maxMB < 2 ^ 42 -> cache_ok c -> cache_ok (Configure rt clock maxMB ttl c).
Proof.
  intros Hmb [Hc Hoff Hsz]. unfold Configure. set (m := if maxMB <=? 0 then _ else _).
  set (d := if ttl <=? 0 then _ else _).
  assert (Hm : m < 2 ^ 62).
  { unfold m. destruct (Z.leb_spec maxMB 0); [lia|].
    rewrite (s64_small (maxMB * 1024)) by lia. rewrite s64_small by lia. lia. }
  destruct ((m <=? 0) || _) eqn:E; [split; [apply counted_empty; cbn; lia|done|done]|].
  apply orb_false_iff in E as [Em%Z.leb_gt Ed%Z.leb_gt].
  assert (H0 : counted (Z.max 0 (pc_maxBytes c)) (mkCache d m (pc_used c) (pc_items c))) by by destruct Hc.
  destruct (prune_spec rt clock (Z.max 0 (pc_maxBytes c)) _ ltac:(lia) H0) as (H1 & Hcfg1 & _).
  destruct (enforce_budget_spec rt (Z.max 0 (pc_maxBytes c)) _ ltac:(lia) H1) as (H2 & Hcfg2 & _ & Hbd & _).
  rewrite Hcfg1 in Hcfg2. pose proof (f_equal fst Hcfg2) as Ht2. pose proof (f_equal snd Hcfg2) as Hm2.
  pose proof (f_equal snd Hcfg1) as Hm1. cbn [fst snd pc_ttl pc_maxBytes] in *.
  split; rewrite ?Hm2, ?Ht2; [|intros; lia|done]. rewrite Hm1 in Hbd. specialize (Hbd Em).
  destruct H2 as [Hok Hu _]. split; [done|done|lia].
Qed.

(** The calls, each with a runtime and a clock of its own. *)
Inductive CacheCall :=
| KConfigure (rt : GoRuntime) (clock maxMB ttlMinutes : Z)
| KPut (rt : GoRuntime) (clock : Z) (meta : AttachmentMeta) (data : list Z) (now : Z)
| KGet (rt : GoRuntime) (clock : Z) (id : string) (now : Z)
| KPurge (rt : GoRuntime) (clock now : Z).

Definition run_cache (c : publicEphemeralBlobCache) (k : CacheCall) : publicEphemeralBlobCache :=
  match k with
  | KConfigure rt clock maxMB ttl => Configure rt clock maxMB ttl c
  | KPut rt clock meta data now => fst (cachePut rt clock meta data now c)
  | KGet rt clock id now => fst (cacheGet rt clock id now c)
  | KPurge rt clock now => PurgeExpired rt clock now c
  end.

Definition configured_below (k : CacheCall) : Prop :=
  match k with KConfigure _ _ maxMB _ => maxMB < 2 ^ 42 | _ => True end.

Lemma run_caches_ok (rt : GoRuntime) (clock maxMB ttlMinutes : Z) (calls : list CacheCall) :
  maxMB < 2 ^ 42 -> Forall configured_below calls ->
  cache_ok (fold_left run_cache calls (newPublicEphemeralBlobCache rt clock maxMB ttlMinutes)).
Proof.
  intros Hmb Hcalls.
  assert (H0 : cache_ok (newPublicEphemeralBlobCache rt clock maxMB ttlMinutes)).
  { apply Configure_ok; [done|]. split; [by apply counted_empty|done|done]. }
  revert H0. generalize (newPublicEphemeralBlobCache rt clock maxMB ttlMinutes).
  induction Hcalls as [|k calls Hk _ IH]; intros c Hc; [done|]. cbn [fold_left]. apply IH.
  destruct k; cbn [run_cache]; [by apply Configure_ok|by apply cachePut_ok|by apply cacheGet_ok|by apply prune_ok].
Qed.

(** The cache stays within its budget. Whatever sequence of calls a cache goes through, at
    whatever times and in whatever order its map is visited, its counter is the number of bytes it
    holds, that number is at most the configured maximum, every entry is under its own trimmed
    identifier with its own size, and a cache that is switched off holds nothing (for maxima below
    2^42 MiB, where the products do not wrap). *)
Theorem cache_stays_within_budget (rt : GoRuntime) (clock maxMB ttlMinutes : Z) (calls : list CacheCall) :
  maxMB < 2 ^ 42 -> Forall configured_below calls ->
  cache_ok (fold_left run_cache calls (newPublicEphemeralBlobCache rt clock maxMB ttlMinutes)).
Proof. apply run_caches_ok. Qed.

(** ** What was put in is served *)

(** An entry that fits and was used last of all is not evicted. *)
Lemma evict_keeps_newest rt fuel bound c id e :
  bound < 2 ^ 63 -> counted bound c -> pc_items c !! id = Some e -> pe_size e <= pc_maxBytes c ->
  (forall j ej, pc_items c !! j = Some ej -> j <> id -> pe_lastAccess ej < pe_lastAccess e) ->
  pc_items (evictLoop rt fuel c) !! id = Some e.
Proof.
  intros Hb. revert c. induction fuel as [|fuel IH]; intros c Hc He Hfit Hnew; cbn [evictLoop]; [done|].
  destruct (_ && _) eqn:E; [|done]. rewrite !andb_true_iff in E. destruct E as [[_ Hover%Z.ltb_lt] _].
  destruct (oldest_spec rt (pc_items c)) as (j & ej & Hj & Ho & Hmin);
    [apply Hc|intros Hz; by rewrite Hz in He|].
  rewrite Ho, Hj. destruct (j == ""); [done|].
  destruct (decide (j = id)) as [->|Hne].
  - exfalso. assert (ej = e) as -> by congruence.
    assert (Hone : delete id (pc_items c) = ∅).
    { apply map_empty. intros k. destruct (delete id (pc_items c) !! k) as [ek|] eqn:Ek; [|done].
      apply lookup_delete_Some in Ek as [Hk Ek]. specialize (Hnew _ _ Ek (not_eq_sym Hk)).
      specialize (Hmin _ _ Ek). lia. }
    destruct Hc as [_ Hu _]. rewrite Hu, (cachedBytes_delete _ _ _ He), Hone in Hover.
    change (cachedBytes ∅) with 0 in Hover. lia.
  - apply IH; cbn [dropEntry with_entries pc_items pc_maxBytes].
    + destruct (ct_entries _ _ Hc _ _ Hj) as (_ & _ & _ & Hp).
      apply (counted_mono (bound - pe_size ej)); [lia|]. by apply dropEntry_counted.
    + by rewrite lookup_delete_ne.
    + done.
    + intros k ek. rewrite lookup_delete_Some. intros [_ Hk]. by apply Hnew.
Qed.

(** The entry [Put] makes. *)
Definition newEntry (c : publicEphemeralBlobCache) (meta : AttachmentMeta) (data : list Z) (now : Z)
    : publicEphemeralBlobEntry :=
  mkCacheEntry meta data (Z.of_nat (List.length data)) (now + pc_ttl c) now.

(** What was put into the cache is served until it expires, and makes room by age. After a put
    that succeeds at a time later than every use so far, [Get] returns exactly the blob at any
    time before the time to live is over and nothing afterwards. Of the other entries, one that
    had not expired goes only if every entry that is left was used at the same time or later. *)
Theorem cached_blob_is_served (rt rt' : GoRuntime) (clock clock' : Z) (meta : AttachmentMeta)
    (data : list Z) (now t : Z) (c c' : publicEphemeralBlobCache) :
  cache_ok c -> now <> 0 -> t <> 0 ->
  (forall id e, pc_items c !! id = Some e -> pe_lastAccess e < now) ->
  cachePut rt clock meta data now c = (c', true) ->
  snd (cacheGet rt' clock' (am_ID meta) t c')
    = (if t <? now + pc_ttl c then Some (meta, data) else None)
  /\ forall j ej k ek, pc_items c !! j = Some ej -> now < pe_expiresAt ej ->
     j <> TrimSpace (am_ID meta) -> pc_items c' !! j = None -> pc_items c' !! k = Some ek ->
     pe_lastAccess ej <= pe_lastAccess ek.
Proof.
  intros Hc Hn Ht Hlast. unfold cachePut, orClock, IsZero. rewrite (proj2 (Z.eqb_neq now 0)) by done.
  destruct ((TrimSpace _ == "") || _) eqn:E1; [done|].
  destruct ((pc_maxBytes c <=? 0) || _) eqn:E2; [done|].
  apply orb_false_iff in E1 as [Eid Elen]. set (id := TrimSpace (am_ID meta)) in *.
  pose proof (ca_size _ Hc) as Hsz. pose proof (prune_ok rt now c Hc) as Hc1.
  destruct (prune_spec rt now (Z.max 0 (pc_maxBytes c)) c ltac:(lia) (ca_counted _ Hc)) as (_ & Hcfg & Hp).
  set (c1 := pruneExpiredLocked rt now c) in *. injection Hcfg as Ht1 Hm1.
  destruct (Z.ltb_spec (pc_maxBytes c1) (Z.of_nat (List.length data))) as [|Hfit]; [done|].
  assert (Httl : pc_ttl (match pc_items c1 !! id with Some old => dropEntry c1 id old | None => c1 end) = pc_ttl c)
    by (destruct (pc_items c1 !! id); done).
  rewrite Httl. fold (newEntry c meta data now). set (e := newEntry c meta data now).
  assert (He : cached_ok id e).
  { apply bool_decide_eq_false in Eid. apply Nat.eqb_neq in Elen. split_and!; cbn; [done|done|done|lia]. }
  destruct (insert_counted c1 id e _ Hc1 He eq_refl Hfit) as (H2 & Hi2 & Hcfg2).
  change (pe_size e) with (Z.of_nat (List.length data)) in *. set (c2 := with_entries _ _ _) in *.
  intros [= <-]. pose proof (f_equal snd Hcfg2) as Hm2. pose proof (f_equal fst Hcfg2) as Ht2. cbn [fst snd] in Hm2, Ht2.
  assert (Hb2 : 2 * pc_maxBytes c1 < 2 ^ 63) by lia.
  destruct (enforce_budget_spec rt (2 * pc_maxBytes c1) c2 Hb2 H2) as (H3 & Hcfg3 & Hsub & Hbd & Hlru).
  assert (Hsurvives : pc_items (enforceBudgetLocked rt c2) !! id = Some e).
  { unfold enforceBudgetLocked.
    pose proof (proj1 (evict_spec rt (size (pc_items c2)) (2 * pc_maxBytes c1) c2 Hb2 H2 (le_n _))) as Hcl.
    rewrite (clampUsed_counted _ _ Hcl).
    apply (evict_keeps_newest rt _ (2 * pc_maxBytes c1)); [done|done|rewrite Hi2; apply lookup_insert_eq| |].
    - rewrite Hm2. exact Hfit.
    - intros j ej Hj Hne. rewrite Hi2, lookup_insert_ne, Hp in Hj by done.
      destruct (pc_items c !! j) as [x|] eqn:Ex; [|done]. case_bool_decide; [|done]. injection Hj as ->.
      by apply (Hlast j). }
  set (c3 := enforceBudgetLocked rt c2) in *. pose proof (f_equal fst Hcfg3) as Ht3. cbn [fst] in Ht3. split.
  - unfold cacheGet, orClock, IsZero. rewrite (proj2 (Z.eqb_neq t 0)) by done. fold id.
    apply bool_decide_eq_false in Eid. rewrite bool_decide_false by done.
    destruct (prune_spec rt' t (2 * pc_maxBytes c1) c3 Hb2 H3) as (_ & _ & Hp3). rewrite Hp3, Hsurvives.
    unfold live. cbn [e newEntry pe_expiresAt].
    destruct (Z.ltb_spec t (now + pc_ttl c)); [by rewrite bool_decide_true|by rewrite bool_decide_false by lia].
  - intros j ej k ek Hj Hlive Hne Hgone Hk. apply (Hlru j ej k ek); [|done|done].
    rewrite Hi2, lookup_insert_ne, Hp, Hj by done. by rewrite bool_decide_true.
Qed.

(** ** Examples *)

Definition ex_cmeta (id : string) : AttachmentMeta := ex_image id 5 1.

Definition ex_cache : publicEphemeralBlobCache :=
  fold_left run_cache
    [KPut exRuntime 0 (ex_cmeta "a") [1; 2] 10; KPut exRuntime 0 (ex_cmeta "b") [3] 20; KGet exRuntime 0 "a" 30]
    (newPublicEphemeralBlobCache exRuntime 1 1 1).

Lemma cache_stays_within_budget_witness : cache_ok ex_cache /\ pc_used ex_cache = 3.
Proof.
  split; [|vm_compute; reflexivity].
  apply (cache_stays_within_budget exRuntime 1 1 1
    [KPut exRuntime 0 (ex_cmeta "a") [1; 2] 10; KPut exRuntime 0 (ex_cmeta "b") [3] 20; KGet exRuntime 0 "a" 30]).
  - lia.
  - repeat constructor.
Defined.

Lemma cached_blob_is_served_witness :
  snd (cacheGet exRuntime 0 "c" 50 (fst (cachePut exRuntime 0 (ex_cmeta " c ") [7; 8] 40 ex_cache)))
  = Some (ex_cmeta " c ", [7; 8]).
Proof.
  destruct (cached_blob_is_served exRuntime exRuntime 0 0 (ex_cmeta " c ") [7; 8] 40 50 ex_cache
    (fst (cachePut exRuntime 0 (ex_cmeta " c ") [7; 8] 40 ex_cache))) as [H _].
  - apply (run_caches_ok exRuntime 1 1 1
      [KPut exRuntime 0 (ex_cmeta "a") [1; 2] 10; KPut exRuntime 0 (ex_cmeta "b") [3] 20; KGet exRuntime 0 "a" 30]);
      [lia|repeat constructor].
  - discriminate.
  - discriminate.
  - intros id e He.
    assert (Hall : map_Forall (fun _ e => bool_decide (pe_lastAccess e < 40) = true) (pc_items ex_cache))
      by (apply (bool_decide_unpack _); vm_compute; exact I).
    exact (proj1 (bool_decide_eq_true _) (Hall id e He)).
  - apply injective_projections; [reflexivity|vm_compute; reflexivity].
  - vm_compute in H |- *. exact H.
Defined.

(** Entries that were last used at the same instant go in the order of the map: here the new one. *)
Example new_blob_may_be_evicted :
  let full := fst (cachePut exRuntime 0 (ex_cmeta "b") (replicate 6 0) 20 (mkCache Minute 10 0 ∅)) in
  let '(c, ok) := cachePut exRuntime 0 (ex_cmeta "a") (replicate 6 0) 20 full in
  (ok, elements (dom (pc_items c))) = (true, ["b"]).
Proof. vm_compute. reflexivity. Qed.
