(* ===== verification/Session.v ===== *)
(** * End-to-end sessions

    Models internal/crypto (session.go, session_store.go): the session of a contact with its two
    hash ratchets, [Encrypt] and [Decrypt] with the keys of skipped messages, the key agreement
    functions, and the two stores sessions are kept in. HKDF-SHA256, SHA-256,
    XChaCha20-Poly1305, X25519 and encoding/json are interfaces.

    [SessionState.SkippedKeys] is a Go map, that is a reference: the in-memory store hands out and
    takes in states that share it, and [Decrypt] writes through it before the message is
    authenticated. States therefore carry the location of the map in a heap. The other fields are
    never changed in place. The manager takes no lock over [Get] and [Save], so a call is
    also given as its two halves. *)
From S2P Require Import Prelude SecureStore.
From stdpp Require Import base gmap strings list sets option pretty.
From Stdlib Require Import ZArith Lia.
Open Scope string_scope.
Open Scope Z_scope.
Open Scope go_scope.

(** ** Interfaces *)

Class Ratchet := {
  (** hkdf.New(sha256.New, input, nil, info) read for 32 bytes *)
  hkdf32 : list Z -> list Z -> list Z;
  sha256 : list Z -> list Z;
  (** aead.Seal(nil, nonce, plaintext, ad) and aead.Open, by key *)
  sealX : list Z -> list Z -> list Z -> list Z -> list Z;
  openX : list Z -> list Z -> list Z -> list Z -> option (list Z);
  (** curve25519.X25519(scalar, point) *)
  X25519 : list Z -> list Z -> result error (list Z)
}.

(** Documented behaviour: the reader fills the 32 bytes, and a sealed text opens under the same key,
    nonce and additional data and carries a 16-byte tag. *)
Class RatchetLaws (R : Ratchet) : Prop := {
  hkdf32_length : forall input info, length (hkdf32 input info) = 32%nat;
  openX_sealX : forall k n p ad, openX k n (sealX k n p ad) ad = Some p;
  sealX_length : forall k n p ad, length (sealX k n p ad) = (length p + 16)%nat
}.

Definition maxSeenMessageIDs : Z := 1024.
Definition maxSkippedChainGap : Z := 512.
Definition maxSkippedMessageKey : Z := 2048.

(** ** Data *)

Abbreviation SkipMap := (gmap Z (list Z)).

(** The state, by the type of its [SkippedKeys]: a reference ([None] for nil) in memory, the
    contents in a file. *)
Record SessionState (K : Type) := mkSession {
  SessionID : string; ContactID : string; PeerPublicKey : list Z; RootKey : list Z;
  SendChainKey : list Z; RecvChainKey : list Z; SendChainIndex : Z; RecvChainIndex : Z;
  SeenMessageIDs : list string; SkippedKeys : K; CreatedAt : Z; UpdatedAt : Z
}.
Arguments mkSession {K} _ _ _ _ _ _ _ _ _ _ _ _.
Arguments SessionID {K} _. Arguments ContactID {K} _. Arguments PeerPublicKey {K} _.
Arguments RootKey {K} _. Arguments SendChainKey {K} _. Arguments RecvChainKey {K} _.
Arguments SendChainIndex {K} _. Arguments RecvChainIndex {K} _. Arguments SeenMessageIDs {K} _.
Arguments SkippedKeys {K} _. Arguments CreatedAt {K} _. Arguments UpdatedAt {K} _.

Abbreviation SessionRef := (SessionState (option nat)).
Abbreviation SessionVal := (SessionState (option SkipMap)).

Definition with_keys {K K'} (st : SessionState K) (k : K') : SessionState K' :=
  mkSession (SessionID st) (ContactID st) (PeerPublicKey st) (RootKey st) (SendChainKey st)
    (RecvChainKey st) (SendChainIndex st) (RecvChainIndex st) (SeenMessageIDs st) k
    (CreatedAt st) (UpdatedAt st).

(** The assignments of [Encrypt] and of the two branches of [Decrypt]. *)
Definition with_send {K} (st : SessionState K) (ck : list Z) (i now : Z) : SessionState K :=
  mkSession (SessionID st) (ContactID st) (PeerPublicKey st) (RootKey st) ck
    (RecvChainKey st) i (RecvChainIndex st) (SeenMessageIDs st) (SkippedKeys st)
    (CreatedAt st) now.
Definition with_recv {K} (st : SessionState K) (ck : list Z) (i : Z) (seen : list string) (now : Z)
    : SessionState K :=
  mkSession (SessionID st) (ContactID st) (PeerPublicKey st) (RootKey st) (SendChainKey st)
    ck (SendChainIndex st) i seen (SkippedKeys st) (CreatedAt st) now.

(** The maps behind the references. *)
Record SkipHeap := mkSkipHeap { sh_cells : gmap nat SkipMap; sh_next : nat }.

Definition loadKeys (h : SkipHeap) (r : option nat) : option SkipMap :=
  match r with None => None | Some l => Some (default ∅ (sh_cells h !! l)) end.
Definition storeKeys (h : SkipHeap) (l : nat) (m : SkipMap) : SkipHeap :=
  mkSkipHeap (<[l := m]> (sh_cells h)) (sh_next h).
Definition allocKeys (h : SkipHeap) (m : SkipMap) : SkipHeap * nat :=
  (mkSkipHeap (<[sh_next h := m]> (sh_cells h)) (S (sh_next h)), sh_next h).

(** The value of a state. *)
Definition derefSession (h : SkipHeap) (st : SessionRef) : SessionVal :=
  with_keys st (loadKeys h (SkippedKeys st)).

(** A decoded state gets a map of its own (nil for null). *)
Definition materialize (h : SkipHeap) (v : SessionVal) : SkipHeap * SessionRef :=
  match SkippedKeys v with
  | None => (h, with_keys v None)
  | Some m => let '(h', l) := allocKeys h m in (h', with_keys v (Some l))
  end.

Record MessageEnvelope := mkMsgEnvelope {
  me_Version : Z; me_SessionID : string; me_MessageID : string; me_RatchetPubKey : list Z;
  me_ChainIndex : Z; me_PreviousCount : Z; me_Nonce : list Z; me_Ciphertext : list Z;
  me_SentAt : Z
}.

Definition ValidateEnvelope (env : MessageEnvelope) : option error :=
  if me_Version env =? 0 then Some (errorsNew "invalid version") else
  if (me_SessionID env == "") || (me_MessageID env == "")
  then Some (errorsNew "missing identifiers") else
  if (length (me_RatchetPubKey env) =? 0)%nat || negb (length (me_Nonce env) =? nonceSizeX)%nat
     || (length (me_Ciphertext env) =? 0)%nat
  then Some (errorsNew "invalid envelope payload") else None.

(** ** Derivations *)

(** The eight bytes of a [uint64], most significant first. *)
Definition uint64Bytes (idx : Z) : list Z :=
  to_byte <$> [Z.shiftr idx 56; Z.shiftr idx 48; Z.shiftr idx 40; Z.shiftr idx 32;
               Z.shiftr idx 24; Z.shiftr idx 16; Z.shiftr idx 8; idx].

Definition appendUint64Suffix (base : list Z) (idx : Z) : list Z := (base ++ uint64Bytes idx)%list.

Definition envelopeAAD (sessionID messageID : string) (chainIndex : Z) : list Z :=
  (string_bytes sessionID ++ [0] ++ string_bytes messageID ++ [0] ++ uint64Bytes chainIndex)%list.

(** strings.Compare(a, b) <= 0 decides the order. *)
Definition normalizeIDs (a b : string) : string * string :=
  match String.compare a b with Gt => (b, a) | _ => (a, b) end.

Definition seen (ids : list string) (value : string) : bool := existsb (fun v => v == value) ids.

Definition appendSeen (ids : list string) (value : string) (max : Z) : list string :=
  let ids := (ids ++ [value])%list in
  if Z.of_nat (length ids) <=? max then ids else drop (length ids - Z.to_nat max) ids.

(** The entry with the least index; the code finds it by a scan. *)
Definition minIdx (keys : SkipMap) : option Z :=
  match (map_to_list keys).*1 with
  | [] => None
  | i :: rest => Some (foldr Z.min i rest)
  end.

(** [for len(keys) > max]: each round removes one entry, so their number bounds the rounds. *)
Fixpoint dropOldest (fuel : nat) (keys : SkipMap) (max : Z) : SkipMap :=
  match fuel with
  | O => keys
  | S fuel =>
      if Z.of_nat (size keys) <=? max then keys else
      match minIdx keys with
      | None => keys
      | Some i => dropOldest fuel (delete i keys) max
      end
  end.

Definition pruneSkippedKeys (keys : SkipMap) (recvChainIndex max : Z) : SkipMap :=
  let keys := filter (fun '(idx, _) => (u64 (idx + maxSkippedChainGap) <? recvChainIndex) = false)
                keys in
  dropOldest (size keys) keys max.

Section Session.
Context {R : Ratchet}.

Definition kdf32 (input info : list Z) : list Z := hkdf32 input info.

Definition deriveRootKey (localIdentityID contactID : string) (peerPublicKey : list Z) : list Z :=
  let '(idA, idB) := normalizeIDs localIdentityID contactID in
  let salt := string_bytes (idA +:+ ":" +:+ idB) in
  kdf32 peerPublicKey (string_bytes "aim/session/root/v1|" ++ salt)%list.

Definition buildSessionID (localIdentityID contactID : string) (peerPublicKey : list Z) : string :=
  let '(idA, idB) := normalizeIDs localIdentityID contactID in
  let h := sha256 (string_bytes (idA +:+ ":" +:+ idB +:+ ":") ++ peerPublicKey)%list in
  "sess1_" +:+ hexEncode (take 16 h).

(** The sending and the receiving chain key. *)
Definition deriveInitialChainKeys (rootKey : list Z) (localID contactID : string)
    : list Z * list Z :=
  let a2b := kdf32 rootKey (string_bytes "aim/ratchet/chain/a2b/v1") in
  let b2a := kdf32 rootKey (string_bytes "aim/ratchet/chain/b2a/v1") in
  let '(idA, _) := normalizeIDs localID contactID in
  if localID == idA then (a2b, b2a) else (b2a, a2b).

(** The message key and the next chain key. *)
Definition deriveMessageKey (chainKey : list Z) (idx : Z) : list Z * list Z :=
  let seed := appendUint64Suffix chainKey idx in
  (kdf32 seed (string_bytes "aim/ratchet/message-key/v1"),
   kdf32 seed (string_bytes "aim/ratchet/chain-key/v1")).

Definition deriveRatchetPubKey (rootKey : list Z) (idx : Z) : list Z :=
  kdf32 (appendUint64Suffix rootKey idx) (string_bytes "aim/ratchet/pubkey/v1").

(** [for index < env.ChainIndex]: the keys of the messages that are skipped. *)
Fixpoint skipKeys (fuel : nat) (chainKey : list Z) (index target : Z) (keys : SkipMap)
    : list Z * Z * SkipMap :=
  match fuel with
  | O => (chainKey, index, keys)
  | S fuel =>
      if index <? target then
        let '(skippedMsgKey, nextChainKey) := deriveMessageKey chainKey index in
        skipKeys fuel nextChainKey (u64 (index + 1)) target (<[index := skippedMsgKey]> keys)
      else (chainKey, index, keys)
  end.

(** ** The key agreement functions *)

Definition combineDHTriplet (a b c : list Z * list Z) : result error (list Z) :=
  try! dh1 := X25519 (fst a) (snd a) in
  try! dh2 := X25519 (fst b) (snd b) in
  try! dh3 := X25519 (fst c) (snd c) in
  Ok (dh1 ++ dh2 ++ dh3)%list.

Definition baseX3DHMaterial (required : list (list Z)) (a b c : list Z * list Z)
    : result error (list Z) :=
  if existsb (fun key => negb (length key =? 32)%nat) required then Err ErrInvalidPeerKey else
  combineDHTriplet a b c.

Definition X3DHInitiatorSharedSecret (ikPriv ekPriv peerIKPub peerSPKPub peerOPKPub : list Z)
    : result error (list Z) :=
  try! material := baseX3DHMaterial [ikPriv; ekPriv; peerIKPub; peerSPKPub]
                     (ikPriv, peerSPKPub) (ekPriv, peerIKPub) (ekPriv, peerSPKPub) in
  if (length peerOPKPub =? 32)%nat then
    try! dh4 := X25519 ekPriv peerOPKPub in
    Ok (kdf32 (material ++ dh4)%list (string_bytes "aim/x3dh/v1"))
  else Ok (kdf32 material (string_bytes "aim/x3dh/v1")).

Definition X3DHResponderSharedSecret (ikPriv spkPriv opkPriv peerIKPub peerEKPub : list Z)
    (useOPK : bool) : result error (list Z) :=
  try! material := baseX3DHMaterial [ikPriv; spkPriv; peerIKPub; peerEKPub]
                     (spkPriv, peerIKPub) (ikPriv, peerEKPub) (spkPriv, peerEKPub) in
  if useOPK then
    if negb (length opkPriv =? 32)%nat then Err ErrInvalidPeerKey else
    try! dh4 := X25519 opkPriv peerEKPub in
    Ok (kdf32 (material ++ dh4)%list (string_bytes "aim/x3dh/v1"))
  else Ok (kdf32 material (string_bytes "aim/x3dh/v1")).
(** The part of [Decrypt] after the envelope has been matched with the session: it returns what
    the map of skipped keys is in the end, whatever the outcome, and on success the text and the
    state to save. *)
Definition errOpen : error := errorsNew "chacha20poly1305: message authentication failed".

Definition openSealed (key : list Z) (env : MessageEnvelope) (sessionID : string)
    : result error (list Z) :=
  try! aead := newX key in
  match openX aead (me_Nonce env) (me_Ciphertext env)
          (envelopeAAD sessionID (me_MessageID env) (me_ChainIndex env)) with
  | None => Err errOpen
  | Some plaintext => Ok plaintext
  end.

Definition openWith {K} (now : Z) (env : MessageEnvelope) (st : SessionState K) (keys : SkipMap)
    : SkipMap * result error (list Z * SessionState K) :=
  match keys !! me_ChainIndex env with
  | Some skippedKey =>
      match openSealed skippedKey env (SessionID st) with
      | Err err => (keys, Err err)
      | Ok plaintext =>
          (delete (me_ChainIndex env) keys,
           Ok (plaintext, with_recv st (RecvChainKey st) (RecvChainIndex st)
                 (appendSeen (SeenMessageIDs st) (me_MessageID env) maxSeenMessageIDs) now))
      end
  | None =>
      if me_ChainIndex env <? RecvChainIndex st then (keys, Err ErrInvalidChainIndex) else
      if maxSkippedChainGap <? u64 (me_ChainIndex env - RecvChainIndex st)
      then (keys, Err ErrInvalidChainIndex) else
      let '(chainKey, index, keys) :=
        skipKeys (Z.to_nat (me_ChainIndex env - RecvChainIndex st)) (RecvChainKey st)
          (RecvChainIndex st) (me_ChainIndex env) keys in
      let keys := pruneSkippedKeys keys (RecvChainIndex st) maxSkippedMessageKey in
      let '(msgKey, nextChainKey) := deriveMessageKey chainKey index in
      match openSealed msgKey env (SessionID st) with
      | Err err => (keys, Err err)
      | Ok plaintext =>
          let recv := u64 (me_ChainIndex env + 1) in
          let st := with_recv st nextChainKey recv
                      (appendSeen (SeenMessageIDs st) (me_MessageID env) maxSeenMessageIDs) now in
          (pruneSkippedKeys keys recv maxSkippedMessageKey, Ok (plaintext, st))
      end
  end.


(** fmt.Sprintf("dr_%d_%d", ...) *)
Definition messageIDOf (now idx : Z) : string :=
  "dr_" +:+ pretty (UnixNano now) +:+ "_" +:+ pretty idx.

(** What a call of the manager meets: two accesses to the store, the readings of the clock, and
    rand.Read of the nonce. *)
Record CallEnv := mkCall {
  ce_get : StoreEnv; ce_save : StoreEnv; ce_clock : nat -> Z; ce_nonce : result error (list Z)
}.

(** The part of [Encrypt] between loading and saving the state. *)
Definition sealNext {K} (ce : CallEnv) (st : SessionState K) (plaintext : list Z)
    : result error (MessageEnvelope * SessionState K) :=
  let messageID := messageIDOf (ce_clock ce 0) (SendChainIndex st) in
  let '(msgKey, nextChainKey) := deriveMessageKey (SendChainKey st) (SendChainIndex st) in
  try! nonce := ce_nonce ce in
  try! aead := newX msgKey in
  let ad := envelopeAAD (SessionID st) messageID (SendChainIndex st) in
  let ciphertext := sealX aead nonce plaintext ad in
  Ok (mkMsgEnvelope 1 (SessionID st) messageID
        (deriveRatchetPubKey (RootKey st) (SendChainIndex st))
        (SendChainIndex st) (RecvChainIndex st) nonce ciphertext (ce_clock ce 1),
      with_send st nextChainKey (u64 (SendChainIndex st + 1)) (ce_clock ce 2)).

End Session.

(** ** The stores *)

(** The Go interface [SessionStore], with the two optional methods the manager looks for. *)
Class SessionStore (S : Type) := {
  Save : StoreEnv -> SessionRef -> M (SkipHeap * S) error unit;
  Get : StoreEnv -> string -> M (SkipHeap * S) error (option SessionRef);
  All : StoreEnv -> M (SkipHeap * S) error (list SessionRef);
  StoreWipe : option (StoreEnv -> M (SkipHeap * S) error unit);
  StoreSetPersistence : option (bool -> S -> S)
}.

Record InMemorySessionStore := mkInMemory { im_sessions : gmap string SessionRef }.

#[export] Instance InMemory : SessionStore InMemorySessionStore := {
  Save _ st := fun '(h, s) => ((h, mkInMemory (<[ContactID st := st]> (im_sessions s))), Ok tt);
  Get _ contactID := fun '(h, s) => ((h, s), Ok (im_sessions s !! contactID));
  All env := fun '(h, s) => ((h, s), Ok (@rangeMap (env_rt env) _ (im_sessions s)).*2);
  StoreWipe := Some (fun _ '(h, _) => ((h, mkInMemory ∅), Ok tt));
  StoreSetPersistence := None
}.

(** [fs_disk] is the contents of the file at [fs_path]. *)
Record FileSessionStore := mkFileStore {
  fs_path : string; fs_secret : string; fs_persist : bool;
  fs_sessions : gmap string SessionRef; fs_disk : option (list Z)
}.

Definition with_sessions (s : FileSessionStore) (m : gmap string SessionRef) : FileSessionStore :=
  mkFileStore (fs_path s) (fs_secret s) (fs_persist s) m (fs_disk s).
Definition with_file (s : FileSessionStore) (d : option (list Z)) : FileSessionStore :=
  mkFileStore (fs_path s) (fs_secret s) (fs_persist s) (fs_sessions s) d.

Definition NewEncryptedFileSessionStore (path passphrase : string) (disk : option (list Z))
    : FileSessionStore :=
  mkFileStore path passphrase true ∅ disk.

(** json.Marshal and json.Unmarshal of map[string]SessionState. *)
Class SessionCodec := {
  marshalSessions : gmap string SessionVal -> result error (list Z);
  unmarshalSessions : list Z -> result error (gmap string SessionVal)
}.

Section FileStore.
Context {cipher : Cipher} {ecodec : EnvelopeCodec} {scodec : SessionCodec}.

Definition loadAllLocked (env : StoreEnv) (s : FileSessionStore)
    : result error (gmap string SessionVal) :=
  match readFile (fs_disk s) (env_read env) with
  | Err err => if err == fsErrNotExist then Ok ∅ else Err err
  | Ok data =>
      if (length data =? 0)%nat then Ok ∅ else
      try! decoded :=
        (if negb (fs_secret s == "") then
           match Decrypt (fs_secret s) data with
           | Ok plain => Ok plain
           | Err err => if err == ErrLegacyData then Ok data else Err err
           end
         else Ok data) in
      unmarshalSessions decoded
  end.

Definition writeAllLocked (env : StoreEnv) (all : gmap string SessionVal) (s : FileSessionStore)
    : FileSessionStore * result error unit :=
  match wo_mkdir (env_write env) with
  | Some err => (s, Err err)
  | None =>
      match (try! data := marshalSessions all in
             if negb (fs_secret s == "") then Encrypt (env_rand env) (fs_secret s) data
             else Ok data) with
      | Err err => (s, Err err)
      | Ok data =>
          let '(disk, err) := writeFile (env_write env) data in
          (with_file s disk, match err with Some err => Err err | None => Ok tt end)
      end
  end.

(** A load decodes every state afresh; only the ones that are returned are given a location. *)
Definition FileSave (env : StoreEnv) (st : SessionRef)
    : M (SkipHeap * FileSessionStore) error unit := fun '(h, s) =>
  if negb (fs_persist s) then ((h, with_sessions s (<[ContactID st := st]> (fs_sessions s))), Ok tt)
  else
  match loadAllLocked env s with
  | Err err => ((h, s), Err err)
  | Ok all =>
      let '(s', r) := writeAllLocked env (<[ContactID st := derefSession h st]> all) s in
      ((h, s'), r)
  end.

Definition FileGet (env : StoreEnv) (contactID : string)
    : M (SkipHeap * FileSessionStore) error (option SessionRef) := fun '(h, s) =>
  if negb (fs_persist s) then ((h, s), Ok (fs_sessions s !! contactID)) else
  match loadAllLocked env s with
  | Err err => ((h, s), Err err)
  | Ok all =>
      match all !! contactID with
      | None => ((h, s), Ok None)
      | Some v => let '(h', st) := materialize h v in ((h', s), Ok (Some st))
      end
  end.

Fixpoint materializeAll (h : SkipHeap) (vs : list SessionVal) : SkipHeap * list SessionRef :=
  match vs with
  | [] => (h, [])
  | v :: vs =>
      let '(h', st) := materialize h v in
      let '(h'', sts) := materializeAll h' vs in (h'', st :: sts)
  end.

Definition FileAll (env : StoreEnv)
    : M (SkipHeap * FileSessionStore) error (list SessionRef) := fun '(h, s) =>
  if negb (fs_persist s) then ((h, s), Ok (@rangeMap (env_rt env) _ (fs_sessions s)).*2) else
  match loadAllLocked env s with
  | Err err => ((h, s), Err err)
  | Ok all =>
      let '(h', sts) := materializeAll h (@rangeMap (env_rt env) _ all).*2 in
      ((h', s), Ok sts)
  end.

(** os.Remove may fail; a missing file is no error. *)
Definition FileWipe (env : StoreEnv) : M (SkipHeap * FileSessionStore) error unit :=
  fun '(h, s) =>
  let s := with_sessions s ∅ in
  if fs_path s == "" then ((h, s), Ok tt) else
  match fs_disk s, env_remove env with
  | None, None => ((h, s), Ok tt)
  | _, Some err => if err == fsErrNotExist then ((h, s), Ok tt) else ((h, s), Err err)
  | Some _, None => ((h, with_file s None), Ok tt)
  end.

Definition FileSetPersistence (enabled : bool) (s : FileSessionStore) : FileSessionStore :=
  mkFileStore (fs_path s) (fs_secret s) enabled (fs_sessions s) (fs_disk s).

#[export] Instance FileStore : SessionStore FileSessionStore := {
  Save := FileSave; Get := FileGet; All := FileAll;
  StoreWipe := Some FileWipe; StoreSetPersistence := Some FileSetPersistence
}.
End FileStore.

(** ** The session manager *)

Section Manager.
Context {R : Ratchet} {S : Type} {store : SessionStore S}.

Abbreviation W := (SkipHeap * S)%type.
Abbreviation op := (M W error).

Definition InitSession (ce : CallEnv) (localIdentityID contactID : string)
    (peerPublicKey : list Z) : op SessionRef :=
  rejectM (contactID == "") ErrInvalidContact ;;!
  rejectM (negb (length peerPublicKey =? 32)%nat) ErrInvalidPeerKey ;;!
  let rootKey := deriveRootKey localIdentityID contactID peerPublicKey in
  let '(sendCK, recvCK) := deriveInitialChainKeys rootKey localIdentityID contactID in
  let id := buildSessionID localIdentityID contactID peerPublicKey in
  let now := ce_clock ce 0 in
  fun '(h, s) =>
    let '(h, l) := allocKeys h ∅ in
    let state := mkSession id contactID peerPublicKey rootKey sendCK recvCK 0 0 [] (Some l) now now in
    (Save (ce_save ce) state ;;! retM state) (h, s).

Definition GetSession (env : StoreEnv) (contactID : string) : op (option SessionRef) :=
  Get env contactID.

Definition Snapshot (env : StoreEnv) : op (list SessionRef) := All env.

Fixpoint RestoreSnapshot (envs : nat -> StoreEnv) (states : list SessionRef) : op unit :=
  match states with
  | [] => retM tt
  | state :: states =>
      Save (envs O) state ;;!
      RestoreSnapshot (fun n => envs (Datatypes.S n)) states
  end.

Definition ManagerWipe (env : StoreEnv) : op unit :=
  match StoreWipe with Some wipe => wipe env | None => retM tt end.

Definition ManagerSetPersistenceEnabled (enabled : bool) : op unit := fun '(h, s) =>
  ((h, match StoreSetPersistence with Some set => set enabled s | None => s end), Ok tt).

(** The session of a contact, or the error. *)
Definition loadSession (env : StoreEnv) (contactID : string) : op SessionRef :=
  let! found := Get env contactID in
  match found with None => failM ErrSessionNotFound | Some st => retM st end.

Definition EncryptMessage (ce : CallEnv) (contactID : string) (plaintext : list Z)
    : op MessageEnvelope :=
  let! state := loadSession (ce_get ce) contactID in
  let! '(env, state) := liftM (sealNext ce state plaintext) in
  Save (ce_save ce) state ;;!
  retM env.

(** [openWith] on the map the state refers to (a new one for nil). *)
Definition openRef (now : Z) (env : MessageEnvelope) (state : SessionRef)
    : op (list Z * SessionRef) := fun '(h, s) =>
  let '(h, l) := match SkippedKeys state with Some l => (h, l) | None => allocKeys h ∅ end in
  let '(keys, r) := openWith now env (with_keys state (Some l)) (default ∅ (sh_cells h !! l)) in
  ((storeKeys h l keys, s), r).

Definition DecryptMessage (ce : CallEnv) (contactID : string) (env : MessageEnvelope)
    : op (list Z) :=
  liftM (match ValidateEnvelope env with Some err => Err err | None => Ok tt end) ;;!
  let! state := loadSession (ce_get ce) contactID in
  rejectM (negb (me_SessionID env == SessionID state)) (errorsNew "session mismatch") ;;!
  rejectM (seen (SeenMessageIDs state) (me_MessageID env)) ErrReplayDetected ;;!
  let! '(plaintext, state) := openRef (ce_clock ce 0) env state in
  Save (ce_save ce) state ;;!
  retM plaintext.
End Manager.

(** [ReplayGuard]: the keys seen so far. *)
Definition ReplayGuard_Seen (g : gset string) (sessionID messageID : string) : gset string * bool :=
  let key := sessionID +:+ ":" +:+ messageID in
  if bool_decide (key ∈ g) then (g, true) else ({[key]} ∪ g, false).

(** ** What the operations do to the value of a session *)

Section Values.
Context {R : Ratchet}.

Definition keysOf (v : SessionVal) : SkipMap := default ∅ (SkippedKeys v).

Definition decryptVal (now : Z) (env : MessageEnvelope) (v : SessionVal)
    : result error (list Z * SessionVal) :=
  match ValidateEnvelope env with
  | Some err => Err err
  | None =>
      if negb (me_SessionID env == SessionID v) then Err (errorsNew "session mismatch") else
      if seen (SeenMessageIDs v) (me_MessageID env) then Err ErrReplayDetected else
      let '(keys, r) := openWith now env v (keysOf v) in
      try! pv := r in
      Ok (fst pv, with_keys (snd pv) (Some keys))
  end.
End Values.

(** ** The ratchet *)

Section RatchetLemmas.
Context {R : Ratchet}.

(** The chain key after [n] steps, and the key of message [i]. *)
Fixpoint chainAt (ck0 : list Z) (n : nat) : list Z :=
  match n with
  | O => ck0
  | S n => snd (deriveMessageKey (chainAt ck0 n) (Z.of_nat n))
  end.
Definition chainKey (ck0 : list Z) (i : Z) : list Z := chainAt ck0 (Z.to_nat i).
Definition msgKey (ck0 : list Z) (i : Z) : list Z := fst (deriveMessageKey (chainKey ck0 i) i).

Lemma chainKey_succ ck0 i :
  0 <= i -> snd (deriveMessageKey (chainKey ck0 i) i) = chainKey ck0 (i + 1).
Proof.
  intros Hi. unfold chainKey. rewrite Z2Nat.inj_add by lia.
  rewrite Nat.add_1_r. cbn [chainAt]. by rewrite Z2Nat.id.
Qed.

Lemma deriveMessageKey_chain ck0 i :
  0 <= i -> deriveMessageKey (chainKey ck0 i) i = (msgKey ck0 i, chainKey ck0 (i + 1)).
Proof. intros Hi. rewrite <- chainKey_succ by done. unfold msgKey. by destruct (deriveMessageKey _ _). Qed.

(** The loop of [Decrypt] runs to the target and leaves the keys in between. *)
Lemma skipKeys_spec ck0 n i keys :
  0 <= i -> i + Z.of_nat n < 2 ^ 64 ->
  exists keys', skipKeys n (chainKey ck0 i) i (i + Z.of_nat n) keys
                = (chainKey ck0 (i + Z.of_nat n), i + Z.of_nat n, keys')
    /\ forall j, keys' !! j = if bool_decide (i <= j < i + Z.of_nat n)
                             then Some (msgKey ck0 j) else keys !! j.
Proof.
  revert i keys. induction n as [|n IH]; intros i keys Hi Hn; cbn [skipKeys].
  - exists keys. rewrite Z.add_0_r. split; [done|]. intros j. case_bool_decide; [lia|done].
  - destruct (Z.ltb_spec i (i + Z.of_nat (S n))); [|lia].
    rewrite deriveMessageKey_chain, u64_small by lia.
    destruct (IH (i + 1) (<[i := msgKey ck0 i]> keys)) as (keys' & He & Hk); [lia..|].
    replace (i + Z.of_nat (S n)) with (i + 1 + Z.of_nat n) by lia.
    exists keys'. split; [done|]. intros j. rewrite Hk.
    destruct (decide (j = i)) as [->|Hj].
    + rewrite lookup_insert_eq. repeat case_bool_decide; try done; lia.
    + rewrite lookup_insert_ne by done. repeat case_bool_decide; try done; lia.
Qed.

(** A map whose indices lie in an interval is no larger than the interval. *)
Lemma size_interval (keys : SkipMap) (a : Z) (n : nat) :
  (forall j k, keys !! j = Some k -> a <= j < a + Z.of_nat n) -> (size keys <= n)%nat.
Proof.
  intros Hin. rewrite <- size_dom.
  transitivity (size (list_to_set (seqZ a (Z.of_nat n)) : gset Z)).
  - apply subseteq_size. intros j [k Hk]%elem_of_dom.
    apply elem_of_list_to_set, elem_of_seqZ, (Hin j k Hk).
  - rewrite size_list_to_set by apply NoDup_seqZ. rewrite length_seqZ. lia.
Qed.

(** Within the bound pruning only closes the window. *)
Lemma prune_interval keys recv a n max :
  0 <= a -> a + Z.of_nat n + maxSkippedChainGap <= 2 ^ 64 -> Z.of_nat n <= max ->
  (forall j k, keys !! j = Some k -> a <= j < a + Z.of_nat n) ->
  forall j, pruneSkippedKeys keys recv max !! j
            = if bool_decide (recv - maxSkippedChainGap <= j) then keys !! j else None.
Proof.
  unfold maxSkippedChainGap. intros Ha Hw Hmax Hin j. unfold pruneSkippedKeys.
  set (kept := filter _ _).
  assert (Hkept : forall j k, kept !! j = Some k -> a <= j < a + Z.of_nat n).
  { intros j' k [Hk _]%map_lookup_filter_Some. by apply (Hin j' k). }
  assert (Hsize : (Z.of_nat (size kept) <=? max) = true).
  { apply Z.leb_le. apply size_interval in Hkept. lia. }
  replace (dropOldest (size kept) kept max) with kept.
  2:{ destruct (size kept) eqn:E; cbn [dropOldest]; [done|]. by rewrite E, Hsize. }
  destruct (keys !! j) as [k|] eqn:E.
  - pose proof (Hin j k E). case_bool_decide.
    + apply map_lookup_filter_Some. split; [done|]. cbn. unfold maxSkippedChainGap.
      rewrite u64_small by lia. apply Z.ltb_ge. lia.
    + apply map_lookup_filter_None. right. intros k' _. cbn. unfold maxSkippedChainGap.
      rewrite u64_small by lia. rewrite Z.ltb_ge. lia.
  - case_bool_decide; apply map_lookup_filter_None; by left.
Qed.
End RatchetLemmas.

(** ** The receiving window *)

Section Window.
Context {R : Ratchet}.

(** The indices an envelope may carry for the machine arithmetic not to wrap. *)
Definition index_ok (i : Z) : Prop := 0 <= i < 2 ^ 64 - maxSkippedChainGap.

(** The receiving side of a session is at [RecvChainIndex] of the chain from [ck0], and the keys it
    keeps are those of messages of that chain at most 512 behind. *)
Record recv_ok {K} (ck0 : list Z) (st : SessionState K) (keys : SkipMap) : Prop := {
  ro_range : 0 <= RecvChainIndex st <= 2 ^ 64 - maxSkippedChainGap;
  ro_chain : RecvChainKey st = chainKey ck0 (RecvChainIndex st);
  ro_keys : forall j k, keys !! j = Some k ->
    0 <= j /\ RecvChainIndex st - maxSkippedChainGap <= j < RecvChainIndex st /\ k = msgKey ck0 j
}.

(** An index that can be opened: one that was skipped, or one not too far ahead. *)
Definition acceptable {K} (st : SessionState K) (keys : SkipMap) (i : Z) : Prop :=
  is_Some (keys !! i) \/ RecvChainIndex st <= i <= RecvChainIndex st + maxSkippedChainGap.

Definition nextRecv (recv i : Z) : Z := if i <? recv then recv else i + 1.

(** The keys after message [i] has been opened. *)
Definition keys_after (ck0 : list Z) (recv i : Z) (keys keys' : SkipMap) : Prop :=
  forall j, keys' !! j =
    if bool_decide (j <> i /\ nextRecv recv i - maxSkippedChainGap <= j)
    then (if bool_decide (recv <= j < i) then Some (msgKey ck0 j) else keys !! j) else None.

Definition opened {K} (ck0 : list Z) (now : Z) (env : MessageEnvelope) (st : SessionState K)
    : SessionState K :=
  let next := nextRecv (RecvChainIndex st) (me_ChainIndex env) in
  with_recv st (chainKey ck0 next) next
    (appendSeen (SeenMessageIDs st) (me_MessageID env) maxSeenMessageIDs) now.

Lemma openWith_skipped {K} ck0 now env (st : SessionState K) keys k :
  recv_ok ck0 st keys -> keys !! me_ChainIndex env = Some k ->
  match openSealed (msgKey ck0 (me_ChainIndex env)) env (SessionID st) with
  | Ok p => exists keys', openWith now env st keys = (keys', Ok (p, opened ck0 now env st))
              /\ keys_after ck0 (RecvChainIndex st) (me_ChainIndex env) keys keys'
  | Err e => openWith now env st keys = (keys, Err e)
  end.
Proof.
  intros Hok Hk. destruct (ro_keys _ _ _ Hok _ _ Hk) as (Hi & Hr & ->).
  unfold openWith. rewrite Hk. destruct (openSealed _ _ _) as [p|e]; [|done].
  exists (delete (me_ChainIndex env) keys).
  assert (Hn : nextRecv (RecvChainIndex st) (me_ChainIndex env) = RecvChainIndex st).
  { unfold nextRecv. by rewrite (proj2 (Z.ltb_lt _ _)) by lia. }
  split.
  - unfold opened. rewrite Hn. by rewrite <- (ro_chain _ _ _ Hok).
  - intros j. rewrite Hn. destruct (decide (j = me_ChainIndex env)) as [->|Hj].
    + rewrite lookup_delete_eq. case_bool_decide; [naive_solver|done].
    + rewrite lookup_delete_ne by done. case_bool_decide as H1; [case_bool_decide; [lia|done]|].
      destruct (keys !! j) as [k|] eqn:E; [|done]. apply (ro_keys _ _ _ Hok) in E.
      exfalso. apply H1. split; [done|lia].
Qed.

Lemma openWith_ahead {K} ck0 now env (st : SessionState K) keys :
  recv_ok ck0 st keys -> index_ok (me_ChainIndex env) ->
  keys !! me_ChainIndex env = None ->
  RecvChainIndex st <= me_ChainIndex env <= RecvChainIndex st + maxSkippedChainGap ->
  exists keys1, (forall j k, keys1 !! j = Some k ->
                   RecvChainIndex st - maxSkippedChainGap <= j < me_ChainIndex env /\ 0 <= j)
  /\ match openSealed (msgKey ck0 (me_ChainIndex env)) env (SessionID st) with
     | Ok p => exists keys', openWith now env st keys = (keys', Ok (p, opened ck0 now env st))
                 /\ keys_after ck0 (RecvChainIndex st) (me_ChainIndex env) keys keys'
     | Err e => openWith now env st keys = (keys1, Err e)
     end.
Proof.
  unfold index_ok, maxSkippedChainGap. intros Hok Hi Hk Hr.
  pose proof (ro_range _ _ _ Hok) as Hrr.
  set (i := me_ChainIndex env) in *. set (recv := RecvChainIndex st) in *.
  unfold openWith. fold i recv. rewrite Hk.
  rewrite (proj2 (Z.ltb_ge i recv)) by lia. unfold maxSkippedChainGap in *.
  rewrite u64_small, (proj2 (Z.ltb_ge _ _)) by lia.
  destruct (skipKeys_spec ck0 (Z.to_nat (i - recv)) recv keys) as (keys0 & He & Hk0); [lia..|].
  rewrite (ro_chain _ _ _ Hok). fold recv.
  rewrite Z2Nat.id in He, Hk0 by lia. replace (recv + (i - recv)) with i in He, Hk0 by lia.
  rewrite He. rewrite deriveMessageKey_chain by lia.
  assert (Hb : forall j k, keys0 !! j = Some k -> 0 <= j /\ recv - 512 <= j < i).
  { intros j k Hj. rewrite Hk0 in Hj. case_bool_decide; [lia|].
    apply (ro_keys _ _ _ Hok) in Hj. fold recv in Hj. unfold maxSkippedChainGap in Hj. lia. }
  assert (Hp : forall ks r, (forall j k, ks !! j = Some k -> keys0 !! j = Some k) -> forall j,
             pruneSkippedKeys ks r maxSkippedMessageKey !! j
             = if bool_decide (r - 512 <= j) then ks !! j else None).
  { intros ks r Hs. apply (prune_interval ks r (Z.max 0 (recv - 512))
      (Z.to_nat (i - Z.max 0 (recv - 512)))); unfold maxSkippedChainGap, maxSkippedMessageKey;
      [lia..|]. intros j k Hj%Hs%Hb. lia. }
  set (keys1 := pruneSkippedKeys keys0 recv maxSkippedMessageKey).
  assert (Hb1 : forall j k, keys1 !! j = Some k -> keys0 !! j = Some k).
  { intros j k. unfold keys1. rewrite Hp by done. by case_bool_decide. }
  exists keys1. split; [intros j k Hj%Hb1%Hb; lia|].
  destruct (openSealed _ _ _) as [p|e]; [|done]. rewrite u64_small by lia.
  assert (Hn : nextRecv recv i = i + 1).
  { unfold nextRecv. by rewrite (proj2 (Z.ltb_ge i recv)) by lia. }
  eexists. split; [unfold opened; fold i recv; by rewrite Hn|].
  intros j. rewrite Hn, Hp by done. unfold keys1. rewrite Hp, Hk0 by done.
  unfold maxSkippedChainGap. destruct (decide (j = i)) as [->|Hj].
  - rewrite Hk. repeat case_bool_decide; try done; lia.
  - assert (Hlow : j < recv - 512 -> keys !! j = None).
    { intros Hlow. destruct (keys !! j) eqn:E; [|done]. apply (ro_keys _ _ _ Hok) in E.
      fold recv in E. unfold maxSkippedChainGap in E. lia. }
    repeat case_bool_decide; try done; try lia; rewrite Hlow by lia; done.
Qed.

Lemma openWith_accepts {K} ck0 now env (st : SessionState K) keys p :
  recv_ok ck0 st keys -> index_ok (me_ChainIndex env) ->
  acceptable st keys (me_ChainIndex env) ->
  openSealed (msgKey ck0 (me_ChainIndex env)) env (SessionID st) = Ok p ->
  exists keys', openWith now env st keys = (keys', Ok (p, opened ck0 now env st))
    /\ keys_after ck0 (RecvChainIndex st) (me_ChainIndex env) keys keys'.
Proof.
  intros Hok Hi Ha Ho. destruct (keys !! me_ChainIndex env) as [k|] eqn:Hk.
  - pose proof (openWith_skipped ck0 now env st keys k Hok Hk) as H. by rewrite Ho in H.
  - destruct Ha as [[k Ha]|Ha]; [congruence|].
    destruct (openWith_ahead ck0 now env st keys Hok Hi Hk Ha) as (keys1 & _ & H).
    by rewrite Ho in H.
Qed.

(** Whatever is opened was acceptable and sealed under the key of its index. *)
Lemma openWith_ok {K} ck0 now env (st : SessionState K) keys keys' p st' :
  recv_ok ck0 st keys -> index_ok (me_ChainIndex env) ->
  openWith now env st keys = (keys', Ok (p, st')) ->
  acceptable st keys (me_ChainIndex env)
  /\ openSealed (msgKey ck0 (me_ChainIndex env)) env (SessionID st) = Ok p
  /\ st' = opened ck0 now env st
  /\ keys_after ck0 (RecvChainIndex st) (me_ChainIndex env) keys keys'.
Proof.
  intros Hok Hi Hrun. destruct (keys !! me_ChainIndex env) as [k|] eqn:Hk.
  - pose proof (openWith_skipped ck0 now env st keys k Hok Hk) as H.
    destruct (openSealed _ _ _) as [q|e]; [|congruence]. destruct H as (keys2 & He & Hks).
    rewrite He in Hrun. injection Hrun as <- <- <-. split; [left; eauto|done].
  - destruct (decide (RecvChainIndex st <= me_ChainIndex env
                      <= RecvChainIndex st + maxSkippedChainGap)) as [Ha|Ha].
    + destruct (openWith_ahead ck0 now env st keys Hok Hi Hk Ha) as (keys1 & _ & H).
      destruct (openSealed _ _ _) as [q|e]; [|congruence]. destruct H as (keys2 & He & Hks).
      rewrite He in Hrun. injection Hrun as <- <- <-. split; [by right|done].
    + revert Hrun. unfold openWith. rewrite Hk. pose proof (ro_range _ _ _ Hok).
      unfold index_ok, maxSkippedChainGap in *.
      destruct (Z.ltb_spec (me_ChainIndex env) (RecvChainIndex st)); [done|].
      rewrite u64_small by lia.
      destruct (Z.ltb_spec 512 (me_ChainIndex env - RecvChainIndex st)); [done|lia].
Qed.

Lemma opened_recv_ok {K} ck0 now env (st : SessionState K) keys keys' :
  recv_ok ck0 st keys -> index_ok (me_ChainIndex env) ->
  keys_after ck0 (RecvChainIndex st) (me_ChainIndex env) keys keys' ->
  recv_ok ck0 (opened ck0 now env st) keys'.
Proof.
  unfold index_ok. intros Hok Hi Ha. pose proof (ro_range _ _ _ Hok) as Hr.
  constructor; [|done|]; cbn [RecvChainIndex opened with_recv]; unfold nextRecv;
    destruct (Z.ltb_spec (me_ChainIndex env) (RecvChainIndex st)) as [Hl|Hl]; try lia.
  all: intros j k Hj; rewrite Ha in Hj; unfold nextRecv in Hj.
  all: destruct (Z.ltb_spec (me_ChainIndex env) (RecvChainIndex st)); try lia.
  all: case_bool_decide as H1; [|done]; case_bool_decide as H2;
    [injection Hj as <-; repeat split; lia|apply (ro_keys _ _ _ Hok) in Hj as (? & ? & ->);
     repeat split; lia].
Qed.

(** A message that can never be opened again. *)
Definition consumed {K} (st : SessionState K) (keys : SkipMap) (i : Z) : Prop :=
  i < RecvChainIndex st /\ keys !! i = None.

Lemma consumed_not_acceptable {K} (st : SessionState K) keys i :
  consumed st keys i -> ~ acceptable st keys i.
Proof. intros [Hi Hk] [[k Hs]|Ha]; [congruence|lia]. Qed.

Lemma opened_consumes {K} ck0 now env (st : SessionState K) keys keys' :
  keys_after ck0 (RecvChainIndex st) (me_ChainIndex env) keys keys' ->
  consumed (opened ck0 now env st) keys' (me_ChainIndex env)
  /\ forall j, consumed st keys j -> consumed (opened ck0 now env st) keys' j.
Proof.
  intros Ha. unfold consumed. cbn [RecvChainIndex opened with_recv]. split.
  - rewrite Ha. split; [|case_bool_decide; naive_solver].
    unfold nextRecv. destruct (Z.ltb_spec (me_ChainIndex env) (RecvChainIndex st)); lia.
  - intros j [Hj Hk]. rewrite Ha. split.
    + unfold nextRecv. destruct (Z.ltb_spec (me_ChainIndex env) (RecvChainIndex st)); lia.
    + case_bool_decide; [|done]. case_bool_decide; [lia|done].
Qed.
End Window.
