(* ===== verification/SessionSafety.v ===== *)
(** * What sessions guarantee

    The theorems about the sessions of Session.v: an interface for stores that share nothing with
    the states they hand out, which the file store implements, and against it the delivery of
    messages in any order, the protection against double use and the bound on kept keys; what
    concurrent sends and the in-memory store do; and the key agreement. *)
From S2P Require Import Prelude SecureStore Session.
From stdpp Require Import base gmap strings list sets option pretty relations.
From Stdlib Require Import ZArith Lia.
Open Scope string_scope.
Open Scope Z_scope.
Open Scope go_scope.

(** ** What a store promises to the manager

    A store is isolated when the states it holds do not depend on the heap: what it hands out
    can be written to without any effect on what it holds. *)

Class IsolatedStore (S : Type) `{SessionStore S} := {
  holds : S -> gmap string SessionVal -> Prop;
  holds_unique : forall s vals vals', holds s vals -> holds s vals' -> vals = vals';
  Get_isolated : forall env contactID h s vals, env_ok env -> holds s vals ->
    match vals !! contactID with
    | None => Get env contactID (h, s) = ((h, s), Ok None)
    | Some v => exists h' st, Get env contactID (h, s) = ((h', s), Ok (Some st))
                              /\ derefSession h' st = v
    end;
  Save_isolated : forall env st h s vals, env_ok env -> holds s vals ->
    exists s', Save env st (h, s) = ((h, s'), Ok tt)
               /\ holds s' (<[ContactID st := derefSession h st]> vals)
}.

(** encoding/json encodes the sessions and reads them back. *)
Class SessionCodecLaws (C : SessionCodec) : Prop := {
  sessions_roundtrip : forall all, exists bs, bs <> [] /\ marshalSessions all = Ok bs
                                              /\ unmarshalSessions bs = Ok all
}.

Lemma with_keys_twice {K1 K2 K3} (st : SessionState K1) (k2 : K2) (k3 : K3) :
  with_keys (with_keys st k2) k3 = with_keys st k3.
Proof. done. Qed.

Lemma with_keys_same {K} (st : SessionState K) : with_keys st (SkippedKeys st) = st.
Proof. by destruct st. Qed.

Lemma materialize_deref h v : let '(h', st) := materialize h v in derefSession h' st = v.
Proof.
  unfold materialize, derefSession. destruct (SkippedKeys v) as [m|] eqn:E; cbn [allocKeys].
  - rewrite with_keys_twice. cbn. rewrite lookup_insert_eq. cbn. rewrite <- E. apply with_keys_same.
  - rewrite with_keys_twice. cbn. rewrite <- E. apply with_keys_same.
Qed.

Section FileStoreIsolated.
Context {cipher : Cipher} {ecodec : EnvelopeCodec} {scodec : SessionCodec}
  `{!CipherLaws cipher} `{!EnvelopeCodecLaws ecodec} `{!SessionCodecLaws scodec}.

(** The file store with persistence on holds what loading its file gives. *)
Definition file_holds (s : FileSessionStore) (vals : gmap string SessionVal) : Prop :=
  fs_persist s = true /\ forall env, env_read env = None -> loadAllLocked env s = Ok vals.

Lemma Encrypt_nonempty r pass p data : Encrypt r pass p = Ok data -> data <> [].
Proof.
  unfold Encrypt, bindR. destruct (EncryptEnvelope _ _ _); [|done]. by intros [= <-].
Qed.

Lemma writeAll_load env all s :
  env_ok env ->
  exists d, writeAllLocked env all s = (with_file s d, Ok tt)
    /\ forall env', env_read env' = None -> loadAllLocked env' (with_file s d) = Ok all.
Proof.
  intros (Hr & _ & [Hmk Hwr] & _). destruct (sessions_roundtrip all) as (bs & Hne & Hm & Hu).
  unfold writeAllLocked, loadAllLocked. rewrite Hmk, Hm. cbn [bindR fs_disk fs_secret with_file].
  assert (Hlen : forall l : list Z, l <> [] -> (length l =? 0)%nat = false) by (by intros []).
  case_bool_decide; cbn [negb].
  - unfold writeFile. rewrite Hwr. exists (Some bs). split; [done|].
    intros env' He. unfold readFile. rewrite He, Hlen by done. by cbn.
  - destruct (Encrypt_Decrypt (env_rand env) (fs_secret s) bs Hr) as (data & Henc & Hdec).
    rewrite Henc. unfold writeFile. rewrite Hwr. exists (Some data). split; [done|].
    intros env' He. unfold readFile. rewrite He, Hlen, Hdec by by eapply Encrypt_nonempty. by cbn.
Qed.

#[export] Program Instance FileStore_isolated : IsolatedStore FileSessionStore := {
  holds := file_holds
}.
Next Obligation.
  intros s vals vals' [_ Hl] [_ Hl'].
  pose proof (Hl (mkEnv exRuntime ex_random None (mkWrite None None) None) eq_refl) as E.
  rewrite Hl' in E by done. congruence.
Qed.
Next Obligation.
  intros env c h s vals (_ & Hrd & _) [Hp Hl]. specialize (Hl env Hrd).
  cbn [Get FileStore]. unfold FileGet. rewrite Hp, Hl. cbn [negb].
  destruct (vals !! c) as [v|]; [|done].
  pose proof (materialize_deref h v) as Hd. destruct (materialize h v) as [h' st]. eauto.
Qed.
Next Obligation.
  intros env st h s vals Hok [Hp Hl]. assert (Hrd := Hok). destruct Hrd as (_ & Hrd & _).
  cbn [Save FileStore]. unfold FileSave. rewrite Hp, (Hl env Hrd). cbn [negb].
  destruct (writeAll_load env (<[ContactID st := derefSession h st]> vals) s Hok) as (d & Hw & Hd).
  rewrite Hw. exists (with_file s d). split; [done|]. by split.
Qed.
End FileStoreIsolated.

(** ** The manager on an isolated store *)

Section Isolated.
Context {R : Ratchet} {S : Type} {store : SessionStore S} {iso : IsolatedStore S}.

Abbreviation W := (SkipHeap * S)%type.

(** The accesses to the store succeed, and a full nonce is read. *)
Definition call_ok (ce : CallEnv) : Prop :=
  env_ok (ce_get ce) /\ env_ok (ce_save ce)
  /\ exists n, ce_nonce ce = Ok n /\ length n = nonceSizeX.

Lemma openWith_with_keys {K K'} now env (st : SessionState K) (k : K') m :
  openWith now env (with_keys st k) m =
    let '(m', r) := openWith now env st m in
    (m', match r with Ok (p, st') => Ok (p, with_keys st' k) | Err e => Err e end).
Proof.
  unfold openWith. cbn [SessionID RecvChainIndex RecvChainKey SeenMessageIDs with_keys].
  repeat case_match; simplify_eq/=; done.
Qed.

Lemma sealNext_with_keys {K K'} ce (st : SessionState K) (k : K') p :
  sealNext ce (with_keys st k) p =
    match sealNext ce st p with Ok (e, st') => Ok (e, with_keys st' k) | Err e => Err e end.
Proof.
  unfold sealNext, bindR.
  cbn [SessionID SendChainIndex SendChainKey RecvChainIndex RootKey with_keys].
  repeat case_match; simplify_eq/=; done.
Qed.

Lemma openRef_value now env st h (s : S) :
  exists h', openRef now env st (h, s) = ((h', s),
    snd (openRef now env st (h, s)))
  /\ match snd (openWith now env (derefSession h st) (keysOf (derefSession h st))) with
     | Err e => snd (openRef now env st (h, s)) = Err e
     | Ok (p, v) => exists st', snd (openRef now env st (h, s)) = Ok (p, st')
         /\ derefSession h' st' = with_keys v
              (Some (fst (openWith now env (derefSession h st) (keysOf (derefSession h st)))))
     end.
Proof.
  unfold openRef, keysOf, derefSession. cbn [SkippedKeys with_keys].
  destruct (SkippedKeys st) as [l|] eqn:El; cbn [loadKeys allocKeys default].
  - rewrite !openWith_with_keys.
    destruct (openWith now env st _) as [m' [[p st']|e]]; cbn [fst snd]; eexists; (split; [done|]);
      [|done].
    eexists. split; [done|]. rewrite with_keys_twice. cbn. rewrite lookup_insert_eq. by cbn.
  - rewrite !openWith_with_keys. cbn. rewrite lookup_insert_eq. cbn.
    destruct (openWith now env st _) as [m' [[p st']|e]]; cbn [fst snd]; eexists; (split; [done|]);
      [|done].
    eexists. split; [done|]. rewrite with_keys_twice. cbn. rewrite lookup_insert_eq. by cbn.
Qed.

(** [Decrypt] on an isolated store does to the value of the session what [decryptVal] says, and
    nothing when that fails. *)
Lemma decrypt_isolated ce c env h s vals :
  call_ok ce -> holds s vals ->
  exists h' s' r, DecryptMessage ce c env (h, s) = ((h', s'), r) /\
    match vals !! c with
    | None => is_ok r = false /\ s' = s
    | Some v =>
        match decryptVal (ce_clock ce 0) env v with
        | Err e => r = Err e /\ s' = s
        | Ok (p, v') => r = Ok p /\ holds s' (<[ContactID v' := v']> vals)
        end
    end.
Proof.
  intros (Hg & Hs & _) Hh. pose proof (Get_isolated _ c h s vals Hg Hh) as HG.
  unfold DecryptMessage, decryptVal, loadSession. run.
  destruct (ValidateEnvelope env) as [e|]; [by destruct (vals !! c); eexists _, _, _|].
  destruct (vals !! c) as [v|]; [|rewrite HG; by eexists _, _, _].
  destruct HG as (h1 & st & HG & Hd). rewrite HG.
  replace (SessionID v) with (SessionID st) by (by rewrite <- Hd).
  replace (SeenMessageIDs v) with (SeenMessageIDs st) by (by rewrite <- Hd).
  destruct (negb _); [by eexists _, _, _|]. destruct (seen _ _); [by eexists _, _, _|].
  destruct (openRef_value (ce_clock ce 0) env st h1 s) as (h2 & Ho & Hv). rewrite Hd in Hv.
  destruct (openWith _ _ _ _) as [keys [[p v']|e]]; cbn [fst snd] in Hv.
  - destruct Hv as (st' & Hst & Hv). rewrite Ho, Hst.
    destruct (Save_isolated (ce_save ce) st' h2 s vals Hs Hh) as (s' & Hsave & Hh').
    rewrite Hsave. eexists _, _, _. split; [done|]. split; [done|]. rewrite Hv in Hh'.
    cbn [fst snd with_keys ContactID].
    pose proof (f_equal ContactID Hv) as Hc. cbn in Hc. by rewrite Hc in Hh'.
  - rewrite Ho, Hv. by eexists _, _, _.
Qed.

(** [Encrypt] likewise, with [sealNext] on the value. *)
Lemma encrypt_isolated ce c p h s vals :
  call_ok ce -> holds s vals ->
  exists h' s' r, EncryptMessage ce c p (h, s) = ((h', s'), r) /\
    match vals !! c with
    | None => is_ok r = false /\ s' = s
    | Some v =>
        match sealNext ce v p with
        | Err e => r = Err e /\ s' = s
        | Ok (env, v') => r = Ok env /\ holds s' (<[ContactID v' := v']> vals)
        end
    end.
Proof.
  intros (Hg & Hs & _) Hh. pose proof (Get_isolated _ c h s vals Hg Hh) as HG.
  unfold EncryptMessage, loadSession. run.
  destruct (vals !! c) as [v|]; [|rewrite HG; by eexists _, _, _].
  destruct HG as (h1 & st & HG & Hd). rewrite HG. rewrite <- Hd. unfold derefSession.
  rewrite sealNext_with_keys. destruct (sealNext ce st p) as [[env st']|e] eqn:E;
    [|by eexists _, _, _].
  destruct (Save_isolated (ce_save ce) st' h1 s vals Hs Hh) as (s' & Hsave & Hh').
  rewrite Hsave. eexists _, _, _. split; [done|]. split; [done|].
  replace (SkippedKeys st) with (SkippedKeys st'); [done|].
  revert E. unfold sealNext, bindR. repeat case_match; intros; simplify_eq/=; done.
Qed.

(** *** The invariant of the sessions a store holds *)

Definition sessions_ok (vals : gmap string SessionVal) : Prop :=
  map_Forall (fun c v => ContactID v = c /\ exists ck0, recv_ok ck0 v (keysOf v)) vals.

Definition world_ok (w : W) : Prop := exists vals, holds (snd w) vals /\ sessions_ok vals.

Lemma decryptVal_ok ck0 now env v p v' :
  recv_ok ck0 v (keysOf v) -> index_ok (me_ChainIndex env) ->
  decryptVal now env v = Ok (p, v') ->
  acceptable v (keysOf v) (me_ChainIndex env)
  /\ openSealed (msgKey ck0 (me_ChainIndex env)) env (SessionID v) = Ok p
  /\ ContactID v' = ContactID v
  /\ recv_ok ck0 v' (keysOf v')
  /\ consumed v' (keysOf v') (me_ChainIndex env)
  /\ forall j, consumed v (keysOf v) j -> consumed v' (keysOf v') j.
Proof.
  intros Hok Hi. unfold decryptVal. destruct (ValidateEnvelope env); [done|].
  destruct (negb _); [done|]. destruct (seen _ _); [done|].
  destruct (openWith _ _ _ _) as [keys [[q v1]|e]] eqn:E; cbn; [|done]. intros [= <- <-].
  destruct (openWith_ok ck0 _ _ _ _ _ _ _ Hok Hi E) as (Ha & Hp & -> & Hks).
  destruct (opened_consumes ck0 now env v _ _ Hks) as [Hc1 Hc2].
  destruct (opened_recv_ok ck0 now env v _ _ Hok Hi Hks) as [H1 H2 H3].
  split; [done|]. split; [done|]. split; [done|]. split; [by constructor|].
  split; [exact Hc1|exact Hc2].
Qed.

Lemma sealNext_recv {K} ce (st : SessionState K) p env st' :
  sealNext ce st p = Ok (env, st') ->
  st' = with_send st (snd (deriveMessageKey (SendChainKey st) (SendChainIndex st)))
          (u64 (SendChainIndex st + 1)) (ce_clock ce 2).
Proof.
  unfold sealNext, bindR. repeat case_match; intros; simplify_eq/=; done.
Qed.

Lemma init_isolated ce local c key h s vals :
  call_ok ce -> holds s vals ->
  exists h' s' r, InitSession ce local c key (h, s) = ((h', s'), r) /\
    if negb (c == "") && (length key =? 32)%nat then
      exists st, r = Ok st /\ holds s' (<[c := derefSession h' st]> vals)
        /\ derefSession h' st =
             let root := deriveRootKey local c key in
             let '(sendCK, recvCK) := deriveInitialChainKeys root local c in
             mkSession (buildSessionID local c key) c key root sendCK recvCK 0 0 [] (Some ∅)
               (ce_clock ce 0) (ce_clock ce 0)
    else is_ok r = false /\ s' = s.
Proof.
  intros (_ & Hs & _) Hh. unfold InitSession. run.
  destruct (c == ""); cbn [negb andb]; [by eexists _, _, _|].
  destruct (length key =? 32)%nat; cbn [negb]; [|by eexists _, _, _].
  destruct (deriveInitialChainKeys _ _ _) as [sendCK recvCK]. cbn [allocKeys].
  match goal with |- context [Save _ ?x (?y, _)] => set (st := x); set (h1 := y) end.
  destruct (Save_isolated (ce_save ce) st h1 s vals Hs Hh) as (s' & Hsave & Hh').
  rewrite Hsave. eexists _, _, _. split; [done|]. eexists. split; [done|]. split; [done|].
  unfold derefSession. cbn. by rewrite lookup_insert_eq.
Qed.

Lemma recv_ok_fresh {K} (st : SessionState K) :
  RecvChainIndex st = 0 -> recv_ok (RecvChainKey st) st ∅.
Proof.
  intros H0. constructor; rewrite ?H0.
  - unfold maxSkippedChainGap. lia.
  - done.
  - intros j k Hk. by rewrite lookup_empty in Hk.
Qed.

(** The calls other than a new session with [contact] itself, with any outcome. *)
Inductive session_step (contact : string) : W -> W -> Prop :=
| step_encrypt ce c p w :
    call_ok ce -> session_step contact w (fst (EncryptMessage ce c p w))
| step_decrypt ce c env w :
    call_ok ce -> index_ok (me_ChainIndex env) ->
    session_step contact w (fst (DecryptMessage ce c env w))
| step_init ce local c key w :
    call_ok ce -> c <> contact -> session_step contact w (fst (InitSession ce local c key w)).

(** Message [i] of [contact] has been opened. *)
Definition is_consumed (contact : string) (i : Z) (w : W) : Prop :=
  exists vals v, holds (snd w) vals /\ sessions_ok vals /\ vals !! contact = Some v
                 /\ consumed v (keysOf v) i.

Lemma sessions_ok_insert vals v :
  sessions_ok vals -> (exists ck0, recv_ok ck0 v (keysOf v)) ->
  sessions_ok (<[ContactID v := v]> vals).
Proof. intros Hok Hv. by apply map_Forall_insert_2. Qed.

Lemma is_consumed_insert s s' vals v v' c i :
  holds s vals -> sessions_ok vals -> vals !! c = Some v ->
  holds s' (<[c := v']> vals) -> sessions_ok (<[c := v']> vals) ->
  (forall j, consumed v (keysOf v) j -> consumed v' (keysOf v') j) ->
  forall h h' c', is_consumed c' i (h, s) -> is_consumed c' i (h', s').
Proof.
  intros Hh Hok Hv Hh' Hok' Hc h h' c' (vals1 & v1 & H1 & _ & Hv1 & Hc1). cbn in *.
  rewrite <- (holds_unique _ _ _ Hh H1) in Hv1.
  destruct (decide (c' = c)) as [->|Hne].
  - exists (<[c := v']> vals), v'. rewrite lookup_insert_eq. rewrite Hv in Hv1.
    injection Hv1 as ->. auto.
  - exists (<[c := v']> vals), v1. rewrite lookup_insert_ne by done. auto.
Qed.

Lemma decrypt_step ce c env w w' r :
  call_ok ce -> index_ok (me_ChainIndex env) -> world_ok w ->
  DecryptMessage ce c env w = (w', r) ->
  world_ok w'
  /\ (is_ok r = true ->
       ~ is_consumed c (me_ChainIndex env) w /\ is_consumed c (me_ChainIndex env) w')
  /\ (forall c' i, is_consumed c' i w -> is_consumed c' i w').
Proof.
  intros Hce Hi (vals & Hh & Hok) Hrun. destruct w as [h s].
  destruct (decrypt_isolated ce c env h s vals Hce Hh) as (h' & s' & r' & He & Hspec).
  rewrite He in Hrun. injection Hrun as <- <-. cbn in Hh.
  assert (Hsame : s' = s -> world_ok (h', s')
            /\ forall c' i, is_consumed c' i (h, s) -> is_consumed c' i (h', s')).
  { intros ->. split; [by exists vals|]. intros c' i H. exact H. }
  destruct (vals !! c) as [v|] eqn:Hv.
  2:{ destruct Hspec as [Hr Hs]. destruct (Hsame Hs). rewrite Hr. by repeat split. }
  destruct (decryptVal _ env v) as [[p v']|e] eqn:Hd.
  2:{ destruct Hspec as [-> Hs]. destruct (Hsame Hs). by repeat split. }
  destruct Hspec as [-> Hh']. destruct (Hok c v Hv) as [Hc [ck0 Hro]].
  destruct (decryptVal_ok ck0 _ _ _ _ _ Hro Hi Hd) as (Ha & _ & Hcid & Hro' & Hcons & Hmono).
  rewrite Hcid, Hc in Hh'. rewrite Hc in Hcid.
  assert (Hok' : sessions_ok (<[c := v']> vals)).
  { rewrite <- Hcid. apply sessions_ok_insert; eauto. }
  split; [by exists (<[c := v']> vals)|]. split; [intros _; split|].
  - intros (vals1 & v1 & H1 & _ & Hv1 & Hc1). cbn in H1.
    rewrite <- (holds_unique _ _ _ Hh H1), Hv in Hv1. injection Hv1 as <-.
    by apply (consumed_not_acceptable v (keysOf v) (me_ChainIndex env)).
  - exists (<[c := v']> vals), v'. rewrite lookup_insert_eq. auto.
  - intros c' i. by apply (is_consumed_insert s s' vals v v' c i).
Qed.

Lemma session_step_keeps contact w w' :
  session_step contact w w' -> world_ok w ->
  world_ok w' /\ forall i, is_consumed contact i w -> is_consumed contact i w'.
Proof.
  intros Hstep (vals & Hh & Hok). destruct Hstep as [ce c p w Hce|ce c env w Hce Hi|ce l c key w Hce Hc].
  - destruct w as [h s]. destruct (encrypt_isolated ce c p h s vals Hce Hh) as (h' & s' & r & He & Hs).
    rewrite He. cbn [fst snd] in *. destruct (vals !! c) as [v|] eqn:Hv.
    2:{ destruct Hs as [_ ->]. split; [by exists vals|]. intros i H. exact H. }
    destruct (sealNext ce v p) as [[env v']|e] eqn:E.
    2:{ destruct Hs as [_ ->]. split; [by exists vals|]. intros i H. exact H. }
    destruct Hs as [_ Hh']. destruct (Hok c v Hv) as [Hc [ck0 [H1 H2 H3]]].
    apply sealNext_recv in E. subst v'. cbn [ContactID with_send] in Hh'. rewrite Hc in Hh'.
    set (v' := with_send _ _ _ _) in *.
    assert (Hok' : sessions_ok (<[c := v']> vals)).
    { replace c with (ContactID v') by done. apply sessions_ok_insert; [done|].
      exists ck0. by constructor. }
    split; [by exists (<[c := v']> vals)|]. intros i.
    by apply (is_consumed_insert s s' vals v v' c i).
  - destruct (DecryptMessage ce c env w) as [w' r] eqn:E.
    destruct (decrypt_step ce c env w w' r Hce Hi ltac:(by exists vals) E) as (H1 & _ & H2). auto.
  - destruct w as [h s]. destruct (init_isolated ce l c key h s vals Hce Hh) as (h' & s' & r & He & Hs).
    rewrite He. cbn [fst snd] in *. destruct (_ && _).
    2:{ destruct Hs as [_ ->]. split; [by exists vals|]. intros i H. exact H. }
    destruct Hs as (st & _ & Hh' & Hd). destruct (deriveInitialChainKeys _ _ _) as [sk rk].
    cbn in Hd. rewrite Hd in Hh'. set (v' := mkSession _ _ _ _ _ _ _ _ _ _ _ _) in *.
    assert (Hok' : sessions_ok (<[c := v']> vals)).
    { replace c with (ContactID v') by done. apply sessions_ok_insert; [done|].
      exists (RecvChainKey v'). by apply recv_ok_fresh. }
    split; [by exists (<[c := v']> vals)|].
    intros i (vals1 & v1 & H1 & _ & Hv1 & Hc1). cbn in *.
    rewrite <- (holds_unique _ _ _ Hh H1) in Hv1.
    exists (<[c := v']> vals), v1. rewrite lookup_insert_ne by done. auto.
Qed.

(** C36: A message of a session is opened at most once, on an isolated store whose accesses work: one
    whose states are its own, as the file store's are while persistence is on (FileStore_isolated).
    After an envelope of a contact has been decrypted, then after any further calls (messages sent and
    received, forged and refused envelopes, new sessions with others) in which the store can be read
    and written and nonces can be drawn, no envelope with the same chain index is decrypted for that
    contact again, whatever its message identifier and contents. The in-memory store, and the file
    store while persistence is off, share the map of skipped keys with their readers and are not
    isolated: forged_envelope_revives_used_key opens an index twice there. *)
Theorem chain_index_opens_once (contact : string) (ce1 ce2 : CallEnv)
    (env1 env2 : MessageEnvelope) (w0 w1 w2 : W) (p1 : list Z) :
  call_ok ce1 -> call_ok ce2 -> index_ok (me_ChainIndex env1) -> world_ok w0 ->
  DecryptMessage ce1 contact env1 w0 = (w1, Ok p1) ->
  rtc (session_step contact) w1 w2 ->
  me_ChainIndex env2 = me_ChainIndex env1 ->
  is_ok (snd (DecryptMessage ce2 contact env2 w2)) = false.
Proof.
  intros H1 H2 Hi Hw0 Hd Hsteps Heq.
  destruct (decrypt_step ce1 contact env1 w0 w1 _ H1 Hi Hw0 Hd) as (Hw1 & Hc & _).
  destruct (Hc eq_refl) as [_ Hc1].
  assert (Hw2 : world_ok w2 /\ is_consumed contact (me_ChainIndex env1) w2).
  { clear Hd Hc. induction Hsteps as [|x y z Hxy Hyz IH]; [done|].
    destruct (session_step_keeps contact x y Hxy Hw1) as [Hy Hcy]. auto. }
  destruct Hw2 as [Hw2 Hc2]. destruct (DecryptMessage ce2 contact env2 w2) as [w3 r] eqn:E.
  rewrite <- Heq in Hi, Hc2.
  destruct (decrypt_step ce2 contact env2 w2 w3 r H2 Hi Hw2 E) as (_ & Hc3 & _).
  cbn. destruct (is_ok r); [|done]. by destruct (Hc3 eq_refl).
Qed.

(** Forged and damaged envelopes leave no trace. When [Decrypt] fails, for whatever reason, the
    store is as it was; and however many envelopes arrive, and whatever they claim, a session
    never keeps more than 512 keys of skipped messages, all of the last 512 indices, so the
    eviction beyond 2048 keys never has to run. *)
Theorem rejected_envelopes_leave_no_trace (w0 w : W) :
  world_ok w0 ->
  rtc (fun x y => exists contact, session_step contact x y) w0 w ->
  (forall ce contact env w' e, call_ok ce -> DecryptMessage ce contact env w = (w', Err e) ->
     snd w' = snd w)
  /\ forall vals contact v, holds (snd w) vals -> vals !! contact = Some v ->
       (size (keysOf v) <= 512)%nat
       /\ forall i, is_Some (keysOf v !! i) -> RecvChainIndex v - 512 <= i < RecvChainIndex v.
Proof.
  intros Hw0 Hsteps.
  assert (Hw : world_ok w).
  { induction Hsteps as [|x y z [c Hxy] Hyz IH]; [done|].
    apply IH. by apply (session_step_keeps c x y). }
  destruct Hw as (vals & Hh & Hok). split.
  - intros ce c env w' e Hce Hrun. destruct w as [h s].
    destruct (decrypt_isolated ce c env h s vals Hce Hh) as (h' & s' & r & He & Hs).
    rewrite He in Hrun. injection Hrun as <- ->. cbn [snd].
    destruct (vals !! c); [|by destruct Hs]. destruct (decryptVal _ _ _) as [[p v']|]; by destruct Hs.
  - intros vals' c v Hh' Hv. rewrite <- (holds_unique _ _ _ Hh Hh') in Hv.
    destruct (Hok c v Hv) as [_ [ck0 Hro]]. split.
    + apply (size_interval _ (RecvChainIndex v - 512)). intros j k Hj.
      apply (ro_keys _ _ _ Hro) in Hj. unfold maxSkippedChainGap in Hj. lia.
    + intros i [k Hk]. apply (ro_keys _ _ _ Hro) in Hk. unfold maxSkippedChainGap in Hk. lia.
Qed.
End Isolated.

(** ** Message identifiers *)

Definition underscore : Ascii.ascii := Ascii.ascii_of_nat 95.

Fixpoint no_underscore (s : string) : Prop :=
  match s with
  | EmptyString => True
  | String c s => c <> underscore /\ no_underscore s
  end.

Lemma pretty_N_go_no_underscore x s : no_underscore s -> no_underscore (pretty_N_go x s).
Proof.
  revert s. induction (N.lt_wf_0 x) as [x _ IH]. intros s Hs.
  destruct (decide (x = 0%N)) as [->|Hx]; [by rewrite pretty_N_go_0|].
  rewrite pretty_N_go_step by lia. apply IH; [apply N.div_lt; lia|]. split; [|done].
  unfold pretty_N_char. by repeat case_match.
Qed.

Lemma pretty_Z_no_underscore (z : Z) : no_underscore (pretty z).
Proof.
  assert (HN : forall x : N, no_underscore (pretty x)).
  { intros x. unfold pretty, pretty_N. case_decide; [by split|]. by apply pretty_N_go_no_underscore. }
  destruct z as [|p|p]; [by split|apply (HN (Npos p))|]. split; [done|]. apply (HN (Npos p)).
Qed.

Lemma split_at_underscore a b x y :
  no_underscore a -> no_underscore b ->
  a +:+ String underscore x = b +:+ String underscore y -> x = y.
Proof.
  revert b. induction a as [|c a IH]; intros [|d b] Ha Hb He.
  - by injection He.
  - injection He as He _. by destruct Hb as [Hb _].
  - injection He as He _. by destruct Ha as [Ha _].
  - injection He as -> He. destruct Ha, Hb. by apply (IH b).
Qed.

(** Identifiers of different indices differ, whatever the clock says. *)
Lemma messageIDOf_inj t i t' j : messageIDOf t i = messageIDOf t' j -> i = j.
Proof.
  intros H. apply (inj pretty).
  apply (split_at_underscore (pretty (UnixNano t)) (pretty (UnixNano t')));
    [apply pretty_Z_no_underscore..|].
  by apply (inj (String.append "dr_")).
Qed.

(** ** From one side to the other *)

Lemma normalizeIDs_sym a b : normalizeIDs a b = normalizeIDs b a.
Proof.
  unfold normalizeIDs. rewrite (String.compare_antisym b a).
  destruct (String.compare a b) eqn:E; cbn; try done.
  apply String.compare_eq_iff in E. by subst.
Qed.

Section Delivery.
Context {R : Ratchet} `{!RatchetLaws R}.
Context {S : Type} {store : SessionStore S} {iso : IsolatedStore S}.

Abbreviation W := (SkipHeap * S)%type.

(** The two sides of a session agree on its identifier and on the crossed chain keys. *)
Lemma sides_agree a b key :
  a <> b ->
  deriveRootKey a b key = deriveRootKey b a key
  /\ buildSessionID a b key = buildSessionID b a key
  /\ (let root := deriveRootKey a b key in
      fst (deriveInitialChainKeys root a b) = snd (deriveInitialChainKeys root b a)).
Proof.
  intros Hne. unfold deriveRootKey, buildSessionID, deriveInitialChainKeys.
  rewrite (normalizeIDs_sym b a). split; [done|]. split; [done|].
  unfold normalizeIDs. destruct (String.compare a b); repeat case_bool_decide; simplify_eq; done.
Qed.

(** An envelope the sender of the chain from [ck0] makes for its message [i]. *)
Record genuine (ck0 : list Z) (sid : string) (i : Z) (p : list Z) (env : MessageEnvelope) : Prop := {
  gn_valid : ValidateEnvelope env = None;
  gn_session : me_SessionID env = sid;
  gn_index : me_ChainIndex env = i;
  gn_id : exists t, me_MessageID env = messageIDOf t i;
  gn_open : openSealed (msgKey ck0 i) env sid = Ok p
}.

(** The sending side is at index [i] of the chain. *)
Definition send_at (ck0 : list Z) (sid : string) (i : Z) (v : SessionVal) : Prop :=
  SendChainKey v = chainKey ck0 i /\ SendChainIndex v = i /\ SessionID v = sid.

Lemma newX_kdf input info : newX (kdf32 input info) = Ok (kdf32 input info).
Proof. unfold newX, kdf32. by rewrite hkdf32_length. Qed.

Lemma seal_genuine ce ck0 sid i v p :
  call_ok ce -> sid <> "" -> 0 <= i < 2 ^ 64 - 1 -> send_at ck0 sid i v ->
  exists env v', sealNext ce v p = Ok (env, v') /\ genuine ck0 sid i p env
    /\ send_at ck0 sid (i + 1) v' /\ ContactID v' = ContactID v.
Proof.
  intros (_ & _ & n & Hn & Hlen) Hsid Hi (Hck & Hix & Hs).
  unfold sealNext. rewrite Hck, Hix, deriveMessageKey_chain, Hn by lia. cbn [bindR].
  assert (Hk : newX (msgKey ck0 i) = Ok (msgKey ck0 i)) by apply newX_kdf.
  rewrite Hk. cbn [bindR]. eexists _, _. split; [done|]. split; [constructor|].
  - unfold ValidateEnvelope. cbn [me_Version me_SessionID me_MessageID me_RatchetPubKey me_Nonce
      me_Ciphertext]. rewrite Hs, sealX_length, Hlen, (bool_decide_false (sid = "")) by done.
    unfold deriveRatchetPubKey, kdf32. rewrite hkdf32_length.
    replace (length p + 16 =? 0)%nat with false by (symmetry; apply Nat.eqb_neq; lia).
    by rewrite bool_decide_false.
  - done.
  - done.
  - by eexists.
  - unfold openSealed. rewrite Hk. cbn [bindR me_Nonce me_Ciphertext me_MessageID me_ChainIndex].
    by rewrite Hs, openX_sealX.
  - rewrite u64_small by lia. done.
Qed.

(** The receiving side after the messages [got] have been opened. *)
Record received (ck0 : list Z) (sid : string) (got : list Z) (v : SessionVal) : Prop := {
  rx_ok : recv_ok ck0 v (keysOf v);
  rx_session : SessionID v = sid;
  rx_missing : forall j, 0 <= j -> RecvChainIndex v - maxSkippedChainGap <= j < RecvChainIndex v ->
    j ∉ got -> is_Some (keysOf v !! j);
  rx_seen : forall id, id ∈ SeenMessageIDs v -> exists t j, j ∈ got /\ id = messageIDOf t j
}.

Lemma seen_spec ids id : seen ids id = true <-> id ∈ ids.
Proof.
  unfold seen. rewrite existsb_exists. setoid_rewrite bool_decide_eq_true.
  setoid_rewrite <- list_elem_of_In. naive_solver.
Qed.

Lemma appendSeen_elem ids id max x : x ∈ appendSeen ids id max -> x ∈ ids \/ x = id.
Proof.
  unfold appendSeen. destruct (_ <=? _); intros H.
  - apply elem_of_app in H as [H|H]; [by left|]. right. by apply list_elem_of_singleton.
  - assert (H' : x ∈ (ids ++ [id])%list).
    { rewrite <- (take_drop (length (ids ++ [id]) - Z.to_nat max) (ids ++ [id])).
      apply elem_of_app. by right. }
    apply elem_of_app in H' as [H'|H']; [by left|]. right. by apply list_elem_of_singleton.
Qed.

Lemma receive_genuine now ck0 sid got i p env v :
  received ck0 sid got v -> genuine ck0 sid i p env -> index_ok i -> i ∉ got ->
  RecvChainIndex v - maxSkippedChainGap <= i <= RecvChainIndex v + maxSkippedChainGap ->
  exists v', decryptVal now env v = Ok (p, v') /\ received ck0 sid (i :: got) v'
    /\ RecvChainIndex v' = nextRecv (RecvChainIndex v) i /\ ContactID v' = ContactID v.
Proof.
  intros [Hok Hs Hmiss Hseen] [Hv Hsid Hi [t Hid] Ho] Hix Hnew Hwin. subst i.
  unfold decryptVal. rewrite Hv, Hsid, Hs, (bool_decide_true (sid = sid)) by done. cbn [negb].
  destruct (seen _ _) eqn:Es.
  { apply seen_spec, Hseen in Es as (t' & j & Hj & He). rewrite Hid in He.
    apply messageIDOf_inj in He. by subst j. }
  assert (Ha : acceptable v (keysOf v) (me_ChainIndex env)).
  { destruct (decide (me_ChainIndex env < RecvChainIndex v)); [left|right; lia].
    apply Hmiss; [destruct Hix; lia|lia|done]. }
  rewrite <- Hs in Ho.
  destruct (openWith_accepts ck0 now env v (keysOf v) p Hok Hix Ha Ho) as (keys & He & Hk).
  rewrite He. cbn [bindR fst snd]. eexists. split; [done|]. split; [constructor|by split].
  - apply (opened_recv_ok ck0 now env v _ _ Hok Hix) in Hk as [H1 H2 H3]. by constructor.
  - done.
  - cbn [RecvChainIndex with_keys opened with_recv keysOf SkippedKeys default].
    intros j Hj0 Hj Hnot. rewrite Hk. apply not_elem_of_cons in Hnot as [Hne Hnot].
    rewrite bool_decide_true by (split; [done|lia]). case_bool_decide as Hin; [by eexists|].
    unfold nextRecv in Hj. apply Hmiss; [done| |done].
    destruct (Z.ltb_spec (me_ChainIndex env) (RecvChainIndex v)); lia.
  - cbn [SeenMessageIDs with_keys opened with_recv]. intros id [Hin| ->]%appendSeen_elem.
    + apply Hseen in Hin as (t' & j & Hj & ->). exists t', j. split; [by right|done].
    + exists t, (me_ChainIndex env). split; [left|done].
Qed.

(** Sending texts one after the other, and receiving envelopes one after the other. *)
Fixpoint sendAll (contact : string) (sends : list (CallEnv * list Z))
    : M W error (list MessageEnvelope) :=
  match sends with
  | [] => retM []
  | (ce, p) :: sends =>
      let! env := EncryptMessage ce contact p in
      let! envs := sendAll contact sends in
      retM (env :: envs)
  end.

Fixpoint receiveAll (contact : string) (arrivals : list (CallEnv * MessageEnvelope)) (w : W)
    : list (result error (list Z)) :=
  match arrivals with
  | [] => []
  | (ce, env) :: arrivals =>
      let '(w', r) := DecryptMessage ce contact env w in r :: receiveAll contact arrivals w'
  end.

(** Each index is at most 512 behind or ahead of the one after the greatest received so far. *)
Fixpoint in_window (next : Z) (order : list nat) : Prop :=
  match order with
  | [] => True
  | k :: order =>
      next - maxSkippedChainGap <= Z.of_nat k <= next + maxSkippedChainGap
      /\ in_window (nextRecv next (Z.of_nat k)) order
  end.

Definition arrivalsOf (envs : list MessageEnvelope) (deliveries : list (CallEnv * nat))
    : list (CallEnv * MessageEnvelope) :=
  omap (fun '(ce, k) => env ← envs !! k; Some (ce, env)) deliveries.

Lemma sendAll_genuine contact sends ck0 sid i h s vals v :
  Forall (fun cp => call_ok (fst cp)) sends -> sid <> "" ->
  0 <= i -> i + Z.of_nat (length sends) <= 2 ^ 64 - 1 ->
  holds s vals -> vals !! contact = Some v -> ContactID v = contact -> send_at ck0 sid i v ->
  exists envs, snd (sendAll contact sends (h, s)) = Ok envs
    /\ forall k p, sends.*2 !! k = Some p ->
         exists env, envs !! k = Some env /\ genuine ck0 sid (i + Z.of_nat k) p env.
Proof.
  intros Hce Hsid. revert i h s vals v.
  induction Hce as [|[ce p] sends Hce _ IH]; intros i h s vals v Hi Hn Hh Hv Hc Hat;
    cbn [sendAll].
  { exists []. split; [done|]. by intros k p Hk. }
  cbn [length fst] in *. destruct (encrypt_isolated ce contact p h s vals Hce Hh)
    as (h' & s' & r & He & Hspec).
  rewrite Hv in Hspec. destruct (seal_genuine ce ck0 sid i v p Hce Hsid ltac:(lia) Hat)
    as (env & v' & Hseal & Hg & Hat' & Hc').
  rewrite Hseal in Hspec. destruct Hspec as [-> Hh']. rewrite Hc', Hc in Hh'.
  destruct (IH (i + 1) h' s' _ v' ltac:(lia) ltac:(lia) Hh' (lookup_insert_eq _ _ _)
              ltac:(congruence) Hat') as (envs & Hrun & Hall).
  exists (env :: envs). run. rewrite He. split.
  - revert Hrun. destruct (sendAll contact sends (h', s')) as [w2 [es|e]]; cbn; congruence.
  - intros [|k] q Hk; cbn in Hk.
    + injection Hk as <-. exists env. by rewrite Z.add_0_r.
    + destruct (Hall k q Hk) as (env' & He' & Hg'). exists env'. split; [done|].
      by replace (i + Z.of_nat (Datatypes.S k)) with (i + 1 + Z.of_nat k) by lia.
Qed.

Lemma receiveAll_genuine contact texts envs ck0 sid deliveries got h s vals v :
  Z.of_nat (length texts) <= 2 ^ 64 - maxSkippedChainGap ->
  (forall k p, texts !! k = Some p ->
     exists env, envs !! k = Some env /\ genuine ck0 sid (Z.of_nat k) p env) ->
  Forall (fun d => call_ok (fst d) /\ (snd d < length texts)%nat) deliveries ->
  NoDup deliveries.*2 -> (forall k, k ∈ deliveries.*2 -> Z.of_nat k ∉ got) ->
  in_window (RecvChainIndex v) deliveries.*2 ->
  holds s vals -> vals !! contact = Some v -> ContactID v = contact ->
  received ck0 sid got v ->
  receiveAll contact (arrivalsOf envs deliveries) (h, s)
  = (fun d => Ok (texts !!! snd d)) <$> deliveries.
Proof.
  intros Hlen Hg. revert got h s vals v.
  induction deliveries as [|[ce k] ds IH]; intros got h s vals v Hall Hnd Hgot Hwin Hh Hv Hc Hrx;
    [done|].
  inversion Hall as [|? ? [Hce Hk] Hall']; subst. cbn [fst snd] in *.
  inversion Hnd as [|? ? Hnew Hnd']; subst. destruct Hwin as [Hw Hwin].
  destruct (lookup_lt_is_Some_2 texts k Hk) as [p Hp].
  destruct (Hg k p Hp) as (env & Henv & Hgen).
  unfold arrivalsOf. cbn [omap list_omap]. rewrite Henv. cbn [mbind option_bind receiveAll].
  destruct (decrypt_isolated ce (ContactID v) env h s vals Hce Hh) as (h' & s' & r & He & Hspec).
  destruct (receive_genuine (ce_clock ce 0) ck0 sid got (Z.of_nat k) p env v Hrx Hgen)
    as (v' & Hd & Hrx' & Hr' & Hc').
  { unfold index_ok. lia. }
  { apply Hgot. cbn. left. }
  { done. }
  rewrite Hv, Hd in Hspec. destruct Hspec as [-> Hh']. rewrite He. cbn [fmap list_fmap snd].
  f_equal; [by rewrite (list_lookup_total_correct texts k p Hp)|].
  rewrite Hc' in Hh'.
  apply (IH (Z.of_nat k :: got) h' s' (<[ContactID v := v']> vals) v'); try done.
  - intros j Hj [Hjk|Hjg]%elem_of_cons.
    + apply Nat2Z.inj in Hjk. by subst j.
    + revert Hjg. apply Hgot. cbn. by right.
  - by rewrite Hr'.
  - by rewrite lookup_insert_eq.
Qed.

(** C35: What one side sends, the other side reads, in any order within the window. Two parties open a
    session with the same key; one sends any texts; the other receives any of the envelopes, each
    at most once, in any order in which no envelope is more than 512 behind or ahead of the
    expected one. Sending succeeds, and every arrival gives exactly the text that was sent. *)
Theorem messages_open_in_any_order (a b : string) (key : list Z) (ceA ceB : CallEnv) (wa wb : W)
    (sends : list (CallEnv * list Z)) (deliveries : list (CallEnv * nat)) :
  a <> b -> a <> "" -> b <> "" -> length key = 32%nat ->
  call_ok ceA -> call_ok ceB -> world_ok wa -> world_ok wb ->
  Forall (fun cp => call_ok (fst cp)) sends ->
  Z.of_nat (length sends) <= 2 ^ 64 - maxSkippedChainGap ->
  Forall (fun d => call_ok (fst d) /\ (snd d < length sends)%nat) deliveries ->
  NoDup deliveries.*2 -> in_window 0 deliveries.*2 ->
  exists envs,
    snd (sendAll b sends (fst (InitSession ceA a b key wa))) = Ok envs
    /\ receiveAll a (arrivalsOf envs deliveries) (fst (InitSession ceB b a key wb))
       = (fun d => Ok (sends.*2 !!! snd d)) <$> deliveries.
Proof.
  intros Hab Ha Hb Hkey HcA HcB (vA & HhA & _) (vB & HhB & _) Hsends Hlen Hds Hnd Hwin.
  destruct wa as [hA sA], wb as [hB sB]. cbn [snd] in HhA, HhB.
  destruct (sides_agree a b key Hab) as (Hroot & Hsid & Hchain).
  destruct (init_isolated ceA a b key hA sA vA HcA HhA) as (hA' & sA' & rA & HA & HAs).
  destruct (init_isolated ceB b a key hB sB vB HcB HhB) as (hB' & sB' & rB & HB & HBs).
  rewrite (bool_decide_false (b = "")), Hkey in HAs by done.
  rewrite (bool_decide_false (a = "")), Hkey in HBs by done.
  cbn [negb andb Nat.eqb] in HAs, HBs.
  destruct HAs as (stA & _ & HhA' & HdA), HBs as (stB & _ & HhB' & HdB).
  rewrite <- Hroot, <- Hsid in HdB.
  destruct (deriveInitialChainKeys (deriveRootKey a b key) a b) as [sA2 rA2] eqn:EA.
  destruct (deriveInitialChainKeys (deriveRootKey a b key) b a) as [sB2 rB2] eqn:EB.
  cbv zeta in Hchain, HdA, HdB. rewrite EA, EB in Hchain. cbn [fst snd] in Hchain. subst rB2.
  rewrite HdA in HhA'. rewrite HdB in HhB'. rewrite HA, HB. cbn [fst].
  destruct (sendAll_genuine b sends sA2 (buildSessionID a b key) 0 hA' sA' _ _ Hsends
    ltac:(by unfold buildSessionID; destruct (normalizeIDs a b)) ltac:(lia)
    ltac:(unfold maxSkippedChainGap in Hlen; lia) HhA' (lookup_insert_eq _ _ _) eq_refl)
    as (envs & Hrun & Hgen); [by repeat split|].
  exists envs. split; [done|].
  apply (receiveAll_genuine a sends.*2 envs sA2 (buildSessionID a b key) deliveries []
           hB' sB' _ _) with (7 := HhB') (8 := lookup_insert_eq _ _ _); try done.
  - by rewrite length_fmap.
  - by rewrite length_fmap.
  - intros k _ Hk. by apply not_elem_of_nil in Hk.
  - constructor; cbn [keysOf SkippedKeys default RecvChainIndex SeenMessageIDs].
    + by apply (recv_ok_fresh (mkSession _ a key _ sB2 sA2 0 0 [] (Some ∅) _ _)).
    + done.
    + intros j Hj0 Hj. unfold maxSkippedChainGap in Hj. lia.
    + intros id Hid. by apply not_elem_of_nil in Hid.
Qed.

(** The manager holds no lock from loading a state to saving it, so two calls of [Encrypt] can both
    load before either saves. *)
Definition interleavedEncrypts (ce1 ce2 : CallEnv) (contact : string) (p1 p2 : list Z)
    : M W error (MessageEnvelope * MessageEnvelope) :=
  let! st1 := loadSession (ce_get ce1) contact in
  let! st2 := loadSession (ce_get ce2) contact in
  let! '(e1, st1) := liftM (sealNext ce1 st1 p1) in
  let! '(e2, st2) := liftM (sealNext ce2 st2 p2) in
  Save (ce_save ce1) st1 ;;!
  Save (ce_save ce2) st2 ;;!
  retM (e1, e2).

Lemma loadSession_isolated env contact h s vals v :
  env_ok env -> holds s vals -> vals !! contact = Some v ->
  exists h' st, loadSession env contact (h, s) = ((h', s), Ok st) /\ derefSession h' st = v.
Proof.
  intros He Hh Hv. pose proof (Get_isolated env contact h s vals He Hh) as HG. rewrite Hv in HG.
  destruct HG as (h' & st & HG & Hd). exists h', st. unfold loadSession. run. by rewrite HG.
Qed.

(** Sealing looks at the sending side only, which the references share with the value. *)
Lemma sealNext_ref ce h st p :
  call_ok ce -> exists env st', sealNext ce st p = Ok (env, st')
    /\ me_ChainIndex env = SendChainIndex (derefSession h st)
    /\ SendChainIndex st' = u64 (SendChainIndex (derefSession h st) + 1).
Proof.
  intros (_ & _ & n & Hn & _). unfold sealNext.
  destruct (deriveMessageKey (SendChainKey st) (SendChainIndex st)) as [mk ck] eqn:E.
  unfold deriveMessageKey in E. injection E as <- <-. rewrite Hn. cbn [bindR].
  rewrite newX_kdf. cbn [bindR]. by eexists _, _.
Qed.

(** Concurrent sends collide. When two calls of [Encrypt] for a contact both load the session before
    either saves it, both succeed and their envelopes carry the same chain index (and so are sealed
    under the same key); whatever the receiver is, once it has opened one of the two it
    refuses the other, although the sender counts both as sent. *)
Theorem concurrent_encrypts_collide (ce1 ce2 : CallEnv) (contact : string) (p1 p2 : list Z)
    (h : SkipHeap) (s : S) (vals : gmap string SessionVal) (v : SessionVal) :
  call_ok ce1 -> call_ok ce2 -> holds s vals -> vals !! contact = Some v ->
  index_ok (SendChainIndex v) ->
  exists e1 e2, snd (interleavedEncrypts ce1 ce2 contact p1 p2 (h, s)) = Ok (e1, e2)
    /\ me_ChainIndex e1 = SendChainIndex v /\ me_ChainIndex e2 = SendChainIndex v
    /\ forall ce3 ce4 sender wr wr' q, call_ok ce3 -> call_ok ce4 -> world_ok wr ->
         DecryptMessage ce3 sender e1 wr = (wr', Ok q) ->
         is_ok (snd (DecryptMessage ce4 sender e2 wr')) = false.
Proof.
  intros H1 H2 Hh Hv Hi.
  destruct (loadSession_isolated (ce_get ce1) contact h s vals v ltac:(apply H1) Hh Hv)
    as (h1 & st1 & HL1 & Hd1).
  destruct (loadSession_isolated (ce_get ce2) contact h1 s vals v ltac:(apply H2) Hh Hv)
    as (h2 & st2 & HL2 & Hd2).
  destruct (sealNext_ref ce1 h1 st1 p1 H1) as (e1 & st1' & HS1 & Hx1 & _).
  destruct (sealNext_ref ce2 h2 st2 p2 H2) as (e2 & st2' & HS2 & Hx2 & _).
  rewrite Hd1 in Hx1. rewrite Hd2 in Hx2.
  destruct (Save_isolated (ce_save ce1) st1' h2 s vals ltac:(apply H1) Hh) as (s1 & HV1 & Hh1).
  destruct (Save_isolated (ce_save ce2) st2' h2 s1 _ ltac:(apply H2) Hh1) as (s2 & HV2 & _).
  exists e1, e2. split; [|split; [done|split; [done|]]].
  - unfold interleavedEncrypts. run. by rewrite HL1, HL2, HS1, HS2, HV1, HV2.
  - intros ce3 ce4 c wr wr' q H3 H4 Hw Hrun.
    destruct (decrypt_step ce3 c e1 wr wr' _ H3 ltac:(by rewrite Hx1) Hw Hrun) as (Hw' & Hc & _).
    destruct (Hc eq_refl) as [_ Hc1].
    destruct (DecryptMessage ce4 c e2 wr') as [w3 r] eqn:E.
    destruct (decrypt_step ce4 c e2 wr' w3 r H4 ltac:(by rewrite Hx2) Hw' E) as (_ & Hc2 & _).
    cbn [snd]. destruct (is_ok r); [|done]. destruct (Hc2 eq_refl) as [Hn _].
    exfalso. apply Hn. by rewrite Hx2, <- Hx1.
Qed.
End Delivery.

(** ** The in-memory store *)

Section Aliasing.
Context {R : Ratchet}.

Lemma openWith_one_ahead {K} ck0 now env (st : SessionState K) i :
  0 <= i -> i + 2 + maxSkippedChainGap <= 2 ^ 64 ->
  RecvChainIndex st = i -> RecvChainKey st = chainKey ck0 i -> me_ChainIndex env = i + 1 ->
  openWith now env st ∅
  = ({[i := msgKey ck0 i]},
     match openSealed (msgKey ck0 (i + 1)) env (SessionID st) with
     | Err e => Err e
     | Ok p => Ok (p, with_recv st (chainKey ck0 (i + 2)) (i + 2)
                        (appendSeen (SeenMessageIDs st) (me_MessageID env) maxSeenMessageIDs) now)
     end).
Proof.
  unfold maxSkippedChainGap. intros H0 Hmax Hr Hck Hi. unfold openWith. rewrite lookup_empty, Hi, Hr.
  rewrite (proj2 (Z.ltb_ge (i + 1) i)) by lia. unfold maxSkippedChainGap.
  replace (i + 1 - i) with 1 by lia. rewrite u64_small, (proj2 (Z.ltb_ge 512 1)) by lia.
  change (Z.to_nat 1) with 1%nat. cbn [skipKeys]. rewrite (proj2 (Z.ltb_lt i (i + 1))) by lia.
  rewrite Hck, deriveMessageKey_chain, insert_empty, u64_small by lia.
  assert (Hp : forall r, r <= i + 2 -> pruneSkippedKeys {[i := msgKey ck0 i]} r maxSkippedMessageKey
                         = {[i := msgKey ck0 i]}).
  { intros r Hri. apply map_eq. intros j.
    rewrite (prune_interval _ r i 1); unfold maxSkippedChainGap, maxSkippedMessageKey; try lia.
    - case_bool_decide; [done|]. symmetry. apply lookup_singleton_None. lia.
    - intros j' k [<- _]%lookup_singleton_Some. lia. }
  rewrite Hp, deriveMessageKey_chain by lia. replace (i + 1 + 1) with (i + 2) by lia.
  destruct (openSealed _ _ _); [|done]. rewrite u64_small, Hp by lia. done.
Qed.

(** The envelope fits the session and is not a repetition. *)
Definition fits {K} (st : SessionState K) (env : MessageEnvelope) : Prop :=
  ValidateEnvelope env = None /\ me_SessionID env = SessionID st
  /\ me_MessageID env ∉ SeenMessageIDs st.

Lemma decrypt_in_memory ce c env h ss st l m :
  ss !! c = Some st -> SkippedKeys st = Some l -> sh_cells h !! l = Some m -> fits st env ->
  DecryptMessage ce c env (h, mkInMemory ss)
  = let '(m', r) := openWith (ce_clock ce 0) env st m in
    match r with
    | Ok (p, st') => ((storeKeys h l m', mkInMemory (<[ContactID st' := st']> ss)), Ok p)
    | Err e => ((storeKeys h l m', mkInMemory ss), Err e)
    end.
Proof.
  intros Hc Hl Hm (Hv & Hs & Hid). unfold DecryptMessage, loadSession, openRef. run.
  rewrite Hv. cbn [Get InMemory im_sessions]. rewrite Hc, (bool_decide_true _ Hs). cbn [negb].
  destruct (seen _ _) eqn:Es; [by apply seen_spec in Es|].
  rewrite Hl, Hm. rewrite <- Hl, with_keys_same. cbn [default].
  destruct (openWith _ _ _ _) as [m' [[p st']|e]]; done.
Qed.

(** The in-memory store lets a forged envelope undo the protection against double use. [Decrypt] writes
    the keys of skipped messages into the map the stored session shares before it authenticates
    the envelope. So after a forged envelope for the next index but one, which is refused, the next
    genuine message is opened with such a key and does not advance the chain, the message after it
    derives the same key again, and a second envelope with the index of the first is opened too. *)
Theorem forged_envelope_revives_used_key (ck0 : list Z) (contact : string) (i : Z)
    (st : SessionRef) (l : nat) (h : SkipHeap) (ss : gmap string SessionRef)
    (c1 c2 c3 c4 : CallEnv) (forged e1 e2 e1' : MessageEnvelope)
    (p1 p2 p1' : list Z) (err : error) :
  ss !! contact = Some st -> ContactID st = contact -> SeenMessageIDs st = [] ->
  SkippedKeys st = Some l -> sh_cells h !! l = Some ∅ ->
  RecvChainIndex st = i -> RecvChainKey st = chainKey ck0 i ->
  0 <= i -> i + 2 + maxSkippedChainGap <= 2 ^ 64 ->
  genuine ck0 (SessionID st) i p1 e1 -> genuine ck0 (SessionID st) (i + 1) p2 e2 ->
  genuine ck0 (SessionID st) i p1' e1' -> me_MessageID e1' <> me_MessageID e1 ->
  fits st forged -> me_ChainIndex forged = i + 1 ->
  openSealed (msgKey ck0 (i + 1)) forged (SessionID st) = Err err ->
  receiveAll contact [(c1, forged); (c2, e1); (c3, e2); (c4, e1')] (h, mkInMemory ss)
  = [Err err; Ok p1; Ok p2; Ok p1'].
Proof.
  intros Hc Hcid Hseen Hl Hm Hr Hck H0 Hmax [V1 S1 I1 [t1 D1] O1] [V2 S2 I2 [t2 D2] O2]
    [V1' S1' I1' [t1' D1'] O1'] Nid Ff If Of. cbn [receiveAll].
  assert (N21 : messageIDOf t2 (i + 1) <> messageIDOf t1 i) by (intros E%messageIDOf_inj; lia).
  assert (N12 : messageIDOf t1' i <> messageIDOf t2 (i + 1)) by (intros E%messageIDOf_inj; lia).
  rewrite <- D1, <- D2 in N21. rewrite <- D1', <- D2 in N12. clear D1 D2 D1' t1 t2 t1'.
  rewrite (decrypt_in_memory c1 contact forged h ss st l ∅) by done.
  rewrite (openWith_one_ahead ck0 _ _ st i) by done. rewrite Of.
  set (m1 := {[i := msgKey ck0 i]} : SkipMap). set (h1 := storeKeys h l m1).
  rewrite (decrypt_in_memory c2 contact e1 h1 ss st l m1);
    [|done|done|apply lookup_insert_eq|by unfold fits; rewrite Hseen; set_solver].
  unfold openWith at 1. unfold m1 at 1. rewrite I1, lookup_singleton_eq, O1.
  set (st1 := with_recv st _ _ _ _). set (h2 := storeKeys h1 l _).
  cbn [ContactID st1 with_recv]. rewrite Hcid.
  assert (Hseen1 : SeenMessageIDs st1 = [me_MessageID e1]) by (unfold st1; cbn; by rewrite Hseen).
  rewrite (decrypt_in_memory c3 contact e2 h2 _ st1 l ∅);
    [|by rewrite lookup_insert_eq|done
     |cbn; rewrite lookup_insert_eq; f_equal; apply delete_singleton_eq
     |by unfold fits; rewrite Hseen1; set_solver].
  rewrite (openWith_one_ahead ck0 _ _ st1 i) by done.
  change (SessionID st1) with (SessionID st). rewrite O2.
  set (st2 := with_recv st1 _ _ _ _). set (h3 := storeKeys h2 l _).
  rewrite (decrypt_in_memory c4 contact e1' h3 _ st2 l m1);
    [|cbn [ContactID st2 st1 with_recv]; rewrite Hcid; by rewrite lookup_insert_eq|done
     |apply lookup_insert_eq|].
  - unfold openWith, m1. rewrite I1', lookup_singleton_eq.
    change (SessionID st2) with (SessionID st). by rewrite O1'.
  - unfold fits, st2. cbn [SeenMessageIDs with_recv]. rewrite Hseen1.
    split; [done|]. split; [done|]. cbn. set_solver.
Qed.
End Aliasing.

(** ** Key agreement *)

(** The two sides of the key agreement compute the same secret. With X25519 commuting on public keys
    ([pub] of the private ones), the initiator's secret for the responder's published keys is the
    responder's secret for the initiator's keys, with and without a one-time key, errors
    included. *)
Theorem x3dh_sides_agree {R : Ratchet} (pub : list Z -> list Z)
    (ikA ekA ikB spkB opkB : list Z) (useOPK : bool) :
  (forall a b, X25519 a (pub b) = X25519 b (pub a)) ->
  (forall k, length k = 32%nat -> length (pub k) = 32%nat) ->
  Forall (fun k => length k = 32%nat) [ikA; ekA; ikB; spkB; opkB] ->
  X3DHInitiatorSharedSecret ikA ekA (pub ikB) (pub spkB) (if useOPK then pub opkB else [])
  = X3DHResponderSharedSecret ikB spkB opkB (pub ikA) (pub ekA) useOPK.
Proof.
  intros Hcomm Hpub Hlen. rewrite !Forall_cons in Hlen. destruct Hlen as (H1 & H2 & H3 & H4 & H5 & _).
  unfold X3DHInitiatorSharedSecret, X3DHResponderSharedSecret, baseX3DHMaterial, combineDHTriplet.
  cbn [existsb fst snd]. rewrite !Hpub, H1, H2, H3, H4 by done. cbn [Nat.eqb negb orb].
  rewrite (Hcomm ikA spkB), (Hcomm ekA ikB), (Hcomm ekA spkB).
  destruct (X25519 spkB (pub ikA)); [|done]. cbn [bindR].
  destruct (X25519 ikB (pub ekA)); [|done]. cbn [bindR].
  destruct (X25519 spkB (pub ekA)); [|done]. cbn [bindR].
  destruct useOPK; [|done]. rewrite Hpub, H5 by done. cbn [Nat.eqb negb].
  by rewrite (Hcomm ekA opkB).
Qed.

(** ** A ratchet and a store to compute with *)

Definition ex_sum (l : list Z) : Z := foldr Z.add 0 l mod 256.
Definition ex_tag (k n ad : list Z) : list Z := replicate 16 ((ex_sum k + ex_sum n + ex_sum ad) mod 256).

#[export] Instance exRatchet : Ratchet := {
  hkdf32 input info := replicate 32 ((ex_sum input + ex_sum info) mod 256);
  sha256 l := replicate 32 (ex_sum l);
  sealX k n p ad := (ex_tag k n ad ++ p)%list;
  openX k n c ad := if bool_decide (take 16 c = ex_tag k n ad) then Some (drop 16 c) else None;
  X25519 a b := Ok (replicate 32 (ex_sum a * ex_sum b))
}.

#[export] Instance exRatchetLaws : RatchetLaws exRatchet.
Proof.
  constructor; intros; unfold hkdf32, openX, sealX, exRatchet.
  - by rewrite length_replicate.
  - by rewrite bool_decide_true.
  - rewrite length_app. cbn. lia.
Qed.

(** Sessions kept by value. *)
Record exStore := mkExStore { ex_vals : gmap string SessionVal }.

#[export] Instance exSessionStore : SessionStore exStore := {
  Save _ st := fun '(h, s) =>
    ((h, mkExStore (<[ContactID st := derefSession h st]> (ex_vals s))), Ok tt);
  Get _ contactID := fun '(h, s) =>
    match ex_vals s !! contactID with
    | None => ((h, s), Ok None)
    | Some v => let '(h', st) := materialize h v in ((h', s), Ok (Some st))
    end;
  All env := fun '(h, s) =>
    let '(h', sts) := materializeAll h (@rangeMap (env_rt env) _ (ex_vals s)).*2 in ((h', s), Ok sts);
  StoreWipe := Some (fun _ '(h, _) => ((h, mkExStore ∅), Ok tt));
  StoreSetPersistence := None
}.

#[export] Program Instance exStore_isolated : IsolatedStore exStore := {
  holds s vals := ex_vals s = vals
}.
Next Obligation. by intros s vals vals' <-. Qed.
Next Obligation.
  intros env c h s vals _ <-. cbn. destruct (ex_vals s !! c) as [v|]; [|done].
  pose proof (materialize_deref h v). destruct (materialize h v) as [h' st]. eauto.
Qed.
Next Obligation. intros env st h s vals _ <-. by eexists. Qed.

Definition ex_call (t : Z) : CallEnv := mkCall ex_env ex_env (fun _ => t) (Ok (replicate 24 3)).
Definition ex_key : list Z := replicate 32 5.
Definition ex_empty : SkipHeap * exStore := (mkSkipHeap ∅ 0, mkExStore ∅).
Definition ex_alice : SkipHeap * exStore := fst (InitSession (ex_call 0) "alice" "bob" ex_key ex_empty).
Definition ex_bob : SkipHeap * exStore := fst (InitSession (ex_call 0) "bob" "alice" ex_key ex_empty).

Definition ex_dummy : MessageEnvelope := mkMsgEnvelope 0 "" "" [] 0 0 [] [] 0.
Definition ex_sent (t : Z) (p : list Z) (w : SkipHeap * exStore) : MessageEnvelope :=
  match snd (EncryptMessage (ex_call t) "bob" p w) with Ok env => env | Err _ => ex_dummy end.
(** Alice's first message, sealed at two times, and her second one. *)
Definition ex_m1 : MessageEnvelope := ex_sent 1 [11] ex_alice.
Definition ex_m1' : MessageEnvelope := ex_sent 2 [12] ex_alice.
Definition ex_m2 : MessageEnvelope :=
  ex_sent 3 [13] (fst (EncryptMessage (ex_call 1) "bob" [11] ex_alice)).

Lemma ex_call_ok t : call_ok (ex_call t).
Proof. split; [apply ex_env_ok|]. split; [apply ex_env_ok|]. by eexists. Qed.

Lemma ex_bob_ok : world_ok ex_bob.
Proof.
  apply (session_step_keeps "" ex_empty).
  - apply step_init; [apply ex_call_ok|done].
  - exists ∅. split; [done|]. apply map_Forall_empty.
Qed.

Lemma chain_index_opens_once_witness :
  is_ok (snd (DecryptMessage (ex_call 9) "alice" ex_m1'
                (fst (DecryptMessage (ex_call 8) "alice" ex_m1 ex_bob)))) = false.
Proof.
  apply (chain_index_opens_once "alice" (ex_call 8) (ex_call 9) ex_m1 ex_m1' ex_bob
           (fst (DecryptMessage (ex_call 8) "alice" ex_m1 ex_bob)) _ [11]).
  - apply ex_call_ok.
  - apply ex_call_ok.
  - vm_compute. split; [discriminate|reflexivity].
  - apply ex_bob_ok.
  - vm_compute. reflexivity.
  - apply rtc_refl.
  - vm_compute. reflexivity.
Defined.

Lemma rejected_envelopes_leave_no_trace_witness :
  snd (fst (DecryptMessage (ex_call 9) "alice" ex_dummy ex_bob)) = snd ex_bob
  /\ exists v, ex_vals (snd ex_bob) !! "alice" = Some v /\ (size (keysOf v) <= 512)%nat.
Proof.
  destruct (rejected_envelopes_leave_no_trace ex_bob ex_bob ex_bob_ok (rtc_refl _ _)) as [Hr Hk].
  split.
  - apply (Hr (ex_call 9) "alice" ex_dummy _ (errorsNew "invalid version")); [apply ex_call_ok|].
    vm_compute. reflexivity.
  - destruct (ex_vals (snd ex_bob) !! "alice") as [v|] eqn:E; [|vm_compute in E; discriminate].
    exists v. split; [reflexivity|]. apply (Hk (ex_vals (snd ex_bob)) "alice" v); [reflexivity|exact E].
Defined.

Lemma concurrent_encrypts_collide_witness :
  exists e1 e2, snd (interleavedEncrypts (ex_call 1) (ex_call 2) "bob" [11] [12] ex_alice)
                = Ok (e1, e2) /\ me_ChainIndex e1 = 0 /\ me_ChainIndex e2 = 0.
Proof.
  destruct (ex_vals (snd ex_alice) !! "bob") as [v|] eqn:E; [|vm_compute in E; discriminate].
  assert (Hi : SendChainIndex v = 0) by (vm_compute in E; injection E as <-; reflexivity).
  destruct (concurrent_encrypts_collide (ex_call 1) (ex_call 2) "bob" [11] [12]
    (fst ex_alice) (snd ex_alice) (ex_vals (snd ex_alice)) v) as (e1 & e2 & Hrun & H1 & H2 & _).
  - apply ex_call_ok.
  - apply ex_call_ok.
  - reflexivity.
  - exact E.
  - rewrite Hi. vm_compute. split; [discriminate|reflexivity].
  - exists e1, e2. rewrite H1, H2, Hi. split; [exact Hrun|]. split; reflexivity.
Defined.

Definition ex_chain : list Z :=
  snd (deriveInitialChainKeys (deriveRootKey "bob" "alice" ex_key) "bob" "alice").
Definition ex_mem_state : SessionRef :=
  mkSession (buildSessionID "bob" "alice" ex_key) "alice" ex_key [] [] ex_chain 0 0 [] (Some 0%nat) 0 0.
Definition ex_forged : MessageEnvelope :=
  mkMsgEnvelope 1 (buildSessionID "bob" "alice" ex_key) "dr_forged" [1] 1 0 (replicate 24 3) [0] 0.

Lemma forged_envelope_revives_used_key_witness :
  receiveAll "alice" [(ex_call 5, ex_forged); (ex_call 6, ex_m1); (ex_call 7, ex_m2);
                      (ex_call 8, ex_m1')]
    (mkSkipHeap {[0%nat := ∅]} 1, mkInMemory {["alice" := ex_mem_state]})
  = [Err errOpen; Ok [11]; Ok [13]; Ok [12]].
Proof.
  apply (forged_envelope_revives_used_key ex_chain "alice" 0 ex_mem_state 0); try reflexivity.
  - unfold maxSkippedChainGap. lia.
  - constructor; [vm_compute; reflexivity..|exists 1; vm_compute; reflexivity|vm_compute; reflexivity].
  - constructor; [vm_compute; reflexivity..|exists 3; vm_compute; reflexivity|vm_compute; reflexivity].
  - constructor; [vm_compute; reflexivity..|exists 2; vm_compute; reflexivity|vm_compute; reflexivity].
  - vm_compute. discriminate.
  - split; [vm_compute; reflexivity|]. split; [vm_compute; reflexivity|]. apply not_elem_of_nil.
Defined.

Lemma x3dh_sides_agree_witness :
  X3DHInitiatorSharedSecret ex_key ex_key ex_key ex_key ex_key
  = X3DHResponderSharedSecret ex_key ex_key ex_key ex_key ex_key true.
Proof.
  apply (x3dh_sides_agree (fun k => k) ex_key ex_key ex_key ex_key ex_key true).
  - intros a b. unfold X25519, exRatchet. by rewrite Z.mul_comm.
  - done.
  - repeat constructor.
Defined.

(** A codec for the sessions of the file store. *)
#[export] Instance SessionState_eq_dec {K} `{EqDecision K} : EqDecision (SessionState K).
Proof. solve_decision. Defined.

#[export] Instance SessionState_countable {K} `{Countable K} : Countable (SessionState K).
Proof.
  apply (inj_countable'
    (fun v => (SessionID v, ContactID v, PeerPublicKey v, RootKey v, SendChainKey v, RecvChainKey v,
               SendChainIndex v, RecvChainIndex v, SeenMessageIDs v, SkippedKeys v,
               CreatedAt v, UpdatedAt v))
    (fun '(v1, v2, v3, v4, v5, v6, v7, v8, v9, v10, v11, v12) => mkSession v1 v2 v3 v4 v5 v6 v7 v8 v9 v10 v11 v12)).
  by intros [].
Defined.

#[export] Instance exSessionCodec : SessionCodec := {
  marshalSessions all := Ok [Zpos (encode all)];
  unmarshalSessions l :=
    match l with
    | [Zpos p] => match decode p with Some all => Ok all | None => Err (errorsNew "json") end
    | _ => Err (errorsNew "json")
    end
}.

#[export] Instance exSessionCodecLaws : SessionCodecLaws exSessionCodec.
Proof. constructor. intros all. eexists. split; [|split; [reflexivity|]]; [done|]. cbn. by rewrite decode_encode. Qed.

Definition ex_files : SkipHeap * FileSessionStore :=
  (mkSkipHeap ∅ 0, NewEncryptedFileSessionStore "sessions" "pass" None).

Lemma ex_files_ok : world_ok ex_files.
Proof.
  exists ∅. split; [|apply map_Forall_empty]. split; [done|]. intros env He.
  unfold loadAllLocked, readFile. by rewrite He.
Qed.

Lemma messages_open_in_any_order_witness :
  exists envs,
    snd (sendAll "bob" [(ex_call 1, [11]); (ex_call 2, [12]); (ex_call 3, [13])]
           (fst (InitSession (ex_call 0) "alice" "bob" ex_key ex_files))) = Ok envs
    /\ receiveAll "alice" (arrivalsOf envs [(ex_call 4, 2%nat); (ex_call 5, 0%nat); (ex_call 6, 1%nat)])
         (fst (InitSession (ex_call 0) "bob" "alice" ex_key ex_files))
       = [Ok [13]; Ok [11]; Ok [12]].
Proof.
  apply (messages_open_in_any_order "alice" "bob" ex_key (ex_call 0) (ex_call 0) ex_files ex_files
           [(ex_call 1, [11]); (ex_call 2, [12]); (ex_call 3, [13])]
           [(ex_call 4, 2%nat); (ex_call 5, 0%nat); (ex_call 6, 1%nat)]);
    try discriminate; try reflexivity; try apply ex_call_ok; try apply ex_files_ok.
  - repeat constructor; apply ex_call_ok.
  - repeat constructor; apply ex_call_ok.
  - repeat constructor; set_solver.
  - vm_compute. repeat split; discriminate.
Defined.
