(* ===== verification/PrivacyService.v ===== *)
(** * The privacy service and its stores

    Models internal/domains/privacy (settings_store.go, blocklist_store.go, store_common.go) and
    usecase/service.go: the settings and the block list in memory, each kept in an encrypted file of
    its own. The block list is changed under the service's lock; the settings are read under the
    lock, persisted without it and then installed under it, so an update is also given as its two
    halves. *)
From S2P Require Import Prelude Privacy SecureStore.
From stdpp Require Import base gmap strings list sets option relations.
From Stdlib Require Import ZArith Lia.
Open Scope string_scope.
Open Scope Z_scope.
Open Scope go_scope.

Record persistedPrivacySettingsState := mkPersistedSettings {
  pst_Version : Z; pst_Settings : PrivacySettings
}.
Record persistedBlocklistState := mkPersistedBlocklist { pbl_Version : Z; pbl_Blocked : list string }.

(** The service, with the errors it has recorded. *)
Record PrivacyWorld := mkPrivacyWorld {
  pw_privacy : PrivacySettings;
  pw_blocklist : Blocklist;
  pw_settings : EncStore;
  pw_blocks : EncStore;
  pw_errors : list (string * error)
}.

Definition with_pw_privacy (w : PrivacyWorld) (s : PrivacySettings) : PrivacyWorld :=
  mkPrivacyWorld s (pw_blocklist w) (pw_settings w) (pw_blocks w) (pw_errors w).
Definition with_pw_blocklist (w : PrivacyWorld) (b : Blocklist) : PrivacyWorld :=
  mkPrivacyWorld (pw_privacy w) b (pw_settings w) (pw_blocks w) (pw_errors w).
Definition with_pw_settings (w : PrivacyWorld) (s : EncStore) : PrivacyWorld :=
  mkPrivacyWorld (pw_privacy w) (pw_blocklist w) s (pw_blocks w) (pw_errors w).
Definition with_pw_blocks (w : PrivacyWorld) (s : EncStore) : PrivacyWorld :=
  mkPrivacyWorld (pw_privacy w) (pw_blocklist w) (pw_settings w) s (pw_errors w).
Definition with_pw_error (w : PrivacyWorld) (category : string) (e : error) : PrivacyWorld :=
  mkPrivacyWorld (pw_privacy w) (pw_blocklist w) (pw_settings w) (pw_blocks w)
    (pw_errors w ++ [(category, e)]).

(** The assignments to single fields of the settings. *)
Definition set_mode (s : PrivacySettings) (mode : string) : PrivacySettings :=
  mkSettings (ps_ProfileSchemaVersion s) mode (ps_StorageProtection s) (ps_ContentRetentionMode s)
    (ps_MessageTTLSeconds s) (ps_ImageTTLSeconds s) (ps_FileTTLSeconds s) (ps_ImageQuotaMB s)
    (ps_FileQuotaMB s) (ps_ImageMaxItemSizeMB s) (ps_FileMaxItemSizeMB s)
    (ps_StorageScopeOverrides s) (ps_NodePolicies s).
Definition set_policy (s : PrivacySettings) (p : StoragePolicy) : PrivacySettings :=
  mkSettings (ps_ProfileSchemaVersion s) (ps_MessagePrivacyMode s) (sp_StorageProtection p)
    (sp_ContentRetentionMode p) (sp_MessageTTLSeconds p) (sp_ImageTTLSeconds p) (sp_FileTTLSeconds p)
    (sp_ImageQuotaMB p) (sp_FileQuotaMB p) (sp_ImageMaxItemSizeMB p) (sp_FileMaxItemSizeMB p)
    (ps_StorageScopeOverrides s) (ps_NodePolicies s).
Definition set_overrides (s : PrivacySettings) (m : gmap string StoragePolicyOverride)
    : PrivacySettings :=
  mkSettings (ps_ProfileSchemaVersion s) (ps_MessagePrivacyMode s) (ps_StorageProtection s)
    (ps_ContentRetentionMode s) (ps_MessageTTLSeconds s) (ps_ImageTTLSeconds s) (ps_FileTTLSeconds s)
    (ps_ImageQuotaMB s) (ps_FileQuotaMB s) (ps_ImageMaxItemSizeMB s) (ps_FileMaxItemSizeMB s)
    (Some m) (ps_NodePolicies s).
Definition set_node (s : PrivacySettings) (n : option NodePolicies) : PrivacySettings :=
  mkSettings (ps_ProfileSchemaVersion s) (ps_MessagePrivacyMode s) (ps_StorageProtection s)
    (ps_ContentRetentionMode s) (ps_MessageTTLSeconds s) (ps_ImageTTLSeconds s) (ps_FileTTLSeconds s)
    (ps_ImageQuotaMB s) (ps_FileQuotaMB s) (ps_ImageMaxItemSizeMB s) (ps_FileMaxItemSizeMB s)
    (ps_StorageScopeOverrides s) n.

Definition requiresPrivacySettingsMigration (before after : PrivacySettings) : bool :=
  if ps_ProfileSchemaVersion before <? CurrentProfileSchemaVersion then true else
  match ps_NodePolicies before with
  | None => true
  | Some _ => negb (before == after)
  end.

Definition joinErr (e1 : option error) (e2 : error) : error :=
  match e1 with None => e2 | Some e1 => errorsJoin e1 e2 end.

Section Privacy.
Context {cipher : Cipher} {ecodec : EnvelopeCodec} {lower : GoLower}.
Context {scodec : JsonCodec persistedPrivacySettingsState} {bcodec : JsonCodec persistedBlocklistState}.

Abbreviation norm env := (@NormalizePrivacySettings (env_rt env) lower).

(** ** The stores *)

Definition SettingsPersist (env : StoreEnv) (settings : PrivacySettings) : M EncStore error unit :=
  fun s =>
  if negb (es_configured s) then (s, Ok tt) else
  writeStore env (mkPersistedSettings 1 (norm env settings)) s.

Definition SettingsBootstrap (env : StoreEnv) : M EncStore error PrivacySettings := fun s =>
  if negb (es_configured s) then (s, Ok DefaultPrivacySettings) else
  match readFile (es_disk s) (env_read env) with
  | Err err =>
      if err == fsErrNotExist then
        (SettingsPersist env DefaultPrivacySettings ;;! retM DefaultPrivacySettings) s
      else (s, Err err)
  | Ok raw =>
      match (try! plaintext := Decrypt (es_secret s) raw in
             try! state := unmarshalJSON plaintext in
             if negb (pst_Version state =? 1)
             then Err (errorsNew "privacy settings persistence payload is invalid") else
             Ok (pst_Settings state)) with
      | Err err => (s, Err err)
      | Ok settings =>
          let normalized := norm env settings in
          (if requiresPrivacySettingsMigration settings normalized
           then SettingsPersist env normalized ;;! retM normalized
           else retM normalized) s
      end
  end.

Definition BlocklistPersist (env : StoreEnv) (list : Blocklist) : M EncStore error unit := fun s =>
  if negb (es_configured s) then (s, Ok tt) else
  writeStore env (mkPersistedBlocklist 1 (@Blocklist_List (env_rt env) list)) s.

Definition BlocklistBootstrap (env : StoreEnv) : M EncStore error Blocklist := fun s =>
  if negb (es_configured s) then (s, NewBlocklist []) else
  match readFile (es_disk s) (env_read env) with
  | Err err =>
      if err == fsErrNotExist then
        (let! list := liftM (NewBlocklist []) in
         BlocklistPersist env list ;;!
         retM list) s
      else (s, Err err)
  | Ok raw =>
      (s, try! plaintext := Decrypt (es_secret s) raw in
          try! state := unmarshalJSON plaintext in
          if negb (pbl_Version state =? 1)
          then Err (errorsNew "blocklist persistence payload is invalid") else
          NewBlocklist (pbl_Blocked state))
  end.

(** ** The service *)

Abbreviation op := (M PrivacyWorld error).

(** A computation on one of the stores. *)
Definition onSettings {A} (m : M EncStore error A) : op A := fun w =>
  let '(s, r) := m (pw_settings w) in (with_pw_settings w s, r).
Definition onBlocks {A} (m : M EncStore error A) : op A := fun w =>
  let '(s, r) := m (pw_blocks w) in (with_pw_blocks w s, r).

Definition NewService (settings blocks : EncStore) : PrivacyWorld :=
  mkPrivacyWorld DefaultPrivacySettings (mkBlocklist None) settings blocks [].

Definition ConfigureService (privacyPath blocklistPath secret : string) (w : PrivacyWorld)
    : PrivacyWorld :=
  with_pw_blocks (with_pw_settings w (ConfigureStore privacyPath secret (pw_settings w)))
    (ConfigureStore blocklistPath secret (pw_blocks w)).

Definition SetState (env : StoreEnv) (settings : PrivacySettings) (blocklist : Blocklist)
    (w : PrivacyWorld) : PrivacyWorld :=
  with_pw_blocklist (with_pw_privacy w (norm env settings)) blocklist.

(** The values with the two errors; each part falls back to its default on its own. *)
Definition BootstrapPartial (env1 env2 : StoreEnv) (w : PrivacyWorld)
    : PrivacyWorld * (PrivacySettings * Blocklist * option error * option error) :=
  let '(w1, r1) := onSettings (SettingsBootstrap env1) w in
  let '(settings, settingsErr) :=
    match r1 with Ok s => (norm env1 s, None) | Err e => (DefaultPrivacySettings, Some e) end in
  let '(w2, r2) := onBlocks (BlocklistBootstrap env2) w1 in
  let '(list, blocklistErr) :=
    match r2 with
    | Ok l => (l, None)
    | Err e => (match NewBlocklist [] with Ok l => l | Err _ => mkBlocklist None end, Some e)
    end in
  (SetState env2 settings list w2, (settings, list, settingsErr, blocklistErr)).

Definition ServiceBootstrap (env1 env2 : StoreEnv) : op (PrivacySettings * Blocklist) := fun w =>
  let '(w', (settings, list, settingsErr, blocklistErr)) := BootstrapPartial env1 env2 w in
  (w', match settingsErr, blocklistErr with
       | Some e, _ => Err e
       | None, Some e => Err e
       | None, None => Ok (settings, list)
       end).

Definition CurrentMode (w : PrivacyWorld) : string := ps_MessagePrivacyMode (pw_privacy w).
Definition IsBlockedSender (w : PrivacyWorld) (senderID : string) : bool :=
  Blocklist_Contains (pw_blocklist w) senderID.

Definition GetPrivacySettings (env : StoreEnv) : op PrivacySettings := fun w =>
  (w, Ok (norm env (pw_privacy w))).

(** Persisting, recording a failure, and installing the settings. *)
Definition commitSettings (env : StoreEnv) (updated : PrivacySettings) : op unit := fun w =>
  let '(w1, r) := onSettings (SettingsPersist env updated) w in
  match r with
  | Err err => (with_pw_error w1 "storage" err, Err err)
  | Ok _ => (with_pw_privacy w1 updated, Ok tt)
  end.

Definition UpdatePrivacySettings (env : StoreEnv) (mode : string) : op PrivacySettings :=
  let! parsedMode := liftM (ParseMessagePrivacyMode mode) in
  let! current := GetPrivacySettings env in
  let updated := norm env (set_mode current parsedMode) in
  commitSettings env updated ;;!
  retM updated.

Definition GetStoragePolicy (env : StoreEnv) : op StoragePolicy :=
  let! settings := GetPrivacySettings env in
  retM (@StoragePolicyFromSettings (env_rt env) _ settings).

Definition UpdateStoragePolicy (env : StoreEnv) (storageProtection retention : string)
    (messageTTL imageTTL fileTTL imageQuota fileQuota imageMax fileMax : Z) : op StoragePolicy :=
  let! policy := liftM (@ParseStoragePolicy (env_rt env) _ storageProtection retention messageTTL
                          imageTTL fileTTL imageQuota fileQuota imageMax fileMax) in
  let! current := GetPrivacySettings env in
  let updated := norm env (set_policy current policy) in
  commitSettings env updated ;;!
  retM (@StoragePolicyFromSettings (env_rt env) _ updated).

Definition SetStorageScopeOverride (env : StoreEnv) (scope scopeID : string)
    (override : StoragePolicyOverride) : op StoragePolicyOverride :=
  let! key := liftM (ScopeOverrideKey scope scopeID) in
  let normalized := NormalizeStoragePolicyOverride override in
  let! current := GetPrivacySettings env in
  let current := norm env (set_overrides current (<[key := normalized]> (overridesOf current))) in
  commitSettings env current ;;!
  retM normalized.

Definition GetStorageScopeOverride (env : StoreEnv) (scope scopeID : string)
    : op (option StoragePolicyOverride) :=
  let! key := liftM (ScopeOverrideKey scope scopeID) in
  let! current := GetPrivacySettings env in
  retM (overridesOf current !! key).

Definition RemoveStorageScopeOverride (env : StoreEnv) (scope scopeID : string) : op bool :=
  let! key := liftM (ScopeOverrideKey scope scopeID) in
  let! current := GetPrivacySettings env in
  match ps_StorageScopeOverrides current with
  | None => retM false
  | Some m =>
      match m !! key with
      | None => retM false
      | Some _ =>
          commitSettings env (norm env (set_overrides current (delete key m))) ;;!
          retM true
      end
  end.

Definition ResolveStoragePolicy (env : StoreEnv) (scope scopeID : string) (isPinned : bool)
    : op StoragePolicy :=
  let! current := GetPrivacySettings env in
  liftM (@ResolveStoragePolicyForScope (env_rt env) _ current scope scopeID isPinned).

Definition GetNodePolicies (env : StoreEnv) : op NodePolicies :=
  let! settings := GetPrivacySettings env in
  retM (default DefaultNodePolicies (ps_NodePolicies (norm env settings))).

Definition UpdateNodePolicies (env : StoreEnv) (policies : NodePolicies) : op NodePolicies :=
  let! current := GetPrivacySettings env in
  let normalized := ps_NodePolicies (norm env (set_node (modeSettings "") (Some policies))) in
  let updated := norm env (set_node current normalized) in
  commitSettings env updated ;;!
  retM (default DefaultNodePolicies (ps_NodePolicies updated)).

Definition GetBlocklist (env : StoreEnv) : op (list string) := fun w =>
  (w, Ok (@Blocklist_List (env_rt env) (pw_blocklist w))).

(** [mutate] gets a copy of the struct, which shares the map when there is one. *)
Definition updateBlocklist (env : StoreEnv) (mutate : Blocklist -> Blocklist * option error)
    : op (list string) := fun w =>
  match NewBlocklist (@Blocklist_List (env_rt env) (pw_blocklist w)) with
  | Err err => (w, Err err)
  | Ok next =>
      match mutate next with
      | (_, Some err) => (w, Err err)
      | (mutated, None) =>
          let next := match bl_entries next with Some _ => mutated | None => next end in
          let '(w1, r) := onBlocks (BlocklistPersist env next) w in
          match r with
          | Err err => (with_pw_error w1 "storage" err, Err err)
          | Ok _ => (with_pw_blocklist w1 next, Ok (@Blocklist_List (env_rt env) next))
          end
      end
  end.

Definition AddToBlocklist (env : StoreEnv) (identityID : string) : op (list string) :=
  updateBlocklist env (fun next => Blocklist_Add next identityID).
Definition RemoveFromBlocklist (env : StoreEnv) (identityID : string) : op (list string) :=
  updateBlocklist env (fun next => Blocklist_Remove next identityID).

Definition WipeState (env1 env2 : StoreEnv) : op unit := fun w =>
  let '(w1, r1) := onSettings (wipeStore env1 (TrimSpace (es_path (pw_settings w)) == "")) w in
  let '(w2, r2) := onBlocks (wipeStore env2 (TrimSpace (es_path (pw_blocks w)) == "")) w1 in
  let err1 := match r1 with Err e => Some e | Ok _ => None end in
  let wipeErr := match r2 with Err e => Some (joinErr err1 e) | Ok _ => err1 end in
  match NewBlocklist [] with
  | Err err => (w2, Err (joinErr wipeErr err))
  | Ok list =>
      (with_pw_blocklist (with_pw_privacy w2 DefaultPrivacySettings) list,
       match wipeErr with Some e => Err e | None => Ok tt end)
  end.

(** ** Calls of a client *)

Inductive Call :=
| CallMode (mode : string)
| CallPolicy (storageProtection retention : string)
    (messageTTL imageTTL fileTTL imageQuota fileQuota imageMax fileMax : Z)
| CallSetOverride (scope scopeID : string) (override : StoragePolicyOverride)
| CallRemoveOverride (scope scopeID : string)
| CallNode (policies : NodePolicies)
| CallBlock (identityID : string)
| CallUnblock (identityID : string)
| CallWipe.

Definition outcome {A} (wr : PrivacyWorld * result error A) : PrivacyWorld * option error :=
  (fst wr, match snd wr with Ok _ => None | Err e => Some e end).

Definition run_call (env1 env2 : StoreEnv) (c : Call) (w : PrivacyWorld)
    : PrivacyWorld * option error :=
  match c with
  | CallMode mode => outcome (UpdatePrivacySettings env1 mode w)
  | CallPolicy sp re m i f q1 q2 q3 q4 => outcome (UpdateStoragePolicy env1 sp re m i f q1 q2 q3 q4 w)
  | CallSetOverride scope id o => outcome (SetStorageScopeOverride env1 scope id o w)
  | CallRemoveOverride scope id => outcome (RemoveStorageScopeOverride env1 scope id w)
  | CallNode n => outcome (UpdateNodePolicies env1 n w)
  | CallBlock id => outcome (AddToBlocklist env1 id w)
  | CallUnblock id => outcome (RemoveFromBlocklist env1 id w)
  | CallWipe => outcome (WipeState env1 env2 w)
  end.

(** A new process on the same files. *)
Definition restart (env1 env2 : StoreEnv) (w : PrivacyWorld)
    : PrivacyWorld * (PrivacySettings * Blocklist * option error * option error) :=
  BootstrapPartial env1 env2 (NewService (pw_settings w) (pw_blocks w)).

(** The settings in memory are normalized, or the defaults, which differ from their normal form
    in the missing map of overrides; the block list holds normalized identities. *)
Definition block_ok (b : Blocklist) : Prop :=
  set_Forall (fun id => NormalizeIdentityID id = Ok id) (blockedIDs b).

Definition memory_ok (w : PrivacyWorld) : Prop :=
  (settings_ok (pw_privacy w) \/ pw_privacy w = DefaultPrivacySettings) /\ block_ok (pw_blocklist w).

(** Every call either leaves the memory and commits nothing, or commits one part of it: the settings,
    the block list, or both to their initial values. *)
Inductive effect (env1 env2 : StoreEnv) (c : Call) (w : PrivacyWorld) : PrivacyWorld * option error -> Prop :=
| effect_none e : effect env1 env2 c w (w, e)
| effect_settings s :
    settings_ok s -> effect env1 env2 c w (outcome (commitSettings env1 s w))
| effect_blocks b :
    block_ok b -> bl_entries b <> None ->
    effect env1 env2 c w (outcome (updateBlocklist env1 (fun _ => (b, None)) w))
| effect_wipe : c = CallWipe -> effect env1 env2 c w (outcome (WipeState env1 env2 w)).

Lemma block_ok_empty : block_ok (mkBlocklist (Some ∅)).
Proof. intros x Hx. cbn in Hx. set_solver. Qed.

Lemma NormalizeIdentityID_idemp id id' :
  NormalizeIdentityID id = Ok id' -> NormalizeIdentityID id' = Ok id'.
Proof.
  unfold NormalizeIdentityID. destruct (_ || _) eqn:E; [done|]. intros [= <-].
  by rewrite TrimSpace_idemp, E.
Qed.

Lemma addIDs_ok ids entries :
  Forall (fun id => NormalizeIdentityID id = Ok id) ids ->
  addIDs entries ids = Ok (list_to_set ids ∪ entries).
Proof.
  revert entries. induction ids as [|id ids IH]; intros entries Hids; cbn [addIDs].
  - f_equal. cbn. set_solver.
  - inversion Hids as [|? ? Hid Hids']; subst. rewrite Hid. cbn [bindR]. rewrite (IH _ Hids').
    f_equal. cbn [list_to_set]. set_solver.
Qed.

Lemma Blocklist_List_elem (rt : GoRuntime) b id : id ∈ Blocklist_List b <-> id ∈ blockedIDs b.
Proof. unfold Blocklist_List. rewrite sortSlice_perm. apply elem_of_elements. Qed.

Lemma NewBlocklist_List (rt : GoRuntime) b :
  block_ok b -> NewBlocklist (Blocklist_List b) = Ok (mkBlocklist (Some (blockedIDs b))).
Proof.
  intros Hb. unfold NewBlocklist. rewrite addIDs_ok.
  - cbn [bindR]. do 3 f_equal. apply leibniz_equiv. intros id.
    rewrite elem_of_union, elem_of_list_to_set, Blocklist_List_elem. set_solver.
  - apply list.Forall_forall. intros id. rewrite Blocklist_List_elem. apply Hb.
Qed.

Lemma addIDs_normal ids entries entries' :
  set_Forall (fun id => NormalizeIdentityID id = Ok id) entries ->
  addIDs entries ids = Ok entries' ->
  set_Forall (fun id => NormalizeIdentityID id = Ok id) entries'.
Proof.
  revert entries. induction ids as [|raw ids IH]; intros entries He; cbn [addIDs]; [by intros [= <-]|].
  destruct (NormalizeIdentityID raw) as [id|] eqn:E; cbn [bindR]; [|done]. apply IH.
  apply set_Forall_union; [|done]. apply set_Forall_singleton. by eapply NormalizeIdentityID_idemp.
Qed.

Lemma NewBlocklist_ok ids b : NewBlocklist ids = Ok b -> block_ok b /\ bl_entries b <> None.
Proof.
  unfold NewBlocklist. destruct (addIDs ∅ ids) as [e|] eqn:E; cbn [bindR]; [|done].
  intros [= <-]. split; [|done]. by eapply addIDs_normal, E.
Qed.

Lemma update_effect env1 env2 c mutate w :
  block_ok (pw_blocklist w) ->
  (forall b b', block_ok b -> mutate b = (b', None) -> block_ok b' /\ bl_entries b' <> None) ->
  effect env1 env2 c w (outcome (updateBlocklist env1 mutate w)).
Proof.
  intros Hw Hm. unfold updateBlocklist. rewrite (NewBlocklist_List _ _ Hw).
  destruct (mutate _) as [b' [e|]] eqn:E; [apply effect_none|]. cbn [bl_entries].
  destruct (Hm (mkBlocklist (Some (blockedIDs (pw_blocklist w)))) b') as [Hb Hn]; [done|done|].
  pose proof (effect_blocks env1 env2 c w b' Hb Hn) as He. unfold updateBlocklist in He.
  rewrite (NewBlocklist_List _ _ Hw) in He. exact He.
Qed.

(** A computation that ends with the commit of settings. *)
Lemma commit_then {A} env1 env2 c s (k : A) w :
  settings_ok s -> effect env1 env2 c w (outcome ((commitSettings env1 s ;;! retM k) w)).
Proof.
  intros Hs. pose proof (effect_settings env1 env2 c w s Hs) as He. revert He.
  unfold outcome, bindM. by destruct (commitSettings env1 s w) as [w' [[]|e]].
Qed.

Lemma call_effect env1 env2 c w :
  block_ok (pw_blocklist w) -> effect env1 env2 c w (run_call env1 env2 c w).
Proof.
  intros Hb. destruct c; cbn [run_call].
  - unfold UpdatePrivacySettings. unfold bindM at 1, liftM.
    destruct (ParseMessagePrivacyMode mode); [|apply effect_none]. apply commit_then, normalize_ok.
  - unfold UpdateStoragePolicy. unfold bindM at 1, liftM.
    destruct (ParseStoragePolicy _ _ _ _ _ _ _ _ _); [|apply effect_none].
    apply commit_then, normalize_ok.
  - unfold SetStorageScopeOverride. unfold bindM at 1, liftM.
    destruct (ScopeOverrideKey _ _); [|apply effect_none]. apply commit_then, normalize_ok.
  - unfold RemoveStorageScopeOverride. unfold bindM at 1, liftM.
    destruct (ScopeOverrideKey _ _); [|apply effect_none]. unfold bindM at 1, GetPrivacySettings.
    destruct (ps_StorageScopeOverrides _) as [m|]; [|apply effect_none].
    destruct (m !! a); [|apply effect_none]. apply commit_then, normalize_ok.
  - apply commit_then, normalize_ok.
  - apply update_effect; [done|]. intros b b' Hbb. unfold Blocklist_Add.
    destruct (NormalizeIdentityID identityID) as [id|] eqn:E; [|done]. intros [= <-]. split; [|done].
    intros x Hx. unfold blockedIDs in Hx at 1. cbn in Hx.
    apply elem_of_union in Hx as [->%elem_of_singleton|Hx]; [by eapply NormalizeIdentityID_idemp|by apply Hbb].
  - unfold RemoveFromBlocklist, updateBlocklist. rewrite (NewBlocklist_List _ _ Hb).
    unfold Blocklist_Remove. destruct (NormalizeIdentityID identityID) as [id|] eqn:E; [|apply effect_none].
    cbn [bl_entries fmap option_fmap option_map].
    assert (Hd : block_ok (mkBlocklist (Some (blockedIDs (pw_blocklist w) ∖ {[id]})))).
    { intros x Hx. apply Hb. cbn in Hx. set_solver. }
    pose proof (effect_blocks env1 env2 (CallUnblock identityID) w _ Hd ltac:(done)) as He. unfold updateBlocklist in He.
    rewrite (NewBlocklist_List _ _ Hb) in He. exact He.
  - by apply effect_wipe.
Qed.

(** What the stores do never shows in the memory. *)
Lemma commit_cases env s w :
  exists st r, commitSettings env s w =
    match r with
    | Ok _ => (with_pw_privacy (with_pw_settings w st) s, Ok tt)
    | Err e => (with_pw_error (with_pw_settings w st) "storage" e, Err e)
    end /\ SettingsPersist env s (pw_settings w) = (st, r).
Proof.
  unfold commitSettings, onSettings. destruct (SettingsPersist _ _ _) as [st r]. exists st, r.
  by destruct r.
Qed.

Lemma blocks_cases env b w :
  block_ok (pw_blocklist w) -> bl_entries b <> None ->
  exists st r, updateBlocklist env (fun _ => (b, None)) w =
    match r with
    | Ok _ => (with_pw_blocklist (with_pw_blocks w st) b, Ok (@Blocklist_List (env_rt env) b))
    | Err e => (with_pw_error (with_pw_blocks w st) "storage" e, Err e)
    end /\ BlocklistPersist env b (pw_blocks w) = (st, r).
Proof.
  intros Hb Hn. unfold updateBlocklist. rewrite (NewBlocklist_List _ _ Hb). cbn [bl_entries].
  unfold onBlocks. destruct (BlocklistPersist _ _ _) as [st r]. exists st, r. by destruct r.
Qed.

Lemma wipe_cases env1 env2 w :
  exists st1 r1 st2 r2, outcome (WipeState env1 env2 w) =
      (with_pw_blocklist (with_pw_privacy (with_pw_blocks (with_pw_settings w st1) st2)
                            DefaultPrivacySettings) (mkBlocklist (Some ∅)),
       match r2 with Err e => Some (joinErr r1 e) | Ok _ => r1 end)
    /\ wipeStore env1 (TrimSpace (es_path (pw_settings w)) == "") (pw_settings w)
       = (st1, match r1 with Some e => Err e | None => Ok tt end)
    /\ wipeStore env2 (TrimSpace (es_path (pw_blocks w)) == "") (pw_blocks w) = (st2, r2).
Proof.
  unfold WipeState, onSettings, onBlocks, outcome.
  destruct (wipeStore env1 _ _) as [st1 r1] eqn:E1. cbn [pw_blocks with_pw_settings].
  destruct (wipeStore env2 _ _) as [st2 r2].
  exists st1, (match r1 with Err e => Some e | Ok _ => None end), st2, r2. cbn.
  destruct r1 as [[]|e1], r2 as [[]|e2]; done.
Qed.

Lemma effect_memory env1 env2 c w wr :
  effect env1 env2 c w wr -> memory_ok w ->
  memory_ok (fst wr) /\ (forall err, snd wr = Some err ->
    (pw_privacy (fst wr) = pw_privacy w /\ pw_blocklist (fst wr) = pw_blocklist w)
    \/ (c = CallWipe /\ pw_privacy (fst wr) = DefaultPrivacySettings
        /\ blockedIDs (pw_blocklist (fst wr)) = ∅)).
Proof.
  intros He [Hs Hb]. destruct He as [?|s Hso|b Hbo Hn|Hc].
  - split; [done|]. by left.
  - destruct (commit_cases env1 s w) as (st & r & E & _). unfold outcome. rewrite E.
    destruct r; (split; [split; cbn; auto|]); [done|by left].
  - destruct (blocks_cases env1 b w Hb Hn) as (st & r & E & _). unfold outcome. rewrite E.
    destruct r; (split; [split; cbn; auto|]); [done|by left].
  - destruct (wipe_cases env1 env2 w) as (st1 & r1 & st2 & r2 & E & _). rewrite E.
    split; [split; [by right|apply block_ok_empty]|by right].
Qed.

(** ** The memory is in step with the files *)

(** What encoding/json leaves of settings: an empty map is omitted and comes back as nil. *)
Definition omitEmpty (s : PrivacySettings) : PrivacySettings :=
  if overridesOf s == ∅ then
    mkSettings (ps_ProfileSchemaVersion s) (ps_MessagePrivacyMode s) (ps_StorageProtection s)
      (ps_ContentRetentionMode s) (ps_MessageTTLSeconds s) (ps_ImageTTLSeconds s)
      (ps_FileTTLSeconds s) (ps_ImageQuotaMB s) (ps_FileQuotaMB s) (ps_ImageMaxItemSizeMB s)
      (ps_FileMaxItemSizeMB s) None (ps_NodePolicies s)
  else s.

Lemma normalize_omitEmpty (rt : GoRuntime) s :
  settings_ok s -> NormalizePrivacySettings (omitEmpty s) = s.
Proof.
  intros Hs. pose proof (normalize_id s Hs) as Hn. destruct Hs as [_ _ _ (m & Hm & _) _].
  unfold omitEmpty, overridesOf. rewrite Hm. cbn [default]. case_bool_decide as Hd; [|done].
  change (m = ∅) in Hd. transitivity (NormalizePrivacySettings s); [|done].
  unfold NormalizePrivacySettings. cbn -[rangeMap]. rewrite Hm, Hd. do 2 f_equal. cbn.
  assert (Hr : rangeMap (∅ : gmap string StoragePolicyOverride) = []).
  { apply Permutation_nil_r. by rewrite rangeMap_perm, map_to_list_empty. }
  by rewrite Hr.
Qed.

Lemma normalize_default (rt1 rt2 : GoRuntime) :
  @NormalizePrivacySettings rt1 _ DefaultPrivacySettings
  = @NormalizePrivacySettings rt2 _ DefaultPrivacySettings.
Proof. done. Qed.

Inductive settings_synced (s : PrivacySettings) (st : EncStore) : Prop :=
| synced_written : settings_ok s -> store_holds st (mkPersistedSettings 1 s) -> settings_synced s st
| synced_read : settings_ok s -> store_reads st (mkPersistedSettings 1 s) -> settings_synced s st
| synced_missing : es_disk st = None -> s = DefaultPrivacySettings -> settings_synced s st.

Inductive blocks_synced (b : Blocklist) (st : EncStore) : Prop :=
| blocks_written l :
    l ≡ₚ elements (blockedIDs b) -> store_holds st (mkPersistedBlocklist 1 l) -> blocks_synced b st
| blocks_read l :
    store_reads st (mkPersistedBlocklist 1 l) -> NewBlocklist l = Ok b -> blocks_synced b st
| blocks_missing : es_disk st = None -> blockedIDs b = ∅ -> blocks_synced b st.

Record synced (w : PrivacyWorld) : Prop := {
  sy_settings_configured : es_configured (pw_settings w) = true;
  sy_blocks_configured : es_configured (pw_blocks w) = true;
  sy_settings : settings_synced (pw_privacy w) (pw_settings w);
  sy_blocks : blocks_synced (pw_blocklist w) (pw_blocks w);
  sy_memory : block_ok (pw_blocklist w)
}.

Section Synced.
Context {claws : CipherLaws cipher} {elaws : EnvelopeCodecLaws ecodec}.

Lemma SettingsPersist_synced env s st :
  env_ok env -> settings_ok s -> es_configured st = true ->
  (exists e, marshalJSON (mkPersistedSettings 1 s) = Err e /\ SettingsPersist env s st = (st, Err e))
  \/ exists d, SettingsPersist env s st = (with_es_disk st d, Ok tt)
       /\ store_holds (with_es_disk st d) (mkPersistedSettings 1 s).
Proof.
  intros He Hs Hc. unfold SettingsPersist. rewrite Hc, (normalize_id _ Hs). by apply writeStore_holds.
Qed.

Lemma BlocklistPersist_synced env b st :
  env_ok env -> es_configured st = true ->
  exists l, l ≡ₚ elements (blockedIDs b) /\
   ((exists e, marshalJSON (mkPersistedBlocklist 1 l) = Err e /\ BlocklistPersist env b st = (st, Err e))
    \/ exists d, BlocklistPersist env b st = (with_es_disk st d, Ok tt)
         /\ store_holds (with_es_disk st d) (mkPersistedBlocklist 1 l)).
Proof.
  intros He Hc. unfold BlocklistPersist. rewrite Hc. exists (@Blocklist_List (env_rt env) b).
  split; [apply sortSlice_perm|]. by apply writeStore_holds.
Qed.

Lemma wipeStore_ok env blank st :
  env_ok env -> blank = false -> wipeStore env blank st = (with_es_disk st None, Ok tt).
Proof.
  intros (_ & _ & _ & Hr) ->. unfold wipeStore. rewrite Hr. destruct st as [p s [d|]]; done.
Qed.

Lemma configured_path st : es_configured st = true -> (TrimSpace (es_path st) == "") = false.
Proof. unfold es_configured, IsStorageConfigured. by destruct (TrimSpace (es_path st) == ""). Qed.

Lemma effect_synced env1 env2 c w wr :
  env_ok env1 -> env_ok env2 -> effect env1 env2 c w wr -> synced w -> synced (fst wr).
Proof.
  intros H1 H2 He Hw. pose proof Hw as [Hc1 Hc2 Hs Hb Hm]. destruct He as [?|s Hso|b Hbo Hn|Hc].
  - done.
  - destruct (commit_cases env1 s w) as (st & r & E & Ep). unfold outcome. rewrite E.
    destruct (SettingsPersist_synced env1 s _ H1 Hso Hc1) as [(e & _ & Eq)|(d & Eq & Hd)];
      rewrite Eq in Ep; injection Ep as <- <-; [by constructor|].
    constructor; try done. by apply synced_written.
  - destruct (blocks_cases env1 b w Hm Hn) as (st & r & E & Ep). unfold outcome. rewrite E.
    destruct (BlocklistPersist_synced env1 b _ H1 Hc2) as (l & Hl & [(e & _ & Eq)|(d & Eq & Hd)]);
      rewrite Eq in Ep; injection Ep as <- <-; [by constructor|].
    constructor; try done. by eapply blocks_written.
  - destruct (wipe_cases env1 env2 w) as (st1 & r1 & st2 & r2 & E & E1 & E2). rewrite E.
    rewrite (wipeStore_ok _ _ _ H1 (configured_path _ Hc1)) in E1. injection E1 as <- _.
    rewrite (wipeStore_ok _ _ _ H2 (configured_path _ Hc2)) in E2. injection E2 as <- _.
    constructor; [done|done|by apply synced_missing|by apply blocks_missing|apply block_ok_empty].
Qed.

Lemma store_reads_inv {A} `{JsonCodec A} st (a : A) :
  store_reads st a -> exists data bs, es_disk st = Some data
    /\ Decrypt (es_secret st) data = Ok bs /\ unmarshalJSON bs = Ok a.
Proof.
  intros (bs & Hr & Hu). unfold ReadDecryptedFile, readFile in Hr.
  destruct (es_disk st) as [data|]; [|done]. by exists data, bs.
Qed.

(** The bootstrap of a file, rewritten when it needs a migration. *)
Lemma SettingsBootstrap_reads env st b s bs :
  env_ok env -> es_configured st = true -> store_reads st (mkPersistedSettings 1 b) ->
  norm env b = s -> marshalJSON (mkPersistedSettings 1 s) = Ok bs ->
  exists d, SettingsBootstrap env st = (with_es_disk st d, Ok s)
    /\ settings_synced s (with_es_disk st d).
Proof.
  intros He Hc Hr Hn Hj. pose proof Hr as (data & p & Hd & Hdec & Hu)%store_reads_inv.
  pose proof He as (_ & Hrd & _). assert (Hs : settings_ok s) by (subst s; apply normalize_ok).
  unfold SettingsBootstrap. rewrite Hc, Hrd. cbn [negb]. unfold readFile. rewrite Hd, Hdec.
  unfold bindR. rewrite Hu. change (1 =? 1) with true. cbn [pst_Version pst_Settings Z.eqb Pos.eqb negb]. cbv zeta. rewrite Hn.
  destruct (requiresPrivacySettingsMigration b s) eqn:Em.
  - unfold bindM, retM.
    destruct (SettingsPersist_synced env s st He Hs Hc) as [(e & Hm & _)|(d & Eq & Hh)]; [congruence|].
    rewrite Eq. exists d. split; [done|]. by apply synced_written.
  - exists (es_disk st). destruct st as [pa se di]. split; [done|]. apply synced_read; [done|].
    revert Em. unfold requiresPrivacySettingsMigration.
    destruct (_ <? _); [done|]. destruct (ps_NodePolicies b); [|done].
    case_bool_decide as Hb; [|done]. by rewrite <- Hb.
Qed.

Lemma SettingsBootstrap_synced env s st :
  env_ok env -> es_configured st = true -> settings_synced s st ->
  (json_reads (mkPersistedSettings 1 (norm env s)) (mkPersistedSettings 1 (omitEmpty (norm env s)))) ->
  exists d s', SettingsBootstrap env st = (with_es_disk st d, Ok s')
    /\ norm env s' = norm env s.
Proof.
  intros He Hc Hs Hj. pose proof Hj as (bs & Hm & _). destruct Hs as [Hs Hh|Hs Hr|Hd ->].
  - rewrite (normalize_id _ Hs) in *.
    destruct (SettingsBootstrap_reads env st (omitEmpty s) s bs) as (d & E & _); try done.
    + by eapply store_holds_reads.
    + by apply normalize_omitEmpty.
    + exists d, s. by rewrite (normalize_id _ Hs).
  - rewrite (normalize_id _ Hs) in *.
    destruct (SettingsBootstrap_reads env st s s bs) as (d & E & _); try done.
    + by apply normalize_id.
    + exists d, s. by rewrite (normalize_id _ Hs).
  - unfold SettingsBootstrap. rewrite Hc. pose proof He as (_ & -> & _). unfold readFile. rewrite Hd.
    cbn [negb]. rewrite bool_decide_true by done. unfold bindM, retM, SettingsPersist. rewrite Hc.
    destruct (writeStore_holds env (mkPersistedSettings 1 (norm env DefaultPrivacySettings)) st He)
      as [(e & Hm' & _)|(d & -> & _)]; [congruence|]. by exists d, DefaultPrivacySettings.
Qed.

Lemma BlocklistBootstrap_synced env b st :
  env_ok env -> es_configured st = true -> block_ok b -> blocks_synced b st ->
  (forall l, l ≡ₚ elements (blockedIDs b) ->
     json_reads (mkPersistedBlocklist 1 l) (mkPersistedBlocklist 1 l)) ->
  exists d b', BlocklistBootstrap env st = (with_es_disk st d, Ok b')
    /\ blockedIDs b' = blockedIDs b.
Proof.
  intros He Hc Hok Hs Hj. pose proof He as (_ & Hrd & _). unfold BlocklistBootstrap.
  rewrite Hc, Hrd. cbn [negb]. assert (Hread : forall l, store_reads st (mkPersistedBlocklist 1 l) ->
    forall b', NewBlocklist l = Ok b' -> blockedIDs b' = blockedIDs b ->
    exists d b'', (st, try! plaintext := ReadDecryptedFile (es_disk st) None (es_secret st) in
          try! state := unmarshalJSON plaintext in
          if negb (pbl_Version state =? 1)
          then Err (errorsNew "blocklist persistence payload is invalid") else
          NewBlocklist (pbl_Blocked state)) = (with_es_disk st d, Ok b'')
      /\ blockedIDs b'' = blockedIDs b).
  { intros l (bs & Hr & Hu) b' Hb' Heq. rewrite Hr. cbn [bindR]. rewrite Hu. cbn.
    exists (es_disk st), b'. rewrite Hb'. by destruct st. }
  unfold ReadDecryptedFile in Hread. destruct Hs as [l Hl Hh|l Hr Hnew|Hd Hemp].
  - pose proof (store_holds_reads _ _ _ Hh (Hj l Hl)) as Hr.
    pose proof Hr as (data & bs & Hd & _)%store_reads_inv. rewrite Hd in *. cbn [readFile bindR] in *.
    assert (Hn : NewBlocklist l = Ok (mkBlocklist (Some (blockedIDs b)))).
    { unfold NewBlocklist. rewrite addIDs_ok.
      - cbn [bindR]. do 3 f_equal. rewrite Hl. apply leibniz_equiv.
        rewrite (right_id ∅ (∪)). by rewrite list_to_set_elements.
      - rewrite Hl. apply list.Forall_forall. intros x Hx%elem_of_elements. by apply Hok. }
    by apply (Hread l Hr _ Hn).
  - pose proof Hr as (data & bs & Hd & _)%store_reads_inv. rewrite Hd in *. cbn [readFile bindR] in *.
    by apply (Hread l Hr b).
  - rewrite Hd. cbn [readFile]. rewrite bool_decide_true by done. unfold bindM, liftM, retM.
    cbn [NewBlocklist addIDs bindR].
    destruct (BlocklistPersist_synced env (mkBlocklist (Some ∅)) st He Hc)
      as (l & Hl & [(e & Hm & _)|(d & Eq & _)]).
    + destruct (Hj l) as (bs & Hm' & _); [by rewrite Hl, Hemp|]. congruence.
    + rewrite Eq. exists d, (mkBlocklist (Some ∅)). by rewrite Hemp.
Qed.
End Synced.

(** ** Overrides by scope *)

Lemma commit_ok env s w w' r :
  commitSettings env s w = (w', Ok r) -> pw_privacy w' = s /\ pw_blocklist w' = pw_blocklist w.
Proof.
  destruct (commit_cases env s w) as (st & r' & -> & _). destruct r'; [|done]. by intros [= <- _].
Qed.

(** The key of a scope named in ASCII is trimmed, so it is clean when it is lower case. *)
Lemma ScopeOverrideKey_ascii scope scopeID key :
  ascii_text scopeID -> ScopeOverrideKey scope scopeID = Ok key ->
  ascii_text key /\ TrimSpace key = key /\ key <> "".
Proof.
  intros Ha. unfold ScopeOverrideKey, normalizeScope.
  set (sc := ToLower (TrimSpace scope)). destruct (StoragePolicyScope_Valid sc) eqn:Hv; [|done].
  cbn [negb]. destruct (decide (sc = StoragePolicyScopeGlobal)) as [Hg|Hg].
  { rewrite bool_decide_true by done. cbn [bindR]. rewrite bool_decide_true by done.
    intros [= <-]. rewrite Hg. split; [ascii_const|by vm_compute]. }
  rewrite bool_decide_false by done. case_bool_decide as He; [done|]. cbn [bindR].
  rewrite bool_decide_false by done. intros [= <-].
  assert (Hsc : ascii_text sc /\ exists a l, sc = String a l /\ (byteN a < 128)%nat /\ space1 a = false).
  { unfold StoragePolicyScope_Valid in Hv. repeat case_bool_decide; try done;
      match goal with H : sc = _ |- _ => rewrite H end;
      (split; [ascii_const|do 2 eexists; split; [reflexivity|split; [|done]]; vm_compute; lia]). }
  destruct Hsc as (Hsa & a & l & Hl & Ha1 & Ha2).
  assert (Hk : sc +:+ ":" +:+ TrimSpace scopeID = String a (l +:+ ":") +:+ TrimSpace scopeID).
  { rewrite Hl. apply (string_app_assoc (String a l) ":"). }
  split; [|split].
  - apply ascii_text_app; [done|]. apply ascii_text_app; [ascii_const|].
    by apply ascii_text_TrimSpace.
  - rewrite Hk. by apply TrimSpace_prefixed.
  - by rewrite Hl.
Qed.

(** The overrides after an update. *)
Lemma SetStorageScopeOverride_ok env scope scopeID override key w w' n :
  ScopeOverrideKey scope scopeID = Ok key ->
  SetStorageScopeOverride env scope scopeID override w = (w', Ok n) ->
  n = NormalizeStoragePolicyOverride override
  /\ pw_privacy w' = norm env (set_overrides (norm env (pw_privacy w))
                         (<[key := n]> (overridesOf (norm env (pw_privacy w))))).
Proof.
  intros Hk. unfold SetStorageScopeOverride, bindM, liftM, GetPrivacySettings. rewrite Hk.
  destruct (commitSettings _ _ _) as [w1 [r|]] eqn:E; [|done]. intros [= <- <-].
  apply commit_ok in E as [E _]. done.
Qed.

Lemma key_ok_lower key :
  ascii_text key -> TrimSpace key = key -> key <> "" -> key_ok key <-> ToLowerASCII key = key.
Proof.
  intros Ha Ht Hne. unfold key_ok. rewrite (ToLower_ascii _ Ha). split.
  - intros [H _]. rewrite <- H at 2. symmetry. apply TrimSpace_same_length.
    by rewrite H, ToLowerASCII_length.
  - by intros ->.
Qed.

(** An override is found again exactly when its key is in lower case. Setting the override of
    a scope named in ASCII succeeds with the normalized override; reading the same scope
    afterwards gives this override when the identifier has no upper-case letter, and otherwise
    nothing, as the override was stored under the lower-case key. Identities contain upper-case
    letters, so an override for a chat is accepted and then has no effect. *)
Theorem override_found_iff_lower_case (env env' : StoreEnv) (scope scopeID key : string)
    (override n : StoragePolicyOverride) (w w' : PrivacyWorld) :
  ascii_text scopeID -> ScopeOverrideKey scope scopeID = Ok key ->
  SetStorageScopeOverride env scope scopeID override w = (w', Ok n) ->
  n = NormalizeStoragePolicyOverride override
  /\ snd (GetStorageScopeOverride env' scope scopeID w')
     = Ok (if ToLowerASCII key == key then Some n else None).
Proof.
  intros Ha Hk Hset. destruct (ScopeOverrideKey_ascii _ _ _ Ha Hk) as (Hka & Ht & Hne).
  destruct (SetStorageScopeOverride_ok _ _ _ _ _ _ _ _ Hk Hset) as [Hn Hp]. split; [done|].
  unfold GetStorageScopeOverride, bindM, liftM, GetPrivacySettings, retM. rewrite Hk. cbn [snd]. f_equal.
  assert (Hs : settings_ok (pw_privacy w')) by (rewrite Hp; apply normalize_ok).
  rewrite (normalize_id _ Hs). destruct (st_overrides _ Hs) as (m & Hm & Hmo).
  pose proof (key_ok_lower _ Hka Ht Hne) as Hiff. case_bool_decide as Hl.
  - destruct (st_overrides _ (@normalize_ok (env_rt env) _ (pw_privacy w))) as (m0 & Hm0 & Hm0o).
    rewrite Hp. unfold overridesOf at 1. cbn [NormalizePrivacySettings ps_StorageScopeOverrides
      set_overrides default id]. rewrite normalizeOverrides_id; [apply lookup_insert_eq|].
    unfold overridesOf. rewrite Hm0. apply map_Forall_insert_2; [|done].
    split; [by apply Hiff|]. rewrite Hn. apply normalizeOverride_ok.
  - unfold overridesOf. rewrite Hm. cbn. destruct (m !! key) as [o|] eqn:E; [|done].
    exfalso. by apply Hl, Hiff, (Hmo _ _ E).
Qed.

(** ** The theorems about the service *)

Definition run_calls (steps : list (StoreEnv * StoreEnv * Call)) (w : PrivacyWorld) : PrivacyWorld :=
  fold_left (fun w '(env1, env2, c) => fst (run_call env1 env2 c w)) steps w.

Lemma boot_memory env1 env2 w : memory_ok (fst (BootstrapPartial env1 env2 w)).
Proof.
  unfold BootstrapPartial, onSettings, onBlocks. destruct (SettingsBootstrap _ _) as [st1 r1].
  destruct (match r1 with Ok s => _ | Err e => _ end) as [settings e1].
  cbn [pw_blocks with_pw_settings].
  destruct (BlocklistBootstrap _ _) as [st2 r2] eqn:E2.
  assert (Hb : forall b, r2 = Ok b -> block_ok b).
  { intros b ->. revert E2. unfold BlocklistBootstrap.
    destruct (negb _); [intros [= _ <-]; apply block_ok_empty|].
    destruct (readFile _ _) as [raw|err]; [|case_bool_decide; [|done]].
    - intros [= _ H]. revert H. destruct (Decrypt _ _) as [pt|]; cbn [bindR]; [|done].
      destruct (unmarshalJSON pt) as [a|]; cbn [bindR]; [|done]. destruct (negb _); [done|].
      intros H. eapply (NewBlocklist_ok _ _ H).
    - unfold bindM, liftM, retM. cbn. destruct (BlocklistPersist _ _ _) as [? [[]|]]; [|done].
      intros [= _ <-]. apply block_ok_empty. }
  destruct r2 as [l|e]; cbn; (split; cbn; [left; apply normalize_ok|]).
  - by apply Hb.
  - apply block_ok_empty.
Qed.

Lemma run_calls_memory steps w : memory_ok w -> memory_ok (run_calls steps w).
Proof.
  revert w. induction steps as [|[[env1 env2] c] steps IH]; intros w Hw; [done|].
  apply IH. by apply (effect_memory env1 env2 c w _ (call_effect env1 env2 c w (proj2 Hw)) Hw).
Qed.

(** The settings in memory are always sound. Whatever the files contain and whichever
    operations on them fail (torn writes included), after any sequence of calls the settings
    are well-formed and the block list holds only normalized identities; and a call that reports
    an error leaves both as they were, except for a wipe, which resets them also when it fails. *)
Theorem privacy_memory_sound (boot1 boot2 : StoreEnv) (settings blocks : EncStore)
    (steps : list (StoreEnv * StoreEnv * Call)) (env1 env2 : StoreEnv) (c : Call) :
  let w := run_calls steps (fst (BootstrapPartial boot1 boot2 (NewService settings blocks))) in
  let '(w', err) := run_call env1 env2 c w in
  memory_ok w /\ memory_ok w'
  /\ (forall e, err = Some e ->
      (pw_privacy w' = pw_privacy w /\ pw_blocklist w' = pw_blocklist w)
      \/ (c = CallWipe /\ pw_privacy w' = DefaultPrivacySettings
          /\ blockedIDs (pw_blocklist w') = ∅)).
Proof.
  intros w. assert (Hw : memory_ok w) by apply run_calls_memory, boot_memory.
  pose proof (effect_memory env1 env2 c w _ (call_effect env1 env2 c w (proj2 Hw)) Hw) as [H1 H2].
  by destruct (run_call env1 env2 c w) as [w' err].
Qed.

Section Restart.
Context {claws : CipherLaws cipher} {elaws : EnvelopeCodecLaws ecodec}.

(** A bootstrap without errors leaves the memory in step with the files. *)
Lemma SettingsBootstrap_inv env st st' s :
  env_ok env -> es_configured st = true -> SettingsBootstrap env st = (st', Ok s) ->
  es_configured st' = true /\ settings_synced (norm env s) st'.
Proof.
  intros He Hc. pose proof He as (_ & Hrd & _). unfold SettingsBootstrap. rewrite Hc, Hrd. cbn [negb].
  destruct (es_disk st) as [data|] eqn:Hd; cbn [readFile].
  - destruct (Decrypt _ _) as [pt|] eqn:Hdec; cbn [bindR]; [|done].
    destruct (unmarshalJSON pt) as [[v b]|] eqn:Hu; cbn [bindR pst_Version pst_Settings]; [|done].
    destruct (Z.eqb_spec v 1) as [->|]; cbn [negb]; [|done]. cbv zeta.
    pose proof (@normalize_ok (env_rt env) _ b) as Hok.
    destruct (requiresPrivacySettingsMigration _ _) eqn:Em.
    + unfold bindM, retM.
      destruct (SettingsPersist_synced env (norm env b) st He Hok Hc) as [(e & _ & ->)|(d & -> & Hh)]; [done|].
      intros [= <- <-]. split; [done|]. rewrite normalize_id by done. by apply synced_written.
    + intros [= <- <-]. split; [done|]. rewrite normalize_id by done. apply synced_read; [done|].
      revert Em. unfold requiresPrivacySettingsMigration. destruct (_ <? _); [done|].
      destruct (ps_NodePolicies b); [|done]. case_bool_decide as Hb; [|done]. intros _.
      exists pt. split; [|by rewrite <- Hb]. unfold ReadDecryptedFile. by rewrite Hd.
  - rewrite bool_decide_true by done. unfold bindM, retM, SettingsPersist. rewrite Hc. cbn [negb].
    destruct (writeStore_holds env (mkPersistedSettings 1 (norm env DefaultPrivacySettings)) st He)
      as [(e & _ & ->)|(d & -> & Hh)]; [done|]. intros [= <- <-]. split; [done|].
    apply synced_written; [apply normalize_ok|done].
Qed.

Lemma BlocklistBootstrap_inv env st st' b :
  env_ok env -> es_configured st = true -> BlocklistBootstrap env st = (st', Ok b) ->
  es_configured st' = true /\ blocks_synced b st'.
Proof.
  intros He Hc. pose proof He as (_ & Hrd & _). unfold BlocklistBootstrap. rewrite Hc, Hrd. cbn [negb].
  destruct (es_disk st) as [data|] eqn:Hd; cbn [readFile].
  - destruct (Decrypt _ _) as [pt|] eqn:Hdec; cbn [bindR]; [|done].
    destruct (unmarshalJSON pt) as [[v l]|] eqn:Hu; cbn [bindR pbl_Version pbl_Blocked]; [|done].
    destruct (Z.eqb_spec v 1) as [->|]; cbn [negb]; [|done]. intros [= <- Hn]. split; [done|].
    apply (blocks_read _ _ l); [|done]. exists pt. split; [|done]. unfold ReadDecryptedFile. by rewrite Hd.
  - rewrite bool_decide_true by done. unfold bindM, liftM, retM. cbn [NewBlocklist addIDs bindR].
    destruct (BlocklistPersist_synced env (mkBlocklist (Some ∅)) st He Hc)
      as (l & Hl & [(e & _ & ->)|(d & -> & Hh)]); [done|].
    intros [= <- <-]. split; [done|]. by apply (blocks_written _ _ l).
Qed.

Lemma boot_synced env1 env2 settings blocks w s b :
  env_ok env1 -> env_ok env2 -> es_configured settings = true -> es_configured blocks = true ->
  BootstrapPartial env1 env2 (NewService settings blocks) = (w, (s, b, None, None)) -> synced w.
Proof.
  intros H1 H2 Hc1 Hc2 E. pose proof (boot_memory env1 env2 (NewService settings blocks)) as [_ Hm].
  rewrite E in Hm. revert E. unfold BootstrapPartial, onSettings, onBlocks, NewService.
  cbn [pw_settings pw_blocks]. destruct (SettingsBootstrap env1 settings) as [st1 [s1|]] eqn:E1; [|by
    destruct (BlocklistBootstrap _ _) as [? [|]]]. cbn [pw_blocks with_pw_settings].
  destruct (BlocklistBootstrap env2 blocks) as [st2 [l|]] eqn:E2; [|done]. intros [= <- _ <-].
  apply (SettingsBootstrap_inv _ _ _ _ H1 Hc1) in E1 as [? Hs].
  apply (BlocklistBootstrap_inv _ _ _ _ H2 Hc2) in E2 as [? Hb].
  constructor; cbn; try done. by rewrite normalize_id by apply normalize_ok.
Qed.

Lemma run_calls_synced steps w :
  Forall (fun st => env_ok (fst (fst st)) /\ env_ok (snd (fst st))) steps ->
  synced w -> synced (run_calls steps w).
Proof.
  revert w. induction steps as [|[[env1 env2] c] steps IH]; intros w Hst Hw; [done|].
  inversion Hst as [|? ? [H1 H2] Hst']; subst. apply (IH _ Hst').
  apply (effect_synced env1 env2 c w); try done. apply call_effect, Hw.
Qed.

(** Privacy settings survive a restart. A service that started on its files without an error
    and then served any sequence of calls, successful or not, while the file system works, comes
    up again with the same settings and the same block list, and without an error. The
    hypotheses on encoding/json concern the final values only: they are encodable and decode to
    themselves, up to the empty map of overrides, which is omitted. *)
Theorem privacy_survives_restart (boot1 boot2 env1 env2 : StoreEnv) (settings blocks : EncStore)
    (steps : list (StoreEnv * StoreEnv * Call)) (w0 : PrivacyWorld) (s0 : PrivacySettings)
    (b0 : Blocklist) :
  env_ok boot1 -> env_ok boot2 -> env_ok env1 -> env_ok env2 ->
  es_configured settings = true -> es_configured blocks = true ->
  BootstrapPartial boot1 boot2 (NewService settings blocks) = (w0, (s0, b0, None, None)) ->
  Forall (fun st => env_ok (fst (fst st)) /\ env_ok (snd (fst st))) steps ->
  let w := run_calls steps w0 in
  json_reads (mkPersistedSettings 1 (norm env1 (pw_privacy w)))
    (mkPersistedSettings 1 (omitEmpty (norm env1 (pw_privacy w)))) ->
  (forall l, l ≡ₚ elements (blockedIDs (pw_blocklist w)) ->
     json_reads (mkPersistedBlocklist 1 l) (mkPersistedBlocklist 1 l)) ->
  exists w' s b, restart env1 env2 w = (w', (s, b, None, None))
    /\ snd (GetPrivacySettings env1 w') = snd (GetPrivacySettings env1 w)
    /\ blockedIDs (pw_blocklist w') = blockedIDs (pw_blocklist w).
Proof.
  intros Hb1 Hb2 H1 H2 Hc1 Hc2 Hboot Hsteps w Hj1 Hj2.
  assert (Hw : synced w) by (apply run_calls_synced; [done|]; by apply (boot_synced _ _ _ _ _ _ _ Hb1 Hb2 Hc1 Hc2 Hboot)).
  destruct Hw as [Hw1 Hw2 Hs Hb Hm].
  destruct (SettingsBootstrap_synced env1 _ _ H1 Hw1 Hs Hj1) as (d1 & s & Es & Hn).
  destruct (BlocklistBootstrap_synced env2 _ _ H2 Hw2 Hm Hb Hj2) as (d2 & b & Eb & Hbl).
  unfold restart, BootstrapPartial, onSettings, onBlocks, NewService. cbn [pw_settings pw_blocks].
  rewrite Es. cbn [pw_blocks with_pw_settings]. rewrite Eb. do 3 eexists. split; [reflexivity|].
  cbn. split; [|done]. f_equal. rewrite Hn. by rewrite !(normalize_id _ (normalize_ok _)).
Qed.
End Restart.

Lemma Contains_spec b x id :
  NormalizeIdentityID x = Ok id -> Blocklist_Contains b x = bool_decide (id ∈ blockedIDs b).
Proof. unfold Blocklist_Contains. by intros ->. Qed.

(** Blocking is exact. After a successful AddToBlocklist the sender is blocked under every
    spelling that normalizes to it, after a successful RemoveFromBlocklist under none, and no
    other identity changes; a blocked sender is turned away by the message policy and by the
    invitation policy whatever the mode, even when it is a contact. *)
Theorem blocking_is_exact (env : StoreEnv) (identityID x : string) (known : bool)
    (w wa wr : PrivacyWorld) (la lr : list string) :
  memory_ok w ->
  AddToBlocklist env identityID w = (wa, Ok la) ->
  RemoveFromBlocklist env identityID w = (wr, Ok lr) ->
  let same := bool_decide (NormalizeIdentityID x = NormalizeIdentityID identityID) in
  IsBlockedSender wa x = same || IsBlockedSender w x
  /\ IsBlockedSender wr x = negb same && IsBlockedSender w x
  /\ (IsBlockedSender w x = true ->
      let input := mkPolicyInput known (IsBlockedSender w x) (CurrentMode w) in
      pd_Action (@EvaluateInboundMessagePolicy (env_rt env) _ input) = InboundMessageActionReject
      /\ pd_Action (@EvaluateInboundGroupInvitePolicy (env_rt env) _ input)
         = InboundGroupInviteActionReject).
Proof.
  intros [_ Hb] Ha Hr same. unfold AddToBlocklist, RemoveFromBlocklist, updateBlocklist in Ha, Hr.
  rewrite (NewBlocklist_List _ _ Hb) in Ha, Hr. unfold Blocklist_Add, Blocklist_Remove in Ha, Hr.
  destruct (NormalizeIdentityID identityID) as [id|] eqn:Eid; [|done].
  cbn [bl_entries fmap option_fmap option_map] in Ha, Hr. unfold onBlocks in Ha, Hr.
  destruct (BlocklistPersist _ _ _) as [st1 [r1|]] in Ha; [|done].
  destruct (BlocklistPersist _ _ _) as [st2 [r2|]] in Hr; [|done].
  injection Ha as <- _. injection Hr as <- _. unfold IsBlockedSender. cbn [pw_blocklist with_pw_blocklist].
  split; [|split].
  - subst same. unfold Blocklist_Contains. destruct (NormalizeIdentityID x) as [y|]; [|done].
    unfold blockedIDs at 1. cbn. repeat case_bool_decide; set_solver.
  - subst same. unfold Blocklist_Contains. destruct (NormalizeIdentityID x) as [y|]; [|done].
    unfold blockedIDs at 1. cbn. repeat case_bool_decide; set_solver.
  - by intros ->.
Qed.

(** Concurrent updates of the settings lose one of them. Two calls that both read the
    settings before either commits (the lock is not held in between) both report success; the
    message mode set by the first is back at its old value after the second, in memory and in
    what was written. *)
Theorem interleaved_settings_updates_lose_one (env1 env2 : StoreEnv) (mode : string)
    (policies : NodePolicies) (w w1 w2 : PrivacyWorld) :
  let read := norm env1 (pw_privacy w) in
  let update1 := norm env1 (set_mode read mode) in
  let update2 := norm env2 (set_node (norm env2 (pw_privacy w))
                   (ps_NodePolicies (norm env2 (set_node (modeSettings "") (Some policies))))) in
  commitSettings env1 update1 w = (w1, Ok tt) ->
  commitSettings env2 update2 w1 = (w2, Ok tt) ->
  CurrentMode w1 = ps_MessagePrivacyMode update1
  /\ CurrentMode w2 = ps_MessagePrivacyMode read.
Proof.
  intros read update1 update2 E1 E2. apply commit_ok in E1 as [H1 _], E2 as [H2 _].
  unfold CurrentMode. rewrite H1, H2. split; [done|]. cbn.
  apply normalMode_id. by apply normalMode_valid.
Qed.
End Privacy.

(** ** Codecs to compute with, and witnesses

    One number per scalar; the overrides, twelve numbers each, at the end. *)

Definition overrideZ (e : string * StoragePolicyOverride) : list Z :=
  let '(k, o) := e in
  [zs k; zs (so_StorageProtection o); zs (so_ContentRetentionMode o); so_MessageTTLSeconds o;
   so_ImageTTLSeconds o; so_FileTTLSeconds o; so_ImageQuotaMB o; so_FileQuotaMB o;
   so_ImageMaxItemSizeMB o; so_FileMaxItemSizeMB o; zb (so_InfiniteTTL o);
   zb (so_PinRequiredForInfinite o)].

Fixpoint overridesZ (l : list Z) : list (string * StoragePolicyOverride) :=
  match l with
  | k :: p :: r :: m :: i :: f :: q1 :: q2 :: q3 :: q4 :: inf :: pin :: l' =>
      (unzs k, mkOverride (unzs p) (unzs r) m i f q1 q2 q3 q4 (unzb inf) (unzb pin)) :: overridesZ l'
  | _ => []
  end.

Lemma overridesZ_concat l : overridesZ (List.concat (overrideZ <$> l)) = l.
Proof.
  induction l as [|[k [a b c d e f g h i u v]] l IH]; [done|].
  cbn [overrideZ fmap list_fmap List.concat app overridesZ so_StorageProtection so_ContentRetentionMode
    so_MessageTTLSeconds so_ImageTTLSeconds so_FileTTLSeconds so_ImageQuotaMB so_FileQuotaMB
    so_ImageMaxItemSizeMB so_FileMaxItemSizeMB so_InfiniteTTL so_PinRequiredForInfinite].
  rewrite !unzs_zs, !unzb_zb. by f_equal.
Qed.

Definition nodeZ (n : option NodePolicies) : list Z :=
  match n with
  | None => [0; 0; 0; 0; 0; 0; 0; 0; 0; 0; 0; 0]
  | Some (mkNodePolicies v (mkPersonal a b c d) (mkPublic e f g h i j)) =>
      [1; v; zb a; b; c; zb d; zb e; zb f; zb g; zb h; i; j]
  end.

Definition settingsZ (s : PrivacySettings) : list Z :=
  [ps_ProfileSchemaVersion s; zs (ps_MessagePrivacyMode s); zs (ps_StorageProtection s);
   zs (ps_ContentRetentionMode s); ps_MessageTTLSeconds s; ps_ImageTTLSeconds s; ps_FileTTLSeconds s;
   ps_ImageQuotaMB s; ps_FileQuotaMB s; ps_ImageMaxItemSizeMB s; ps_FileMaxItemSizeMB s]
  ++ nodeZ (ps_NodePolicies s)
  ++ List.concat (overrideZ <$> map_to_list (overridesOf s)).

#[export] Instance exSettingsCodec : JsonCodec persistedPrivacySettingsState := {
  marshalJSON st := Ok (pst_Version st :: settingsZ (pst_Settings st));
  unmarshalJSON bs :=
    match bs with
    | ver :: v :: mo :: sp :: cr :: t1 :: t2 :: t3 :: q1 :: q2 :: q3 :: q4
      :: hasNode :: nv :: a :: b :: c :: d :: e :: f :: g :: h :: i :: j :: l =>
        Ok (mkPersistedSettings ver
              (mkSettings v (unzs mo) (unzs sp) (unzs cr) t1 t2 t3 q1 q2 q3 q4
                 (match overridesZ l with [] => None | l => Some (list_to_map l) end)
                 (if unzb hasNode then
                    Some (mkNodePolicies nv (mkPersonal (unzb a) b c (unzb d))
                            (mkPublic (unzb e) (unzb f) (unzb g) (unzb h) i j))
                  else None)))
    | _ => Err (errorsNew "json")
    end
}.

Lemma exSettingsCodec_reads s : json_reads (mkPersistedSettings 1 s) (mkPersistedSettings 1 (omitEmpty s)).
Proof.
  eexists. split; [reflexivity|]. cbn [unmarshalJSON exSettingsCodec pst_Version pst_Settings].
  unfold settingsZ. assert (Hn : forall n, exists a b c d e f g h i j k l,
    nodeZ n = [a; b; c; d; e; f; g; h; i; j; k; l] /\
    (if unzb a then Some (mkNodePolicies b (mkPersonal (unzb c) d e (unzb f))
       (mkPublic (unzb g) (unzb h) (unzb i) (unzb j) k l)) else None) = n).
  { intros [[v [a b c d] [e f g h i j]]|]; repeat eexists. cbn. by rewrite !unzb_zb. }
  destruct (Hn (ps_NodePolicies s)) as (a & b & c & d & e & f & g & h & i & j & k & l & -> & Hnode).
  cbn [app]. rewrite !unzs_zs, overridesZ_concat, Hnode. do 2 f_equal. unfold omitEmpty.
  destruct (map_to_list (overridesOf s)) as [|x xs] eqn:E.
  - apply map_to_list_empty_iff in E. by rewrite bool_decide_true by done.
  - assert (Hm : overridesOf s = list_to_map (x :: xs)) by (by rewrite <- E, list_to_map_to_list).
    rewrite bool_decide_false; [|by intros E'; rewrite E', map_to_list_empty in E].
    rewrite <- Hm. destruct s as [? ? ? ? ? ? ? ? ? ? ? [m|] ?]; [done|].
    unfold overridesOf in E. cbn in E. by rewrite map_to_list_empty in E.
Qed.

#[export] Instance exBlocklistCodec : JsonCodec persistedBlocklistState := {
  marshalJSON st := Ok (pbl_Version st :: (zs <$> pbl_Blocked st));
  unmarshalJSON bs :=
    match bs with
    | v :: l => Ok (mkPersistedBlocklist v (unzs <$> l))
    | _ => Err (errorsNew "json")
    end
}.

Lemma exBlocklistCodec_reads l : json_reads (mkPersistedBlocklist 1 l) (mkPersistedBlocklist 1 l).
Proof.
  eexists. split; [reflexivity|]. cbn. do 2 f_equal. rewrite <- list_fmap_compose.
  rewrite <- (list_fmap_id l) at 2. apply list_fmap_ext. intros _ x _. apply unzs_zs.
Qed.

Definition ex_store (path : string) : EncStore := mkEncStore path "secret" None.
Definition ex_override : StoragePolicyOverride :=
  mkOverride "protected" "ephemeral" 60 0 0 0 0 0 0 false false.
Definition ex_boot : PrivacyWorld * (PrivacySettings * Blocklist * option error * option error) :=
  BootstrapPartial ex_env ex_env (NewService (ex_store "settings") (ex_store "blocks")).
Definition ex_world : PrivacyWorld := fst ex_boot.

Example boot_no_errors :
  match snd ex_boot with (_, _, e1, e2) => (e1, e2) end = (None, None).
Proof. vm_compute. reflexivity. Qed.

Lemma override_found_iff_lower_case_witness :
  exists w1 w2,
    SetStorageScopeOverride ex_env "group" "grp_1" ex_override ex_world = (w1, Ok ex_override)
    /\ SetStorageScopeOverride ex_env " Chat" "aim1Bob" ex_override ex_world = (w2, Ok ex_override)
    /\ snd (GetStorageScopeOverride ex_env "group" "grp_1" w1) = Ok (Some ex_override)
    /\ snd (GetStorageScopeOverride ex_env " Chat" "aim1Bob" w2) = Ok None.
Proof.
  exists (fst (SetStorageScopeOverride ex_env "group" "grp_1" ex_override ex_world)),
    (fst (SetStorageScopeOverride ex_env " Chat" "aim1Bob" ex_override ex_world)).
  split; [vm_compute; reflexivity|]. split; [vm_compute; reflexivity|]. split.
  - apply (override_found_iff_lower_case ex_env ex_env "group" "grp_1" "group:grp_1" ex_override ex_override
      ex_world); [ascii_const|vm_compute; reflexivity|vm_compute; reflexivity].
  - apply (override_found_iff_lower_case ex_env ex_env " Chat" "aim1Bob" "chat:aim1Bob" ex_override ex_override
      ex_world); [ascii_const|vm_compute; reflexivity|vm_compute; reflexivity].
Defined.

Definition ex_calls : list (StoreEnv * StoreEnv * Call) :=
  [(ex_env, ex_env, CallMode "requests"); (ex_env, ex_env, CallMode "loud");
   (ex_env, ex_env, CallSetOverride "group" "grp_1" ex_override);
   (ex_env, ex_env, CallBlock "aim1mallory99")].

Example ex_calls_run :
  let w := run_calls ex_calls ex_world in
  (CurrentMode w, IsBlockedSender w "aim1mallory99", size (overridesOf (pw_privacy w)))
  = ("requests", true, 1%nat).
Proof. vm_compute. reflexivity. Qed.

Lemma privacy_survives_restart_witness :
  exists w' s b, restart ex_env ex_env (run_calls ex_calls ex_world) = (w', (s, b, None, None))
    /\ snd (GetPrivacySettings ex_env w')
       = snd (GetPrivacySettings ex_env (run_calls ex_calls ex_world))
    /\ blockedIDs (pw_blocklist w') = blockedIDs (pw_blocklist (run_calls ex_calls ex_world)).
Proof.
  apply (privacy_survives_restart ex_env ex_env ex_env ex_env (ex_store "settings") (ex_store "blocks")
    ex_calls ex_world (match snd ex_boot with (s, _, _, _) => s end)
    (match snd ex_boot with (_, b, _, _) => b end)); try apply ex_env_ok; try done.
  - repeat constructor; apply ex_env_ok.
  - apply exSettingsCodec_reads.
  - intros l _. apply exBlocklistCodec_reads.
Defined.

Lemma blocking_is_exact_witness :
  exists wa la wr lr,
    AddToBlocklist ex_env " aim1mallory99 " ex_world = (wa, Ok la)
    /\ RemoveFromBlocklist ex_env " aim1mallory99 " ex_world = (wr, Ok lr)
    /\ IsBlockedSender wa "aim1mallory99" = true.
Proof.
  do 4 eexists. split; [reflexivity|]. split; [reflexivity|].
  eapply (blocking_is_exact ex_env " aim1mallory99 " "aim1mallory99" true ex_world);
    [apply boot_memory|reflexivity|reflexivity].
Defined.

Lemma interleaved_settings_updates_lose_one_witness :
  exists w1 w2,
    commitSettings ex_env (@NormalizePrivacySettings exRuntime _
      (set_mode (@NormalizePrivacySettings exRuntime _ (pw_privacy ex_world)) "requests")) ex_world
      = (w1, Ok tt)
    /\ CurrentMode w1 = "requests" /\ CurrentMode w2 = "everyone".
Proof.
  set (w1 := fst (commitSettings ex_env (@NormalizePrivacySettings exRuntime _
      (set_mode (@NormalizePrivacySettings exRuntime _ (pw_privacy ex_world)) "requests")) ex_world)).
  set (n := @NormalizePrivacySettings exRuntime _ (set_node (@NormalizePrivacySettings exRuntime _
    (pw_privacy ex_world)) (ps_NodePolicies (@NormalizePrivacySettings exRuntime _
    (set_node (modeSettings "") (Some DefaultNodePolicies)))))).
  exists w1, (fst (commitSettings ex_env n w1)). split; [vm_compute; reflexivity|].
  apply (interleaved_settings_updates_lose_one ex_env ex_env "requests" DefaultNodePolicies ex_world w1);
    vm_compute; reflexivity.
Defined.
