(* ===== verification/Identity.v ===== *)
(** * Identity: contacts, devices and the seed

    Models internal/domains/identity: policy/identity_card.go, domain/manager*.go, devices.go,
    seed_manager.go, seed_envelope.go, key_derivation.go and policy/input_validation.go
    ([ValidateLoginInput]). The state is the struct [Manager]; its methods run under its lock, and
    the seed manager has a lock of its own that is released while a password is tried.
    ed25519, hashes, base58, hkdf and bip39 are an interface. *)
From S2P Require Import Prelude SecureStore.
From stdpp Require Import base gmap strings list sets option relations pretty.
From Stdlib Require Import ZArith Lia.
Open Scope string_scope.
Open Scope Z_scope.
Open Scope go_scope.

(** ** Code outside of the repository *)

Class IdentityCrypto := {
  (** ed25519: the private key of a seed, its public key, signatures *)
  keyFromSeed : list Z -> list Z;
  publicKeyOf : list Z -> list Z;
  edSign : list Z -> list Z -> list Z;
  edVerify : list Z -> list Z -> list Z -> bool;
  blake2b256 : list Z -> list Z;
  base58Encode : list Z -> string;
  sum256 : list Z -> list Z;
  (** hkdf.New(sha256.New, seed, nil, info), read for 32 bytes *)
  hkdf32 : list Z -> string -> result error (list Z);
  (** bip39: NewEntropy and NewMnemonic, IsMnemonicValid, NewSeed *)
  mnemonicValid : string -> bool;
  mnemonicSeed : string -> list Z
}.

Definition PublicKeySize : nat := 32.
Definition PrivateKeySize : nat := 64.
Definition SignatureSize : nat := 64.

(** A key of ed25519.NewKeyFromSeed is 64 bytes, starts with its seed, and what it signs is
    verified by its public key; public keys are the second half of any private key. hkdf gives
    as many bytes as are read. *)
Class IdentityCryptoLaws (C : IdentityCrypto) : Prop := {
  keyFromSeed_length : forall s, length s = 32%nat -> length (keyFromSeed s) = PrivateKeySize;
  keyFromSeed_take : forall s, length s = 32%nat -> take 32 (keyFromSeed s) = s;
  publicKeyOf_length : forall k, length k = PrivateKeySize -> length (publicKeyOf k) = PublicKeySize;
  edSign_length : forall k m, length k = PrivateKeySize -> length (edSign k m) = SignatureSize;
  edVerify_sign : forall s m, length s = 32%nat ->
    edVerify (publicKeyOf (keyFromSeed s)) m (edSign (keyFromSeed s) m) = true;
  hkdf32_length : forall s i out, hkdf32 s i = Ok out -> length out = 32%nat
}.

(** A call that may panic instead of returning. *)
Inductive panics (A : Type) := Returns (a : A) | Panics.
Arguments Returns {A} _.
Arguments Panics {A}.

(** ** pkg/models *)

Record IdentityRecord := mkIdentity { id_ID : string; id_SigningPublicKey : list Z }.
Record ContactCard := mkCard {
  card_IdentityID : string; card_DisplayName : string; card_PublicKey : list Z;
  card_Signature : list Z
}.
Record Contact := mkContact {
  ct_ID : string; ct_DisplayName : string; ct_PublicKey : list Z; ct_AddedAt : Z; ct_LastSeen : Z
}.
Record Device := mkDevice {
  dev_ID : string; dev_Name : string; dev_PublicKey : list Z; dev_CertSig : list Z;
  dev_CreatedAt : Z; dev_IsRevoked : bool; dev_RevokedAt : Z
}.
Record DeviceRevocation := mkRevocation {
  rev_IdentityID : string; rev_DeviceID : string; rev_Timestamp : Z; rev_Signature : list Z
}.

(** ** The manager *)

Record devicePrivate := mkDevicePrivate { dp_model : Device; dp_priv : list Z }.

(** [EncryptedSeedEnvelope] has the fields of [Envelope]. *)
Record SeedManager := mkSeeds {
  sm_envelope : option Envelope; sm_failedAttempts : Z; sm_lockedUntil : Z
}.

Record Manager := mkManager {
  im_identity : IdentityRecord;
  im_selfPriv : list Z;
  im_contacts : gmap string Contact;
  im_devices : gmap string devicePrivate;
  im_activeDeviceID : string;
  im_revokedDevices : gmap string (gset string);
  im_seeds : SeedManager
}.

Definition with_im_identity (m : Manager) (i : IdentityRecord) (priv : list Z) : Manager :=
  mkManager i priv (im_contacts m) (im_devices m) (im_activeDeviceID m) (im_revokedDevices m)
    (im_seeds m).
Definition with_im_contacts (m : Manager) (c : gmap string Contact) : Manager :=
  mkManager (im_identity m) (im_selfPriv m) c (im_devices m) (im_activeDeviceID m)
    (im_revokedDevices m) (im_seeds m).
Definition with_im_devices (m : Manager) (d : gmap string devicePrivate) : Manager :=
  mkManager (im_identity m) (im_selfPriv m) (im_contacts m) d (im_activeDeviceID m)
    (im_revokedDevices m) (im_seeds m).
Definition with_im_active (m : Manager) (id : string) : Manager :=
  mkManager (im_identity m) (im_selfPriv m) (im_contacts m) (im_devices m) id
    (im_revokedDevices m) (im_seeds m).
Definition with_im_revoked (m : Manager) (r : gmap string (gset string)) : Manager :=
  mkManager (im_identity m) (im_selfPriv m) (im_contacts m) (im_devices m) (im_activeDeviceID m) r
    (im_seeds m).
Definition with_im_seeds (m : Manager) (s : SeedManager) : Manager :=
  mkManager (im_identity m) (im_selfPriv m) (im_contacts m) (im_devices m) (im_activeDeviceID m)
    (im_revokedDevices m) s.

Section Identity.
Context {crypto : IdentityCrypto}.

(** ** identity_card.go *)

Definition BuildIdentityID (signingPublicKey : list Z) : result error string :=
  if negb (length signingPublicKey =? PublicKeySize)%nat
  then Err (errorsNew ("invalid signing public key size: " +:+ pretty (length signingPublicKey)))
  else Ok ("aim1" +:+ base58Encode (blake2b256 signingPublicKey)).

Definition VerifyIdentityID (identityID : string) (signingPublicKey : list Z) : result error bool :=
  try! expected := BuildIdentityID signingPublicKey in
  Ok (identityID == expected).

(** Three parts with a zero byte after the first two. *)
Definition contactCardSigningBytes (card : ContactCard) : list Z :=
  (string_bytes (card_IdentityID card) ++ [0] ++ string_bytes (card_DisplayName card) ++ [0]
   ++ card_PublicKey card)%list.

(** Neither key is nil for the manager. *)
Definition SignContactCard (identityID displayName : string) (publicKey privateKey : list Z)
    : result error ContactCard :=
  let card := mkCard identityID displayName publicKey [] in
  match VerifyIdentityID identityID publicKey with
  | Err err => Err err
  | Ok false => Err ErrIdentityMismatch
  | Ok true =>
      Ok (mkCard identityID displayName publicKey (edSign privateKey (contactCardSigningBytes card)))
  end.

Definition VerifyContactCard (card : ContactCard) : result error bool :=
  if negb (length (card_PublicKey card) =? PublicKeySize)%nat
     || negb (length (card_Signature card) =? SignatureSize)%nat
  then Err ErrInvalidContactCard else
  try! ok := VerifyIdentityID (card_IdentityID card) (card_PublicKey card) in
  if negb ok then Err ErrIdentityMismatch else
  Ok (edVerify (card_PublicKey card) (contactCardSigningBytes card) (card_Signature card)).

(** ** manager_contacts_methods.go *)

Definition verifiedKey (c : Contact) : bool := (length (ct_PublicKey c) =? PublicKeySize)%nat.

Definition AddContact (now : Z) (card : ContactCard) : M Manager error unit := fun m =>
  match VerifyContactCard card with
  | Err err => (m, Err err)
  | Ok false => (m, Err ErrInvalidContactCard)
  | Ok true =>
      let conflict := match im_contacts m !! card_IdentityID card with
                      | Some existing => verifiedKey existing
                                         && negb (ct_PublicKey existing == card_PublicKey card)
                      | None => false
                      end in
      if conflict then (m, Err ErrContactKeyMismatch) else
      (with_im_contacts m (<[card_IdentityID card :=
          mkContact (card_IdentityID card) (card_DisplayName card) (card_PublicKey card) now 0]>
          (im_contacts m)), Ok tt)
  end.

Definition AddContactByIdentityID (now : Z) (contactID displayName : string)
    : M Manager error unit := fun m =>
  let contactID := TrimSpace contactID in
  let displayName := TrimSpace displayName in
  if negb (HasPrefix contactID "aim1") || (String.length contactID <? 12)%nat
  then (m, Err ErrInvalidContactID) else
  let displayName := if displayName == "" then contactID else displayName in
  let publicKey := match im_contacts m !! contactID with
                   | Some existing => if verifiedKey existing then ct_PublicKey existing else []
                   | None => []
                   end in
  (with_im_contacts m (<[contactID := mkContact contactID displayName publicKey now 0]>
     (im_contacts m)), Ok tt).

Definition RemoveContact (contactID : string) : M Manager error unit := fun m =>
  let contactID := TrimSpace contactID in
  if contactID == "" then (m, Err ErrInvalidContactID) else
  match im_contacts m !! contactID with
  | None => (m, Err ErrInvalidContactID)
  | Some _ => (with_im_contacts m (delete contactID (im_contacts m)), Ok tt)
  end.

Definition Contacts `{GoRuntime} (m : Manager) : list Contact := (rangeMap (im_contacts m)).*2.

Definition HasContact (m : Manager) (contactID : string) : bool :=
  match im_contacts m !! contactID with Some _ => true | None => false end.

Definition HasVerifiedContact (m : Manager) (contactID : string) : bool :=
  match im_contacts m !! contactID with Some contact => verifiedKey contact | None => false end.

Definition ContactPublicKey (m : Manager) (contactID : string) : option (list Z) :=
  match im_contacts m !! contactID with
  | Some contact => if verifiedKey contact then Some (ct_PublicKey contact) else None
  | None => None
  end.

Definition SelfContactCard (m : Manager) (displayName : string) : result error ContactCard :=
  SignContactCard (id_ID (im_identity m)) displayName (id_SigningPublicKey (im_identity m))
    (im_selfPriv m).

(** ** devices.go *)

Definition deviceIDFromPub (pub : list Z) : string := "dev1_" +:+ hexEncode (take 8 (sum256 pub)).

Definition deviceCertBytes (identityID deviceID : string) (pub : list Z) : list Z :=
  (string_bytes identityID ++ [0] ++ string_bytes deviceID ++ [0] ++ pub)%list.

Definition deviceRevocationBytes (identityID deviceID : string) (ts : Z) : list Z :=
  string_bytes (identityID +:+ ":" +:+ deviceID +:+ ":" +:+ pretty (UnixNano ts)).

Definition deriveDeviceSeed (masterSeed : list Z) (index : Z) : result error (list Z) :=
  hkdf32 masterSeed ("aim/device/" +:+ pretty index).

(** The device of a private key, certified by the identity. *)
Definition certifiedDevice (m : Manager) (now : Z) (name : string) (priv : list Z) : devicePrivate :=
  let pub := publicKeyOf priv in
  let id := deviceIDFromPub pub in
  mkDevicePrivate
    (mkDevice id name pub (edSign (im_selfPriv m) (deviceCertBytes (id_ID (im_identity m)) id pub))
       now false 0) priv.

Definition initPrimaryDevice (now : Z) : M Manager error unit := fun m =>
  if (length (im_selfPriv m) <? 32)%nat then (m, Err (errorsNew "invalid identity private key")) else
  let seed := take 32 (im_selfPriv m) in
  let d := certifiedDevice m now "primary" (keyFromSeed seed) in
  let id := dev_ID (dp_model d) in
  (with_im_active (with_im_devices m {[id := d]}) id, Ok tt).

Definition ListDevices `{GoRuntime} (m : Manager) : list Device :=
  dp_model <$> (rangeMap (im_devices m)).*2.

(** The private key always has 64 bytes ([manager_ok] below), so the slice does not panic. *)
Definition AddDevice (now : Z) (name : string) : M Manager error Device := fun m =>
  let name := TrimSpace name in
  let name := if name == "" then "device" else name in
  let index := Z.of_nat (size (im_devices m)) + 1 in
  match deriveDeviceSeed (take 32 (im_selfPriv m)) index with
  | Err err => (m, Err err)
  | Ok seed =>
      let d := certifiedDevice m now name (keyFromSeed seed) in
      (with_im_devices m (<[dev_ID (dp_model d) := d]> (im_devices m)), Ok (dp_model d))
  end.

Definition buildRevocationLocked (m : Manager) (now : Z) (deviceID : string) : DeviceRevocation :=
  mkRevocation (id_ID (im_identity m)) deviceID now
    (edSign (im_selfPriv m) (deviceRevocationBytes (id_ID (im_identity m)) deviceID now)).

Definition revokedModel (d : Device) (now : Z) : Device :=
  mkDevice (dev_ID d) (dev_Name d) (dev_PublicKey d) (dev_CertSig d) (dev_CreatedAt d) true now.

Definition RevokeDevice (now : Z) (deviceID : string) : M Manager error DeviceRevocation := fun m =>
  match im_devices m !! deviceID with
  | None => (m, Err ErrDeviceNotFound)
  | Some d =>
      if dev_IsRevoked (dp_model d) then (m, Ok (buildRevocationLocked m now deviceID)) else
      let d := mkDevicePrivate (revokedModel (dp_model d) now) (dp_priv d) in
      let m := with_im_devices m (<[deviceID := d]> (im_devices m)) in
      (m, Ok (buildRevocationLocked m now deviceID))
  end.

Definition ActiveDeviceAuth (m : Manager) (payload : list Z) : result error (Device * list Z) :=
  match im_devices m !! im_activeDeviceID m with
  | None => Err ErrDeviceNotFound
  | Some d =>
      if dev_IsRevoked (dp_model d) then Err ErrDeviceRevoked else
      Ok (dp_model d, edSign (dp_priv d) payload)
  end.

(** ed25519.Verify panics when the public key does not have its size. *)
Definition goVerify (pub message sig : list Z) : panics bool :=
  if (length pub =? PublicKeySize)%nat then Returns (edVerify pub message sig) else Panics.

Definition revokedSet (m : Manager) (contactID : string) : gset string :=
  default ∅ (im_revokedDevices m !! contactID).

(** [None] for a nil error. *)
Definition VerifyInboundDevice (m : Manager) (contactID : string) (device : Device)
    (payload sig : list Z) : panics (option error) :=
  match im_contacts m !! contactID with
  | None => Returns (Some ErrInvalidContactCard)
  | Some contact =>
      if negb (verifiedKey contact) then Returns (Some ErrUnverifiedContact) else
      if bool_decide (dev_ID device ∈ revokedSet m contactID) then Returns (Some ErrDeviceRevoked) else
      match goVerify (ct_PublicKey contact)
              (deviceCertBytes contactID (dev_ID device) (dev_PublicKey device)) (dev_CertSig device) with
      | Panics => Panics
      | Returns false => Returns (Some ErrInvalidDeviceCert)
      | Returns true =>
          match goVerify (dev_PublicKey device) payload sig with
          | Panics => Panics
          | Returns false => Returns (Some ErrInvalidDeviceSig)
          | Returns true => Returns None
          end
      end
  end.

Definition ApplyDeviceRevocation (contactID : string) (rev : DeviceRevocation)
    : M Manager error unit := fun m =>
  match im_contacts m !! contactID with
  | None => (m, Err ErrInvalidContactCard)
  | Some contact =>
      if negb (verifiedKey contact) then (m, Ok tt) else
      if negb (rev_IdentityID rev == contactID) then (m, Err ErrIdentityMismatch) else
      if negb (edVerify (ct_PublicKey contact)
                 (deviceRevocationBytes (rev_IdentityID rev) (rev_DeviceID rev) (rev_Timestamp rev))
                 (rev_Signature rev))
      then (m, Err ErrInvalidDeviceSig) else
      (with_im_revoked m (<[contactID := {[rev_DeviceID rev]} ∪ revokedSet m contactID]>
         (im_revokedDevices m)), Ok tt)
  end.

(** ** seed_manager.go, seed_envelope.go, key_derivation.go *)

Record DerivedKeys := mkDerivedKeys {
  dk_SigningPrivateKey : list Z; dk_SigningPublicKey : list Z; dk_EncryptionSeed : list Z
}.

Definition hkdfInfoSigning : string := "aim/identity/signing/v1".
Definition hkdfInfoEncryption : string := "aim/identity/encryption/v1".

Definition DeriveKeys (seedBytes : list Z) : result error DerivedKeys :=
  try! signingSeed := hkdf32 seedBytes hkdfInfoSigning in
  try! encryptionSeed := hkdf32 seedBytes hkdfInfoEncryption in
  let signingPriv := keyFromSeed signingSeed in
  Ok (mkDerivedKeys signingPriv (publicKeyOf signingPriv) encryptionSeed).

Definition FromKeys (keys : option DerivedKeys) : result error (string * list Z) :=
  match keys with
  | None => Err ErrIdentityInit
  | Some keys =>
      if negb (length (dk_SigningPublicKey keys) =? PublicKeySize)%nat then Err ErrIdentityInit else
      try! id := BuildIdentityID (dk_SigningPublicKey keys) in
      Ok (id, dk_SigningPublicKey keys)
  end.

Definition failedAttemptBackoff (attempt : Z) : Z :=
  if attempt <=? 0 then 0 else
  let shift := attempt - 1 in
  let shift := if 5 <? shift then 5 else shift in
  Second * Z.shiftl 1 shift.

Definition ensureUnlocked (now : Z) (s : SeedManager) : option error :=
  if IsZero (sm_lockedUntil s) then None else
  if Before now (sm_lockedUntil s) then Some ErrPasswordLocked else None.

Definition onFailedPasswordAttempt (now : Z) (s : SeedManager) : SeedManager :=
  let attempts := sm_failedAttempts s + 1 in
  mkSeeds (sm_envelope s) attempts (now + failedAttemptBackoff attempts).

Definition resetPasswordAttemptState (s : SeedManager) : SeedManager := mkSeeds (sm_envelope s) 0 0.

Definition SnapshotEnvelope (s : SeedManager) : option Envelope := sm_envelope s.
Definition RestoreEnvelope (env : option Envelope) (s : SeedManager) : SeedManager :=
  resetPasswordAttemptState (mkSeeds env (sm_failedAttempts s) (sm_lockedUntil s)).

Definition ValidateMnemonic (mnemonic : string) : bool := mnemonicValid (TrimSpace mnemonic).

Section Seeds.
Context {cipher : Cipher}.

Definition EncryptSeed (r : Random) (seed password : list Z) : result error Envelope :=
  EncryptEnvelope r (bytes_string password) seed.
Definition DecryptSeed (env : option Envelope) (password : list Z) : result error (list Z) :=
  match env with
  | None => Err (errorsNew "seed envelope is nil")
  | Some env => DecryptEnvelope (bytes_string password) (Some env)
  end.

Definition Import (r : Random) (mnemonic seedPassword : string)
    : M SeedManager error (string * DerivedKeys) := fun s =>
  let mnemonic := TrimSpace mnemonic in
  if mnemonic == "" then (s, Err ErrMnemonicRequired) else
  if TrimSpace seedPassword == "" then (s, Err ErrPasswordRequired) else
  if negb (mnemonicValid mnemonic) then (s, Err ErrInvalidMnemonic) else
  match (try! keys := DeriveKeys (mnemonicSeed mnemonic) in
         try! env := EncryptSeed r (string_bytes mnemonic) (string_bytes seedPassword) in
         Ok (keys, env)) with
  | Err err => (s, Err err)
  | Ok (keys, env) =>
      (mkSeeds (Some env) (sm_failedAttempts s) (sm_lockedUntil s), Ok (mnemonic, keys))
  end.

(** [fresh] is the mnemonic of new entropy. *)
Definition Create (r : Random) (fresh : result error string) (seedPassword : string)
    : M SeedManager error (string * DerivedKeys) :=
  if TrimSpace seedPassword == "" then failM ErrPasswordRequired else
  let! mnemonic := liftM fresh in
  Import r mnemonic seedPassword.

(** What [Export] does before it releases the lock, and after it has tried the password: the
    clock is read in both parts. *)
Definition exportBegin (now : Z) (seedPassword : string) (s : SeedManager) : result error Envelope :=
  if TrimSpace seedPassword == "" then Err ErrPasswordRequired else
  match ensureUnlocked now s with
  | Some err => Err err
  | None => match sm_envelope s with Some env => Ok env | None => Err ErrSeedNotAvailable end
  end.

(** The last error wraps [ErrInvalidMnemonic]. *)
Definition exportEnd (now : Z) (seedPassword : string) (env : Envelope) : M SeedManager error string :=
  fun s =>
  match DecryptSeed (Some env) (string_bytes seedPassword) with
  | Err _ => (onFailedPasswordAttempt now s, Err ErrInvalidPassword)
  | Ok plaintext =>
      let mnemonic := TrimSpace (bytes_string plaintext) in
      (resetPasswordAttemptState s,
       if negb (mnemonicValid mnemonic) then Err ErrInvalidMnemonic else Ok mnemonic)
  end.

Definition Export (now now' : Z) (seedPassword : string) : M SeedManager error string := fun s =>
  match exportBegin now seedPassword s with
  | Err err => (s, Err err)
  | Ok env => exportEnd now' seedPassword env s
  end.

Definition ChangePassword (now now' : Z) (r : Random) (oldSeedPassword newSeedPassword : string)
    : M SeedManager error unit := fun s =>
  let oldSeedPassword := TrimSpace oldSeedPassword in
  let newSeedPassword := TrimSpace newSeedPassword in
  if (oldSeedPassword == "") || (newSeedPassword == "") then (s, Err ErrPasswordRequired) else
  match ensureUnlocked now s with
  | Some err => (s, Err err)
  | None =>
      match sm_envelope s with
      | None => (s, Err ErrSeedNotAvailable)
      | Some env =>
          match DecryptSeed (Some env) (string_bytes oldSeedPassword) with
          | Err _ => (onFailedPasswordAttempt now' s, Err ErrInvalidPassword)
          | Ok mnemonicBytes =>
              match EncryptSeed r mnemonicBytes (string_bytes newSeedPassword) with
              | Err err => (s, Err err)
              | Ok newEnv =>
                  (resetPasswordAttemptState
                     (mkSeeds (Some newEnv) (sm_failedAttempts s) (sm_lockedUntil s)), Ok tt)
              end
          end
      end
  end.

(** ** manager_identity_methods.go *)

Definition onSeeds {A} (c : M SeedManager error A) : M Manager error A := fun m =>
  let '(s, r) := c (im_seeds m) in (with_im_seeds m s, r).

(** The assignments both creating and importing make, then the primary device. *)
Definition installIdentity (now : Z) (id : string) (pub priv : list Z)
    : M Manager error IdentityRecord := fun m =>
  let m := with_im_revoked (with_im_contacts (with_im_identity m (mkIdentity id pub) priv) ∅) ∅ in
  (initPrimaryDevice now ;;! (fun m => (m, Ok (im_identity m)))) m.

Definition CreateIdentity (now : Z) (r : Random) (fresh : result error string) (seedPassword : string)
    : M Manager error (IdentityRecord * string) :=
  let! mk := onSeeds (Create r fresh seedPassword) in
  let! ip := liftM (FromKeys (Some (snd mk))) in
  let! identity := installIdentity now (fst ip) (snd ip) (dk_SigningPrivateKey (snd mk)) in
  retM (identity, fst mk).

Definition ImportIdentity (now : Z) (r : Random) (mnemonic seedPassword : string)
    : M Manager error IdentityRecord :=
  let! mk := onSeeds (Import r mnemonic seedPassword) in
  let! ip := liftM (FromKeys (Some (snd mk))) in
  installIdentity now (fst ip) (snd ip) (dk_SigningPrivateKey (snd mk)).

Definition ExportSeed (now now' : Z) (seedPassword : string) : M Manager error string :=
  onSeeds (Export now now' seedPassword).

Definition ManagerChangePassword (now now' : Z) (r : Random) (oldSeedPassword newSeedPassword : string)
    : M Manager error unit :=
  onSeeds (ChangePassword now now' r oldSeedPassword newSeedPassword).

Definition VerifyPassword (now now' : Z) (seedPassword : string) : M Manager error unit :=
  onSeeds (Export now now' (TrimSpace seedPassword)) ;;! retM tt.

Definition SnapshotIdentityKeys (m : Manager) : list Z * list Z :=
  (id_SigningPublicKey (im_identity m), im_selfPriv m).

Definition RestoreIdentityPrivateKey (now : Z) (privateKey : list Z) : M Manager error unit := fun m =>
  if negb (length privateKey =? PrivateKeySize)%nat then (m, Err ErrInvalidContactCard) else
  let pub := publicKeyOf privateKey in
  match BuildIdentityID pub with
  | Err err => (m, Err err)
  | Ok id => (installIdentity now id pub privateKey ;;! retM tt) m
  end.

(** [entropy] is the seed ed25519.GenerateKey reads, or its failure. *)
Definition NewManager (now : Z) (entropy : result error (list Z)) : result error Manager :=
  try! seed := entropy in
  let priv := keyFromSeed seed in
  let pub := publicKeyOf priv in
  try! id := BuildIdentityID pub in
  match initPrimaryDevice now (mkManager (mkIdentity id pub) priv ∅ ∅ "" ∅ (mkSeeds None 0 0)) with
  | (m, Ok _) => Ok m
  | (_, Err err) => Err err
  end.

Definition ValidateLoginInput (accountID password currentIdentityID : string) : option error :=
  let accountID := TrimSpace accountID in
  let password := TrimSpace password in
  if (accountID == "") || (password == "")
  then Some (errorsNew "account id and password are required") else
  if negb (TrimSpace currentIdentityID == accountID) then Some (errorsNew "account id mismatch") else
  None.

(** usecase/identity_flows.go and service.go *)
Definition Login (now now' : Z) (identityID seedPassword : string) : M Manager error unit := fun m =>
  let identityID := TrimSpace identityID in
  let seedPassword := TrimSpace seedPassword in
  match ValidateLoginInput identityID seedPassword (id_ID (im_identity m)) with
  | Some err => (m, Err err)
  | None => VerifyPassword now now' seedPassword m
  end.

(** ** Calls *)

Inductive IdCall :=
| IAddContact (now : Z) (card : ContactCard)
| IAddContactByID (now : Z) (contactID displayName : string)
| IRemoveContact (contactID : string)
| IAddDevice (now : Z) (name : string)
| IRevokeDevice (now : Z) (deviceID : string)
| IApplyRevocation (contactID : string) (rev : DeviceRevocation)
| IExport (now now' : Z) (password : string)
| IChangePassword (now now' : Z) (r : Random) (oldPassword newPassword : string)
| ICreate (now : Z) (r : Random) (fresh : result error string) (password : string)
| IImport (now : Z) (r : Random) (mnemonic password : string).

Definition run_id (m : Manager) (c : IdCall) : Manager :=
  match c with
  | IAddContact now card => fst (AddContact now card m)
  | IAddContactByID now id name => fst (AddContactByIdentityID now id name m)
  | IRemoveContact id => fst (RemoveContact id m)
  | IAddDevice now name => fst (AddDevice now name m)
  | IRevokeDevice now id => fst (RevokeDevice now id m)
  | IApplyRevocation id rev => fst (ApplyDeviceRevocation id rev m)
  | IExport now now' pw => fst (ExportSeed now now' pw m)
  | IChangePassword now now' r o n => fst (ManagerChangePassword now now' r o n m)
  | ICreate now r fresh pw => fst (CreateIdentity now r fresh pw m)
  | IImport now r mn pw => fst (ImportIdentity now r mn pw m)
  end.

Definition run_ids (m : Manager) (cs : list IdCall) : Manager := fold_left run_id cs m.

(** Calls that keep the identity. *)
Definition keeps_identity (c : IdCall) : Prop :=
  match c with ICreate _ _ _ _ | IImport _ _ _ _ => False | _ => True end.

(** ** The invariant *)

(** A key made by NewKeyFromSeed. *)
Definition genuine (k : list Z) : Prop := length k = PrivateKeySize /\ keyFromSeed (take 32 k) = k.

Definition contact_ok (id : string) (c : Contact) : Prop :=
  ct_ID c = id /\ (verifiedKey c = true -> BuildIdentityID (ct_PublicKey c) = Ok id).

Definition device_ok (m : Manager) (id : string) (d : devicePrivate) : Prop :=
  let model := dp_model d in
  dev_ID model = id /\ id = deviceIDFromPub (dev_PublicKey model)
  /\ genuine (dp_priv d) /\ dev_PublicKey model = publicKeyOf (dp_priv d)
  /\ dev_CertSig model
     = edSign (im_selfPriv m) (deviceCertBytes (id_ID (im_identity m)) id (dev_PublicKey model)).

Record manager_ok (m : Manager) : Prop := {
  mo_key : genuine (im_selfPriv m);
  mo_pub : id_SigningPublicKey (im_identity m) = publicKeyOf (im_selfPriv m);
  mo_id : BuildIdentityID (id_SigningPublicKey (im_identity m)) = Ok (id_ID (im_identity m));
  mo_contacts : map_Forall contact_ok (im_contacts m);
  mo_devices : map_Forall (device_ok m) (im_devices m);
  mo_active : is_Some (im_devices m !! im_activeDeviceID m)
}.

Section Invariant.
Context {laws : IdentityCryptoLaws crypto}.

Lemma genuine_key s : length s = 32%nat -> genuine (keyFromSeed s).
Proof. intros Hs. split; [by apply keyFromSeed_length|by rewrite keyFromSeed_take]. Qed.

Lemma genuine_seed k : genuine k -> length (take 32 k) = 32%nat.
Proof. intros [Hk _]. rewrite length_take, Hk. unfold PrivateKeySize. lia. Qed.

Lemma genuine_verify k msg : genuine k -> edVerify (publicKeyOf k) msg (edSign k msg) = true.
Proof.
  intros Hk. pose proof (genuine_seed k Hk). destruct Hk as [_ Hk]. rewrite <- Hk.
  by apply edVerify_sign.
Qed.

Lemma genuine_pub k : genuine k -> length (publicKeyOf k) = PublicKeySize.
Proof. intros [Hk _]. by apply publicKeyOf_length. Qed.

Lemma BuildIdentityID_ok pub : length pub = PublicKeySize -> exists id, BuildIdentityID pub = Ok id.
Proof. intros H. unfold BuildIdentityID. rewrite H. cbn. eauto. Qed.

Lemma certified_ok m now name k :
  genuine k -> device_ok m (dev_ID (dp_model (certifiedDevice m now name k))) (certifiedDevice m now name k).
Proof. intros Hk. by repeat split; try apply Hk. Qed.

Lemma initPrimaryDevice_ok now m :
  genuine (im_selfPriv m) -> id_SigningPublicKey (im_identity m) = publicKeyOf (im_selfPriv m) ->
  BuildIdentityID (id_SigningPublicKey (im_identity m)) = Ok (id_ID (im_identity m)) ->
  map_Forall contact_ok (im_contacts m) ->
  exists m', initPrimaryDevice now m = (m', Ok tt) /\ manager_ok m' /\ im_identity m' = im_identity m.
Proof.
  intros Hk Hp Hi Hc. unfold initPrimaryDevice. pose proof (genuine_seed _ Hk) as Hlen.
  replace (length (im_selfPriv m) <? 32)%nat with false
    by (symmetry; apply Nat.ltb_ge; rewrite length_take in Hlen; lia).
  eexists. split; [reflexivity|]. split; [|done]. constructor; try done.
  - apply map_Forall_singleton. exact (certified_ok m now "primary" _ (genuine_key _ Hlen)).
  - cbn. by rewrite lookup_insert_eq.
Qed.

Lemma NewManager_ok now seed :
  length seed = 32%nat -> exists m, NewManager now (Ok seed) = Ok m /\ manager_ok m.
Proof.
  intros Hs. unfold NewManager. cbn [bindR]. pose proof (genuine_key _ Hs) as Hk.
  destruct (BuildIdentityID_ok _ (genuine_pub _ Hk)) as [id Hid]. rewrite Hid. cbn [bindR].
  set (m0 := mkManager _ _ _ _ _ _ _).
  destruct (initPrimaryDevice_ok now m0) as (m & -> & Hm & _); [done..|]. eauto.
Qed.

Lemma VerifyContactCard_ok card :
  VerifyContactCard card = Ok true ->
  length (card_PublicKey card) = PublicKeySize
  /\ BuildIdentityID (card_PublicKey card) = Ok (card_IdentityID card).
Proof.
  unfold VerifyContactCard. destruct (Nat.eqb_spec (length (card_PublicKey card)) PublicKeySize) as [Hl|];
    cbn [negb orb]; [|done]. destruct (negb _); [done|]. unfold VerifyIdentityID.
  destruct (BuildIdentityID_ok _ Hl) as [id Hid]. rewrite Hid. cbn [bindR].
  case_bool_decide; [|done]. by subst.
Qed.

(** The contacts and the devices change independently of the rest. *)
Lemma manager_ok_contacts m c :
  manager_ok m -> map_Forall contact_ok c -> manager_ok (with_im_contacts m c).
Proof. intros [] Hc. by constructor. Qed.
Lemma manager_ok_devices m d :
  manager_ok m -> map_Forall (device_ok m) d -> is_Some (d !! im_activeDeviceID m) ->
  manager_ok (with_im_devices m d).
Proof. intros [] Hd Ha. by constructor. Qed.
Lemma manager_ok_seeds m s : manager_ok m -> manager_ok (with_im_seeds m s).
Proof. intros []. by constructor. Qed.

Lemma AddContact_ok now card m : manager_ok m -> manager_ok (fst (AddContact now card m)).
Proof.
  intros Hm. unfold AddContact. destruct (VerifyContactCard card) as [[]|] eqn:Hv; try done.
  destruct (match _ with Some _ => _ | None => _ end); [done|]. apply manager_ok_contacts; [done|].
  apply map_Forall_insert_2; [|apply Hm]. split; [done|]. intros _. by apply VerifyContactCard_ok.
Qed.

Lemma AddContactByID_ok now id name m :
  manager_ok m -> manager_ok (fst (AddContactByIdentityID now id name m)).
Proof.
  intros Hm. unfold AddContactByIdentityID. destruct (_ || _); [done|].
  apply manager_ok_contacts; [done|]. apply map_Forall_insert_2; [|apply Hm]. split; [done|].
  unfold verifiedKey at 1. cbn [ct_PublicKey].
  destruct (im_contacts m !! TrimSpace id) as [c|] eqn:E; [|done]. destruct (verifiedKey c) eqn:Hk; [|done].
  intros _. by apply (mo_contacts _ Hm _ _ E).
Qed.

Lemma installIdentity_ok now keys id pub m :
  (exists s, DeriveKeys s = Ok keys) -> FromKeys (Some keys) = Ok (id, pub) ->
  manager_ok (fst (installIdentity now id pub (dk_SigningPrivateKey keys) m)).
Proof.
  intros [s Hs] Hf. unfold DeriveKeys in Hs.
  destruct (hkdf32 s hkdfInfoSigning) as [seed|] eqn:E1; cbn [bindR] in Hs; [|done].
  destruct (hkdf32 s hkdfInfoEncryption) as [seed2|]; cbn [bindR] in Hs; [|done].
  injection Hs as <-. pose proof (genuine_key _ (hkdf32_length _ _ _ E1)) as Hk. cbn in Hf.
  destruct (negb _); [done|].
  destruct (BuildIdentityID (publicKeyOf (keyFromSeed seed))) as [id'|] eqn:Hid; cbn [bindR] in Hf; [|done].
  injection Hf as <- <-. unfold installIdentity. cbn [dk_SigningPrivateKey].
  set (m0 := with_im_revoked _ _). unfold bindM.
  by destruct (initPrimaryDevice_ok now m0) as (m' & -> & Hm' & _).
Qed.

Lemma Import_keys r mn pw s s' mn' keys :
  Import r mn pw s = (s', Ok (mn', keys)) -> exists seed, DeriveKeys seed = Ok keys.
Proof.
  unfold Import. repeat case_bool_decide; try done. destruct (negb _); [done|].
  destruct (DeriveKeys (mnemonicSeed _)) as [k|] eqn:E; cbn [bindR]; [|done].
  destruct (EncryptSeed _ _ _); cbn [bindR]; [|done]. intros [= _ _ <-]. eauto.
Qed.

Lemma Create_keys r fresh pw s s' mk : Create r fresh pw s = (s', Ok mk) -> exists seed, DeriveKeys seed = Ok (snd mk).
Proof.
  destruct mk as [mn keys]. unfold Create. case_bool_decide; [done|]. unfold bindM, liftM. destruct fresh; [|done]. apply Import_keys.
Qed.

(** A property of managers that holds of a fresh identity, and that the seeds do not matter to. *)
Lemma install_after {B} (P : Manager -> Prop) now (c : M SeedManager error (string * DerivedKeys))
    (k : string * DerivedKeys -> string * list Z -> M Manager error B) m :
  (forall m s, P m -> P (with_im_seeds m s)) -> (forall m, manager_ok m -> P m) ->
  (forall s s' mk, c s = (s', Ok mk) -> exists seed, DeriveKeys seed = Ok (snd mk)) ->
  (forall mk ip m, fst (k mk ip m)
     = fst (installIdentity now (fst ip) (snd ip) (dk_SigningPrivateKey (snd mk)) m)) ->
  P m ->
  P (fst (bindM (onSeeds c) (fun mk =>
    bindM (liftM (FromKeys (Some (snd mk)))) (fun ip => k mk ip)) m)).
Proof.
  intros Hseeds Hfresh Hc Hk Hm. unfold bindM at 1, onSeeds. destruct (c (im_seeds m)) as [s' [mk|]] eqn:E; [|by apply Hseeds].
  destruct (Hc _ _ _ E) as [seed Hs]. unfold bindM, liftM. destruct (FromKeys _) as [[id pub]|] eqn:Ef; [|by apply Hseeds].
  rewrite Hk. apply Hfresh. by apply installIdentity_ok; [exists seed|].
Qed.

Lemma created_or_imported (P : Manager -> Prop) m :
  (forall m s, P m -> P (with_im_seeds m s)) -> (forall m, manager_ok m -> P m) -> P m ->
  (forall now r fresh pw, P (fst (CreateIdentity now r fresh pw m))) /\ (forall now r mn pw, P (fst (ImportIdentity now r mn pw m))).
Proof.
  intros Hs Hf Hm. split; intros.
  - apply (install_after P now (Create r fresh pw)); try done; [apply Create_keys|].
    intros mk ip m'. unfold bindM. by destruct (installIdentity _ _ _ _ m') as [? [?|]].
  - apply (install_after P now (Import r mn pw)); try done. intros s s' [mn' keys]. apply Import_keys.
Qed.

Lemma AddDevice_ok now name m : manager_ok m -> manager_ok (fst (AddDevice now name m)).
Proof.
  intros Hm. unfold AddDevice. destruct (deriveDeviceSeed _ _) as [seed|] eqn:E; [|done].
  assert (Hd := certified_ok m now (if TrimSpace name == "" then "device" else TrimSpace name) _
    (genuine_key _ (hkdf32_length _ _ _ E))).
  apply manager_ok_devices; [done| |].
  - apply map_Forall_insert_2; [exact Hd|apply Hm].
  - destruct (mo_active _ Hm) as [d Ha]. cbn.
    destruct (decide (deviceIDFromPub (publicKeyOf (keyFromSeed seed)) = im_activeDeviceID m)) as [->|Hne].
    + by rewrite lookup_insert_eq.
    + rewrite lookup_insert_ne by done. eauto.
Qed.

Lemma RevokeDevice_ok now id m : manager_ok m -> manager_ok (fst (RevokeDevice now id m)).
Proof.
  intros Hm. unfold RevokeDevice. destruct (im_devices m !! id) as [d|] eqn:E; [|done].
  destruct (dev_IsRevoked _); [done|]. apply manager_ok_devices; [done| |].
  - apply map_Forall_insert_2; [|apply Hm]. exact (mo_devices _ Hm _ _ E).
  - destruct (mo_active _ Hm) as [d' Ha]. destruct (decide (id = im_activeDeviceID m)) as [->|Hne].
    + by rewrite lookup_insert_eq.
    + rewrite lookup_insert_ne by done. eauto.
Qed.

Lemma run_id_ok m c : manager_ok m -> manager_ok (run_id m c).
Proof.
  intros Hm. destruct c; cbn [run_id].
  - by apply AddContact_ok.
  - by apply AddContactByID_ok.
  - unfold RemoveContact. case_bool_decide; [done|]. destruct (im_contacts m !! _); [|done].
    apply manager_ok_contacts; [done|]. apply map_Forall_delete, Hm.
  - by apply AddDevice_ok.
  - by apply RevokeDevice_ok.
  - unfold ApplyDeviceRevocation. destruct (im_contacts m !! _); [|done].
    repeat (destruct (negb _); [done|]). by destruct Hm.
  - unfold ExportSeed, onSeeds. destruct (Export _ _ _ _). by apply manager_ok_seeds.
  - unfold ManagerChangePassword, onSeeds. destruct (ChangePassword _ _ _ _ _ _). by apply manager_ok_seeds.
  - by apply created_or_imported; [apply manager_ok_seeds| |].
  - by apply created_or_imported; [apply manager_ok_seeds| |].
Qed.

Lemma run_ids_ok cs m : manager_ok m -> manager_ok (run_ids m cs).
Proof.
  revert m. induction cs as [|c cs IH]; intros m Hm; [done|]. by apply IH, run_id_ok.
Qed.

(** ** Pinned keys, revocations *)

(** A property of the state that no call breaks is kept by a run. *)
Lemma run_ids_keep (P : Manager -> Prop) (allowed : IdCall -> Prop) cs m :
  (forall m c, allowed c -> P m -> P (run_id m c)) -> Forall allowed cs -> P m -> P (run_ids m cs).
Proof.
  intros Hstep Hcs. revert m. induction Hcs as [|c cs Hc Hcs IH]; intros m Hm; [done|].
  by apply IH, Hstep.
Qed.

Lemma key_kept m c id k :
  keeps_identity c -> (forall raw, c = IRemoveContact raw -> TrimSpace raw <> id) ->
  ContactPublicKey m id = Some k -> ContactPublicKey (run_id m c) id = Some k.
Proof.
  intros Hc Hrem Hk. unfold ContactPublicKey in Hk.
  destruct (im_contacts m !! id) as [old|] eqn:E; [|done].
  destruct (verifiedKey old) eqn:Hv; [|done]. injection Hk as Hk.
  destruct c; try done; cbn [run_id].
  - unfold AddContact. destruct (VerifyContactCard card) as [[]|] eqn:Hcard; try (cbn; unfold ContactPublicKey; by rewrite E, Hv, Hk).
    destruct (decide (card_IdentityID card = id)) as [Hid|Hne].
    + rewrite Hid, E, Hv. cbn [andb]. case_bool_decide as Hpk; cbn [negb].
      * unfold ContactPublicKey. cbn. rewrite lookup_insert_eq. unfold verifiedKey. cbn.
        rewrite <- Hpk, Hk. unfold verifiedKey in Hv. rewrite Hk in Hv. by rewrite Hv.
      * unfold ContactPublicKey. cbn. by rewrite E, Hv, Hk.
    + destruct (match _ with Some _ => _ | None => _ end); unfold ContactPublicKey; cbn;
        [|rewrite lookup_insert_ne by done]; by rewrite E, Hv, Hk.
  - unfold AddContactByIdentityID. destruct (_ || _); unfold ContactPublicKey; cbn; [by rewrite E, Hv, Hk|].
    destruct (decide (TrimSpace contactID = id)) as [->|Hne].
    + rewrite lookup_insert_eq, E, Hv. unfold verifiedKey. cbn. unfold verifiedKey in Hv. by rewrite Hv, Hk.
    + rewrite lookup_insert_ne by done. by rewrite E, Hv, Hk.
  - unfold RemoveContact. case_bool_decide; [unfold ContactPublicKey; cbn; by rewrite E, Hv, Hk|].
    specialize (Hrem _ eq_refl).
    destruct (im_contacts m !! TrimSpace contactID); unfold ContactPublicKey; cbn;
      [rewrite lookup_delete_ne by done|]; by rewrite E, Hv, Hk.
  - unfold AddDevice. destruct (deriveDeviceSeed _ _); unfold ContactPublicKey; cbn; by rewrite E, Hv, Hk.
  - unfold RevokeDevice. destruct (im_devices m !! deviceID) as [d|]; [destruct (dev_IsRevoked _)|];
      unfold ContactPublicKey; cbn; by rewrite E, Hv, Hk.
  - unfold ApplyDeviceRevocation. destruct (im_contacts m !! contactID);
      repeat (destruct (negb _)); unfold ContactPublicKey; cbn; by rewrite E, Hv, Hk.
  - unfold ExportSeed, onSeeds. destruct (Export _ _ _ _). unfold ContactPublicKey. cbn. by rewrite E, Hv, Hk.
  - unfold ManagerChangePassword, onSeeds. destruct (ChangePassword _ _ _ _ _ _).
    unfold ContactPublicKey. cbn. by rewrite E, Hv, Hk.
Qed.

(** What a call does to the revocations and to the local devices. *)
Lemma revoked_grow m c id dev :
  keeps_identity c -> dev ∈ revokedSet m id -> dev ∈ revokedSet (run_id m c) id.
Proof.
  intros Hc Hd. assert (Hsame : forall m', im_revokedDevices m' = im_revokedDevices m ->
    dev ∈ revokedSet m' id) by (intros m' E; unfold revokedSet; by rewrite E).
  destruct c; try done; cbn [run_id].
  - apply Hsame. unfold AddContact. destruct (VerifyContactCard _) as [[]|]; try done.
    by destruct (match _ with Some _ => _ | None => _ end).
  - apply Hsame. unfold AddContactByIdentityID. by destruct (_ || _).
  - apply Hsame. unfold RemoveContact. case_bool_decide; [done|]. by destruct (im_contacts m !! _).
  - apply Hsame. unfold AddDevice. by destruct (deriveDeviceSeed _ _).
  - apply Hsame. unfold RevokeDevice. destruct (im_devices m !! _) as [d|]; [|done]. by destruct (dev_IsRevoked _).
  - unfold ApplyDeviceRevocation. destruct (im_contacts m !! contactID); [|by apply Hsame].
    repeat (destruct (negb _); [by apply Hsame|]). cbn. unfold revokedSet. cbn.
    destruct (decide (contactID = id)) as [->|Hne].
    + rewrite lookup_insert_eq. cbn. fold (revokedSet m id). set_solver.
    + by rewrite lookup_insert_ne.
  - apply Hsame. unfold ExportSeed, onSeeds. by destruct (Export _ _ _ _).
  - apply Hsame. unfold ManagerChangePassword, onSeeds. by destruct (ChangePassword _ _ _ _ _ _).
Qed.

Lemma revoked_refused m contactID device payload sig :
  dev_ID device ∈ revokedSet m contactID ->
  exists e, VerifyInboundDevice m contactID device payload sig = Returns (Some e).
Proof.
  intros Hd. unfold VerifyInboundDevice. destruct (im_contacts m !! contactID); [|eauto].
  destruct (negb _); [eauto|]. rewrite bool_decide_true by done. eauto.
Qed.

(** The active device of [m] has the identifier [id], is revoked, and no key derived from the
    seed has its identifier. *)
Definition silenced (priv : list Z) (id : string) (m : Manager) : Prop :=
  im_selfPriv m = priv /\ im_activeDeviceID m = id
  /\ exists d, im_devices m !! id = Some d /\ dev_IsRevoked (dp_model d) = true.

Definition fresh_device_ids (priv : list Z) (id : string) : Prop :=
  forall index seed, deriveDeviceSeed (take 32 priv) index = Ok seed ->
    deviceIDFromPub (publicKeyOf (keyFromSeed seed)) <> id.

Lemma silenced_kept priv id m c :
  fresh_device_ids priv id -> keeps_identity c -> silenced priv id m -> silenced priv id (run_id m c).
Proof.
  intros Hf Hc (Hp & Ha & d & Hd & Hr). assert (Hsame : forall m', im_selfPriv m' = im_selfPriv m ->
    im_activeDeviceID m' = im_activeDeviceID m -> im_devices m' = im_devices m -> silenced priv id m').
  { intros m' E1 E2 E3. unfold silenced. rewrite E1, E2, E3. eauto. }
  destruct c; try done; cbn [run_id].
  - unfold AddContact. destruct (VerifyContactCard _) as [[]|]; try by apply Hsame.
    destruct (match _ with Some _ => _ | None => _ end); by apply Hsame.
  - unfold AddContactByIdentityID. destruct (_ || _); by apply Hsame.
  - unfold RemoveContact. case_bool_decide; [by apply Hsame|]. destruct (im_contacts m !! _); by apply Hsame.
  - unfold AddDevice. destruct (deriveDeviceSeed _ _) as [seed|] eqn:E; [|by apply Hsame].
    split; [done|]. split; [done|]. exists d. cbn. rewrite lookup_insert_ne; [done|].
    rewrite Hp in E. exact (Hf _ _ E).
  - unfold RevokeDevice. destruct (im_devices m !! deviceID) as [d'|] eqn:E; [|by apply Hsame].
    destruct (dev_IsRevoked (dp_model d')) eqn:Hr'; [by apply Hsame|].
    split; [done|]. split; [done|]. exists d. cbn. rewrite lookup_insert_ne; [done|].
    intros ->. congruence.
  - unfold ApplyDeviceRevocation. destruct (im_contacts m !! contactID); [|by apply Hsame].
    repeat (destruct (negb _); [by apply Hsame|]). by apply Hsame.
  - unfold ExportSeed, onSeeds. destruct (Export _ _ _ _). by apply Hsame.
  - unfold ManagerChangePassword, onSeeds. destruct (ChangePassword _ _ _ _ _ _). by apply Hsame.
Qed.

(** The card a manager gives out is valid. *)
Lemma SelfContactCard_valid (a : Manager) (displayName : string) :
  manager_ok a -> exists card, SelfContactCard a displayName = Ok card
    /\ card_IdentityID card = id_ID (im_identity a)
    /\ card_PublicKey card = id_SigningPublicKey (im_identity a)
    /\ VerifyContactCard card = Ok true.
Proof.
  intros Ha. pose proof (genuine_pub _ (mo_key _ Ha)) as Hlen.
  unfold SelfContactCard, SignContactCard, VerifyIdentityID.
  rewrite (mo_id _ Ha). cbn [bindR]. rewrite bool_decide_true by done.
  eexists. split; [reflexivity|]. split; [done|]. split; [done|]. unfold VerifyContactCard, VerifyIdentityID.
  cbn [card_PublicKey card_Signature card_IdentityID card_DisplayName].
  rewrite (mo_id _ Ha). rewrite edSign_length by apply (mo_key _ Ha).
  rewrite (mo_pub _ Ha), Hlen, !Nat.eqb_refl. cbn [negb orb bindR].
  rewrite bool_decide_true by done. cbn [negb]. change (contactCardSigningBytes (mkCard _ _ _ (edSign _ _)))
    with (contactCardSigningBytes (mkCard (id_ID (im_identity a)) displayName (publicKeyOf (im_selfPriv a)) [])).
  by rewrite genuine_verify by apply (mo_key _ Ha).
Qed.

(** What the active device signs passes the check of a peer that has the key. *)
Lemma active_device_accepted (a b : Manager) (c : Contact) (payload sig : list Z) (device : Device) :
  manager_ok a -> im_contacts b !! id_ID (im_identity a) = Some c ->
  ct_PublicKey c = id_SigningPublicKey (im_identity a) ->
  ActiveDeviceAuth a payload = Ok (device, sig) ->
  dev_ID device ∉ revokedSet b (id_ID (im_identity a)) ->
  VerifyInboundDevice b (id_ID (im_identity a)) device payload sig = Returns None.
Proof.
  intros Ha Hb Hkey Hauth Hrev. pose proof (genuine_pub _ (mo_key _ Ha)) as Hlen.
  unfold ActiveDeviceAuth in Hauth. destruct (im_devices a !! im_activeDeviceID a) as [d|] eqn:Ed; [|done].
  destruct (dev_IsRevoked (dp_model d)); [done|]. injection Hauth as <- <-.
  destruct (mo_devices _ Ha _ _ Ed) as (Hid & _ & Hg & Hpub & Hcert).
  unfold VerifyInboundDevice. rewrite Hb. unfold verifiedKey. rewrite Hkey, (mo_pub _ Ha), Hlen.
  cbn [PublicKeySize Nat.eqb negb].
  rewrite bool_decide_false by done. unfold goVerify. rewrite Hlen, Hcert, Hid.
  cbn [PublicKeySize Nat.eqb]. rewrite genuine_verify by apply (mo_key _ Ha).
  rewrite Hpub, (genuine_pub _ Hg). cbn [PublicKeySize Nat.eqb]. by rewrite genuine_verify.
Qed.

(** ** The theorems about identities *)

(** A contact's key stays pinned. From a fresh manager, after any calls at all, every
    verified contact's identifier is the hash of its public key; and once a contact is verified,
    no sequence of calls changes its key (new cards, additions by identifier, revocations,
    passwords, devices), short of removing the contact or taking another identity. *)
Theorem contact_keys_stay_pinned (now : Z) (seed : list Z) (m0 : Manager) (cs cs' : list IdCall)
    (id : string) (k : list Z) :
  length seed = 32%nat -> NewManager now (Ok seed) = Ok m0 ->
  let m := run_ids m0 cs in
  ContactPublicKey m id = Some k ->
  Forall (fun c => keeps_identity c /\ forall raw, c = IRemoveContact raw -> TrimSpace raw <> id) cs' ->
  BuildIdentityID k = Ok id /\ ContactPublicKey (run_ids m cs') id = Some k.
Proof.
  intros Hs Hnew m Hk Hcs'. destruct (NewManager_ok now seed Hs) as (m1 & E & Hm1).
  assert (Hm : manager_ok m) by (apply run_ids_ok; congruence). split.
  - unfold ContactPublicKey in Hk. destruct (im_contacts m !! id) as [c|] eqn:Ec; [|done].
    destruct (verifiedKey c) eqn:Hv; [|done]. injection Hk as <-. by apply (mo_contacts _ Hm _ _ Ec).
  - apply (run_ids_keep (fun m => ContactPublicKey m id = Some k) _ cs' m) in Hcs'; [done| |done].
    intros m' c [Hc Hr] Hk'. by apply key_kept.
Qed.

(** What one side signs the other accepts. The contact card of a manager in any reachable
    state is accepted by a peer that does not know it yet, after which whatever the active device
    signs passes the peer's device check, unless that device was revoked before. *)
Theorem peers_accept_signed_messages (a b : Manager) (now : Z) (displayName : string)
    (payload sig : list Z) (device : Device) :
  manager_ok a -> im_contacts b !! id_ID (im_identity a) = None ->
  ActiveDeviceAuth a payload = Ok (device, sig) ->
  dev_ID device ∉ revokedSet b (id_ID (im_identity a)) ->
  exists card b', SelfContactCard a displayName = Ok card
    /\ AddContact now card b = (b', Ok tt)
    /\ VerifyInboundDevice b' (id_ID (im_identity a)) device payload sig = Returns None.
Proof.
  intros Ha Hb Hauth Hrev. destruct (SelfContactCard_valid a displayName Ha) as (card & -> & Hid & Hpk & Hv).
  exists card. unfold AddContact. rewrite Hv, Hid, Hb. eexists. split; [done|]. split; [done|].
  eapply (active_device_accepted a _ _ _ _ _ Ha); [cbn; apply lookup_insert_eq|exact Hpk|exact Hauth|exact Hrev].
Qed.

(** Revoking a device locks it out for good. The revocation a manager issues for one of its
    devices is accepted by every peer that has pinned its key, and from then on the peer refuses
    the device whatever it presents, after any further calls: also when the contact is
    removed and added again. *)
Theorem revoked_device_is_locked_out (a a' b : Manager) (now : Z) (deviceID : string)
    (rev : DeviceRevocation) :
  manager_ok a -> RevokeDevice now deviceID a = (a', Ok rev) ->
  ContactPublicKey b (id_ID (im_identity a)) = Some (publicKeyOf (im_selfPriv a)) ->
  exists b', ApplyDeviceRevocation (id_ID (im_identity a)) rev b = (b', Ok tt)
    /\ forall cs device payload sig, Forall keeps_identity cs -> dev_ID device = deviceID ->
       exists e, VerifyInboundDevice (run_ids b' cs) (id_ID (im_identity a)) device payload sig
                 = Returns (Some e).
Proof.
  intros Ha Hrev Hb. assert (Hr : rev = buildRevocationLocked a now deviceID).
  { unfold RevokeDevice in Hrev. destruct (im_devices a !! deviceID) as [d|]; [|done].
    destruct (dev_IsRevoked _); by injection Hrev as _ <-. }
  subst rev. unfold ContactPublicKey in Hb. unfold ApplyDeviceRevocation.
  destruct (im_contacts b !! id_ID (im_identity a)) as [c|]; [|done].
  destruct (verifiedKey c); [|done]. injection Hb as Hk. cbn [negb buildRevocationLocked rev_IdentityID
    rev_DeviceID rev_Timestamp rev_Signature]. rewrite bool_decide_true by done. cbn [negb].
  rewrite Hk, genuine_verify by apply (mo_key _ Ha). cbn [negb]. eexists. split; [reflexivity|].
  intros cs device payload sig Hcs <-. apply revoked_refused.
  apply (run_ids_keep (fun m => dev_ID device ∈ revokedSet m (id_ID (im_identity a))) keeps_identity);
    [|done|].
  - intros m c' Hc' Hd. by apply revoked_grow.
  - unfold revokedSet. cbn. rewrite lookup_insert_eq. cbn. set_solver.
Qed.

(** Revoking the active device silences the identity. After it, no call short of taking another
    identity lets the manager sign again: adding a device does not make it the active one, and
    there is no other way to choose it. (Identifiers derived from the seed are assumed to differ
    from the active one.) *)
Theorem revoked_active_device_silences (m m' : Manager) (now : Z) (rev : DeviceRevocation)
    (cs : list IdCall) (payload : list Z) :
  fresh_device_ids (im_selfPriv m) (im_activeDeviceID m) ->
  RevokeDevice now (im_activeDeviceID m) m = (m', Ok rev) -> Forall keeps_identity cs ->
  ActiveDeviceAuth (run_ids m' cs) payload = Err ErrDeviceRevoked.
Proof.
  intros Hf Hrev Hcs.
  assert (Hs : silenced (im_selfPriv m) (im_activeDeviceID m) m').
  { unfold RevokeDevice in Hrev. destruct (im_devices m !! im_activeDeviceID m) as [d|] eqn:E; [|done].
    destruct (dev_IsRevoked (dp_model d)) eqn:Hr; injection Hrev as <- _; (split; [done|]; split; [done|]).
    - eauto.
    - eexists. cbn. by rewrite lookup_insert_eq. }
  apply (run_ids_keep _ _ cs m' (fun m c => silenced_kept _ _ m c Hf)) in Hs; [|done].
  destruct Hs as (_ & Ha & d & Hd & Hr). unfold ActiveDeviceAuth. by rewrite Ha, Hd, Hr.
Qed.

(** A contact can crash the receiver. Anyone whose key is pinned can certify a device whose public
    key does not have 32 bytes; checking a message of that device panics, whatever the message,
    and nothing on the way recovers. *)
Theorem malformed_device_key_panics (a b : Manager) (deviceID : string) (badKey payload sig : list Z) :
  manager_ok a -> ContactPublicKey b (id_ID (im_identity a)) = Some (publicKeyOf (im_selfPriv a)) ->
  deviceID ∉ revokedSet b (id_ID (im_identity a)) -> length badKey <> PublicKeySize ->
  let cert := edSign (im_selfPriv a) (deviceCertBytes (id_ID (im_identity a)) deviceID badKey) in
  VerifyInboundDevice b (id_ID (im_identity a)) (mkDevice deviceID "" badKey cert 0 false 0) payload sig
  = Panics.
Proof.
  intros Ha Hb Hrev Hbad cert. unfold ContactPublicKey in Hb. unfold VerifyInboundDevice.
  destruct (im_contacts b !! id_ID (im_identity a)) as [c|]; [|done].
  destruct (verifiedKey c) eqn:Hv; [|done]. injection Hb as Hk. cbn [negb dev_ID dev_PublicKey dev_CertSig].
  rewrite bool_decide_false by done. unfold goVerify. unfold verifiedKey in Hv. rewrite Hv, Hk.
  subst cert. rewrite genuine_verify by apply (mo_key _ Ha).
  by rewrite (proj2 (Nat.eqb_neq _ _) Hbad).
Qed.
End Invariant.

(** ** Passwords *)

Lemma backoff_bounds n : 1 <= n -> Second <= failedAttemptBackoff n <= 32 * Second.
Proof.
  intros Hn. unfold failedAttemptBackoff. rewrite (proj2 (Z.leb_gt n 0)) by lia.
  destruct (Z.ltb_spec 5 (n - 1)); [by vm_compute|].
  assert (Hc : n ∈ seqZ 1 6) by (apply elem_of_seqZ; lia). cbn in Hc.
  repeat (apply elem_of_cons in Hc as [->|Hc]; [by vm_compute|]). by apply elem_of_nil in Hc.
Qed.

Lemma backoff_cap n : 6 <= n -> failedAttemptBackoff n = 32 * Second.
Proof.
  intros Hn. unfold failedAttemptBackoff. rewrite (proj2 (Z.leb_gt n 0)) by lia.
  destruct (Z.ltb_spec 5 (n - 1)); [done|]. assert (n = 6) as -> by lia. done.
Qed.

(** A sequence of guesses that were all tried and wrong; a guess is the time it starts, the time
    it ends and the password. *)
Fixpoint wrong_guesses (gs : list (Z * Z * string)) (s : SeedManager) : Prop :=
  match gs with
  | [] => True
  | (t, t', pw) :: gs =>
      snd (Export t t' pw s) = Err ErrInvalidPassword /\ wrong_guesses gs (fst (Export t t' pw s))
  end.

(** A wrong guess counts, and the next one is tried only after the lock. *)
Lemma wrong_guess t t' pw s :
  snd (Export t t' pw s) = Err ErrInvalidPassword ->
  (IsZero (sm_lockedUntil s) = true \/ sm_lockedUntil s <= t)
  /\ fst (Export t t' pw s) = onFailedPasswordAttempt t' s.
Proof.
  unfold Export, exportBegin, ensureUnlocked. case_bool_decide; [done|].
  destruct (IsZero (sm_lockedUntil s)) eqn:Ez.
  - destruct (sm_envelope s) as [env|]; [|done]. unfold exportEnd.
    destruct (DecryptSeed _ _); cbn; [by destruct (negb _)|auto].
  - unfold Before. destruct (Z.ltb_spec t (sm_lockedUntil s)); [done|].
    destruct (sm_envelope s) as [env|]; [|done]. unfold exportEnd.
    destruct (DecryptSeed _ _); cbn; [by destruct (negb _)|auto].
Qed.

(** The waiting time of [n] wrong guesses after [a] earlier ones. *)
Fixpoint waits (a : Z) (n : nat) : Z :=
  match n with O => 0 | S n => failedAttemptBackoff (a + 1) + waits (a + 1) n end.

Lemma waits_bound a n : 0 <= a -> 32 * Second * (Z.of_nat n - Z.max 0 (5 - a)) <= waits a n.
Proof.
  revert a. induction n as [|n IH]; intros a Ha; cbn [waits]; [unfold Second; nia|].
  specialize (IH (a + 1) ltac:(lia)). destruct (decide (5 <= a)) as [H5|H5].
  - rewrite backoff_cap by lia. rewrite Z.max_l in * by lia. unfold Second in *. lia.
  - pose proof (backoff_bounds (a + 1) ltac:(lia)). rewrite Z.max_r in * by lia. unfold Second in *. lia.
Qed.

Definition endOf (g : Z * Z * string) : Z := snd (fst g).

Lemma wrong_guesses_wait gs g s :
  0 <= sm_failedAttempts s -> Forall (fun g => 0 < fst (fst g) <= endOf g) (g :: gs) ->
  wrong_guesses (g :: gs) s ->
  endOf g + waits (sm_failedAttempts s) (length gs) <= endOf (List.last gs g).
Proof.
  revert g s. induction gs as [|g2 gs IH]; intros [[t t'] pw] s Ha Hts; [cbn; lia|].
  intros [Hw Hrest]. apply wrong_guess in Hw as [_ Hst]. rewrite Hst in Hrest.
  inversion Hts as [|? ? Ht Hts']; subst.
  specialize (IH g2 (onFailedPasswordAttempt t' s) ltac:(cbn; lia) Hts' Hrest).
  assert (Hlast : forall d, List.last (g2 :: gs) d = List.last gs g2).
  { clear. revert g2. induction gs as [|x gs IH]; intros g2 d; [done|].
    change (List.last (x :: gs) d = List.last (x :: gs) g2). by rewrite !IH. }
  rewrite Hlast. destruct g2 as [[t2 t2'] pw2]. destruct Hrest as [Hw2 _].
  apply wrong_guess in Hw2 as [Hlock _].
  inversion Hts' as [|? ? Ht2 _]; subst. unfold endOf in *. cbn in *.
  pose proof (backoff_bounds (sm_failedAttempts s + 1) ltac:(lia)) as Hbk. unfold Second in Hbk.
  assert (Hnz : IsZero (t' + failedAttemptBackoff (sm_failedAttempts s + 1)) = false)
    by (unfold IsZero; apply Z.eqb_neq; lia).
  destruct Hlock as [Hl|Hl]; [congruence|]. lia.
Qed.

(** Guessing the seed password is throttled. Of guesses made one after the other, however
    chosen, those that are tried and wrong cannot follow each other quickly: after the first six,
    each costs at least 32 seconds, so [n] wrong guesses take at least 32 (n - 6) seconds. A single
    waiting time is between 1 and 32 seconds. *)
Theorem password_guesses_are_throttled (g : Z * Z * string) (gs : list (Z * Z * string))
    (s : SeedManager) :
  0 <= sm_failedAttempts s -> Forall (fun g => 0 < fst (fst g) <= endOf g) (g :: gs) ->
  wrong_guesses (g :: gs) s ->
  32 * Second * (Z.of_nat (length (g :: gs)) - 6) <= endOf (List.last gs g) - endOf g
  /\ forall n, 1 <= n -> Second <= failedAttemptBackoff n <= 32 * Second.
Proof.
  intros Ha Hts Hw. split; [|apply backoff_bounds].
  pose proof (wrong_guesses_wait gs g s Ha Hts Hw) as H1.
  pose proof (waits_bound (sm_failedAttempts s) (length gs) Ha) as H2. unfold Second in *.
  cbn [length]. lia.
Qed.

(** The mnemonic comes back. After an import, the seed password gives the mnemonic, and after a
    change of password the new one does, provided a lock of earlier wrong attempts has expired. *)
Theorem seed_password_roundtrip `{!CipherLaws cipher} (r r' : Random) (mnemonic pw pw' : string)
    (t1 t1' t2 t2' t3 t3' : Z) (s s1 : SeedManager) (mn : string) (keys : DerivedKeys) :
  random_ok r -> random_ok r' -> Import r mnemonic pw s = (s1, Ok (mn, keys)) ->
  TrimSpace pw = pw -> pw' <> "" -> TrimSpace pw' = pw' ->
  sm_lockedUntil s = 0 \/ sm_lockedUntil s <= Z.min t1 t2 ->
  snd (Export t1 t1' pw s1) = Ok mn
  /\ exists s2, ChangePassword t2 t2' r' pw pw' s1 = (s2, Ok tt)
     /\ snd (Export t3 t3' pw' s2) = Ok mn.
Proof.
  intros Hr Hr' Himp Hpw Hne Hpw' Hlock. unfold Import in Himp.
  case_bool_decide as Hmn; [done|]. case_bool_decide as Hpe; [done|]. rewrite Hpw in Hpe.
  destruct (mnemonicValid (TrimSpace mnemonic)) eqn:Hv; [|done]. cbn [negb] in Himp.
  destruct (DeriveKeys _); cbn [bindR] in Himp; [|done].
  unfold EncryptSeed in Himp. rewrite bytes_string_bytes in Himp.
  destruct (EncryptEnvelope_Decrypt r pw (string_bytes (TrimSpace mnemonic)) Hr) as (env & He & Hd).
  rewrite He in Himp. cbn [bindR] in Himp. injection Himp as <- <- <-.
  assert (Hunlock : forall t, (sm_lockedUntil s = 0 \/ sm_lockedUntil s <= t) -> forall env',
    ensureUnlocked t (mkSeeds env' (sm_failedAttempts s) (sm_lockedUntil s)) = None).
  { intros t Ht env'. unfold ensureUnlocked, IsZero, Before. cbn.
    destruct (Z.eqb_spec (sm_lockedUntil s) 0); [done|]. by rewrite (proj2 (Z.ltb_ge _ _)) by lia. }
  split.
  - unfold Export, exportBegin. rewrite Hpw, bool_decide_false, Hunlock by (try done; lia).
    unfold exportEnd, DecryptSeed. cbn [sm_envelope]. rewrite bytes_string_bytes, Hd. cbn [snd].
    by rewrite bytes_string_bytes, TrimSpace_idemp, Hv.
  - unfold ChangePassword. rewrite Hpw, Hpw', !bool_decide_false, Hunlock by (try done; lia).
    unfold DecryptSeed, EncryptSeed. cbn [sm_envelope orb]. rewrite !bytes_string_bytes, Hd.
    destruct (EncryptEnvelope_Decrypt r' pw' (string_bytes (TrimSpace mnemonic)) Hr') as (env' & He' & Hd').
    rewrite He'. eexists. split; [reflexivity|]. unfold Export, exportBegin, ensureUnlocked. cbn.
    rewrite Hpw', bool_decide_false by done. unfold exportEnd, DecryptSeed. rewrite bytes_string_bytes, Hd'.
    cbn [snd]. by rewrite bytes_string_bytes, TrimSpace_idemp, Hv.
Qed.
End Seeds.
End Identity.

(** ** A crypto interface to compute with, and witnesses *)

Definition ex_total (l : list Z) : Z := fold_right Z.add 0 l.

Definition ex_hkdf (s : list Z) (info : string) : list Z :=
  if HasPrefix info "aim/device" then replicate 32 200 else take 32 (s ++ replicate 32 0)%list.

#[export] Instance exIdentityCrypto : IdentityCrypto := {
  keyFromSeed s := (s ++ s)%list;
  publicKeyOf k := take 32 k;
  edSign k m := (take 32 k ++ replicate 32 (ex_total m))%list;
  edVerify pub m sig := bool_decide (sig = pub ++ replicate 32 (ex_total m))%list;
  blake2b256 l := l;
  base58Encode := hexEncode;
  sum256 l := l;
  hkdf32 s info := Ok (ex_hkdf s info);
  mnemonicValid s := negb (s == "");
  mnemonicSeed s := replicate 32 (Z.of_nat (String.length s))
}.

#[export] Instance exIdentityCryptoLaws : IdentityCryptoLaws exIdentityCrypto.
Proof.
  constructor; unfold keyFromSeed, publicKeyOf, edSign, edVerify, hkdf32, exIdentityCrypto.
  - intros s Hs. rewrite length_app, Hs. done.
  - intros s Hs. rewrite <- Hs. apply take_app_length.
  - intros k Hk. rewrite length_take, Hk. done.
  - intros k m Hk. rewrite length_app, length_take, length_replicate, Hk. done.
  - intros s m Hs. apply bool_decide_true. done.
  - intros s i out [= <-]. unfold ex_hkdf. destruct (HasPrefix _ _); [done|].
    rewrite length_take, length_app, length_replicate. lia.
Qed.

Definition ex_alice : Manager :=
  match NewManager 5 (Ok (replicate 32 1)) with Ok m => m | Err _ => mkManager (mkIdentity "" []) [] ∅ ∅ "" ∅ (mkSeeds None 0 0) end.
Definition ex_bob : Manager :=
  match NewManager 5 (Ok (replicate 32 2)) with Ok m => m | Err _ => ex_alice end.
Definition ex_aliceID : string := id_ID (im_identity ex_alice).
Definition ex_card : ContactCard :=
  match SelfContactCard ex_alice "Alice" with Ok c => c | Err _ => mkCard "" "" [] [] end.
(** Bob after he added Alice. *)
Definition ex_bob1 : Manager := run_ids ex_bob [IAddContact 9 ex_card].
Definition ex_calls_id : list IdCall :=
  [IAddContactByID 10 ex_aliceID "another name"; IAddDevice 11 "phone";
   IAddContact 12 (mkCard ex_aliceID "Mallory" (replicate 32 3) (replicate 64 0))].

Lemma ex_alice_new : NewManager 5 (Ok (replicate 32 1)) = Ok ex_alice.
Proof. vm_compute. reflexivity. Qed.

Lemma ex_alice_ok : manager_ok ex_alice.
Proof.
  destruct (NewManager_ok 5 (replicate 32 1) eq_refl) as (m & E & Hm).
  rewrite ex_alice_new in E. by injection E as <-.
Qed.

Lemma contact_keys_stay_pinned_witness :
  BuildIdentityID (replicate 32 1) = Ok ex_aliceID
  /\ ContactPublicKey (run_ids ex_bob1 ex_calls_id) ex_aliceID = Some (replicate 32 1).
Proof.
  apply (contact_keys_stay_pinned 5 (replicate 32 2) ex_bob [IAddContact 9 ex_card] ex_calls_id).
  - reflexivity.
  - vm_compute. reflexivity.
  - vm_compute. reflexivity.
  - repeat constructor; done.
Defined.

Lemma peers_accept_signed_messages_witness :
  exists card b', SelfContactCard ex_alice "Alice" = Ok card
    /\ AddContact 9 card ex_bob = (b', Ok tt)
    /\ VerifyInboundDevice b' ex_aliceID
         (match ActiveDeviceAuth ex_alice [7] with Ok (d, _) => d | Err _ => mkDevice "" "" [] [] 0 false 0 end)
         [7] (edSign (im_selfPriv ex_alice) [7]) = Returns None.
Proof.
  apply (peers_accept_signed_messages ex_alice ex_bob 9 "Alice" [7]).
  - apply ex_alice_ok.
  - vm_compute. reflexivity.
  - vm_compute. reflexivity.
  - vm_compute. set_solver.
Defined.

Definition ex_rev : DeviceRevocation := buildRevocationLocked ex_alice 20 (im_activeDeviceID ex_alice).

Lemma revoked_device_is_locked_out_witness :
  exists b', ApplyDeviceRevocation ex_aliceID ex_rev ex_bob1 = (b', Ok tt)
    /\ exists e, VerifyInboundDevice (run_ids b' [IRemoveContact ex_aliceID; IAddContact 30 ex_card])
         ex_aliceID (mkDevice (im_activeDeviceID ex_alice) "" [] [] 0 false 0) [7] [] = Returns (Some e).
Proof.
  destruct (revoked_device_is_locked_out ex_alice
    (fst (RevokeDevice 20 (im_activeDeviceID ex_alice) ex_alice)) ex_bob1 20
    (im_activeDeviceID ex_alice) ex_rev) as (b' & Hb & Hall).
  - apply ex_alice_ok.
  - vm_compute. reflexivity.
  - vm_compute. reflexivity.
  - exists b'. split; [exact Hb|]. apply Hall; [repeat constructor|reflexivity].
Defined.

Lemma revoked_active_device_silences_witness :
  ActiveDeviceAuth (run_ids (fst (RevokeDevice 20 (im_activeDeviceID ex_alice) ex_alice))
    [IAddDevice 21 "second"]) [7] = Err ErrDeviceRevoked.
Proof.
  apply (revoked_active_device_silences ex_alice _ 20 ex_rev).
  - intros index seed Hs. unfold deriveDeviceSeed, hkdf32, exIdentityCrypto in Hs.
    injection Hs as <-. unfold ex_hkdf.
    replace (HasPrefix ("aim/device/" +:+ pretty index) "aim/device") with true by reflexivity.
    vm_compute. discriminate.
  - vm_compute. reflexivity.
  - repeat constructor.
Defined.

Lemma malformed_device_key_panics_witness :
  VerifyInboundDevice ex_bob1 ex_aliceID
    (mkDevice "dev" "" [1; 2; 3] (edSign (im_selfPriv ex_alice) (deviceCertBytes ex_aliceID "dev" [1; 2; 3]))
       0 false 0) [7] [] = Panics.
Proof.
  apply (malformed_device_key_panics ex_alice ex_bob1 "dev" [1; 2; 3] [7] []).
  - apply ex_alice_ok.
  - vm_compute. reflexivity.
  - vm_compute. set_solver.
  - vm_compute. discriminate.
Defined.

(** A cipher that tells passphrases apart, for wrong guesses. *)
#[local] Instance exPassCipher : Cipher := {
  argonKey p s := (take 32 (p ++ replicate 32 0))%list;
  aeadSeal k n p := (take 32 k ++ p)%list;
  aeadOpen k n c := if bool_decide (take 32 c = take 32 k) then Some (drop 32 c) else None
}.

Definition ex_seeds : SeedManager :=
  fst (Import ex_random "some words" "right" (mkSeeds None 0 0)).
Definition ex_guesses : list (Z * Z * string) :=
  (fun i => (100 * Second * i, 100 * Second * i + 1, "wrong")) <$> [2; 3; 4; 5; 6; 7; 8].

Lemma password_guesses_are_throttled_witness :
  32 * Second * 2 <= endOf (List.last ex_guesses (100 * Second, 100 * Second + 1, "wrong"))
                     - (100 * Second + 1).
Proof.
  apply (password_guesses_are_throttled (100 * Second, 100 * Second + 1, "wrong") ex_guesses ex_seeds).
  - vm_compute. discriminate.
  - repeat constructor; vm_compute; discriminate.
  - vm_compute. repeat split.
Defined.

Lemma seed_password_roundtrip_witness :
  snd (@Export exIdentityCrypto exCipher 50 51 "right"
    (fst (@Import exIdentityCrypto exCipher ex_random " some words " "right" (mkSeeds None 0 0))))
  = Ok "some words".
Proof.
  apply (seed_password_roundtrip ex_random ex_random " some words " "right" "new" 50 51 60 61 70 71
    (mkSeeds None 0 0) _ "some words"
    (match DeriveKeys (mnemonicSeed "some words") with Ok k => k | Err _ => mkDerivedKeys [] [] [] end));
    try apply ex_random_ok; try (vm_compute; reflexivity); [discriminate|].
  left. reflexivity.
Defined.
