(* ===== verification/IdentityStore.v ===== *)
(** * Identity on disk

    Models internal/domains/identity/domain/runtime_state.go and state_store.go and the calls of
    usecase/service.go that change the manager: the contacts, devices and revocations are a JSON
    text inside of the JSON text of the encrypted identity file. Every call of the service
    changes the manager and then writes the file; a failed write leaves the change in memory. The call
    that restores a backup is in Backup.v. *)
From S2P Require Import Prelude SecureStore Identity.
From stdpp Require Import base gmap strings list sets option relations.
From Stdlib Require Import ZArith Lia.
Open Scope string_scope.
Open Scope Z_scope.
Open Scope go_scope.

(** ** runtime_state.go *)

Record persistedDevice := mkPersistedDevice { pdv_Model : Device; pdv_PrivateKey : list Z }.

Record persistedRuntimeState := mkPersistedRuntime {
  prs_Contacts : list Contact;
  prs_Devices : list persistedDevice;
  prs_ActiveDeviceID : string;
  prs_RevokedDevices : gmap string (list string)
}.

Definition snapshotRuntime `{GoRuntime} (m : Manager) : persistedRuntimeState :=
  mkPersistedRuntime (rangeMap (im_contacts m)).*2
    ((fun d => mkPersistedDevice (dp_model d) (dp_priv d)) <$> (rangeMap (im_devices m)).*2)
    (im_activeDeviceID m)
    ((fun set => (rangeMap (gset_to_gmap tt set)).*1) <$> im_revokedDevices m).

Definition restoreContacts (cs : list Contact) : gmap string Contact :=
  fold_left (fun out c => <[ct_ID c := c]> out) cs ∅.

Definition restoreDevices (ds : list persistedDevice) : gmap string devicePrivate :=
  fold_left (fun out d =>
    if (dev_ID (pdv_Model d) == "") || negb (length (pdv_PrivateKey d) =? PrivateKeySize)%nat then out else
    <[dev_ID (pdv_Model d) := mkDevicePrivate (pdv_Model d) (pdv_PrivateKey d)]> out) ds ∅.

Definition restoreRevoked (r : gmap string (list string)) : gmap string (gset string) :=
  omap (fun ids =>
    let set : gset string := list_to_set (filter (fun id => id <> "") ids) in
    if set == ∅ then None else Some set) r.

Definition restoreRuntime `{GoRuntime} (state : persistedRuntimeState) (m : Manager) : Manager :=
  let contacts := restoreContacts (prs_Contacts state) in
  let devices := restoreDevices (prs_Devices state) in
  let revoked := restoreRevoked (prs_RevokedDevices state) in
  let active :=
    match devices !! prs_ActiveDeviceID state with
    | Some _ => prs_ActiveDeviceID state
    | None =>
        match devices !! im_activeDeviceID m with
        | Some _ => im_activeDeviceID m
        | None => match rangeMap devices with (id, _) :: _ => id | [] => "" end
        end
    end in
  mkManager (im_identity m) (im_selfPriv m) contacts devices active revoked (im_seeds m).

(** ** state_store.go *)

(** The two inner texts are byte strings, empty when there is nothing. *)
Record persistedIdentityState := mkPersistedIdentity {
  pid_Version : Z; pid_SigningPrivateKey : list Z; pid_SeedEnvelope : list Z; pid_RuntimeState : list Z
}.

Record IdentityWorld := mkIdentityWorld { iw_manager : Manager; iw_store : EncStore }.

Definition with_iw_manager (w : IdentityWorld) (m : Manager) : IdentityWorld :=
  mkIdentityWorld m (iw_store w).
Definition with_iw_store (w : IdentityWorld) (s : EncStore) : IdentityWorld :=
  mkIdentityWorld (iw_manager w) s.

Section Store.
Context {crypto : IdentityCrypto} {cipher : Cipher} {ecodec : EnvelopeCodec}.
Context {icodec : JsonCodec persistedIdentityState} {rcodec : JsonCodec persistedRuntimeState}
        {scodec : JsonCodec Envelope}.

Definition SnapshotRuntimeStateJSON `{GoRuntime} (m : Manager) : list Z :=
  match marshalJSON (snapshotRuntime m) with Ok raw => raw | Err _ => [] end.

Definition RestoreRuntimeStateJSON `{GoRuntime} (raw : list Z) : M Manager error unit := fun m =>
  if (length raw =? 0)%nat then (m, Ok tt) else
  match unmarshalJSON raw with
  | Err err => (m, Err err)
  | Ok state => (restoreRuntime state m, Ok tt)
  end.

Definition SnapshotSeedEnvelopeJSON (m : Manager) : list Z :=
  match SnapshotEnvelope (im_seeds m) with
  | None => []
  | Some env => match marshalJSON env with Ok raw => raw | Err _ => [] end
  end.

Definition RestoreSeedEnvelopeJSON (raw : list Z) : M Manager error unit := fun m =>
  if (length raw =? 0)%nat then (m, Ok tt) else
  match unmarshalJSON raw with
  | Err err => (m, Err err)
  | Ok env => (with_im_seeds m (RestoreEnvelope (Some env) (im_seeds m)), Ok tt)
  end.

Definition persistedOf `{GoRuntime} (m : Manager) : persistedIdentityState :=
  mkPersistedIdentity 1 (snd (SnapshotIdentityKeys m)) (SnapshotSeedEnvelopeJSON m)
    (SnapshotRuntimeStateJSON m).

Definition IdentityPersist (env : StoreEnv) : M IdentityWorld error unit := fun w =>
  if negb (es_configured (iw_store w)) then (w, Ok tt) else
  let '(s, r) := writeStore env (@persistedOf (env_rt env) (iw_manager w)) (iw_store w) in
  (with_iw_store w s, r).

Definition onManager {A} (c : M Manager error A) : M IdentityWorld error A := fun w =>
  let '(m, r) := c (iw_manager w) in (with_iw_manager w m, r).

Definition IdentityBootstrap (env : StoreEnv) (now : Z) : M IdentityWorld error unit := fun w =>
  if negb (es_configured (iw_store w)) then (w, Ok tt) else
  match readFile (es_disk (iw_store w)) (env_read env) with
  | Err err => if err == fsErrNotExist then IdentityPersist env w else (w, Err err)
  | Ok raw =>
      match (try! plaintext := Decrypt (es_secret (iw_store w)) raw in
             try! state := unmarshalJSON plaintext in
             if negb (pid_Version state =? 1) || (length (pid_SigningPrivateKey state) =? 0)%nat
             then Err (errorsNew "identity persistence payload is invalid") else Ok state) with
      | Err err => (w, Err err)
      | Ok state =>
          onManager
            (RestoreIdentityPrivateKey now (pid_SigningPrivateKey state) ;;!
             RestoreSeedEnvelopeJSON (pid_SeedEnvelope state) ;;!
             @RestoreRuntimeStateJSON (env_rt env) (pid_RuntimeState state)) w
      end
  end.

Definition IdentityWipe (env : StoreEnv) : M IdentityWorld error unit := fun w =>
  let '(s, r) := wipeStore env (TrimSpace (es_path (iw_store w)) == "") (iw_store w) in
  (with_iw_store w s, r).

(** ** usecase/service.go *)

Definition AddContactCard (env : StoreEnv) (now : Z) (card : ContactCard) : M IdentityWorld error unit :=
  onManager (AddContact now card) ;;! IdentityPersist env.

Definition ServiceAddContact (env : StoreEnv) (now : Z) (contactID displayName : string)
    : M IdentityWorld error unit :=
  onManager (AddContactByIdentityID now contactID displayName) ;;! IdentityPersist env.

Definition ServiceRemoveContact (env : StoreEnv) (contactID : string) : M IdentityWorld error unit :=
  onManager (RemoveContact contactID) ;;! IdentityPersist env.

Definition ServiceAddDevice (env : StoreEnv) (now : Z) (name : string) : M IdentityWorld error Device :=
  let! device := onManager (AddDevice now (TrimSpace name)) in
  IdentityPersist env ;;!
  retM device.

Definition ServiceCreateIdentity (env : StoreEnv) (now : Z) (r : Random) (fresh : result error string)
    (seedPassword : string) : M IdentityWorld error (IdentityRecord * string) :=
  let! created := onManager (CreateIdentity now r fresh (TrimSpace seedPassword)) in
  IdentityPersist env ;;!
  retM created.

Definition ServiceImportIdentity (env : StoreEnv) (now : Z) (r : Random) (mnemonic seedPassword : string)
    : M IdentityWorld error IdentityRecord :=
  let! created := onManager (ImportIdentity now r (TrimSpace mnemonic) (TrimSpace seedPassword)) in
  IdentityPersist env ;;!
  retM created.

(** ExportSeed, ChangePassword and Login do not write the file. *)
Definition ServiceExportSeed (now now' : Z) (seedPassword : string) : M IdentityWorld error string :=
  onManager (ExportSeed now now' (TrimSpace seedPassword)).

Definition ServiceChangePassword (now now' : Z) (r : Random) (oldSeedPassword newSeedPassword : string)
    : M IdentityWorld error unit :=
  onManager (ManagerChangePassword now now' r (TrimSpace oldSeedPassword) (TrimSpace newSeedPassword)).

Definition ServiceLogin (now now' : Z) (identityID seedPassword : string) : M IdentityWorld error unit :=
  onManager (Login now now' (TrimSpace identityID) (TrimSpace seedPassword)).

(** ** Restoring what was written *)

Lemma restoreContacts_spec (rt : GoRuntime) (contacts : gmap string Contact) :
  map_Forall (fun k c => ct_ID c = k) contacts -> restoreContacts (rangeMap contacts).*2 = contacts.
Proof.
  intros Hc. unfold restoreContacts. rewrite fold_left_fmap. apply rebuild_map.
  intros k c out Hk. cbn. by rewrite (Hc _ _ Hk).
Qed.

(** What a manager needs for the file to bring it back: the key and the identity go together, contacts and devices are under their
    identifiers, and devices have private keys. *)
Record storable (m : Manager) : Prop := mkStorable {
  sb_key : length (im_selfPriv m) = PrivateKeySize;
  sb_pub : id_SigningPublicKey (im_identity m) = publicKeyOf (im_selfPriv m);
  sb_id : BuildIdentityID (id_SigningPublicKey (im_identity m)) = Ok (id_ID (im_identity m));
  sb_contacts : map_Forall (fun k c => ct_ID c = k) (im_contacts m);
  sb_devices : map_Forall (fun k d => dev_ID (dp_model d) = k /\ k <> "" /\ length (dp_priv d) = PrivateKeySize) (im_devices m);
  sb_active : is_Some (im_devices m !! im_activeDeviceID m)
}.

Lemma ok_storable m : manager_ok m -> storable m.
Proof.
  intros [[H1 _] H2 H3 H4 H5 H6]. split; try done; [intros k c Hc; apply (H4 k c Hc)|]. intros k d Hd.
  destruct (H5 k d Hd) as (Hid & Hk & [Hl _] & _). split_and!; [done|by rewrite Hk|done].
Qed.

Lemma storable_seeds m s : storable m -> storable (with_im_seeds m s).
Proof. intros []. by split. Qed.
Lemma storable_contacts m c : storable m -> map_Forall (fun k x => ct_ID x = k) c -> storable (with_im_contacts m c).
Proof. intros [] Hc. by split. Qed.

Lemma storable_AddContactByID now id name m : storable m -> storable (fst (AddContactByIdentityID now id name m)).
Proof.
  intros Hm. unfold AddContactByIdentityID. destruct (_ || _); [done|]. apply storable_contacts; [done|].
  apply map_Forall_insert_2; [done|apply Hm].
Qed.

Lemma restoreDevices_spec (rt : GoRuntime) (m : Manager) :
  storable m ->
  restoreDevices ((fun d => mkPersistedDevice (dp_model d) (dp_priv d)) <$> (rangeMap (im_devices m)).*2)
  = im_devices m.
Proof.
  intros Hm. unfold restoreDevices. rewrite !fold_left_fmap. apply rebuild_map.
  intros k d out Hk. destruct (sb_devices _ Hm _ _ Hk) as (Hid & Hne & Hlen).
  cbn [snd pdv_Model pdv_PrivateKey]. rewrite Hid, Hlen, Nat.eqb_refl. cbn [negb orb].
  rewrite bool_decide_false by done. by destruct d.
Qed.

(** An empty device identifier is the only revocation that is not restored. *)
Lemma restoreRevoked_spec (rt : GoRuntime) (m : Manager) (m' : Manager) id :
  im_revokedDevices m' = restoreRevoked (prs_RevokedDevices (snapshotRuntime m)) ->
  revokedSet m' id = revokedSet m id ∖ {[""]}.
Proof.
  intros E. unfold revokedSet. rewrite E. unfold restoreRevoked, snapshotRuntime. cbn.
  rewrite lookup_omap, lookup_fmap. destruct (im_revokedDevices m !! id) as [set|]; cbn; [|set_solver].
  set (ids := (rangeMap (gset_to_gmap tt set)).*1).
  assert (Hids : list_to_set (filter (fun id => id <> "") ids) = set ∖ {[""]}).
  { apply leibniz_equiv. intros x. rewrite elem_of_list_to_set, list_elem_of_filter, elem_of_difference.
    assert (Hx : x ∈ ids <-> x ∈ set).
    { subst ids. rewrite rangeMap_perm, list_elem_of_fmap. split.
      - intros ([y []] & -> & Hy%elem_of_map_to_list). apply lookup_gset_to_gmap_Some in Hy as [? _]. done.
      - intros Hs. exists (x, tt). split; [done|]. apply elem_of_map_to_list.
        by apply lookup_gset_to_gmap_Some. }
    rewrite Hx, elem_of_singleton. tauto. }
  rewrite Hids. case_bool_decide; cbn; [by symmetry|done].
Qed.

(** What a restart brings back: everything but the revocation of the empty identifier and the
    count of wrong passwords. *)
Record same_identity (m m' : Manager) : Prop := {
  si_identity : im_identity m' = im_identity m;
  si_key : im_selfPriv m' = im_selfPriv m;
  si_contacts : im_contacts m' = im_contacts m;
  si_devices : im_devices m' = im_devices m;
  si_active : im_activeDeviceID m' = im_activeDeviceID m;
  si_revoked : forall id, revokedSet m' id = revokedSet m id ∖ {[""]};
  si_seed : sm_envelope (im_seeds m') = sm_envelope (im_seeds m);
  si_unlocked : sm_envelope (im_seeds m) <> None -> sm_lockedUntil (im_seeds m') = 0
}.

(** encoding/json on the parts of one manager: nothing is lost, and no text is empty. *)
Record json_faithful_identity (m : Manager) : Prop := {
  jf_state : forall rt, json_reads (@persistedOf rt m) (@persistedOf rt m);
  jf_runtime : forall rt, exists raw, raw <> [] /\ marshalJSON (@snapshotRuntime rt m) = Ok raw
    /\ unmarshalJSON raw = Ok (@snapshotRuntime rt m);
  jf_seed : forall env, sm_envelope (im_seeds m) = Some env ->
    exists raw, raw <> [] /\ marshalJSON env = Ok raw /\ unmarshalJSON raw = Ok env
}.

Section Laws.
Context {laws : IdentityCryptoLaws crypto} {claws : CipherLaws cipher} {elaws : EnvelopeCodecLaws ecodec}.

Lemma length_nonempty {A} (l : list A) : l <> [] -> (length l =? 0)%nat = false.
Proof. by destruct l. Qed.

Lemma storable_install now id priv m :
  length priv = PrivateKeySize -> BuildIdentityID (publicKeyOf priv) = Ok id ->
  storable (fst (installIdentity now id (publicKeyOf priv) priv m)).
Proof.
  intros Hl Hid. unfold installIdentity, bindM, initPrimaryDevice. cbn [im_selfPriv with_im_revoked with_im_contacts with_im_identity].
  rewrite Hl. cbn [PrivateKeySize Nat.ltb Nat.leb fst]. split; try done.
  - apply map_Forall_singleton. split; [done|]. split; [done|]. apply keyFromSeed_length. by rewrite length_take, Hl.
  - cbn. by rewrite lookup_insert_eq.
Qed.

Lemma storable_restored_key now k m m1 : RestoreIdentityPrivateKey now k m = (m1, Ok tt) -> storable m1.
Proof.
  unfold RestoreIdentityPrivateKey. destruct (Nat.eqb_spec (length k) PrivateKeySize) as [Hl|]; [|done]. cbn [negb].
  destruct (BuildIdentityID (publicKeyOf k)) as [id|] eqn:Hid; [|done]. pose proof (storable_install now id k m Hl Hid) as Hs.
  unfold bindM, retM. destruct (installIdentity _ _ _ _ m) as [m2 [r|]]; [|done]. by intros [= <-].
Qed.

Lemma storable_AddDevice now name m : storable m -> storable (fst (AddDevice now name m)).
Proof.
  intros Hm. unfold AddDevice. destruct (deriveDeviceSeed _ _) as [seed|] eqn:E; [|done].
  destruct Hm as [H1 H2 H3 H4 H5 [d Hd]]. split; try done; cbn [fst im_devices with_im_devices im_activeDeviceID].
  - apply map_Forall_insert_2; [|done]. split; [done|]. split; [done|]. by apply keyFromSeed_length, (hkdf32_length _ _ _ E).
  - cbn. destruct (decide (deviceIDFromPub (publicKeyOf (keyFromSeed seed)) = im_activeDeviceID m)) as [->|Hne].
    + by rewrite lookup_insert_eq.
    + rewrite lookup_insert_ne by done. eauto.
Qed.

Lemma restore_key now m m0 :
  storable m -> exists m1, RestoreIdentityPrivateKey now (im_selfPriv m) m0 = (m1, Ok tt)
    /\ im_identity m1 = im_identity m /\ im_selfPriv m1 = im_selfPriv m /\ im_seeds m1 = im_seeds m0.
Proof.
  intros Hm. pose proof (sb_key _ Hm) as Hlen. unfold RestoreIdentityPrivateKey.
  rewrite Hlen, Nat.eqb_refl. cbn [negb]. rewrite <- (sb_pub _ Hm), (sb_id _ Hm).
  unfold installIdentity, bindM, initPrimaryDevice. cbn [im_selfPriv with_im_revoked with_im_contacts with_im_identity].
  rewrite Hlen. cbn. eexists. split; [reflexivity|]. cbn. split; [by destruct (im_identity m)|done].
Qed.

Lemma restore_seed m m0 :
  json_faithful_identity m -> sm_envelope (im_seeds m0) = None ->
  exists m1, RestoreSeedEnvelopeJSON (SnapshotSeedEnvelopeJSON m) m0 = (m1, Ok tt)
    /\ im_identity m1 = im_identity m0 /\ im_selfPriv m1 = im_selfPriv m0
    /\ sm_envelope (im_seeds m1) = sm_envelope (im_seeds m)
    /\ (sm_envelope (im_seeds m) <> None -> sm_lockedUntil (im_seeds m1) = 0).
Proof.
  intros Hj H0. unfold SnapshotSeedEnvelopeJSON, SnapshotEnvelope, RestoreSeedEnvelopeJSON.
  destruct (sm_envelope (im_seeds m)) as [env|] eqn:E.
  - destruct (jf_seed _ Hj env E) as (raw & Hne & Hmar & Hun). rewrite Hmar, (length_nonempty _ Hne), Hun.
    eexists. by split; [reflexivity|].
  - cbn. exists m0. by rewrite H0.
Qed.

Lemma restore_runtime (rt rt' : GoRuntime) m m0 :
  storable m -> json_faithful_identity m -> im_identity m0 = im_identity m ->
  im_selfPriv m0 = im_selfPriv m -> sm_envelope (im_seeds m0) = sm_envelope (im_seeds m) ->
  (sm_envelope (im_seeds m) <> None -> sm_lockedUntil (im_seeds m0) = 0) ->
  exists m1, @RestoreRuntimeStateJSON rt' (@SnapshotRuntimeStateJSON rt m) m0 = (m1, Ok tt)
    /\ same_identity m m1.
Proof.
  intros Hm Hj Hi Hk Hs Hl. destruct (jf_runtime _ Hj rt) as (raw & Hne & Hmar & Hun).
  unfold SnapshotRuntimeStateJSON, RestoreRuntimeStateJSON. rewrite Hmar, (length_nonempty _ Hne), Hun.
  eexists. split; [reflexivity|].
  assert (Hd := restoreDevices_spec rt m Hm).
  unfold restoreRuntime, snapshotRuntime.
  cbn [prs_Contacts prs_Devices prs_ActiveDeviceID prs_RevokedDevices]. rewrite Hd.
  constructor; try done.
  - apply restoreContacts_spec, Hm.
  - cbn [im_activeDeviceID]. by destruct (sb_active _ Hm) as [d ->].
  - intros id. by apply (restoreRevoked_spec rt).
Qed.

Lemma bootstrap_restores (rt : GoRuntime) env now m w :
  env_ok env -> storable m -> json_faithful_identity m -> es_configured (iw_store w) = true ->
  store_holds (iw_store w) (@persistedOf rt m) -> sm_envelope (im_seeds (iw_manager w)) = None ->
  exists w', IdentityBootstrap env now w = (w', Ok tt) /\ same_identity m (iw_manager w').
Proof.
  intros He Hm Hj Hc Hh H0. pose proof He as (_ & Hrd & _).
  destruct (store_holds_reads _ _ _ Hh (jf_state _ Hj rt)) as (bs & Hr & Hu).
  unfold ReadDecryptedFile in Hr. destruct (readFile (es_disk (iw_store w)) None) as [raw|] eqn:Er; [|done].
  cbn [bindR] in Hr. unfold IdentityBootstrap. rewrite Hc, Hrd, Er, Hr. cbn [negb bindR].
  rewrite Hu. cbn [bindR]. unfold persistedOf at 1 2. cbn [pid_Version pid_SigningPrivateKey SnapshotIdentityKeys snd].
  pose proof (sb_key _ Hm) as Hlen. rewrite Hlen. cbn [PrivateKeySize Nat.eqb orb negb Z.eqb Pos.eqb].
  unfold onManager. cbn [persistedOf pid_SigningPrivateKey pid_SeedEnvelope pid_RuntimeState SnapshotIdentityKeys snd].
  unfold bindM. destruct (restore_key now m (iw_manager w) Hm) as (m1 & -> & Hi1 & Hk1 & Hs1).
  destruct (restore_seed m m1 Hj ltac:(by rewrite Hs1)) as (m2 & -> & Hi2 & Hk2 & Hs2 & Hl2).
  destruct (restore_runtime rt (env_rt env) m m2 Hm Hj) as (m3 & -> & Hsame);
    [by rewrite Hi2|by rewrite Hk2|done|done|].
  eexists. split; [reflexivity|]. done.
Qed.

(** The calls that write the file, but for the restoring of a backup (Backup.v). *)
Inductive SvcCall :=
| SAddContactCard (now : Z) (card : ContactCard)
| SAddContact (now : Z) (contactID displayName : string)
| SRemoveContact (contactID : string)
| SAddDevice (now : Z) (name : string)
| SCreateIdentity (now : Z) (r : Random) (fresh : result error string) (password : string)
| SImportIdentity (now : Z) (r : Random) (mnemonic password : string).

Definition run_svc (env : StoreEnv) (c : SvcCall) : M IdentityWorld error unit :=
  match c with
  | SAddContactCard now card => AddContactCard env now card
  | SAddContact now id name => ServiceAddContact env now id name
  | SRemoveContact id => ServiceRemoveContact env id
  | SAddDevice now name => ServiceAddDevice env now name ;;! retM tt
  | SCreateIdentity now r fresh pw => ServiceCreateIdentity env now r fresh pw ;;! retM tt
  | SImportIdentity now r mn pw => ServiceImportIdentity env now r mn pw ;;! retM tt
  end.

(** The call of the manager that is persisted. *)
Definition manager_call (c : SvcCall) : IdCall :=
  match c with
  | SAddContactCard now card => IAddContact now card
  | SAddContact now id name => IAddContactByID now id name
  | SRemoveContact id => IRemoveContact id
  | SAddDevice now name => IAddDevice now (TrimSpace name)
  | SCreateIdentity now r fresh pw => ICreate now r fresh (TrimSpace pw)
  | SImportIdentity now r mn pw => IImport now r (TrimSpace mn) (TrimSpace pw)
  end.

Lemma onManager_persists {A B} (c : M Manager error A) (k : A -> B) env w w' b :
  bindM (onManager c) (fun a => bindM (IdentityPersist env) (fun _ => retM (k a))) w = (w', Ok b) ->
  IdentityPersist env (with_iw_manager w (fst (c (iw_manager w)))) = (w', Ok tt).
Proof.
  unfold onManager, bindM, retM. destruct (c (iw_manager w)) as [m [a|]]; [|done]. cbn [fst].
  destruct (IdentityPersist _ _) as [w1 [[]|]]; [|done]. by intros [= <- _].
Qed.

Lemma svc_persists env c w w' :
  run_svc env c w = (w', Ok tt) ->
  IdentityPersist env (with_iw_manager w (run_id (iw_manager w) (manager_call c))) = (w', Ok tt).
Proof.
  assert (Hdrop : forall A (m : M IdentityWorld error A) b,
    (m ;;! retM tt) w = (w', Ok b) -> exists a, m w = (w', Ok a)).
  { intros A m b. unfold bindM, retM. destruct (m w) as [w1 [a|]]; [|done]. intros [= <- _]. eauto. }
  assert (Hunit : forall A (c : M Manager error A), (onManager c ;;! IdentityPersist env) w = (w', Ok tt) ->
    IdentityPersist env (with_iw_manager w (fst (c (iw_manager w)))) = (w', Ok tt)).
  { intros A m. unfold onManager, bindM. by destruct (m (iw_manager w)) as [? [?|]]. }
  destruct c; cbn [run_svc manager_call run_id]; try apply Hunit; intros [a H]%Hdrop.
  - by eapply (onManager_persists (AddDevice now (TrimSpace name)) (fun d => d)).
  - by eapply (onManager_persists (CreateIdentity now r fresh (TrimSpace password)) (fun d => d)).
  - by eapply (onManager_persists (ImportIdentity now r (TrimSpace mnemonic) (TrimSpace password)) (fun d => d)).
Qed.

Lemma IdentityPersist_holds env w w' :
  env_ok env -> es_configured (iw_store w) = true -> IdentityPersist env w = (w', Ok tt) ->
  iw_manager w' = iw_manager w /\ es_configured (iw_store w') = true
  /\ store_holds (iw_store w') (@persistedOf (env_rt env) (iw_manager w)).
Proof.
  intros He Hc. unfold IdentityPersist. rewrite Hc. cbn [negb].
  destruct (writeStore_holds env (@persistedOf (env_rt env) (iw_manager w)) (iw_store w) He)
    as [(e & _ & ->)|(d & -> & Hh)]; [done|]. by intros [= <-].
Qed.

(** The calls that are persisted leave what the file can bring back. *)
Lemma svc_storable c m : storable m -> storable (run_id m (manager_call c)).
Proof.
  intros Hm. destruct (created_or_imported storable m storable_seeds ok_storable Hm) as [Hcreate Himport].
  destruct c; cbn [manager_call run_id]; [| | | |apply Hcreate|apply Himport].
  - unfold AddContact. destruct (VerifyContactCard card) as [[]|]; try done.
    destruct (match _ with Some _ => _ | None => _ end); [done|]. apply storable_contacts; [done|].
    apply map_Forall_insert_2; [done|apply Hm].
  - by apply storable_AddContactByID.
  - unfold RemoveContact. case_bool_decide; [done|]. destruct (im_contacts m !! _); [|done].
    apply storable_contacts; [done|]. apply map_Forall_delete, Hm.
  - by apply storable_AddDevice.
Qed.

(** A file that was just written brings the manager back. *)
Lemma persisted_survives_restart (env env' : StoreEnv) (now now' : Z) (w w1 : IdentityWorld) (seed : list Z) (m0 : Manager) :
  env_ok env -> env_ok env' -> es_configured (iw_store w) = true -> storable (iw_manager w) ->
  IdentityPersist env w = (w1, Ok tt) -> json_faithful_identity (iw_manager w1) -> NewManager now (Ok seed) = Ok m0 ->
  exists w2, IdentityBootstrap env' now' (mkIdentityWorld m0 (iw_store w1)) = (w2, Ok tt)
    /\ same_identity (iw_manager w1) (iw_manager w2).
Proof.
  intros He He' Hc Hm Hrun Hj Hnew. apply IdentityPersist_holds in Hrun as (Hmgr & Hc1 & Hh); [|done|done].
  rewrite <- Hmgr in Hh, Hm. apply (bootstrap_restores (env_rt env)); try done.
  unfold NewManager in Hnew. cbn [bindR] in Hnew. destruct (BuildIdentityID _); cbn [bindR] in Hnew; [|done].
  unfold initPrimaryDevice in Hnew. cbn [im_selfPriv] in Hnew.
  destruct (_ <? 32)%nat; [done|]. by injection Hnew as <-.
Qed.

(** A changed password is forgotten at a restart. Changing the seed password succeeds, but does
    not write the file: a process started on the file as it was written before takes the old
    password and gives the mnemonic for it. *)
Theorem changed_password_is_forgotten (env : StoreEnv) (now t1 t2 t3 t4 : Z) (r : Random)
    (w w1 : IdentityWorld) (m0 : Manager) (oldPassword newPassword mnemonic : string) :
  env_ok env -> es_configured (iw_store w) = true -> manager_ok (iw_manager w) ->
  json_faithful_identity (iw_manager w) -> sm_envelope (im_seeds m0) = None ->
  store_holds (iw_store w) (@persistedOf (env_rt env) (iw_manager w)) ->
  snd (ServiceExportSeed t1 t2 oldPassword w) = Ok mnemonic ->
  ServiceChangePassword t1 t2 r oldPassword newPassword w = (w1, Ok tt) ->
  exists w2, IdentityBootstrap env now (mkIdentityWorld m0 (iw_store w1)) = (w2, Ok tt)
    /\ snd (ServiceExportSeed t3 t4 oldPassword w2) = Ok mnemonic.
Proof.
  intros He Hc Hm Hj H0 Hh Hexp Hchg.
  assert (Hst : iw_store w1 = iw_store w).
  { unfold ServiceChangePassword, onManager in Hchg. destruct (ManagerChangePassword _ _ _ _ _ _).
    by injection Hchg as <- _. }
  rewrite Hst. set (w0 := mkIdentityWorld m0 (iw_store w)).
  destruct (bootstrap_restores (env_rt env) env now (iw_manager w) w0) as (w2 & Hb & Hsame); try done; [by apply ok_storable|].
  exists w2. split; [done|]. pose proof (si_seed _ _ Hsame) as Henv.
  revert Hexp. unfold ServiceExportSeed, onManager, ExportSeed, onSeeds, Export, exportBegin.
  case_bool_decide; [done|]. destruct (ensureUnlocked _ _); [done|].
  destruct (sm_envelope (im_seeds (iw_manager w))) as [e|] eqn:Ee; [|done].
  unfold ensureUnlocked. rewrite Henv, (si_unlocked _ _ Hsame) by congruence. cbn [IsZero Z.eqb].
  unfold exportEnd. destruct (DecryptSeed _ _); [|done]. cbn. intros ->. done.
Qed.
End Laws.
End Store.

(** ** Codecs to compute with, and witnesses *)

#[export] Instance Contact_eq_dec : EqDecision Contact.
Proof. solve_decision. Defined.
#[export] Instance Device_eq_dec : EqDecision Device.
Proof. solve_decision. Defined.

#[export] Instance Contact_countable : Countable Contact.
Proof.
  apply (inj_countable'
    (fun c => (ct_ID c, ct_DisplayName c, (ct_PublicKey c, (ct_AddedAt c, ct_LastSeen c))))
    (fun '(a, b, (c, (d, e))) => mkContact a b c d e)).
  by intros [].
Defined.

#[export] Instance Device_countable : Countable Device.
Proof.
  apply (inj_countable'
    (fun d => ((dev_ID d, dev_Name d), (dev_PublicKey d, dev_CertSig d),
               (dev_CreatedAt d, (dev_IsRevoked d, dev_RevokedAt d))))
    (fun '((a, b), (c, d), (e, (f, g))) => mkDevice a b c d e f g)).
  by intros [].
Defined.

#[export] Instance exRuntimeCodec : JsonCodec persistedRuntimeState := {
  marshalJSON r := Ok [zenc (prs_Contacts r);
    zenc ((fun d => (pdv_Model d, pdv_PrivateKey d)) <$> prs_Devices r); zenc (prs_ActiveDeviceID r);
    zenc (prs_RevokedDevices r)];
  unmarshalJSON bs :=
    match bs with
    | [c; d; a; r] =>
        match zdec c, zdec d, zdec a, zdec r with
        | Some c, Some d, Some a, Some r =>
            Ok (mkPersistedRuntime c ((fun '(m, k) => mkPersistedDevice m k) <$> d) a r)
        | _, _, _, _ => Err (errorsNew "json")
        end
    | _ => Err (errorsNew "json")
    end
}.

#[export] Instance exSeedCodec : JsonCodec Envelope := {
  marshalJSON e := Ok [zenc e];
  unmarshalJSON bs :=
    match bs with
    | [z] => match zdec z with Some e => Ok e | None => Err (errorsNew "json") end
    | _ => Err (errorsNew "json")
    end
}.

#[export] Instance exIdentityCodec : JsonCodec persistedIdentityState := {
  marshalJSON s :=
    Ok (pid_Version s :: Z.of_nat (length (pid_SigningPrivateKey s)) :: Z.of_nat (length (pid_SeedEnvelope s))
          :: pid_SigningPrivateKey s ++ pid_SeedEnvelope s ++ pid_RuntimeState s)%list;
  unmarshalJSON bs :=
    match bs with
    | v :: n1 :: n2 :: l =>
        let n1 := Z.to_nat n1 in let n2 := Z.to_nat n2 in
        Ok (mkPersistedIdentity v (take n1 l) (take n2 (drop n1 l)) (drop n2 (drop n1 l)))
    | _ => Err (errorsNew "json")
    end
}.

Lemma ex_identity_json_faithful (m : Manager) : json_faithful_identity m.
Proof.
  constructor.
  - intros rt. eexists. split; [reflexivity|]. cbn [unmarshalJSON exIdentityCodec]. rewrite !Nat2Z.id.
    rewrite take_app_length, drop_app_length, take_app_length, drop_app_length.
    by destruct (@persistedOf exRuntimeCodec exSeedCodec rt m).
  - intros rt. eexists. split; [|split; [reflexivity|]]; [done|].
    cbn [unmarshalJSON exRuntimeCodec]. rewrite !zdec_zenc. rewrite <- list_fmap_compose.
    destruct (snapshotRuntime m) as [c d a r]. cbn [prs_Contacts prs_Devices prs_ActiveDeviceID prs_RevokedDevices].
    do 2 f_equal. rewrite <- (list_fmap_id d) at 2. apply list_fmap_ext. by intros _ [] _.
  - intros e _. eexists. split; [|split; [reflexivity|]]; [done|].
    cbn [unmarshalJSON exSeedCodec]. by rewrite zdec_zenc.
Qed.

Definition ex_idworld : IdentityWorld := mkIdentityWorld ex_bob (mkEncStore "id" "secret" None).

Lemma ex_stored_bob_ok : manager_ok ex_bob.
Proof.
  destruct (NewManager_ok 5 (replicate 32 2) eq_refl) as (m & E & Hm).
  assert (Hb : NewManager 5 (Ok (replicate 32 2)) = Ok ex_bob) by (vm_compute; reflexivity).
  rewrite Hb in E. by injection E as <-.
Qed.

(** A created identity, written to its file. *)
Definition ex_idworld2 : IdentityWorld :=
  fst (run_svc ex_env (SImportIdentity 9 ex_random "some words" "old") ex_idworld).

Lemma changed_password_is_forgotten_witness :
  exists w1 w2, ServiceChangePassword 20 21 ex_random "old" "new" ex_idworld2 = (w1, Ok tt)
    /\ IdentityBootstrap ex_env 30 (mkIdentityWorld ex_alice (iw_store w1)) = (w2, Ok tt)
    /\ snd (ServiceExportSeed 40 41 "old" w2) = Ok "some words".
Proof.
  set (w1 := fst (ServiceChangePassword 20 21 ex_random "old" "new" ex_idworld2)).
  assert (Hc : ServiceChangePassword 20 21 ex_random "old" "new" ex_idworld2 = (w1, Ok tt))
    by (apply run_eta; vm_compute; reflexivity).
  assert (Hrun : run_svc ex_env (SImportIdentity 9 ex_random "some words" "old") ex_idworld = (ex_idworld2, Ok tt))
    by (apply run_eta; vm_compute; reflexivity).
  apply svc_persists in Hrun. apply IdentityPersist_holds in Hrun as (Hm & Hconf & Hh);
    [|apply ex_env_ok|reflexivity].
  destruct (changed_password_is_forgotten ex_env 30 20 21 40 41 ex_random ex_idworld2 w1 ex_alice
    "old" "new" "some words") as (w2 & Hb & He).
  - apply ex_env_ok.
  - exact Hconf.
  - rewrite Hm. apply run_id_ok, ex_stored_bob_ok.
  - apply ex_identity_json_faithful.
  - vm_compute. reflexivity.
  - rewrite Hm. exact Hh.
  - vm_compute. reflexivity.
  - exact Hc.
  - exists w1, w2. split; [exact Hc|]. split; [exact Hb|exact He].
Defined.
