(* ===== verification/NodeBinding.v ===== *)
(** * Binding an account to a node

    Models internal/composition/daemonservice/node_binding.go and node_binding_store.go: link codes
    that a node answers with a signature, and the file of bindings. The local identity is the
    [Manager] of the identity domain. A call reads the clock where the code does: these readings,
    random bytes and outcomes of the file system are arguments. A change of the account reads the file of
    another profile into the store ([bindingReload], of state_bootstrap.go) and clears the links. *)
From S2P Require Import Prelude Encoding SecureStore Identity.
From stdpp Require Import base gmap strings list sets option.
From Stdlib Require Import ZArith Lia.
Open Scope string_scope.
Open Scope Z_scope.
Open Scope go_scope.

(** ** Data *)

Record NodeBindingRecord := mkBinding {
  nbr_IdentityID : string; nbr_NodeID : string; nbr_NodePublicKey : string;
  nbr_AccountSignature : string; nbr_NodeSignature : string; nbr_BoundAt : Z; nbr_UpdatedAt : Z
}.

Record NodeBindingLinkCode := mkLinkCode {
  lc_LinkCode : string; lc_Challenge : string; lc_ExpiresAt : Z; lc_IdentityID : string
}.

Record pendingNodeBindingLink := mkPendingLink {
  pl_IdentityID : string; pl_Code : string; pl_Challenge : string; pl_ExpiresAt : Z
}.

Record persistedNodeBindings := mkPersistedBindings {
  pnb_Version : Z; pnb_Bindings : gmap string NodeBindingRecord
}.

Record nodeBindingStore := mkBindingStore {
  nb_file : EncStore; nb_bindings : gmap string NodeBindingRecord
}.

(** The fields of the daemon's Service that binding goes through. *)
Record BindingService := mkBindingService {
  bs_identityManager : Manager; bs_bindingStore : nodeBindingStore;
  bs_bindingLinks : gmap string pendingNodeBindingLink
}.

Definition with_bindings (s : nodeBindingStore) (b : gmap string NodeBindingRecord) : nodeBindingStore :=
  mkBindingStore (nb_file s) b.
Definition with_binding_file (s : nodeBindingStore) (f : EncStore) : nodeBindingStore :=
  mkBindingStore f (nb_bindings s).
Definition with_bs_store (s : BindingService) (b : nodeBindingStore) : BindingService :=
  mkBindingService (bs_identityManager s) b (bs_bindingLinks s).
Definition with_bs_links (s : BindingService) (l : gmap string pendingNodeBindingLink) : BindingService :=
  mkBindingService (bs_identityManager s) (bs_bindingStore s) l.

(** ** The store *)

Section Store.
Context {cipher : Cipher} {ecodec : EnvelopeCodec} {bcodec : JsonCodec persistedNodeBindings}.

Definition newNodeBindingStore : nodeBindingStore := mkBindingStore (mkEncStore "" "" None) ∅.

Definition bindingConfigure (path secret : string) (s : nodeBindingStore) : nodeBindingStore :=
  with_binding_file s (ConfigureStore path secret (nb_file s)).

Definition bindingPersistLocked (env : StoreEnv) : M nodeBindingStore error unit := fun s =>
  if negb (es_configured (nb_file s)) then (s, Ok tt) else
  let '(f, r) := writeStore env (mkPersistedBindings 1 (nb_bindings s)) (nb_file s) in
  (with_binding_file s f, r).

Definition bindingBootstrap (env : StoreEnv) : M nodeBindingStore error unit := fun s =>
  if negb (es_configured (nb_file s)) then (with_bindings s ∅, Ok tt) else
  match ReadDecryptedFile (es_disk (nb_file s)) (env_read env) (es_secret (nb_file s)) with
  | Err err =>
      if err == fsErrNotExist then bindingPersistLocked env (with_bindings s ∅) else (s, Err err)
  | Ok plaintext =>
      match unmarshalJSON plaintext with
      | Err err => (s, Err err)
      | Ok payload =>
          if negb (pnb_Version payload =? 1)
          then (s, Err (errorsNew "node binding persistence payload is invalid"))
          else (with_bindings s (pnb_Bindings payload), Ok tt)
      end
  end.

Definition bindingGet (identityID : string) (s : nodeBindingStore) : option NodeBindingRecord :=
  nb_bindings s !! TrimSpace identityID.

Definition bindingUpsert (env : StoreEnv) (record : NodeBindingRecord) : M nodeBindingStore error unit :=
  rejectM (TrimSpace (nbr_IdentityID record) == "") (errorsNew "identity id is required") ;;!
  rejectM (TrimSpace (nbr_NodeID record) == "") (errorsNew "node id is required") ;;!
  modifyM (fun s => with_bindings s (<[nbr_IdentityID record := record]> (nb_bindings s))) ;;!
  bindingPersistLocked env.

Definition bindingDelete (env : StoreEnv) (identityID : string) : M nodeBindingStore error unit :=
  let identityID := TrimSpace identityID in
  rejectM (identityID == "") (errorsNew "identity id is required") ;;!
  modifyM (fun s => with_bindings s (delete identityID (nb_bindings s))) ;;!
  bindingPersistLocked env.

Definition bindingWipe (env : StoreEnv) : M nodeBindingStore error unit := fun s =>
  let s := with_bindings s ∅ in
  let '(f, r) := wipeStore env (es_path (nb_file s) == "") (nb_file s) in
  (with_binding_file s f, r).

(** ** The calls *)

Context {crypto : IdentityCrypto}.

Definition defaultNodeBindingLinkTTL : Z := 90 * Second.
Definition maxNodeBindingLinkTTL : Z := 10 * Minute.

(** [rand.Read] of a buffer gives its bytes. *)
Definition randomBase64URL (buf : result error (list Z)) : result error string :=
  try! buf := buf in Ok (RawURLEncodeToString buf).

Definition linkTTL (ttlSeconds : Z) : Z :=
  let ttl := if 0 <? ttlSeconds then s64 (ttlSeconds * Second) else defaultNodeBindingLinkTTL in
  if maxNodeBindingLinkTTL <? ttl then maxNodeBindingLinkTTL else ttl.

Definition localIdentity (s : BindingService) : string :=
  TrimSpace (id_ID (im_identity (bs_identityManager s))).

Definition CreateNodeBindingLinkCode (bufCode bufChallenge : result error (list Z)) (now ttlSeconds : Z)
    : M BindingService error NodeBindingLinkCode := fun s =>
  let identityID := localIdentity s in
  if identityID == "" then (s, Err (errorsNew "identity is not initialized")) else
  match randomBase64URL bufCode with
  | Err err => (s, Err err)
  | Ok code =>
      match randomBase64URL bufChallenge with
      | Err err => (s, Err err)
      | Ok challenge =>
          let expiresAt := now + linkTTL ttlSeconds in
          (with_bs_links s (<[code := mkPendingLink identityID code challenge expiresAt]>
                              (bs_bindingLinks s)),
           Ok (mkLinkCode code challenge expiresAt identityID))
      end
  end.

(** The code is gone also when it has expired. *)
Definition consumeValidBindingLink (now : Z) (code : string) (s : BindingService)
    : BindingService * option pendingNodeBindingLink :=
  match bs_bindingLinks s !! code with
  | None => (s, None)
  | Some link =>
      let s := with_bs_links s (delete code (bs_bindingLinks s)) in
      if Before (pl_ExpiresAt link) now then (s, None) else (s, Some link)
  end.

Definition nodeBindingChallengeBytes (identityID linkCode nodeID challenge : string) : list Z :=
  string_bytes ("aim-bind-v1|challenge|" +:+ identityID +:+ "|" +:+ linkCode +:+ "|" +:+ nodeID
                +:+ "|" +:+ challenge).

Definition nodeBindingAccountBytes (identityID nodeID challenge : string) (ts : Z) : list Z :=
  string_bytes ("aim-bind-v1|account|" +:+ identityID +:+ "|" +:+ nodeID +:+ "|" +:+ challenge
                +:+ "|" +:+ FormatRFC3339Nano ts).

(** The key and the signature of the node for a link that was just consumed. *)
Definition checkNodeProof (pending : pendingNodeBindingLink) (nodeID key sig : string)
    : result error (list Z * list Z) :=
  match DecodeString (TrimSpace key) with
  | None => Err (errorsNew "node public key is invalid")
  | Some nodePub =>
      if negb (length nodePub =? PublicKeySize)%nat then Err (errorsNew "node public key is invalid") else
      match DecodeString (TrimSpace sig) with
      | None => Err (errorsNew "node signature is invalid")
      | Some nodeSig =>
          if negb (length nodeSig =? SignatureSize)%nat then Err (errorsNew "node signature is invalid") else
          if negb (edVerify nodePub (nodeBindingChallengeBytes (pl_IdentityID pending) (pl_Code pending)
                                       nodeID (pl_Challenge pending)) nodeSig)
          then Err (errorsNew "node signature verification failed") else Ok (nodePub, nodeSig)
      end
  end.

(** The record for a node that has proved its key. *)
Definition bindingRecord (pending : pendingNodeBindingLink) (nodeID : string) (nodePub nodeSig priv : list Z)
    (existing : option NodeBindingRecord) (now : Z) : NodeBindingRecord :=
  mkBinding (pl_IdentityID pending) nodeID (EncodeToString nodePub)
    (EncodeToString (edSign priv (nodeBindingAccountBytes (pl_IdentityID pending) nodeID
                                    (pl_Challenge pending) now)))
    (EncodeToString nodeSig)
    (match existing with
     | Some e => if IsZero (nbr_BoundAt e) then now else nbr_BoundAt e
     | None => now
     end) now.

Definition CompleteNodeBinding (env : StoreEnv) (now now' : Z)
    (linkCode nodeID nodePublicKeyBase64 nodeSignatureBase64 : string) (allowRebind : bool)
    : M BindingService error NodeBindingRecord := fun s =>
  let linkCode := TrimSpace linkCode in
  let nodeID := TrimSpace nodeID in
  if (linkCode == "") || (nodeID == "") then (s, Err (errorsNew "link code and node id are required")) else
  match consumeValidBindingLink now linkCode s with
  | (s, None) => (s, Err (errorsNew "link code is invalid or expired"))
  | (s, Some pending) =>
      match checkNodeProof pending nodeID nodePublicKeyBase64 nodeSignatureBase64 with
      | Err err => (s, Err err)
      | Ok (nodePub, nodeSig) =>
          let existing := bindingGet (pl_IdentityID pending) (bs_bindingStore s) in
          let other := match existing with
                       | Some e => negb (TrimSpace (nbr_NodeID e) == nodeID)
                       | None => false
                       end in
          if other && negb allowRebind
          then (s, Err (errorsNew "node binding already exists; explicit rebind confirmation is required")) else
          let '(_, priv) := SnapshotIdentityKeys (bs_identityManager s) in
          if negb (length priv =? PrivateKeySize)%nat
          then (s, Err (errorsNew "identity private key is unavailable")) else
          let record := bindingRecord pending nodeID nodePub nodeSig priv existing now' in
          let '(b, r) := bindingUpsert env record (bs_bindingStore s) in
          (with_bs_store s b, match r with Err err => Err err | Ok _ => Ok record end)
      end
  end.

Definition GetNodeBinding (s : BindingService) : result error (option NodeBindingRecord) :=
  let identityID := localIdentity s in
  if identityID == "" then Err (errorsNew "identity is not initialized") else
  Ok (bindingGet identityID (bs_bindingStore s)).

Definition UnbindNode (env : StoreEnv) (nodeID : string) (confirm : bool) : M BindingService error bool :=
  fun s =>
  if negb confirm then (s, Err (errorsNew "unbind confirmation is required")) else
  let identityID := localIdentity s in
  if identityID == "" then (s, Err (errorsNew "identity is not initialized")) else
  match bindingGet identityID (bs_bindingStore s) with
  | None => (s, Ok false)
  | Some record =>
      if negb (TrimSpace nodeID == "") && negb (TrimSpace (nbr_NodeID record) == TrimSpace nodeID)
      then (s, Err (errorsNew "node id does not match current binding")) else
      let '(b, r) := bindingDelete env identityID (bs_bindingStore s) in
      (with_bs_store s b, match r with Err err => Err err | Ok _ => Ok true end)
  end.

(** ** Runs *)

(** Another profile's file, at [path] with the content [disk], as [bootstrapStateStores] opens it when the account changes; its error
    is only logged. *)
Definition bindingReload (env : StoreEnv) (path secret : string) (disk : option (list Z)) (s : nodeBindingStore) : nodeBindingStore :=
  fst (bindingBootstrap env (bindingConfigure path secret (with_binding_file s (with_es_disk (nb_file s) disk)))).

(** What happens to the service after it was started. [BIdentity] is any change of the identity. A change of the account is
    [BIdentity], [BReload] and [BClearLinks] (reloadFromBundle), of which a failure leaves out the last ones; other calls may come
    between. A wipe of the content is [BWipe] and [BClearLinks]. *)
Inductive BindCall :=
| BIdentity (m : Manager)
| BCreate (bufCode bufChallenge : result error (list Z)) (now ttlSeconds : Z)
| BComplete (env : StoreEnv) (now now' : Z) (code node key sig : string) (allow : bool)
| BUnbind (env : StoreEnv) (node : string) (confirm : bool)
| BWipe (env : StoreEnv)
| BReload (env : StoreEnv) (path secret : string) (disk : option (list Z))
| BClearLinks.

Definition run_bind (s : BindingService) (c : BindCall) : BindingService :=
  match c with
  | BIdentity m => mkBindingService m (bs_bindingStore s) (bs_bindingLinks s)
  | BCreate b1 b2 now ttl => fst (CreateNodeBindingLinkCode b1 b2 now ttl s)
  | BComplete env now now' code node key sig allow =>
      fst (CompleteNodeBinding env now now' code node key sig allow s)
  | BUnbind env node confirm => fst (UnbindNode env node confirm s)
  | BWipe env => with_bs_store s (fst (bindingWipe env (bs_bindingStore s)))
  | BReload env path secret disk => with_bs_store s (bindingReload env path secret disk (bs_bindingStore s))
  | BClearLinks => with_bs_links s ∅
  end.

Definition bound (s : BindingService) : gmap string NodeBindingRecord := nb_bindings (bs_bindingStore s).

(** The call answers the link code [code]. *)
Definition answers (code : string) (c : BindCall) : Prop :=
  match c with
  | BComplete _ _ _ code' node _ _ _ => TrimSpace code' = code /\ code <> "" /\ TrimSpace node <> ""
  | _ => False
  end.

(** After the call no link has the code [code]. *)
Definition ends (code : string) (c : BindCall) : Prop := answers code c \/ c = BClearLinks.

(** The link [l] was made in the run; it has not been answered since, and the links were not cleared. *)
Definition issued (s0 : BindingService) (calls : list BindCall) (l : pendingNodeBindingLink) : Prop :=
  exists before b1 b2 t ttl between,
    calls = (before ++ BCreate b1 b2 t ttl :: between)%list
    /\ randomBase64URL b1 = Ok (pl_Code l) /\ randomBase64URL b2 = Ok (pl_Challenge l)
    /\ pl_IdentityID l = localIdentity (fold_left run_bind before s0)
    /\ pl_ExpiresAt l = t + linkTTL ttl
    /\ Forall (fun c => ~ ends (pl_Code l) c) between.

Lemma linkTTL_max ttl : linkTTL ttl <= 10 * Minute.
Proof. unfold linkTTL. case_match; [unfold maxNodeBindingLinkTTL; lia|]. apply Z.ltb_ge. done. Qed.

Lemma persist_keeps env s : nb_bindings (fst (bindingPersistLocked env s)) = nb_bindings s.
Proof. unfold bindingPersistLocked. case_match; [done|]. by destruct (writeStore _ _ _). Qed.

Lemma upsert_spec env r s :
  TrimSpace (nbr_IdentityID r) <> "" -> TrimSpace (nbr_NodeID r) <> "" ->
  bindingUpsert env r s
  = bindingPersistLocked env (with_bindings s (<[nbr_IdentityID r := r]> (nb_bindings s))).
Proof.
  intros H1 H2. unfold bindingUpsert, rejectM, bindM, modifyM. by rewrite !bool_decide_false.
Qed.

Lemma delete_spec env id s :
  TrimSpace id <> "" ->
  bindingDelete env id s
  = bindingPersistLocked env (with_bindings s (delete (TrimSpace id) (nb_bindings s))).
Proof. intros H. unfold bindingDelete, rejectM, bindM, modifyM. by rewrite bool_decide_false. Qed.

(** What one call of [CompleteNodeBinding] does. *)
Lemma complete_inv env now now' code node key sig allow s s' res :
  CompleteNodeBinding env now now' code node key sig allow s = (s', res) ->
  bs_bindingLinks s' = (if (TrimSpace code == "") || (TrimSpace node == "") then bs_bindingLinks s
                        else delete (TrimSpace code) (bs_bindingLinks s))
  /\ (bs_bindingStore s' = bs_bindingStore s
      \/ exists l pub nsig priv,
           let existing := bindingGet (pl_IdentityID l) (bs_bindingStore s) in
           let r := bindingRecord l (TrimSpace node) pub nsig priv existing now' in
           TrimSpace node <> "" /\ bs_bindingLinks s !! TrimSpace code = Some l /\ now <= pl_ExpiresAt l
           /\ checkNodeProof l (TrimSpace node) key sig = Ok (pub, nsig)
           /\ (forall e, existing = Some e -> allow = false -> TrimSpace (nbr_NodeID e) = TrimSpace node)
           /\ bs_bindingStore s' = fst (bindingUpsert env r (bs_bindingStore s))).
Proof.
  unfold CompleteNodeBinding. destruct (_ || _) eqn:E1; [intros [= <- <-]; auto|].
  apply orb_false_iff in E1 as [_ En]. apply bool_decide_eq_false in En.
  unfold consumeValidBindingLink. destruct (bs_bindingLinks s !! TrimSpace code) as [l|] eqn:El.
  2: { intros [= <- <-]. rewrite delete_id by done. auto. }
  destruct (Before _ _) eqn:Eb; [intros [= <- <-]; auto|]. apply Z.ltb_ge in Eb.
  destruct (checkNodeProof _ _ _ _) as [[pub nsig]|err] eqn:Ec; [|intros [= <- <-]; auto].
  destruct (_ && negb allow) eqn:Ea; [intros [= <- <-]; auto|].
  destruct (SnapshotIdentityKeys _) as [pk priv]. destruct (negb (length priv =? _)%nat); [intros [= <- <-]; auto|].
  cbn [bs_bindingStore with_bs_links] in *. destruct (bindingUpsert _ _ _) as [b rb] eqn:Eu.
  intros [= <- _]. split; [done|]. right. exists l, pub, nsig, priv. cbn [bs_bindingStore with_bs_store].
  split_and!; [done|done|done|done| |by rewrite Eu].
  intros e He ->. rewrite He in Ea. rewrite andb_true_r in Ea. by apply negb_false_iff, bool_decide_eq_true in Ea.
Qed.

(** What one call of [UnbindNode] does. *)
Lemma unbind_inv env node confirm s s' res :
  UnbindNode env node confirm s = (s', res) ->
  bs_bindingLinks s' = bs_bindingLinks s
  /\ (bs_bindingStore s' = bs_bindingStore s
      \/ exists e, bound s !! localIdentity s = Some e /\ confirm = true
         /\ (TrimSpace node = "" \/ TrimSpace (nbr_NodeID e) = TrimSpace node)
         /\ bs_bindingStore s' = fst (bindingPersistLocked env
              (with_bindings (bs_bindingStore s) (delete (localIdentity s) (bound s))))).
Proof.
  unfold UnbindNode. destruct confirm; cbn [negb]; [|intros [= <- <-]; auto].
  destruct (localIdentity s == "") eqn:Ei; [intros [= <- <-]; auto|]. apply bool_decide_eq_false in Ei.
  assert (Ht : TrimSpace (localIdentity s) = localIdentity s) by apply TrimSpace_idemp.
  destruct (bindingGet _ _) as [e|] eqn:Ee; [|intros [= <- <-]; auto].
  destruct (negb (TrimSpace node == "") && _) eqn:En; [intros [= <- <-]; auto|].
  rewrite delete_spec by by rewrite Ht. destruct (bindingPersistLocked _ _) as [b r] eqn:Eb.
  intros [= <- _]. split; [done|]. right. exists e. unfold bindingGet in Ee. rewrite Ht in *.
  split_and!; [done|done| |cbn; unfold bound; by rewrite Eb].
  apply andb_false_iff in En as [En|En]; apply negb_false_iff, bool_decide_eq_true in En; auto.
Qed.

(** A call leaves the links that it neither makes nor answers. *)
Lemma run_links s c code :
  match c with
  | BCreate b1 b2 now ttl =>
      bs_bindingLinks (run_bind s c) = bs_bindingLinks s
      \/ exists l, randomBase64URL b1 = Ok (pl_Code l) /\ randomBase64URL b2 = Ok (pl_Challenge l)
           /\ pl_IdentityID l = localIdentity s /\ pl_ExpiresAt l = now + linkTTL ttl
           /\ bs_bindingLinks (run_bind s c) = <[pl_Code l := l]> (bs_bindingLinks s)
  | _ => forall l, bs_bindingLinks (run_bind s c) !! code = Some l ->
         bs_bindingLinks s !! code = Some l /\ ~ ends code c
  end.
Proof.
  destruct c as [m|b1 b2 now ttl|env now now' code' node key sig allow|env node confirm|env|env path secret disk|];
    cbn [run_bind]; try (intros l H; split; [done|by intros [[]|]]; fail).
  - unfold CreateNodeBindingLinkCode. destruct (_ == ""); [by left|].
    destruct (randomBase64URL b1) as [c1|]; [|by left]. destruct (randomBase64URL b2) as [c2|]; [|by left].
    right. by exists (mkPendingLink (localIdentity s) c1 c2 (now + linkTTL ttl)).
  - destruct (CompleteNodeBinding _ _ _ _ _ _ _ _ _) as [s' res] eqn:E. apply complete_inv in E as [El _].
    intros l. cbn [fst]. rewrite El. destruct (_ || _) eqn:Eb.
    + intros H. split; [done|]. intros [(<- & H1 & H2)|]; [|done]. apply orb_true_iff in Eb as [Eb|Eb];
        by apply bool_decide_eq_true in Eb.
    + intros [Hne H]%lookup_delete_Some. split; [done|]. by intros [[<- _]|].
  - intros l. destruct (UnbindNode _ _ _ _) as [s' res] eqn:E. apply unbind_inv in E as [E _].
    cbn [fst]. rewrite E. intros H. split; [done|by intros [[]|]].
Qed.

Lemma links_issued s0 calls code l :
  bs_bindingLinks s0 = ∅ -> bs_bindingLinks (fold_left run_bind calls s0) !! code = Some l ->
  pl_Code l = code /\ issued s0 calls l.
Proof.
  intros H0. revert code l. induction calls as [|c calls IH] using rev_ind; intros code l.
  { cbn [fold_left]. rewrite H0. intros H. by rewrite lookup_empty in H. }
  rewrite fold_left_app. cbn [fold_left]. set (s := fold_left run_bind calls s0) in *.
  assert (Hkeep : bs_bindingLinks s !! code = Some l -> ~ ends code c ->
                  pl_Code l = code /\ issued s0 (calls ++ [c]) l).
  { intros (<- & before & b1 & b2 & t & ttl & between & Hc & H1 & H2 & H3 & H4 & H5)%IH Ha. split; [done|].
    exists before, b1, b2, t, ttl, (between ++ [c])%list. rewrite Hc, <- app_assoc. split_and!; [done..|].
    apply List.Forall_app. split; [done|]. by repeat constructor. }
  intros Hl. pose proof (run_links s c code) as Hr. destruct c; try (apply Hr in Hl as [? ?]; by apply Hkeep).
  destruct Hr as [Hr|(l' & H1 & H2 & H3 & H4 & Hr)]; rewrite Hr in Hl; [by apply Hkeep; [|intros [[]|]]|].
  apply lookup_insert_Some in Hl as [[<- <-]|[_ Hl]]; [|by apply Hkeep; [|intros [[]|]]].
  split; [done|]. exists calls, bufCode, bufChallenge, now, ttlSeconds, []. by split_and!.
Qed.

Lemma links_trimmed s0 calls code l :
  bs_bindingLinks s0 = ∅ -> bs_bindingLinks (fold_left run_bind calls s0) !! code = Some l ->
  TrimSpace (pl_IdentityID l) = pl_IdentityID l.
Proof.
  intros H0 H. apply links_issued in H as (_ & before & ? & ? & ? & ? & ? & _ & _ & _ & -> & _); [|done].
  apply TrimSpace_idemp.
Qed.

(** A binding that a call makes. *)
Definition proven (s : BindingService) (c : BindCall) (id : string) (r : NodeBindingRecord) : Prop :=
  exists env now now' code node key sig allow l pub nsig priv,
    c = BComplete env now now' code node key sig allow
    /\ bs_bindingLinks s !! TrimSpace code = Some l /\ now <= pl_ExpiresAt l /\ TrimSpace node <> ""
    /\ checkNodeProof l (TrimSpace node) key sig = Ok (pub, nsig)
    /\ (forall e, bound s !! id = Some e -> allow = false -> TrimSpace (nbr_NodeID e) = TrimSpace node)
    /\ id = pl_IdentityID l
    /\ r = bindingRecord l (TrimSpace node) pub nsig priv (bound s !! id) now'.

Lemma upsert_bound env r b :
  nb_bindings (fst (bindingUpsert env r b)) = nb_bindings b
  \/ nb_bindings (fst (bindingUpsert env r b)) = <[nbr_IdentityID r := r]> (nb_bindings b).
Proof.
  unfold bindingUpsert, rejectM, bindM, modifyM, retM, failM.
  destruct (TrimSpace (nbr_IdentityID r) == ""); [by left|].
  destruct (TrimSpace (nbr_NodeID r) == ""); [by left|]. right. by rewrite persist_keeps.
Qed.

(** The binding is in the file that a call opens. *)
Definition loaded (c : BindCall) (id : string) (r : NodeBindingRecord) : Prop :=
  exists env path secret disk plaintext payload,
    c = BReload env path secret disk
    /\ ReadDecryptedFile disk (env_read env) (snd (NormalizeStorageConfig path secret)) = Ok plaintext
    /\ unmarshalJSON plaintext = Ok payload /\ pnb_Version payload = 1 /\ pnb_Bindings payload !! id = Some r.

Lemma reload_bound env path secret disk b id r :
  nb_bindings (bindingReload env path secret disk b) !! id = Some r ->
  nb_bindings b !! id = Some r \/ loaded (BReload env path secret disk) id r.
Proof.
  unfold bindingReload, bindingBootstrap, bindingConfigure, ConfigureStore. cbn [nb_file with_binding_file es_disk with_es_disk].
  destruct (NormalizeStorageConfig path secret) as [p2 secret2] eqn:En. cbn [nb_file es_disk es_secret].
  destruct (es_configured _); cbn [negb]; [|cbn; by rewrite lookup_empty].
  destruct (ReadDecryptedFile disk (env_read env) secret2) as [plaintext|err] eqn:Er.
  - destruct (unmarshalJSON plaintext) as [payload|err] eqn:Eu; [|by left].
    destruct (Z.eqb_spec (pnb_Version payload) 1) as [Hv|]; cbn [negb]; [|by left]. intros H. right.
    exists env, path, secret, disk, plaintext, payload. rewrite En. by split_and!.
  - destruct (_ == _); [|by left]. rewrite persist_keeps. cbn. by rewrite lookup_empty.
Qed.

(** A call makes a binding that is proven, loads those of a file, or removes bindings. *)
Lemma run_bound s0 calls c id r :
  bs_bindingLinks s0 = ∅ -> let s := fold_left run_bind calls s0 in
  bound (run_bind s c) !! id = Some r -> bound s !! id = Some r \/ proven s c id r \/ loaded c id r.
Proof.
  intros H0 s. destruct c as [m|b1 b2 now ttl|env now now' code node key sig allow|env node confirm|env|env path secret disk|];
    cbn [run_bind].
  - by left.
  - intros H. left. revert H. unfold CreateNodeBindingLinkCode. repeat (case_match; try done).
  - destruct (CompleteNodeBinding _ _ _ _ _ _ _ _ _) as [s' res] eqn:E.
    apply complete_inv in E as [_ [E|(l & pub & nsig & priv & Hn & Hl & He & Hp & Hother & E)]];
      unfold bound; cbn [fst]; rewrite E; [by left|].
    pose proof (links_trimmed _ _ _ _ H0 Hl) as Ht. unfold bindingGet in *. rewrite Ht in *.
    set (rec := bindingRecord _ _ _ _ _ _ _) in *.
    destruct (upsert_bound env rec (bs_bindingStore s)) as [->| ->]; [by left|].
    rewrite lookup_insert_Some. intros [[<- <-]|[_ H]]; [right; left|by left].
    exists env, now, now', code, node, key, sig, allow, l, pub, nsig, priv. by split_and!.
  - intros H. left. revert H. destruct (UnbindNode _ _ _ _) as [s' res] eqn:E. unfold bound. cbn [fst].
    apply unbind_inv in E as [_ [->|(e & _ & _ & _ & ->)]]; [done|].
    rewrite persist_keeps. cbn [nb_bindings with_bindings]. by intros [_ ?]%lookup_delete_Some.
  - unfold bindingWipe, bound. destruct (wipeStore _ _ _) as [f rr]. cbn. by rewrite lookup_empty.
  - intros [H|H]%reload_bound; [by left|right; by right].
  - by left.
Qed.

Lemma links_step s0 calls c id r :
  bs_bindingLinks s0 = ∅ -> let s := fold_left run_bind calls s0 in
  proven s c id r ->
  exists env now now' code node key sig allow l pub nsig,
    c = BComplete env now now' code node key sig allow
    /\ issued s0 calls l /\ pl_Code l = TrimSpace code /\ pl_IdentityID l = id /\ now <= pl_ExpiresAt l
    /\ checkNodeProof l (TrimSpace node) key sig = Ok (pub, nsig)
    /\ nbr_IdentityID r = id /\ nbr_NodeID r = TrimSpace node /\ nbr_NodePublicKey r = EncodeToString pub
    /\ nbr_NodeSignature r = EncodeToString nsig.
Proof.
  intros H0 s (env & now & now' & code & node & key & sig & allow & l & pub & nsig & priv
               & -> & Hl & He & _ & Hp & _ & -> & ->).
  apply links_issued in Hl as [Hc Hi]; [|done].
  exists env, now, now', code, node, key, sig, allow, l, pub, nsig. by split_and!.
Qed.

Lemma checkNodeProof_ok l node key sig pub nsig :
  checkNodeProof l node key sig = Ok (pub, nsig) ->
  DecodeString (TrimSpace key) = Some pub /\ DecodeString (TrimSpace sig) = Some nsig
  /\ length pub = PublicKeySize /\ length nsig = SignatureSize
  /\ edVerify pub (nodeBindingChallengeBytes (pl_IdentityID l) (pl_Code l) node (pl_Challenge l)) nsig = true.
Proof.
  unfold checkNodeProof. destruct (DecodeString (TrimSpace key)) as [k|]; [|done].
  destruct (length k =? PublicKeySize)%nat eqn:Ek; cbn [negb]; [|done]. apply Nat.eqb_eq in Ek.
  destruct (DecodeString (TrimSpace sig)) as [g|]; [|done].
  destruct (length g =? SignatureSize)%nat eqn:Eg; cbn [negb]; [|done]. apply Nat.eqb_eq in Eg.
  destruct (edVerify _ _ _) eqn:Ev; cbn [negb]; [|done]. by intros [= <- <-].
Qed.

(** C27: A node is bound only with its consent and the account's. In any run of the service since its start, changes of the
    account included, a binding that is there was there at the start, or is in the file of the bindings of a profile that the run
    opened, or was made by answering a link code: the code was drawn earlier in the run, for the identity that was local at that
    time, at most ten minutes before; in between nobody answered it, and the links were not cleared, as the end of every change of
    the account and every wipe does; and the answer carries a signature, valid under the node key that is recorded, over the
    identity, the code, the node and the challenge of that link. *)
Theorem bindings_are_proven (s0 : BindingService) (calls : list BindCall) (id : string)
    (r : NodeBindingRecord) :
  bs_bindingLinks s0 = ∅ -> bound (fold_left run_bind calls s0) !! id = Some r ->
  bound s0 !! id = Some r
  \/ (exists before env path secret disk after plaintext payload,
    calls = (before ++ BReload env path secret disk :: after)%list
    /\ ReadDecryptedFile disk (env_read env) (snd (NormalizeStorageConfig path secret)) = Ok plaintext
    /\ unmarshalJSON plaintext = Ok payload /\ pnb_Version payload = 1 /\ pnb_Bindings payload !! id = Some r)
  \/ exists before bufCode bufChallenge t ttl between env now now' code node key sig allow after
       linkCode challenge pub nsig,
    calls = (before ++ BCreate bufCode bufChallenge t ttl :: between
             ++ BComplete env now now' code node key sig allow :: after)%list
    /\ randomBase64URL bufCode = Ok linkCode /\ randomBase64URL bufChallenge = Ok challenge
    /\ TrimSpace code = linkCode /\ Forall (fun c => ~ ends linkCode c) between
    /\ id = localIdentity (fold_left run_bind before s0) /\ now <= t + 10 * Minute
    /\ length pub = PublicKeySize /\ DecodeString (TrimSpace key) = Some pub
    /\ DecodeString (TrimSpace sig) = Some nsig
    /\ edVerify pub (nodeBindingChallengeBytes id linkCode (TrimSpace node) challenge) nsig = true
    /\ nbr_IdentityID r = id /\ nbr_NodeID r = TrimSpace node
    /\ nbr_NodePublicKey r = EncodeToString pub /\ nbr_NodeSignature r = EncodeToString nsig.
Proof.
  intros H0. induction calls as [|c calls IH] using rev_ind; [by left|].
  rewrite fold_left_app. cbn [fold_left]. intros H. apply (run_bound s0) in H as [H|[H|H]]; [| | |done].
  - destruct (IH H) as [|[(before & env & path & secret & disk & after & pt & pl & -> & Hr)
      |(before & b1 & b2 & t & ttl & between & env & now & now' & code & node & key & sig & allow & after & Hr)]]; [by left| |].
    + right. left. exists before, env, path, secret, disk, (after ++ [c])%list, pt, pl. split; [|exact Hr].
      by rewrite <- app_assoc, <- app_comm_cons.
    + right. right. destruct Hr as (? & ? & ? & ? & -> & Hr).
      exists before, b1, b2, t, ttl, between, env, now, now', code, node, key, sig, allow, (after ++ [c])%list.
      do 4 eexists. split; [|exact Hr]. by rewrite <- !app_assoc, <- app_comm_cons, <- app_assoc.
  - right. right. apply links_step in H as (env & now & now' & code & node & key & sig & allow & l & pub & nsig & ->
      & (before & b1 & b2 & t & ttl & between & -> & H1 & H2 & H3 & H4 & H5) & Hc & <- & He & Hp & Hr); [|done].
    apply checkNodeProof_ok in Hp as (Hk & Hs & Hlen & _ & Hv).
    exists before, b1, b2, t, ttl, between, env, now, now', code, node, key, sig, allow, [].
    exists (pl_Code l), (pl_Challenge l), pub, nsig. pose proof (linkTTL_max ttl).
    split_and!; try done; [by rewrite <- app_assoc|lia|apply Hr..].
  - right. left. destruct H as (env & path & secret & disk & pt & pl & -> & Hr). by exists calls, env, path, secret, disk, [], pt, pl.
Qed.

(** Bindings change only as confirmed. In any run of the service since its start, a call that
    changes or removes the binding of an identity is one of these: the answer to a link of that
    identity, which puts another node in its place only when the rebinding was confirmed, and
    keeps the time of the first binding; an unbinding that was confirmed, of the local identity,
    that names the bound node or none; the wiping of the store; and the change to another profile. *)
Theorem binding_changes_are_confirmed (s0 : BindingService) (calls : list BindCall) (c : BindCall)
    (id : string) (r : NodeBindingRecord) :
  bs_bindingLinks s0 = ∅ -> let s := fold_left run_bind calls s0 in
  bound s !! id = Some r -> bound (run_bind s c) !! id <> Some r ->
  match c with
  | BComplete _ _ _ _ node _ _ allow =>
      exists r', bound (run_bind s c) !! id = Some r' /\ nbr_NodeID r' = TrimSpace node
        /\ (TrimSpace (nbr_NodeID r) = nbr_NodeID r' \/ allow = true)
        /\ (nbr_BoundAt r <> 0 -> nbr_BoundAt r' = nbr_BoundAt r)
  | BUnbind _ node confirm =>
      confirm = true /\ id = localIdentity s /\ bound (run_bind s c) !! id = None
      /\ (TrimSpace node = "" \/ TrimSpace (nbr_NodeID r) = TrimSpace node)
  | BWipe _ | BReload _ _ _ _ => True
  | _ => False
  end.
Proof.
  intros H0 s Hr Hne. destruct c as [m|b1 b2 now ttl|env now now' code node key sig allow|env node confirm|env|env path secret disk|].
  - by apply Hne.
  - apply Hne. unfold run_bind, CreateNodeBindingLinkCode. by repeat case_match.
  - cbn [run_bind] in *. destruct (CompleteNodeBinding _ _ _ _ _ _ _ _ _) as [s' res] eqn:E.
    apply complete_inv in E as [_ [E|(l & pub & nsig & priv & Hn & Hl & He & Hp & Hother & E)]];
      unfold bound in *; cbn [fst] in *; rewrite E in *; [done|].
    pose proof (links_trimmed _ _ _ _ H0 Hl) as Ht. unfold bindingGet in *. rewrite Ht in *.
    set (rec := bindingRecord _ _ _ _ _ _ _) in *.
    destruct (upsert_bound env rec (bs_bindingStore s)) as [Eu|Eu]; rewrite Eu in *; [done|].
    change (nbr_IdentityID rec) with (pl_IdentityID l) in *.
    destruct (decide (pl_IdentityID l = id)) as [<-|Hid]; [|by rewrite lookup_insert_ne in Hne].
    exists rec. rewrite lookup_insert_eq. split_and!; [done|done| |].
    + destruct allow; [by right|left]. by apply Hother.
    + intros Hb. unfold rec, bindingRecord. cbn [nbr_BoundAt]. rewrite Hr. unfold IsZero. by destruct (Z.eqb_spec (nbr_BoundAt r) 0).
  - cbn [run_bind] in *. destruct (UnbindNode _ _ _ _) as [s' res] eqn:E.
    apply unbind_inv in E as [_ [E|(e & He & Hc & Hnode & E)]]; unfold bound in *; cbn [fst] in *;
      rewrite E in *; [done|]. rewrite persist_keeps in *. cbn [nb_bindings with_bindings] in *.
    destruct (decide (id = localIdentity s)) as [->|Hid]; [|by rewrite lookup_delete_ne in Hne].
    rewrite lookup_delete_eq. assert (e = r) as -> by congruence. by split_and!.
  - done.
  - done.
  - by apply Hne.
Qed.

(** ** The file *)

(** The file holds the bindings, or they cannot be encoded, or the file was never written or was
    wiped and there are none. *)
Definition bindings_saved (s : nodeBindingStore) : Prop :=
  es_configured (nb_file s) = true
  /\ (store_holds (nb_file s) (mkPersistedBindings 1 (nb_bindings s))
      \/ (exists err, marshalJSON (mkPersistedBindings 1 (nb_bindings s)) = Err err)
      \/ (es_disk (nb_file s) = None /\ nb_bindings s = ∅)).

(** The file system does its work, and the profile stays. *)
Definition bind_env_ok (c : BindCall) : Prop :=
  match c with
  | BComplete env _ _ _ _ _ _ _ | BUnbind env _ _ | BWipe env => env_ok env
  | BReload _ _ _ _ => False
  | _ => True
  end.

Section Restart.
Context {claws : CipherLaws cipher} {elaws : EnvelopeCodecLaws ecodec}.

Lemma persist_saved env s b :
  env_ok env -> bindings_saved s -> bindings_saved (fst (bindingPersistLocked env (with_bindings s b))).
Proof.
  intros He [Hc _]. unfold bindingPersistLocked. cbn [nb_file with_bindings nb_bindings]. rewrite Hc. cbn [negb].
  destruct (writeStore_holds env (mkPersistedBindings 1 b) (nb_file s) He) as [(err & Hm & ->)|(d & -> & Hd)].
  - split; [done|]. right. left. by exists err.
  - split; [done|]. by left.
Qed.

Lemma run_bind_saved s c :
  bind_env_ok c -> bindings_saved (bs_bindingStore s) -> bindings_saved (bs_bindingStore (run_bind s c)).
Proof.
  intros He Hs. destruct c as [m|b1 b2 now ttl|env now now' code node key sig allow|env node confirm|env|env path secret disk|];
    cbn [run_bind bind_env_ok] in *; [done| | | |..|done]; [| | | |done].
  - unfold CreateNodeBindingLinkCode. by repeat case_match.
  - destruct (CompleteNodeBinding _ _ _ _ _ _ _ _ _) as [s' res] eqn:E.
    apply complete_inv in E as [_ [E|(l & pub & nsig & priv & _ & _ & _ & _ & _ & E)]]; cbn [fst]; rewrite E; [done|].
    unfold bindingUpsert, rejectM, bindM, modifyM, retM, failM.
    destruct (_ == ""); [done|]. destruct (_ == ""); [done|]. by apply persist_saved.
  - destruct (UnbindNode _ _ _ _) as [s' res] eqn:E.
    apply unbind_inv in E as [_ [E|(e & _ & _ & _ & E)]]; cbn [fst]; rewrite E; [done|]. by apply persist_saved.
  - destruct Hs as [Hc _]. destruct He as (_ & _ & _ & Hrm). unfold bindingWipe.
    destruct (wipeStore _ _ _) as [f r] eqn:Ew. cbn [fst bs_bindingStore with_bs_store].
    assert (f = with_es_disk (nb_file (bs_bindingStore s)) None) as ->; [|split; [done|right; by right]].
    cbn [nb_file with_bindings] in Ew. unfold wipeStore in Ew.
    unfold es_configured, IsStorageConfigured in Hc. apply andb_true_iff in Hc as [Hc _].
    rewrite bool_decide_false in Ew by (intros Hz; by rewrite Hz in Hc).
    rewrite Hrm in Ew. destruct (nb_file (bs_bindingStore s)) as [p sec [d|]]; by injection Ew as <- _.
Qed.

(** Bindings are kept. After any run of calls on one profile for which the file system works, on a store whose file
    is new or in step, a new process reads exactly the bindings of the run from the file. *)
Theorem bindings_survive_restart (s : BindingService) (calls : list BindCall) (env : StoreEnv) :
  bindings_saved (bs_bindingStore s) -> Forall bind_env_ok calls -> env_ok env ->
  let b := bs_bindingStore (fold_left run_bind calls s) in
  json_reads (mkPersistedBindings 1 (nb_bindings b)) (mkPersistedBindings 1 (nb_bindings b)) ->
  let fresh := fst (bindingBootstrap env (mkBindingStore (nb_file b) ∅)) in
  nb_bindings fresh = nb_bindings b.
Proof.
  intros Hs Hcalls He b Hj. assert (Hb : bindings_saved b).
  { subst b. clear Hj. revert s Hs. induction Hcalls as [|c cs Hc Hcs IH]; intros s Hs; [done|].
    apply IH. by apply run_bind_saved. }
  destruct Hb as [Hc Hb]. destruct He as (Hr & Hrd & Hw & _). unfold bindingBootstrap.
  cbn [nb_file]. rewrite Hc, Hrd. cbn [negb]. destruct Hb as [Hb|[[err Hb]|[Hd Hb]]].
  - destruct (store_holds_reads _ _ _ Hb Hj) as (bs & Hread & Hu). by rewrite Hread, Hu.
  - destruct Hj as (bs & Hm & _). congruence.
  - unfold ReadDecryptedFile, readFile. rewrite Hd. cbn [bindR]. rewrite bool_decide_true by done.
    by rewrite persist_keeps, Hb.
Qed.
End Restart.
End Store.

(** ** Examples *)

(** Signatures as long as ed25519's, made of bytes. *)
#[local] Instance exBindCrypto : IdentityCrypto | 0 := {
  keyFromSeed s := (s ++ s)%list;
  publicKeyOf k := take 32 k;
  edSign k m := (take 32 k ++ replicate 32 (ex_total m mod 256))%list;
  edVerify pub m sig := bool_decide (sig = pub ++ replicate 32 (ex_total m mod 256))%list;
  blake2b256 l := l; base58Encode := hexEncode; sum256 l := l;
  hkdf32 s info := Ok (take 32 s); mnemonicValid s := true; mnemonicSeed s := replicate 32 0
}.

#[export] Instance NodeBindingRecord_eq_dec : EqDecision NodeBindingRecord.
Proof. solve_decision. Defined.
#[export] Instance NodeBindingRecord_countable : Countable NodeBindingRecord.
Proof.
  apply (inj_countable'
    (fun r => (nbr_IdentityID r, nbr_NodeID r, nbr_NodePublicKey r, nbr_AccountSignature r,
               nbr_NodeSignature r, nbr_BoundAt r, nbr_UpdatedAt r))
    (fun '(a, b, c, d, e, f, g) => mkBinding a b c d e f g)).
  by intros [].
Defined.

#[export] Instance exBindingCodec : JsonCodec persistedNodeBindings := {
  marshalJSON p := Ok [pnb_Version p; zenc (pnb_Bindings p)];
  unmarshalJSON l := match l with
                     | [v; z] => Ok (mkPersistedBindings v (default ∅ (zdec z)))
                     | _ => Err (errorsNew "json")
                     end
}.

Lemma exBindingCodec_reads p : json_reads p p.
Proof.
  eexists. split; [reflexivity|]. cbn [unmarshalJSON exBindingCodec]. rewrite zdec_zenc. by destruct p.
Qed.

Definition ex_owner : Manager :=
  mkManager (mkIdentity "aim1owner" (replicate 32 1)) (replicate 64 1) ∅ ∅ "" ∅ (mkSeeds None 0 0).
Definition ex_bind (path : string) : BindingService :=
  mkBindingService ex_owner (mkBindingStore (mkEncStore path "secret" None) ∅) ∅.

(** The node's answer to the link drawn from the bytes 1, 2, 3 and 4, 5, 6. *)
Definition ex_code : string := RawURLEncodeToString [1; 2; 3].
Definition ex_node_sig (node : string) : string :=
  EncodeToString (edSign (replicate 64 9)
    (nodeBindingChallengeBytes "aim1owner" ex_code node (RawURLEncodeToString [4; 5; 6]))).
Definition ex_answer (env : StoreEnv) (now : Z) (node : string) (allow : bool) : BindCall :=
  BComplete env now now (" " +:+ ex_code) node (EncodeToString (replicate 32 9)) (ex_node_sig node) allow.
Definition ex_link (now : Z) : BindCall := BCreate (Ok [1; 2; 3]) (Ok [4; 5; 6]) now 60.
Definition ex_binding : list BindCall := [ex_link (100 * Second); ex_answer ex_env (130 * Second) "node-a" false].
Definition ex_bound : option NodeBindingRecord :=
  bound (fold_left run_bind ex_binding (ex_bind "")) !! "aim1owner".

Lemma bindings_are_proven_witness :
  exists r before b1 b2 t ttl rest,
    ex_bound = Some r /\ nbr_NodeID r = "node-a"
    /\ ex_binding = (before ++ BCreate b1 b2 t ttl :: rest)%list /\ nbr_BoundAt r = 130 * Second.
Proof.
  destruct ex_bound as [r|] eqn:E; [|exfalso; vm_compute in E; discriminate].
  destruct (bindings_are_proven (ex_bind "") ex_binding "aim1owner" r)
    as [H|[(before & env & path & secret & disk & after & pt & pl & Hc & _)|(before & b1 & b2 & t & ttl & between & env & now & now' & code & node & key & sig & allow & after
           & lc & ch & pub & nsig & Hc & _)]].
  - reflexivity.
  - exact E.
  - exfalso. vm_compute in H. discriminate.
  - exfalso. unfold ex_binding, ex_link, ex_answer in Hc. by destruct before as [|? [|? [|? ?]]].
  - vm_compute in E. injection E as <-. do 7 eexists. split; [reflexivity|]. split; [reflexivity|].
    split; [exact Hc|reflexivity].
Defined.

(** A second node is refused, and bound when the rebinding is confirmed. *)
Lemma binding_changes_are_confirmed_witness :
  let s := fold_left run_bind (ex_binding ++ [ex_link (200 * Second)]) (ex_bind "") in
  let c := ex_answer ex_env (210 * Second) "node-b" in
  bound (run_bind s (c false)) !! "aim1owner" = ex_bound
  /\ exists r', bound (run_bind s (c true)) !! "aim1owner" = Some r' /\ nbr_NodeID r' = "node-b"
     /\ nbr_BoundAt r' = 130 * Second.
Proof.
  cbv zeta. split; [vm_compute; reflexivity|].
  destruct ex_bound as [r|] eqn:E; [|exfalso; vm_compute in E; discriminate].
  destruct (binding_changes_are_confirmed (ex_bind "") (ex_binding ++ [ex_link (200 * Second)])
    (ex_answer ex_env (210 * Second) "node-b" true) "aim1owner" r) as (r' & Hr' & Hn & _ & Hb).
  - reflexivity.
  - vm_compute in E |- *. exact E.
  - vm_compute in E. injection E as <-. intros H. vm_compute in H. discriminate.
  - exists r'. split; [exact Hr'|]. split; [exact Hn|]. vm_compute in E. injection E as <-.
    apply Hb. discriminate.
Defined.

(** When the file cannot be written the call fails, and the node is bound in memory. *)
Example failed_binding_is_kept :
  let env := mkEnv exRuntime ex_random None (mkWrite (Some (errorsNew "disk")) None) None in
  let s := run_bind (ex_bind "bindings") (ex_link (100 * Second)) in
  (snd (CompleteNodeBinding env (130 * Second) (130 * Second) ex_code "node-a"
          (EncodeToString (replicate 32 9)) (ex_node_sig "node-a") false s),
   nbr_NodeID <$> bound (run_bind s (ex_answer env (130 * Second) "node-a" false)) !! "aim1owner")
  = (Err (errorsNew "disk"), Some "node-a").
Proof. vm_compute. reflexivity. Qed.

(** When the file of another profile cannot be read, the bindings of the last profile stay, although the log says that the state
    is empty; what is bound next writes them into the new profile's file. *)
Example failed_reload_keeps_bindings :
  let env := mkEnv exRuntime ex_random (Some (errorsNew "disk")) (mkWrite None None) None in
  let s := fold_left run_bind (ex_binding ++ [BReload env "other" "secret" None; BClearLinks]) (ex_bind "") in
  es_path (nb_file (bs_bindingStore s)) = "other" /\ bound s !! "aim1owner" = ex_bound /\ is_Some ex_bound.
Proof. vm_compute. split; [reflexivity|]. split; [reflexivity|]. by eexists. Qed.

(** A time to live above about 292 years is negative: the code has expired when it is made. *)
Example link_ttl_overflows : linkTTL 10000000000 < 0.
Proof. vm_compute. reflexivity. Qed.

Lemma bindings_survive_restart_witness :
  nb_bindings (fst (bindingBootstrap ex_env
    (mkBindingStore (nb_file (bs_bindingStore (fold_left run_bind ex_binding (ex_bind "bindings")))) ∅)))
  = nb_bindings (bs_bindingStore (fold_left run_bind ex_binding (ex_bind "bindings"))).
Proof.
  apply (bindings_survive_restart (ex_bind "bindings") ex_binding ex_env).
  - split; [vm_compute; reflexivity|]. right. right. split; reflexivity.
  - repeat constructor; apply ex_env_ok.
  - apply ex_env_ok.
  - apply exBindingCodec_reads.
Defined.
