(* ===== verification/ManifestTrust.v ===== *)
(** * Trust bundles

    Models internal/bootstrap/manifesttrust/trust.go: the keys a node trusts for network manifests,
    their validity windows, and updates of the bundle signed by a root key. *)
From S2P Require Import Prelude Encoding Text SecureStore Identity.
From stdpp Require Import base gmap strings list sets option.
From Stdlib Require Import ZArith Lia.
Open Scope string_scope.
Open Scope Z_scope.
Open Scope go_scope.

(** The sentinels; a detail is what the sentinel was wrapped with. *)
Inductive trustError :=
| ErrTrustBundleInvalid (detail : error)
| ErrTrustUpdateChainInvalid
| ErrTrustUpdateSignatureInvalid (detail : option error)
| ErrManifestKeyUnknown
| ErrManifestKeyInactive
| ErrManifestSignatureInvalid.

#[export] Instance trustError_eq_dec : EqDecision trustError.
Proof. solve_decision. Defined.

Definition trustErrorText `{GoErrorText} (e : trustError) : string :=
  match e with
  | ErrTrustBundleInvalid d => "trust bundle invalid: " +:+ ErrorText d
  | ErrTrustUpdateChainInvalid => "trust update chain invalid"
  | ErrTrustUpdateSignatureInvalid None => "trust update signature invalid"
  | ErrTrustUpdateSignatureInvalid (Some d) => "trust update signature invalid: " +:+ ErrorText d
  | ErrManifestKeyUnknown => "manifest key unknown"
  | ErrManifestKeyInactive => "manifest key inactive"
  | ErrManifestSignatureInvalid => "manifest signature invalid"
  end.

(** ** Data *)

Record RootKey := mkRootKey { rk_KeyID : string; rk_Algorithm : string; rk_PublicKeyBase64 : string }.
Record ManifestKey := mkManifestKey {
  mk_KeyID : string; mk_Algorithm : string; mk_PublicKeyBase64 : string; mk_NotBefore : Z; mk_NotAfter : Z
}.
Record Bundle := mkBundle {
  tb_Version : Z; tb_BundleID : string; tb_GeneratedAt : Z; tb_RootKeys : list RootKey;
  tb_ManifestKeys : list ManifestKey
}.
Record BundleUpdateEnvelope := mkUpdate {
  bu_Bundle : Bundle; bu_SignedByKeyID : string; bu_SignatureBase64 : string
}.

#[export] Instance RootKey_eq_dec : EqDecision RootKey.
Proof. solve_decision. Defined.
#[export] Instance ManifestKey_eq_dec : EqDecision ManifestKey.
Proof. solve_decision. Defined.
#[export] Instance Bundle_eq_dec : EqDecision Bundle.
Proof. solve_decision. Defined.

Definition IsActive (at_ : Z) (k : ManifestKey) : bool :=
  if IsZero (mk_NotBefore k) || IsZero (mk_NotAfter k) then false else
  negb (Before at_ (mk_NotBefore k)) && Before at_ (mk_NotAfter k).

Section Trust.
Context {errtext : GoErrorText} {fmt : GoFormat} {crypto : IdentityCrypto} {bcodec : JsonCodec Bundle}.

Definition invalid (text : string) : trustError := ErrTrustBundleInvalid (errorsNew text).

Definition validatePublicKeyFields (keyID algorithm publicKeyBase64 : string) : result trustError unit :=
  if keyID == "" then Err (invalid "key_id is required") else
  if negb (algorithm == "ed25519") then Err (invalid ("unsupported algorithm " +:+ Quote algorithm)) else
  match DecodeString publicKeyBase64 with
  | None => Err (invalid ("invalid public key base64 for " +:+ Quote keyID))
  | Some raw =>
      if negb (length raw =? PublicKeySize)%nat
      then Err (invalid ("invalid public key size for " +:+ Quote keyID)) else Ok tt
  end.

Definition validateRootKey (k : RootKey) : result trustError unit :=
  validatePublicKeyFields (rk_KeyID k) (rk_Algorithm k) (rk_PublicKeyBase64 k).

Definition validateManifestKey (k : ManifestKey) : result trustError unit :=
  try! _ := validatePublicKeyFields (mk_KeyID k) (mk_Algorithm k) (mk_PublicKeyBase64 k) in
  if IsZero (mk_NotBefore k) || IsZero (mk_NotAfter k) || negb (After (mk_NotAfter k) (mk_NotBefore k))
  then Err (invalid "invalid manifest key validity window") else Ok tt.

(** A loop that returns the first error. *)
Fixpoint checkAll {A} (check : A -> result trustError unit) (l : list A) : result trustError unit :=
  match l with [] => Ok tt | a :: l => try! _ := check a in checkAll check l end.

Definition Bundle_Validate (b : Bundle) : result trustError unit :=
  if tb_Version b <=? 0 then Err (invalid "version must be > 0") else
  if tb_BundleID b == "" then Err (invalid "bundle_id is required") else
  if IsZero (tb_GeneratedAt b) then Err (invalid "generated_at is required") else
  if (length (tb_RootKeys b) =? 0)%nat then Err (invalid "root_keys are required") else
  if (length (tb_ManifestKeys b) =? 0)%nat then Err (invalid "manifest_keys are required") else
  try! _ := checkAll validateRootKey (tb_RootKeys b) in
  checkAll validateManifestKey (tb_ManifestKeys b).

Definition ParseBundle (data : list Z) : result trustError Bundle :=
  match unmarshalJSON data with
  | Err err => Err (ErrTrustBundleInvalid err)
  | Ok b => try! _ := Bundle_Validate b in Ok b
  end.

Definition hasRootKeyByID (b : Bundle) (keyID : string) : bool :=
  existsb (fun k => rk_KeyID k == keyID) (tb_RootKeys b).

Definition findManifestKey (b : Bundle) (keyID : string) : option ManifestKey :=
  List.find (fun k => mk_KeyID k == keyID) (tb_ManifestKeys b).

Definition ActiveManifestKeys (b : Bundle) (at_ : Z) : list ManifestKey :=
  List.filter (IsActive at_) (tb_ManifestKeys b).

Definition decodeEd25519PublicKey (value : string) : result error (list Z) :=
  match DecodeString value with
  | None => Err (CorruptInput value)
  | Some raw => if negb (length raw =? PublicKeySize)%nat then Err (errorsNew "invalid key size") else Ok raw
  end.

Definition VerifyManifestSignature (b : Bundle) (keyID : string) (payload signature : list Z) (at_ : Z)
    : result trustError unit :=
  match findManifestKey b keyID with
  | None => Err ErrManifestKeyUnknown
  | Some key =>
      if negb (IsActive at_ key) then Err ErrManifestKeyInactive else
      match decodeEd25519PublicKey (mk_PublicKeyBase64 key) with
      | Err err => Err (ErrTrustBundleInvalid err)
      | Ok pub => if negb (edVerify pub payload signature) then Err ErrManifestSignatureInvalid else Ok tt
      end
  end.

(** ** Updates *)

Definition Update_Validate (e : BundleUpdateEnvelope) : result trustError unit :=
  try! _ := Bundle_Validate (bu_Bundle e) in
  if bu_SignedByKeyID e == "" then Err (invalid "signed_by_key_id is required") else
  if bu_SignatureBase64 e == "" then Err (invalid "signature_base64 is required") else Ok tt.

Definition findRootKey (keys : list RootKey) (keyID : string) : option RootKey :=
  List.find (fun k => rk_KeyID k == keyID) keys.

Definition canonicalBundlePayload (b : Bundle) : result error (list Z) := marshalJSON b.

Definition verifyBundleUpdateSignature (root : RootKey) (update : BundleUpdateEnvelope) : result trustError unit :=
  match decodeEd25519PublicKey (rk_PublicKeyBase64 root) with
  | Err err => Err (ErrTrustBundleInvalid err)
  | Ok pub =>
      match canonicalBundlePayload (bu_Bundle update) with
      | Err err => Err (ErrTrustBundleInvalid err)
      | Ok msg =>
          match DecodeString (bu_SignatureBase64 update) with
          | None => Err (ErrTrustUpdateSignatureInvalid (Some (errorsNew "invalid update signature encoding")))
          | Some sig => if negb (edVerify pub msg sig) then Err (ErrTrustUpdateSignatureInvalid None) else Ok tt
          end
      end
  end.

(** A check whose only error is a broken chain. *)
Definition chainCheck (ok : bool) : result trustError unit := if ok then Ok tt else Err ErrTrustUpdateChainInvalid.

Definition verifyRootContinuity (current next : Bundle) : result trustError unit :=
  chainCheck (existsb (fun nextRoot => existsb (fun curRoot =>
    (rk_KeyID nextRoot == rk_KeyID curRoot) && (rk_PublicKeyBase64 nextRoot == rk_PublicKeyBase64 curRoot))
    (tb_RootKeys current)) (tb_RootKeys next)).

Definition verifyBundleMonotonic (current next : Bundle) : result trustError unit :=
  if tb_Version next <? tb_Version current then Err ErrTrustUpdateChainInvalid else
  if (tb_Version next =? tb_Version current) && negb (tb_BundleID next == tb_BundleID current)
  then Err ErrTrustUpdateChainInvalid else Ok tt.

Definition verifyActiveManifestKeys (bundle : Bundle) (at_ : Z) : result trustError unit :=
  chainCheck (negb (length (ActiveManifestKeys bundle at_) =? 0)%nat).

(** [nextSet] holds the identifiers of the active keys. *)
Definition verifyRotationOverlap (current next : Bundle) (at_ : Z) : result trustError unit :=
  let currentActive := ActiveManifestKeys current at_ in
  let nextActive := ActiveManifestKeys next at_ in
  if (length currentActive =? 0)%nat || (length nextActive =? 0)%nat then Err ErrTrustUpdateChainInvalid else
  let nextSet : gset string := list_to_set (mk_KeyID <$> nextActive) in
  chainCheck (existsb (fun k => bool_decide (mk_KeyID k ∈ nextSet)) currentActive).

Definition VerifyAndApplyUpdate (current : Bundle) (update : BundleUpdateEnvelope) (at_ : Z)
    : result trustError Bundle :=
  try! _ := Bundle_Validate current in
  try! _ := Update_Validate update in
  if negb (hasRootKeyByID current (bu_SignedByKeyID update)) then Err ErrTrustUpdateChainInvalid else
  match findRootKey (tb_RootKeys current) (bu_SignedByKeyID update) with
  | None => Err ErrTrustUpdateChainInvalid
  | Some signerRoot =>
      try! _ := verifyBundleUpdateSignature signerRoot update in
      try! _ := verifyRootContinuity current (bu_Bundle update) in
      try! _ := verifyBundleMonotonic current (bu_Bundle update) in
      try! _ := verifyActiveManifestKeys (bu_Bundle update) at_ in
      try! _ := verifyRotationOverlap current (bu_Bundle update) at_ in
      Ok (bu_Bundle update)
  end.

(** ** What is a valid bundle *)

Definition key_shape (keyID algorithm publicKeyBase64 : string) : Prop :=
  keyID <> "" /\ algorithm = "ed25519"
  /\ exists raw, DecodeString publicKeyBase64 = Some raw /\ length raw = PublicKeySize.

Definition root_ok (k : RootKey) : Prop := key_shape (rk_KeyID k) (rk_Algorithm k) (rk_PublicKeyBase64 k).
Definition mkey_ok (k : ManifestKey) : Prop :=
  key_shape (mk_KeyID k) (mk_Algorithm k) (mk_PublicKeyBase64 k)
  /\ mk_NotBefore k <> 0 /\ mk_NotAfter k <> 0 /\ mk_NotBefore k < mk_NotAfter k.

Record bundle_ok (b : Bundle) : Prop := mkBundleOk {
  bo_version : 0 < tb_Version b; bo_id : tb_BundleID b <> ""; bo_generated : tb_GeneratedAt b <> 0;
  bo_roots : tb_RootKeys b <> []; bo_keys : tb_ManifestKeys b <> [];
  bo_roots_ok : Forall root_ok (tb_RootKeys b); bo_keys_ok : Forall mkey_ok (tb_ManifestKeys b)
}.

Lemma validatePublicKeyFields_iff i a p : validatePublicKeyFields i a p = Ok tt <-> key_shape i a p.
Proof.
  unfold validatePublicKeyFields, key_shape. case_bool_decide; [naive_solver|].
  case_bool_decide; cbn [negb]; [|naive_solver]. destruct (DecodeString p) as [raw|]; [|naive_solver].
  destruct (Nat.eqb_spec (length raw) PublicKeySize); cbn [negb]; naive_solver.
Qed.

Lemma validateManifestKey_iff k : validateManifestKey k = Ok tt <-> mkey_ok k.
Proof.
  unfold validateManifestKey, mkey_ok, bindR, IsZero, After. rewrite <- validatePublicKeyFields_iff.
  destruct (validatePublicKeyFields _ _ _) as [[]|]; [|naive_solver].
  destruct (Z.eqb_spec (mk_NotBefore k) 0), (Z.eqb_spec (mk_NotAfter k) 0),
    (Z.ltb_spec (mk_NotBefore k) (mk_NotAfter k)); cbn; naive_solver lia.
Qed.

Lemma checkAll_iff {A} (check : A -> result trustError unit) (P : A -> Prop) l :
  (forall a, check a = Ok tt <-> P a) -> checkAll check l = Ok tt <-> Forall P l.
Proof.
  intros H. induction l as [|a l IH]; cbn; [naive_solver|]. rewrite List.Forall_cons_iff, <- IH, <- H.
  unfold bindR. destruct (check a) as [[]|]; naive_solver.
Qed.

Lemma Bundle_Validate_iff b : Bundle_Validate b = Ok tt <-> bundle_ok b.
Proof.
  unfold Bundle_Validate, IsZero, bindR.
  assert (Hr : checkAll validateRootKey (tb_RootKeys b) = Ok tt <-> Forall root_ok (tb_RootKeys b))
    by (apply checkAll_iff; intros; apply validatePublicKeyFields_iff).
  assert (Hk : checkAll validateManifestKey (tb_ManifestKeys b) = Ok tt <-> Forall mkey_ok (tb_ManifestKeys b))
    by (apply checkAll_iff; intros; apply validateManifestKey_iff).
  destruct (Z.leb_spec (tb_Version b) 0); [split; [done|intros []; lia]|].
  case_bool_decide; [split; [done|by intros []]|].
  destruct (Z.eqb_spec (tb_GeneratedAt b) 0); [split; [done|by intros []]|].
  destruct (tb_RootKeys b) as [|r rs] eqn:Er; [split; [done|intros [? ? ? Hn]; by rewrite Er in Hn]|].
  destruct (tb_ManifestKeys b) as [|k ks] eqn:Ek; [split; [done|intros [? ? ? ? Hn]; by rewrite Ek in Hn]|].
  cbn [length Nat.eqb]. rewrite <- Er, <- Ek in *.
  destruct (checkAll validateRootKey _) as [[]|].
  - rewrite Hk. split; [|by intros []]. intros Hf. constructor; try done; [congruence|congruence|by apply Hr].
  - split; [done|]. intros []. by apply Hr.
Qed.

Lemma IsActive_iff k t :
  mkey_ok k -> IsActive t k = true <-> mk_NotBefore k <= t < mk_NotAfter k.
Proof.
  intros (_ & Hb & Ha & _). unfold IsActive, IsZero, Before.
  rewrite (proj2 (Z.eqb_neq _ _) Hb), (proj2 (Z.eqb_neq _ _) Ha). cbn [orb].
  destruct (Z.ltb_spec t (mk_NotBefore k)), (Z.ltb_spec t (mk_NotAfter k)); cbn; naive_solver lia.
Qed.

(** [List.find] with a key: the first entry that has it. *)
Definition first_with {A} (key : A -> string) (id : string) (l : list A) (a : A) : Prop :=
  exists pre post, l = (pre ++ a :: post)%list /\ key a = id /\ Forall (fun x => key x <> id) pre.

Lemma find_first {A} (key : A -> string) (id : string) l a :
  List.find (fun x => key x == id) l = Some a <-> first_with key id l a.
Proof.
  unfold first_with. induction l as [|x l IH]; cbn.
  - split; [done|]. intros (pre & post & H & _). by destruct pre.
  - case_bool_decide as Hx.
    + split.
      * intros [= ->]. exists [], l. by split_and!.
      * intros (pre & post & H & Ha & Hf). destruct pre as [|y pre]; [by injection H as -> ->|].
        injection H as <- _. inversion Hf; congruence.
    + rewrite IH. split; intros (pre & post & H & Ha & Hf).
      * exists (x :: pre), post. split_and!; [by rewrite H|done|by constructor].
      * destruct pre as [|y pre]; injection H as <- ->; [done|]. exists pre, post. inversion Hf. by split_and!.
Qed.

Lemma first_with_elem {A} (key : A -> string) id l (a : A) : first_with key id l a -> a ∈ l /\ key a = id.
Proof. intros (pre & post & -> & Hk & _). split; [|done]. set_solver. Qed.

(** ** Manifest signatures *)

(** The first key of that identifier is in its window and its signature of the payload verifies. *)
Definition signed_by_bundle (b : Bundle) (keyID : string) (payload signature : list Z) (t : Z) : Prop :=
  exists k pub, first_with mk_KeyID keyID (tb_ManifestKeys b) k /\ mk_NotBefore k <= t < mk_NotAfter k
    /\ DecodeString (mk_PublicKeyBase64 k) = Some pub /\ edVerify pub payload signature = true.

Lemma decode_key_ok i a p : key_shape i a p ->
  exists raw, DecodeString p = Some raw /\ decodeEd25519PublicKey p = Ok raw.
Proof.
  intros (_ & _ & raw & Hd & Hl). exists raw. split; [done|]. unfold decodeEd25519PublicKey.
  by rewrite Hd, Hl.
Qed.

Lemma VerifyManifestSignature_iff b keyID payload signature t :
  bundle_ok b ->
  VerifyManifestSignature b keyID payload signature t = Ok tt <-> signed_by_bundle b keyID payload signature t.
Proof.
  intros Hb. unfold VerifyManifestSignature, signed_by_bundle, findManifestKey.
  assert (Hk : forall k, first_with mk_KeyID keyID (tb_ManifestKeys b) k -> mkey_ok k).
  { intros k Hf. apply first_with_elem in Hf as [He _]. pose proof (bo_keys_ok b Hb) as Hok.
    rewrite list.Forall_forall in Hok. by apply Hok. }
  destruct (List.find _ _) as [k|] eqn:E.
  - apply find_first in E. pose proof (Hk k E) as Hok.
    destruct (decode_key_ok _ _ _ (proj1 Hok)) as (pub & Hd & ->).
    pose proof (IsActive_iff k t Hok) as Ha. split.
    + destruct (IsActive t k) eqn:Ei; cbn [negb]; [|done]. destruct (edVerify _ _ _) eqn:Ev; [|done]. intros _.
      exists k, pub. split; [done|]. split; [by apply Ha|done].
    + intros (k' & pub' & Hf & Hw & Hd' & Hv). assert (k' = k) as ->.
      { apply find_first in Hf, E. congruence. }
      rewrite (proj2 Ha Hw). cbn [negb]. replace pub with pub' by congruence. by rewrite Hv.
  - split; [done|]. intros (k' & pub' & Hf & _). apply find_first in Hf. congruence.
Qed.

(** ** Updates *)

(** What an update of [cur] needs besides being well-formed. *)
Record allowed_update (cur : Bundle) (u : BundleUpdateEnvelope) (t : Z) : Prop := mkAllowed {
  au_signed : exists root pub msg sig,
    first_with rk_KeyID (bu_SignedByKeyID u) (tb_RootKeys cur) root
    /\ DecodeString (rk_PublicKeyBase64 root) = Some pub /\ marshalJSON (bu_Bundle u) = Ok msg
    /\ DecodeString (bu_SignatureBase64 u) = Some sig /\ edVerify pub msg sig = true;
  au_root_kept : exists r r', r ∈ tb_RootKeys cur /\ r' ∈ tb_RootKeys (bu_Bundle u)
    /\ rk_KeyID r = rk_KeyID r' /\ rk_PublicKeyBase64 r = rk_PublicKeyBase64 r';
  au_version : tb_Version cur <= tb_Version (bu_Bundle u);
  au_same_id : tb_Version cur = tb_Version (bu_Bundle u) -> tb_BundleID cur = tb_BundleID (bu_Bundle u);
  au_overlap : exists k k', k ∈ tb_ManifestKeys cur /\ k' ∈ tb_ManifestKeys (bu_Bundle u)
    /\ mk_KeyID k = mk_KeyID k' /\ mk_NotBefore k <= t < mk_NotAfter k /\ mk_NotBefore k' <= t < mk_NotAfter k'
}.

Lemma chainCheck_iff ok : chainCheck ok = Ok tt <-> ok = true.
Proof. by destruct ok. Qed.

Lemma root_continuity_iff cur next :
  verifyRootContinuity cur next = Ok tt <->
  exists r r', r ∈ tb_RootKeys cur /\ r' ∈ tb_RootKeys next
    /\ rk_KeyID r = rk_KeyID r' /\ rk_PublicKeyBase64 r = rk_PublicKeyBase64 r'.
Proof.
  unfold verifyRootContinuity. rewrite chainCheck_iff, existsb_exists. split.
  - intros (r' & Hr' & H). apply existsb_exists in H as (r & Hr & H).
    apply andb_true_iff in H as [H1%bool_decide_eq_true H2%bool_decide_eq_true].
    exists r, r'. by rewrite !list_elem_of_In.
  - intros (r & r' & Hr & Hr' & H1 & H2). rewrite list_elem_of_In in Hr, Hr'. exists r'. split; [done|].
    apply existsb_exists. exists r. split; [done|]. by rewrite H1, H2, !bool_decide_true.
Qed.

Lemma monotonic_iff cur next :
  verifyBundleMonotonic cur next = Ok tt <->
  tb_Version cur <= tb_Version next /\ (tb_Version cur = tb_Version next -> tb_BundleID cur = tb_BundleID next).
Proof.
  unfold verifyBundleMonotonic. destruct (Z.ltb_spec (tb_Version next) (tb_Version cur)); [naive_solver lia|].
  destruct (Z.eqb_spec (tb_Version next) (tb_Version cur)); case_bool_decide; cbn; naive_solver lia.
Qed.

Lemma elem_active b t k : bundle_ok b ->
  k ∈ ActiveManifestKeys b t <-> k ∈ tb_ManifestKeys b /\ mk_NotBefore k <= t < mk_NotAfter k.
Proof.
  intros Hb. unfold ActiveManifestKeys. rewrite !list_elem_of_In, List.filter_In, <- list_elem_of_In.
  pose proof (bo_keys_ok b Hb) as Hok. rewrite list.Forall_forall in Hok.
  split; intros [Hk H]; (split; [done|]); by apply (IsActive_iff k t (Hok k Hk)).
Qed.

Lemma overlap_iff cur next t : bundle_ok cur -> bundle_ok next ->
  verifyRotationOverlap cur next t = Ok tt <->
  exists k k', k ∈ tb_ManifestKeys cur /\ k' ∈ tb_ManifestKeys next
    /\ mk_KeyID k = mk_KeyID k' /\ mk_NotBefore k <= t < mk_NotAfter k /\ mk_NotBefore k' <= t < mk_NotAfter k'.
Proof.
  intros Hc Hn. unfold verifyRotationOverlap. split.
  - destruct (_ || _); [done|]. rewrite chainCheck_iff, existsb_exists. intros (k & Hk & H).
    apply bool_decide_eq_true, elem_of_list_to_set, list_elem_of_fmap in H as (k' & Hid & Hk').
    rewrite <- list_elem_of_In in Hk. apply elem_active in Hk as [? ?]; [|done]. apply elem_active in Hk' as [? ?]; [|done].
    by exists k, k'.
  - intros (k & k' & H1 & H2 & Hid & H3 & H4).
    assert (Hk : k ∈ ActiveManifestKeys cur t) by (by apply elem_active).
    assert (Hk' : k' ∈ ActiveManifestKeys next t) by (by apply elem_active).
    destruct (ActiveManifestKeys cur t) as [|c cs] eqn:Ec; [by apply elem_of_nil in Hk|].
    destruct (ActiveManifestKeys next t) as [|n ns] eqn:En; [by apply elem_of_nil in Hk'|].
    cbn [length Nat.eqb orb]. rewrite chainCheck_iff, existsb_exists. exists k. split; [by apply list_elem_of_In|].
    apply bool_decide_true, elem_of_list_to_set, list_elem_of_fmap. by exists k'.
Qed.

Lemma update_signature_iff root u :
  root_ok root ->
  verifyBundleUpdateSignature root u = Ok tt <->
  exists pub msg sig, DecodeString (rk_PublicKeyBase64 root) = Some pub /\ marshalJSON (bu_Bundle u) = Ok msg
    /\ DecodeString (bu_SignatureBase64 u) = Some sig /\ edVerify pub msg sig = true.
Proof.
  intros Hr. unfold verifyBundleUpdateSignature, canonicalBundlePayload.
  destruct (decode_key_ok _ _ _ Hr) as (pub & Hd & ->). rewrite Hd.
  destruct (marshalJSON (bu_Bundle u)) as [msg|]; [|naive_solver].
  destruct (DecodeString (bu_SignatureBase64 u)) as [sig|]; [|naive_solver].
  split.
  - destruct (edVerify pub msg sig) eqn:Ev; cbn [negb]; [|done]. intros _. by exists pub, msg, sig.
  - intros (? & ? & ? & [= <-] & [= <-] & [= <-] & ->). done.
Qed.

Lemma hasRootKey_find b id : hasRootKeyByID b id = bool_decide (is_Some (findRootKey (tb_RootKeys b) id)).
Proof.
  unfold hasRootKeyByID, findRootKey. induction (tb_RootKeys b) as [|k l IH]; [done|]. cbn.
  destruct (rk_KeyID k == id); cbn; [done|apply IH].
Qed.

(** The checks, in whatever order, amount to this. *)
Lemma update_iff cur u t b :
  VerifyAndApplyUpdate cur u t = Ok b <->
  bundle_ok cur /\ bundle_ok (bu_Bundle u) /\ bu_SignedByKeyID u <> "" /\ bu_SignatureBase64 u <> ""
  /\ b = bu_Bundle u /\ allowed_update cur u t.
Proof.
  unfold VerifyAndApplyUpdate, Update_Validate, bindR. rewrite <- !Bundle_Validate_iff.
  destruct (Bundle_Validate cur) as [[]|] eqn:Ec; [apply Bundle_Validate_iff in Ec|naive_solver].
  destruct (Bundle_Validate (bu_Bundle u)) as [[]|] eqn:En; [apply Bundle_Validate_iff in En|naive_solver].
  case_bool_decide; [naive_solver|]. case_bool_decide; [naive_solver|].
  rewrite hasRootKey_find.
  destruct (findRootKey _ _) as [root|] eqn:Er; [|rewrite bool_decide_false by (by intros []); cbn [negb];
    split; [done|]; intros (_ & _ & _ & _ & _ & [(r & ? & ? & ? & Hf & _) _ _ _ _]); apply find_first in Hf;
    unfold findRootKey in Er; congruence].
  rewrite bool_decide_true by (by eexists). cbn [negb]. apply find_first in Er.
  assert (Hroot : root_ok root).
  { pose proof (bo_roots_ok cur Ec) as Hok. rewrite list.Forall_forall in Hok. apply Hok.
    by apply first_with_elem in Er as [? _]. }
  pose proof (update_signature_iff root u Hroot) as Hsig.
  pose proof (root_continuity_iff cur (bu_Bundle u)) as Hroots.
  pose proof (monotonic_iff cur (bu_Bundle u)) as Hmono.
  pose proof (overlap_iff cur (bu_Bundle u) t Ec En) as Hover.
  split.
  - destruct (verifyBundleUpdateSignature _ _) as [[]|]; [|done].
    destruct (verifyRootContinuity _ _) as [[]|]; [|done]. destruct (verifyBundleMonotonic _ _) as [[]|]; [|done].
    destruct (verifyActiveManifestKeys _ _) as [[]|]; [|done]. destruct (verifyRotationOverlap _ _ _) as [[]|]; [|done].
    intros [= <-]. destruct (proj1 Hsig eq_refl) as (pub & msg & sig & Hs). split_and!; try done. constructor.
    + by exists root, pub, msg, sig.
    + by apply Hroots.
    + by apply Hmono.
    + by apply Hmono.
    + by apply Hover.
  - intros (_ & _ & _ & _ & -> & [(r & pub & msg & sig & Hf & Hs) Hk Hv Hi Ho]).
    assert (r = root) as -> by (apply find_first in Hf, Er; congruence).
    rewrite (proj2 Hsig), (proj2 Hroots), (proj2 Hmono), (proj2 Hover) by eauto.
    destruct Ho as (k & k' & _ & Hk' & _ & _ & Hw). unfold verifyActiveManifestKeys.
    assert (Ha : k' ∈ ActiveManifestKeys (bu_Bundle u) t) by (by apply elem_active).
    by destruct (ActiveManifestKeys _ _); [apply elem_of_nil in Ha|].
Qed.

(** A bundle that is replaced by the updates it accepts, one after the other. *)
Definition applyUpdates (b : Bundle) (updates : list (BundleUpdateEnvelope * Z)) : Bundle :=
  fold_left (fun b '(u, t) => match VerifyAndApplyUpdate b u t with Ok b' => b' | Err _ => b end) updates b.

Lemma applyUpdates_snoc b updates u t :
  applyUpdates b (updates ++ [(u, t)]) =
  match VerifyAndApplyUpdate (applyUpdates b updates) u t with Ok b' => b' | Err _ => applyUpdates b updates end.
Proof. unfold applyUpdates. by rewrite fold_left_app. Qed.

(** C6: Trust changes only by signatures of trusted roots. Whatever updates are presented to a valid
    bundle, in whatever order and at whatever times, the bundle in force stays valid and its version
    never decreases; and it is either the first one, or it came in an update that was signed, under
    the first root key of that name in the bundle it replaced, over its own contents, that keeps one
    of that bundle's root keys, and in which a key identifier that could sign manifests at that time
    still can. *)
Theorem trust_changes_only_by_root_signature (b0 : Bundle) (updates : list (BundleUpdateEnvelope * Z)) :
  bundle_ok b0 ->
  let b := applyUpdates b0 updates in
  bundle_ok b /\ tb_Version b0 <= tb_Version b
  /\ (b = b0 \/ exists before u t after, updates = (before ++ (u, t) :: after)%list /\ b = bu_Bundle u
        /\ allowed_update (applyUpdates b0 before) u t).
Proof.
  intros H0. cbv zeta. induction updates as [|[u t] updates IH] using rev_ind.
  - split_and!; [done|done|by left].
  - destruct IH as (Hok & Hv & Hh). rewrite applyUpdates_snoc.
    destruct (VerifyAndApplyUpdate _ u t) as [b'|] eqn:E.
    + apply update_iff in E as (_ & Hn & _ & _ & -> & Ha). pose proof (au_version _ _ _ Ha).
      split_and!; [done|lia|]. right. by exists updates, u, t, [].
    + split_and!; [done|done|]. destruct Hh as [|(before & v & t' & after & -> & Hb & Ha)]; [by left|right].
      exists before, v, t', (after ++ [(u, t)])%list. split_and!; [|done|done].
      by rewrite <- app_assoc, <- app_comm_cons.
Qed.

End Trust.

(** ** Bundles to compute with, and the witness *)

(** Signatures are bytes. *)
#[export] Instance exByteCrypto : IdentityCrypto | 5 := {
  keyFromSeed := @keyFromSeed exIdentityCrypto;
  publicKeyOf := @publicKeyOf exIdentityCrypto;
  edSign k m := (take 32 k ++ replicate 32 (ex_total m mod 251))%list;
  edVerify pub m sig := bool_decide (sig = pub ++ replicate 32 (ex_total m mod 251))%list;
  blake2b256 := @blake2b256 exIdentityCrypto;
  base58Encode := @base58Encode exIdentityCrypto;
  sum256 := @sum256 exIdentityCrypto;
  hkdf32 := @hkdf32 exIdentityCrypto;
  mnemonicValid := @mnemonicValid exIdentityCrypto;
  mnemonicSeed := @mnemonicSeed exIdentityCrypto
}.
#[local] Existing Instance exByteCrypto | 0.

Definition ex_key (b : Z) : list Z := replicate 32 b.
Definition ex_key64 (b : Z) : string := EncodeToString (ex_key b).

#[export] Instance trustText_countable : Countable RootKey.
Proof.
  apply (inj_countable' (fun k => (rk_KeyID k, rk_Algorithm k, rk_PublicKeyBase64 k))
    (fun '(x, y, z) => mkRootKey x y z)). by intros [].
Defined.
#[export] Instance ManifestKey_countable : Countable ManifestKey.
Proof.
  apply (inj_countable' (fun k => (mk_KeyID k, mk_Algorithm k, mk_PublicKeyBase64 k, mk_NotBefore k, mk_NotAfter k))
    (fun '(v, w, x, y, z) => mkManifestKey v w x y z)). by intros [].
Defined.
#[export] Instance Bundle_countable : Countable Bundle.
Proof.
  apply (inj_countable' (fun b => (tb_Version b, tb_BundleID b, tb_GeneratedAt b, tb_RootKeys b, tb_ManifestKeys b))
    (fun '(v, w, x, y, z) => mkBundle v w x y z)). by intros [].
Defined.

#[export] Instance exBundleCodec : JsonCodec Bundle := {
  marshalJSON b := Ok [zenc b];
  unmarshalJSON bs := match bs with
    | [z] => match zdec z with Some b => Ok b | None => Err (errorsNew "json") end
    | _ => Err (errorsNew "json")
    end
}.

Definition ex_root : RootKey := mkRootKey "root-1" "ed25519" (ex_key64 1).
Definition ex_bundle (v : Z) (keys : list ManifestKey) : Bundle := mkBundle v "bundle" 5 [ex_root] keys.
Definition ex_mkey (id : string) (b from to : Z) : ManifestKey := mkManifestKey id "ed25519" (ex_key64 b) from to.

Definition ex_trust : Bundle := ex_bundle 1 [ex_mkey "m1" 7 100 200].

(** [next] signed by the root. *)
Definition ex_update (next : Bundle) : BundleUpdateEnvelope :=
  mkUpdate next "root-1" (EncodeToString (edSign (ex_key 1 ++ ex_key 1)%list [zenc next])).

Definition ex_next : Bundle := ex_bundle 2 [ex_mkey "m1" 7 100 300; ex_mkey "m2" 8 150 400].
Definition ex_forged : BundleUpdateEnvelope :=
  mkUpdate (ex_bundle 3 [ex_mkey "m1" 9 100 900]) "root-1" (EncodeToString (ex_key 1 ++ ex_key 0)%list).

Definition ex_final : Bundle := applyUpdates ex_trust [(ex_update ex_next, 150); (ex_forged, 160)].

Example forged_update_is_refused : ex_final = ex_next.
Proof. vm_compute. reflexivity. Qed.

Lemma ex_trust_ok : bundle_ok ex_trust.
Proof. apply Bundle_Validate_iff. vm_compute. reflexivity. Qed.

Lemma trust_changes_only_by_root_signature_witness :
  bundle_ok ex_final /\ exists u t, ex_final = bu_Bundle u /\ allowed_update ex_trust u t.
Proof.
  destruct (trust_changes_only_by_root_signature ex_trust [(ex_update ex_next, 150); (ex_forged, 160)])
    as (H1 & _ & H2).
  - apply Bundle_Validate_iff. vm_compute. reflexivity.
  - split; [exact H1|]. exists (ex_update ex_next), 150. split; [vm_compute; reflexivity|].
    apply (update_iff ex_trust (ex_update ex_next) 150 ex_next). vm_compute. reflexivity.
Defined.

(** The overlap is one of identifiers: an update may give the only active identifier another key, and what
    the old key has signed is refused from then on. *)
Example overlap_does_not_keep_the_key :
  let next := ex_bundle 2 [ex_mkey "m1" 9 100 300] in
  let sig := edSign (ex_key 7 ++ ex_key 7)%list [1] in
  VerifyManifestSignature ex_trust "m1" [1] sig 150 = Ok tt
  /\ VerifyAndApplyUpdate ex_trust (ex_update next) 150 = Ok next
  /\ VerifyManifestSignature next "m1" [1] sig 150 = Err ErrManifestSignatureInvalid.
Proof. vm_compute. split_and!; reflexivity. Qed.

(** A bundle of the same version and identifier may have other contents, so an older one can be put back. *)
Example same_version_is_replayed :
  let v1 := ex_bundle 1 [ex_mkey "m1" 7 100 200; ex_mkey "m2" 8 100 200] in
  VerifyAndApplyUpdate ex_trust (ex_update v1) 150 = Ok v1
  /\ VerifyAndApplyUpdate v1 (ex_update ex_trust) 150 = Ok ex_trust.
Proof. vm_compute. split_and!; reflexivity. Qed.
