(* ===== verification/NetworkManifest.v ===== *)
(** * Network manifests

    Models internal/bootstrap/networkmanifest/manifest.go: the manifest that names the bootstrap
    nodes of the network, its schema, its canonical form, and its verification under a trust
    bundle. Floats are an argument; so is the streaming decoder of encoding/json. *)
From S2P Require Import Prelude Encoding Text SecureStore Identity ManifestTrust.
From stdpp Require Import base gmap strings list sets option.
From Stdlib Require Import ZArith Lia Ascii.
Open Scope string_scope.
Open Scope Z_scope.
Open Scope go_scope.

(** ** Data *)

Section Data.
(** float64 *)
Context {F : Type}.

Record ReconnectPolicy := mkReconnect { rp_BaseIntervalMS : Z; rp_MaxIntervalMS : Z; rp_JitterRatio : F }.
Record Manifest := mkManifest {
  nm_Version : Z; nm_GeneratedAt : Z; nm_ExpiresAt : Z; nm_BootstrapNodes : list string; nm_MinPeers : Z;
  nm_ReconnectPolicy : ReconnectPolicy; nm_KeyID : string; nm_Signature : string
}.

(** The map of [CanonicalPayload]: the times as text, and no signature. *)
Record CanonicalManifest := mkCanonical {
  cm_Version : Z; cm_GeneratedAt : string; cm_ExpiresAt : string; cm_BootstrapNodes : list string;
  cm_MinPeers : Z; cm_ReconnectPolicy : ReconnectPolicy; cm_KeyID : string
}.

End Data.
Arguments ReconnectPolicy : clear implicits.
Arguments Manifest : clear implicits.
Arguments CanonicalManifest : clear implicits.

(** What follows a decoded value: another one, the end, or an error. *)
Inductive streamEnd := StreamValue | StreamEOF | StreamError (err : error).

(** A decoder that disallows unknown fields, and json.Marshal of the canonical form. *)
Class ManifestCodec (F : Type) := {
  decodeManifest : list Z -> result error (Manifest F * list Z);
  decodeAnother : list Z -> streamEnd;
  marshalCanonical : CanonicalManifest F -> result error (list Z)
}.

Definition RejectSchemaInvalid : string := "MANIFEST_SCHEMA_INVALID".
Definition RejectExpired : string := "MANIFEST_EXPIRED".
Definition RejectReplay : string := "MANIFEST_REPLAY_DETECTED".
Definition RejectKeyUnknown : string := "MANIFEST_KEY_UNKNOWN".
Definition RejectSignatureInvalid : string := "MANIFEST_SIGNATURE_INVALID".
Definition RejectPolicyInvalid : string := "MANIFEST_POLICY_INVALID".

(** [VerifyError]: a code around an error of this package or of manifesttrust. *)
Inductive verifyCause := CauseError (e : error) | CauseTrust (e : trustError).
Record VerifyError := mkVerifyError { ve_Code : string; ve_Err : verifyCause }.

#[export] Instance VerifyError_eq_dec : EqDecision VerifyError.
Proof. assert (EqDecision verifyCause) by solve_decision. solve_decision. Defined.

Definition causeText `{GoErrorText} (c : verifyCause) : string :=
  match c with CauseError e => ErrorText e | CauseTrust e => trustErrorText e end.
Definition verifyErrorText `{GoErrorText} (e : VerifyError) : string :=
  ve_Code e +:+ ": " +:+ causeText (ve_Err e).

Definition RejectCodeOf (e : VerifyError) : string := ve_Code e.

(** ** The schema *)

Definition keyIDChar (a : ascii) : bool :=
  let n := byteN a in
  ((97 <=? n) && (n <=? 122) || (65 <=? n) && (n <=? 90) || (48 <=? n) && (n <=? 57)
   || (n =? 46) || (n =? 95) || (n =? 58) || (n =? 45))%nat.

(** The regular expression [keyIDPattern]. *)
Definition keyIDPattern (s : string) : bool :=
  negb (s == "") && forallb keyIDChar (String.list_ascii_of_string s).

Definition strlen (s : string) : Z := Z.of_nat (String.length s).

Section Manifests.
Context {F : Type} (float_lt : F -> F -> bool) (float_of : Z -> F).
Context {fmt : GoFormat} {crypto : IdentityCrypto} {codec : ManifestCodec F}.

Definition reject (code text : string) : VerifyError := mkVerifyError code (CauseError (errorsNew text)).

Definition badNode (node : string) : bool :=
  let trimmed := TrimSpace node in (trimmed == "") || (512 <? strlen trimmed).

Definition validateSchema (m : Manifest F) : result VerifyError unit :=
  let p := nm_ReconnectPolicy m in
  if nm_Version m <? 1 then Err (reject RejectSchemaInvalid "version must be >= 1") else
  if IsZero (nm_GeneratedAt m) then Err (reject RejectSchemaInvalid "generated_at is required") else
  if IsZero (nm_ExpiresAt m) then Err (reject RejectSchemaInvalid "expires_at is required") else
  if negb (After (nm_ExpiresAt m) (nm_GeneratedAt m))
  then Err (reject RejectSchemaInvalid "expires_at must be greater than generated_at") else
  if (List.length (nm_BootstrapNodes m) <? 1)%nat || (64 <? List.length (nm_BootstrapNodes m))%nat
  then Err (reject RejectSchemaInvalid "bootstrap_nodes size must be within [1..64]") else
  if existsb badNode (nm_BootstrapNodes m)
  then Err (reject RejectSchemaInvalid "bootstrap node entry is invalid") else
  if (nm_MinPeers m <? 1) || (128 <? nm_MinPeers m)
  then Err (reject RejectSchemaInvalid "min_peers must be within [1..128]") else
  if (rp_BaseIntervalMS p <? 500) || (120000 <? rp_BaseIntervalMS p)
  then Err (reject RejectPolicyInvalid "base_interval_ms must be within [500..120000]") else
  if (rp_MaxIntervalMS p <? 500) || (300000 <? rp_MaxIntervalMS p)
  then Err (reject RejectPolicyInvalid "max_interval_ms must be within [500..300000]") else
  if rp_MaxIntervalMS p <? rp_BaseIntervalMS p
  then Err (reject RejectPolicyInvalid "max_interval_ms must be >= base_interval_ms") else
  if float_lt (rp_JitterRatio p) (float_of 0) || float_lt (float_of 1) (rp_JitterRatio p)
  then Err (reject RejectPolicyInvalid "jitter_ratio must be within [0..1]") else
  if (nm_KeyID m == "") || (128 <? strlen (nm_KeyID m)) || negb (keyIDPattern (nm_KeyID m))
  then Err (reject RejectSchemaInvalid "key_id is invalid") else
  if (strlen (nm_Signature m) <? 16) || (4096 <? strlen (nm_Signature m))
  then Err (reject RejectSchemaInvalid "signature length is invalid") else Ok tt.

Definition ParseStrict (raw : list Z) : result VerifyError (Manifest F) :=
  match decodeManifest raw with
  | Err err => Err (mkVerifyError RejectSchemaInvalid (CauseError err))
  | Ok (m, rest) =>
      match decodeAnother rest with
      | StreamValue => Err (reject RejectSchemaInvalid "unexpected trailing json tokens")
      | StreamError err => Err (mkVerifyError RejectSchemaInvalid (CauseError err))
      | StreamEOF => try! _ := validateSchema m in Ok m
      end
  end.

Definition canonicalOf (m : Manifest F) : CanonicalManifest F :=
  mkCanonical (nm_Version m) (FormatRFC3339Nano (nm_GeneratedAt m)) (FormatRFC3339Nano (nm_ExpiresAt m))
    (nm_BootstrapNodes m) (nm_MinPeers m) (nm_ReconnectPolicy m) (nm_KeyID m).

Definition CanonicalPayload (m : Manifest F) : result error (list Z) := marshalCanonical (canonicalOf m).

(** The code for an error of manifesttrust. *)
Definition signatureReject (err : trustError) : VerifyError :=
  mkVerifyError
    match err with
    | ErrManifestKeyUnknown | ErrManifestKeyInactive => RejectKeyUnknown
    | ErrManifestSignatureInvalid => RejectSignatureInvalid
    | _ => RejectSchemaInvalid
    end (CauseTrust err).

(** [clock] is what time.Now returns when the request has no time. *)
Definition Verify (clock : Z) (raw : list Z) (trust : Bundle) (now lastAppliedVersion : Z)
    : result VerifyError (Manifest F) :=
  let now := if IsZero now then clock else now in
  try! manifest := ParseStrict raw in
  if negb (After (nm_ExpiresAt manifest) now) then Err (reject RejectExpired "manifest expired") else
  if (0 <? lastAppliedVersion) && (nm_Version manifest <? lastAppliedVersion)
  then Err (reject RejectReplay "manifest version is older than last applied") else
  match DecodeString (nm_Signature manifest) with
  | None => Err (reject RejectSignatureInvalid "signature is not valid base64")
  | Some signature =>
      match CanonicalPayload manifest with
      | Err err => Err (mkVerifyError RejectSchemaInvalid (CauseError err))
      | Ok payload =>
          match VerifyManifestSignature trust (nm_KeyID manifest) payload signature now with
          | Err err => Err (signatureReject err)
          | Ok _ => Ok manifest
          end
      end
  end.

(** ** What is accepted *)

Record manifest_ok (m : Manifest F) : Prop := mkManifestOk {
  mo_version : 1 <= nm_Version m; mo_generated : nm_GeneratedAt m <> 0; mo_expires : nm_ExpiresAt m <> 0;
  mo_window : nm_GeneratedAt m < nm_ExpiresAt m;
  mo_nodes : (1 <= List.length (nm_BootstrapNodes m) <= 64)%nat;
  mo_node : Forall (fun n => TrimSpace n <> "" /\ strlen (TrimSpace n) <= 512) (nm_BootstrapNodes m);
  mo_peers : 1 <= nm_MinPeers m <= 128;
  mo_base : 500 <= rp_BaseIntervalMS (nm_ReconnectPolicy m) <= 120000;
  mo_max : rp_BaseIntervalMS (nm_ReconnectPolicy m) <= rp_MaxIntervalMS (nm_ReconnectPolicy m) <= 300000;
  mo_jitter : float_lt (rp_JitterRatio (nm_ReconnectPolicy m)) (float_of 0) = false
              /\ float_lt (float_of 1) (rp_JitterRatio (nm_ReconnectPolicy m)) = false;
  mo_key : nm_KeyID m <> "" /\ strlen (nm_KeyID m) <= 128
           /\ Forall (fun a => keyIDChar a = true) (String.list_ascii_of_string (nm_KeyID m));
  mo_signature : 16 <= strlen (nm_Signature m) <= 4096
}.

Lemma badNode_iff l :
  existsb badNode l = false <-> Forall (fun n => TrimSpace n <> "" /\ strlen (TrimSpace n) <= 512) l.
Proof.
  induction l as [|n l IH]; cbn; [naive_solver|]. rewrite orb_false_iff, IH, List.Forall_cons_iff.
  unfold badNode. rewrite orb_false_iff, bool_decide_eq_false, Z.ltb_ge. naive_solver.
Qed.

Lemma keyIDPattern_iff s :
  keyIDPattern s = true <-> s <> "" /\ Forall (fun a => keyIDChar a = true) (String.list_ascii_of_string s).
Proof.
  unfold keyIDPattern. rewrite andb_true_iff, negb_true_iff, bool_decide_eq_false, forallb_forall.
  by rewrite List.Forall_forall.
Qed.

Lemma guard_iff {E A} (b : bool) (e : E) (r : result E A) a :
  (if b then Err e else r) = Ok a <-> b = false /\ r = Ok a.
Proof. destruct b; naive_solver. Qed.

Lemma validateSchema_iff m : validateSchema m = Ok tt <-> manifest_ok m.
Proof.
  unfold validateSchema, IsZero, After. rewrite !guard_iff, !orb_false_iff, badNode_iff, !negb_false_iff,
    keyIDPattern_iff, !Z.ltb_ge, !Z.eqb_neq, Z.ltb_lt, !Nat.ltb_ge, bool_decide_eq_false.
  split.
  - intros H. decompose [and] H. constructor; try done; lia.
  - intros []. split_and!; try done; try lia; naive_solver.
Qed.

(** C21: A manifest is accepted exactly when it should be. [Verify], at a known time and under a
    valid bundle, returns a manifest if and only if the bytes decode to it with nothing after it, it
    keeps the bounds of the schema, it has not expired, it is not older than the one applied
    last, and its signature is valid over its canonical form under the first key of the bundle with
    its identifier, inside that key's window. *)
Theorem manifest_acceptance_exact (clock : Z) (raw : list Z) (trust : Bundle) (now last : Z) (m : Manifest F) :
  bundle_ok trust -> now <> 0 ->
  Verify clock raw trust now last = Ok m <->
  (exists rest, decodeManifest raw = Ok (m, rest) /\ decodeAnother rest = StreamEOF)
  /\ manifest_ok m /\ now < nm_ExpiresAt m /\ (last <= 0 \/ last <= nm_Version m)
  /\ exists payload signature, CanonicalPayload m = Ok payload
       /\ DecodeString (nm_Signature m) = Some signature
       /\ signed_by_bundle trust (nm_KeyID m) payload signature now.
Proof.
  intros Hb Hn. unfold Verify, IsZero. rewrite (proj2 (Z.eqb_neq _ _) Hn). unfold bindR, ParseStrict.
  destruct (decodeManifest raw) as [[m' rest]|e]; [|naive_solver].
  assert (Hend : decodeAnother rest <> StreamEOF -> forall (P : Prop) Q,
    (exists r, @Ok error _ (m', rest) = Ok (m, r) /\ decodeAnother r = StreamEOF) /\ Q -> P).
  { intros Hne P Q ((r & [= _ <-] & He) & _). done. }
  destruct (decodeAnother rest) as [| |err] eqn:Er; [split; [done|by apply Hend]| |split; [done|by apply Hend]].
  destruct (validateSchema m') as [[]|] eqn:Es; cbn [bindR].
  2: { split; [done|]. intros ((? & [= <- <-] & _) & Hok & _). apply validateSchema_iff in Hok. congruence. }
  apply validateSchema_iff in Es. rewrite !guard_iff, negb_false_iff, andb_false_iff. unfold After.
  rewrite Z.ltb_lt, !Z.ltb_ge.
  split.
  - intros (He & Hv & H). destruct (DecodeString (nm_Signature m')) as [sig|] eqn:Ed; [|done].
    destruct (CanonicalPayload m') as [payload|] eqn:Ep; [|done].
    destruct (VerifyManifestSignature _ _ _ _ _) as [[]|] eqn:Ev; [|done]. injection H as <-.
    apply VerifyManifestSignature_iff in Ev; [|done]. split_and!; [by exists rest|done|done|done|].
    by exists payload, sig.
  - intros ((? & [= <- <-] & _) & Hok & He & Hv & payload & sig & -> & -> & Hs).
    apply VerifyManifestSignature_iff in Hs; [|done]. rewrite Hs. by split_and!.
Qed.

End Manifests.

(** ** A manifest to compute with, and the witness; floats are thousandths *)

Definition ex_lt : Z -> Z -> bool := Z.ltb.
Definition ex_of (n : Z) : Z := n * 1000.

#[export] Instance ReconnectPolicy_eq_dec {F} `{EqDecision F} : EqDecision (ReconnectPolicy F).
Proof. solve_decision. Defined.
#[export] Instance Manifest_eq_dec {F} `{EqDecision F} : EqDecision (Manifest F).
Proof. solve_decision. Defined.
#[export] Instance ReconnectPolicy_countable {F} `{Countable F} : Countable (ReconnectPolicy F).
Proof.
  apply (inj_countable' (fun p => (rp_BaseIntervalMS p, rp_MaxIntervalMS p, rp_JitterRatio p))
    (fun '(x, y, z) => mkReconnect x y z)). by intros [].
Defined.
#[export] Instance Manifest_countable {F} `{Countable F} : Countable (Manifest F).
Proof.
  apply (inj_countable' (fun m => (nm_Version m, nm_GeneratedAt m, nm_ExpiresAt m, nm_BootstrapNodes m,
      nm_MinPeers m, nm_ReconnectPolicy m, nm_KeyID m, nm_Signature m))
    (fun '(v1, v2, v3, v4, v5, v6, v7, v8) => mkManifest v1 v2 v3 v4 v5 v6 v7 v8)). by intros [].
Defined.

Definition canonicalZ {F} `{Countable F} (m : CanonicalManifest F) : Z :=
  zenc (cm_Version m, cm_GeneratedAt m, cm_ExpiresAt m, cm_BootstrapNodes m, cm_MinPeers m,
        cm_ReconnectPolicy m, cm_KeyID m).

#[export] Instance exManifestCodec {F} `{Countable F} : ManifestCodec F := {
  decodeManifest bs := match bs with
    | z :: rest => match zdec z with Some m => Ok (m, rest) | None => Err (errorsNew "json") end
    | [] => Err (errorsNew "EOF")
    end;
  decodeAnother rest := match rest with [] => StreamEOF | _ => StreamValue end;
  marshalCanonical m := Ok [canonicalZ m]
}.

#[local] Existing Instance exByteCrypto | 0.

(** Signed with the key [b] under the identifier [id]. *)
Definition ex_manifest_ {F} `{Countable F} (jitter : F) (version : Z) (id : string) (b expires : Z) : Manifest F :=
  let m := mkManifest version 50 expires ["/dns4/boot.example/tcp/60000"] 1 (mkReconnect 1000 30000 jitter) id "" in
  let sig := edSign (ex_key b ++ ex_key b)%list [canonicalZ (canonicalOf m)] in
  mkManifest version 50 expires ["/dns4/boot.example/tcp/60000"] 1 (mkReconnect 1000 30000 jitter) id
    (EncodeToString sig).
Definition ex_manifest : Z -> string -> Z -> Z -> Manifest Z := ex_manifest_ 200.

Definition ex_raw {F} `{Countable F} (m : Manifest F) : list Z := [zenc m].
Definition ex_verify (raw : list Z) (now last : Z) := Verify ex_lt ex_of 0 raw ex_trust now last.

Lemma manifest_acceptance_exact_witness :
  ex_verify (ex_raw (ex_manifest 4 "m1" 7 180)) 150 3 = Ok (ex_manifest 4 "m1" 7 180)
  /\ exists payload signature, CanonicalPayload (ex_manifest 4 "m1" 7 180) = Ok payload
       /\ signed_by_bundle ex_trust "m1" payload signature 150.
Proof.
  split; [vm_compute; reflexivity|].
  destruct (manifest_acceptance_exact ex_lt ex_of 0 (ex_raw (ex_manifest 4 "m1" 7 180)) ex_trust 150 3
    (ex_manifest 4 "m1" 7 180)) as [H _].
  - apply ex_trust_ok.
  - lia.
  - destruct H as (_ & _ & _ & _ & payload & signature & Hp & _ & Hs); [vm_compute; reflexivity|].
    exists payload, signature. split; [exact Hp|exact Hs].
Defined.

(** The refusals: trailing data, expiry, an older version, an unknown key, another key's signature. *)
Example refusals :
  let code r := match r with Err e => RejectCodeOf e | Ok _ => "" end in
  let m := ex_manifest 4 "m1" 7 180 in
  [code (ex_verify (ex_raw m ++ [1])%list 150 0); code (ex_verify (ex_raw m) 180 0);
   code (ex_verify (ex_raw m) 150 5); code (ex_verify (ex_raw (ex_manifest 4 "m9" 7 180)) 150 0);
   code (ex_verify (ex_raw (ex_manifest 4 "m1" 8 180)) 150 0); code (ex_verify (ex_raw m) 99 0)]
  = [RejectSchemaInvalid; RejectExpired; RejectReplay; RejectKeyUnknown; RejectSignatureInvalid; RejectKeyUnknown].
Proof. vm_compute. reflexivity. Qed.
