(* ===== verification/RefreshPolicy.v ===== *)
(** * When the bootstrap manifest is refreshed

    Models internal/bootstrap/manifestruntime/policy.go: the freshness of a manifest, the choice
    of a fallback, and the controller that decides how long to wait before the next attempt.
    float64 is an interface with the laws of its order and of rounding. *)
From S2P Require Import Prelude.
From stdpp Require Import base strings list sets option.
From Stdlib Require Import ZArith Lia.
Open Scope string_scope.
Open Scope Z_scope.
Open Scope go_scope.

(** ** float64 *)

Class GoFloat := {
  float64 : Type;
  fofZ : Z -> float64;
  flt : float64 -> float64 -> bool;
  fle : float64 -> float64 -> bool;
  fadd : float64 -> float64 -> float64;
  fsub : float64 -> float64 -> float64;
  fmul : float64 -> float64 -> float64;
  (** math.Pow, and the conversion to an int64 *)
  fpow : float64 -> float64 -> float64;
  ftrunc : float64 -> Z;
  fNaN : float64 -> Prop
}.

(** [x] is a number between 0 and the integer [a]; every number is ordered against every other. *)
Definition fbetween `{GoFloat} (a : Z) (x : float64) : Prop :=
  ~ fNaN x /\ flt x (fofZ 0) = false /\ flt (fofZ a) x = false.

(** Rounding is monotone and exact on the integers below 2^53, and NaN comes of infinities only. *)
Class GoFloatLaws (C : GoFloat) : Prop := {
  fofZ_num n : ~ fNaN (fofZ n);
  flt_ofZ a b : Z.abs a <= 2 ^ 53 -> Z.abs b <= 2 ^ 53 -> flt (fofZ a) (fofZ b) = (a <? b);
  fle_flt x y : ~ fNaN x -> ~ fNaN y -> fle x y = negb (flt y x);
  flt_asym x y : flt x y = true -> flt y x = false;
  fle_trans x y z : ~ fNaN x -> ~ fNaN y -> ~ fNaN z -> flt y x = false -> flt z y = false -> flt z x = false;
  ftrunc_ofZ n : Z.abs n <= 2 ^ 53 -> ftrunc (fofZ n) = n;
  ftrunc_mono a x y : a <= 2 ^ 53 -> fbetween a x -> fbetween a y -> flt y x = false -> ftrunc x <= ftrunc y;
  fpow_ge1 f n : ~ fNaN f -> flt f (fofZ 1) = false -> 0 <= n ->
    ~ fNaN (fpow f (fofZ n)) /\ flt (fpow f (fofZ n)) (fofZ 1) = false;
  (** a factor that is at least one, or at most one *)
  fmul_ge x y : ~ fNaN x -> ~ fNaN y -> flt (fofZ 0) x = true -> flt y (fofZ 1) = false ->
    ~ fNaN (fmul x y) /\ flt (fmul x y) x = false;
  fmul_le a x y : a <= 2 ^ 53 -> fbetween a x -> fbetween 1 y ->
    fbetween a (fmul x y) /\ flt x (fmul x y) = false;
  fmul_comm x y : fmul x y = fmul y x;
  fadd_le a b x y : 0 <= a -> 0 <= b -> a + b <= 2 ^ 53 -> fbetween a x -> fbetween b y ->
    fbetween (a + b) (fadd x y) /\ flt (fadd x y) x = false;
  fsub_le a x y : a <= 2 ^ 53 -> fbetween a x -> ~ fNaN y -> flt y (fofZ 0) = false -> flt x y = false ->
    fbetween a (fsub x y) /\ flt x (fsub x y) = false
}.

(** ** Data *)

Inductive RefreshState := StateFresh | StateStale | StateExpired.
Inductive Source := SourceManifest | SourceCache | SourceBaked | SourceNone.
Inductive ErrorKind := ErrorNone | ErrorRecoverable | ErrorNonRecoverable.

#[export] Instance RefreshState_eq_dec : EqDecision RefreshState.
Proof. solve_decision. Defined.
#[export] Instance Source_eq_dec : EqDecision Source.
Proof. solve_decision. Defined.
#[export] Instance ErrorKind_eq_dec : EqDecision ErrorKind.
Proof. solve_decision. Defined.

Section Policy.
Context {float : GoFloat}.

Record PolicyConfig := mkPolicyConfig {
  pc_RefreshInterval : Z; pc_StaleRefreshInterval : Z; pc_SlowPollingInterval : Z; pc_StaleWindow : Z;
  pc_BackoffBase : Z; pc_BackoffMax : Z; pc_BackoffFactor : float64; pc_BackoffJitterRatio : float64
}.

Definition positiveOr (v dflt : Z) : Z := if v <=? 0 then dflt else v.

Definition Normalize (c : PolicyConfig) : PolicyConfig :=
  let base := positiveOr (pc_BackoffBase c) (1 * Second) in
  let max := positiveOr (pc_BackoffMax c) (30 * Second) in
  let max := if max <? base then base else max in
  mkPolicyConfig (positiveOr (pc_RefreshInterval c) (60 * Second)) (positiveOr (pc_StaleRefreshInterval c) (15 * Second))
    (positiveOr (pc_SlowPollingInterval c) (60 * Second)) (positiveOr (pc_StaleWindow c) (5 * Minute)) base max
    (if flt (pc_BackoffFactor c) (fofZ 1) then fofZ 2 else pc_BackoffFactor c)
    (if flt (pc_BackoffJitterRatio c) (fofZ 0) then fofZ 0
     else if flt (fofZ 1) (pc_BackoffJitterRatio c) then fofZ 1 else pc_BackoffJitterRatio c).

Record AttemptOutcome := mkOutcome {
  ao_ManifestAccepted : bool; ao_ManifestExpiresAt : Z; ao_ErrorKind : ErrorKind; ao_CacheUsable : bool;
  ao_BakedUsable : bool
}.
Record Decision := mkDecision {
  de_State : RefreshState; de_SourceBefore : Source; de_SourceAfter : Source; de_NextDelay : Z;
  de_FallbackApplied : bool; de_RestoredManifest : bool; de_Reason : string
}.
Record Controller := mkController {
  ct_cfg : PolicyConfig; ct_source : Source; ct_failures : Z; ct_lastExpiryAt : Z
}.

Definition NewController (cfg : PolicyConfig) : Controller := mkController (Normalize cfg) SourceManifest 0 0.

(** [Add] on times: durations are int64, times are not bounded here. *)
Definition StateAt (now expiresAt staleWindow : Z) : RefreshState :=
  if IsZero expiresAt || negb (Before now expiresAt) then StateExpired else
  if Before now (expiresAt + s64 (- staleWindow)) then StateFresh else StateStale.

Definition SelectFallbackSource (cacheUsable bakedUsable : bool) : result error Source :=
  if cacheUsable then Ok SourceCache else
  if bakedUsable then Ok SourceBaked else Err (errorsNew "bootstrap sources are unavailable").

(** [r] is what rnd.Float64 returns; the generator is never nil. *)
Definition nextBackoff (attempt base max : Z) (factor jitter r : float64) : Z :=
  let attempt := if attempt <? 1 then 1 else attempt in
  let value := fmul (fofZ base) (fpow factor (fofZ (attempt - 1))) in
  let value := if flt (fofZ max) value then fofZ max else value in
  if fle jitter (fofZ 0) then ftrunc value else
  let delta := fmul value jitter in
  let low := fsub value delta in
  let high := fadd value delta in
  let low := if flt low (fofZ 0) then fofZ 0 else low in
  ftrunc (fadd low (fmul r (fsub high low))).

Definition Decide (r : float64) (now : Z) (outcome : AttemptOutcome) (c : Controller) : Controller * Decision :=
  let before := ct_source c in
  let cfg := ct_cfg c in
  if ao_ManifestAccepted outcome then
    let expiry := ao_ManifestExpiresAt outcome in
    let state := StateAt now expiry (pc_StaleWindow cfg) in
    let delay := if bool_decide (state = StateStale) then pc_StaleRefreshInterval cfg else pc_RefreshInterval cfg in
    let changed := negb (bool_decide (before = SourceManifest)) in
    (mkController cfg SourceManifest 0 expiry,
     mkDecision state before SourceManifest delay changed changed "manifest accepted")
  else
    let state := if negb (IsZero (ct_lastExpiryAt c))
                 then StateAt now (ct_lastExpiryAt c) (pc_StaleWindow cfg) else StateExpired in
    let source := match SelectFallbackSource (ao_CacheUsable outcome) (ao_BakedUsable outcome) with
                  | Ok fallback => fallback | Err _ => SourceNone end in
    let '(failures, delay) :=
      if bool_decide (ao_ErrorKind outcome = ErrorRecoverable)
      then let f := s64 (ct_failures c + 1) in
           (f, nextBackoff f (pc_BackoffBase cfg) (pc_BackoffMax cfg) (pc_BackoffFactor cfg)
                 (pc_BackoffJitterRatio cfg) r)
      else (0, pc_SlowPollingInterval cfg) in
    let reason := match ao_ErrorKind outcome with
                  | ErrorRecoverable => "recoverable error"
                  | ErrorNonRecoverable => "non-recoverable error"
                  | ErrorNone => "manifest rejected"
                  end in
    let reason := if bool_decide (source = SourceNone) then "fallback unavailable" else reason in
    (mkController cfg source failures (ct_lastExpiryAt c),
     mkDecision state before source delay
       (negb (bool_decide (before = source)) && negb (bool_decide (source = SourceManifest))) false reason).

(** ** The delays *)

Context {laws : GoFloatLaws float}.

Definition policy_ok (c : PolicyConfig) : Prop :=
  0 < pc_RefreshInterval c /\ 0 < pc_StaleRefreshInterval c /\ 0 < pc_SlowPollingInterval c
  /\ 0 < pc_StaleWindow c /\ 0 < pc_BackoffBase c <= pc_BackoffMax c
  /\ flt (pc_BackoffFactor c) (fofZ 1) = false /\ flt (pc_BackoffJitterRatio c) (fofZ 0) = false
  /\ flt (fofZ 1) (pc_BackoffJitterRatio c) = false.

Lemma positiveOr_pos v d : 0 < d -> 0 < positiveOr v d.
Proof. unfold positiveOr. destruct (Z.leb_spec v 0); lia. Qed.

Lemma Normalize_ok c : policy_ok (Normalize c).
Proof.
  unfold policy_ok, Normalize. cbn [pc_RefreshInterval pc_StaleRefreshInterval pc_SlowPollingInterval
    pc_StaleWindow pc_BackoffBase pc_BackoffMax pc_BackoffFactor pc_BackoffJitterRatio].
  split; [by apply positiveOr_pos|]. split; [by apply positiveOr_pos|]. split; [by apply positiveOr_pos|].
  split; [by apply positiveOr_pos|].
  assert (Hb : 0 < positiveOr (pc_BackoffBase c) (1 * Second)) by (by apply positiveOr_pos).
  split; [destruct (Z.ltb_spec (positiveOr (pc_BackoffMax c) (30 * Second)) (positiveOr (pc_BackoffBase c) (1 * Second))); lia|].
  split; [destruct (flt (pc_BackoffFactor c) (fofZ 1)) eqn:E; [by rewrite flt_ofZ|done]|].
  destruct (flt (pc_BackoffJitterRatio c) (fofZ 0)) eqn:E; [by rewrite !flt_ofZ|].
  destruct (flt (fofZ 1) (pc_BackoffJitterRatio c)) eqn:E'; [by rewrite !flt_ofZ|done].
Qed.

Lemma trunc_between a x : 0 <= a -> a <= 2 ^ 53 -> fbetween a x -> 0 <= ftrunc x <= a.
Proof.
  intros H0 Ha Hx.
  assert (Hz : fbetween a (fofZ 0)) by (split; [apply fofZ_num|rewrite !flt_ofZ by lia; split; apply Z.ltb_ge; lia]).
  assert (Hm : fbetween a (fofZ a)) by (split; [apply fofZ_num|rewrite !flt_ofZ by lia; split; apply Z.ltb_ge; lia]).
  pose proof (ftrunc_mono a (fofZ 0) x Ha Hz Hx (proj1 (proj2 Hx))) as H1.
  pose proof (ftrunc_mono a x (fofZ a) Ha Hx Hm (proj2 (proj2 Hx))) as H2.
  rewrite ftrunc_ofZ in H1, H2 by lia. lia.
Qed.

(** Without jitter the delay is between the base and the maximum, with it at most twice the maximum. *)
Lemma nextBackoff_bounds attempt base max factor jitter r :
  0 < base <= max -> max <= 2 ^ 51 -> ~ fNaN factor -> flt factor (fofZ 1) = false ->
  fbetween 1 jitter -> fbetween 1 r ->
  let d := nextBackoff attempt base max factor jitter r in
  0 <= d <= 3 * max /\ (fle jitter (fofZ 0) = true -> base <= d <= max).
Proof.
  intros Hb Hm Hf Hf1 Hj Hr. cbv zeta. unfold nextBackoff.
  set (n := (if attempt <? 1 then 1 else attempt) - 1).
  assert (Hn : 0 <= n) by (unfold n; destruct (Z.ltb_spec attempt 1); lia).
  destruct (fpow_ge1 factor n Hf Hf1 Hn) as [Hpn Hp1].
  assert (Hbase : fbetween max (fofZ base)).
  { split; [apply fofZ_num|]. rewrite !flt_ofZ by lia. split; apply Z.ltb_ge; lia. }
  destruct (fmul_ge (fofZ base) (fpow factor (fofZ n))) as [Hvn Hvb]; [apply fofZ_num|done| |done|].
  { rewrite flt_ofZ by lia. apply Z.ltb_lt. lia. }
  set (v0 := fmul (fofZ base) (fpow factor (fofZ n))) in *.
  set (value := if flt (fofZ max) v0 then fofZ max else v0).
  assert (Hv : fbetween max value /\ flt value (fofZ base) = false).
  { unfold value. destruct (flt (fofZ max) v0) eqn:E.
    - split; [split; [apply fofZ_num|]|]; rewrite !flt_ofZ by lia; [split|]; apply Z.ltb_ge; lia.
    - split; [|done]. split; [done|]. split; [|done]. eapply (fle_trans _ (fofZ base)); [apply fofZ_num|apply fofZ_num|done| |done].
      apply Hbase. }
  destruct Hv as [Hv Hvbase]. destruct (fle jitter (fofZ 0)).
  - pose proof (trunc_between max value ltac:(lia) ltac:(lia) Hv).
    pose proof (ftrunc_mono max (fofZ base) value ltac:(lia) Hbase Hv Hvbase) as Hl. rewrite ftrunc_ofZ in Hl by lia.
    split; [lia|]. intros _. lia.
  - destruct (fmul_le max value jitter ltac:(lia) Hv Hj) as [Hd Hdv].
    destruct (fsub_le max value (fmul value jitter) ltac:(lia) Hv) as [Hlow Hlowv]; [apply Hd|apply Hd|done|].
    rewrite (proj1 (proj2 Hlow)).
    destruct (fadd_le max max value (fmul value jitter)) as [Hhigh Hhv]; [lia|lia|lia|done|done|].
    destruct (fsub_le (max + max) (fadd value (fmul value jitter)) (fsub value (fmul value jitter))) as [Hdiff _];
      [lia|done|apply Hlow|apply Hlow| |].
    { apply (fle_trans _ value); [apply Hlow|apply Hv|apply Hhigh|done|done]. }
    rewrite (fmul_comm r).
    destruct (fmul_le (max + max) _ r ltac:(lia) Hdiff Hr) as [Hprod _].
    destruct (fadd_le max (max + max) _ _ ltac:(lia) ltac:(lia) ltac:(lia) Hlow Hprod) as [Hout _].
    pose proof (trunc_between (max + (max + max)) _ ltac:(lia) ltac:(lia) Hout). split; [lia|done].
Qed.

(** A controller as the program has it: made by [NewController], then one decision after another. *)
Inductive controller_reached (cfg : PolicyConfig) : Controller -> Prop :=
| reached_new : controller_reached cfg (NewController cfg)
| reached_decide c r now outcome :
    controller_reached cfg c -> controller_reached cfg (fst (Decide r now outcome c)).

Lemma Decide_cfg r now outcome c : ct_cfg (fst (Decide r now outcome c)) = ct_cfg c.
Proof.
  unfold Decide. destruct (ao_ManifestAccepted outcome); [done|]. by case_bool_decide.
Qed.

Lemma reached_cfg cfg c : controller_reached cfg c -> ct_cfg c = Normalize cfg.
Proof. induction 1; [done|]. by rewrite Decide_cfg. Qed.

(** The refresher waits between attempts, and not too long. For a configuration whose
    floats are numbers and whose longest backoff is below 2^51 ns, in every state
    the controller can reach, whatever the random number: an attempt that is accepted, or that fails for a reason that does not
    go away, is followed by a delay of one of the three configured intervals, all positive; a recoverable failure
    by a delay of at most three times the maximum of the backoff, which without jitter lies between its base
    and its maximum. *)
Theorem refresh_delay_bounded (cfg : PolicyConfig) (c : Controller) (r : float64) (now : Z) (o : AttemptOutcome) :
  controller_reached cfg c ->
  ~ fNaN (pc_BackoffFactor cfg) -> ~ fNaN (pc_BackoffJitterRatio cfg) -> fbetween 1 r ->
  pc_BackoffMax (Normalize cfg) <= 2 ^ 51 ->
  let n := Normalize cfg in
  let d := de_NextDelay (snd (Decide r now o c)) in
  if negb (ao_ManifestAccepted o) && bool_decide (ao_ErrorKind o = ErrorRecoverable)
  then 0 <= d <= 3 * pc_BackoffMax n
       /\ (fle (pc_BackoffJitterRatio n) (fofZ 0) = true -> pc_BackoffBase n <= d <= pc_BackoffMax n)
  else 0 < d /\ d ∈ [pc_RefreshInterval n; pc_StaleRefreshInterval n; pc_SlowPollingInterval n].
Proof.
  intros Hc Hf Hj Hr Hmax n d. pose proof (Normalize_ok cfg) as (H1 & H2 & H3 & _ & Hb & Hf1 & Hj0 & Hj1).
  subst d. unfold Decide. rewrite (reached_cfg _ _ Hc). subst n.
  destruct (ao_ManifestAccepted o); cbn [negb andb].
  - case_bool_decide; cbn [snd de_NextDelay]; (split; [done|]); set_unfold; tauto.
  - case_bool_decide; cbn [snd de_NextDelay].
    + apply nextBackoff_bounds; try done.
      * cbn. destruct (flt (pc_BackoffFactor cfg) (fofZ 1)); [apply fofZ_num|done].
      * split; [|done]. cbn. destruct (flt (pc_BackoffJitterRatio cfg) (fofZ 0)); [apply fofZ_num|].
        destruct (flt (fofZ 1) (pc_BackoffJitterRatio cfg)); [apply fofZ_num|done].
    + split; [done|]. set_unfold; tauto.
Qed.

End Policy.
Arguments PolicyConfig : clear implicits.
Arguments PolicyConfig {_}.
Arguments Controller : clear implicits.
Arguments Controller {_}.

(** ** A float64 to compute with: a number of thousandths, or NaN *)

Definition opt2 {A} (d : A) (f : Z -> Z -> A) (x y : option Z) : A :=
  match x, y with Some x, Some y => f x y | _, _ => d end.

Definition thousandMul (x y : option Z) : option Z := opt2 None (fun x y => Some (x * y / 1000)) x y.

#[export] Instance exFloat : GoFloat := {
  float64 := option Z;
  fofZ n := Some (1000 * n);
  flt := opt2 false Z.ltb;
  fle := opt2 false Z.leb;
  fadd := opt2 None (fun x y => Some (x + y));
  fsub := opt2 None (fun x y => Some (x - y));
  fmul := thousandMul;
  fpow f n := match n with Some n => Nat.iter (Z.to_nat (n / 1000)) (thousandMul f) (Some 1000) | None => None end;
  ftrunc x := match x with Some x => Z.quot x 1000 | None => - 2 ^ 63 end;
  fNaN x := x = None
}.

Lemma thousand_pow f k : 1000 <= f -> exists v, Nat.iter k (thousandMul (Some f)) (Some 1000) = Some v /\ 1000 <= v.
Proof.
  intros Hf. induction k as [|k (v & IH & Hv)]; [by exists 1000|]. 
  exists (f * v / 1000). split; [change (thousandMul (Some f) (Nat.iter k (thousandMul (Some f)) (Some 1000)) = Some (f * v / 1000)); by rewrite IH|].
  apply Z.div_le_lower_bound; nia.
Qed.

Ltac floats := intros; repeat match goal with
  | x : float64 |- _ => destruct x as [x|]
  | x : option Z |- _ => destruct x as [x|]
  end; cbn in *; unfold fbetween in *; cbn in *;
  repeat match goal with
  | H : _ /\ _ |- _ => destruct H
  | H : (_ <? _) = _ |- _ => first [apply Z.ltb_lt in H|apply Z.ltb_ge in H]
  end; try congruence.

#[export] Instance exFloatLaws : GoFloatLaws exFloat.
Proof.
  constructor.
  - floats.
  - floats. destruct (Z.ltb_spec (1000 * a) (1000 * b)), (Z.ltb_spec a b); lia.
  - floats. apply Z.leb_antisym.
  - floats. apply Z.ltb_ge. lia.
  - floats. apply Z.ltb_ge. lia.
  - floats. rewrite Z.mul_comm. by apply Z.quot_mul.
  - floats. apply Z.quot_le_mono; lia.
  - floats. destruct (thousand_pow f (Z.to_nat (1000 * n / 1000))) as (v & E & Hv); [lia|].
    unfold float64, exFloat in *. rewrite E. cbn. split; [done|]. apply Z.ltb_ge. lia.
  - floats. split; [done|]. apply Z.ltb_ge, Z.div_le_lower_bound; nia.
  - floats. split_and!; try done; apply Z.ltb_ge;
      first [apply Z.div_le_lower_bound; nia|apply Z.div_le_upper_bound; nia].
  - floats; try done. do 2 f_equal. lia.
  - floats. split_and!; try done; apply Z.ltb_ge; lia.
  - floats. split_and!; try done; apply Z.ltb_ge; lia.
Qed.

Definition ex_policy (factor jitter : option Z) : PolicyConfig :=
  mkPolicyConfig 0 0 0 0 (1 * Second) (30 * Second) factor jitter.
Definition ex_timeout : AttemptOutcome := mkOutcome false 0 ErrorRecoverable true false.

(** [n] recoverable failures in a row, with the random number [r]. *)
Definition ex_failures (cfg : PolicyConfig) (r : option Z) (n : nat) : Controller :=
  Nat.iter n (fun c => fst (Decide r 100 ex_timeout c)) (NewController cfg).

Lemma refresh_delay_bounded_witness :
  let d n := de_NextDelay (snd (Decide (Some 500) 100 ex_timeout (ex_failures (ex_policy (Some 2000) (Some 0)) (Some 500) n))) in
  [d 0%nat; d 1%nat; d 4%nat; d 5%nat; d 9%nat] = [1 * Second; 2 * Second; 16 * Second; 30 * Second; 30 * Second]
  /\ 1 * Second <= d 3%nat <= 30 * Second.
Proof.
  intros d. split; [vm_compute; reflexivity|].
  pose proof (refresh_delay_bounded (ex_policy (Some 2000) (Some 0)) (ex_failures (ex_policy (Some 2000) (Some 0)) (Some 500) 3)
    (Some 500) 100 ex_timeout) as H.
  destruct H as [_ H].
  - repeat constructor.
  - discriminate.
  - discriminate.
  - repeat split; discriminate.
  - vm_compute. discriminate.
  - apply H. reflexivity.
Defined.

(** [strconv.ParseFloat] accepts "nan", no comparison of [Normalize] replaces it, and the delay becomes
    the conversion of NaN from the second failure on: negative, so the refresher does not wait at all. *)
Example nan_factor_never_waits :
  de_NextDelay (snd (Decide (Some 500) 100 ex_timeout (ex_failures (ex_policy None (Some 0)) (Some 500) 1))) = - 2 ^ 63.
Proof. vm_compute. reflexivity. Qed.
