(* ===== verification/Bootstrap.v ===== *)
(** * The bootstrap manager and its refresher

    Models internal/bootstrap/bootstrapmanager: the set of bootstrap nodes a node uses comes from a
    signed manifest, else from the cache of the last one, else from the configuration; the
    refresher loads, applies and decides when to try again. Files are the contents by path. *)
From S2P Require Import Prelude Encoding Text SecureStore Identity ManifestTrust NetworkManifest RefreshPolicy.
From stdpp Require Import base gmap strings list sets option.
From Stdlib Require Import ZArith Lia Ascii Sorted.
Open Scope string_scope.
Open Scope Z_scope.
Open Scope go_scope.

Definition Millisecond : Z := 1000000.

(** ** Data *)

Record ManifestMeta := mkMeta {
  mm_Version : Z; mm_GeneratedAt : Z; mm_ExpiresAt : Z; mm_KeyID : string; mm_FetchedAt : Z
}.

Section Data.
Context {float : GoFloat}.

(** The reconnect policy has the fields of the manifest's. *)
Record BootstrapSet := mkSet {
  bs_Source : string; bs_BootstrapNodes : list string; bs_MinPeers : Z;
  bs_ReconnectPolicy : ReconnectPolicy float64; bs_ManifestMeta : option ManifestMeta
}.
Record cachePayload := mkCachePayload { cp_CachedAt : Z; cp_SourceOrigin : string; cp_Set : BootstrapSet }.

(** [waku.Config] *)
Record Config := mkConfig {
  wc_Transport : string; wc_Port : Z; wc_AdvertiseAddress : string; wc_EnableRelay : bool;
  wc_EnableStore : bool; wc_EnableFilter : bool; wc_EnableLightPush : bool; wc_BootstrapNodes : list string;
  wc_FailoverV1 : bool; wc_MinPeers : Z; wc_StoreQueryFanout : Z; wc_ReconnectInterval : Z;
  wc_ReconnectBackoffMax : Z; wc_ManifestRefreshInterval : Z; wc_ManifestStaleWindow : Z;
  wc_ManifestRefreshTimeout : Z; wc_ManifestBackoffBase : Z; wc_ManifestBackoffMax : Z;
  wc_ManifestBackoffFactor : float64; wc_ManifestBackoffJitterRatio : float64;
  wc_BootstrapSource : string; wc_BootstrapManifestVersion : Z; wc_BootstrapManifestKeyID : string;
  wc_BootstrapManifestPath : string; wc_BootstrapTrustBundlePath : string; wc_BootstrapCachePath : string
}.

Record Manager := mkManager {
  bm_manifestPath : string; bm_trustBundlePath : string; bm_cachePath : string; bm_baked : BootstrapSet;
  bm_activeSource : string; bm_manifestMeta : option ManifestMeta; bm_lastReason : string;
  bm_lastRejectCode : string
}.

End Data.
Arguments BootstrapSet : clear implicits.
Arguments BootstrapSet {_}.
Arguments cachePayload : clear implicits.
Arguments cachePayload {_}.
Arguments Config : clear implicits.
Arguments Config {_}.
Arguments Manager : clear implicits.
Arguments Manager {_}.

Definition SourceManifest_ : string := "manifest".
Definition SourceCache_ : string := "cache".
Definition SourceBaked_ : string := "baked".

Abbreviation Files := (gmap string (list Z)).

(** What one round meets outside: the clocks, the errors of the reads (the cache is read twice),
    of the directory and of the write, which may leave other contents behind. *)
Record BootEnv := mkBootEnv {
  be_now : Z; be_clock : Z; be_saveNow : Z; be_read : string -> option error;
  be_readVersion : option error; be_mkdir : option error; be_write : option (error * option (list Z))
}.

(** The errors of [loadManifest]: made here or wrapped, of the trust bundle, of the verification. *)
Inductive manifestError :=
| PlainError (text : string)
| TrustError (e : trustError)
| RejectError (e : VerifyError).

Section Managers.
Context {float : GoFloat} {errtext : GoErrorText} {fmt : GoFormat} {lower : GoLower} {crypto : IdentityCrypto}.
Context {mcodec : ManifestCodec float64} {bcodec : JsonCodec Bundle} {ccodec : JsonCodec cachePayload}.

Definition manifestErrorText (e : manifestError) : string :=
  match e with
  | PlainError text => text
  | TrustError e => trustErrorText e
  | RejectError e => verifyErrorText e
  end.

Definition New (manifestPath trustBundlePath cachePath : string) (baked : BootstrapSet) : Manager :=
  mkManager manifestPath trustBundlePath cachePath baked SourceBaked_ None "" "".

Definition with_reason (reason code : string) (m : Manager) : Manager :=
  mkManager (bm_manifestPath m) (bm_trustBundlePath m) (bm_cachePath m) (bm_baked m) (bm_activeSource m)
    (bm_manifestMeta m) reason code.
Definition with_active (source : string) (meta : option ManifestMeta) (m : Manager) : Manager :=
  mkManager (bm_manifestPath m) (bm_trustBundlePath m) (bm_cachePath m) (bm_baked m) source meta
    (bm_lastReason m) (bm_lastRejectCode m).
Definition with_Source (source : string) (s : BootstrapSet) : BootstrapSet :=
  mkSet source (bs_BootstrapNodes s) (bs_MinPeers s) (bs_ReconnectPolicy s) (bs_ManifestMeta s).

Definition validateSet (set : BootstrapSet) : result error unit :=
  let p := bs_ReconnectPolicy set in
  if (List.length (bs_BootstrapNodes set) <? 1)%nat
  then Err (errorsNew "bootstrap_nodes must contain at least one node") else
  if bs_MinPeers set <? 1 then Err (errorsNew "min_peers must be >= 1") else
  if rp_BaseIntervalMS p <? 500 then Err (errorsNew "base_interval_ms must be >= 500") else
  if rp_MaxIntervalMS p <? rp_BaseIntervalMS p
  then Err (errorsNew "max_interval_ms must be >= base_interval_ms") else
  if flt (rp_JitterRatio p) (fofZ 0) || flt (fofZ 1) (rp_JitterRatio p)
  then Err (errorsNew "jitter_ratio must be in [0..1]") else Ok tt.

(** ** Files *)

Definition readAt (files : Files) (err : option error) (path : string) : result error (list Z) :=
  readFile (files !! path) err.

Definition readCachedManifestVersion (files : Files) (env : BootEnv) (m : Manager) : Z :=
  if bm_cachePath m == "" then 0 else
  match readAt files (be_readVersion env) (bm_cachePath m) with
  | Err _ => 0
  | Ok raw =>
      match unmarshalJSON raw with
      | Err _ => 0
      | Ok cached => match bs_ManifestMeta (cp_Set cached) with None => 0 | Some meta => mm_Version meta end
      end
  end.

Definition setOf (verified : NetworkManifest.Manifest float64) (now : Z) : BootstrapSet :=
  mkSet SourceManifest_ (nm_BootstrapNodes verified) (nm_MinPeers verified) (nm_ReconnectPolicy verified)
    (Some (mkMeta (nm_Version verified) (nm_GeneratedAt verified) (nm_ExpiresAt verified) (nm_KeyID verified) now)).

Definition loadManifest (files : Files) (env : BootEnv) (m : Manager) : result manifestError BootstrapSet :=
  if (bm_manifestPath m == "") || (bm_trustBundlePath m == "")
  then Err (PlainError "manifest or trust bundle path is not configured") else
  match readAt files (be_read env (bm_manifestPath m)) (bm_manifestPath m) with
  | Err err => Err (PlainError ("manifest load failed: " +:+ ErrorText err))
  | Ok manifestRaw =>
      match readAt files (be_read env (bm_trustBundlePath m)) (bm_trustBundlePath m) with
      | Err err => Err (PlainError ("trust bundle load failed: " +:+ ErrorText err))
      | Ok trustRaw =>
          match ParseBundle trustRaw with
          | Err err => Err (TrustError err)
          | Ok trustBundle =>
              match Verify flt fofZ (be_clock env) manifestRaw trustBundle (be_now env)
                      (readCachedManifestVersion files env m) with
              | Err err => Err (RejectError err)
              | Ok verified =>
                  match validateSet (setOf verified (be_now env)) with
                  | Err err => Err (PlainError (ErrorText err))
                  | Ok _ => Ok (setOf verified (be_now env))
                  end
              end
          end
      end
  end.

Definition loadCache (files : Files) (env : BootEnv) (m : Manager) : result error BootstrapSet :=
  if bm_cachePath m == "" then Err (errorsNew "cache path is not configured") else
  try! raw := readAt files (be_read env (bm_cachePath m)) (bm_cachePath m) in
  try! cached := unmarshalJSON raw in
  try! _ := validateSet (cp_Set cached) in
  Ok (with_Source SourceCache_ (cp_Set cached)).

Definition saveCache (env : BootEnv) (set : BootstrapSet) (m : Manager) (files : Files)
    : Files * result error unit :=
  if bm_cachePath m == "" then (files, Ok tt) else
  match marshalJSON (mkCachePayload (be_saveNow env) SourceManifest_ (with_Source SourceManifest_ set)) with
  | Err err => (files, Err err)
  | Ok raw =>
      match be_mkdir env with
      | Some err => (files, Err err)
      | None =>
          match be_write env with
          | Some (err, left_) => (match left_ with Some bs => <[bm_cachePath m := bs]> files | None => files end, Err err)
          | None => (<[bm_cachePath m := raw]> files, Ok tt)
          end
      end
  end.

(** The codes of a rejection. The bundle's own errors are recognised by identity, others by text. *)
Definition mapManifestRejectCode (err : manifestError) : string :=
  match err with
  | RejectError e => RejectCodeOf e
  | TrustError (ErrTrustBundleInvalid _) | TrustError ErrTrustUpdateChainInvalid => "TRUST_BUNDLE_INVALID"
  | _ => if Contains (ToLower (manifestErrorText err)) "trust bundle" then "TRUST_BUNDLE_INVALID" else ""
  end.

(** ** Operations *)

Record ApplyResult := mkApply { ap_Applied : bool; ap_ErrorCode : string; ap_Reason : string }.

(** [LoadResult]: a set, or a code and a reason. *)
Definition LoadBootstrapSet (files : Files) (env : BootEnv) (m : Manager)
    : Manager * result (string * string) BootstrapSet :=
  match loadManifest files env m with
  | Ok manifestSet => (with_reason (bm_lastReason m) "" m, Ok manifestSet)
  | Err manifestErr =>
      let reason := "manifest rejected: " +:+ manifestErrorText manifestErr in
      let m := with_reason reason (mapManifestRejectCode manifestErr) m in
      match loadCache files env m with
      | Ok cacheSet => (m, Ok cacheSet)
      | Err cacheErr =>
          let m := with_reason (reason +:+ "; cache invalid: " +:+ ErrorText cacheErr) (bm_lastRejectCode m) m in
          match validateSet (bm_baked m) with
          | Ok _ => (m, Ok (with_Source SourceBaked_ (bm_baked m)))
          | Err _ => (m, Err ("BOOTSTRAP_SET_UNAVAILABLE", bm_lastReason m))
          end
      end
  end.

(** What [ApplyBootstrapSet] writes to the configuration. *)
Definition configured (set : BootstrapSet) (c : Config) : Config :=
  mkConfig (wc_Transport c) (wc_Port c) (wc_AdvertiseAddress c) (wc_EnableRelay c) (wc_EnableStore c)
    (wc_EnableFilter c) (wc_EnableLightPush c) (bs_BootstrapNodes set) (wc_FailoverV1 c) (bs_MinPeers set)
    (wc_StoreQueryFanout c) (s64 (rp_BaseIntervalMS (bs_ReconnectPolicy set) * Millisecond))
    (s64 (rp_MaxIntervalMS (bs_ReconnectPolicy set) * Millisecond)) (wc_ManifestRefreshInterval c)
    (wc_ManifestStaleWindow c) (wc_ManifestRefreshTimeout c) (wc_ManifestBackoffBase c)
    (wc_ManifestBackoffMax c) (wc_ManifestBackoffFactor c) (wc_ManifestBackoffJitterRatio c) (bs_Source set)
    (match bs_ManifestMeta set with Some meta => mm_Version meta | None => 0 end)
    (match bs_ManifestMeta set with Some meta => mm_KeyID meta | None => "" end)
    (wc_BootstrapManifestPath c) (wc_BootstrapTrustBundlePath c) (wc_BootstrapCachePath c).

(** The state of a node's bootstrap: the files, the manager, the configuration it applies sets to, the
    controller of the refresher. The configuration is never nil in the program. *)
Record Boot := mkBoot { bo_files : Files; bo_mgr : Manager; bo_cfg : Config; bo_ctl : Controller }.

Definition ApplyBootstrapSet (env : BootEnv) (set : BootstrapSet) (b : Boot) : Boot * ApplyResult :=
  match validateSet set with
  | Err err => (b, mkApply false "BOOTSTRAP_SET_INVALID" (ErrorText err))
  | Ok _ =>
      let cfg := configured set (bo_cfg b) in
      let m := with_active (bs_Source set) (bs_ManifestMeta set) (bo_mgr b) in
      if bs_Source set == SourceManifest_ then
        let '(files, saved) := saveCache env set m (bo_files b) in
        (mkBoot files m cfg (bo_ctl b),
         match saved with
         | Err err => mkApply false "BOOTSTRAP_APPLY_FAILED" (ErrorText err)
         | Ok _ => mkApply true "" ""
         end)
      else (mkBoot (bo_files b) m cfg (bo_ctl b), mkApply true "" "")
  end.

(** ** The refresher *)

Definition minDuration (a b : Z) : Z :=
  if a <=? 0 then b else if b <=? 0 then a else if a <? b then a else b.

Definition refresherPolicy (c : Config) : PolicyConfig :=
  mkPolicyConfig (wc_ManifestRefreshInterval c) (minDuration (wc_ManifestRefreshInterval c) (15 * Second))
    (60 * Second) (wc_ManifestStaleWindow c) (wc_ManifestBackoffBase c) (wc_ManifestBackoffMax c)
    (wc_ManifestBackoffFactor c) (wc_ManifestBackoffJitterRatio c).

Definition NewRefresher (files : Files) (m : Manager) (cfg : Config) : Boot :=
  mkBoot files m cfg (NewController (refresherPolicy cfg)).

Definition classifyError (reason : string) : ErrorKind :=
  let reason := ToLower (TrimSpace reason) in
  if reason == "" then ErrorRecoverable else
  if Contains reason "timeout" || Contains reason "network" || Contains reason "temporar"
  then ErrorRecoverable else ErrorNonRecoverable.

(** The outcome of an attempt for the controller. *)
Definition outcomeOf (set : BootstrapSet) (m : Manager) : AttemptOutcome :=
  if bs_Source set == SourceManifest_
  then mkOutcome true (match bs_ManifestMeta set with Some meta => mm_ExpiresAt meta | None => 0 end) ErrorNone false false
  else if bs_Source set == SourceCache_ then mkOutcome false 0 (classifyError (bm_lastReason m)) true false
  else if bs_Source set == SourceBaked_ then mkOutcome false 0 (classifyError (bm_lastReason m)) false true
  else mkOutcome false 0 ErrorNonRecoverable false false.

Definition with_mgr (m : Manager) (b : Boot) : Boot := mkBoot (bo_files b) m (bo_cfg b) (bo_ctl b).
Definition with_ctl (c : Controller) (b : Boot) : Boot := mkBoot (bo_files b) (bo_mgr b) (bo_cfg b) c.

(** [step]: the new state, the set that was loaded, the configuration handed to [onApplied], the decision.
    [now] is read before the manager reads its own clock, [r] is the random number of the backoff. *)
Definition step (env : BootEnv) (now : Z) (r : float64) (b : Boot)
    : Boot * (result (string * string) BootstrapSet * option Config * RefreshPolicy.Decision) :=
  let '(m, load) := LoadBootstrapSet (bo_files b) env (bo_mgr b) in
  let b := with_mgr m b in
  let '(b, applied, outcome) :=
    match load with
    | Err _ => (b, None, mkOutcome false 0 ErrorNonRecoverable false false)
    | Ok set =>
        let '(b, apply) := ApplyBootstrapSet env set b in
        if ap_Applied apply then (b, Some (bo_cfg b), outcomeOf set (bo_mgr b))
        else (b, None, mkOutcome false 0 ErrorNonRecoverable false false)
    end in
  let '(ctl, decision) := Decide r now outcome (bo_ctl b) in
  (with_ctl ctl b, (load, applied, decision)).

(** ** What a set that is loaded is *)

Lemma loadManifest_Ok files env m set :
  loadManifest files env m = Ok set ->
  exists raw trustRaw bundle verified,
    files !! bm_manifestPath m = Some raw /\ files !! bm_trustBundlePath m = Some trustRaw
    /\ ParseBundle trustRaw = Ok bundle
    /\ Verify flt fofZ (be_clock env) raw bundle (be_now env) (readCachedManifestVersion files env m) = Ok verified
    /\ set = setOf verified (be_now env) /\ validateSet set = Ok tt.
Proof.
  unfold loadManifest, readAt, readFile. destruct (_ || _); [done|].
  destruct (be_read env (bm_manifestPath m)); [done|]. destruct (files !! bm_manifestPath m) as [raw|]; [|done].
  destruct (be_read env (bm_trustBundlePath m)); [done|]. destruct (files !! bm_trustBundlePath m) as [trustRaw|]; [|done].
  destruct (ParseBundle trustRaw) as [bundle|] eqn:Eb; [|done].
  destruct (Verify _ _ _ _ _ _ _) as [verified|] eqn:Ev; [|done].
  destruct (validateSet _) as [[]|] eqn:E; [|done]. intros [= <-]. exists raw, trustRaw, bundle, verified. by rewrite Ev.
Qed.

Lemma loadCache_Ok files env m set :
  loadCache files env m = Ok set ->
  exists raw cached, files !! bm_cachePath m = Some raw /\ unmarshalJSON raw = Ok cached
    /\ set = with_Source SourceCache_ (cp_Set cached) /\ validateSet (cp_Set cached) = Ok tt.
Proof.
  unfold loadCache, readAt, readFile, bindR. destruct (_ == _); [done|].
  destruct (be_read env (bm_cachePath m)); [done|]. destruct (files !! bm_cachePath m) as [raw|]; [|done].
  destruct (unmarshalJSON raw) as [cached|] eqn:Eu; [|done].
  destruct (validateSet _) as [[]|] eqn:E; [|done]. intros [= <-]. by exists raw, cached.
Qed.

Lemma validateSet_Source source set : validateSet (with_Source source set) = validateSet set.
Proof. done. Qed.

(** What [LoadBootstrapSet] leaves and returns. *)
Definition loaded (files : Files) (env : BootEnv) (m m' : Manager) (load : result (string * string) BootstrapSet) : Prop :=
  (bm_manifestPath m', bm_trustBundlePath m', bm_cachePath m', bm_baked m')
  = (bm_manifestPath m, bm_trustBundlePath m, bm_cachePath m, bm_baked m)
  /\ match load with
     | Ok set => validateSet set = Ok tt
         /\ ((bs_Source set = SourceManifest_ /\ loadManifest files env m = Ok set /\ bm_lastRejectCode m' = ""
              /\ exists raw trustRaw bundle verified,
                   files !! bm_manifestPath m = Some raw /\ files !! bm_trustBundlePath m = Some trustRaw
                   /\ ParseBundle trustRaw = Ok bundle
                   /\ Verify flt fofZ (be_clock env) raw bundle (be_now env) (readCachedManifestVersion files env m)
                      = Ok verified
                   /\ set = setOf verified (be_now env))
             \/ (bs_Source set = SourceCache_ /\ (exists e, loadManifest files env m = Err e)
                 /\ exists raw cached, files !! bm_cachePath m = Some raw /\ unmarshalJSON raw = Ok cached
                      /\ set = with_Source SourceCache_ (cp_Set cached))
             \/ (bs_Source set = SourceBaked_ /\ (exists e, loadManifest files env m = Err e)
                 /\ (exists e, loadCache files env m = Err e) /\ set = with_Source SourceBaked_ (bm_baked m)))
     | Err (code, reason) =>
         code = "BOOTSTRAP_SET_UNAVAILABLE" /\ reason = bm_lastReason m'
         /\ (exists e, loadManifest files env m = Err e) /\ (exists e, loadCache files env m = Err e)
         /\ exists e, validateSet (bm_baked m) = Err e
     end.

Lemma LoadBootstrapSet_loaded files env m m' load :
  LoadBootstrapSet files env m = (m', load) -> loaded files env m m' load.
Proof.
  unfold LoadBootstrapSet, loaded. destruct (loadManifest files env m) as [set|e] eqn:Em.
  - intros [= <- <-]. split; [done|]. destruct (loadManifest_Ok _ _ _ _ Em) as (raw & trustRaw & bundle & v & H1 & H2 & H3 & H4 & -> & H6).
    split; [done|]. left. split_and!; try done. by exists raw, trustRaw, bundle, v.
  - match goal with |- context [loadCache files env ?m'] =>
      assert (Hc : loadCache files env m' = loadCache files env m) by done; rewrite Hc end.
    destruct (loadCache files env m) as [set|e'] eqn:Ec.
    + intros [= <- <-]. split; [done|]. destruct (loadCache_Ok _ _ _ _ Ec) as (raw & cached & H1 & H2 & -> & H4).
      split; [done|]. right; left. split_and!; [done|by eexists|]. by exists raw, cached.
    + cbn [bm_baked with_reason]. destruct (validateSet (bm_baked m)) as [[]|] eqn:Eb.
      * intros [= <- <-]. split; [done|]. split; [done|]. right; right. split_and!; try done; by eexists.
      * intros [= <- <-]. split; [done|]. split_and!; try done; by eexists.
Qed.

(** The order of the sources. What [LoadBootstrapSet] returns is the set of the manifest file when, and only
    when, that manifest verifies now under the bundle of the trust file and against the version of the
    cache; otherwise the set of the cache when its file holds a valid one; otherwise the configured set when it is valid;
    otherwise nothing, with the reason. It is a valid set in every case, labelled with its source, and
    the paths and the configured set of the manager stay what they were. *)
Theorem bootstrap_fallback_order (files : Files) (env : BootEnv) (m : Manager) :
  loaded files env m (fst (LoadBootstrapSet files env m)) (snd (LoadBootstrapSet files env m)).
Proof. apply LoadBootstrapSet_loaded. apply surjective_pairing. Qed.

(** ** Versions of the manifests adopted *)

(** What was written to the cache is read back with the version it had. *)
Class CacheCodecLaws : Prop := {
  cache_version p bs : marshalJSON p = Ok bs ->
    exists q, unmarshalJSON bs = Ok q
      /\ option_map mm_Version (bs_ManifestMeta (cp_Set q)) = option_map mm_Version (bs_ManifestMeta (cp_Set p))
}.

Definition adoptedVersion (load : result (string * string) BootstrapSet) : list Z :=
  match load with
  | Ok set => if bs_Source set == SourceManifest_
              then match bs_ManifestMeta set with Some meta => [mm_Version meta] | None => [] end else []
  | Err _ => []
  end.

(** The life of a cache file: refreshes, restarts with any configuration, any change of the other
    files. The list has the versions of the manifests adopted, the last first. The cache can be read
    when its version is asked for, and a manifest that was adopted was also saved. *)
Inductive history (manifestPath trustPath cachePath : string) : Boot -> list Z -> Prop :=
| hist_start files baked cfg :
    files !! cachePath = None ->
    history manifestPath trustPath cachePath
      (NewRefresher files (New manifestPath trustPath cachePath baked) cfg) []
| hist_restart b vs baked cfg :
    history manifestPath trustPath cachePath b vs ->
    history manifestPath trustPath cachePath
      (NewRefresher (bo_files b) (New manifestPath trustPath cachePath baked) cfg) vs
| hist_file b vs path bs :
    history manifestPath trustPath cachePath b vs -> path <> cachePath ->
    history manifestPath trustPath cachePath (mkBoot (partial_alter (fun _ => bs) path (bo_files b)) (bo_mgr b) (bo_cfg b) (bo_ctl b)) vs
| hist_step env now r b vs b' load applied d :
    history manifestPath trustPath cachePath b vs -> be_readVersion env = None ->
    step env now r b = (b', (load, applied, d)) ->
    (adoptedVersion load <> [] -> applied <> None) ->
    history manifestPath trustPath cachePath b' (adoptedVersion load ++ vs).

Definition cached_is (cachePath : string) (files : Files) (vs : list Z) : Prop :=
  match vs with
  | [] => files !! cachePath = None
  | v :: _ => exists raw cached meta, files !! cachePath = Some raw /\ unmarshalJSON raw = Ok cached
                /\ bs_ManifestMeta (cp_Set cached) = Some meta /\ mm_Version meta = v
  end.

Definition paths_of (m : Manager) : string * string * string := (bm_manifestPath m, bm_trustBundlePath m, bm_cachePath m).

Lemma readCached_is files env m vs :
  bm_cachePath m <> "" -> be_readVersion env = None -> cached_is (bm_cachePath m) files vs ->
  readCachedManifestVersion files env m = hd 0 vs.
Proof.
  intros Hp Hr. unfold cached_is, readCachedManifestVersion, readAt, readFile. rewrite bool_decide_false by done.
  rewrite Hr. destruct vs as [|v vs]; [by intros ->|]. by intros (raw & cached & meta & -> & -> & -> & ->).
Qed.

Lemma Verify_version clock raw trust now last m :
  Verify flt fofZ clock raw trust now last = Ok m -> 1 <= nm_Version m /\ (last <= 0 \/ last <= nm_Version m).
Proof.
  unfold Verify, bindR. destruct (ParseStrict flt fofZ raw) as [m'|] eqn:Ep; [|done].
  destruct (negb (After _ _)); [done|]. destruct (_ && _) eqn:Ev; [done|].
  destruct (DecodeString _); [|done]. destruct (CanonicalPayload m'); [|done].
  destruct (VerifyManifestSignature _ _ _ _ _); [|done]. intros [= <-].
  apply andb_false_iff in Ev. rewrite !Z.ltb_ge in Ev. split; [|lia].
  unfold ParseStrict, bindR in Ep. destruct (decodeManifest raw) as [[m1 rest]|]; [|done].
  destruct (decodeAnother rest); [done| |done]. destruct (validateSchema _ _ m1) as [[]|] eqn:Es; [|done].
  injection Ep as <-. by apply validateSchema_iff in Es as [].
Qed.

Context {claws : CacheCodecLaws}.

Lemma saveCache_cached env set m files files' meta vs :
  bm_cachePath m <> "" -> bs_ManifestMeta set = Some meta -> saveCache env set m files = (files', Ok tt) ->
  cached_is (bm_cachePath m) files' (mm_Version meta :: vs).
Proof.
  intros Hp Hm. unfold saveCache. rewrite bool_decide_false by done.
  destruct (marshalJSON _) as [raw|] eqn:Ej; [|done]. destruct (be_mkdir env); [done|].
  destruct (be_write env) as [[]|]; [done|]. intros [= <-].
  destruct (cache_version _ _ Ej) as (q & Hq & Hv). cbn in Hv. rewrite Hm in Hv.
  destruct (bs_ManifestMeta (cp_Set q)) as [meta'|] eqn:Em; [|done]. injection Hv as Hv.
  exists raw, q, meta'. by rewrite lookup_insert_eq.
Qed.

Lemma saveCache_other env set m files files' saved path :
  saveCache env set m files = (files', saved) -> path <> bm_cachePath m -> files' !! path = files !! path.
Proof.
  unfold saveCache. destruct (_ == _); [by intros [= <- _]|]. destruct (marshalJSON _); [|by intros [= <- _]].
  destruct (be_mkdir env); [by intros [= <- _]|].
  destruct (be_write env) as [[err [bs|]]|]; intros [= <- _] Hp; try done; by rewrite lookup_insert_ne.
Qed.

(** A round whose adoptions were saved keeps the cache up to date, and adopts no older version. *)
Lemma step_cached env now r b vs b' load applied d :
  bm_cachePath (bo_mgr b) <> "" -> be_readVersion env = None ->
  cached_is (bm_cachePath (bo_mgr b)) (bo_files b) vs -> step env now r b = (b', (load, applied, d)) ->
  (adoptedVersion load <> [] -> applied <> None) ->
  paths_of (bo_mgr b') = paths_of (bo_mgr b)
  /\ cached_is (bm_cachePath (bo_mgr b)) (bo_files b') (adoptedVersion load ++ vs)
  /\ Forall (fun v => 1 <= v /\ hd 0 vs <= v) (adoptedVersion load).
Proof.
  intros Hp Hr Hc. unfold step. destruct (LoadBootstrapSet (bo_files b) env (bo_mgr b)) as [m load'] eqn:El.
  destruct (LoadBootstrapSet_loaded _ _ _ _ _ El) as [[= H1 H2 H3 H4] Hload].
  destruct load' as [set|[code reason]].
  2: { destruct (Decide _ _ _ _) as [ctl dec]. intros [= <- <- <- <-] _. cbn. unfold paths_of. by rewrite H1, H2, H3. }
  destruct Hload as [Hval Hsrc]. unfold ApplyBootstrapSet. rewrite Hval. cbn [bo_files bo_mgr with_mgr].
  unfold adoptedVersion. destruct Hsrc as [(-> & _ & _ & raw & t & bundle & v & _ & _ & _ & Hv & ->)|Hsrc].
  - rewrite bool_decide_true by done. destruct (saveCache _ _ _ _) as [files' saved] eqn:Es.
    destruct saved as [[]|err]; cbn [ap_Applied].
    + destruct (Decide _ _ _ _) as [ctl dec]. intros [= <- <- <- <-] _. cbn. unfold paths_of. cbn. rewrite H1, H2, H3, bool_decide_true by done.
      rewrite (readCached_is _ _ _ _ Hp Hr Hc) in Hv. apply Verify_version in Hv as [Hv1 Hv2].
      split; [done|]. split.
      * rewrite <- H3 in Hp |- *. exact (saveCache_cached _ (setOf v (be_now env)) _ _ _ _ vs Hp eq_refl Es).
      * constructor; [|constructor]. lia.
    + destruct (Decide _ _ _ _) as [ctl dec]. intros [= <- <- <- <-] Hn. cbn in Hn. by destruct Hn.
  - assert (Hne : bs_Source set <> SourceManifest_) by (destruct Hsrc as [(-> & _)|(-> & _)]; discriminate).
    rewrite bool_decide_false by done. cbn [ap_Applied]. destruct (Decide _ _ _ _) as [ctl dec].
    intros [= <- <- <- <-] _. rewrite bool_decide_false by done. cbn. unfold paths_of. cbn. by rewrite H1, H2, H3.
Qed.

Lemma history_cached mp tp cp b vs :
  cp <> "" -> history mp tp cp b vs ->
  paths_of (bo_mgr b) = (mp, tp, cp) /\ cached_is cp (bo_files b) vs /\ StronglySorted (fun v w => w <= v) vs
  /\ Forall (Z.le 1) vs.
Proof.
  intros Hcp Hh. induction Hh as [files baked cfg Hn|b vs baked cfg _ IH|b vs path bs _ IH Hne|env now r b vs b' load applied d _ IH Hr Hs Ha].
  - split_and!; [done|done|constructor|constructor].
  - destruct IH as (_ & H2 & H3 & H4). by split_and!.
  - destruct IH as (H1 & H2 & H3 & H4). split_and!; try done. cbn [bo_files]. unfold cached_is in *.
    by rewrite lookup_partial_alter_ne by done.
  - destruct IH as (H1 & H2 & H3 & H4). injection H1 as Hmp Htp Hcpb.
    rewrite <- Hcpb in Hcp, H2.
    destruct (step_cached _ _ _ _ _ _ _ _ _ Hcp Hr H2 Hs Ha) as (Hp & Hc & Hall).
    unfold paths_of in Hp |- *. rewrite Hp, Hcpb in *. split; [by rewrite Hmp, Htp|]. split; [done|].
    destruct load as [set|]; cbn in *; [|done]. case_bool_decide; [|done].
    destruct (bs_ManifestMeta set) as [meta|]; cbn in *; [|done]. inversion Hall as [|? ? [Hv1 Hv] _]; subst; clear Hall.
    split; [|by constructor]. constructor; [done|]. destruct vs as [|w vs]; [constructor|]. cbn in Hv.
    inversion H3; subst. constructor; [done|]. eapply List.Forall_impl; [|done]. cbn. lia.
Qed.

(** C22: No way back. With a cache file that only the manager writes, over any sequence of refreshes,
    restarts and changes of the manifest and the trust bundle, the versions of the manifests that
    were adopted never decrease, provided that each of them could be saved and the cache be read. *)
Theorem adopted_versions_never_decrease (manifestPath trustPath cachePath : string) (b : Boot) (vs : list Z) :
  cachePath <> "" -> history manifestPath trustPath cachePath b vs ->
  StronglySorted (fun v w => w <= v) vs /\ Forall (Z.le 1) vs.
Proof. intros Hc Hh. by destruct (history_cached _ _ _ _ _ Hc Hh) as (_ & _ & H3 & H4). Qed.

End Managers.

(** ** A node to compute with, and the witness *)

#[local] Existing Instance exByteCrypto | 0.

#[export] Instance ManifestMeta_eq_dec : EqDecision ManifestMeta.
Proof. solve_decision. Defined.
#[export] Instance ManifestMeta_countable : Countable ManifestMeta.
Proof.
  apply (inj_countable' (fun m => (mm_Version m, mm_GeneratedAt m, mm_ExpiresAt m, mm_KeyID m, mm_FetchedAt m))
    (fun '(v1, v2, v3, v4, v5) => mkMeta v1 v2 v3 v4 v5)). by intros [].
Defined.
#[export] Instance exfloat_eq_dec : EqDecision (@float64 exFloat).
Proof. cbn. apply _. Defined.
#[export] Instance exfloat_countable : Countable (@float64 exFloat).
Proof. cbn. apply _. Defined.
#[export] Instance BootstrapSet_eq_dec : EqDecision (@BootstrapSet exFloat).
Proof. solve_decision. Defined.
#[export] Instance BootstrapSet_countable : Countable (@BootstrapSet exFloat).
Proof.
  apply (inj_countable' (fun s => (bs_Source s, bs_BootstrapNodes s, bs_MinPeers s, bs_ReconnectPolicy s, bs_ManifestMeta s))
    (fun '(v1, v2, v3, v4, v5) => mkSet v1 v2 v3 v4 v5)). by intros [].
Defined.
#[export] Instance cachePayload_eq_dec : EqDecision (@cachePayload exFloat).
Proof. solve_decision. Defined.
#[export] Instance cachePayload_countable : Countable (@cachePayload exFloat).
Proof.
  apply (inj_countable' (fun c => (cp_CachedAt c, cp_SourceOrigin c, cp_Set c))
    (fun '(v1, v2, v3) => mkCachePayload v1 v2 v3)). by intros [].
Defined.

#[export] Instance exCacheCodec : JsonCodec (@cachePayload exFloat) := {
  marshalJSON p := Ok [zenc p];
  unmarshalJSON bs := match bs with
    | [z] => match zdec z with Some p => Ok p | None => Err (errorsNew "json") end
    | _ => Err (errorsNew "json")
    end
}.
#[export] Instance exCacheCodecLaws : CacheCodecLaws.
Proof. constructor. intros p bs [= <-]. exists p. unfold unmarshalJSON, exCacheCodec. by rewrite zdec_zenc. Qed.

Definition ex_cachePath : string := "/data/network/bootstrap-cache.json".
Definition ex_baked : BootstrapSet :=
  mkSet SourceBaked_ ["/dns4/seed.example/tcp/60000"] 2 (mkReconnect 1000 30000 (Some 200)) None.
Definition ex_cfg : Config :=
  mkConfig "go-waku" 60000 "" true true true true ["/dns4/seed.example/tcp/60000"] true 2 3 (1 * Second) (30 * Second)
    (60 * Second) (5 * Minute) (5 * Second) (1 * Second) (30 * Second) (Some 2000) (Some 200) "" 0 "" "/m" "/t"
    ex_cachePath.
Definition ex_signed (version : Z) : list Z := ex_raw (ex_manifest_ (F := @float64 exFloat) (Some 200) version "m1" 7 180).
Definition ex_env (now : Z) : BootEnv := mkBootEnv now now now (fun _ => None) None None None.
Definition ex_disk (manifest : list Z) : Files := <["/m" := manifest]> (<["/t" := [zenc ex_trust]]> ∅).
Definition ex_boot : Boot := NewRefresher (ex_disk (ex_signed 4)) (New "/m" "/t" ex_cachePath ex_baked) ex_cfg.

Definition ex_random : @float64 exFloat := Some 500.
Definition ex_round (now : Z) (b : Boot) := step (ex_env now) now ex_random b.
Definition ex_published (manifest : list Z) (b : Boot) : Boot :=
  mkBoot (partial_alter (fun _ => Some manifest) "/m" (bo_files b)) (bo_mgr b) (bo_cfg b) (bo_ctl b).

(** Version 4 is adopted, version 3 is refused for the cache, version 5 adopted. *)
Example rounds :
  let '(b1, (_, _, d1)) := ex_round 150 ex_boot in
  let '(b2, (_, _, d2)) := ex_round 151 (ex_published (ex_signed 3) b1) in
  let '(b3, (_, _, d3)) := ex_round 152 (ex_published (ex_signed 5) b2) in
  [wc_BootstrapManifestVersion (bo_cfg b1); wc_BootstrapManifestVersion (bo_cfg b2); wc_BootstrapManifestVersion (bo_cfg b3)]
  = [4; 4; 5]
  /\ map wc_BootstrapSource [bo_cfg b1; bo_cfg b2; bo_cfg b3] = ["manifest"; "cache"; "manifest"]
  /\ bm_lastRejectCode (bo_mgr b2) = RejectReplay
  /\ map de_SourceAfter [d1; d2; d3] = [SourceManifest; SourceCache; SourceManifest].
Proof. vm_compute. split_and!; reflexivity. Qed.

Definition adoptedIn (o : Boot * (result (string * string) BootstrapSet * option Config * RefreshPolicy.Decision)) : list Z :=
  adoptedVersion (fst (fst (snd o))).
Definition appliedIn (o : Boot * (result (string * string) BootstrapSet * option Config * RefreshPolicy.Decision)) : bool :=
  match snd (fst (snd o)) with Some _ => true | None => false end.

Lemma ex_hist_round now b vs v :
  history "/m" "/t" ex_cachePath b vs -> adoptedIn (ex_round now b) = [v] -> appliedIn (ex_round now b) = true ->
  history "/m" "/t" ex_cachePath (fst (ex_round now b)) (v :: vs).
Proof.
  unfold adoptedIn, appliedIn, ex_round. intros Hb. destruct (step _ _ _ _) as [b' [[load applied] d]] eqn:E. cbn.
  intros Hv Ha. assert (H := hist_step _ _ _ (ex_env now) _ _ _ _ _ load applied d Hb eq_refl E).
  rewrite Hv in H. apply H. by destruct applied.
Qed.

Definition ex_b1 : Boot := fst (ex_round 150 ex_boot).
Definition ex_b2 : Boot := ex_published (ex_signed 5) ex_b1.
Definition ex_b3 : Boot := fst (ex_round 152 ex_b2).

Lemma ex_history : history "/m" "/t" ex_cachePath ex_b3 [5; 4].
Proof.
  apply ex_hist_round; [|vm_compute; reflexivity|vm_compute; reflexivity].
  apply hist_file; [|discriminate].
  apply ex_hist_round; [|vm_compute; reflexivity|vm_compute; reflexivity].
  apply hist_start. vm_compute. reflexivity.
Qed.

Lemma adopted_versions_never_decrease_witness :
  history "/m" "/t" ex_cachePath ex_b3 [5; 4] /\ StronglySorted (fun v w => w <= v) [5; 4].
Proof.
  split; [exact ex_history|].
  apply (adopted_versions_never_decrease "/m" "/t" ex_cachePath ex_b3 [5; 4]); [discriminate|exact ex_history].
Defined.

(** The cache that could not be written: the configuration and the active source have changed all the same,
    the round counts as failed, and the next one adopts an older manifest. *)
Example adopted_but_not_saved :
  let env := mkBootEnv 150 150 150 (fun _ => None) None None (Some (errorsNew "no space", None)) in
  let '(b1, (_, applied1, d1)) := step env 150 (Some 500) (NewRefresher (ex_disk (ex_signed 5)) (New "/m" "/t" ex_cachePath ex_baked) ex_cfg) in
  let '(b2, (_, applied2, _)) := ex_round 151 (ex_published (ex_signed 4) b1) in
  (wc_BootstrapManifestVersion (bo_cfg b1), bm_activeSource (bo_mgr b1), bool_decide (is_Some applied1), de_SourceAfter d1) = (5, "manifest", false, SourceNone)
  /\ (wc_BootstrapManifestVersion (bo_cfg b2), bool_decide (is_Some applied2)) = (4, true).
Proof. vm_compute. split; reflexivity. Qed.

(** The default path of the cache has the word "network", so that its absence makes any rejection of
    a manifest recoverable; the same rejection with the cache elsewhere is not. *)
Example missing_cache_is_a_network_error :
  let reason path := "manifest rejected: MANIFEST_SIGNATURE_INVALID: manifest signature invalid; cache invalid: open "
    +:+ path +:+ ": no such file or directory" in
  classifyError (reason ex_cachePath) = ErrorRecoverable /\ classifyError (reason "/data/cache.json") = ErrorNonRecoverable.
Proof. vm_compute. split; reflexivity. Qed.

(** Paths that are not set are reported as a bad trust bundle. *)
Example unconfigured_is_a_bad_bundle :
  bm_lastRejectCode (fst (LoadBootstrapSet ∅ (ex_env 150) (New "" "" "" ex_baked))) = "TRUST_BUNDLE_INVALID".
Proof. vm_compute. reflexivity. Qed.

(** A cache that cannot be read when the version is asked for stands for no version at all. *)
Example unreadable_cache_forgets_the_version :
  let b1 := ex_published (ex_signed 3) (fst (ex_round 150 ex_boot)) in
  let env := mkBootEnv 151 151 151 (fun _ => None) (Some (errorsNew "input/output error")) None None in
  adoptedVersion (snd (LoadBootstrapSet (bo_files b1) env (bo_mgr b1))) = [3].
Proof. vm_compute. reflexivity. Qed.
