(* ===== verification/WakuConfig.v ===== *)
(** * The network configuration of a node

    Models internal/bootstrap/wakuconfig/config.go, the defaults of internal/waku/node.go and the start of
    the refresher in internal/composition/daemonservice/service_runtime.go: defaults, the yaml
    file, the environment, and the bootstrap set on top of them. The yaml decoder, the parsers of
    strconv and time, and filepath.Join are interfaces. *)
From S2P Require Import Prelude Encoding Text SecureStore Identity ManifestTrust NetworkManifest RefreshPolicy Bootstrap.
From stdpp Require Import base gmap strings list sets option.
From Stdlib Require Import ZArith Lia Ascii.
Open Scope string_scope.
Open Scope Z_scope.
Open Scope go_scope.

Section Loading.
Context {float : GoFloat}.

(** [DaemonNetworkConfig]: pointers and the slice are nil when the file does not have them. *)
Record DaemonNetworkConfig := mkNetworkConfig {
  dn_Transport : string; dn_Port : Z; dn_AdvertiseAddress : string; dn_EnableRelay : option bool;
  dn_EnableStore : option bool; dn_EnableFilter : option bool; dn_EnableLightPush : option bool;
  dn_BootstrapNodes : option (list string); dn_FailoverV1 : option bool; dn_MinPeers : Z;
  dn_StoreQueryFanout : Z; dn_ReconnectInterval : Z; dn_ReconnectBackoffMax : Z;
  dn_ManifestRefreshInterval : Z; dn_ManifestStaleWindow : Z; dn_ManifestRefreshTimeout : Z;
  dn_ManifestBackoffBase : Z; dn_ManifestBackoffMax : Z; dn_ManifestBackoffFactor : float64;
  dn_ManifestBackoffJitterRatio : float64
}.

(** The parsers; [thousandths n] is the float literal n/1000, [fzero] compares with zero. *)
Class GoConfig := {
  yamlUnmarshal : list Z -> result error DaemonNetworkConfig;
  ParseBool : string -> option bool;
  ParseDuration : string -> option Z;
  ParseFloat : string -> option float64;
  filepathJoin : list string -> string;
  thousandths : Z -> float64;
  fzero : float64 -> bool
}.

Context {conf : GoConfig}.

Definition DefaultConfig : Config :=
  mkConfig "mock" 60000 "" true true true true [] true 2 3 (1 * Second) (30 * Second) (60 * Second) (5 * Minute)
    (5 * Second) (1 * Second) (30 * Second) (thousandths 2000) (thousandths 200) "" 0 "" "" "" "".

(** ** Merge *)

Definition mergeText (dst src : string) : string := if negb (src == "") then src else dst.
(** [mergeIfSet] at the integers and at float64 *)
Definition mergeIfSet (dst src : Z) : Z := if negb (src =? 0) then src else dst.
Definition mergeFloat (dst src : float64) : float64 := if negb (fzero src) then src else dst.

Definition Merge (dst : Config) (src : DaemonNetworkConfig) : Config :=
  mkConfig (mergeText (wc_Transport dst) (dn_Transport src)) (mergeIfSet (wc_Port dst) (dn_Port src))
    (mergeText (wc_AdvertiseAddress dst) (dn_AdvertiseAddress src)) (default (wc_EnableRelay dst) (dn_EnableRelay src))
    (default (wc_EnableStore dst) (dn_EnableStore src)) (default (wc_EnableFilter dst) (dn_EnableFilter src))
    (default (wc_EnableLightPush dst) (dn_EnableLightPush src)) (default (wc_BootstrapNodes dst) (dn_BootstrapNodes src))
    (default (wc_FailoverV1 dst) (dn_FailoverV1 src)) (mergeIfSet (wc_MinPeers dst) (dn_MinPeers src))
    (mergeIfSet (wc_StoreQueryFanout dst) (dn_StoreQueryFanout src))
    (mergeIfSet (wc_ReconnectInterval dst) (dn_ReconnectInterval src))
    (mergeIfSet (wc_ReconnectBackoffMax dst) (dn_ReconnectBackoffMax src))
    (mergeIfSet (wc_ManifestRefreshInterval dst) (dn_ManifestRefreshInterval src))
    (mergeIfSet (wc_ManifestStaleWindow dst) (dn_ManifestStaleWindow src))
    (mergeIfSet (wc_ManifestRefreshTimeout dst) (dn_ManifestRefreshTimeout src))
    (mergeIfSet (wc_ManifestBackoffBase dst) (dn_ManifestBackoffBase src))
    (mergeIfSet (wc_ManifestBackoffMax dst) (dn_ManifestBackoffMax src))
    (mergeFloat (wc_ManifestBackoffFactor dst) (dn_ManifestBackoffFactor src))
    (mergeFloat (wc_ManifestBackoffJitterRatio dst) (dn_ManifestBackoffJitterRatio src))
    (wc_BootstrapSource dst) (wc_BootstrapManifestVersion dst) (wc_BootstrapManifestKeyID dst)
    (wc_BootstrapManifestPath dst) (wc_BootstrapTrustBundlePath dst) (wc_BootstrapCachePath dst).

(** ** Environment *)

(** One variable: trimmed, parsed, and ignored when empty or invalid. *)
Definition fromEnv {A} (getenv : string -> string) (name : string) (parse : string -> option A) (dflt : A) : A :=
  let raw := TrimSpace (getenv name) in
  if negb (raw == "") then default dflt (parse raw) else dflt.

Definition ApplyEnvOverrides (getenv : string -> string) (c : Config) : Config :=
  mkConfig (fromEnv getenv "AIM_NETWORK_TRANSPORT" Some (wc_Transport c)) (wc_Port c) (wc_AdvertiseAddress c)
    (wc_EnableRelay c) (wc_EnableStore c) (wc_EnableFilter c) (wc_EnableLightPush c) (wc_BootstrapNodes c)
    (fromEnv getenv "AIM_NETWORK_FAILOVER_V1" ParseBool (wc_FailoverV1 c)) (wc_MinPeers c) (wc_StoreQueryFanout c)
    (wc_ReconnectInterval c) (wc_ReconnectBackoffMax c)
    (fromEnv getenv "AIM_MANIFEST_REFRESH_INTERVAL" ParseDuration (wc_ManifestRefreshInterval c))
    (fromEnv getenv "AIM_MANIFEST_STALE_WINDOW" ParseDuration (wc_ManifestStaleWindow c))
    (fromEnv getenv "AIM_MANIFEST_REFRESH_TIMEOUT" ParseDuration (wc_ManifestRefreshTimeout c))
    (fromEnv getenv "AIM_MANIFEST_BACKOFF_BASE" ParseDuration (wc_ManifestBackoffBase c))
    (fromEnv getenv "AIM_MANIFEST_BACKOFF_MAX" ParseDuration (wc_ManifestBackoffMax c))
    (fromEnv getenv "AIM_MANIFEST_BACKOFF_FACTOR" ParseFloat (wc_ManifestBackoffFactor c))
    (fromEnv getenv "AIM_MANIFEST_BACKOFF_JITTER_RATIO" ParseFloat (wc_ManifestBackoffJitterRatio c))
    (wc_BootstrapSource c) (wc_BootstrapManifestVersion c) (wc_BootstrapManifestKeyID c)
    (wc_BootstrapManifestPath c) (wc_BootstrapTrustBundlePath c) (wc_BootstrapCachePath c).

(** ** The bootstrap set *)

Context {errtext : GoErrorText} {fmt : GoFormat} {lower : GoLower} {crypto : IdentityCrypto}.
Context {mcodec : ManifestCodec float64} {bcodec : JsonCodec Bundle} {ccodec : JsonCodec cachePayload}.

(** [time.Duration] divided by a millisecond: truncated. *)
Definition bakedSet (c : Config) : BootstrapSet :=
  mkSet SourceBaked_ (wc_BootstrapNodes c) (wc_MinPeers c)
    (mkReconnect (Z.quot (wc_ReconnectInterval c) Millisecond) (Z.quot (wc_ReconnectBackoffMax c) Millisecond)
       (thousandths 200)) None.

Definition resolveBootstrapCachePath (dataDir : string) : string :=
  let baseDir := TrimSpace dataDir in
  filepathJoin [if baseDir == "" then "." else baseDir; "network"; "bootstrap-cache.json"].

Definition with_paths (manifest trust cache : string) (c : Config) : Config :=
  mkConfig (wc_Transport c) (wc_Port c) (wc_AdvertiseAddress c) (wc_EnableRelay c) (wc_EnableStore c)
    (wc_EnableFilter c) (wc_EnableLightPush c) (wc_BootstrapNodes c) (wc_FailoverV1 c) (wc_MinPeers c)
    (wc_StoreQueryFanout c) (wc_ReconnectInterval c) (wc_ReconnectBackoffMax c) (wc_ManifestRefreshInterval c)
    (wc_ManifestStaleWindow c) (wc_ManifestRefreshTimeout c) (wc_ManifestBackoffBase c) (wc_ManifestBackoffMax c)
    (wc_ManifestBackoffFactor c) (wc_ManifestBackoffJitterRatio c) (wc_BootstrapSource c)
    (wc_BootstrapManifestVersion c) (wc_BootstrapManifestKeyID c) manifest trust cache.

Definition with_BootstrapSource (source : string) (c : Config) : Config :=
  mkConfig (wc_Transport c) (wc_Port c) (wc_AdvertiseAddress c) (wc_EnableRelay c) (wc_EnableStore c)
    (wc_EnableFilter c) (wc_EnableLightPush c) (wc_BootstrapNodes c) (wc_FailoverV1 c) (wc_MinPeers c)
    (wc_StoreQueryFanout c) (wc_ReconnectInterval c) (wc_ReconnectBackoffMax c) (wc_ManifestRefreshInterval c)
    (wc_ManifestStaleWindow c) (wc_ManifestRefreshTimeout c) (wc_ManifestBackoffBase c) (wc_ManifestBackoffMax c)
    (wc_ManifestBackoffFactor c) (wc_ManifestBackoffJitterRatio c) source
    (wc_BootstrapManifestVersion c) (wc_BootstrapManifestKeyID c) (wc_BootstrapManifestPath c)
    (wc_BootstrapTrustBundlePath c) (wc_BootstrapCachePath c).

(** The two warnings and the line for an accepted manifest are left out. *)
Definition applyBootstrapManager (getenv : string -> string) (files : Files) (env : BootEnv) (dataDir : string)
    (c : Config) : Files * Config :=
  let manifestPath := TrimSpace (getenv "AIM_NETWORK_MANIFEST_PATH") in
  let trustBundlePath := TrimSpace (getenv "AIM_TRUST_BUNDLE_PATH") in
  let override := TrimSpace (getenv "AIM_BOOTSTRAP_CACHE_PATH") in
  let cachePath := if negb (override == "") then override else resolveBootstrapCachePath dataDir in
  let manager := New manifestPath trustBundlePath cachePath (bakedSet c) in
  let c := with_paths manifestPath trustBundlePath cachePath c in
  let '(manager, load) := LoadBootstrapSet files env manager in
  match load with
  | Err _ => (files, with_BootstrapSource "unavailable" c)
  | Ok set =>
      let '(b, apply) := ApplyBootstrapSet env set (NewRefresher files manager c) in
      (bo_files b, if ap_Applied apply then bo_cfg b else with_BootstrapSource "unavailable" (bo_cfg b))
  end.

(** The candidates in order: the first that can be read and decoded. *)
Fixpoint firstParsed (read : string -> result error (list Z)) (candidates : list string) : option DaemonNetworkConfig :=
  match candidates with
  | [] => None
  | path :: rest =>
      match read path with
      | Err _ => firstParsed read rest
      | Ok data =>
          match yamlUnmarshal data with Err _ => firstParsed read rest | Ok parsed => Some parsed end
      end
  end.

Definition LoadFromPathWithDataDir (getenv : string -> string) (read : string -> result error (list Z))
    (files : Files) (env : BootEnv) (configPath dataDir : string) : Files * Config :=
  let candidates := if negb (configPath == "") then [configPath]
                    else ["go-backend/configs/config.yaml"; "configs/config.yaml"] in
  let cfg := match firstParsed read candidates with Some network => Merge DefaultConfig network | None => DefaultConfig end in
  applyBootstrapManager getenv files env dataDir (ApplyEnvOverrides getenv cfg).

(** [startBootstrapRefreshLoop]: no refresher without the two paths, or when one runs. *)
Definition startBootstrapRefreshLoop (files : Files) (running : bool) (c : Config) : option Boot :=
  if (wc_BootstrapManifestPath c == "") || (wc_BootstrapTrustBundlePath c == "") then None else
  if running then None else
  Some (NewRefresher files
    (New (wc_BootstrapManifestPath c) (wc_BootstrapTrustBundlePath c) (wc_BootstrapCachePath c) (bakedSet c)) c).

(** ** What a node starts with *)

(** The settings no bootstrap set touches. *)
Definition settings (c : Config) :=
  (wc_Transport c, wc_Port c, wc_AdvertiseAddress c, (wc_EnableRelay c, wc_EnableStore c, wc_EnableFilter c, wc_EnableLightPush c),
   wc_FailoverV1 c, wc_StoreQueryFanout c, (wc_ManifestRefreshInterval c, wc_ManifestStaleWindow c, wc_ManifestRefreshTimeout c),
   (wc_ManifestBackoffBase c, wc_ManifestBackoffMax c, wc_ManifestBackoffFactor c, wc_ManifestBackoffJitterRatio c)).

(** The nodes of [c'] and how it waits come from the set. *)
Definition set_applied (set : BootstrapSet) (c' : Config) : Prop :=
  wc_BootstrapNodes c' = bs_BootstrapNodes set /\ wc_MinPeers c' = bs_MinPeers set
  /\ wc_ReconnectInterval c' = s64 (rp_BaseIntervalMS (bs_ReconnectPolicy set) * Millisecond)
  /\ wc_ReconnectBackoffMax c' = s64 (rp_MaxIntervalMS (bs_ReconnectPolicy set) * Millisecond).

(** A node starts with the bootstrap nodes of a manifest that verifies, of a valid cache or of its own
    configuration, and says which. With source "manifest" they are those of a manifest that verified under
    the trust bundle of the file at that moment; with "baked" those configured before; with "unavailable" either nothing was
    changed, or a verified manifest was applied whose cache could not be written. Other settings and files stay. *)
Theorem startup_bootstrap_sources (getenv : string -> string) (files files' : Files) (env : BootEnv) (dataDir : string)
    (c c' : Config) :
  applyBootstrapManager getenv files env dataDir c = (files', c') ->
  settings c' = settings c
  /\ (forall path, path <> wc_BootstrapCachePath c' -> files' !! path = files !! path)
  /\ ((exists raw trustRaw bundle last verified,
         files !! wc_BootstrapManifestPath c' = Some raw /\ files !! wc_BootstrapTrustBundlePath c' = Some trustRaw
         /\ ParseBundle trustRaw = Ok bundle
         /\ Verify flt fofZ (be_clock env) raw bundle (be_now env) last = Ok verified
         /\ set_applied (setOf verified (be_now env)) c' /\ wc_BootstrapManifestVersion c' = nm_Version verified
         /\ wc_BootstrapSource c' ∈ [SourceManifest_; "unavailable"])
      \/ (files' = files /\ wc_BootstrapManifestVersion c' = wc_BootstrapManifestVersion c
          /\ wc_BootstrapSource c' = "unavailable" /\ wc_BootstrapNodes c' = wc_BootstrapNodes c)
      \/ (files' = files /\ exists set, validateSet set = Ok tt /\ set_applied set c'
          /\ wc_BootstrapSource c' = bs_Source set
          /\ ((bs_Source set = SourceCache_ /\ exists raw cached, files !! wc_BootstrapCachePath c' = Some raw
                 /\ unmarshalJSON raw = Ok cached /\ bs_BootstrapNodes set = bs_BootstrapNodes (cp_Set cached))
              \/ set = bakedSet c))).
Proof.
  unfold applyBootstrapManager. cbv zeta. set (m0 := New _ _ _ _).
  destruct (LoadBootstrapSet files env m0) as [m load] eqn:El.
  destruct (LoadBootstrapSet_loaded _ _ _ _ _ El) as [[= H1 H2 H3 H4] Hload].
  destruct load as [set|[code reason]].
  2: { intros [= <- <-]. split; [done|]. split; [done|]. right; left. by split_and!. }
  destruct Hload as [Hval Hsrc]. unfold ApplyBootstrapSet. rewrite Hval. cbn [bo_files bo_mgr bo_cfg NewRefresher].
  destruct Hsrc as [(Hs & _ & _ & raw & t & bundle & v & Hr & Ht & Hb & Hv & ->)|Hsrc].
  - rewrite bool_decide_true by done. destruct (saveCache _ _ _ _) as [files1 saved] eqn:Es.
    assert (Hfiles : forall path, path <> bm_cachePath m0 -> files1 !! path = files !! path).
    { intros path Hp. apply (saveCache_other _ _ _ _ _ _ _ Es). cbn. by rewrite H3. }
    intros Hout. assert (Hf : files1 = files') by (destruct saved; by injection Hout).
    assert (Hc : c' = configured (setOf v (be_now env)) (with_paths (bm_manifestPath m0) (bm_trustBundlePath m0) (bm_cachePath m0) c)
      \/ c' = with_BootstrapSource "unavailable" (configured (setOf v (be_now env)) (with_paths (bm_manifestPath m0) (bm_trustBundlePath m0) (bm_cachePath m0) c)))
      by (destruct saved; injection Hout as _ <-; auto).
    subst files1. clear Hout. split; [by destruct Hc as [->| ->]|]. split; [by destruct Hc as [->| ->]|]. left.
    exists raw, t, bundle, (readCachedManifestVersion files env m0), v.
    destruct Hc as [->| ->]; (split_and!; [done|done|done|done|repeat split|done|set_unfold; auto]).
  - assert (Hne : bs_Source set <> SourceManifest_) by (destruct Hsrc as [(-> & _)|(-> & _)]; discriminate).
    rewrite bool_decide_false by done. cbn. intros [= <- <-]. split; [done|]. split; [done|]. right; right.
    split; [done|]. exists set. split_and!; [done|repeat split|done|].
    destruct Hsrc as [(-> & _ & raw & cached & Hr & Hu & ->)|(Hs & _ & _ & ->)]; [left|by right].
    split; [done|]. by exists raw, cached.
Qed.

End Loading.

(** ** A configuration to compute with, and the witness *)

#[local] Existing Instance exByteCrypto | 0.

#[export] Instance exConfig : GoConfig := {
  yamlUnmarshal bs := match bs with
    | [port; peers] => Ok (mkNetworkConfig "go-waku" port "" None None (Some false) None (Some ["/dns4/own.example/tcp/60000"])
        None peers 0 0 0 0 0 0 0 0 (Some 0) (Some 0))
    | _ => Err (errorsNew "yaml")
    end;
  ParseBool s := if s == "true" then Some true else if s == "false" then Some false else None;
  ParseDuration s := if s == "90s" then Some (90 * Second) else None;
  ParseFloat s := if s == "nan" then Some None else None;
  filepathJoin l := String.concat "/" l;
  thousandths n := Some n;
  fzero x := bool_decide (x = Some 0)
}.

Definition ex_getenv (manifest : string) (name : string) : string :=
  if name == "AIM_NETWORK_MANIFEST_PATH" then manifest else
  if name == "AIM_TRUST_BUNDLE_PATH" then " /t " else
  if name == "AIM_MANIFEST_REFRESH_INTERVAL" then "90s" else
  if name == "AIM_MANIFEST_BACKOFF_MAX" then "soon" else "".

Definition ex_read (path : string) : result error (list Z) :=
  if path == "configs/config.yaml" then Ok [60001; 5] else Err fsErrNotExist.

Definition ex_start (manifest : string) : Files * Config :=
  LoadFromPathWithDataDir (ex_getenv manifest) ex_read (ex_disk (ex_signed 4)) (ex_env 150) "" "/data".

(** The file over the defaults, the environment over the file, an invalid value ignored, the manifest last. *)
Example start_from_manifest :
  let c := snd (ex_start "/m") in
  (wc_Transport c, wc_Port c, wc_EnableRelay c, wc_EnableFilter c, wc_ManifestRefreshInterval c, wc_ManifestBackoffMax c)
  = ("go-waku", 60001, true, false, 90 * Second, 30 * Second)
  /\ (wc_BootstrapSource c, wc_BootstrapManifestVersion c, wc_MinPeers c, wc_BootstrapNodes c)
     = ("manifest", 4, 1, ["/dns4/boot.example/tcp/60000"])
  /\ wc_BootstrapCachePath c = "/data/network/bootstrap-cache.json".
Proof. vm_compute. split_and!; reflexivity. Qed.

Example start_without_manifest :
  let c := snd (ex_start "") in
  (wc_BootstrapSource c, wc_MinPeers c, wc_BootstrapNodes c) = ("baked", 5, ["/dns4/own.example/tcp/60000"]).
Proof. vm_compute. reflexivity. Qed.

Definition ex_configured : Config := ApplyEnvOverrides (ex_getenv "/m") (Merge DefaultConfig (mkNetworkConfig "" 0 "" None None None None (Some ["/dns4/own.example/tcp/60000"]) None 0 0 0 0 0 0 0 0 0 (Some 0) (Some 0))).
Definition ex_applied : Files * Config :=
  applyBootstrapManager (ex_getenv "/m") (ex_disk (ex_signed 4)) (ex_env 150) "/data" ex_configured.

Lemma startup_bootstrap_sources_witness :
  settings (snd ex_applied) = settings ex_configured /\ wc_BootstrapSource (snd ex_applied) = "manifest".
Proof.
  destruct (startup_bootstrap_sources (ex_getenv "/m") (ex_disk (ex_signed 4)) (fst ex_applied) (ex_env 150) "/data"
    ex_configured (snd ex_applied)) as (H & _ & _).
  - apply surjective_pairing.
  - split; [exact H|vm_compute; reflexivity].
Defined.

(** The refresher takes the configuration the manifest was already applied to for the baked one: when the manifest
    and the cache are gone, what it falls back to as "baked" are the manifest's nodes, not the configured ones. *)
Example refresher_bakes_the_manifest :
  let start := ex_start "/m" in
  match startBootstrapRefreshLoop ∅ false (snd start) with
  | Some b =>
      let '(b', (load, _, _)) := ex_round 151 b in
      wc_BootstrapSource (bo_cfg b') = "baked" /\ wc_BootstrapNodes (bo_cfg b') = ["/dns4/boot.example/tcp/60000"]
  | None => False
  end.
Proof. vm_compute. split; reflexivity. Qed.
