(* ===== verification/Enrollment.v ===== *)
(** * Enrollment tokens

    Models internal/bootstrap/enrollmenttoken (token.go, store.go, keys.go), the token flow of
    internal/composition/daemonservice/enrollment_token.go and internal/nodeagent/service.go: signed tokens
    that enroll a node, each redeemed once, and the state of the node agent. *)
From S2P Require Import Prelude Encoding Text SecureStore Identity.
From stdpp Require Import base gmap strings list sets option.
From Stdlib Require Import ZArith Lia Ascii.
Open Scope string_scope.
Open Scope Z_scope.
Open Scope go_scope.

(** ** Data *)

Inductive tokenError :=
| ErrTokenMalformed | ErrTokenIssuerInvalid | ErrTokenScopeInvalid | ErrTokenClaimsInvalid
| ErrTokenSignatureInvalid | ErrTokenExpired | ErrTokenAlreadyUsed
| OtherError (e : error).

#[export] Instance tokenError_eq_dec : EqDecision tokenError.
Proof. solve_decision. Defined.

Definition RequiredIssuer : string := "ardents-control-plane".
Definition RequiredScope : string := "node.enroll".

Record Claims := mkClaims {
  tc_TokenID : string; tc_IssuedAt : Z; tc_ExpiresAt : Z; tc_Scope : string; tc_SubjectNodeGroup : string;
  tc_Issuer : string; tc_KeyID : string
}.
Definition noClaims : Claims := mkClaims "" 0 0 "" "" "" "".

#[export] Instance Claims_eq_dec : EqDecision Claims.
Proof. solve_decision. Defined.

Record AuditEvent := mkAudit {
  ae_EventType : string; ae_TokenID : string; ae_Issuer : string; ae_KeyID : string; ae_Result : string;
  ae_Reason : string; ae_At : Z
}.

Definition rejectedAudit (at_ : Z) (claims : Claims) (reason : string) : AuditEvent :=
  mkAudit "enrollment.token.redeemed" (tc_TokenID claims) (tc_Issuer claims) (tc_KeyID claims) "rejected" reason at_.

(** A verifier; the clock is an argument of its method. *)
Record Verifier := mkVerifier {
  tv_RequiredIssuer : string; tv_RequiredScope : string; tv_PublicKeys : gmap string (list Z)
}.

Abbreviation Seen := (gmap string Z).

(** The file store, with the contents of its file. *)
Record FileStore := mkFileStore { fs_path : string; fs_seen : Seen; fs_disk : option (list Z) }.

(** Errors of the directory and of the write, which may leave other contents. *)
Record TokenEnv := mkTokenEnv {
  te_read : option error; te_mkdir : option error; te_write : option (error * option (list Z))
}.
Definition te_ok : TokenEnv := mkTokenEnv None None None.

Section Tokens.
Context {crypto : IdentityCrypto} {ccodec : JsonCodec Claims} {scodec : JsonCodec Seen} {fmt : GoFormat}.

(** ** Tokens *)

Definition validateClaims (claims : Claims) (requiredIssuer requiredScope : string) : result tokenError unit :=
  let requiredIssuer := if requiredIssuer == "" then RequiredIssuer else requiredIssuer in
  let requiredScope := if requiredScope == "" then RequiredScope else requiredScope in
  if negb (TrimSpace (tc_Issuer claims) == requiredIssuer) then Err ErrTokenIssuerInvalid else
  if negb (TrimSpace (tc_Scope claims) == requiredScope) then Err ErrTokenScopeInvalid else
  if (TrimSpace (tc_TokenID claims) == "") || IsZero (tc_IssuedAt claims) || IsZero (tc_ExpiresAt claims)
     || (TrimSpace (tc_SubjectNodeGroup claims) == "") || (TrimSpace (tc_KeyID claims) == "")
  then Err ErrTokenClaimsInvalid else
  if negb (After (tc_ExpiresAt claims) (tc_IssuedAt claims)) then Err ErrTokenClaimsInvalid else Ok tt.

Definition decodeToken (token : string) : result tokenError (Claims * list Z * list Z) :=
  match Split (TrimSpace token) "."%char with
  | [p; s] =>
      match RawURLDecodeString p with
      | None => Err ErrTokenMalformed
      | Some payload =>
          match RawURLDecodeString s with
          | None => Err ErrTokenMalformed
          | Some signature =>
              match unmarshalJSON payload with
              | Err _ => Err ErrTokenMalformed
              | Ok claims => Ok (claims, payload, signature)
              end
          end
      end
  | _ => Err ErrTokenMalformed
  end.

(** [ed25519.Sign] panics for a key of another length. *)
Definition EncodeSignedToken (claims : Claims) (privateKey : list Z) : panics (result error string) :=
  match marshalJSON claims with
  | Err err => Returns (Err err)
  | Ok payload =>
      if (length privateKey =? PrivateKeySize)%nat
      then Returns (Ok (RawURLEncodeToString payload +:+ "." +:+ RawURLEncodeToString (edSign privateKey payload)))
      else Panics
  end.

(** A store answers whether the token was new, and may fail. *)
Definition tokenOp (S A : Type) : Type := M S tokenError A.

Definition claimsReject (e : tokenError) : string :=
  match e with
  | ErrTokenIssuerInvalid => "TOKEN_ISSUER_INVALID"
  | ErrTokenScopeInvalid => "TOKEN_SCOPE_INVALID"
  | _ => "TOKEN_CLAIMS_INVALID"
  end.

(** [VerifyAndRedeem] over any store; none is [fun _ _ s => (s, Ok true)]. *)
Definition VerifyAndRedeem {S} (TryRedeem : string -> Z -> tokenOp S bool) (v : Verifier) (now : Z) (token : string)
    (s : S) : S * AuditEvent * result tokenError Claims :=
  match decodeToken token with
  | Err err => (s, rejectedAudit now noClaims "TOKEN_MALFORMED", Err err)
  | Ok (claims, payload, signature) =>
      match validateClaims claims (tv_RequiredIssuer v) (tv_RequiredScope v) with
      | Err err => (s, rejectedAudit now claims (claimsReject err), Err err)
      | Ok _ =>
          if negb (After (tc_ExpiresAt claims) now) then (s, rejectedAudit now claims "TOKEN_EXPIRED", Err ErrTokenExpired) else
          match tv_PublicKeys v !! tc_KeyID claims with
          | None => (s, rejectedAudit now claims "TOKEN_SIGNATURE_INVALID", Err ErrTokenSignatureInvalid)
          | Some pub =>
              if negb (length pub =? PublicKeySize)%nat || negb (edVerify pub payload signature)
              then (s, rejectedAudit now claims "TOKEN_SIGNATURE_INVALID", Err ErrTokenSignatureInvalid) else
              let '(s, r) := TryRedeem (tc_TokenID claims) now s in
              match r with
              | Err err => (s, rejectedAudit now claims "TOKEN_REDEEM_FAILED", Err err)
              | Ok false => (s, rejectedAudit now claims "TOKEN_ALREADY_USED", Err ErrTokenAlreadyUsed)
              | Ok true =>
                  (s, mkAudit "enrollment.token.redeemed" (tc_TokenID claims) (tc_Issuer claims) (tc_KeyID claims)
                        "accepted" "" now, Ok claims)
              end
          end
      end
  end.

(** ** Stores *)

Definition otherError (text : string) : tokenError := OtherError (errorsNew text).

Definition InMemory_TryRedeem (tokenID : string) (at_ : Z) : tokenOp Seen bool := fun redeemed =>
  if tokenID == "" then (redeemed, Err (otherError "token id is required")) else
  if bool_decide (is_Some (redeemed !! tokenID)) then (redeemed, Ok false) else
  (<[tokenID := at_]> redeemed, Ok true).

Definition NewFileStore (path : string) (disk : option (list Z)) : FileStore := mkFileStore path ∅ disk.

Definition Bootstrap (env : TokenEnv) : tokenOp FileStore unit := fun s =>
  if TrimSpace (fs_path s) == "" then (s, Err (otherError "file store path is required")) else
  match readFile (fs_disk s) (te_read env) with
  | Err err => if bool_decide (err = fsErrNotExist) then (mkFileStore (fs_path s) ∅ (fs_disk s), Ok tt)
               else (s, Err (OtherError err))
  | Ok raw =>
      match unmarshalJSON raw with
      | Err err => (s, Err (OtherError err))
      | Ok seen => (mkFileStore (fs_path s) seen (fs_disk s), Ok tt)
      end
  end.

Definition persistLocked (env : TokenEnv) : tokenOp FileStore unit := fun s =>
  if TrimSpace (fs_path s) == "" then (s, Err (otherError "file store path is required")) else
  match te_mkdir env with
  | Some err => (s, Err (OtherError err))
  | None =>
      match marshalJSON (fs_seen s) with
      | Err err => (s, Err (OtherError err))
      | Ok raw =>
          match te_write env with
          | Some (err, left_) =>
              (mkFileStore (fs_path s) (fs_seen s) (match left_ with Some bs => Some bs | None => fs_disk s end), Err (OtherError err))
          | None => (mkFileStore (fs_path s) (fs_seen s) (Some raw), Ok tt)
          end
      end
  end.

Definition File_TryRedeem (env : TokenEnv) (tokenID : string) (at_ : Z) : tokenOp FileStore bool := fun s =>
  if tokenID == "" then (s, Err (otherError "token id is required")) else
  if bool_decide (is_Some (fs_seen s !! tokenID)) then (s, Ok false) else
  bindM (persistLocked env) (fun _ => retM true) (mkFileStore (fs_path s) (<[tokenID := at_]> (fs_seen s)) (fs_disk s)).

(** ** Issuer keys *)

Fixpoint parsePairs (pairs : list string) (out : gmap string (list Z)) : result error (gmap string (list Z)) :=
  match pairs with
  | [] => Ok out
  | entry :: rest =>
      match Cut (TrimSpace entry) ":"%char with
      | None => Err (errorsNew ("invalid issuer key pair " +:+ Quote entry))
      | Some (id, key) =>
          let keyID := TrimSpace id in
          match DecodeString (TrimSpace key) with
          | None => Err (errorsNew ("invalid public key encoding for " +:+ Quote keyID))
          | Some pubRaw =>
              if negb (length pubRaw =? PublicKeySize)%nat
              then Err (errorsNew ("invalid public key size for " +:+ Quote keyID)) else
              parsePairs rest (<[keyID := pubRaw]> out)
          end
      end
  end.

Definition ParseIssuerKeys (raw : string) : result error (gmap string (list Z)) :=
  let raw := TrimSpace raw in
  if raw == "" then Err (errorsNew "issuer keys are required") else parsePairs (Split raw ","%char) ∅.

(** ** The flow of the daemon *)

(** The two fields of the service: no keys, no store. [joined] is filepath.Join of the data directory
    and the name of the store's file, [disk] what that file holds. *)
Record EnrollmentFlow := mkFlow { ef_keys : gmap string (list Z); ef_store : option FileStore }.

Definition configureEnrollmentTokenFlow (issuerKeys joined : string) (disk : option (list Z)) (env : TokenEnv)
    (f : EnrollmentFlow) : EnrollmentFlow * result tokenError unit :=
  let keysRaw := TrimSpace issuerKeys in
  if keysRaw == "" then (mkFlow ∅ None, Ok tt) else
  match ParseIssuerKeys keysRaw with
  | Err err => (f, Err (OtherError err))
  | Ok keys =>
      let '(store, r) := Bootstrap env (NewFileStore joined disk) in
      match r with
      | Err err => (mkFlow keys (ef_store f), Err err)
      | Ok _ => (mkFlow keys (Some store), Ok tt)
      end
  end.

Definition RedeemEnrollmentToken (env : TokenEnv) (now : Z) (token : string) (f : EnrollmentFlow)
    : EnrollmentFlow * result tokenError Claims :=
  match ef_store f with
  | None => (f, Err (otherError "enrollment token flow is not configured"))
  | Some store =>
      if bool_decide (ef_keys f = ∅) then (f, Err (otherError "enrollment token flow is not configured")) else
      let '(store, _, r) := VerifyAndRedeem (File_TryRedeem env) (mkVerifier RequiredIssuer RequiredScope (ef_keys f)) now token store in
      (mkFlow (ef_keys f) (Some store), r)
  end.

(** ** The node agent *)

Record EnrollmentState := mkEnrollment {
  en_TokenID : string; en_Issuer : string; en_Scope : string; en_SubjectNodeGroup : string; en_KeyID : string;
  en_ExpiresAt : Z; en_EnrolledAt : Z
}.
Record State := mkState {
  na_SchemaVersion : Z; na_NodeID : string; na_NodePublicKeyBase64 : string; na_NodePrivateKeyBase64 : string;
  na_InitializedAt : Z; na_Enrollment : option EnrollmentState
}.
Record Status := mkStatus {
  ns_NodeID : string; ns_Initialized : bool; ns_Enrolled : bool; ns_ProfileID : string; ns_Health : string;
  ns_PeerCount : Z; ns_CheckedAt : Z; ns_Source : string; ns_LastError : string
}.

Context {stcodec : JsonCodec State} {errtext : GoErrorText}.

(** The agent's data directory: the state file, and the file of redeemed tokens at its path. *)
Record AgentDisk := mkAgentDisk { ad_state : option (list Z); ad_redeemed : option (list Z) }.

Definition loadState (readErr : option error) (d : AgentDisk) : result error (option State) :=
  match readFile (ad_state d) readErr with
  | Err err => if bool_decide (err = fsErrNotExist) then Ok None else Err err
  | Ok raw => match unmarshalJSON raw with Err err => Err err | Ok state => Ok (Some state) end
  end.

Definition saveState (write : option (error * option (list Z))) (state : State) : M AgentDisk error unit := fun d =>
  match marshalJSON state with
  | Err err => (d, Err err)
  | Ok raw =>
      match write with
      | Some (err, left_) =>
          (mkAgentDisk (match left_ with Some bs => Some bs | None => ad_state d end) (ad_redeemed d), Err err)
      | None => (mkAgentDisk (Some raw) (ad_redeemed d), Ok tt)
      end
  end.

Definition generateNodeID (publicKey : list Z) : string :=
  let encoded := RawURLEncodeToString publicKey in
  "node_" +:+ (if (24 <? String.length encoded)%nat then String.substring 0 24 encoded else encoded).

(** [key] is what ed25519.GenerateKey returns. *)
Definition Init (env : TokenEnv) (key : result error (list Z * list Z)) (now : Z) : M AgentDisk error (State * bool) := fun d =>
  match te_mkdir env with
  | Some err => (d, Err err)
  | None =>
      match loadState (te_read env) d with
      | Err err => (d, Err err)
      | Ok (Some existing) => (d, Ok (existing, false))
      | Ok None =>
          match key with
          | Err err => (d, Err err)
          | Ok (pub, prv) =>
              let state := mkState 1 (generateNodeID pub) (EncodeToString pub) (EncodeToString prv) now None in
              bindM (saveState (te_write env) state) (fun _ => retM (state, true)) d
          end
      end
  end.

(** [Enroll]: a store is made for the call. [path] is the path of its file; [envS] and [envT] are what the
    state file and the store's file meet; the clock is read twice. *)
Definition Enroll (envS envT : TokenEnv) (path : string) (now now' : Z) (token : string) (issuerKeys : gmap string (list Z))
    : M AgentDisk tokenError EnrollmentState := fun d =>
  match loadState (te_read envS) d with
  | Err err => (d, Err (OtherError err))
  | Ok None => (d, Err (otherError "node-agent is not initialized"))
  | Ok (Some state) =>
      let '(store, r) := Bootstrap envT (NewFileStore path (ad_redeemed d)) in
      match r with
      | Err err => (d, Err err)
      | Ok _ =>
          let '(store, _, r) := VerifyAndRedeem (File_TryRedeem envT) (mkVerifier RequiredIssuer RequiredScope issuerKeys) now token store in
          let d := mkAgentDisk (ad_state d) (fs_disk store) in
          match r with
          | Err err => (d, Err err)
          | Ok claims =>
              let enrollment := mkEnrollment (tc_TokenID claims) (tc_Issuer claims) (tc_Scope claims)
                (tc_SubjectNodeGroup claims) (tc_KeyID claims) (tc_ExpiresAt claims) now' in
              let state := mkState (na_SchemaVersion state) (na_NodeID state) (na_NodePublicKeyBase64 state)
                (na_NodePrivateKeyBase64 state) (na_InitializedAt state) (Some enrollment) in
              let '(d, r) := saveState (te_write envS) state d in
              (d, match r with Err err => Err (OtherError err) | Ok _ => Ok enrollment end)
          end
      end
  end.

Definition defaultNodeProfileID : string := "network_assist_default".

(** [Status]: [probe] is what the node's RPC answers about its peers, when it is asked. *)
Definition StatusOf (readErr : option error) (now : Z) (rpcAddr : string) (probe : result error Z) (d : AgentDisk)
    : result error Status :=
  match loadState readErr d with
  | Err err => Err err
  | Ok None => Ok (mkStatus "" false false defaultNodeProfileID "uninitialized" 0 now "local" "")
  | Ok (Some state) =>
      let '(health, lastError) := match na_Enrollment state with
        | None => ("initialized", "")
        | Some e => if After (en_ExpiresAt e) now then ("enrolled", "")
                    else ("degraded", "enrollment token has expired")
        end in
      let enrolled := match na_Enrollment state with Some _ => true | None => false end in
      let status peers source lastError :=
        mkStatus (na_NodeID state) true enrolled defaultNodeProfileID health peers now source lastError in
      if negb (TrimSpace rpcAddr == "") then
        match probe with
        | Ok peerCount => Ok (status peerCount "rpc" lastError)
        | Err err => Ok (status 0 "local" (if lastError == "" then ErrorText err else lastError))
        end
      else Ok (status 0 "local" lastError)
  end.

(** ** Which tokens are accepted *)

Record token_ok (v : Verifier) (now : Z) (token : string) (claims : Claims) : Prop := mkTokenOk {
  to_claims : validateClaims claims (tv_RequiredIssuer v) (tv_RequiredScope v) = Ok tt;
  to_expiry : now < tc_ExpiresAt claims;
  to_signed : exists payload signature pub,
    decodeToken token = Ok (claims, payload, signature) /\ tv_PublicKeys v !! tc_KeyID claims = Some pub
    /\ length pub = PublicKeySize /\ edVerify pub payload signature = true
}.

Lemma VerifyAndRedeem_cases {S} (Try : string -> Z -> tokenOp S bool) v now token s :
  let '(s', _, r) := VerifyAndRedeem Try v now token s in
  (exists claims, token_ok v now token claims /\ s' = fst (Try (tc_TokenID claims) now s)
     /\ r = match snd (Try (tc_TokenID claims) now s) with
            | Ok true => Ok claims | Ok false => Err ErrTokenAlreadyUsed | Err e => Err e end)
  \/ (s' = s /\ (exists e, r = Err e) /\ forall claims, ~ token_ok v now token claims).
Proof.
  unfold VerifyAndRedeem. destruct (decodeToken token) as [[[claims payload] signature]|e] eqn:Ed.
  2: { right. split_and!; [done|by eexists|]. intros c [_ _ (p & sg & pub & H & _)]. congruence. }
  assert (Huniq : forall c, token_ok v now token c -> c = claims).
  { intros c [_ _ (p & sg & pub & H & _)]. congruence. }
  destruct (validateClaims _ _ _) as [[]|e] eqn:Ec.
  2: { right. split_and!; [done|by eexists|]. intros c Hc. pose proof (Huniq _ Hc) as ->. destruct Hc. congruence. }
  destruct (After (tc_ExpiresAt claims) now) eqn:Ea; cbn [negb].
  2: { right. split_and!; [done|by eexists|]. intros c Hc. pose proof (Huniq _ Hc) as ->. destruct Hc as [_ H _].
       apply Z.ltb_ge in Ea. lia. }
  destruct (tv_PublicKeys v !! tc_KeyID claims) as [pub|] eqn:Ek.
  2: { right. split_and!; [done|by eexists|]. intros c Hc. pose proof (Huniq _ Hc) as ->.
       destruct Hc as [_ _ (p & sg & pub & _ & H & _)]. congruence. }
  destruct (_ || _) eqn:Ev.
  - right. split_and!; [done|by eexists|]. intros c Hc. pose proof (Huniq _ Hc) as ->.
    destruct Hc as [_ _ (p & sg & pub' & H & H' & Hl & Hv)]. rewrite Ed in H. injection H as -> ->.
    rewrite Ek in H'. injection H' as ->. rewrite Hl, Hv in Ev. done.
  - apply orb_false_iff in Ev as [Hl Hv]. rewrite negb_false_iff in Hl, Hv. apply Nat.eqb_eq in Hl.
    destruct (Try _ now s) as [s' [[]|e]] eqn:Et; left; exists claims; rewrite Et;
      (split_and!; [|done|done]); (constructor; [done|by apply Z.ltb_lt|by exists payload, signature, pub]).
Qed.

(** ** A token is redeemed once *)

(** JSON texts are [validText]: what is decoded has valid keys and token identifiers, and a set of redeemed tokens with
    valid keys is read back. *)
Class TokenCodecLaws := {
  validText : string -> Prop;
  claims_valid payload claims : unmarshalJSON payload = Ok claims -> validText (tc_TokenID claims);
  seen_valid bs (m : Seen) : unmarshalJSON bs = Ok m -> forall k, is_Some (m !! k) -> validText k;
  seen_reads (m : Seen) bs : (forall k, is_Some (m !! k) -> validText k) -> marshalJSON m = Ok bs ->
    exists m' : Seen, unmarshalJSON bs = Ok m' /\ forall k, is_Some (m !! k) -> is_Some (m' !! k)
}.

(** A write that fails leaves the file, or something that is no set of tokens. *)
Definition fails_whole (env : TokenEnv) : Prop :=
  forall err bs, te_write env = Some (err, Some bs) -> forall m : Seen, unmarshalJSON bs <> Ok m.

(** A store over its life, restarts of the program included: the tokens accepted, the last first. *)
Inductive redemptions (path : string) : FileStore -> list string -> Prop :=
| rd_start : redemptions path (NewFileStore path None) []
| rd_redeem env v now token s ids s' audit r :
    redemptions path s ids -> fails_whole env ->
    VerifyAndRedeem (File_TryRedeem env) v now token s = (s', audit, r) ->
    redemptions path s' (match r with Ok claims => [tc_TokenID claims] | Err _ => [] end ++ ids)
| rd_restart env s ids s' :
    redemptions path s ids -> te_read env <> Some fsErrNotExist ->
    Bootstrap env (NewFileStore path (fs_disk s)) = (s', Ok tt) -> redemptions path s' ids.

Context {laws : TokenCodecLaws}.

Record store_ok (s : FileStore) (ids : list string) : Prop := mkStoreOk {
  so_nodup : NoDup ids;
  so_seen : forall id, id ∈ ids -> is_Some (fs_seen s !! id);
  so_valid : forall k, is_Some (fs_seen s !! k) -> validText k;
  so_disk : match fs_disk s with
            | None => ids = []
            | Some bs => forall m : Seen, unmarshalJSON bs = Ok m -> forall id, id ∈ ids -> is_Some (m !! id)
            end
}.

Lemma File_TryRedeem_ok env id now s ids :
  fails_whole env -> validText id -> store_ok s ids ->
  let '(s', r) := File_TryRedeem env id now s in
  store_ok s' ids /\ (r = Ok true -> store_ok s' (id :: ids)).
Proof.
  intros Hw Hid Hs. pose proof Hs as [Hn Hseen Hval Hd]. unfold File_TryRedeem. destruct (id == ""); [done|].
  destruct (bool_decide (is_Some _)) eqn:Ei; [done|]. apply bool_decide_eq_false in Ei.
  set (s1 := mkFileStore (fs_path s) (<[id := now]> (fs_seen s)) (fs_disk s)).
  assert (Hs1 : store_ok s1 ids).
  { constructor; [done|..|done]; cbn; intros k.
    - intros Hk. apply lookup_insert_is_Some'. right. by apply Hseen.
    - rewrite lookup_insert_is_Some'. intros [<-|Hk]; [done|by apply Hval]. }
  unfold bindM, retM, persistLocked. destruct (_ == _); [done|]. destruct (te_mkdir env); [done|].
  destruct (marshalJSON _) as [raw|] eqn:Ej; [|done].
  destruct (te_write env) as [[err left_]|] eqn:Ew.
  - split; [|done]. destruct Hs1. constructor; try done. cbn. destruct left_ as [bs|]; [|done].
    intros m Hm. by destruct (Hw err bs Ew m).
  - pose proof (so_valid _ _ Hs1) as Hv1. destruct (seen_reads _ _ Hv1 Ej) as (m' & Hm' & Hsub).
    assert (Hd' : forall m : Seen, unmarshalJSON raw = Ok m -> forall k, is_Some (fs_seen s1 !! k) -> is_Some (m !! k)).
    { intros m Hm. rewrite Hm' in Hm. by injection Hm as <-. }
    assert (Hid1 : is_Some (fs_seen s1 !! id)) by (cbn; rewrite lookup_insert_eq; by eexists).
    split; [|intros _]; (constructor; [|..|]); cbn [fs_seen fs_disk].
    + done.
    + apply Hs1.
    + done.
    + intros m Hm k Hk. apply (Hd' m Hm). by apply Hs1.
    + constructor; [|done]. intros Hin. by apply Ei, Hseen.
    + intros k [->|Hk]%elem_of_cons; [done|by apply Hs1].
    + done.
    + intros m Hm k Hk. apply (Hd' m Hm). apply elem_of_cons in Hk as [->|Hk]; [done|by apply Hs1].
Qed.

Lemma redemptions_ok path s ids : redemptions path s ids -> store_ok s ids.
Proof.
  induction 1 as [|env v now token s ids s' audit r _ IH Hw Hv|env s ids s' _ IH Hr Hb].
  - constructor; [constructor|by intros id ?%elem_of_nil| |done]. cbn. intros k [? Hk]. by rewrite lookup_empty in Hk.
  - pose proof (VerifyAndRedeem_cases (File_TryRedeem env) v now token s) as Hc. rewrite Hv in Hc.
    destruct Hc as [(claims & Hok & -> & ->)|(-> & (e & ->) & _)]; [|done].
    destruct (to_signed _ _ _ _ Hok) as (p & sg & pub & Hd & _).
    assert (Hid : validText (tc_TokenID claims)).
    { unfold decodeToken in Hd. destruct (Split _ _) as [|a [|b [|]]]; try done.
      destruct (RawURLDecodeString a) as [p'|]; [|done]. destruct (RawURLDecodeString b); [|done].
      destruct (unmarshalJSON p') as [c|] eqn:Eu; [|done]. injection Hd as -> _ _. by eapply claims_valid. }
    pose proof (File_TryRedeem_ok env (tc_TokenID claims) now s ids Hw Hid IH) as Ht.
    destruct (File_TryRedeem _ _ _ _) as [s' [[]|e]]; cbn [fst snd]; [by apply Ht|apply Ht|apply Ht].
  - destruct IH as [Hn Hseen Hval Hd]. unfold Bootstrap in Hb. cbn in Hb. destruct (_ == _); [done|].
    unfold readFile in Hb. destruct (te_read env) as [err|]; [destruct (err == fsErrNotExist) eqn:Ee|].
    + apply bool_decide_eq_true in Ee. by subst.
    + done.
    + destruct (fs_disk s) as [bs|] eqn:Ed.
      * destruct (unmarshalJSON bs) as [m|] eqn:Eu; [|done]. injection Hb as <-. constructor; [done|..]; cbn.
        -- intros id Hi. by apply (Hd m).
        -- by apply (seen_valid bs).
        -- intros m' Hm' id Hi. rewrite Eu in Hm'. injection Hm' as <-. by apply (Hd m).
      * cbn in Hb. rewrite bool_decide_true in Hb by done. injection Hb as <-. subst ids.
        constructor; [constructor|by intros id ?%elem_of_nil| |done]. cbn. intros k [? Hk]. by rewrite lookup_empty in Hk.
Qed.

(** C23: An enrollment token is good for one enrollment. Over the life of the store of redeemed tokens, with any
    verifiers, any failures to make its directory or to write its file (short of one that leaves another valid set), and any
    restarts that read the file, no token identifier is accepted twice. *)
Theorem token_redeemed_at_most_once (path : string) (s : FileStore) (ids : list string) :
  redemptions path s ids -> NoDup ids.
Proof. intros H. by destruct (redemptions_ok _ _ _ H). Qed.

(** ** Tokens that are issued *)

Definition plainChar (a : ascii) : Prop := (byteN a < 128)%nat /\ space1 a = false /\ a <> "."%char.

Lemma urlDigit_plain v : 0 <= v < 64 -> plainChar (urlDigit (b64digit v)).
Proof.
  intros Hv. pose proof (b64digit_forall (fun v => (byteN (urlDigit (b64digit v)) <? 128)%nat
    && negb (space1 (urlDigit (b64digit v))) && bool_decide (urlDigit (b64digit v) <> "."%char)) v
    ltac:(by vm_compute) Hv) as H. cbv beta in H.
  rewrite !andb_true_iff, negb_true_iff, bool_decide_eq_true, Nat.ltb_lt in H. by destruct H as [[? ?] ?].
Qed.

Lemma encodeRaw_chars bs : Forall (fun b => 0 <= b < 256) bs -> Forall plainChar (encodeRaw bs).
Proof.
  intros Hb. induction bs as [|p|p q|p q r bs IH] using triples_ind; [apply List.Forall_nil|..];
    repeat (apply List.Forall_cons_iff in Hb as [? Hb]); cbv beta in *; cbn [encodeRaw];
    repeat (apply List.Forall_cons; [apply urlDigit_plain; divlia|]); first [apply List.Forall_nil|by apply IH].
Qed.

Lemma encodeRaw_nonempty bs : bs <> [] -> encodeRaw bs <> [].
Proof. by destruct bs as [|p [|q [|r bs]]]. Qed.

Lemma plain_not_dot l : Forall plainChar l -> "."%char ∉ l.
Proof. intros Hl Hin. rewrite list.Forall_forall in Hl. destruct (Hl _ Hin) as (_ & _ & H). done. Qed.

Lemma string_of_app l r :
  String.string_of_list_ascii (l ++ r)%list = String.string_of_list_ascii l +:+ String.string_of_list_ascii r.
Proof. induction l as [|a l IH]; [done|]. cbn. by rewrite IH. Qed.

Lemma TrimSpace_token l r :
  Forall plainChar l -> Forall plainChar r -> l <> [] -> r <> [] ->
  TrimSpace (String.string_of_list_ascii l +:+ String "."%char (String.string_of_list_ascii r))
  = String.string_of_list_ascii l +:+ String "."%char (String.string_of_list_ascii r).
Proof.
  intros Hl Hr Hln Hrn. destruct l as [|a l]; [done|]. destruct (List.exists_last Hrn) as (r' & z & ->).
  replace (String.string_of_list_ascii (a :: l) +:+ String "."%char (String.string_of_list_ascii (r' ++ [z])%list))
    with (String.string_of_list_ascii (a :: (l ++ "."%char :: r') ++ [z])%list).
  - apply List.Forall_cons_iff in Hl as [(Ha & Ha' & _) _]. apply List.Forall_app in Hr as [_ Hz].
    apply List.Forall_cons_iff in Hz as [(Hz & Hz' & _) _]. by apply TrimSpace_solid.
  - change (String "."%char ?x) with (String.string_of_list_ascii ["."%char] +:+ x).
    rewrite <- !string_of_app. f_equal. cbn. f_equal. by rewrite <- app_assoc.
Qed.

(** A token the issuer makes is a token the verifier takes: for claims that are valid and not expired,
    signed with the key whose public half is known under their key identifier, and that the JSON codec reads
    back, the text of [EncodeSignedToken] is accepted, also with spaces around it, and leaves its identifier redeemed. *)
Theorem issued_token_is_accepted (v : Verifier) (now : Z) (claims : Claims) (seed payload : list Z) (redeemed : Seen) :
  Forall (fun b => 0 <= b < 256) payload -> payload <> [] ->
  Forall (fun b => 0 <= b < 256) (edSign (keyFromSeed seed) payload) -> edSign (keyFromSeed seed) payload <> [] ->
  edVerify (publicKeyOf (keyFromSeed seed)) payload (edSign (keyFromSeed seed) payload) = true ->
  length (keyFromSeed seed) = PrivateKeySize -> length (publicKeyOf (keyFromSeed seed)) = PublicKeySize ->
  marshalJSON claims = Ok payload -> unmarshalJSON payload = Ok claims ->
  validateClaims claims (tv_RequiredIssuer v) (tv_RequiredScope v) = Ok tt -> now < tc_ExpiresAt claims ->
  tv_PublicKeys v !! tc_KeyID claims = Some (publicKeyOf (keyFromSeed seed)) -> redeemed !! tc_TokenID claims = None ->
  exists token, EncodeSignedToken claims (keyFromSeed seed) = Returns (Ok token)
    /\ snd (VerifyAndRedeem InMemory_TryRedeem v now token redeemed) = Ok claims
    /\ fst (fst (VerifyAndRedeem InMemory_TryRedeem v now token redeemed)) = <[tc_TokenID claims := now]> redeemed.
Proof.
  intros Hp Hpn Hs Hsn Hver Hk Hpub Hm Hu Hc He Hkey Hnew. set (sig := edSign (keyFromSeed seed) payload) in *.
  set (token := RawURLEncodeToString payload +:+ "." +:+ RawURLEncodeToString sig).
  exists token. unfold EncodeSignedToken. rewrite Hm, Hk, Nat.eqb_refl. split; [done|].
  assert (Hd : decodeToken token = Ok (claims, payload, sig)).
  { unfold decodeToken, token. rewrite !RawURLEncode_quanta by done.
    pose proof (encodeRaw_chars _ Hp) as Hpc. pose proof (encodeRaw_chars _ Hs) as Hsc.
    change ("." +:+ ?x) with (String "."%char x).
    assert (Ht : TrimSpace (String.string_of_list_ascii (encodeRaw payload) +:+ String "."%char (String.string_of_list_ascii (encodeRaw sig)))
                 = String.string_of_list_ascii (encodeRaw payload) +:+ String "."%char (String.string_of_list_ascii (encodeRaw sig)))
      by (apply TrimSpace_token; [done|done|by apply encodeRaw_nonempty|by apply encodeRaw_nonempty]).
    rewrite Ht, Split_pair by (rewrite String.list_ascii_of_string_of_list_ascii; by apply plain_not_dot).
    rewrite <- !RawURLEncode_quanta by done. rewrite !RawURLDecodeString_RawURLEncodeToString by done. by rewrite Hu. }
  unfold VerifyAndRedeem. rewrite Hd, Hc, Hkey. unfold After. rewrite (proj2 (Z.ltb_lt _ _) He). cbn [negb].
  rewrite Hpub, Nat.eqb_refl. fold sig. rewrite Hver. cbn [negb orb]. unfold InMemory_TryRedeem.
  assert (Hid : tc_TokenID claims <> "").
  { intros E. unfold validateClaims in Hc. rewrite E in Hc. destruct (negb _); [done|]. destruct (negb _); [done|].
    by rewrite bool_decide_true in Hc. }
  rewrite bool_decide_false by done. rewrite Hnew. rewrite bool_decide_false by (by intros [? ?]). done.
Qed.

End Tokens.

(** ** Tokens to compute with, and the witnesses *)

Definition ex_claims (id issuer : string) (issued expires : Z) : Claims :=
  mkClaims id issued expires RequiredScope "group-a" issuer "k1".
Definition ex_issued : list Claims :=
  [ex_claims "t1" RequiredIssuer 10 200; ex_claims "t2" RequiredIssuer 10 100; ex_claims "t3" "someone" 10 200;
   ex_claims "t4" RequiredIssuer 300 400].

#[export] Instance exClaimsCodec : JsonCodec Claims := {
  marshalJSON c := match list_find (eq c) ex_issued with
    | Some (i, _) => Ok [123; Z.of_nat i; 125] | None => Err (errorsNew "json") end;
  unmarshalJSON bs := match bs with
    | [123; i; 125] => match ex_issued !! Z.to_nat i with Some c => Ok c | None => Err (errorsNew "json") end
    | _ => Err (errorsNew "json")
    end
}.

#[export] Instance exSeenCodec : JsonCodec Seen := {
  marshalJSON m := Ok [zenc m];
  unmarshalJSON bs := match bs with
    | [z] => match zdec z with Some m => Ok m | None => Err (errorsNew "json") end
    | _ => Err (errorsNew "json")
    end
}.

#[export] Instance EnrollmentState_eq_dec : EqDecision EnrollmentState.
Proof. solve_decision. Defined.
#[export] Instance EnrollmentState_countable : Countable EnrollmentState.
Proof.
  apply (inj_countable' (fun e => (en_TokenID e, en_Issuer e, en_Scope e, en_SubjectNodeGroup e, en_KeyID e, en_ExpiresAt e, en_EnrolledAt e))
    (fun '(v1, v2, v3, v4, v5, v6, v7) => mkEnrollment v1 v2 v3 v4 v5 v6 v7)). by intros [].
Defined.
#[export] Instance State_eq_dec : EqDecision State.
Proof. solve_decision. Defined.
#[export] Instance State_countable : Countable State.
Proof.
  apply (inj_countable' (fun s => (na_SchemaVersion s, na_NodeID s, na_NodePublicKeyBase64 s, na_NodePrivateKeyBase64 s, na_InitializedAt s, na_Enrollment s))
    (fun '(v1, v2, v3, v4, v5, v6) => mkState v1 v2 v3 v4 v5 v6)). by intros [].
Defined.
#[export] Instance exStateCodec : JsonCodec State := {
  marshalJSON m := Ok [zenc m];
  unmarshalJSON bs := match bs with
    | [z] => match zdec z with Some m => Ok m | None => Err (errorsNew "json") end
    | _ => Err (errorsNew "json")
    end
}.

#[export] Program Instance exTokenLaws : TokenCodecLaws := { validText _ := True }.
Next Obligation. done. Qed.
Next Obligation. done. Qed.
Next Obligation. intros m bs _ [= <-]. exists m. split; [|done]. unfold unmarshalJSON, exSeenCodec. by rewrite zdec_zenc. Qed.

(** Signatures are bytes: the key and the sum of the message. *)
Definition tokenCrypto : IdentityCrypto := {|
  keyFromSeed := @keyFromSeed exIdentityCrypto;
  publicKeyOf := @publicKeyOf exIdentityCrypto;
  edSign k m := (take 32 k ++ replicate 32 (foldr Z.add 0 m mod 256))%list;
  edVerify pub m sig := bool_decide (sig = pub ++ replicate 32 (foldr Z.add 0 m mod 256))%list;
  blake2b256 := @blake2b256 exIdentityCrypto;
  base58Encode := @base58Encode exIdentityCrypto;
  sum256 := @sum256 exIdentityCrypto;
  hkdf32 := @hkdf32 exIdentityCrypto;
  mnemonicValid := @mnemonicValid exIdentityCrypto;
  mnemonicSeed := @mnemonicSeed exIdentityCrypto
|}.
#[local] Existing Instance tokenCrypto | 0.

Definition ex_seed (b : Z) : list Z := replicate 32 b.
Definition ex_private (b : Z) : list Z := keyFromSeed (ex_seed b).
Definition ex_keys : gmap string (list Z) := {[ "k1" := publicKeyOf (ex_private 5) ]}.
Definition ex_token (b : Z) (c : Claims) : string :=
  match EncodeSignedToken c (ex_private b) with Returns (Ok t) => t | _ => "" end.
Definition ex_verifier : Verifier := mkVerifier "" "" ex_keys.

Lemma issued_token_is_accepted_witness :
  exists token, EncodeSignedToken (ex_claims "t1" RequiredIssuer 10 200) (ex_private 5) = Returns (Ok token)
    /\ snd (VerifyAndRedeem InMemory_TryRedeem ex_verifier 150 token ∅) = Ok (ex_claims "t1" RequiredIssuer 10 200).
Proof.
  destruct (issued_token_is_accepted ex_verifier 150 (ex_claims "t1" RequiredIssuer 10 200) (ex_seed 5) [123; 0; 125] ∅)
    as (token & H1 & H2 & _); try (vm_compute; reflexivity).
  - repeat (apply List.Forall_cons; [lia|]). apply List.Forall_nil.
  - discriminate.
  - apply (bool_decide_eq_true_1 _). vm_compute. reflexivity.
  - vm_compute. discriminate.
  - exists token. split; [exact H1|exact H2].
Defined.

(** One line per refusal: another key, an expired token, another issuer, the token changed, and the token again.
    A token issued in the future is taken. *)
Example token_refusals :
  let run token := snd (VerifyAndRedeem InMemory_TryRedeem ex_verifier 150 token {[ "t4" := 1 ]}) in
  let t i := ex_token 5 (nth i ex_issued noClaims) in
  (run (ex_token 6 (nth 0 ex_issued noClaims)), run (t 1%nat), run (t 2%nat), run (t 0%nat +:+ ".x"), run (t 3%nat),
   run (" " +:+ t 0%nat +:+ " "))
  = (Err ErrTokenSignatureInvalid, Err ErrTokenExpired, Err ErrTokenIssuerInvalid, Err ErrTokenMalformed,
     Err ErrTokenAlreadyUsed, Ok (nth 0 ex_issued noClaims))
  /\ snd (VerifyAndRedeem InMemory_TryRedeem ex_verifier 150 (t 3%nat) ∅) = Ok (nth 3 ex_issued noClaims).
Proof. vm_compute. split; reflexivity. Qed.

Definition ex_t1 : string := ex_token 5 (ex_claims "t1" RequiredIssuer 10 200).
Definition ex_redeem (env : TokenEnv) (s : FileStore) : FileStore * AuditEvent * result tokenError Claims :=
  VerifyAndRedeem (File_TryRedeem env) ex_verifier 150 ex_t1 s.
Definition ex_restart (s : FileStore) : FileStore := fst (Bootstrap te_ok (NewFileStore "/d/seen.json" (fs_disk s))).

(** Redeemed, and refused after a restart. *)
Definition ex_first := ex_redeem te_ok (NewFileStore "/d/seen.json" None).
Definition ex_again := ex_redeem te_ok (ex_restart (fst (fst ex_first))).

Lemma token_redeemed_at_most_once_witness :
  redemptions "/d/seen.json" (fst (fst ex_again)) ["t1"] /\ NoDup ["t1"].
Proof.
  assert (H : redemptions "/d/seen.json" (fst (fst ex_again)) ["t1"]).
  { apply (rd_redeem "/d/seen.json" te_ok ex_verifier 150 ex_t1 (ex_restart (fst (fst ex_first))) ["t1"]
      (fst (fst ex_again)) (snd (fst ex_again)) (Err ErrTokenAlreadyUsed)); [|discriminate|vm_compute; reflexivity].
    apply (rd_restart "/d/seen.json" te_ok (fst (fst ex_first))); [|discriminate|vm_compute; reflexivity].
    apply (rd_redeem "/d/seen.json" te_ok ex_verifier 150 ex_t1 (NewFileStore "/d/seen.json" None) []
      (fst (fst ex_first)) (snd (fst ex_first)) (Ok (ex_claims "t1" RequiredIssuer 10 200)));
      [apply rd_start|discriminate|vm_compute; reflexivity]. }
  split; [exact H|]. exact (token_redeemed_at_most_once _ _ _ H).
Defined.

(** The token is marked before the write that fails: it was not accepted, and is refused as used until a restart. *)
Example failed_write_burns_the_token :
  let full := mkTokenEnv None None (Some (errorsNew "no space", None)) in
  let '(s1, _, r1) := ex_redeem full (NewFileStore "/d/seen.json" None) in
  let '(s2, _, r2) := ex_redeem te_ok s1 in
  let '(s3, _, r3) := ex_redeem te_ok (ex_restart s2) in
  (r1, r2, is_ok r3) = (Err (OtherError (errorsNew "no space")), Err ErrTokenAlreadyUsed, true).
Proof. vm_compute. reflexivity. Qed.

(** The agent redeems the token before it writes its state: when that write fails the token is gone and the node
    is not enrolled. *)
Example enroll_loses_the_token :
  let d0 := fst (Init te_ok (Ok (publicKeyOf (ex_private 9), ex_private 9)) 20 (mkAgentDisk None None)) in
  let full := mkTokenEnv None None (Some (errorsNew "no space", None)) in
  let '(d1, r1) := Enroll full te_ok "/d/seen.json" 150 151 ex_t1 ex_keys d0 in
  let '(d2, r2) := Enroll te_ok te_ok "/d/seen.json" 152 153 ex_t1 ex_keys d1 in
  (r1, r2, match StatusOf None 160 "" (Ok 0) d2 with Ok s => (ns_Enrolled s, ns_Health s) | Err _ => (true, "") end)
  = (Err (OtherError (errorsNew "no space")), Err ErrTokenAlreadyUsed, (false, "initialized")).
Proof. vm_compute. reflexivity. Qed.

Example enroll_and_status :
  let d0 := fst (Init te_ok (Ok (publicKeyOf (ex_private 9), ex_private 9)) 20 (mkAgentDisk None None)) in
  let '(d1, r1) := Enroll te_ok te_ok "/d/seen.json" 150 151 ex_t1 ex_keys d0 in
  (is_ok r1, match StatusOf None 160 ":1" (Ok 3) d1 with Ok s => (ns_Health s, ns_PeerCount s, ns_Source s) | Err _ => ("", 0, "") end,
   match StatusOf None 200 "" (Ok 3) d1 with Ok s => ns_Health s | Err _ => "" end)
  = (true, ("enrolled", 3, "rpc"), "degraded").
Proof. vm_compute. reflexivity. Qed.
