(* ===== verification/MessageStore.v ===== *)
(** * The message store

    Models internal/storage/message_store.go with the message record and conversation rules of
    pkg/models (models.go, conversation.go): the messages and the pending queue, saved as one
    (encrypted) JSON file. Every mutation builds the next maps, writes them, and only then
    installs them. The store's methods run under its lock, so each is one step on the record below;
    [ms_disk] is the contents of the file at [ms_path]. *)
From S2P Require Import Prelude SecureStore.
From stdpp Require Import base gmap strings list sets option relations.
From Stdlib Require Import ZArith Lia Sorted.
Open Scope string_scope.
Open Scope Z_scope.
Open Scope go_scope.

(** ** pkg/models *)

Record Message := mkMessage {
  msg_ID : string; msg_ContactID : string; msg_ConversationID : string;
  msg_ConversationType : string; msg_ThreadID : string; msg_Content : list Z;
  msg_Timestamp : Z; msg_Direction : string; msg_Status : string; msg_ContentType : string;
  msg_Edited : bool
}.

#[export] Instance Message_eq_dec : EqDecision Message.
Proof. solve_decision. Defined.

Definition zeroMessage : Message := mkMessage "" "" "" "" "" [] 0 "" "" "" false.

Definition ConversationTypeDirect : string := "direct".
Definition ConversationTypeGroup : string := "group".

Definition NormalizeConversationType (raw : string) : string :=
  if TrimSpace raw == ConversationTypeGroup then ConversationTypeGroup else ConversationTypeDirect.

Definition NormalizeMessageConversation (msg : Message) : Message :=
  let contactID := TrimSpace (msg_ContactID msg) in
  let conversationID := TrimSpace (msg_ConversationID msg) in
  let conversationType := NormalizeConversationType (msg_ConversationType msg) in
  let threadID := TrimSpace (msg_ThreadID msg) in
  let conversationID :=
    if (conversationType == ConversationTypeDirect) && (conversationID == "")
    then contactID else conversationID in
  mkMessage (msg_ID msg) contactID conversationID conversationType threadID (msg_Content msg)
    (msg_Timestamp msg) (msg_Direction msg) (msg_Status msg) (msg_ContentType msg)
    (msg_Edited msg).

(** ** message_store.go *)

Record PendingMessage := mkPending {
  pm_Message : Message; pm_RetryCount : Z; pm_NextRetry : Z; pm_LastError : string
}.

Abbreviation Messages := (gmap string Message).
Abbreviation Pendings := (gmap string PendingMessage).

Definition messageStoreSchemaVersion : Z := 2.

Record MessageStore := mkMessageStore {
  ms_messages : Messages;
  ms_pending : Pendings;
  ms_path : string;
  ms_secret : string;
  ms_persist : bool;
  ms_disk : option (list Z)
}.

Definition with_messages (s : MessageStore) (m : Messages) : MessageStore :=
  mkMessageStore m (ms_pending s) (ms_path s) (ms_secret s) (ms_persist s) (ms_disk s).
Definition with_pending (s : MessageStore) (p : Pendings) : MessageStore :=
  mkMessageStore (ms_messages s) p (ms_path s) (ms_secret s) (ms_persist s) (ms_disk s).
Definition with_disk (s : MessageStore) (d : option (list Z)) : MessageStore :=
  mkMessageStore (ms_messages s) (ms_pending s) (ms_path s) (ms_secret s) (ms_persist s) d.

(** The structure that is marshalled. *)
Record messageSnapshot := mkMessageSnapshot {
  sn_SchemaVersion : Z; sn_Messages : Messages; sn_Pending : Pendings
}.

Class MessageCodec := {
  marshalMessages : messageSnapshot -> result error (list Z);
  unmarshalMessages : list Z -> result error messageSnapshot
}.

Definition json_faithful_messages `{MessageCodec} (m : Messages) (p : Pendings) : Prop :=
  exists bs, bs <> [] /\ marshalMessages (mkMessageSnapshot messageStoreSchemaVersion m p) = Ok bs
             /\ unmarshalMessages bs = Ok (mkMessageSnapshot messageStoreSchemaVersion m p).

Definition statusOrder (status : string) : Z :=
  if status == "pending" then 1 else
  if status == "sent" then 2 else
  if status == "delivered" then 3 else
  if status == "read" then 4 else
  if status == "failed" then 1 else 0.

Definition mergeMessageStatus (current candidate : string) : string :=
  if candidate == "failed" then
    if (current == "") || (current == "pending") then "failed" else current
  else if statusOrder current <=? statusOrder candidate then candidate else current.

Definition messagesEqual (a b : Message) : bool :=
  let a := NormalizeMessageConversation a in
  let b := NormalizeMessageConversation b in
  (msg_ID a == msg_ID b) && (msg_ContactID a == msg_ContactID b)
  && (msg_ConversationID a == msg_ConversationID b)
  && (msg_ConversationType a == msg_ConversationType b)
  && (msg_Content a == msg_Content b) && (msg_Timestamp a =? msg_Timestamp b)
  && (msg_Direction a == msg_Direction b) && (msg_Status a == msg_Status b)
  && (msg_ContentType a == msg_ContentType b) && (msg_Edited a == msg_Edited b).

Definition paginateMessages (filtered : list Message) (limit offset : Z) : list Message :=
  let offset := if offset <? 0 then 0 else offset in
  if Z.of_nat (length filtered) <=? offset then [] else
  let filtered := drop (Z.to_nat offset) filtered in
  if (0 <? limit) && (limit <? Z.of_nat (length filtered))
  then take (Z.to_nat limit) filtered else filtered.

Section MessageStore.
Context {cipher : Cipher} {ecodec : EnvelopeCodec} {mcodec : MessageCodec}.

Abbreviation op := (M MessageStore error).

Definition persistSnapshotLocked (env : StoreEnv) (messages : Messages) (pending : Pendings)
    : op unit := fun s =>
  if (ms_path s == "") || negb (ms_persist s) then (s, Ok tt) else
  match wo_mkdir (env_write env) with
  | Some err => (s, Err err)
  | None =>
      match (try! data := marshalMessages (mkMessageSnapshot messageStoreSchemaVersion
                                             messages pending) in
             if negb (ms_secret s == "") then Encrypt (env_rand env) (ms_secret s) data
             else Ok data) with
      | Err err => (s, Err err)
      | Ok data =>
          let '(disk, err) := writeFile (env_write env) data in
          (with_disk s disk, match err with Some e => Err e | None => Ok tt end)
      end
  end.

Definition SaveMessage (env : StoreEnv) (msg : Message) : op unit :=
  let msg := NormalizeMessageConversation msg in
  let! s := getM in
  match ms_messages s !! msg_ID msg with
  | Some existing =>
      if messagesEqual existing msg then retM tt else failM ErrMessageIDConflict
  | None =>
      let nextMessages := <[msg_ID msg := msg]> (ms_messages s) in
      persistSnapshotLocked env nextMessages (ms_pending s) ;;!
      modifyM (fun s => with_messages s nextMessages)
  end.

Definition UpdateMessageStatus (env : StoreEnv) (messageID status : string) : op bool :=
  let! s := getM in
  match ms_messages s !! messageID with
  | None => retM false
  | Some msg =>
      let msg := mkMessage (msg_ID msg) (msg_ContactID msg) (msg_ConversationID msg)
        (msg_ConversationType msg) (msg_ThreadID msg) (msg_Content msg) (msg_Timestamp msg)
        (msg_Direction msg) (mergeMessageStatus (msg_Status msg) status) (msg_ContentType msg)
        (msg_Edited msg) in
      let nextMessages := <[messageID := msg]> (ms_messages s) in
      persistSnapshotLocked env nextMessages (ms_pending s) ;;!
      modifyM (fun s => with_messages s nextMessages) ;;!
      retM true
  end.

Definition UpdateMessageContent (env : StoreEnv) (now : Z) (messageID : string)
    (content : list Z) (contentType : string) : op (Message * bool) :=
  let! s := getM in
  match ms_messages s !! messageID with
  | None => retM (zeroMessage, false)
  | Some msg =>
      let msg := mkMessage (msg_ID msg) (msg_ContactID msg) (msg_ConversationID msg)
        (msg_ConversationType msg) (msg_ThreadID msg) content now
        (msg_Direction msg) (msg_Status msg) contentType true in
      let nextMessages := <[messageID := msg]> (ms_messages s) in
      persistSnapshotLocked env nextMessages (ms_pending s) ;;!
      modifyM (fun s => with_messages s nextMessages) ;;!
      retM (msg, true)
  end.

(** [s.messages = nextMessages; s.pending = nextPending] *)
Definition install (messages : Messages) (pending : Pendings) : op unit :=
  modifyM (fun s => with_pending (with_messages s messages) pending).

Definition DeleteMessage (env : StoreEnv) (contactID messageID : string) : op bool :=
  let! s := getM in
  match ms_messages s !! messageID with
  | None => retM false
  | Some msg =>
      if negb (msg_ContactID msg == contactID) then retM false else
      let nextMessages := delete messageID (ms_messages s) in
      let nextPending := delete messageID (ms_pending s) in
      persistSnapshotLocked env nextMessages nextPending ;;!
      install nextMessages nextPending ;;!
      retM true
  end.

Definition ClearMessages (env : StoreEnv) (contactID : string) : op Z :=
  let! s := getM in
  let nextMessages := filter (fun kv => msg_ContactID kv.2 <> contactID) (ms_messages s) in
  let deletedIDs := dom (filter (fun kv => msg_ContactID kv.2 = contactID) (ms_messages s)) in
  let deleted := Z.of_nat (size deletedIDs) in
  if deleted =? 0 then retM 0 else
  let nextPending := filter (fun kv => (kv.1 ∉ deletedIDs)
                                       /\ msg_ContactID (pm_Message kv.2) <> contactID)
                       (ms_pending s) in
  persistSnapshotLocked env nextMessages nextPending ;;!
  install nextMessages nextPending ;;!
  retM deleted.

Definition GetMessage (s : MessageStore) (messageID : string) : Message * bool :=
  match ms_messages s !! messageID with Some msg => (msg, true) | None => (zeroMessage, false) end.

(** [include] keeps a message (possibly normalized) or drops it. *)
Definition listMessagesFiltered `{GoRuntime} (s : MessageStore) (limit offset : Z)
    (include : Message -> option Message) : list Message :=
  let filtered := omap include (rangeMap (ms_messages s)).*2 in
  let sorted := sortSlice (fun a b => Before (msg_Timestamp a) (msg_Timestamp b)) filtered in
  paginateMessages sorted limit offset.

Definition ListMessages `{GoRuntime} (s : MessageStore) (contactID : string) (limit offset : Z)
    : list Message :=
  listMessagesFiltered s limit offset (fun msg =>
    if negb (msg_ContactID msg == contactID) then None else Some msg).

Definition ListMessagesByConversation `{GoRuntime} (s : MessageStore)
    (conversationID conversationType : string) (limit offset : Z) : list Message :=
  let conversationID := TrimSpace conversationID in
  let conversationType := NormalizeConversationType conversationType in
  listMessagesFiltered s limit offset (fun msg =>
    let normalized := NormalizeMessageConversation msg in
    if negb (msg_ConversationID normalized == conversationID)
       || negb (msg_ConversationType normalized == conversationType)
    then None else Some normalized).

Definition ListMessagesByConversationThread `{GoRuntime} (s : MessageStore)
    (conversationID conversationType threadID : string) (limit offset : Z) : list Message :=
  let conversationID := TrimSpace conversationID in
  let conversationType := NormalizeConversationType conversationType in
  let threadID := TrimSpace threadID in
  listMessagesFiltered s limit offset (fun msg =>
    let normalized := NormalizeMessageConversation msg in
    if negb (msg_ConversationID normalized == conversationID)
       || negb (msg_ConversationType normalized == conversationType)
    then None else
    if negb (TrimSpace (msg_ThreadID normalized) == threadID) then None else Some normalized).

Definition AddOrUpdatePending (env : StoreEnv) (message : Message) (retryCount nextRetry : Z)
    (lastErr : string) : op unit :=
  let! s := getM in
  let nextPending := <[msg_ID message := mkPending message retryCount nextRetry lastErr]>
                       (ms_pending s) in
  persistSnapshotLocked env (ms_messages s) nextPending ;;!
  modifyM (fun s => with_pending s nextPending).

Definition RemovePending (env : StoreEnv) (messageID : string) : op unit :=
  let! s := getM in
  let nextPending := delete messageID (ms_pending s) in
  persistSnapshotLocked env (ms_messages s) nextPending ;;!
  modifyM (fun s => with_pending s nextPending).

Definition DuePending `{GoRuntime} (s : MessageStore) (now : Z) : list PendingMessage :=
  filter (fun p => negb (After (pm_NextRetry p) now)) (rangeMap (ms_pending s)).*2.

Definition PendingCount (s : MessageStore) : Z := Z.of_nat (size (ms_pending s)).

Definition Snapshot (s : MessageStore) : Messages * Pendings := (ms_messages s, ms_pending s).

Definition WipeMessages (env : StoreEnv) : op unit := fun s =>
  let s' := with_pending (with_messages s ∅) ∅ in
  if TrimSpace (ms_path s) == "" then (s', Ok tt) else
  match env_remove env with
  | Some err => if err == fsErrNotExist then (s', Ok tt) else (s', Err err)
  | None => (with_disk s' None, Ok tt)
  end.

Definition SetPersistenceEnabled (enabled : bool) (s : MessageStore) : MessageStore :=
  mkMessageStore (ms_messages s) (ms_pending s) (ms_path s) (ms_secret s) enabled (ms_disk s).

Definition PurgeOlderThan (env : StoreEnv) (cutoff : Z) : op Z :=
  let! s := getM in
  let nextMessages := filter (fun kv => After (msg_Timestamp kv.2) cutoff = true)
                        (ms_messages s) in
  let deletedIDs := dom (filter (fun kv => After (msg_Timestamp kv.2) cutoff = false)
                           (ms_messages s)) in
  let deleted := Z.of_nat (size deletedIDs) in
  if deleted =? 0 then retM 0 else
  let nextPending := filter (fun kv => kv.1 ∉ deletedIDs) (ms_pending s) in
  persistSnapshotLocked env nextMessages nextPending ;;!
  install nextMessages nextPending ;;!
  retM deleted.

(** The file as [load] decodes it: decrypted when there is a secret, except that data without
    the envelope prefix is taken as it is. *)
Definition decodeFile (secret : string) (data : list Z) : result error (list Z) :=
  if negb (secret == "") then
    match Decrypt secret data with
    | Ok decoded => Ok decoded
    | Err err => if err == ErrLegacyData then Ok data else Err err
    end
  else Ok data.

Definition normalizePending (p : PendingMessage) : PendingMessage :=
  mkPending (NormalizeMessageConversation (pm_Message p)) (pm_RetryCount p) (pm_NextRetry p)
    (pm_LastError p).

Definition load (env : StoreEnv) : op unit := fun s =>
  if ms_path s == "" then (s, Ok tt) else
  match readFile (ms_disk s) (env_read env) with
  | Err err => (s, if err == fsErrNotExist then Ok tt else Err err)
  | Ok [] => (s, Ok tt)
  | Ok data =>
      match (try! decoded := decodeFile (ms_secret s) data in unmarshalMessages decoded) with
      | Err err => (s, Err err)
      | Ok snapshot =>
          let v := sn_SchemaVersion snapshot in
          if negb (v =? 0) && (messageStoreSchemaVersion <? v)
          then (s, Err ErrUnsupportedStorageSchema) else
          let schemaMigrated := (v =? 0) || (v <? messageStoreSchemaVersion) in
          let s := with_pending
                     (with_messages s (NormalizeMessageConversation <$> sn_Messages snapshot))
                     (normalizePending <$> sn_Pending snapshot) in
          if schemaMigrated
          then persistSnapshotLocked env (ms_messages s) (ms_pending s) s
          else (s, Ok tt)
      end
  end.

(** The new store, and what is in the file afterwards. *)
Definition NewEncryptedPersistentMessageStore (env : StoreEnv) (path passphrase : string)
    (disk : option (list Z)) : option (list Z) * result error MessageStore :=
  let '(s, r) := load env (mkMessageStore ∅ ∅ path passphrase true disk) in
  (ms_disk s, match r with Ok _ => Ok s | Err err => Err err end).

(** ** The mutations, as steps *)

(** A run of an operation: the store after it, and the error it returned. *)
Definition exec {A} (m : op A) (s : MessageStore) : MessageStore * option error :=
  let '(s', r) := m s in (s', match r with Ok _ => None | Err e => Some e end).

Inductive store_call (env : StoreEnv) : (MessageStore -> MessageStore * option error) -> Prop :=
| sc_save msg : store_call env (exec (SaveMessage env msg))
| sc_status id st : store_call env (exec (UpdateMessageStatus env id st))
| sc_content now id c t : store_call env (exec (UpdateMessageContent env now id c t))
| sc_delete cid id : store_call env (exec (DeleteMessage env cid id))
| sc_clear cid : store_call env (exec (ClearMessages env cid))
| sc_pend msg n t e : store_call env (exec (AddOrUpdatePending env msg n t e))
| sc_unpend id : store_call env (exec (RemovePending env id))
| sc_purge cutoff : store_call env (exec (PurgeOlderThan env cutoff)).

(** Persist the next maps, and install them when that worked. *)
Definition commitMaps (env : StoreEnv) (m : Messages) (p : Pendings) (s : MessageStore)
    : MessageStore * option error :=
  match persistSnapshotLocked env m p s with
  | (s1, Ok _) => (with_pending (with_messages s1 m) p, None)
  | (s1, Err e) => (s1, Some e)
  end.

(** The status a message may get: never of a lower order, and failed only when it was not
    sent. *)
Definition status_follows (x y : string) : Prop :=
  statusOrder x <= statusOrder y
  /\ (y = "failed" -> x = "" \/ x = "pending" \/ x = "failed").

Definition statuses_follow (m m' : Messages) : Prop :=
  forall id x y, m !! id = Some x -> m' !! id = Some y ->
    status_follows (msg_Status x) (msg_Status y).

Definition normal (m : Messages) : Prop :=
  map_Forall (fun _ x => NormalizeMessageConversation x = x) m.

Inductive call_shape (env : StoreEnv) (s : MessageStore) : MessageStore * option error -> Prop :=
| cs_same e : call_shape env s (s, e)
| cs_commit m p :
    statuses_follow (ms_messages s) m -> (normal (ms_messages s) -> normal m) ->
    call_shape env s (commitMaps env m p s).

Lemma status_follows_refl x : status_follows x x.
Proof. split; [done|]. intros ->. auto. Qed.

Lemma mergeMessageStatus_follows x c : status_follows x (mergeMessageStatus x c).
Proof.
  unfold mergeMessageStatus. case_bool_decide as Hc.
  - destruct (_ || _) eqn:E; [|apply status_follows_refl].
    apply orb_true_iff in E. rewrite !bool_decide_eq_true in E.
    destruct E as [-> | ->]; (split; [vm_compute; discriminate|auto]).
  - destruct (Z.leb_spec (statusOrder x) (statusOrder c)); [|apply status_follows_refl].
    split; [done|]. intros ->. done.
Qed.

Lemma statuses_follow_insert m id x y :
  m !! id = Some x -> status_follows (msg_Status x) (msg_Status y) ->
  statuses_follow m (<[id := y]> m).
Proof.
  intros Hx Hf k a b Ha. rewrite lookup_insert. destruct (decide (id = k)) as [<-|]; intros Hb.
  - by simplify_eq.
  - simplify_eq. apply status_follows_refl.
Qed.

Lemma statuses_follow_sub m m' : m' ⊆ m -> statuses_follow m m'.
Proof.
  intros Hs k a b Ha Hb. pose proof (lookup_weaken _ _ _ _ Hb Hs). simplify_eq.
  apply status_follows_refl.
Qed.

Lemma normal_sub (m m' : Messages) : m' ⊆ m -> normal m -> normal m'.
Proof. intros Hs Hn k x Hx. apply (Hn k). by eapply lookup_weaken. Qed.

Lemma NormalizeMessageConversation_idemp m :
  NormalizeMessageConversation (NormalizeMessageConversation m) = NormalizeMessageConversation m.
Proof.
  unfold NormalizeMessageConversation. cbn. rewrite !TrimSpace_idemp.
  assert (Ht : NormalizeConversationType (NormalizeConversationType (msg_ConversationType m))
               = NormalizeConversationType (msg_ConversationType m)).
  { unfold NormalizeConversationType at 2 3. by case_bool_decide. }
  rewrite Ht. f_equal.
  destruct (NormalizeConversationType _ == ConversationTypeDirect); cbn [andb];
    [|by rewrite ?TrimSpace_idemp].
  destruct (TrimSpace (msg_ConversationID m) == "") eqn:E; rewrite TrimSpace_idemp, ?E; [|done].
  by destruct (TrimSpace (msg_ContactID m) == "").
Qed.

(** The fields normalization looks at. *)
Lemma normal_update x y :
  msg_ContactID y = msg_ContactID x -> msg_ConversationID y = msg_ConversationID x ->
  msg_ConversationType y = msg_ConversationType x -> msg_ThreadID y = msg_ThreadID x ->
  NormalizeMessageConversation x = x -> NormalizeMessageConversation y = y.
Proof.
  intros H1 H2 H3 H4 Hx. destruct x, y. cbn in *. subst. unfold NormalizeMessageConversation in *.
  cbn in *. injection Hx as -> -> -> ->. done.
Qed.

(** Persisting touches nothing but the file. *)
Lemma persist_disk env m p s :
  exists d r, persistSnapshotLocked env m p s = (with_disk s d, r).
Proof.
  assert (Hs : s = with_disk s (ms_disk s)) by by destruct s.
  unfold persistSnapshotLocked. destruct (_ || _); [exists (ms_disk s); rewrite <- Hs; eauto|].
  destruct (wo_mkdir _); [exists (ms_disk s); rewrite <- Hs; eauto|].
  destruct (bindR _ _); [|exists (ms_disk s); rewrite <- Hs; eauto].
  unfold writeFile. destruct (wo_write _) as [[e d]|]; eauto.
Qed.

(** The maps an operation is about to persist. *)
Ltac commit_as :=
  match goal with
  | |- call_shape ?e ?s ?r =>
      match r with
      | context [persistSnapshotLocked e ?m ?p s] =>
          let H := fresh in
          enough (H : r = commitMaps e m p s); [rewrite H; constructor|
            unfold commitMaps; destruct (persist_disk e m p s) as (? & [[]|?] & ->); reflexivity]
      end
  end.

Lemma store_call_shape env f s : store_call env f -> call_shape env s (f s).
Proof.
  assert (Hsub : forall P `{!forall x, Decision (P x)}, filter P (ms_messages s) ⊆ ms_messages s)
    by (intros; apply map_filter_subseteq).
  destruct 1; unfold exec, SaveMessage, UpdateMessageStatus, UpdateMessageContent, DeleteMessage,
    ClearMessages, AddOrUpdatePending, RemovePending, PurgeOlderThan, install, bindM, getM, retM,
    failM, modifyM; cbn beta iota zeta.
  - destruct (ms_messages s !! _) as [x|] eqn:Ex; [destruct (messagesEqual _ _); constructor|].
    commit_as.
    + intros k a b Ha Hb. rewrite lookup_insert_ne in Hb by congruence. simplify_eq.
      apply status_follows_refl.
    + intros Hn. apply map_Forall_insert_2; [apply NormalizeMessageConversation_idemp|done].
  - destruct (ms_messages s !! _) as [x|] eqn:Ex; [|constructor].
    commit_as.
    + eapply statuses_follow_insert; [done|apply mergeMessageStatus_follows].
    + intros Hn. apply map_Forall_insert_2; [|done]. by eapply (normal_update x), Hn.
  - destruct (ms_messages s !! _) as [x|] eqn:Ex; [|constructor].
    commit_as.
    + eapply statuses_follow_insert; [done|apply status_follows_refl].
    + intros Hn. apply map_Forall_insert_2; [|done]. by eapply (normal_update x), Hn.
  - destruct (ms_messages s !! _) as [x|] eqn:Ex; [|constructor].
    destruct (negb _); [constructor|].
    commit_as; [apply statuses_follow_sub, delete_subseteq|apply normal_sub, delete_subseteq].
  - destruct (_ =? 0); [constructor|].
    commit_as; [apply statuses_follow_sub, Hsub|apply normal_sub, Hsub].
  - commit_as; [by apply statuses_follow_sub|done].
  - commit_as; [by apply statuses_follow_sub|done].
  - destruct (_ =? 0); [constructor|].
    commit_as; [apply statuses_follow_sub, Hsub|apply normal_sub, Hsub].
Qed.

(** A mutation that fails leaves the messages, the pending queue and the configuration in
    memory as they were, whichever mutation it is and wherever it fails: in the
    validation, in the encoding, or in the file system. *)
Theorem failed_mutation_keeps_memory (env : StoreEnv)
    (f : MessageStore -> MessageStore * option error) (s s' : MessageStore) (err : error) :
  store_call env f -> f s = (s', Some err) -> s' = with_disk s (ms_disk s').
Proof.
  intros Hf Hs. pose proof (store_call_shape env f s Hf) as Hshape. rewrite Hs in Hshape.
  inversion Hshape as [e He|m p _ _ He]; [by destruct s'|].
  revert He. unfold commitMaps. destruct (persist_disk env m p s) as (d & [u|e] & ->); [done|].
  by intros [= <- <-].
Qed.

(** The delivery status of a message never goes back. Whatever mutation runs, with
    whatever outcome, a message that is still stored has a status of at least the order it had
    (pending, sent, delivered, read), and it can become failed only if it had not been sent. *)
Theorem status_never_regresses (env : StoreEnv)
    (f : MessageStore -> MessageStore * option error) (s : MessageStore) (id : string)
    (x y : Message) :
  store_call env f -> ms_messages s !! id = Some x -> ms_messages (fst (f s)) !! id = Some y ->
  status_follows (msg_Status x) (msg_Status y).
Proof.
  intros Hf Hx Hy. pose proof (store_call_shape env f s Hf) as Hshape.
  destruct Hshape as [e|m p Hst _]; cbn in Hy; [simplify_eq; apply status_follows_refl|].
  revert Hy. unfold commitMaps. destruct (persist_disk env m p s) as (d & [u|e] & ->); cbn; intros Hy.
  - by apply (Hst id).
  - simplify_eq. apply status_follows_refl.
Qed.

(** ** The file and the memory *)

(** The file holds these maps (a missing file holds none). *)
Definition disk_holds (secret : string) (disk : option (list Z)) (m : Messages) (p : Pendings)
    : Prop :=
  (disk = None /\ m = ∅ /\ p = ∅)
  \/ exists data, disk = Some data /\ data <> []
       /\ (try! d := decodeFile secret data in unmarshalMessages d)
          = Ok (mkMessageSnapshot messageStoreSchemaVersion m p).

Record synced (s : MessageStore) : Prop := {
  sy_path : TrimSpace (ms_path s) <> "";
  sy_persist : ms_persist s = true;
  sy_normal : normal (ms_messages s);
  sy_disk : disk_holds (ms_secret s) (ms_disk s) (ms_messages s) (ms_pending s)
}.

Lemma open_holds env path secret disk m p :
  disk_holds secret disk m p -> env_read env = None -> path <> "" ->
  NewEncryptedPersistentMessageStore env path secret disk
  = (disk, Ok (mkMessageStore (NormalizeMessageConversation <$> m) (normalizePending <$> p)
                 path secret true disk)).
Proof.
  intros Hd Hr Hp. unfold NewEncryptedPersistentMessageStore, load. cbn [ms_path ms_disk ms_secret].
  rewrite (bool_decide_false _ Hp), Hr. destruct Hd as [(-> & -> & ->)|(data & -> & Hne & Hdec)]; cbn.
  - by rewrite !fmap_empty.
  - destruct data as [|b data]; [done|]. by rewrite Hdec.
Qed.

Lemma TrimSpace_nonempty x : TrimSpace x <> "" -> x <> "".
Proof. by intros Hx ->. Qed.

Section Durable.
Context `{!CipherLaws cipher} `{!EnvelopeCodecLaws ecodec}.

(** When nothing outside fails, a write either fails to encode and does nothing, or leaves the
    maps in the file. *)
Lemma persist_holds env m p s :
  env_ok env -> TrimSpace (ms_path s) <> "" -> ms_persist s = true ->
  (exists e, persistSnapshotLocked env m p s = (s, Err e))
  \/ exists disk, persistSnapshotLocked env m p s = (with_disk s disk, Ok tt)
       /\ (json_faithful_messages m p -> disk_holds (ms_secret s) disk m p).
Proof.
  intros (Hr & _ & [Hmk Hwr] & _) Hp%TrimSpace_nonempty Hon. unfold persistSnapshotLocked.
  rewrite (bool_decide_false _ Hp), Hon, Hmk. cbn [orb negb].
  destruct (marshalMessages _) as [bs|e] eqn:Em; cbn [bindR]; [|by left; eexists].
  right. unfold writeFile. rewrite Hwr. unfold disk_holds, decodeFile, json_faithful_messages.
  destruct (ms_secret s == "") eqn:Es; cbn [negb].
  - exists (Some bs). split; [done|]. intros (bs' & Hne & Hm & Hu). right. exists bs.
    assert (bs' = bs) as -> by congruence. done.
  - destruct (Encrypt_Decrypt (env_rand env) (ms_secret s) bs Hr) as (data & -> & Hd).
    exists (Some data). split; [done|]. intros (bs' & Hne & Hm & Hu). right. exists data.
    split; [done|]. split; [intros ->; by rewrite Decrypt_nil in Hd|]. 
    assert (bs' = bs) as -> by congruence. by rewrite Hd.
Qed.

(** A mutation, or a wipe, in which nothing outside fails. *)
Inductive ok_step (s s' : MessageStore) : Prop :=
| ok_call env f e : env_ok env -> store_call env f -> f s = (s', e) ->
    json_faithful_messages (ms_messages s') (ms_pending s') -> ok_step s s'
| ok_wipe env : env_ok env -> s' = fst (WipeMessages env s) -> ok_step s s'.

Lemma ok_step_synced s s' :
  ok_step s s' -> synced s ->
  synced s' /\ ms_path s' = ms_path s /\ ms_secret s' = ms_secret s.
Proof.
  intros Hstep [Hp Hon Hn Hd]. destruct Hstep as [env f e Henv Hf Hs Hj|env Henv ->].
  - pose proof (store_call_shape env f s Hf) as Hshape. rewrite Hs in Hshape.
    inversion Hshape as [e' He|m p _ Hnorm He]; subst; [done|]. clear Hshape.
    revert He. unfold commitMaps.
    destruct (persist_holds env m p s Henv Hp Hon) as [[e' ->]|(disk & -> & Hh)].
    + by intros [= <- <-].
    + intros [= <- <-]. cbn in *. split; [|done]. constructor; cbn; auto.
  - destruct Henv as (_ & _ & _ & Hrm). unfold WipeMessages.
    rewrite (bool_decide_false _ Hp), Hrm. cbn. split; [|done]. constructor; cbn; try done.
    by left.
Qed.

(** C11: The file is always good for the memory. Start from a store in step with its file and
    run any mutations and wipes in which the file system and the encoder do not fail. Opening
    the file again then gives exactly the messages in memory and the same pending queue (its
    messages in normal form). *)
Theorem reopen_restores_store (s0 s : MessageStore) (env : StoreEnv) :
  synced s0 -> rtc ok_step s0 s -> env_ok env ->
  NewEncryptedPersistentMessageStore env (ms_path s) (ms_secret s) (ms_disk s)
  = (ms_disk s, Ok (mkMessageStore (ms_messages s) (normalizePending <$> ms_pending s)
                      (ms_path s) (ms_secret s) true (ms_disk s))).
Proof.
  intros H0 Hrtc (_ & Hr & _).
  assert (Hs : synced s).
  { revert H0. induction Hrtc as [|s1 s2 s3 Hstep Hrest IH]; [done|]. intros H0.
    apply IH. by destruct (ok_step_synced _ _ Hstep H0). }
  destruct Hs as [Hp _ Hn Hd].
  rewrite (open_holds env _ _ _ _ _ Hd Hr (TrimSpace_nonempty _ Hp)). do 3 f_equal.
  apply map_eq. intros k. rewrite lookup_fmap. destruct (ms_messages s !! k) as [x|] eqn:E; [|done].
  cbn. by rewrite (Hn k x E).
Qed.
End Durable.

(** ** Saving *)

Lemma messagesEqual_normal a b :
  messagesEqual a (NormalizeMessageConversation b) = messagesEqual a b.
Proof. unfold messagesEqual. by rewrite NormalizeMessageConversation_idemp. Qed.

Lemma messagesEqual_fields a b :
  messagesEqual a b = true -> msg_Content a = msg_Content b /\ msg_Direction a = msg_Direction b.
Proof. unfold messagesEqual. rewrite !andb_true_iff, !bool_decide_eq_true. cbn. tauto. Qed.

Lemma messagesEqual_refl a : messagesEqual (NormalizeMessageConversation a) a = true.
Proof.
  unfold messagesEqual. rewrite NormalizeMessageConversation_idemp, Z.eqb_refl.
  by rewrite !bool_decide_true.
Qed.

Lemma SaveMessage_found env msg s m :
  ms_messages s !! msg_ID msg = Some m ->
  SaveMessage env msg s = (s, if messagesEqual m msg then Ok tt else Err ErrMessageIDConflict).
Proof.
  intros Hm. unfold SaveMessage, bindM, getM, retM, failM. cbn. rewrite Hm, messagesEqual_normal.
  by destruct (messagesEqual m msg).
Qed.

(** Saving is idempotent and never overwrites. After a successful save the identifier holds a
    message equal to the saved one and nothing else has changed; saving an equal message
    under that identifier again succeeds without any effect, and saving a different one fails
    with the conflict error without any effect. *)
Theorem SaveMessage_once (env : StoreEnv) (msg : Message) (s s' : MessageStore) :
  SaveMessage env msg s = (s', Ok tt) ->
  exists m, ms_messages s' !! msg_ID msg = Some m /\ messagesEqual m msg = true
    /\ (forall id, id <> msg_ID msg -> ms_messages s' !! id = ms_messages s !! id)
    /\ ms_pending s' = ms_pending s
    /\ forall env' msg', msg_ID msg' = msg_ID msg ->
         SaveMessage env' msg' s'
         = (s', if messagesEqual m msg' then Ok tt else Err ErrMessageIDConflict).
Proof.
  intros Hs. destruct (ms_messages s !! msg_ID msg) as [m|] eqn:Em.
  - rewrite (SaveMessage_found _ _ _ _ Em) in Hs. destruct (messagesEqual m msg) eqn:Eq; [|done].
    injection Hs as <-. exists m. do 4 (split; [done|]). intros env' msg' Hid.
    apply SaveMessage_found. by rewrite Hid.
  - unfold SaveMessage, bindM, getM, modifyM in Hs. cbn in Hs. rewrite Em in Hs.
    revert Hs. edestruct persist_disk as (d & [u|e] & ->); [|done]. intros [= <-].
    exists (NormalizeMessageConversation msg). cbn [ms_messages ms_pending with_messages with_disk].
    rewrite lookup_insert_eq.
    split; [done|]. split; [apply messagesEqual_refl|].
    split; [intros id Hid; by rewrite lookup_insert_ne|]. split; [done|]. intros env' msg' Hid.
    apply SaveMessage_found. cbn [ms_messages with_messages]. by rewrite Hid, lookup_insert_eq.
Qed.

(** The comparison leaves the thread out: saving a message again under another thread is
    reported as a success, although the stored message keeps its old thread. *)
Theorem thread_change_is_dropped (env : StoreEnv) (s : MessageStore) (m : Message)
    (thread : string) :
  ms_messages s !! msg_ID m = Some m ->
  SaveMessage env
    (mkMessage (msg_ID m) (msg_ContactID m) (msg_ConversationID m) (msg_ConversationType m)
       thread (msg_Content m) (msg_Timestamp m) (msg_Direction m) (msg_Status m)
       (msg_ContentType m) (msg_Edited m)) s = (s, Ok tt).
Proof.
  intros Hm. rewrite (SaveMessage_found _ _ _ m) by done.
  unfold messagesEqual, NormalizeMessageConversation. cbn.
  by rewrite Z.eqb_refl, !bool_decide_true.
Qed.

(** ** Bulk deletion *)

Lemma size_filter_split {A} (P : string * A -> Prop) `{!forall x, Decision (P x)}
    (m : gmap string A) :
  (size (filter P m) + size (filter (fun x => ~ P x) m) = size m)%nat.
Proof.
  rewrite <- map_size_disj_union by apply map_disjoint_filter_complement.
  by rewrite map_filter_union_complement.
Qed.

(** Purging is exact. After a successful purge exactly the messages newer than the cutoff are
    left, the pending entries of the purged messages (and only those) are gone, and the
    number returned is the number of messages purged. *)
Theorem PurgeOlderThan_exact (env : StoreEnv) (cutoff n : Z) (s s' : MessageStore) :
  PurgeOlderThan env cutoff s = (s', Ok n) ->
  (forall id m, ms_messages s' !! id = Some m <->
     ms_messages s !! id = Some m /\ cutoff < msg_Timestamp m)
  /\ (forall id p, ms_pending s' !! id = Some p <->
        ms_pending s !! id = Some p
        /\ forall m, ms_messages s !! id = Some m -> cutoff < msg_Timestamp m)
  /\ n = Z.of_nat (size (ms_messages s)) - Z.of_nat (size (ms_messages s')).
Proof.
  unfold PurgeOlderThan, bindM, getM, retM, install, modifyM, After. cbn.
  set (old := filter (fun kv : string * Message => (cutoff <? msg_Timestamp kv.2) = false) (ms_messages s)).
  set (new := filter (fun kv : string * Message => (cutoff <? msg_Timestamp kv.2) = true) (ms_messages s)).
  assert (Hnew : forall id m, new !! id = Some m <->
            ms_messages s !! id = Some m /\ cutoff < msg_Timestamp m).
  { intros id m. unfold new. rewrite map_lookup_filter_Some. cbn. by rewrite Z.ltb_lt. }
  assert (Hold : forall id, id ∉ dom old <->
            forall m, ms_messages s !! id = Some m -> cutoff < msg_Timestamp m).
  { intros id. rewrite not_elem_of_dom. unfold old. rewrite map_lookup_filter_None. cbn. split.
    - intros [Hn|Hn] m Hm; [congruence|]. specialize (Hn m Hm). lia.
    - intros Hn. right. intros m Hm Hlt. specialize (Hn m Hm). lia. }
  assert (Hsize : (size new + size (dom old) = size (ms_messages s))%nat).
  { rewrite size_dom. rewrite <- (size_filter_split (fun kv => (cutoff <? msg_Timestamp kv.2) = true)
      (ms_messages s)). f_equal. unfold old. f_equal. apply map_filter_ext. intros i x _. cbn.
    by destruct (cutoff <? msg_Timestamp x). }
  destruct (Z.of_nat (size (dom old)) =? 0) eqn:E0.
  - intros [= <- <-]. assert (Hempty : forall id, id ∉ dom old).
    { intros id. assert (dom old = ∅) as -> by (apply leibniz_equiv, size_empty_inv; lia). apply not_elem_of_empty. }
    split; [|split; [|lia]].
    + intros id m. split; [|tauto]. intros Hm. split; [done|]. by apply (proj1 (Hold id) (Hempty id)).
    + intros id p. split; [|tauto]. intros Hp. split; [done|]. by apply Hold.
  - edestruct persist_disk as (d & [u|e] & ->); [|done]. intros [= <- <-]. cbn.
    split; [done|]. split; [|lia]. intros id p. rewrite map_lookup_filter_Some. cbn. by rewrite Hold.
Qed.

(** Clearing a conversation. When the contact has stored messages, afterwards no message and
    no pending entry of the contact is left, every message of others is kept, and the number
    returned is the number of messages deleted; when it has none, nothing changes at all,
    pending entries of the contact included. *)
Theorem ClearMessages_exact (env : StoreEnv) (contactID : string) (n : Z) (s s' : MessageStore) :
  ClearMessages env contactID s = (s', Ok n) ->
  (forall id m, ms_messages s' !! id = Some m <->
     ms_messages s !! id = Some m /\ msg_ContactID m <> contactID)
  /\ n = Z.of_nat (size (ms_messages s)) - Z.of_nat (size (ms_messages s'))
  /\ (n <> 0 -> forall id p, ms_pending s' !! id = Some p ->
        msg_ContactID (pm_Message p) <> contactID
        /\ forall m, ms_messages s !! id = Some m -> msg_ContactID m <> contactID)
  /\ (n = 0 -> s' = s).
Proof.
  unfold ClearMessages, bindM, getM, retM, install, modifyM. cbn.
  set (old := filter (fun kv : string * Message => msg_ContactID kv.2 = contactID) (ms_messages s)).
  set (new := filter (fun kv : string * Message => msg_ContactID kv.2 <> contactID) (ms_messages s)).
  assert (Hnew : forall id m, new !! id = Some m <->
            ms_messages s !! id = Some m /\ msg_ContactID m <> contactID)
    by (intros id m; apply map_lookup_filter_Some).
  assert (Hold : forall id, id ∉ dom old <->
            forall m, ms_messages s !! id = Some m -> msg_ContactID m <> contactID).
  { intros id. rewrite not_elem_of_dom. unfold old. rewrite map_lookup_filter_None. cbn. split.
    - intros [Hn|Hn] m Hm; [congruence|]. by apply Hn.
    - intros Hn. by right. }
  assert (Hsize : (size (dom old) + size new = size (ms_messages s))%nat)
    by (rewrite size_dom; apply size_filter_split).
  destruct (Z.of_nat (size (dom old)) =? 0) eqn:E0.
  - intros [= <- <-]. assert (Hempty : forall id, id ∉ dom old).
    { intros id. assert (dom old = ∅) as -> by (apply leibniz_equiv, size_empty_inv; lia). apply not_elem_of_empty. }
    split; [|repeat split; try done; lia].
    intros id m. split; [|tauto]. intros Hm. split; [done|]. by apply (proj1 (Hold id) (Hempty id)).
  - edestruct persist_disk as (d & [u|e] & ->); [|done]. intros [= <- <-]. cbn.
    split; [done|]. split; [lia|]. split; [|lia]. intros _ id p. rewrite map_lookup_filter_Some. cbn.
    rewrite Hold. tauto.
Qed.
End MessageStore.

(** ** Listing in pages *)

Definition included (s : MessageStore) (include : Message -> option Message) : list Message :=
  omap include (map_to_list (ms_messages s)).*2.

Definition older (a b : Message) : bool := Before (msg_Timestamp a) (msg_Timestamp b).

Lemma older_order : weak_order older.
Proof. split; unfold older, Before; intros; lia. Qed.

Lemma omap_Permutation {A B} (f : A -> option B) (l1 l2 : list A) :
  l1 ≡ₚ l2 -> omap f l1 ≡ₚ omap f l2.
Proof.
  induction 1 as [|x l l' _ IH|x y l|l l' l'' _ IH1 _ IH2]; cbn.
  - done.
  - destruct (f x); by rewrite ?IH.
  - destruct (f x), (f y); try done. apply Permutation_swap.
  - by rewrite IH1.
Qed.

(** What the runtime sorts before it cuts a page. *)
Lemma listed_sorted (rt : GoRuntime) s include :
  let l := sortSlice older (omap include (rangeMap (ms_messages s)).*2) in
  l ≡ₚ included s include /\ StronglySorted (fun a b => older b a = false) l.
Proof.
  cbn zeta. split; [|apply sortSlice_sorted, older_order].
  rewrite sortSlice_perm. unfold included. apply omap_Permutation.
  by rewrite rangeMap_perm.
Qed.

Lemma sorted_times l :
  StronglySorted (fun a b => older b a = false) l ->
  StronglySorted (fun a b => msg_Timestamp a <= msg_Timestamp b) l.
Proof.
  induction 1 as [|x l _ IH Hx]; [constructor|]. constructor; [done|].
  apply (Forall_impl _ _ _ Hx). intros y. unfold older, Before. lia.
Qed.

Lemma paginate_page (l : list Message) (limit i : nat) :
  (0 < limit)%nat ->
  paginateMessages l (Z.of_nat limit) (Z.of_nat (i * limit)) = take limit (drop (i * limit) l).
Proof.
  intros Hl. generalize (i * limit)%nat. clear i. intros o. unfold paginateMessages.
  destruct (Z.ltb_spec (Z.of_nat o) 0); [lia|].
  rewrite !Nat2Z.id. destruct (Z.leb_spec (Z.of_nat (length l)) (Z.of_nat o)).
  - rewrite drop_ge by lia. by rewrite take_nil.
  - destruct (Z.ltb_spec 0 (Z.of_nat limit)); [cbn|lia].
    destruct (Z.ltb_spec (Z.of_nat limit) (Z.of_nat (length (drop o l)))); [done|].
    by rewrite take_ge by lia.
Qed.

Lemma pages_concat (l : list Message) (limit n : nat) :
  concat ((fun i => take limit (drop (i * limit) l)) <$> seq 0 n) = take (n * limit) l.
Proof.
  induction n as [|n IH]; [done|]. rewrite seq_S, fmap_app, concat_app, IH. cbn.
  rewrite app_nil_r, take_take_drop. f_equal. lia.
Qed.

(** Pages tile the conversation. When no two matching messages have the same timestamp, reading
    a list page by page, each page in a call of its own (with whatever map order and sort that
    call happens to use), gives the matching messages in order of time, each exactly once
    and in the same global order: the first [n] pages are the first [n * limit] of one fixed
    sorted list. *)
Theorem pages_tile (rts : nat -> GoRuntime) (s : MessageStore)
    (include : Message -> option Message) (limit n : nat) :
  (0 < limit)%nat ->
  (forall a b, a ∈ included s include -> b ∈ included s include ->
     msg_Timestamp a = msg_Timestamp b -> a = b) ->
  exists l, l ≡ₚ included s include
    /\ StronglySorted (fun a b => msg_Timestamp a <= msg_Timestamp b) l
    /\ concat ((fun i => @listMessagesFiltered (rts i) s (Z.of_nat limit)
                           (Z.of_nat (i * limit)) include) <$> seq 0 n)
       = take (n * limit) l.
Proof.
  intros Hlim Hts.
  set (sorted rt := @sortSlice rt Message older
                      (omap include (@rangeMap rt _ (ms_messages s)).*2)).
  assert (Hsame : forall rt, sorted rt = sorted (rts 0%nat)).
  { intros rt. destruct (listed_sorted rt s include) as [Hp1 Hs1].
    destruct (listed_sorted (rts 0%nat) s include) as [Hp2 Hs2].
    apply (sorted_unique older); try done.
    - unfold sorted. by rewrite Hp1, Hp2.
    - intros a b Ha Hb H1 H2. unfold sorted in Ha, Hb. rewrite Hp1 in Ha, Hb.
      apply Hts; [done|done|]. unfold older, Before in *. lia. }
  destruct (listed_sorted (rts 0%nat) s include) as [Hp Hs].
  exists (sorted (rts 0%nat)). split; [exact Hp|]. split.
  - by apply sorted_times.
  - rewrite <- (pages_concat _ limit n). f_equal. apply list_fmap_ext. intros j i _.
    rewrite <- paginate_page by done. unfold listMessagesFiltered. f_equal. apply Hsame.
Qed.

(** ** Stores to compute with, and the witnesses *)

Definition ex_msg (id : string) (ts : Z) (status : string) : Message :=
  mkMessage id "bob" "bob" "direct" "" [104; 105] ts "out" status "text" false.

#[export] Instance PendingMessage_eq_dec : EqDecision PendingMessage.
Proof. solve_decision. Defined.
#[export] Instance messageSnapshot_eq_dec : EqDecision messageSnapshot.
Proof. solve_decision. Defined.
#[export] Instance Message_countable : Countable Message.
Proof.
  apply (inj_countable' (fun m => (msg_ID m, msg_ContactID m, msg_ConversationID m,
      msg_ConversationType m, msg_ThreadID m, msg_Content m, msg_Timestamp m, msg_Direction m,
      msg_Status m, msg_ContentType m, msg_Edited m))
    (fun '(v1, v2, v3, v4, v5, v6, v7, v8, v9, v10, v11) => mkMessage v1 v2 v3 v4 v5 v6 v7 v8 v9 v10 v11)). by intros [].
Defined.
#[export] Instance PendingMessage_countable : Countable PendingMessage.
Proof.
  apply (inj_countable' (fun p => (pm_Message p, pm_RetryCount p, pm_NextRetry p, pm_LastError p))
    (fun '(a, b, c, d) => mkPending a b c d)). by intros [].
Defined.
#[export] Instance messageSnapshot_countable : Countable messageSnapshot.
Proof.
  apply (inj_countable' (fun p => (sn_SchemaVersion p, sn_Messages p, sn_Pending p))
    (fun '(a, b, c) => mkMessageSnapshot a b c)). by intros [].
Defined.

#[export] Instance exMessageCodec : MessageCodec := {
  marshalMessages p := Ok [Zpos (encode p)];
  unmarshalMessages l := match l with
                         | [Zpos p] => match decode p with
                                       | Some s => Ok s
                                       | None => Err (errorsNew "json")
                                       end
                         | _ => Err (errorsNew "json")
                         end
}.

Lemma ex_messages_faithful m p : json_faithful_messages m p.
Proof. eexists. repeat split; [discriminate|]. cbn. by rewrite decode_encode. Qed.

Definition ex_store : MessageStore :=
  mkMessageStore (<["m1" := ex_msg "m1" 5 "sent"]> (<["m2" := ex_msg "m2" 5 "sent"]> ∅)) ∅
    "" "" true None.

(** A runtime that visits maps in the opposite order. *)
#[export] Program Instance revRuntime : GoRuntime | 10 := {
  rangeMap A m := reverse (map_to_list m);
  sortSlice A less l := @sortSlice exRuntime A less l
}.
Next Obligation. intros. cbn. apply reverse_Permutation. Qed.
Next Obligation. intros. apply sortSlice_perm. Qed.
Next Obligation. intros. by apply (@sortSlice_sorted exRuntime). Qed.

(** With equal timestamps pages need not tile: the order of equal messages is left to the
    map iteration of each call, so two calls for consecutive pages can return the same message
    twice and the other one never. *)
Theorem ties_break_pages :
  exists (rt1 rt2 : GoRuntime) (s : MessageStore) (include : Message -> option Message) m,
    length (included s include) = 2%nat
    /\ @listMessagesFiltered rt1 s 1 0 include = [m]
    /\ @listMessagesFiltered rt2 s 1 1 include = [m].
Proof.
  exists exRuntime, revRuntime, ex_store, Some.
  eexists. repeat split; vm_compute; reflexivity.
Qed.

Lemma failed_mutation_keeps_memory_witness :
  ms_messages (fst (SaveMessage ex_env (ex_msg "m1" 6 "sent") ex_store)) = ms_messages ex_store.
Proof.
  rewrite (failed_mutation_keeps_memory ex_env (exec (SaveMessage ex_env (ex_msg "m1" 6 "sent")))
    ex_store (fst (SaveMessage ex_env (ex_msg "m1" 6 "sent") ex_store)) ErrMessageIDConflict).
  - reflexivity.
  - apply sc_save.
  - vm_compute. reflexivity.
Defined.

Lemma status_never_regresses_witness : status_follows "sent" "read".
Proof.
  apply (status_never_regresses ex_env (exec (UpdateMessageStatus ex_env "m1" "read")) ex_store "m1"
           (ex_msg "m1" 5 "sent") (ex_msg "m1" 5 "read")).
  - apply sc_status.
  - reflexivity.
  - vm_compute. reflexivity.
Defined.

Definition ex_empty : MessageStore := mkMessageStore ∅ ∅ "/store" "pw" true None.

Lemma ex_empty_synced : synced ex_empty.
Proof. constructor; cbn; [done|done|apply map_Forall_empty|]. left. done. Qed.

Lemma reopen_restores_store_witness :
  exists s', NewEncryptedPersistentMessageStore ex_env "/store" "pw"
    (ms_disk (fst (SaveMessage ex_env (ex_msg "m1" 5 "sent") ex_empty))) = s'
  /\ (exists st, snd s' = Ok st /\ ms_messages st !! "m1" = Some (ex_msg "m1" 5 "sent")).
Proof.
  set (s1 := fst (SaveMessage ex_env (ex_msg "m1" 5 "sent") ex_empty)).
  eexists. split.
  - apply (reopen_restores_store ex_empty s1 ex_env).
    + apply ex_empty_synced.
    + apply rtc_once. apply (ok_call _ _ ex_env (exec (SaveMessage ex_env (ex_msg "m1" 5 "sent"))) None).
      * apply ex_env_ok.
      * apply sc_save.
      * reflexivity.
      * apply ex_messages_faithful.
    + apply ex_env_ok.
  - eexists. split; [reflexivity|]. vm_compute. reflexivity.
Defined.

Lemma SaveMessage_once_witness :
  SaveMessage ex_env (ex_msg "m3" 9 "sent")
    (fst (SaveMessage ex_env (ex_msg "m3" 7 "sent") ex_store))
  = (fst (SaveMessage ex_env (ex_msg "m3" 7 "sent") ex_store), Err ErrMessageIDConflict).
Proof.
  destruct (SaveMessage_once ex_env (ex_msg "m3" 7 "sent") ex_store
    (fst (SaveMessage ex_env (ex_msg "m3" 7 "sent") ex_store))) as (m & Hm & _ & _ & _ & Hagain).
  - vm_compute. reflexivity.
  - rewrite Hagain by reflexivity. vm_compute in Hm. injection Hm as <-. reflexivity.
Defined.

Lemma thread_change_is_dropped_witness :
  SaveMessage ex_env (mkMessage "m1" "bob" "bob" "direct" "topic" [104; 105] 5 "out" "sent" "text"
                        false) ex_store = (ex_store, Ok tt).
Proof.
  apply (thread_change_is_dropped ex_env ex_store (ex_msg "m1" 5 "sent") "topic"). reflexivity.
Defined.

Lemma PurgeOlderThan_exact_witness :
  ms_messages (fst (PurgeOlderThan ex_env 5 ex_store)) !! "m1" = None.
Proof.
  destruct (PurgeOlderThan_exact ex_env 5 2 ex_store (fst (PurgeOlderThan ex_env 5 ex_store)))
    as (Hm & _ & _).
  - vm_compute. reflexivity.
  - destruct (ms_messages _ !! "m1") as [x|] eqn:E; [|reflexivity].
    apply Hm in E as [E Hlt]. vm_compute in E. injection E as <-. cbn in Hlt. lia.
Defined.

Lemma ClearMessages_exact_witness :
  forall id m, ms_messages (fst (ClearMessages ex_env "bob" ex_store)) !! id = Some m ->
    msg_ContactID m <> "bob".
Proof.
  destruct (ClearMessages_exact ex_env "bob" 2 ex_store (fst (ClearMessages ex_env "bob" ex_store)))
    as (Hm & _).
  - vm_compute. reflexivity.
  - intros id m Hid. apply Hm in Hid as [_ Hne]. exact Hne.
Defined.

Definition ex_store2 : MessageStore :=
  mkMessageStore (<["m1" := ex_msg "m1" 5 "sent"]> (<["m2" := ex_msg "m2" 6 "sent"]> ∅)) ∅
    "" "" true None.

Lemma pages_tile_witness :
  exists l, l ≡ₚ included ex_store2 Some
    /\ concat ((fun i => @listMessagesFiltered exRuntime ex_store2 1 (Z.of_nat (i * 1)) Some)
                 <$> seq 0 2) = take 2 l.
Proof.
  destruct (pages_tile (fun _ => exRuntime) ex_store2 Some 1 2) as (l & Hp & _ & Hc).
  - lia.
  - intros a b Ha Hb. vm_compute in Ha, Hb.
    repeat (apply elem_of_cons in Ha as [->|Ha]); [| |by apply not_elem_of_nil in Ha];
      repeat (apply elem_of_cons in Hb as [->|Hb]); try by apply not_elem_of_nil in Hb; done.
    all: done.
  - exists l. split; [exact Hp|exact Hc].
Defined.
