(* ===== verification/Inbox.v ===== *)
(** * Message requests

    Models internal/domains/inbox (model/request.go, state_store.go, runtime_state.go,
    usecase/service.go, usecase/state_helpers.go) as daemonservice/inbox_runtime_state.go wires
    it: requests of unknown senders are threads in a map of their own, kept in an encrypted
    file; accepting one adds the sender to the identity's contacts and moves its messages to the
    message store, blocking one goes through the privacy service. Each access to the map
    is one step under its lock. The notifications and recorded errors are logs. *)
From S2P Require Import Prelude Privacy SecureStore PrivacyService Identity IdentityStore MessageStore.
From stdpp Require Import base gmap strings list sets option relations.
From Stdlib Require Import ZArith Lia Sorted.
Open Scope string_scope.
Open Scope Z_scope.
Open Scope go_scope.

(** ** model/request.go *)

Record MessageRequest := mkRequest {
  mr_SenderID : string; mr_FirstMessageAt : Z; mr_LastMessageAt : Z; mr_MessageCount : Z;
  mr_LastMessageID : string; mr_LastContentType : string; mr_LastPreview : string
}.
Record MessageRequestThread := mkThread { mt_Request : MessageRequest; mt_Messages : list Message }.

(** [trimmed[:96]] is on bytes. *)
Definition MessagePreview (content : list Z) : string :=
  let trimmed := TrimSpace (bytes_string content) in
  if (String.length trimmed <=? 96)%nat then trimmed else String.substring 0 96 trimmed.

Definition firstAndLast (messages : list Message) (first last : Message) : Message * Message :=
  fold_left (fun '(first, last) msg =>
    (if Before (msg_Timestamp msg) (msg_Timestamp first) then msg else first,
     if After (msg_Timestamp msg) (msg_Timestamp last) then msg else last)) messages (first, last).

Definition BuildMessageRequestSummary (senderID : string) (messages : list Message)
    : result error MessageRequest :=
  match messages with
  | [] => Err ErrMessageRequestNotFound
  | m :: rest =>
      let '(first, last) := firstAndLast rest m m in
      Ok (mkRequest senderID (msg_Timestamp first) (msg_Timestamp last)
            (Z.of_nat (length messages)) (msg_ID last) (msg_ContentType last)
            (MessagePreview (msg_Content last)))
  end.

Definition requestLess (a b : MessageRequest) : bool :=
  if mr_LastMessageAt a =? mr_LastMessageAt b then String.ltb (mr_SenderID a) (mr_SenderID b) else
  After (mr_LastMessageAt a) (mr_LastMessageAt b).

Definition SortMessageRequestsByRecency `{GoRuntime} (requests : list MessageRequest)
    : list MessageRequest := sortSlice requestLess requests.

Definition HasMessageID (messages : list Message) (messageID : string) : bool :=
  existsb (fun msg => msg_ID msg == messageID) messages.

Definition NormalizeMessageTimestamp (now ts : Z) : Z := if IsZero ts then now else ts.

(** messaging/policy/message_rules.go *)
Definition ValidateListMessagesContactID (contactID : string) : result error string :=
  let contactID := TrimSpace contactID in
  if contactID == "" then Err (errorsNew "contact id is required") else Ok contactID.

(** ** state_store.go *)

Abbreviation Threads := (gmap string (list Message)).

(** [prq_Inbox] is a map, [None] for nil. *)
Record persistedMessageRequestState := mkPersistedRequests {
  prq_Version : Z; prq_Inbox : option Threads
}.

(** The events of the notifier; those of the message service are here as well. *)
Inductive InboxNote :=
| NoteRequestNew (contactID : string) (msg : Message)
| NoteMessageNew (contactID : string) (msg : Message)
| NoteAccepted (contactID : string) (moved : Z)
| NoteRequestRemoved (method contactID : string)
| NoteSenderBlocked (contactID : string) (requestRemoved contactExists : bool)
| NoteMessageStatus (messageID contactID status : string)
| NoteMessageEdited (contactID messageID status : string)
| NoteMessageDeleted (contactID messageID : string)
| NoteMessagesCleared (contactID : string) (count : Z)
| NoteSecurityAlert (kind contactID : string) (err : error)
| NoteGroupMessage (groupID : string) (msg : Message).

Record InboxWorld := mkInboxWorld {
  ib_inbox : Threads;
  ib_store : EncStore;
  ib_identity : IdentityWorld;
  ib_privacy : PrivacyWorld;
  ib_messages : MessageStore;
  ib_notes : list InboxNote;
  ib_errors : list (string * error)
}.

Definition with_ib_inbox (w : InboxWorld) (i : Threads) : InboxWorld :=
  mkInboxWorld i (ib_store w) (ib_identity w) (ib_privacy w) (ib_messages w) (ib_notes w) (ib_errors w).
Definition with_ib_store (w : InboxWorld) (s : EncStore) : InboxWorld :=
  mkInboxWorld (ib_inbox w) s (ib_identity w) (ib_privacy w) (ib_messages w) (ib_notes w) (ib_errors w).
Definition with_ib_identity (w : InboxWorld) (i : IdentityWorld) : InboxWorld :=
  mkInboxWorld (ib_inbox w) (ib_store w) i (ib_privacy w) (ib_messages w) (ib_notes w) (ib_errors w).
Definition with_ib_privacy (w : InboxWorld) (p : PrivacyWorld) : InboxWorld :=
  mkInboxWorld (ib_inbox w) (ib_store w) (ib_identity w) p (ib_messages w) (ib_notes w) (ib_errors w).
Definition with_ib_messages (w : InboxWorld) (m : MessageStore) : InboxWorld :=
  mkInboxWorld (ib_inbox w) (ib_store w) (ib_identity w) (ib_privacy w) m (ib_notes w) (ib_errors w).
Definition with_ib_note (w : InboxWorld) (n : InboxNote) : InboxWorld :=
  mkInboxWorld (ib_inbox w) (ib_store w) (ib_identity w) (ib_privacy w) (ib_messages w)
    (ib_notes w ++ [n])%list (ib_errors w).
Definition with_ib_error (w : InboxWorld) (category : string) (e : error) : InboxWorld :=
  mkInboxWorld (ib_inbox w) (ib_store w) (ib_identity w) (ib_privacy w) (ib_messages w)
    (ib_notes w) (ib_errors w ++ [(category, e)])%list.

Section Inbox.
Context {crypto : IdentityCrypto} {cipher : Cipher} {ecodec : EnvelopeCodec} {mcodec : MessageCodec}.
Context {icodec : JsonCodec persistedIdentityState} {rcodec : JsonCodec persistedRuntimeState}
        {scodec : JsonCodec Envelope} {bcodec : JsonCodec persistedBlocklistState}
        {qcodec : JsonCodec persistedMessageRequestState}.

Abbreviation op := (M InboxWorld error).

(** Copies of the map are values. *)
Definition RequestPersist (env : StoreEnv) (inbox : Threads) : M EncStore error unit := fun s =>
  if negb (es_configured s) then (s, Ok tt) else
  writeStore env (mkPersistedRequests 1 (Some inbox)) s.

Definition RequestBootstrap (env : StoreEnv) : M EncStore error Threads := fun s =>
  if negb (es_configured s) then (s, Ok ∅) else
  match ReadDecryptedFile (es_disk s) (env_read env) (es_secret s) with
  | Err err =>
      if err == fsErrNotExist then (RequestPersist env ∅ ;;! retM ∅) s else (s, Err err)
  | Ok plaintext =>
      (s, try! state := unmarshalJSON plaintext in
          if negb (prq_Version state =? 1)
          then Err (errorsNew "message request persistence payload is invalid") else
          Ok (default ∅ (prq_Inbox state)))
  end.

Definition RequestWipe (env : StoreEnv) : M EncStore error unit := fun s =>
  wipeStore env (es_path s == "") s.

(** runtime_state.go: SetInbox *)
Definition SetInbox (inbox : option Threads) (w : InboxWorld) : InboxWorld :=
  with_ib_inbox w (default ∅ inbox).

(** ** inbox_runtime_state.go *)

(** Persist the next map, and install it when that worked. *)
Definition commitInbox (env : StoreEnv) (next : Threads) : op unit := fun w =>
  let '(s, r) := RequestPersist env next (ib_store w) in
  match r with
  | Err err => (with_ib_store w s, Err err)
  | Ok _ => (with_ib_inbox (with_ib_store w s) next, Ok tt)
  end.

Definition takeMessageRequestThread (env : StoreEnv) (senderID : string)
    : op (list Message * bool) := fun w =>
  match ib_inbox w !! senderID with
  | None | Some [] => (w, Ok ([], false))
  | Some current =>
      (commitInbox env (delete senderID (ib_inbox w)) ;;! retM (current, true)) w
  end.

Definition restoreMessageRequestThreadIfEmpty (env : StoreEnv) (senderID : string)
    (thread : list Message) : op unit := fun w =>
  match ib_inbox w !! senderID with
  | Some (_ :: _) => (w, Ok tt)
  | _ => commitInbox env (<[senderID := thread]> (ib_inbox w)) w
  end.

Definition removeMessageRequest (env : StoreEnv) (senderID : string) : op bool := fun w =>
  match ib_inbox w !! senderID with
  | None => (w, Ok false)
  | Some _ => (commitInbox env (delete senderID (ib_inbox w)) ;;! retM true) w
  end.

(** daemonservice/runtime_inbound.go: persistInboundRequest *)
Definition persistInboundRequest (env : StoreEnv) (now : Z) (msg : Message) (w : InboxWorld)
    : InboxWorld * bool :=
  let contactID := msg_ContactID msg in
  let thread := default [] (ib_inbox w !! contactID) in
  if HasMessageID thread (msg_ID msg) then (w, false) else
  let msg := mkMessage (msg_ID msg) (msg_ContactID msg) (msg_ConversationID msg)
    (msg_ConversationType msg) (msg_ThreadID msg) (msg_Content msg)
    (NormalizeMessageTimestamp now (msg_Timestamp msg)) (msg_Direction msg) (msg_Status msg)
    (msg_ContentType msg) (msg_Edited msg) in
  match commitInbox env (<[contactID := (thread ++ [msg])%list]> (ib_inbox w)) w with
  | (w1, Err err) => (with_ib_error w1 "storage" err, false)
  | (w1, Ok _) => (with_ib_note w1 (NoteRequestNew contactID msg), true)
  end.

(** ** usecase/service.go *)

Definition recordStorage {A} (m : op A) : op A := fun w =>
  match m w with
  | (w1, Err err) => (with_ib_error w1 "storage" err, Err err)
  | r => r
  end.

Definition onIdentity {A} (m : M IdentityWorld error A) : op A := fun w =>
  let '(i, r) := m (ib_identity w) in (with_ib_identity w i, r).
Definition onPrivacy {A} (m : M PrivacyWorld error A) : op A := fun w =>
  let '(p, r) := m (ib_privacy w) in (with_ib_privacy w p, r).
Definition onMessages {A} (m : M MessageStore error A) : op A := fun w =>
  let '(s, r) := m (ib_messages w) in (with_ib_messages w s, r).

Definition ListMessageRequests `{GoRuntime} (w : InboxWorld) : list MessageRequest :=
  SortMessageRequestsByRecency
    (omap (fun '(senderID, messages) =>
       match BuildMessageRequestSummary senderID messages with Ok s => Some s | Err _ => None end)
       (rangeMap (ib_inbox w))).

Definition GetMessageRequest (w : InboxWorld) (senderID : string) : result error MessageRequestThread :=
  try! senderID := ValidateListMessagesContactID senderID in
  match ib_inbox w !! senderID with
  | None | Some [] => Err ErrMessageRequestNotFound
  | Some thread =>
      try! summary := BuildMessageRequestSummary senderID thread in
      Ok (mkThread summary thread)
  end.

(** The loop over the thread, one environment per message. *)
Fixpoint saveThread (senderID : string) (envs : list StoreEnv) (env0 : StoreEnv)
    (thread : list Message) : op unit :=
  match thread with
  | [] => retM tt
  | msg :: rest => fun w =>
      match onMessages (SaveMessage (hd env0 envs) msg) w with
      | (w1, Err err) =>
          if err == ErrMessageIDConflict then saveThread senderID (tl envs) env0 rest w1 else
          (with_ib_error w1 "storage" err, Err err)
      | (w1, Ok _) => saveThread senderID (tl envs) env0 rest (with_ib_note w1 (NoteMessageNew senderID msg))
      end
  end.

(** What the call meets: the file of the inbox twice, the identity file, the message store. *)
Record AcceptEnv := mkAcceptEnv {
  ae_take : StoreEnv; ae_identity : StoreEnv; ae_now : Z; ae_restore : StoreEnv;
  ae_saves : list StoreEnv; ae_save0 : StoreEnv
}.

Definition AcceptMessageRequest (env : AcceptEnv) (senderID : string) : op bool :=
  let! senderID := liftM (ValidateListMessagesContactID senderID) in
  let! taken := recordStorage (takeMessageRequestThread (ae_take env) senderID) in
  let '(thread, exists_) := taken in
  if negb exists_ || (length thread =? 0)%nat then
    fun w => if HasContact (iw_manager (ib_identity w)) senderID then (w, Ok true)
             else (w, Err ErrMessageRequestNotFound)
  else
  (fun w =>
     match onIdentity (ServiceAddContact (ae_identity env) (ae_now env) senderID senderID) w with
     | (w1, Err err) =>
         match restoreMessageRequestThreadIfEmpty (ae_restore env) senderID thread w1 with
         | (w2, Err perr) => (with_ib_error w2 "storage" perr, Err (errorsJoin err perr))
         | (w2, Ok _) => (w2, Err err)
         end
     | r => r
     end) ;;!
  saveThread senderID (ae_saves env) (ae_save0 env) thread ;;!
  modifyM (fun w => with_ib_note w (NoteAccepted senderID (Z.of_nat (length thread)))) ;;!
  retM true.

Definition removeRequestThreadAndNotify (env : StoreEnv) (senderID method : string) : op bool :=
  let! removed := recordStorage (removeMessageRequest env senderID) in
  (if (removed : bool) then modifyM (fun w => with_ib_note w (NoteRequestRemoved method senderID))
   else retM tt) ;;!
  retM removed.

Definition DeclineMessageRequest (env : StoreEnv) (senderID : string) : op bool :=
  let! senderID := liftM (ValidateListMessagesContactID senderID) in
  removeRequestThreadAndNotify env senderID "notify.request.declined" ;;!
  retM true.

Record BlockSenderResult := mkBlockResult {
  bs_Blocked : list string; bs_RequestRemoved : bool; bs_ContactExists : bool
}.

Definition BlockSender (envBlocks envInbox : StoreEnv) (senderID : string) : op BlockSenderResult :=
  let! senderID := liftM (NormalizeIdentityID senderID) in
  let! w := getM in
  let contactExists := HasContact (iw_manager (ib_identity w)) senderID in
  let! blocked := onPrivacy (AddToBlocklist envBlocks senderID) in
  let! requestRemoved := removeRequestThreadAndNotify envInbox senderID "notify.request.blocked" in
  modifyM (fun w => with_ib_note w (NoteSenderBlocked senderID requestRemoved contactExists)) ;;!
  retM (mkBlockResult blocked requestRemoved contactExists).

(** ** The threads are well-formed and in step with their file *)

Definition thread_ok (senderID : string) (t : list Message) : Prop :=
  t <> [] /\ NoDup (msg_ID <$> t) /\ Forall (fun m => msg_ContactID m = senderID) t.

Record inbox_ok (w : InboxWorld) : Prop := {
  io_threads : map_Forall thread_ok (ib_inbox w);
  io_configured : es_configured (ib_store w) = true;
  io_file : store_holds (ib_store w) (mkPersistedRequests 1 (Some (ib_inbox w)))
}.

(** Nothing of it depends on the other components. *)
Lemma inbox_ok_frame w w' :
  ib_inbox w' = ib_inbox w -> ib_store w' = ib_store w -> inbox_ok w -> inbox_ok w'.
Proof. intros Hi Hs [H1 H2 H3]. constructor; by rewrite ?Hi, ?Hs. Qed.

Lemma HasMessageID_spec t id : HasMessageID t id = true <-> id ∈ msg_ID <$> t.
Proof.
  unfold HasMessageID. rewrite existsb_exists, list_elem_of_fmap. split.
  - intros (m & Hin & Hid%bool_decide_eq_true). exists m. split; [done|]. by apply list_elem_of_In.
  - intros (m & -> & Hin). exists m. split; [by apply list_elem_of_In|]. by rewrite bool_decide_true.
Qed.

Section Ok.
Context {claws : CipherLaws cipher} {elaws : EnvelopeCodecLaws ecodec}.

Lemma commitInbox_ok env next w :
  env_ok env -> inbox_ok w -> map_Forall thread_ok next ->
  (exists e, commitInbox env next w = (w, Err e))
  \/ exists w', commitInbox env next w = (w', Ok tt) /\ inbox_ok w' /\ ib_inbox w' = next
       /\ ib_messages w' = ib_messages w /\ ib_identity w' = ib_identity w /\ ib_privacy w' = ib_privacy w.
Proof.
  intros He [Ht Hc Hf] Hn. unfold commitInbox, RequestPersist. rewrite Hc. cbn [negb].
  destruct (writeStore_holds env (mkPersistedRequests 1 (Some next)) (ib_store w) He)
    as [(e & _ & ->)|(d & -> & Hh)]; [left; exists e; by destruct w|].
  right. eexists. split; [reflexivity|]. done.
Qed.

(** A commit of the wrong shape cannot happen: what a computation leaves satisfies [inbox_ok]. *)
Lemma take_ok env senderID w w' r :
  env_ok env -> inbox_ok w -> takeMessageRequestThread env senderID w = (w', r) ->
  inbox_ok w' /\ (forall t, r = Ok (t, true) -> thread_ok senderID t /\ ib_inbox w !! senderID = Some t
    /\ ib_inbox w' = delete senderID (ib_inbox w) /\ ib_messages w' = ib_messages w
    /\ ib_identity w' = ib_identity w).
Proof.
  intros He Hw. unfold takeMessageRequestThread.
  destruct (ib_inbox w !! senderID) as [[|m t]|] eqn:E; [by intros [= <- <-]| |by intros [= <- <-]].
  unfold bindM, retM.
  destruct (commitInbox_ok env (delete senderID (ib_inbox w)) w He Hw) as
    [(e & ->)|(w1 & -> & Hw1 & Hi & Hm & Hid & _)];
    [apply map_Forall_delete, Hw|by intros [= <- <-]|]. intros [= <- <-]. split; [done|].
  intros t' [= <-]. split; [|done]. by apply (io_threads _ Hw).
Qed.

Lemma remove_ok env senderID w :
  env_ok env -> inbox_ok w -> inbox_ok (fst (removeMessageRequest env senderID w)).
Proof.
  intros He Hw. unfold removeMessageRequest. destruct (ib_inbox w !! senderID); [|done].
  unfold bindM, retM. destruct (commitInbox_ok env (delete senderID (ib_inbox w)) w He Hw) as
    [(e & ->)|(w1 & -> & Hw1 & _)]; [apply map_Forall_delete, Hw|done|done].
Qed.

Lemma removeNotify_ok env senderID method w :
  env_ok env -> inbox_ok w -> inbox_ok (fst (removeRequestThreadAndNotify env senderID method w)).
Proof.
  intros He Hw. unfold removeRequestThreadAndNotify, recordStorage. unfold bindM at 1.
  pose proof (remove_ok env senderID w He Hw) as H. destruct (removeMessageRequest _ _ _) as [w1 [[]|]];
    cbn in *; try done; by apply (inbox_ok_frame w1).
Qed.

Lemma saveThread_frame senderID envs env0 t w w' r :
  saveThread senderID envs env0 t w = (w', r) ->
  ib_inbox w' = ib_inbox w /\ ib_store w' = ib_store w /\ ib_identity w' = ib_identity w.
Proof.
  revert envs w. induction t as [|m t IH]; intros envs w; cbn [saveThread]; [by intros [= <- _]|].
  unfold onMessages. destruct (SaveMessage _ _ _) as [s [[]|e]].
  - intros E. by apply IH in E.
  - case_bool_decide; [intros E; by apply IH in E|by intros [= <- _]].
Qed.

Lemma persistRequest_ok env now msg w :
  env_ok env -> inbox_ok w -> inbox_ok (fst (persistInboundRequest env now msg w)).
Proof.
  intros He Hw. unfold persistInboundRequest.
  destruct (HasMessageID _ _) eqn:Hid; [done|]. set (msg' := mkMessage _ _ _ _ _ _ _ _ _ _ _).
  set (t := default [] (ib_inbox w !! msg_ContactID msg)) in *.
  assert (Ht : NoDup (msg_ID <$> t) /\ Forall (fun m => msg_ContactID m = msg_ContactID msg) t).
  { subst t. destruct (ib_inbox w !! msg_ContactID msg) as [t'|] eqn:E; [|by repeat constructor].
    by destruct (io_threads _ Hw _ _ E) as (_ & H1 & H2). }
  destruct (commitInbox_ok env (<[msg_ContactID msg := (t ++ [msg'])%list]> (ib_inbox w)) w He Hw)
    as [(e & ->)|(w1 & -> & Hw1 & _)].
  - apply map_Forall_insert_2; [|apply Hw]. split; [by destruct t|]. split.
    + rewrite fmap_app. apply NoDup_app. split; [apply Ht|]. split; [|apply NoDup_singleton].
      intros x Hx [->|Hx']%elem_of_cons; [|by apply elem_of_nil in Hx'].
      apply HasMessageID_spec in Hx. cbn in Hx. congruence.
    + apply Forall_app. split; [apply Ht|]. by repeat constructor.
  - by apply (inbox_ok_frame w).
  - by apply (inbox_ok_frame w1).
Qed.

Lemma restore_ok env senderID t w :
  env_ok env -> inbox_ok w -> thread_ok senderID t ->
  inbox_ok (fst (restoreMessageRequestThreadIfEmpty env senderID t w)).
Proof.
  intros He Hw Ht. unfold restoreMessageRequestThreadIfEmpty.
  assert (Hn : map_Forall thread_ok (<[senderID := t]> (ib_inbox w))) by (apply map_Forall_insert_2; [done|apply Hw]).
  assert (Hc : inbox_ok (fst (commitInbox env (<[senderID := t]> (ib_inbox w)) w)))
    by (by destruct (commitInbox_ok env _ w He Hw Hn) as [(e & ->)|(w1 & -> & Hw1 & _)]).
  by destruct (ib_inbox w !! senderID) as [[|]|].
Qed.

Lemma accept_ok env senderID w :
  env_ok (ae_take env) -> env_ok (ae_restore env) -> inbox_ok w ->
  inbox_ok (fst (AcceptMessageRequest env senderID w)).
Proof.
  intros He1 He2 Hw. unfold AcceptMessageRequest. unfold bindM at 1, liftM.
  destruct (ValidateListMessagesContactID senderID) as [id|]; [|done]. unfold bindM at 1, recordStorage.
  destruct (takeMessageRequestThread (ae_take env) id w) as [w1 [[t b]|e]] eqn:Et.
  2: { apply take_ok in Et as [Hw1 _]; [|done|done]. by apply (inbox_ok_frame w1). }
  apply take_ok in Et as [Hw1 Ht]; [|done|done].
  destruct b; cbn [negb orb]; [|by destruct (HasContact _ _)].
  destruct (length t =? 0)%nat; [by destruct (HasContact _ _)|].
  specialize (Ht t eq_refl) as [Ht _]. unfold bindM at 1, onIdentity.
  destruct (ServiceAddContact _ _ _ _ _) as [i [[]|e]].
  - unfold bindM at 1. destruct (saveThread _ _ _ _ _) as [w3 r] eqn:Es.
    apply saveThread_frame in Es as (H1 & H2 & _). cbn in H1, H2.
    destruct r; by apply (inbox_ok_frame w1).
  - set (w2 := with_ib_identity w1 i). assert (Hw2 : inbox_ok w2) by by apply (inbox_ok_frame w1).
    pose proof (restore_ok (ae_restore env) id t w2 He2 Hw2 Ht) as Hr.
    destruct (restoreMessageRequestThreadIfEmpty _ _ _ _) as [w3 [[]|]]; [done|].
    by apply (inbox_ok_frame w3).
Qed.

(** ** Calls *)

Inductive InboxCall :=
| QNew (env : StoreEnv) (now : Z) (msg : Message)
| QAccept (env : AcceptEnv) (senderID : string)
| QDecline (env : StoreEnv) (senderID : string)
| QBlock (envBlocks envInbox : StoreEnv) (senderID : string).

Definition run_inbox (w : InboxWorld) (c : InboxCall) : InboxWorld :=
  match c with
  | QNew env now msg => fst (persistInboundRequest env now msg w)
  | QAccept env id => fst (AcceptMessageRequest env id w)
  | QDecline env id => fst (DeclineMessageRequest env id w)
  | QBlock envb envi id => fst (BlockSender envb envi id w)
  end.

(** The file of the inbox can be written; the other components may fail. *)
Definition inbox_env_ok (c : InboxCall) : Prop :=
  match c with
  | QNew env _ _ => env_ok env
  | QAccept env _ => env_ok (ae_take env) /\ env_ok (ae_restore env)
  | QDecline env _ => env_ok env
  | QBlock _ env _ => env_ok env
  end.

Lemma run_inbox_ok w c : inbox_env_ok c -> inbox_ok w -> inbox_ok (run_inbox w c).
Proof.
  intros Hc Hw. destruct c; cbn [inbox_env_ok run_inbox] in *.
  - by apply persistRequest_ok.
  - by apply accept_ok; destruct Hc.
  - unfold DeclineMessageRequest. unfold bindM at 1, liftM.
    destruct (ValidateListMessagesContactID _) as [id|]; [|done]. unfold bindM at 1.
    pose proof (removeNotify_ok env id "notify.request.declined" w Hc Hw) as H.
    by destruct (removeRequestThreadAndNotify _ _ _ _) as [? [?|]].
  - unfold BlockSender. unfold bindM at 1, liftM. destruct (NormalizeIdentityID _) as [id|]; [|done].
    unfold bindM at 1, getM. unfold bindM at 1, onPrivacy.
    destruct (AddToBlocklist _ _ _) as [p [l|]]; [|by apply (inbox_ok_frame w)]. unfold bindM at 1.
    pose proof (removeNotify_ok envInbox id "notify.request.blocked" (with_ib_privacy w p) Hc
      (inbox_ok_frame w (with_ib_privacy w p) eq_refl eq_refl Hw)) as H.
    destruct (removeRequestThreadAndNotify _ _ _ _) as [w1 [b|]]; [|done]. by apply (inbox_ok_frame w1).
Qed.

(** Message requests are kept. From a well-formed inbox, after any sequence of incoming requests,
    acceptances, refusals and blocks (whatever the other components do), every thread is
    non-empty, belongs to its sender and has each message once, and a new process reads
    exactly these threads from the file. *)
Theorem requests_survive_restart (w : InboxWorld) (calls : list InboxCall) (env : StoreEnv) :
  inbox_ok w -> Forall inbox_env_ok calls -> env_ok env ->
  let w' := fold_left run_inbox calls w in
  json_reads (mkPersistedRequests 1 (Some (ib_inbox w'))) (mkPersistedRequests 1 (Some (ib_inbox w'))) ->
  map_Forall thread_ok (ib_inbox w')
  /\ RequestBootstrap env (ib_store w') = (ib_store w', Ok (ib_inbox w')).
Proof.
  intros Hw Hcalls He w' Hj. assert (Hw' : inbox_ok w').
  { subst w'. clear Hj. revert w Hw. induction Hcalls as [|c cs Hc Hcs IH]; intros w Hw; [done|].
    apply IH. by apply run_inbox_ok. }
  split; [apply Hw'|]. destruct Hw' as [_ Hc Hf]. pose proof He as (_ & Hrd & _).
  destruct (store_holds_reads _ _ _ Hf Hj) as (bs & Hr & Hu). unfold RequestBootstrap.
  rewrite Hc, Hrd, Hr. cbn [negb bindR]. by rewrite Hu.
Qed.

(** ** Accepting *)

(** The file system and encoding/json do not use the store's own sentinel error. *)
Definition no_conflict (env : StoreEnv) : Prop :=
  forall m p s, snd (persistSnapshotLocked env m p s) <> Err ErrMessageIDConflict.

Lemma SaveMessage_keeps env m s s' r :
  SaveMessage env m s = (s', r) ->
  (forall id x, ms_messages s !! id = Some x -> ms_messages s' !! id = Some x)
  /\ (r = Ok tt \/ (r = Err ErrMessageIDConflict /\ no_conflict env) ->
      is_Some (ms_messages s' !! msg_ID m)).
Proof.
  unfold SaveMessage, bindM, getM. cbn. destruct (ms_messages s !! msg_ID m) as [x|] eqn:E.
  - destruct (messagesEqual _ _); intros [= <- <-]; eauto.
  - pose proof (persist_disk env (<[msg_ID m := NormalizeMessageConversation m]> (ms_messages s))
      (ms_pending s) s) as (d & r' & Ep). rewrite Ep. destruct r' as [[]|e].
    + intros [= <- <-]. cbn. split; [|rewrite lookup_insert_eq; eauto].
      intros id x Hx. rewrite lookup_insert_ne; [done|]. intros <-. congruence.
    + intros [= <- <-]. cbn. split; [done|]. intros [?|[[= ->] Hno]]; [done|].
      exfalso. apply (Hno (<[msg_ID m := NormalizeMessageConversation m]> (ms_messages s)) (ms_pending s) s).
      by rewrite Ep.
Qed.

Lemma saveThread_stores senderID envs env0 t w w' :
  Forall no_conflict (env0 :: envs) -> saveThread senderID envs env0 t w = (w', Ok tt) ->
  (forall id x, ms_messages (ib_messages w) !! id = Some x -> ms_messages (ib_messages w') !! id = Some x)
  /\ Forall (fun m => is_Some (ms_messages (ib_messages w') !! msg_ID m)) t.
Proof.
  revert envs w. induction t as [|m t IH]; intros envs w Henvs; cbn [saveThread]; [by intros [= <-]|].
  assert (Htl : Forall no_conflict (env0 :: tl envs))
    by (inversion Henvs as [|? ? H0 H1]; constructor; [done|]; by destruct H1).
  assert (Hhd : no_conflict (hd env0 envs))
    by (inversion Henvs as [|? ? H0 H1]; by destruct H1).
  unfold onMessages. destruct (SaveMessage _ _ _) as [s r] eqn:Es.
  apply SaveMessage_keeps in Es as [Hkeep Hsome]. destruct r as [[]|e].
  - intros E. apply IH in E as [Hk Ht]; [|done]. cbn in Hk. split; [by intros; apply Hk, Hkeep|].
    constructor; [|done]. destruct Hsome as [x Hx]; [by left|]. exists x. by apply Hk.
  - case_bool_decide as He; [|done]. subst e. intros E. apply IH in E as [Hk Ht]; [|done]. cbn in Hk.
    split; [by intros; apply Hk, Hkeep|]. constructor; [|done].
    destruct Hsome as [x Hx]; [by right|]. exists x. by apply Hk.
Qed.

Lemma AddContact_has env now id w w' :
  ServiceAddContact env now id id w = (w', Ok tt) -> HasContact (iw_manager w') (TrimSpace id) = true.
Proof.
  unfold ServiceAddContact, onManager, bindM, AddContactByIdentityID. destruct (_ || _); [done|].
  intros E. assert (Hm : iw_manager w' = with_im_contacts (iw_manager w)
    (<[TrimSpace id := mkContact (TrimSpace id) (if TrimSpace id == "" then TrimSpace id else TrimSpace id)
       (match im_contacts (iw_manager w) !! TrimSpace id with
        | Some existing => if verifiedKey existing then ct_PublicKey existing else []
        | None => []
        end) now 0]> (im_contacts (iw_manager w)))).
  { revert E. unfold IdentityPersist. destruct (negb _); [by intros [= <-]|].
    destruct (writeStore _ _ _) as [st r]. by intros [= <- _]. }
  rewrite Hm. unfold HasContact. cbn. by rewrite lookup_insert_eq.
Qed.

(** Accepting moves the whole thread. When a request with messages is accepted, the sender is a
    contact, the thread is gone from the inbox, no other thread has changed, every message of the
    thread is in the message store and nothing that was stored before has changed. *)
Theorem accept_moves_thread (env : AcceptEnv) (senderID id : string) (t : list Message)
    (w w' : InboxWorld) (b : bool) :
  env_ok (ae_take env) -> inbox_ok w -> Forall no_conflict (ae_save0 env :: ae_saves env) ->
  ValidateListMessagesContactID senderID = Ok id -> ib_inbox w !! id = Some t ->
  AcceptMessageRequest env senderID w = (w', Ok b) ->
  b = true /\ HasContact (iw_manager (ib_identity w')) id = true
  /\ ib_inbox w' = delete id (ib_inbox w)
  /\ Forall (fun m => is_Some (ms_messages (ib_messages w') !! msg_ID m)) t
  /\ (forall k x, ms_messages (ib_messages w) !! k = Some x -> ms_messages (ib_messages w') !! k = Some x).
Proof.
  intros He Hw Hnc Hid Ht. unfold AcceptMessageRequest. unfold bindM at 1, liftM. rewrite Hid.
  unfold bindM at 1, recordStorage.
  destruct (takeMessageRequestThread (ae_take env) id w) as [w1 [[t1 ex]|e]] eqn:Et; [|done].
  pose proof (io_threads _ Hw _ _ Ht) as Htok.
  assert (t1 = t /\ ex = true) as [-> ->].
  { revert Et. unfold takeMessageRequestThread. rewrite Ht. destruct Htok as [Hne _]. destruct t; [done|].
    unfold bindM, retM. destruct (commitInbox _ _ _) as [? [[]|]]; [|done]. by intros [= _ <- <-]. }
  apply take_ok in Et as [_ Htake]; [|done|done]. destruct (Htake t eq_refl) as (_ & _ & Hi & Hm & Hidn).
  destruct Htok as [Hne _]. rewrite (length_nonempty _ Hne). cbn [negb orb].
  unfold bindM at 1, onIdentity. destruct (ServiceAddContact _ _ _ _ _) as [i [[]|e]] eqn:Ea.
  2: { destruct (restoreMessageRequestThreadIfEmpty _ _ _ _) as [? [[]|]]; done. }
  unfold bindM at 1. destruct (saveThread _ _ _ _ _) as [w3 [[]|]] eqn:Es; [|done].
  pose proof (saveThread_frame _ _ _ _ _ _ _ Es) as (H1 & _ & H3). cbn in H1, H3.
  apply saveThread_stores in Es as [Hk Hall]; [|done]. cbn in Hk. rewrite Hm in Hk.
  intros [= <- <-]. cbn. split; [done|]. split; [|split; [by rewrite H1|done]].
  rewrite H3. apply AddContact_has in Ea.
  assert (Htrim : TrimSpace id = id).
  { unfold ValidateListMessagesContactID in Hid. case_bool_decide; [done|]. injection Hid as <-.
    apply TrimSpace_idemp. }
  by rewrite Htrim in Ea.
Qed.

(** A failed acceptance loses the request. When the first message of an accepted thread cannot be
    written to the message store, the call reports the error, but the thread is already gone from
    the inbox and from its file, and none of its messages is in the message store. *)
Theorem failed_accept_loses_thread (env : AcceptEnv) (senderID id : string) (m : Message)
    (t : list Message) (w w1 : InboxWorld) (i : IdentityWorld) (e : error) :
  env_ok (ae_take env) -> inbox_ok w ->
  ValidateListMessagesContactID senderID = Ok id -> ib_inbox w !! id = Some (m :: t) ->
  takeMessageRequestThread (ae_take env) id w = (w1, Ok (m :: t, true)) ->
  ServiceAddContact (ae_identity env) (ae_now env) id id (ib_identity w1) = (i, Ok tt) ->
  Forall (fun x => ms_messages (ib_messages w) !! msg_ID x = None) (m :: t) ->
  snd (SaveMessage (hd (ae_save0 env) (ae_saves env)) m (ib_messages w)) = Err e ->
  e <> ErrMessageIDConflict ->
  exists w', AcceptMessageRequest env senderID w = (w', Err e)
    /\ ib_inbox w' = delete id (ib_inbox w) /\ inbox_ok w'
    /\ Forall (fun x => ms_messages (ib_messages w') !! msg_ID x = None) (m :: t).
Proof.
  intros He Hw Hid Ht Htake Hadd Hnone Hsave Hne. unfold AcceptMessageRequest. unfold bindM at 1, liftM.
  rewrite Hid. unfold bindM at 1, recordStorage. rewrite Htake. cbn [negb orb length Nat.eqb].
  apply take_ok in Htake as [Hw1 Htk]; [|done|done]. destruct (Htk _ eq_refl) as (_ & _ & Hi & Hm & _).
  unfold bindM at 1, onIdentity. rewrite Hadd. unfold bindM at 1. cbn [saveThread]. unfold onMessages.
  cbn [ib_messages with_ib_identity]. rewrite Hm.
  destruct (SaveMessage _ m (ib_messages w)) as [s r] eqn:Es. cbn in Hsave. subst r.
  rewrite bool_decide_false by done. eexists. split; [reflexivity|]. cbn. split; [done|].
  split; [by apply (inbox_ok_frame w1)|].
  revert Es. unfold SaveMessage, bindM, getM. cbn. inversion Hnone as [|? ? Hnm _]; subst. rewrite Hnm.
  pose proof (persist_disk (hd (ae_save0 env) (ae_saves env))
    (<[msg_ID m := NormalizeMessageConversation m]> (ms_messages (ib_messages w)))
    (ms_pending (ib_messages w)) (ib_messages w)) as (d & r' & ->). destruct r'; [done|].
  by intros [= <- _].
Qed.

(** Blocking a sender leaves nothing of it waiting. After a successful BlockSender the sender is
    on the block list, its messages and invitations are turned away whatever the privacy mode
    and even when it is a contact, and no request of it is left. *)
Theorem blocked_sender_has_no_request (envBlocks envInbox : StoreEnv) (senderID id : string)
    (w w' : InboxWorld) (res : BlockSenderResult) (rt : GoRuntime) (lower : GoLower) :
  block_ok (pw_blocklist (ib_privacy w)) -> NormalizeIdentityID senderID = Ok id ->
  BlockSender envBlocks envInbox senderID w = (w', Ok res) ->
  IsBlockedSender (ib_privacy w') senderID = true /\ ib_inbox w' !! id = None
  /\ forall known, pd_Action (EvaluateInboundMessagePolicy
       (mkPolicyInput known (IsBlockedSender (ib_privacy w') senderID) (CurrentMode (ib_privacy w'))))
       = InboundMessageActionReject.
Proof.
  intros Hb Hid. unfold BlockSender. unfold bindM at 1, liftM. rewrite Hid. unfold bindM at 1, getM.
  unfold bindM at 1, onPrivacy. destruct (AddToBlocklist _ _ _) as [p [l|]] eqn:Ea; [|done].
  assert (Hp : IsBlockedSender p senderID = true).
  { revert Ea. unfold AddToBlocklist, updateBlocklist. rewrite (NewBlocklist_List _ _ Hb). unfold Blocklist_Add.
    rewrite (NormalizeIdentityID_idemp _ _ Hid). cbn [bl_entries]. destruct (onBlocks _ _) as [pw [u|]]; [|done].
    intros [= <- _]. unfold IsBlockedSender, Blocklist_Contains. rewrite Hid. cbn.
    apply bool_decide_true. set_solver. }
  unfold bindM at 1, removeRequestThreadAndNotify, recordStorage. unfold bindM at 1.
  assert (Hrem : forall w2 b, removeMessageRequest envInbox id (with_ib_privacy w p) = (w2, Ok b) ->
    ib_inbox w2 !! id = None /\ ib_privacy w2 = p).
  { intros w2 b. unfold removeMessageRequest. cbn. destruct (ib_inbox w !! id) eqn:E; [|by intros [= <- <-]].
    unfold bindM, retM, commitInbox. destruct (RequestPersist _ _ _) as [? [[]|]]; [|done].
    intros [= <- <-]. cbn. by rewrite lookup_delete_eq. }
  destruct (removeMessageRequest _ _ _) as [w2 [b|]] eqn:Er; [|done]. destruct (Hrem _ _ eq_refl) as [H1 H2].
  destruct b; cbn; intros [= <- _]; cbn; rewrite H2, Hp; done.
Qed.
End Ok.
End Inbox.

(** ** A codec to compute with, and witnesses *)

Definition messageZ (m : Message) : Z :=
  zenc [zs (msg_ID m); zs (msg_ContactID m); zs (msg_ConversationID m); zs (msg_ConversationType m);
        zs (msg_ThreadID m); zenc (msg_Content m); msg_Timestamp m; zs (msg_Direction m);
        zs (msg_Status m); zs (msg_ContentType m); zb (msg_Edited m)].
Definition unmessageZ (z : Z) : Message :=
  match zdec z with
  | Some [a; b; c; d; e; f; g; h; i; j; k] =>
      mkMessage (unzs a) (unzs b) (unzs c) (unzs d) (unzs e) (default [] (zdec f)) g (unzs h) (unzs i)
        (unzs j) (unzb k)
  | _ => zeroMessage
  end.
Definition threadZ (t : list Message) : Z := zenc (messageZ <$> t).
Definition unthreadZ (z : Z) : list Message := unmessageZ <$> default [] (zdec z).

Lemma unmessageZ_messageZ m : unmessageZ (messageZ m) = m.
Proof.
  unfold unmessageZ, messageZ. rewrite zdec_zenc, !unzs_zs, unzb_zb, zdec_zenc. by destruct m.
Qed.

Lemma unthreadZ_threadZ t : unthreadZ (threadZ t) = t.
Proof.
  unfold unthreadZ, threadZ. rewrite zdec_zenc. cbn [default]. unfold id.
  rewrite <- list_fmap_compose. rewrite <- (list_fmap_id t) at 2. apply list_fmap_ext.
  intros _ m _. apply unmessageZ_messageZ.
Qed.

#[export] Instance exRequestCodec : JsonCodec persistedMessageRequestState := {
  marshalJSON r := Ok (prq_Version r :: match prq_Inbox r with
                                        | None => []
                                        | Some i => [zenc (threadZ <$> i)]
                                        end);
  unmarshalJSON bs :=
    match bs with
    | [v] => Ok (mkPersistedRequests v None)
    | [v; z] => Ok (mkPersistedRequests v (Some (unthreadZ <$> default ∅ (zdec z))))
    | _ => Err (errorsNew "json")
    end
}.

Lemma exRequestCodec_reads i : json_reads (mkPersistedRequests 1 (Some i)) (mkPersistedRequests 1 (Some i)).
Proof.
  eexists. split; [reflexivity|]. cbn [unmarshalJSON exRequestCodec prq_Inbox prq_Version].
  rewrite zdec_zenc. cbn [default]. unfold id. do 3 f_equal. rewrite <- map_fmap_compose.
  rewrite <- (map_fmap_id i) at 2. apply map_fmap_ext. intros k t _. apply unthreadZ_threadZ.
Qed.

Definition ex_in (id : string) (ts : Z) : Message :=
  mkMessage id "aim1mallory99" "aim1mallory99" "direct" "" [104; 105] ts "in" "delivered" "text" false.

(** An inbox on a new file. *)
Definition ex_inbox0 : InboxWorld :=
  mkInboxWorld ∅ (fst (RequestBootstrap ex_env (mkEncStore "inbox" "secret" None)))
    ex_idworld PrivacyService.ex_world (mkMessageStore ∅ ∅ "" "" true None) [] [].

Lemma ex_inbox0_ok : inbox_ok ex_inbox0.
Proof.
  constructor; [apply map_Forall_empty|vm_compute; reflexivity|].
  destruct (writeStore_holds ex_env (mkPersistedRequests 1 (Some ∅)) (mkEncStore "inbox" "secret" None) ex_env_ok)
    as [(e & Hm & _)|(d & Hw & Hh)]; [vm_compute in Hm; discriminate|].
  replace (ib_store ex_inbox0) with (fst (writeStore ex_env (mkPersistedRequests 1 (Some ∅))
    (mkEncStore "inbox" "secret" None))) by (vm_compute; reflexivity).
  rewrite Hw. exact Hh.
Qed.

Definition ex_inbox2 : InboxWorld :=
  fold_left run_inbox [QNew ex_env 50 (ex_in "m1" 10); QNew ex_env 51 (ex_in "m2" 0)] ex_inbox0.

Lemma ex_inbox2_ok : inbox_ok ex_inbox2.
Proof.
  unfold ex_inbox2. cbn [fold_left].
  apply run_inbox_ok; [apply ex_env_ok|]. apply run_inbox_ok; [apply ex_env_ok|]. apply ex_inbox0_ok.
Qed.

Lemma requests_survive_restart_witness :
  map_Forall thread_ok (ib_inbox ex_inbox2)
  /\ RequestBootstrap ex_env (ib_store ex_inbox2) = (ib_store ex_inbox2, Ok (ib_inbox ex_inbox2)).
Proof.
  apply (requests_survive_restart ex_inbox0 [QNew ex_env 50 (ex_in "m1" 10); QNew ex_env 51 (ex_in "m2" 0)] ex_env).
  - apply ex_inbox0_ok.
  - repeat constructor; apply ex_env_ok.
  - apply ex_env_ok.
  - apply exRequestCodec_reads.
Defined.

Definition ex_accept (save : StoreEnv) : AcceptEnv :=
  mkAcceptEnv ex_env ex_env 60 ex_env [save] save.
Definition ex_diskFull : StoreEnv :=
  mkEnv exRuntime ex_random None (mkWrite (Some (errorsNew "no space")) None) None.
(** The same world with a message store that is kept in a file. *)
Definition ex_inbox3 : InboxWorld :=
  with_ib_messages ex_inbox2 (mkMessageStore ∅ ∅ "messages" "" true None).

Lemma ex_env_no_conflict : no_conflict ex_env.
Proof.
  intros m p s. unfold persistSnapshotLocked. destruct (_ || _); [done|]. cbn [ex_env env_write wo_mkdir].
  destruct (negb _); [|done]. cbn [bindR marshalMessages exMessageCodec].
  destruct (Encrypt_Decrypt (env_rand ex_env) (ms_secret s)
    [Zpos (encode (mkMessageSnapshot messageStoreSchemaVersion m p))] ex_random_ok) as (data & -> & _). done.
Qed.

Lemma accept_moves_thread_witness :
  HasContact (iw_manager (ib_identity (fst (AcceptMessageRequest (ex_accept ex_env) "aim1mallory99" ex_inbox2))))
    "aim1mallory99" = true
  /\ is_Some (ms_messages (ib_messages (fst (AcceptMessageRequest (ex_accept ex_env) "aim1mallory99" ex_inbox2)))
       !! "m2").
Proof.
  set (w' := fst (AcceptMessageRequest (ex_accept ex_env) "aim1mallory99" ex_inbox2)).
  destruct (ib_inbox ex_inbox2 !! "aim1mallory99") as [t|] eqn:Et; [|exfalso; vm_compute in Et; discriminate].
  destruct (accept_moves_thread (ex_accept ex_env) "aim1mallory99" "aim1mallory99" t ex_inbox2 w' true)
    as (_ & Hc & _ & Hall & _).
  - apply ex_env_ok.
  - apply ex_inbox2_ok.
  - repeat constructor; apply ex_env_no_conflict.
  - vm_compute. reflexivity.
  - exact Et.
  - apply run_eta. vm_compute. reflexivity.
  - split; [exact Hc|]. vm_compute in Et. injection Et as <-.
    inversion Hall as [|? ? _ H2]. inversion H2 as [|? ? H3 _]. exact H3.
Defined.

Lemma failed_accept_loses_thread_witness :
  exists w', AcceptMessageRequest (ex_accept ex_diskFull) "aim1mallory99" ex_inbox3
             = (w', Err (errorsNew "no space"))
    /\ ib_inbox w' !! "aim1mallory99" = None /\ ms_messages (ib_messages w') !! "m1" = None.
Proof.
  set (t := [mkMessage "m2" "aim1mallory99" "aim1mallory99" "direct" "" [104; 105] 51 "in" "delivered" "text" false]).
  set (w1 := fst (takeMessageRequestThread ex_env "aim1mallory99" ex_inbox3)).
  set (i := fst (ServiceAddContact ex_env 60 "aim1mallory99" "aim1mallory99" (ib_identity w1))).
  destruct (failed_accept_loses_thread (ex_accept ex_diskFull) "aim1mallory99" "aim1mallory99" (ex_in "m1" 10) t
    ex_inbox3 w1 i (errorsNew "no space")) as (w' & Ha & Hi & _ & Hn).
  - apply ex_env_ok.
  - apply (inbox_ok_frame ex_inbox2); [reflexivity|reflexivity|apply ex_inbox2_ok].
  - vm_compute. reflexivity.
  - vm_compute. reflexivity.
  - apply run_eta. vm_compute. reflexivity.
  - apply run_eta. vm_compute. reflexivity.
  - repeat constructor.
  - vm_compute. reflexivity.
  - discriminate.
  - exists w'. split; [exact Ha|]. split; [rewrite Hi; apply lookup_delete_eq|].
    inversion Hn as [|? ? H1 _]. exact H1.
Defined.

Lemma blocked_sender_has_no_request_witness :
  exists w' res, BlockSender ex_env ex_env "aim1mallory99" ex_inbox2 = (w', Ok res)
    /\ ib_inbox w' !! "aim1mallory99" = None.
Proof.
  destruct (snd (BlockSender ex_env ex_env "aim1mallory99" ex_inbox2)) as [res|] eqn:E;
    [|exfalso; vm_compute in E; discriminate].
  apply run_eta in E. eexists _, res. split; [exact E|].
  apply (blocked_sender_has_no_request ex_env ex_env "aim1mallory99" "aim1mallory99" ex_inbox2 _ res
    exRuntime exLower); [|vm_compute; reflexivity|exact E].
  apply (boot_memory ex_env ex_env).
Defined.
