(* ===== verification/GroupModel.v ===== *)
(** * The group domain model

    Models internal/domains/group/model (types.go, domain.go, event.go): the group,
    member and event records, their validation, and [ApplyGroupEvent], the
    event-application step every group mutation goes through. Roles, statuses and
    event types are Go strings with named constants, and stay strings here, since
    values outside the constants do occur (an event without a role has [""]). *)
From S2P Require Import Prelude.
From stdpp Require Import base gmap strings list sets option.
From Stdlib Require Import ZArith Lia.
Open Scope string_scope.
Open Scope Z_scope.
Open Scope go_scope.

(** ** domain.go *)

Definition GroupMemberRoleOwner : string := "owner".
Definition GroupMemberRoleAdmin : string := "admin".
Definition GroupMemberRoleUser : string := "user".

Definition GroupMemberStatusInvited : string := "invited".
Definition GroupMemberStatusActive : string := "active".
Definition GroupMemberStatusLeft : string := "left".
Definition GroupMemberStatusRemoved : string := "removed".

Definition NormalizeGroupMemberID (memberID : string) : result error string :=
  let memberID := TrimSpace memberID in
  if memberID == "" then Err ErrInvalidGroupMemberID else Ok memberID.

Record Group := mkGroup {
  g_ID : string;
  g_Title : string;
  g_Description : string;
  g_Avatar : string;
  g_CreatedBy : string;
  g_CreatedAt : Z;
  g_UpdatedAt : Z
}.

Record GroupMember := mkGroupMember {
  m_GroupID : string;
  m_MemberID : string;
  m_Role : string;
  m_Status : string;
  m_InvitedAt : Z;
  m_ActivatedAt : Z;
  m_UpdatedAt : Z
}.

Definition zeroGroup : Group := mkGroup "" "" "" "" "" 0 0.
Definition zeroGroupMember : GroupMember := mkGroupMember "" "" "" "" 0 0 0.

Definition IsOwner (m : GroupMember) : bool := m_Role m == GroupMemberRoleOwner.

Definition CanManageMembers (m : GroupMember) : bool :=
  (m_Role m == GroupMemberRoleOwner) || (m_Role m == GroupMemberRoleAdmin).

Definition CanMutateRole (m : GroupMember) : bool :=
  (m_Status m == GroupMemberStatusActive) || (m_Status m == GroupMemberStatusInvited).

Definition GroupMemberRole_Valid (r : string) : bool :=
  (r == GroupMemberRoleOwner) || (r == GroupMemberRoleAdmin) || (r == GroupMemberRoleUser).

Definition ParseGroupMemberRole (raw : string) : result error string :=
  let role := TrimSpace raw in
  if negb (GroupMemberRole_Valid role) then Err ErrInvalidGroupMemberRole else Ok role.

Definition GroupMemberStatus_Valid (s : string) : bool :=
  (s == GroupMemberStatusInvited) || (s == GroupMemberStatusActive)
  || (s == GroupMemberStatusLeft) || (s == GroupMemberStatusRemoved).

Definition ParseGroupMemberStatus (raw : string) : result error string :=
  let status := TrimSpace raw in
  if negb (GroupMemberStatus_Valid status) then Err ErrInvalidGroupMemberStatus else Ok status.

(** A function that returns only an [error] returns [None] for [nil]. *)
Definition ValidateGroupMember (member : GroupMember) : option error :=
  if TrimSpace (m_GroupID member) == "" then Some ErrInvalidGroupID else
  if TrimSpace (m_MemberID member) == "" then Some ErrInvalidGroupMemberID else
  if negb (GroupMemberRole_Valid (m_Role member)) then Some ErrInvalidGroupMemberRole else
  if negb (GroupMemberStatus_Valid (m_Status member)) then Some ErrInvalidGroupMemberStatus else
  None.

Definition ValidateGroupMemberStatusTransition (from to : string) : option error :=
  if negb (GroupMemberStatus_Valid from) || negb (GroupMemberStatus_Valid to)
  then Some ErrInvalidGroupMemberStatus else
  if from == to then None else
  if (from == GroupMemberStatusInvited)
     && ((to == GroupMemberStatusActive) || (to == GroupMemberStatusRemoved)) then None else
  if (from == GroupMemberStatusActive)
     && ((to == GroupMemberStatusLeft) || (to == GroupMemberStatusRemoved)) then None else
  if (from == GroupMemberStatusLeft)
     && ((to == GroupMemberStatusActive) || (to == GroupMemberStatusRemoved)) then None else
  Some ErrInvalidGroupMemberStatusTransition.

(** ** types.go *)

Definition NormalizeGroupID (groupID : string) : result error string :=
  let groupID := TrimSpace groupID in
  if groupID == "" then Err ErrInvalidGroupID else Ok groupID.

Definition NormalizeGroupTitle (title : string) : result error string :=
  let title := TrimSpace title in
  if title == "" then Err ErrInvalidGroupTitle else Ok title.

(** ** event.go *)

Definition GroupEventTypeMemberAdd : string := "member_add".
Definition GroupEventTypeMemberRemove : string := "member_remove".
Definition GroupEventTypeMemberLeave : string := "member_leave".
Definition GroupEventTypeTitleChange : string := "title_change".
Definition GroupEventTypeProfileChange : string := "profile_change".
Definition GroupEventTypeKeyRotate : string := "key_rotate".

(** [e_Version] is a uint64, [e_KeyVersion] a uint32. *)
Record GroupEvent := mkGroupEvent {
  e_ID : string;
  e_GroupID : string;
  e_Version : Z;
  e_Type : string;
  e_ActorID : string;
  e_OccurredAt : Z;
  e_MemberID : string;
  e_Role : string;
  e_Title : string;
  e_Description : string;
  e_Avatar : string;
  e_KeyVersion : Z
}.

Definition zeroGroupEvent : GroupEvent := mkGroupEvent "" "" 0 "" "" 0 "" "" "" "" "" 0.

(** A nil map reads as the empty one and is replaced by it before the first write,
    so the two are the same value here. *)
Record GroupState := mkGroupState {
  s_Group : Group;
  s_Version : Z;
  s_AppliedEventIDs : gset string;
  s_Members : gmap string GroupMember;
  s_LastKeyVersion : Z
}.

Definition NewGroupState (group : Group) : GroupState :=
  mkGroupState group 0 ∅ ∅ 0.

Definition GroupEventType_Valid (t : string) : bool :=
  (t == GroupEventTypeMemberAdd) || (t == GroupEventTypeMemberRemove)
  || (t == GroupEventTypeMemberLeave) || (t == GroupEventTypeTitleChange)
  || (t == GroupEventTypeProfileChange) || (t == GroupEventTypeKeyRotate).

Definition ParseGroupEventType (raw : string) : result error string :=
  let typ := TrimSpace raw in
  if negb (GroupEventType_Valid typ) then Err ErrInvalidGroupEventType else Ok typ.

Definition ValidateGroupEvent (event : GroupEvent) : option error :=
  if TrimSpace (e_ID event) == "" then Some ErrInvalidGroupEventID else
  if TrimSpace (e_GroupID event) == "" then Some ErrInvalidGroupID else
  if e_Version event =? 0 then Some ErrInvalidGroupEventVersion else
  if negb (GroupEventType_Valid (e_Type event)) then Some ErrInvalidGroupEventType else
  if TrimSpace (e_ActorID event) == "" then Some ErrInvalidGroupEventActorID else
  if IsZero (e_OccurredAt event) then Some ErrInvalidGroupEventPayload else
  if e_Type event == GroupEventTypeMemberAdd then
    if TrimSpace (e_MemberID event) == "" then Some ErrInvalidGroupEventPayload else
    if negb (GroupMemberRole_Valid (e_Role event)) then Some ErrInvalidGroupEventPayload else
    None
  else if e_Type event == GroupEventTypeMemberRemove then
    if TrimSpace (e_MemberID event) == "" then Some ErrInvalidGroupEventPayload else None
  else if e_Type event == GroupEventTypeMemberLeave then
    if TrimSpace (e_MemberID event) == "" then Some ErrInvalidGroupEventPayload else None
  else if e_Type event == GroupEventTypeTitleChange then
    if TrimSpace (e_Title event) == "" then Some ErrInvalidGroupEventPayload else None
  else if e_Type event == GroupEventTypeProfileChange then
    if TrimSpace (e_Title event) == "" then Some ErrInvalidGroupEventPayload else None
  else if e_Type event == GroupEventTypeKeyRotate then
    if e_KeyVersion event =? 0 then Some ErrInvalidGroupEventPayload else None
  else None.

(** Field updates of the state. *)
Definition with_members (st : GroupState) (ms : gmap string GroupMember) : GroupState :=
  mkGroupState (s_Group st) (s_Version st) (s_AppliedEventIDs st) ms (s_LastKeyVersion st).
Definition with_group (st : GroupState) (g : Group) : GroupState :=
  mkGroupState g (s_Version st) (s_AppliedEventIDs st) (s_Members st) (s_LastKeyVersion st).
Definition with_key (st : GroupState) (k : Z) : GroupState :=
  mkGroupState (s_Group st) (s_Version st) (s_AppliedEventIDs st) (s_Members st) k.

(** The [member_add] case of the switch. *)
Definition memberAfterAdd (groupID : string) (event : GroupEvent)
    (existing : option GroupMember) : GroupMember :=
  let memberID := TrimSpace (e_MemberID event) in
  match existing with
  | None =>
      mkGroupMember groupID memberID (e_Role event) GroupMemberStatusInvited
        (e_OccurredAt event) 0 (e_OccurredAt event)
  | Some member =>
      if m_Status member == GroupMemberStatusInvited then
        if TrimSpace (e_ActorID event) == memberID then
          mkGroupMember (m_GroupID member) (m_MemberID member) (e_Role event)
            GroupMemberStatusActive (m_InvitedAt member) (e_OccurredAt event) (e_OccurredAt event)
        else
          mkGroupMember (m_GroupID member) (m_MemberID member) (e_Role event)
            (m_Status member) (m_InvitedAt member) (m_ActivatedAt member) (e_OccurredAt event)
      else if (m_Status member == GroupMemberStatusLeft)
              || (m_Status member == GroupMemberStatusRemoved) then
        mkGroupMember (m_GroupID member) (m_MemberID member) (e_Role event)
          GroupMemberStatusInvited (e_OccurredAt event) 0 (e_OccurredAt event)
      else
        mkGroupMember (m_GroupID member) (m_MemberID member) (e_Role event)
          (m_Status member) (m_InvitedAt member) (m_ActivatedAt member) (e_OccurredAt event)
  end.

(** The [member_remove] and [member_leave] cases: the record (a fresh plain user when
    there is none) with the new status. *)
Definition memberAfterDrop (groupID : string) (event : GroupEvent) (status : string)
    (existing : option GroupMember) : GroupMember :=
  let member := default (mkGroupMember groupID (TrimSpace (e_MemberID event))
                           GroupMemberRoleUser "" 0 0 0) existing in
  mkGroupMember (m_GroupID member) (m_MemberID member) (m_Role member) status
    (m_InvitedAt member) (m_ActivatedAt member) (e_OccurredAt event).

(** The [switch event.Type] of [ApplyGroupEvent]. *)
Definition applyEventBody (state : GroupState) (event : GroupEvent) : GroupState :=
  let memberID := TrimSpace (e_MemberID event) in
  let g := s_Group state in
  let existing := s_Members state !! memberID in
  if e_Type event == GroupEventTypeMemberAdd then
    let member := memberAfterAdd (g_ID g) event existing in
    with_members state (<[m_MemberID member := member]> (s_Members state))
  else if e_Type event == GroupEventTypeMemberRemove then
    with_members state
      (<[memberID := memberAfterDrop (g_ID g) event GroupMemberStatusRemoved existing]>
         (s_Members state))
  else if e_Type event == GroupEventTypeMemberLeave then
    with_members state
      (<[memberID := memberAfterDrop (g_ID g) event GroupMemberStatusLeft existing]>
         (s_Members state))
  else if e_Type event == GroupEventTypeTitleChange then
    with_group state (mkGroup (g_ID g) (TrimSpace (e_Title event)) (g_Description g)
                        (g_Avatar g) (g_CreatedBy g) (g_CreatedAt g) (e_OccurredAt event))
  else if e_Type event == GroupEventTypeProfileChange then
    with_group state (mkGroup (g_ID g) (TrimSpace (e_Title event))
                        (TrimSpace (e_Description event)) (TrimSpace (e_Avatar event))
                        (g_CreatedBy g) (g_CreatedAt g) (e_OccurredAt event))
  else if e_Type event == GroupEventTypeKeyRotate then
    with_group (with_key state (e_KeyVersion event))
      (mkGroup (g_ID g) (g_Title g) (g_Description g) (g_Avatar g) (g_CreatedBy g)
         (g_CreatedAt g) (e_OccurredAt event))
  else state.

(** [state.Version = event.Version; state.AppliedEventIDs[event.ID] = struct{}{}] *)
Definition commitEvent (state : GroupState) (event : GroupEvent) : GroupState :=
  mkGroupState (s_Group state) (e_Version event)
    ({[e_ID event]} ∪ s_AppliedEventIDs state) (s_Members state) (s_LastKeyVersion state).

(** [ApplyGroupEvent] on a state that is there: the state after the call and
    [(applied, error)]. No error path writes to the state. *)
Definition applyGroupEvent (state : GroupState) (event : GroupEvent)
    : GroupState * result error bool :=
  match ValidateGroupEvent event with
  | Some err => (state, Err err)
  | None =>
      if TrimSpace (g_ID (s_Group state)) == "" then (state, Err ErrInvalidGroupID) else
      if negb (e_GroupID event == g_ID (s_Group state)) then (state, Err ErrInvalidGroupID) else
      if bool_decide (e_ID event ∈ s_AppliedEventIDs state) then (state, Ok false) else
      let expected := u64 (s_Version state + 1) in
      if negb (e_Version event =? expected) then (state, Err ErrOutOfOrderGroupEvent) else
      (commitEvent (applyEventBody state event) event, Ok true)
  end.

(** [ApplyGroupEvent] takes a pointer, which may be nil. *)
Definition ApplyGroupEvent (state : option GroupState) (event : GroupEvent)
    : option GroupState * result error bool :=
  match state with
  | None => (None, Err ErrInvalidGroupEventPayload)
  | Some st => let '(st', r) := applyGroupEvent st event in (Some st', r)
  end.

(** Deliver a sequence of events, dropping the errors, as a replica does with what
    reaches it. *)
Definition deliver (st : GroupState) (es : list GroupEvent) : GroupState :=
  fold_left (fun s e => fst (applyGroupEvent s e)) es st.

(** ** Lemmas on one application *)

(** The guards an event has to pass. *)
Record accepts (st : GroupState) (e : GroupEvent) : Prop := {
  acc_valid : ValidateGroupEvent e = None;
  acc_state_id : TrimSpace (g_ID (s_Group st)) <> "";
  acc_group : e_GroupID e = g_ID (s_Group st);
  acc_fresh : e_ID e ∉ s_AppliedEventIDs st;
  acc_version : e_Version e = u64 (s_Version st + 1)
}.

Lemma apply_accepts st e :
  accepts st e -> applyGroupEvent st e = (commitEvent (applyEventBody st e) e, Ok true).
Proof.
  intros [Hv Hi Hg Hf Hn]. unfold applyGroupEvent. rewrite Hv.
  rewrite (bool_decide_false _ Hi), (bool_decide_true _ Hg), (bool_decide_false _ Hf). cbn.
  by rewrite Hn, Z.eqb_refl.
Qed.

(** Either the event passes every guard and is committed, or the state is as before. *)
Lemma apply_cases st e :
  (accepts st e /\ applyGroupEvent st e = (commitEvent (applyEventBody st e) e, Ok true))
  \/ (fst (applyGroupEvent st e) = st /\ snd (applyGroupEvent st e) <> Ok true
      /\ ~ accepts st e).
Proof.
  unfold applyGroupEvent. destruct (ValidateGroupEvent e) eqn:Hv.
  { right. repeat split; [done|]. intros []; congruence. }
  case_bool_decide as Hi; [right; repeat split; [done|]; by intros []|].
  case_bool_decide as Hg; cbn; [|right; repeat split; [done|]; by intros []].
  case_bool_decide as Hf; [right; repeat split; [done|]; by intros []|].
  destruct (e_Version e =? _) eqn:Hn; cbn.
  - left. split; [|done]. constructor; try done. lia.
  - right. repeat split; [done|]. intros []. lia.
Qed.

Lemma apply_true st e st' :
  applyGroupEvent st e = (st', Ok true) ->
  accepts st e /\ st' = commitEvent (applyEventBody st e) e.
Proof.
  intros H. destruct (apply_cases st e) as [[Ha He]|(_ & Hn & _)].
  - rewrite He in H. by simplify_eq.
  - rewrite H in Hn. by destruct Hn.
Qed.

Lemma apply_not_true st e st' r :
  applyGroupEvent st e = (st', r) -> r <> Ok true -> st' = st.
Proof.
  intros H Hr. destruct (apply_cases st e) as [[_ He]|(He & _ & _)]; rewrite H in He;
    by simplify_eq/=.
Qed.

Lemma applyEventBody_group_id st e : g_ID (s_Group (applyEventBody st e)) = g_ID (s_Group st).
Proof. unfold applyEventBody. repeat case_bool_decide; done. Qed.

Lemma applyEventBody_applied st e :
  s_AppliedEventIDs (applyEventBody st e) = s_AppliedEventIDs st.
Proof. unfold applyEventBody. repeat case_bool_decide; done. Qed.

Lemma apply_group_id st e : g_ID (s_Group (fst (applyGroupEvent st e))) = g_ID (s_Group st).
Proof.
  destruct (apply_cases st e) as [[_ ->]|(-> & _)]; [|done].
  apply applyEventBody_group_id.
Qed.

Lemma apply_applied_mono st e :
  s_AppliedEventIDs st ⊆ s_AppliedEventIDs (fst (applyGroupEvent st e)).
Proof.
  destruct (apply_cases st e) as [[_ ->]|(-> & _)]; [|done].
  cbn. rewrite applyEventBody_applied. set_solver.
Qed.

(** ** Well-formed states *)

Record wf_member (gid : string) (k : string) (m : GroupMember) : Prop := {
  wfm_key : m_MemberID m = k;
  wfm_nonblank : TrimSpace k <> "";
  wfm_group : m_GroupID m = gid;
  wfm_role : GroupMemberRole_Valid (m_Role m) = true;
  wfm_status : GroupMemberStatus_Valid (m_Status m) = true
}.

(** The invariant the snapshot store checks, and the widths of the counters. *)
Record wf_state (st : GroupState) : Prop := {
  wf_id : TrimSpace (g_ID (s_Group st)) <> "";
  wf_applied : forall id, id ∈ s_AppliedEventIDs st -> TrimSpace id <> "";
  wf_members : map_Forall (wf_member (g_ID (s_Group st))) (s_Members st);
  wf_version : 0 <= s_Version st < 2 ^ 64;
  wf_key : 0 <= s_LastKeyVersion st < 2 ^ 32
}.

(** The widths of the integer fields of an event. *)
Definition wf_event (e : GroupEvent) : Prop :=
  0 <= e_Version e < 2 ^ 64 /\ 0 <= e_KeyVersion e < 2 ^ 32.

Lemma validate_event_id e : ValidateGroupEvent e = None -> TrimSpace (e_ID e) <> "".
Proof. unfold ValidateGroupEvent. by case_bool_decide. Qed.

Lemma validate_event_add e :
  ValidateGroupEvent e = None -> e_Type e = GroupEventTypeMemberAdd ->
  TrimSpace (e_MemberID e) <> "" /\ GroupMemberRole_Valid (e_Role e) = true.
Proof.
  intros H Ht. revert H. unfold ValidateGroupEvent. rewrite Ht.
  rewrite (bool_decide_true (GroupEventTypeMemberAdd = _)) by done.
  repeat case_match; try done. intros _. split; [by case_bool_decide|].
  by destruct (GroupMemberRole_Valid _).
Qed.

Lemma validate_event_drop e :
  ValidateGroupEvent e = None ->
  e_Type e = GroupEventTypeMemberRemove \/ e_Type e = GroupEventTypeMemberLeave ->
  TrimSpace (e_MemberID e) <> "".
Proof.
  intros H Ht. revert H. unfold ValidateGroupEvent.
  destruct Ht as [-> | ->]; repeat case_match; try done; intros _;
    by case_bool_decide.
Qed.

Lemma memberAfterAdd_wf gid e o :
  TrimSpace (e_MemberID e) <> "" -> GroupMemberRole_Valid (e_Role e) = true ->
  (forall m, o = Some m -> wf_member gid (TrimSpace (e_MemberID e)) m) ->
  wf_member gid (TrimSpace (e_MemberID e)) (memberAfterAdd gid e o).
Proof.
  intros Hb Hr Ho. destruct o as [m|]; cbn.
  - destruct (Ho m eq_refl) as [Hk Hn Hg Hrole Hst].
    repeat case_match; constructor; cbn; try done; by rewrite Hk.
  - constructor; cbn; try done. by rewrite TrimSpace_idemp.
Qed.

Lemma memberAfterDrop_wf gid e s o :
  TrimSpace (e_MemberID e) <> "" -> GroupMemberStatus_Valid s = true ->
  (forall m, o = Some m -> wf_member gid (TrimSpace (e_MemberID e)) m) ->
  wf_member gid (TrimSpace (e_MemberID e)) (memberAfterDrop gid e s o).
Proof.
  intros Hb Hs Ho. destruct o as [m|]; cbn.
  - destruct (Ho m eq_refl) as [Hk Hn Hg Hrole Hst]. constructor; cbn; done.
  - constructor; cbn; try done. by rewrite TrimSpace_idemp.
Qed.

Lemma applyEventBody_members_wf st e :
  wf_state st -> ValidateGroupEvent e = None ->
  map_Forall (wf_member (g_ID (s_Group st))) (s_Members (applyEventBody st e)).
Proof.
  intros Hst Hv. pose proof (wf_members _ Hst) as Hm.
  assert (Hex : forall m, s_Members st !! TrimSpace (e_MemberID e) = Some m ->
                wf_member (g_ID (s_Group st)) (TrimSpace (e_MemberID e)) m)
    by (intros m; apply Hm).
  unfold applyEventBody. repeat case_bool_decide; try done; cbn;
    apply map_Forall_insert_2; try done.
  - destruct (validate_event_add e) as [Hb Hr]; [done..|].
    destruct (memberAfterAdd_wf _ _ _ Hb Hr Hex) as [Hk ????]. rewrite Hk.
    by apply memberAfterAdd_wf.
  - apply memberAfterDrop_wf; try done. apply validate_event_drop; auto.
  - apply memberAfterDrop_wf; try done. apply validate_event_drop; auto.
Qed.

Lemma applyEventBody_key st e :
  s_LastKeyVersion (applyEventBody st e) =
    if e_Type e == GroupEventTypeKeyRotate then e_KeyVersion e else s_LastKeyVersion st.
Proof.
  unfold applyEventBody.
  destruct (decide (e_Type e = GroupEventTypeKeyRotate)) as [->|Hne].
  - done.
  - rewrite (bool_decide_false (e_Type e = GroupEventTypeKeyRotate)) by done.
    by repeat case_bool_decide.
Qed.

Lemma apply_wf st e : wf_event e -> wf_state st -> wf_state (fst (applyGroupEvent st e)).
Proof.
  intros [He Hk] Hst. destruct (apply_cases st e) as [[Ha ->]|(-> & _)]; [|done].
  destruct Ha as [Hv Hi Hg Hf Hn]. cbn. constructor; cbn.
  - by rewrite applyEventBody_group_id.
  - intros id. rewrite applyEventBody_applied.
    intros [->%elem_of_singleton|Hid]%elem_of_union;
      [by apply validate_event_id|by apply (wf_applied _ Hst)].
  - rewrite applyEventBody_group_id. by apply applyEventBody_members_wf.
  - done.
  - rewrite applyEventBody_key. case_bool_decide; [done|apply (wf_key _ Hst)].
Qed.

(** ** Properties of event application *)

(** [ApplyGroupEvent] keeps a group state well formed, whatever the event and
    whatever the outcome: members are stored under their own non-blank identifier,
    belong to the group and have a valid role and status, the recorded event
    identifiers are not blank, and the counters stay within their width. *)
Theorem ApplyGroupEvent_preserves_wf (st : GroupState) (e : GroupEvent) :
  wf_event e -> wf_state st ->
  exists st', fst (ApplyGroupEvent (Some st) e) = Some st' /\ wf_state st'.
Proof.
  intros He Hst. exists (fst (applyGroupEvent st e)). split; [|by apply apply_wf].
  unfold ApplyGroupEvent. by destruct (applyGroupEvent st e).
Qed.

Lemma deliver_app st l1 l2 : deliver st (l1 ++ l2)%list = deliver (deliver st l1) l2.
Proof. apply fold_left_app. Qed.

Lemma deliver_cons st e es : deliver st (e :: es) = deliver (fst (applyGroupEvent st e)) es.
Proof. done. Qed.

Lemma deliver_group_id st es : g_ID (s_Group (deliver st es)) = g_ID (s_Group st).
Proof.
  revert st. induction es as [|e es IH]; intros st; [done|].
  by rewrite deliver_cons, IH, apply_group_id.
Qed.

Lemma deliver_applied_mono st es : s_AppliedEventIDs st ⊆ s_AppliedEventIDs (deliver st es).
Proof.
  revert st. induction es as [|e es IH]; intros st; [done|].
  rewrite deliver_cons. etransitivity; [apply apply_applied_mono|apply IH].
Qed.

(** An event takes effect at most once. Once it has been applied, then after any
    further events in any order, applying it again reports a duplicate
    ([applied = false], no error) and leaves the state as it is. *)
Theorem applied_event_is_never_reapplied (st st' : GroupState) (e : GroupEvent)
    (later : list GroupEvent) :
  applyGroupEvent st e = (st', Ok true) ->
  applyGroupEvent (deliver st' later) e = (deliver st' later, Ok false).
Proof.
  intros H. destruct (apply_true _ _ _ H) as [[Hv Hi Hg Hf Hn] ->].
  set (st1 := commitEvent (applyEventBody st e) e).
  assert (Hid : g_ID (s_Group (deliver st1 later)) = g_ID (s_Group st))
    by (rewrite deliver_group_id; apply applyEventBody_group_id).
  assert (Hin : e_ID e ∈ s_AppliedEventIDs (deliver st1 later)).
  { apply (deliver_applied_mono st1 later). cbn. set_solver. }
  unfold applyGroupEvent. rewrite Hv, Hid, (bool_decide_false _ Hi), (bool_decide_true _ Hg).
  cbn. by rewrite (bool_decide_true _ Hin).
Qed.

(** A canonical history of a group from the state [s0] on: one event per version, with
    fresh, pairwise different identifiers. *)
Record canonical_log (s0 : GroupState) (log : list GroupEvent) : Prop := {
  cl_versions : forall i e, log !! i = Some e -> e_Version e = s_Version s0 + 1 + Z.of_nat i;
  cl_range : 0 <= s_Version s0 /\ s_Version s0 + Z.of_nat (length log) < 2 ^ 64;
  cl_nodup : NoDup (e_ID <$> log);
  cl_fresh : forall e, e ∈ log -> e_ID e ∉ s_AppliedEventIDs s0
}.

(** The replica [s] has applied exactly the first [k] events of the log. *)
Record at_prefix (s0 : GroupState) (log : list GroupEvent) (s : GroupState) (k : nat) : Prop := {
  ap_bound : (k <= length log)%nat;
  ap_state : s = deliver s0 (take k log);
  ap_version : s_Version s = s_Version s0 + Z.of_nat k;
  ap_ids : forall id, id ∈ s_AppliedEventIDs s <->
             id ∈ s_AppliedEventIDs s0 \/ id ∈ e_ID <$> take k log
}.

Lemma log_id_in_prefix log i k e :
  NoDup (e_ID <$> log) -> log !! i = Some e ->
  e_ID e ∈ e_ID <$> take k log <-> (i < k)%nat.
Proof.
  intros Hnd Hi. rewrite list_elem_of_fmap. split.
  - intros (e' & Heq & (j & Hj)%list_elem_of_lookup).
    apply lookup_take_Some in Hj as [Hj Hlt].
    assert (i = j); [|lia]. apply (NoDup_lookup _ i j (e_ID e) Hnd);
      rewrite list_lookup_fmap; [by rewrite Hi|by rewrite Hj, Heq].
  - intros Hlt. exists e. split; [done|]. apply list_elem_of_lookup. exists i.
    by rewrite lookup_take_lt.
Qed.

Lemma at_prefix_step s0 log s k e :
  canonical_log s0 log -> at_prefix s0 log s k -> e ∈ log ->
  exists k', at_prefix s0 log (fst (applyGroupEvent s e)) k'.
Proof.
  intros [Hver [H0 Hmax] Hnd Hfresh] [Hk Hs Hv Hids] Hin.
  destruct (apply_cases s e) as [[Ha Happ]|(-> & _)]; [|by exists k].
  apply list_elem_of_lookup in Hin as [i Hi].
  pose proof (lookup_lt_Some _ _ _ Hi) as Hlt.
  destruct Ha as [_ _ _ Hf Hn].
  assert (i = k) as ->.
  { rewrite (Hver _ _ Hi), Hv in Hn.
    destruct (decide (s_Version s0 + Z.of_nat k + 1 < 2 ^ 64)) as [Hsm|Hov].
    - rewrite u64_small in Hn by lia. lia.
    - replace (s_Version s0 + Z.of_nat k + 1) with (2 ^ 64) in Hn by lia.
      change (u64 (2 ^ 64)) with 0 in Hn. lia. }
  exists (S k). constructor; [lia|..]; rewrite ?(take_S_r _ _ _ Hi).
  - rewrite deliver_app, <- Hs. done.
  - rewrite Happ. cbn. rewrite (Hver _ _ Hi). lia.
  - intros id. rewrite Happ, fmap_app, elem_of_app. cbn.
    rewrite applyEventBody_applied, elem_of_union, Hids, elem_of_singleton.
    rewrite list_elem_of_singleton. tauto.
Qed.

Lemma deliveries_reach_prefix s0 log ds :
  canonical_log s0 log -> (forall d, d ∈ ds -> d ∈ log) ->
  exists k, at_prefix s0 log (deliver s0 ds) k.
Proof.
  intros Hl Hds. induction ds as [|d ds IH] using rev_ind.
  - exists 0%nat. constructor; cbn; [lia|done|lia|]. intros id.
    split; [tauto|]. intros [?|?]; [done|]. by apply not_elem_of_nil in H.
  - destruct IH as [k Hk]; [intros d' Hd'; apply Hds, elem_of_app; by left|].
    rewrite deliver_app. apply (at_prefix_step _ _ _ k); try done.
    apply Hds, elem_of_app. right. by apply list_elem_of_singleton.
Qed.

(** C7: Replicas converge. Two replicas that start from the same state and receive events of
    one history, each in its own order, with losses and repetitions, are in the
    same state as soon as they report the same version. *)
Theorem replicas_converge (s0 : GroupState) (log ds1 ds2 : list GroupEvent) :
  canonical_log s0 log ->
  (forall d, d ∈ ds1 -> d ∈ log) -> (forall d, d ∈ ds2 -> d ∈ log) ->
  s_Version (deliver s0 ds1) = s_Version (deliver s0 ds2) ->
  deliver s0 ds1 = deliver s0 ds2.
Proof.
  intros Hl H1 H2 Hv.
  destruct (deliveries_reach_prefix _ _ _ Hl H1) as [k1 [_ Hs1 Hv1 _]].
  destruct (deliveries_reach_prefix _ _ _ Hl H2) as [k2 [_ Hs2 Hv2 _]].
  assert (k1 = k2) as -> by lia. by rewrite Hs1, Hs2.
Qed.

(** ** The member life cycle *)

(** What an event does to the record of the member it names. *)
Definition memberEffect (gid : string) (e : GroupEvent) (o : option GroupMember)
    : option GroupMember :=
  if e_Type e == GroupEventTypeMemberAdd then Some (memberAfterAdd gid e o)
  else if e_Type e == GroupEventTypeMemberRemove
  then Some (memberAfterDrop gid e GroupMemberStatusRemoved o)
  else if e_Type e == GroupEventTypeMemberLeave
  then Some (memberAfterDrop gid e GroupMemberStatusLeft o)
  else o.

Lemma applyEventBody_lookup st e k :
  wf_state st ->
  s_Members (applyEventBody st e) !! k =
    if decide (k = TrimSpace (e_MemberID e))
    then memberEffect (g_ID (s_Group st)) e (s_Members st !! k)
    else s_Members st !! k.
Proof.
  intros Hst. unfold applyEventBody, memberEffect.
  assert (Hkey : m_MemberID (memberAfterAdd (g_ID (s_Group st)) e
            (s_Members st !! TrimSpace (e_MemberID e))) = TrimSpace (e_MemberID e)).
  { destruct (s_Members st !! TrimSpace (e_MemberID e)) as [m|] eqn:E; [|done].
    pose proof (wf_members _ Hst _ _ E) as [Hk _ _ _ _].
    cbn. repeat case_bool_decide; cbn; done. }
  repeat case_bool_decide; cbn; rewrite ?Hkey;
    (destruct (decide (k = TrimSpace (e_MemberID e))) as [->|Hne];
     [by rewrite ?lookup_insert_eq|by rewrite ?lookup_insert_ne]).
Qed.

Definition member_status (st : GroupState) (k : string) : option string :=
  m_Status <$> s_Members st !! k.

(** The life cycle an event can take a member through. *)
Inductive status_step : option string -> option string -> Prop :=
| ss_same o : status_step o o
| ss_invite : status_step None (Some GroupMemberStatusInvited)
| ss_accept : status_step (Some GroupMemberStatusInvited) (Some GroupMemberStatusActive)
| ss_reinvite_left : status_step (Some GroupMemberStatusLeft) (Some GroupMemberStatusInvited)
| ss_reinvite_removed :
    status_step (Some GroupMemberStatusRemoved) (Some GroupMemberStatusInvited)
| ss_remove o : status_step o (Some GroupMemberStatusRemoved)
| ss_leave o : status_step o (Some GroupMemberStatusLeft).

Lemma memberEffect_status gid e o :
  status_step (m_Status <$> o) (m_Status <$> memberEffect gid e o).
Proof.
  unfold memberEffect. repeat case_bool_decide; try constructor.
  destruct o as [m|]; cbn; [|constructor].
  case_bool_decide as Hi.
  { rewrite Hi. case_bool_decide; cbn; constructor. }
  case_bool_decide as Hl; [rewrite Hl; constructor|].
  case_bool_decide as Hr; [rewrite Hr; constructor|]. constructor.
Qed.

(** Every application of an event moves every member along the life cycle
    [status_step]: unknown to invited, invited to active, left or removed back to invited,
    and from anywhere to left or removed; nothing else changes a status. *)
Theorem apply_follows_lifecycle (st : GroupState) (e : GroupEvent) (k : string) :
  wf_state st ->
  status_step (member_status st k) (member_status (fst (applyGroupEvent st e)) k).
Proof.
  intros Hst. unfold member_status.
  destruct (apply_cases st e) as [[_ ->]|(-> & _)]; [|constructor].
  cbn. rewrite applyEventBody_lookup by done.
  destruct (decide _) as [->|]; [apply memberEffect_status|constructor].
Qed.

(** Nobody is made an active member by somebody else: a member that becomes active was
    invited, and the event that activates it is its own [member_add]. *)
Theorem activation_needs_own_event (st st' : GroupState) (e : GroupEvent) (k : string) :
  wf_state st -> applyGroupEvent st e = (st', Ok true) ->
  member_status st' k = Some GroupMemberStatusActive ->
  member_status st k = Some GroupMemberStatusActive
  \/ (member_status st k = Some GroupMemberStatusInvited
      /\ e_Type e = GroupEventTypeMemberAdd
      /\ TrimSpace (e_MemberID e) = k /\ TrimSpace (e_ActorID e) = k).
Proof.
  intros Hst H. destruct (apply_true _ _ _ H) as [_ ->]. unfold member_status. cbn.
  rewrite applyEventBody_lookup by done.
  destruct (decide (k = _)) as [->|]; [|by left].
  unfold memberEffect. case_bool_decide as Ht; [|repeat case_bool_decide; cbn; by auto].
  destruct (s_Members st !! _) as [m|]; cbn; [|done].
  case_bool_decide as Hi; [case_bool_decide as Ha; cbn; intros; [|by left]|].
  - right. by rewrite Hi.
  - repeat case_bool_decide; cbn; by auto.
Qed.

(** [ApplyGroupEvent] lets a member that was removed be invited again, a transition
    [ValidateGroupMemberStatusTransition] and its comment call impossible: the
    transition table is not what the event application enforces. *)
Theorem removed_is_not_terminal (st st' : GroupState) (e : GroupEvent) (m : GroupMember) :
  wf_state st ->
  s_Members st !! TrimSpace (e_MemberID e) = Some m ->
  m_Status m = GroupMemberStatusRemoved ->
  e_Type e = GroupEventTypeMemberAdd ->
  applyGroupEvent st e = (st', Ok true) ->
  member_status st' (TrimSpace (e_MemberID e)) = Some GroupMemberStatusInvited
  /\ ValidateGroupMemberStatusTransition GroupMemberStatusRemoved GroupMemberStatusInvited
     = Some ErrInvalidGroupMemberStatusTransition.
Proof.
  intros Hst Hm Hr Ht H. split; [|done].
  destruct (apply_true _ _ _ H) as [_ ->]. unfold member_status. cbn.
  rewrite applyEventBody_lookup, decide_True, Hm by done.
  unfold memberEffect. rewrite Ht. cbn. by rewrite Hr.
Qed.

(** ** Concrete states for the witnesses *)

Definition ex_group : Group := mkGroup "g1" "team" "" "" "alice" 1 1.

Definition ex_member (id role status : string) : GroupMember :=
  mkGroupMember "g1" id role status 1 1 1.

Definition ex_state : GroupState :=
  mkGroupState ex_group 3 {["e1"; "e2"; "e3"]}
    (<["alice" := ex_member "alice" "owner" "active"]>
      (<["bob" := ex_member "bob" "user" "invited"]>
        (<["carol" := ex_member "carol" "user" "removed"]> ∅))) 1.

Definition ex_add (id : string) (v : Z) (actor member role : string) : GroupEvent :=
  mkGroupEvent id "g1" v GroupEventTypeMemberAdd actor 5 member role "" "" "" 0.

Lemma ex_state_wf : wf_state ex_state.
Proof.
  constructor; cbn; try lia.
  - done.
  - intros id. rewrite !elem_of_union, !elem_of_singleton. by intros [[->| ->]| ->].
  - repeat (apply map_Forall_insert_2; [constructor; done|]). apply map_Forall_empty.
Qed.

Lemma ApplyGroupEvent_preserves_wf_witness :
  exists st', fst (ApplyGroupEvent (Some ex_state) (ex_add "e4" 4 "bob" "bob" "user")) = Some st'
              /\ wf_state st'.
Proof.
  apply (ApplyGroupEvent_preserves_wf ex_state (ex_add "e4" 4 "bob" "bob" "user")).
  - split; cbn; lia.
  - apply ex_state_wf.
Defined.

Lemma applied_event_is_never_reapplied_witness :
  applyGroupEvent
    (deliver (fst (applyGroupEvent ex_state (ex_add "e4" 4 "bob" "bob" "user")))
       [ex_add "e5" 5 "alice" "dave" "user"])
    (ex_add "e4" 4 "bob" "bob" "user")
  = (deliver (fst (applyGroupEvent ex_state (ex_add "e4" 4 "bob" "bob" "user")))
       [ex_add "e5" 5 "alice" "dave" "user"], Ok false).
Proof.
  apply (applied_event_is_never_reapplied ex_state
           (fst (applyGroupEvent ex_state (ex_add "e4" 4 "bob" "bob" "user")))
           (ex_add "e4" 4 "bob" "bob" "user") [ex_add "e5" 5 "alice" "dave" "user"]).
  vm_compute. reflexivity.
Defined.

Definition ex_log : list GroupEvent :=
  [ex_add "e4" 4 "bob" "bob" "user"; ex_add "e5" 5 "alice" "dave" "user"].

Lemma ex_log_canonical : canonical_log ex_state ex_log.
Proof.
  constructor.
  - intros [|[|i]] e; cbn; [intros [= <-]; done|intros [= <-]; done|done].
  - cbn. lia.
  - apply (bool_decide_eq_true_1 _). vm_compute. reflexivity.
  - intros e He. repeat (apply elem_of_cons in He as [->|He]; [vm_compute; done|]).
    by apply not_elem_of_nil in He.
Qed.

Lemma replicas_converge_witness :
  deliver ex_state [ex_add "e5" 5 "alice" "dave" "user"; ex_add "e4" 4 "bob" "bob" "user"]
  = deliver ex_state [ex_add "e4" 4 "bob" "bob" "user"; ex_add "e4" 4 "bob" "bob" "user"].
Proof.
  apply (replicas_converge ex_state ex_log).
  - apply ex_log_canonical.
  - unfold ex_log. set_solver.
  - unfold ex_log. set_solver.
  - vm_compute. reflexivity.
Defined.

Lemma apply_follows_lifecycle_witness :
  status_step (member_status ex_state "bob")
    (member_status (fst (applyGroupEvent ex_state (ex_add "e4" 4 "bob" "bob" "user"))) "bob").
Proof. apply (apply_follows_lifecycle ex_state). apply ex_state_wf. Defined.

Lemma activation_needs_own_event_witness :
  member_status ex_state "bob" = Some GroupMemberStatusActive
  \/ (member_status ex_state "bob" = Some GroupMemberStatusInvited
      /\ GroupEventTypeMemberAdd = GroupEventTypeMemberAdd
      /\ TrimSpace " bob" = "bob" /\ TrimSpace "bob " = "bob").
Proof.
  apply (activation_needs_own_event ex_state
           (fst (applyGroupEvent ex_state (ex_add "e4" 4 "bob " " bob" "user")))
           (ex_add "e4" 4 "bob " " bob" "user") "bob").
  - apply ex_state_wf.
  - vm_compute. reflexivity.
  - vm_compute. reflexivity.
Defined.

Lemma removed_is_not_terminal_witness :
  member_status (fst (applyGroupEvent ex_state (ex_add "e4" 4 "alice" "carol" "user"))) "carol"
    = Some GroupMemberStatusInvited
  /\ ValidateGroupMemberStatusTransition GroupMemberStatusRemoved GroupMemberStatusInvited
     = Some ErrInvalidGroupMemberStatusTransition.
Proof.
  apply (removed_is_not_terminal ex_state
           (fst (applyGroupEvent ex_state (ex_add "e4" 4 "alice" "carol" "user")))
           (ex_add "e4" 4 "alice" "carol" "user") (ex_member "carol" "user" "removed")).
  - apply ex_state_wf.
  - vm_compute. reflexivity.
  - reflexivity.
  - reflexivity.
  - vm_compute. reflexivity.
Defined.
