(* ===== verification/Wire.v ===== *)
(** * The wire format of private messages

    Models contracts/infra_ports.go ([WirePayload]), contracts/errors.go, and of
    internal/domains/messaging the policies (policy/wire_validation.go, policy/message_rules.go)
    and the functions of usecase/flows.go that neither keep state nor publish: what a payload has
    to look like, what is signed of it, how contents, receipts and stored messages are made
    of it. encoding/json is an interface. *)
From S2P Require Import Prelude SecureStore Session Identity MessageStore GroupModel.
From stdpp Require Import base gmap strings list sets option.
From Stdlib Require Import ZArith Lia.
Open Scope string_scope.
Open Scope Z_scope.
Open Scope go_scope.

(** ** Data *)

Record MessageReceipt := mkReceipt { rc_MessageID : string; rc_Status : string; rc_Timestamp : Z }.

(** Pointers are options. *)
Record WirePayload := mkWirePayload {
  wp_Kind : string; wp_Envelope : MessageEnvelope; wp_Plain : list Z; wp_Padding : string;
  wp_ConversationID : string; wp_ConversationType : string; wp_ThreadID : string;
  wp_EventID : string; wp_EventType : string; wp_MembershipVersion : Z; wp_GroupKeyVersion : Z;
  wp_SenderDeviceID : string; wp_Card : option ContactCard; wp_Receipt : option MessageReceipt;
  wp_Device : option Device; wp_DeviceSig : list Z; wp_Revocation : option DeviceRevocation
}.

Definition zeroEnvelope : MessageEnvelope := mkMsgEnvelope 0 "" "" [] 0 0 [] [] 0.
Definition zeroWire : WirePayload :=
  mkWirePayload "" zeroEnvelope [] "" "" "" "" "" "" 0 0 "" None None None [] None.

(** The assignments to single fields. *)
Definition with_wp_padding (w : WirePayload) (p : string) : WirePayload :=
  mkWirePayload (wp_Kind w) (wp_Envelope w) (wp_Plain w) p (wp_ConversationID w)
    (wp_ConversationType w) (wp_ThreadID w) (wp_EventID w) (wp_EventType w)
    (wp_MembershipVersion w) (wp_GroupKeyVersion w) (wp_SenderDeviceID w) (wp_Card w)
    (wp_Receipt w) (wp_Device w) (wp_DeviceSig w) (wp_Revocation w).
Definition with_wp_thread (w : WirePayload) (t : string) : WirePayload :=
  mkWirePayload (wp_Kind w) (wp_Envelope w) (wp_Plain w) (wp_Padding w) (wp_ConversationID w)
    (wp_ConversationType w) t (wp_EventID w) (wp_EventType w)
    (wp_MembershipVersion w) (wp_GroupKeyVersion w) (wp_SenderDeviceID w) (wp_Card w)
    (wp_Receipt w) (wp_Device w) (wp_DeviceSig w) (wp_Revocation w).
Definition with_wp_card (w : WirePayload) (c : option ContactCard) : WirePayload :=
  mkWirePayload (wp_Kind w) (wp_Envelope w) (wp_Plain w) (wp_Padding w) (wp_ConversationID w)
    (wp_ConversationType w) (wp_ThreadID w) (wp_EventID w) (wp_EventType w)
    (wp_MembershipVersion w) (wp_GroupKeyVersion w) (wp_SenderDeviceID w) c
    (wp_Receipt w) (wp_Device w) (wp_DeviceSig w) (wp_Revocation w).
Definition with_wp_device (w : WirePayload) (d : option Device) (sig : list Z) : WirePayload :=
  mkWirePayload (wp_Kind w) (wp_Envelope w) (wp_Plain w) (wp_Padding w) (wp_ConversationID w)
    (wp_ConversationType w) (wp_ThreadID w) (wp_EventID w) (wp_EventType w)
    (wp_MembershipVersion w) (wp_GroupKeyVersion w) (wp_SenderDeviceID w) (wp_Card w)
    (wp_Receipt w) d sig (wp_Revocation w).

(** messaging/usecase/inbound_message.go, and waku's [PrivateMessage], which has the same fields *)
Record InboundPrivateMessage := mkInboundPrivate {
  im_ID : string; im_SenderID : string; im_Recipient : string; im_Payload : list Z
}.
Abbreviation PrivateMessage := InboundPrivateMessage (only parsing).

(** ** contracts/errors.go *)

Definition ErrorCategoryAPI : string := "api".
Definition ErrorCategoryCrypto : string := "crypto".
Definition ErrorCategoryStorage : string := "storage".
Definition ErrorCategoryNetwork : string := "network".

(** errors.As for a [CategorizedError]; joined errors are searched in order. *)
Fixpoint asCategorized (err : error) : option (string * error) :=
  match err with
  | categorizedError category e => Some (category, e)
  | errorsJoin e1 e2 =>
      match asCategorized e1 with Some c => Some c | None => asCategorized e2 end
  | _ => None
  end.

Section Errors.
Context {lower : GoLower}.

Definition normalizeErrorCategory (category : string) : string :=
  let category := ToLower (TrimSpace category) in
  if category == ErrorCategoryCrypto then ErrorCategoryCrypto else
  if category == ErrorCategoryStorage then ErrorCategoryStorage else
  if category == ErrorCategoryNetwork then ErrorCategoryNetwork else ErrorCategoryAPI.

Definition WrapCategorizedError (category : string) (err : error) : error :=
  match asCategorized err with
  | Some (existing, e) => categorizedError (normalizeErrorCategory existing) e
  | None => categorizedError (normalizeErrorCategory category) err
  end.

Definition ErrorCategory (err : error) : string :=
  match asCategorized err with
  | Some (category, _) => normalizeErrorCategory category
  | None => ErrorCategoryAPI
  end.
End Errors.

(** ** policy/wire_validation.go *)

Definition GroupWireEventTypeMessage : string := "message".

(** [None] for a nil error. *)
Definition ValidateWirePayload (wire : WirePayload) : option error :=
  let invalid := Some ErrInvalidGroupWirePayload in
  let conversationType := TrimSpace (wp_ConversationType wire) in
  if negb ((conversationType == "") || (conversationType == ConversationTypeDirect)
           || (conversationType == ConversationTypeGroup)) then invalid else
  let hasGroupMetadata :=
    negb (TrimSpace (wp_EventID wire) == "") || negb (TrimSpace (wp_EventType wire) == "")
    || (0 <? wp_MembershipVersion wire) || (0 <? wp_GroupKeyVersion wire)
    || negb (TrimSpace (wp_SenderDeviceID wire) == "") in
  let isGroup := (conversationType == ConversationTypeGroup) || hasGroupMetadata in
  if negb isGroup then None else
  if negb (conversationType == ConversationTypeGroup) then invalid else
  if TrimSpace (wp_ConversationID wire) == "" then invalid else
  if TrimSpace (wp_EventID wire) == "" then invalid else
  if TrimSpace (wp_SenderDeviceID wire) == "" then invalid else
  if wp_MembershipVersion wire =? 0 then invalid else
  let eventType := TrimSpace (wp_EventType wire) in
  if eventType == GroupWireEventTypeMessage then
    if wp_GroupKeyVersion wire =? 0 then invalid else None
  else match ParseGroupEventType eventType with Err _ => invalid | Ok _ => None end.

(** ** policy/message_rules.go (the rule for listing messages is in [Inbox]) *)

Definition ValidateEditMessageInput (contactID messageID content : string)
    : result error (string * string * string) :=
  let contactID := TrimSpace contactID in
  let messageID := TrimSpace messageID in
  let content := TrimSpace content in
  if (contactID == "") || (messageID == "") || (content == "")
  then Err (errorsNew "contact id, message id and content are required")
  else Ok (contactID, messageID, content).

Definition EnsureEditableMessage (msg : Message) (found : bool) (contactID : string) : option error :=
  if negb found then Some (errorsNew "message not found") else
  if negb (msg_ContactID msg == contactID)
  then Some (errorsNew "message does not belong to contact") else
  if negb (msg_Direction msg == "out")
  then Some (errorsNew "only outbound messages can be edited") else None.

Definition ValidateMessageStatusID (messageID : string) : result error string :=
  let messageID := TrimSpace messageID in
  if messageID == "" then Err (errorsNew "message id is required") else Ok messageID.

(** The identifier and the status. *)
Definition BuildMessageStatus (msg : Message) (found : bool) : result error (string * string) :=
  if negb found then Err (errorsNew "message not found") else Ok (msg_ID msg, msg_Status msg).

Definition ValidateSendMessageInput (contactID content : string) : result error (string * string) :=
  let contactID := TrimSpace contactID in
  let content := TrimSpace content in
  if (contactID == "") || (content == "")
  then Err (errorsNew "contact id and content are required") else Ok (contactID, content).

Definition NewOutboundMessage (messageID contactID content : string) (now : Z) : Message :=
  mkMessage messageID contactID contactID ConversationTypeDirect "" (string_bytes content) now
    "out" "pending" "text" false.

Definition ShouldAutoMarkRead (msg : Message) : bool :=
  (msg_Direction msg == "in") && negb (msg_Status msg == "read").

Definition NormalizeDeviceID (deviceID : string) : string := TrimSpace deviceID.
Definition NormalizeSessionContactID (contactID : string) : string := TrimSpace contactID.

Definition EnsureVerifiedContact (verified : bool) : option error :=
  if negb verified then Some (errorsNew "contact is not verified") else None.

(** ** usecase/flows.go *)

Definition ShouldApplyReceiptStatus (status : string) : bool :=
  (status == "delivered") || (status == "read").

(** [decrypted] is what the session manager returns for the envelope. *)
Definition ResolveInboundContent (msg : InboundPrivateMessage) (wire : WirePayload)
    (decrypted : result error (list Z)) : list Z * string * option error :=
  if wp_Kind wire == "plain" then (wp_Plain wire, "text", None) else
  if wp_Kind wire == "e2ee" then
    match decrypted with
    | Err err => (im_Payload msg, "e2ee-unreadable", Some err)
    | Ok plain => (plain, "e2ee", None)
    end
  else (im_Payload msg, "text", None).

Definition BuildInboundStoredMessage (msg : InboundPrivateMessage) (threadID : string)
    (content : list Z) (contentType : string) (now : Z) : Message :=
  mkMessage (im_ID msg) (im_SenderID msg) (im_SenderID msg) ConversationTypeDirect
    (TrimSpace threadID) content now "in" "delivered" contentType false.

Definition BuildInboundGroupStoredMessage (msg : InboundPrivateMessage)
    (conversationID threadID : string) (content : list Z) (contentType : string) (now : Z)
    : Message :=
  mkMessage (im_ID msg) (im_SenderID msg) (TrimSpace conversationID) ConversationTypeGroup
    (TrimSpace threadID) content now "in" "delivered" contentType false.

(** The zero value of [InboundReceiptHandling] is one that is not handled. *)
Record InboundReceiptHandling := mkHandling {
  rh_Handled : bool; rh_ShouldUpdate : bool; rh_MessageID : string; rh_Status : string
}.

Definition ResolveInboundReceiptHandling (wire : WirePayload) : InboundReceiptHandling :=
  if negb (wp_Kind wire == "receipt") then mkHandling false false "" "" else
  match wp_Receipt wire with
  | None => mkHandling false false "" ""
  | Some receipt =>
      if ShouldApplyReceiptStatus (rc_Status receipt)
      then mkHandling true true (rc_MessageID receipt) (rc_Status receipt)
      else mkHandling true false "" ""
  end.

Definition NewPlainWire (content : list Z) : WirePayload :=
  mkWirePayload "plain" zeroEnvelope content "" "" "" "" "" "" 0 0 "" None None None [] None.

(** [contracts.WirePayload{Kind: "e2ee", Envelope: env}] *)
Definition sealedWire (env : MessageEnvelope) : WirePayload :=
  mkWirePayload "e2ee" env [] "" "" "" "" "" "" 0 0 "" None None None [] None.

Definition NewReceiptWire (messageID status : string) (now : Z) : WirePayload :=
  mkWirePayload "receipt" zeroEnvelope [] "" "" "" "" "" "" 0 0 "" None
    (Some (mkReceipt messageID status now)) None [] None.

Definition RetryLoopTick : Z := Second.
Definition StartupRecoveryLookahead : Z := 24 * (60 * Minute).

(** The loop [for i := 1; i < retryCount; i++], by the number of its rounds. *)
Fixpoint growBackoff (rounds : nat) (backoff : Z) : Z :=
  match rounds with
  | O => backoff
  | S rounds =>
      let backoff := backoff * 2 in
      if 30 * Second <=? backoff then 30 * Second else growBackoff rounds backoff
  end.

Definition NextRetryTime (now retryCount : Z) : Z :=
  let retryCount := if retryCount <? 1 then 1 else retryCount in
  now + growBackoff (Z.to_nat (retryCount - 1)) (2 * Second).

(** ** What is signed *)

Record wireAuth := mkWireAuth {
  wa_MessageID : string; wa_SenderID : string; wa_Recipient : string; wa_Kind : string;
  wa_ConversationID : string; wa_ConversationType : string; wa_ThreadID : string;
  wa_EventID : string; wa_EventType : string; wa_MembershipVersion : Z; wa_GroupKeyVersion : Z;
  wa_SenderDeviceID : string; wa_Envelope : MessageEnvelope; wa_Plain : list Z;
  wa_Card : option ContactCard; wa_Receipt : option MessageReceipt;
  wa_Revocation : option DeviceRevocation
}.

Definition authOf (messageID senderID recipient : string) (wire : WirePayload) : wireAuth :=
  mkWireAuth messageID senderID recipient (wp_Kind wire) (TrimSpace (wp_ConversationID wire))
    (TrimSpace (wp_ConversationType wire)) (TrimSpace (wp_ThreadID wire))
    (TrimSpace (wp_EventID wire)) (TrimSpace (wp_EventType wire)) (wp_MembershipVersion wire)
    (wp_GroupKeyVersion wire) (TrimSpace (wp_SenderDeviceID wire)) (wp_Envelope wire)
    (wp_Plain wire) (wp_Card wire) (wp_Receipt wire) (wp_Revocation wire).

Section Auth.
Context {acodec : JsonCodec wireAuth}.

Definition BuildWireAuthPayload (messageID senderID recipient : string) (wire : WirePayload)
    : result error (list Z) :=
  match ValidateWirePayload wire with
  | Some err => Err err
  | None => marshalJSON (authOf messageID senderID recipient wire)
  end.

Context {wcodec : JsonCodec WirePayload} {crypto : IdentityCrypto} {lower : GoLower}.

(** The checks of a card by [ValidateInboundContactTrust] in both cases. *)
Definition checkCard (senderID : string) (card : ContactCard) : option (string * error) :=
  if negb (card_IdentityID card == senderID)
  then Some ("contact_card_identity_mismatch", errorsNew "contact card identity mismatch") else
  match VerifyContactCard card with
  | Err err => Some ("contact_card_verification_failed", err)
  | Ok false => Some ("contact_card_verification_failed", errorsNew "contact card verification failed")
  | Ok true => None
  end.

(** The violation, with its alert code. Between the two parts the contact stays as it is when
    the first part finds it verified. *)
Definition ValidateInboundContactTrust (now : Z) (senderID : string) (wire : WirePayload) (m : Manager)
    : Manager * option (string * error) :=
  if HasVerifiedContact m senderID then
    match wp_Card wire with
    | None => (m, None)
    | Some card =>
        match checkCard senderID card with
        | Some violation => (m, Some violation)
        | None =>
            match ContactPublicKey m senderID with
            | Some pinnedKey =>
                if negb (pinnedKey == card_PublicKey card)
                then (m, Some ("contact_key_pin_mismatch",
                               errorsNew "contact public key changed for verified contact"))
                else (m, None)
            | None => (m, None)
            end
        end
    end
  else
    match wp_Card wire with
    | None => (m, Some ("unverified_sender_missing_card",
                        errorsNew "unverified sender did not provide contact card"))
    | Some card =>
        match checkCard senderID card with
        | Some violation => (m, Some violation)
        | None =>
            match AddContact now card m with
            | (m, Err err) => (m, Some ("contact_key_pin_mismatch", err))
            | (m, Ok _) => (m, None)
            end
        end
    end.

Definition ValidateInboundDeviceAuth (m : Manager) (msg : InboundPrivateMessage) (wire : WirePayload)
    : panics (option error) :=
  match BuildWireAuthPayload (im_ID msg) (im_SenderID msg) (im_Recipient msg) wire with
  | Err err => Returns (Some (WrapCategorizedError ErrorCategoryAPI err))
  | Ok authPayload =>
      match wp_Device wire, wp_DeviceSig wire with
      | Some device, _ :: _ =>
          match VerifyInboundDevice m (im_SenderID msg) device authPayload (wp_DeviceSig wire) with
          | Panics => Panics
          | Returns None => Returns None
          | Returns (Some err) => Returns (Some (WrapCategorizedError ErrorCategoryCrypto err))
          end
      | _, _ => Returns (Some (WrapCategorizedError ErrorCategoryCrypto
                                 (errorsNew "missing device authentication")))
      end
  end.

Definition ComposeSignedPrivateMessage (m : Manager) (messageID recipient : string)
    (wire : WirePayload) : result error PrivateMessage :=
  let api {A} (r : result error A) :=
    match r with Ok a => Ok a | Err err => Err (WrapCategorizedError ErrorCategoryAPI err) end in
  match ValidateWirePayload wire with
  | Some err => Err (WrapCategorizedError ErrorCategoryAPI err)
  | None =>
      let localID := id_ID (im_identity m) in
      try! authPayload := api (BuildWireAuthPayload messageID localID recipient wire) in
      match ActiveDeviceAuth m authPayload with
      | Err err => Err (WrapCategorizedError ErrorCategoryCrypto err)
      | Ok (device, deviceSig) =>
          try! payload := api (marshalJSON (with_wp_device wire (Some device) deviceSig)) in
          Ok (mkInboundPrivate messageID localID recipient payload)
      end
  end.

(** ** Device revocations *)

Record RevocationFailure := mkRevFailure { rf_ContactID : string; rf_Category : string; rf_Err : error }.

Definition BuildDeviceRevocationPayload (rev : DeviceRevocation) : result error (list Z) :=
  marshalJSON (mkWirePayload "device_revoke" zeroEnvelope [] "" "" "" "" "" "" 0 0 "" None None
                 None [] (Some rev)).

(** By contact: the identifier that is drawn, and what publishing the message returns. *)
Fixpoint DispatchDeviceRevocation (localIdentityID : string) (contacts : list Contact)
    (payload : list Z) (outcomes : string -> result error string * option error)
    : list PrivateMessage * list RevocationFailure :=
  match contacts with
  | [] => ([], [])
  | c :: contacts =>
      let '(sent, failures) :=
        DispatchDeviceRevocation localIdentityID contacts payload outcomes in
      match outcomes (ct_ID c) with
      | (Err err, _) => (sent, mkRevFailure (ct_ID c) ErrorCategoryAPI err :: failures)
      | (Ok msgID, Some err) => (sent, mkRevFailure (ct_ID c) ErrorCategoryNetwork err :: failures)
      | (Ok msgID, None) =>
          (mkInboundPrivate msgID localIdentityID (ct_ID c) payload :: sent, failures)
      end
  end.

(** [Failures] by contact, a later one overwrites an earlier one; [None] when there is no failure. *)
Definition BuildDeviceRevocationDeliveryError (attempted : Z) (failures : list RevocationFailure)
    : option (Z * Z * gmap string error) :=
  match failures with
  | [] => None
  | _ =>
      let byContact := fold_left (fun m f => <[rf_ContactID f := rf_Err f]> m) failures ∅ in
      Some (attempted, Z.of_nat (size byContact), byContact)
  end.
End Auth.

(** ** Codecs to compute with

    One number per field, and one per byte of the padding, which is left out when it is empty. *)

Definition deviceZ (d : Device) : Z :=
  zenc [zs (dev_ID d); zs (dev_Name d); zenc (dev_PublicKey d); zenc (dev_CertSig d); dev_CreatedAt d;
        zb (dev_IsRevoked d); dev_RevokedAt d].
Definition undeviceZ (z : Z) : option Device :=
  match zdec z with
  | Some [a; b; c; d; e; f; g] =>
      Some (mkDevice (unzs a) (unzs b) (default [] (zdec c)) (default [] (zdec d)) e (unzb f) g)
  | _ => None
  end.

Definition cardZ (c : ContactCard) : Z :=
  zenc [zs (card_IdentityID c); zs (card_DisplayName c); zenc (card_PublicKey c); zenc (card_Signature c)].
Definition uncardZ (z : Z) : option ContactCard :=
  match zdec z with
  | Some [a; b; c; d] => Some (mkCard (unzs a) (unzs b) (default [] (zdec c)) (default [] (zdec d)))
  | _ => None
  end.

Definition receiptZ (r : MessageReceipt) : Z := zenc [zs (rc_MessageID r); zs (rc_Status r); rc_Timestamp r].
Definition unreceiptZ (z : Z) : option MessageReceipt :=
  match zdec z with Some [a; b; c] => Some (mkReceipt (unzs a) (unzs b) c) | _ => None end.

Definition revocationZ (r : DeviceRevocation) : Z :=
  zenc [zs (rev_IdentityID r); zs (rev_DeviceID r); rev_Timestamp r; zenc (rev_Signature r)].
Definition unrevocationZ (z : Z) : option DeviceRevocation :=
  match zdec z with
  | Some [a; b; c; d] => Some (mkRevocation (unzs a) (unzs b) c (default [] (zdec d)))
  | _ => None
  end.

Definition envelopeZ (e : MessageEnvelope) : Z :=
  zenc [me_Version e; zs (me_SessionID e); zs (me_MessageID e); zenc (me_RatchetPubKey e);
        me_ChainIndex e; me_PreviousCount e; zenc (me_Nonce e); zenc (me_Ciphertext e); me_SentAt e].
Definition unenvelopeZ (z : Z) : MessageEnvelope :=
  match zdec z with
  | Some [a; b; c; d; e; f; g; h; i] =>
      mkMsgEnvelope a (unzs b) (unzs c) (default [] (zdec d)) e f (default [] (zdec g))
        (default [] (zdec h)) i
  | _ => zeroEnvelope
  end.

(** An optional value: 0 for none. *)
Definition optZ {A} (f : A -> Z) (o : option A) : Z := match o with None => 0 | Some a => f a end.

Definition wireZ (w : WirePayload) : list Z :=
  [zs (wp_Kind w); envelopeZ (wp_Envelope w); zenc (wp_Plain w); zs (wp_ConversationID w);
   zs (wp_ConversationType w); zs (wp_ThreadID w); zs (wp_EventID w); zs (wp_EventType w);
   wp_MembershipVersion w; wp_GroupKeyVersion w; zs (wp_SenderDeviceID w); optZ cardZ (wp_Card w);
   optZ receiptZ (wp_Receipt w); optZ deviceZ (wp_Device w); zenc (wp_DeviceSig w);
   optZ revocationZ (wp_Revocation w)].

Definition unwireZ (l : list Z) (padding : string) : result error WirePayload :=
  match l with
  | [a; b; c; d; e; f; g; h; i; j; k; l; m; n; o; p] =>
      Ok (mkWirePayload (unzs a) (unenvelopeZ b) (default [] (zdec c)) padding (unzs d) (unzs e) (unzs f)
            (unzs g) (unzs h) i j (unzs k) (uncardZ l) (unreceiptZ m) (undeviceZ n)
            (default [] (zdec o)) (unrevocationZ p))
  | _ => Err (errorsNew "json")
  end.

Definition paddingZ (pad : string) : list Z :=
  if pad == "" then [] else 1 :: string_bytes pad.

#[export] Instance exWireCodec : JsonCodec WirePayload := {
  marshalJSON w := Ok (wireZ w ++ paddingZ (wp_Padding w))%list;
  unmarshalJSON l := unwireZ (take 16 l) (bytes_string (drop 17 l))
}.

#[export] Instance exAuthCodec : JsonCodec wireAuth := {
  marshalJSON a := Ok [zs (wa_MessageID a); zs (wa_SenderID a); zs (wa_Recipient a); zs (wa_Kind a);
    zs (wa_ConversationID a); zs (wa_ConversationType a); zs (wa_ThreadID a); zs (wa_EventID a);
    zs (wa_EventType a); wa_MembershipVersion a; wa_GroupKeyVersion a; zs (wa_SenderDeviceID a);
    envelopeZ (wa_Envelope a); zenc (wa_Plain a); optZ cardZ (wa_Card a); optZ receiptZ (wa_Receipt a);
    optZ revocationZ (wa_Revocation a)];
  unmarshalJSON _ := Err (errorsNew "json")
}.

Lemma optZ_back {A} (f : A -> Z) (g : Z -> option A) o :
  (forall a, g (f a) = Some a) -> g 0 = None -> g (optZ f o) = o.
Proof. intros Hf H0. destruct o; [apply Hf|exact H0]. Qed.

(** The codec reads back what it writes. *)
Lemma exWire_roundtrip (w : WirePayload) raw :
  marshalJSON w = Ok raw -> unmarshalJSON raw = Ok w.
Proof.
  intros [= <-]. cbn [unmarshalJSON exWireCodec]. unfold wireZ.
  change (drop 17 _) with (drop 1 (paddingZ (wp_Padding w))). cbn [app take unwireZ].
  rewrite !unzs_zs, !zdec_zenc. cbn [default]. unfold id.
  rewrite !optZ_back; try done;
    [|by intros []; unfold unrevocationZ, revocationZ; rewrite zdec_zenc, !unzs_zs, !zdec_zenc
     |by intros []; unfold undeviceZ, deviceZ; rewrite zdec_zenc, !unzs_zs, !zdec_zenc, unzb_zb
     |by intros []; unfold unreceiptZ, receiptZ; rewrite zdec_zenc, !unzs_zs
     |by intros []; unfold uncardZ, cardZ; rewrite zdec_zenc, !unzs_zs, !zdec_zenc].
  assert (He : unenvelopeZ (envelopeZ (wp_Envelope w)) = wp_Envelope w).
  { unfold unenvelopeZ, envelopeZ. rewrite zdec_zenc, !unzs_zs, !zdec_zenc. by destruct (wp_Envelope w). }
  rewrite He. replace (bytes_string (drop 1 (paddingZ (wp_Padding w)))) with (wp_Padding w); [by destruct w|].
  unfold paddingZ. case_bool_decide as Hp; [by rewrite Hp|]. symmetry. apply bytes_string_bytes.
Qed.
