(* ===== verification/RateLimiter.v ===== *)
(** * Rate limiting and group abuse protection

    Models internal/platform/ratelimiter/map_limiter.go (a token bucket per key with
    eviction of idle keys) and internal/domains/group/policy/abuse_protection.go (the
    three limiters of the group operations, their configuration from the environment
    and the invite quotas). The token bucket itself is golang.org/x/time/rate: its type,
    [NewLimiter] and [AllowN] are parameters, and so are the float64 rates. *)
From S2P Require Import Prelude GroupModel.
From stdpp Require Import base gmap strings list sets option.
From Stdlib Require Import ZArith Lia Ascii.
Open Scope string_scope.
Open Scope Z_scope.
Open Scope go_scope.

(** ** strconv.Atoi: an optional sign, then decimal digits, within the range of int. *)
Fixpoint parse_digits (l : list ascii) (acc : Z) : option Z :=
  match l with
  | [] => Some acc
  | a :: l' =>
      let n := Z.of_nat (byteN a) in
      if (48 <=? n) && (n <=? 57) then parse_digits l' (acc * 10 + (n - 48)) else None
  end.

Definition Atoi (s : string) : option Z :=
  let digits l := match l with [] => None | _ => parse_digits l 0 end in
  let in_range z := if (- 2 ^ 63 <=? z) && (z <? 2 ^ 63) then Some z else None in
  match String.list_ascii_of_string s with
  | a :: l =>
      if bool_decide (byteN a = 45%nat) then digits l ≫= fun z => in_range (- z)
      else if bool_decide (byteN a = 43%nat) then digits l ≫= in_range
      else digits (a :: l) ≫= in_range
  | [] => None
  end.

Section Limiter.
(** float64 rates: [rps <= 0], [strconv.ParseFloat] and the conversion of a constant. *)
Context {F : Type} (float_le0 : F -> bool) (ParseFloat : string -> option F)
        (float_of : Z -> F).
(** rate.Limiter *)
Context {L : Type} (NewLimiter : F -> Z -> L) (AllowN : L -> Z -> Z -> L * bool).

(** ** map_limiter.go *)

Record entry := mkEntry { limiter : L; lastSeen : Z }.

Record MapLimiter := mkMapLimiter {
  limit : F;
  burst : Z;
  byKey : gmap string entry;
  hits : Z;
  idleTTL : Z
}.

(** [New]: nil when the arguments are invalid. *)
Definition New (rps : F) (b : Z) (ttl : Z) : option MapLimiter :=
  if float_le0 rps || (b <=? 0) then None else
  let ttl := if ttl <=? 0 then 10 * Minute else ttl in
  Some (mkMapLimiter rps b ∅ 0 ttl).

(** [Allow], a call on a nil limiter included. *)
Definition Allow (l : option MapLimiter) (key : string) (now : Z)
    : option MapLimiter * bool :=
  match l with
  | None => (None, true)
  | Some l =>
      let key := TrimSpace key in
      if key == "" then (Some l, true) else
      let e := default (mkEntry (NewLimiter (limit l) (burst l)) now) (byKey l !! key) in
      let '(lim', allowed) := AllowN (limiter e) now 1 in
      let byKey1 := <[key := mkEntry lim' now]> (byKey l) in
      let hits1 := u64 (hits l + 1) in
      let cutoff := now - idleTTL l in
      let byKey2 :=
        if hits1 mod 512 =? 0
        then filter (fun kv => Before (lastSeen kv.2) cutoff = false) byKey1
        else byKey1 in
      (Some (mkMapLimiter (limit l) (burst l) byKey2 hits1 (idleTTL l)), allowed)
  end.

(** ** abuse_protection.go *)

Record abuseProtectionConfig := mkAbuseConfig {
  MaxMembers : Z;
  MaxPendingInvites : Z;
  InviteRateLimitRPS : F;
  InviteRateLimitBurst : Z;
  SendRateLimitRPS : F;
  SendRateLimitBurst : Z;
  MembershipRateLimitRPS : F;
  MembershipRateLimitBurst : Z
}.

Definition readPositiveIntEnv (getenv : string -> string) (key : string) (fallback : Z) : Z :=
  let raw := TrimSpace (getenv key) in
  if raw == "" then fallback else
  match Atoi raw with
  | None => fallback
  | Some parsed => if parsed <=? 0 then fallback else parsed
  end.

Definition readPositiveFloatEnv (getenv : string -> string) (key : string) (fallback : F) : F :=
  let raw := TrimSpace (getenv key) in
  if raw == "" then fallback else
  match ParseFloat raw with
  | None => fallback
  | Some parsed => if float_le0 parsed then fallback else parsed
  end.

Definition loadAbuseProtectionConfigFromEnv (getenv : string -> string)
    : abuseProtectionConfig :=
  let maxMembers := readPositiveIntEnv getenv "AIM_GROUP_MAX_MEMBERS" 128 in
  let maxPending := readPositiveIntEnv getenv "AIM_GROUP_MAX_PENDING_INVITES" 64 in
  mkAbuseConfig maxMembers
    (if maxMembers <? maxPending then maxMembers else maxPending)
    (readPositiveFloatEnv getenv "AIM_GROUP_INVITE_RATE_LIMIT_RPS" (float_of 100))
    (readPositiveIntEnv getenv "AIM_GROUP_INVITE_RATE_LIMIT_BURST" 200)
    (readPositiveFloatEnv getenv "AIM_GROUP_SEND_RATE_LIMIT_RPS" (float_of 200))
    (readPositiveIntEnv getenv "AIM_GROUP_SEND_RATE_LIMIT_BURST" 400)
    (readPositiveFloatEnv getenv "AIM_GROUP_MEMBERSHIP_RATE_LIMIT_RPS" (float_of 100))
    (readPositiveIntEnv getenv "AIM_GROUP_MEMBERSHIP_RATE_LIMIT_BURST" 200).

(** [operationRateLimiter] wraps a map limiter; a nil wrapper is [None]. *)
Definition newOperationRateLimiter (rps : F) (b : Z) : option MapLimiter :=
  New rps b (10 * Minute).

Definition operationAllow (l : option MapLimiter) (key : string) (now : Z)
    : option MapLimiter * bool :=
  match l with None => (None, true) | Some _ => Allow l key now end.

Record AbuseProtection := mkAbuse {
  cfg : abuseProtectionConfig;
  inviteLimiter : option MapLimiter;
  sendLimiter : option MapLimiter;
  membershipLimiter : option MapLimiter
}.

Definition NewAbuseProtectionFromEnv (getenv : string -> string) : AbuseProtection :=
  let c := loadAbuseProtectionConfigFromEnv getenv in
  mkAbuse c
    (newOperationRateLimiter (InviteRateLimitRPS c) (InviteRateLimitBurst c))
    (newOperationRateLimiter (SendRateLimitRPS c) (SendRateLimitBurst c))
    (newOperationRateLimiter (MembershipRateLimitRPS c) (MembershipRateLimitBurst c)).

Definition AllowInvite (p : AbuseProtection) (actorID : string) (now : Z)
    : AbuseProtection * bool :=
  let '(l, ok) := operationAllow (inviteLimiter p) actorID now in
  (mkAbuse (cfg p) l (sendLimiter p) (membershipLimiter p), ok).

Definition AllowSend (p : AbuseProtection) (actorID : string) (now : Z)
    : AbuseProtection * bool :=
  let '(l, ok) := operationAllow (sendLimiter p) actorID now in
  (mkAbuse (cfg p) (inviteLimiter p) l (membershipLimiter p), ok).

Definition AllowMembership (p : AbuseProtection) (actorID : string) (now : Z)
    : AbuseProtection * bool :=
  let '(l, ok) := operationAllow (membershipLimiter p) actorID now in
  (mkAbuse (cfg p) (inviteLimiter p) (sendLimiter p) l, ok).

Definition memberCount (ms : gmap string GroupMember) : Z :=
  Z.of_nat (size (filter (fun km => m_Status km.2 = GroupMemberStatusActive
                                    \/ m_Status km.2 = GroupMemberStatusInvited) ms)).

Definition pendingInvites (ms : gmap string GroupMember) : Z :=
  Z.of_nat (size (filter (fun km => m_Status km.2 = GroupMemberStatusInvited) ms)).

Definition EnforceInviteQuotas (p : AbuseProtection) (state : GroupState) : option error :=
  if MaxMembers (cfg p) <=? memberCount (s_Members state)
  then Some ErrGroupMemberLimitExceeded else
  if MaxPendingInvites (cfg p) <=? pendingInvites (s_Members state)
  then Some ErrGroupPendingInvitesLimitExceeded else None.

(** ** Properties *)

(** The keys of a limiter are independent. A call for one key leaves the entry of any
    other key as it was, or evicts it, and it evicts only an entry that has not been
    used for longer than [idleTTL]; the answer and the new bucket are those of the
    token bucket of the key alone, fresh when the key had none. *)
Theorem Allow_keys_independent (l : MapLimiter) (key : string) (now : Z) :
  TrimSpace key <> "" -> 0 <= idleTTL l ->
  exists l', Allow (Some l) key now =
    (Some l', snd (AllowN (limiter (default (mkEntry (NewLimiter (limit l) (burst l)) now)
                                      (byKey l !! TrimSpace key))) now 1))
  /\ byKey l' !! TrimSpace key =
      Some (mkEntry (fst (AllowN (limiter (default (mkEntry (NewLimiter (limit l) (burst l)) now)
                                      (byKey l !! TrimSpace key))) now 1)) now)
  /\ (forall k, k <> TrimSpace key ->
       byKey l' !! k = byKey l !! k
       \/ (byKey l' !! k = None
           /\ exists e, byKey l !! k = Some e /\ lastSeen e < now - idleTTL l)).
Proof.
  intros Hk Ht. unfold Allow. rewrite (bool_decide_false _ Hk).
  set (e := default _ _). destruct (AllowN (limiter e) now 1) as [lim' ok]. cbn.
  eexists. split; [done|]. cbn.
  destruct (u64 (hits l + 1) mod 512 =? 0).
  2:{ split; [by rewrite lookup_insert_eq|]. intros k Hne. left. by rewrite lookup_insert_ne. }
  split.
  - apply map_lookup_filter_Some. split; [by rewrite lookup_insert_eq|].
    cbn. unfold Before. lia.
  - intros k Hne.
    destruct (byKey l !! k) as [ek|] eqn:Ek.
    2:{ left. apply map_lookup_filter_None. left. by rewrite lookup_insert_ne. }
    destruct (Before (lastSeen ek) (now - idleTTL l)) eqn:Eb.
    + right. split; [|exists ek; unfold Before in Eb; split; [done|lia]].
      apply map_lookup_filter_None. right. intros x. rewrite lookup_insert_ne, Ek by done.
      intros [= <-]. cbn. by rewrite Eb.
    + left. apply map_lookup_filter_Some. by rewrite lookup_insert_ne.
Qed.

Lemma readPositiveIntEnv_pos getenv key fallback :
  0 < fallback -> 0 < readPositiveIntEnv getenv key fallback.
Proof.
  intros H. unfold readPositiveIntEnv. case_bool_decide; [done|].
  destruct (Atoi _) as [z|]; [|done]. destruct (z <=? 0) eqn:E; lia.
Qed.

Lemma readPositiveFloatEnv_pos getenv key fallback :
  float_le0 fallback = false -> float_le0 (readPositiveFloatEnv getenv key fallback) = false.
Proof.
  intros H. unfold readPositiveFloatEnv. case_bool_decide; [done|].
  destruct (ParseFloat _) as [z|]; [|done]. by destruct (float_le0 z) eqn:E.
Qed.

(** Whatever the environment holds, the loaded protection is usable: the member
    limit is positive, the invite limit is positive and not above it, and none of the
    three limiters is nil, so no variable can switch the rate limiting off. *)
Theorem abuse_protection_always_armed (getenv : string -> string) :
  (forall z, 0 < z -> float_le0 (float_of z) = false) ->
  let p := NewAbuseProtectionFromEnv getenv in
  0 < MaxPendingInvites (cfg p) <= MaxMembers (cfg p)
  /\ is_Some (inviteLimiter p) /\ is_Some (sendLimiter p) /\ is_Some (membershipLimiter p).
Proof.
  intros Hf p.
  assert (Hnew : forall f b g kf kb, 0 < f -> 0 < b ->
    is_Some (newOperationRateLimiter (readPositiveFloatEnv g kf (float_of f))
               (readPositiveIntEnv g kb b))).
  { intros f b g kf kb Hfp Hb. unfold newOperationRateLimiter, New.
    rewrite readPositiveFloatEnv_pos by by apply Hf. cbn.
    pose proof (readPositiveIntEnv_pos g kb b Hb) as Hp.
    destruct (_ <=? 0) eqn:E; [lia|]. eauto. }
  repeat split; try (apply Hnew; lia); cbn;
    pose proof (readPositiveIntEnv_pos getenv "AIM_GROUP_MAX_MEMBERS" 128 ltac:(lia));
    pose proof (readPositiveIntEnv_pos getenv "AIM_GROUP_MAX_PENDING_INVITES" 64 ltac:(lia));
    destruct (_ <? _) eqn:E; lia.
Qed.

Lemma EnforceInviteQuotas_None p st :
  EnforceInviteQuotas p st = None ->
  memberCount (s_Members st) < MaxMembers (cfg p)
  /\ pendingInvites (s_Members st) < MaxPendingInvites (cfg p).
Proof.
  unfold EnforceInviteQuotas.
  destruct (_ <=? memberCount _) eqn:E1; [done|].
  destruct (_ <=? pendingInvites _) eqn:E2; [done|]. lia.
Qed.
End Limiter.

Lemma size_filter_insert_le (P : string * GroupMember -> Prop) `{!forall x, Decision (P x)}
    (ms : gmap string GroupMember) k m :
  (size (filter P (<[k := m]> ms)) <= S (size (filter P ms)))%nat.
Proof.
  destruct (decide (P (k, m))) as [Hp|Hp].
  - rewrite map_filter_insert_True by done.
    rewrite map_size_insert. destruct (filter P ms !! k); cbn; lia.
  - rewrite map_filter_insert_False by done.
    assert (filter P (delete k ms) ⊆ filter P ms) as Hs.
    { apply map_filter_subseteq_mono, delete_subseteq. }
    apply map_subseteq_size in Hs. lia.
Qed.

Arguments entry : clear implicits.
Arguments MapLimiter : clear implicits.
Arguments abuseProtectionConfig : clear implicits.
Arguments AbuseProtection : clear implicits.

(** A bucket without refill, enough to run the examples: the state is the number of
    tokens left. *)
Definition ex_NewLimiter (_ b : Z) : Z := b.
Definition ex_AllowN (l _ n : Z) : Z * bool := if n <=? l then (l - n, true) else (l, false).

Definition ex_limiter : MapLimiter Z Z :=
  mkMapLimiter 5 2 {["bob" := mkEntry 0 7]} 511 100.

Lemma Allow_keys_independent_witness :
  exists l', Allow ex_NewLimiter ex_AllowN (Some ex_limiter) " alice " 300 = (Some l', true)
    /\ byKey l' !! "alice" = Some (mkEntry 1 300)
    /\ (byKey l' !! "bob" = Some (mkEntry 0 7) \/ byKey l' !! "bob" = None).
Proof.
  destruct (Allow_keys_independent ex_NewLimiter ex_AllowN ex_limiter " alice " 300)
    as (l' & H1 & H2 & H3); [done|done|].
  exists l'. split; [rewrite H1; reflexivity|]. split; [exact H2|].
  destruct (H3 "bob") as [H|[H _]]; [done|left; exact H|right; exact H].
Defined.

Lemma abuse_protection_always_armed_witness :
  let p := NewAbuseProtectionFromEnv (fun z => z <=? 0) Atoi (fun z => z) (L:=Z)
             (fun _ => "-3") in
  0 < MaxPendingInvites (cfg p) <= MaxMembers (cfg p)
  /\ is_Some (inviteLimiter p) /\ is_Some (sendLimiter p) /\ is_Some (membershipLimiter p).
Proof.
  apply (abuse_protection_always_armed (fun z => z <=? 0) Atoi (fun z => z) (L:=Z)
           (fun _ => "-3")).
  intros z Hz. lia.
Defined.
