(* ===== verification/ServingLimits.v ===== *)
(** * Limits on serving blobs to peers

    Models internal/composition/daemonservice/env_config.go, blob_node_preset.go (the presets),
    blob_bandwidth_limiter.go, public_serving_limits.go and public_serving_autodegrade.go. State
    [Serving]: the limiters, the slots in use, the cache of public blobs, the preset and the state
    of the automatic degradation. golang.org/x/time/rate and float64 are parameters, as are the
    readings of the clock, of the memory in use and of the pending queue. *)
From stdpp Require Import base gmap strings list sets option pretty.
From Stdlib Require Import ZArith Lia Ascii String.
From S2P Require Import Prelude SecureStore Privacy AttachmentStore GroupModel RateLimiter BlobCache.
Open Scope string_scope.
Open Scope Z_scope.
Open Scope go_scope.

(** ** The environment *)

Section Env.
Context {lower : GoLower} (getenv : string -> string).

Definition envString (key : string) : string := TrimSpace (getenv key).

(** strings.Split of a text at commas. *)
Fixpoint splitComma (l : list ascii) : list (list ascii) :=
  match l with
  | [] => [[]]
  | a :: l' =>
      if bool_decide (a = ","%char) then [] :: splitComma l' else
      match splitComma l' with
      | x :: xs => (a :: x) :: xs
      | [] => [[a]]
      end
  end.

Definition envCSV (key : string) : list string :=
  let raw := envString key in
  if raw == "" then [] else string_of_list_ascii <$> splitComma (list_ascii_of_string raw).

Definition envBoolWithFallback (key : string) (fallback : bool) : bool :=
  let raw := ToLower (envString key) in
  if raw == "" then fallback else
  if (raw == "1") || (raw == "true") || (raw == "yes") || (raw == "on") then true else
  if (raw == "0") || (raw == "false") || (raw == "no") || (raw == "off") then false else fallback.

Definition envIntWithFallback (key : string) (fallback : Z) : Z :=
  let raw := envString key in
  if raw == "" then fallback else
  match Atoi raw with None => fallback | Some parsed => parsed end.

Definition envBoundedIntWithFallback (key : string) (fallback min max : Z) : Z :=
  let value := envIntWithFallback key fallback in
  if value <? min then min else if max <? value then max else value.
End Env.

(** ** Presets *)

Inductive blobReplicationMode := blobReplicationModeOnDemand | blobReplicationModePinnedOnly
  | blobReplicationModeNone.

#[export] Instance blobReplicationMode_eq_dec : EqDecision blobReplicationMode.
Proof. solve_decision. Defined.

Inductive blobNodePreset := blobNodePresetCustom | blobNodePresetAssist | blobNodePresetLite
  | blobNodePresetCache | blobNodePresetPin.

Record blobNodePresetConfig := mkPreset {
  np_Preset : blobNodePreset; np_ProfileID : string; np_StorageProtection : string; np_Retention : string;
  np_ImageQuotaMB : Z; np_FileQuotaMB : Z; np_ImageMaxItemSizeMB : Z; np_FileMaxItemSizeMB : Z;
  np_ReplicationMode : blobReplicationMode;
  np_RelayEnabled : bool; np_PublicDiscoveryEnabled : bool; np_PublicServingEnabled : bool;
  np_PublicStoreEnabled : bool; np_PersonalStoreEnabled : bool;
  np_AnnounceEnabled : bool; np_FetchEnabled : bool; np_RolloutPercent : Z;
  np_ServeBandwidthKBps : Z; np_ServeBandwidthSoftKBps : Z; np_ServeBandwidthHardKBps : Z;
  np_ServeMaxConcurrent : Z; np_ServeRequestsPerMinPerPeer : Z;
  np_PublicEphemeralCacheMaxMB : Z; np_PublicEphemeralCacheTTLMin : Z; np_FetchBandwidthKBps : Z;
  np_HighWatermarkPercent : Z; np_FullCapPercent : Z; np_AggressiveTargetPercent : Z
}.

Definition nodeProfileNetworkAssistDefault : string := "network_assist_default".
Definition errInvalidBlobNodePreset : error := errorsNew "invalid blob node preset".

(** A profile with the fields the presets set. *)
Definition presetWith (preset : blobNodePreset) (imageQuota fileQuota imageMax fileMax : Z)
    (mode : blobReplicationMode) (announce : bool) (serve soft hard concurrent perPeer cacheMB cacheTTL
     fetch high aggressive : Z) : blobNodePresetConfig :=
  mkPreset preset nodeProfileNetworkAssistDefault "standard" "persistent"
    imageQuota fileQuota imageMax fileMax mode true true true false true announce true 100
    serve soft hard concurrent perPeer cacheMB cacheTTL fetch high 100 aggressive.

Definition defaultBlobNodePresetProfile : blobNodePresetConfig :=
  presetWith blobNodePresetCustom 0 0 0 0 blobReplicationModeOnDemand true 0 0 0 0 0 256 30 0 90 75.

Definition buildBlobNodePresetConfig (preset : blobNodePreset) : blobNodePresetConfig :=
  match preset with
  | blobNodePresetCustom => defaultBlobNodePresetProfile
  | blobNodePresetAssist =>
      presetWith preset 1024 9216 20 100 blobReplicationModeOnDemand true 512 512 1024 3 120 256 30 1024 85 70
  | blobNodePresetLite =>
      presetWith preset 256 512 8 16 blobReplicationModeNone false 256 256 512 1 60 128 20 512 85 65
  | blobNodePresetCache =>
      presetWith preset 1024 4096 16 64 blobReplicationModeOnDemand true 1024 1024 2048 4 180 256 30 2048 90 75
  | blobNodePresetPin =>
      presetWith preset 2048 8192 32 128 blobReplicationModePinnedOnly true 4096 4096 8192 6 240 512 45 4096 90 80
  end.

Definition defaultBlobNodePresetConfig : blobNodePresetConfig := buildBlobNodePresetConfig blobNodePresetAssist.

Definition parseBlobNodePreset `{GoLower} (raw : string) : result error blobNodePreset :=
  let p := ToLower (TrimSpace raw) in
  if p == "custom" then Ok blobNodePresetCustom else
  if p == "assist" then Ok blobNodePresetAssist else
  if p == "lite" then Ok blobNodePresetLite else
  if p == "cache" then Ok blobNodePresetCache else
  if p == "pin" then Ok blobNodePresetPin else
  Err errInvalidBlobNodePreset.

(** ** Degradation: configuration and state *)

Definition Millisecond : Z := 1000000.

Record publicServingDegradeConfig := mkDegradeConfig {
  dc_Enabled : bool; dc_OverloadWindow : Z; dc_RecoveryWindow : Z; dc_RetryLoopLagThreshold : Z;
  dc_PendingQueueThreshold : Z; dc_RAMAllocThresholdMB : Z; dc_DegradedServeFactorPct : Z;
  dc_DegradedConcurrentServes : Z; dc_DegradedPerPeerRequestsPM : Z
}.

Definition resolvePublicServingDegradeConfigFromEnv `{GoLower} (getenv : string -> string)
    : publicServingDegradeConfig :=
  let bounded := envBoundedIntWithFallback getenv in
  mkDegradeConfig (envBoolWithFallback getenv "AIM_PUBLIC_SERVING_AUTODEGRADE_ENABLED" true)
    (bounded "AIM_PUBLIC_SERVING_OVERLOAD_WINDOW_SEC" 180 5 3600 * Second)
    (bounded "AIM_PUBLIC_SERVING_RECOVERY_WINDOW_SEC" 600 10 7200 * Second)
    (bounded "AIM_PUBLIC_SERVING_CPU_LAG_THRESHOLD_MS" 1500 50 60000 * Millisecond)
    (bounded "AIM_PUBLIC_SERVING_CHAT_PENDING_THRESHOLD" 150 1 100000)
    (bounded "AIM_PUBLIC_SERVING_RAM_ALLOC_THRESHOLD_MB" 512 64 131072)
    (bounded "AIM_PUBLIC_SERVING_DEGRADE_FACTOR_PCT" 50 10 90)
    (bounded "AIM_PUBLIC_SERVING_DEGRADE_CONCURRENT" 1 1 128)
    (bounded "AIM_PUBLIC_SERVING_DEGRADE_PER_PEER_RPM" 30 1 10000).

Record publicServingDegradeState := mkDegradeState {
  ds_OverloadSince : Z; ds_StableSince : Z; ds_SoftCapExceeded : bool; ds_Degraded : bool;
  ds_LastReason : string; ds_BaseServeSoftKBps : Z; ds_BaseServeHardKBps : Z; ds_BaseConcurrent : Z;
  ds_BasePerPeerPerMin : Z; ds_DegradedAppliedAt : Z
}.

Definition with_softCap (d : publicServingDegradeState) (b : bool) : publicServingDegradeState :=
  mkDegradeState (ds_OverloadSince d) (ds_StableSince d) b (ds_Degraded d) (ds_LastReason d)
    (ds_BaseServeSoftKBps d) (ds_BaseServeHardKBps d) (ds_BaseConcurrent d) (ds_BasePerPeerPerMin d)
    (ds_DegradedAppliedAt d).
(** The run of evaluations: since when there is overload, since when there is none. *)
Definition with_since (d : publicServingDegradeState) (overload stable : Z) (reason : string)
    : publicServingDegradeState :=
  mkDegradeState overload stable (ds_SoftCapExceeded d) (ds_Degraded d) reason
    (ds_BaseServeSoftKBps d) (ds_BaseServeHardKBps d) (ds_BaseConcurrent d) (ds_BasePerPeerPerMin d)
    (ds_DegradedAppliedAt d).
Definition with_degraded (d : publicServingDegradeState) (b : bool) (reason : string) (appliedAt : Z)
    : publicServingDegradeState :=
  mkDegradeState (ds_OverloadSince d) (ds_StableSince d) (ds_SoftCapExceeded d) b reason
    (ds_BaseServeSoftKBps d) (ds_BaseServeHardKBps d) (ds_BaseConcurrent d) (ds_BasePerPeerPerMin d)
    appliedAt.
Definition with_base (d : publicServingDegradeState) (soft hard concurrent perPeer : Z)
    : publicServingDegradeState :=
  mkDegradeState (ds_OverloadSince d) (ds_StableSince d) (ds_SoftCapExceeded d) (ds_Degraded d)
    (ds_LastReason d) soft hard concurrent perPeer (ds_DegradedAppliedAt d).

(** One evaluation of the load: its time, whether there was overload, and the reason. *)
Abbreviation evaluation := (Z * bool * string)%type.

Section Limits.
(** float64: the test [<= 0], the conversion of a number of bytes, and a number per minute as a
    rate per second. *)
Context {lower : GoLower} {F : Type} (float_le0 : F -> bool) (float_of perMinute : Z -> F).
(** rate.Limiter *)
Context {L : Type} (NewLimiter : F -> Z -> L) (AllowN : L -> Z -> Z -> L * bool).

(** ** Bandwidth *)

Record bandwidthLimiter := mkBandwidth { bw_limit : Z; bw_limiter : option L }.

Definition SetLimitKBps (kbps : Z) (b : bandwidthLimiter) : bandwidthLimiter :=
  if kbps <=? 0 then mkBandwidth 0 None else
  let bytesPerSecond := s64 (kbps * 1024) in
  let bytesPerSecond := if bytesPerSecond <? 1 then 1 else bytesPerSecond in
  mkBandwidth kbps (Some (NewLimiter (float_of bytesPerSecond) bytesPerSecond)).

Definition newBandwidthLimiter (kbps : Z) : bandwidthLimiter := SetLimitKBps kbps (mkBandwidth 0 None).

(** A call on a nil limiter included. *)
Definition AllowBytes (now bytes : Z) (b : option bandwidthLimiter) : option bandwidthLimiter * bool :=
  match b with
  | None => (None, true)
  | Some b =>
      if bytes <=? 0 then (Some b, true) else
      match bw_limiter b with
      | None => (Some b, true)
      | Some l => let '(l, ok) := AllowN l now bytes in (Some (mkBandwidth (bw_limit b) (Some l)), ok)
      end
  end.

Definition LimitKBps (b : option bandwidthLimiter) : Z :=
  match b with None => 0 | Some b => bw_limit b end.

(** ** The state *)

Abbreviation PeerLimiter := (option (@MapLimiter F L)).

Record Serving := mkServing {
  sv_soft : option bandwidthLimiter; sv_hard : option bandwidthLimiter; sv_fetch : bandwidthLimiter;
  sv_inFlight : Z; sv_maxConcurrent : Z; sv_perPeerPerMin : Z; sv_peerLimiter : PeerLimiter;
  sv_cache : option publicEphemeralBlobCache;
  sv_degrade : publicServingDegradeState; sv_degradeCfg : publicServingDegradeConfig;
  sv_preset : blobNodePresetConfig
}.

(** Assignments. [with_limits] is both bandwidth limits and the guard of the requests. *)
Definition with_limits (s : Serving) (soft hard : option bandwidthLimiter) (concurrent perPeer : Z)
    (peer : PeerLimiter) : Serving :=
  mkServing soft hard (sv_fetch s) (sv_inFlight s) concurrent perPeer peer (sv_cache s) (sv_degrade s)
    (sv_degradeCfg s) (sv_preset s).
Definition with_fetch (s : Serving) (b : bandwidthLimiter) : Serving :=
  mkServing (sv_soft s) (sv_hard s) b (sv_inFlight s) (sv_maxConcurrent s) (sv_perPeerPerMin s)
    (sv_peerLimiter s) (sv_cache s) (sv_degrade s) (sv_degradeCfg s) (sv_preset s).
Definition with_inFlight (s : Serving) (n : Z) : Serving :=
  mkServing (sv_soft s) (sv_hard s) (sv_fetch s) n (sv_maxConcurrent s) (sv_perPeerPerMin s)
    (sv_peerLimiter s) (sv_cache s) (sv_degrade s) (sv_degradeCfg s) (sv_preset s).
Definition with_cache (s : Serving) (c : option publicEphemeralBlobCache) : Serving :=
  mkServing (sv_soft s) (sv_hard s) (sv_fetch s) (sv_inFlight s) (sv_maxConcurrent s) (sv_perPeerPerMin s)
    (sv_peerLimiter s) c (sv_degrade s) (sv_degradeCfg s) (sv_preset s).
Definition with_degrade (s : Serving) (d : publicServingDegradeState) : Serving :=
  mkServing (sv_soft s) (sv_hard s) (sv_fetch s) (sv_inFlight s) (sv_maxConcurrent s) (sv_perPeerPerMin s)
    (sv_peerLimiter s) (sv_cache s) d (sv_degradeCfg s) (sv_preset s).
Definition with_preset (s : Serving) (p : blobNodePresetConfig) : Serving :=
  mkServing (sv_soft s) (sv_hard s) (sv_fetch s) (sv_inFlight s) (sv_maxConcurrent s) (sv_perPeerPerMin s)
    (sv_peerLimiter s) (sv_cache s) (sv_degrade s) (sv_degradeCfg s) p.

(** ** Configuration *)

Definition normalizePositiveOrZero (v : Z) : Z := if v <? 0 then 0 else v.

(** The limiter per peer for a number of requests per minute; none for zero. *)
Definition newPeerLimiter (perMin burst : Z) : PeerLimiter :=
  let rps := perMinute perMin in
  if float_le0 rps then None else New float_le0 rps burst (10 * Minute).

Definition configurePublicEphemeralCache (rt : GoRuntime) (clock : Z) (cfg : blobNodePresetConfig)
    (s : Serving) : Serving :=
  with_cache s (Configure rt clock (np_PublicEphemeralCacheMaxMB cfg) (np_PublicEphemeralCacheTTLMin cfg)
                  <$> sv_cache s).

Definition configurePublicServingLimits (rt : GoRuntime) (clock : Z) (cfg : blobNodePresetConfig)
    (s : Serving) : Serving :=
  let concurrent := normalizePositiveOrZero (np_ServeMaxConcurrent cfg) in
  let perPeer := normalizePositiveOrZero (np_ServeRequestsPerMinPerPeer cfg) in
  let peer := if perPeer <=? 0 then None
              else newPeerLimiter perPeer (if perPeer <? 1 then 1 else perPeer) in
  let s := with_limits s (SetLimitKBps (np_ServeBandwidthSoftKBps cfg) <$> sv_soft s)
             (SetLimitKBps (np_ServeBandwidthHardKBps cfg) <$> sv_hard s) concurrent perPeer peer in
  let s := with_degrade s (with_base (sv_degrade s) (np_ServeBandwidthSoftKBps cfg)
             (np_ServeBandwidthHardKBps cfg) concurrent perPeer) in
  configurePublicEphemeralCache rt clock cfg s.

Definition isPublicServingAllowed (s : Serving) : bool := np_PublicServingEnabled (sv_preset s).
Definition isPublicStoreEnabled (s : Serving) : bool := np_PublicStoreEnabled (sv_preset s).

Definition purgePublicEphemeralCache (rt : GoRuntime) (clock now : Z) (s : Serving) : Serving :=
  with_cache s (PurgeExpired rt clock now <$> sv_cache s).

(** ** Guards of a request *)

Definition allowPublicServeRequest (now : Z) (requesterPeerID : string) (s : Serving) : Serving * bool :=
  let requesterPeerID := TrimSpace requesterPeerID in
  let requesterPeerID := if requesterPeerID == "" then "unknown" else requesterPeerID in
  match sv_peerLimiter s with
  | None => (s, true)
  | Some l =>
      let '(l, ok) := Allow NewLimiter AllowN (Some l) requesterPeerID now in
      (with_limits s (sv_soft s) (sv_hard s) (sv_maxConcurrent s) (sv_perPeerPerMin s) l, ok)
  end.

(** The slot is taken; the function that gives it back is [releasePublicServeSlot]. *)
Definition acquirePublicServeSlot (s : Serving) : Serving * bool :=
  if (0 <? sv_maxConcurrent s) && (sv_maxConcurrent s <=? sv_inFlight s) then (s, false)
  else (with_inFlight s (s64 (sv_inFlight s + 1)), true).

(** The function [acquirePublicServeSlot] returns, with its own variable [released]. *)
Definition releasePublicServeSlot (released : bool) (s : Serving) : bool * Serving :=
  if released then (true, s) else
  (true, if 0 <? sv_inFlight s then with_inFlight s (sv_inFlight s - 1) else s).

Definition markPublicServeSoftCapExceeded (s : Serving) : Serving :=
  with_degrade s (with_softCap (sv_degrade s) true).

Definition currentPublicServingConcurrencyLimit (s : Serving) : Z := sv_maxConcurrent s.
Definition currentPublicServingPeerLimitPerMin (s : Serving) : Z := sv_perPeerPerMin s.
Definition isPublicServingDegraded (s : Serving) : bool := ds_Degraded (sv_degrade s).

(** ** Degradation *)

(** The overload and its reason; [allocMB] and the two readings of the pending queue come from the
    runtime and the message store. *)
Definition isPublicServingOverloaded (allocMB pending pending' retryLoopLag : Z) (s : Serving)
    : bool * string :=
  let cfg := sv_degradeCfg s in
  if negb (isPublicServingAllowed s) then (false, "") else
  if (0 <? dc_RAMAllocThresholdMB cfg) && (dc_RAMAllocThresholdMB cfg <=? allocMB)
  then (true, "ram_alloc_mb=" +:+ pretty allocMB) else
  if (0 <? dc_PendingQueueThreshold cfg) && (dc_PendingQueueThreshold cfg <=? pending)
  then (true, "chat_pending=" +:+ pretty pending') else
  if dc_RetryLoopLagThreshold cfg <=? retryLoopLag
  then (true, "retry_loop_lag_ms=" +:+ pretty (Z.quot retryLoopLag Millisecond)) else
  if ds_SoftCapExceeded (sv_degrade s) then (true, "serve_soft_cap_exceeded") else (false, "").

(** The bandwidth in a degraded state: a share of the base, and at least one. *)
Definition degradedKBps (cfg : publicServingDegradeConfig) (d : publicServingDegradeState) : Z * Z :=
  let soft := Z.quot (s64 (ds_BaseServeSoftKBps d * dc_DegradedServeFactorPct cfg)) 100 in
  let hard := Z.quot (s64 (ds_BaseServeHardKBps d * dc_DegradedServeFactorPct cfg)) 100 in
  let soft := if soft <=? 0 then 1 else soft in
  (soft, if hard <? soft then soft else hard).

Definition applyPublicServingDegradedLimitsLocked (state : publicServingDegradeState) (now : Z)
    (s : Serving) : Serving * publicServingDegradeState :=
  if ds_Degraded state then (s, state) else
  let cfg := sv_degradeCfg s in
  let '(soft, hard) := degradedKBps cfg state in
  let rpm := dc_DegradedPerPeerRequestsPM cfg in
  (with_limits s (SetLimitKBps soft <$> sv_soft s) (SetLimitKBps hard <$> sv_hard s)
     (dc_DegradedConcurrentServes cfg) rpm (newPeerLimiter rpm rpm),
   with_degraded state true (ds_LastReason state) now).

Definition restorePublicServingLimitsLocked (state : publicServingDegradeState) (s : Serving)
    : Serving * publicServingDegradeState :=
  if negb (ds_Degraded state) then (s, state) else
  let perPeer := ds_BasePerPeerPerMin state in
  (with_limits s (SetLimitKBps (ds_BaseServeSoftKBps state) <$> sv_soft s)
     (SetLimitKBps (ds_BaseServeHardKBps state) <$> sv_hard s) (ds_BaseConcurrent state) perPeer
     (if 0 <? perPeer then newPeerLimiter perPeer perPeer else None),
   with_degraded state false "" 0).

(** The locked part of [evaluatePublicServingAutodegrade]. *)
Definition degradeStep (now : Z) (overloaded : bool) (reason : string) (s : Serving) : Serving :=
  let cfg := sv_degradeCfg s in
  let state := sv_degrade s in
  let '(s, state) :=
    if overloaded then
      let since := if IsZero (ds_OverloadSince state) then now else ds_OverloadSince state in
      let state := with_since state since 0 reason in
      if negb (ds_Degraded state) && (dc_OverloadWindow cfg <=? timeSub now since)
      then applyPublicServingDegradedLimitsLocked state now s else (s, state)
    else
      let since := if IsZero (ds_StableSince state) then now else ds_StableSince state in
      let state := with_since state 0 since (ds_LastReason state) in
      if ds_Degraded state && (dc_RecoveryWindow cfg <=? timeSub now since)
      then restorePublicServingLimitsLocked state s else (s, state) in
  with_degrade s (with_softCap state false).

Definition evaluatePublicServingAutodegrade (allocMB pending pending' now retryLoopLag : Z) (s : Serving)
    : Serving :=
  if negb (dc_Enabled (sv_degradeCfg s)) then s else
  let '(overloaded, reason) := isPublicServingOverloaded allocMB pending pending' retryLoopLag s in
  degradeStep now overloaded reason s.

(** ** Degradation follows the load *)

(** The limits in force, the base of the preset, and what degradation makes of them. *)
Definition limits_of (s : Serving) : Z * Z * Z * Z :=
  (LimitKBps (sv_soft s), LimitKBps (sv_hard s), sv_maxConcurrent s, sv_perPeerPerMin s).
Definition base_limits (d : publicServingDegradeState) : Z * Z * Z * Z :=
  (Z.max 0 (ds_BaseServeSoftKBps d), Z.max 0 (ds_BaseServeHardKBps d), ds_BaseConcurrent d,
   ds_BasePerPeerPerMin d).
Definition degraded_limits (cfg : publicServingDegradeConfig) (d : publicServingDegradeState)
    : Z * Z * Z * Z :=
  (fst (degradedKBps cfg d), snd (degradedKBps cfg d), dc_DegradedConcurrentServes cfg,
   dc_DegradedPerPeerRequestsPM cfg).

Definition limits_match (s : Serving) : Prop :=
  is_Some (sv_soft s) /\ is_Some (sv_hard s)
  /\ limits_of s = if ds_Degraded (sv_degrade s) then degraded_limits (sv_degradeCfg s) (sv_degrade s)
                   else base_limits (sv_degrade s).

Lemma LimitKBps_set k b : is_Some b -> LimitKBps (SetLimitKBps k <$> b) = Z.max 0 k.
Proof.
  intros [x ->]. cbn. unfold SetLimitKBps. destruct (Z.leb_spec k 0); cbn; lia.
Qed.

Lemma degradedKBps_pos cfg d :
  0 < fst (degradedKBps cfg d) /\ fst (degradedKBps cfg d) <= snd (degradedKBps cfg d).
Proof.
  unfold degradedKBps. set (soft := Z.quot _ 100). set (hard := Z.quot (s64 (ds_BaseServeHardKBps d * _)) 100).
  cbn [fst snd]. set (x := if soft <=? 0 then 1 else soft).
  assert (0 < x) by (unfold x; destruct (Z.leb_spec soft 0); lia).
  destruct (Z.ltb_spec hard x); lia.
Qed.

Lemma applyDegraded_match state now s :
  is_Some (sv_soft s) -> is_Some (sv_hard s) -> ds_Degraded state = false ->
  let '(s', state') := applyPublicServingDegradedLimitsLocked state now s in
  state' = with_degraded state true (ds_LastReason state) now
  /\ is_Some (sv_soft s') /\ is_Some (sv_hard s') /\ sv_degradeCfg s' = sv_degradeCfg s
  /\ limits_of s' = degraded_limits (sv_degradeCfg s) state.
Proof.
  intros Hs Hh Hd. unfold applyPublicServingDegradedLimitsLocked. rewrite Hd.
  pose proof (degradedKBps_pos (sv_degradeCfg s) state) as [H1 H2]. unfold limits_of, degraded_limits.
  destruct (degradedKBps (sv_degradeCfg s) state) as [soft hard] eqn:E. cbn [fst snd] in *.
  split_and!; [done|by apply fmap_is_Some|by apply fmap_is_Some|done|].
  cbn [sv_soft sv_hard sv_maxConcurrent sv_perPeerPerMin with_limits]. rewrite !LimitKBps_set by done.
  repeat f_equal; lia.
Qed.

Lemma restore_match state s :
  is_Some (sv_soft s) -> is_Some (sv_hard s) -> ds_Degraded state = true ->
  let '(s', state') := restorePublicServingLimitsLocked state s in
  state' = with_degraded state false "" 0
  /\ is_Some (sv_soft s') /\ is_Some (sv_hard s') /\ sv_degradeCfg s' = sv_degradeCfg s
  /\ limits_of s' = base_limits state.
Proof.
  intros Hs Hh Hd. unfold restorePublicServingLimitsLocked. rewrite Hd. cbn [negb].
  split_and!; [done|by apply fmap_is_Some|by apply fmap_is_Some|done|]. unfold limits_of, base_limits.
  cbn [sv_soft sv_hard sv_maxConcurrent sv_perPeerPerMin with_limits]. by rewrite !LimitKBps_set.
Qed.

Definition run_evaluation (s : Serving) (e : evaluation) : Serving := degradeStep e.1.1 e.1.2 e.2 s.

(** The last evaluations, from the one at [since] on, all saw overload ([load]) or none. *)
Definition streak (load : bool) (since : Z) (evs : list evaluation) : Prop :=
  exists pre first mid, evs = (pre ++ first :: mid)%list /\ first.1.1 = since
    /\ Forall (fun e => e.1.2 = load) (first :: mid).

Lemma streak_snoc load since evs e :
  streak load since evs -> e.1.2 = load -> streak load since (evs ++ [e]).
Proof.
  intros (pre & f & mid & -> & Ht & Hl) He. exists pre, f, (mid ++ [e])%list.
  split_and!; [by rewrite <- app_assoc|done|]. rewrite app_comm_cons. apply Forall_app. auto.
Qed.

Lemma streak_new load evs e : e.1.2 = load -> streak load e.1.1 (evs ++ [e]).
Proof. intros He. exists evs, e, []. split_and!; [done|done|by repeat constructor]. Qed.

(** What the state says about the evaluations so far. *)
Record tracks (evs : list evaluation) (s : Serving) : Prop := mkTracks {
  tr_overload : ds_OverloadSince (sv_degrade s) <> 0 -> streak true (ds_OverloadSince (sv_degrade s)) evs;
  tr_stable : ds_StableSince (sv_degrade s) <> 0 -> streak false (ds_StableSince (sv_degrade s)) evs;
  tr_limits : limits_match s
}.

(** One evaluation keeps the bookkeeping; degradation starts and ends only with a streak that is
    long enough. *)
Lemma degradeStep_tracks evs s e :
  tracks evs s -> e.1.1 <> 0 ->
  let s' := run_evaluation s e in
  tracks (evs ++ [e]) s' /\ sv_degradeCfg s' = sv_degradeCfg s
  /\ (ds_Degraded (sv_degrade s) = false -> ds_Degraded (sv_degrade s') = true ->
      exists since, streak true since (evs ++ [e])
        /\ dc_OverloadWindow (sv_degradeCfg s) <= timeSub e.1.1 since)
  /\ (ds_Degraded (sv_degrade s) = true -> ds_Degraded (sv_degrade s') = false ->
      exists since, streak false since (evs ++ [e])
        /\ dc_RecoveryWindow (sv_degradeCfg s) <= timeSub e.1.1 since).
Proof.
  intros [Hov Hst (Hs & Hh & Hlim)] Hne. destruct e as [[now load] reason]. cbn [fst snd] in *.
  unfold run_evaluation, degradeStep, IsZero. cbn [fst snd]. set (d := sv_degrade s) in *. destruct load.
  - set (since := if ds_OverloadSince d =? 0 then now else ds_OverloadSince d).
    assert (Hstreak : streak true since (evs ++ [(now, true, reason)])).
    { unfold since. destruct (Z.eqb_spec (ds_OverloadSince d) 0);
        [by apply (streak_new true evs (now, true, reason))|by apply streak_snoc; [apply Hov|]]. }
    set (state := with_since d since 0 reason).
    destruct (negb (ds_Degraded state) && _) eqn:E.
    + apply andb_true_iff in E as [Ed%negb_true_iff Ew%Z.leb_le].
      pose proof (applyDegraded_match state now s Hs Hh Ed) as H.
      destruct (applyPublicServingDegradedLimitsLocked state now s) as [s' state'].
      destruct H as (-> & H1 & H2 & H3 & H4). split_and!; [|done|intros _ _; by exists since|done].
      split; [done|done|]. split_and!; [done|done|]. cbn. rewrite H3. exact H4.
    + split_and!; [|done|intros H1 H2; change (ds_Degraded d = true) in H2; congruence|
        intros H1 H2; change (ds_Degraded d = false) in H2; congruence].
      split; [done|done|]. by split_and!.
  - set (since := if ds_StableSince d =? 0 then now else ds_StableSince d).
    assert (Hstreak : streak false since (evs ++ [(now, false, reason)])).
    { unfold since. destruct (Z.eqb_spec (ds_StableSince d) 0);
        [by apply (streak_new false evs (now, false, reason))|by apply streak_snoc; [apply Hst|]]. }
    set (state := with_since d 0 since (ds_LastReason d)).
    destruct (ds_Degraded state && _) eqn:E.
    + apply andb_true_iff in E as [Ed Ew%Z.leb_le]. pose proof (restore_match state s Hs Hh Ed) as H.
      destruct (restorePublicServingLimitsLocked state s) as [s' state'].
      destruct H as (-> & H1 & H2 & H3 & H4). split_and!; [|done|done|intros _ _; by exists since].
      split; [done|done|]. by split_and!.
    + split_and!; [|done|intros H1 H2; change (ds_Degraded d = true) in H2; congruence|
        intros H1 H2; change (ds_Degraded d = false) in H2; congruence].
      split; [done|done|]. by split_and!.
Qed.

Lemma run_tracks evs s0 :
  limits_match s0 -> ds_OverloadSince (sv_degrade s0) = 0 -> ds_StableSince (sv_degrade s0) = 0 ->
  Forall (fun e => e.1.1 <> 0) evs ->
  tracks evs (fold_left run_evaluation evs s0)
  /\ sv_degradeCfg (fold_left run_evaluation evs s0) = sv_degradeCfg s0.
Proof.
  intros Hm H1 H2 Ht. induction evs as [|e evs IH] using rev_ind.
  - cbn [fold_left]. split; [|done]. by split.
  - apply Forall_app in Ht as [Ht He]. inversion He; subst. rewrite fold_left_app. cbn [fold_left].
    destruct (IH Ht) as [Htr Hcfg]. destruct (degradeStep_tracks _ _ e Htr) as (H & Hc & _); [done|].
    split; [done|congruence].
Qed.

(** Degradation follows a sustained load, and nothing else. Starting from limits as the preset
    gives them, after any sequence of evaluations the limits in force are those of the preset, or
    those of the degraded state, according to the flag; an evaluation that starts degradation ends
    an unbroken run of overloaded evaluations that lasts at least the overload window, and one that
    ends it ends an unbroken run of evaluations without overload that lasts at least the recovery
    window. *)
Theorem degradation_needs_sustained_load (s0 : Serving) (evs : list evaluation) (e : evaluation) :
  limits_match s0 -> ds_OverloadSince (sv_degrade s0) = 0 -> ds_StableSince (sv_degrade s0) = 0 ->
  Forall (fun e => e.1.1 <> 0) (evs ++ [e]) ->
  let s := fold_left run_evaluation evs s0 in
  let s' := run_evaluation s e in
  limits_match s'
  /\ (ds_Degraded (sv_degrade s) = false -> ds_Degraded (sv_degrade s') = true ->
      exists since, streak true since (evs ++ [e])
        /\ dc_OverloadWindow (sv_degradeCfg s0) <= timeSub e.1.1 since)
  /\ (ds_Degraded (sv_degrade s) = true -> ds_Degraded (sv_degrade s') = false ->
      exists since, streak false since (evs ++ [e])
        /\ dc_RecoveryWindow (sv_degradeCfg s0) <= timeSub e.1.1 since).
Proof.
  intros Hm H1 H2 Ht. apply Forall_app in Ht as [Ht He]. inversion He as [|? ? He' _]; subst. cbv zeta.
  destruct (run_tracks evs s0 Hm H1 H2 Ht) as [Htr Hcfg].
  destruct (degradeStep_tracks _ _ e Htr He') as ([_ _ Hl] & _ & Hon & Hoff). rewrite Hcfg in *. auto.
Qed.

(** Changing the preset while serving is degraded gives the full limits back and leaves the flag set,
    so that overload, however long, does not degrade again before a recovery. *)
Theorem preset_change_lifts_degradation (rt : GoRuntime) (clock : Z) (cfg : blobNodePresetConfig)
    (s : Serving) (evs : list evaluation) :
  is_Some (sv_soft s) -> is_Some (sv_hard s) -> ds_Degraded (sv_degrade s) = true ->
  Forall (fun e => e.1.2 = true) evs ->
  let s' := fold_left run_evaluation evs (configurePublicServingLimits rt clock cfg s) in
  isPublicServingDegraded s' = true
  /\ limits_of s' = (Z.max 0 (np_ServeBandwidthSoftKBps cfg), Z.max 0 (np_ServeBandwidthHardKBps cfg),
                     Z.max 0 (np_ServeMaxConcurrent cfg), Z.max 0 (np_ServeRequestsPerMinPerPeer cfg)).
Proof.
  intros Hs Hh Hd Hev. cbv zeta.
  assert (H0 : isPublicServingDegraded (configurePublicServingLimits rt clock cfg s) = true
    /\ limits_of (configurePublicServingLimits rt clock cfg s)
       = (Z.max 0 (np_ServeBandwidthSoftKBps cfg), Z.max 0 (np_ServeBandwidthHardKBps cfg),
          Z.max 0 (np_ServeMaxConcurrent cfg), Z.max 0 (np_ServeRequestsPerMinPerPeer cfg))).
  { split; [exact Hd|]. unfold limits_of, configurePublicServingLimits, configurePublicEphemeralCache.
    cbn [sv_soft sv_hard sv_maxConcurrent sv_perPeerPerMin with_cache with_degrade with_limits].
    rewrite !LimitKBps_set by done. unfold normalizePositiveOrZero.
    destruct (Z.ltb_spec (np_ServeMaxConcurrent cfg) 0), (Z.ltb_spec (np_ServeRequestsPerMinPerPeer cfg) 0);
      repeat f_equal; lia. }
  revert H0. generalize (configurePublicServingLimits rt clock cfg s). clear Hs Hh Hd s.
  induction Hev as [|[[now load] reason] evs He _ IH]; intros s Hs; [exact Hs|]. cbn [fold_left]. apply IH.
  cbn in He. subst load. unfold isPublicServingDegraded, run_evaluation, degradeStep in *. cbn [fst snd].
  destruct Hs as [Hd Hl]. cbn [ds_Degraded with_since]. rewrite Hd. cbn [negb andb]. split; [exact Hd|exact Hl].
Qed.

(** ** The slots *)

(** Serving with the slots handed out, each with its variable [released]. *)
Abbreviation Slots := (gmap nat bool).

(** What happens to the slots: one is taken, one is given back (perhaps again), or something else that
    leaves the number in use alone, a change of the limits included. *)
Inductive slot_step : Serving * Slots -> Serving * Slots -> Prop :=
| ss_acquire s s' slots id :
    acquirePublicServeSlot s = (s', true) -> slots !! id = None ->
    slot_step (s, slots) (s', <[id := false]> slots)
| ss_release s s' slots id b b' :
    slots !! id = Some b -> releasePublicServeSlot b s = (b', s') ->
    slot_step (s, slots) (s', <[id := b']> slots)
| ss_other s s' slots : sv_inFlight s' = sv_inFlight s -> slot_step (s, slots) (s', slots).

(** The slots in use. *)
Definition inUse (slots : Slots) : Slots := filter (fun kv => kv.2 = false) slots.

Lemma inUse_new (slots : Slots) id :
  slots !! id = None -> size (inUse (<[id := false]> slots)) = S (size (inUse slots)).
Proof.
  intros H. unfold inUse. rewrite map_filter_insert_True by done. rewrite map_size_insert_None; [done|].
  by rewrite map_lookup_filter, H.
Qed.

Lemma inUse_release (slots : Slots) id (b : bool) :
  slots !! id = Some b ->
  size (inUse (<[id := true]> slots)) = if b then size (inUse slots) else Nat.pred (size (inUse slots)).
Proof.
  intros H. unfold inUse. rewrite map_filter_insert_False by done. rewrite map_filter_delete.
  destruct b; [rewrite delete_id; [done|]; by rewrite map_lookup_filter, H|].
  rewrite map_size_delete_Some; [done|]. exists false. by rewrite map_lookup_filter, H.
Qed.

Lemma inUse_some (slots : Slots) id : slots !! id = Some false -> (0 < size (inUse slots))%nat.
Proof.
  intros H. unfold inUse. apply Nat.neq_0_lt_0. intros E. apply map_size_empty_inv in E.
  apply (f_equal (.!! id)) in E. by rewrite map_lookup_filter, H in E.
Qed.

Lemma inUse_le (slots : Slots) : (size (inUse slots) <= size slots)%nat.
Proof. apply map_subseteq_size, map_filter_subseteq. Qed.

Lemma slots_exact s0 st :
  sv_inFlight s0 = 0 -> rtc slot_step (s0, ∅) st -> Z.of_nat (size st.2) < 2 ^ 63 - 1 ->
  sv_inFlight st.1 = Z.of_nat (size (inUse st.2)).
Proof.
  intros H0 Hr. revert st Hr. apply (rtc_ind_r (fun st => Z.of_nat (size st.2) < 2 ^ 63 - 1 ->
    sv_inFlight st.1 = Z.of_nat (size (inUse st.2)))); [done|]. intros y z _ Hs IH Hb. destruct Hs as [s s' slots id Ha Hid|s s' slots id b b' Hid Hrel|s s' slots Hsame]; cbn [fst snd] in *.
  - rewrite map_size_insert_None in Hb by done. specialize (IH ltac:(lia)).
    unfold acquirePublicServeSlot in Ha. destruct (_ && _); [done|]. injection Ha as <-.
    cbn [sv_inFlight with_inFlight]. rewrite inUse_new by done. pose proof (inUse_le slots).
    rewrite s64_small by lia. lia.
  - rewrite map_size_insert_Some in Hb by by eexists. specialize (IH Hb).
    unfold releasePublicServeSlot in Hrel. destruct b; injection Hrel as <- <-; rewrite (inUse_release _ _ _ Hid); [done|].
    pose proof (inUse_some _ _ Hid). rewrite (proj2 (Z.ltb_lt 0 _)) by lia. cbn. lia.
  - rewrite Hsame. auto.
Qed.

(** The count of requests in flight is exact, and a slot is taken only below the limit. In every
    state reachable by taking and giving back slots, with changes of the limits between them, the
    counter is the number of slots that have not been given back (giving one back twice counts
    once); a slot is refused exactly when a limit is set and as many are in use, so that after one is
    taken at most as many as the limit are. *)
Theorem serving_slots_are_bounded (s0 s s' : Serving) (slots : Slots) (ok : bool) :
  sv_inFlight s0 = 0 -> rtc slot_step (s0, ∅) (s, slots) -> Z.of_nat (size slots) < 2 ^ 63 - 1 ->
  acquirePublicServeSlot s = (s', ok) ->
  sv_inFlight s = Z.of_nat (size (inUse slots))
  /\ (ok = false <-> 0 < sv_maxConcurrent s <= Z.of_nat (size (inUse slots)))
  /\ (ok = true -> sv_inFlight s' = Z.of_nat (size (inUse slots)) + 1
      /\ (0 < sv_maxConcurrent s -> sv_inFlight s' <= sv_maxConcurrent s)).
Proof.
  intros H0 Hr Hb Ha. pose proof (slots_exact s0 (s, slots) H0 Hr Hb) as E. cbn [fst snd] in E.
  split; [done|]. pose proof (inUse_le slots). unfold acquirePublicServeSlot in Ha. rewrite E in Ha.
  destruct (Z.ltb_spec 0 (sv_maxConcurrent s)); cbn [andb] in Ha.
  - destruct (Z.leb_spec (sv_maxConcurrent s) (Z.of_nat (size (inUse slots)))); injection Ha as <- <-.
    + split; [split; [lia|done]|done].
    + split; [split; [done|lia]|]. intros _. cbn. rewrite s64_small by lia. lia.
  - injection Ha as <- <-. split; [split; [done|lia]|]. intros _. cbn. rewrite s64_small by lia. lia.
Qed.
End Limits.

(** ** Examples: rates are integers, and a limiter is the tokens it has left *)

Definition ex_new (f b : Z) : Z := b.
Definition ex_allow (l now n : Z) : Z * bool := if n <=? l then (l - n, true) else (l, false).

Definition ex_serving : Serving :=
  configurePublicServingLimits (fun f => f <=? 0) id id ex_new exRuntime 0 defaultBlobNodePresetConfig
    (mkServing (Some (mkBandwidth 0 None)) (Some (mkBandwidth 0 None)) (mkBandwidth 0 None) 0 0 0 None
       (Some (mkCache 0 0 0 ∅)) (mkDegradeState 0 0 false false "" 0 0 0 0 0)
       (mkDegradeConfig true (180 * Second) (600 * Second) (1500 * Millisecond) 150 512 50 1 30)
       defaultBlobNodePresetConfig).

Definition ex_run := run_evaluation (fun f => f <=? 0) id id ex_new.
Definition ex_evs : list evaluation := [(1000 * Second, false, ""); (1010 * Second, true, "ram_alloc_mb=600")].
Definition ex_last : evaluation := (1190 * Second, true, "ram_alloc_mb=600").

Lemma degradation_needs_sustained_load_witness :
  limits_of (ex_run (fold_left ex_run ex_evs ex_serving) ex_last) = (256, 512, 1, 30)
  /\ exists since, streak true since (ex_evs ++ [ex_last])
     /\ 180 * Second <= timeSub (1190 * Second) since.
Proof.
  destruct (degradation_needs_sustained_load (fun f => f <=? 0) id id ex_new ex_serving ex_evs ex_last)
    as ((_ & _ & Hl) & Hon & _).
  - split; [by eexists|]. split; [by eexists|]. vm_compute. reflexivity.
  - reflexivity.
  - reflexivity.
  - repeat constructor; discriminate.
  - split; [vm_compute in Hl |- *; exact Hl|]. apply Hon; vm_compute; reflexivity.
Defined.

Definition ex_slot1 : Serving := fst (acquirePublicServeSlot ex_serving).

Lemma serving_slots_are_bounded_witness :
  sv_inFlight ex_slot1 = 1 /\ sv_inFlight (fst (acquirePublicServeSlot ex_slot1)) = 2.
Proof.
  destruct (serving_slots_are_bounded (L := Z) ex_serving ex_slot1
    (fst (acquirePublicServeSlot ex_slot1)) {[0%nat := false]} true) as (H1 & _ & H2).
  - reflexivity.
  - apply rtc_once. apply (ss_acquire _ _ _ 0%nat); [vm_compute; reflexivity|reflexivity].
  - vm_compute. reflexivity.
  - vm_compute. reflexivity.
  - split; [exact H1|]. exact (proj1 (H2 eq_refl)).
Defined.
