(* ===== verification/GroupRuntime.v ===== *)
(** * The group registry and its commit step

    Models internal/domains/group/usecase/state_mutation.go. A Go [GroupState] is a
    struct whose two maps are references: copying the struct shares them, and
    [ApplyGroupEvent] writes through them. The registry therefore keeps, for each group,
    the struct with the location of its pair of maps in a heap ([NewGroupState] and
    [CloneState], the only places that make them, make both maps together). The value
    of a stored state is obtained by [deref]. *)
From S2P Require Import Prelude GroupModel.
From stdpp Require Import base gmap strings list sets option.
From Stdlib Require Import ZArith Lia.
Open Scope string_scope.
Open Scope Z_scope.
Open Scope go_scope.

(** ** The heap of map objects *)

Record GroupMaps := mkMaps {
  gm_AppliedEventIDs : gset string;
  gm_Members : gmap string GroupMember
}.

Record GroupStateRef := mkRef {
  r_Group : Group;
  r_Version : Z;
  r_LastKeyVersion : Z;
  r_maps : nat
}.

Record Heap := mkHeap { cells : gmap nat GroupMaps; next : nat }.

Definition load (h : Heap) (l : nat) : GroupMaps := default (mkMaps ∅ ∅) (cells h !! l).

Definition alloc (h : Heap) (mp : GroupMaps) : Heap * nat :=
  (mkHeap (<[next h := mp]> (cells h)) (S (next h)), next h).

Definition deref (h : Heap) (r : GroupStateRef) : GroupState :=
  mkGroupState (r_Group r) (r_Version r) (gm_AppliedEventIDs (load h (r_maps r)))
    (gm_Members (load h (r_maps r))) (r_LastKeyVersion r).

(** Assign the fields of the local struct and write its maps through their reference. *)
Definition writeHeap (h : Heap) (r : GroupStateRef) (st : GroupState) : Heap :=
  mkHeap (<[r_maps r := mkMaps (s_AppliedEventIDs st) (s_Members st)]> (cells h)) (next h).
Definition writeRef (r : GroupStateRef) (st : GroupState) : GroupStateRef :=
  mkRef (s_Group st) (s_Version st) (s_LastKeyVersion st) (r_maps r).

(** ** Registry: the maps [states] and [eventLog] the services share *)
Record Registry := mkRegistry {
  heap : Heap;
  states : gmap string GroupStateRef;
  eventLog : gmap string (list GroupEvent)
}.

(** The values of the stored states. *)
Definition view (reg : Registry) : gmap string GroupState := deref (heap reg) <$> states reg.

(** [SnapshotPersist]: it sees the states and the log, and may fail. *)
Definition SnapshotPersist : Type :=
  gmap string GroupState -> gmap string (list GroupEvent) -> option error.

(** [if persist != nil { if err := persist(states, eventLog); err != nil ...] *)
Definition runPersist (persist : option SnapshotPersist) (vs : gmap string GroupState)
    (log : gmap string (list GroupEvent)) : option error :=
  match persist with None => None | Some p => p vs log end.

Definition LoadStateForActor (reg : Registry) (groupID actorID : string)
    (requireActiveActor : bool) : result error GroupStateRef :=
  match states reg !! groupID with
  | None => Err ErrGroupNotFound
  | Some state =>
      try! normalizedActorID := NormalizeGroupMemberID actorID in
      match s_Members (deref (heap reg) state) !! normalizedActorID with
      | None => Err ErrGroupMembershipNotFound
      | Some actor =>
          if requireActiveActor && negb (m_Status actor == GroupMemberStatusActive)
          then Err ErrGroupPermissionDenied else Ok state
      end
  end.

(** A copy with maps of its own. *)
Definition CloneState (h : Heap) (r : GroupStateRef) : Heap * GroupStateRef :=
  let '(h', l) := alloc h (load h (r_maps r)) in
  (h', mkRef (r_Group r) (r_Version r) (r_LastKeyVersion r) l).

(** [ApplyGroupEvent(&state, event)] on a local struct whose maps are shared. *)
Definition ApplyGroupEventRef (h : Heap) (r : GroupStateRef) (e : GroupEvent)
    : Heap * GroupStateRef * result error bool :=
  let '(st, res) := applyGroupEvent (deref h r) e in
  (writeHeap h r st, writeRef r st, res).

(** The loop over the events of a batch; [acc] is [appliedEvents]. *)
Fixpoint applyLoop (h : Heap) (r : GroupStateRef) (events acc : list GroupEvent)
    : Heap * result error (GroupStateRef * list GroupEvent) :=
  match events with
  | [] => (h, Ok (r, acc))
  | event :: rest =>
      let '(h', r', res) := ApplyGroupEventRef h r event in
      match res with
      | Err err => (h', Err err)
      | Ok applied => applyLoop h' r' rest (if applied then acc ++ [event] else acc)%list
      end
  end.

Definition ApplyEventsWithRollback (persist : option SnapshotPersist)
    (state : GroupStateRef) (events : list GroupEvent)
    : M Registry error (GroupStateRef * list GroupEvent) := fun reg =>
  match events with
  | [] => (reg, Ok (state, []))
  | _ =>
      let gid := g_ID (r_Group state) in
      let '(h1, previousState) := CloneState (heap reg) state in
      let hadState := bool_decide (is_Some (states reg !! gid)) in
      let previousLog := default [] (eventLog reg !! gid) in
      let '(h2, res) := applyLoop h1 state events [] in
      match res with
      | Err err => (mkRegistry h2 (states reg) (eventLog reg), Err err)
      | Ok (state', []) => (mkRegistry h2 (states reg) (eventLog reg), Ok (state', []))
      | Ok (state', appliedEvents) =>
          let gid' := g_ID (r_Group state') in
          let reg2 := mkRegistry h2 (<[gid' := state']> (states reg))
            (<[gid' := (default [] (eventLog reg !! gid') ++ appliedEvents)%list]> (eventLog reg)) in
          match runPersist persist (view reg2) (eventLog reg2) with
          | None => (reg2, Ok (state', appliedEvents))
          | Some err =>
              (mkRegistry h2
                 (if hadState then <[gid' := previousState]> (states reg2)
                  else delete gid' (states reg2))
                 (<[gid' := previousLog]> (eventLog reg2)), Err err)
          end
      end
  end.

(** ** The abstract batch: values instead of references *)

Fixpoint applyAll (st : GroupState) (events acc : list GroupEvent)
    : GroupState * result error (list GroupEvent) :=
  match events with
  | [] => (st, Ok acc)
  | e :: rest =>
      let '(st', res) := applyGroupEvent st e in
      match res with
      | Err err => (st', Err err)
      | Ok applied => applyAll st' rest (if applied then acc ++ [e] else acc)%list
      end
  end.

(** A stored state: its maps exist. *)
Definition live (h : Heap) (r : GroupStateRef) : Prop :=
  is_Some (cells h !! r_maps r) /\ (r_maps r < next h)%nat.

(** The registry invariant: every state is stored under its own group identifier, its
    maps exist, and no two groups share them. *)
Record reg_ok (reg : Registry) : Prop := {
  ro_live : forall g r, states reg !! g = Some r -> live (heap reg) r;
  ro_key : forall g r, states reg !! g = Some r -> g_ID (r_Group r) = g;
  ro_sep : forall g1 g2 r1 r2, states reg !! g1 = Some r1 -> states reg !! g2 = Some r2 ->
             r_maps r1 = r_maps r2 -> g1 = g2
}.

Lemma load_insert h l mp l' :
  load (mkHeap (<[l := mp]> (cells h)) (next h)) l' = if decide (l = l') then mp else load h l'.
Proof. unfold load. cbn. rewrite lookup_insert. by destruct (decide (l = l')). Qed.

Lemma deref_write h r st : deref (writeHeap h r st) (writeRef r st) = st.
Proof.
  unfold deref, writeHeap, writeRef. cbn. rewrite load_insert, decide_True by done.
  by destruct st.
Qed.

Lemma deref_write_other h r st r' :
  r_maps r' <> r_maps r -> deref (writeHeap h r st) r' = deref h r'.
Proof.
  intros Hne. unfold deref, writeHeap. by rewrite load_insert, decide_False by done.
Qed.

Lemma write_write h r st1 st2 :
  writeHeap (writeHeap h r st1) (writeRef r st1) st2 = writeHeap h r st2
  /\ writeRef (writeRef r st1) st2 = writeRef r st2.
Proof. split; [|done]. unfold writeHeap. cbn. by rewrite insert_insert_eq. Qed.

Lemma write_deref h r : live h r -> writeHeap h r (deref h r) = h /\ writeRef r (deref h r) = r.
Proof.
  intros [[mp Hmp] _]. split; [|by destruct r].
  unfold writeHeap. rewrite insert_id; [by destruct h|].
  cbn. unfold load. rewrite Hmp. by destruct mp.
Qed.

(** The loop on references computes the batch on values and writes the value reached
    through the shared maps, on the error path too. *)
Lemma applyLoop_spec h r events acc :
  live h r ->
  applyLoop h r events acc =
    (writeHeap h r (fst (applyAll (deref h r) events acc)),
     match snd (applyAll (deref h r) events acc) with
     | Err err => Err err
     | Ok l => Ok (writeRef r (fst (applyAll (deref h r) events acc)), l)
     end).
Proof.
  revert h r acc. induction events as [|e rest IH]; intros h r acc Hl; cbn [applyLoop applyAll].
  - cbn. by destruct (write_deref _ _ Hl) as [-> ->].
  - unfold ApplyGroupEventRef. destruct (applyGroupEvent (deref h r) e) as [st [b|err]]; [|done].
    rewrite IH.
    + rewrite deref_write. destruct (write_write h r st
        (fst (applyAll st rest (if b then acc ++ [e] else acc)%list))) as [-> ->]. done.
    + destruct Hl as [_ Hn]. split; cbn; [|done]. by rewrite lookup_insert_eq.
Qed.

Lemma applyAll_group_id st es acc :
  g_ID (s_Group (fst (applyAll st es acc))) = g_ID (s_Group st).
Proof.
  revert st acc. induction es as [|e es IH]; intros st acc; cbn; [done|].
  pose proof (apply_group_id st e) as Hg.
  destruct (applyGroupEvent st e) as [st' [b|err]]; cbn in *; [|done]. by rewrite IH.
Qed.

Lemma applyAll_wf st es acc :
  Forall wf_event es -> wf_state st -> wf_state (fst (applyAll st es acc)).
Proof.
  revert st acc. induction es as [|e es IH]; intros st acc Hes Hst; cbn; [done|].
  inversion Hes as [|? ? He Hes']; subst.
  pose proof (apply_wf st e He Hst) as Hg.
  destruct (applyGroupEvent st e) as [st' [b|err]]; cbn in *; [|done]. by apply IH.
Qed.

(** ** Frame lemmas *)

Definition clonedHeap (h : Heap) (r : GroupStateRef) : Heap :=
  mkHeap (<[next h := load h (r_maps r)]> (cells h)) (S (next h)).
Definition clonedRef (h : Heap) (r : GroupStateRef) : GroupStateRef :=
  mkRef (r_Group r) (r_Version r) (r_LastKeyVersion r) (next h).

Lemma load_cloned h r l : (l < next h)%nat -> load (clonedHeap h r) l = load h l.
Proof. intros Hl. unfold load. cbn. rewrite lookup_insert_ne by lia. done. Qed.

Lemma live_cloned h r r' : live h r' -> live (clonedHeap h r) r'.
Proof.
  intros [Hs Hn]. split; cbn; [|lia]. rewrite lookup_insert_ne by lia. done.
Qed.

Lemma live_write h r st r' : live h r' -> live (writeHeap h r st) r'.
Proof.
  intros [Hs Hn]. split; cbn; [|done]. rewrite lookup_insert.
  by destruct (decide _); [eauto|].
Qed.

Lemma deref_cloned h r r' : live h r' -> deref (clonedHeap h r) r' = deref h r'.
Proof. intros [_ Hn]. unfold deref. by rewrite load_cloned. Qed.

Lemma deref_clonedRef h r : deref (clonedHeap h r) (clonedRef h r) = deref h r.
Proof.
  unfold deref, load. cbn. by rewrite lookup_insert_eq.
Qed.

(** The states of the registry after writing [st] through the maps of [r]: the stored
    struct is replaced by [r'], every other group reads as before. *)
Lemma view_update reg gid r r' h' log' st :
  reg_ok reg -> states reg !! gid = Some r ->
  (forall g q, g <> gid -> states reg !! g = Some q -> deref h' q = deref (heap reg) q) ->
  deref h' r' = st ->
  view (mkRegistry h' (<[gid := r']> (states reg)) log') = <[gid := st]> (view reg).
Proof.
  intros Hok Hr Hfr Hst. unfold view. cbn. apply map_eq. intros g.
  rewrite lookup_fmap. destruct (decide (g = gid)) as [->|Hne].
  - by rewrite !lookup_insert_eq, <- Hst.
  - rewrite !lookup_insert_ne, lookup_fmap by done.
    destruct (states reg !! g) as [q|] eqn:Eq; cbn; [|done]. f_equal. by apply (Hfr g).
Qed.

Lemma write_frame reg gid r st g q :
  reg_ok reg -> states reg !! gid = Some r -> g <> gid -> states reg !! g = Some q ->
  deref (writeHeap (clonedHeap (heap reg) r) r st) q = deref (heap reg) q.
Proof.
  intros Hok Hr Hne Hq. rewrite deref_write_other.
  - apply deref_cloned. by apply (ro_live _ Hok g).
  - intros Heq. apply Hne. by apply (ro_sep _ Hok g gid q r).
Qed.

Lemma reg_ok_update reg gid r r' h' log' :
  reg_ok reg -> states reg !! gid = Some r ->
  (forall q, live (heap reg) q -> live h' q) -> live h' r' -> g_ID (r_Group r') = gid ->
  r_maps r' = r_maps r \/ r_maps r' = next (heap reg) ->
  reg_ok (mkRegistry h' (<[gid := r']> (states reg)) log').
Proof.
  intros Hok Hr Hl Hlr Hid Hm.
  assert (Hsep : forall g q, g <> gid -> states reg !! g = Some q -> r_maps q <> r_maps r').
  { intros g q Hne Hq Heq. destruct Hm as [Hm|Hm]; rewrite Hm in Heq.
    - by apply Hne, (ro_sep _ Hok g gid q r).
    - destruct (ro_live _ Hok g q Hq) as [_ Hlt]. lia. }
  constructor; cbn.
  - intros g q. rewrite lookup_insert. destruct (decide (gid = g)) as [<-|];
      [by intros [= <-]|]. intros Hq. by apply Hl, (ro_live _ Hok g).
  - intros g q. rewrite lookup_insert. destruct (decide (gid = g)) as [<-|];
      [by intros [= <-]|]. by apply (ro_key _ Hok).
  - intros g1 g2 q1 q2. rewrite !lookup_insert.
    destruct (decide (gid = g1)) as [<-|H1], (decide (gid = g2)) as [<-|H2]; try done.
    + intros [= <-] Hq2 Heq. exfalso. by apply (Hsep g2 q2).
    + intros Hq1 [= <-] Heq. exfalso. by apply (Hsep g1 q1).
    + by apply (ro_sep _ Hok).
Qed.

Lemma insert_same_registry (reg : Registry) gid r h' log' :
  states reg !! gid = Some r ->
  mkRegistry h' (states reg) log' = mkRegistry h' (<[gid := r]> (states reg)) log'.
Proof. intros Hr. by rewrite insert_id. Qed.

(** What a batch that fails half way leaves in the registry: the members and event
    identifiers of the events before the failure, under the old version. *)
Definition leaked (old st : GroupState) : GroupState :=
  mkGroupState (s_Group old) (s_Version old) (s_AppliedEventIDs st) (s_Members st)
    (s_LastKeyVersion old).

Lemma deref_leaked h r st :
  live h r -> deref (writeHeap (clonedHeap h r) r st) r = leaked (deref h r) st.
Proof.
  intros Hl. unfold deref, leaked, writeHeap. by rewrite load_insert, decide_True.
Qed.

(** ** The commit, in one equation *)

Lemma ApplyEventsWithRollback_eq persist reg gid r es :
  reg_ok reg -> states reg !! gid = Some r -> es <> [] ->
  let old := deref (heap reg) r in
  let st := fst (applyAll old es []) in
  let h2 := writeHeap (clonedHeap (heap reg) r) r st in
  ApplyEventsWithRollback persist r es reg =
    match snd (applyAll old es []) with
    | Err err => (mkRegistry h2 (states reg) (eventLog reg), Err err)
    | Ok [] => (mkRegistry h2 (states reg) (eventLog reg), Ok (writeRef r st, []))
    | Ok l =>
        let reg2 := mkRegistry h2 (<[gid := writeRef r st]> (states reg))
          (<[gid := (default [] (eventLog reg !! gid) ++ l)%list]> (eventLog reg)) in
        match runPersist persist (view reg2) (eventLog reg2) with
        | None => (reg2, Ok (writeRef r st, l))
        | Some err =>
            (mkRegistry h2 (<[gid := clonedRef (heap reg) r]> (states reg))
               (<[gid := default [] (eventLog reg !! gid)]> (eventLog reg)), Err err)
        end
    end.
Proof.
  intros Hok Hr Hne old st h2. unfold ApplyEventsWithRollback.
  destruct es as [|e es']; [done|]. set (es := e :: es') in *.
  pose proof (ro_key _ Hok _ _ Hr) as Hid. pose proof (ro_live _ Hok _ _ Hr) as Hl.
  change (CloneState (heap reg) r)
    with (clonedHeap (heap reg) r, clonedRef (heap reg) r). cbn iota beta.
  rewrite applyLoop_spec by by apply live_cloned.
  rewrite deref_cloned by done. fold old. fold st. fold h2.
  destruct (snd (applyAll old es [])) as [[|a l]|err]; [done| |done].
  assert (Hg : g_ID (r_Group (writeRef r st)) = gid).
  { cbn. unfold st. rewrite applyAll_group_id. done. }
  rewrite Hg, Hid, bool_decide_true by by rewrite Hr.
  cbn [states eventLog]. by rewrite !insert_insert_eq.
Qed.

(** ** The abstract commit and the refinement *)

(** Two logs that give every group the same events (a group without a log has none). *)
Definition log_equiv (l1 l2 : gmap string (list GroupEvent)) : Prop :=
  forall g, default [] (l1 !! g) = default [] (l2 !! g).

#[export] Instance log_equiv_equivalence : Equivalence log_equiv.
Proof.
  split.
  - by intros l g.
  - intros l1 l2 H g. by rewrite H.
  - intros l1 l2 l3 H1 H2 g. by rewrite H1.
Qed.

Lemma log_equiv_restore log g : log_equiv (<[g := default [] (log !! g)]> log) log.
Proof.
  intros g'. rewrite lookup_insert. by destruct (decide (g = g')) as [->|].
Qed.

(** What the commit promises: the whole batch and its persistence, or nothing. *)
Definition spec_commit (persist : option SnapshotPersist) (vs : gmap string GroupState)
    (log : gmap string (list GroupEvent)) (gid : string) (old : GroupState)
    (es : list GroupEvent)
    : gmap string GroupState * gmap string (list GroupEvent)
      * result error (GroupState * list GroupEvent) :=
  match applyAll old es [] with
  | (_, Err err) => (vs, log, Err err)
  | (st, Ok []) => (vs, log, Ok (st, []))
  | (st, Ok l) =>
      let vs' := <[gid := st]> vs in
      let log' := <[gid := (default [] (log !! gid) ++ l)%list]> log in
      match runPersist persist vs' log' with
      | None => (vs', log', Ok (st, l))
      | Some err => (vs, log, Err err)
      end
  end.

(** A batch that fails, fails at its first event that is not a duplicate. *)
Definition fails_cleanly (old : GroupState) (es : list GroupEvent) : Prop :=
  forall err, snd (applyAll old es []) = Err err -> fst (applyAll old es []) = old.

Lemma single_fails_cleanly old e : fails_cleanly old [e].
Proof.
  intros err. cbn. destruct (applyGroupEvent old e) as [st [b|x]] eqn:E; cbn; [done|].
  intros _. by eapply apply_not_true.
Qed.

Lemma applyAll_nothing_applied old es acc st :
  applyAll old es acc = (st, Ok acc) -> st = old.
Proof.
  revert old. enough (H : forall old acc0 l, applyAll old es acc0 = (st, Ok l) ->
    exists n, l = (acc0 ++ n)%list /\ (n = [] -> st = old)).
  { intros old Ha. destruct (H old acc acc Ha) as (n & Hn & Hs). apply Hs.
    rewrite <- (app_nil_r acc) in Hn at 1. by apply app_inv_head in Hn. }
  induction es as [|e es IH]; intros old acc0 l; cbn.
  - intros [= -> ->]. exists []. by rewrite app_nil_r.
  - destruct (applyGroupEvent old e) as [st1 [[]|err]] eqn:E; [| |done].
    + intros (n & -> & _)%IH. exists (e :: n). by rewrite <- app_assoc.
    + intros (n & -> & Hs)%IH. exists n. split; [done|]. intros Hn. rewrite (Hs Hn).
      eapply apply_not_true; eauto.
Qed.

Section Commit.
Context (persist : option SnapshotPersist) (reg : Registry) (gid : string)
        (r : GroupStateRef) (es : list GroupEvent).
Hypothesis Hok : reg_ok reg.
Hypothesis Hr : states reg !! gid = Some r.

Let old := deref (heap reg) r.
Let st := fst (applyAll old es []).
Let h2 := writeHeap (clonedHeap (heap reg) r) r st.

Lemma live_h2 q : live (heap reg) q -> live h2 q.
Proof. intros Hq. by apply live_write, live_cloned. Qed.

Lemma live_r : live (heap reg) r.
Proof. by apply (ro_live _ Hok gid). Qed.

Lemma live_clone : live h2 (clonedRef (heap reg) r).
Proof.
  apply live_write. split; cbn; [|lia]. by rewrite lookup_insert_eq.
Qed.

Lemma deref_clone : deref h2 (clonedRef (heap reg) r) = old.
Proof.
  unfold h2. rewrite deref_write_other; [apply deref_clonedRef|].
  cbn. destruct live_r. lia.
Qed.

Lemma view_leak log' :
  view (mkRegistry h2 (states reg) log') = <[gid := leaked old st]> (view reg).
Proof.
  rewrite (insert_same_registry _ _ _ _ _ Hr). apply (view_update _ _ r); try done.
  - intros g q Hne Hq. by apply (write_frame _ gid _ _ g).
  - apply deref_leaked, live_r.
Qed.

Lemma view_commit log' :
  view (mkRegistry h2 (<[gid := writeRef r st]> (states reg)) log') = <[gid := st]> (view reg).
Proof.
  apply (view_update _ _ r); try done.
  - intros g q Hne Hq. by apply (write_frame _ gid _ _ g).
  - unfold h2. apply deref_write.
Qed.

Lemma view_rollback log' :
  view (mkRegistry h2 (<[gid := clonedRef (heap reg) r]> (states reg)) log') = view reg.
Proof.
  rewrite (view_update _ _ r _ _ _ old); try done.
  - apply insert_id. unfold view. by rewrite lookup_fmap, Hr.
  - intros g q Hne Hq. by apply (write_frame _ gid _ _ g).
  - apply deref_clone.
Qed.

Lemma leaked_same : st = old -> leaked old st = old.
Proof. intros ->. by destruct old. Qed.

Lemma view_leak_same log' : st = old -> view (mkRegistry h2 (states reg) log') = view reg.
Proof.
  intros Hs. rewrite view_leak, (leaked_same Hs). apply insert_id.
  unfold view. by rewrite lookup_fmap, Hr.
Qed.

Lemma ok_leak log' : reg_ok (mkRegistry h2 (states reg) log').
Proof.
  rewrite (insert_same_registry _ _ _ _ _ Hr). apply (reg_ok_update _ _ r); try done.
  - apply live_h2.
  - apply live_h2, live_r.
  - by apply (ro_key _ Hok gid).
  - by left.
Qed.

Lemma ok_commit log' : reg_ok (mkRegistry h2 (<[gid := writeRef r st]> (states reg)) log').
Proof.
  apply (reg_ok_update _ _ r); try done.
  - apply live_h2.
  - apply live_h2, live_r.
  - cbn. unfold st. rewrite applyAll_group_id. cbn. by apply (ro_key _ Hok gid).
  - by left.
Qed.

Lemma ok_rollback log' :
  reg_ok (mkRegistry h2 (<[gid := clonedRef (heap reg) r]> (states reg)) log').
Proof.
  apply (reg_ok_update _ _ r); try done.
  - apply live_h2.
  - apply live_clone.
  - cbn. by apply (ro_key _ Hok gid).
  - by right.
Qed.

Lemma commit_reg_ok : reg_ok (fst (ApplyEventsWithRollback persist r es reg)).
Proof.
  destruct (decide (es = [])) as [->|Hne]; [done|].
  rewrite (ApplyEventsWithRollback_eq _ _ _ _ _ Hok Hr Hne).
  fold old st h2. destruct (snd (applyAll old es [])) as [[|a l]|err];
    [apply ok_leak| |apply ok_leak].
  cbn zeta. case_match; [apply ok_rollback|apply ok_commit].
Qed.
End Commit.

(** A commit does not touch the other groups. *)
Lemma commit_other_groups persist reg gid r es g :
  reg_ok reg -> states reg !! gid = Some r -> gid <> g ->
  view (fst (ApplyEventsWithRollback persist r es reg)) !! g = view reg !! g.
Proof.
  intros Hok Hr Hg. destruct (decide (es = [])) as [->|Hne]; [done|].
  pose proof (view_commit reg gid r es Hok Hr) as Hvc.
  pose proof (view_leak reg gid r es Hok Hr) as Hvl.
  pose proof (view_rollback reg gid r es Hok Hr) as Hvr.
  rewrite (ApplyEventsWithRollback_eq _ _ _ _ _ Hok Hr Hne).
  destruct (snd (applyAll (deref (heap reg) r) es [])) as [[|a l]|err]; cbn [fst];
    rewrite ?Hvl, ?lookup_insert_ne by done; [done| |done].
  destruct (runPersist persist _ _); cbn [fst]; [by rewrite Hvr|].
  by rewrite Hvc, lookup_insert_ne.
Qed.

(** The refinement relation between the outcome of the code and that of the abstract commit:
    same states, same log, and a returned reference that reads as the returned state. *)
Definition outcome_refines (code : Registry * result error (GroupStateRef * list GroupEvent))
    (spec : gmap string GroupState * gmap string (list GroupEvent)
            * result error (GroupState * list GroupEvent)) : Prop :=
  let '(reg', res) := code in
  let '(vs', log', res') := spec in
  view reg' = vs' /\ log_equiv (eventLog reg') log'
  /\ match res with
     | Ok (r', l) => res' = Ok (deref (heap reg') r', l)
     | Err err => res' = Err err
     end.

Lemma commit_refines persist reg gid r es :
  reg_ok reg -> states reg !! gid = Some r -> fails_cleanly (deref (heap reg) r) es ->
  outcome_refines (ApplyEventsWithRollback persist r es reg)
    (spec_commit persist (view reg) (eventLog reg) gid (deref (heap reg) r) es).
Proof.
  intros Hok Hr Hclean. unfold spec_commit.
  destruct (decide (es = [])) as [->|Hne]; [done|].
  rewrite (ApplyEventsWithRollback_eq _ _ _ _ _ Hok Hr Hne).
  unfold fails_cleanly in Hclean.
  pose proof (view_commit reg gid r es Hok Hr) as Hvc.
  pose proof (view_leak_same reg gid r es Hok Hr) as Hvl.
  pose proof (view_rollback reg gid r es Hok Hr) as Hvr.
  pose proof (applyAll_nothing_applied (deref (heap reg) r) es []) as Hnil.
  unfold outcome_refines.
  destruct (applyAll (deref (heap reg) r) es []) as [st [[|a l]|err]]; cbn [fst snd] in *.
  - rewrite Hvl by by apply Hnil. cbn [heap]. by rewrite deref_write.
  - cbn zeta. rewrite Hvc. cbn [eventLog]. destruct (runPersist persist _ _).
    + rewrite Hvr. split; [done|]. split; [apply log_equiv_restore|done].
    + rewrite Hvc. cbn [heap]. by rewrite deref_write.
  - rewrite Hvl by by eapply Hclean. done.
Qed.

(** The state of the group after a commit of one event. *)
Lemma commit_one_state persist reg gid r e :
  reg_ok reg -> states reg !! gid = Some r ->
  view (fst (ApplyEventsWithRollback persist r [e] reg)) = view reg
  \/ view (fst (ApplyEventsWithRollback persist r [e] reg))
     = <[gid := fst (applyGroupEvent (deref (heap reg) r) e)]> (view reg).
Proof.
  intros Hok Hr. pose proof (commit_refines persist reg gid r [e] Hok Hr
                               (single_fails_cleanly _ _)) as H.
  destruct (ApplyEventsWithRollback _ _ _ _) as [reg' res]. unfold spec_commit in H. cbn [fst].
  cbn [applyAll] in H.
  destruct (applyGroupEvent (deref (heap reg) r) e) as [st1 [[]|err]]; cbn [fst app] in *;
    [|left; apply H|left; apply H].
  destruct (runPersist persist _ _); [left|right]; apply H.
Qed.

(** C10: [ApplyEventsWithRollback] refines the abstract commit for every batch that
    fails cleanly: the states and the log after the call are those of "the whole
    batch and its persistence, or nothing" (a failed [persist] is rolled back), and the
    state it returns is the one the abstract commit returns. *)
Theorem ApplyEventsWithRollback_refines (persist : option SnapshotPersist) (reg : Registry)
    (gid : string) (r : GroupStateRef) (es : list GroupEvent) :
  reg_ok reg -> states reg !! gid = Some r -> fails_cleanly (deref (heap reg) r) es ->
  outcome_refines (ApplyEventsWithRollback persist r es reg)
    (spec_commit persist (view reg) (eventLog reg) gid (deref (heap reg) r) es).
Proof. apply commit_refines. Qed.

(** A batch that fails after some of its events have been applied is not undone.
    The error is returned, the version, group data and key version stay, but the
    members and the recorded event identifiers in the registry are those reached by
    the events before the failing one, because the local state shares its maps with
    the stored one and only the persistence failure is rolled back. *)
Theorem failed_batch_leaks_its_prefix (persist : option SnapshotPersist) (reg : Registry)
    (gid : string) (r : GroupStateRef) (es : list GroupEvent) (st : GroupState) (err : error) :
  reg_ok reg -> states reg !! gid = Some r ->
  applyAll (deref (heap reg) r) es [] = (st, Err err) ->
  let '(reg', res) := ApplyEventsWithRollback persist r es reg in
  res = Err err /\ eventLog reg' = eventLog reg
  /\ view reg' = <[gid := leaked (deref (heap reg) r) st]> (view reg).
Proof.
  intros Hok Hr Ha. destruct (decide (es = [])) as [->|Hne]; [done|].
  rewrite (ApplyEventsWithRollback_eq _ _ _ _ _ Hok Hr Hne).
  pose proof (view_leak reg gid r es Hok Hr) as Hvl. rewrite Ha in *. cbn [fst snd] in *.
  by rewrite Hvl.
Qed.

(** ** The registry invariant with the log *)

(** The log of a group: valid events of that group, with versions 1, 2, ..., [Version]. *)
Record log_ok (st : GroupState) (log : list GroupEvent) : Prop := {
  lo_versions : e_Version <$> log = seqZ 1 (s_Version st);
  lo_events : Forall (fun e => ValidateGroupEvent e = None
                               /\ e_GroupID e = g_ID (s_Group st)) log
}.

Record reg_inv (reg : Registry) : Prop := {
  ri_ok : reg_ok reg;
  ri_wf : forall g st, view reg !! g = Some st -> wf_state st;
  ri_log : forall g st, view reg !! g = Some st ->
             log_ok st (default [] (eventLog reg !! g))
}.

Lemma accepts_version st e :
  wf_state st -> accepts st e -> e_Version e = s_Version st + 1.
Proof.
  intros Hst [Hv _ _ _ Hn]. pose proof (wf_version _ Hst) as Hr.
  assert (e_Version e <> 0).
  { revert Hv. unfold ValidateGroupEvent. repeat case_match; try done; lia. }
  destruct (decide (s_Version st + 1 = 2 ^ 64)) as [He|He].
  - rewrite He in Hn. change (u64 (2 ^ 64)) with 0 in Hn. lia.
  - rewrite u64_small in Hn by lia. done.
Qed.

Lemma applyAll_log es : forall st acc st' l,
  Forall wf_event es -> wf_state st -> applyAll st es acc = (st', Ok l) ->
  exists n, l = (acc ++ n)%list
    /\ s_Version st' = s_Version st + Z.of_nat (length n)
    /\ e_Version <$> n = seqZ (s_Version st + 1) (Z.of_nat (length n))
    /\ Forall (fun e => ValidateGroupEvent e = None /\ e_GroupID e = g_ID (s_Group st)) n.
Proof.
  induction es as [|e es IH]; intros st acc st' l Hes Hst; cbn.
  - intros [= -> ->]. exists []. rewrite app_nil_r. repeat split; [cbn; lia|constructor].
  - inversion Hes as [|? ? He Hes']; subst.
    pose proof (apply_wf st e He Hst) as Hw. pose proof (apply_group_id st e) as Hg.
    destruct (apply_cases st e) as [[Ha E]|(E & Hn & _)].
    + rewrite E in *. cbn [fst] in *. intros H.
      destruct (IH _ _ _ _ Hes' Hw H) as (n & -> & Hv & Hs & Hf).
      pose proof (accepts_version _ _ Hst Ha) as Hev. cbn [s_Version commitEvent] in Hv, Hs.
      exists (e :: n). rewrite <- app_assoc. split; [done|].
      rewrite Hev in *. split; [cbn [length]; lia|]. split.
      * rewrite seqZ_cons by (cbn [length]; lia). cbn. rewrite Hev, Hs. f_equal.
        f_equal; lia.
      * constructor; [split; apply Ha|]. revert Hf. by rewrite Hg.
    + destruct (applyGroupEvent st e) as [st1 [[]|err]]; cbn [fst snd] in *; try done.
      subst st1. by apply IH.
Qed.

Lemma leaked_wf old st : wf_state old -> wf_state st ->
  g_ID (s_Group st) = g_ID (s_Group old) -> wf_state (leaked old st).
Proof.
  intros Ho Hs Hg. constructor; cbn; try apply Ho; try apply Hs.
  rewrite <- Hg. apply Hs.
Qed.

Lemma reg_inv_update reg reg' gid st :
  reg_inv reg -> reg_ok reg' -> view reg' = <[gid := st]> (view reg) -> wf_state st ->
  log_ok st (default [] (eventLog reg' !! gid)) ->
  (forall g, g <> gid -> eventLog reg' !! g = eventLog reg !! g) ->
  reg_inv reg'.
Proof.
  intros [Hok Hwf Hlog] Hok' Hv Hst Hl Hother.
  constructor; [done| |]; intros g s; rewrite Hv, lookup_insert;
    destruct (decide (gid = g)) as [<-|Hne]; try (by intros [= <-]).
  - apply Hwf.
  - rewrite Hother by done. apply Hlog.
Qed.

(** The invariant does not depend on cells no stored state refers to. *)
Lemma reg_inv_heap reg h' log' :
  reg_inv reg ->
  (forall q, live (heap reg) q -> live h' q) ->
  (forall q, live (heap reg) q -> deref h' q = deref (heap reg) q) ->
  (forall g q, states reg !! g = Some q -> log' !! g = eventLog reg !! g) ->
  reg_inv (mkRegistry h' (states reg) log').
Proof.
  intros [Hok Hwf Hlog] Hl Hd Hlg.
  assert (Hv : view (mkRegistry h' (states reg) log') = view reg).
  { unfold view. cbn. apply map_fmap_ext. intros k q Hq. by apply Hd, (ro_live _ Hok k). }
  constructor.
  - constructor; cbn; intros *; intros; eauto using ro_live, ro_key, ro_sep.
  - intros k s. rewrite Hv. apply Hwf.
  - intros k s. rewrite Hv. cbn. intros Hk. pose proof (Hlog k s Hk) as H.
    unfold view in Hk. rewrite lookup_fmap in Hk.
    destruct (states reg !! k) as [q|] eqn:Eq; [|done]. by rewrite (Hlg k q).
Qed.

(** Every outcome of a commit keeps the invariant. *)
Lemma commit_reg_inv persist reg gid r es :
  reg_inv reg -> states reg !! gid = Some r -> Forall wf_event es ->
  reg_inv (fst (ApplyEventsWithRollback persist r es reg)).
Proof.
  intros Hinv Hr Hes. pose proof (ri_ok _ Hinv) as Hok.
  pose proof (commit_reg_ok persist reg gid r es Hok Hr) as Hok'.
  destruct (decide (es = [])) as [->|Hne]; [done|].
  set (old := deref (heap reg) r).
  assert (Hview : view reg !! gid = Some old) by (unfold view; by rewrite lookup_fmap, Hr).
  pose proof (ri_wf _ Hinv _ _ Hview) as Hwf.
  pose proof (ri_log _ Hinv _ _ Hview) as Hlog.
  pose proof (applyAll_wf old es [] Hes Hwf) as Hwf'.
  pose proof (applyAll_group_id old es []) as Hgid.
  pose proof (view_commit reg gid r es Hok Hr) as Hvc.
  pose proof (view_leak reg gid r es Hok Hr) as Hvl.
  pose proof (view_rollback reg gid r es Hok Hr) as Hvr.
  pose proof (applyAll_log es old []) as Hall.
  rewrite (ApplyEventsWithRollback_eq _ _ _ _ _ Hok Hr Hne) in *.
  fold old in Hvc, Hvl, Hvr, Hok' |- *.
  assert (Hlogleak : forall st, log_ok (leaked old st) (default [] (eventLog reg !! gid)))
    by (intros st; constructor; apply Hlog).
  destruct (applyAll old es []) as [st [[|a l]|err]]; cbn [fst snd] in *.
  - apply (reg_inv_update reg _ gid (leaked old st)); try done. by apply leaked_wf.
  - cbn zeta in Hok' |- *. destruct (runPersist persist _ _); cbn [fst] in *.
    + apply (reg_inv_update reg _ gid old); cbn [eventLog]; try done.
      * rewrite Hvr. symmetry. by apply insert_id.
      * by rewrite lookup_insert_eq.
      * intros g Hg. by rewrite lookup_insert_ne.
    + apply (reg_inv_update reg _ gid st); cbn [eventLog]; try done.
      * rewrite lookup_insert_eq. cbn.
        destruct (Hall st (a :: l) Hes Hwf eq_refl) as (n & Hn & Hv & Hs & Hf).
        cbn in Hn. subst n. destruct Hlog as [Hlv Hle].
        constructor; [|rewrite Hgid; by apply Forall_app].
        rewrite fmap_app, Hlv, Hs, Hv.
        pose proof (wf_version _ Hwf). rewrite seqZ_app by lia. f_equal. f_equal. lia.
      * intros g Hg. by rewrite lookup_insert_ne.
  - apply (reg_inv_update reg _ gid (leaked old st)); try done. by apply leaked_wf.
Qed.

(** ** Concrete registries for the witnesses *)

Definition ex_members : gmap string GroupMember :=
  <["alice" := ex_member "alice" "owner" "active"]>
    (<["bob" := ex_member "bob" "admin" "active"]>
      (<["carol" := ex_member "carol" "user" "invited"]> ∅)).

(** One group at version 3, with the given key version. *)
Definition ex_registry (key : Z) : Registry :=
  mkRegistry (mkHeap {[0%nat := mkMaps {["e1"; "e2"; "e3"]} ex_members]} 1)
    {["g1" := mkRef ex_group 3 key 0]}
    {["g1" := [ex_add "e1" 1 "alice" "alice" "owner"; ex_add "e2" 2 "alice" "bob" "admin";
               ex_add "e3" 3 "alice" "carol" "user"]]}.

Lemma ex_registry_ok key : reg_ok (ex_registry key).
Proof.
  constructor; cbn.
  - intros g r [<- <-]%lookup_singleton_Some. split; cbn; [by eexists|lia].
  - by intros g r [<- <-]%lookup_singleton_Some.
  - by intros g1 g2 r1 r2 [<- <-]%lookup_singleton_Some [<- <-]%lookup_singleton_Some.
Qed.

Lemma ex_registry_inv key : 0 <= key < 2 ^ 32 -> reg_inv (ex_registry key).
Proof.
  intros Hk. constructor; [apply ex_registry_ok| |];
    intros g st; unfold view; cbn; rewrite map_fmap_singleton;
    intros [<- <-]%lookup_singleton_Some.
  - constructor; cbn; try lia; [done| |].
    + intros id Hid. change (id ∈ ({["e1"; "e2"; "e3"]} : gset string)) in Hid.
      revert Hid. rewrite !elem_of_union, !elem_of_singleton. by intros [[->| ->]| ->].
    + change (map_Forall (wf_member "g1") ex_members).
      repeat (apply map_Forall_insert_2; [constructor; done|]). apply map_Forall_empty.
  - constructor; [done|]. cbn. repeat constructor.
Qed.

Definition ex_drop (typ id : string) (v : Z) (actor member : string) : GroupEvent :=
  mkGroupEvent id "g1" v typ actor 5 member "" "" "" "" 0.

Definition ex_rotate (id : string) (v : Z) (actor : string) (key : Z) : GroupEvent :=
  mkGroupEvent id "g1" v GroupEventTypeKeyRotate actor 5 "" "" "" "" "" key.

Lemma ApplyEventsWithRollback_refines_witness :
  exists reg', fst (ApplyEventsWithRollback (Some (fun _ _ => Some (errorsNew "disk full")))
              (mkRef ex_group 3 1 0) [ex_add "e4" 4 "carol" "carol" "user"] (ex_registry 1)) = reg'
    /\ view reg' = view (ex_registry 1).
Proof.
  eexists. split; [reflexivity|].
  pose proof (ApplyEventsWithRollback_refines (Some (fun _ _ => Some (errorsNew "disk full")))
     (ex_registry 1) "g1" (mkRef ex_group 3 1 0) [ex_add "e4" 4 "carol" "carol" "user"]
     (ex_registry_ok 1) eq_refl (single_fails_cleanly _ _)) as H.
  destruct (ApplyEventsWithRollback _ _ _ _) as [reg' res]. exact (proj1 H).
Defined.

Lemma failed_batch_leaks_its_prefix_witness :
  exists st, view (fst (ApplyEventsWithRollback None (mkRef ex_group 3 4294967295 0)
               [ex_drop GroupEventTypeMemberRemove "e4" 4 "alice" "bob"; ex_rotate "e5" 5 "alice" 0]
               (ex_registry 4294967295))) !! "g1" = Some st
    /\ member_status st "bob" = Some GroupMemberStatusRemoved /\ s_Version st = 3.
Proof.
  pose proof (failed_batch_leaks_its_prefix None (ex_registry 4294967295) "g1"
     (mkRef ex_group 3 4294967295 0)
     [ex_drop GroupEventTypeMemberRemove "e4" 4 "alice" "bob"; ex_rotate "e5" 5 "alice" 0]
     (fst (applyAll (deref (heap (ex_registry 4294967295)) (mkRef ex_group 3 4294967295 0))
        [ex_drop GroupEventTypeMemberRemove "e4" 4 "alice" "bob"; ex_rotate "e5" 5 "alice" 0] []))
     ErrInvalidGroupEventPayload (ex_registry_ok _) eq_refl eq_refl) as H.
  destruct (ApplyEventsWithRollback _ _ _ _) as [reg' res]. destruct H as (_ & _ & H).
  cbn [fst]. rewrite H, lookup_insert_eq. eexists. split; [reflexivity|].
  split; vm_compute; reflexivity.
Defined.
