(* ===== verification/GroupMembership.v ===== *)
(** * The membership service

    Models internal/domains/group/usecase/membership_service.go: the local operations on
    groups (create, invite, leave, update, delete, accept, decline, remove, change role)
    over the shared registry. A service value is [States], [EventLog], [Persist],
    [Notify] and [GenerateEventID]; the operations run under the runtime's write lock
    (daemonservice/group_runtime_support.go, [withGroupMembership]), so each of them is a
    sequential step on the world below. [Persist] and the generators are parameters. *)
From S2P Require Import Prelude GroupModel RateLimiter GroupRuntime.
From stdpp Require Import base gmap strings list sets option.
From Stdlib Require Import ZArith Lia.
Open Scope string_scope.
Open Scope Z_scope.
Open Scope go_scope.

(** The state an operation works on: the registry, the abuse protection object, the state of
    the identifier generator, and the events handed to [Notify], oldest first. *)
Record World (F L G : Type) := mkWorld {
  w_reg : Registry;
  w_abuse : AbuseProtection F L;
  w_gen : G;
  w_notified : list GroupEvent
}.
Arguments mkWorld {F L G} _ _ _ _.
Arguments w_reg {F L G} _.
Arguments w_abuse {F L G} _.
Arguments w_gen {F L G} _.
Arguments w_notified {F L G} _.

Section MembershipService.
Context {F L G : Type}.
Context (NewLimiter : F -> Z -> L) (AllowN : L -> Z -> Z -> L * bool).
Context (Persist : option SnapshotPersist) (hasNotify : bool).
Context (GenerateEventID : option (G -> string * G)).

Abbreviation W := (World F L G).
Abbreviation op := (M W error).

(** ** Access to the world *)

Definition with_reg (w : W) (reg : Registry) : W :=
  mkWorld reg (w_abuse w) (w_gen w) (w_notified w).
Definition with_abuse (w : W) (p : AbuseProtection F L) : W :=
  mkWorld (w_reg w) p (w_gen w) (w_notified w).
Definition with_gen (w : W) (g : G) : W :=
  mkWorld (w_reg w) (w_abuse w) g (w_notified w).

(** [if abuse != nil && !abuse.AllowX(actorID, now) { return rate limit error }];
    [abuse] tells whether the pointer is there. *)
Definition checkInvite (abuse : bool) (actorID : string) (now : Z) : op unit := fun w =>
  if abuse then
    let '(p, ok) := AllowInvite NewLimiter AllowN (w_abuse w) actorID now in
    (with_abuse w p, if ok then Ok tt else Err ErrGroupRateLimitExceeded)
  else (w, Ok tt).

Definition checkMembership (abuse : bool) (actorID : string) (now : Z) : op unit := fun w =>
  if abuse then
    let '(p, ok) := AllowMembership NewLimiter AllowN (w_abuse w) actorID now in
    (with_abuse w p, if ok then Ok tt else Err ErrGroupRateLimitExceeded)
  else (w, Ok tt).

Definition checkQuotas (abuse : bool) (state : GroupState) : op unit := fun w =>
  (w, if abuse then
        match EnforceInviteQuotas (w_abuse w) state with
        | Some err => Err err
        | None => Ok tt
        end
      else Ok tt).

Definition loadState (groupID actorID : string) (requireActive : bool) : op GroupStateRef :=
  fun w => (w, LoadStateForActor (w_reg w) groupID actorID requireActive).

(** [s.States[groupID]] with its presence. *)
Definition lookupState (groupID : string) : op (option GroupStateRef) :=
  fun w => (w, Ok (states (w_reg w) !! groupID)).

(** Read a state's fields and maps as they are now. *)
Definition readState (r : GroupStateRef) : op GroupState :=
  fun w => (w, Ok (deref (heap (w_reg w)) r)).

(** ** generateEventID, applyEvents and the key rotation *)

Definition generateEventID : op string := fun w =>
  match GenerateEventID with
  | None => (w, Ok "gevt_fallback")
  | Some gen => let '(id, g') := gen (w_gen w) in (with_gen w g', Ok id)
  end.

Definition applyEvents (state : GroupStateRef) (events : list GroupEvent) : op GroupStateRef :=
  fun w =>
    let '(reg', res) := ApplyEventsWithRollback Persist state events (w_reg w) in
    match res with
    | Err err => (with_reg w reg', Err err)
    | Ok (nxt, applied) =>
        (mkWorld reg' (w_abuse w) (w_gen w)
           (w_notified w ++ (if hasNotify then applied else []))%list, Ok nxt)
    end.

Definition applyEvent (state : GroupStateRef) (event : GroupEvent) : op GroupStateRef :=
  applyEvents state [event].

(** [nextKeyVersion]: uint32 arithmetic. *)
Definition nextKeyVersion (last : Z) : Z := if last =? 0 then 1 else u32 (last + 1).

Definition applyMembershipChangeWithKeyRotation (state : GroupStateRef) (change : GroupEvent)
    : op GroupStateRef :=
  let! id := generateEventID in
  let rotate := mkGroupEvent id (e_GroupID change) (u64 (e_Version change + 1))
                  GroupEventTypeKeyRotate (e_ActorID change) (e_OccurredAt change)
                  "" "" "" "" "" (nextKeyVersion (r_LastKeyVersion state)) in
  applyEvents state [change; rotate].

(** The events the operations build. *)
Definition memberEvent (typ id groupID actorID memberID role : string) (version now : Z)
    : GroupEvent :=
  mkGroupEvent id groupID version typ actorID now memberID role "" "" "" 0.

(** ** The operations *)

(** The three attempts at an unused identifier. *)
Fixpoint allocGroupID (gen : string -> G -> G * result error string) (tries : nat) : op string :=
  match tries with
  | O => retM ""
  | S tries' => fun w =>
      let '(g', res) := gen "group" (w_gen w) in
      let w' := with_gen w g' in
      match res with
      | Err err => (w', Err err)
      | Ok candidate =>
          match states (w_reg w') !! candidate with
          | Some _ => allocGroupID gen tries' w'
          | None => (w', Ok candidate)
          end
      end
  end.

Definition genID (gen : string -> G -> G * result error string) (prefix : string) : op string :=
  fun w => let '(g', res) := gen prefix (w_gen w) in (with_gen w g', res).

(** The state of a new group: the owner's [member_add], then the owner made active
    and the key version set by hand. *)
Definition createdState (groupID title identityID eventID : string) (now : Z)
    : result error (GroupState * GroupEvent) :=
  let group := mkGroup groupID title "" "" identityID now now in
  let event := memberEvent GroupEventTypeMemberAdd eventID groupID identityID identityID
                 GroupMemberRoleOwner 1 now in
  let '(st, res) := applyGroupEvent (NewGroupState group) event in
  match res with
  | Err err => Err err
  | Ok _ =>
      let o := default zeroGroupMember (s_Members st !! identityID) in
      let owner := mkGroupMember (m_GroupID o) (m_MemberID o) (m_Role o)
                     GroupMemberStatusActive (m_InvitedAt o) now now in
      let g := s_Group st in
      Ok (mkGroupState (mkGroup (g_ID g) (g_Title g) (g_Description g) (g_Avatar g)
                          (g_CreatedBy g) (g_CreatedAt g) now)
            (s_Version st) (s_AppliedEventIDs st)
            (<[identityID := owner]> (s_Members st)) 1, event)
  end.

(** Store the new group, persist, and take it out again when that fails. *)
Definition commitCreate (groupID : string) (st : GroupState) (event : GroupEvent)
    : op (Group * GroupEvent) := fun w =>
  let reg := w_reg w in
  let '(h, l) := alloc (heap reg) (mkMaps (s_AppliedEventIDs st) (s_Members st)) in
  let ref := mkRef (s_Group st) (s_Version st) (s_LastKeyVersion st) l in
  let reg2 := mkRegistry h (<[groupID := ref]> (states reg))
                (<[groupID := [event]]> (eventLog reg)) in
  match runPersist Persist (view reg2) (eventLog reg2) with
  | Some err =>
      (with_reg w (mkRegistry h (delete groupID (states reg2))
                     (delete groupID (eventLog reg2))), Err err)
  | None =>
      (mkWorld reg2 (w_abuse w) (w_gen w)
         (w_notified w ++ (if hasNotify then [event] else []))%list, Ok (s_Group st, event))
  end.

Definition CreateGroup (title identityID : string) (now : Z)
    (generateID : option (string -> G -> G * result error string)) : op (Group * GroupEvent) :=
  let! title := liftM (NormalizeGroupTitle title) in
  let! identityID := liftM (NormalizeGroupMemberID identityID) in
  match generateID with
  | None => failM (errorsNew "id generator is required")
  | Some gen =>
      let! groupID := allocGroupID gen 3 in
      rejectM (groupID == "") (errorsNew "failed to allocate unique group id") ;;!
      let! eventID := genID gen "gevt" in
      let! '(st, event) := liftM (createdState groupID title identityID eventID now) in
      commitCreate groupID st event
  end.

Definition InviteToGroup (groupID actorID memberID : string) (now : Z)
    (isBlockedSender : option (string -> bool)) (abuse : bool)
    : op (GroupMember * GroupEvent) :=
  let! groupID := liftM (NormalizeGroupID groupID) in
  let! actorID := liftM (NormalizeGroupMemberID actorID) in
  let! memberID := liftM (NormalizeGroupMemberID memberID) in
  rejectM (memberID == actorID) ErrGroupCannotInviteSelf ;;!
  rejectM (match isBlockedSender with Some f => f memberID | None => false end)
    ErrGroupMemberBlocked ;;!
  checkInvite abuse actorID now ;;!
  let! state := loadState groupID actorID true in
  let! st := readState state in
  let actor := default zeroGroupMember (s_Members st !! actorID) in
  rejectM (negb (CanManageMembers actor)) ErrGroupPermissionDenied ;;!
  match (match s_Members st !! memberID with
         | Some existing =>
             if (m_Status existing == GroupMemberStatusInvited)
                || (m_Status existing == GroupMemberStatusActive)
             then Some existing else None
         | None => None
         end) with
  | Some existing => retM (existing, zeroGroupEvent)
  | None =>
      checkQuotas abuse st ;;!
      let! id := generateEventID in
      let event := memberEvent GroupEventTypeMemberAdd id groupID actorID memberID
                     GroupMemberRoleUser (u64 (r_Version state + 1)) now in
      let! nxt := applyEvent state event in
      let! nst := readState nxt in
      match s_Members nst !! memberID with
      | None => failM ErrGroupMembershipNotFound
      | Some member => retM (member, event)
      end
  end.

Definition LeaveGroup (groupID actorID : string) (now : Z) (abuse : bool)
    : op (bool * GroupEvent) :=
  let! groupID := liftM (NormalizeGroupID groupID) in
  let! actorID := liftM (NormalizeGroupMemberID actorID) in
  checkMembership abuse actorID now ;;!
  let! found := lookupState groupID in
  match found with
  | None => failM ErrGroupNotFound
  | Some state =>
      let! st := readState state in
      match s_Members st !! actorID with
      | None => failM ErrGroupMembershipNotFound
      | Some member =>
          if (m_Status member == GroupMemberStatusLeft)
             || (m_Status member == GroupMemberStatusRemoved)
          then retM (true, zeroGroupEvent) else
          let! id := generateEventID in
          let event := memberEvent GroupEventTypeMemberLeave id groupID actorID actorID ""
                         (u64 (r_Version state + 1)) now in
          applyMembershipChangeWithKeyRotation state event ;;!
          retM (true, event)
      end
  end.

Definition UpdateGroupProfile (groupID actorID title description avatar : string) (now : Z)
    (abuse : bool) : op (Group * GroupEvent) :=
  let! groupID := liftM (NormalizeGroupID groupID) in
  let! actorID := liftM (NormalizeGroupMemberID actorID) in
  let! title := liftM (NormalizeGroupTitle title) in
  let description := TrimSpace description in
  let avatar := TrimSpace avatar in
  checkMembership abuse actorID now ;;!
  let! state := loadState groupID actorID true in
  let! st := readState state in
  let actor := default zeroGroupMember (s_Members st !! actorID) in
  rejectM (negb (CanManageMembers actor)) ErrGroupPermissionDenied ;;!
  if (g_Title (s_Group st) == title) && (g_Description (s_Group st) == description)
     && (g_Avatar (s_Group st) == avatar)
  then retM (s_Group st, zeroGroupEvent) else
  let! id := generateEventID in
  let event := mkGroupEvent id groupID (u64 (r_Version state + 1)) GroupEventTypeProfileChange
                 actorID now "" "" title description avatar 0 in
  let! nxt := applyEvent state event in
  retM (r_Group nxt, event).

Definition UpdateGroupTitle (groupID actorID title : string) (now : Z) (abuse : bool)
    : op (Group * GroupEvent) :=
  let! groupID := liftM (NormalizeGroupID groupID) in
  let! actorID := liftM (NormalizeGroupMemberID actorID) in
  checkMembership abuse actorID now ;;!
  let! state := loadState groupID actorID true in
  UpdateGroupProfile groupID actorID title (g_Description (r_Group state))
    (g_Avatar (r_Group state)) now false.

(** Delete the group and its log, persist, and put back what was there when that fails. *)
Definition commitDelete (groupID : string) : op bool := fun w =>
  let reg := w_reg w in
  let reg2 := mkRegistry (heap reg) (delete groupID (states reg))
                (delete groupID (eventLog reg)) in
  match runPersist Persist (view reg2) (eventLog reg2) with
  | Some err =>
      (with_reg w (mkRegistry (heap reg)
         (match states reg !! groupID with
          | Some s => <[groupID := s]> (states reg2) | None => states reg2 end)
         (match eventLog reg !! groupID with
          | Some l => <[groupID := l]> (eventLog reg2) | None => eventLog reg2 end)), Err err)
  | None => (with_reg w reg2, Ok true)
  end.

Definition DeleteGroup (groupID actorID : string) (now : Z) (abuse : bool) : op bool :=
  let! groupID := liftM (NormalizeGroupID groupID) in
  let! actorID := liftM (NormalizeGroupMemberID actorID) in
  checkMembership abuse actorID now ;;!
  let! state := loadState groupID actorID true in
  let! st := readState state in
  let actor := default zeroGroupMember (s_Members st !! actorID) in
  rejectM (negb (IsOwner actor)) ErrGroupPermissionDenied ;;!
  commitDelete groupID.

Definition loadActorMembershipState (groupID actorID : string) (now : Z) (abuse : bool)
    : op (string * string * GroupStateRef * option GroupMember) :=
  let! groupID := liftM (NormalizeGroupID groupID) in
  let! actorID := liftM (NormalizeGroupMemberID actorID) in
  checkMembership abuse actorID now ;;!
  let! state := loadState groupID actorID false in
  let! st := readState state in
  retM (groupID, actorID, state, s_Members st !! actorID).

Definition applySelfMembershipChange (state : GroupStateRef) (groupID actorID : string)
    (now : Z) (eventType role : string) : op GroupEvent :=
  let! id := generateEventID in
  let event := memberEvent eventType id groupID actorID actorID
                 (if eventType == GroupEventTypeMemberAdd then role else "")
                 (u64 (r_Version state + 1)) now in
  applyMembershipChangeWithKeyRotation state event ;;!
  retM event.

Definition AcceptGroupInvite (groupID actorID : string) (now : Z) (abuse : bool)
    : op (bool * GroupEvent) :=
  let! '(groupID, actorID, state, found) := loadActorMembershipState groupID actorID now abuse in
  match found with
  | None => failM ErrGroupMembershipNotFound
  | Some member =>
      if m_Status member == GroupMemberStatusActive then retM (true, zeroGroupEvent) else
      rejectM (negb (m_Status member == GroupMemberStatusInvited)) ErrInvalidGroupMemberState ;;!
      let! event := applySelfMembershipChange state groupID actorID now
                      GroupEventTypeMemberAdd (m_Role member) in
      retM (true, event)
  end.

Definition DeclineGroupInvite (groupID actorID : string) (now : Z) (abuse : bool)
    : op (bool * GroupEvent) :=
  let! '(groupID, actorID, state, found) := loadActorMembershipState groupID actorID now abuse in
  match found with
  | None => retM (true, zeroGroupEvent)
  | Some member =>
      if m_Status member == GroupMemberStatusRemoved then retM (true, zeroGroupEvent) else
      rejectM (negb (m_Status member == GroupMemberStatusInvited)) ErrInvalidGroupMemberState ;;!
      let! event := applySelfMembershipChange state groupID actorID now
                      GroupEventTypeMemberRemove "" in
      retM (true, event)
  end.

Definition RemoveGroupMember (groupID actorID memberID : string) (now : Z) (abuse : bool)
    : op (bool * GroupEvent) :=
  let! groupID := liftM (NormalizeGroupID groupID) in
  let! actorID := liftM (NormalizeGroupMemberID actorID) in
  let! memberID := liftM (NormalizeGroupMemberID memberID) in
  checkMembership abuse actorID now ;;!
  let! state := loadState groupID actorID true in
  let! st := readState state in
  let actor := default zeroGroupMember (s_Members st !! actorID) in
  rejectM (negb (CanManageMembers actor)) ErrGroupPermissionDenied ;;!
  match s_Members st !! memberID with
  | None => failM ErrGroupMembershipNotFound
  | Some target =>
      rejectM (IsOwner target) ErrGroupPermissionDenied ;;!
      if m_Status target == GroupMemberStatusRemoved then retM (true, zeroGroupEvent) else
      let! id := generateEventID in
      let event := memberEvent GroupEventTypeMemberRemove id groupID actorID memberID ""
                     (u64 (r_Version state + 1)) now in
      applyMembershipChangeWithKeyRotation state event ;;!
      retM (true, event)
  end.

Definition ChangeGroupMemberRole (groupID actorID memberID role : string) (now : Z)
    (abuse : bool) : op (GroupMember * GroupEvent) :=
  let! groupID := liftM (NormalizeGroupID groupID) in
  let! actorID := liftM (NormalizeGroupMemberID actorID) in
  let! memberID := liftM (NormalizeGroupMemberID memberID) in
  checkMembership abuse actorID now ;;!
  let! state := loadState groupID actorID true in
  let! st := readState state in
  let actor := default zeroGroupMember (s_Members st !! actorID) in
  rejectM (negb (IsOwner actor)) ErrGroupPermissionDenied ;;!
  match s_Members st !! memberID with
  | None => failM ErrGroupMembershipNotFound
  | Some target =>
      rejectM (IsOwner target) ErrGroupPermissionDenied ;;!
      rejectM (negb (CanMutateRole target)) ErrInvalidGroupMemberState ;;!
      if m_Role target == role then retM (target, zeroGroupEvent) else
      let! id := generateEventID in
      let event := memberEvent GroupEventTypeMemberAdd id groupID actorID memberID role
                     (u64 (r_Version state + 1)) now in
      let! nxt := applyEvent state event in
      let! nst := readState nxt in
      match s_Members nst !! memberID with
      | None => failM ErrGroupMembershipNotFound
      | Some member => retM (member, event)
      end
  end.

(** ** The access policy of the local operations

    The batches an operation of [actor] may commit on the group state [st]. *)
Definition actor_is (st : GroupState) (actor : string) (ok : GroupMember -> bool) : Prop :=
  exists m, s_Members st !! actor = Some m /\ m_Status m = GroupMemberStatusActive
            /\ ok m = true.

Inductive policy (gid : string) (st : GroupState) (actor : string) : list GroupEvent -> Prop :=
| pol_invite id member now :
    actor_is st actor CanManageMembers -> member <> actor -> TrimSpace member = member ->
    (forall m, s_Members st !! member = Some m ->
       m_Status m <> GroupMemberStatusInvited /\ m_Status m <> GroupMemberStatusActive) ->
    policy gid st actor
      [memberEvent GroupEventTypeMemberAdd id gid actor member GroupMemberRoleUser
         (u64 (s_Version st + 1)) now]
| pol_profile id title description avatar now :
    actor_is st actor CanManageMembers ->
    policy gid st actor
      [mkGroupEvent id gid (u64 (s_Version st + 1)) GroupEventTypeProfileChange actor now
         "" "" title description avatar 0]
| pol_role id member role now m :
    actor_is st actor IsOwner -> TrimSpace member = member ->
    s_Members st !! member = Some m -> IsOwner m = false -> CanMutateRole m = true ->
    policy gid st actor
      [memberEvent GroupEventTypeMemberAdd id gid actor member role
         (u64 (s_Version st + 1)) now]
| pol_remove id id2 member now m :
    actor_is st actor CanManageMembers -> TrimSpace member = member ->
    s_Members st !! member = Some m -> IsOwner m = false ->
    policy gid st actor
      [memberEvent GroupEventTypeMemberRemove id gid actor member "" (u64 (s_Version st + 1)) now;
       mkGroupEvent id2 gid (u64 (u64 (s_Version st + 1) + 1)) GroupEventTypeKeyRotate actor now
         "" "" "" "" "" (nextKeyVersion (s_LastKeyVersion st))]
| pol_leave id id2 now m :
    s_Members st !! actor = Some m -> TrimSpace actor = actor ->
    policy gid st actor
      [memberEvent GroupEventTypeMemberLeave id gid actor actor "" (u64 (s_Version st + 1)) now;
       mkGroupEvent id2 gid (u64 (u64 (s_Version st + 1) + 1)) GroupEventTypeKeyRotate actor now
         "" "" "" "" "" (nextKeyVersion (s_LastKeyVersion st))]
| pol_accept id id2 now m :
    s_Members st !! actor = Some m -> m_Status m = GroupMemberStatusInvited ->
    TrimSpace actor = actor ->
    policy gid st actor
      [memberEvent GroupEventTypeMemberAdd id gid actor actor (m_Role m)
         (u64 (s_Version st + 1)) now;
       mkGroupEvent id2 gid (u64 (u64 (s_Version st + 1) + 1)) GroupEventTypeKeyRotate actor now
         "" "" "" "" "" (nextKeyVersion (s_LastKeyVersion st))]
| pol_decline id id2 now m :
    s_Members st !! actor = Some m -> m_Status m = GroupMemberStatusInvited ->
    TrimSpace actor = actor ->
    policy gid st actor
      [memberEvent GroupEventTypeMemberRemove id gid actor actor "" (u64 (s_Version st + 1)) now;
       mkGroupEvent id2 gid (u64 (u64 (s_Version st + 1) + 1)) GroupEventTypeKeyRotate actor now
         "" "" "" "" "" (nextKeyVersion (s_LastKeyVersion st))].

(** What an operation of [actor] does to the registry: nothing, or one commit of a
    batch the policy allows on the state as it is. *)
Inductive local_commit (actor : string) (reg : Registry) : Registry -> Prop :=
| lc_none : local_commit actor reg reg
| lc_batch gid r es :
    states reg !! gid = Some r -> policy gid (deref (heap reg) r) actor es ->
    local_commit actor reg (fst (ApplyEventsWithRollback Persist r es reg)).

(** ** Weakest preconditions of the building blocks *)

Lemma wp_checkInvite abuse a now Q (w : W) :
  (forall w' r, w_reg w' = w_reg w -> Q w' r) -> wp (checkInvite abuse a now) Q w.
Proof.
  intros H. unfold wp, checkInvite. destruct abuse; [|by apply H].
  destruct (AllowInvite _ _ _ _ _). by apply H.
Qed.

Lemma wp_checkMembership abuse a now Q (w : W) :
  (forall w' r, w_reg w' = w_reg w -> Q w' r) -> wp (checkMembership abuse a now) Q w.
Proof.
  intros H. unfold wp, checkMembership. destruct abuse; [|by apply H].
  destruct (AllowMembership _ _ _ _ _). by apply H.
Qed.

Lemma wp_checkQuotas abuse st Q (w : W) :
  (forall r, Q w r) -> wp (checkQuotas abuse st) Q w.
Proof. intros H. apply H. Qed.

Lemma wp_generateEventID Q (w : W) :
  (forall w' id, w_reg w' = w_reg w -> Q w' (Ok id)) -> wp generateEventID Q w.
Proof.
  intros H. unfold wp, generateEventID. destruct GenerateEventID as [gen|]; [|by apply H].
  destruct (gen (w_gen w)). by apply H.
Qed.

Lemma LoadStateForActor_ok reg g a req r :
  LoadStateForActor reg g a req = Ok r ->
  states reg !! g = Some r
  /\ exists m, s_Members (deref (heap reg) r) !! TrimSpace a = Some m
               /\ (req = true -> m_Status m = GroupMemberStatusActive).
Proof.
  unfold LoadStateForActor, NormalizeGroupMemberID, bindR.
  destruct (states reg !! g) as [r0|]; [|done].
  case_bool_decide; [done|].
  destruct (s_Members _ !! _) as [m|] eqn:Em; [|done].
  destruct req; cbn; [case_bool_decide; cbn; [|done]|];
    intros [= <-]; (split; [done|]); exists m; by auto.
Qed.

Lemma wp_loadState g a req Q (w : W) :
  (forall e, Q w (Err e)) ->
  (forall r m, states (w_reg w) !! g = Some r ->
     s_Members (deref (heap (w_reg w)) r) !! TrimSpace a = Some m ->
     (req = true -> m_Status m = GroupMemberStatusActive) -> Q w (Ok r)) ->
  wp (loadState g a req) Q w.
Proof.
  intros He Hr. unfold wp, loadState.
  destruct (LoadStateForActor _ _ _ _) as [r|e] eqn:E; [|done].
  apply LoadStateForActor_ok in E as (H1 & m & H2 & H3). by apply (Hr r m).
Qed.

Lemma wp_readState r Q (w : W) :
  Q w (Ok (deref (heap (w_reg w)) r)) -> wp (readState r) Q w.
Proof. done. Qed.

(** A commit followed by anything that leaves the registry alone. *)
Lemma wp_applyEvents r es Q (w : W) :
  (forall w' res, w_reg w' = fst (ApplyEventsWithRollback Persist r es (w_reg w)) -> Q w' res) ->
  wp (applyEvents r es) Q w.
Proof.
  intros H. unfold wp, applyEvents.
  destruct (ApplyEventsWithRollback _ _ _ _) as [reg' [[nxt l]|e]]; by apply H.
Qed.

Lemma NormalizeGroupMemberID_ok s t :
  NormalizeGroupMemberID s = Ok t -> t = TrimSpace s /\ TrimSpace t = t.
Proof.
  unfold NormalizeGroupMemberID. case_bool_decide; [done|]. intros [= <-].
  split; [done|apply TrimSpace_idemp].
Qed.

(** The registry did not change on the way to an early return. *)
Ltac unchanged := cbn; repeat match goal with H : w_reg _ = w_reg _ |- _ => rewrite H end;
                  apply lc_none.

Ltac wp_norm :=
  apply wp_bind, wp_lift;
  [let t := fresh "t" in let H := fresh "Ht" in intros t H;
     try (apply NormalizeGroupMemberID_ok in H as [-> ?])
  |intros ? _; unchanged].

Ltac wp_check lem :=
  apply wp_bind, lem;
  let w' := fresh "w" in let H := fresh "Hw" in
  intros w' [[]|?] H; [|unchanged].

Ltac wp_guard :=
  apply wp_bind, wp_reject; [intros _; unchanged|].

(** Load the state for the actor, then read it. *)
Ltac wp_load :=
  apply wp_bind, wp_loadState; [intros ?; unchanged|];
  let r := fresh "r" in let m := fresh "actor" in
  intros r m Hr Hm Hact; apply wp_bind, wp_readState; cbn beta iota zeta;
  rewrite TrimSpace_idemp in Hm;
  match type of Hm with s_Members ?x !! _ = _ => set (st := x) in * end.

Ltac finish_commit :=
  intros ? ? ->; repeat match goal with H : w_reg _ = w_reg _ |- _ => rewrite H end.

Lemma wp_rotation actor g r change Q (w : W) :
  (forall w' res id2,
     w_reg w' = fst (ApplyEventsWithRollback Persist r
       [change; mkGroupEvent id2 (e_GroupID change) (u64 (e_Version change + 1))
          GroupEventTypeKeyRotate actor (e_OccurredAt change) "" "" "" "" ""
          (nextKeyVersion (s_LastKeyVersion g))] (w_reg w)) -> Q w' res) ->
  e_ActorID change = actor -> s_LastKeyVersion g = r_LastKeyVersion r ->
  wp (applyMembershipChangeWithKeyRotation r change) Q w.
Proof.
  intros HQ Ha Hk. unfold applyMembershipChangeWithKeyRotation.
  apply wp_bind, wp_generateEventID. intros w1 id2 Hw1.
  apply wp_applyEvents. intros w2 res Hw2. apply (HQ w2 res id2).
  by rewrite Hw2, Hw1, Ha, Hk.
Qed.

Lemma InviteToGroup_policy gid a member now blk abuse w :
  local_commit (TrimSpace a) (w_reg w) (w_reg (fst (InviteToGroup gid a member now blk abuse w))).
Proof.
  apply (wp_run _ (fun w' _ => local_commit (TrimSpace a) (w_reg w) (w_reg w'))).
  unfold InviteToGroup. wp_norm. wp_norm. wp_norm.
  wp_guard. intros Hne%bool_decide_eq_false. wp_guard. intros _.
  wp_check wp_checkInvite. wp_load.
  wp_guard. rewrite Hm. cbn [default]. intros Hc%negb_false_iff.
  assert (Ha : actor_is st (TrimSpace a) CanManageMembers) by (exists actor; auto).
  assert (Hx : match s_Members st !! TrimSpace member with
      | Some ex => if (m_Status ex == GroupMemberStatusInvited)
                      || (m_Status ex == GroupMemberStatusActive) then Some ex else None
      | None => None end = None ->
      forall m, s_Members st !! TrimSpace member = Some m ->
       m_Status m <> GroupMemberStatusInvited /\ m_Status m <> GroupMemberStatusActive).
  { intros Hn m Em. rewrite Em in Hn. by repeat case_bool_decide. }
  destruct (match s_Members st !! _ with Some _ => _ | None => None end) as [ex|];
    [unchanged|]. specialize (Hx eq_refl).
  apply wp_bind, wp_checkQuotas. intros [[]|?]; [|unchanged].
  apply wp_bind, wp_generateEventID. intros w1 id Hw1.
  apply wp_bind, wp_applyEvents. intros w2 res Hw2.
  assert (Hreg : local_commit (TrimSpace a) (w_reg w) (w_reg w2)).
  { rewrite Hw2, Hw1, <- Hw. apply (lc_batch _ _ t); [done|]. by apply pol_invite. }
  destruct res as [nxt|e]; [|done]. apply wp_bind, wp_readState. cbn beta iota.
  destruct (s_Members (deref (heap (w_reg w2)) nxt) !! _); exact Hreg.
Qed.

Lemma LeaveGroup_policy gid a now abuse w :
  local_commit (TrimSpace a) (w_reg w) (w_reg (fst (LeaveGroup gid a now abuse w))).
Proof.
  apply (wp_run _ (fun w' _ => local_commit (TrimSpace a) (w_reg w) (w_reg w'))).
  unfold LeaveGroup. wp_norm. wp_norm. wp_check wp_checkMembership.
  apply wp_bind. unfold wp at 1, lookupState.
  destruct (states (w_reg w0) !! t) as [r|] eqn:Hr; [|unchanged].
  apply wp_bind, wp_readState. cbn beta iota. set (st := deref _ r).
  destruct (s_Members st !! TrimSpace a) as [m|] eqn:Hm; [|unchanged].
  apply wp_if; intros _; [unchanged|].
  apply wp_bind, wp_generateEventID. intros w1 id Hw1. cbn beta iota zeta.
  apply wp_bind. apply (wp_rotation (TrimSpace a) st); [|done|done].
  intros w2 res id2 Hw2.
  assert (Hreg : local_commit (TrimSpace a) (w_reg w) (w_reg w2)).
  { rewrite Hw2, Hw1, <- Hw. apply (lc_batch _ _ t); [done|]. by eapply pol_leave. }
  by destruct res.
Qed.

Lemma UpdateGroupProfile_policy gid a title desc avatar now abuse w :
  local_commit (TrimSpace a) (w_reg w)
    (w_reg (fst (UpdateGroupProfile gid a title desc avatar now abuse w))).
Proof.
  apply (wp_run _ (fun w' _ => local_commit (TrimSpace a) (w_reg w) (w_reg w'))).
  unfold UpdateGroupProfile. wp_norm. wp_norm. wp_norm. cbn zeta.
  wp_check wp_checkMembership. wp_load.
  wp_guard. rewrite Hm. cbn [default]. intros Hc%negb_false_iff.
  apply wp_if; intros _; [unchanged|].
  apply wp_bind, wp_generateEventID. intros w1 id Hw1. cbn beta iota zeta.
  apply wp_bind, wp_applyEvents. intros w2 res Hw2.
  assert (Hreg : local_commit (TrimSpace a) (w_reg w) (w_reg w2)).
  { rewrite Hw2, Hw1, <- Hw. apply (lc_batch _ _ t); [done|].
    apply pol_profile. exists actor. auto. }
  by destruct res.
Qed.

Lemma UpdateGroupTitle_policy gid a title now abuse w :
  local_commit (TrimSpace a) (w_reg w) (w_reg (fst (UpdateGroupTitle gid a title now abuse w))).
Proof.
  apply (wp_run _ (fun w' _ => local_commit (TrimSpace a) (w_reg w) (w_reg w'))).
  unfold UpdateGroupTitle. wp_norm. wp_norm. wp_check wp_checkMembership.
  apply wp_bind, wp_loadState; [intros ?; unchanged|]. intros r m _ _ _.
  pose proof (UpdateGroupProfile_policy t (TrimSpace a) title (g_Description (r_Group r))
                (g_Avatar (r_Group r)) now false w0) as Hp.
  rewrite TrimSpace_idemp, Hw in Hp. unfold wp. by destruct (UpdateGroupProfile _ _ _ _ _ _ _ _).
Qed.

(** The common start of accepting and declining an invite. *)
Lemma wp_loadActorMembershipState gid a now abuse Q (w : W) :
  (forall w' e, w_reg w' = w_reg w -> Q w' (Err e)) ->
  (forall w' g r m, w_reg w' = w_reg w -> states (w_reg w) !! g = Some r ->
     s_Members (deref (heap (w_reg w)) r) !! TrimSpace a = Some m ->
     Q w' (Ok (g, TrimSpace a, r, Some m))) ->
  wp (loadActorMembershipState gid a now abuse) Q w.
Proof.
  intros He Hok. unfold loadActorMembershipState.
  apply wp_bind, wp_lift; [intros g Hg|intros e _; by apply He].
  apply wp_bind, wp_lift; [intros t [-> _]%NormalizeGroupMemberID_ok|intros e _; by apply He].
  apply wp_bind, wp_checkMembership. intros w1 [[]|e] Hw1; [|by apply He].
  apply wp_bind, wp_loadState; [intros e; by apply He|]. intros r m Hr Hm _.
  rewrite TrimSpace_idemp in Hm. apply wp_bind, wp_readState. rewrite Hm, Hw1 in *.
  by apply wp_ret, Hok.
Qed.

Lemma AcceptGroupInvite_policy gid a now abuse w :
  local_commit (TrimSpace a) (w_reg w) (w_reg (fst (AcceptGroupInvite gid a now abuse w))).
Proof.
  apply (wp_run _ (fun w' _ => local_commit (TrimSpace a) (w_reg w) (w_reg w'))).
  unfold AcceptGroupInvite. apply wp_bind, wp_loadActorMembershipState; [intros; unchanged|].
  intros w0 g r m Hw Hr Hm. cbn beta iota.
  apply wp_if; intros _; [unchanged|]. wp_guard.
  intros Hi%negb_false_iff%bool_decide_eq_true. apply wp_bind.
  unfold applySelfMembershipChange. apply wp_bind, wp_generateEventID. intros w1 id Hw1.
  rewrite bool_decide_true by done. cbn beta iota zeta.
  apply wp_bind. apply (wp_rotation (TrimSpace a) (deref (heap (w_reg w)) r)); [|done|done].
  intros w2 res id2 Hw2.
  assert (Hreg : local_commit (TrimSpace a) (w_reg w) (w_reg w2)).
  { rewrite Hw2, Hw1, Hw. apply (lc_batch _ _ g); [done|].
    apply pol_accept; [done|done|apply TrimSpace_idemp]. }
  by destruct res.
Qed.

Lemma DeclineGroupInvite_policy gid a now abuse w :
  local_commit (TrimSpace a) (w_reg w) (w_reg (fst (DeclineGroupInvite gid a now abuse w))).
Proof.
  apply (wp_run _ (fun w' _ => local_commit (TrimSpace a) (w_reg w) (w_reg w'))).
  unfold DeclineGroupInvite. apply wp_bind, wp_loadActorMembershipState; [intros; unchanged|].
  intros w0 g r m Hw Hr Hm. cbn beta iota.
  apply wp_if; intros _; [unchanged|]. wp_guard.
  intros Hi%negb_false_iff%bool_decide_eq_true. apply wp_bind.
  unfold applySelfMembershipChange. apply wp_bind, wp_generateEventID. intros w1 id Hw1.
  rewrite bool_decide_false by done. cbn beta iota zeta.
  apply wp_bind. apply (wp_rotation (TrimSpace a) (deref (heap (w_reg w)) r)); [|done|done].
  intros w2 res id2 Hw2.
  assert (Hreg : local_commit (TrimSpace a) (w_reg w) (w_reg w2)).
  { rewrite Hw2, Hw1, Hw. apply (lc_batch _ _ g); [done|].
    eapply pol_decline; [done|done|apply TrimSpace_idemp]. }
  by destruct res.
Qed.

Lemma RemoveGroupMember_policy gid a member now abuse w :
  local_commit (TrimSpace a) (w_reg w)
    (w_reg (fst (RemoveGroupMember gid a member now abuse w))).
Proof.
  apply (wp_run _ (fun w' _ => local_commit (TrimSpace a) (w_reg w) (w_reg w'))).
  unfold RemoveGroupMember. wp_norm. wp_norm. wp_norm.
  wp_check wp_checkMembership. wp_load.
  wp_guard. rewrite Hm. cbn [default]. intros Hc%negb_false_iff.
  destruct (s_Members st !! TrimSpace member) as [target|] eqn:Ht0; [|unchanged].
  wp_guard. intros Hown. apply wp_if; intros _; [unchanged|].
  apply wp_bind, wp_generateEventID. intros w1 id Hw1. cbn beta iota zeta.
  apply wp_bind. apply (wp_rotation (TrimSpace a) st); [|done|done].
  intros w2 res id2 Hw2.
  assert (Hreg : local_commit (TrimSpace a) (w_reg w) (w_reg w2)).
  { rewrite Hw2, Hw1, <- Hw. apply (lc_batch _ _ t); [done|].
    eapply pol_remove; try done. exists actor. auto. }
  by destruct res.
Qed.

Lemma ChangeGroupMemberRole_policy gid a member role now abuse w :
  local_commit (TrimSpace a) (w_reg w)
    (w_reg (fst (ChangeGroupMemberRole gid a member role now abuse w))).
Proof.
  apply (wp_run _ (fun w' _ => local_commit (TrimSpace a) (w_reg w) (w_reg w'))).
  unfold ChangeGroupMemberRole. wp_norm. wp_norm. wp_norm.
  wp_check wp_checkMembership. wp_load.
  wp_guard. rewrite Hm. cbn [default]. intros Hc%negb_false_iff.
  destruct (s_Members st !! TrimSpace member) as [target|] eqn:Ht0; [|unchanged].
  wp_guard. intros Hown. wp_guard. intros Hmut%negb_false_iff.
  apply wp_if; intros _; [unchanged|].
  apply wp_bind, wp_generateEventID. intros w1 id Hw1. cbn beta iota zeta.
  apply wp_bind, wp_applyEvents. intros w2 res Hw2.
  assert (Hreg : local_commit (TrimSpace a) (w_reg w) (w_reg w2)).
  { rewrite Hw2, Hw1, <- Hw. apply (lc_batch _ _ t); [done|].
    eapply pol_role; try done. exists actor. auto. }
  destruct res as [nxt|e]; [|done]. apply wp_bind, wp_readState. cbn beta iota.
  destruct (s_Members (deref (heap (w_reg w2)) nxt) !! _); exact Hreg.
Qed.

(** ** Calls of the local operations *)

(** A call by [actor] of one of the operations on an existing group. *)
Inductive local_call : string -> (W -> W) -> Prop :=
| call_invite g a m now blk ab :
    local_call (TrimSpace a) (fun w => fst (InviteToGroup g a m now blk ab w))
| call_leave g a now ab : local_call (TrimSpace a) (fun w => fst (LeaveGroup g a now ab w))
| call_title g a t now ab :
    local_call (TrimSpace a) (fun w => fst (UpdateGroupTitle g a t now ab w))
| call_profile g a t d v now ab :
    local_call (TrimSpace a) (fun w => fst (UpdateGroupProfile g a t d v now ab w))
| call_accept g a now ab :
    local_call (TrimSpace a) (fun w => fst (AcceptGroupInvite g a now ab w))
| call_decline g a now ab :
    local_call (TrimSpace a) (fun w => fst (DeclineGroupInvite g a now ab w))
| call_remove g a m now ab :
    local_call (TrimSpace a) (fun w => fst (RemoveGroupMember g a m now ab w))
| call_role g a m role now ab :
    local_call (TrimSpace a) (fun w => fst (ChangeGroupMemberRole g a m role now ab w)).

Lemma local_call_policy a f w :
  local_call a f -> local_commit a (w_reg w) (w_reg (f w)).
Proof.
  destruct 1; [apply InviteToGroup_policy|apply LeaveGroup_policy|apply UpdateGroupTitle_policy
    |apply UpdateGroupProfile_policy|apply AcceptGroupInvite_policy|apply DeclineGroupInvite_policy
    |apply RemoveGroupMember_policy|apply ChangeGroupMemberRole_policy].
Qed.

Lemma nextKeyVersion_range k : 0 <= nextKeyVersion k < 2 ^ 32.
Proof. unfold nextKeyVersion. destruct (k =? 0); [lia|apply u32_range]. Qed.

Lemma policy_wf_events gid st a es : policy gid st a es -> Forall wf_event es.
Proof.
  pose proof (nextKeyVersion_range (s_LastKeyVersion st)) as Hk.
  destruct 1; repeat apply Forall_cons_2; try apply Forall_nil_2; unfold wf_event; cbn; split;
    try apply u64_range; lia.
Qed.

(** Every local call keeps the registry invariant. *)
Lemma local_commit_inv a reg reg' : local_commit a reg reg' -> reg_inv reg -> reg_inv reg'.
Proof.
  destruct 1 as [|gid r es Hr Hp]; [done|]. intros Hinv.
  apply (commit_reg_inv _ _ gid); [done..|]. by eapply policy_wf_events.
Qed.

(** ** Members an event does not name *)

Definition spares (k : string) (e : GroupEvent) : Prop :=
  TrimSpace (e_MemberID e) <> k
  \/ (e_Type e <> GroupEventTypeMemberAdd /\ e_Type e <> GroupEventTypeMemberRemove
      /\ e_Type e <> GroupEventTypeMemberLeave).

Lemma apply_spares st e k :
  wf_state st -> spares k e -> s_Members (fst (applyGroupEvent st e)) !! k = s_Members st !! k.
Proof.
  intros Hst Hsp. destruct (apply_cases st e) as [[_ ->]|(-> & _)]; [|done]. cbn.
  rewrite applyEventBody_lookup by done. destruct (decide _) as [->|]; [|done].
  destruct Hsp as [Hne|(H1 & H2 & H3)]; [done|]. unfold memberEffect.
  by rewrite !bool_decide_false.
Qed.

Lemma applyAll_spares k es : forall st acc,
  wf_state st -> Forall wf_event es -> Forall (spares k) es ->
  s_Members (fst (applyAll st es acc)) !! k = s_Members st !! k.
Proof.
  induction es as [|e es IH]; intros st acc Hst Hes Hsp; cbn; [done|].
  inversion Hes; inversion Hsp; subst.
  pose proof (apply_wf st e) as Hw. pose proof (apply_spares st e k) as Hs.
  destruct (applyGroupEvent st e) as [st' [b|err]]; cbn in *; [|auto].
  rewrite IH; auto.
Qed.

(** A commit, whatever its outcome, leaves the record of a spared member as it was. *)
Lemma commit_spares reg gid r es g k st m :
  reg_inv reg -> states reg !! gid = Some r -> Forall wf_event es ->
  Forall (spares k) es -> view reg !! g = Some st -> s_Members st !! k = Some m ->
  exists st', view (fst (ApplyEventsWithRollback Persist r es reg)) !! g = Some st'
              /\ s_Members st' !! k = Some m.
Proof.
  intros Hinv Hr Hes Hsp Hg Hm. pose proof (ri_ok _ Hinv) as Hok.
  destruct (decide (es = [])) as [->|Hne]; [eauto|].
  pose proof (view_commit reg gid r es Hok Hr) as Hvc.
  pose proof (view_leak reg gid r es Hok Hr) as Hvl.
  pose proof (view_rollback reg gid r es Hok Hr) as Hvr.
  assert (Hview : view reg !! gid = Some (deref (heap reg) r))
    by (unfold view; by rewrite lookup_fmap, Hr).
  assert (Hmem : g = gid -> s_Members (fst (applyAll (deref (heap reg) r) es [])) !! k = Some m).
  { intros ->. rewrite applyAll_spares; try done; [congruence|].
    by apply (ri_wf _ Hinv gid). }
  rewrite (ApplyEventsWithRollback_eq _ _ _ _ _ Hok Hr Hne).
  destruct (applyAll (deref (heap reg) r) es []) as [st1 res]; cbn [fst snd] in *.
  assert (Hupd : forall x, s_Members x = s_Members st1 ->
     exists st', <[gid := x]> (view reg) !! g = Some st' /\ s_Members st' !! k = Some m).
  { intros x Hx. destruct (decide (g = gid)) as [->|Hn].
    - exists x. rewrite lookup_insert_eq, Hx. auto.
    - exists st. by rewrite lookup_insert_ne. }
  destruct res as [[|e l]|err]; cbn [fst];
    [rewrite Hvl; by apply Hupd| |rewrite Hvl; by apply Hupd].
  destruct (runPersist Persist _ _); cbn [fst].
  - rewrite Hvr. eauto.
  - rewrite Hvc. by apply Hupd.
Qed.

Definition active_owner (reg : Registry) (gid k : string) : Prop :=
  exists st m, view reg !! gid = Some st /\ s_Members st !! k = Some m
               /\ m_Role m = GroupMemberRoleOwner /\ m_Status m = GroupMemberStatusActive.

Lemma policy_spares_owners gid st a es k m :
  policy gid st a es -> k <> a -> s_Members st !! k = Some m ->
  m_Role m = GroupMemberRoleOwner -> m_Status m = GroupMemberStatusActive ->
  Forall (spares k) es.
Proof.
  intros Hp Hka Hm Hrole Hstat.
  assert (Howner : IsOwner m = true) by (unfold IsOwner; by rewrite Hrole).
  assert (Hrot : forall id g v act now key,
    spares k (mkGroupEvent id g v GroupEventTypeKeyRotate act now "" "" "" "" "" key))
    by (intros; right; done).
  destruct Hp as [id member now Ha Hne Ht Hex| |id member role now m' Ha Ht Hm' Ho _
    |id id2 member now m' Ha Ht Hm' Ho| | |];
    repeat apply Forall_cons_2; try apply Forall_nil_2; try apply Hrot; try (by right);
    left; cbn; rewrite ?Ht; try congruence.
  intros ->. by destruct (Hex _ Hm).
Qed.

(** C9: Access control of the local operations. Whatever its arguments and outcome, a call
    by [actor] changes the registry by nothing at all or by one commit of a batch that
    the policy allows [actor] on the current state: inviting and editing need an active
    owner or admin, role changes an active owner, removal an active owner or admin and a
    target that is not an owner, and leaving, accepting and declining concern the
    actor's own membership. *)
Theorem local_operations_follow_policy (actor : string) (f : W -> W) (w : W) :
  local_call actor f -> local_commit actor (w_reg w) (w_reg (f w)).
Proof. apply local_call_policy. Qed.

(** Active owners are safe from others: no local call of another member takes the
    owner role or the active status from an active owner of any group, even when the
    call fails half way. *)
Theorem local_operations_protect_owners (actor gid k : string) (f : W -> W) (w : W) :
  reg_inv (w_reg w) -> local_call actor f -> k <> actor ->
  active_owner (w_reg w) gid k -> active_owner (w_reg (f w)) gid k.
Proof.
  intros Hinv Hcall Hne (st & m & Hg & Hm & Hrole & Hstat).
  destruct (local_call_policy _ _ w Hcall) as [|g r es Hr Hp]; [by exists st, m|].
  assert (Hsp : Forall (spares k) es \/ g <> gid).
  { destruct (decide (g = gid)) as [->|]; [left|by right].
    eapply policy_spares_owners; try done.
    unfold view in Hg. rewrite lookup_fmap, Hr in Hg. by injection Hg as ->. }
  assert (exists st', view (fst (ApplyEventsWithRollback Persist r es (w_reg w))) !! gid
            = Some st' /\ s_Members st' !! k = Some m) as (st' & Hg' & Hm').
  { destruct Hsp as [Hsp|Hgne].
    - eapply commit_spares; try done. by eapply policy_wf_events.
    - exists st. split; [|done]. rewrite <- Hg.
      eapply commit_other_groups; [by apply ri_ok|done|done]. }
  exists st', m. done.
Qed.

(** ** Creating and deleting *)

Lemma allocGroupID_fresh gen n (w w' : W) g :
  allocGroupID gen n w = (w', Ok g) ->
  w_reg w' = w_reg w /\ (g = "" \/ states (w_reg w) !! g = None).
Proof.
  revert w. induction n as [|n IH]; intros w; cbn; [intros [= <- <-]; auto|].
  destruct (gen "group" (w_gen w)) as [g' [c|e]]; [|done].
  cbn. destruct (states (w_reg w) !! c) as [r|] eqn:Ec.
  - intros H%IH. exact H.
  - intros [= <- <-]. auto.
Qed.

Lemma allocGroupID_reg gen n (w : W) : w_reg (fst (allocGroupID gen n w)) = w_reg w.
Proof.
  revert w. induction n as [|n IH]; intros w; cbn; [done|].
  destruct (gen "group" (w_gen w)) as [g' [c|e]]; [|done].
  cbn. destruct (states (w_reg w) !! c) as [r|]; [by rewrite IH|done].
Qed.

Lemma createdState_ok g title id ev now st event :
  TrimSpace id = id -> createdState g title id ev now = Ok (st, event) ->
  wf_state st /\ s_Group st = mkGroup g title "" "" id now now /\ s_Version st = 1
  /\ s_LastKeyVersion st = 1
  /\ s_Members st = {[id := mkGroupMember g id GroupMemberRoleOwner GroupMemberStatusActive
                              now now now]}
  /\ log_ok st [event].
Proof.
  intros Hid. unfold createdState.
  set (e := memberEvent _ _ _ _ _ _ _ _).
  set (s0 := NewGroupState _).
  destruct (apply_cases s0 e) as [[Ha E]|(_ & Hn & Hna)].
  2:{ destruct (applyGroupEvent s0 e) as [s1 [b|err]] eqn:E; [|done].
      destruct b; [done|]. exfalso. unfold applyGroupEvent in E. revert E.
      by repeat case_match. }
  rewrite E. destruct Ha as [Hv Hi _ _ _].
  assert (Hm : s_Members (applyEventBody s0 e) =
               {[id := mkGroupMember g id GroupMemberRoleOwner GroupMemberStatusInvited
                         now 0 now]}).
  { unfold applyEventBody. rewrite bool_decide_true by done. subst s0 e. cbn [NewGroupState
      with_members s_Members memberEvent e_MemberID s_Group]. rewrite lookup_empty.
    cbn -[insert]. by rewrite Hid, insert_empty. }
  assert (Hg : s_Group (applyEventBody s0 e) = mkGroup g title "" "" id now now) by done.
  pose proof (applyEventBody_applied s0 e) as Hap.
  assert (Hnb : TrimSpace id <> "").
  { destruct (validate_event_add e Hv eq_refl) as [H _]. exact H. }
  pose proof (validate_event_id e Hv) as Hev.
  change (TrimSpace g <> "") in Hi.
  assert (Hlog : Forall (fun e' => ValidateGroupEvent e' = None /\ e_GroupID e' = g) [e])
    by by repeat constructor.
  assert (Hver : e_Version e = 1) by done.
  destruct (applyEventBody s0 e) as [bg bv ba bm bk]. cbn in Hm, Hg, Hap. subst bm bg ba.
  clearbody e. cbn -[insert singletonM lookup union]. intros [= <- <-].
  rewrite lookup_singleton_eq. cbn -[insert singletonM union]. rewrite insert_singleton_eq.
  split; [|repeat split; try done].
  2:{ cbn. by rewrite Hver. }
  constructor; cbn -[insert singletonM union]; try done; try lia.
  - intros x [->%elem_of_singleton|Hx]%elem_of_union; [done|by apply not_elem_of_empty in Hx].
  - by apply map_Forall_singleton.
Qed.

Lemma view_alloc reg g mp ref log' :
  reg_ok reg -> r_maps ref = next (heap reg) ->
  view (mkRegistry (fst (alloc (heap reg) mp)) (<[g := ref]> (states reg)) log')
  = <[g := mkGroupState (r_Group ref) (r_Version ref) (gm_AppliedEventIDs mp)
             (gm_Members mp) (r_LastKeyVersion ref)]> (view reg).
Proof.
  intros Hok Hm. unfold view. cbn [states heap alloc fst]. apply map_eq. intros k.
  rewrite lookup_fmap, !lookup_insert.
  destruct (decide (g = k)) as [->|Hne].
  - cbn. unfold deref, load. cbn. by rewrite Hm, lookup_insert_eq.
  - rewrite lookup_fmap. destruct (states reg !! k) as [q|] eqn:Eq; cbn; [|done].
    f_equal. destruct (ro_live _ Hok k q Eq) as [_ Hlt].
    unfold deref, load. cbn. by rewrite lookup_insert_ne by lia.
Qed.

Lemma reg_ok_alloc reg g mp ref log' :
  reg_ok reg -> g_ID (r_Group ref) = g -> r_maps ref = next (heap reg) ->
  reg_ok (mkRegistry (fst (alloc (heap reg) mp)) (<[g := ref]> (states reg)) log').
Proof.
  intros Hok Hg Hm.
  assert (Hlt : forall k q, states reg !! k = Some q -> (r_maps q < next (heap reg))%nat)
    by (intros k q Hq; apply (ro_live _ Hok k q Hq)).
  constructor; cbn.
  - intros k q. rewrite lookup_insert. destruct (decide (g = k)) as [->|].
    + intros [= <-]. split; cbn; [by rewrite Hm, lookup_insert_eq|lia].
    + intros Hq. destruct (ro_live _ Hok k q Hq) as [Hs Hn]. split; cbn; [|lia].
      by rewrite lookup_insert_ne by lia.
  - intros k q. rewrite lookup_insert. destruct (decide (g = k)) as [->|];
      [by intros [= <-]|apply (ro_key _ Hok)].
  - intros k1 k2 q1 q2. rewrite !lookup_insert.
    destruct (decide (g = k1)) as [<-|], (decide (g = k2)) as [<-|]; try done.
    + intros [= <-] Hq2. apply Hlt in Hq2. lia.
    + intros Hq1 [= <-]. apply Hlt in Hq1. lia.
    + apply (ro_sep _ Hok).
Qed.

(** What [CreateGroup] by [identityID] may do to the registry. *)
Definition created (identityID : string) (now : Z) (w w' : W)
    (res : result error (Group * GroupEvent)) : Prop :=
  match res with
  | Err _ => view (w_reg w') = view (w_reg w)
  | Ok (g, event) =>
      view (w_reg w) !! g_ID g = None
      /\ exists st, view (w_reg w') = <[g_ID g := st]> (view (w_reg w))
      /\ s_Group st = g /\ s_Version st = 1 /\ s_LastKeyVersion st = 1
      /\ s_Members st = {[TrimSpace identityID :=
           mkGroupMember (g_ID g) (TrimSpace identityID) GroupMemberRoleOwner
             GroupMemberStatusActive now now now]}
      /\ eventLog (w_reg w') !! g_ID g = Some [event]
  end.

(** Creating a group. On success the group identifier was not in use, the registry
    gains exactly that group (all others are as before), its only member is the creator
    as active owner, at version 1 and key version 1, and its log is the one event that
    was created; on failure every group reads as before. *)
Theorem CreateGroup_effect (title identityID : string) (now : Z)
    (gen : option (string -> G -> G * result error string)) (w : W) :
  reg_inv (w_reg w) ->
  wp (CreateGroup title identityID now gen) (created identityID now w) w.
Proof.
  intros Hinv. pose proof (ri_ok _ Hinv) as Hok. set (Q := created identityID now w).
  unfold CreateGroup. apply wp_bind, wp_lift; [intros t Ht|done].
  apply wp_bind, wp_lift; [|done]. intros id (-> & Hidem)%NormalizeGroupMemberID_ok.
  destruct gen as [gen|]; [|done].
  apply wp_bind. unfold wp at 1.
  pose proof (allocGroupID_reg gen 3 w) as Hreg.
  pose proof (allocGroupID_fresh gen 3 w) as Hfr.
  destruct (allocGroupID gen 3 w) as [w1 [g|e]]; cbn [fst] in Hreg;
    [|unfold Q, created; by rewrite Hreg].
  destruct (Hfr w1 g eq_refl) as [_ Hfresh]. clear Hfr.
  apply wp_bind, wp_reject; [intros _; unfold Q, created; by rewrite Hreg|].
  intros Hg%bool_decide_eq_false. destruct Hfresh as [->|Hfresh]; [done|].
  apply wp_bind. unfold wp at 1, genID.
  destruct (gen "gevt" (w_gen w1)) as [g' [ev|e]]; [|unfold Q, created; cbn; by rewrite Hreg].
  apply wp_bind, wp_lift; [|intros e _; unfold Q, created; cbn; by rewrite Hreg].
  intros [st event] Hst. apply createdState_ok in Hst as (Hwf & Hgr & Hv & Hk & Hm & Hl); [|done].
  unfold wp, commitCreate. cbn [w_reg with_gen]. rewrite Hreg.
  set (ref := mkRef (s_Group st) (s_Version st) (s_LastKeyVersion st) (next (heap (w_reg w)))).
  pose proof (view_alloc (w_reg w) g (mkMaps (s_AppliedEventIDs st) (s_Members st)) ref) as Hva.
  cbn [alloc fst snd] in Hva |- *. destruct (runPersist Persist _ _).
  - unfold Q, created. cbn [w_reg with_reg states eventLog].
    rewrite (delete_insert_id (states (w_reg w))) by done.
    unfold view. cbn [states heap]. apply map_fmap_ext. intros k q Hq.
    unfold deref, load. cbn. destruct (ro_live _ Hok k q Hq) as [_ Hlt].
    by rewrite lookup_insert_ne by lia.
  - unfold Q, created. cbn [w_reg with_reg]. assert (Hgid : g_ID (s_Group st) = g) by by rewrite Hgr.
    rewrite Hgid. split.
    { unfold view. by rewrite lookup_fmap, Hfresh. }
    exists st. split; [rewrite Hva by done; by destruct st|].
    repeat split; try done. cbn. by rewrite lookup_insert_eq.
Qed.

Lemma DeleteGroup_run gid a now abuse (w : W) :
  wp (DeleteGroup gid a now abuse) (fun w' res =>
    (w_reg w' = w_reg w /\ exists e, res = Err e)
    \/ (res = Ok true
        /\ exists st, view (w_reg w) !! TrimSpace gid = Some st
           /\ actor_is st (TrimSpace a) IsOwner
           /\ w_reg w' = mkRegistry (heap (w_reg w)) (delete (TrimSpace gid) (states (w_reg w)))
                           (delete (TrimSpace gid) (eventLog (w_reg w))))) w.
Proof.
  unfold DeleteGroup. apply wp_bind, wp_lift; [|eauto]. intros t Ht.
  assert (t = TrimSpace gid) as ->.
  { unfold NormalizeGroupID in Ht. by case_bool_decide; simplify_eq. }
  apply wp_bind, wp_lift; [|eauto]. intros id (-> & _)%NormalizeGroupMemberID_ok.
  apply wp_bind, wp_checkMembership. intros w1 [[]|e] Hw1; [|eauto].
  apply wp_bind, wp_loadState; [intros e; rewrite Hw1; eauto|]. intros r m Hr Hm Hact.
  rewrite TrimSpace_idemp in Hm. apply wp_bind, wp_readState.
  apply wp_bind, wp_reject; rewrite Hm, Hw1 in *; [eauto|]. intros Ho%negb_false_iff.
  unfold wp, commitDelete. rewrite Hw1. cbn zeta. destruct (runPersist Persist _ _) as [e|].
  - left. split; [|eauto]. cbn [w_reg with_reg]. rewrite Hr. cbn [states eventLog].
    rewrite insert_delete_id by done. destruct (eventLog (w_reg w) !! _) as [l|] eqn:El.
    + rewrite insert_delete_id by done. by destruct (w_reg w).
    + rewrite delete_id by done. by destruct (w_reg w).
  - right. split; [done|]. exists (deref (heap (w_reg w)) r). split; [|split; [|done]].
    + unfold view. by rewrite lookup_fmap, Hr.
    + exists m. auto.
Qed.

(** Deleting a group. A failed call, a failed persistence included, leaves the
    registry exactly as it was; a successful one was made by an active owner of the group and
    removes that group and nothing else. *)
Theorem DeleteGroup_effect (gid a : string) (now : Z) (abuse : bool) (w w' : W)
    (res : result error bool) :
  DeleteGroup gid a now abuse w = (w', res) ->
  match res with
  | Err _ => w_reg w' = w_reg w
  | Ok ok => ok = true
      /\ (exists st, view (w_reg w) !! TrimSpace gid = Some st
                     /\ actor_is st (TrimSpace a) IsOwner)
      /\ view (w_reg w') = delete (TrimSpace gid) (view (w_reg w))
      /\ eventLog (w_reg w') = delete (TrimSpace gid) (eventLog (w_reg w))
  end.
Proof.
  intros H. pose proof (DeleteGroup_run gid a now abuse w) as Hwp.
  unfold wp in Hwp. rewrite H in Hwp.
  destruct Hwp as [(Hr & e & ->)|(-> & st & Hv & Ha & ->)]; [done|].
  split; [done|]. split; [eauto|]. split; [|done].
  unfold view. cbn [states heap]. by rewrite fmap_delete.
Qed.

(** Both keep the registry invariant. *)
Lemma DeleteGroup_inv gid a now abuse (w : W) :
  reg_inv (w_reg w) -> reg_inv (w_reg (fst (DeleteGroup gid a now abuse w))).
Proof.
  intros Hinv. pose proof (DeleteGroup_run gid a now abuse w) as Hwp. unfold wp in Hwp.
  destruct (DeleteGroup gid a now abuse w) as [w' res]. cbn [fst].
  destruct Hwp as [(-> & _)|(_ & st & _ & _ & ->)]; [done|]. set (g := TrimSpace gid).
  destruct Hinv as [Hok Hwf Hlog].
  assert (Hsub : forall k q, delete g (states (w_reg w)) !! k = Some q ->
             states (w_reg w) !! k = Some q) by (intros k q [_ Hq]%lookup_delete_Some; done).
  constructor.
  - constructor; cbn; intros *; intros; eauto using ro_live, ro_key, ro_sep.
  - intros k s. unfold view. cbn [states heap]. rewrite fmap_delete.
    intros [_ Hk]%lookup_delete_Some. by apply (Hwf k).
  - intros k s. unfold view. cbn [states heap eventLog]. rewrite fmap_delete.
    intros [Hne Hk]%lookup_delete_Some. rewrite lookup_delete_ne by done. by apply (Hlog k).
Qed.

Lemma CreateGroup_inv title id now gen (w : W) :
  reg_inv (w_reg w) -> reg_inv (w_reg (fst (CreateGroup title id now gen w))).
Proof.
  intros Hinv. pose proof (ri_ok _ Hinv) as Hok.
  apply (wp_run _ (fun w' _ => reg_inv (w_reg w'))).
  unfold CreateGroup. apply wp_bind, wp_lift; [intros t Ht|done].
  apply wp_bind, wp_lift; [|done]. intros i (-> & Hidem)%NormalizeGroupMemberID_ok.
  destruct gen as [gen|]; [|done]. apply wp_bind. unfold wp at 1.
  pose proof (allocGroupID_reg gen 3 w) as Hreg.
  pose proof (allocGroupID_fresh gen 3 w) as Hfr.
  destruct (allocGroupID gen 3 w) as [w1 [g|e]]; cbn [fst] in Hreg; [|by rewrite Hreg].
  destruct (Hfr w1 g eq_refl) as [_ Hfresh]. clear Hfr.
  apply wp_bind, wp_reject; [intros _; by rewrite Hreg|].
  intros Hg%bool_decide_eq_false. destruct Hfresh as [->|Hfresh]; [done|].
  apply wp_bind. unfold wp at 1, genID.
  destruct (gen "gevt" (w_gen w1)) as [g' [ev|e]]; [|cbn; by rewrite Hreg].
  apply wp_bind, wp_lift; [|intros e _; cbn; by rewrite Hreg].
  intros [st event] Hst. apply createdState_ok in Hst as (Hwf & Hgr & Hv & Hk & Hm & Hl); [|done].
  unfold wp, commitCreate. cbn [w_reg with_gen]. rewrite Hreg.
  set (ref := mkRef (s_Group st) (s_Version st) (s_LastKeyVersion st) (next (heap (w_reg w)))).
  pose proof (view_alloc (w_reg w) g (mkMaps (s_AppliedEventIDs st) (s_Members st)) ref) as Hva.
  pose proof (reg_ok_alloc (w_reg w) g (mkMaps (s_AppliedEventIDs st) (s_Members st)) ref) as Hoa.
  cbn [alloc fst snd] in Hva, Hoa |- *. destruct (runPersist Persist _ _).
  - cbn [w_reg with_reg states eventLog].
    rewrite (delete_insert_id (states (w_reg w))) by done.
    apply (reg_inv_heap (w_reg w)); try done; cbn [states heap eventLog].
    + intros q [Hs Hn]. split; cbn; [|lia]. by rewrite lookup_insert_ne by lia.
    + intros q [_ Hn]. unfold deref, load. cbn. by rewrite lookup_insert_ne by lia.
    + intros k q Hq. destruct (decide (k = g)) as [->|Hne]; [congruence|].
      by rewrite lookup_delete_ne, lookup_insert_ne.
  - cbn [w_reg]. apply (reg_inv_update (w_reg w) _ g st); try done.
    + apply Hoa; [done|cbn; by rewrite Hgr|done].
    + rewrite Hva by done. by destruct st.
    + cbn [eventLog]. by rewrite lookup_insert_eq.
    + intros k Hne. cbn [eventLog]. by rewrite lookup_insert_ne.
Qed.

(** ** Operations that succeed *)

Definition rotateEvent (st : GroupState) (change : GroupEvent) (id2 : string) : GroupEvent :=
  mkGroupEvent id2 (e_GroupID change) (u64 (e_Version change + 1)) GroupEventTypeKeyRotate
    (e_ActorID change) (e_OccurredAt change) "" "" "" "" "" (nextKeyVersion (s_LastKeyVersion st)).

(** Conditions under which a change and its key rotation go through. *)
Record rotation_ready (st : GroupState) (change : GroupEvent) (id2 : string) : Prop := {
  rr_change : accepts st change;
  rr_type : e_Type change <> GroupEventTypeKeyRotate;
  rr_id2 : TrimSpace id2 <> "" /\ (id2 ∉ s_AppliedEventIDs st) /\ id2 <> e_ID change;
  rr_version : s_Version st + 2 < 2 ^ 64;
  rr_key : s_LastKeyVersion st + 1 < 2 ^ 32
}.

Lemma nextKeyVersion_succ k : 0 <= k -> k + 1 < 2 ^ 32 -> nextKeyVersion k = k + 1.
Proof.
  intros H0 H1. unfold nextKeyVersion. destruct (k =? 0) eqn:E; [lia|].
  apply u32_small. lia.
Qed.

Lemma validate_rotate st change id2 :
  wf_state st -> rotation_ready st change id2 ->
  ValidateGroupEvent (rotateEvent st change id2) = None.
Proof.
  intros Hst [Ha Ht (Hn & Hf & Hne) Hv Hk]. pose proof (accepts_version _ _ Hst Ha) as Hver.
  pose proof (wf_version _ Hst). pose proof (wf_key _ Hst).
  destruct Ha as [Hval Hi Hg _ _]. unfold ValidateGroupEvent in *. cbn.
  rewrite (bool_decide_false _ Hn), Hver, u64_small, nextKeyVersion_succ by lia.
  revert Hval. case_bool_decide; [done|]. case_bool_decide; [done|].
  destruct (e_Version change =? 0); [done|]. destruct (GroupEventType_Valid _); [|done]. cbn.
  case_bool_decide; [done|]. destruct (IsZero _); [done|]. intros _.
  replace (s_Version st + 1 + 1 =? 0) with false by lia.
  replace (s_LastKeyVersion st + 1 =? 0) with false by lia. done.
Qed.

Lemma applyAll_rotation st change id2 :
  wf_state st -> wf_event change -> rotation_ready st change id2 ->
  exists st2, applyAll st [change; rotateEvent st change id2] []
              = (st2, Ok [change; rotateEvent st change id2])
    /\ s_Members st2 = s_Members (applyEventBody st change)
    /\ s_Version st2 = s_Version st + 2 /\ s_LastKeyVersion st2 = s_LastKeyVersion st + 1.
Proof.
  intros Hst Hwe Hr. pose proof (validate_rotate _ _ _ Hst Hr) as Hval.
  destruct Hr as [Ha Ht (Hn & Hf & Hne) Hv Hk].
  pose proof (accepts_version _ _ Hst Ha) as Hver.
  pose proof (wf_version _ Hst). pose proof (wf_key _ Hst).
  cbn [applyAll]. rewrite (apply_accepts _ _ Ha).
  set (st1 := commitEvent (applyEventBody st change) change).
  assert (Ha2 : accepts st1 (rotateEvent st change id2)).
  { destruct Ha as [_ Hi Hg _ _]. constructor; cbn.
    - done.
    - by rewrite applyEventBody_group_id.
    - by rewrite applyEventBody_group_id.
    - rewrite applyEventBody_applied. set_solver.
    - done. }
  rewrite (apply_accepts _ _ Ha2). eexists. split; [done|]. cbn.
  unfold applyEventBody at 1 3. cbn. repeat split.
  - rewrite Hver, u64_small by lia. lia.
  - by rewrite nextKeyVersion_succ by lia.
Qed.

Lemma rotation_succeeds gid r change gen id2 g2 (w : W) :
  reg_inv (w_reg w) -> states (w_reg w) !! gid = Some r -> wf_event change ->
  rotation_ready (deref (heap (w_reg w)) r) change id2 ->
  GenerateEventID = Some gen -> gen (w_gen w) = (id2, g2) ->
  (forall vs log, runPersist Persist vs log = None) ->
  exists w' nxt st2, applyMembershipChangeWithKeyRotation r change w = (w', Ok nxt)
    /\ view (w_reg w') = <[gid := st2]> (view (w_reg w))
    /\ s_Members st2 = s_Members (applyEventBody (deref (heap (w_reg w)) r) change)
    /\ s_Version st2 = r_Version r + 2 /\ s_LastKeyVersion st2 = r_LastKeyVersion r + 1.
Proof.
  intros Hinv Hr Hwe Hready Hgen Hid2 Hp. pose proof (ri_ok _ Hinv) as Hok.
  assert (Hst : wf_state (deref (heap (w_reg w)) r)).
  { apply (ri_wf _ Hinv gid). unfold view. by rewrite lookup_fmap, Hr. }
  destruct (applyAll_rotation _ _ _ Hst Hwe Hready) as (st2 & Hall & Hm & Hv & Hk).
  unfold applyMembershipChangeWithKeyRotation, bindM, generateEventID, applyEvents.
  rewrite Hgen, Hid2. cbn [w_reg with_gen].
  pose proof (view_commit (w_reg w) gid r [change; rotateEvent (deref (heap (w_reg w)) r) change id2]
                Hok Hr) as Hvc.
  pose proof (ApplyEventsWithRollback_eq Persist (w_reg w) gid r
    [change; rotateEvent (deref (heap (w_reg w)) r) change id2] Hok Hr ltac:(done)) as Heq.
  unfold rotateEvent in Heq, Hvc, Hall. cbn [s_LastKeyVersion deref] in Heq, Hvc, Hall.
  rewrite Heq. clear Heq. rewrite Hall in *. cbn [fst snd] in *. rewrite Hp.
  do 2 eexists. exists st2. split; [done|]. cbn [w_reg]. rewrite Hvc. done.
Qed.

(** The generator is about to give two identifiers the group has not seen. *)
Definition two_fresh_ids (st : GroupState) (g : G) : Prop :=
  exists gen id1 g1 id2 g2, GenerateEventID = Some gen
    /\ gen g = (id1, g1) /\ gen g1 = (id2, g2)
    /\ TrimSpace id1 <> "" /\ TrimSpace id2 <> "" /\ id1 <> id2
    /\ (id1 ∉ s_AppliedEventIDs st) /\ (id2 ∉ s_AppliedEventIDs st).

(** Room for two more versions and one more key. *)
Definition counters_ok (st : GroupState) : Prop :=
  s_Version st + 2 < 2 ^ 64 /\ s_LastKeyVersion st + 1 < 2 ^ 32.

Definition persist_ok : Prop := forall vs log, runPersist Persist vs log = None.

Lemma checkMembership_frame abuse a now (w w1 : W) r :
  checkMembership abuse a now w = (w1, r) -> w_reg w1 = w_reg w /\ w_gen w1 = w_gen w.
Proof.
  unfold checkMembership. destruct abuse; [|by intros [= <- <-]].
  destruct (AllowMembership _ _ _ _ _). by intros [= <- <-].
Qed.

Lemma trimmed_key st k m : wf_state st -> s_Members st !! TrimSpace k = Some m -> TrimSpace k <> "".
Proof.
  intros Hst Hm. pose proof (wfm_nonblank _ _ _ (wf_members _ Hst _ _ Hm)) as H.
  by rewrite TrimSpace_idemp in H.
Qed.

Lemma NormalizeGroupMemberID_nonblank s :
  TrimSpace s <> "" -> NormalizeGroupMemberID s = Ok (TrimSpace s).
Proof. intros H. unfold NormalizeGroupMemberID. by rewrite bool_decide_false. Qed.

Lemma view_inv reg gid st :
  reg_inv reg -> view reg !! TrimSpace gid = Some st ->
  exists r, states reg !! TrimSpace gid = Some r /\ st = deref (heap reg) r
            /\ g_ID (s_Group st) = TrimSpace gid
            /\ NormalizeGroupID gid = Ok (TrimSpace gid) /\ wf_state st.
Proof.
  intros Hinv Hg. pose proof (ri_wf _ Hinv _ _ Hg) as Hwf.
  unfold view in Hg. rewrite lookup_fmap in Hg.
  destruct (states reg !! TrimSpace gid) as [r|] eqn:Er; [|done]. injection Hg as <-.
  pose proof (ro_key _ (ri_ok _ Hinv) _ _ Er) as Hk. exists r. do 3 (split; [done|]).
  split; [|done]. unfold NormalizeGroupID. rewrite bool_decide_false; [done|].
  pose proof (wf_id _ Hwf) as Hn. cbn in Hn. rewrite Hk, TrimSpace_idemp in Hn. done.
Qed.

Lemma LoadStateForActor_active reg gid a r m :
  states reg !! gid = Some r -> TrimSpace a <> "" ->
  s_Members (deref (heap reg) r) !! TrimSpace a = Some m ->
  m_Status m = GroupMemberStatusActive ->
  LoadStateForActor reg gid (TrimSpace a) true = Ok r.
Proof.
  intros Hr Hb Hm Hs. unfold LoadStateForActor, bindR. rewrite Hr.
  rewrite NormalizeGroupMemberID_nonblank, TrimSpace_idemp by by rewrite TrimSpace_idemp.
  rewrite Hm, Hs. done.
Qed.

(** A [member_remove] that names a member of the group is accepted. *)
Lemma accepts_remove st id gid actor member now :
  wf_state st -> g_ID (s_Group st) = gid -> TrimSpace id <> "" ->
  (id ∉ s_AppliedEventIDs st) -> TrimSpace actor <> "" -> TrimSpace member <> "" -> now <> 0 ->
  s_Version st + 2 < 2 ^ 64 ->
  accepts st (memberEvent GroupEventTypeMemberRemove id gid actor member ""
                (u64 (s_Version st + 1)) now).
Proof.
  intros Hst <- Hid Hf Ha Hm Hn Hv. pose proof (wf_version _ Hst). pose proof (wf_id _ Hst) as Hi.
  constructor; cbn; try done. unfold ValidateGroupEvent. cbn.
  rewrite (bool_decide_false _ Hid), (bool_decide_false _ Ha), (bool_decide_false _ Hm).
  rewrite (bool_decide_false _ Hi), u64_small by lia.
  replace (s_Version st + 1 =? 0) with false by lia.
  unfold IsZero. by replace (now =? 0) with false by lia.
Qed.

(** Removing a member works and revokes the keys. When an active owner or admin
    removes a member that is not an owner and not already removed (with fresh event identifiers, room in
    the counters, a rate limiter and a persistence that accept), the call succeeds, the
    member's status becomes removed, the group's key version goes up by one and its version by
    two, and no other member and no other group changes. *)
Theorem RemoveGroupMember_revokes (gid a member : string) (now : Z) (abuse : bool) (w w1 : W)
    (st : GroupState) (actor target : GroupMember) :
  reg_inv (w_reg w) -> view (w_reg w) !! TrimSpace gid = Some st ->
  s_Members st !! TrimSpace a = Some actor -> m_Status actor = GroupMemberStatusActive ->
  CanManageMembers actor = true ->
  s_Members st !! TrimSpace member = Some target -> IsOwner target = false ->
  m_Status target <> GroupMemberStatusRemoved ->
  checkMembership abuse (TrimSpace a) now w = (w1, Ok tt) ->
  two_fresh_ids st (w_gen w) -> counters_ok st -> now <> 0 -> persist_ok ->
  exists w' event st',
    RemoveGroupMember gid a member now abuse w = (w', Ok (true, event))
    /\ view (w_reg w') = <[TrimSpace gid := st']> (view (w_reg w))
    /\ member_status st' (TrimSpace member) = Some GroupMemberStatusRemoved
    /\ (forall k, k <> TrimSpace member -> s_Members st' !! k = s_Members st !! k)
    /\ s_LastKeyVersion st' = s_LastKeyVersion st + 1 /\ s_Version st' = s_Version st + 2.
Proof.
  intros Hinv Hg Hact Hst Hmg Htg Hno Hnr Hchk Hids [Hv Hk] Hnow Hp.
  destruct (view_inv _ _ _ Hinv Hg) as (r & Hr & -> & Hgid & Hng & Hwf).
  destruct (checkMembership_frame _ _ _ _ _ _ Hchk) as [Hw1 Hg1].
  pose proof (trimmed_key _ _ _ Hwf Hact) as Hba. pose proof (trimmed_key _ _ _ Hwf Htg) as Hbm.
  destruct Hids as (gen & id1 & g1 & id2 & g2 & Hgen & Hid1 & Hid2 & Hb1 & Hb2 & Hne & Hf1 & Hf2).
  set (st := deref (heap (w_reg w)) r) in *.
  set (change := memberEvent GroupEventTypeMemberRemove id1 (TrimSpace gid) (TrimSpace a)
                   (TrimSpace member) "" (u64 (s_Version st + 1)) now).
  assert (Hready : rotation_ready st change id2).
  { constructor; try done. apply accepts_remove; try done; by rewrite TrimSpace_idemp. }
  destruct (rotation_succeeds (TrimSpace gid) r change gen id2 g2 (with_gen w1 g1))
    as (w' & nxt & st2 & Hrun & Hview & Hmem & Hver & Hkey); cbn [w_reg w_gen with_gen];
    rewrite ?Hw1; try done.
  { split; cbn; [apply u64_range|lia]. }
  exists w', change, st2.
  split.
  { unfold RemoveGroupMember, bindM, liftM, retM, readState, loadState.
    rewrite Hng, !NormalizeGroupMemberID_nonblank, Hchk by done. cbn beta iota.
    rewrite Hw1, (LoadStateForActor_active _ _ _ r actor) by done. cbn beta iota.
    fold st. rewrite Hact, Htg. cbn [default]. unfold rejectM, failM, retM.
    change (Datatypes.id actor) with actor. rewrite Hmg. cbn [negb]. rewrite Hno, (bool_decide_false _ Hnr).
    unfold generateEventID. rewrite Hgen, Hg1, Hid1.
    change (u64 (r_Version r + 1)) with (u64 (s_Version st + 1)). fold change.
    by rewrite Hrun. }
  cbn [w_reg with_gen] in Hview, Hmem. rewrite Hw1 in Hview, Hmem. fold st in Hmem.
  split; [done|].
  assert (Heff : s_Members st2 !! TrimSpace member
            = Some (memberAfterDrop (TrimSpace gid) change GroupMemberStatusRemoved (Some target))).
  { rewrite Hmem, applyEventBody_lookup by done. subst change. cbn [memberEvent e_MemberID].
    rewrite TrimSpace_idemp, decide_True, Htg, Hgid by done. done. }
  split; [unfold member_status; by rewrite Heff|]. split; [|done].
  intros k Hkne. rewrite Hmem, applyEventBody_lookup, decide_False; try done.
  cbn. by rewrite TrimSpace_idemp.
Qed.

(** ** Quotas *)

Definition within_quota (p : AbuseProtection F L) (st : GroupState) : Prop :=
  memberCount (s_Members st) <= MaxMembers (cfg p)
  /\ pendingInvites (s_Members st) <= MaxPendingInvites (cfg p).

Lemma apply_one_member st e :
  s_Members (fst (applyGroupEvent st e)) = s_Members st
  \/ exists k m, s_Members (fst (applyGroupEvent st e)) = <[k := m]> (s_Members st).
Proof.
  destruct (apply_cases st e) as [[_ ->]|(-> & _)]; [|by left]. cbn. unfold applyEventBody.
  repeat case_bool_decide; cbn; eauto.
Qed.

Lemma insert_within_quota p st k m st' :
  EnforceInviteQuotas p st = None -> s_Members st' = <[k := m]> (s_Members st) ->
  within_quota p st'.
Proof.
  intros [H1 H2]%EnforceInviteQuotas_None Hm. unfold within_quota, memberCount, pendingInvites in *.
  rewrite Hm.
  pose proof (size_filter_insert_le (fun km => m_Status km.2 = GroupMemberStatusActive
                \/ m_Status km.2 = GroupMemberStatusInvited) (s_Members st) k m).
  pose proof (size_filter_insert_le (fun km => m_Status km.2 = GroupMemberStatusInvited)
                (s_Members st) k m).
  lia.
Qed.

(** A commit of one event changes at most one record of one group. *)
Lemma commit_one_view reg gid r e :
  reg_ok reg -> states reg !! gid = Some r ->
  view (fst (ApplyEventsWithRollback Persist r [e] reg)) = view reg
  \/ exists st', view (fst (ApplyEventsWithRollback Persist r [e] reg)) = <[gid := st']> (view reg)
     /\ (s_Members st' = s_Members (deref (heap reg) r)
         \/ exists k m, s_Members st' = <[k := m]> (s_Members (deref (heap reg) r))).
Proof.
  intros Hok Hr. pose proof (apply_one_member (deref (heap reg) r) e) as Hone.
  destruct (commit_one_state Persist reg gid r e Hok Hr); eauto.
Qed.

(** Invitations respect the quotas. When every group is within the configured
    member and pending-invite limits, it still is after any call of [InviteToGroup] under abuse
    protection. *)
Theorem invites_respect_quotas (gid a member : string) (now : Z)
    (blk : option (string -> bool)) (w : W) :
  reg_inv (w_reg w) ->
  (forall g st, view (w_reg w) !! g = Some st -> within_quota (w_abuse w) st) ->
  forall g st,
    view (w_reg (fst (InviteToGroup gid a member now blk true w))) !! g = Some st ->
    within_quota (w_abuse w) st.
Proof.
  intros Hinv Hq.
  apply (wp_run _ (fun w' _ => forall g st, view (w_reg w') !! g = Some st ->
                                            within_quota (w_abuse w) st)).
  unfold InviteToGroup. do 3 (apply wp_bind, wp_lift; [intros ? ?|done]).
  apply wp_bind, wp_reject; [done|]. intros _. apply wp_bind, wp_reject; [done|]. intros _.
  apply wp_bind. unfold wp at 1, checkInvite, AllowInvite.
  destruct (operationAllow _ _ _ _ _) as [l ok]. destruct ok; [|done].
  set (w1 := with_abuse w _).
  apply wp_bind, wp_loadState; [done|]. intros r m Hr _ _. apply wp_bind, wp_readState.
  cbn beta iota zeta. apply wp_bind, wp_reject; [done|]. intros _.
  destruct (match s_Members _ !! _ with Some _ => _ | None => None end); [done|].
  apply wp_bind. unfold wp at 1, checkQuotas.
  destruct (EnforceInviteQuotas (w_abuse w1) _) eqn:Hen; [done|].
  apply wp_bind, wp_generateEventID. intros w2 id Hw2. cbn beta iota zeta.
  apply wp_bind, wp_applyEvents. intros w3 res Hw3.
  assert (Hgoal : forall g st, view (w_reg w3) !! g = Some st -> within_quota (w_abuse w) st).
  { rewrite Hw3, Hw2. set (ev := memberEvent _ _ _ _ _ _ _ _).
    destruct (commit_one_view (w_reg w1) a0 r ev) as [->|(st' & -> & Hm')];
      [by apply ri_ok|done|done|].
    intros g st. rewrite lookup_insert. destruct (decide (a0 = g)) as [<-|]; [|apply Hq].
    intros [= <-]. destruct Hm' as [Hm'|(k & x & Hm')].
    - unfold within_quota. rewrite Hm'. apply (Hq a0). change (w_reg w1) with (w_reg w) in *.
      unfold view. by rewrite lookup_fmap, Hr.
    - by apply (insert_within_quota (w_abuse w1) _ k x st' Hen). }
  destruct res as [nxt|e]; [|done]. apply wp_bind, wp_readState. cbn beta iota.
  destruct (s_Members (deref (heap (w_reg w3)) nxt) !! _); exact Hgoal.
Qed.
End MembershipService.

(** ** Concrete worlds for the witnesses *)

Definition ex_gen (n : nat) : string * nat :=
  (match n with O => "x0" | 1%nat => "x1" | 2%nat => "x2" | _ => "x3" end, S n).

Definition ex_generateID (prefix : string) (n : nat) : nat * result error string :=
  (S n, Ok (prefix +:+ match n with O => "_0" | _ => "_1" end)).

Definition ex_abuse : AbuseProtection Z Z :=
  NewAbuseProtectionFromEnv (fun z => z <=? 0) Atoi (fun z => z) (fun _ => "").

Definition ex_world : World Z Z nat := mkWorld (ex_registry 1) ex_abuse 0%nat [].

Lemma ex_world_inv : reg_inv (w_reg ex_world).
Proof. apply ex_registry_inv. lia. Qed.

Lemma local_operations_follow_policy_witness :
  local_commit None "bob" (ex_registry 1)
    (w_reg (fst (RemoveGroupMember ex_NewLimiter ex_AllowN None true (Some ex_gen)
                   "g1" "bob" "carol" 9 true ex_world))).
Proof.
  apply (local_operations_follow_policy ex_NewLimiter ex_AllowN None true (Some ex_gen) "bob"
    (fun w => fst (RemoveGroupMember ex_NewLimiter ex_AllowN None true (Some ex_gen)
                   "g1" "bob" "carol" 9 true w)) ex_world).
  apply (call_remove ex_NewLimiter ex_AllowN None true (Some ex_gen) "g1" "bob" "carol" 9 true).
Defined.

Lemma local_operations_protect_owners_witness :
  active_owner (w_reg (fst (RemoveGroupMember ex_NewLimiter ex_AllowN None true (Some ex_gen)
                   "g1" "bob" "alice" 9 true ex_world))) "g1" "alice".
Proof.
  apply (local_operations_protect_owners ex_NewLimiter ex_AllowN None true (Some ex_gen)
    "bob" "g1" "alice" (fun w => fst (RemoveGroupMember ex_NewLimiter ex_AllowN None true
                   (Some ex_gen) "g1" "bob" "alice" 9 true w)) ex_world).
  - apply ex_world_inv.
  - apply (call_remove ex_NewLimiter ex_AllowN None true (Some ex_gen) "g1" "bob" "alice" 9 true).
  - done.
  - do 2 eexists. repeat split; vm_compute; reflexivity.
Defined.

Lemma CreateGroup_effect_witness :
  wp (CreateGroup None true " news " "dave" 9 (Some ex_generateID)) (created "dave" 9 ex_world)
    ex_world.
Proof.
  apply (CreateGroup_effect None true " news " "dave" 9 (Some ex_generateID) ex_world).
  apply ex_world_inv.
Defined.

Lemma DeleteGroup_effect_witness :
  view (w_reg (fst (DeleteGroup ex_NewLimiter ex_AllowN None "g1" "alice" 9 false ex_world)))
  = delete "g1" (view (w_reg ex_world)).
Proof.
  assert (H : DeleteGroup ex_NewLimiter ex_AllowN None "g1" "alice" 9 false ex_world
              = (fst (DeleteGroup ex_NewLimiter ex_AllowN None "g1" "alice" 9 false ex_world),
                 Ok true)) by (vm_compute; reflexivity).
  exact (proj1 (proj2 (proj2 (DeleteGroup_effect ex_NewLimiter ex_AllowN None "g1" "alice" 9 false
           ex_world _ (Ok true) H)))).
Defined.

Lemma RemoveGroupMember_revokes_witness :
  exists w' event st',
    RemoveGroupMember ex_NewLimiter ex_AllowN None true (Some ex_gen) "g1" "bob" " carol" 9 true
      ex_world = (w', Ok (true, event))
    /\ view (w_reg w') = <["g1" := st']> (view (w_reg ex_world))
    /\ member_status st' "carol" = Some GroupMemberStatusRemoved
    /\ (forall k, k <> "carol" -> s_Members st' !! k = ex_members !! k)
    /\ s_LastKeyVersion st' = 1 + 1 /\ s_Version st' = 3 + 2.
Proof.
  apply (RemoveGroupMember_revokes ex_NewLimiter ex_AllowN None true (Some ex_gen)
           "g1" "bob" " carol" 9 true ex_world
           (fst (checkMembership ex_NewLimiter ex_AllowN true "bob" 9 ex_world))
           (deref (heap (w_reg ex_world)) (mkRef ex_group 3 1 0))
           (ex_member "bob" "admin" "active") (ex_member "carol" "user" "invited")).
  - apply ex_world_inv.
  - vm_compute. reflexivity.
  - vm_compute. reflexivity.
  - reflexivity.
  - reflexivity.
  - vm_compute. reflexivity.
  - reflexivity.
  - done.
  - vm_compute. reflexivity.
  - exists ex_gen, "x0", 1%nat, "x1", 2%nat. repeat split; vm_compute; congruence.
  - split; cbn; lia.
  - done.
  - by intros vs log.
Defined.

Lemma invites_respect_quotas_witness :
  exists st,
    view (w_reg (fst (InviteToGroup ex_NewLimiter ex_AllowN None true (Some ex_gen)
           "g1" "bob" "dave" 9 None true ex_world))) !! "g1" = Some st /\
    within_quota ex_abuse st.
Proof.
  set (after := view _).
  destruct (after !! "g1") as [st|] eqn:E; [|vm_compute in E; discriminate].
  exists st. split; [reflexivity|]. revert E.
  apply (invites_respect_quotas ex_NewLimiter ex_AllowN None true (Some ex_gen)
           "g1" "bob" "dave" 9 None ex_world).
  - apply ex_world_inv.
  - intros g st'. unfold view. cbn. rewrite map_fmap_singleton.
    intros [<- <-]%lookup_singleton_Some. split; vm_compute; discriminate.
Defined.
