(* ===== verification/GroupInbound.v ===== *)
(** * Group events from the network

    Models the inbound side of the group domain: the authorization of remote events
    (internal/domains/group/usecase/inbound_events.go), the state and message policy
    (policy/inbound_state_policy.go, policy/runtime_helpers.go), the decoding of the wire form
    (inbound_event_boundary.go), the orchestration of one event
    (usecase/inbound_orchestration_service.go, [HandleInboundGroupEvent]) and its wiring in
    the daemon with the replay guard (internal/composition/daemonservice/runtime_inbound.go).
    SHA-256, the JSON decoder and the RFC 3339 parser are parameters; log lines are reduced to their
    reason. *)
From S2P Require Import Prelude GroupModel RateLimiter GroupRuntime GroupMembership.
From stdpp Require Import base gmap strings list sets option relations.
From Stdlib Require Import ZArith Lia.
Open Scope string_scope.
Open Scope Z_scope.
Open Scope go_scope.

(** ** inbound_events.go *)

Definition AuthorizeInboundGroupEvent (state : GroupState) (event : GroupEvent) : option error :=
  let actor := s_Members state !! e_ActorID event in
  let target := s_Members state !! e_MemberID event in
  (** [!actorExists || actor.Status != active] *)
  let inactive := match actor with
                  | None => true
                  | Some a => negb (m_Status a == GroupMemberStatusActive)
                  end in
  let role := match actor with None => "" | Some a => m_Role a end in
  let manager := (role == GroupMemberRoleOwner) || (role == GroupMemberRoleAdmin) in
  if e_Type event == GroupEventTypeMemberAdd then
    match actor with
    | None => Some ErrGroupPermissionDenied
    | Some a =>
        if match target with
           | Some t => (m_Status t == GroupMemberStatusInvited)
                       && (e_ActorID event == e_MemberID event)
           | None => false
           end then None else
        if negb (m_Status a == GroupMemberStatusActive) then Some ErrGroupPermissionDenied else
        match target with
        | None => if manager then None else Some ErrGroupPermissionDenied
        | Some t =>
            if negb (m_Role t == e_Role event) then
              if negb (m_Role a == GroupMemberRoleOwner) then Some ErrGroupPermissionDenied else
              if m_Role t == GroupMemberRoleOwner then Some ErrGroupPermissionDenied else None
            else None
        end
    end
  else if e_Type event == GroupEventTypeMemberRemove then
    if inactive then Some ErrGroupPermissionDenied else
    match target with
    | None => Some ErrGroupMembershipNotFound
    | Some t =>
        if negb manager then Some ErrGroupPermissionDenied else
        if m_Role t == GroupMemberRoleOwner then Some ErrGroupPermissionDenied else
        if (role == GroupMemberRoleAdmin) && (m_Role t == GroupMemberRoleAdmin)
        then Some ErrGroupPermissionDenied else None
    end
  else if e_Type event == GroupEventTypeMemberLeave then
    match actor with
    | None => Some ErrGroupPermissionDenied
    | Some _ => if negb (e_ActorID event == e_MemberID event)
                then Some ErrGroupPermissionDenied else None
    end
  else if (e_Type event == GroupEventTypeTitleChange)
          || (e_Type event == GroupEventTypeProfileChange) then
    if inactive then Some ErrGroupPermissionDenied else
    if negb manager then Some ErrGroupPermissionDenied else None
  else if e_Type event == GroupEventTypeKeyRotate then
    if inactive then Some ErrGroupPermissionDenied else
    if negb (role == GroupMemberRoleOwner) then Some ErrGroupPermissionDenied else None
  else Some ErrGroupPermissionDenied.

(** ** inbound_state_policy.go *)

Definition InboundGroupMessageReasonUnauthorizedSender : string := "unauthorized_sender".
Definition InboundGroupMessageReasonMembershipVersionMismatch : string :=
  "membership_version_mismatch".
Definition InboundGroupMessageReasonGroupKeyVersionMismatch : string :=
  "group_key_version_mismatch".

(** The key version a message of the group has to carry. *)
Definition expectedGroupKeyVersion (state : GroupState) : Z :=
  if s_LastKeyVersion state =? 0 then 1 else s_LastKeyVersion state.

Definition ValidateInboundGroupMessageState (state : GroupState) (senderID : string)
    (membershipVersion groupKeyVersion : Z) : string * option error :=
  match s_Members state !! senderID with
  | Some member =>
      if negb (m_Status member == GroupMemberStatusActive)
      then (InboundGroupMessageReasonUnauthorizedSender, Some ErrGroupPermissionDenied) else
      if negb (membershipVersion =? s_Version state)
      then (InboundGroupMessageReasonMembershipVersionMismatch, Some ErrOutOfOrderGroupEvent) else
      if negb (groupKeyVersion =? expectedGroupKeyVersion state)
      then (InboundGroupMessageReasonGroupKeyVersionMismatch, Some ErrOutOfOrderGroupEvent) else
      ("", None)
  | None => (InboundGroupMessageReasonUnauthorizedSender, Some ErrGroupPermissionDenied)
  end.

(** The stored state of the group, or a new empty one for the first event of an unknown group
    that invites the local identity. *)
Definition EnsureInboundEventState (event : GroupEvent) (localIdentityID : string)
    : M Registry error GroupStateRef := fun reg =>
  match states reg !! e_GroupID event with
  | Some state => (reg, Ok state)
  | None =>
      let localIdentityID := TrimSpace localIdentityID in
      if negb (e_Type event == GroupEventTypeMemberAdd) || negb (e_Version event =? 1)
         || negb (e_MemberID event == localIdentityID)
      then (reg, Err ErrGroupNotFound) else
      let bootstrapGroup := mkGroup (e_GroupID event) (e_GroupID event) "" ""
        (e_ActorID event) (e_OccurredAt event) (e_OccurredAt event) in
      let '(h, l) := alloc (heap reg) (mkMaps ∅ ∅) in
      (mkRegistry h (states reg) (eventLog reg), Ok (mkRef bootstrapGroup 0 0 l))
  end.

(** ** runtime_helpers.go *)

Definition ReplayWindow : Z := 30 * Minute.
Definition ReplayFutureSkew : Z := 2 * Minute.

Definition DeriveRecipientMessageID (sha256 : list Z -> list Z) (eventID recipientID : string)
    : string :=
  let input := TrimSpace eventID +:+ "|" +:+ TrimSpace recipientID in
  "gmsg_" +:+ hexEncode (take 12 (sha256 (string_bytes input))).

Definition CorrelationID (groupID eventID : string) : string :=
  let groupID := TrimSpace groupID in
  let eventID := TrimSpace eventID in
  if (groupID == "") && (eventID == "") then "group:unknown" else
  if eventID == "" then "group:" +:+ groupID else
  "group:" +:+ groupID +:+ ":event:" +:+ eventID.

Definition BuildReplayGuardKey (kind groupID senderDeviceID uniqueID : string)
    : result error string :=
  let groupID := TrimSpace groupID in
  let senderDeviceID := TrimSpace senderDeviceID in
  let uniqueID := TrimSpace uniqueID in
  let kind := TrimSpace kind in
  if (groupID == "") || (senderDeviceID == "") || (uniqueID == "") || (kind == "")
  then Err ErrInvalidGroupEventPayload else
  Ok (kind +:+ "|" +:+ groupID +:+ "|" +:+ senderDeviceID +:+ "|" +:+ uniqueID).

Definition ValidateReplayOccurredAt (occurredAt now : Z) : option error :=
  if IsZero occurredAt then None else
  let lowerBound := now - ReplayWindow in
  let upperBound := now + ReplayFutureSkew in
  if Before occurredAt lowerBound || After occurredAt upperBound
  then Some ErrOutOfOrderGroupEvent else None.

(** ** The replay guard of runtime_inbound.go, on the cache [ReplaySeen] *)

Definition guardInboundGroupReplay (kind groupID senderDeviceID uniqueID : string)
    (occurredAt now : Z) (seen : gmap string Z) : gmap string Z * option error :=
  match BuildReplayGuardKey kind groupID senderDeviceID uniqueID with
  | Err err => (seen, Some err)
  | Ok key =>
      match ValidateReplayOccurredAt occurredAt now with
      | Some err => (seen, Some err)
      | None =>
          let cutoff := now - ReplayWindow in
          let seen := filter (fun kt => Before kt.2 cutoff = false) seen in
          match seen !! key with
          | Some _ => (seen, Some ErrOutOfOrderGroupEvent)
          | None => (<[key := now]> seen, None)
          end
      end
  end.

(** ** inbound_event_boundary.go *)

Record inboundGroupEventPayload := mkPayload {
  p_MemberID : string; p_Role : string; p_Title : string; p_Description : string;
  p_Avatar : string; p_KeyVersion : Z; p_OccurredAt : string
}.

Record InboundGroupEventWire := mkWire {
  wi_EventID : string; wi_ConversationID : string; wi_MembershipVersion : Z;
  wi_EventType : string; wi_Plain : list Z; wi_SenderID : string; wi_RecipientID : string
}.

Section Inbound.
(** json.Unmarshal into the payload, and time.Parse(time.RFC3339Nano, _). *)
Context (unmarshalPayload : list Z -> result error inboundGroupEventPayload)
        (parseRFC3339Nano : string -> option Z).

Definition decodeDetails (plain : list Z) : result error inboundGroupEventPayload :=
  match plain with
  | [] => Ok (mkPayload "" "" "" "" "" 0 "")
  | _ => unmarshalPayload plain
  end.

Definition DecodeInboundGroupEvent (wire : InboundGroupEventWire) (occurredAt : Z)
    : result error GroupEvent :=
  try! eventType := ParseGroupEventType (wi_EventType wire) in
  try! details := decodeDetails (wi_Plain wire) in
  let role := match ParseGroupMemberRole (p_Role details) with Ok r => r | Err _ => "" end in
  let ts := TrimSpace (p_OccurredAt details) in
  let occurred := if negb (ts == "") then default occurredAt (parseRFC3339Nano ts)
                  else occurredAt in
  let actorID := TrimSpace (wi_SenderID wire) in
  let member0 := TrimSpace (p_MemberID details) in
  let isAddRemove := (eventType == GroupEventTypeMemberAdd)
                     || (eventType == GroupEventTypeMemberRemove) in
  let member := if eventType == GroupEventTypeMemberLeave
                then if member0 == "" then actorID else member0
                else if isAddRemove
                then if member0 == "" then TrimSpace (wi_RecipientID wire) else member0
                else member0 in
  let role := if isAddRemove && (role == "") then GroupMemberRoleUser else role in
  let event := mkGroupEvent (TrimSpace (wi_EventID wire)) (TrimSpace (wi_ConversationID wire))
    (wi_MembershipVersion wire) eventType actorID occurred member role
    (TrimSpace (p_Title details)) (TrimSpace (p_Description details))
    (TrimSpace (p_Avatar details)) (p_KeyVersion details) in
  match ValidateGroupEvent event with
  | Some err => Err err
  | None => Ok event
  end.

(** ** HandleInboundGroupEvent *)

(** What the handler tells the rest of the daemon. *)
Inductive Effect :=
| RecordError (category : string) (err : error)
| RecordGroupAggregate (name : string)
| Warn (reason : string)
| DebugDuplicate
| NotifyGroupUpdated (event : GroupEvent).

Record InboundWorld := mkInboundWorld {
  iw_reg : Registry;
  iw_seen : gmap string Z;
  iw_effects : list Effect
}.

(** [recordErr(category, err); recordAggregate("policy_reject"); warn(..., reason, ...)] *)
Definition rejected (category : string) (err : error) (reason : string) : list Effect :=
  [RecordError category err; RecordGroupAggregate "policy_reject"; Warn reason].

Definition emit (w : InboundWorld) (reg : Registry) (seen : gmap string Z) (l : list Effect)
    : InboundWorld := mkInboundWorld reg seen (iw_effects w ++ l)%list.

Record InboundGroupEventParams := mkEventParams {
  ip_Event : GroupEvent;
  ip_SenderDeviceID : string;
  ip_HasDevice : bool;
  ip_DeviceID : string
}.

(** [isBlocked] is nil or [IsBlockedSender]; [identityID] is nil or the local identity;
    [guard] tells whether [GuardReplay] is set (to [guardInboundGroupReplay]). *)
Context (persist : option SnapshotPersist) (isBlocked : option (string -> bool))
        (identityID : option string) (guard : bool).

Definition HandleInboundGroupEvent (now : Z) (ip : InboundGroupEventParams) (w : InboundWorld)
    : InboundWorld :=
  let event := ip_Event ip in
  let reg := iw_reg w in
  if match isBlocked with Some f => f (e_ActorID event) | None => false end
  then emit w reg (iw_seen w) (rejected "crypto" ErrGroupSenderBlocked "blocked_sender") else
  if ip_HasDevice ip && negb (TrimSpace (ip_SenderDeviceID ip) == TrimSpace (ip_DeviceID ip))
  then emit w reg (iw_seen w)
         (rejected "crypto" (errorsNew "sender device mismatch") "sender_device_mismatch") else
  let '(seen, guardErr) :=
    if guard
    then guardInboundGroupReplay "event" (e_GroupID event) (ip_SenderDeviceID ip) (e_ID event)
           (e_OccurredAt event) now (iw_seen w)
    else (iw_seen w, None) in
  match guardErr with
  | Some err => emit w reg seen (rejected "crypto" err "replay_guard")
  | None =>
      match identityID with
      | None => emit w reg seen []
      | Some localID =>
          match EnsureInboundEventState event localID reg with
          | (reg1, Err err) => emit w reg1 seen (rejected "crypto" err "unknown_group")
          | (reg1, Ok state) =>
              match AuthorizeInboundGroupEvent (deref (heap reg1) state) event with
              | Some err => emit w reg1 seen (rejected "crypto" err "unauthorized")
              | None =>
                  match ApplyEventsWithRollback persist state [event] reg1 with
                  | (reg2, Err err) => emit w reg2 seen (rejected "storage" err "persist_failed")
                  | (reg2, Ok (_, [])) => emit w reg2 seen [DebugDuplicate]
                  | (reg2, Ok (_, _)) => emit w reg2 seen [NotifyGroupUpdated event]
                  end
              end
          end
      end
  end.

(** [handleInboundGroupEvent] of the daemon: decode, then the orchestration. [device] is the
    identifier of [wire.Device], when there is one. *)
Definition handleInboundGroupEvent (now : Z) (wire : InboundGroupEventWire)
    (senderDeviceID : string) (device : option string) (w : InboundWorld) : InboundWorld :=
  match DecodeInboundGroupEvent wire now with
  | Err err => emit w (iw_reg w) (iw_seen w) (rejected "api" err "invalid_payload")
  | Ok event =>
      HandleInboundGroupEvent now
        (mkEventParams event senderDeviceID (bool_decide (is_Some device)) (default "" device)) w
  end.
End Inbound.

(** ** The replay guard over time *)

(** One call of the guard, and a sequence of them on the shared cache. *)
Record GuardCall := mkCall {
  gc_kind : string; gc_group : string; gc_device : string; gc_id : string;
  gc_occurred : Z; gc_now : Z
}.

Definition runGuard (c : GuardCall) (seen : gmap string Z) : gmap string Z * option error :=
  guardInboundGroupReplay (gc_kind c) (gc_group c) (gc_device c) (gc_id c)
    (gc_occurred c) (gc_now c) seen.

Definition runGuards (cs : list GuardCall) (seen : gmap string Z) : gmap string Z :=
  fold_left (fun s c => fst (runGuard c s)) cs seen.

Definition gc_key (c : GuardCall) : result error string :=
  BuildReplayGuardKey (gc_kind c) (gc_group c) (gc_device c) (gc_id c).

Lemma runGuard_keeps c seen key t :
  seen !! key = Some t -> gc_now c <= t + ReplayWindow ->
  fst (runGuard c seen) !! key = Some t.
Proof.
  intros Hs Hn. unfold runGuard, guardInboundGroupReplay. fold (gc_key c).
  destruct (gc_key c) as [k|e]; [|done].
  destruct (ValidateReplayOccurredAt _ _); [done|].
  assert (Hf : filter (fun kt : string * Z => Before kt.2 (gc_now c - ReplayWindow) = false) seen
               !! key = Some t).
  { apply map_lookup_filter_Some. split; [done|]. cbn. unfold Before. lia. }
  cbn zeta. destruct (filter _ seen !! k) eqn:Ek; cbn [fst]; [done|].
  destruct (decide (k = key)) as [->|]; [congruence|]. by rewrite lookup_insert_ne.
Qed.

Lemma runGuards_keeps cs : forall seen key t,
  seen !! key = Some t -> Forall (fun c => gc_now c <= t + ReplayWindow) cs ->
  runGuards cs seen !! key = Some t.
Proof.
  induction cs as [|c cs IH]; intros seen key t Hs Hf; [done|].
  inversion Hf; subst. cbn. apply IH; [|done]. by apply runGuard_keeps.
Qed.

Lemma runGuard_accepted c seen seen' :
  runGuard c seen = (seen', None) ->
  exists key, gc_key c = Ok key /\ seen' !! key = Some (gc_now c).
Proof.
  unfold runGuard, guardInboundGroupReplay. fold (gc_key c).
  destruct (gc_key c) as [k|e]; [|done]. destruct (ValidateReplayOccurredAt _ _); [done|].
  cbn zeta. destruct (filter _ seen !! k); [done|]. intros [= <-].
  exists k. by rewrite lookup_insert_eq.
Qed.

Lemma runGuard_seen c seen key t :
  gc_key c = Ok key -> seen !! key = Some t -> gc_now c <= t + ReplayWindow ->
  snd (runGuard c seen) = Some ErrOutOfOrderGroupEvent.
Proof.
  intros Hk Hs Hn. unfold runGuard, guardInboundGroupReplay. fold (gc_key c). rewrite Hk.
  destruct (ValidateReplayOccurredAt _ _) eqn:Ev; cbn [snd].
  { revert Ev. unfold ValidateReplayOccurredAt. repeat case_match; congruence. }
  cbn zeta. replace (filter _ seen !! key) with (Some t); [done|].
  symmetry. apply map_lookup_filter_Some. split; [done|]. cbn. unfold Before. lia.
Qed.

(** The replay guard. Once a message or event has been let through, the guard rejects
    everything with the same kind, group, device and identifier until the replay window
    has passed, whatever other traffic it sees in between. *)
Theorem replay_rejected_within_window (c again : GuardCall) (between : list GuardCall)
    (seen seen' : gmap string Z) :
  runGuard c seen = (seen', None) -> gc_key again = gc_key c ->
  Forall (fun b => gc_now b <= gc_now c + ReplayWindow) between ->
  gc_now again <= gc_now c + ReplayWindow ->
  snd (runGuard again (runGuards between seen')) = Some ErrOutOfOrderGroupEvent.
Proof.
  intros Hc Hk Hb Ha. destruct (runGuard_accepted _ _ _ Hc) as (key & Hkey & Hs).
  apply (runGuard_seen _ _ key (gc_now c)); [congruence| |done].
  by apply runGuards_keeps.
Qed.

(** The guard remembers for the replay window only, counted from the moment of arrival.
    An event dated in the future by the accepted skew is still inside the accepted dates
    when its entry is dropped: presented again after more than the window, and no later
    than the window after its own date, the same event passes the guard a second time. *)
Theorem future_event_passes_guard_twice (c again : GuardCall) (seen seen' : gmap string Z) :
  runGuard c seen = (seen', None) -> gc_key again = gc_key c ->
  gc_occurred again = gc_occurred c ->
  gc_now c + ReplayWindow < gc_now again <= gc_occurred c + ReplayWindow ->
  snd (runGuard again seen') = None.
Proof.
  intros Hc Hk Ho Ht. destruct (runGuard_accepted _ _ _ Hc) as (key & Hkey & Hs).
  unfold runGuard, guardInboundGroupReplay. fold (gc_key again). rewrite Hk, Hkey.
  assert (Hval : ValidateReplayOccurredAt (gc_occurred c) (gc_now c) = None).
  { revert Hc. unfold runGuard, guardInboundGroupReplay. fold (gc_key c). rewrite Hkey.
    by destruct (ValidateReplayOccurredAt _ _). }
  assert (Hval' : ValidateReplayOccurredAt (gc_occurred again) (gc_now again) = None).
  { rewrite Ho. revert Hval. unfold ValidateReplayOccurredAt, Before, After, ReplayWindow,
      ReplayFutureSkew, Minute, Second, IsZero in *. repeat case_match; try done; lia. }
  rewrite Hval'. cbn zeta.
  replace (filter _ seen' !! key) with (@None Z); [done|]. symmetry.
  apply map_lookup_filter_None. right. intros x Hx. cbn. rewrite Hs in Hx. injection Hx as <-.
  unfold Before. lia.
Qed.

(** ** What one inbound event can do to the registry *)

Lemma authorize_empty g e : AuthorizeInboundGroupEvent (NewGroupState g) e <> None.
Proof.
  unfold AuthorizeInboundGroupEvent. cbn [s_Members NewGroupState]. rewrite !lookup_empty.
  by repeat case_bool_decide.
Qed.

(** The state [EnsureInboundEventState] makes for an unknown group. *)
Lemma deref_bootstrap h g log ss :
  deref (heap (mkRegistry (mkHeap (<[next h := mkMaps ∅ ∅]> (cells h)) (S (next h))) ss log))
    (mkRef g 0 0 (next h)) = NewGroupState g.
Proof. unfold deref, load, NewGroupState. cbn. by rewrite lookup_insert_eq. Qed.

(** Nothing, an unused pair of maps, or one commit of an authorized event of a known group. *)
Inductive inbound_commit (persist : option SnapshotPersist) (e : GroupEvent) (reg : Registry)
    : Registry -> Prop :=
| ic_none : inbound_commit persist e reg reg
| ic_alloc : states reg !! e_GroupID e = None ->
    inbound_commit persist e reg
      (mkRegistry (fst (alloc (heap reg) (mkMaps ∅ ∅))) (states reg) (eventLog reg))
| ic_event r :
    states reg !! e_GroupID e = Some r ->
    AuthorizeInboundGroupEvent (deref (heap reg) r) e = None ->
    inbound_commit persist e reg (fst (ApplyEventsWithRollback persist r [e] reg)).

Lemma HandleInboundGroupEvent_commit persist blk idn guard now ip w :
  inbound_commit persist (ip_Event ip) (iw_reg w)
    (iw_reg (HandleInboundGroupEvent persist blk idn guard now ip w)).
Proof.
  unfold HandleInboundGroupEvent. destruct (match blk with Some _ => _ | None => _ end);
    [constructor|].
  destruct (_ && _); [constructor|].
  destruct (if guard then _ else _) as [seen [err|]]; [constructor|].
  destruct idn as [localID|]; [|constructor].
  unfold EnsureInboundEventState.
  destruct (states (iw_reg w) !! e_GroupID (ip_Event ip)) as [r|] eqn:Hr.
  - destruct (AuthorizeInboundGroupEvent _ _) eqn:Ha; [constructor|].
    pose proof (ic_event persist (ip_Event ip) (iw_reg w) r Hr Ha) as Hc.
    destruct (ApplyEventsWithRollback _ _ _ _) as [reg2 [[r2 [|x l]]|err]]; exact Hc.
  - destruct (_ || _); [constructor|]. cbn [alloc].
    rewrite deref_bootstrap. destruct (AuthorizeInboundGroupEvent _ _) eqn:Ha; [|by apply authorize_empty in Ha].
    by apply ic_alloc.
Qed.

Lemma inbound_commit_inv persist e reg reg' :
  inbound_commit persist e reg reg' -> wf_event e -> reg_inv reg -> reg_inv reg'.
Proof.
  destruct 1 as [|Hn|r Hr Ha]; intros He Hinv; [done| |].
  - apply reg_inv_heap; [done|..].
    + intros q [Hs Hlt]. split; cbn; [|lia]. by rewrite lookup_insert_ne by lia.
    + intros q [Hs Hlt]. unfold deref, load. cbn. by rewrite lookup_insert_ne by lia.
    + done.
  - eapply commit_reg_inv; [done..|]. by apply Forall_cons_2.
Qed.

(** An event of a group that is not known here never changes a group or the log, and
    nobody is notified of it: not even the first event of a group that invites the local
    identity, for which [EnsureInboundEventState] makes an empty state. The authorization
    that follows finds no member in that state and refuses, so no invitation
    from the network ever makes the group known. *)
Theorem unknown_group_is_never_joined (persist : option SnapshotPersist)
    (blk : option (string -> bool)) (idn : option string) (guard : bool) (now : Z)
    (ip : InboundGroupEventParams) (w : InboundWorld) :
  states (iw_reg w) !! e_GroupID (ip_Event ip) = None ->
  let w' := HandleInboundGroupEvent persist blk idn guard now ip w in
  states (iw_reg w') = states (iw_reg w) /\ eventLog (iw_reg w') = eventLog (iw_reg w)
  /\ (idn <> None -> exists cat err reason,
        iw_effects w' = (iw_effects w ++ rejected cat err reason)%list).
Proof.
  intros Hn w'.
  pose proof (HandleInboundGroupEvent_commit persist blk idn guard now ip w) as Hc. fold w' in Hc.
  assert (Hsame : states (iw_reg w') = states (iw_reg w)
                  /\ eventLog (iw_reg w') = eventLog (iw_reg w)).
  { remember (iw_reg w') as reg' eqn:E. clear E. destruct Hc; [done|done|congruence]. }
  destruct Hsame as [Hs Hl]. split; [done|]. split; [done|]. clear Hc Hs Hl. intros Hid.
  destruct idn as [localID|]; [|done]. unfold w', HandleInboundGroupEvent.
  destruct (match blk with Some _ => _ | None => _ end); [by do 3 eexists|].
  destruct (_ && _); [by do 3 eexists|].
  destruct (if guard then _ else _) as [seen [err|]]; [by do 3 eexists|].
  unfold EnsureInboundEventState. rewrite Hn.
  destruct (_ || _); [by do 3 eexists|]. cbn [alloc].
  rewrite deref_bootstrap. destruct (AuthorizeInboundGroupEvent _ _) eqn:Ha; [|by apply authorize_empty in Ha].
  by do 3 eexists.
Qed.

(** ** Decoding *)

(** The integers of the wire have the widths of their Go types. *)
Definition wire_ok (unmarshal : list Z -> result error inboundGroupEventPayload)
    (wire : InboundGroupEventWire) : Prop :=
  0 <= wi_MembershipVersion wire < 2 ^ 64
  /\ forall d, unmarshal (wi_Plain wire) = Ok d -> 0 <= p_KeyVersion d < 2 ^ 32.

(** What decoding guarantees of an event. *)
Record decoded (wire : InboundGroupEventWire) (e : GroupEvent) : Prop := {
  dec_valid : ValidateGroupEvent e = None;
  dec_wf : wf_event e;
  dec_actor : e_ActorID e = TrimSpace (wi_SenderID wire);
  dec_member : TrimSpace (e_MemberID e) = e_MemberID e
}.

Lemma DecodeInboundGroupEvent_ok unmarshal parse wire now e :
  wire_ok unmarshal wire -> DecodeInboundGroupEvent unmarshal parse wire now = Ok e ->
  decoded wire e.
Proof.
  intros [Hv Hk]. unfold DecodeInboundGroupEvent, bindR.
  destruct (ParseGroupEventType _) as [typ|]; [|done].
  destruct (decodeDetails _ _) as [d|] eqn:Ed; [|done].
  assert (Hkd : 0 <= p_KeyVersion d < 2 ^ 32).
  { revert Ed. unfold decodeDetails. destruct (wi_Plain wire) as [|b bs] eqn:Ep.
    - by intros [= <-].
    - intros Hd. by apply Hk. }
  cbn zeta. destruct (ValidateGroupEvent _) eqn:Ev; [done|]. intros [= <-].
  constructor; [done|by split|done|]. cbn.
  repeat case_bool_decide; cbn; by rewrite ?TrimSpace_idemp.
Qed.

(** ** Owners and inbound events *)

Lemma authorize_protects st e k m :
  wf_state st -> AuthorizeInboundGroupEvent st e = None -> e_ActorID e <> k ->
  TrimSpace (e_MemberID e) = e_MemberID e -> s_Members st !! k = Some m ->
  m_Role m = GroupMemberRoleOwner -> m_Status m = GroupMemberStatusActive ->
  exists m', s_Members (fst (applyGroupEvent st e)) !! k = Some m'
             /\ m_Role m' = GroupMemberRoleOwner /\ m_Status m' = GroupMemberStatusActive.
Proof.
  intros Hst Ha Hk Ht Hm Hr Hs.
  destruct (apply_cases st e) as [[_ ->]|(-> & _)]; [|by exists m]. cbn.
  rewrite applyEventBody_lookup, Ht by done.
  destruct (decide (k = e_MemberID e)) as [->|]; [|by exists m]. rewrite Hm.
  unfold memberEffect. revert Ha. unfold AuthorizeInboundGroupEvent. rewrite Hm.
  case_bool_decide as H1; [|case_bool_decide as H2; [|case_bool_decide as H3; [|by exists m]]].
  - destruct (s_Members st !! e_ActorID e) as [a|]; [|done].
    unfold memberAfterAdd. rewrite Hs, Hr.
    rewrite !(bool_decide_false (GroupMemberStatusActive = _)) by done. cbn.
    case_bool_decide; cbn; [|done]. case_bool_decide as Hrole; cbn.
    + intros _. eexists. split; [done|]. by rewrite <- Hrole.
    + by case_bool_decide.
  - rewrite Hr. destruct (s_Members st !! e_ActorID e) as [a|]; [|done].
    case_bool_decide; cbn; [|done]. by destruct (_ || _).
  - destruct (s_Members st !! e_ActorID e) as [a|]; [|done].
    case_bool_decide; cbn; done.
Qed.

(** Active owners are safe from the network. Whatever bytes another sender sends as a
    group event, an active owner of any group still is one after the daemon has
    handled it. *)
Theorem inbound_events_protect_owners unmarshal parse (persist : option SnapshotPersist)
    (blk : option (string -> bool)) (idn : option string) (guard : bool) (now : Z)
    (wire : InboundGroupEventWire) (dev : string) (device : option string) (w : InboundWorld)
    (gid k : string) :
  reg_inv (iw_reg w) -> wire_ok unmarshal wire -> TrimSpace (wi_SenderID wire) <> k ->
  active_owner (iw_reg w) gid k ->
  active_owner (iw_reg (handleInboundGroupEvent unmarshal parse persist blk idn guard now
                          wire dev device w)) gid k.
Proof.
  intros Hinv Hw Hk Hown. unfold handleInboundGroupEvent.
  destruct (DecodeInboundGroupEvent _ _ _ _) as [e|] eqn:Ed; [|done].
  apply DecodeInboundGroupEvent_ok in Ed as [Hv Hwf Hact Hmem]; [|done].
  set (ip := mkEventParams _ _ _ _).
  destruct (HandleInboundGroupEvent_commit persist blk idn guard now ip w) as [|Hn|r Hr Ha]; [done| |].
  - destruct Hown as (st & m & Hg & Hm). exists st, m. split; [|done]. rewrite <- Hg.
    unfold view. cbn. rewrite !lookup_fmap. destruct (states (iw_reg w) !! gid) as [q|] eqn:Eq; [|done].
    cbn. f_equal. destruct (ro_live _ (ri_ok _ Hinv) _ _ Eq) as [_ Hlt].
    unfold deref, load. cbn. by rewrite lookup_insert_ne by lia.
  - destruct Hown as (st & m & Hg & Hm & Hrole & Hstat). cbn [ip_Event ip] in Hr, Ha |- *.
    unfold active_owner.
    destruct (commit_one_state persist _ _ _ e (ri_ok _ Hinv) Hr) as [->| ->]; [by exists st, m|].
    destruct (decide (e_GroupID e = gid)) as [<-|Hne].
    + assert (st = deref (heap (iw_reg w)) r) as ->.
      { unfold view in Hg. rewrite lookup_fmap, Hr in Hg. by injection Hg. }
      destruct (authorize_protects _ e k m (ri_wf _ Hinv _ _ Hg) Ha) as (m' & Hm' & ?);
        [congruence|done..|].
      eexists _, m'. by rewrite lookup_insert_eq.
    + exists st, m. by rewrite lookup_insert_ne.
Qed.

(** Every gate before the registry lets the event pass. *)
Record gates_open (persist : option SnapshotPersist) (blk : option (string -> bool))
    (idn : option string) (guard : bool) (now : Z) (ip : InboundGroupEventParams)
    (w : InboundWorld) : Prop := {
  go_sender : match blk with Some f => f (e_ActorID (ip_Event ip)) | None => false end = false;
  go_device : ip_HasDevice ip = true -> TrimSpace (ip_SenderDeviceID ip) = TrimSpace (ip_DeviceID ip);
  go_guard : guard = true ->
    snd (guardInboundGroupReplay "event" (e_GroupID (ip_Event ip)) (ip_SenderDeviceID ip)
           (e_ID (ip_Event ip)) (e_OccurredAt (ip_Event ip)) now (iw_seen w)) = None;
  go_identity : idn <> None;
  go_persist : forall vs log, runPersist persist vs log = None
}.

(** An authorized, accepted event of a known group is committed and announced. *)
Lemma HandleInboundGroupEvent_applies persist blk idn guard now ip w r :
  gates_open persist blk idn guard now ip w -> reg_ok (iw_reg w) ->
  states (iw_reg w) !! e_GroupID (ip_Event ip) = Some r ->
  AuthorizeInboundGroupEvent (deref (heap (iw_reg w)) r) (ip_Event ip) = None ->
  accepts (deref (heap (iw_reg w)) r) (ip_Event ip) ->
  let w' := HandleInboundGroupEvent persist blk idn guard now ip w in
  view (iw_reg w') = <[e_GroupID (ip_Event ip) :=
                         fst (applyGroupEvent (deref (heap (iw_reg w)) r) (ip_Event ip))]>
                       (view (iw_reg w))
  /\ iw_effects w' = (iw_effects w ++ [NotifyGroupUpdated (ip_Event ip)])%list.
Proof.
  intros [Hs Hd Hg Hi Hp] Hok Hr Ha Hacc w'. unfold w', HandleInboundGroupEvent. rewrite Hs.
  assert (ip_HasDevice ip && negb (TrimSpace (ip_SenderDeviceID ip) == TrimSpace (ip_DeviceID ip))
          = false) as ->.
  { destruct (ip_HasDevice ip); [|done]. by rewrite bool_decide_true by auto. }
  destruct idn as [localID|]; [|done].
  assert (exists seen, (if guard
      then guardInboundGroupReplay "event" (e_GroupID (ip_Event ip)) (ip_SenderDeviceID ip)
             (e_ID (ip_Event ip)) (e_OccurredAt (ip_Event ip)) now (iw_seen w)
      else (iw_seen w, None)) = (seen, None)) as [seen ->].
  { destruct guard; [|eauto]. destruct (guardInboundGroupReplay _ _ _ _ _ _ _) as [seen o].
    cbn in Hg. exists seen. by rewrite Hg. }
  unfold EnsureInboundEventState. rewrite Hr, Ha.
  pose proof (commit_refines persist (iw_reg w) (e_GroupID (ip_Event ip)) r [ip_Event ip] Hok Hr
                (single_fails_cleanly _ _)) as H.
  unfold spec_commit in H. cbn [applyAll] in H. rewrite (apply_accepts _ _ Hacc) in H |- *.
  cbn [app fst] in H |- *. rewrite Hp in H. unfold outcome_refines in H.
  destruct (ApplyEventsWithRollback _ _ _ _) as [reg' [[r' l]|err]]; destruct H as (Hv & _ & Hres);
    [|done].
  assert (l = [ip_Event ip]) as -> by congruence. by rewrite <- Hv.
Qed.

(** An invited member can make itself an owner. Accepting an invitation is a
    [member_add] of the member by itself; the inbound policy lets it through before it
    looks at the role, and the application takes the role from the event. So when the
    event says owner, the invited member (a plain user, say) is an active owner afterwards. *)
Theorem invited_member_can_claim_ownership (persist : option SnapshotPersist)
    (blk : option (string -> bool)) (idn : option string) (guard : bool) (now : Z)
    (ip : InboundGroupEventParams) (w : InboundWorld) (st : GroupState) (m : GroupMember) :
  gates_open persist blk idn guard now ip w -> reg_inv (iw_reg w) ->
  view (iw_reg w) !! e_GroupID (ip_Event ip) = Some st -> accepts st (ip_Event ip) ->
  e_Type (ip_Event ip) = GroupEventTypeMemberAdd ->
  e_ActorID (ip_Event ip) = e_MemberID (ip_Event ip) ->
  TrimSpace (e_MemberID (ip_Event ip)) = e_MemberID (ip_Event ip) ->
  s_Members st !! e_MemberID (ip_Event ip) = Some m -> m_Status m = GroupMemberStatusInvited ->
  e_Role (ip_Event ip) = GroupMemberRoleOwner ->
  active_owner (iw_reg (HandleInboundGroupEvent persist blk idn guard now ip w))
    (e_GroupID (ip_Event ip)) (e_MemberID (ip_Event ip)).
Proof.
  intros Hgo Hinv Hg Hacc Ht Hself Htrim Hm Hs Hrole. set (e := ip_Event ip) in *.
  pose proof (ri_wf _ Hinv _ _ Hg) as Hwf.
  unfold view in Hg. rewrite lookup_fmap in Hg.
  destruct (states (iw_reg w) !! e_GroupID e) as [r|] eqn:Hr; [|done]. injection Hg as <-.
  assert (Ha : AuthorizeInboundGroupEvent (deref (heap (iw_reg w)) r) e = None).
  { unfold AuthorizeInboundGroupEvent. rewrite Ht, Hself, Hm. cbn. by rewrite Hs, !bool_decide_true by done. }
  destruct (HandleInboundGroupEvent_applies _ _ _ _ _ _ _ r Hgo (ri_ok _ Hinv) Hr Ha Hacc) as [Hv _].
  unfold active_owner. fold e in Hv. rewrite Hv, lookup_insert_eq, (apply_accepts _ _ Hacc).
  eexists _, _. split; [done|]. cbn [fst commitEvent s_Members].
  rewrite applyEventBody_lookup, Htrim, decide_True, Hm by done.
  unfold memberEffect, memberAfterAdd. rewrite Ht. cbn. rewrite Hs. cbn.
  rewrite (bool_decide_true (TrimSpace (e_ActorID e) = _)) by by rewrite Hself. done.
Qed.

(** The inbound policy does not accept what the local operations of ordinary members
    commit. Leaving, accepting, declining and removing are committed together with a key
    rotation by the same actor; a peer that is in the same state and has handled the change
    itself refuses that rotation unless the actor is an owner, so it stays behind by one version. *)
Theorem peers_refuse_rotation_of_non_owners (gid : string) (st : GroupState) (actor : string)
    (change rotate : GroupEvent) :
  wf_state st -> policy gid st actor [change; rotate] ->
  (forall m, s_Members st !! actor = Some m -> m_Role m <> GroupMemberRoleOwner) ->
  AuthorizeInboundGroupEvent (fst (applyGroupEvent st change)) rotate
  = Some ErrGroupPermissionDenied.
Proof.
  intros Hst Hp Hrole.
  assert (Hafter : forall m, s_Members (fst (applyGroupEvent st change)) !! actor = Some m ->
                   m_Role m <> GroupMemberRoleOwner).
  { intros m. destruct (apply_cases st change) as [[_ ->]|(-> & _)]; [|apply Hrole]. cbn.
    rewrite applyEventBody_lookup by done. destruct (decide _) as [Heq|]; [|apply Hrole].
    unfold memberEffect. clear Heq. inversion Hp; subst; cbn in *;
      (destruct (s_Members st !! actor) as [a|] eqn:Ea; [|try done; by intros [= <-]]); intros [= <-];
      unfold memberAfterDrop, memberAfterAdd; repeat case_bool_decide; cbn; try (by apply Hrole).
    all: injection H; intros; subst; by apply Hrole. }
  assert (Hrot : e_Type rotate = GroupEventTypeKeyRotate /\ e_ActorID rotate = actor)
    by by inversion Hp. destruct Hrot as [Hrt Hra].
  unfold AuthorizeInboundGroupEvent. rewrite Hrt, Hra. cbn.
  destruct (s_Members (fst (applyGroupEvent st change)) !! actor) as [m|]; [|done].
  destruct (m_Status m == GroupMemberStatusActive); cbn; [|done].
  by rewrite (bool_decide_false (m_Role m = _)) by by apply Hafter.
Qed.

(** ** Reachable registries *)

Definition emptyRegistry : Registry := mkRegistry (mkHeap ∅ 0) ∅ ∅.

Lemma emptyRegistry_inv : reg_inv emptyRegistry.
Proof. by constructor; [constructor| |]; intros *; rewrite ?lookup_empty. Qed.

(** Identifier generators whose group identifiers have no white space around them, as
    runtime.GeneratePrefixedID's (a prefix, an underscore and hexadecimal digits). *)
Definition trimmed_ids {G} (gen : option (string -> G -> G * result error string)) : Prop :=
  forall f g g' id, gen = Some f -> f "group" g = (g', Ok id) -> TrimSpace id = id.

Section Reachability.
Context {F L G : Type} (NewLimiter : F -> Z -> L) (AllowN : L -> Z -> Z -> L * bool).

(** One step of the runtime: a local operation or an event from the network, each run under
    the write lock of the registry, with any actor, any arguments and any outcome of
    the persistence. *)
Inductive group_step : Registry -> Registry -> Prop :=
| gs_local persist ntf gen actor f (w : World F L G) :
    local_call NewLimiter AllowN persist ntf gen actor f ->
    group_step (w_reg w) (w_reg (f w))
| gs_create persist ntf title id now gen (w : World F L G) :
    trimmed_ids gen ->
    group_step (w_reg w) (w_reg (fst (CreateGroup persist ntf title id now gen w)))
| gs_delete persist gid actor now abuse (w : World F L G) :
    group_step (w_reg w)
      (w_reg (fst (DeleteGroup NewLimiter AllowN persist gid actor now abuse w)))
| gs_inbound unmarshal parse persist blk idn guard now wire dev device w :
    wire_ok unmarshal wire ->
    group_step (iw_reg w) (iw_reg (handleInboundGroupEvent unmarshal parse persist blk idn
                                     guard now wire dev device w)).

Lemma group_step_inv reg reg' : group_step reg reg' -> reg_inv reg -> reg_inv reg'.
Proof.
  destruct 1 as [persist ntf gen a f w Hf| | |unmarshal parse persist blk idn guard now wire
    dev device w Hw]; intros Hinv.
  - eapply local_commit_inv; [|done]. by eapply local_call_policy.
  - by apply CreateGroup_inv.
  - by apply DeleteGroup_inv.
  - unfold handleInboundGroupEvent.
    destruct (DecodeInboundGroupEvent _ _ _ _) as [e|] eqn:Ed; [|done].
    apply DecodeInboundGroupEvent_ok in Ed as [_ He _ _]; [|done].
    eapply inbound_commit_inv; [apply HandleInboundGroupEvent_commit|done|done].
Qed.

(** C3: The registry invariant holds in every reachable state. From any registry that
    satisfies it, after any interleaving of local operations, group creations and
    deletions and events from the network, failed ones included, every stored group is
    well-formed, is stored under its own identifier, shares its maps with no other
    group, and its log is exactly the valid events of the versions 1, 2, ..., [Version]. *)
Theorem reachable_registries_inv (reg0 reg : Registry) :
  reg_inv reg0 -> rtc group_step reg0 reg -> reg_inv reg.
Proof. intros H0. induction 1; [done|]. eauto using group_step_inv. Qed.
End Reachability.

(** ** Witnesses *)

Definition ex_call (id : string) (occurred now : Z) : GuardCall :=
  mkCall "event" "g1" "dev1" id occurred now.

Lemma replay_rejected_within_window_witness :
  snd (runGuard (ex_call "e9" (100 * Minute) (110 * Minute))
         (runGuards [ex_call "e10" (100 * Minute) (101 * Minute)]
            (fst (runGuard (ex_call "e9" (100 * Minute) (100 * Minute)) ∅))))
  = Some ErrOutOfOrderGroupEvent.
Proof.
  apply (replay_rejected_within_window (ex_call "e9" (100 * Minute) (100 * Minute))
           (ex_call "e9" (100 * Minute) (110 * Minute))
           [ex_call "e10" (100 * Minute) (101 * Minute)] ∅).
  - vm_compute. reflexivity.
  - reflexivity.
  - repeat constructor. cbn. unfold ReplayWindow, Minute, Second. lia.
  - cbn. unfold ReplayWindow, Minute, Second. lia.
Defined.

Lemma future_event_passes_guard_twice_witness :
  snd (runGuard (ex_call "e9" (102 * Minute) (131 * Minute))
         (fst (runGuard (ex_call "e9" (102 * Minute) (100 * Minute)) ∅))) = None.
Proof.
  apply (future_event_passes_guard_twice (ex_call "e9" (102 * Minute) (100 * Minute))
           (ex_call "e9" (102 * Minute) (131 * Minute)) ∅).
  - vm_compute. reflexivity.
  - reflexivity.
  - reflexivity.
  - cbn. unfold ReplayWindow, Minute, Second. lia.
Defined.

Definition ex_inbound : InboundWorld := mkInboundWorld (ex_registry 1) ∅ [].

Definition ex_invitation : GroupEvent :=
  mkGroupEvent "e1" "g2" 1 GroupEventTypeMemberAdd "mallory" 5 "alice" "user" "" "" "" 0.

Lemma unknown_group_is_never_joined_witness :
  states (iw_reg (HandleInboundGroupEvent None None (Some "alice") true 6
                    (mkEventParams ex_invitation "dev1" false "") ex_inbound))
  = states (ex_registry 1).
Proof.
  apply (unknown_group_is_never_joined None None (Some "alice") true 6
           (mkEventParams ex_invitation "dev1" false "") ex_inbound).
  vm_compute. reflexivity.
Defined.

(** Bob removes Alice; Carol accepts her invitation as an owner. *)
Definition ex_unmarshal (bs : list Z) : result error inboundGroupEventPayload :=
  match bs with
  | [1] => Ok (mkPayload "alice" "" "" "" "" 0 "")
  | _ => Err (errorsNew "json")
  end.

Definition ex_wire : InboundGroupEventWire :=
  mkWire "e4" "g1" 4 "member_remove" [1] "bob" "alice".

Lemma ex_wire_ok : wire_ok ex_unmarshal ex_wire.
Proof. split; cbn; [lia|]. intros d [= <-]. cbn. lia. Qed.

Lemma inbound_events_protect_owners_witness :
  active_owner (iw_reg (handleInboundGroupEvent ex_unmarshal (fun _ => None) None None
                          (Some "alice") true 6 ex_wire "dev1" None ex_inbound)) "g1" "alice".
Proof.
  apply (inbound_events_protect_owners ex_unmarshal (fun _ => None) None None
           (Some "alice") true 6 ex_wire "dev1" None ex_inbound "g1" "alice").
  - apply ex_registry_inv. lia.
  - apply ex_wire_ok.
  - vm_compute. discriminate.
  - unfold active_owner. eexists _, _. repeat split; vm_compute; reflexivity.
Defined.

Lemma invited_member_can_claim_ownership_witness :
  active_owner (iw_reg (HandleInboundGroupEvent None None (Some "alice") true 6
    (mkEventParams (ex_add "e4" 4 "carol" "carol" "owner") "dev1" false "") ex_inbound))
    "g1" "carol".
Proof.
  apply (invited_member_can_claim_ownership None None (Some "alice") true 6
    (mkEventParams (ex_add "e4" 4 "carol" "carol" "owner") "dev1" false "") ex_inbound
    (deref (heap (ex_registry 1)) (mkRef ex_group 3 1 0)) (ex_member "carol" "user" "invited")).
  - constructor; [reflexivity|discriminate| |discriminate|reflexivity].
    intros _. vm_compute. reflexivity.
  - apply ex_registry_inv. lia.
  - vm_compute. reflexivity.
  - constructor; try (vm_compute; reflexivity); [vm_compute; discriminate|].
    apply (bool_decide_eq_true_1 _). vm_compute. reflexivity.
  - reflexivity.
  - reflexivity.
  - vm_compute. reflexivity.
  - vm_compute. reflexivity.
  - reflexivity.
  - reflexivity.
Defined.

Lemma peers_refuse_rotation_of_non_owners_witness :
  AuthorizeInboundGroupEvent
    (fst (applyGroupEvent ex_state
       (memberEvent GroupEventTypeMemberAdd "e4" "g1" "bob" "bob" "user" 4 5)))
    (mkGroupEvent "e5" "g1" 5 GroupEventTypeKeyRotate "bob" 5 "" "" "" "" "" 2)
  = Some ErrGroupPermissionDenied.
Proof.
  apply (peers_refuse_rotation_of_non_owners "g1" ex_state "bob").
  - apply ex_state_wf.
  - apply (pol_accept "g1" ex_state "bob" "e4" "e5" 5 (ex_member "bob" "user" "invited"));
      vm_compute; reflexivity.
  - intros m. vm_compute. intros [= <-]. discriminate.
Defined.

Lemma reachable_registries_inv_witness :
  reg_inv (w_reg (fst (InviteToGroup ex_NewLimiter ex_AllowN None true (Some ex_gen) "group_0"
    "alice" "bob" 9 None true
    (fst (CreateGroup None true "team" "alice" 9 (Some ex_generateID)
            (mkWorld emptyRegistry ex_abuse 0%nat [])))))).
Proof.
  apply (reachable_registries_inv ex_NewLimiter ex_AllowN emptyRegistry (G := nat)).
  - apply emptyRegistry_inv.
  - eapply rtc_l; [|apply rtc_once].
    + apply (gs_create ex_NewLimiter ex_AllowN None true "team" "alice" 9 (Some ex_generateID)
               (mkWorld emptyRegistry ex_abuse 0%nat [])).
      intros f [|g] g' i [= <-] [= <- <-]; vm_compute; reflexivity.
    + exact (gs_local ex_NewLimiter ex_AllowN None true (Some ex_gen) _
        (fun w => fst (InviteToGroup ex_NewLimiter ex_AllowN None true (Some ex_gen) "group_0"
                         "alice" "bob" 9 None true w)) _
        (call_invite ex_NewLimiter ex_AllowN None true (Some ex_gen) "group_0" "alice" "bob" 9
           None true)).
Defined.
