(* ===== verification/GroupStore.v ===== *)
(** * The group snapshot on disk

    Models internal/domains/group/state_store.go (validation of a snapshot, [Bootstrap], [Persist]
    and [Wipe] of the store) and runtime_state.go ([SetSnapshot]). The maps a snapshot is built
    from are cloned before anything is checked or sorted, so the model works on values; [SetSnapshot]
    puts them into a registry with maps of their own. encoding/json is an interface. *)
From S2P Require Import Prelude SecureStore GroupModel RateLimiter GroupRuntime GroupMembership GroupInbound.
From stdpp Require Import base gmap strings list sets option relations.
From Stdlib Require Import ZArith Lia Sorted.
Open Scope string_scope.
Open Scope Z_scope.
Open Scope go_scope.

Abbreviation States := (gmap string GroupState).
Abbreviation EventLog := (gmap string (list GroupEvent)).

(** ** NormalizeGroupSnapshot *)

(** The body of the loop over the members of a state. *)
Definition checkMember (groupID memberID : string) (member : GroupMember) : option error :=
  if TrimSpace memberID == "" then Some ErrInvalidGroupMemberID else
  if (TrimSpace (m_MemberID member) == "") || negb (m_MemberID member == memberID)
  then Some ErrInvalidGroupMemberID else
  if negb (m_GroupID member == groupID) then Some ErrInvalidGroupID else
  ValidateGroupMember member.

(** The first error of a loop that returns at the first one. *)
Fixpoint firstError {A} (f : A -> option error) (l : list A) : option error :=
  match l with
  | [] => None
  | x :: l' => match f x with Some err => Some err | None => firstError f l' end
  end.

Section Normalize.
Context `{GoRuntime}.

Definition normalizeGroupState (state : GroupState) : result error GroupState :=
  let gid := g_ID (s_Group state) in
  if TrimSpace gid == "" then Err ErrInvalidGroupID else
  match firstError (fun id => if TrimSpace id == "" then Some ErrInvalidGroupEventID else None)
          (elements (s_AppliedEventIDs state)) with
  | Some err => Err err
  | None =>
  match firstError (fun '(memberID, member) => checkMember gid memberID member)
          (rangeMap (s_Members state)) with
  | Some err => Err err
  | None => Ok state
  end
  end.

(** The loop over the states. It assigns to the map it ranges over, so the value of a key is
    the one the map holds when the key is visited. *)
Fixpoint normalizeStates (keys : list string) (acc : States) : result error States :=
  match keys with
  | [] => Ok acc
  | k :: rest =>
      match acc !! k with
      | None => normalizeStates rest acc
      | Some state =>
          let groupID := TrimSpace k in
          if groupID == "" then Err ErrInvalidGroupID else
          if (TrimSpace (g_ID (s_Group state)) == "") || negb (g_ID (s_Group state) == groupID)
          then Err ErrInvalidGroupID else
          try! normalizedState := normalizeGroupState state in
          normalizeStates rest (<[groupID := normalizedState]> acc)
      end
  end.

Definition eventLess (a b : GroupEvent) : bool :=
  if e_Version a =? e_Version b then Before (e_OccurredAt a) (e_OccurredAt b)
  else e_Version a <? e_Version b.

Definition checkEvent (groupID : string) (event : GroupEvent) : option error :=
  match ValidateGroupEvent event with
  | Some err => Some err
  | None => if negb (e_GroupID event == groupID) then Some ErrInvalidGroupID else None
  end.

(** The loop over the logs. The slice is sorted in place, and stored under the trimmed key. *)
Fixpoint normalizeLogs (keys : list string) (acc : EventLog) : result error EventLog :=
  match keys with
  | [] => Ok acc
  | k :: rest =>
      match acc !! k with
      | None => normalizeLogs rest acc
      | Some events =>
          let groupID := TrimSpace k in
          if groupID == "" then Err ErrInvalidGroupID else
          match firstError (checkEvent groupID) events with
          | Some err => Err err
          | None =>
              let events := sortSlice eventLess events in
              normalizeLogs rest (<[groupID := events]> (<[k := events]> acc))
          end
      end
  end.

Definition NormalizeGroupSnapshot (sts : States) (eventLog : EventLog)
    : result error (States * EventLog) :=
  try! normalizedStates := normalizeStates (rangeMap sts).*1 sts in
  try! normalizedEvents := normalizeLogs (rangeMap eventLog).*1 eventLog in
  Ok (normalizedStates, normalizedEvents).

(** ** The validation is the well-formedness of the model *)

Lemma firstError_None {A} (f : A -> option error) l :
  firstError f l = None <-> Forall (fun x => f x = None) l.
Proof.
  induction l as [|x l IH]; cbn; [done|]. rewrite Forall_cons.
  destruct (f x); [split; [done|by intros [? _]]|]. tauto.
Qed.

Lemma checkMember_wf gid k m :
  TrimSpace gid <> "" -> checkMember gid k m = None <-> wf_member gid k m.
Proof.
  intros Hg. unfold checkMember, ValidateGroupMember. split.
  - repeat case_bool_decide; cbn; try done.
    destruct (GroupMemberRole_Valid _) eqn:Er; [|done].
    destruct (GroupMemberStatus_Valid _) eqn:Es; [|done]. intros _. by constructor; subst.
  - intros [Hk Hn Hgr Hr Hs]. rewrite Hk, Hgr, Hr, Hs.
    rewrite (bool_decide_false (TrimSpace k = "")), (bool_decide_false (TrimSpace gid = "")) by done.
    by rewrite !bool_decide_true.
Qed.

Lemma rangeMap_lookup {A} (m : gmap string A) k x : (k, x) ∈ rangeMap m <-> m !! k = Some x.
Proof. rewrite rangeMap_perm. apply elem_of_map_to_list. Qed.

Lemma normalizeGroupState_spec state :
  0 <= s_Version state < 2 ^ 64 -> 0 <= s_LastKeyVersion state < 2 ^ 32 ->
  normalizeGroupState state = Ok state <-> wf_state state.
Proof.
  intros Hv Hk. unfold normalizeGroupState. set (gid := g_ID (s_Group state)).
  case_bool_decide as Hg; [split; [done|]; intros Hw; by destruct (wf_id _ Hw)|].
  destruct (firstError _ (elements _)) eqn:Ea.
  { split; [done|]. intros Hw. exfalso. revert Ea.
    rewrite (proj2 (firstError_None _ _)); [done|]. apply Forall_forall.
    intros id Hid%elem_of_elements. rewrite bool_decide_false; [done|]. by apply (wf_applied _ Hw). }
  destruct (firstError _ (rangeMap _)) eqn:Ef.
  - split; [done|]. intros Hw. exfalso. revert Ef.
    rewrite (proj2 (firstError_None _ _)); [done|]. apply Forall_forall.
    intros [k m] Hin%rangeMap_lookup. apply checkMember_wf; [done|]. by apply (wf_members _ Hw).
  - split; [|done]. intros _. rewrite firstError_None, Forall_forall in Ef. rewrite firstError_None, Forall_forall in Ea.
    constructor; try done.
    + intros id Hid Ht. specialize (Ea id). rewrite elem_of_elements, bool_decide_true in Ea by done.
      by specialize (Ea Hid).
    + intros k m Hm. specialize (Ef (k, m)). cbn in Ef. rewrite rangeMap_lookup in Ef.
      by apply Ef, checkMember_wf in Hm.
Qed.

(** The snapshot validation is exactly the well-formedness invariant the operations keep: a
    state passes [normalizeGroupState], and comes out unchanged, if and only if it is
    well-formed (for counters within their integer types). *)
Theorem normalizeGroupState_iff_wf (state : GroupState) :
  0 <= s_Version state < 2 ^ 64 -> 0 <= s_LastKeyVersion state < 2 ^ 32 ->
  normalizeGroupState state = Ok state <-> wf_state state.
Proof. apply normalizeGroupState_spec. Qed.
End Normalize.

(** ** Registries whose snapshot is accepted as it is *)

Record persistable (reg : Registry) : Prop := {
  ps_inv : reg_inv reg;
  ps_trim : forall g r, states reg !! g = Some r -> TrimSpace g = g;
  ps_log : forall g l, eventLog reg !! g = Some l -> is_Some (states reg !! g)
}.

Lemma eventLess_order : weak_order eventLess.
Proof.
  split; unfold eventLess, Before; intros *;
    repeat match goal with |- context [?x =? ?y] => destruct (Z.eqb_spec x y) end; intros; lia.
Qed.

(** A log in version order is left as it is, by whatever sort. *)
Lemma sort_log `{GoRuntime} (v n : Z) (log : list GroupEvent) :
  e_Version <$> log = seqZ v n -> sortSlice eventLess log = log.
Proof.
  intros Hlog.
  assert (Hlook : forall i e, log !! i = Some e -> e_Version e = v + Z.of_nat i).
  { intros i e Hi. assert (Hs : seqZ v n !! i = Some (e_Version e))
      by (rewrite <- Hlog, list_lookup_fmap; by rewrite Hi).
    apply lookup_seqZ in Hs. lia. }
  symmetry. apply (sorted_unique eventLess).
  - clear Hlog. revert v Hlook. induction log as [|e log IH]; intros v Hlook; [constructor|].
    constructor.
    + apply (IH (v + 1)). intros i x Hi. specialize (Hlook (S i) x Hi). lia.
    + apply Forall_lookup. intros i x Hi. pose proof (Hlook (S i) x Hi).
      pose proof (Hlook 0%nat e eq_refl). unfold eventLess.
      destruct (Z.eqb_spec (e_Version x) (e_Version e)); lia.
  - apply sortSlice_sorted, eventLess_order.
  - symmetry. apply sortSlice_perm.
  - intros a b [i Hi]%list_elem_of_lookup [j Hj]%list_elem_of_lookup.
    pose proof (Hlook _ _ Hi). pose proof (Hlook _ _ Hj). unfold eventLess.
    repeat match goal with |- context [?x =? ?y] => destruct (Z.eqb_spec x y) end; intros; try lia.
    assert (i = j) by lia. congruence.
Qed.

Section Snapshot.
Context `{GoRuntime}.

Lemma normalizeStates_id keys (sts : States) :
  (forall g st, sts !! g = Some st ->
     TrimSpace g = g /\ g_ID (s_Group st) = g /\ wf_state st) ->
  normalizeStates keys sts = Ok sts.
Proof.
  intros Hs. induction keys as [|k keys IH]; cbn; [done|].
  destruct (sts !! k) as [st|] eqn:E; [|done]. destruct (Hs k st E) as (Ht & Hg & Hw).
  pose proof (wf_id _ Hw) as Hn. rewrite Ht, Hg in *. rewrite Ht in Hn.
  rewrite Ht, (bool_decide_false (k = "")) by done. rewrite bool_decide_true by done. cbn.
  assert (normalizeGroupState st = Ok st) as ->
    by (apply normalizeGroupState_spec; [apply Hw|apply Hw|done]).
  cbn. by rewrite insert_id.
Qed.

Lemma normalizeLogs_id keys (log : EventLog) :
  (forall g l, log !! g = Some l -> TrimSpace g = g /\ g <> ""
     /\ Forall (fun e => ValidateGroupEvent e = None /\ e_GroupID e = g) l
     /\ sortSlice eventLess l = l) ->
  normalizeLogs keys log = Ok log.
Proof.
  intros Hs. induction keys as [|k keys IH]; cbn; [done|].
  destruct (log !! k) as [l|] eqn:E; [|done]. destruct (Hs k l E) as (Ht & Hn & Hf & Hsort).
  rewrite Ht, bool_decide_false by done.
  assert (firstError (checkEvent k) l = None) as ->.
  { apply firstError_None. apply (Forall_impl _ _ _ Hf). intros e [Hv He].
    unfold checkEvent. rewrite Hv, He. by rewrite bool_decide_true. }
  rewrite Hsort, insert_insert_eq. by rewrite insert_id.
Qed.

Lemma persistable_normal reg :
  persistable reg ->
  NormalizeGroupSnapshot (view reg) (eventLog reg) = Ok (view reg, eventLog reg).
Proof.
  intros [Hinv Htrim Hdom].
  assert (Hst : forall g st, view reg !! g = Some st ->
     TrimSpace g = g /\ g_ID (s_Group st) = g /\ wf_state st).
  { intros g st Hg. pose proof (ri_wf _ Hinv _ _ Hg) as Hwf. unfold view in Hg.
    rewrite lookup_fmap in Hg. destruct (states reg !! g) as [r|] eqn:Er; [|done].
    injection Hg as <-. split; [by eapply Htrim|]. split; [|done].
    by apply (ro_key _ (ri_ok _ Hinv)). }
  unfold NormalizeGroupSnapshot. rewrite normalizeStates_id by done. cbn.
  rewrite normalizeLogs_id; [done|]. intros g l Hl.
  destruct (Hdom _ _ Hl) as [r Hr].
  assert (Hg : view reg !! g = Some (deref (heap reg) r))
    by (unfold view; by rewrite lookup_fmap, Hr).
  pose proof (ri_log _ Hinv _ _ Hg) as [Hver Hev]. rewrite Hl in Hver, Hev. cbn [default] in *.
  destruct (Hst _ _ Hg) as (Ht & Hid & Hw). rewrite Hid in Hev.
  split; [done|]. split; [intros ->; by apply (wf_id _ Hw); rewrite Hid|].
  split; [done|]. by eapply sort_log.
Qed.
End Snapshot.

Section Reachable.
Context {F L G : Type} (NewLimiter : F -> Z -> L) (AllowN : L -> Z -> Z -> L * bool).

Lemma commit_persistable persist reg gid r es :
  persistable reg -> states reg !! gid = Some r -> Forall wf_event es ->
  persistable (fst (ApplyEventsWithRollback persist r es reg)).
Proof.
  intros [Hinv Htrim Hdom] Hr Hes.
  assert (Hupd : forall reg' : Registry,
    (states reg' = states reg \/ exists q, states reg' = <[gid := q]> (states reg)) ->
    (eventLog reg' = eventLog reg \/ exists l, eventLog reg' = <[gid := l]> (eventLog reg)) ->
    (forall g q, states reg' !! g = Some q -> TrimSpace g = g)
    /\ (forall g l, eventLog reg' !! g = Some l -> is_Some (states reg' !! g))).
  { intros reg' Hs Hl. assert (Hss : forall g, is_Some (states reg' !! g) <-> is_Some (states reg !! g)).
    { intros g. destruct Hs as [->|[q ->]]; [done|]. rewrite lookup_insert.
      destruct (decide (gid = g)) as [<-|]; [|done]. rewrite Hr. split; by eexists. }
    split.
    - intros g q Hq. destruct (proj1 (Hss g)) as [q' Hq']; [by eexists|]. by eapply Htrim.
    - intros g l Hg. apply Hss. destruct Hl as [Hl|[l' Hl]]; rewrite Hl in Hg; [by eapply Hdom|].
      revert Hg. rewrite lookup_insert. destruct (decide (gid = g)) as [<-|]; [by rewrite Hr|].
      intros Hg. by eapply Hdom. }
  pose proof (commit_reg_inv persist reg gid r es Hinv Hr Hes) as Hinv'.
  assert (Hshape : let reg' := fst (ApplyEventsWithRollback persist r es reg) in
    (states reg' = states reg \/ exists q, states reg' = <[gid := q]> (states reg))
    /\ (eventLog reg' = eventLog reg \/ exists l, eventLog reg' = <[gid := l]> (eventLog reg))).
  { destruct (decide (es = [])) as [->|Hne]; [cbn; auto|].
    rewrite (ApplyEventsWithRollback_eq _ _ _ _ _ (ri_ok _ Hinv) Hr Hne).
    destruct (snd _) as [[|a l]|err]; cbn [fst]; [cbn; auto| |cbn; auto].
    destruct (runPersist persist _ _); (split; right; eexists; reflexivity). }
  destruct Hshape as [Hs Hl]. destruct (Hupd _ Hs Hl). by constructor.
Qed.

Lemma allocGroupID_source (gen : string -> G -> G * result error string) n (w w' : World F L G) g :
  allocGroupID gen n w = (w', Ok g) -> g = "" \/ exists s s', gen "group" s = (s', Ok g).
Proof.
  revert w. induction n as [|n IH]; intros w; cbn; [intros [= _ <-]; auto|].
  destruct (gen "group" (w_gen w)) as [g' [c|e]] eqn:E; [|done].
  cbn. destruct (states (w_reg w) !! c); [apply IH|]. intros [= _ <-]. eauto.
Qed.

Lemma CreateGroup_persistable persist ntf title id now gen (w : World F L G) :
  trimmed_ids gen -> persistable (w_reg w) ->
  persistable (w_reg (fst (CreateGroup persist ntf title id now gen w))).
Proof.
  intros Hgen [Hinv Htrim Hdom].
  pose proof (CreateGroup_inv persist ntf title id now gen w Hinv) as Hinv'.
  enough (wp (CreateGroup persist ntf title id now gen) (fun w' _ =>
    (forall g r, states (w_reg w') !! g = Some r -> TrimSpace g = g)
    /\ (forall g l, eventLog (w_reg w') !! g = Some l -> is_Some (states (w_reg w') !! g))) w)
    as [H1 H2]%wp_run by by constructor.
  assert (Hsame : forall w' : World F L G, w_reg w' = w_reg w ->
    (forall g r, states (w_reg w') !! g = Some r -> TrimSpace g = g)
    /\ (forall g l, eventLog (w_reg w') !! g = Some l -> is_Some (states (w_reg w') !! g)))
    by (intros w' ->; done).
  unfold CreateGroup. apply wp_bind, wp_lift; [intros t Ht|intros; by apply Hsame].
  apply wp_bind, wp_lift; [|intros; by apply Hsame]. intros i Hi.
  destruct gen as [gen|]; [|by apply Hsame]. apply wp_bind. unfold wp at 1.
  pose proof (allocGroupID_reg gen 3 w) as Hreg. pose proof (allocGroupID_source gen 3 w) as Hsrc.
  pose proof (allocGroupID_fresh gen 3 w) as Hfr.
  destruct (allocGroupID gen 3 w) as [w1 [g|e]]; cbn [fst] in Hreg; [|by apply Hsame].
  destruct (Hfr w1 g eq_refl) as [_ Hfresh].
  apply wp_bind, wp_reject; [intros _; by apply Hsame|]. intros Hg%bool_decide_eq_false.
  destruct Hfresh as [|Hfresh]; [done|].
  destruct (Hsrc w1 g eq_refl) as [|(s & s' & Hs)]; [done|].
  pose proof (Hgen gen s s' g eq_refl Hs) as Htg.
  apply wp_bind. unfold wp at 1, genID. destruct (gen "gevt" (w_gen w1)) as [g' [ev|e]];
    [|by apply Hsame].
  apply wp_bind, wp_lift; [|intros; by apply Hsame]. intros [st event] _.
  unfold wp, commitCreate. cbn [alloc w_reg with_gen]. rewrite Hreg.
  destruct (runPersist persist _ _); cbn [w_reg with_reg states eventLog].
  - rewrite (delete_insert_id (states (w_reg w))) by done. split; [done|].
    intros k l [Hne Hk]%lookup_delete_Some. rewrite lookup_insert_ne in Hk by done. by eapply Hdom.
  - split.
    + intros k r. rewrite lookup_insert. destruct (decide (g = k)) as [<-|]; [done|apply Htrim].
    + intros k l. rewrite !lookup_insert. destruct (decide (g = k)) as [<-|]; [by eexists|apply Hdom].
Qed.

Lemma group_step_persistable reg reg' :
  group_step NewLimiter AllowN (G := G) reg reg' -> persistable reg -> persistable reg'.
Proof.
  intros Hstep Hp. pose proof (group_step_inv _ _ _ _ Hstep (ps_inv _ Hp)) as Hinv'.
  destruct Hstep as [persist ntf gen a f w Hf| |persist gid a now ab w|unmarshal parse persist blk idn
    guard now wire dev device w Hw].
  - destruct (local_call_policy _ _ _ _ _ _ _ w Hf) as [|gid r es Hr Hpol]; [done|].
    apply (commit_persistable _ _ gid); [done..|]. by eapply policy_wf_events.
  - by apply CreateGroup_persistable.
  - pose proof (DeleteGroup_run NewLimiter AllowN persist gid a now ab w) as Hrun%wp_run.
    destruct Hrun as [[Hr _]|(_ & st & _ & _ & Hr)]; [by rewrite Hr|].
    destruct Hp as [_ Htrim Hdom]. constructor; [done|..]; rewrite Hr; cbn [states eventLog].
    + intros g r [_ Hg]%lookup_delete_Some. by eapply Htrim.
    + intros g l [Hne Hg]%lookup_delete_Some. rewrite lookup_delete_ne by done. by eapply Hdom.
  - unfold handleInboundGroupEvent in *.
    destruct (DecodeInboundGroupEvent _ _ _ _) as [e|] eqn:Ed; [|done].
    apply DecodeInboundGroupEvent_ok in Ed as [_ He _ _]; [|done].
    set (ip := mkEventParams _ _ _ _) in *.
    destruct (HandleInboundGroupEvent_commit persist blk idn guard now ip w) as [|Hn|r Hr Ha]; [done| |].
    + destruct Hp. by constructor.
    + eapply commit_persistable; [done..|]. by apply Forall_cons_2.
Qed.

Lemma reachable_persistable reg0 reg :
  persistable reg0 -> rtc (group_step NewLimiter AllowN (G := G)) reg0 reg -> persistable reg.
Proof. intros H0. induction 1; [done|]. eauto using group_step_persistable. Qed.
End Reachable.

(** ** The store *)

Record persistedGroupState := mkPersisted {
  pg_Version : Z; pg_States : States; pg_EventLog : EventLog
}.

(** json.Marshal and json.Unmarshal on snapshots. *)
Class SnapshotCodec := {
  marshalSnapshot : persistedGroupState -> result error (list Z);
  unmarshalSnapshot : list Z -> result error persistedGroupState
}.

(** JSON reproduces a value exactly, as it does for instants of the years 0 to 9999 and
    strings that are valid UTF-8. *)
Definition json_faithful `{SnapshotCodec} (p : persistedGroupState) : Prop :=
  exists bs, marshalSnapshot p = Ok bs /\ unmarshalSnapshot bs = Ok p.

Record SnapshotStore := mkSnapshotStore { ss_path : string; ss_secret : string }.

Section Store.
Context `{Cipher} `{EnvelopeCodec} `{SnapshotCodec}.

Definition Configure (s : SnapshotStore) (path secret : string) : SnapshotStore :=
  let '(p, x) := NormalizeStorageConfig path secret in mkSnapshotStore p x.

Definition Persist (env : StoreEnv) (s : SnapshotStore) (disk : option (list Z))
    (sts : States) (eventLog : EventLog) : option (list Z) * option error :=
  if negb (IsStorageConfigured (ss_path s) (ss_secret s)) then (disk, None) else
  match @NormalizeGroupSnapshot (env_rt env) sts eventLog with
  | Err err => (disk, Some err)
  | Ok (normalizedStates, normalizedEvents) =>
      let state := mkPersisted 1 normalizedStates normalizedEvents in
      WriteEncryptedJSON (env_rand env) (env_write env) (ss_secret s) (marshalSnapshot state) disk
  end.

Definition Bootstrap (env : StoreEnv) (s : SnapshotStore) (disk : option (list Z))
    : option (list Z) * result error (States * EventLog) :=
  if negb (IsStorageConfigured (ss_path s) (ss_secret s)) then (disk, Ok (∅, ∅)) else
  match ReadDecryptedFile disk (env_read env) (ss_secret s) with
  | Err err =>
      if err == fsErrNotExist then
        match Persist env s disk ∅ ∅ with
        | (disk', Some err) => (disk', Err err)
        | (disk', None) => (disk', Ok (∅, ∅))
        end
      else (disk, Err err)
  | Ok plaintext =>
      (disk,
       try! state := unmarshalSnapshot plaintext in
       if negb (pg_Version state =? 1)
       then Err (errorsNew "group state persistence payload is invalid") else
       @NormalizeGroupSnapshot (env_rt env) (pg_States state) (pg_EventLog state))
  end.

Definition Wipe (env : StoreEnv) (s : SnapshotStore) (disk : option (list Z))
    : option (list Z) * option error :=
  if ss_path s == "" then (disk, None) else
  match env_remove env with
  | Some err => if err == fsErrNotExist then (disk, None) else (disk, Some err)
  | None => (None, None)
  end.

(** [SetSnapshot]: the registry takes over the maps of the snapshot, which are fresh. *)
Definition addState (kst : string * GroupState) (reg : Registry) : Registry :=
  let '(k, st) := kst in
  let '(h, l) := alloc (heap reg) (mkMaps (s_AppliedEventIDs st) (s_Members st)) in
  mkRegistry h (<[k := mkRef (s_Group st) (s_Version st) (s_LastKeyVersion st) l]> (states reg))
    (eventLog reg).

Definition SetSnapshot (sts : States) (eventLog : EventLog) : Registry :=
  foldr addState (mkRegistry (mkHeap ∅ 0) ∅ eventLog) (map_to_list sts).

Lemma SetSnapshot_fold (l : list (string * GroupState)) log :
  Forall (fun '(k, st) => g_ID (s_Group st) = k) l ->
  let reg := foldr addState (mkRegistry (mkHeap ∅ 0) ∅ log) l in
  reg_ok reg /\ view reg = list_to_map l /\ eventLog reg = log.
Proof.
  induction l as [|[k st] l IH]; intros Hl; cbn [foldr list_to_map].
  - split; [constructor; cbn; intros *; by rewrite lookup_empty|]. split; [|done].
    unfold view. cbn. apply fmap_empty.
  - inversion Hl as [|? ? Hk Hl']; subst. destruct (IH Hl') as (Hok & Hv & Hlog).
    unfold addState at 1 3 5. set (reg := foldr addState _ l) in *. cbn [alloc].
    set (mp := mkMaps (s_AppliedEventIDs st) (s_Members st)).
    set (ref := mkRef (s_Group st) (s_Version st) (s_LastKeyVersion st) (next (heap reg))).
    pose proof (view_alloc reg (g_ID (s_Group st)) mp ref (eventLog reg) Hok eq_refl) as Hva.
    split; [by apply (reg_ok_alloc reg (g_ID (s_Group st)) mp ref)|]. split; [|done].
    cbn [alloc fst] in Hva. rewrite Hva, Hv. cbn. by destruct st.
Qed.

Lemma SetSnapshot_spec (sts : States) log :
  (forall k st, sts !! k = Some st -> g_ID (s_Group st) = k) ->
  reg_ok (SetSnapshot sts log) /\ view (SetSnapshot sts log) = sts
  /\ eventLog (SetSnapshot sts log) = log.
Proof.
  intros Hk. unfold SetSnapshot.
  destruct (SetSnapshot_fold (map_to_list sts) log) as (Hok & Hv & Hl).
  { apply Forall_forall. intros [k st] Hin%elem_of_map_to_list. by apply Hk. }
  split; [done|]. split; [|done]. rewrite Hv. apply list_to_map_to_list.
Qed.

Lemma SetSnapshot_persistable reg :
  persistable reg -> persistable (SetSnapshot (view reg) (eventLog reg))
                     /\ view (SetSnapshot (view reg) (eventLog reg)) = view reg
                     /\ eventLog (SetSnapshot (view reg) (eventLog reg)) = eventLog reg.
Proof.
  intros [Hinv Htrim Hdom].
  assert (Hsome : forall reg' : Registry, view reg' = view reg ->
            forall g, is_Some (states reg' !! g) <-> is_Some (states reg !! g)).
  { intros reg' Hv g. rewrite <- (fmap_is_Some (deref (heap reg'))),
      <- (fmap_is_Some (deref (heap reg))), <- !lookup_fmap.
    change (is_Some (view reg' !! g) <-> is_Some (view reg !! g)). by rewrite Hv. }
  destruct (SetSnapshot_spec (view reg) (eventLog reg)) as (Hok & Hv & Hl).
  { intros k st Hk. unfold view in Hk. rewrite lookup_fmap in Hk.
    destruct (states reg !! k) as [r|] eqn:Er; [|done]. injection Hk as <-.
    by apply (ro_key _ (ri_ok _ Hinv)). }
  split; [|done]. constructor.
  - constructor; [done|..]; intros g st; rewrite Hv, ?Hl; apply Hinv.
  - intros g r Hr. destruct (proj1 (Hsome _ Hv g)) as [q Hq]; [by eexists|]. by eapply Htrim.
  - intros g l. rewrite Hl. intros Hg. apply (Hsome _ Hv). by eapply Hdom.
Qed.

Lemma Persist_Bootstrap `{!CipherLaws _} `{!EnvelopeCodecLaws _} env env' s disk reg :
  persistable reg -> IsStorageConfigured (ss_path s) (ss_secret s) = true ->
  env_ok env -> env_ok env' -> json_faithful (mkPersisted 1 (view reg) (eventLog reg)) ->
  exists disk', Persist env s disk (view reg) (eventLog reg) = (disk', None)
    /\ Bootstrap env' s disk' = (disk', Ok (view reg, eventLog reg)).
Proof.
  intros Hp Hc (Hr & _ & [Hmk Hwr] & _) (_ & Hread & _) (bs & Hm & Hu).
  destruct (Encrypt_Decrypt (env_rand env) (ss_secret s) bs Hr) as (data & Henc & Hdec).
  exists (Some data). unfold Persist, Bootstrap. rewrite Hc. cbn [negb].
  rewrite (@persistable_normal (env_rt env)) by done. unfold WriteEncryptedJSON, writeFile.
  rewrite Hm, Henc, Hmk, Hwr. split; [done|].
  unfold ReadDecryptedFile, readFile, bindR. rewrite Hread, Hdec, Hu. cbn -[NormalizeGroupSnapshot].
  by rewrite (@persistable_normal (env_rt env')).
Qed.
End Store.

(** C4: Groups survive a restart. Take any registry reached, from a persistable one (the
    empty one is), by any interleaving of local operations and inbound events. Persisting it
    with a configured store succeeds when the file system does, and starting again (reading
    the file, validating it and handing it to the runtime) gives a registry with exactly the same
    groups and logs, which again is one to go on from. *)
Theorem restart_restores_groups `{CipherLaws} `{EnvelopeCodecLaws} `{SnapshotCodec}
    {F L G : Type} (NewLimiter : F -> Z -> L) (AllowN : L -> Z -> Z -> L * bool)
    (env env' : StoreEnv) (s : SnapshotStore) (disk : option (list Z)) (reg0 reg : Registry) :
  persistable reg0 -> rtc (group_step NewLimiter AllowN (G := G)) reg0 reg ->
  IsStorageConfigured (ss_path s) (ss_secret s) = true -> env_ok env -> env_ok env' ->
  json_faithful (mkPersisted 1 (view reg) (eventLog reg)) ->
  exists disk' sts log,
    Persist env s disk (view reg) (eventLog reg) = (disk', None)
    /\ Bootstrap env' s disk' = (disk', Ok (sts, log))
    /\ view (SetSnapshot sts log) = view reg /\ eventLog (SetSnapshot sts log) = eventLog reg
    /\ persistable (SetSnapshot sts log).
Proof.
  intros Hp0 Hrtc Hc He He' Hj. pose proof (reachable_persistable _ _ _ _ Hp0 Hrtc) as Hp.
  destruct (Persist_Bootstrap env env' s disk reg Hp Hc He He' Hj) as (disk' & Hw & Hb).
  destruct (SetSnapshot_persistable reg Hp) as (Hok & Hv & Hl).
  by exists disk', (view reg), (eventLog reg).
Qed.

(** ** A snapshot codec to compute with, and the witnesses *)

#[export] Instance Group_eq_dec : EqDecision Group.
Proof. solve_decision. Defined.
#[export] Instance GroupMember_eq_dec : EqDecision GroupMember.
Proof. solve_decision. Defined.
#[export] Instance GroupEvent_eq_dec : EqDecision GroupEvent.
Proof. solve_decision. Defined.
#[export] Instance GroupState_eq_dec : EqDecision GroupState.
Proof. solve_decision. Defined.
#[export] Instance persistedGroupState_eq_dec : EqDecision persistedGroupState.
Proof. solve_decision. Defined.

#[export] Instance Group_countable : Countable Group.
Proof.
  apply (inj_countable' (fun g => (g_ID g, g_Title g, g_Description g, g_Avatar g, g_CreatedBy g,
                                   g_CreatedAt g, g_UpdatedAt g))
    (fun '(a, b, c, d, e, f, g) => mkGroup a b c d e f g)). by intros [].
Defined.
#[export] Instance GroupMember_countable : Countable GroupMember.
Proof.
  apply (inj_countable' (fun m => (m_GroupID m, m_MemberID m, m_Role m, m_Status m, m_InvitedAt m,
                                   m_ActivatedAt m, m_UpdatedAt m))
    (fun '(a, b, c, d, e, f, g) => mkGroupMember a b c d e f g)). by intros [].
Defined.
#[export] Instance GroupEvent_countable : Countable GroupEvent.
Proof.
  apply (inj_countable' (fun e => (e_ID e, e_GroupID e, e_Version e, e_Type e, e_ActorID e,
      e_OccurredAt e, e_MemberID e, e_Role e, e_Title e, e_Description e, e_Avatar e, e_KeyVersion e))
    (fun '(v1, v2, v3, v4, v5, v6, v7, v8, v9, v10, v11, v12) => mkGroupEvent v1 v2 v3 v4 v5 v6 v7 v8 v9 v10 v11 v12)).
  by intros [].
Defined.
#[export] Instance GroupState_countable : Countable GroupState.
Proof.
  apply (inj_countable' (fun s => (s_Group s, s_Version s, s_AppliedEventIDs s, s_Members s,
                                   s_LastKeyVersion s))
    (fun '(a, b, c, d, e) => mkGroupState a b c d e)). by intros [].
Defined.
#[export] Instance persistedGroupState_countable : Countable persistedGroupState.
Proof.
  apply (inj_countable' (fun p => (pg_Version p, pg_States p, pg_EventLog p))
    (fun '(a, b, c) => mkPersisted a b c)). by intros [].
Defined.

#[export] Instance exSnapshotCodec : SnapshotCodec := {
  marshalSnapshot p := Ok [Zpos (encode p)];
  unmarshalSnapshot l := match l with
                         | [Zpos p] => match decode p with
                                       | Some s => Ok s
                                       | None => Err (errorsNew "json")
                                       end
                         | _ => Err (errorsNew "json")
                         end
}.

Lemma ex_json_faithful p : json_faithful p.
Proof. eexists. split; [reflexivity|]. cbn. by rewrite decode_encode. Qed.

Lemma emptyRegistry_persistable : persistable emptyRegistry.
Proof. constructor; [apply emptyRegistry_inv|..]; by intros *; cbn; rewrite lookup_empty. Qed.

Lemma normalizeGroupState_iff_wf_witness :
  normalizeGroupState ex_state = Ok ex_state <-> wf_state ex_state.
Proof. apply (normalizeGroupState_iff_wf ex_state); cbn; lia. Defined.

Definition ex_created : World Z Z nat :=
  fst (CreateGroup None true "team" "alice" 9 (Some ex_generateID)
         (mkWorld emptyRegistry ex_abuse 0%nat [])).

Lemma restart_restores_groups_witness :
  exists disk' sts log,
    Persist ex_env (mkSnapshotStore "/x" "pw") None (view (w_reg ex_created))
      (eventLog (w_reg ex_created)) = (disk', None)
    /\ Bootstrap ex_env (mkSnapshotStore "/x" "pw") disk' = (disk', Ok (sts, log))
    /\ view (SetSnapshot sts log) = view (w_reg ex_created).
Proof.
  destruct (restart_restores_groups (G := nat) ex_NewLimiter ex_AllowN ex_env ex_env
    (mkSnapshotStore "/x" "pw") None emptyRegistry (w_reg ex_created))
    as (disk' & sts & log & Hp & Hb & Hv & _).
  - apply emptyRegistry_persistable.
  - apply rtc_once. apply (gs_create ex_NewLimiter ex_AllowN None true "team" "alice" 9
      (Some ex_generateID) (mkWorld emptyRegistry ex_abuse 0%nat [])).
    intros f [|g] g' i [= <-] [= <- <-]; vm_compute; reflexivity.
  - vm_compute. reflexivity.
  - apply ex_env_ok.
  - apply ex_env_ok.
  - apply ex_json_faithful.
  - exists disk', sts, log. split; [exact Hp|]. split; [exact Hb|exact Hv].
Defined.
