(* ===== verification/GroupMessaging.v ===== *)
(** * Group messages

    Models the message side of the group domain: the fan-out of a message to the members
    (internal/domains/group/usecase/message_fanout_service.go), the reception of one
    (usecase/inbound_orchestration_service.go, [HandleInboundGroupMessage], and its wiring in
    daemonservice/runtime_inbound.go) and the read side (usecase/read_service.go). The
    services reach the message store through function fields; here they are proved against the
    interface [MessageRepository], which the message store implements. Publishing and
    decryption are parameters. A nil [RecordError], [Warn] or notification callback drops its
    entry of the effect log and has no other influence. *)
From S2P Require Import Prelude SecureStore MessageStore GroupModel Wire RateLimiter GroupRuntime GroupMembership GroupInbound.
From stdpp Require Import base gmap strings list sets option relations.
From Stdlib Require Import ZArith Lia Sorted.
Open Scope string_scope.
Open Scope Z_scope.
Open Scope go_scope.

(** ** The repository the services are given *)

Class MessageRepository (S : Type) := {
  repoGet : S -> string -> option Message;
  repoSave : Message -> S -> S * option error
}.

(** What they rely on: a successful save stores the identifier, and no save changes what is
    already stored. *)
Class RepositoryLaws (S : Type) `{MessageRepository S} : Prop := {
  save_stores : forall m s s', repoSave m s = (s', None) -> is_Some (repoGet s' (msg_ID m));
  save_frame : forall m s id, id <> msg_ID m ->
    repoGet (fst (repoSave m s)) id = repoGet s id;
  save_found : forall m s x, repoGet s (msg_ID m) = Some x ->
    repoGet (fst (repoSave m s)) (msg_ID m) = Some x
}.

(** The message store, with the outcomes of its environment in the order of the calls ([env0]
    when they are used up). *)
Definition StoreRepo : Type := MessageStore * list StoreEnv.

#[export] Instance storeRepository `{Cipher} `{EnvelopeCodec} `{MessageCodec} (env0 : StoreEnv)
    : MessageRepository StoreRepo := {
  repoGet r id := ms_messages (fst r) !! id;
  repoSave m r :=
    let '(s, envs) := r in
    let '(s', res) := SaveMessage (hd env0 envs) m s in
    ((s', tl envs), match res with Ok _ => None | Err e => Some e end)
}.

#[export] Instance storeRepository_laws `{Cipher} `{EnvelopeCodec} `{MessageCodec} env0
    : @RepositoryLaws StoreRepo (storeRepository env0).
Proof.
  assert (Hcase : forall m s env, exists s' r, SaveMessage env m s = (s', r)
    /\ ((ms_messages s' = ms_messages s /\ (r = Ok tt -> is_Some (ms_messages s !! msg_ID m)))
        \/ (ms_messages s !! msg_ID m = None
            /\ ms_messages s' = <[msg_ID m := NormalizeMessageConversation m]> (ms_messages s)))).
  { intros m s env. destruct (ms_messages s !! msg_ID m) as [x|] eqn:E.
    - rewrite (SaveMessage_found env m s x E). eexists _, _. split; [done|]. left. by eexists.
    - unfold SaveMessage, bindM, getM, modifyM. cbn. rewrite E.
      edestruct persist_disk as (d & [u|e] & ->); eexists _, _; (split; [done|]).
      + right. by destruct s.
      + left. by destruct s. }
  constructor; intros m [s envs]; unfold repoSave, repoGet, storeRepository; intros *;
    destruct (Hcase m s (hd env0 envs)) as (s1 & r & -> & Hr); cbn [fst].
  - destruct r as [[]|]; [|done]. intros [= <-]. cbn [fst].
    destruct Hr as [[-> Hs]|[_ ->]]; [auto|]. by rewrite lookup_insert_eq.
  - intros Hne. destruct Hr as [[-> _]|[_ ->]]; [done|]. by rewrite lookup_insert_ne.
  - intros Hx. destruct Hr as [[-> _]|[Hn _]]; [done|]. congruence.
Qed.

(** ** types.go: the result of a fan-out *)

(** [rs_Error] is the error whose text the code stores. *)
Record GroupMessageRecipientStatus := mkRecipient {
  rs_RecipientID : string; rs_MessageID : string; rs_Status : string; rs_Error : option error;
  rs_Duplicate : bool
}.

Record GroupMessageFanoutResult := mkFanoutResult {
  fr_GroupID : string; fr_EventID : string; fr_Attempted : Z; fr_Delivered : Z; fr_Pending : Z;
  fr_Failed : Z; fr_Recipients : list GroupMessageRecipientStatus
}.

Record GroupMessageWireMeta := mkMeta {
  wm_GroupID : string; wm_EventID : string; wm_MembershipVersion : Z; wm_GroupKeyVersion : Z;
  wm_SenderDeviceID : string
}.

Definition groupFanoutTransportContentType : string := "group_fanout_transport".

Record fanoutContext := mkFanoutContext {
  fc_groupID : string; fc_eventID : string; fc_content : string; fc_threadID : string;
  fc_actorID : string; fc_deviceID : string; fc_now : Z; fc_state : GroupState;
  fc_groupKeyVersion : Z
}.

(** What the service hands to its callbacks, oldest first. *)
Inductive FanoutEffect :=
| FRecordError (category : string) (err : error)
| FNotify (groupID : string) (msg : Message)
| FPublish (msg : Message) (recipientID : string) (meta : GroupMessageWireMeta).

Record FanoutWorld (S F L G : Type) := mkFanoutWorld {
  fw_abuse : AbuseProtection F L;
  fw_gen : G;
  fw_repo : S;
  fw_log : list FanoutEffect
}.
Arguments mkFanoutWorld {S F L G} _ _ _ _.
Arguments fw_abuse {S F L G} _.
Arguments fw_gen {S F L G} _.
Arguments fw_repo {S F L G} _.
Arguments fw_log {S F L G} _.

(** strings.ToLower differs from its restriction to ASCII on no character that could produce one
    of the letters of the prefix. *)
Definition isChannelGroupTitle (title : string) : bool :=
  HasPrefix (ToLowerASCII (TrimSpace title)) "[channel".

Definition validateActorCanFanout (state : GroupState) (actorID : string) : option error :=
  match s_Members state !! actorID with
  | Some actor =>
      if negb (m_Status actor == GroupMemberStatusActive) then Some ErrGroupPermissionDenied else
      if isChannelGroupTitle (g_Title (s_Group state))
         && negb (m_Role actor == GroupMemberRoleOwner)
         && negb (m_Role actor == GroupMemberRoleAdmin)
      then Some ErrGroupPermissionDenied else None
  | None => Some ErrGroupPermissionDenied
  end.

Lemma NormalizeGroupID_ok s t : NormalizeGroupID s = Ok t -> t = TrimSpace s.
Proof. unfold NormalizeGroupID. cbn zeta. case_bool_decide; [done|]. by intros [= <-]. Qed.

Section Fanout.
Context {S F L G : Type} {repo : MessageRepository S}.
Context (NewLimiter : F -> Z -> L) (AllowN : L -> Z -> Z -> L * bool).
Context (sha256 : list Z -> list Z).
(** The fields of the service; [hasAbuse] tells whether the pointer is there. *)
Context (States : gmap string GroupState) (hasAbuse : bool) (IdentityID : option string)
        (GenerateID : option (string -> G -> G * result error string))
        (ActiveDeviceID : option (result error string)) (now : Z)
        (IsBlockedSender : option (string -> bool)) (hasGet hasSave : bool)
        (PrepareAndPublish : option (Message -> string -> GroupMessageWireMeta -> S ->
                                     S * (string * string * option error))).
(** The order of the members map, and the shuffle seeded with the time. *)
Context {rt : GoRuntime} (shuffle : Z -> list string -> list string).

Abbreviation W := (FanoutWorld S F L G).
Abbreviation op := (M W error).

Definition emitF (e : FanoutEffect) : op unit := fun w =>
  (mkFanoutWorld (fw_abuse w) (fw_gen w) (fw_repo w) (fw_log w ++ [e])%list, Ok tt).

Definition generateID (prefix : string) : op string := fun w =>
  match GenerateID with
  | None => (w, Err ErrInvalidGroupMessageContent)
  | Some gen => let '(g', r) := gen prefix (fw_gen w) in
                (mkFanoutWorld (fw_abuse w) g' (fw_repo w) (fw_log w), r)
  end.

Definition resolveEventID (eventID : string) : op string :=
  let trimmedEventID := TrimSpace eventID in
  if negb (trimmedEventID == "") then retM trimmedEventID else generateID "gevtmsg".

Definition resolveActorID : op string :=
  match IdentityID with
  | None => failM ErrInvalidGroupMemberID
  | Some id => let actorID := TrimSpace id in
               if actorID == "" then failM ErrInvalidGroupMemberID else retM actorID
  end.

Definition allowSend (actorID : string) : op unit := fun w =>
  if hasAbuse then
    let '(p, ok) := AllowSend NewLimiter AllowN (fw_abuse w) actorID now in
    (mkFanoutWorld p (fw_gen w) (fw_repo w) (fw_log w),
     if ok then Ok tt else Err ErrGroupRateLimitExceeded)
  else (w, Ok tt).

Definition prepareFanoutContext (groupID eventID content threadID : string) : op fanoutContext :=
  let! normalizedGroupID := liftM (NormalizeGroupID groupID) in
  let! normalizedEventID := resolveEventID eventID in
  let normalizedContent := TrimSpace content in
  rejectM (normalizedContent == "") ErrInvalidGroupMessageContent ;;!
  let! actorID := resolveActorID in
  allowSend actorID ;;!
  let! deviceID := liftM (match ActiveDeviceID with
                          | None => Err ErrInvalidGroupEventPayload
                          | Some r => r
                          end) in
  let! state := liftM (match States !! normalizedGroupID with
                       | None => Err ErrGroupNotFound
                       | Some st => Ok st
                       end) in
  let! _ := liftM (match validateActorCanFanout state actorID with
                   | Some err => Err err
                   | None => Ok tt
                   end) in
  let groupKeyVersion := if s_LastKeyVersion state =? 0 then 1 else s_LastKeyVersion state in
  retM (mkFanoutContext normalizedGroupID normalizedEventID normalizedContent
          (TrimSpace threadID) actorID deviceID now state groupKeyVersion).

Definition blocked (id : string) : bool :=
  match IsBlockedSender with Some f => f id | None => false end.

Definition collectRecipients (state : GroupState) (actorID : string) : list string :=
  let recipients :=
    (filter (fun km : string * GroupMember =>
               negb ((km.1 == actorID) || negb (m_Status km.2 == GroupMemberStatusActive))
               && negb (blocked km.1)) (rangeMap (s_Members state))).*1 in
  if (length recipients <=? 1)%nat then recipients else shuffle now recipients.

Definition getMessage (w : W) (id : string) : option Message :=
  if hasGet then repoGet (fw_repo w) id else None.

Definition saveMessage (m : Message) : M W error unit := fun w =>
  let '(r, err) := repoSave m (fw_repo w) in
  (mkFanoutWorld (fw_abuse w) (fw_gen w) r (fw_log w),
   match err with Some e => Err e | None => Ok tt end).

Definition persistSenderMessage (ctx : fanoutContext) : op unit := fun w =>
  if negb hasSave then (w, Ok tt) else
  let senderMessageID := DeriveRecipientMessageID sha256 (fc_eventID ctx) (fc_actorID ctx) in
  match getMessage w senderMessageID with
  | Some existing => emitF (FNotify (fc_groupID ctx) existing) w
  | None =>
      let senderMsg := mkMessage senderMessageID (fc_actorID ctx) (fc_groupID ctx)
        ConversationTypeGroup (fc_threadID ctx) (string_bytes (fc_content ctx)) (fc_now ctx)
        "out" "sent" "text" false in
      match saveMessage senderMsg w with
      | (w', Err err) => emitF (FRecordError "storage" err) w'
      | (w', Ok _) => emitF (FNotify (fc_groupID ctx) senderMsg) w'
      end
  end.

Definition appendRecipientFailure (result : GroupMessageFanoutResult)
    (recipientID messageID : string) (err : error) : GroupMessageFanoutResult :=
  mkFanoutResult (fr_GroupID result) (fr_EventID result) (fr_Attempted result)
    (fr_Delivered result) (fr_Pending result) (fr_Failed result + 1)
    (fr_Recipients result ++ [mkRecipient recipientID messageID "failed" (Some err) false])%list.

(** [if status == "pending" { Pending++ } else { Delivered++ }] and the recipient's entry. *)
Definition appendRecipientStatus (result : GroupMessageFanoutResult)
    (recipientID messageID status : string) (duplicate : bool) : GroupMessageFanoutResult :=
  mkFanoutResult (fr_GroupID result) (fr_EventID result) (fr_Attempted result)
    (if status == "pending" then fr_Delivered result else fr_Delivered result + 1)
    (if status == "pending" then fr_Pending result + 1 else fr_Pending result)
    (fr_Failed result)
    (fr_Recipients result ++ [mkRecipient recipientID messageID status None duplicate])%list.

Definition publish (msg : Message) (recipientID : string) (meta : GroupMessageWireMeta)
    : op (string * string * option error) := fun w =>
  match PrepareAndPublish with
  | None => (w, Err ErrGroupNotFound)
  | Some f => let '(r, out) := f msg recipientID meta (fw_repo w) in
              (mkFanoutWorld (fw_abuse w) (fw_gen w) r
                 (fw_log w ++ [FPublish msg recipientID meta])%list, Ok out)
  end.

Definition processRecipient (ctx : fanoutContext) (recipientID : string)
    (result : GroupMessageFanoutResult) : op GroupMessageFanoutResult := fun w =>
  let messageID := DeriveRecipientMessageID sha256 (fc_eventID ctx) recipientID in
  match getMessage w messageID with
  | Some existing =>
      (w, Ok (appendRecipientStatus result recipientID messageID (msg_Status existing) true))
  | None =>
      if negb hasSave then (w, Err ErrGroupNotFound) else
      let msg := mkMessage messageID recipientID (fc_groupID ctx) ConversationTypeGroup
        (fc_threadID ctx) (string_bytes (fc_content ctx)) (fc_now ctx) "out" "pending"
        groupFanoutTransportContentType false in
      match saveMessage msg w with
      | (w1, Err err) =>
          let '(w2, _) := emitF (FRecordError "storage" err) w1 in
          (w2, Ok (appendRecipientFailure result recipientID messageID err))
      | (w1, Ok _) =>
          match publish msg recipientID
                  (mkMeta (fc_groupID ctx) (fc_eventID ctx) (s_Version (fc_state ctx))
                     (fc_groupKeyVersion ctx) (fc_deviceID ctx)) w1 with
          | (w2, Err err) => (w2, Err err)
          | (w2, Ok (sentID, category, Some err)) =>
              let '(w3, _) := if negb (category == "") then emitF (FRecordError category err) w2
                              else (w2, Ok tt) in
              (w3, Ok (appendRecipientFailure result recipientID messageID err))
          | (w2, Ok (sentID, category, None)) =>
              let statusValue := match getMessage w2 sentID with
                                 | Some saved => msg_Status saved
                                 | None => "sent"
                                 end in
              (w2, Ok (appendRecipientStatus result recipientID messageID statusValue false))
          end
      end
  end.

Fixpoint processRecipients (ctx : fanoutContext) (recipients : list string)
    (result : GroupMessageFanoutResult) : op GroupMessageFanoutResult :=
  match recipients with
  | [] => retM result
  | recipientID :: rest =>
      let! result := processRecipient ctx recipientID result in
      processRecipients ctx rest result
  end.

Definition SendGroupMessageFanout (groupID eventID content threadID : string)
    : op GroupMessageFanoutResult :=
  let! ctx := prepareFanoutContext groupID eventID content threadID in
  let recipients := collectRecipients (fc_state ctx) (fc_actorID ctx) in
  persistSenderMessage ctx ;;!
  processRecipients ctx recipients
    (mkFanoutResult (fc_groupID ctx) (fc_eventID ctx) (Z.of_nat (length recipients)) 0 0 0 []).

(** ** Accounting *)

Definition accounted (res : GroupMessageFanoutResult) : Z :=
  fr_Delivered res + fr_Pending res + fr_Failed res.

Definition ids (res : GroupMessageFanoutResult) : list string :=
  rs_RecipientID <$> fr_Recipients res.

(** One more recipient has been dealt with. *)
Definition one_more (id : string) (res res' : GroupMessageFanoutResult) : Prop :=
  ids res' = (ids res ++ [id])%list /\ accounted res' = accounted res + 1
  /\ fr_Attempted res' = fr_Attempted res.

Lemma append_one_more res id mid st dup :
  one_more id res (appendRecipientStatus res id mid st dup).
Proof.
  unfold one_more, ids, accounted, appendRecipientStatus. cbn. rewrite fmap_app.
  split; [done|]. split; [case_bool_decide; lia|done].
Qed.

Lemma fail_one_more res id mid err : one_more id res (appendRecipientFailure res id mid err).
Proof.
  unfold one_more, ids, accounted, appendRecipientFailure. cbn. rewrite fmap_app.
  split; [done|]. split; [lia|done].
Qed.

(** What the steps of a fan-out add to the log: publications only to the recipient at hand,
    with the identifier and the versions of the context. *)
Definition publication (ctx : fanoutContext) (id : string) (e : FanoutEffect) : Prop :=
  match e with
  | FPublish msg r meta =>
      r = id /\ msg_ID msg = DeriveRecipientMessageID sha256 (fc_eventID ctx) id
      /\ msg_ContactID msg = id /\ msg_Content msg = string_bytes (fc_content ctx)
      /\ meta = mkMeta (fc_groupID ctx) (fc_eventID ctx) (s_Version (fc_state ctx))
                  (fc_groupKeyVersion ctx) (fc_deviceID ctx)
  | _ => True
  end.

Definition adds (P : FanoutEffect -> Prop) (w w' : W) : Prop :=
  exists new, fw_log w' = (fw_log w ++ new)%list /\ Forall P new.

Lemma adds_refl P w : adds P w w.
Proof. exists []. by rewrite app_nil_r. Qed.

Lemma adds_trans P w1 w2 w3 : adds P w1 w2 -> adds P w2 w3 -> adds P w1 w3.
Proof.
  intros (n1 & E1 & H1) (n2 & E2 & H2). exists (n1 ++ n2)%list.
  split; [by rewrite E2, E1, app_assoc|by apply Forall_app].
Qed.

Lemma adds_same P w w' : fw_log w' = fw_log w -> adds P w w'.
Proof. intros E. exists []. by rewrite E, app_nil_r. Qed.

Lemma adds_impl (P Q : FanoutEffect -> Prop) w w' :
  (forall e, P e -> Q e) -> adds P w w' -> adds Q w w'.
Proof. intros HPQ (n & Hn & Hf). exists n. split; [done|]. by apply (Forall_impl _ _ _ Hf). Qed.

Lemma adds_emit P e w : P e -> adds P w (fst (emitF e w)).
Proof. intros He. exists [e]. split; [done|]. by constructor. Qed.

Lemma saveMessage_log m w : fw_log (fst (saveMessage m w)) = fw_log w.
Proof. unfold saveMessage. by destruct (repoSave m (fw_repo w)) as [r [e|]]. Qed.

Lemma processRecipient_spec ctx id res (w : W) :
  wp (processRecipient ctx id res) (fun w' r =>
    adds (publication ctx id) w w' /\ match r with Ok res' => one_more id res res' | Err _ => True end) w.
Proof.
  unfold wp, processRecipient. destruct (getMessage _ _).
  { split; [apply adds_refl|apply append_one_more]. }
  destruct (negb hasSave); [split; [apply adds_refl|done]|].
  set (msg := mkMessage _ _ _ _ _ _ _ _ _ _ _).
  pose proof (saveMessage_log msg w) as Hlog.
  destruct (saveMessage msg w) as [w1 [u|err]]; cbn [fst] in Hlog.
  2:{ split; [|apply fail_one_more]. cbn. exists [FRecordError "storage" err]. cbn.
      rewrite Hlog. split; [done|by repeat constructor]. }
  unfold publish. destruct PrepareAndPublish as [f|]; [|split; [by apply adds_same|done]].
  set (meta := mkMeta _ _ _ _ _).
  destruct (f msg id meta (fw_repo w1)) as [r [[sentID category] [err|]]].
  - assert (Hp : publication ctx id (FPublish msg id meta)) by by repeat split.
    destruct (negb (category == "")); cbn; (split; [|apply fail_one_more]).
    + exists [FPublish msg id meta; FRecordError category err]. cbn. rewrite Hlog, <- app_assoc.
      split; [done|by repeat constructor].
    + exists [FPublish msg id meta]. cbn. rewrite Hlog. split; [done|by repeat constructor].
  - split; [|apply append_one_more]. exists [FPublish msg id meta]. cbn. rewrite Hlog.
    split; [done|by repeat constructor].
Qed.

Lemma processRecipients_spec ctx l : forall res (w : W),
  wp (processRecipients ctx l res) (fun w' r =>
    adds (fun e => exists id, id ∈ l /\ publication ctx id e) w w'
    /\ match r with
       | Ok res' => ids res' = (ids res ++ l)%list
                    /\ accounted res' = accounted res + Z.of_nat (length l)
                    /\ fr_Attempted res' = fr_Attempted res
       | Err _ => True
       end) w.
Proof.
  induction l as [|id l IH]; intros res w; cbn [processRecipients].
  - apply wp_ret. split; [apply adds_refl|]. rewrite app_nil_r. cbn. repeat split; lia.
  - apply wp_bind. pose proof (processRecipient_spec ctx id res w) as Hone. unfold wp in Hone |- *.
    destruct (processRecipient ctx id res w) as [w1 [res1|err]]; destruct Hone as [Ha Ho].
    + specialize (IH res1 w1). unfold wp in IH.
      destruct (processRecipients ctx l res1 w1) as [w2 r]. destruct IH as [Ha2 Hr]. split.
      * eapply adds_trans; eapply adds_impl; [|exact Ha| |exact Ha2]; cbn.
        -- intros e He. exists id. split; [left|done].
        -- intros e (id' & Hin & He). exists id'. split; [by right|done].
      * destruct r as [res2|]; [|done]. destruct Ho as (Hi1 & Hc1 & Ht1), Hr as (Hi2 & Hc2 & Ht2).
        rewrite Hi2, Hi1, <- app_assoc, Hc2, Hc1, Ht2, Ht1. cbn [length].
        repeat split; lia.
    + split; [|done]. eapply adds_impl; [|exact Ha]. intros e He. exists id. split; [left|done].
Qed.

(** ** Recipients *)

Definition eligible (st : GroupState) (actorID k : string) : Prop :=
  exists m, s_Members st !! k = Some m /\ m_Status m = GroupMemberStatusActive
            /\ k <> actorID /\ blocked k = false.

Lemma collectRecipients_spec st actorID :
  (forall t l, shuffle t l ≡ₚ l) ->
  NoDup (collectRecipients st actorID)
  /\ forall k, k ∈ collectRecipients st actorID <-> eligible st actorID k.
Proof.
  intros Hsh. unfold collectRecipients.
  set (l := (filter _ (rangeMap (s_Members st))).*1).
  assert (Hp : (if (length l <=? 1)%nat then l else shuffle now l) ≡ₚ l)
    by (destruct (_ <=? _)%nat; [done|apply Hsh]).
  assert (Hk : forall k, k ∈ l <-> eligible st actorID k).
  { intros k. unfold l, eligible. rewrite list_elem_of_fmap. split.
    - intros ([k' m] & -> & Hin). apply list_elem_of_filter in Hin as [Hc Hin]. cbn in Hc |- *.
      rewrite rangeMap_perm in Hin. apply elem_of_map_to_list in Hin. exists m. split; [done|].
      revert Hc. do 2 case_bool_decide; cbn; try done. by destruct (blocked k').
    - intros (m & Hm & Hs & Hne & Hb). exists (k, m). split; [done|]. apply list_elem_of_filter.
      split; [|rewrite rangeMap_perm; by apply elem_of_map_to_list].
      cbn. by rewrite Hb, bool_decide_false, bool_decide_true. }
  split; [|intros k; by rewrite Hp].
  rewrite Hp. unfold l. assert (Hnd : NoDup (rangeMap (s_Members st)).*1)
    by (rewrite rangeMap_perm; apply NoDup_fst_map_to_list).
  apply (sublist_NoDup _ _ Hnd), fmap_sublist, sublist_filter.
Qed.

(** What the preparation establishes. *)
Definition prepared (groupID content : string) (ctx : fanoutContext) : Prop :=
  States !! TrimSpace groupID = Some (fc_state ctx)
  /\ validateActorCanFanout (fc_state ctx) (fc_actorID ctx) = None
  /\ (exists id, IdentityID = Some id /\ fc_actorID ctx = TrimSpace id)
  /\ fc_groupID ctx = TrimSpace groupID /\ fc_content ctx = TrimSpace content
  /\ fc_groupKeyVersion ctx = expectedGroupKeyVersion (fc_state ctx).

Lemma wp_allowSend a Q (w : W) :
  (forall w' r, fw_log w' = fw_log w -> fw_repo w' = fw_repo w -> Q w' r) -> wp (allowSend a) Q w.
Proof.
  intros HQ. unfold wp, allowSend. destruct hasAbuse; [|by apply HQ].
  destruct (AllowSend _ _ _ _ _). by apply HQ.
Qed.

Lemma wp_generateID p Q (w : W) :
  (forall w' r, fw_log w' = fw_log w -> fw_repo w' = fw_repo w -> Q w' r) -> wp (generateID p) Q w.
Proof.
  intros HQ. unfold wp, generateID. destruct GenerateID as [gen|]; [|by apply HQ].
  destruct (gen p (fw_gen w)). by apply HQ.
Qed.

Lemma prepare_spec groupID eventID content threadID (w : W) :
  wp (prepareFanoutContext groupID eventID content threadID) (fun w' r =>
    fw_log w' = fw_log w /\ fw_repo w' = fw_repo w
    /\ match r with Ok ctx => prepared groupID content ctx | Err _ => True end) w.
Proof.
  unfold prepareFanoutContext. apply wp_bind, wp_lift; [|done]. intros gid Hg.
  apply wp_bind. assert (Hev : forall Q, (forall w' r, fw_log w' = fw_log w ->
    fw_repo w' = fw_repo w -> Q w' r) -> wp (resolveEventID eventID) Q w).
  { intros Q HQ. unfold resolveEventID. apply wp_if; intros _; [by apply wp_ret, HQ|].
    by apply wp_generateID. }
  apply Hev. intros w1 [ev|] Hl1 Hr1; [|done].
  apply wp_bind, wp_reject; [done|]. intros _. apply wp_bind. unfold resolveActorID.
  destruct IdentityID as [id|] eqn:Eid; [|done]. apply wp_if; [done|]. intros Ha. apply wp_ret.
  apply wp_bind, wp_allowSend. intros w2 [u|] Hl2 Hr2; [|split; [congruence|split; [congruence|done]]].
  assert (Hlog : fw_log w2 = fw_log w) by congruence.
  assert (Hrepo : fw_repo w2 = fw_repo w) by congruence.
  apply wp_bind, wp_lift; [|done]. intros dev _. apply wp_bind, wp_lift; [|done].
  intros st Hst. destruct (States !! gid) as [st'|] eqn:Es; [|done]. injection Hst as <-.
  apply wp_bind, wp_lift; [|done]. intros [] Hval.
  apply wp_ret. split; [done|]. split; [done|].
  apply NormalizeGroupID_ok in Hg as ->.
  unfold prepared. cbn. split; [done|]. split; [by destruct (validateActorCanFanout _ _)|].
  split; [by exists id|]. done.
Qed.

Lemma persistSender_log ctx (w : W) : adds (fun e => match e with FPublish _ _ _ => False | _ => True end)
  w (fst (persistSenderMessage ctx w)).
Proof.
  unfold persistSenderMessage. destruct (negb hasSave); [apply adds_refl|].
  destruct (getMessage _ _); [by apply adds_emit|]. set (msg := mkMessage _ _ _ _ _ _ _ _ _ _ _).
  pose proof (saveMessage_log msg w) as Hlog. destruct (saveMessage msg w) as [w1 [u|e]]; cbn [fst] in *.
  all: eapply adds_trans; [by apply adds_same|by apply adds_emit].
Qed.

(** A whole run: what is published, and what is reported. *)
Lemma fanout_run groupID eventID content threadID (w : W) :
  (forall t l, shuffle t l ≡ₚ l) ->
  wp (SendGroupMessageFanout groupID eventID content threadID) (fun w' r =>
    (exists e, r = Err e /\ fw_log w' = fw_log w)
    \/ exists ctx, prepared groupID content ctx
       /\ adds (fun e => match e with
                         | FPublish _ _ _ => exists k, eligible (fc_state ctx) (fc_actorID ctx) k
                                                       /\ publication ctx k e
                         | _ => True
                         end) w w'
       /\ match r with
          | Ok res => NoDup (ids res) /\ accounted res = fr_Attempted res
                      /\ Z.of_nat (length (fr_Recipients res)) = fr_Attempted res
                      /\ forall k, k ∈ ids res <-> eligible (fc_state ctx) (fc_actorID ctx) k
          | Err _ => True
          end) w.
Proof.
  intros Hsh. unfold SendGroupMessageFanout. apply wp_bind.
  pose proof (prepare_spec groupID eventID content threadID w) as Hprep. unfold wp in Hprep |- *.
  destruct (prepareFanoutContext _ _ _ _ w) as [w1 [ctx|e]]; destruct Hprep as (Hl & _ & Hc);
    [|left; by exists e].
  destruct (collectRecipients_spec (fc_state ctx) (fc_actorID ctx) Hsh) as [Hnd Hel].
  set (l := collectRecipients _ _) in *.
  pose proof (persistSender_log ctx w1) as Hps. unfold bindM.
  destruct (persistSenderMessage ctx w1) as [w2 ps] eqn:Eps. cbn [fst] in Hps.
  assert (ps = Ok tt) as ->.
  { revert Eps. unfold persistSenderMessage, emitF. repeat case_match; by intros [= _ <-]. }
  set (res0 := mkFanoutResult _ _ _ _ _ _ _).
  pose proof (processRecipients_spec ctx l res0 w2) as Hrun. unfold wp in Hrun.
  destruct (processRecipients ctx l res0 w2) as [w3 r]. destruct Hrun as [Hadd Hr].
  right. exists ctx. split; [done|]. split.
  - eapply adds_trans; [by apply adds_same|]. eapply adds_trans; eapply adds_impl;
      [|exact Hps| |exact Hadd].
    + by intros [].
    + intros [] (k & Hin & Hp); try done. exists k. by rewrite <- Hel.
  - destruct r as [res|]; [|done]. destruct Hr as (Hi & Ha & Ht). cbn in Hi, Ha, Ht.
    assert (Hlen : length (fr_Recipients res) = length l).
    { transitivity (length (ids res)); [unfold ids; by rewrite length_fmap|by rewrite Hi]. }
    rewrite Hi, Ht, Hlen. split; [done|]. split; [unfold accounted in *; cbn in Ha; lia|]. done.
Qed.

(** A fan-out accounts for every recipient. When it succeeds, the sender is an active member of
    the group (and an owner or admin in a channel), and the report lists exactly the other
    active members that are not blocked, each once; the numbers of delivered, pending and
    failed recipients add up to the number attempted. *)
Theorem fanout_accounts_for_everyone (groupID eventID content threadID : string) (w w' : W)
    (res : GroupMessageFanoutResult) :
  (forall t l, shuffle t l ≡ₚ l) ->
  SendGroupMessageFanout groupID eventID content threadID w = (w', Ok res) ->
  exists st id, States !! TrimSpace groupID = Some st /\ IdentityID = Some id
    /\ validateActorCanFanout st (TrimSpace id) = None
    /\ NoDup (ids res) /\ (forall k, k ∈ ids res <-> eligible st (TrimSpace id) k)
    /\ fr_Delivered res + fr_Pending res + fr_Failed res = fr_Attempted res
    /\ Z.of_nat (length (fr_Recipients res)) = fr_Attempted res.
Proof.
  intros Hsh Hrun. pose proof (fanout_run groupID eventID content threadID w Hsh) as H.
  unfold wp in H. rewrite Hrun in H.
  destruct H as [(e & [=] & _)|(ctx & (Hst & Hv & (id & Hid & Ha) & _) & _ & Hnd & Hacc & Hlen & Hel)].
  exists (fc_state ctx), id. rewrite <- Ha. by repeat split; try apply Hel.
Qed.

(** Everything a fan-out publishes is acceptable to its recipient: it is addressed to an
    active member other than the sender, carries the message text, and its versions are those a
    member with the same view of the group requires of a message from this sender. *)
Theorem published_messages_are_accepted_by_peers (groupID eventID content threadID : string)
    (w w' : W) (r : result error GroupMessageFanoutResult) (msg : Message) (to : string)
    (meta : GroupMessageWireMeta) :
  (forall t l, shuffle t l ≡ₚ l) ->
  SendGroupMessageFanout groupID eventID content threadID w = (w', r) ->
  FPublish msg to meta ∈ fw_log w' -> (FPublish msg to meta ∉ fw_log w) ->
  exists st id, States !! TrimSpace groupID = Some st /\ IdentityID = Some id
    /\ eligible st (TrimSpace id) to /\ msg_Content msg = string_bytes (TrimSpace content)
    /\ ValidateInboundGroupMessageState st (TrimSpace id) (wm_MembershipVersion meta)
         (wm_GroupKeyVersion meta) = ("", None).
Proof.
  intros Hsh Hrun Hin Hout. pose proof (fanout_run groupID eventID content threadID w Hsh) as H.
  unfold wp in H. rewrite Hrun in H.
  destruct H as [(e & _ & Hl)|(ctx & (Hst & Hv & (id & Hid & Ha) & Hg & Hc & Hk) & (new & Hl & Hf) & _)];
    [congruence|].
  rewrite Hl in Hin. apply elem_of_app in Hin as [Hin|Hin]; [done|].
  rewrite Forall_forall in Hf. destruct (Hf _ Hin) as (k & Hel & -> & _ & _ & Hcont & ->).
  exists (fc_state ctx), id. rewrite <- Ha, Hcont, Hc. do 4 (split; [done|]). cbn.
  unfold ValidateInboundGroupMessageState. revert Hv. unfold validateActorCanFanout.
  destruct (s_Members (fc_state ctx) !! fc_actorID ctx) as [m|]; [|done].
  destruct (m_Status m == GroupMemberStatusActive); cbn; [|done]. intros _.
  by rewrite Z.eqb_refl, Hk, Z.eqb_refl.
Qed.

(** ** At most one publication per message *)

Definition published (log : list FanoutEffect) : list string :=
  omap (fun e => match e with FPublish m _ _ => Some (msg_ID m) | _ => None end) log.

(** Every published message is stored, and none has been published twice. *)
Definition pub_ok (w : W) : Prop :=
  NoDup (published (fw_log w))
  /\ forall id, id ∈ published (fw_log w) -> is_Some (repoGet (fw_repo w) id).

(** Publishing may update stored messages, but does not delete any. *)
Definition publish_keeps : Prop :=
  forall f msg to meta s id, PrepareAndPublish = Some f -> is_Some (repoGet s id) ->
    is_Some (repoGet (fst (f msg to meta s)) id).

Lemma save_keeps `{!RepositoryLaws S} m s id :
  is_Some (repoGet s id) -> is_Some (repoGet (fst (repoSave m s)) id).
Proof.
  intros [x Hx]. destruct (decide (id = msg_ID m)) as [->|Hne].
  - exists x. by apply save_found.
  - rewrite save_frame by done. by exists x.
Qed.

Lemma pub_ok_grow (w w' : W) :
  pub_ok w -> published (fw_log w') = published (fw_log w) ->
  (forall id, is_Some (repoGet (fw_repo w) id) -> is_Some (repoGet (fw_repo w') id)) -> pub_ok w'.
Proof. intros [Hn Hs] Hp Hr. split; rewrite Hp; [done|]. intros id Hid. by apply Hr, Hs. Qed.

Lemma published_app l1 l2 : published (l1 ++ l2) = (published l1 ++ published l2)%list.
Proof. apply omap_app. Qed.

Lemma emit_pub_ok e (w : W) :
  published [e] = [] -> pub_ok w -> pub_ok (fst (emitF e w)).
Proof.
  intros He Hw. apply (pub_ok_grow w); try done. unfold emitF. cbn [fst fw_log].
  by rewrite published_app, He, app_nil_r.
Qed.

Lemma save_pub_ok `{!RepositoryLaws S} m (w : W) : pub_ok w -> pub_ok (fst (saveMessage m w)).
Proof.
  intros Hw. apply (pub_ok_grow w); [done|by rewrite saveMessage_log|].
  intros id Hid. unfold saveMessage. pose proof (save_keeps m (fw_repo w) id Hid) as H.
  by destruct (repoSave m (fw_repo w)) as [r e].
Qed.

Lemma processRecipient_pub_ok `{!RepositoryLaws S} ctx id res (w : W) :
  hasGet = true -> publish_keeps -> pub_ok w -> pub_ok (fst (processRecipient ctx id res w)).
Proof.
  intros Hget Hkeep Hw. unfold processRecipient, getMessage. rewrite Hget.
  set (mid := DeriveRecipientMessageID _ _ _).
  destruct (repoGet (fw_repo w) mid) as [x|] eqn:Enone; [done|].
  destruct (negb hasSave); [done|]. set (msg := mkMessage _ _ _ _ _ _ _ _ _ _ _).
  pose proof (save_pub_ok msg w Hw) as Hw1. pose proof (saveMessage_log msg w) as Hlog.
  destruct (saveMessage msg w) as [w1 [u|err]] eqn:Esave; cbn [fst] in Hw1, Hlog;
    [|by apply (emit_pub_ok (FRecordError "storage" err))].
  assert (Hst : is_Some (repoGet (fw_repo w1) mid)).
  { revert Esave. unfold saveMessage. destruct (repoSave msg (fw_repo w)) as [r [e|]] eqn:Er; [done|].
    intros [= <- _]. by apply (save_stores msg (fw_repo w)). }
  assert (Hnew : mid ∉ published (fw_log w1)).
  { rewrite Hlog. intros Hin. destruct Hw as [_ Hs]. destruct (Hs _ Hin). congruence. }
  unfold publish. destruct PrepareAndPublish as [f|] eqn:Ef; [|done]. set (meta := mkMeta _ _ _ _ _).
  pose proof (Hkeep f msg id meta (fw_repo w1)) as Hk.
  destruct (f msg id meta (fw_repo w1)) as [r [[sentID category] oerr]]. cbn [fst] in Hk.
  set (w2 := mkFanoutWorld (fw_abuse w1) (fw_gen w1) r (fw_log w1 ++ [FPublish msg id meta])%list).
  assert (Hw2 : pub_ok w2).
  { destruct Hw1 as [Hnd Hs]. split; cbn [fw_log fw_repo w2]; rewrite published_app.
    - apply NoDup_app. split; [done|]. split; [|apply NoDup_singleton].
      intros x Hx ->%list_elem_of_singleton. done.
    - intros x [Hx| ->%list_elem_of_singleton]%elem_of_app; apply Hk; auto. }
  destruct oerr as [err|]; [|exact Hw2]. destruct (negb _); [|exact Hw2].
  by apply (emit_pub_ok (FRecordError category err)).
Qed.

Lemma SendGroupMessageFanout_pub_ok `{!RepositoryLaws S} groupID eventID content threadID (w : W) :
  hasGet = true -> publish_keeps -> pub_ok w ->
  pub_ok (fst (SendGroupMessageFanout groupID eventID content threadID w)).
Proof.
  intros Hget Hkeep Hw. unfold SendGroupMessageFanout, bindM.
  pose proof (prepare_spec groupID eventID content threadID w) as Hprep. unfold wp in Hprep.
  destruct (prepareFanoutContext _ _ _ _ w) as [w1 [ctx|e]]; destruct Hprep as (Hl & Hr & _).
  2:{ apply (pub_ok_grow w); cbn [fst]; [done|by rewrite Hl|by rewrite Hr]. }
  assert (Hw1 : pub_ok w1) by (apply (pub_ok_grow w); [done|by rewrite Hl|by rewrite Hr]).
  assert (Hw2 : pub_ok (fst (persistSenderMessage ctx w1))).
  { unfold persistSenderMessage. destruct (negb hasSave); [done|].
    destruct (getMessage _ _); [by apply emit_pub_ok|]. set (msg := mkMessage _ _ _ _ _ _ _ _ _ _ _).
    pose proof (save_pub_ok msg w1 Hw1) as Hs. destruct (saveMessage msg w1) as [w2 [u|err]];
      by apply emit_pub_ok. }
  destruct (persistSenderMessage ctx w1) as [w2 [u|e]]; cbn [fst] in Hw2 |- *; [|done].
  generalize (mkFanoutResult (fc_groupID ctx) (fc_eventID ctx)
    (Z.of_nat (length (collectRecipients (fc_state ctx) (fc_actorID ctx)))) 0 0 0 []).
  generalize (collectRecipients (fc_state ctx) (fc_actorID ctx)). intros l. revert w2 Hw2.
  clear w1 Hw1 Hl Hr.
  induction l as [|id l IH]; intros w2 Hw2 res; cbn [processRecipients]; [done|]. unfold bindM.
  pose proof (processRecipient_pub_ok ctx id res w2 Hget Hkeep Hw2) as Hw3.
  destruct (processRecipient ctx id res w2) as [w3 [res3|e]]; [by apply IH|done].
Qed.
End Fanout.

(** Fan-out calls in sequence: any group, event, sender, time, block list and outcome. *)
Inductive fanout_step {S F L G : Type} {repo : MessageRepository S} (NewLimiter : F -> Z -> L)
    (AllowN : L -> Z -> Z -> L * bool) (sha256 : list Z -> list Z)
    : FanoutWorld S F L G -> FanoutWorld S F L G -> Prop :=
| fs_send sts abuse idn gen dev now blk hasSave pub rt shuffle gid eid content thread w :
    publish_keeps pub ->
    fanout_step NewLimiter AllowN sha256 w
      (fst (SendGroupMessageFanout NewLimiter AllowN sha256 sts abuse idn gen dev now blk true
              hasSave pub (rt := rt) shuffle gid eid content thread w)).


(** ** Reception *)

Record InboundGroupMessageParams := mkMessageParams {
  ig_MessageID : string; ig_SenderID : string; ig_Payload : list Z; ig_ConversationID : string;
  ig_EventID : string; ig_MembershipVersion : Z; ig_GroupKeyVersion : Z; ig_SenderDeviceID : string
}.

Inductive MessageEffect :=
| MRecordError (category : string) (err : error)
| MAggregate (name : string)
| MWarn (reason : string)
| MNotify (groupID : string) (msg : Message).

Record MessageWorld (S : Type) := mkMessageWorld {
  mw_repo : S; mw_seen : gmap string Z; mw_log : list MessageEffect
}.
Arguments mkMessageWorld {S} _ _ _.
Arguments mw_repo {S} _.
Arguments mw_seen {S} _.
Arguments mw_log {S} _.

Section Reception.
Context {S : Type} {repo : MessageRepository S}.
(** The fields of the orchestration service: [guard] tells whether [GuardReplay] is set,
    [resolve] is the outcome of [ResolveInboundContent]. *)
Context (States : gmap string GroupState) (now : Z) (IsBlockedSender : option (string -> bool))
        (guard : bool) (resolve : option (list Z * string * option error))
        (BuildStoredMessage : option (list Z -> string -> Z -> Message)) (hasSave : bool)
        (IsMessageIDConflict : option (error -> bool)).

Definition emitM (w : MessageWorld S) (l : list MessageEffect) : MessageWorld S :=
  mkMessageWorld (mw_repo w) (mw_seen w) (mw_log w ++ l)%list.

Definition rejectedM (err : error) (reason : string) : list MessageEffect :=
  [MRecordError "crypto" err; MAggregate "policy_reject"; MWarn reason].

(** From the content on: store the message and announce it. *)
Definition storeInbound (conversationID : string) (content : list Z) (contentType : string)
    (w : MessageWorld S) : MessageWorld S :=
  match BuildStoredMessage with
  | Some build =>
      if negb hasSave then w else
      let stored := build content contentType now in
      match repoSave stored (mw_repo w) with
      | (r, Some err) =>
          let w' := mkMessageWorld r (mw_seen w) (mw_log w) in
          if match IsMessageIDConflict with Some f => f err | None => false end
          then emitM w' [MWarn "inbound group message id conflict ignored"]
          else emitM w' [MRecordError "storage" err]
      | (r, None) =>
          emitM (mkMessageWorld r (mw_seen w) (mw_log w)) [MNotify conversationID stored]
      end
  | None => w
  end.

Definition HandleInboundGroupMessage (inp : InboundGroupMessageParams) (w : MessageWorld S)
    : MessageWorld S :=
  if match IsBlockedSender with Some f => f (ig_SenderID inp) | None => false end
  then emitM w (rejectedM ErrGroupSenderBlocked "blocked_sender") else
  match States !! TrimSpace (ig_ConversationID inp) with
  | None => emitM w (rejectedM ErrGroupNotFound "unknown_group")
  | Some state =>
      match ValidateInboundGroupMessageState state (TrimSpace (ig_SenderID inp))
              (ig_MembershipVersion inp) (ig_GroupKeyVersion inp) with
      | (reason, Some err) => emitM w (rejectedM err reason)
      | (_, None) =>
          let replayID := if TrimSpace (ig_EventID inp) == "" then TrimSpace (ig_MessageID inp)
                          else TrimSpace (ig_EventID inp) in
          let '(seen, guardErr) :=
            if guard
            then guardInboundGroupReplay "message" (ig_ConversationID inp)
                   (ig_SenderDeviceID inp) replayID now now (mw_seen w)
            else (mw_seen w, None) in
          let w := mkMessageWorld (mw_repo w) seen (mw_log w) in
          match guardErr with
          | Some err => emitM w (rejectedM err "replay_guard")
          | None =>
              match resolve with
              | Some (decrypted, resolvedType, None) =>
                  storeInbound (ig_ConversationID inp) decrypted resolvedType w
              | Some (_, _, Some decryptErr) =>
                  storeInbound (ig_ConversationID inp) (ig_Payload inp) "text"
                    (emitM w [MRecordError "crypto" decryptErr; MAggregate "decrypt_fail";
                              MWarn "group message decrypt failed"])
              | None => storeInbound (ig_ConversationID inp) (ig_Payload inp) "text" w
              end
          end
      end
  end.
End Reception.

(** The handler of the daemon, on the registry of the groups. *)
Definition handleInboundGroupMessage {S} {repo : MessageRepository S} (reg : Registry) (now : Z)
    (isBlocked : string -> bool) (decrypted : result error (list Z))
    (msg : InboundPrivateMessage) (wire : WirePayload) (w : MessageWorld S) : MessageWorld S :=
  let key := TrimSpace (wp_ConversationID wire) in
  let sts : gmap string GroupState :=
    match view reg !! key with Some state => {[key := state]} | None => ∅ end in
  HandleInboundGroupMessage sts now (Some isBlocked) true
    (Some (ResolveInboundContent msg wire decrypted))
    (Some (BuildInboundGroupStoredMessage msg (wp_ConversationID wire) (wp_ThreadID wire)))
    true (Some (fun err => err == ErrMessageIDConflict))
    (mkMessageParams (im_ID msg) (im_SenderID msg) (im_Payload msg) (wp_ConversationID wire)
       (wp_EventID wire) (wp_MembershipVersion wire) (wp_GroupKeyVersion wire)
       (wp_SenderDeviceID wire)) w.

(** The sender may speak in the group, with exactly these versions. *)
Definition may_post (reg : Registry) (groupID senderID : string) (version key : Z) : Prop :=
  exists st m, view reg !! TrimSpace groupID = Some st
    /\ s_Members st !! TrimSpace senderID = Some m /\ m_Status m = GroupMemberStatusActive
    /\ version = s_Version st /\ key = expectedGroupKeyVersion st.

Lemma validate_message_ok st sender v k reason :
  ValidateInboundGroupMessageState st sender v k = (reason, None) ->
  exists m, s_Members st !! sender = Some m /\ m_Status m = GroupMemberStatusActive
            /\ v = s_Version st /\ k = expectedGroupKeyVersion st.
Proof.
  unfold ValidateInboundGroupMessageState. destruct (s_Members st !! sender) as [m|]; [|done].
  case_bool_decide as Hs; cbn; [|done]. destruct (Z.eqb_spec v (s_Version st)); cbn; [|done].
  destruct (Z.eqb_spec k (expectedGroupKeyVersion st)); cbn; [|done]. by exists m.
Qed.

(** Only current members get messages in. If handling a group message from the network changes
    the message store or announces a message, then the sender is not blocked, is an active
    member of the group at this moment, and the message carries the current version and
    key version of the group; in all other cases the store is untouched and nothing
    is announced. In particular a member that was removed, or that has not seen the key
    rotation after a removal, is locked out. *)
Theorem only_current_members_get_messages_in {S} {repo : MessageRepository S} (reg : Registry)
    (now : Z) (isBlocked : string -> bool) (decrypted : result error (list Z))
    (msg : InboundPrivateMessage) (wire : WirePayload) (w : MessageWorld S) :
  let w' := handleInboundGroupMessage reg now isBlocked decrypted msg wire w in
  (isBlocked (im_SenderID msg) = false
   /\ may_post reg (wp_ConversationID wire) (im_SenderID msg) (wp_MembershipVersion wire)
        (wp_GroupKeyVersion wire))
  \/ (mw_repo w' = mw_repo w
      /\ forall g m, MNotify g m ∈ mw_log w' -> MNotify g m ∈ mw_log w).
Proof.
  cbn zeta. unfold handleInboundGroupMessage, HandleInboundGroupMessage. cbn [ig_SenderID
    ig_ConversationID ig_MembershipVersion ig_GroupKeyVersion].
  assert (Hrej : forall w0 err reason, mw_log w0 = mw_log w -> forall g m,
            MNotify g m ∈ mw_log (emitM (S := S) w0 (rejectedM err reason)) -> MNotify g m ∈ mw_log w).
  { intros w0 err reason Hl g m. cbn. rewrite Hl, elem_of_app. intros [|Hin]; [done|].
    repeat (apply elem_of_cons in Hin as [?|Hin]; [done|]). by apply not_elem_of_nil in Hin. }
  destruct (isBlocked (im_SenderID msg)) eqn:Hb; [right; split; [done|by apply Hrej]|].
  destruct (view reg !! TrimSpace (wp_ConversationID wire)) as [st|] eqn:Est.
  2:{ rewrite lookup_empty. right. split; [done|by apply Hrej]. }
  rewrite lookup_singleton_eq.
  destruct (ValidateInboundGroupMessageState _ _ _ _) as [reason [err|]] eqn:Hv.
  - right. split; [done|by apply Hrej].
  - left. split; [done|]. apply validate_message_ok in Hv as (m & Hm & Hs & Hver & Hkey).
    by exists st, m.
Qed.

(** A group message that cannot be decrypted is stored and announced all the same: its
    content is the raw wire payload and its type is the one of readable text, although
    [ResolveInboundContent] marks such content as unreadable, as direct messages keep it. *)
Theorem undecryptable_group_message_stored_as_text {S} {repo : MessageRepository S}
    (reg : Registry) (now : Z) (isBlocked : string -> bool) (err : error)
    (msg : InboundPrivateMessage) (wire : WirePayload) (w : MessageWorld S) (r : S) :
  isBlocked (im_SenderID msg) = false -> wp_Kind wire = "e2ee" ->
  may_post reg (wp_ConversationID wire) (im_SenderID msg) (wp_MembershipVersion wire)
    (wp_GroupKeyVersion wire) ->
  snd (guardInboundGroupReplay "message" (wp_ConversationID wire) (wp_SenderDeviceID wire)
         (if TrimSpace (wp_EventID wire) == "" then TrimSpace (im_ID msg)
          else TrimSpace (wp_EventID wire)) now now (mw_seen w)) = None ->
  let stored := BuildInboundGroupStoredMessage msg (wp_ConversationID wire) (wp_ThreadID wire)
                  (im_Payload msg) "text" now in
  repoSave stored (mw_repo w) = (r, None) ->
  let w' := handleInboundGroupMessage reg now isBlocked (Err err) msg wire w in
  mw_repo w' = r /\ MNotify (wp_ConversationID wire) stored ∈ mw_log w'
  /\ ResolveInboundContent msg wire (Err err) = (im_Payload msg, "e2ee-unreadable", Some err).
Proof.
  intros Hb Hk (st & m & Hst & Hm & Hs & Hv & Hkey) Hg stored Hsave w'.
  assert (Hres : ResolveInboundContent msg wire (Err err)
                 = (im_Payload msg, "e2ee-unreadable", Some err))
    by (unfold ResolveInboundContent; by rewrite Hk).
  assert (Hw : w' = storeInbound now
     (Some (BuildInboundGroupStoredMessage msg (wp_ConversationID wire) (wp_ThreadID wire))) true
     (Some (fun err => err == ErrMessageIDConflict)) (wp_ConversationID wire) (im_Payload msg) "text"
     (emitM (mkMessageWorld (mw_repo w) (fst (guardInboundGroupReplay "message"
         (wp_ConversationID wire) (wp_SenderDeviceID wire)
         (if TrimSpace (wp_EventID wire) == "" then TrimSpace (im_ID msg)
          else TrimSpace (wp_EventID wire)) now now (mw_seen w))) (mw_log w))
        [MRecordError "crypto" err; MAggregate "decrypt_fail"; MWarn "group message decrypt failed"])).
  { unfold w', handleInboundGroupMessage, HandleInboundGroupMessage. cbn [ig_SenderID ig_MessageID
      ig_ConversationID ig_MembershipVersion ig_GroupKeyVersion ig_EventID ig_SenderDeviceID ig_Payload].
    rewrite Hb, Hst, lookup_singleton_eq. unfold ValidateInboundGroupMessageState.
    rewrite Hm, Hs, Hv, Hkey, bool_decide_true, !Z.eqb_refl by done. cbn [negb].
    destruct (guardInboundGroupReplay _ _ _ _ _ _ _) as [seen o]. cbn [snd] in Hg. rewrite Hg.
    by rewrite Hres. }
  rewrite Hw. unfold storeInbound. cbn [negb emitM mw_repo]. fold stored. rewrite Hsave.
  cbn [emitM mw_repo mw_log mw_seen]. split; [done|]. split; [|done].
  rewrite elem_of_app. right. by left.
Qed.

(** ** read_service.go *)

Section Read.
Context (States : gmap string GroupState).

Definition GetGroup (groupID : string) : result error Group :=
  try! groupID := NormalizeGroupID groupID in
  match States !! groupID with
  | None => Err ErrGroupNotFound
  | Some state => Ok (s_Group state)
  end.

(** Strings are compared byte by byte. *)
Definition groupLess (a b : Group) : bool :=
  if g_CreatedAt a =? g_CreatedAt b then String.ltb (g_ID a) (g_ID b)
  else Before (g_CreatedAt a) (g_CreatedAt b).

Definition ListGroups `{GoRuntime} : list Group :=
  sortSlice groupLess (s_Group <$> (rangeMap States).*2).

Definition ListGroupMembers `{GoRuntime} (groupID : string) : result error (list GroupMember) :=
  try! groupID := NormalizeGroupID groupID in
  match States !! groupID with
  | None => Err ErrGroupNotFound
  | Some state =>
      Ok (sortSlice (fun a b => String.ltb (m_MemberID a) (m_MemberID b))
            (rangeMap (s_Members state)).*2)
  end.

(** Not one of the copies a fan-out keeps per recipient. *)
Definition visible (msg : Message) : bool :=
  negb (TrimSpace (msg_ContentType msg) == groupFanoutTransportContentType).

(** [listBy] is [ListMessagesByConversation], nil for [None]. *)
Definition ListGroupMessages (listBy : option (string -> string -> Z -> Z -> list Message))
    (groupID : string) (limit offset : Z) : result error (list Message) :=
  try! groupID := NormalizeGroupID groupID in
  match States !! groupID with
  | None => Err ErrGroupNotFound
  | Some _ =>
      match listBy with
      | None => Err (errorsNew "message list repository is not configured")
      | Some listBy => Ok (filter visible (listBy groupID ConversationTypeGroup limit offset))
      end
  end.

Definition ListGroupMessagesByThread
    (listBy : option (string -> string -> string -> Z -> Z -> list Message))
    (groupID threadID : string) (limit offset : Z) : result error (list Message) :=
  try! groupID := NormalizeGroupID groupID in
  let threadID := TrimSpace threadID in
  if threadID == "" then Err (errorsNew "thread id is required") else
  match States !! groupID with
  | None => Err ErrGroupNotFound
  | Some _ =>
      match listBy with
      | None => Err (errorsNew "threaded message list repository is not configured")
      | Some listBy => Ok (filter visible (listBy groupID ConversationTypeGroup threadID limit offset))
      end
  end.
End Read.

(** The message, when it exists and belongs to the group. *)
Definition groupMessage (get : option (string -> option Message)) (groupID messageID : string)
    : result error (string * Message) :=
  try! groupID := NormalizeGroupID groupID in
  let messageID := TrimSpace messageID in
  if messageID == "" then Err (errorsNew "message id is required") else
  match get with
  | None => Err (errorsNew "message repository is not configured")
  | Some get =>
      match get messageID with
      | None => Err (errorsNew "message not found")
      | Some msg =>
          if negb (msg_ConversationType msg == ConversationTypeGroup)
             || negb (TrimSpace (msg_ConversationID msg) == groupID)
          then Err (errorsNew "message does not belong to group") else Ok (messageID, msg)
      end
  end.

Definition GetGroupMessageStatus (get : option (string -> option Message))
    (groupID messageID : string) : result error (string * string) :=
  try! found := groupMessage get groupID messageID in
  Ok (msg_ID (snd found), msg_Status (snd found)).

(** [del] is [DeleteMessage] of the repository whose state is [S]. *)
Definition DeleteGroupMessage {S : Type} (get : S -> string -> option Message)
    (del : string -> string -> M S error bool) (groupID messageID : string) : M S error unit :=
  fun s =>
    match groupMessage (Some (get s)) groupID messageID with
    | Err err => (s, Err err)
    | Ok (messageID, msg) =>
        match del (msg_ContactID msg) messageID s with
        | (s', Err err) => (s', Err err)
        | (s', Ok deleted) => (s', if negb deleted then Err (errorsNew "message not found") else Ok tt)
        end
    end.

(** Deleting a group message, on the message store, touches only that group: when it succeeds,
    the one message that is gone was a message of the named group, and every other message
    is as before; when it fails, all messages are as before. *)
Theorem DeleteGroupMessage_stays_in_group `{Cipher} `{EnvelopeCodec} `{MessageCodec}
    (env : StoreEnv) (groupID messageID : string) (s s' : MessageStore) (r : result error unit) :
  DeleteGroupMessage (fun s id => ms_messages s !! id) (DeleteMessage env) groupID messageID s
  = (s', r) ->
  match r with
  | Err _ => ms_messages s' = ms_messages s
  | Ok _ => exists m, ms_messages s !! TrimSpace messageID = Some m
      /\ msg_ConversationType m = ConversationTypeGroup
      /\ TrimSpace (msg_ConversationID m) = TrimSpace groupID
      /\ ms_messages s' = delete (TrimSpace messageID) (ms_messages s)
  end.
Proof.
  unfold DeleteGroupMessage, groupMessage, bindR.
  destruct (NormalizeGroupID groupID) as [gid|] eqn:Eg; [|by intros [= <- <-]].
  apply NormalizeGroupID_ok in Eg as ->. cbn zeta.
  destruct (TrimSpace messageID == ""); [by intros [= <- <-]|].
  destruct (ms_messages s !! TrimSpace messageID) as [m|] eqn:Em; [|by intros [= <- <-]].
  destruct (msg_ConversationType m == ConversationTypeGroup) eqn:Et; cbn [negb orb];
    [|by intros [= <- <-]].
  destruct (TrimSpace (msg_ConversationID m) == TrimSpace groupID) eqn:Ec; cbn [negb];
    [|by intros [= <- <-]].
  rewrite bool_decide_eq_true in Et, Ec.
  unfold DeleteMessage, bindM, getM, retM, install, modifyM. cbn beta iota. rewrite Em.
  rewrite bool_decide_true by done. cbn [negb].
  edestruct persist_disk as (d & [u|e] & ->); cbn; intros [= <- <-]; [|done]. by exists m.
Qed.

(** ** Concrete runs and witnesses *)

Definition ex_repo : StoreRepo := (mkMessageStore ∅ ∅ "" "" true None, []).

#[local] Existing Instance exRuntime | 0.
#[export] Instance ex_repository : MessageRepository StoreRepo := storeRepository ex_env.
#[export] Instance ex_repository_laws : RepositoryLaws StoreRepo := storeRepository_laws ex_env.

Definition ex_publish (msg : Message) (to : string) (meta : GroupMessageWireMeta) (r : StoreRepo)
    : StoreRepo * (string * string * option error) := (r, (msg_ID msg, "", None)).

Definition ex_fanout_world : FanoutWorld StoreRepo Z Z nat :=
  mkFanoutWorld ex_abuse 0%nat ex_repo [].

(** Alice writes to the group; Bob is the only other active member. *)
Definition ex_send (eventID : string) (w : FanoutWorld StoreRepo Z Z nat) :=
  SendGroupMessageFanout ex_NewLimiter ex_AllowN reverse (view (ex_registry 1)) false (Some "alice")
    None (Some (Ok "dev1")) 9 None true true (Some ex_publish) (rt := exRuntime) (fun _ l => l)
    "g1" eventID "hi" "" w.

Lemma fanout_accounts_for_everyone_witness :
  exists res, snd (ex_send "ev1" ex_fanout_world) = Ok res
    /\ fr_Delivered res + fr_Pending res + fr_Failed res = fr_Attempted res
    /\ fr_Attempted res = 1.
Proof.
  destruct (ex_send "ev1" ex_fanout_world) as [w' [res|e]] eqn:E;
    [|exfalso; vm_compute in E; discriminate E].
  exists res. split; [reflexivity|].
  destruct (fanout_accounts_for_everyone ex_NewLimiter ex_AllowN reverse (view (ex_registry 1)) false
    (Some "alice") None (Some (Ok "dev1")) 9 None true true (Some ex_publish) (fun _ l => l)
    "g1" "ev1" "hi" "" ex_fanout_world w' res) as (st & id & _ & _ & _ & _ & _ & Hsum & _).
  - reflexivity.
  - exact E.
  - split; [exact Hsum|]. vm_compute in E. injection E as _ <-. reflexivity.
Defined.

Lemma published_messages_are_accepted_by_peers_witness :
  exists st id, view (ex_registry 1) !! TrimSpace "g1" = Some st
    /\ ValidateInboundGroupMessageState st (TrimSpace id) 3 1 = ("", None).
Proof.
  destruct (ex_send "ev1" ex_fanout_world) as [w' r] eqn:E.
  destruct (fw_log w') as [|e1 [|[| |msg to meta] l]] eqn:El;
    try (exfalso; vm_compute in E; injection E as <- _; vm_compute in El; discriminate El).
  destruct (published_messages_are_accepted_by_peers ex_NewLimiter ex_AllowN reverse
    (view (ex_registry 1)) false (Some "alice") None (Some (Ok "dev1")) 9 None true true
    (Some ex_publish) (fun _ l => l) "g1" "ev1" "hi" "" ex_fanout_world w' r msg to meta)
    as (st & id & Hst & _ & _ & _ & Hval).
  - reflexivity.
  - exact E.
  - rewrite El. apply elem_of_cons. right. apply elem_of_cons. left. reflexivity.
  - cbn. apply not_elem_of_nil.
  - exists st, id. split; [exact Hst|].
    vm_compute in E. injection E as <- _. vm_compute in El. injection El as _ _ _ <- _. exact Hval.
Defined.


Definition ex_inbound_message : InboundPrivateMessage :=
  mkInboundPrivate "m7" "bob" "alice" [1; 2; 3].

Definition ex_wire_message : WirePayload :=
  mkWirePayload "e2ee" zeroEnvelope [] "" "g1" "group" "" "ev9" "message" 3 1 "dev2" None None None
    [] None.

Lemma undecryptable_group_message_stored_as_text_witness :
  MNotify "g1" (mkMessage "m7" "bob" "g1" "group" "" [1; 2; 3] 9 "in" "delivered" "text" false)
    ∈ mw_log (handleInboundGroupMessage (ex_registry 1) 9 (fun _ => false)
                (Err (errorsNew "no session")) ex_inbound_message ex_wire_message
                (mkMessageWorld ex_repo ∅ [])).
Proof.
  refine (proj1 (proj2 (undecryptable_group_message_stored_as_text (ex_registry 1) 9 (fun _ => false)
    (errorsNew "no session") ex_inbound_message ex_wire_message (mkMessageWorld ex_repo ∅ [])
    (fst (repoSave (mkMessage "m7" "bob" "g1" "group" "" [1; 2; 3] 9 "in" "delivered" "text" false)
            ex_repo)) _ _ _ _ _))).
  - reflexivity.
  - reflexivity.
  - eexists _, _. repeat split; vm_compute; reflexivity.
  - vm_compute. reflexivity.
  - vm_compute. reflexivity.
Defined.

Definition ex_group_store : MessageStore :=
  mkMessageStore {["m7" := mkMessage "m7" "bob" "g1" "group" "" [] 9 "in" "delivered" "text" false]}
    ∅ "" "" true None.

Lemma DeleteGroupMessage_stays_in_group_witness :
  exists m, ms_messages ex_group_store !! TrimSpace "m7" = Some m
    /\ msg_ConversationType m = ConversationTypeGroup.
Proof.
  destruct (DeleteGroupMessage_stays_in_group ex_env "g1" "m7" ex_group_store
    (mkMessageStore ∅ ∅ "" "" true None) (Ok tt)) as (m & Hm & Ht & _).
  - vm_compute. reflexivity.
  - exists m. split; [exact Hm|exact Ht].
Defined.

(** The page of a group conversation is cut before the per-recipient copies of sent messages are
    hidden. After one message to a group, asking for the first page of one message can return
    nothing, although the conversation has a visible message. *)
Theorem fanout_copies_use_up_pages :
  exists (rt1 rt2 : GoRuntime) msg,
    let store := fst (fw_repo (fst (ex_send "ev1" ex_fanout_world))) in
    let list rt := fun gid typ limit offset =>
      @ListMessagesByConversation rt store gid typ limit offset in
    ListGroupMessages (view (ex_registry 1)) (Some (list rt1)) "g1" 1 0 = Ok []
    /\ ListGroupMessages (view (ex_registry 1)) (Some (list rt2)) "g1" 0 0 = Ok [msg].
Proof.
  exists revRuntime, exRuntime. eexists. split; vm_compute; reflexivity.
Qed.
