(* ===== verification/GroupService.v ===== *)
(** * The group service

    Models internal/domains/group/usecase/service.go, the API of the group domain the daemon
    exposes: every call acts as the local identity, runs the membership operation under the
    registry's lock ([WithMembership]) or reads a snapshot of the states, and reports to the
    aggregates and the notifier. Log lines are left out. *)
From S2P Require Import Prelude Privacy SecureStore MessageStore GroupModel RateLimiter GroupRuntime GroupMembership GroupInbound GroupStore GroupMessaging.
From stdpp Require Import base gmap strings list sets option relations.
From Stdlib Require Import ZArith Lia Sorted.
Open Scope string_scope.
Open Scope Z_scope.
Open Scope go_scope.

Create HintDb keeps.

(** What the service tells the rest of the daemon. *)
Inductive ServiceNote :=
| SAggregate (name : string)
| SGroupDeleted (groupID actorID : string)
| SMessageDeleted (groupID messageID : string)
| SFanout (e : FanoutEffect).

Record ServiceWorld (S F L G : Type) := mkServiceWorld {
  sv_world : World F L G;
  sv_repo : S;
  sv_notes : list ServiceNote
}.
Arguments mkServiceWorld {S F L G} _ _ _.
Arguments sv_world {S F L G} _.
Arguments sv_repo {S F L G} _.
Arguments sv_notes {S F L G} _.

Section Service.
Context {S F L G : Type} {repo : MessageRepository S}.
Context (NewLimiter : F -> Z -> L) (AllowN : L -> Z -> Z -> L * bool).
Context (sha256 : list Z -> list Z).
(** The fields of the service: [Persist], [hasMemberNotify] and [GenerateEventID] are those
    of the membership service [WithMembership] provides; [repoDelete] is [DeleteMessage]. *)
Context (IdentityID : option string) (now : Z) (hasAbuse : bool)
        (Persist : option SnapshotPersist) (hasMemberNotify : bool)
        (GenerateID : option (string -> G -> G * result error string))
        (GenerateEventID : option (G -> string * G))
        (IsBlockedSender : option (string -> bool))
        (ActiveDeviceID : option (result error string))
        (PrepareAndPublish : option (Message -> string -> GroupMessageWireMeta -> S ->
                                     S * (string * string * option error)))
        (repoDelete : string -> string -> M S error bool)
        (listBy : S -> string -> string -> Z -> Z -> list Message)
        (listByThread : S -> string -> string -> string -> Z -> Z -> list Message).
Context {rt : GoRuntime} (shuffle : Z -> list string -> list string).

Abbreviation W := (ServiceWorld S F L G).
Abbreviation op := (M W error).

Definition actorID : string := match IdentityID with None => "" | Some id => TrimSpace id end.

Definition note (n : ServiceNote) : op unit := fun w =>
  (mkServiceWorld (sv_world w) (sv_repo w) (sv_notes w ++ [n])%list, Ok tt).

Definition withMembership {A} (fn : M (World F L G) error A) : op A := fun w =>
  let '(w', r) := fn (sv_world w) in (mkServiceWorld w' (sv_repo w) (sv_notes w), r).

(** A copy of every state. *)
Definition snapshotStates (w : W) : gmap string GroupState := view (w_reg (sv_world w)).

(** [if strings.TrimSpace(event.ID) != "" { s.recordAggregate(name) }] *)
Definition aggregateIfApplied (event : GroupEvent) (name : string) : op unit :=
  if negb (TrimSpace (e_ID event) == "") then note (SAggregate name) else retM tt.

Definition CreateGroup (title : string) : op Group :=
  let! '(group, _) := withMembership
    (GroupMembership.CreateGroup Persist hasMemberNotify title actorID now GenerateID) in
  note (SAggregate "create") ;;! retM group.

Definition GetGroup (groupID : string) : op Group := fun w =>
  (w, GroupMessaging.GetGroup (snapshotStates w) groupID).

(** The body of the loop: the actor is an active or invited member of the group. *)
Definition listedFor (sts : gmap string GroupState) (actorID : string) (group : Group) : bool :=
  match sts !! g_ID group with
  | None => false
  | Some state =>
      match s_Members state !! actorID with
      | None => false
      | Some member => (m_Status member == GroupMemberStatusActive)
                       || (m_Status member == GroupMemberStatusInvited)
      end
  end.

Definition ListGroups : op (list Group) := fun w =>
  let groups := GroupMessaging.ListGroups (snapshotStates w) in
  let actorID := TrimSpace actorID in
  if actorID == "" then (w, Ok groups) else
  let sts := snapshotStates w in
  (w, Ok (filter (fun group => listedFor sts actorID group) groups)).

Definition ListGroupMembers (groupID : string) : op (list GroupMember) := fun w =>
  (w, GroupMessaging.ListGroupMembers (snapshotStates w) groupID).

Definition LeaveGroup (groupID : string) : op bool :=
  let! '(ok, _) := withMembership
    (GroupMembership.LeaveGroup NewLimiter AllowN Persist hasMemberNotify GenerateEventID
       groupID actorID now hasAbuse) in
  retM ok.

Definition UpdateGroupTitle (groupID title : string) : op Group :=
  let! '(group, event) := withMembership
    (GroupMembership.UpdateGroupTitle NewLimiter AllowN Persist hasMemberNotify GenerateEventID
       groupID actorID title now hasAbuse) in
  aggregateIfApplied event "rename" ;;! retM group.

Definition UpdateGroupProfile (groupID title description avatar : string) : op Group :=
  let! '(group, event) := withMembership
    (GroupMembership.UpdateGroupProfile NewLimiter AllowN Persist hasMemberNotify GenerateEventID
       groupID actorID title description avatar now hasAbuse) in
  aggregateIfApplied event "profile_update" ;;! retM group.

Definition DeleteGroup (groupID : string) : op bool :=
  let! deleted := withMembership
    (GroupMembership.DeleteGroup NewLimiter AllowN Persist groupID actorID now hasAbuse) in
  if deleted : bool then
    note (SAggregate "delete") ;;!
    note (SGroupDeleted groupID actorID) ;;!
    retM deleted
  else retM deleted.

Definition InviteToGroup (groupID memberID : string) : op GroupMember :=
  let! normalizedMemberID := liftM (NormalizeIdentityID memberID) in
  let! '(member, event) := withMembership
    (GroupMembership.InviteToGroup NewLimiter AllowN Persist hasMemberNotify GenerateEventID
       groupID actorID normalizedMemberID now IsBlockedSender hasAbuse) in
  aggregateIfApplied event "invite" ;;! retM member.

Definition AcceptGroupInvite (groupID : string) : op bool :=
  let! '(ok, event) := withMembership
    (GroupMembership.AcceptGroupInvite NewLimiter AllowN Persist hasMemberNotify GenerateEventID
       groupID actorID now hasAbuse) in
  aggregateIfApplied event "accept" ;;! retM ok.

Definition DeclineGroupInvite (groupID : string) : op bool :=
  let! '(ok, _) := withMembership
    (GroupMembership.DeclineGroupInvite NewLimiter AllowN Persist hasMemberNotify GenerateEventID
       groupID actorID now hasAbuse) in
  retM ok.

Definition RemoveGroupMember (groupID memberID : string) : op bool :=
  let! normalizedMemberID := liftM (NormalizeIdentityID memberID) in
  let! '(ok, event) := withMembership
    (GroupMembership.RemoveGroupMember NewLimiter AllowN Persist hasMemberNotify GenerateEventID
       groupID actorID normalizedMemberID now hasAbuse) in
  aggregateIfApplied event "remove" ;;! retM ok.

Definition changeGroupMemberRole (groupID memberID role : string) : op GroupMember :=
  let! normalizedMemberID := liftM (NormalizeIdentityID memberID) in
  let! '(member, _) := withMembership
    (GroupMembership.ChangeGroupMemberRole NewLimiter AllowN Persist hasMemberNotify
       GenerateEventID groupID actorID normalizedMemberID role now hasAbuse) in
  retM member.

Definition PromoteGroupMember (groupID memberID : string) : op GroupMember :=
  changeGroupMemberRole groupID memberID GroupMemberRoleAdmin.

Definition DemoteGroupMember (groupID memberID : string) : op GroupMember :=
  changeGroupMemberRole groupID memberID GroupMemberRoleUser.

(** The fan-out service on the snapshot of the states. *)
Definition sendGroupMessageFanout (groupID eventID content threadID : string)
    : op GroupMessageFanoutResult := fun w =>
  let v := sv_world w in
  let '(fw, r) :=
    GroupMessaging.SendGroupMessageFanout NewLimiter AllowN sha256 (snapshotStates w) hasAbuse
      IdentityID GenerateID ActiveDeviceID now IsBlockedSender true true PrepareAndPublish
      (rt := rt) shuffle groupID eventID content threadID
      (mkFanoutWorld (w_abuse v) (w_gen v) (sv_repo w) []) in
  (mkServiceWorld (mkWorld (w_reg v) (fw_abuse fw) (fw_gen fw) (w_notified v)) (fw_repo fw)
     (sv_notes w ++ (SFanout <$> fw_log fw))%list, r).

Definition generateMessageEventID : op string := fun w =>
  match GenerateID with
  | None => (w, Err ErrInvalidGroupMessageContent)
  | Some gen =>
      let v := sv_world w in
      let '(g', r) := gen "gevtmsg" (w_gen v) in
      (mkServiceWorld (with_gen v g') (sv_repo w) (sv_notes w), r)
  end.

Definition SendGroupMessageFanout (groupID eventID content threadID : string)
    : op GroupMessageFanoutResult :=
  let! groupID := liftM (NormalizeGroupID groupID) in
  let eventID := TrimSpace eventID in
  let! eventID := if eventID == "" then generateMessageEventID else retM eventID in
  let content := TrimSpace content in
  rejectM (content == "") ErrInvalidGroupMessageContent ;;!
  let! result := sendGroupMessageFanout groupID eventID content (TrimSpace threadID) in
  note (SAggregate "send") ;;!
  retM result.

Definition sendGroupMessageWithThread (groupID content threadID : string)
    : op GroupMessageFanoutResult :=
  let! groupID := liftM (NormalizeGroupID groupID) in
  let content := TrimSpace content in
  rejectM (content == "") ErrInvalidGroupMessageContent ;;!
  let! eventID := generateMessageEventID in
  SendGroupMessageFanout groupID eventID content threadID.

Definition SendGroupMessage (groupID content : string) : op GroupMessageFanoutResult :=
  sendGroupMessageWithThread groupID content "".

Definition SendGroupMessageInThread (groupID content threadID : string)
    : op GroupMessageFanoutResult :=
  let threadID := TrimSpace threadID in
  if threadID == "" then failM ErrInvalidGroupMessageContent
  else sendGroupMessageWithThread groupID content threadID.

Definition ListGroupMessages (groupID : string) (limit offset : Z) : op (list Message) := fun w =>
  (w, GroupMessaging.ListGroupMessages (snapshotStates w) (Some (listBy (sv_repo w)))
        groupID limit offset).

Definition ListGroupMessagesByThread (groupID threadID : string) (limit offset : Z)
    : op (list Message) := fun w =>
  (w, GroupMessaging.ListGroupMessagesByThread (snapshotStates w)
        (Some (listByThread (sv_repo w))) groupID threadID limit offset).

Definition GetGroupMessageStatus (groupID messageID : string) : op (string * string) := fun w =>
  (w, GroupMessaging.GetGroupMessageStatus (Some (repoGet (sv_repo w))) groupID messageID).

Definition DeleteGroupMessage (groupID messageID : string) : op unit :=
  (fun w => let '(r', res) := GroupMessaging.DeleteGroupMessage repoGet repoDelete groupID messageID
                                (sv_repo w) in
            (mkServiceWorld (sv_world w) r' (sv_notes w), res)) ;;!
  note (SMessageDeleted groupID messageID).

(** ** On whose behalf the service acts *)

Lemma actorID_trimmed : TrimSpace actorID = actorID.
Proof. unfold actorID. destruct IdentityID; [apply TrimSpace_idemp|done]. Qed.

(** What [actor] can do to the registry through the membership service. *)
Inductive acts_as (actor : string) (reg : Registry) : Registry -> Prop :=
| aa_none : acts_as actor reg reg
| aa_local f w :
    local_call NewLimiter AllowN Persist hasMemberNotify GenerateEventID actor f ->
    w_reg w = reg -> acts_as actor reg (w_reg (f w))
| aa_create title (w : World F L G) :
    w_reg w = reg ->
    acts_as actor reg (w_reg (fst (GroupMembership.CreateGroup Persist hasMemberNotify title actor
                                     now GenerateID w)))
| aa_delete groupID (w : World F L G) :
    w_reg w = reg ->
    acts_as actor reg (w_reg (fst (GroupMembership.DeleteGroup NewLimiter AllowN Persist groupID
                                     actor now hasAbuse w))).

(** The calls of the service. *)
Inductive service_call : forall {A}, op A -> Prop :=
| sv_create t : service_call (CreateGroup t)
| sv_get g : service_call (GetGroup g)
| sv_list : service_call ListGroups
| sv_members g : service_call (ListGroupMembers g)
| sv_leave g : service_call (LeaveGroup g)
| sv_title g t : service_call (UpdateGroupTitle g t)
| sv_profile g t d a : service_call (UpdateGroupProfile g t d a)
| sv_delete g : service_call (DeleteGroup g)
| sv_invite g m : service_call (InviteToGroup g m)
| sv_accept g : service_call (AcceptGroupInvite g)
| sv_decline g : service_call (DeclineGroupInvite g)
| sv_remove g m : service_call (RemoveGroupMember g m)
| sv_promote g m : service_call (PromoteGroupMember g m)
| sv_demote g m : service_call (DemoteGroupMember g m)
| sv_fanout g e c t : service_call (SendGroupMessageFanout g e c t)
| sv_send g c : service_call (SendGroupMessage g c)
| sv_send_thread g c t : service_call (SendGroupMessageInThread g c t)
| sv_messages g l o : service_call (ListGroupMessages g l o)
| sv_thread g t l o : service_call (ListGroupMessagesByThread g t l o)
| sv_status g m : service_call (GetGroupMessageStatus g m)
| sv_delete_message g m : service_call (DeleteGroupMessage g m).

Definition regOf (w : W) : Registry := w_reg (sv_world w).

(** A computation that does not touch the registry. *)
Definition keeps {A} (m : op A) : Prop := forall w, regOf (fst (m w)) = regOf w.

Lemma keeps_ret {A} (a : A) : keeps (retM a).
Proof. done. Qed.
Lemma keeps_note n : keeps (note n).
Proof. done. Qed.
Lemma keeps_lift {A} (r : result error A) : keeps (liftM r).
Proof. done. Qed.
Lemma keeps_reject b e : keeps (rejectM b e).
Proof. by destruct b. Qed.
Lemma keeps_bind {A B} (m : op A) (k : A -> op B) :
  keeps m -> (forall a, keeps (k a)) -> keeps (bindM m k).
Proof.
  intros Hm Hk w. unfold bindM. specialize (Hm w). destruct (m w) as [w' [a|e]]; [|done].
  by rewrite Hk.
Qed.
Lemma keeps_if {A} (b : bool) (m1 m2 : op A) : keeps m1 -> keeps m2 -> keeps (if b then m1 else m2).
Proof. by destruct b. Qed.
Lemma keeps_aggregate e n : keeps (aggregateIfApplied e n).
Proof. unfold aggregateIfApplied. by apply keeps_if. Qed.
Lemma keeps_generate : keeps generateMessageEventID.
Proof.
  intros w. unfold generateMessageEventID. destruct GenerateID as [gen|]; [|done].
  by destruct (gen "gevtmsg" (w_gen (sv_world w))).
Qed.
Lemma keeps_send g e c t : keeps (sendGroupMessageFanout g e c t).
Proof.
  intros w. unfold sendGroupMessageFanout.
  by destruct (GroupMessaging.SendGroupMessageFanout _ _ _ _ _ _ _ _ _ _ _ _ _ _ _ _ _ _ _).
Qed.
Hint Resolve keeps_ret keeps_note keeps_lift keeps_reject keeps_bind keeps_if keeps_aggregate
  keeps_generate keeps_send : keeps.

Lemma keeps_fanout g e c t : keeps (SendGroupMessageFanout g e c t).
Proof. unfold SendGroupMessageFanout. eauto 12 with keeps. Qed.
Hint Resolve keeps_fanout : keeps.

Lemma keeps_send_thread g c t : keeps (sendGroupMessageWithThread g c t).
Proof. unfold sendGroupMessageWithThread. eauto 12 with keeps. Qed.

(** After a membership operation, only bookkeeping follows. *)
Lemma membership_reg {A B} (fn : M (World F L G) error A) (k : A -> op B) w :
  (forall a, keeps (k a)) ->
  regOf (fst (bindM (withMembership fn) k w)) = w_reg (fst (fn (sv_world w))).
Proof.
  intros Hk. unfold bindM, withMembership. destruct (fn (sv_world w)) as [w' [a|e]]; [|done].
  by rewrite Hk.
Qed.

Lemma lift_membership_reg {A B C} (r : result error C) (fn : C -> M (World F L G) error A)
    (k : A -> op B) w actor :
  (forall a, keeps (k a)) ->
  (forall c, acts_as actor (regOf w) (w_reg (fst (fn c (sv_world w))))) ->
  acts_as actor (regOf w)
    (regOf (fst (bindM (liftM r) (fun c => bindM (withMembership (fn c)) k) w))).
Proof.
  intros Hk Hact. unfold bindM at 1, liftM. destruct r as [c|e]; [|constructor].
  by rewrite membership_reg.
Qed.

Lemma bind_pair_keeps {A B C} (k : A -> B -> op C) :
  (forall a b, keeps (k a b)) -> forall x : A * B, keeps (let '(a, b) := x in k a b).
Proof. intros Hk [a b]. apply Hk. Qed.

Lemma service_acts {A} (m : op A) w :
  service_call m -> acts_as actorID (regOf w) (regOf (fst (m w))).
Proof.
  pose proof actorID_trimmed as Ht.
  assert (Hk : forall m : op A, keeps m -> acts_as actorID (regOf w) (regOf (fst (m w))))
    by (intros m' Hm; rewrite Hm; constructor).
  assert (Hl : forall f, local_call NewLimiter AllowN Persist hasMemberNotify GenerateEventID
            (TrimSpace actorID) f -> acts_as actorID (regOf w) (w_reg (f (sv_world w)))).
  { intros f. rewrite Ht. intros Hf. by apply (aa_local _ _ f). }
  destruct 1; try (apply Hk; done).
  - unfold CreateGroup. rewrite membership_reg; [by apply aa_create|].
    apply bind_pair_keeps. eauto with keeps.
  - apply Hk. intros w'. unfold ListGroups. by destruct (TrimSpace actorID == "").
  - unfold LeaveGroup. rewrite membership_reg; [apply (Hl _ (call_leave _ _ _ _ _ g actorID now hasAbuse))|].
    apply bind_pair_keeps. eauto with keeps.
  - unfold UpdateGroupTitle. rewrite membership_reg;
      [apply (Hl _ (call_title _ _ _ _ _ g actorID t now hasAbuse))|].
    apply bind_pair_keeps. eauto with keeps.
  - unfold UpdateGroupProfile. rewrite membership_reg;
      [apply (Hl _ (call_profile _ _ _ _ _ g actorID t d a now hasAbuse))|].
    apply bind_pair_keeps. eauto with keeps.
  - unfold DeleteGroup. rewrite membership_reg; [by apply aa_delete|]. eauto with keeps.
  - unfold InviteToGroup. apply lift_membership_reg; [apply bind_pair_keeps; eauto with keeps|].
    intros c. apply (Hl _ (call_invite _ _ _ _ _ g actorID c now IsBlockedSender hasAbuse)).
  - unfold AcceptGroupInvite. rewrite membership_reg;
      [apply (Hl _ (call_accept _ _ _ _ _ g actorID now hasAbuse))|].
    apply bind_pair_keeps. eauto with keeps.
  - unfold DeclineGroupInvite. rewrite membership_reg;
      [apply (Hl _ (call_decline _ _ _ _ _ g actorID now hasAbuse))|].
    apply bind_pair_keeps. eauto with keeps.
  - unfold RemoveGroupMember. apply lift_membership_reg; [apply bind_pair_keeps; eauto with keeps|].
    intros c. apply (Hl _ (call_remove _ _ _ _ _ g actorID c now hasAbuse)).
  - unfold PromoteGroupMember, changeGroupMemberRole. apply lift_membership_reg;
      [apply bind_pair_keeps; eauto with keeps|].
    intros c. apply (Hl _ (call_role _ _ _ _ _ g actorID c _ now hasAbuse)).
  - unfold DemoteGroupMember, changeGroupMemberRole. apply lift_membership_reg;
      [apply bind_pair_keeps; eauto with keeps|].
    intros c. apply (Hl _ (call_role _ _ _ _ _ g actorID c _ now hasAbuse)).
  - apply Hk, keeps_fanout.
  - apply Hk, keeps_send_thread.
  - apply Hk. unfold SendGroupMessageInThread. apply keeps_if; [done|apply keeps_send_thread].
  - apply Hk. unfold DeleteGroupMessage. apply keeps_bind; [|intros; apply keeps_note]. intros w'.
    by destruct (GroupMessaging.DeleteGroupMessage _ _ _ _ _).
Qed.

(** The whole group API acts for the local identity only. Every call of the service, with any
    arguments and outcome, leaves the group registry as it was or changes it exactly by one
    membership operation whose actor is the local identity; sending, listing and deleting
    messages never touch the registry. So everything proved of the membership operations
    (the access policy, the protection of owners, the invariant) holds of the API. *)
Theorem service_acts_for_local_identity {A} (m : op A) (w : W) :
  service_call m -> acts_as actorID (regOf w) (regOf (fst (m w))).
Proof. apply service_acts. Qed.

(** The registry invariant therefore holds after every call. *)
Lemma acts_as_inv actor reg reg' : acts_as actor reg reg' -> reg_inv reg -> reg_inv reg'.
Proof.
  destruct 1 as [|f w Hf <-|t w <-|g w <-]; intros Hinv; [done|..].
  - eapply local_commit_inv; [by eapply local_call_policy|done].
  - by apply CreateGroup_inv.
  - by apply DeleteGroup_inv.
Qed.

(** The group list is exact. On a sound registry, [ListGroups] of a known local identity
    returns, without duplicates, exactly the groups in which the identity is an active or
    invited member. *)
Theorem ListGroups_exact (w w' : W) (groups : list Group) :
  reg_inv (regOf w) -> actorID <> "" -> ListGroups w = (w', Ok groups) ->
  NoDup groups
  /\ forall g, g ∈ groups <->
       exists st m, view (regOf w) !! g_ID g = Some st /\ s_Group st = g
         /\ s_Members st !! actorID = Some m
         /\ (m_Status m = GroupMemberStatusActive \/ m_Status m = GroupMemberStatusInvited).
Proof.
  intros Hinv Hact. unfold ListGroups. rewrite actorID_trimmed, bool_decide_false by done.
  intros [= _ <-]. fold (regOf w). set (vs := snapshotStates w).
  assert (Hid : forall k st, vs !! k = Some st -> g_ID (s_Group st) = k).
  { intros k st Hk. unfold vs, snapshotStates, view in Hk. rewrite lookup_fmap in Hk.
    fold (regOf w) in Hk. destruct (states (regOf w) !! k) as [r|] eqn:Er; [|done].
    injection Hk as <-. by apply (ro_key _ (ri_ok _ Hinv)). }
  assert (Hperm : GroupMessaging.ListGroups vs ≡ₚ (fun kst => s_Group kst.2) <$> map_to_list vs).
  { unfold GroupMessaging.ListGroups. rewrite sortSlice_perm, <- list_fmap_compose.
    unfold compose. by rewrite rangeMap_perm. }
  split.
  - apply NoDup_filter. rewrite Hperm. apply (NoDup_fmap_1 g_ID). rewrite <- list_fmap_compose.
    rewrite (list_fmap_ext _ fst (map_to_list vs)); [apply NoDup_fst_map_to_list|].
    intros i [k st] Hin%list_elem_of_lookup_2. apply elem_of_map_to_list in Hin. cbn. by apply Hid.
  - intros g. rewrite list_elem_of_filter, Hperm, list_elem_of_fmap. unfold listedFor. split.
    + intros [Hl ([k st] & -> & Hin)]. apply elem_of_map_to_list in Hin. cbn in Hl |- *.
      rewrite (Hid _ _ Hin), Hin in Hl. destruct (s_Members st !! actorID) as [m|] eqn:Em; [|done].
      exists st, m. rewrite (Hid _ _ Hin). repeat split; [done|done|].
      apply orb_prop_elim in Hl. by rewrite !bool_decide_spec in Hl.
    + intros (st & m & Hg & <- & Hm & Hs). change (view (regOf w)) with vs in Hg. rewrite Hg, Hm. split.
      * apply orb_prop_intro. by rewrite !bool_decide_spec.
      * exists (g_ID (s_Group st), st). split; [done|]. by apply elem_of_map_to_list.
Qed.
End Service.

(** ** Witnesses *)

Definition ex_service : ServiceWorld StoreRepo Z Z nat := mkServiceWorld ex_world ex_repo [].

Lemma service_acts_for_local_identity_witness :
  acts_as ex_NewLimiter ex_AllowN 9 true None true (Some ex_generateID) (Some ex_gen) "alice"
    (ex_registry 1)
    (regOf (fst (CreateGroup (Some " alice") 9 None true (Some ex_generateID) "team" ex_service))).
Proof.
  exact (service_acts_for_local_identity ex_NewLimiter ex_AllowN reverse (Some " alice") 9 true None
    true (Some ex_generateID) (Some ex_gen) None None (Some ex_publish) (fun _ _ => retM false)
    (fun _ _ _ _ _ => []) (fun _ _ _ _ _ _ => []) (rt := exRuntime) (fun _ l => l)
    (CreateGroup (Some " alice") 9 None true (Some ex_generateID) "team") ex_service
    (sv_create ex_NewLimiter ex_AllowN reverse (Some " alice") 9 true None
       true (Some ex_generateID) (Some ex_gen) None None (Some ex_publish) (fun _ _ => retM false)
       (fun _ _ _ _ _ => []) (fun _ _ _ _ _ _ => []) (rt := exRuntime) (fun _ l => l) "team")).
Defined.

Lemma ListGroups_exact_witness :
  ex_group ∈ [ex_group] <->
  exists st m, view (ex_registry 1) !! "g1" = Some st /\ s_Group st = ex_group
    /\ s_Members st !! "carol" = Some m
    /\ (m_Status m = GroupMemberStatusActive \/ m_Status m = GroupMemberStatusInvited).
Proof.
  apply (ListGroups_exact (Some "carol") (rt := exRuntime) ex_service ex_service [ex_group]).
  - apply ex_world_inv.
  - vm_compute. discriminate.
  - vm_compute. reflexivity.
Defined.
