(* ===== verification/BlobAccess.v ===== *)
(** * Who may have a blob

    Models internal/composition/daemonservice/blob_acl.go, blob_feature_flags.go and the parsing of
    blob_replication_mode.go. The access rules look at the identity, the node binding and the
    groups of the daemon; the groups are a record of two calls ([GroupDirectory]), which the group
    service implements ([serviceDirectory]). The line a refusal writes to the log is left out. *)
From S2P Require Import Prelude SecureStore Identity NodeBinding GroupModel RateLimiter ServingLimits GroupMembership GroupMessaging GroupService.
From stdpp Require Import base gmap strings list sets option.
From Stdlib Require Import ZArith Lia Sorted.
Open Scope string_scope.
Open Scope Z_scope.
Open Scope go_scope.

(** ** Replication mode *)

Definition errInvalidBlobReplicationMode : error := errorsNew "invalid blob replication mode".

(** The texts of the modes. *)
Definition replicationModeText (m : blobReplicationMode) : string :=
  match m with
  | blobReplicationModeOnDemand => "on_demand"
  | blobReplicationModePinnedOnly => "pinned_only"
  | blobReplicationModeNone => "none"
  end.

Definition parseBlobReplicationMode `{GoLower} (raw : string) : result error blobReplicationMode :=
  let mode := ToLower (TrimSpace raw) in
  if mode == "" then Ok blobReplicationModeOnDemand else
  if mode == "on_demand" then Ok blobReplicationModeOnDemand else
  if mode == "pinned_only" then Ok blobReplicationModePinnedOnly else
  if mode == "none" then Ok blobReplicationModeNone else Err errInvalidBlobReplicationMode.

Definition resolveBlobReplicationModeFromEnv `{GoLower} (getenv : string -> string) : blobReplicationMode :=
  match parseBlobReplicationMode (envString getenv "AIM_BLOB_REPLICATION_MODE") with
  | Err _ => blobReplicationModeOnDemand
  | Ok mode => mode
  end.

(** ** Feature flags *)

Record blobFeatureFlags := mkFlags { announceEnabled : bool; fetchEnabled : bool; rolloutPercent : Z }.

Definition blobProviderAnnounceEnv : string := "AIM_BLOB_PROVIDER_ANNOUNCE_ENABLED".
Definition blobProviderFetchEnv : string := "AIM_BLOB_PROVIDER_FETCH_ENABLED".
Definition blobProviderRolloutPercentEnv : string := "AIM_BLOB_PROVIDER_ROLLOUT_PERCENT".

Definition clampRolloutPercent (raw : Z) : Z := if raw <? 0 then 0 else if 100 <? raw then 100 else raw.

Definition resolveBlobFeatureFlagsFromEnv `{GoLower} (getenv : string -> string)
    : blobFeatureFlags :=
  mkFlags (envBoolWithFallback getenv blobProviderAnnounceEnv true)
    (envBoolWithFallback getenv blobProviderFetchEnv true)
    (clampRolloutPercent (envIntWithFallback getenv blobProviderRolloutPercentEnv 100)).

(** hash/fnv.New32a *)
Definition fnv32a (bs : list Z) : Z := fold_left (fun h b => u32 (Z.lxor h b * 16777619)) bs 2166136261.

Definition allowsPeer (f : blobFeatureFlags) (peerID : string) : bool :=
  let peerID := TrimSpace peerID in
  if peerID == "" then false else
  if rolloutPercent f <=? 0 then false else
  if 100 <=? rolloutPercent f then true else
  fnv32a (string_bytes peerID) mod 100 <? rolloutPercent f.

Example fnv32a_known : fnv32a (string_bytes "foobar") = 3214735720.
Proof. vm_compute. reflexivity. Qed.

(** A peer that is in stays in when the percentage grows; 0 lets nobody in, 100 everybody. *)
Theorem rollout_is_monotone (a a' b b' : bool) (percent percent' : Z) (peerID : string) :
  (percent <= percent' -> allowsPeer (mkFlags a b percent) peerID = true ->
   allowsPeer (mkFlags a' b' percent') peerID = true)
  /\ allowsPeer (mkFlags a b 0) peerID = false
  /\ (TrimSpace peerID <> "" -> allowsPeer (mkFlags a b 100) peerID = true).
Proof.
  unfold allowsPeer. cbn [rolloutPercent]. split_and!.
  - intros Hle. destruct (_ == ""); [done|].
    destruct (Z.leb_spec percent 0); [done|]. rewrite (proj2 (Z.leb_gt percent' 0)) by lia.
    destruct (Z.leb_spec 100 percent); intros H'.
    + by rewrite (proj2 (Z.leb_le 100 percent')) by lia.
    + apply Z.ltb_lt in H'. destruct (Z.leb_spec 100 percent'); [done|]. apply Z.ltb_lt. lia.
  - by destruct (_ == "").
  - intros H. by rewrite bool_decide_false.
Qed.

(** ** The access policy *)

Definition blobACLModeEnv : string := "AIM_BLOB_ACL_MODE".
Definition blobACLAllowlistEnv : string := "AIM_BLOB_ACL_ALLOWLIST".

Definition blobACLModeOwnerOnly : string := "owner_only".
Definition blobACLModeOwnerContacts : string := "owner_contacts".
Definition blobACLModeOwnerGroupsMember : string := "owner_groups_members".
Definition blobACLModeAllowlist : string := "allowlist".

Record blobACLPolicy := mkACL { acl_Mode : string; acl_Allowlist : gset string }.

(** models.BlobACLPolicy *)
Record BlobACLView := mkACLView { av_Mode : string; av_Allowlist : list string; av_Enforced : bool }.

Definition parseBlobACLMode `{GoLower} (raw : string) : result error string :=
  let mode := ToLower (TrimSpace raw) in
  if mode == blobACLModeOwnerOnly then Ok blobACLModeOwnerOnly else
  if mode == blobACLModeOwnerContacts then Ok blobACLModeOwnerContacts else
  if mode == blobACLModeOwnerGroupsMember then Ok blobACLModeOwnerGroupsMember else
  if mode == blobACLModeAllowlist then Ok blobACLModeAllowlist
  else Err (errorsNew "invalid blob acl mode").

Definition normalizeBlobACLAllowlist (raw : list string) : gset string :=
  fold_left (fun out item =>
    let peerID := TrimSpace item in
    if peerID == "" then out else {[peerID]} ∪ out) raw ∅.

Definition resolveBlobACLPolicyFromEnv `{GoLower} (getenv : string -> string) : blobACLPolicy :=
  let mode := match parseBlobACLMode (envString getenv blobACLModeEnv) with
              | Err _ => blobACLModeOwnerContacts
              | Ok mode => mode
              end in
  mkACL mode (normalizeBlobACLAllowlist (envCSV getenv blobACLAllowlistEnv)).

Definition blobACLAllowlistSlice `{GoRuntime} (input : gset string) : list string :=
  sortSlice String.ltb (rangeMap (gset_to_gmap tt input)).*1.

(** ** Access *)

(** What the access rules ask the group service. *)
Record GroupDirectory := mkDirectory {
  gd_ListGroups : result error (list Group);
  gd_ListGroupMembers : string -> result error (list GroupMember)
}.

Definition serviceDirectory {S F L G} `{GoRuntime} (IdentityID : option string)
    (w : ServiceWorld S F L G) : GroupDirectory :=
  mkDirectory (snd (GroupService.ListGroups IdentityID w))
    (fun groupID => snd (GroupService.ListGroupMembers groupID w)).

(** The fields of the daemon's Service that the rules read. *)
Record Access := mkAccess {
  ac_identityManager : Manager; ac_bindingStore : nodeBindingStore; ac_policy : blobACLPolicy;
  ac_groups : GroupDirectory
}.

Definition localPeerID (s : Access) : string := TrimSpace (id_ID (im_identity (ac_identityManager s))).

Definition isBlobACLEnforced (s : Access) : bool :=
  let identityID := localPeerID s in
  if identityID == "" then false else
  match bindingGet identityID (ac_bindingStore s) with Some _ => true | None => false end.

(** One pass over the members: whether the owner and the requester are active. *)
Definition activePair (owner requester : string) (members : list GroupMember) : bool * bool :=
  fold_left (fun '(ownerActive, requesterActive) member =>
    let memberID := TrimSpace (m_MemberID member) in
    if negb (m_Status member == GroupMemberStatusActive) then (ownerActive, requesterActive) else
    ((memberID == owner) || ownerActive, (memberID == requester) || requesterActive))
    members (false, false).

Definition hasSharedActiveGroupWithOwner (requesterPeerID ownerID : string) (d : GroupDirectory) : bool :=
  match gd_ListGroups d with
  | Err _ => false
  | Ok groups =>
      existsb (fun group =>
        match gd_ListGroupMembers d (g_ID group) with
        | Err _ => false
        | Ok members => let '(o, r) := activePair ownerID requesterPeerID members in o && r
        end) groups
  end.

Definition isBlobOperationAllowed (requesterPeerID : string) (s : Access) : bool * string :=
  if negb (isBlobACLEnforced s) then (true, "") else
  let ownerID := TrimSpace (localPeerID s) in
  let requesterPeerID := TrimSpace requesterPeerID in
  if (ownerID == "") || (requesterPeerID == "") then (false, "missing_subject") else
  if requesterPeerID == ownerID then (true, "") else
  let mode := acl_Mode (ac_policy s) in
  if mode == blobACLModeOwnerOnly then (false, "owner_only") else
  if mode == blobACLModeOwnerContacts then
    if HasContact (ac_identityManager s) requesterPeerID then (true, "") else (false, "not_contact") else
  if mode == blobACLModeOwnerGroupsMember then
    if HasContact (ac_identityManager s) requesterPeerID then (true, "") else
    if hasSharedActiveGroupWithOwner requesterPeerID ownerID (ac_groups s) then (true, "")
    else (false, "no_shared_group") else
  if mode == blobACLModeAllowlist then
    if bool_decide (requesterPeerID ∈ acl_Allowlist (ac_policy s)) then (true, "")
    else (false, "not_in_allowlist") else
  (false, "invalid_mode").

Definition authorizeBlobOperation (requesterPeerID : string) (s : Access) : result error unit :=
  if fst (isBlobOperationAllowed requesterPeerID s) then Ok tt else Err ErrAttachmentAccessDenied.

Definition GetBlobACLPolicy `{GoRuntime} (s : Access) : BlobACLView :=
  mkACLView (acl_Mode (ac_policy s)) (blobACLAllowlistSlice (acl_Allowlist (ac_policy s)))
    (isBlobACLEnforced s).

Definition SetBlobACLPolicy `{GoRuntime} `{GoLower} (mode : string) (allowlist : list string)
    : M Access error BlobACLView := fun s =>
  match parseBlobACLMode mode with
  | Err err => (s, Err err)
  | Ok parsedMode =>
      let s := mkAccess (ac_identityManager s) (ac_bindingStore s)
                 (mkACL parsedMode (normalizeBlobACLAllowlist allowlist)) (ac_groups s) in
      (s, Ok (GetBlobACLPolicy s))
  end.

(** ** Access is exact *)

(** [peer] is listed as an active member. *)
Definition active_in (peer : string) (members : list GroupMember) : Prop :=
  exists m, m ∈ members /\ TrimSpace (m_MemberID m) = peer /\ m_Status m = GroupMemberStatusActive.

(** A group of the directory lists both as active members. *)
Definition share_group (owner requester : string) (d : GroupDirectory) : Prop :=
  exists groups group members,
    gd_ListGroups d = Ok groups /\ group ∈ groups /\ gd_ListGroupMembers d (g_ID group) = Ok members
    /\ active_in owner members /\ active_in requester members.

Lemma active_in_cons peer m members :
  active_in peer (m :: members)
  <-> (TrimSpace (m_MemberID m) = peer /\ m_Status m = GroupMemberStatusActive) \/ active_in peer members.
Proof.
  split.
  - intros (m' & [->|Hin]%elem_of_cons & H); [by left|right; by exists m'].
  - intros [H|(m' & Hin & H)]; [exists m|exists m']; split; set_solver.
Qed.

Lemma activePair_fold owner requester members a b :
  let '(o, r) := fold_left (fun '(ownerActive, requesterActive) member =>
    let memberID := TrimSpace (m_MemberID member) in
    if negb (m_Status member == GroupMemberStatusActive) then (ownerActive, requesterActive) else
    ((memberID == owner) || ownerActive, (memberID == requester) || requesterActive)) members (a, b) in
  (o = true <-> a = true \/ active_in owner members)
  /\ (r = true <-> b = true \/ active_in requester members).
Proof.
  revert a b. induction members as [|m members IH]; intros a b; cbn [fold_left].
  { assert (forall p, ~ active_in p []) as H by (intros p (m & Hm & _); by apply elem_of_nil in Hm).
    split; split; auto; intros [|H']; auto; by apply H in H'. }
  case_bool_decide as Hs; cbn [negb].
  - specialize (IH ((TrimSpace (m_MemberID m) == owner) || a) ((TrimSpace (m_MemberID m) == requester) || b)).
    destruct (fold_left _ _ _) as [o r]. destruct IH as [-> ->].
    rewrite !active_in_cons, !orb_true_iff, !bool_decide_eq_true. tauto.
  - specialize (IH a b). destruct (fold_left _ _ _) as [o r]. destruct IH as [-> ->].
    rewrite !active_in_cons. tauto.
Qed.

Lemma shared_group_iff requester owner d :
  hasSharedActiveGroupWithOwner requester owner d = true <-> share_group owner requester d.
Proof.
  unfold hasSharedActiveGroupWithOwner, share_group. destruct (gd_ListGroups d) as [groups|err].
  2: { split; [done|]. by intros (? & ? & ? & ? & _). }
  rewrite existsb_exists. split.
  - intros (group & Hin & H). apply list_elem_of_In in Hin. destruct (gd_ListGroupMembers d _) as [ms|] eqn:Em; [|done].
    unfold activePair in H. pose proof (activePair_fold owner requester ms false false) as Hf.
    destruct (fold_left _ _ _) as [o r]. apply andb_true_iff in H as [-> ->]. destruct Hf as [Ho Hr].
    exists groups, group, ms. split_and!; [done|done|done| |].
    + by destruct (proj1 Ho eq_refl).
    + by destruct (proj1 Hr eq_refl).
  - intros (gs & group & ms & [= <-] & Hin & Em & Ho & Hr). exists group. apply list_elem_of_In in Hin. split; [done|].
    rewrite Em. unfold activePair. pose proof (activePair_fold owner requester ms false false) as Hf.
    destruct (fold_left _ _ _) as [o r]. destruct Hf as [Hfo Hfr].
    by rewrite (proj2 Hfo (or_intror Ho)), (proj2 Hfr (or_intror Hr)).
Qed.

Lemma allowlist_elem raw peer :
  peer ∈ normalizeBlobACLAllowlist raw <-> peer <> "" /\ exists item, item ∈ raw /\ TrimSpace item = peer.
Proof.
  unfold normalizeBlobACLAllowlist.
  enough (forall acc : gset string, peer ∈ fold_left (fun out item =>
    let peerID := TrimSpace item in if peerID == "" then out else {[peerID]} ∪ out) raw acc
    <-> peer ∈ acc \/ (peer <> "" /\ exists item, item ∈ raw /\ TrimSpace item = peer)) as H.
  { rewrite H. split; [|by right]. intros [Hn|]; [|done]. by apply elem_of_empty in Hn. }
  induction raw as [|item raw IH]; intros acc; cbn [fold_left].
  { split; [by left|]. intros [|(_ & i & Hi & _)]; [done|]. by apply elem_of_nil in Hi. }
  rewrite IH. assert (Hc : (exists i, i ∈ item :: raw /\ TrimSpace i = peer)
    <-> TrimSpace item = peer \/ exists i, i ∈ raw /\ TrimSpace i = peer).
  { split; [intros (i & [->|Hi]%elem_of_cons & Ht); eauto|].
    intros [Ht|(i & Hi & Ht)]; [exists item|exists i]; split; set_solver. }
  rewrite Hc. case_bool_decide as He.
  - split; [naive_solver|]. intros [H|[H1 [H2|H3]]]; [by left| |by right]. congruence.
  - rewrite elem_of_union, elem_of_singleton. naive_solver.
Qed.

(** The switch over the mode. *)
Lemma mode_admits (mode : string) (contact shared listed : bool) :
  fst (if mode == blobACLModeOwnerOnly then (false, "owner_only") else
       if mode == blobACLModeOwnerContacts then if contact then (true, "") else (false, "not_contact") else
       if mode == blobACLModeOwnerGroupsMember then
         if contact then (true, "") else if shared then (true, "") else (false, "no_shared_group") else
       if mode == blobACLModeAllowlist then if listed then (true, "") else (false, "not_in_allowlist") else
       (false, "invalid_mode")) = true
  <-> ((mode = "owner_contacts" \/ mode = "owner_groups_members") /\ contact = true)
      \/ (mode = "owner_groups_members" /\ shared = true) \/ (mode = "allowlist" /\ listed = true).
Proof.
  unfold blobACLModeOwnerOnly, blobACLModeOwnerContacts, blobACLModeOwnerGroupsMember, blobACLModeAllowlist.
  repeat case_bool_decide; subst; destruct contact, shared, listed; cbn [fst];
    split; intros; intuition (discriminate || congruence).
Qed.

(** Access to blobs is exact. Rules are in force exactly when there is a local identity and it
    is bound to a node. While they are not, everybody is admitted; while they are, a requester is
    admitted exactly when it is the owner itself, or the mode names it: a contact under the modes
    for contacts and for groups, an active member of a group in which the owner is active too
    under the mode for groups, and an entry of the list under the mode for lists, where the
    entries are the non-blank identifiers that were set. Everybody else gets the access error. *)
Theorem blob_access_is_exact (requester : string) (raw : list string) (s : Access) :
  let owner := TrimSpace (id_ID (im_identity (ac_identityManager s))) in
  let peer := TrimSpace requester in
  let mode := acl_Mode (ac_policy s) in
  (isBlobACLEnforced s = true <-> owner <> "" /\ is_Some (nb_bindings (ac_bindingStore s) !! owner))
  /\ (authorizeBlobOperation requester s = Ok tt
      <-> isBlobACLEnforced s = false
          \/ (peer <> "" /\ (peer = owner
               \/ ((mode = "owner_contacts" \/ mode = "owner_groups_members")
                   /\ HasContact (ac_identityManager s) peer = true)
               \/ (mode = "owner_groups_members" /\ share_group owner peer (ac_groups s))
               \/ (mode = "allowlist" /\ peer ∈ acl_Allowlist (ac_policy s)))))
  /\ (authorizeBlobOperation requester s <> Ok tt ->
      authorizeBlobOperation requester s = Err ErrAttachmentAccessDenied)
  /\ (peer ∈ normalizeBlobACLAllowlist raw <-> peer <> "" /\ exists item, item ∈ raw /\ TrimSpace item = peer).
Proof.
  cbv zeta. set (owner := TrimSpace (id_ID _)). set (peer := TrimSpace requester).
  assert (Ht : TrimSpace owner = owner) by apply TrimSpace_idemp.
  assert (Henf : isBlobACLEnforced s = true <-> owner <> "" /\ is_Some (nb_bindings (ac_bindingStore s) !! owner)).
  { unfold isBlobACLEnforced, localPeerID, bindingGet. fold owner. rewrite Ht. case_bool_decide as Ho.
    - split; [done|]. by intros [? _].
    - destruct (nb_bindings _ !! owner).
      + split; [|done]. intros _. split; [done|by eexists].
      + split; [done|]. by intros [_ [? ?]]. }
  split_and!; [done| | |apply allowlist_elem].
  2: { unfold authorizeBlobOperation. by destruct (fst _). }
  unfold authorizeBlobOperation, isBlobOperationAllowed, localPeerID. fold owner. rewrite Ht.
  destruct (isBlobACLEnforced s) eqn:Ee; cbn [negb fst]; [|split; [by left|done]].
  destruct (proj1 Henf eq_refl) as [Ho _]. rewrite (bool_decide_false (owner = "")) by done. cbn [orb].
  fold peer. rewrite <- (shared_group_iff peer owner).
  destruct (decide (peer = "")) as [->|Hp].
  { rewrite bool_decide_true by done. cbn [fst]. split; [done|]. intros [|[? _]]; done. }
  rewrite (bool_decide_false (peer = "")) by done.
  destruct (decide (peer = owner)) as [->|Hne].
  { rewrite bool_decide_true by done. cbn [fst]. split; [|done]. intros _. right. split; [done|by left]. }
  rewrite (bool_decide_false (peer = owner)) by done.
  pose proof (mode_admits (acl_Mode (ac_policy s)) (HasContact (ac_identityManager s) peer)
    (hasSharedActiveGroupWithOwner peer owner (ac_groups s))
    (bool_decide (peer ∈ acl_Allowlist (ac_policy s)))) as Hm.
  rewrite bool_decide_eq_true in Hm. destruct (fst _).
  - split; [|done]. intros _. right. split; [done|]. right. by apply Hm.
  - split; [done|]. intros [|[_ [|H]]]; [done|done|]. by apply Hm in H.
Qed.
