(* ===== verification/BlobProviders.v ===== *)
(** * The registry of blob providers

    Models internal/composition/daemonservice/blob_provider_registry.go. A provider is announced with
    a function that fetches from it; here that is a value of a type [P], and BlobService says
    what calling it does. *)
From S2P Require Import Prelude RateLimiter.
From stdpp Require Import base gmap strings list sets option.
From Stdlib Require Import ZArith Lia Sorted.
Open Scope string_scope.
Open Scope Z_scope.
Open Scope go_scope.

Section Registry.
(** The numbers of golang.org/x/time/rate, its limiter, and the functions that are announced. *)
Context {F : Type}.
Context {L : Type} (NewLimiter : F -> Z -> L) (AllowN : L -> Z -> Z -> L * bool).
Context {P : Type}.

Record blobProviderEntry := mkProvider { pv_peerID : string; pv_expires : Z; pv_fetchFn : P }.

Abbreviation Providers := (gmap string blobProviderEntry).

Record blobProviderRegistry := mkProviders {
  pr_byBlob : gmap string Providers; pr_announce : option (@MapLimiter F L); pr_fetch : option (@MapLimiter F L)
}.

Definition with_byBlob (r : blobProviderRegistry) (b : gmap string Providers) : blobProviderRegistry :=
  mkProviders b (pr_announce r) (pr_fetch r).

Definition newBlobProviderRegistry (float_le0 : F -> bool) (float_of : Z -> F) : blobProviderRegistry :=
  mkProviders ∅ (New float_le0 (float_of 25) 50 (10 * Minute)) (New float_le0 (float_of 40) 80 (10 * Minute)).

(** [fetchFn] is nil for [None]. *)
Definition announceBlob (blobID peerID : string) (ttl : Z) (fetchFn : option P) (now : Z)
    : M blobProviderRegistry error unit := fun r =>
  let blobID := TrimSpace blobID in
  let peerID := TrimSpace peerID in
  match fetchFn with
  | None => (r, Err (errorsNew "invalid provider announcement"))
  | Some fetchFn =>
      if (blobID == "") || (peerID == "") then (r, Err (errorsNew "invalid provider announcement")) else
      if ttl <=? 0 then (r, Err (errorsNew "invalid provider ttl")) else
      let '(l, ok) := Allow NewLimiter AllowN (pr_announce r) peerID now in
      let r := mkProviders (pr_byBlob r) l (pr_fetch r) in
      if negb ok then (r, Err (errorsNew "provider announce rate limit exceeded")) else
      let providers := default ∅ (pr_byBlob r !! blobID) in
      (with_byBlob r (<[blobID := <[peerID := mkProvider peerID (now + ttl) fetchFn]> providers]> (pr_byBlob r)),
       Ok tt)
  end.

(** The longest-lived first, equal ones by peer. *)
Definition candidateBefore (a b : blobProviderEntry) : bool :=
  if pv_expires a =? pv_expires b then String.ltb (pv_peerID a) (pv_peerID b)
  else After (pv_expires a) (pv_expires b).

Definition unexpired (now : Z) (p : blobProviderEntry) : bool := After (pv_expires p) now.

Definition listProviders `{GoRuntime} (blobID : string) (now : Z) (r : blobProviderRegistry)
    : blobProviderRegistry * list blobProviderEntry :=
  let blobID := TrimSpace blobID in
  if blobID == "" then (r, []) else
  let providers := default ∅ (pr_byBlob r !! blobID) in
  if (size providers =? 0)%nat then (r, []) else
  let candidates := filter (fun p => unexpired now p = true) (rangeMap providers).*2 in
  let kept := filter (fun kp => unexpired now kp.2 = true) providers in
  (with_byBlob r (if (size kept =? 0)%nat then delete blobID (pr_byBlob r)
                  else <[blobID := kept]> (pr_byBlob r)),
   sortSlice candidateBefore candidates).

Definition allowFetch (requesterPeerID providerPeerID : string) (now : Z) (r : blobProviderRegistry)
    : blobProviderRegistry * bool :=
  let key := TrimSpace requesterPeerID +:+ "->" +:+ TrimSpace providerPeerID in
  let '(l, ok) := Allow NewLimiter AllowN (pr_fetch r) key now in
  (mkProviders (pr_byBlob r) (pr_announce r) l, ok).

(** A peer out of the providers of a blob; a blob without providers goes. *)
Definition withoutPeer (peerID : string) (providers : Providers) : option Providers :=
  let providers := delete peerID providers in
  if (size providers =? 0)%nat then None else Some providers.

Definition removePeer (peerID : string) (r : blobProviderRegistry) : blobProviderRegistry :=
  let peerID := TrimSpace peerID in
  if peerID == "" then r else with_byBlob r (omap (withoutPeer peerID) (pr_byBlob r)).

Definition removeBlobPeer (blobID peerID : string) (r : blobProviderRegistry) : blobProviderRegistry :=
  let blobID := TrimSpace blobID in
  let peerID := TrimSpace peerID in
  if (blobID == "") || (peerID == "") then r else
  let providers := default ∅ (pr_byBlob r !! blobID) in
  if (size providers =? 0)%nat then r else
  with_byBlob r (partial_alter (fun _ => withoutPeer peerID providers) blobID (pr_byBlob r)).

(** ** What is announced *)

(** The announcement of a peer for a blob. *)
Definition announced (r : blobProviderRegistry) (blobID peerID : string) : option blobProviderEntry :=
  pr_byBlob r !! blobID ≫= (.!! peerID).

Lemma default_lookup (m : gmap string Providers) b p :
  default ∅ (m !! b) !! p = m !! b ≫= (.!! p).
Proof. destruct (m !! b); [done|]. apply lookup_empty. Qed.

Lemma withoutPeer_spec peer ps q :
  withoutPeer peer ps ≫= (.!! q) = if decide (q = peer) then None else ps !! q.
Proof.
  unfold withoutPeer. destruct (size (delete peer ps) =? 0)%nat eqn:Ez; cbn.
  - apply Nat.eqb_eq, map_size_empty_inv in Ez. destruct (decide (q = peer)); [done|].
    by rewrite <- (lookup_delete_ne ps peer q), Ez, lookup_empty.
  - destruct (decide (q = peer)) as [->|]; [apply lookup_delete_eq|by apply lookup_delete_ne].
Qed.

Lemma removePeer_spec peer r b q :
  announced (removePeer peer r) b q
  = if decide (q = TrimSpace peer /\ q <> "") then None else announced r b q.
Proof.
  unfold removePeer. case_bool_decide as Hp.
  { destruct (decide _) as [[-> ?]|]; [done|done]. }
  unfold announced. cbn [pr_byBlob with_byBlob]. rewrite lookup_omap.
  destruct (pr_byBlob r !! b) as [ps|]; cbn; [|by destruct (decide _)]. rewrite withoutPeer_spec.
  destruct (decide (q = _)) as [->|]; [by rewrite decide_True|]. rewrite decide_False; [done|]. tauto.
Qed.

Lemma removeBlobPeer_spec blob peer r b q :
  announced (removeBlobPeer blob peer r) b q
  = if decide (b = TrimSpace blob /\ q = TrimSpace peer /\ b <> "" /\ q <> "") then None else announced r b q.
Proof.
  unfold removeBlobPeer. destruct (_ || _) eqn:E.
  { apply orb_true_iff in E. rewrite !bool_decide_eq_true in E. rewrite decide_False; [done|].
    intros (-> & -> & ? & ?). tauto. }
  apply orb_false_iff in E as [Eb Ep]. apply bool_decide_eq_false in Eb, Ep.
  unfold announced. destruct (_ =? 0)%nat eqn:Ez.
  - apply Nat.eqb_eq, map_size_empty_inv in Ez. destruct (decide _) as [(-> & -> & _)|]; [|done].
    rewrite <- default_lookup, Ez. apply lookup_empty.
  - cbn [pr_byBlob with_byBlob]. destruct (decide (b = TrimSpace blob)) as [->|Hb].
    + rewrite lookup_partial_alter_eq, withoutPeer_spec, default_lookup.
      destruct (decide (q = TrimSpace peer)) as [->|]; [by rewrite decide_True|].
      rewrite decide_False; [done|tauto].
    + rewrite lookup_partial_alter_ne by done. rewrite decide_False; [done|tauto].
Qed.

Lemma announceBlob_spec blob peer ttl fn now r r' res b q :
  announceBlob blob peer ttl fn now r = (r', res) ->
  announced r' b q = announced r b q
  \/ (b = TrimSpace blob /\ q = TrimSpace peer /\ res = Ok tt
      /\ exists f, fn = Some f /\ announced r' b q = Some (mkProvider (TrimSpace peer) (now + ttl) f)).
Proof.
  unfold announceBlob. destruct fn as [f|]; [|intros [= <- _]; by left].
  destruct (_ || _); [intros [= <- _]; by left|]. destruct (ttl <=? 0); [intros [= <- _]; by left|].
  destruct (Allow _ _ _ _ _) as [l ok]. destruct ok; cbn [negb]; intros [= <- <-]; [|by left].
  unfold announced. cbn [pr_byBlob with_byBlob]. destruct (decide (b = TrimSpace blob)) as [->|Hb].
  2: { left. by rewrite lookup_insert_ne. }
  rewrite lookup_insert_eq. cbn. destruct (decide (q = TrimSpace peer)) as [->|Hq].
  - right. split_and!; [done..|]. exists f. by rewrite lookup_insert_eq.
  - left. rewrite lookup_insert_ne by done. apply default_lookup.
Qed.

Lemma allowFetch_byBlob req prov now r : pr_byBlob (fst (allowFetch req prov now r)) = pr_byBlob r.
Proof. unfold allowFetch. by destruct (Allow _ _ _ _ _). Qed.

(** Listing drops what has expired, and gives everything else of the blob. *)
Lemma listProviders_spec `{GoRuntime} blob now r r' cands :
  listProviders blob now r = (r', cands) ->
  (forall p, p ∈ cands <-> TrimSpace blob <> "" /\ unexpired now p = true
     /\ exists q, announced r (TrimSpace blob) q = Some p)
  /\ (forall b q p, announced r' b q = Some p -> announced r b q = Some p)
  /\ (forall b q p, announced r b q = Some p -> unexpired now p = true -> announced r' b q = Some p).
Proof.
  unfold listProviders. case_bool_decide as Hb.
  { intros [= <- <-]. split_and!; [|done|done]. intros p. split; [|by intros [? _]]. intros Hp. by apply elem_of_nil in Hp. }
  assert (Hann : forall q, announced r (TrimSpace blob) q = default ∅ (pr_byBlob r !! TrimSpace blob) !! q)
    by (intros q; unfold announced; by rewrite default_lookup).
  set (ps := default ∅ _) in *. destruct (size ps =? 0)%nat eqn:Ez.
  { apply Nat.eqb_eq, map_size_empty_inv in Ez. intros [= <- <-]. split_and!; [|done|done].
    intros p. split; [intros Hp; by apply elem_of_nil in Hp|]. intros (_ & _ & q & Hq).
    by rewrite Hann, Ez, lookup_empty in Hq. }
  intros [= <- <-]. split.
  { intros p. rewrite sortSlice_perm, list_elem_of_filter, list_elem_of_fmap. split.
    - intros (Hu & [q p'] & -> & Hin). rewrite rangeMap_perm, elem_of_map_to_list in Hin.
      split_and!; [done|done|]. exists q. by rewrite Hann.
    - intros (_ & Hu & q & Hq). split; [done|]. exists (q, p). split; [done|].
      rewrite rangeMap_perm, elem_of_map_to_list. by rewrite <- Hann. }
  set (kept := filter _ ps).
  assert (Hk : forall b q, announced (with_byBlob r
      (if (size kept =? 0)%nat then delete (TrimSpace blob) (pr_byBlob r) else <[TrimSpace blob := kept]> (pr_byBlob r))) b q
    = if decide (b = TrimSpace blob) then kept !! q else announced r b q).
  { intros b q. unfold announced. cbn [pr_byBlob with_byBlob]. destruct (size kept =? 0)%nat eqn:Ek, (decide (b = _)) as [->|].
    - apply Nat.eqb_eq, map_size_empty_inv in Ek. by rewrite Ek, lookup_delete_eq.
    - by rewrite lookup_delete_ne.
    - by rewrite lookup_insert_eq.
    - by rewrite lookup_insert_ne. }
  split; intros b q p; rewrite Hk; destruct (decide (b = _)) as [->|]; try done; unfold kept; rewrite Hann, map_lookup_filter_Some.
  - by intros [? _].
  - done.
Qed.
End Registry.
