(* ===== verification/Delivery.v ===== *)
(** * Publishing and retrying messages

    Models daemonservice/metadata_hardening.go, outbound_delivery.go, the publishing and retry part
    of service_runtime.go, [prepareAndPublishGroupMessage] of group_runtime_support.go and the
    pending queue of messaging/usecase/flows.go: a payload is padded to a size bucket, signed by
    the active device and handed to the network; what the network refuses is queued and tried
    again with growing delays. Log lines and metrics are left out. The daemon's state is the
    record [Node]. *)
From S2P Require Import Prelude Text SecureStore Session SessionSafety Privacy PrivacyService Identity IdentityStore MessageStore Inbox GroupModel Wire RateLimiter GroupRuntime GroupMembership GroupInbound GroupMessaging.
From stdpp Require Import base gmap strings list sets option.
From Stdlib Require Import ZArith Lia.
Open Scope string_scope.
Open Scope Z_scope.
Open Scope go_scope.

(** The parts of the daemon's [Service] that messages go through. [nd_sent] is what the network has
    taken; [nd_networking] says whether there is a network context. *)
Record Node (S : Type) := mkNode {
  nd_inbox : InboxWorld;
  nd_sessions : SkipHeap * S;
  nd_groups : InboundWorld;
  nd_networking : bool;
  nd_sent : list PrivateMessage
}.
Arguments mkNode {S} _ _ _ _ _.
Arguments nd_inbox {S} _. Arguments nd_sessions {S} _. Arguments nd_groups {S} _.
Arguments nd_networking {S} _. Arguments nd_sent {S} _.

Section Node.
Context {S : Type}.

Definition with_nd_inbox (n : Node S) (i : InboxWorld) : Node S :=
  mkNode i (nd_sessions n) (nd_groups n) (nd_networking n) (nd_sent n).
Definition with_nd_sessions (n : Node S) (s : SkipHeap * S) : Node S :=
  mkNode (nd_inbox n) s (nd_groups n) (nd_networking n) (nd_sent n).
Definition with_nd_groups (n : Node S) (g : InboundWorld) : Node S :=
  mkNode (nd_inbox n) (nd_sessions n) g (nd_networking n) (nd_sent n).
Definition with_nd_sent (n : Node S) (m : list PrivateMessage) : Node S :=
  mkNode (nd_inbox n) (nd_sessions n) (nd_groups n) (nd_networking n) (nd_sent n ++ m)%list.

Definition nd_manager (n : Node S) : Manager := iw_manager (ib_identity (nd_inbox n)).
Definition nd_messages (n : Node S) : MessageStore := ib_messages (nd_inbox n).
Definition nd_pending (n : Node S) : Pendings := ms_pending (nd_messages n).

Definition with_nd_manager (n : Node S) (m : Manager) : Node S :=
  with_nd_inbox n (with_ib_identity (nd_inbox n) (with_iw_manager (ib_identity (nd_inbox n)) m)).
Definition with_nd_messages (n : Node S) (s : MessageStore) : Node S :=
  with_nd_inbox n (with_ib_messages (nd_inbox n) s).

(** [s.notify] and [s.recordError] *)
Definition notify (n : Node S) (e : InboxNote) : Node S := with_nd_inbox n (with_ib_note (nd_inbox n) e).
Definition recordError (n : Node S) (category : string) (err : error) : Node S :=
  with_nd_inbox n (with_ib_error (nd_inbox n) category err).

(** A call of the message store, of the identity manager, of the session manager. *)
Definition atMessages {A} (m : M MessageStore error A) : M (Node S) error A := fun n =>
  let '(s, r) := m (nd_messages n) in (with_nd_messages n s, r).
Definition atManager {A} (m : M Manager error A) : M (Node S) error A := fun n =>
  let '(s, r) := m (nd_manager n) in (with_nd_manager n s, r).
Definition atSessions {A} (m : M (SkipHeap * S) error A) : M (Node S) error A := fun n =>
  let '(s, r) := m (nd_sessions n) in (with_nd_sessions n s, r).
End Node.

(** ** metadata_hardening.go *)

Definition sizeBuckets : list Z := [256; 512; 1024; 2048; 4096; 8192].

Record outboundMetadataHardening := mkHardening {
  mh_enabled : bool; mh_batchWindow : Z; mh_jitterMax : Z
}.

Definition Repeat0 (n : Z) : string := String.string_of_list_ascii (replicate (Z.to_nat n) (Ascii.ascii_of_nat 48)).

Section Hardening.
Context {wcodec : JsonCodec WirePayload} {lower : GoLower}.

Definition isLatencyCritical (wire : WirePayload) : bool :=
  let kind := TrimSpace (ToLower (wp_Kind wire)) in (kind == "receipt") || (kind == "device_revoke").

(** The first bucket the payload fits into, 0 when there is none. *)
Definition targetSize (wire : WirePayload) : result error Z :=
  try! raw := marshalJSON wire in
  Ok (default 0 (head (filter (fun bucket => Z.of_nat (length raw) <= bucket) sizeBuckets))).

(** [for low <= high]: an exact padding ([inl]) or the best one found ([inr]). The interval shrinks
    in each round; [None] would be running out of fuel. *)
Fixpoint padLoop (fuel : nat) (wire : WirePayload) (target low high : Z) (best : string)
    : option (result error (string + string)) :=
  match fuel with
  | O => None
  | S fuel =>
      if negb (low <=? high) then Some (Ok (inr best)) else
      let mid := (low + high) / 2 in
      let pad := Repeat0 mid in
      match marshalJSON (with_wp_padding wire pad) with
      | Err err => Some (Err err)
      | Ok raw =>
          let size := Z.of_nat (length raw) in
          if size =? target then Some (Ok (inl pad)) else
          if size <? target then padLoop fuel wire target (mid + 1) high pad
          else padLoop fuel wire target low (mid - 1) best
      end
  end.

Definition padFuel (target : Z) : nat := (Z.to_nat target + 2)%nat.

(** The fuel is enough ([padLoop_total]), so the second case is never taken. *)
Definition buildPaddingForTarget (wire : WirePayload) (target : Z) : result error string :=
  match padLoop (padFuel target) wire target 0 target "" with
  | None => Err (errorsNew "unreachable")
  | Some r =>
      try! found := r in
      match found with
      | inl pad => Ok pad
      | inr best =>
          try! raw := marshalJSON (with_wp_padding wire best) in
          if target <? Z.of_nat (length raw)
          then Err (errorsNew "failed to fit payload into target size bucket") else Ok best
      end
  end.

(** [draw] is Int63n(jitterMax + 1). *)
Definition randomJitter (p : outboundMetadataHardening) (draw : Z) : Z :=
  if mh_jitterMax p <=? 0 then 0 else draw.

(** [None] for a nil receiver. *)
Definition harden (p : option outboundMetadataHardening) (draw : Z) (wire : WirePayload)
    : result error (WirePayload * Z) :=
  match p with
  | None => Ok (wire, 0)
  | Some p =>
      if negb (mh_enabled p) || isLatencyCritical wire then Ok (wire, 0) else
      let hardened := with_wp_padding wire "" in
      try! target := targetSize hardened in
      try! hardened :=
        (if 0 <? target
         then try! padding := buildPaddingForTarget hardened target in
              Ok (with_wp_padding hardened padding)
         else Ok hardened) in
      Ok (hardened, mh_batchWindow p + randomJitter p draw)
  end.
End Hardening.

(** [cancelled] is the error of a context that ends during the delay. *)
Definition waitWithContext (d : Z) (cancelled : option error) : option error :=
  if d <=? 0 then None else cancelled.

(** ** Publishing *)

(** What one publication meets: the jitter drawn, a cancellation of the delay, the network. *)
Record PublishEnv := mkPublish {
  pb_draw : Z; pb_cancelled : option error; pb_network : option error
}.

(** What one message of the queue meets. *)
Record RetryEnv := mkRetryEnv {
  re_get : StoreEnv; re_call : CallEnv; re_publish : PublishEnv; re_status : StoreEnv;
  re_pending : StoreEnv; re_now : Z
}.

Section Delivery.
Context {lower : GoLower} {errtext : GoErrorText}.
Context {crypto : IdentityCrypto} {cipher : Cipher} {ecodec : EnvelopeCodec} {mcodec : MessageCodec}.
Context {wcodec : JsonCodec WirePayload} {acodec : JsonCodec wireAuth}.
Context {R : Ratchet} {S : Type} {store : SessionStore S}.
Context (hardening : option outboundMetadataHardening).

Abbreviation node := (Node S).
Abbreviation op := (M node error).

(** [parent] is nil when there is no context. *)
Definition publishWithTimeout (hasContext : bool) (outcome : option error) (msg : PrivateMessage)
    : op unit := fun n =>
  if negb hasContext then (n, Err (errorsNew "publish context is not available")) else
  match outcome with
  | Some err => (n, Err err)
  | None => (with_nd_sent n [msg], Ok tt)
  end.

Definition wrap {A} (category : string) (r : result error A) : result error A :=
  match r with Ok a => Ok a | Err err => Err (WrapCategorizedError category err) end.

Definition publishSignedWireWithContext (pe : PublishEnv) (messageID recipient : string)
    (wire : WirePayload) : op unit :=
  let! '(hardenedWire, delay) := liftM (wrap ErrorCategoryAPI (harden hardening (pb_draw pe) wire)) in
  match waitWithContext delay (pb_cancelled pe) with
  | Some err => failM (WrapCategorizedError ErrorCategoryNetwork err)
  | None =>
      fun n =>
      match ComposeSignedPrivateMessage (nd_manager n) messageID recipient hardenedWire with
      | Err err => (n, Err err)
      | Ok wmsg =>
          let '(n, r) := publishWithTimeout true (pb_network pe) wmsg n in
          (n, wrap ErrorCategoryNetwork r)
      end
  end.

Definition networkContext (category : string) : op unit := fun n =>
  if nd_networking n then (n, Ok tt) else
  let err := errorsNew "networking is not started" in
  (n, Err (if category == "" then err else WrapCategorizedError category err)).

Definition notifyMessageStatus (messageID status : string) (n : node) : node :=
  match GetMessage (nd_messages n) messageID with
  | (_, false) => n
  | (msg, true) => notify n (NoteMessageStatus messageID (msg_ContactID msg) status)
  end.

Definition updateMessageStatusAndNotify (env : StoreEnv) (messageID status : string) (n : node)
    : node * bool :=
  match atMessages (UpdateMessageStatus env messageID status) n with
  | (n, Err err) => (recordError n ErrorCategoryStorage err, false)
  | (n, Ok _) => (notifyMessageStatus messageID status n, true)
  end.

Definition removePending (env : StoreEnv) (messageID : string) (n : node) : node :=
  match atMessages (RemovePending env messageID) n with
  | (n, Err err) => recordError n ErrorCategoryStorage err
  | (n, Ok _) => n
  end.

Definition markMessageAsSent (envStatus envPending : StoreEnv) (messageID : string) (n : node) : node :=
  removePending envPending messageID (fst (updateMessageStatusAndNotify envStatus messageID "sent" n)).

(** ** flows.go and usecase/service.go: the wire of a stored message *)

Definition BuildWireForOutboundMessage (env : StoreEnv) (ce : CallEnv) (msg : Message)
    : M (SkipHeap * S) error WirePayload :=
  (if msg_ContentType msg == "e2ee" then retM tt else
   let! session := GetSession env (msg_ContactID msg) in
   match session with None => failM ErrOutboundSessionRequired | Some _ => retM tt end) ;;!
  let! envelope := EncryptMessage ce (msg_ContactID msg) (msg_Content msg) in
  retM (sealedWire envelope).

(** Without a session the content goes out as it is, with the card of the sender. *)
Definition BuildStoredMessageWire (env : StoreEnv) (ce : CallEnv) (msg : Message) : op WirePayload :=
  fun n =>
  match atSessions (BuildWireForOutboundMessage env ce msg) n with
  | (n, Err err) =>
      if err == ErrOutboundSessionRequired then
        match SelfContactCard (nd_manager n) (id_ID (im_identity (nd_manager n))) with
        | Err _ => (n, Err (WrapCategorizedError ErrorCategoryCrypto err))
        | Ok card =>
            (n, Ok (with_wp_card (with_wp_thread (NewPlainWire (msg_Content msg))
                                    (TrimSpace (msg_ThreadID msg))) (Some card)))
        end
      else (n, Err (WrapCategorizedError ErrorCategoryCrypto err))
  | (n, Ok wire) => (n, Ok (with_wp_thread wire (TrimSpace (msg_ThreadID msg))))
  end.

(** ** outbound_delivery.go *)

Definition sendReceipt (now : Z) (wireID : result error string) (pe : PublishEnv)
    (contactID messageID status : string) : op unit :=
  let! n := getM in
  rejectM (negb (HasVerifiedContact (nd_manager n) contactID))
    (errorsNew "receipt target is not a verified contact") ;;!
  let wire := NewReceiptWire messageID status now in
  let! wireID := liftM wireID in
  networkContext "network" ;;!
  publishSignedWireWithContext pe wireID contactID wire.

(** What [publishQueuedMessage] meets; the clock is read for the first retry. *)
Record QueueEnv := mkQueueEnv {
  qe_publish : PublishEnv; qe_now : Z; qe_pending : StoreEnv; qe_status : StoreEnv; qe_remove : StoreEnv
}.

Definition publishQueuedMessage (qe : QueueEnv) (msg : Message) (contactID : string)
    (wire : WirePayload) : op string := fun n =>
  match (networkContext "network" ;;!
         publishSignedWireWithContext (qe_publish qe) (msg_ID msg) contactID wire) n with
  | (n, Ok _) => (markMessageAsSent (qe_status qe) (qe_remove qe) (msg_ID msg) n, Ok (msg_ID msg))
  | (n, Err err) =>
      let category := ErrorCategory err in
      let n := recordError n category err in
      if category == ErrorCategoryNetwork then
        match atMessages (AddOrUpdatePending (qe_pending qe) msg 1 (NextRetryTime (qe_now qe) 1)
                            (ErrorText err)) n with
        | (n, Err perr) => (recordError n ErrorCategoryStorage perr, Err perr)
        | (n, Ok _) => (n, Ok (msg_ID msg))
        end
      else (n, Err err)
  end.

(** ** service_runtime.go: the queue *)

(** Go's [int] of the count is not cut to 64 bits: the queue holds no count above 8. *)
Definition handleRetryPublishError (re : RetryEnv) (p : PendingMessage) (err : error) (n : node) : node :=
  let n := recordError n (ErrorCategory err) err in
  let id := msg_ID (pm_Message p) in
  let nextCount := pm_RetryCount p + 1 in
  if 8 <? nextCount then
    removePending (re_pending re) id (fst (updateMessageStatusAndNotify (re_status re) id "failed" n))
  else
    match atMessages (AddOrUpdatePending (re_pending re) (pm_Message p) nextCount
                        (NextRetryTime (re_now re) nextCount) (ErrorText err)) n with
    | (n, Err perr) => recordError n ErrorCategoryStorage perr
    | (n, Ok _) => n
    end.

Definition handleStartupPublishError (re : RetryEnv) (p : PendingMessage) (err : error) (n : node) : node :=
  recordError n (ErrorCategory err) err.

(** The body of the loop of [ProcessPendingMessages]. *)
Definition processPending (re : RetryEnv)
    (onPublishError : RetryEnv -> PendingMessage -> error -> node -> node)
    (p : PendingMessage) (n : node) : node :=
  let msg := pm_Message p in
  match (let! wire := BuildStoredMessageWire (re_get re) (re_call re) msg in
         publishSignedWireWithContext (re_publish re) (msg_ID msg) (msg_ContactID msg) wire) n with
  | (n, Err err) => onPublishError re p err n
  | (n, Ok _) => markMessageAsSent (re_status re) (re_pending re) (msg_ID msg) n
  end.

(** The environments are named by message. *)
Definition processPendingBatch (envs : string -> RetryEnv) (pending : list PendingMessage)
    (onPublishError : RetryEnv -> PendingMessage -> error -> node -> node) (n : node) : node :=
  fold_left (fun n p => processPending (envs (msg_ID (pm_Message p))) onPublishError p n) pending n.

(** One tick of [runRetryLoop], as far as the queue is concerned. *)
Definition retryTick (rt : GoRuntime) (envs : string -> RetryEnv) (now : Z) (n : node) : node :=
  processPendingBatch envs (DuePending (nd_messages n) now) handleRetryPublishError n.

Definition recoverPendingOnStartup (rt : GoRuntime) (envs : string -> RetryEnv) (now : Z) (n : node) : node :=
  processPendingBatch envs (DuePending (nd_messages n) (now + StartupRecoveryLookahead))
    handleStartupPublishError n.

(** ** group_runtime_support.go *)

Definition groupWire (wire : WirePayload) (msg : Message) (meta : GroupMessageWireMeta) : WirePayload :=
  mkWirePayload (wp_Kind wire) (wp_Envelope wire) (wp_Plain wire) (wp_Padding wire)
    (wm_GroupID meta) ConversationTypeGroup (TrimSpace (msg_ThreadID msg)) (wm_EventID meta)
    GroupWireEventTypeMessage (wm_MembershipVersion meta) (wm_GroupKeyVersion meta)
    (wm_SenderDeviceID meta) (wp_Card wire) (wp_Receipt wire) (wp_Device wire) (wp_DeviceSig wire)
    (wp_Revocation wire).

(** The identifier, the category of a failure to build the wire, the error. *)
Definition prepareAndPublishGroupMessage (env : StoreEnv) (ce : CallEnv) (qe : QueueEnv)
    (msg : Message) (recipientID : string) (meta : GroupMessageWireMeta) (n : node)
    : node * (string * string * option error) :=
  match atSessions (BuildWireForOutboundMessage env ce msg) n with
  | (n, Err err) => (n, ("", ErrorCategory err, Some err))
  | (n, Ok wire) =>
      match publishQueuedMessage qe msg recipientID (groupWire wire msg meta) n with
      | (n, Err err) => (n, ("", "", Some err))
      | (n, Ok sentID) => (n, (sentID, "", None))
      end
  end.

Definition activeDeviceID (m : Manager) : result error string :=
  try! auth := ActiveDeviceAuth m (string_bytes "group-device-id") in
  let id := TrimSpace (dev_ID (fst auth)) in
  if id == "" then Err (errorsNew "active device id is empty") else Ok id.
End Delivery.

(** ** The padding *)

Section Padding.
Context {wcodec : JsonCodec WirePayload}.

(** The size of the payload with [n] characters of padding. *)
Definition paddedSize (base over n : Z) : Z := if n =? 0 then base else base + over + n.

(** encoding/json: the field is left out when it is empty, and otherwise takes its name, quotes and
    comma besides its characters. *)
Definition pads_by (wire : WirePayload) (base over : Z) : Prop :=
  0 <= over /\ forall n, 0 <= n ->
  exists raw, marshalJSON (with_wp_padding wire (Repeat0 n)) = Ok raw
              /\ Z.of_nat (length raw) = paddedSize base over n.

Lemma padLoop_total fuel wire target low high best :
  0 <= low <= high + 1 -> high - low + 1 < Z.of_nat fuel ->
  padLoop fuel wire target low high best <> None.
Proof.
  revert low high best. induction fuel as [|fuel IH]; intros low high best Hl Hf; [lia|].
  cbn [padLoop]. destruct (Z.leb_spec low high); cbn [negb]; [|done].
  pose proof (Z.div_le_lower_bound (low + high) 2 low).
  pose proof (Z.div_le_upper_bound (low + high) 2 high).
  destruct (marshalJSON _); [|done]. destruct (_ =? _); [done|].
  destruct (_ <? _); apply IH; lia.
Qed.

(** What the search returns for a payload that fits. *)
Definition tight (base over target : Z) (found : string + string) : Prop :=
  match found with
  | inl pad => exists n, 0 <= n /\ pad = Repeat0 n /\ paddedSize base over n = target
  | inr best => best = "" /\ base < target <= base + over
  end.

Lemma padLoop_tight fuel wire base over target low high best :
  pads_by wire base over -> base <= target -> 0 <= base -> 0 <= low <= high + 1 -> high <= target ->
  (forall n, 0 <= n < low -> paddedSize base over n < target) ->
  (forall n, high < n <= target -> target < paddedSize base over n) ->
  best = (if low =? 0 then "" else Repeat0 (low - 1)) -> high - low + 1 < Z.of_nat fuel ->
  exists found, padLoop fuel wire target low high best = Some (Ok found) /\ tight base over target found.
Proof.
  intros [Ho Hp] Hbt Hb. revert low high best.
  induction fuel as [|fuel IH]; intros low high best Hl Hh Hlow Hhigh Hbest Hf; [lia|].
  cbn [padLoop]. destruct (Z.leb_spec low high); cbn [negb].
  - pose proof (Z.div_le_lower_bound (low + high) 2 low).
    pose proof (Z.div_le_upper_bound (low + high) 2 high).
    set (mid := (low + high) / 2) in *.
    destruct (Hp mid) as (raw & -> & Hs); [lia|]. rewrite Hs.
    assert (Hmono : forall a b, 0 <= a <= b -> paddedSize base over a <= paddedSize base over b).
    { intros a b Hab. unfold paddedSize. destruct (Z.eqb_spec a 0), (Z.eqb_spec b 0); lia. }
    destruct (Z.eqb_spec (paddedSize base over mid) target).
    { eexists. split; [done|]. by exists mid; repeat split; [lia|]. }
    destruct (Z.ltb_spec (paddedSize base over mid) target); apply IH; try lia; try done.
    + intros k Hk. pose proof (Hmono k mid). lia.
    + destruct (Z.eqb_spec (mid + 1) 0); [lia|]. f_equal. lia.
    + intros k Hk. pose proof (Hmono mid k). lia.
  - assert (high = low - 1) as -> by lia. eexists. split; [done|]. cbn.
    assert (Ht : target <= base + over).
    { destruct (Z.le_gt_cases target (base + over)); [done|]. exfalso.
      pose proof (Hlow (target - base - over)). pose proof (Hhigh (target - base - over)).
      unfold paddedSize in *. destruct (Z.eqb_spec (target - base - over) 0); lia. }
    assert (Hl1 : low <= 1).
    { destruct (Z.le_gt_cases low 1); [done|]. pose proof (Hlow (low - 1)).
      unfold paddedSize in *. destruct (Z.eqb_spec (low - 1) 0); lia. }
    assert (H0 : base < target).
    { destruct (decide (low = 0)) as [->|]; [pose proof (Hhigh 0)|pose proof (Hlow 0)];
        unfold paddedSize in *; cbn in *; lia. }
    split; [|lia]. destruct (Z.eqb_spec low 0); [done|]. assert (low = 1) as -> by lia. done.
Qed.

Lemma buildPadding_tight wire base over target :
  pads_by wire base over -> 0 <= base <= target ->
  exists n, 0 <= n /\ buildPaddingForTarget wire target = Ok (Repeat0 n)
    /\ (paddedSize base over n = target \/ n = 0 /\ base < target <= base + over).
Proof.
  intros Hp Hb. destruct (padLoop_tight (padFuel target) wire base over target 0 target "")
    as (found & E & Ht); try done; try lia; [unfold padFuel; lia|].
  unfold buildPaddingForTarget. rewrite E. cbn. destruct found as [pad|best].
  - destruct Ht as (n & Hn & -> & Hs). exists n. auto.
  - destruct Ht as [-> Ht]. exists 0. destruct Hp as [Ho Hp].
    destruct (Hp 0) as (raw & Er & Hs); [lia|]. cbn in Er, Hs.
    change (with_wp_padding wire "") with (with_wp_padding wire (Repeat0 0)). cbn. rewrite Er. cbn.
    rewrite Hs. unfold paddedSize. cbn. destruct (Z.ltb_spec target base); [lia|].
    split_and!; [lia|done|by right].
Qed.

Context {lower : GoLower}.

(** The least bucket a size fits into. *)
Definition bucket_of (size bucket : Z) : Prop :=
  bucket ∈ sizeBuckets /\ size <= bucket /\ forall b, b ∈ sizeBuckets -> size <= b -> bucket <= b.

Lemma targetSize_spec wire raw :
  marshalJSON wire = Ok raw ->
  exists t, targetSize wire = Ok t
    /\ ((8192 < Z.of_nat (length raw) /\ t = 0) \/ bucket_of (Z.of_nat (length raw)) t).
Proof.
  intros E. unfold targetSize. rewrite E. cbn [bindR]. set (size := Z.of_nat (length raw)).
  assert (Hin : forall b, b ∈ sizeBuckets <-> b = 256 \/ b = 512 \/ b = 1024 \/ b = 2048 \/ b = 4096 \/ b = 8192).
  { intros b. unfold sizeBuckets. rewrite !elem_of_cons, elem_of_nil. naive_solver. }
  eexists. split; [reflexivity|]. unfold bucket_of. setoid_rewrite Hin. unfold sizeBuckets.
  cbn [filter list_filter]. repeat case_decide; cbn;
    [right; split_and!; [tauto|lia|lia]..|left; lia].
Qed.

(** Hardening a payload always ends with a padded payload, and hides its size: nothing but the
    padding changes, and the marshalled size is exactly the least of the six buckets it fits
    into, except that a payload short of its bucket by no more than the size of an empty
    padding field stays as it is, and one above the largest bucket too. Its delay lies between the
    batch window and the window with the largest jitter. The search for the padding ends: it
    never runs out of fuel. *)
Theorem hardened_sizes_are_buckets (p : outboundMetadataHardening) (draw : Z) (wire : WirePayload)
    (base over : Z) :
  mh_enabled p = true -> isLatencyCritical wire = false -> 0 <= draw <= mh_jitterMax p ->
  pads_by (with_wp_padding wire "") base over ->
  exists pad delay raw,
    harden (Some p) draw wire = Ok (with_wp_padding wire pad, delay)
    /\ mh_batchWindow p <= delay <= mh_batchWindow p + mh_jitterMax p
    /\ marshalJSON (with_wp_padding wire pad) = Ok raw
    /\ ((8192 < base /\ pad = "")
        \/ exists bucket, bucket_of base bucket
           /\ (Z.of_nat (length raw) = bucket
               \/ pad = "" /\ Z.of_nat (length raw) = base /\ bucket <= base + over)).
Proof.
  intros Hen Hlc Hdraw Hp. destruct (proj2 Hp 0) as (raw0 & E0 & Hs0); [lia|].
  change (marshalJSON (with_wp_padding wire "") = Ok raw0) in E0. cbn in Hs0.
  destruct (targetSize_spec _ _ E0) as (t & Et & Ht). rewrite Hs0 in Ht.
  assert (Hd : mh_batchWindow p <= mh_batchWindow p + randomJitter p draw
               <= mh_batchWindow p + mh_jitterMax p).
  { unfold randomJitter. destruct (Z.leb_spec (mh_jitterMax p) 0); lia. }
  unfold harden. rewrite Hen, Hlc. cbn [negb orb]. rewrite Et. cbn [bindR].
  destruct Ht as [[Hbig ->]|Hb].
  - cbn. eexists "", _, raw0. auto 6.
  - assert (Hpos : (0 <? t) = true).
    { destruct Hb as (Hin & _). unfold sizeBuckets in Hin. rewrite !elem_of_cons, elem_of_nil in Hin.
      apply Z.ltb_lt. lia. }
    rewrite Hpos. destruct (buildPadding_tight _ base over t Hp) as (n & Hn & -> & Hsz).
    { destruct Hb as (_ & Hle & _). lia. }
    destruct (proj2 Hp n Hn) as (raw & Er & Hs). cbn [bindR].
    exists (Repeat0 n). eexists _, raw. split_and!; [done|lia|lia|done|]. right. exists t.
    split; [done|]. rewrite Hs. destruct Hsz as [->|[-> Hle]]; [by left|]. right.
    split_and!; [done|done|lia].
Qed.
End Padding.

(** ** The queue *)

Section Queue.
Context {lower : GoLower} {errtext : GoErrorText}.
Context {crypto : IdentityCrypto} {cipher : Cipher} {ecodec : EnvelopeCodec} {mcodec : MessageCodec}.
Context {wcodec : JsonCodec WirePayload} {acodec : JsonCodec wireAuth}.
Context {R : Ratchet} {S : Type} {store : SessionStore S}.
Context (hardening : option outboundMetadataHardening).

Abbreviation node := (Node S).
Abbreviation publish := (publishSignedWireWithContext hardening).

(** The delays between attempts grow, up to half a minute. *)
Lemma growBackoff_bounds rounds b :
  0 < b <= 30 * Second -> b <= growBackoff rounds b <= 30 * Second.
Proof.
  revert b. induction rounds as [|rounds IH]; intros b Hb; cbn [growBackoff]; [lia|].
  destruct (Z.leb_spec (30 * Second) (b * 2)); [lia|]. specialize (IH (b * 2)). lia.
Qed.

Lemma NextRetryTime_bounds now count : now + 2 * Second <= NextRetryTime now count <= now + 30 * Second.
Proof.
  unfold NextRetryTime. cbn zeta.
  pose proof (growBackoff_bounds (Z.to_nat ((if count <? 1 then 1 else count) - 1)) (2 * Second)).
  unfold Second in *. lia.
Qed.

(** Writing the file of the message store works. *)
Definition writes (env : StoreEnv) : Prop :=
  forall m p s, exists d, persistSnapshotLocked env m p s = (with_disk s d, Ok tt).

Lemma build_inbox env ce msg (n : node) :
  nd_inbox (fst (BuildStoredMessageWire env ce msg n)) = nd_inbox n
  /\ nd_sent (fst (BuildStoredMessageWire env ce msg n)) = nd_sent n.
Proof.
  unfold BuildStoredMessageWire, atSessions. destruct (BuildWireForOutboundMessage _ _ _ _) as [s [w|e]]; [done|].
  case_bool_decide; [|done]. by destruct (SelfContactCard _ _).
Qed.

(** What a successful publication by [mgr] hands to the network: the payload with some padding,
    signed without it. *)
Definition carries (mgr : Manager) (m : PrivateMessage) (messageID recipient : string)
    (wire : WirePayload) : Prop :=
  im_ID m = messageID /\ im_Recipient m = recipient /\ im_SenderID m = id_ID (im_identity mgr)
  /\ ValidateWirePayload wire = None
  /\ exists pad device sig auth,
       marshalJSON (authOf messageID (id_ID (im_identity mgr)) recipient wire) = Ok auth
       /\ ActiveDeviceAuth mgr auth = Ok (device, sig)
       /\ marshalJSON (with_wp_device (with_wp_padding wire pad) (Some device) sig) = Ok (im_Payload m).

Lemma harden_wire draw wire wire' delay :
  harden hardening draw wire = Ok (wire', delay) -> exists pad, wire' = with_wp_padding wire pad.
Proof.
  assert (Hself : exists pad, wire = with_wp_padding wire pad) by (exists (wp_Padding wire); by destruct wire).
  unfold harden. destruct hardening as [p|]; [|by intros [= <- _]].
  destruct (negb _ || _); [by intros [= <- _]|]. destruct (targetSize _) as [t|]; [|done]. cbn [bindR].
  destruct (0 <? t); [|intros [= <- _]; by exists ""].
  destruct (buildPaddingForTarget _ t) as [pad|]; [|done]. intros [= <- _]. by exists pad.
Qed.

Lemma compose_carries m id to wire pad msg :
  ComposeSignedPrivateMessage m id to (with_wp_padding wire pad) = Ok msg -> carries m msg id to wire.
Proof.
  unfold ComposeSignedPrivateMessage, BuildWireAuthPayload.
  change (ValidateWirePayload (with_wp_padding wire pad)) with (ValidateWirePayload wire).
  change (authOf id (id_ID (im_identity m)) to (with_wp_padding wire pad))
    with (authOf id (id_ID (im_identity m)) to wire).
  unfold carries. destruct (ValidateWirePayload wire); [done|]. cbn zeta.
  destruct (marshalJSON (authOf _ _ _ _)) as [auth|] eqn:Ea; [|done]. cbn [bindR].
  destruct (ActiveDeviceAuth m auth) as [[device sig]|] eqn:Ed; [|done].
  destruct (marshalJSON (with_wp_device _ _ _)) as [raw|] eqn:Er; [|done]. intros [= <-].
  split_and!; [done..|]. by exists pad, device, sig, auth.
Qed.

Lemma publish_spec pe id to wire (n : node) :
  (exists e, publish pe id to wire n = (n, Err e))
  \/ exists m, publish pe id to wire n = (with_nd_sent n [m], Ok tt) /\ carries (nd_manager n) m id to wire.
Proof.
  unfold publishSignedWireWithContext, bindM, liftM, wrap.
  destruct (harden hardening (pb_draw pe) wire) as [[wire' delay]|] eqn:Eh; [|left; by eexists].
  apply harden_wire in Eh as (pad & ->). destruct (waitWithContext _ _); [left; by eexists|].
  destruct (ComposeSignedPrivateMessage _ _ _ _) as [m|] eqn:Em; [|left; by eexists].
  apply compose_carries in Em. unfold publishWithTimeout. cbn [negb].
  destruct (pb_network pe); [left; by eexists|]. right. by exists m.
Qed.

(** Only the status of the message may change. *)
Definition status_set (msgs : Messages) (id status : string) : Messages :=
  alter (fun m => mkMessage (msg_ID m) (msg_ContactID m) (msg_ConversationID m)
    (msg_ConversationType m) (msg_ThreadID m) (msg_Content m) (msg_Timestamp m) (msg_Direction m)
    (mergeMessageStatus (msg_Status m) status) (msg_ContentType m) (msg_Edited m)) id msgs.

Lemma updateStatus_spec env id status (n : node) :
  writes env ->
  let n' := fst (updateMessageStatusAndNotify env id status n) in
  ms_messages (nd_messages n') = status_set (ms_messages (nd_messages n)) id status
  /\ nd_pending n' = nd_pending n /\ nd_sent n' = nd_sent n.
Proof.
  intros Hw. unfold updateMessageStatusAndNotify, atMessages, UpdateMessageStatus, bindM, getM, retM, modifyM.
  unfold status_set. destruct (ms_messages (nd_messages n) !! id) as [m|] eqn:E.
  - destruct (Hw (<[id := mkMessage (msg_ID m) (msg_ContactID m) (msg_ConversationID m)
      (msg_ConversationType m) (msg_ThreadID m) (msg_Content m) (msg_Timestamp m) (msg_Direction m)
      (mergeMessageStatus (msg_Status m) status) (msg_ContentType m) (msg_Edited m)]>
      (ms_messages (nd_messages n))) (ms_pending (nd_messages n)) (nd_messages n)) as (d & ->).
    unfold notifyMessageStatus. destruct (GetMessage _ _) as [? []]; cbn; (split_and!; [|done..]);
      apply map_eq; intros i; (destruct (decide (i = id)) as [->|];
        [by rewrite lookup_insert_eq, lookup_alter_eq, E|by rewrite lookup_insert_ne, lookup_alter_ne]).
  - cbn. unfold notifyMessageStatus. rewrite alter_id.
    + by destruct (GetMessage _ _) as [? []].
    + intros m Hm. congruence.
Qed.

Lemma removePending_spec env id (n : node) :
  writes env ->
  let n' := removePending env id n in
  ms_messages (nd_messages n') = ms_messages (nd_messages n)
  /\ nd_pending n' = delete id (nd_pending n) /\ nd_sent n' = nd_sent n.
Proof.
  intros Hw. unfold removePending, atMessages, RemovePending, bindM, getM, modifyM.
  by destruct (Hw (ms_messages (nd_messages n)) (delete id (ms_pending (nd_messages n))) (nd_messages n))
    as (d & ->).
Qed.

(** The message no longer waits: the network has it, or the store does not call it pending. *)
Definition settled (n : node) (id : string) : Prop :=
  (exists m, m ∈ nd_sent n /\ im_ID m = id)
  \/ forall m, ms_messages (nd_messages n) !! id = Some m -> msg_Status m <> "" /\ msg_Status m <> "pending".

Lemma mergeMessageStatus_settles cur cand :
  cand = "failed" \/ cand = "sent" -> cur <> "" /\ cur <> "pending" ->
  mergeMessageStatus cur cand <> "" /\ mergeMessageStatus cur cand <> "pending".
Proof.
  unfold mergeMessageStatus. intros [->| ->] [H1 H2]; cbn [orb]; repeat case_bool_decide; try done.
  cbn. by destruct (_ <=? _).
Qed.

Lemma mergeMessageStatus_failed cur :
  mergeMessageStatus cur "failed" <> "" /\ mergeMessageStatus cur "failed" <> "pending".
Proof. unfold mergeMessageStatus. repeat case_bool_decide; naive_solver. Qed.

Lemma settled_mono (n n' : node) (id status : string) (k : string) :
  status = "failed" \/ status = "sent" ->
  ms_messages (nd_messages n') = ms_messages (nd_messages n)
  \/ ms_messages (nd_messages n') = status_set (ms_messages (nd_messages n)) id status ->
  (forall m, m ∈ nd_sent n -> m ∈ nd_sent n') -> settled n k -> settled n' k.
Proof.
  intros Hst Hm Hs [(m & Hin & Hid)|H]; [left; eauto|]. right. intros m. destruct Hm as [->| ->]; [apply H|].
  unfold status_set. destruct (decide (id = k)) as [->|]; [|rewrite lookup_alter_ne by done; apply H].
  rewrite lookup_alter_eq. destruct (ms_messages _ !! k) as [m0|] eqn:E; [|done]. intros [= <-].
  by apply mergeMessageStatus_settles; [|apply H].
Qed.

(** What one attempt at a queued message does: it leaves the queue settled, or waits for the next
    attempt, of at most eight. *)
Definition attempted (re : RetryEnv) (p : PendingMessage) (n n' : node) : Prop :=
  let id := msg_ID (pm_Message p) in
  (forall k, settled n k -> settled n' k)
  /\ ((nd_pending n' = delete id (nd_pending n) /\ settled n' id)
      \/ (pm_RetryCount p + 1 <= 8 /\ exists p', nd_pending n' = <[id := p']> (nd_pending n)
          /\ msg_ID (pm_Message p') = id /\ pm_RetryCount p' = pm_RetryCount p + 1
          /\ pm_NextRetry p' <= re_now re + 30 * Second)).

(** Setting the status and leaving the queue, when that settles the message. *)
Lemma finish_attempted re p status (n n1 : node) :
  writes (re_status re) -> writes (re_pending re) -> status = "failed" \/ status = "sent" ->
  nd_inbox n1 = nd_inbox n \/ (exists c e, nd_inbox n1 = with_ib_error (nd_inbox n) c e) ->
  (forall m, m ∈ nd_sent n -> m ∈ nd_sent n1) ->
  status = "failed" \/ (exists m, m ∈ nd_sent n1 /\ im_ID m = msg_ID (pm_Message p)) ->
  attempted re p n (removePending (re_pending re) (msg_ID (pm_Message p))
    (fst (updateMessageStatusAndNotify (re_status re) (msg_ID (pm_Message p)) status n1))).
Proof.
  intros Hws Hwp Hst Hi Hs Hset. set (id := msg_ID (pm_Message p)) in *.
  assert (Hm : nd_messages n1 = nd_messages n).
  { unfold nd_messages. by destruct Hi as [->|(c & e & ->)]. }
  assert (Hp : nd_pending n1 = nd_pending n) by (unfold nd_pending; by rewrite Hm).
  destruct (updateStatus_spec (re_status re) id status n1 Hws) as (Hm3 & Hp3 & Hs3).
  destruct (removePending_spec (re_pending re) id
    (fst (updateMessageStatusAndNotify (re_status re) id status n1)) Hwp) as (Hm4 & Hp4 & Hs4).
  rewrite Hm in Hm3. unfold attempted. fold id. split.
  - intros k. apply (settled_mono _ _ id status); [done|right; by rewrite Hm4|]. rewrite Hs4, Hs3. apply Hs.
  - left. split; [by rewrite Hp4, Hp3, Hp|]. destruct Hset as [->|Hpub]; [right|left; by rewrite Hs4, Hs3].
    intros m. rewrite Hm4, Hm3. unfold status_set. rewrite lookup_alter_eq.
    destruct (_ !! id); [|done]. intros [= <-]. apply mergeMessageStatus_failed.
Qed.

Lemma handleRetry_attempted re p e (n n1 : node) :
  writes (re_status re) -> writes (re_pending re) ->
  nd_inbox n1 = nd_inbox n -> nd_sent n1 = nd_sent n ->
  attempted re p n (handleRetryPublishError re p e n1).
Proof.
  intros Hws Hwp Hi Hs. unfold handleRetryPublishError. set (n2 := recordError n1 (ErrorCategory e) e).
  assert (Hm2 : nd_messages n2 = nd_messages n) by (unfold nd_messages; cbn; by rewrite Hi).
  destruct (Z.ltb_spec 8 (pm_RetryCount p + 1)).
  - apply finish_attempted; [done..|by left| |cbn; by rewrite Hs|by left].
    right. cbn. rewrite Hi. by eexists _, _.
  - unfold atMessages, AddOrUpdatePending, bindM, getM, modifyM. rewrite Hm2.
    edestruct (Hwp) as (d & ->). split.
    + intros k. apply (settled_mono _ _ "" "sent"); [by right|by left|]. intros m Hin. cbn. by rewrite Hs.
    + right. split; [lia|]. eexists. split; [reflexivity|]. split_and!; [done|done|].
      apply NextRetryTime_bounds.
Qed.

Lemma processPending_attempted re p (n : node) :
  writes (re_status re) -> writes (re_pending re) ->
  attempted re p n (processPending hardening re handleRetryPublishError p n).
Proof.
  intros Hws Hwp. unfold processPending, bindM.
  pose proof (build_inbox (re_get re) (re_call re) (pm_Message p) n) as [Hbi Hbs].
  destruct (BuildStoredMessageWire _ _ _ n) as [n1 [wire|e]]; cbn [fst] in *;
    [|by apply handleRetry_attempted].
  destruct (publish_spec (re_publish re) (msg_ID (pm_Message p)) (msg_ContactID (pm_Message p)) wire n1)
    as [(e & ->)|(m & -> & Hc)]; [by apply handleRetry_attempted|].
  unfold markMessageAsSent. apply finish_attempted; [done..|by right|by left| |right; exists m].
  - intros m' Hin. cbn. rewrite Hbs, elem_of_app. by left.
  - split; [|apply Hc]. cbn. rewrite elem_of_app. right. by left.
Qed.

(** The entries of the queue are under the identifiers of their messages. *)
Definition queue_ok (q : Pendings) : Prop := map_Forall (fun k p => msg_ID (pm_Message p) = k) q.

(** A batch of different messages of the queue: each is attempted once. *)
Lemma batch_spec (envs : string -> RetryEnv) l (n : node) :
  (forall id, writes (re_status (envs id)) /\ writes (re_pending (envs id))) ->
  NoDup ((fun p => msg_ID (pm_Message p)) <$> l) -> queue_ok (nd_pending n) ->
  (forall p, p ∈ l -> nd_pending n !! msg_ID (pm_Message p) = Some p) ->
  let n' := processPendingBatch hardening envs l handleRetryPublishError n in
  queue_ok (nd_pending n') /\ (forall k, settled n k -> settled n' k)
  /\ (forall k, is_Some (nd_pending n !! k) -> is_Some (nd_pending n' !! k) \/ settled n' k)
  /\ forall k p', nd_pending n' !! k = Some p' ->
      (nd_pending n !! k = Some p' /\ k ∉ (fun p => msg_ID (pm_Message p)) <$> l)
      \/ exists p, p ∈ l /\ msg_ID (pm_Message p) = k /\ pm_RetryCount p' = pm_RetryCount p + 1
         /\ pm_RetryCount p' <= 8 /\ pm_NextRetry p' <= re_now (envs k) + 30 * Second.
Proof.
  intros Hw. revert n. induction l as [|p l IH]; intros n Hnd Hq Hl.
  { cbn. split_and!; [done|done|by left|]. intros k p' Hk. left. split; [done|apply not_elem_of_nil]. }
  inversion Hnd as [|? ? Hn Hnd' [E1 E2]]; subst. cbn [processPendingBatch fold_left].
  set (id := msg_ID (pm_Message p)) in *. set (n1 := processPending _ _ _ _ _).
  destruct (processPending_attempted (envs id) p n) as (Hset & Hcase); [apply Hw..|].
  fold n1 in Hset, Hcase. change (msg_ID (pm_Message p)) with id in Hcase.
  assert (Hother : forall k, k <> id -> nd_pending n1 !! k = nd_pending n !! k).
  { intros k Hk. destruct Hcase as [[-> _]|(_ & p' & -> & _)];
      [by rewrite lookup_delete_ne|by rewrite lookup_insert_ne]. }
  assert (Hid : forall p', nd_pending n1 !! id = Some p' -> msg_ID (pm_Message p') = id
     /\ pm_RetryCount p' = pm_RetryCount p + 1 /\ pm_RetryCount p' <= 8
     /\ pm_NextRetry p' <= re_now (envs id) + 30 * Second).
  { intros p'. destruct Hcase as [[-> _]|(Hle & p1 & -> & Hi & Hc & Hr)];
      [by rewrite lookup_delete_eq|rewrite lookup_insert_eq; intros [= <-]]. rewrite Hc. done. }
  destruct (IH n1 Hnd') as (Hq' & Hs' & Hk' & Hp').
  - intros k p' Hk. destruct (decide (k = id)) as [->|Hne]; [by apply Hid|]. apply Hq. by rewrite <- Hother.
  - intros p0 Hin. rewrite Hother; [by apply Hl; right|]. intros Heq. apply Hn. apply list_elem_of_fmap.
    by exists p0.
  - split_and!; [done|by auto| |].
    + intros k [pk Hk]. destruct (decide (k = id)) as [->|Hne];
        [|apply Hk'; rewrite Hother by done; by eexists].
      destruct Hcase as [[_ Hst]|(_ & p1 & E & _)]; [right; by apply Hs'|].
      apply Hk'. rewrite E, lookup_insert_eq. by eexists.
    + intros k p' Hk. destruct (Hp' k p' Hk) as [[Hk1 Hnin]|(p0 & Hin & H0)].
      * destruct (decide (k = id)) as [->|Hne].
        -- right. exists p. destruct (Hid p' Hk1) as (_ & H1 & H2 & H3). split_and!; [by left|done..].
        -- left. rewrite <- Hother by done. split; [done|]. cbn. rewrite elem_of_cons. by intros [|].
      * right. exists p0. split; [by right|done].
Qed.

(** A tick of the loop, with what it meets. *)
Record Tick := mkTick { tk_rt : GoRuntime; tk_envs : string -> RetryEnv; tk_now : Z }.

Definition run_ticks (ticks : list Tick) (n : node) : node :=
  fold_left (fun n t => retryTick hardening (tk_rt t) (tk_envs t) (tk_now t) n) ticks n.

(** Everything is due at each tick, and the store can be written. [q] is the latest retry time of
    the queue. *)
Fixpoint spaced (q : Z) (ticks : list Tick) : Prop :=
  match ticks with
  | [] => True
  | t :: ticks =>
      q <= tk_now t
      /\ (forall id, writes (re_status (tk_envs t id)) /\ writes (re_pending (tk_envs t id)))
      /\ exists q', (forall id, re_now (tk_envs t id) + 30 * Second <= q') /\ spaced q' ticks
  end.

Definition counted (c q : Z) (pend : Pendings) : Prop :=
  map_Forall (fun _ p => c <= pm_RetryCount p /\ pm_NextRetry p <= q) pend.

Lemma due_all (rt : GoRuntime) (s : MessageStore) now c q :
  counted c q (ms_pending s) -> q <= now -> DuePending s now ≡ₚ (map_to_list (ms_pending s)).*2.
Proof.
  intros Hc Hq. unfold DuePending. rewrite rangeMap_perm. rewrite filter_all; [done|].
  intros p ([k p'] & -> & Hin)%list_elem_of_fmap.
  apply elem_of_map_to_list in Hin. apply Hc in Hin as [_ Hn]. unfold After. cbn.
  destruct (Z.ltb_spec now (pm_NextRetry p')); [lia|done].
Qed.

Lemma tick_spec t c q (n : node) q' :
  counted c q (nd_pending n) -> queue_ok (nd_pending n) -> q <= tk_now t ->
  (forall id, writes (re_status (tk_envs t id)) /\ writes (re_pending (tk_envs t id))) ->
  (forall id, re_now (tk_envs t id) + 30 * Second <= q') ->
  let n' := retryTick hardening (tk_rt t) (tk_envs t) (tk_now t) n in
  queue_ok (nd_pending n') /\ counted (c + 1) q' (nd_pending n')
  /\ map_Forall (fun _ p => pm_RetryCount p <= 8) (nd_pending n')
  /\ (forall k, settled n k -> settled n' k)
  /\ (forall k, is_Some (nd_pending n !! k) -> is_Some (nd_pending n' !! k) \/ settled n' k).
Proof.
  intros Hc Hq Hnow Hw Hq' n'. pose proof (due_all (tk_rt t) (nd_messages n) (tk_now t) c q Hc Hnow) as Hdue.
  unfold n', retryTick. set (l := DuePending _ _) in *.
  assert (Hids : (fun p => msg_ID (pm_Message p)) <$> l ≡ₚ (map_to_list (nd_pending n)).*1).
  { rewrite Hdue. rewrite <- list_fmap_compose. apply Permutation_refl'. apply list_fmap_ext.
    intros i [k p] Hin%list_elem_of_lookup_2%elem_of_map_to_list. cbn. by apply Hq. }
  assert (Hin : forall p, p ∈ l -> nd_pending n !! msg_ID (pm_Message p) = Some p).
  { intros p. rewrite Hdue. intros ([k p'] & -> & Hin%elem_of_map_to_list)%list_elem_of_fmap.
    cbn. by rewrite (Hq _ _ Hin). }
  destruct (batch_spec (tk_envs t) l n Hw) as (H1 & H2 & H3 & H4); [|done..|].
  { rewrite Hids. apply NoDup_fst_map_to_list. }
  assert (H5 : forall k p', nd_pending (processPendingBatch hardening (tk_envs t) l handleRetryPublishError n)
     !! k = Some p' -> exists p, p ∈ l /\ pm_RetryCount p' = pm_RetryCount p + 1
         /\ pm_RetryCount p' <= 8 /\ pm_NextRetry p' <= q').
  { intros k p' Hk. destruct (H4 k p' Hk) as [[Hk0 Hnin]|(p & Hp & <- & ? & ? & ?)].
    - exfalso. apply Hnin. rewrite Hids. apply list_elem_of_fmap. exists (k, p').
      split; [done|]. by apply elem_of_map_to_list.
    - exists p. specialize (Hq' (msg_ID (pm_Message p))). split_and!; [done|done|done|lia]. }
  split_and!; [done| | |done|done]; intros k p' (p & Hp & Hcnt & Hle & Hn)%H5; [|done].
  apply Hin, Hc in Hp as [? _]. lia.
Qed.

Lemma ticks_spec ticks c q (n : node) :
  counted c q (nd_pending n) -> queue_ok (nd_pending n) -> spaced q ticks ->
  let n' := run_ticks ticks n in
  (exists q', counted (c + Z.of_nat (length ticks)) q' (nd_pending n'))
  /\ (ticks <> [] -> map_Forall (fun _ p => pm_RetryCount p <= 8) (nd_pending n'))
  /\ (forall k, is_Some (nd_pending n !! k) \/ settled n k -> is_Some (nd_pending n' !! k) \/ settled n' k).
Proof.
  revert c q n. induction ticks as [|t ticks IH]; intros c q n Hc Hq; cbn [spaced run_ticks fold_left].
  { intros _. rewrite Z.add_0_r. split_and!; [by exists q|done|done]. }
  intros (Hnow & Hw & q' & Hq' & Hsp).
  destruct (tick_spec t c q n q' Hc Hq Hnow Hw Hq') as (Hq1 & Hc1 & Hm1 & Hs1 & Hk1).
  destruct (IH _ _ _ Hc1 Hq1 Hsp) as ((q2 & Hc2) & Hm2 & Hk2). fold (run_ticks ticks).
  split_and!.
  - exists q2. cbn [length]. by replace (c + Z.of_nat (Datatypes.S (length ticks)))
      with (c + 1 + Z.of_nat (length ticks)) by lia.
  - intros _. destruct ticks; [done|by apply Hm2].
  - intros k Hk. apply Hk2. destruct Hk as [Hk|Hk]; [by apply Hk1|right; by apply Hs1].
Qed.


(** ** What is handed to the network *)

Lemma finish_sent env1 env2 id status (n : node) :
  nd_sent (removePending env2 id (fst (updateMessageStatusAndNotify env1 id status n))) = nd_sent n.
Proof.
  assert (Hu : nd_sent (fst (updateMessageStatusAndNotify env1 id status n)) = nd_sent n).
  { unfold updateMessageStatusAndNotify, atMessages. destruct (UpdateMessageStatus _ _ _ _) as [s [b|e]]; [|done].
    unfold notifyMessageStatus. by destruct (GetMessage _ _) as [? []]. }
  rewrite <- Hu. unfold removePending, atMessages. by destruct (RemovePending _ _ _) as [s [b|e]].
Qed.

Lemma handleRetry_sent re p e (n : node) : nd_sent (handleRetryPublishError re p e n) = nd_sent n.
Proof.
  unfold handleRetryPublishError. destruct (8 <? _); [by rewrite finish_sent|].
  unfold atMessages. by destruct (AddOrUpdatePending _ _ _ _ _ _) as [s [b|err]].
Qed.

(** At most one message is sent, and it carries a payload of the kind. *)
Definition sends (n n' : node) (id to : string) (kind : WirePayload -> Prop) : Prop :=
  nd_sent n' = nd_sent n
  \/ exists m wire, nd_sent n' = (nd_sent n ++ [m])%list
       /\ carries (nd_manager n) m id to wire /\ kind wire.

Lemma queued_sends qe msg to wire (n : node) (kind : WirePayload -> Prop) :
  kind wire -> sends n (fst (publishQueuedMessage hardening qe msg to wire n)) (msg_ID msg) to kind.
Proof.
  intros Hk. unfold publishQueuedMessage, bindM, networkContext.
  assert (Herr : forall e (n1 : node), nd_sent n1 = nd_sent n ->
    nd_sent (fst (if ErrorCategory e == ErrorCategoryNetwork then
        match atMessages (AddOrUpdatePending (qe_pending qe) msg 1 (NextRetryTime (qe_now qe) 1)
                            (ErrorText e)) (recordError n1 (ErrorCategory e) e) with
        | (n, Err perr) => (recordError n ErrorCategoryStorage perr, Err perr)
        | (n, Ok _) => (n, Ok (msg_ID msg))
        end
      else (recordError n1 (ErrorCategory e) e, Err e))) = nd_sent n).
  { intros e n1 <-. case_bool_decide; [|done]. unfold atMessages.
    by destruct (AddOrUpdatePending _ _ _ _ _ _) as [s [b|err]]. }
  destruct (nd_networking n); [|left; by apply Herr].
  destruct (publish_spec (qe_publish qe) (msg_ID msg) to wire n) as [(e & ->)|(m & -> & Hc)];
    [left; by apply Herr|].
  right. exists m, wire. split; [|done]. cbn [fst]. unfold markMessageAsSent. by rewrite finish_sent.
Qed.

(** What is built from a stored message alone: sealed, or plain with the card of the sender. *)
Lemma build_inv env ce msg (n n' : node) wire :
  BuildStoredMessageWire env ce msg n = (n', Ok wire) ->
  (exists e, wire = with_wp_thread (sealedWire e) (TrimSpace (msg_ThreadID msg)))
  \/ exists card, SelfContactCard (nd_manager n) (id_ID (im_identity (nd_manager n))) = Ok card
     /\ wire = with_wp_card (with_wp_thread (NewPlainWire (msg_Content msg))
                              (TrimSpace (msg_ThreadID msg))) (Some card).
Proof.
  unfold BuildStoredMessageWire, atSessions.
  destruct (BuildWireForOutboundMessage _ _ _ _) as [s [w|e]] eqn:E.
  - intros [= _ <-]. left. unfold BuildWireForOutboundMessage in E.
    apply bindM_inv in E as (s1 & u & _ & (s2 & envl & _ & [= <- <-])%bindM_inv). by exists envl.
  - case_bool_decide; [|done]. destruct (SelfContactCard _ _) as [card|] eqn:Ec; [|done].
    intros [= <- <-]. right. by exists card.
Qed.

(** It has no group. *)
Definition directWire (wire : WirePayload) : Prop :=
  wp_ConversationType wire = "" /\ wp_ConversationID wire = "" /\ wp_EventID wire = ""
  /\ wp_EventType wire = "" /\ wp_MembershipVersion wire = 0 /\ wp_GroupKeyVersion wire = 0.

Lemma build_direct env ce msg (n n' : node) wire :
  BuildStoredMessageWire env ce msg n = (n', Ok wire) -> directWire wire.
Proof. by intros [(e & ->)|(card & _ & ->)]%build_inv. Qed.

(** A group message that has to be retried arrives as a direct message. The first attempt at
    it sends, if it sends anything, a payload of the group with its event identifier and versions. An
    attempt from the queue builds the payload from the stored message alone: whatever message
    waits there, the payload the network gets names no group, no event and no version, so its
    recipient files it under the conversation with the sender. *)
Theorem retried_group_message_turns_direct (re : RetryEnv) (ce : CallEnv) (env : StoreEnv)
    (qe : QueueEnv) (p : PendingMessage) (meta : GroupMessageWireMeta) (to : string) (n : node) :
  sends n (fst (prepareAndPublishGroupMessage hardening env ce qe (pm_Message p) to meta n))
    (msg_ID (pm_Message p)) to (fun wire =>
      wp_ConversationType wire = ConversationTypeGroup /\ wp_ConversationID wire = wm_GroupID meta
      /\ wp_EventType wire = GroupWireEventTypeMessage /\ wp_EventID wire = wm_EventID meta
      /\ wp_MembershipVersion wire = wm_MembershipVersion meta)
  /\ sends n (processPending hardening re handleRetryPublishError p n)
       (msg_ID (pm_Message p)) (msg_ContactID (pm_Message p)) directWire.
Proof.
  split.
  - unfold prepareAndPublishGroupMessage, atSessions.
    destruct (BuildWireForOutboundMessage _ _ _ _) as [s [w|e]]; [|by left].
    set (n1 := with_nd_sessions n s).
    destruct (queued_sends qe (pm_Message p) to (groupWire w (pm_Message p) meta) n1 (fun wire =>
      wp_ConversationType wire = ConversationTypeGroup /\ wp_ConversationID wire = wm_GroupID meta
      /\ wp_EventType wire = GroupWireEventTypeMessage /\ wp_EventID wire = wm_EventID meta
      /\ wp_MembershipVersion wire = wm_MembershipVersion meta)) as [Hs|(m & wire & Hs & Hc)]; [done| |].
    + left. by destruct (publishQueuedMessage _ _ _ _ _ _) as [n2 [id|e]].
    + right. exists m, wire. split; [|done]. by destruct (publishQueuedMessage _ _ _ _ _ _) as [n2 [id|e]].
  - unfold processPending, bindM.
    pose proof (build_inbox (re_get re) (re_call re) (pm_Message p) n) as [Hbi Hbs].
    destruct (BuildStoredMessageWire _ _ _ n) as [n1 [wire|e]] eqn:E; cbn [fst] in Hbi, Hbs;
      [|left; by rewrite handleRetry_sent].
    destruct (publish_spec (re_publish re) (msg_ID (pm_Message p)) (msg_ContactID (pm_Message p)) wire n1)
      as [(e & ->)|(m & -> & Hc)]; [left; by rewrite handleRetry_sent|].
    right. exists m, wire. split; [|split; [|by apply build_direct in E]].
    2:{ unfold nd_manager in Hc. by rewrite Hbi in Hc. }
    unfold markMessageAsSent. rewrite finish_sent. cbn. by rewrite Hbs.
Qed.
End Queue.

(** ** Concrete runs and witnesses *)

Definition ex_hardening : outboundMetadataHardening := mkHardening true (80 * 1000000) (220 * 1000000).

Lemma ex_pads wire : pads_by (with_wp_padding wire "") 16 1.
Proof.
  split; [lia|]. intros n Hn. eexists. split; [reflexivity|]. unfold paddedSize, wireZ. cbn [length app].
  change (wp_Padding (with_wp_padding (with_wp_padding wire "") (Repeat0 n))) with (Repeat0 n).
  destruct (Z.eqb_spec n 0) as [->|]; [reflexivity|].
  unfold paddingZ. replace (Repeat0 n == "") with false.
  - cbn [length]. unfold string_bytes, Repeat0. rewrite length_fmap, String.list_ascii_of_string_of_list_ascii,
      length_replicate. lia.
  - symmetry. apply bool_decide_eq_false. unfold Repeat0. destruct (Z.to_nat n) eqn:E; [lia|done].
Qed.

Lemma hardened_sizes_are_buckets_witness :
  exists pad delay raw, harden (Some ex_hardening) 7 (NewPlainWire [104; 105])
      = Ok (with_wp_padding (NewPlainWire [104; 105]) pad, delay)
    /\ marshalJSON (with_wp_padding (NewPlainWire [104; 105]) pad) = Ok raw /\ Z.of_nat (length raw) = 256.
Proof.
  destruct (hardened_sizes_are_buckets ex_hardening 7 (NewPlainWire [104; 105]) 16 1)
    as (pad & delay & raw & Hh & _ & Hm & [[Hbig _]|(bucket & Hb & Hs)]).
  - reflexivity.
  - vm_compute. reflexivity.
  - cbn. lia.
  - apply ex_pads.
  - discriminate.
  - exists pad, delay, raw. split; [exact Hh|]. split; [exact Hm|].
    assert (Hbucket : bucket = 256).
    { destruct Hb as (Hin & _ & Hmin). specialize (Hmin 256 ltac:(left) ltac:(lia)).
      unfold sizeBuckets in Hin. rewrite !elem_of_cons, elem_of_nil in Hin. lia. }
    lia.
Defined.

(** A daemon with the identity [m] and nothing else. *)
Definition ex_node (m : Manager) (sessions : SkipHeap * exStore) : Node exStore :=
  let file := mkEncStore "" "" None in
  mkNode (mkInboxWorld ∅ file (mkIdentityWorld m file) (PrivacyService.NewService file file)
            (mkMessageStore ∅ ∅ "" "" true None) [] []) sessions (mkInboundWorld emptyRegistry ∅ []) true [].

Lemma ex_env_writes : writes ex_env.
Proof.
  intros m p s. destruct (persist_disk ex_env m p s) as (d & [[]|e] & E); [by exists d|exfalso].
  revert E. unfold persistSnapshotLocked. destruct (_ || _); [done|]. cbn [ex_env env_write wo_mkdir].
  destruct (negb _); [|done]. cbn [bindR marshalMessages exMessageCodec].
  destruct (Encrypt_Decrypt (env_rand ex_env) (ms_secret s)
    [Zpos (encode (mkMessageSnapshot messageStoreSchemaVersion m p))] ex_random_ok) as (data & -> & _). done.
Qed.

(** A message waits, and the network takes nothing. *)
Definition ex_refused : PublishEnv := mkPublish 0 None (Some (errorsNew "no peers")).
Definition ex_retry (now : Z) : RetryEnv :=
  mkRetryEnv ex_env (SessionSafety.ex_call now) ex_refused ex_env ex_env now.
Definition ex_tick (i : Z) : Tick := mkTick exRuntime (fun _ => ex_retry (i * Minute)) (i * Minute).
Definition ex_ticks : list Tick := ex_tick <$> [1; 2; 3; 4; 5; 6; 7; 8].
Definition ex_waiting : Node exStore :=
  with_nd_messages (ex_node Identity.ex_alice SessionSafety.ex_empty)
    (mkMessageStore {["m1" := ex_msg "m1" 1 "pending"]}
       {["m1" := mkPending (ex_msg "m1" 1 "pending") 1 2 "no peers"]} "" "" true None).

Example one_tick_is_not_enough :
  pm_RetryCount <$> (nd_pending (run_ticks None [ex_tick 1] ex_waiting) !! "m1") = Some 2.
Proof. vm_compute. reflexivity. Qed.

