(* ===== verification/Messaging.v ===== *)
(** * Direct messages

    Models internal/domains/messaging/usecase/service.go and inbound_service.go as
    daemonservice/service_wiring.go and runtime_inbound.go wire them: sending, editing, deleting and
    listing messages, starting sessions, revoking devices, and the one entry of everything that
    arrives from the network, [HandleIncomingPrivateMessage]. The state is the [Node] of
    Delivery.v. A message that makes ed25519.Verify panic takes the daemon down: the handlers that
    check signatures return [Panics] then. *)
From S2P Require Import Prelude Text SecureStore Session SessionSafety Privacy PrivacyService Identity IdentityStore MessageStore Inbox GroupModel Wire RateLimiter GroupRuntime GroupMembership GroupInbound GroupMessaging Delivery.
From stdpp Require Import base gmap strings list sets option.
From Stdlib Require Import ZArith Lia.
Open Scope string_scope.
Open Scope Z_scope.
Open Scope go_scope.

(** What one attempt to allocate a message identifier meets. *)
Record AllocEnv := mkAlloc { al_id : result error string; al_now : Z; al_save : StoreEnv }.

Record SendEnv := mkSendEnv {
  se_get : StoreEnv; se_call : CallEnv; se_now : Z; se_alloc : nat -> AllocEnv; se_queue : QueueEnv
}.

(** What marking a message as read meets. *)
Record ReadEnv := mkReadEnv {
  rd_status : StoreEnv; rd_now : Z; rd_id : result error string; rd_publish : PublishEnv
}.

(** [models.SessionState] *)
Record SessionView := mkSessionView {
  sv_SessionID : string; sv_ContactID : string; sv_PeerPublicKey : list Z; sv_SendChainIndex : Z;
  sv_RecvChainIndex : Z; sv_CreatedAt : Z; sv_UpdatedAt : Z
}.

Definition MapSessionState {K} (state : SessionState K) : SessionView :=
  mkSessionView (SessionID state) (ContactID state) (PeerPublicKey state) (SendChainIndex state)
    (RecvChainIndex state) (CreatedAt state) (UpdatedAt state).

(** [InboundPolicyDecision] *)
Record PolicyDecision := mkPolicyDecision {
  pd_action : string; pd_reason : string; pd_err : option error
}.
Definition InboundPolicyActionReject : string := "reject".
Definition InboundPolicyActionAccept : string := "accept".
Definition InboundPolicyActionQueue : string := "queue".

(** What the handling of one incoming message meets; the clock stands still meanwhile. *)
Record InboundEnv := mkInboundEnv {
  ie_now : Z;
  ie_call : CallEnv;
  ie_save : StoreEnv;
  ie_request : StoreEnv;
  ie_status : StoreEnv;
  ie_receipt : ReadEnv
}.

Section Messaging.
Context {lower : GoLower} {errtext : GoErrorText} {rt : GoRuntime}.
Context {crypto : IdentityCrypto} {cipher : Cipher} {ecodec : EnvelopeCodec} {mcodec : MessageCodec}.
Context {wcodec : JsonCodec WirePayload} {acodec : JsonCodec wireAuth}
        {qcodec : JsonCodec persistedMessageRequestState}.
Context {R : Ratchet} {S : Type} {store : SessionStore S}.
Context (hardening : option outboundMetadataHardening).
(** The group component: decoding of event payloads and times, and its file. *)
Context (unmarshalPayload : list Z -> result error inboundGroupEventPayload)
        (parseRFC3339Nano : string -> option Z) (gpersist : option SnapshotPersist).

Abbreviation node := (Node S).
Abbreviation op := (M node error).

(** ** service.go *)

Definition recordStorageErr {A} (m : op A) : op A := fun n =>
  match m n with
  | (n, Err err) => (recordError n ErrorCategoryStorage err, Err err)
  | r => r
  end.

(** The [save] the service passes on: a conflict of identifiers is not recorded. *)
Definition saveOutbound (env : StoreEnv) (msg : Message) : op unit := fun n =>
  match atMessages (SaveMessage env msg) n with
  | (n, Err err) =>
      ((if err == ErrMessageIDConflict then n else recordError n ErrorCategoryStorage err), Err err)
  | r => r
  end.

(** [msg.ThreadID = threadID] *)
Definition with_thread (m : Message) (threadID : string) : Message :=
  mkMessage (msg_ID m) (msg_ContactID m) (msg_ConversationID m) (msg_ConversationType m) threadID
    (msg_Content m) (msg_Timestamp m) (msg_Direction m) (msg_Status m) (msg_ContentType m) (msg_Edited m).

(** flows.go: three rounds. *)
Fixpoint AllocateOutboundMessage (rounds : nat) (envs : nat -> AllocEnv)
    (contactID content threadID : string) : op Message :=
  match rounds with
  | O => failM (errorsNew "failed to allocate unique message id")
  | Datatypes.S rounds =>
      let! msgID := liftM (al_id (envs O)) in
      let msg := with_thread (NewOutboundMessage msgID contactID content (al_now (envs O)))
                   (TrimSpace threadID) in
      fun n =>
      match saveOutbound (al_save (envs O)) msg n with
      | (n, Err err) =>
          if err == ErrMessageIDConflict
          then AllocateOutboundMessage rounds (fun i => envs (Datatypes.S i)) contactID content threadID n
          else (n, Err err)
      | (n, Ok _) => (n, Ok msg)
      end
  end.

Definition sendMessageWithThread (se : SendEnv) (contactID content threadID : string) : op string :=
  let! '(contactID, content) := liftM (ValidateSendMessageInput contactID content) in
  let! n := getM in
  rejectM (negb (HasContact (nd_manager n) contactID)) (errorsNew "contact is not added") ;;!
  let draft := with_thread (NewOutboundMessage "draft" contactID content (se_now se)) threadID in
  let! wire := (fun n => match BuildStoredMessageWire (se_get se) (se_call se) draft n with
                         | (n, Err werr) => (recordError n ErrorCategoryCrypto werr, Err werr)
                         | r => r
                         end) in
  let! msg := AllocateOutboundMessage 3 (se_alloc se) contactID content threadID in
  modifyM (fun n => notify n (NoteMessageNew contactID msg)) ;;!
  publishQueuedMessage hardening (se_queue se) msg contactID wire.

Definition SendMessage (se : SendEnv) (contactID content : string) : op string :=
  sendMessageWithThread se contactID content "".

Definition SendMessageInThread (se : SendEnv) (contactID content threadID : string) : op string :=
  let threadID := TrimSpace threadID in
  rejectM (threadID == "") (errorsNew "thread id is required") ;;!
  sendMessageWithThread se contactID content threadID.

Definition EditMessage (env : StoreEnv) (now : Z) (contactID messageID content : string) : op Message :=
  let! '(contactID, messageID, content) := liftM (ValidateEditMessageInput contactID messageID content) in
  let! n := getM in
  let '(msg, ok) := GetMessage (nd_messages n) messageID in
  liftM (match EnsureEditableMessage msg ok contactID with Some err => Err err | None => Ok tt end) ;;!
  let! '(updated, ok) := recordStorageErr
    (atMessages (UpdateMessageContent env now messageID (string_bytes content) (msg_ContentType msg))) in
  rejectM (negb ok) (errorsNew "message not found") ;;!
  modifyM (fun n => notify n (NoteMessageEdited contactID messageID (msg_Status updated))) ;;!
  retM updated.

Definition DeleteMessage (env : StoreEnv) (contactID messageID : string) : op unit :=
  let contactID := TrimSpace contactID in
  let messageID := TrimSpace messageID in
  rejectM ((contactID == "") || (messageID == "")) (errorsNew "invalid params") ;;!
  let! deleted := recordStorageErr (atMessages (MessageStore.DeleteMessage env contactID messageID)) in
  rejectM (negb deleted) (errorsNew "message not found") ;;!
  modifyM (fun n => notify n (NoteMessageDeleted contactID messageID)).

Definition ClearMessages (env : StoreEnv) (contactID : string) : op Z :=
  let contactID := TrimSpace contactID in
  rejectM (contactID == "") (errorsNew "invalid params") ;;!
  let! deleted := recordStorageErr (atMessages (MessageStore.ClearMessages env contactID)) in
  modifyM (fun n => notify n (NoteMessagesCleared contactID deleted)) ;;!
  retM deleted.

(** outbound_delivery.go: the message that is listed changes only when the status was stored. *)
Definition applyAutoRead (re : ReadEnv) (message : Message) (contactID : string) (n : node)
    : node * Message :=
  match updateMessageStatusAndNotify (rd_status re) (msg_ID message) "read" n with
  | (n, false) => (n, message)
  | (n, true) =>
      let message := mkMessage (msg_ID message) (msg_ContactID message) (msg_ConversationID message)
        (msg_ConversationType message) (msg_ThreadID message) (msg_Content message)
        (msg_Timestamp message) (msg_Direction message) "read" (msg_ContentType message)
        (msg_Edited message) in
      match sendReceipt hardening (rd_now re) (rd_id re) (rd_publish re) contactID (msg_ID message) "read" n with
      | (n, Err err) => (recordError n ErrorCategoryNetwork err, message)
      | (n, Ok _) => (n, message)
      end
  end.

(** The loop over the page, the environments named by message. *)
Fixpoint autoReadAll (envs : string -> ReadEnv) (contactID : string) (messages : list Message) (n : node)
    : node * list Message :=
  match messages with
  | [] => (n, [])
  | msg :: rest =>
      let '(n, msg) := if negb (ShouldAutoMarkRead msg) then (n, msg)
                       else applyAutoRead (envs (msg_ID msg)) msg contactID n in
      let '(n, rest) := autoReadAll envs contactID rest n in
      (n, msg :: rest)
  end.

Definition GetMessages (envs : string -> ReadEnv) (contactID : string) (limit offset : Z)
    : op (list Message) :=
  let! contactID := liftM (ValidateListMessagesContactID contactID) in
  fun n =>
  let '(n, messages) := autoReadAll envs contactID (ListMessages (nd_messages n) contactID limit offset) n in
  (n, Ok messages).

Definition GetMessagesByThread (envs : string -> ReadEnv) (contactID threadID : string)
    (limit offset : Z) : op (list Message) :=
  let! contactID := liftM (ValidateListMessagesContactID contactID) in
  let threadID := TrimSpace threadID in
  rejectM (threadID == "") (errorsNew "thread id is required") ;;!
  fun n =>
  let '(n, messages) := autoReadAll envs contactID
    (ListMessagesByConversationThread (nd_messages n) contactID ConversationTypeDirect threadID
       limit offset) n in
  (n, Ok messages).

Definition GetMessageStatus (messageID : string) : op (string * string) :=
  let! messageID := liftM (ValidateMessageStatusID messageID) in
  let! n := getM in
  let '(msg, ok) := GetMessage (nd_messages n) messageID in
  liftM (BuildMessageStatus msg ok).

Definition ServiceInitSession (ce : CallEnv) (contactID : string) (peerPublicKey : list Z)
    : op SessionView :=
  let contactID := NormalizeSessionContactID contactID in
  let! n := getM in
  liftM (match EnsureVerifiedContact (HasVerifiedContact (nd_manager n) contactID) with
         | Some err => Err err | None => Ok tt end) ;;!
  fun n =>
  match atSessions (InitSession ce (id_ID (im_identity (nd_manager n))) contactID peerPublicKey) n with
  | (n, Err err) => (recordError n ErrorCategoryCrypto err, Err err)
  | (n, Ok state) => (n, Ok (MapSessionState state))
  end.

(** [outcomes] are those of drawing an identifier and of the network, by contact. The second result is
    the delivery error, which is returned along with the revocation. *)
Definition ServiceRevokeDevice (now : Z) (outcomes : string -> result error string * option error)
    (deviceID : string) : op (DeviceRevocation * option (Z * Z * gmap string error)) :=
  let! rev := atManager (RevokeDevice now (NormalizeDeviceID deviceID)) in
  fun n =>
  let contacts := Contacts (nd_manager n) in
  match BuildDeviceRevocationPayload rev with
  | Err err => (recordError n ErrorCategoryAPI err, Err err)
  | Ok payload =>
      let outcomes c := let '(id, network) := outcomes c in
        (id, if nd_networking n then network else Some (errorsNew "networking is not started")) in
      let '(sent, failures) :=
        DispatchDeviceRevocation (id_ID (im_identity (nd_manager n))) contacts payload outcomes in
      let n := with_nd_sent n sent in
      let n := fold_left (fun n f => recordError n (rf_Category f) (rf_Err f)) failures n in
      (n, Ok (rev, BuildDeviceRevocationDeliveryError (Z.of_nat (length contacts)) failures))
  end.

(** ** inbound_service.go *)

(** service_wiring.go: EvaluateInboundPolicy *)
Definition evaluateInboundPolicy (n : node) (senderID : string) : PolicyDecision :=
  let decision := EvaluateInboundMessagePolicy
    (mkPolicyInput (HasContact (nd_manager n) senderID)
       (IsBlockedSender (ib_privacy (nd_inbox n)) senderID) (CurrentMode (ib_privacy (nd_inbox n)))) in
  if pd_Action decision == InboundMessageActionReject
  then mkPolicyDecision InboundPolicyActionReject (pd_Reason decision)
         (Some (InboundPolicyError (pd_Reason decision))) else
  if pd_Action decision == InboundMessageActionQueueRequest
  then mkPolicyDecision InboundPolicyActionQueue (pd_Reason decision) None
  else mkPolicyDecision InboundPolicyActionAccept (pd_Reason decision) None.

Definition asDomain (dec : PolicyDecision) : InboundMessagePolicyDecision :=
  mkDecision (pd_action dec) (pd_reason dec).

(** The payload, when it can be decoded; [None] in it when it is not valid (which is recorded). *)
Definition decodeInboundWire (msg : InboundPrivateMessage) (n : node)
    : node * option (option WirePayload) :=
  match unmarshalJSON (A := WirePayload) (im_Payload msg) with
  | Err _ => (n, None)
  | Ok wire =>
      match ValidateWirePayload wire with
      | Some err => (recordError n ErrorCategoryAPI err, Some None)
      | None => (n, Some (Some wire))
      end
  end.

(** [ResolveInboundContent] on the session manager, which is only asked for sealed contents. *)
Definition resolveContent (ce : CallEnv) (msg : InboundPrivateMessage) (wire : WirePayload) (n : node)
    : node * (list Z * string * option error) :=
  if wp_Kind wire == "e2ee" then
    let '(n, r) := atSessions (DecryptMessage ce (im_SenderID msg) (wp_Envelope wire)) n in
    (n, ResolveInboundContent msg wire r)
  else (n, ResolveInboundContent msg wire (Err ErrSessionNotFound)).

(** runtime_inbound.go: persistInboundMessage *)
Definition persistInboundMessage (env : StoreEnv) (senderID : string) (msg : Message) (n : node)
    : node * bool :=
  match atMessages (SaveMessage env msg) n with
  | (n, Err err) =>
      if err == ErrMessageIDConflict then (n, false) else (recordError n ErrorCategoryStorage err, false)
  | (n, Ok _) => (notify n (NoteMessageNew senderID msg), true)
  end.

Definition persistRequest (env : StoreEnv) (now : Z) (msg : Message) (n : node) : node * bool :=
  let '(i, ok) := persistInboundRequest env now msg (nd_inbox n) in (with_nd_inbox n i, ok).

Definition persistInboundAndSendReceipt (ie : InboundEnv) (msg : InboundPrivateMessage)
    (threadID : string) (content : list Z) (contentType : string)
    (persist : Message -> node -> node * bool) (n : node) : node :=
  match persist (BuildInboundStoredMessage msg threadID content contentType (ie_now ie)) n with
  | (n, false) => n
  | (n, true) =>
      if negb (HasVerifiedContact (nd_manager n) (im_SenderID msg)) then n else
      let re := ie_receipt ie in
      match sendReceipt hardening (rd_now re) (rd_id re) (rd_publish re) (im_SenderID msg) (im_ID msg)
              "delivered" n with
      | (n, Err err) => recordError n ErrorCategoryNetwork err
      | (n, Ok _) => n
      end
  end.

Definition recordOpt (n : node) (category : string) (err : option error) : node :=
  match err with Some err => recordError n category err | None => n end.

Definition HandleInboundMessageRequest (ie : InboundEnv) (msg : InboundPrivateMessage) (n : node) : node :=
  let persist threadID content contentType n :=
    persistInboundAndSendReceipt ie msg threadID content contentType
      (persistRequest (ie_request ie) (ie_now ie)) n in
  match decodeInboundWire msg n with
  | (n, None) => persist "" (im_Payload msg) "text" n
  | (n, Some None) => n
  | (n, Some (Some wire)) =>
      if rh_Handled (ResolveInboundReceiptHandling wire) then n else
      let '(n, (content, contentType, decryptErr)) := resolveContent (ie_call ie) msg wire n in
      persist (wp_ThreadID wire) content contentType (recordOpt n ErrorCategoryCrypto decryptErr)
  end.

(** Whether the group handler gets as far as to ask for the content: the checks before it. *)
Definition reachesContent (sts : gmap string GroupState) (now : Z) (blocked : bool)
    (seen : gmap string Z) (msg : InboundPrivateMessage) (wire : WirePayload) : bool :=
  negb blocked &&
  match sts !! TrimSpace (wp_ConversationID wire) with
  | None => false
  | Some state =>
      bool_decide (snd (ValidateInboundGroupMessageState state (TrimSpace (im_SenderID msg))
                          (wp_MembershipVersion wire) (wp_GroupKeyVersion wire)) = None)
      && bool_decide (snd (guardInboundGroupReplay "message" (wp_ConversationID wire)
                             (wp_SenderDeviceID wire)
                             (if TrimSpace (wp_EventID wire) == "" then TrimSpace (im_ID msg)
                              else TrimSpace (wp_EventID wire)) now now seen) = None)
  end.

(** What the group handler reports; metrics and log lines are left out. *)
Definition groupMessageNote (n : node) (e : MessageEffect) : node :=
  match e with
  | MRecordError category err => recordError n category err
  | MNotify groupID stored => notify n (NoteGroupMessage groupID stored)
  | MAggregate _ | MWarn _ => n
  end.

(** runtime_inbound.go: handleInboundGroupMessage. The content is resolved when it is asked for. *)
Definition handleGroupMessage (ie : InboundEnv) (msg : InboundPrivateMessage) (wire : WirePayload)
    (n : node) : node :=
  let g := nd_groups n in
  let isBlocked := IsBlockedSender (ib_privacy (nd_inbox n)) in
  let reached := reachesContent (view (iw_reg g)) (ie_now ie) (isBlocked (im_SenderID msg)) (iw_seen g)
                   msg wire in
  let '(n, r) :=
    if reached && (wp_Kind wire == "e2ee")
    then atSessions (DecryptMessage (ie_call ie) (im_SenderID msg) (wp_Envelope wire)) n
    else (n, Err ErrSessionNotFound) in
  let w := handleInboundGroupMessage (repo := storeRepository (ie_save ie)) (iw_reg g) (ie_now ie)
             isBlocked r msg wire (mkMessageWorld (nd_messages n, [ie_save ie]) (iw_seen g) []) in
  let n := with_nd_messages n (fst (mw_repo w)) in
  let n := with_nd_groups n (mkInboundWorld (iw_reg g) (mw_seen w) (iw_effects g)) in
  fold_left groupMessageNote (mw_log w) n.

(** runtime_inbound.go: handleInboundGroupEvent *)
Definition handleGroupEvent (ie : InboundEnv) (msg : InboundPrivateMessage) (wire : WirePayload)
    (n : node) : node :=
  with_nd_groups n
    (handleInboundGroupEvent unmarshalPayload parseRFC3339Nano gpersist
       (Some (IsBlockedSender (ib_privacy (nd_inbox n)))) (Some (id_ID (im_identity (nd_manager n))))
       true (ie_now ie)
       (mkWire (wp_EventID wire) (wp_ConversationID wire) (wp_MembershipVersion wire)
          (wp_EventType wire) (wp_Plain wire) (im_SenderID msg) (im_Recipient msg))
       (wp_SenderDeviceID wire) (dev_ID <$> wp_Device wire) (nd_groups n)).

(** The check of the sender: [None] when it is refused. *)
Definition checkSender (ie : InboundEnv) (decision : PolicyDecision) (msg : InboundPrivateMessage)
    (wire : WirePayload) (n : node) : node * bool :=
  let hasCard := bool_decide (is_Some (wp_Card wire)) in
  let verified := HasVerifiedContact (nd_manager n) (im_SenderID msg) in
  if ShouldAutoAddUnknownSenderContact (asDomain decision) (wp_ConversationType wire) verified hasCard then
    match atManager (AddContactByIdentityID (ie_now ie) (im_SenderID msg) (im_SenderID msg)) n with
    | (n, Err err) => (recordError n ErrorCategoryCrypto err, true)
    | (n, Ok _) => (n, true)
    end
  else
    match ValidateInboundContactTrust (ie_now ie) (im_SenderID msg) wire (nd_manager n) with
    | (m, Some (alertCode, err)) =>
        (notify (recordError (with_nd_manager n m) ErrorCategoryCrypto err)
           (NoteSecurityAlert alertCode (im_SenderID msg) err), false)
    | (m, None) => (with_nd_manager n m, true)
    end.

(** The rest of [processInboundWire]: [inl] when the message has been handled. *)
Definition dispatchWire (ie : InboundEnv) (msg : InboundPrivateMessage) (wire : WirePayload) (n : node)
    : node * option (WirePayload * list Z * string) :=
  if wp_ConversationType wire == ConversationTypeGroup then
    (if wp_EventType wire == GroupWireEventTypeMessage then handleGroupMessage ie msg wire n
     else handleGroupEvent ie msg wire n, None)
  else
  let receiptHandling := ResolveInboundReceiptHandling wire in
  if rh_Handled receiptHandling then
    (if rh_ShouldUpdate receiptHandling
     then fst (updateMessageStatusAndNotify (ie_status ie) (rh_MessageID receiptHandling)
                 (rh_Status receiptHandling) n)
     else n, None)
  else
  let '(n, (content, contentType, decryptErr)) := resolveContent (ie_call ie) msg wire n in
  (recordOpt n ErrorCategoryCrypto decryptErr, Some (wire, content, contentType)).

(** [None]: the message has been handled. Otherwise what is to be stored. *)
Definition processInboundWire (ie : InboundEnv) (decision : PolicyDecision) (msg : InboundPrivateMessage)
    (n : node) : panics (node * option (string * list Z * string)) :=
  match decodeInboundWire msg n with
  | (n, None) => Returns (n, Some ("", im_Payload msg, "text"))
  | (n, Some None) => Returns (n, None)
  | (n, Some (Some wire)) =>
      match checkSender ie decision msg wire n with
      | (n, false) => Returns (n, None)
      | (n, true) =>
          match (if wp_Kind wire == "device_revoke" then wp_Revocation wire else None) with
          | Some revocation =>
              match atManager (ApplyDeviceRevocation (im_SenderID msg) revocation) n with
              | (n, Err err) => Returns (recordError n ErrorCategoryCrypto err, None)
              | (n, Ok _) => Returns (n, None)
              end
          | None =>
              let dispatch :=
                let '(n, r) := dispatchWire ie msg wire n in
                Returns (n, match r with
                            | None => None
                            | Some (wire, content, contentType) =>
                                Some (wp_ThreadID wire, content, contentType)
                            end) in
              if ShouldBypassInboundDeviceAuth (asDomain decision) (wp_ConversationType wire)
                   (HasVerifiedContact (nd_manager n) (im_SenderID msg))
                   (bool_decide (is_Some (wp_Card wire)))
              then dispatch else
              match ValidateInboundDeviceAuth (nd_manager n) msg wire with
              | Panics => Panics
              | Returns (Some err) => Returns (recordError n (ErrorCategory err) err, None)
              | Returns None => dispatch
              end
          end
      end
  end.

Definition HandleIncomingPrivateMessage (ie : InboundEnv) (msg : InboundPrivateMessage) (n : node)
    : panics node :=
  let decision := evaluateInboundPolicy n (im_SenderID msg) in
  if pd_action decision == InboundPolicyActionReject
  then Returns (recordOpt n ErrorCategoryCrypto (pd_err decision)) else
  if pd_action decision == InboundPolicyActionQueue
  then Returns (HandleInboundMessageRequest ie msg n) else
  match processInboundWire ie decision msg n with
  | Panics => Panics
  | Returns (n, None) => Returns n
  | Returns (n, Some (threadID, content, contentType)) =>
      Returns (persistInboundAndSendReceipt ie msg threadID content contentType
                 (persistInboundMessage (ie_save ie) (im_SenderID msg)) n)
  end.

(** ** What leaves the contacts alone *)

Create HintDb manager.

Lemma update_manager env id status (n : node) :
  nd_manager (fst (updateMessageStatusAndNotify env id status n)) = nd_manager n.
Proof.
  unfold updateMessageStatusAndNotify, atMessages. destruct (UpdateMessageStatus _ _ _ _) as [s [b|e]]; [|done].
  unfold notifyMessageStatus. by destruct (GetMessage _ _) as [? []].
Qed.

Lemma receipt_inbox now id pe c m status (n : node) :
  nd_inbox (fst (sendReceipt hardening now id pe c m status n)) = nd_inbox n.
Proof.
  unfold sendReceipt, networkContext, bindM, getM, rejectM, failM, retM, liftM.
  destruct (negb (HasVerifiedContact (nd_manager n) c)); [done|].
  destruct id as [id|]; [|done]. destruct (nd_networking n); [|done].
  by destruct (publish_spec hardening pe id c (NewReceiptWire m status now) n) as [(e & ->)|(m' & -> & _)].
Qed.

Lemma receipt_manager now id pe c m status (n : node) :
  nd_manager (fst (sendReceipt hardening now id pe c m status n)) = nd_manager n.
Proof. unfold nd_manager. by rewrite receipt_inbox. Qed.

Lemma resolve_manager ce msg wire (n : node) : nd_manager (fst (resolveContent ce msg wire n)) = nd_manager n.
Proof.
  unfold resolveContent, atSessions. case_bool_decide; [|done]. by destruct (DecryptMessage _ _ _ _).
Qed.

Lemma recordOpt_manager (n : node) c e : nd_manager (recordOpt n c e) = nd_manager n.
Proof. by destruct e. Qed.

Lemma groupNotes_manager l (n : node) : nd_manager (fold_left groupMessageNote l n) = nd_manager n.
Proof. revert n. induction l as [|e l IH]; intros n; [done|]. cbn. rewrite IH. by destruct e. Qed.

Lemma handleGroupMessage_manager ie msg wire (n : node) :
  nd_manager (handleGroupMessage ie msg wire n) = nd_manager n.
Proof.
  unfold handleGroupMessage. destruct (reachesContent _ _ _ _ _ _ && _).
  - unfold atSessions. destruct (DecryptMessage _ _ _ _) as [s r]. by rewrite groupNotes_manager.
  - by rewrite groupNotes_manager.
Qed.

Lemma dispatch_manager ie msg wire (n : node) : nd_manager (fst (dispatchWire ie msg wire n)) = nd_manager n.
Proof.
  unfold dispatchWire. case_bool_decide; cbn [fst].
  - case_bool_decide; [apply handleGroupMessage_manager|done].
  - destruct (rh_Handled _); cbn [fst].
    + destruct (rh_ShouldUpdate _); [apply update_manager|done].
    + pose proof (resolve_manager (ie_call ie) msg wire n) as Hr.
      destruct (resolveContent _ _ _ _) as [n1 [[c t] e]]. cbn [fst] in *. by rewrite recordOpt_manager.
Qed.

Lemma persist_manager ie msg thread content typ persist (n : node) :
  (forall m n, nd_manager (fst (persist m n)) = nd_manager n) ->
  nd_manager (persistInboundAndSendReceipt ie msg thread content typ persist n) = nd_manager n.
Proof.
  intros Hp. unfold persistInboundAndSendReceipt.
  specialize (Hp (BuildInboundStoredMessage msg thread content typ (ie_now ie)) n).
  destruct (persist _ _) as [n1 []]; cbn [fst] in Hp; [|done].
  destruct (negb _); [done|].
  pose proof (receipt_manager (rd_now (ie_receipt ie)) (rd_id (ie_receipt ie)) (rd_publish (ie_receipt ie))
    (im_SenderID msg) (im_ID msg) "delivered" n1) as Hr.
  destruct (sendReceipt _ _ _ _ _ _ _) as [n2 [u|e]]; cbn [fst] in Hr; cbn; by rewrite <- Hp, <- Hr.
Qed.

Lemma persistInbound_manager env sender m (n : node) :
  nd_manager (fst (persistInboundMessage env sender m n)) = nd_manager n.
Proof.
  unfold persistInboundMessage, atMessages. destruct (SaveMessage _ _ _) as [s [u|e]]; [done|].
  by case_bool_decide.
Qed.

Lemma persistRequest_manager env now m (n : node) :
  nd_manager (fst (persistRequest env now m n)) = nd_manager n.
Proof.
  unfold persistRequest, persistInboundRequest. destruct (HasMessageID _ _); [done|].
  unfold commitInbox. destruct (RequestPersist _ _ _) as [s [u|e]]; done.
Qed.

Lemma request_manager ie msg (n : node) : nd_manager (HandleInboundMessageRequest ie msg n) = nd_manager n.
Proof.
  unfold HandleInboundMessageRequest, decodeInboundWire.
  destruct (unmarshalJSON _) as [wire|]; [|apply persist_manager, persistRequest_manager].
  destruct (ValidateWirePayload wire); [done|]. destruct (rh_Handled _); [done|].
  pose proof (resolve_manager (ie_call ie) msg wire n) as Hr.
  destruct (resolveContent _ _ _ _) as [n1 [[c t] e]]. cbn [fst] in Hr.
  rewrite persist_manager by (intros; apply persistRequest_manager). by rewrite recordOpt_manager.
Qed.

(** The calls of the identity manager that a message from the network makes. *)
Definition network_call (c : IdCall) : Prop :=
  match c with IAddContact _ _ | IAddContactByID _ _ _ | IApplyRevocation _ _ => True | _ => False end.

Definition reached_by (m m' : Manager) : Prop :=
  exists cs, Forall network_call cs /\ m' = run_ids m cs.

Lemma reached_refl m : reached_by m m.
Proof. by exists []. Qed.
Lemma reached_call m c : network_call c -> reached_by m (run_id m c).
Proof. intros Hc. exists [c]. split; [by constructor|done]. Qed.
Lemma reached_trans m1 m2 m3 : reached_by m1 m2 -> reached_by m2 m3 -> reached_by m1 m3.
Proof.
  intros (cs & Hcs & ->) (cs' & Hcs' & ->). exists (cs ++ cs')%list.
  split; [by apply Forall_app|]. unfold run_ids. by rewrite fold_left_app.
Qed.

Lemma trust_reached now sender wire m :
  reached_by m (fst (ValidateInboundContactTrust now sender wire m)).
Proof.
  unfold ValidateInboundContactTrust. destruct (HasVerifiedContact m sender), (wp_Card wire) as [card|];
    try apply reached_refl; destruct (checkCard _ _); try apply reached_refl.
  - destruct (ContactPublicKey m sender); [|apply reached_refl]. destruct (negb _); apply reached_refl.
  - pose proof (reached_call m (IAddContact now card) I) as H. cbn in H.
    by destruct (AddContact now card m) as [m' [u|e]].
Qed.

Lemma checkSender_reached ie decision msg wire (n : node) :
  reached_by (nd_manager n) (nd_manager (fst (checkSender ie decision msg wire n))).
Proof.
  unfold checkSender. destruct (ShouldAutoAddUnknownSenderContact _ _ _ _).
  - pose proof (reached_call (nd_manager n)
      (IAddContactByID (ie_now ie) (im_SenderID msg) (im_SenderID msg)) I) as H. cbn in H.
    unfold atManager. by destruct (AddContactByIdentityID _ _ _ _) as [m [u|e]].
  - pose proof (trust_reached (ie_now ie) (im_SenderID msg) wire (nd_manager n)) as H.
    by destruct (ValidateInboundContactTrust _ _ _ _) as [m [[a e]|]].
Qed.

(** Whatever arrives, the identity manager only sees additions of contacts and revocations. *)
Lemma incoming_reached ie msg (n n' : node) :
  HandleIncomingPrivateMessage ie msg n = Returns n' -> reached_by (nd_manager n) (nd_manager n').
Proof.
  unfold HandleIncomingPrivateMessage. set (decision := evaluateInboundPolicy n (im_SenderID msg)).
  case_bool_decide; [intros [= <-]; rewrite recordOpt_manager; apply reached_refl|].
  case_bool_decide; [intros [= <-]; rewrite request_manager; apply reached_refl|].
  destruct (processInboundWire ie decision msg n) as [[n1 r]|] eqn:E; [|done].
  assert (H1 : reached_by (nd_manager n) (nd_manager n1)).
  { revert E. unfold processInboundWire, decodeInboundWire.
    destruct (unmarshalJSON _) as [wire|]; [|intros [= <- _]; apply reached_refl].
    destruct (ValidateWirePayload wire); [intros [= <- _]; apply reached_refl|].
    pose proof (checkSender_reached ie decision msg wire n) as Hc.
    destruct (checkSender ie decision msg wire n) as [n2 []]; cbn [fst] in Hc; [|by intros [= <- _]].
    destruct (if wp_Kind wire == "device_revoke" then wp_Revocation wire else None) as [rev|].
    - pose proof (reached_call (nd_manager n2) (IApplyRevocation (im_SenderID msg) rev) I) as H2. cbn in H2.
      unfold atManager. destruct (ApplyDeviceRevocation _ _ _) as [m [u|e]]; cbn [fst] in H2;
        intros [= <- _]; by eapply reached_trans.
    - pose proof (dispatch_manager ie msg wire n2) as Hd.
      destruct (dispatchWire ie msg wire n2) as [n3 r3]. cbn [fst] in Hd.
      destruct (ShouldBypassInboundDeviceAuth _ _ _ _); [intros [= <- _]; by rewrite Hd|].
      destruct (ValidateInboundDeviceAuth _ _ _) as [[e|]|]; [by intros [= <- _]| |done].
      intros [= <- _]. by rewrite Hd. }
  destruct r as [[[thread content] typ]|]; intros [= <-]; [|done].
  by rewrite persist_manager by (intros; apply persistInbound_manager).
Qed.

(** ** What a message from the network can do *)

(** Everything but the contacts, the revocations and the logs. *)
Definition core (n : node) :=
  (nd_messages n, nd_sessions n, nd_groups n, ib_inbox (nd_inbox n), nd_sent n).

Lemma recordOpt_core (n : node) c e : core (recordOpt n c e) = core n.
Proof. by destruct e. Qed.

Lemma checkSender_core ie decision msg wire (n : node) :
  core (fst (checkSender ie decision msg wire n)) = core n.
Proof.
  unfold checkSender, atManager. destruct (ShouldAutoAddUnknownSenderContact _ _ _ _).
  - by destruct (AddContactByIdentityID _ _ _ _) as [m [u|e]].
  - by destruct (ValidateInboundContactTrust _ _ _ _) as [m [[a e]|]].
Qed.

Lemma trust_verified now sender wire m :
  HasVerifiedContact m sender = true -> fst (ValidateInboundContactTrust now sender wire m) = m.
Proof.
  intros Hv. unfold ValidateInboundContactTrust. rewrite Hv. destruct (wp_Card wire) as [card|]; [|done].
  destruct (checkCard _ _); [done|]. destruct (ContactPublicKey _ _); [|done]. by destruct (negb _).
Qed.

Lemma checkSender_verified ie decision msg wire (n : node) :
  HasVerifiedContact (nd_manager n) (im_SenderID msg) = true ->
  nd_manager (fst (checkSender ie decision msg wire n)) = nd_manager n.
Proof.
  intros Hv. unfold checkSender, ShouldAutoAddUnknownSenderContact. rewrite Hv.
  replace (if TrimSpace _ == "group" then false else _) with false
    by (destruct (_ == "group"); [done|]; by destruct (negb _)).
  pose proof (trust_verified (ie_now ie) (im_SenderID msg) wire (nd_manager n) Hv) as H.
  by destruct (ValidateInboundContactTrust _ _ _ _) as [m [[a e]|]].
Qed.

Lemma HasVerified_contact m id :
  HasVerifiedContact m id = true ->
  exists c, im_contacts m !! id = Some c /\ verifiedKey c = true /\ HasContact m id = true.
Proof.
  unfold HasVerifiedContact, HasContact. destruct (im_contacts m !! id) as [c|]; [|done]. by exists c.
Qed.

(** A blocked sender, and a known one that is not. *)
Lemma incoming_blocked ie msg (n : node) :
  IsBlockedSender (ib_privacy (nd_inbox n)) (im_SenderID msg) = true ->
  HandleIncomingPrivateMessage ie msg n
  = Returns (recordError n ErrorCategoryCrypto ErrInboundBlockedSender).
Proof.
  intros Hb. unfold HandleIncomingPrivateMessage, evaluateInboundPolicy, EvaluateInboundMessagePolicy.
  cbn [pi_IsBlocked]. rewrite Hb. reflexivity.
Qed.

Definition trusted : PolicyDecision :=
  mkPolicyDecision InboundPolicyActionAccept InboundMessageReasonTrustedContact None.

Lemma incoming_trusted ie msg (n : node) :
  HasContact (nd_manager n) (im_SenderID msg) = true ->
  IsBlockedSender (ib_privacy (nd_inbox n)) (im_SenderID msg) = false ->
  HandleIncomingPrivateMessage ie msg n
  = match processInboundWire ie trusted msg n with
    | Panics => Panics
    | Returns (n, None) => Returns n
    | Returns (n, Some (threadID, content, contentType)) =>
        Returns (persistInboundAndSendReceipt ie msg threadID content contentType
                   (persistInboundMessage (ie_save ie) (im_SenderID msg)) n)
    end.
Proof.
  intros Hk Hb. unfold HandleIncomingPrivateMessage, evaluateInboundPolicy, EvaluateInboundMessagePolicy.
  cbn [pi_IsBlocked pi_IsKnownContact]. rewrite Hk, Hb. reflexivity.
Qed.

(** The payload is signed by a device that the contact's key certifies and that is not revoked;
    the signature covers the identifiers of the message and all of the payload but its padding. *)
Definition signed_by_contact (m : Manager) (c : Contact) (msg : InboundPrivateMessage) (wire : WirePayload)
    : Prop :=
  exists device auth, wp_Device wire = Some device
    /\ marshalJSON (authOf (im_ID msg) (im_SenderID msg) (im_Recipient msg) wire) = Ok auth
    /\ dev_ID device ∉ revokedSet m (im_SenderID msg)
    /\ edVerify (ct_PublicKey c)
         (deviceCertBytes (im_SenderID msg) (dev_ID device) (dev_PublicKey device)) (dev_CertSig device) = true
    /\ edVerify (dev_PublicKey device) auth (wp_DeviceSig wire) = true.

Lemma device_auth_signed m msg wire c :
  im_contacts m !! im_SenderID msg = Some c ->
  ValidateInboundDeviceAuth m msg wire = Returns None -> signed_by_contact m c msg wire.
Proof.
  intros Hc. unfold ValidateInboundDeviceAuth, BuildWireAuthPayload.
  destruct (ValidateWirePayload wire); [done|]. destruct (marshalJSON _) as [auth|] eqn:Ea; [|done].
  destruct (wp_Device wire) as [device|] eqn:Ed; [|done]. destruct (wp_DeviceSig wire) as [|b sig] eqn:Es; [done|].
  rewrite <- Es. unfold VerifyInboundDevice. rewrite Hc. destruct (negb (verifiedKey c)); [done|].
  case_bool_decide as Hr; [done|]. unfold goVerify. destruct (_ =? _)%nat; [|done].
  destruct (edVerify (ct_PublicKey c) _ _) eqn:E1; [|done]. destruct (_ =? _)%nat; [|done].
  destruct (edVerify (dev_PublicKey device) _ _) eqn:E2; [|done]. intros _. exists device, auth.
  by rewrite Ed.
Qed.

(** C1: In the name of a verified contact, only the contact acts. Whatever payload arrives under the
    identifier of a verified contact, if handling it changes anything besides revocations and
    logs (a message, a session, a group, a request, something sent), then either the payload is
    not a wire payload at all, or it is signed by a device that the pinned key of the contact
    certifies and that is not revoked. *)
Theorem inbound_effects_are_signed (ie : InboundEnv) (msg : InboundPrivateMessage) (n n' : node)
    (c : Contact) :
  im_contacts (nd_manager n) !! im_SenderID msg = Some c -> verifiedKey c = true ->
  HandleIncomingPrivateMessage ie msg n = Returns n' ->
  core n' = core n
  \/ (exists e, unmarshalJSON (A := WirePayload) (im_Payload msg) = Err e)
  \/ exists wire, unmarshalJSON (im_Payload msg) = Ok wire /\ ValidateWirePayload wire = None
       /\ signed_by_contact (nd_manager n) c msg wire.
Proof.
  intros Hc Hv. assert (Hver : HasVerifiedContact (nd_manager n) (im_SenderID msg) = true)
    by (unfold HasVerifiedContact; by rewrite Hc).
  destruct (IsBlockedSender (ib_privacy (nd_inbox n)) (im_SenderID msg)) eqn:Eb.
  { rewrite incoming_blocked by done. intros [= <-]. by left. }
  rewrite incoming_trusted by (done || (unfold HasContact; by rewrite Hc)).
  unfold processInboundWire, decodeInboundWire.
  destruct (unmarshalJSON (im_Payload msg)) as [wire|e] eqn:Eu; [|intros _; right; left; by exists e].
  destruct (ValidateWirePayload wire) eqn:Evw; [intros [= <-]; by left|].
  pose proof (checkSender_core ie trusted msg wire n) as Hcore.
  pose proof (checkSender_verified ie trusted msg wire n Hver) as Hm.
  destruct (checkSender ie trusted msg wire n) as [n1 []]; cbn [fst] in *; [|intros [= <-]; by left].
  destruct (if wp_Kind wire == "device_revoke" then wp_Revocation wire else None) as [rev|].
  { unfold atManager. destruct (ApplyDeviceRevocation _ _ _) as [m [u|e]]; intros [= <-]; left; exact Hcore. }
  replace (ShouldBypassInboundDeviceAuth _ _ _ _) with false
    by (unfold ShouldBypassInboundDeviceAuth; by destruct (_ == "group")).
  rewrite Hm. destruct (ValidateInboundDeviceAuth (nd_manager n) msg wire) as [[e|]|] eqn:Ea; [|..|done].
  - intros [= <-]. left. exact Hcore.
  - intros _. right. right. exists wire. split_and!; [done|done|]. by apply device_auth_signed.
Qed.

Lemma SaveMessage_new env msg (s : MessageStore) :
  writes env -> ms_messages s !! msg_ID msg = None ->
  exists d, SaveMessage env msg s
    = (with_messages (with_disk s d) (<[msg_ID msg := NormalizeMessageConversation msg]> (ms_messages s)), Ok tt).
Proof.
  intros Hw Hn. unfold SaveMessage, bindM, getM, modifyM. change (msg_ID (NormalizeMessageConversation msg)) with (msg_ID msg).
  rewrite Hn. destruct (Hw (<[msg_ID msg := NormalizeMessageConversation msg]> (ms_messages s)) (ms_pending s) s)
    as (d & ->). by exists d.
Qed.

(** The message is stored and announced. *)
Lemma persist_new env (sender : string) (m : Message) (n : node) :
  ms_messages (nd_messages n) !! msg_ID m = None -> writes env ->
  exists n1, persistInboundMessage env sender m n = (n1, true)
    /\ ms_messages (nd_messages n1) = <[msg_ID m := NormalizeMessageConversation m]> (ms_messages (nd_messages n))
    /\ NoteMessageNew sender m ∈ ib_notes (nd_inbox n1)
    /\ nd_manager n1 = nd_manager n /\ nd_networking n1 = nd_networking n /\ nd_sent n1 = nd_sent n.
Proof.
  intros Hn Hw. unfold persistInboundMessage, atMessages.
  destruct (SaveMessage_new env m (nd_messages n) Hw Hn) as (d & ->). eexists. split; [reflexivity|].
  split_and!; [done| |done..]. cbn. rewrite elem_of_app. right. by left.
Qed.

(** Then the receipt is sent; it is not part of the stored state. *)
Lemma persist_receipt ie msg thread content typ persist (n n1 : node) :
  persist (BuildInboundStoredMessage msg thread content typ (ie_now ie)) n = (n1, true) ->
  let n' := persistInboundAndSendReceipt ie msg thread content typ persist n in
  ms_messages (nd_messages n') = ms_messages (nd_messages n1)
  /\ ib_notes (nd_inbox n') = ib_notes (nd_inbox n1)
  /\ (HasVerifiedContact (nd_manager n1) (im_SenderID msg) = true ->
      let re := ie_receipt ie in
      nd_sent n' = nd_sent (fst (sendReceipt hardening (rd_now re) (rd_id re) (rd_publish re)
                     (im_SenderID msg) (im_ID msg) "delivered" n1))).
Proof.
  intros Hp n'. unfold n', persistInboundAndSendReceipt. rewrite Hp.
  destruct (HasVerifiedContact (nd_manager n1) (im_SenderID msg)); cbn [negb]; [|done].
  pose proof (receipt_inbox (rd_now (ie_receipt ie)) (rd_id (ie_receipt ie)) (rd_publish (ie_receipt ie))
    (im_SenderID msg) (im_ID msg) "delivered" n1) as Hr.
  destruct (sendReceipt _ _ _ _ _ _ _ _) as [n2 [u|e]]; cbn [fst] in Hr; unfold nd_messages; cbn;
    by rewrite Hr.
Qed.

(** A payload that is not JSON gets past all of that. Whoever can send under the identifier
    of an accepted contact (the transport does not authenticate it) gets an arbitrary
    non-JSON text stored and announced as a delivered message of that contact, without any
    signature. *)
Theorem unparsable_payload_is_stored_unsigned (ie : InboundEnv) (msg : InboundPrivateMessage) (n : node)
    (e : error) :
  HasContact (nd_manager n) (im_SenderID msg) = true ->
  IsBlockedSender (ib_privacy (nd_inbox n)) (im_SenderID msg) = false ->
  unmarshalJSON (A := WirePayload) (im_Payload msg) = Err e ->
  ms_messages (nd_messages n) !! im_ID msg = None -> writes (ie_save ie) ->
  let stored := BuildInboundStoredMessage msg "" (im_Payload msg) "text" (ie_now ie) in
  exists n', HandleIncomingPrivateMessage ie msg n = Returns n'
    /\ ms_messages (nd_messages n')
       = <[im_ID msg := NormalizeMessageConversation stored]> (ms_messages (nd_messages n))
    /\ NoteMessageNew (im_SenderID msg) stored ∈ ib_notes (nd_inbox n').
Proof.
  intros Hk Hb Hu Hnew Hw stored. rewrite incoming_trusted by done.
  unfold processInboundWire, decodeInboundWire. rewrite Hu. eexists. split; [reflexivity|].
  destruct (persist_new (ie_save ie) (im_SenderID msg) stored n Hnew Hw) as (n1 & E & Hm & Hnote & _).
  destruct (persist_receipt ie msg "" (im_Payload msg) "text" _ n n1 E) as (Hm' & Hnote' & _).
  by rewrite Hm', Hnote'.
Qed.

(** C8: No message from the network touches a pinned key. Whatever arrives, from whomever, under any
    privacy setting: when the handler returns, every verified contact still has the key it had, and
    the invariants of the identity (its own keys and devices, the identifiers of its contacts)
    still hold. *)
Theorem incoming_messages_keep_pinned_keys {laws : IdentityCryptoLaws crypto} (ie : InboundEnv)
    (msg : InboundPrivateMessage) (n n' : node) :
  HandleIncomingPrivateMessage ie msg n = Returns n' ->
  (forall id k, ContactPublicKey (nd_manager n) id = Some k -> ContactPublicKey (nd_manager n') id = Some k)
  /\ (manager_ok (nd_manager n) -> manager_ok (nd_manager n')).
Proof.
  intros H. apply incoming_reached in H as (cs & Hcs & ->). split.
  - intros id k. apply (run_ids_keep (fun m => ContactPublicKey m id = Some k) network_call); [|done].
    intros m c Hc. apply key_kept; by destruct c.
  - by apply run_ids_ok.
Qed.

(** A blocked sender leaves no trace: whatever it sends, the only effect is one recorded error. *)
Theorem blocked_sender_changes_nothing (ie : InboundEnv) (msg : InboundPrivateMessage) (n : node) :
  IsBlockedSender (ib_privacy (nd_inbox n)) (im_SenderID msg) = true ->
  HandleIncomingPrivateMessage ie msg n
  = Returns (recordError n ErrorCategoryCrypto ErrInboundBlockedSender).
Proof. apply incoming_blocked. Qed.

(** *** Sending *)

(** Nothing changes but stored messages and logs. *)
Definition quiet (n n' : node) : Prop :=
  nd_sent n' = nd_sent n /\ nd_networking n' = nd_networking n /\ nd_pending n' = nd_pending n
  /\ ib_identity (nd_inbox n') = ib_identity (nd_inbox n).

Lemma quiet_trans n1 n2 n3 : quiet n1 n2 -> quiet n2 n3 -> quiet n1 n3.
Proof. intros (?&?&?&?) (?&?&?&?). unfold quiet. split_and!; congruence. Qed.
Lemma quiet_notify (n : node) e : quiet n (notify n e).
Proof. done. Qed.

Definition is_stored (n : node) (msg : Message) : Prop :=
  exists m, ms_messages (nd_messages n) !! msg_ID msg = Some m /\ messagesEqual m msg = true.

Lemma saveOutbound_spec env msg (n : node) :
  quiet n (fst (saveOutbound env msg n))
  /\ (snd (saveOutbound env msg n) = Ok tt -> is_stored (fst (saveOutbound env msg n)) msg).
Proof.
  unfold saveOutbound, atMessages. destruct (SaveMessage env msg (nd_messages n)) as [s r] eqn:E.
  assert (Hs : ms_pending s = nd_pending n /\ (r = Ok tt ->
    exists m, ms_messages s !! msg_ID msg = Some m /\ messagesEqual m msg = true)).
  { destruct (ms_messages (nd_messages n) !! msg_ID msg) as [m|] eqn:Em.
    - rewrite (SaveMessage_found env msg (nd_messages n) m Em) in E. injection E as <- <-. split; [done|].
      destruct (messagesEqual m msg) eqn:Eq; [|done]. by exists m.
    - unfold SaveMessage, bindM, getM, modifyM in E.
      change (msg_ID (NormalizeMessageConversation msg)) with (msg_ID msg) in E. rewrite Em in E.
      destruct (persist_disk env (<[msg_ID msg := NormalizeMessageConversation msg]>
        (ms_messages (nd_messages n))) (ms_pending (nd_messages n)) (nd_messages n)) as (d & [u|e] & Ep);
        rewrite Ep in E; injection E as <- <-; (split; [done|]); [|done].
      intros _. exists (NormalizeMessageConversation msg). cbn. rewrite lookup_insert_eq. split; [done|].
      apply messagesEqual_refl. }
  destruct Hs as [Hp Hr]. destruct r as [[]|e]; cbn [fst snd].
  - split; [by split_and!|]. intros _. by apply Hr.
  - destruct (e == ErrMessageIDConflict); (split; [by split_and!|done]).
Qed.

Lemma alloc_spec rounds envs to content thread (n : node) :
  quiet n (fst (AllocateOutboundMessage rounds envs to content thread n))
  /\ forall msg, snd (AllocateOutboundMessage rounds envs to content thread n) = Ok msg ->
     is_stored (fst (AllocateOutboundMessage rounds envs to content thread n)) msg
     /\ exists id now, msg = with_thread (NewOutboundMessage id to content now) (TrimSpace thread).
Proof.
  revert envs n. induction rounds as [|rounds IH]; intros envs n; [by split; [split_and!|]|].
  cbn [AllocateOutboundMessage]. unfold bindM, liftM. destruct (al_id (envs 0%nat)) as [id|e]; [|by split; [split_and!|]].
  set (msg := with_thread _ _). destruct (saveOutbound_spec (al_save (envs 0%nat)) msg n) as [Hq Hs].
  destruct (saveOutbound (al_save (envs 0%nat)) msg n) as [n1 [[]|e]]; cbn [fst snd] in *.
  - split; [done|]. intros m [= <-]. split; [by apply Hs|]. by eexists _, _.
  - case_bool_decide; [|by split]. destruct (IH (fun i => envs (Datatypes.S i)) n1) as [Hq' Hm].
    split; [|done]. by eapply quiet_trans.
Qed.

Lemma build_networking env ce msg (n : node) :
  nd_networking (fst (BuildStoredMessageWire env ce msg n)) = nd_networking n.
Proof.
  unfold BuildStoredMessageWire, atSessions. destruct (BuildWireForOutboundMessage _ _ _ _) as [s [w|e]]; [done|].
  case_bool_decide; [|done]. by destruct (SelfContactCard _ _).
Qed.

(** The steps of a send that gets as far as publishing. *)
Lemma send_inv se to content thread (a a' : node) r :
  sendMessageWithThread se to content thread a = (a', r) ->
  (exists e, r = Err e /\ quiet a a')
  \/ exists a1 wire a2 msg, HasContact (nd_manager a) (TrimSpace to) = true
      /\ BuildStoredMessageWire (se_get se) (se_call se)
        (with_thread (NewOutboundMessage "draft" (TrimSpace to) (TrimSpace content) (se_now se)) thread) a
        = (a1, Ok wire)
      /\ quiet a a2 /\ is_stored a2 msg
      /\ (exists id now, msg = with_thread (NewOutboundMessage id (TrimSpace to) (TrimSpace content) now)
                                  (TrimSpace thread))
      /\ publishQueuedMessage hardening (se_queue se) msg (TrimSpace to) wire a2 = (a', r).
Proof.
  unfold sendMessageWithThread, ValidateSendMessageInput, bindM, liftM, getM, rejectM, failM, retM, modifyM.
  destruct (_ || _); [intros [= <- <-]; left; eexists; by split; [|split_and!]|].
  destruct (HasContact (nd_manager a) (TrimSpace to)); cbn [negb];
    [|intros [= <- <-]; left; eexists; by split; [|split_and!]].
  set (draft := with_thread _ _). pose proof (build_inbox (se_get se) (se_call se) draft a) as [Hbi Hbs].
  pose proof (build_networking (se_get se) (se_call se) draft a) as Hnet.
  destruct (BuildStoredMessageWire _ _ _ a) as [a1 [wire|e]]; cbn [fst] in *.
  2:{ intros [= <- <-]. left. exists e. split; [done|]. unfold quiet, nd_pending, nd_messages. cbn.
      by rewrite Hbi. }
  assert (Hq1 : quiet a a1) by (unfold quiet, nd_pending, nd_messages; by rewrite Hbi).
  destruct (alloc_spec 3 (se_alloc se) (TrimSpace to) (TrimSpace content) thread a1) as [Hq2 Hs].
  destruct (AllocateOutboundMessage 3 _ _ _ _ a1) as [a2 [msg|e]]; cbn [fst snd] in *.
  - destruct (Hs msg eq_refl) as [Hst Hid]. intros E. right.
    exists a1, wire, (notify a2 (NoteMessageNew (TrimSpace to) msg)), msg.
    split_and!; [done|done| |done|done|done].
    eapply quiet_trans; [done|]. eapply quiet_trans; [done|apply quiet_notify].
  - intros [= <- <-]. left. exists e. split; [done|]. by eapply quiet_trans.
Qed.

(** Storing a status keeps the rest, whatever the file system does. *)
Lemma finish_keeps env1 env2 id status (n : node) msg :
  is_stored n msg -> exists m,
  ms_messages (nd_messages (removePending env2 id (fst (updateMessageStatusAndNotify env1 id status n))))
    !! msg_ID msg = Some m /\ msg_Content m = msg_Content msg /\ msg_Direction m = msg_Direction msg.
Proof.
  intros (m0 & Hm0 & H0%messagesEqual_fields).
  set (n1 := fst (updateMessageStatusAndNotify env1 id status n)).
  assert (H1 : exists m, ms_messages (nd_messages n1) !! msg_ID msg = Some m
    /\ msg_Content m = msg_Content msg /\ msg_Direction m = msg_Direction msg).
  { unfold n1, updateMessageStatusAndNotify, atMessages, UpdateMessageStatus, bindM, getM, retM, modifyM.
    destruct (ms_messages (nd_messages n) !! id) as [old|] eqn:E.
    - edestruct (persist_disk env1) as (d & [u|e] & ->); [|by exists m0].
      unfold notifyMessageStatus. destruct (GetMessage _ _) as [? []]; cbn;
        (destruct (decide (id = msg_ID msg)) as [->|];
          [rewrite lookup_insert_eq; assert (old = m0) as -> by congruence; by eexists
          |rewrite lookup_insert_ne by done; by exists m0]).
    - cbn. unfold notifyMessageStatus. destruct (GetMessage _ _) as [? []]; cbn; by exists m0. }
  destruct H1 as (m & Hm & H1). exists m. split; [|done]. rewrite <- Hm.
  unfold removePending, atMessages, RemovePending, bindM, getM, modifyM.
  by edestruct (persist_disk env2) as (d & [u|e] & ->).
Qed.

(** What publishing a stored message leaves when it reports success. *)
Lemma queued_accounted qe msg to wire (n n' : node) id :
  is_stored n msg -> publishQueuedMessage hardening qe msg to wire n = (n', Ok id) ->
  id = msg_ID msg
  /\ (exists m, ms_messages (nd_messages n') !! id = Some m
        /\ msg_Content m = msg_Content msg /\ msg_Direction m = msg_Direction msg)
  /\ ((exists w, nd_sent n' = (nd_sent n ++ [w])%list /\ carries (nd_manager n) w id to wire)
      \/ (nd_sent n' = nd_sent n /\ exists e, nd_pending n' !! id
            = Some (mkPending msg 1 (NextRetryTime (qe_now qe) 1) e))).
Proof.
  intros Hst. unfold publishQueuedMessage, bindM, networkContext.
  assert (Herr : forall e (n1 : node), nd_inbox n1 = nd_inbox n -> nd_sent n1 = nd_sent n ->
    (if ErrorCategory e == ErrorCategoryNetwork then
        match atMessages (AddOrUpdatePending (qe_pending qe) msg 1 (NextRetryTime (qe_now qe) 1)
                            (ErrorText e)) (recordError n1 (ErrorCategory e) e) with
        | (n, Err perr) => (recordError n ErrorCategoryStorage perr, Err perr)
        | (n, Ok _) => (n, Ok (msg_ID msg))
        end
      else (recordError n1 (ErrorCategory e) e, Err e)) = (n', Ok id) ->
    id = msg_ID msg /\ nd_sent n' = nd_sent n /\ ms_messages (nd_messages n') = ms_messages (nd_messages n)
    /\ exists e, nd_pending n' !! id = Some (mkPending msg 1 (NextRetryTime (qe_now qe) 1) e)).
  { intros e n1 Hi Hs. case_bool_decide; [|done]. unfold atMessages, AddOrUpdatePending, bindM, getM, modifyM.
    edestruct (persist_disk (qe_pending qe)) as (d & [u|perr] & ->); [|done]. intros [= <- <-].
    unfold nd_pending, nd_messages. cbn. rewrite Hi, Hs. split_and!; [done..|]. rewrite lookup_insert_eq. by eexists. }
  assert (Hkept : ms_messages (nd_messages n') = ms_messages (nd_messages n) ->
    id = msg_ID msg -> exists m, ms_messages (nd_messages n') !! id = Some m
      /\ msg_Content m = msg_Content msg /\ msg_Direction m = msg_Direction msg).
  { intros -> ->. destruct Hst as (m & Hm & Heq%messagesEqual_fields). by exists m. }
  destruct (nd_networking n).
  2:{ intros (Hid & Hs & Hm & Hp)%Herr; [|done..]. split_and!; [done|by apply Hkept|by right]. }
  destruct (publish_spec hardening (qe_publish qe) (msg_ID msg) to wire n) as [(e & ->)|(m & -> & Hc)].
  { intros (Hid & Hs & Hm & Hp)%Herr; [|done..]. split_and!; [done|by apply Hkept|by right]. }
  intros [= <- <-]. unfold markMessageAsSent. split; [done|]. split.
  - apply finish_keeps. done.
  - left. exists m. by rewrite finish_sent.
Qed.

(** A message that was accepted for sending is accounted for. When a send returns an
    identifier, whatever the network and the file system did meanwhile: the message is in the store
    under it, outgoing, with the trimmed text; and either exactly one payload for it has been handed
    to the network, signed by the identity, or it waits in the queue for its first retry. *)
Theorem sent_messages_are_accounted_for (se : SendEnv) (to content thread id : string) (n n' : node) :
  sendMessageWithThread se to content thread n = (n', Ok id) ->
  (exists m, ms_messages (nd_messages n') !! id = Some m
     /\ msg_Content m = string_bytes (TrimSpace content) /\ msg_Direction m = "out")
  /\ ((exists w wire, nd_sent n' = (nd_sent n ++ [w])%list
          /\ carries (nd_manager n) w id (TrimSpace to) wire /\ directWire wire)
      \/ (nd_sent n' = nd_sent n /\ exists p, nd_pending n' !! id = Some p
            /\ pm_RetryCount p = 1 /\ pm_NextRetry p = qe_now (se_queue se) + 2 * Second)).
Proof.
  intros [(e & ? & _)|(a1 & wire & a2 & msg & _ & Hb & Hq & Hst & (mid & now & Hmsg) & Hp)]%send_inv; [done|].
  destruct (queued_accounted _ _ _ _ _ _ _ Hst Hp) as (Hid & (m & Hm & Hc & Hd) & Hcase).
  destruct Hq as (Hs & _ & _ & Hi). unfold nd_manager in Hcase at 1. rewrite Hi, Hs in Hcase. split.
  - exists m. by rewrite Hc, Hd, Hmsg.
  - destruct Hcase as [(w & Hw & Hcar)|(Hw & e & Hpend)]; [left; exists w, wire; split_and!; try done|right].
    + by apply build_direct in Hb.
    + split; [done|]. eexists. split; [done|]. done.
Qed.

(** *** Delivery *)

(** [b] knows the identity of [a] by its key, does not block it, and has not seen its active device
    revoked. *)
Definition accepts (b : node) (a : Manager) : Prop :=
  (exists c, im_contacts (nd_manager b) !! id_ID (im_identity a) = Some c
     /\ ct_PublicKey c = id_SigningPublicKey (im_identity a))
  /\ IsBlockedSender (ib_privacy (nd_inbox b)) (id_ID (im_identity a)) = false
  /\ im_activeDeviceID a ∉ revokedSet (nd_manager b) (id_ID (im_identity a)).

Context {laws : IdentityCryptoLaws crypto}.

Lemma accepts_verified b a :
  manager_ok a -> accepts b a ->
  HasContact (nd_manager b) (id_ID (im_identity a)) = true
  /\ HasVerifiedContact (nd_manager b) (id_ID (im_identity a)) = true
  /\ ContactPublicKey (nd_manager b) (id_ID (im_identity a)) = Some (id_SigningPublicKey (im_identity a)).
Proof.
  intros Ha ((c & Hc & Hk) & _ & _). unfold HasContact, HasVerifiedContact, ContactPublicKey. rewrite Hc.
  assert (Hv : verifiedKey c = true).
  { unfold verifiedKey. rewrite Hk, (mo_pub _ Ha), (genuine_pub _ (mo_key _ Ha)). apply Nat.eqb_refl. }
  by rewrite Hv, Hk.
Qed.

(** The check of the sender passes a payload without a card, and one with the sender's own. *)
Lemma checkSender_accepts ie b a msg wire :
  manager_ok a -> accepts b a -> im_SenderID msg = id_ID (im_identity a) ->
  wp_Card wire = None \/ (exists name card, SelfContactCard a name = Ok card /\ wp_Card wire = Some card) ->
  checkSender ie trusted msg wire b = (with_nd_manager b (nd_manager b), true).
Proof.
  intros Ha Hb Hs Hcard. destruct (accepts_verified b a Ha Hb) as (_ & Hv & Hk). rewrite <- Hs in Hv, Hk.
  unfold checkSender, ShouldAutoAddUnknownSenderContact. rewrite Hv.
  replace (if TrimSpace _ == "group" then false else _) with false by (by destruct (_ == "group")).
  unfold ValidateInboundContactTrust. rewrite Hv.
  destruct Hcard as [->|(name & card & Hself & ->)]; [done|].
  destruct (SelfContactCard_valid a name Ha) as (card' & Hself' & Hid & Hpk & Hver).
  assert (card' = card) as -> by congruence. unfold checkCard. rewrite Hid, Hs, bool_decide_true by done. cbn [negb].
  rewrite Hver, <- Hs, Hk, Hpk, bool_decide_true by done. done.
Qed.

(** The check of the device passes what [a]'s active device signed. *)
Lemma device_accepts b a msg wire pad device sig auth :
  manager_ok a -> accepts b a -> im_SenderID msg = id_ID (im_identity a) -> ValidateWirePayload wire = None ->
  marshalJSON (authOf (im_ID msg) (id_ID (im_identity a)) (im_Recipient msg) wire) = Ok auth ->
  ActiveDeviceAuth a auth = Ok (device, sig) ->
  ValidateInboundDeviceAuth (nd_manager b) msg (with_wp_device (with_wp_padding wire pad) (Some device) sig)
  = Returns None.
Proof.
  intros Ha ((c & Hc & Hk) & _ & Hr) Hs Hval Hauth Hdev. unfold ValidateInboundDeviceAuth, BuildWireAuthPayload.
  change (ValidateWirePayload (with_wp_device _ _ _)) with (ValidateWirePayload wire). rewrite Hval.
  change (authOf (im_ID msg) (im_SenderID msg) (im_Recipient msg) (with_wp_device _ _ _))
    with (authOf (im_ID msg) (im_SenderID msg) (im_Recipient msg) wire). rewrite Hs, Hauth. cbn [wp_Device wp_DeviceSig with_wp_device].
  pose proof Hdev as Hdev'. unfold ActiveDeviceAuth in Hdev'.
  destruct (im_devices a !! im_activeDeviceID a) as [d|] eqn:Ed; [|done].
  destruct (dev_IsRevoked _); [done|]. injection Hdev' as <- <-.
  destruct (mo_devices _ Ha _ _ Ed) as (Hid & _ & Hg & _).
  pose proof (edSign_length (dp_priv d) auth (proj1 Hg)) as Hlen.
  destruct (edSign (dp_priv d) auth) as [|x sig] eqn:Es; [done|].
  rewrite (active_device_accepted a (nd_manager b) c auth (x :: sig) (dp_model d)); try done.
  by rewrite Hid.
Qed.

(** A direct payload that passes the checks is resolved to its content. *)
Lemma process_direct ie msg wire b content typ r :
  unmarshalJSON (im_Payload msg) = Ok wire -> ValidateWirePayload wire = None ->
  checkSender ie trusted msg wire b = (with_nd_manager b (nd_manager b), true) ->
  ValidateInboundDeviceAuth (nd_manager b) msg wire = Returns None ->
  wp_ConversationType wire = "" -> wp_Kind wire = "plain" \/ wp_Kind wire = "e2ee" ->
  (wp_Kind wire = "e2ee" ->
   snd (DecryptMessage (ie_call ie) (im_SenderID msg) (wp_Envelope wire) (nd_sessions b)) = r) ->
  ResolveInboundContent msg wire r = (content, typ, None) ->
  exists s, processInboundWire ie trusted msg b
    = Returns (with_nd_sessions b s, Some (wp_ThreadID wire, content, typ)).
Proof.
  intros Hu Hval Hc Hd Ht Hk Hr Hres. unfold processInboundWire, decodeInboundWire. rewrite Hu, Hval, Hc.
  replace (wp_Kind wire == "device_revoke") with false by (destruct Hk as [->| ->]; reflexivity).
  replace (ShouldBypassInboundDeviceAuth _ _ _ _) with false
    by (unfold ShouldBypassInboundDeviceAuth; rewrite Ht; reflexivity).
  replace (nd_manager (with_nd_manager b (nd_manager b))) with (nd_manager b) by done. rewrite Hd.
  replace (with_nd_manager b (nd_manager b)) with b
    by (destruct b as [i ? ? ? ?], i as [? ? idw ? ? ? ?], idw; done).
  unfold dispatchWire. rewrite Ht. change (("" : string) == ConversationTypeGroup) with false. cbn iota.
  replace (rh_Handled (ResolveInboundReceiptHandling wire)) with false
    by (unfold ResolveInboundReceiptHandling; destruct Hk as [->| ->]; reflexivity).
  unfold resolveContent, atSessions. destruct Hk as [Hk|Hk]; rewrite Hk in *.
  - exists (nd_sessions b). change (("plain" : string) == "e2ee") with false. cbn iota.
    unfold ResolveInboundContent in *. rewrite Hk in *. rewrite bool_decide_true in * by done.
    injection Hres as <- <-. by destruct b.
  - specialize (Hr eq_refl). destruct (DecryptMessage _ _ _ _) as [s r'] eqn:E. cbn [snd] in Hr. subst r'.
    exists s. rewrite bool_decide_true by done. rewrite Hres. done.
Qed.

Lemma receipt_sends now rid pe c id status (n : node) :
  sends n (fst (sendReceipt hardening now (Ok rid) pe c id status n)) rid c
    (fun r => r = NewReceiptWire id status now).
Proof.
  unfold sendReceipt, networkContext, bindM, getM, rejectM, failM, retM, liftM.
  destruct (negb (HasVerifiedContact (nd_manager n) c)); [by left|].
  destruct (nd_networking n); [|by left].
  destruct (publish_spec hardening pe rid c (NewReceiptWire id status now) n) as [(e & ->)|(m & -> & Hc)];
    [by left|]. right. by exists m, (NewReceiptWire id status now).
Qed.

(** The payload of a send that reached the network. *)
Lemma sent_inv se to content thread id (a a' : node) w :
  sendMessageWithThread se to content thread a = (a', Ok id) -> nd_sent a' = (nd_sent a ++ [w])%list ->
  exists wire pad device sig auth typ,
    im_ID w = id /\ im_SenderID w = id_ID (im_identity (nd_manager a)) /\ ValidateWirePayload wire = None
    /\ marshalJSON (authOf (im_ID w) (id_ID (im_identity (nd_manager a))) (im_Recipient w) wire) = Ok auth
    /\ ActiveDeviceAuth (nd_manager a) auth = Ok (device, sig)
    /\ marshalJSON (with_wp_device (with_wp_padding wire pad) (Some device) sig) = Ok (im_Payload w)
    /\ wp_ConversationType wire = "" /\ (wp_Kind wire = "plain" \/ wp_Kind wire = "e2ee")
    /\ (wp_Card wire = None \/ exists name card,
         SelfContactCard (nd_manager a) name = Ok card /\ wp_Card wire = Some card)
    /\ ResolveInboundContent w (with_wp_device (with_wp_padding wire pad) (Some device) sig)
         (Ok (string_bytes (TrimSpace content))) = (string_bytes (TrimSpace content), typ, None).
Proof.
  intros [(e & ? & _)|(a1 & wire & a2 & msg & _ & Hb & Hq & Hst & _ & Hp)]%send_inv Hsent; [done|].
  destruct (queued_accounted _ _ _ _ _ _ _ Hst Hp) as (_ & _ & Hcase). destruct Hq as (Hs & _ & _ & Hi).
  rewrite Hs in Hcase. unfold nd_manager in Hcase at 1. rewrite Hi in Hcase.
  destruct Hcase as [(w' & Hw & Hid & Hto & Hfrom & Hval & pad & device & sig & auth & Hauth & Hdev & Hraw)
                    |(Hw & _)].
  2:{ exfalso. apply (f_equal length) in Hw. rewrite Hsent, length_app in Hw. cbn in Hw. lia. }
  rewrite Hsent in Hw. apply app_inj_tail in Hw as [_ <-]. rewrite <- Hid, <- Hto in Hauth.
  apply build_inv in Hb as [(env & ->)|(card & Hself & ->)].
  - eexists _, pad, device, sig, auth, "e2ee". split_and!; try done; [by right|by left].
  - eexists _, pad, device, sig, auth, "text". split_and!; try done; [by left|right; by eexists _, card].
Qed.

(** C2: What is sent arrives. When a send hands a payload to the network, the peer it reaches, if
    it knows the sender's key, does not block the sender and has not seen the device revoked,
    stores it under the same identifier as a delivered message of the sender with exactly the
    trimmed text, announces it, and hands out no other payload than a receipt for it. Without a
    session the text travels as it is; with one, the peer's session has to open the envelope. *)
Theorem sent_message_arrives (se : SendEnv) (ie : InboundEnv) (to content thread id : string)
    (a a' b : node) (w : PrivateMessage) :
  sendMessageWithThread se to content thread a = (a', Ok id) -> nd_sent a' = (nd_sent a ++ [w])%list ->
  manager_ok (nd_manager a) -> accepts b (nd_manager a) ->
  (forall wire, marshalJSON wire = Ok (im_Payload w) ->
   unmarshalJSON (A := WirePayload) (im_Payload w) = Ok wire) ->
  (forall wire, unmarshalJSON (im_Payload w) = Ok wire -> wp_Kind wire = "e2ee" ->
   snd (DecryptMessage (ie_call ie) (im_SenderID w) (wp_Envelope wire) (nd_sessions b))
   = Ok (string_bytes (TrimSpace content))) ->
  ms_messages (nd_messages b) !! id = None -> writes (ie_save ie) ->
  exists b' m, HandleIncomingPrivateMessage ie w b = Returns b'
    /\ ms_messages (nd_messages b') !! id = Some (NormalizeMessageConversation m)
    /\ NoteMessageNew (id_ID (im_identity (nd_manager a))) m ∈ ib_notes (nd_inbox b')
    /\ msg_ContactID m = id_ID (im_identity (nd_manager a)) /\ msg_Direction m = "in"
    /\ msg_Status m = "delivered" /\ msg_Content m = string_bytes (TrimSpace content)
    /\ forall rid, rd_id (ie_receipt ie) = Ok rid ->
       sends b b' rid (im_SenderID w) (fun r => r = NewReceiptWire id "delivered" (rd_now (ie_receipt ie))).
Proof.
  intros Hsend Hsent Ha Hb Hread Hdec Hnew Hw.
  destruct (sent_inv _ _ _ _ _ _ _ _ Hsend Hsent) as (wire & pad & device & sig & auth & typ & Hid & Hfrom
    & Hval & Hauth & Hdev & Hraw & Hct & Hkind & Hcard & Hres).
  pose proof (Hread _ Hraw) as Hu. set (wire' := with_wp_device _ _ _) in Hu.
  destruct (accepts_verified b (nd_manager a) Ha Hb) as (Hhas & Hver & _).
  pose proof (proj1 (proj2 Hb)) as Hblk. rewrite <- Hfrom in Hhas, Hver, Hblk.
  destruct (process_direct ie w wire' b (string_bytes (TrimSpace content)) typ
    (Ok (string_bytes (TrimSpace content)))) as (s & Hproc); try done.
  - by apply (checkSender_accepts ie b (nd_manager a)).
  - eapply device_accepts; eauto.
  - by apply Hdec.
  - rewrite incoming_trusted, Hproc by done.
    set (m := BuildInboundStoredMessage w (wp_ThreadID wire') (string_bytes (TrimSpace content)) typ (ie_now ie)).
    destruct (persist_new (ie_save ie) (im_SenderID w) m (with_nd_sessions b s)) as
      (n1 & Hp & Hm & Hnote & Hman & Hnet & Hs1); [by rewrite <- Hid in Hnew|done|].
    destruct (persist_receipt ie w _ _ _ _ _ n1 Hp) as (Hm' & Hnote' & Hs').
    eexists _, m. split; [reflexivity|]. rewrite Hm', Hm, Hnote', <- Hid, <- Hfrom, lookup_insert_eq.
    split_and!; try done. intros rid Hrid. rewrite Hman in Hs'. specialize (Hs' Hver). cbn zeta in Hs'. rewrite Hrid in Hs'.
    destruct (receipt_sends (rd_now (ie_receipt ie)) rid (rd_publish (ie_receipt ie)) (im_SenderID w) (im_ID w)
      "delivered" n1) as [E|(r & wr & E & Hc & ->)]; rewrite E, Hs1 in Hs'; [by left|right].
    rewrite Hman in Hc. by exists r, (NewReceiptWire (im_ID w) "delivered" (rd_now (ie_receipt ie))).
Qed.

(** A receipt is believed about any message. The handler looks at the identifier in the receipt
    alone: whichever verified contact signs it, the message with that identifier gets the status,
    be it one to another contact, an incoming one or one of a group. *)
Theorem receipts_mark_any_message (ie : InboundEnv) (msg : InboundPrivateMessage) (wire : WirePayload)
    (receipt : MessageReceipt) (n : node) :
  HasVerifiedContact (nd_manager n) (im_SenderID msg) = true ->
  IsBlockedSender (ib_privacy (nd_inbox n)) (im_SenderID msg) = false ->
  unmarshalJSON (im_Payload msg) = Ok wire -> ValidateWirePayload wire = None -> wp_Card wire = None ->
  wp_ConversationType wire = "" -> wp_Kind wire = "receipt" -> wp_Receipt wire = Some receipt ->
  ShouldApplyReceiptStatus (rc_Status receipt) = true ->
  ValidateInboundDeviceAuth (nd_manager n) msg wire = Returns None -> writes (ie_status ie) ->
  exists n', HandleIncomingPrivateMessage ie msg n = Returns n'
    /\ ms_messages (nd_messages n')
       = status_set (ms_messages (nd_messages n)) (rc_MessageID receipt) (rc_Status receipt).
Proof.
  intros Hv Hb Hu Hval Hcard Ht Hk Hr Hst Hdev Hw.
  destruct (HasVerified_contact _ _ Hv) as (c & _ & _ & Hhas). rewrite incoming_trusted by done.
  unfold processInboundWire, decodeInboundWire. rewrite Hu, Hval.
  assert (Hc : checkSender ie trusted msg wire n = (n, true)).
  { unfold checkSender, ShouldAutoAddUnknownSenderContact, ValidateInboundContactTrust. rewrite Hv, Hcard.
    replace (if TrimSpace _ == "group" then false else _) with false by (by destruct (_ == "group")).
    by destruct n as [i ? ? ? ?], i as [? ? idw ? ? ? ?], idw. }
  rewrite Hc, Hk. change (("receipt" : string) == "device_revoke") with false. cbn iota.
  unfold ShouldBypassInboundDeviceAuth. rewrite Ht. change (TrimSpace "" == "group") with false.
  change (negb (pd_Reason (asDomain trusted) == InboundMessageReasonUnknownEveryoneMode)) with true. cbn iota.
  rewrite Hdev. unfold dispatchWire. rewrite Ht. change (("" : string) == ConversationTypeGroup) with false. cbn iota.
  assert (Hh : ResolveInboundReceiptHandling wire = mkHandling true true (rc_MessageID receipt) (rc_Status receipt)).
  { unfold ResolveInboundReceiptHandling. rewrite Hk, Hr, Hst. reflexivity. }
  rewrite Hh. cbn [rh_Handled rh_ShouldUpdate rh_MessageID rh_Status]. eexists. split; [reflexivity|].
  by apply updateStatus_spec.
Qed.

Lemma crypto_category : normalizeErrorCategory ErrorCategoryCrypto = ErrorCategoryCrypto.
Proof.
  unfold normalizeErrorCategory. rewrite ToLower_ascii by ascii_const. reflexivity.
Qed.

(** A revoked device signs nothing. *)
Lemma publish_revoked pe id to wire hardened delay auth d (n : node) :
  im_devices (nd_manager n) !! im_activeDeviceID (nd_manager n) = Some d -> dev_IsRevoked (dp_model d) = true ->
  harden hardening (pb_draw pe) wire = Ok (hardened, delay) -> pb_cancelled pe = None ->
  BuildWireAuthPayload id (id_ID (im_identity (nd_manager n))) to hardened = Ok auth ->
  publishSignedWireWithContext hardening pe id to wire n
  = (n, Err (categorizedError ErrorCategoryCrypto ErrDeviceRevoked)).
Proof.
  intros Hd Hrev Hh Hcan Hauth. unfold publishSignedWireWithContext, bindM, liftM, wrap. rewrite Hh.
  unfold waitWithContext. rewrite Hcan. replace (if delay <=? 0 then None else None) with (@None error)
    by (by destruct (_ <=? _)).
  unfold ComposeSignedPrivateMessage. rewrite Hauth.
  unfold BuildWireAuthPayload in Hauth. destruct (ValidateWirePayload hardened); [done|]. cbn [bindR].
  unfold ActiveDeviceAuth. rewrite Hd, Hrev. unfold WrapCategorizedError. cbn [asCategorized].
  by rewrite crypto_category.
Qed.

(** The first identifier that is drawn is free. *)
Lemma alloc_first rounds envs to content thread id (n : node) :
  al_id (envs 0%nat) = Ok id -> ms_messages (nd_messages n) !! id = None -> writes (al_save (envs 0%nat)) ->
  let msg := with_thread (NewOutboundMessage id to content (al_now (envs 0%nat))) (TrimSpace thread) in
  exists n', AllocateOutboundMessage (Datatypes.S rounds) envs to content thread n = (n', Ok msg)
    /\ ms_messages (nd_messages n') !! id = Some (NormalizeMessageConversation msg) /\ quiet n n'.
Proof.
  intros Hid Hnew Hw msg. cbn [AllocateOutboundMessage]. unfold bindM, liftM. rewrite Hid. fold msg.
  unfold saveOutbound, atMessages. destruct (SaveMessage_new (al_save (envs 0%nat)) msg (nd_messages n)) as (d & ->);
    [done..|]. eexists. split; [reflexivity|]. split; [|done]. cbn. by rewrite lookup_insert_eq.
Qed.

(** A message that cannot be signed stays pending for ever. When the active device is revoked, a
    send stores the message with the status pending and then reports an error, which is not one
    of the network: the message is not sent, not queued for a retry and not marked as failed. *)
Theorem unsigned_message_stays_pending (se : SendEnv) (to content thread id : string) (n n1 : node)
    (wire hardened : WirePayload) (delay : Z) (auth : list Z) (d : devicePrivate) :
  im_devices (nd_manager n) !! im_activeDeviceID (nd_manager n) = Some d -> dev_IsRevoked (dp_model d) = true ->
  TrimSpace to <> "" -> TrimSpace content <> "" -> HasContact (nd_manager n) (TrimSpace to) = true ->
  nd_networking n = true ->
  BuildStoredMessageWire (se_get se) (se_call se)
    (with_thread (NewOutboundMessage "draft" (TrimSpace to) (TrimSpace content) (se_now se)) thread) n
  = (n1, Ok wire) ->
  al_id (se_alloc se 0) = Ok id -> ms_messages (nd_messages n) !! id = None -> writes (al_save (se_alloc se 0)) ->
  harden hardening (pb_draw (qe_publish (se_queue se))) wire = Ok (hardened, delay) ->
  pb_cancelled (qe_publish (se_queue se)) = None ->
  BuildWireAuthPayload id (id_ID (im_identity (nd_manager n))) (TrimSpace to) hardened = Ok auth ->
  exists n' e m, sendMessageWithThread se to content thread n = (n', Err e)
    /\ ms_messages (nd_messages n') !! id = Some m /\ msg_Status m = "pending"
    /\ nd_pending n' = nd_pending n /\ nd_sent n' = nd_sent n.
Proof.
  intros Hd Hrev Hto Hcon Hhas Hnet Hb Hid Hnew Hw Hh Hcan Hauth.
  set (draft := with_thread _ _) in Hb.
  pose proof (build_inbox (se_get se) (se_call se) draft n) as [Hbi Hbs].
  pose proof (build_networking (se_get se) (se_call se) draft n) as Hbn.
  rewrite Hb in Hbi, Hbs, Hbn. cbn [fst] in Hbi, Hbs, Hbn.
  destruct (alloc_first 2 (se_alloc se) (TrimSpace to) (TrimSpace content) thread id n1) as (n2 & Hal & Hm & Hq);
    [done|unfold nd_messages; by rewrite Hbi|done|].
  destruct Hq as (Hs2 & Hn2 & Hp2 & Hi2). set (msg := with_thread _ _) in Hal, Hm.
  set (n3 := notify n2 (NoteMessageNew (TrimSpace to) msg)).
  assert (Hman : nd_manager n3 = nd_manager n) by (unfold nd_manager, n3; cbn; by rewrite Hi2, Hbi).
  assert (Hpub : publishQueuedMessage hardening (se_queue se) msg (TrimSpace to) wire n3
    = (recordError n3 ErrorCategoryCrypto (categorizedError ErrorCategoryCrypto ErrDeviceRevoked),
       Err (categorizedError ErrorCategoryCrypto ErrDeviceRevoked))).
  { unfold publishQueuedMessage, networkContext, bindM.
    replace (nd_networking n3) with true by (unfold n3; cbn; congruence).
    rewrite (publish_revoked _ _ _ _ hardened delay auth d); try done; try (by rewrite Hman).
    unfold ErrorCategory. cbn [asCategorized]. rewrite crypto_category. reflexivity. }
  eexists _, _, (NormalizeMessageConversation msg). split.
  - unfold sendMessageWithThread, ValidateSendMessageInput. rewrite !bool_decide_false by done. cbn [orb].
    unfold bindM at 1, liftM at 1. unfold bindM at 1, getM at 1. rewrite Hhas. cbn [negb rejectM].
    unfold bindM at 1, retM at 1. unfold bindM at 1. fold draft. rewrite Hb.
    unfold bindM at 1. rewrite Hal. unfold bindM at 1, modifyM at 1. fold n3. exact Hpub.
  - split_and!; [done|done| |].
    + change (nd_pending n2 = nd_pending n). rewrite Hp2. unfold nd_pending, nd_messages. by rewrite Hbi.
    + change (nd_sent n2 = nd_sent n). by rewrite Hs2, Hbs.
Qed.
End Messaging.

(** ** Concrete runs and witnesses: Alice writes to Bob, who has pinned her key *)

Definition ex_bobID : string := id_ID (im_identity Identity.ex_bob).
Definition ex_alice1 : Manager := run_ids Identity.ex_alice [IAddContactByID 9 ex_bobID "Bob"].
Definition ex_aliceNode : Node exStore := ex_node ex_alice1 SessionSafety.ex_empty.
Definition ex_bobNode : Node exStore := ex_node ex_bob1 SessionSafety.ex_empty.

Definition ex_online : PublishEnv := mkPublish 0 None None.
Definition ex_queue : QueueEnv := mkQueueEnv ex_online 50 ex_env ex_env ex_env.
Definition ex_sending : SendEnv :=
  mkSendEnv ex_env (SessionSafety.ex_call 50) 50 (fun _ => mkAlloc (Ok "msg_1") 50 ex_env) ex_queue.
Definition ex_receiving : InboundEnv :=
  mkInboundEnv 60 (SessionSafety.ex_call 60) ex_env ex_env ex_env (mkReadEnv ex_env 60 (Ok "rcpt_1") ex_online).

Definition ex_send (to : string) (n : Node exStore) := sendMessageWithThread None ex_sending to " hi " "" n.
Definition ex_handle (msg : PrivateMessage) (n : Node exStore) :=
  HandleIncomingPrivateMessage None ex_unmarshal (fun _ => None) None ex_receiving msg n.

Definition ex_hello : PrivateMessage :=
  hd (mkInboundPrivate "" "" "" []) (nd_sent (fst (ex_send ex_bobID ex_aliceNode))).

Lemma singleton_hd {A} (d : A) (l : list A) : length l = 1%nat -> l = [hd d l].
Proof. by destruct l as [|x []]. Qed.

Lemma returns_ex {A} (p : panics A) :
  match p with Returns _ => true | Panics => false end = true -> exists a, p = Returns a.
Proof. destruct p as [a|]; [by exists a|done]. Qed.

Lemma ex_alice1_ok : manager_ok ex_alice1.
Proof. apply run_ids_ok, ex_alice_ok. Qed.

Lemma ex_bob_accepts : accepts ex_bobNode ex_alice1.
Proof.
  split; [|split].
  - destruct (im_contacts ex_bob1 !! ex_aliceID) as [c|] eqn:E; [|exfalso; vm_compute in E; discriminate].
    exists c. split; [exact E|]. vm_compute in E. injection E as <-. vm_compute. reflexivity.
  - vm_compute. reflexivity.
  - vm_compute. set_solver.
Qed.

Lemma sent_message_arrives_witness :
  exists b' m, ex_handle ex_hello ex_bobNode = Returns b'
    /\ ms_messages (nd_messages b') !! "msg_1" = Some (NormalizeMessageConversation m)
    /\ msg_Content m = [104; 105] /\ msg_Status m = "delivered".
Proof.
  assert (Ha : ex_send ex_bobID ex_aliceNode = (fst (ex_send ex_bobID ex_aliceNode), Ok "msg_1"))
    by (apply run_eta; vm_compute; reflexivity).
  destruct (sent_message_arrives None ex_unmarshal (fun _ => None) None ex_sending ex_receiving ex_bobID " hi " ""
    "msg_1" ex_aliceNode (fst (ex_send ex_bobID ex_aliceNode)) ex_bobNode ex_hello)
    as (b' & m & Hh & Hm & _ & _ & _ & Hst & Hc & _).
  - exact Ha.
  - apply singleton_hd. vm_compute. reflexivity.
  - apply ex_alice1_ok.
  - apply ex_bob_accepts.
  - intros wire Hw. apply exWire_roundtrip, Hw.
  - intros wire Hu Hk. exfalso.
    assert (Hn : match unmarshalJSON (im_Payload ex_hello) with Ok w => wp_Kind w == "e2ee" | Err _ => false end = false)
      by (vm_compute; reflexivity).
    rewrite Hu, Hk in Hn. discriminate Hn.
  - vm_compute. reflexivity.
  - apply ex_env_writes.
  - exists b', m. split; [exact Hh|]. split; [exact Hm|]. split; [rewrite Hc; vm_compute; reflexivity|exact Hst].
Defined.

Lemma sent_messages_are_accounted_for_witness :
  exists m, ms_messages (nd_messages (fst (ex_send ex_bobID ex_aliceNode))) !! "msg_1" = Some m
    /\ msg_Content m = [104; 105] /\ msg_Direction m = "out".
Proof.
  refine (proj1 (sent_messages_are_accounted_for None ex_sending ex_bobID " hi " "" "msg_1" ex_aliceNode
    (fst (ex_send ex_bobID ex_aliceNode)) _)).
  apply run_eta. vm_compute. reflexivity.
Defined.

Lemma inbound_effects_are_signed_witness :
  exists wire c, unmarshalJSON (im_Payload ex_hello) = Ok wire /\ signed_by_contact ex_bob1 c ex_hello wire.
Proof.
  destruct (im_contacts ex_bob1 !! ex_aliceID) as [c|] eqn:Ec; [|exfalso; vm_compute in Ec; discriminate].
  destruct (returns_ex (ex_handle ex_hello ex_bobNode)) as (b' & Eh); [vm_compute; reflexivity|].
  destruct (inbound_effects_are_signed None ex_unmarshal (fun _ => None) None ex_receiving ex_hello ex_bobNode b' c)
    as [Hcore|[(e & He)|(wire & Hu & _ & Hs)]].
  - exact Ec.
  - vm_compute in Ec. injection Ec as <-. vm_compute. reflexivity.
  - exact Eh.
  - exfalso. assert (Hsent : nd_sent b' = []) by (injection Hcore as _ _ _ _ H; exact H).
    assert (Hn : match ex_handle ex_hello ex_bobNode with Returns b => length (nd_sent b) | Panics => 0%nat end = 1%nat)
      by (vm_compute; reflexivity).
    rewrite Eh, Hsent in Hn. discriminate Hn.
  - exfalso. assert (Hn : match unmarshalJSON (A := WirePayload) (im_Payload ex_hello) with Ok _ => true | Err _ => false end = true)
      by (vm_compute; reflexivity).
    rewrite He in Hn. discriminate Hn.
  - exists wire, c. split; [exact Hu|exact Hs].
Defined.

(** Mallory's text in Alice's name. *)
Definition ex_forgery : PrivateMessage := mkInboundPrivate "m66" ex_aliceID ex_bobID [80; 97; 121].

Lemma unparsable_payload_is_stored_unsigned_witness :
  exists n', ex_handle ex_forgery ex_bobNode = Returns n'
    /\ msg_Content <$> (ms_messages (nd_messages n') !! "m66") = Some [80; 97; 121].
Proof.
  destruct (unparsable_payload_is_stored_unsigned None ex_unmarshal (fun _ => None) None ex_receiving ex_forgery
    ex_bobNode (errorsNew "json")) as (n' & Hn & Hm & _).
  - vm_compute. reflexivity.
  - vm_compute. reflexivity.
  - vm_compute. reflexivity.
  - reflexivity.
  - apply ex_env_writes.
  - exists n'. split; [exact Hn|]. rewrite Hm. change (im_ID ex_forgery) with "m66".
    rewrite lookup_insert_eq. reflexivity.
Defined.

Lemma incoming_messages_keep_pinned_keys_witness :
  exists n', ex_handle ex_hello ex_bobNode = Returns n'
    /\ ContactPublicKey (nd_manager n') ex_aliceID = Some (replicate 32 1).
Proof.
  destruct (returns_ex (ex_handle ex_hello ex_bobNode)) as (n' & Eh); [vm_compute; reflexivity|].
  exists n'. split; [exact Eh|].
  apply (proj1 (incoming_messages_keep_pinned_keys None ex_unmarshal (fun _ => None) None ex_receiving ex_hello
    ex_bobNode n' Eh)). vm_compute. reflexivity.
Defined.

Definition ex_blocking : Node exStore :=
  with_nd_inbox ex_bobNode (with_ib_privacy (nd_inbox ex_bobNode)
    (fst (AddToBlocklist ex_env "aim1mallory99" (ib_privacy (nd_inbox ex_bobNode))))).

Lemma blocked_sender_changes_nothing_witness :
  ex_handle (mkInboundPrivate "m7" "aim1mallory99" ex_bobID [1]) ex_blocking
  = Returns (recordError ex_blocking ErrorCategoryCrypto ErrInboundBlockedSender).
Proof. apply blocked_sender_changes_nothing. vm_compute. reflexivity. Defined.

(** Alice acknowledges a message Bob sent to somebody else. *)
Definition ex_receipt_wire : WirePayload := NewReceiptWire "m1" "read" 70.
Definition ex_receipt : PrivateMessage :=
  match ComposeSignedPrivateMessage ex_alice1 "rcpt_9" ex_bobID ex_receipt_wire with
  | Ok w => w | Err _ => mkInboundPrivate "" "" "" [] end.
Definition ex_bobNode2 : Node exStore :=
  with_nd_messages ex_bobNode (mkMessageStore {["m1" :=
    mkMessage "m1" "aim1carol5678" "aim1carol5678" "direct" "" [104] 1 "out" "sent" "text" false]} ∅ "" "" true None).

Definition ex_receipt_read : WirePayload :=
  match unmarshalJSON (im_Payload ex_receipt) with Ok wire => wire | Err _ => zeroWire end.

Lemma receipts_mark_any_message_witness :
  exists n', ex_handle ex_receipt ex_bobNode2 = Returns n'
    /\ msg_Status <$> (ms_messages (nd_messages n') !! "m1") = Some "read".
Proof.
  destruct (receipts_mark_any_message None ex_unmarshal (fun _ => None) None ex_receiving ex_receipt ex_receipt_read
    (mkReceipt "m1" "read" 70) ex_bobNode2) as (n' & Hn & Hm).
  - vm_compute. reflexivity.
  - vm_compute. reflexivity.
  - vm_compute. reflexivity.
  - vm_compute. reflexivity.
  - vm_compute. reflexivity.
  - vm_compute. reflexivity.
  - vm_compute. reflexivity.
  - vm_compute. reflexivity.
  - vm_compute. reflexivity.
  - vm_compute. reflexivity.
  - apply ex_env_writes.
  - exists n'. split; [exact Hn|]. rewrite Hm. vm_compute. reflexivity.
Defined.

(** Alice after she revoked the device she sends with. *)
Definition ex_aliceNode2 : Node exStore :=
  ex_node (run_ids ex_alice1 [IRevokeDevice 10 (im_activeDeviceID ex_alice1)]) SessionSafety.ex_empty.
Definition ex_draft : Message := with_thread (NewOutboundMessage "draft" (TrimSpace ex_bobID) (TrimSpace " hi ") 50) "".

Lemma unsigned_message_stays_pending_witness :
  exists n' e m, ex_send ex_bobID ex_aliceNode2 = (n', Err e)
    /\ ms_messages (nd_messages n') !! "msg_1" = Some m /\ msg_Status m = "pending"
    /\ nd_pending n' = ∅ /\ nd_sent n' = [].
Proof.
  set (n := ex_aliceNode2).
  destruct (im_devices (nd_manager n) !! im_activeDeviceID (nd_manager n)) as [d|] eqn:Ed;
    [|exfalso; vm_compute in Ed; discriminate].
  set (built := BuildStoredMessageWire ex_env (SessionSafety.ex_call 50) ex_draft n).
  assert (Hb : match snd built with Ok _ => true | Err _ => false end = true) by (vm_compute; reflexivity).
  destruct (snd built) as [wire|] eqn:Ew; [|discriminate Hb]. clear Hb.
  assert (Ha : match BuildWireAuthPayload "msg_1" (id_ID (im_identity (nd_manager n))) (TrimSpace ex_bobID) wire
               with Ok _ => true | Err _ => false end = true).
  { vm_compute in Ew. injection Ew as <-. vm_compute. reflexivity. }
  destruct (BuildWireAuthPayload _ _ _ wire) as [auth|] eqn:Ea; [|discriminate Ha]. clear Ha.
  apply (unsigned_message_stays_pending None ex_sending ex_bobID " hi " "" "msg_1" n (fst built) wire wire 0 auth d).
  - exact Ed.
  - vm_compute in Ed. injection Ed as <-. reflexivity.
  - vm_compute. discriminate.
  - vm_compute. discriminate.
  - vm_compute. reflexivity.
  - reflexivity.
  - apply run_eta. exact Ew.
  - reflexivity.
  - vm_compute. reflexivity.
  - apply ex_env_writes.
  - reflexivity.
  - reflexivity.
  - exact Ea.
Defined.
