(* ===== verification/BlobService.v ===== *)
(** * Serving and fetching blobs

    Models internal/composition/daemonservice/attachment_provider.go. Daemons that share a registry of
    providers form a [Network]; the function a daemon announces is [localBlobFetchProvider] of that
    daemon, so an entry of the registry holds the daemon's number. (The program gives every daemon
    a registry of its own, a network of one; its tests share one.) A request to a daemon runs
    without other calls in between. Readings of the clock, the context's errors and what the file
    system does are arguments; metrics other than the reason of a failed fetch are left out. *)
From S2P Require Import Prelude SecureStore AttachmentStore AttachmentUpload BlobCache Identity NodeBinding RateLimiter ServingLimits Delivery BlobAccess BlobProviders.
From stdpp Require Import base gmap strings list sets option functions.
From Stdlib Require Import ZArith Lia.
Open Scope string_scope.
Open Scope Z_scope.
Open Scope go_scope.

Definition defaultBlobProviderTTL : Z := 5 * Minute.
Definition blobFetchMaxAttempts : nat := 3.
Definition blobFetchInitialBackoff : Z := 100 * Millisecond.
Definition blobFetchRequestTimeout : Z := 2 * Second.

(** The errors of a context. *)
Definition contextDeadlineExceeded : error := errorsNew "context deadline exceeded".
Definition contextCanceled : error := errorsNew "context canceled".

Section Blobs.
Context {cipher : Cipher} {ecodec : EnvelopeCodec} {lower : GoLower} {fold : GoFold}
        {json : JsonCodec attachmentIndex} {images : ImageCodec} (sha256 : list Z -> list Z).
Context {F : Type}.
Context {L : Type} (NewLimiter : F -> Z -> L) (AllowN : L -> Z -> Z -> L * bool).

Abbreviation Blob := (AttachmentMeta * list Z)%type.

(** ** State *)

(** The fields of the daemon's Service that blobs go through; [bs_networking] says whether the
    runtime has a network. *)
Record BlobService := mkBlobService {
  bl_uploads : UploadService; bl_access : Access; bl_serving : @Serving F L;
  bl_replicationMode : option blobReplicationMode; bl_flags : blobFeatureFlags; bl_networking : bool
}.

Abbreviation Registry := (@blobProviderRegistry F L nat).

(** The daemons by number, their registry, and the reasons of fetches that failed. *)
Record Network := mkNetwork {
  nw_daemons : nat -> BlobService; nw_registry : Registry; nw_unavailable : list string
}.

Definition with_bl_uploads (s : BlobService) (u : UploadService) : BlobService :=
  mkBlobService u (bl_access s) (bl_serving s) (bl_replicationMode s) (bl_flags s) (bl_networking s).
Definition with_bl_serving (s : BlobService) (v : Serving) : BlobService :=
  mkBlobService (bl_uploads s) (bl_access s) v (bl_replicationMode s) (bl_flags s) (bl_networking s).
Definition with_bl_replication (s : BlobService) (m : option blobReplicationMode) (f : blobFeatureFlags)
    : BlobService := mkBlobService (bl_uploads s) (bl_access s) (bl_serving s) m f (bl_networking s).
Definition with_registry (nw : Network) (r : Registry) : Network :=
  mkNetwork (nw_daemons nw) r (nw_unavailable nw).
Definition with_daemon (nw : Network) (d : nat) (s : BlobService) : Network :=
  mkNetwork (<[d := s]> (nw_daemons nw)) (nw_registry nw) (nw_unavailable nw).

Abbreviation sop := (M BlobService error).
Abbreviation nop := (M Network error).

(** A call on the uploads, on one daemon, and on the registry. *)
Definition onUploads {A} (c : M UploadService error A) : sop A := fun s =>
  let '(u, r) := c (bl_uploads s) in (with_bl_uploads s u, r).
Definition onDaemon {A} (d : nat) (c : sop A) : nop A := fun nw =>
  let '(s, r) := c (nw_daemons nw d) in (with_daemon nw d s, r).
Definition onRegistry (f : Registry -> Registry) (nw : Network) : Network :=
  with_registry nw (f (nw_registry nw)).

(** ** Serving *)

(** What one request to a daemon meets: the store and the readings of the clock. *)
Record ServeEnv := mkServe {
  se_att : AttachmentEnv; se_get : Z; se_cache : Z; se_request : Z; se_soft : Z; se_hard : Z
}.

Definition blobPeerID (s : BlobService) : string := localPeerID (bl_access s).

Definition getEphemeralPublicBlob (env : ServeEnv) (attachmentID : string) (s : BlobService)
    : BlobService * option Blob :=
  match sv_cache (bl_serving s) with
  | None => (s, None)
  | Some c =>
      let '(c, r) := cacheGet (ae_rt (se_att env)) (se_cache env) attachmentID (se_cache env) c in
      (with_bl_serving s (with_cache (bl_serving s) (Some c)), r)
  end.

Definition getLocalAttachmentOnly (env : ServeEnv) (attachmentID : string) : sop Blob := fun s =>
  match onUploads (GetAttachment (se_att env) (se_get env) attachmentID) s with
  | (s, Ok blob) => (s, Ok blob)
  | (s, Err err) =>
      match getEphemeralPublicBlob env attachmentID s with
      | (s, Some blob) => (s, Ok blob)
      | (s, None) => (s, Err err)
      end
  end.

(** The bandwidth for an answer, soft and hard. *)
Definition spendBandwidth (env : ServeEnv) (blob : Blob) : sop Blob := fun s =>
  let n := Z.of_nat (List.length (snd blob)) in
  let v := bl_serving s in
  let '(soft, ok) := AllowBytes AllowN (se_soft env) n (sv_soft v) in
  let v := with_limits v soft (sv_hard v) (sv_maxConcurrent v) (sv_perPeerPerMin v) (sv_peerLimiter v) in
  let v := if negb ok then markPublicServeSoftCapExceeded v else v in
  let '(hard, ok) := AllowBytes AllowN (se_hard env) n (sv_hard v) in
  let v := with_limits v (sv_soft v) hard (sv_maxConcurrent v) (sv_perPeerPerMin v) (sv_peerLimiter v) in
  (with_bl_serving s v, if negb ok then Err ErrAttachmentTemporarilyUnavailable else Ok blob).

(** The deferred release of the slot. *)
Definition releasing {A} (c : sop A) : sop A := fun s =>
  let '(s, r) := c s in
  (with_bl_serving s (snd (releasePublicServeSlot false (bl_serving s))), r).

(** The function a daemon announces. *)
Definition localBlobFetchProvider (env : ServeEnv) (requestBlobID requesterPeerID : string) : sop Blob :=
  fun s =>
  match authorizeBlobOperation requesterPeerID (bl_access s) with
  | Err err => (s, Err err)
  | Ok _ =>
      if negb (isPublicServingAllowed (bl_serving s)) then (s, Err ErrAttachmentTemporarilyUnavailable) else
      let '(v, allowed) :=
        allowPublicServeRequest NewLimiter AllowN (se_request env) requesterPeerID (bl_serving s) in
      let s := with_bl_serving s v in
      if negb allowed then (s, Err ErrAttachmentTemporarilyUnavailable) else
      let '(v, acquired) := acquirePublicServeSlot (bl_serving s) in
      let s := with_bl_serving s v in
      if negb acquired then (s, Err ErrAttachmentTemporarilyUnavailable) else
      releasing (let! blob := getLocalAttachmentOnly env requestBlobID in spendBandwidth env blob) s
  end.

(** ** Policy *)

Definition currentBlobReplicationMode (s : BlobService) : blobReplicationMode :=
  default blobReplicationModeOnDemand (bl_replicationMode s).

Definition shouldAnnounceBlob (meta : AttachmentMeta) (s : BlobService) : bool :=
  if TrimSpace (am_ID meta) == "" then false else
  match currentBlobReplicationMode s with
  | blobReplicationModeNone => false
  | blobReplicationModePinnedOnly => EqualFold (TrimSpace (am_PinState meta)) AttachmentPinStatePinned
  | blobReplicationModeOnDemand => true
  end.

Definition shouldCacheFetchedBlob (s : BlobService) : bool :=
  negb (bool_decide (currentBlobReplicationMode s = blobReplicationModeNone)).

Definition shouldAnnounceBlobFromPeer (peerID : string) (s : BlobService) : bool :=
  announceEnabled (bl_flags s) && allowsPeer (bl_flags s) peerID.

Definition shouldFetchBlobFromPeers (peerID : string) (s : BlobService) : bool :=
  fetchEnabled (bl_flags s) && allowsPeer (bl_flags s) peerID.

(** ** Announcing *)

Definition announceBlobProvider (me : nat) (meta : AttachmentMeta) (peerID : string) (now : Z)
    (nw : Network) : Network :=
  onRegistry (fun r => fst (announceBlob NewLimiter AllowN (am_ID meta) peerID defaultBlobProviderTTL
                              (Some me) now r)) nw.

Definition announceLocalBlobProvider (me : nat) (now : Z) (meta : AttachmentMeta) (nw : Network) : Network :=
  let s := nw_daemons nw me in
  if negb (bl_networking s) then nw else
  if negb (shouldAnnounceBlob meta s) then nw else
  let peerID := blobPeerID s in
  if peerID == "" then nw else
  if negb (shouldAnnounceBlobFromPeer peerID s) then nw else
  announceBlobProvider me meta peerID now nw.

Definition announceAllLocalBlobProviders (rt : GoRuntime) (me : nat) (now : Z) (nw : Network) : Network :=
  let s := nw_daemons nw me in
  let peerID := blobPeerID s in
  if peerID == "" then nw else
  if negb (shouldAnnounceBlobFromPeer peerID s) then nw else
  fold_left (fun nw meta =>
    if negb (shouldAnnounceBlob meta s) then nw else announceBlobProvider me meta peerID now nw)
    (ListMetas rt (up_store (bl_uploads s))) nw.

(** ** Fetching *)

(** What one visit of a candidate meets: the error of the context, the clock, the provider's own
    environment, and the clock at the limiter of the bandwidth. *)
Record Visit := mkVisit { vs_ctx : option error; vs_now : Z; vs_serve : ServeEnv; vs_bytes : Z }.

(** What an attempt meets: the error of the context, the clock, an end of the context while it waits
    for the next attempt, and the visits. *)
Record Attempt := mkAttempt {
  at_rt : GoRuntime; at_ctx : option error; at_now : Z; at_wait : option error; at_visit : nat -> Visit
}.

(** The variables of the loop. *)
Record FetchProgress := mkProgress {
  hadCandidates : bool; hadAllowedCandidates : bool; hadForbiddenCandidates : bool;
  hadProviderErrors : bool; timedOut : bool; cancelled : bool
}.

Definition noProgress : FetchProgress := mkProgress false false false false false false.

Definition sawCandidates (p : FetchProgress) (b : bool) : FetchProgress :=
  mkProgress (hadCandidates p || b) (hadAllowedCandidates p) (hadForbiddenCandidates p)
    (hadProviderErrors p) (timedOut p) (cancelled p).
Definition sawAllowed (p : FetchProgress) : FetchProgress :=
  mkProgress (hadCandidates p) true (hadForbiddenCandidates p) (hadProviderErrors p) (timedOut p) (cancelled p).
Definition sawContext (p : FetchProgress) (err : error) : FetchProgress :=
  if err == contextDeadlineExceeded
  then mkProgress (hadCandidates p) (hadAllowedCandidates p) (hadForbiddenCandidates p) (hadProviderErrors p)
         true (cancelled p)
  else mkProgress (hadCandidates p) (hadAllowedCandidates p) (hadForbiddenCandidates p) (hadProviderErrors p)
         (timedOut p) true.
Definition sawRefusal (p : FetchProgress) (err : error) : FetchProgress :=
  if err == ErrAttachmentAccessDenied
  then mkProgress (hadCandidates p) (hadAllowedCandidates p) true (hadProviderErrors p) (timedOut p) (cancelled p)
  else mkProgress (hadCandidates p) (hadAllowedCandidates p) (hadForbiddenCandidates p) true (timedOut p)
         (cancelled p).

(** [s.fetchLimiter.AllowBytes] of the requesting daemon. *)
Definition allowFetchBytes (me : nat) (now : Z) (n : Z) (nw : Network) : Network * bool :=
  let s := nw_daemons nw me in
  let '(b, ok) := AllowBytes AllowN now n (Some (sv_fetch (bl_serving s))) in
  (with_daemon nw me (with_bl_serving s (with_fetch (bl_serving s) (default (sv_fetch (bl_serving s)) b))), ok).

Definition with_id (meta : AttachmentMeta) (id : string) : AttachmentMeta :=
  mkMeta id (am_Name meta) (am_MimeType meta) (am_Class meta) (am_LastAccessAt meta) (am_PinState meta)
    (am_Size meta) (am_CreatedAt meta).

(** The loop over the candidates of one attempt. *)
Fixpoint tryCandidates (me : nat) (visit : nat -> Visit) (blobID requesterPeerID : string)
    (candidates : list (@blobProviderEntry nat)) (p : FetchProgress) (nw : Network)
    : Network * FetchProgress * option Blob :=
  match candidates with
  | [] => (nw, p, None)
  | candidate :: rest =>
      let v := visit (List.length rest) in
      match vs_ctx v with
      | Some err => (nw, sawContext p err, None)
      | None =>
          if TrimSpace (pv_peerID candidate) == requesterPeerID
          then tryCandidates me visit blobID requesterPeerID rest p nw else
          let '(r, ok) := allowFetch NewLimiter AllowN requesterPeerID (pv_peerID candidate) (vs_now v)
                            (nw_registry nw) in
          let nw := with_registry nw r in
          if negb ok then tryCandidates me visit blobID requesterPeerID rest p nw else
          let p := sawAllowed p in
          match onDaemon (pv_fetchFn candidate)
                  (localBlobFetchProvider (vs_serve v) blobID requesterPeerID) nw with
          | (nw, Err err) => tryCandidates me visit blobID requesterPeerID rest (sawRefusal p err) nw
          | (nw, Ok (meta, data)) =>
              let '(nw, ok) := allowFetchBytes me (vs_bytes v) (Z.of_nat (List.length data)) nw in
              if negb ok then tryCandidates me visit blobID requesterPeerID rest p nw else
              (nw, p, Some (if am_ID meta == "" then with_id meta blobID else meta, data))
          end
      end
  end.

(** The loop over the attempts, [remaining] of them before the last. *)
Fixpoint fetchAttempts (me : nat) (attempt : nat -> Attempt) (blobID requesterPeerID : string)
    (remaining : nat) (backoff : Z) (p : FetchProgress) (nw : Network)
    : Network * FetchProgress * option Blob :=
  let a := attempt remaining in
  match at_ctx a with
  | Some err => (nw, sawContext p err, None)
  | None =>
      let '(r, candidates) := @listProviders F L nat (at_rt a) blobID (at_now a) (nw_registry nw) in
      let p := sawCandidates p (negb (List.length candidates =? 0)%nat) in
      match tryCandidates me (at_visit a) blobID requesterPeerID candidates p (with_registry nw r) with
      | (nw, p, Some blob) => (nw, p, Some blob)
      | (nw, p, None) =>
          match remaining with
          | O => (nw, p, None)
          | S remaining =>
              match waitWithContext backoff (at_wait a) with
              | Some err => (nw, sawContext p err, None)
              | None => fetchAttempts me attempt blobID requesterPeerID remaining (backoff * 2) p nw
              end
          end
      end
  end.

(** The reason that is counted. *)
Definition fetchFailure (p : FetchProgress) : string :=
  if timedOut p then "timeout" else
  if cancelled p then "cancelled" else
  if negb (hadCandidates p) then "no_providers" else
  if negb (hadAllowedCandidates p) then "rate_limited" else
  if hadForbiddenCandidates p then "forbidden" else
  if hadProviderErrors p then "providers_failed" else "unavailable".

Definition fetchAttachmentFromProviders (me : nat) (attempt : nat -> Attempt) (blobID requesterPeerID : string)
    : nop Blob := fun nw =>
  let '(nw, p, res) := fetchAttempts me attempt blobID requesterPeerID (Nat.pred blobFetchMaxAttempts)
                         blobFetchInitialBackoff noProgress nw in
  match res with
  | Some blob => (nw, Ok blob)
  | None =>
      (mkNetwork (nw_daemons nw) (nw_registry nw) (nw_unavailable nw ++ [fetchFailure p])%list,
       Err (if hadForbiddenCandidates p then ErrAttachmentAccessDenied
            else ErrAttachmentTemporarilyUnavailable))
  end.

(** [cacheFetchedAttachment]; errors of the store are dropped. *)
Definition cacheFetchedAttachment (envL env : AttachmentEnv) (now : Z) (blob : Blob) (s : BlobService)
    : BlobService :=
  let '(meta, data) := blob in
  if (List.length data =? 0)%nat then s else
  if negb (isPublicStoreEnabled (bl_serving s)) then
    match sv_cache (bl_serving s) with
    | None => s
    | Some c => with_bl_serving s (with_cache (bl_serving s) (Some (fst (cachePut (ae_rt env) now meta data now c))))
    end
  else fst (onUploads (onStore (PutExisting envL env now meta data)) s).

(** ** The calls *)

Definition updateDaemon (me : nat) (f : BlobService -> BlobService) (nw : Network) : Network :=
  with_daemon nw me (f (nw_daemons nw me)).

(** The part after the local store and the cache had nothing; [err] is the store's error. *)
Definition fetchRemote (envL env : AttachmentEnv) (nowCache nowAnnounce : Z) (me : nat)
    (attempt : nat -> Attempt) (attachmentID : string) (err : error) : nop Blob := fun nw =>
  let peerID := blobPeerID (nw_daemons nw me) in
  if peerID == "" then (nw, Err err) else
  if negb (shouldFetchBlobFromPeers peerID (nw_daemons nw me)) then (nw, Err err) else
  match fetchAttachmentFromProviders me attempt attachmentID peerID nw with
  | (nw, Err fetchErr) =>
      if (fetchErr == ErrAttachmentTemporarilyUnavailable) || (fetchErr == ErrAttachmentAccessDenied)
      then (nw, Err fetchErr) else (nw, Err err)
  | (nw, Ok blob) =>
      let nw := if shouldCacheFetchedBlob (nw_daemons nw me)
                then updateDaemon me (cacheFetchedAttachment envL env nowCache blob) nw else nw in
      (announceLocalBlobProvider me nowAnnounce (fst blob) nw, Ok blob)
  end.

Definition ServiceGetAttachment (serve : ServeEnv) (envL env : AttachmentEnv) (nowCache nowAnnounce : Z)
    (me : nat) (attempt : nat -> Attempt) (attachmentID : string) : nop Blob := fun nw =>
  let attachmentID := TrimSpace attachmentID in
  if attachmentID == "" then (nw, Err (errorsNew "attachment id is required")) else
  match onDaemon me (getLocalAttachmentOnly serve attachmentID) nw with
  | (nw, Ok blob) => (nw, Ok blob)
  | (nw, Err err) => fetchRemote envL env nowCache nowAnnounce me attempt attachmentID err nw
  end.

(** A call that must be authorized for the local identity. *)
Definition authorized {A} (me : nat) (c : nop A) : nop A := fun nw =>
  let s := nw_daemons nw me in
  match authorizeBlobOperation (blobPeerID s) (bl_access s) with
  | Err err => (nw, Err err)
  | Ok _ => c nw
  end.

(** What was put in is announced. *)
Definition announcing (me : nat) (now : Z) (c : nop AttachmentMeta) : nop AttachmentMeta := fun nw =>
  match c nw with
  | (nw, Err err) => (nw, Err err)
  | (nw, Ok meta) => (announceLocalBlobProvider me now meta nw, Ok meta)
  end.

Definition ServicePutAttachment (envL env : AttachmentEnv) (now nowAnnounce : Z) (buf : result error (list Z))
    (me : nat) (name mimeType dataBase64 : string) : nop AttachmentMeta :=
  authorized me (announcing me nowAnnounce
    (onDaemon me (onUploads (PutAttachment envL env now buf name mimeType dataBase64)))).

Definition ServiceCommitAttachmentUpload (envL env : AttachmentEnv) (now nowPut nowAnnounce : Z)
    (buf : result error (list Z)) (me : nat) (uploadID : string) : nop AttachmentMeta :=
  authorized me (announcing me nowAnnounce
    (onDaemon me (onUploads (CommitAttachmentUpload sha256 envL env now nowPut buf uploadID)))).

(** models.BlobProviderInfo *)
Record BlobProviderInfo := mkProviderInfo { bi_PeerID : string; bi_ExpiresAt : Z }.

Definition ListBlobProviders (rt : GoRuntime) (now : Z) (blobID : string) : nop (list BlobProviderInfo) :=
  fun nw =>
  let blobID := TrimSpace blobID in
  if blobID == "" then (nw, Err (errorsNew "blob id is required")) else
  let '(r, candidates) := listProviders blobID now (nw_registry nw) in
  (with_registry nw r, Ok ((fun c => mkProviderInfo (pv_peerID c) (pv_expires c)) <$> candidates)).

Definition GetBlobReplicationMode (s : BlobService) : string :=
  match bl_replicationMode s with Some m => replicationModeText m | None => "" end.

(** The local announcements are made anew. *)
Definition reannounce (rt : GoRuntime) (now : Z) (me : nat) (nw : Network) : Network :=
  let s := nw_daemons nw me in
  if negb (bl_networking s) then nw else
  announceAllLocalBlobProviders rt me now (onRegistry (removePeer (blobPeerID s)) nw).

Definition SetBlobReplicationMode (rt : GoRuntime) (now : Z) (me : nat) (mode : string) : nop unit := fun nw =>
  match parseBlobReplicationMode mode with
  | Err err => (nw, Err err)
  | Ok parsedMode =>
      (reannounce rt now me
         (updateDaemon me (fun s => with_bl_replication s (Some parsedMode) (bl_flags s)) nw), Ok tt)
  end.

Definition GetBlobFeatureFlags (s : BlobService) : blobFeatureFlags := bl_flags s.

Definition SetBlobFeatureFlags (rt : GoRuntime) (now : Z) (me : nat) (announce fetch : bool) (rollout : Z)
    : nop blobFeatureFlags := fun nw =>
  let flags := mkFlags announce fetch (clampRolloutPercent rollout) in
  (reannounce rt now me (updateDaemon me (fun s => with_bl_replication s (bl_replicationMode s) flags) nw),
   Ok flags).

Definition setBlobPinState (env : AttachmentEnv) (nowPin nowGet nowAnnounce : Z) (me : nat)
    (blobID pinState : string) : nop AttachmentMeta :=
  authorized me (
  let blobID := TrimSpace blobID in
  if blobID == "" then failM (errorsNew "blob id is required") else
  onDaemon me (onUploads (onStore (SetPinState env nowPin blobID pinState))) ;;!
  let! '(meta, _) := onDaemon me (onUploads (GetAttachment env nowGet blobID)) in
  fun nw =>
    let s := nw_daemons nw me in
    if negb (bl_networking s) then (nw, Ok meta) else
    if shouldAnnounceBlob meta s then (announceLocalBlobProvider me nowAnnounce meta nw, Ok meta) else
    (onRegistry (removeBlobPeer blobID (blobPeerID s)) nw, Ok meta)).

Definition PinBlob (env : AttachmentEnv) (nowPin nowGet nowAnnounce : Z) (me : nat) (blobID : string)
    : nop AttachmentMeta := setBlobPinState env nowPin nowGet nowAnnounce me blobID AttachmentPinStatePinned.

Definition UnpinBlob (env : AttachmentEnv) (nowPin nowGet nowAnnounce : Z) (me : nat) (blobID : string)
    : nop AttachmentMeta := setBlobPinState env nowPin nowGet nowAnnounce me blobID AttachmentPinStateUnpinned.

(** ** What serving changes *)

(** Everything the decisions look at, and the number of requests in flight. *)
Definition rules (s : BlobService) :=
  (bl_access s, bl_replicationMode s, bl_flags s, bl_networking s, sv_preset (bl_serving s),
   sv_maxConcurrent (bl_serving s)).

Lemma onUploads_frame {A} (c : M UploadService error A) s s' r :
  onUploads c s = (s', r) -> bl_serving s' = bl_serving s /\ rules s' = rules s.
Proof. unfold onUploads. destruct (c _). by intros [= <- _]. Qed.

Lemma getEphemeral_frame env id s s' r :
  getEphemeralPublicBlob env id s = (s', r) ->
  rules s' = rules s /\ sv_inFlight (bl_serving s') = sv_inFlight (bl_serving s).
Proof.
  unfold getEphemeralPublicBlob. destruct (sv_cache _); [|by intros [= <- _]].
  destruct (cacheGet _ _ _ _ _). by intros [= <- _].
Qed.

Lemma getLocal_frame env id s s' r :
  getLocalAttachmentOnly env id s = (s', r) ->
  rules s' = rules s /\ sv_inFlight (bl_serving s') = sv_inFlight (bl_serving s).
Proof.
  unfold getLocalAttachmentOnly. destruct (onUploads _ s) as [s1 [blob|err]] eqn:E1;
    apply onUploads_frame in E1 as [Es Er]; [intros [= <- _]; by rewrite Er, Es|].
  destruct (getEphemeralPublicBlob env id s1) as [s2 r2] eqn:E2. apply getEphemeral_frame in E2 as [H1 H2].
  rewrite <- Er, <- Es. by destruct r2; intros [= <- _].
Qed.

Lemma spend_frame env blob s s' r :
  spendBandwidth env blob s = (s', r) ->
  rules s' = rules s /\ sv_inFlight (bl_serving s') = sv_inFlight (bl_serving s)
  /\ forall b, r = Ok b -> b = blob.
Proof.
  unfold spendBandwidth. destruct (AllowBytes _ _ _ _) as [soft ok]. destruct ok; cbn [negb];
    destruct (AllowBytes _ _ _ _) as [hard ok']; intros [= <- <-];
    (split_and!; [done|done|]; intros b; destruct ok'; cbn [negb]; congruence).
Qed.

(** ** What is served *)

(** The store or the cache of the daemon has the blob. *)
Definition holds_blob (env : ServeEnv) (s : BlobService) (id : string) (blob : Blob) : Prop :=
  let id := TrimSpace id in
  let st := up_store (bl_uploads s) in
  (as_items st !! id = Some (fst blob) /\ readBlob (se_att env) st id = Ok (snd blob))
  \/ exists c e, sv_cache (bl_serving s) = Some c /\ pc_items c !! id = Some e
       /\ blob = (pe_meta e, pe_data e).

Lemma prune_sub rt now c : pc_items (pruneExpiredLocked rt now c) ⊆ pc_items c.
Proof.
  unfold pruneExpiredLocked. destruct (_ =? 0)%nat; [done|].
  assert (Hc : forall c, pc_items (clampUsed c) = pc_items c) by (intros c'; unfold clampUsed; by destruct (_ <? 0)).
  rewrite Hc. generalize (rangeMap (pc_items c)). intros l. revert c.
  induction l as [|[id e] l IH]; intros c; cbn [fold_left]; [done|].
  destruct (negb _); [|apply IH]. etransitivity; [apply IH|]. apply delete_subseteq.
Qed.

Lemma getEphemeral_holds env id s s' blob :
  getEphemeralPublicBlob env id s = (s', Some blob) ->
  exists c e, sv_cache (bl_serving s) = Some c /\ pc_items c !! TrimSpace id = Some e
    /\ blob = (pe_meta e, pe_data e).
Proof.
  unfold getEphemeralPublicBlob. destruct (sv_cache (bl_serving s)) as [c|]; [|done]. unfold cacheGet.
  destruct (_ == ""); [done|]. destruct (pc_items _ !! TrimSpace id) as [e|] eqn:Ee; [|done].
  intros [= _ <-]. exists c, e. split_and!; [done| |done]. eapply lookup_weaken; [exact Ee|apply prune_sub].
Qed.

Lemma getLocal_holds env id s s' blob :
  getLocalAttachmentOnly env id s = (s', Ok blob) -> holds_blob env s id blob.
Proof.
  unfold getLocalAttachmentOnly. destruct (onUploads _ s) as [s1 [b|err]] eqn:E1.
  - intros [= _ <-]. left. revert E1. unfold onUploads, GetAttachment, bindM, liftM, ValidateAttachmentID, onStore, Get.
    destruct (TrimSpace id == ""); [done|]. destruct (as_items _ !! TrimSpace id) as [meta|]; [|done].
    destruct (readBlob _ _ _) as [data|]; [|done]. by intros [= _ <-].
  - apply onUploads_frame in E1 as [Es _]. destruct (getEphemeralPublicBlob env id s1) as [s2 [b|]] eqn:E2; [|done].
    intros [= _ <-]. right. apply getEphemeral_holds in E2. by rewrite Es in E2.
Qed.

(** The part of a request after the slot was taken. *)
Lemma answer_spec env id s s' res :
  0 < sv_inFlight (bl_serving s) ->
  releasing (let! blob := getLocalAttachmentOnly env id in spendBandwidth env blob) s = (s', res) ->
  rules s' = rules s /\ sv_inFlight (bl_serving s') = sv_inFlight (bl_serving s) - 1
  /\ forall blob, res = Ok blob -> holds_blob env s id blob.
Proof.
  intros Hpos. unfold releasing, bindM. destruct (getLocalAttachmentOnly env id s) as [s1 [blob|err]] eqn:E1.
  - pose proof (getLocal_holds _ _ _ _ _ E1) as Hh. apply getLocal_frame in E1 as [Hr1 Hf1].
    destruct (spendBandwidth env blob s1) as [s2 r2] eqn:E2. apply spend_frame in E2 as (Hr2 & Hf2 & Hb).
    intros [= <- <-]. unfold releasePublicServeSlot. rewrite Hf2, Hf1, (proj2 (Z.ltb_lt 0 _)) by done. cbn.
    split_and!; [by rewrite <- Hr1, <- Hr2|done|]. intros b ->. by rewrite (Hb b eq_refl).
  - apply getLocal_frame in E1 as [Hr1 Hf1]. intros [= <- <-]. unfold releasePublicServeSlot.
    rewrite Hf1, (proj2 (Z.ltb_lt 0 _)) by done. cbn. by split_and!.
Qed.

(** A branch that refuses the request. *)
Ltac refused := intros [= <- <-]; split_and!; [done|done|intros ? ?; split; congruence|congruence].

(** A request as a whole. *)
Lemma serve_spec env id requester s s' res :
  0 <= sv_inFlight (bl_serving s) < 2 ^ 63 - 1 ->
  localBlobFetchProvider env id requester s = (s', res) ->
  rules s' = rules s /\ sv_inFlight (bl_serving s') = sv_inFlight (bl_serving s)
  /\ (forall err, authorizeBlobOperation requester (bl_access s) = Err err -> s' = s /\ res = Err err)
  /\ forall blob, res = Ok blob ->
      authorizeBlobOperation requester (bl_access s) = Ok tt
      /\ np_PublicServingEnabled (sv_preset (bl_serving s)) = true
      /\ (0 < sv_maxConcurrent (bl_serving s) -> sv_inFlight (bl_serving s) < sv_maxConcurrent (bl_serving s))
      /\ holds_blob env s id blob.
Proof.
  intros Hf. unfold localBlobFetchProvider.
  destruct (authorizeBlobOperation _ _) as [[]|e] eqn:Ea; [|refused].
  unfold isPublicServingAllowed. destruct (np_PublicServingEnabled _) eqn:Ep; cbn [negb];
    [|refused].
  assert (exists l, forall ok v, allowPublicServeRequest NewLimiter AllowN (se_request env) requester (bl_serving s) = (v, ok) ->
    v = with_limits (bl_serving s) (sv_soft (bl_serving s)) (sv_hard (bl_serving s)) (sv_maxConcurrent (bl_serving s))
          (sv_perPeerPerMin (bl_serving s)) l) as [l Hl].
  { unfold allowPublicServeRequest. destruct (sv_peerLimiter (bl_serving s)) eqn:El.
    - destruct (Allow _ _ _ _ _) as [l ok]. exists l. by intros ok' v [= <- _].
    - exists None. intros ok v [= <- _]. destruct (bl_serving s). cbn in *. by subst. }
  destruct (allowPublicServeRequest _ _ _ _ _) as [v allowed] eqn:El. rewrite (Hl _ _ eq_refl). clear Hl El.
  destruct allowed; cbn [negb]; [|refused].
  unfold acquirePublicServeSlot at 1. cbn [sv_maxConcurrent sv_inFlight with_limits bl_serving with_bl_serving].
  destruct (_ && _) eqn:Ec; cbn [negb]; [refused|].
  intros H. apply answer_spec in H as (Hr & Hi & Hb).
  2: { cbn. rewrite s64_small by lia. lia. }
  cbn in Hi. rewrite s64_small in Hi by lia. split_and!; [by rewrite Hr|lia|done|].
  intros blob Hres. specialize (Hb _ Hres). split_and!; [done|done| |exact Hb].
  intros Hm. rewrite (proj2 (Z.ltb_lt 0 _)) in Ec by done. cbn [andb] in Ec. by apply Z.leb_gt in Ec.
Qed.

(** C26: A daemon serves what it may, and gives the slot back. A request that the access rules refuse
    changes nothing and gets their error. A blob that is served is one the store or the cache
    of the daemon holds under the identifier that was asked for; the requester was admitted by the
    access rules, serving is enabled in the profile, and fewer requests than the limit were in
    flight. However the request ends, as many requests are in flight as before, and no rule, flag
    or profile has changed. *)
Theorem served_blobs_are_authorized (env : ServeEnv) (id requester : string) (s s' : BlobService)
    (res : result error Blob) :
  0 <= sv_inFlight (bl_serving s) < 2 ^ 63 - 1 ->
  localBlobFetchProvider env id requester s = (s', res) ->
  rules s' = rules s /\ sv_inFlight (bl_serving s') = sv_inFlight (bl_serving s)
  /\ (forall err, authorizeBlobOperation requester (bl_access s) = Err err -> s' = s /\ res = Err err)
  /\ forall blob, res = Ok blob ->
      authorizeBlobOperation requester (bl_access s) = Ok tt
      /\ np_PublicServingEnabled (sv_preset (bl_serving s)) = true
      /\ (0 < sv_maxConcurrent (bl_serving s) -> sv_inFlight (bl_serving s) < sv_maxConcurrent (bl_serving s))
      /\ holds_blob env s id blob.
Proof. apply serve_spec. Qed.

(** ** Where a fetched blob comes from *)

Definition flight_ok (nw : Network) : Prop :=
  forall d, 0 <= sv_inFlight (bl_serving (nw_daemons nw d)) < 2 ^ 63 - 1.

(** The rules of all daemons are as before, the requests in flight too, and nothing was announced. *)
Definition quiet (nw nw' : Network) : Prop :=
  (forall d, rules (nw_daemons nw' d) = rules (nw_daemons nw d)
     /\ sv_inFlight (bl_serving (nw_daemons nw' d)) = sv_inFlight (bl_serving (nw_daemons nw d)))
  /\ forall b q p, announced (nw_registry nw') b q = Some p -> announced (nw_registry nw) b q = Some p.

Lemma quiet_refl nw : quiet nw nw.
Proof. by split. Qed.

Lemma network_quiet_trans nw1 nw2 nw3 : quiet nw1 nw2 -> quiet nw2 nw3 -> quiet nw1 nw3.
Proof.
  intros [H1 H2] [H3 H4]. split; [|auto]. intros d. destruct (H1 d), (H3 d). split; congruence.
Qed.

Lemma quiet_flight nw nw' : quiet nw nw' -> flight_ok nw -> flight_ok nw'.
Proof. intros [H _] Hf d. destruct (H d) as [_ ->]. apply Hf. Qed.

Lemma quiet_registry nw r :
  (forall b q p, announced r b q = Some p -> announced (nw_registry nw) b q = Some p) ->
  quiet nw (with_registry nw r).
Proof. intros H. by split. Qed.

Lemma quiet_daemon nw d s :
  rules s = rules (nw_daemons nw d) ->
  sv_inFlight (bl_serving s) = sv_inFlight (bl_serving (nw_daemons nw d)) -> quiet nw (with_daemon nw d s).
Proof.
  intros H1 H2. split; [|done]. intros d'. cbn [nw_daemons with_daemon]. destruct (decide (d' = d)) as [->|Hd].
  - by rewrite fn_lookup_insert.
  - by rewrite fn_lookup_insert_ne.
Qed.

(** The daemon behind an announcement answered a request, under its rules. *)
Definition answered (nw : Network) (blobID requester : string) (c : @blobProviderEntry nat)
    (res : result error Blob) : Prop :=
  exists env s s', rules s = rules (nw_daemons nw (pv_fetchFn c))
    /\ 0 <= sv_inFlight (bl_serving s) < 2 ^ 63 - 1
    /\ localBlobFetchProvider env blobID requester s = (s', res).

Lemma answered_quiet nw nw' blobID req c res :
  quiet nw nw' -> answered nw' blobID req c res -> answered nw blobID req c res.
Proof.
  intros [H _] (env & s & s' & Hr & Hf & Ha). exists env, s, s'. split; [|done].
  rewrite Hr. apply H.
Qed.

Definition named (blobID : string) (blob : Blob) : Blob :=
  (if am_ID (fst blob) == "" then with_id (fst blob) blobID else fst blob, snd blob).

Lemma allowFetchBytes_quiet me now n nw : quiet nw (fst (allowFetchBytes me now n nw)).
Proof.
  unfold allowFetchBytes. destruct (AllowBytes _ _ _ _) as [b ok]. cbn [fst]. by apply quiet_daemon.
Qed.

Lemma request_quiet env d blobID req nw nw' res :
  flight_ok nw -> onDaemon d (localBlobFetchProvider env blobID req) nw = (nw', res) ->
  quiet nw nw' /\ exists s', localBlobFetchProvider env blobID req (nw_daemons nw d) = (s', res).
Proof.
  intros Hf. unfold onDaemon. destruct (localBlobFetchProvider _ _ _ _) as [s' r] eqn:E. intros [= <- <-].
  pose proof (serve_spec _ _ _ _ _ _ (Hf d) E) as (Hr & Hi & _). split; [by apply quiet_daemon|by exists s'].
Qed.

(** What the loops promise: nothing but the requests happens, a blob comes from a candidate that is
    not the requester, and a refusal that is noted was given by such a candidate. *)
Definition fetched (nw nw' : Network) (blobID req : string) (ok : @blobProviderEntry nat -> Prop)
    (p p' : FetchProgress) (res : option Blob) : Prop :=
  quiet nw nw'
  /\ (forall blob, res = Some blob -> exists c b, ok c /\ TrimSpace (pv_peerID c) <> req
        /\ answered nw blobID req c (Ok b) /\ blob = named blobID b)
  /\ (hadForbiddenCandidates p' = true -> hadForbiddenCandidates p = true
      \/ exists c, ok c /\ TrimSpace (pv_peerID c) <> req
           /\ answered nw blobID req c (Err ErrAttachmentAccessDenied)).

Lemma fetched_step nw nw1 nw2 blobID req ok ok' p p1 p2 res :
  quiet nw nw1 -> (forall c, ok' c -> ok c) ->
  (hadForbiddenCandidates p1 = true -> hadForbiddenCandidates p = true
   \/ exists c, ok c /\ TrimSpace (pv_peerID c) <> req
        /\ answered nw blobID req c (Err ErrAttachmentAccessDenied)) ->
  fetched nw1 nw2 blobID req ok' p1 p2 res -> fetched nw nw2 blobID req ok p p2 res.
Proof.
  intros Hq Hok Hp (H1 & H2 & H3). split_and!.
  - by eapply network_quiet_trans.
  - intros blob Hb. destruct (H2 blob Hb) as (c & b & ? & ? & ? & ?). exists c, b.
    split_and!; [auto|done| |done]. by eapply answered_quiet.
  - intros Hf. destruct (H3 Hf) as [?|(c & ? & ? & ?)]; [auto|]. right. exists c.
    split_and!; [auto|done|]. by eapply answered_quiet.
Qed.

Lemma fetched_none nw blobID req ok p p' :
  (hadForbiddenCandidates p' = true -> hadForbiddenCandidates p = true) ->
  fetched nw nw blobID req ok p p' None.
Proof. intros Hp. split_and!; [apply quiet_refl|done|auto]. Qed.

Lemma sawContext_forbidden p err : hadForbiddenCandidates (sawContext p err) = hadForbiddenCandidates p.
Proof. unfold sawContext. by case_bool_decide. Qed.

Lemma tryCandidates_spec me visit blobID req cands p nw nw' p' res :
  flight_ok nw -> tryCandidates me visit blobID req cands p nw = (nw', p', res) ->
  fetched nw nw' blobID req (fun c => c ∈ cands) p p' res.
Proof.
  revert p nw. induction cands as [|c cands IH]; intros p nw Hf; cbn [tryCandidates].
  { intros [= <- <- <-]. by apply fetched_none. }
  set (v := visit _). assert (Hsub : forall c', c' ∈ cands -> c' ∈ c :: cands) by (intros; by apply list_elem_of_further).
  destruct (vs_ctx v) as [err|]; [intros [= <- <- <-]; apply fetched_none; by rewrite sawContext_forbidden|].
  case_bool_decide as Hself.
  { intros H. apply IH in H; [|done]. eapply fetched_step; [| | |exact H]; [apply quiet_refl|done|auto]. }
  pose proof (allowFetch_byBlob NewLimiter AllowN req (pv_peerID c) (vs_now v) (nw_registry nw)) as Hby.
  destruct (allowFetch _ _ _ _ _ _) as [r ok]. cbn [fst] in Hby.
  assert (Hq1 : quiet nw (with_registry nw r)).
  { apply quiet_registry. intros b q e. unfold announced. by rewrite Hby. }
  pose proof (quiet_flight _ _ Hq1 Hf) as Hf1. destruct ok; cbn [negb].
  2: { intros H. apply IH in H; [|done]. eapply fetched_step; [| | |exact H]; [done|done|auto]. }
  destruct (onDaemon _ _ _) as [nw2 r2] eqn:E2. apply request_quiet in E2 as (Hq2 & s2 & Hs2); [|done].
  pose proof (network_quiet_trans _ _ _ Hq1 Hq2) as Hq. pose proof (quiet_flight _ _ Hq Hf) as Hf2.
  assert (Ha : answered nw blobID req c r2).
  { eapply answered_quiet; [exact Hq1|]. by eexists _, _, _. }
  destruct r2 as [[meta data]|err].
  - pose proof (allowFetchBytes_quiet me (vs_bytes v) (Z.of_nat (length data)) nw2) as Hq3.
    destruct (allowFetchBytes _ _ _ _) as [nw3 ok]. cbn [fst] in Hq3.
    pose proof (network_quiet_trans _ _ _ Hq Hq3) as Hq'. destruct ok; cbn [negb].
    + intros [= <- <- <-]. split_and!; [done| |auto]. intros blob [= <-]. exists c, (meta, data).
      split_and!; [apply list_elem_of_here|done|done|done].
    + intros H. apply IH in H; [|by eapply quiet_flight]. eapply fetched_step; [| | |exact H]; [done|done|auto].
  - intros H. apply IH in H; [|done]. eapply fetched_step; [| | |exact H]; [done|done|].
    unfold sawRefusal. case_bool_decide as He; [|auto]. intros _. right. exists c. subst err.
    split_and!; [apply list_elem_of_here|done|done].
Qed.

(** Announced for the blob, and not expired when an attempt looked. *)
Definition candidate (nw : Network) (attempt : nat -> Attempt) (blobID : string)
    (c : @blobProviderEntry nat) : Prop :=
  exists k q, announced (nw_registry nw) (TrimSpace blobID) q = Some c
    /\ unexpired (at_now (attempt k)) c = true.

Lemma candidate_quiet nw nw' attempt blobID c :
  quiet nw nw' -> candidate nw' attempt blobID c -> candidate nw attempt blobID c.
Proof. intros [_ H] (k & q & Ha & Hu). exists k, q. auto. Qed.

Lemma fetchAttempts_spec me attempt blobID req remaining backoff p nw nw' p' res :
  flight_ok nw -> fetchAttempts me attempt blobID req remaining backoff p nw = (nw', p', res) ->
  fetched nw nw' blobID req (candidate nw attempt blobID) p p' res.
Proof.
  revert backoff p nw. induction remaining as [|k IH]; intros backoff p nw Hf; cbn [fetchAttempts];
    set (a := attempt _);
    (destruct (at_ctx a) as [err|]; [intros [= <- <- <-]; apply fetched_none; by rewrite sawContext_forbidden|]);
    destruct (listProviders blobID (at_now a) (nw_registry nw)) as [r cands] eqn:El;
    apply listProviders_spec in El as (Hc & Hann & _);
    pose proof (quiet_registry nw r Hann) as Hq;
    destruct (tryCandidates _ _ _ _ _ _ _) as [[nw1 p1] res1] eqn:E1;
    apply tryCandidates_spec in E1; try (by eapply quiet_flight);
    (assert (Hsub : forall c, c ∈ cands -> candidate nw attempt blobID c)
      by (intros c (_ & Hu & q & Hq')%Hc; by eexists _, q));
    apply (fetched_step nw _ _ _ _ (candidate nw attempt blobID) _ p _ _ _ Hq Hsub) in E1; auto.
  - destruct res1; by intros [= <- <- <-].
  - destruct res1 as [blob|]; [by intros [= <- <- <-]|].
    destruct (waitWithContext _ _) as [err|].
    + intros [= <- <- <-]. destruct E1 as (H1 & H2 & H3). split_and!; [done|done|]. by rewrite sawContext_forbidden.
    + destruct E1 as (Hq1 & _ & Hfb). intros H. apply IH in H; [|by eapply quiet_flight].
      eapply fetched_step; [| | |exact H]; [done| |done]. intros c. by apply candidate_quiet.
Qed.

(** A fetched blob comes from a provider that may give it. A fetch changes no rules and announces
    nothing. What it returns was served by a daemon that had announced itself for this blob, was
    not expired, and goes by another name than the requester; under the rules that daemon had
    before the fetch the requester was admitted and serving was enabled, and the daemon held the
    blob. A fetch that fails gives one of two errors: access denied, and then such a provider
    answered that, or temporarily unavailable. *)
Theorem fetched_blobs_are_authorized (nw nw' : Network) (me : nat) (attempt : nat -> Attempt)
    (blobID req : string) (res : result error Blob) :
  flight_ok nw -> fetchAttachmentFromProviders me attempt blobID req nw = (nw', res) ->
  quiet nw nw'
  /\ match res with
     | Ok blob =>
         exists c env s b, candidate nw attempt blobID c /\ TrimSpace (pv_peerID c) <> req
           /\ rules s = rules (nw_daemons nw (pv_fetchFn c))
           /\ authorizeBlobOperation req (bl_access (nw_daemons nw (pv_fetchFn c))) = Ok tt
           /\ np_PublicServingEnabled (sv_preset (bl_serving (nw_daemons nw (pv_fetchFn c)))) = true
           /\ holds_blob env s blobID b /\ blob = named blobID b
     | Err err =>
         err = ErrAttachmentTemporarilyUnavailable
         \/ (err = ErrAttachmentAccessDenied /\ exists c, candidate nw attempt blobID c
               /\ TrimSpace (pv_peerID c) <> req
               /\ answered nw blobID req c (Err ErrAttachmentAccessDenied))
     end.
Proof.
  intros Hf. unfold fetchAttachmentFromProviders.
  destruct (fetchAttempts _ _ _ _ _ _ _ _) as [[nw1 p1] res1] eqn:E1.
  apply fetchAttempts_spec in E1 as (Hq & Hb & Hd); [|done]. destruct res1 as [blob|]; intros [= <- <-].
  - split; [done|]. destruct (Hb blob eq_refl) as (c & b & Hc & Hne & (env & s & s' & Hr & Hfl & Ha) & Hn).
    pose proof (serve_spec _ _ _ _ _ _ Hfl Ha) as (_ & _ & _ & Hok).
    destruct (Hok b eq_refl) as (Hau & Hp & _ & Hh). exists c, env, s, b. unfold rules in Hr.
    assert (bl_access s = bl_access (nw_daemons nw (pv_fetchFn c))) as Ea by congruence.
    assert (sv_preset (bl_serving s) = sv_preset (bl_serving (nw_daemons nw (pv_fetchFn c)))) as Ep by congruence.
    rewrite <- Ea, <- Ep. by split_and!.
  - split; [done|]. destruct (hadForbiddenCandidates p1) eqn:E; [right|by left]. split; [done|].
    destruct (Hd eq_refl) as [|H]; [done|exact H].
Qed.

(** ** What is announced *)

(** The announcement [c] was made by the daemon [me] just now, for an attachment that its policy
    lets it announce. *)
Definition allowed_announcement (rt : GoRuntime) (me : nat) (now : Z) (s : BlobService) (b : string)
    (c : @blobProviderEntry nat) : Prop :=
  c = mkProvider (blobPeerID s) (now + defaultBlobProviderTTL) me
  /\ shouldAnnounceBlobFromPeer (blobPeerID s) s = true
  /\ exists meta, meta ∈ ListMetas rt (up_store (bl_uploads s)) /\ TrimSpace (am_ID meta) = b
       /\ shouldAnnounceBlob meta s = true.

Lemma blobPeerID_trim s : TrimSpace (blobPeerID s) = blobPeerID s.
Proof. apply TrimSpace_idemp. Qed.

Lemma announceFold_spec me now peer s l nw b q :
  TrimSpace peer = peer ->
  let nw' := fold_left (fun nw meta =>
    if negb (shouldAnnounceBlob meta s) then nw else announceBlobProvider me meta peer now nw) l nw in
  nw_daemons nw' = nw_daemons nw
  /\ (announced (nw_registry nw') b q = announced (nw_registry nw) b q
      \/ (q = peer /\ announced (nw_registry nw') b q = Some (mkProvider peer (now + defaultBlobProviderTTL) me)
          /\ exists meta, meta ∈ l /\ TrimSpace (am_ID meta) = b /\ shouldAnnounceBlob meta s = true)).
Proof.
  intros Ht. revert nw. induction l as [|meta l IH]; intros nw; cbn [fold_left]; [split; [done|by left]|].
  destruct (shouldAnnounceBlob meta s) eqn:Es; cbn [negb].
  - destruct (IH (announceBlobProvider me meta peer now nw)) as [Hd Ha]. split; [by rewrite Hd|].
    cbv zeta in Ha. destruct Ha as [Ha|(-> & Ha & m & Hm & Hr)].
    2: { right. split_and!; [done|done|]. exists m. split; [by apply list_elem_of_further|done]. }
    rewrite Ha. unfold announceBlobProvider, onRegistry. cbn [nw_registry with_registry].
    destruct (announceBlob _ _ _ _ _ _ _ _) as [r res] eqn:E.
    apply (announceBlob_spec _ _ _ _ _ _ _ _ _ _ b q) in E as [E|(-> & -> & _ & f & [= <-] & E)]; [by left|].
    right. rewrite Ht in *. split_and!; [done|done|]. exists meta. split_and!; [apply list_elem_of_here|done|done].
  - destruct (IH nw) as [Hd [Ha|(-> & Ha & m & Hm & Hr)]]; [split; [done|by left]|]. split; [done|right].
    split_and!; [done|done|]. exists m. split; [by apply list_elem_of_further|done].
Qed.

Lemma reannounce_spec rt me now nw b q :
  let s := nw_daemons nw me in
  let nw' := reannounce rt now me nw in
  bl_networking s = true -> blobPeerID s <> "" ->
  nw_daemons nw' = nw_daemons nw
  /\ (q <> blobPeerID s -> announced (nw_registry nw') b q = announced (nw_registry nw) b q)
  /\ (forall c, q = blobPeerID s -> announced (nw_registry nw') b q = Some c ->
      allowed_announcement rt me now s b c).
Proof.
  intros s nw' Hn Hp. subst nw'. unfold reannounce. fold s. rewrite Hn. cbn [negb].
  set (nw1 := onRegistry _ nw). assert (Hrem : announced (nw_registry nw1) b q
    = if decide (q = blobPeerID s) then None else announced (nw_registry nw) b q).
  { unfold nw1, onRegistry. cbn [nw_registry with_registry]. rewrite removePeer_spec, blobPeerID_trim.
    destruct (decide (q = blobPeerID s)) as [->|]; [by rewrite decide_True|]. rewrite decide_False; [done|tauto]. }
  unfold announceAllLocalBlobProviders. change (nw_daemons nw1 me) with s. rewrite bool_decide_false by done.
  destruct (shouldAnnounceBlobFromPeer _ _) eqn:Ef; cbn [negb].
  - destruct (announceFold_spec me now (blobPeerID s) s (ListMetas rt (up_store (bl_uploads s))) nw1 b q)
      as [Hd Ha]; [apply blobPeerID_trim|]. cbv zeta in Ha. split_and!; [by rewrite Hd| |].
    + intros Hq. destruct Ha as [Ha|[? _]]; [|done]. rewrite Ha, Hrem. by rewrite decide_False.
    + intros c -> Hc. destruct Ha as [Ha|(_ & Ha & Hm)].
      * rewrite Ha, Hrem, decide_True in Hc by done. done.
      * rewrite Ha in Hc. injection Hc as <-. by split_and!.
  - split_and!; [done| |].
    + intros Hq. rewrite Hrem. by rewrite decide_False.
    + intros c -> Hc. by rewrite Hrem, decide_True in Hc.
Qed.

Lemma reannounce_daemons rt now me nw : nw_daemons (reannounce rt now me nw) = nw_daemons nw.
Proof.
  unfold reannounce, announceAllLocalBlobProviders. destruct (negb _); [done|].
  destruct (_ == ""); [done|]. destruct (negb _); [done|].
  destruct (announceFold_spec me now (blobPeerID (nw_daemons nw me)) (nw_daemons nw me)
    (ListMetas rt (up_store (bl_uploads (nw_daemons nw me))))
    (onRegistry (removePeer (blobPeerID (nw_daemons nw me))) nw) "" "") as [Hd _]; [apply blobPeerID_trim|].
  exact Hd.
Qed.

(** The two calls that change the policy. *)
Inductive PolicyCall := PMode (mode : string) | PFlags (announce fetch : bool) (rollout : Z).

Definition run_policy (rt : GoRuntime) (now : Z) (me : nat) (c : PolicyCall) (nw : Network)
    : Network * bool :=
  match c with
  | PMode mode => let '(nw, r) := SetBlobReplicationMode rt now me mode nw in (nw, is_ok r)
  | PFlags a f p => (fst (SetBlobFeatureFlags rt now me a f p nw), true)
  end.

(** Announcements follow the policy. After the replication mode or the feature flags were set on
    a daemon with a network and an identity, every announcement under its name was made by this
    call, for an attachment it has that the new mode lets it announce (none under the mode
    none, pinned ones only under the mode for pinned), with announcing enabled and the
    daemon within the rollout; announcements under other names are as before. *)
Theorem announcements_follow_policy (rt : GoRuntime) (now : Z) (me : nat) (call : PolicyCall)
    (nw nw' : Network) (b q : string) :
  bl_networking (nw_daemons nw me) = true -> blobPeerID (nw_daemons nw me) <> "" ->
  run_policy rt now me call nw = (nw', true) ->
  let s := nw_daemons nw' me in
  blobPeerID s = blobPeerID (nw_daemons nw me)
  /\ (q <> blobPeerID s -> announced (nw_registry nw') b q = announced (nw_registry nw) b q)
  /\ forall c, announced (nw_registry nw') b (blobPeerID s) = Some c ->
      c = mkProvider (blobPeerID s) (now + defaultBlobProviderTTL) me
      /\ announceEnabled (bl_flags s) = true /\ allowsPeer (bl_flags s) (blobPeerID s) = true
      /\ exists meta, meta ∈ ListMetas rt (up_store (bl_uploads s)) /\ TrimSpace (am_ID meta) = b
           /\ currentBlobReplicationMode s <> blobReplicationModeNone
           /\ (currentBlobReplicationMode s = blobReplicationModePinnedOnly ->
               EqualFold (TrimSpace (am_PinState meta)) "pinned" = true).
Proof.
  intros Hn Hp Hrun. cbv zeta.
  assert (exists f, nw' = reannounce rt now me (updateDaemon me f nw)
    /\ (forall s, bl_networking (f s) = bl_networking s) /\ forall s, blobPeerID (f s) = blobPeerID s)
    as (f & -> & Hfn & Hfp).
  { destruct call as [mode|a ft r]; cbn [run_policy] in Hrun.
    - unfold SetBlobReplicationMode in Hrun. destruct (parseBlobReplicationMode mode); [|by injection Hrun].
      injection Hrun as <-. by eexists.
    - injection Hrun as <-. by eexists. }
  assert (Hs : nw_daemons (updateDaemon me f nw) me = f (nw_daemons nw me)) by apply fn_lookup_insert.
  destruct (reannounce_spec rt me now (updateDaemon me f nw) b q) as (Hd & Hother & _);
    [by rewrite Hs, Hfn|by rewrite Hs, Hfp|].
  rewrite Hd, Hs in *. rewrite Hfp in *. split_and!; [done|exact Hother|]. intros c Hc.
  destruct (reannounce_spec rt me now (updateDaemon me f nw) b (blobPeerID (nw_daemons nw me))) as (_ & _ & Hmine);
    [by rewrite Hs, Hfn|by rewrite Hs, Hfp|].
  rewrite Hs, Hfp in Hmine. destruct (Hmine c eq_refl Hc) as (-> & Hfl & meta & Hm & Hb & Ha).
  rewrite Hfp in *. unfold shouldAnnounceBlobFromPeer in Hfl. apply andb_true_iff in Hfl as [H1 H2].
  split_and!; [done|done|done|]. exists meta. split_and!; [done|done| |];
    unfold shouldAnnounceBlob in Ha; (destruct (_ == ""); [done|]); destruct (currentBlobReplicationMode _); done.
Qed.
End Blobs.

(** ** Examples: rates are integers, a limiter is the tokens it has left *)

Definition ex_blob : AttachmentMeta * list Z := (ex_image "att1" 3 10, [1; 2; 3]).

(** A store that keeps its blobs in memory. *)
Definition ex_blobs (blobs : list (AttachmentMeta * list Z)) : UploadService :=
  mkUploadService ∅ (mkAttachmentStore "att" ""
    (list_to_map ((fun b => (am_ID b.1, b.1)) <$> blobs)) (list_to_map ((fun b => (am_ID b.1, b.2)) <$> blobs))
    false (mkLimits 0 0 0 0) (mkHardCap 90 100 75) (mkHits 0 0) ∅).

Definition ex_friend : Contact := mkContact "aim1friend" "" [] 0 0.

(** The owner is bound to a node and admits contacts; the friend is one. *)
Definition ex_owner_access : Access :=
  mkAccess (mkManager (mkIdentity "aim1owner" []) [] {["aim1friend" := ex_friend]} ∅ "" ∅ (mkSeeds None 0 0))
    (mkBindingStore (mkEncStore "" "" None) {["aim1owner" := mkBinding "aim1owner" "node" "" "" "" 1 1]})
    (mkACL blobACLModeOwnerContacts ∅) (mkDirectory (Ok []) (fun _ => Ok [])).
Definition ex_friend_access : Access :=
  mkAccess (mkManager (mkIdentity "aim1friend" []) [] ∅ ∅ "" ∅ (mkSeeds None 0 0))
    (mkBindingStore (mkEncStore "" "" None) ∅) (mkACL blobACLModeOwnerContacts ∅)
    (mkDirectory (Ok []) (fun _ => Ok [])).

Definition ex_owner_daemon : BlobService :=
  mkBlobService (ex_blobs [ex_blob]) ex_owner_access ex_serving (Some blobReplicationModeOnDemand)
    (mkFlags true true 100) true.
Definition ex_friend_daemon : BlobService :=
  mkBlobService (ex_blobs []) ex_friend_access ex_serving (Some blobReplicationModeOnDemand)
    (mkFlags true true 100) true.

Definition ex_network : Network :=
  announceLocalBlobProvider ex_new ex_allow 0 (100 * Second) (fst ex_blob)
    (mkNetwork (fun d => if (d =? 0)%nat then ex_owner_daemon else ex_friend_daemon)
       (newBlobProviderRegistry (fun f => f <=? 0) id) []).

Definition ex_serve : ServeEnv :=
  mkServe ex_att_env (110 * Second) (110 * Second) (110 * Second) (110 * Second) (110 * Second).
Definition ex_attempt (k : nat) : Attempt :=
  mkAttempt exRuntime None (110 * Second) None (fun _ => mkVisit None (110 * Second) ex_serve (110 * Second)).

Lemma served_blobs_are_authorized_witness :
  authorizeBlobOperation "aim1friend" ex_owner_access = Ok tt
  /\ holds_blob ex_serve ex_owner_daemon "att1" ex_blob.
Proof.
  set (run := localBlobFetchProvider ex_new ex_allow ex_serve "att1" " aim1friend " ex_owner_daemon).
  destruct (served_blobs_are_authorized ex_new ex_allow ex_serve "att1" " aim1friend " ex_owner_daemon
    (fst run) (snd run)) as (_ & _ & _ & H).
  - vm_compute. split; [discriminate|reflexivity].
  - apply surjective_pairing.
  - destruct (H ex_blob) as (Ha & _ & _ & Hh); [vm_compute; reflexivity|].
    split; [|exact Hh]. vm_compute in Ha |- *. exact Ha.
Defined.

Lemma fetched_blobs_are_authorized_witness :
  exists c, candidate ex_network ex_attempt "att1" c /\ TrimSpace (pv_peerID c) <> "aim1friend".
Proof.
  set (run := fetchAttachmentFromProviders ex_new ex_allow 1 ex_attempt "att1" "aim1friend" ex_network).
  destruct (fetched_blobs_are_authorized ex_new ex_allow ex_network (fst run) 1 ex_attempt "att1" "aim1friend"
    (Ok ex_blob)) as (_ & c & env & s & b & Hc & Hn & _).
  - intros [|d]; vm_compute; (split; [discriminate|reflexivity]).
  - apply injective_projections; [reflexivity|vm_compute; reflexivity].
  - exists c. split; assumption.
Defined.

(** Under the mode for pinned attachments the announcement of an unpinned one goes. *)
Lemma announcements_follow_policy_witness :
  announced (nw_registry ex_network) "att1" "aim1owner"
  = Some (mkProvider "aim1owner" (100 * Second + defaultBlobProviderTTL) 0%nat)
  /\ announced (nw_registry (fst (run_policy ex_new ex_allow exRuntime (120 * Second) 0 (PMode "pinned_only") ex_network)))
       "att1" "aim1owner" = None.
Proof.
  split; [vm_compute; reflexivity|].
  destruct (announcements_follow_policy ex_new ex_allow exRuntime (120 * Second) 0 (PMode "pinned_only") ex_network
    (fst (run_policy ex_new ex_allow exRuntime (120 * Second) 0 (PMode "pinned_only") ex_network)) "att1" "aim1owner")
    as (Hp & _ & H).
  - vm_compute. reflexivity.
  - vm_compute. discriminate.
  - apply injective_projections; [reflexivity|vm_compute; reflexivity].
  - destruct (announced _ "att1" "aim1owner") as [c|] eqn:E; [exfalso|reflexivity].
    rewrite Hp in H. destruct (H c) as (_ & _ & _ & meta & Hm & _ & _ & Hpin); [exact E|].
    specialize (Hpin eq_refl). vm_compute in Hm. apply list_elem_of_singleton in Hm. subst meta.
    vm_compute in Hpin. discriminate.
Defined.
