(* ===== verification/StoragePolicy.v ===== *)
(** * Storage policy, node policies and presets

    Models internal/composition/daemonservice/storage_policy.go, node_policies.go and the calls of
    blob_node_preset.go: how a policy reaches the stores of the daemon, what zero retention wipes,
    what expires, and how a preset sets up everything at once. The daemon is one of a [Network];
    the legacy branch of [enforceRetentionPolicies], for stores without a collector, and the reset of
    the notification hub are left out. *)
From S2P Require Import Prelude Privacy SecureStore AttachmentStore AttachmentGC AttachmentUpload Session SessionSafety PrivacyService Identity NodeBinding MessageStore Inbox GroupModel RateLimiter ServingLimits GroupRuntime GroupStore BlobAccess BlobProviders BlobService.
From stdpp Require Import base gmap strings list sets option functions.
From Stdlib Require Import ZArith Lia.
Open Scope string_scope.
Open Scope Z_scope.
Open Scope go_scope.

(** ** Node policies *)

(** Patches: [None] is a nil pointer. *)
Record NodePersonalPolicyPatch := mkPersonalPatch {
  pp_StoreEnabled : option bool; pp_TTLDays : option Z; pp_QuotaMB : option Z; pp_PinEnabled : option bool
}.
Record NodePublicPolicyPatch := mkPublicPatch {
  up_RelayEnabled : option bool; up_DiscoveryEnabled : option bool; up_ServingEnabled : option bool;
  up_StoreEnabled : option bool; up_TTLDays : option Z; up_QuotaMB : option Z
}.
Record NodePoliciesPatch := mkPoliciesPatch {
  pt_Personal : option NodePersonalPolicyPatch; pt_Public : option NodePublicPolicyPatch
}.

Definition errInvalidNodePoliciesPatch : error := errorsNew "invalid node policies patch".
Definition ErrBackupDisabledByRetentionPolicy : error :=
  errorsNew "backup export is disabled in zero-retention mode".

Definition patchPersonal (p : NodePersonalPolicy) (q : NodePersonalPolicyPatch) : NodePersonalPolicy :=
  mkPersonal (default (np_StoreEnabled p) (pp_StoreEnabled q)) (default (np_TTLDays p) (pp_TTLDays q))
    (default (np_QuotaMB p) (pp_QuotaMB q)) (default (np_PinEnabled p) (pp_PinEnabled q)).

Definition patchPublic (p : NodePublicPolicy) (q : NodePublicPolicyPatch) : NodePublicPolicy :=
  mkPublic (default (nu_RelayEnabled p) (up_RelayEnabled q)) (default (nu_DiscoveryEnabled p) (up_DiscoveryEnabled q))
    (default (nu_ServingEnabled p) (up_ServingEnabled q)) (default (nu_StoreEnabled p) (up_StoreEnabled q))
    (default (nu_TTLDays p) (up_TTLDays q)) (default (nu_QuotaMB p) (up_QuotaMB q)).

Definition applyNodePoliciesPatch `{GoRuntime} `{GoLower} (current : NodePolicies) (patch : NodePoliciesPatch)
    : NodePolicies :=
  let next := mkNodePolicies (nd_ProfileSchemaVersion current)
    (match pt_Personal patch with Some q => patchPersonal (nd_Personal current) q | None => nd_Personal current end)
    (match pt_Public patch with Some q => patchPublic (nd_Public current) q | None => nd_Public current end) in
  default DefaultNodePolicies
    (ps_NodePolicies (NormalizePrivacySettings
       (mkSettings 0 "" "" "" 0 0 0 0 0 0 0 None (Some next)))).

Definition nodePoliciesFromPreset (preset : blobNodePresetConfig) : NodePolicies :=
  mkNodePolicies CurrentProfileSchemaVersion (mkPersonal (np_PersonalStoreEnabled preset) 0 0 false)
    (mkPublic (np_RelayEnabled preset) (np_PublicDiscoveryEnabled preset) (np_PublicServingEnabled preset)
       (np_PublicStoreEnabled preset) 0 0).

(** The assignments of [applyNodePolicies] to the profile. *)
Definition presetWithPolicies (cfg : blobNodePresetConfig) (p : NodePolicies) : blobNodePresetConfig :=
  mkPreset (np_Preset cfg) (np_ProfileID cfg) (np_StorageProtection cfg) (np_Retention cfg)
    (np_ImageQuotaMB cfg) (np_FileQuotaMB cfg) (np_ImageMaxItemSizeMB cfg) (np_FileMaxItemSizeMB cfg)
    (np_ReplicationMode cfg) (nu_RelayEnabled (nd_Public p)) (nu_DiscoveryEnabled (nd_Public p))
    (nu_ServingEnabled (nd_Public p)) (nu_StoreEnabled (nd_Public p)) (np_StoreEnabled (nd_Personal p))
    (np_AnnounceEnabled cfg) (np_FetchEnabled cfg) (np_RolloutPercent cfg) (np_ServeBandwidthKBps cfg)
    (np_ServeBandwidthSoftKBps cfg) (np_ServeBandwidthHardKBps cfg) (np_ServeMaxConcurrent cfg)
    (np_ServeRequestsPerMinPerPeer cfg) (np_PublicEphemeralCacheMaxMB cfg) (np_PublicEphemeralCacheTTLMin cfg)
    (np_FetchBandwidthKBps cfg) (np_HighWatermarkPercent cfg) (np_FullCapPercent cfg)
    (np_AggressiveTargetPercent cfg).

(** What [syncNodePoliciesFromPreset] asks for. *)
Definition policiesOfPreset (cfg : blobNodePresetConfig) : NodePolicies :=
  let per := nd_Personal DefaultNodePolicies in
  let pub := nd_Public DefaultNodePolicies in
  mkNodePolicies (nd_ProfileSchemaVersion DefaultNodePolicies)
    (mkPersonal (np_PersonalStoreEnabled cfg) (np_TTLDays per) (np_QuotaMB per) (np_PinEnabled per))
    (mkPublic (np_RelayEnabled cfg) (np_PublicDiscoveryEnabled cfg) (np_PublicServingEnabled cfg)
       (np_PublicStoreEnabled cfg) (nu_TTLDays pub) (nu_QuotaMB pub)).

(** ** State *)

Section Storage.
Context {cipher : Cipher} {ecodec : EnvelopeCodec} {lower : GoLower} {fold : GoFold}
        {json : JsonCodec attachmentIndex} {mcodec : MessageCodec} {sescodec : SessionCodec}
        {scodec : JsonCodec persistedPrivacySettingsState}.
(** golang.org/x/time/rate *)
Context {F : Type} (float_le0 : F -> bool) (float_of perMinute : Z -> F).
Context {L : Type} (NewLimiter : F -> Z -> L) (AllowN : L -> Z -> Z -> L * bool).

(** The daemon [sw_me] of the network with its other stores; [sw_errors] are the errors recorded. *)
Record StorageWorld := mkStorage {
  sw_me : nat; sw_network : @Network F L; sw_privacy : PrivacyWorld; sw_messages : MessageStore;
  sw_sessions : SkipHeap * FileSessionStore; sw_bindingLinks : gmap string pendingNodeBindingLink;
  sw_requestFile : EncStore; sw_inbox : Threads; sw_groupStore : SnapshotStore;
  sw_groupDisk : option (list Z); sw_groups : Registry; sw_replaySeen : gmap string Z;
  sw_errors : list (string * error)
}.

Abbreviation op := (M StorageWorld error).

Definition with_sw_network (w : StorageWorld) (n : @Network F L) : StorageWorld :=
  mkStorage (sw_me w) n (sw_privacy w) (sw_messages w) (sw_sessions w) (sw_bindingLinks w)
    (sw_requestFile w) (sw_inbox w) (sw_groupStore w) (sw_groupDisk w) (sw_groups w) (sw_replaySeen w)
    (sw_errors w).
Definition with_sw_privacy (w : StorageWorld) (p : PrivacyWorld) : StorageWorld :=
  mkStorage (sw_me w) (sw_network w) p (sw_messages w) (sw_sessions w) (sw_bindingLinks w)
    (sw_requestFile w) (sw_inbox w) (sw_groupStore w) (sw_groupDisk w) (sw_groups w) (sw_replaySeen w)
    (sw_errors w).
Definition with_sw_messages (w : StorageWorld) (m : MessageStore) : StorageWorld :=
  mkStorage (sw_me w) (sw_network w) (sw_privacy w) m (sw_sessions w) (sw_bindingLinks w)
    (sw_requestFile w) (sw_inbox w) (sw_groupStore w) (sw_groupDisk w) (sw_groups w) (sw_replaySeen w)
    (sw_errors w).
Definition with_sw_sessions (w : StorageWorld) (s : SkipHeap * FileSessionStore) : StorageWorld :=
  mkStorage (sw_me w) (sw_network w) (sw_privacy w) (sw_messages w) s (sw_bindingLinks w)
    (sw_requestFile w) (sw_inbox w) (sw_groupStore w) (sw_groupDisk w) (sw_groups w) (sw_replaySeen w)
    (sw_errors w).
Definition with_sw_requestFile (w : StorageWorld) (f : EncStore) : StorageWorld :=
  mkStorage (sw_me w) (sw_network w) (sw_privacy w) (sw_messages w) (sw_sessions w) (sw_bindingLinks w)
    f (sw_inbox w) (sw_groupStore w) (sw_groupDisk w) (sw_groups w) (sw_replaySeen w) (sw_errors w).
Definition with_sw_groupDisk (w : StorageWorld) (d : option (list Z)) : StorageWorld :=
  mkStorage (sw_me w) (sw_network w) (sw_privacy w) (sw_messages w) (sw_sessions w) (sw_bindingLinks w)
    (sw_requestFile w) (sw_inbox w) (sw_groupStore w) d (sw_groups w) (sw_replaySeen w) (sw_errors w).
Definition recordStorageErr (category : string) (err : error) (w : StorageWorld) : StorageWorld :=
  mkStorage (sw_me w) (sw_network w) (sw_privacy w) (sw_messages w) (sw_sessions w) (sw_bindingLinks w)
    (sw_requestFile w) (sw_inbox w) (sw_groupStore w) (sw_groupDisk w) (sw_groups w) (sw_replaySeen w)
    (sw_errors w ++ [(category, err)])%list.

Definition sw_blobs (w : StorageWorld) : @BlobService F L := nw_daemons (sw_network w) (sw_me w).
Definition sw_attachments (w : StorageWorld) : AttachmentStore := up_store (bl_uploads (sw_blobs w)).
Definition sw_bindings (w : StorageWorld) : nodeBindingStore := ac_bindingStore (bl_access (sw_blobs w)).
Definition sw_serving (w : StorageWorld) : @Serving F L := bl_serving (sw_blobs w).
Definition sw_preset (w : StorageWorld) : blobNodePresetConfig := sv_preset (sw_serving w).

(** A change of the blob half, and of one of its stores. *)
Definition updateBlobs (f : @BlobService F L -> @BlobService F L) (w : StorageWorld) : StorageWorld :=
  with_sw_network w (updateDaemon (sw_me w) f (sw_network w)).
Definition updateServing (f : @Serving F L -> @Serving F L) : StorageWorld -> StorageWorld :=
  updateBlobs (fun s => with_bl_serving s (f (bl_serving s))).
Definition onAttachments (f : AttachmentStore -> AttachmentStore) (s : @BlobService F L) : @BlobService F L :=
  with_bl_uploads s (mkUploadService (up_uploads (bl_uploads s)) (f (up_store (bl_uploads s)))).
Definition updateAttachments (f : AttachmentStore -> AttachmentStore) : StorageWorld -> StorageWorld :=
  updateBlobs (onAttachments f).
Definition with_binding_store (a : Access) (b : nodeBindingStore) : Access :=
  mkAccess (ac_identityManager a) b (ac_policy a) (ac_groups a).
Definition updateBindings (f : nodeBindingStore -> nodeBindingStore) : StorageWorld -> StorageWorld :=
  updateBlobs (fun s => mkBlobService (bl_uploads s)
    (with_binding_store (bl_access s) (f (ac_bindingStore (bl_access s)))) (bl_serving s)
    (bl_replicationMode s) (bl_flags s) (bl_networking s)).

(** ** Wiping *)

(** What a wipe meets, store by store. *)
Record WipeEnv := mkWipe {
  we_messages : StoreEnv; we_sessions : StoreEnv; we_attachments : AttachmentEnv; we_bindings : StoreEnv;
  we_inbox : StoreEnv; we_groups : StoreEnv
}.

(** errors.Join: nil for two nils. *)
Definition joinOpt (e1 : option error) (e2 : option error) : option error :=
  match e2 with None => e1 | Some e2 => Some (joinErr e1 e2) end.
Definition errOf {A} (r : result error A) : option error := match r with Err e => Some e | Ok _ => None end.

(** [SetSnapshot] and the fields of the runtime states that are made anew. *)
Definition resetVolatileRuntimeState (w : StorageWorld) : StorageWorld :=
  mkStorage (sw_me w) (sw_network w) (sw_privacy w) (sw_messages w) (sw_sessions w) ∅
    (sw_requestFile w) ∅ (sw_groupStore w) (sw_groupDisk w) (SetSnapshot ∅ ∅) ∅ (sw_errors w).

(** The stores one after the other; a failing one does not stop the others. *)
Definition wipeContentState (env : WipeEnv) : op unit := fun w =>
  let '(m, r1) := WipeMessages (we_messages env) (sw_messages w) in
  let w := with_sw_messages w m in
  let '(s, r2) := ManagerWipe (we_sessions env) (sw_sessions w) in
  let w := with_sw_sessions w s in
  let '(a, r3) := AttachmentStore.Wipe (we_attachments env) (sw_attachments w) in
  let w := updateAttachments (fun _ => a) w in
  let '(b, r4) := bindingWipe (we_bindings env) (sw_bindings w) in
  let w := updateBindings (fun _ => b) w in
  let '(f, r5) := RequestWipe (we_inbox env) (sw_requestFile w) in
  let w := with_sw_requestFile w f in
  let '(d, e6) := GroupStore.Wipe (we_groups env) (sw_groupStore w) (sw_groupDisk w) in
  let w := with_sw_groupDisk w d in
  let err := joinOpt (joinOpt (joinOpt (joinOpt (joinOpt (errOf r1) (errOf r2)) (errOf r3)) (errOf r4))
                        (errOf r5)) e6 in
  (resetVolatileRuntimeState w, match err with Some err => Err err | None => Ok tt end).

(** ** Applying a policy *)

Definition setSessionsPersistence (enabled : bool) (w : StorageWorld) : StorageWorld :=
  with_sw_sessions w (fst (ManagerSetPersistenceEnabled enabled (sw_sessions w))).

(** The switches of the stores. *)
Definition configureStores (policy : StoragePolicy) (w : StorageWorld) : StorageWorld :=
  let allowed := negb (sp_ContentRetentionMode policy == RetentionZeroRetention) in
  let w := with_sw_messages w (SetPersistenceEnabled allowed (sw_messages w)) in
  let w := updateAttachments (AttachmentStore.SetPersistenceEnabled allowed) w in
  let w := updateAttachments (SetClassPolicies (sp_ImageQuotaMB policy) (sp_ImageMaxItemSizeMB policy)
                                (sp_FileQuotaMB policy) (sp_FileMaxItemSizeMB policy)) w in
  let cfg := sw_preset w in
  let w := updateAttachments (SetHardCapPolicy (np_HighWatermarkPercent cfg) (np_FullCapPercent cfg)
                                (np_AggressiveTargetPercent cfg)) w in
  setSessionsPersistence allowed w.

Definition applyStoragePolicy (rt : GoRuntime) (env : WipeEnv) (policy : StoragePolicy) : op unit := fun w =>
  let policy := @NormalizeStoragePolicy rt lower policy in
  let w := configureStores policy w in
  if sp_ContentRetentionMode policy == RetentionZeroRetention then wipeContentState env w else (w, Ok tt).

Definition applyStoragePolicyFromSettings (rt : GoRuntime) (env : WipeEnv) (settings : PrivacySettings)
    : op unit := applyStoragePolicy rt env (@StoragePolicyFromSettings rt lower settings).

Definition onPrivacy {A} (c : M PrivacyWorld error A) : op A := fun w =>
  let '(p, r) := c (sw_privacy w) in (with_sw_privacy w p, r).

(** The policy of the settings in memory. *)
Definition currentPolicy (rt : GoRuntime) (w : StorageWorld) : StoragePolicy :=
  @StoragePolicyFromSettings rt lower (@NormalizePrivacySettings rt lower (pw_privacy (sw_privacy w))).

(** The previous policy is applied again when the new one cannot be persisted. *)
Definition UpdateStoragePolicy (env : StoreEnv) (apply rollback : WipeEnv) (storageProtection retention : string)
    (messageTTL imageTTL fileTTL imageQuota fileQuota imageMax fileMax : Z) : op StoragePolicy := fun w =>
  let rt := env_rt env in
  let previousPolicy := currentPolicy rt w in
  match @ParseStoragePolicy rt lower storageProtection retention messageTTL imageTTL fileTTL imageQuota fileQuota
          imageMax fileMax with
  | Err err => (w, Err err)
  | Ok policy =>
      match applyStoragePolicy rt apply policy w with
      | (w, Err err) => (w, Err err)
      | (w, Ok _) =>
          match onPrivacy (PrivacyService.UpdateStoragePolicy env storageProtection retention messageTTL imageTTL
                             fileTTL imageQuota fileQuota imageMax fileMax) w with
          | (w, Err err) => (fst (applyStoragePolicy rt rollback previousPolicy w), Err err)
          | (w, Ok policy) => (w, Ok policy)
          end
      end
  end.

Definition SetStorageScopeOverride (env : StoreEnv) (scope scopeID storageProtection retention : string)
    (messageTTL imageTTL fileTTL imageQuota fileQuota imageMax fileMax : Z) (infiniteTTL pinRequired : bool)
    : op StoragePolicyOverride :=
  let! p := liftM (@ParseStoragePolicy (env_rt env) lower storageProtection retention messageTTL imageTTL
                     fileTTL imageQuota fileQuota imageMax fileMax) in
  onPrivacy (PrivacyService.SetStorageScopeOverride env scope scopeID
    (mkOverride (sp_StorageProtection p) (sp_ContentRetentionMode p) (sp_MessageTTLSeconds p)
       (sp_ImageTTLSeconds p) (sp_FileTTLSeconds p) (sp_ImageQuotaMB p) (sp_FileQuotaMB p)
       (sp_ImageMaxItemSizeMB p) (sp_FileMaxItemSizeMB p) infiniteTTL pinRequired)).

(** ** Retention *)

(** The times to live of attachments, which only the ephemeral mode has. *)
Definition attachmentTTLs (policy : StoragePolicy) : Z * Z :=
  if sp_ContentRetentionMode policy == RetentionEphemeral
  then (sp_ImageTTLSeconds policy, sp_FileTTLSeconds policy) else (0, 0).

Definition RunAttachmentGCDryRun (env : StoreEnv) (att : AttachmentEnv) (clock now : Z)
    : op AttachmentGCReport := fun w =>
  let policy := currentPolicy (env_rt env) w in
  let '(imageTTL, fileTTL) := attachmentTTLs policy in
  let '(a, r) := RunGC att clock now imageTTL fileTTL true (sw_attachments w) in
  (updateAttachments (fun _ => a) w, r).

(** The messages of [enforceRetentionPolicies]. *)
Definition purgeMessages (env : StoreEnv) (policy : StoragePolicy) (now : Z) (w : StorageWorld) : StorageWorld :=
  if (sp_ContentRetentionMode policy == RetentionEphemeral) && (0 <? sp_MessageTTLSeconds policy) then
    let '(m, r) := MessageStore.PurgeOlderThan env (ttlCutoff now (sp_MessageTTLSeconds policy)) (sw_messages w) in
    let w := with_sw_messages w m in
    match r with Err err => recordStorageErr "storage" err w | Ok _ => w end
  else w.

Definition enforceRetentionPolicies (env : StoreEnv) (att : AttachmentEnv) (clock now : Z) (w : StorageWorld)
    : StorageWorld :=
  let policy := currentPolicy (env_rt env) w in
  let w := purgeMessages env policy now w in
  let '(imageTTL, fileTTL) := attachmentTTLs policy in
  let '(a, r) := RunGC att clock now imageTTL fileTTL false (sw_attachments w) in
  let w := updateAttachments (fun _ => a) w in
  match r with Err err => recordStorageErr "storage" err w | Ok _ => w end.

Definition cleanupOnStopIfZeroRetention (env : StoreEnv) (wipe : WipeEnv) : op unit := fun w =>
  let policy := currentPolicy (env_rt env) w in
  if negb (sp_ContentRetentionMode policy == RetentionZeroRetention) then (w, Ok tt) else wipeContentState wipe w.

(** ** Node policies and presets *)

Definition applyNodePolicies (policies : NodePolicies) : StorageWorld -> StorageWorld :=
  updateServing (fun v => with_preset v (presetWithPolicies (sv_preset v) policies)).

Definition applyNodePoliciesFromSettings (rt : GoRuntime) (settings : PrivacySettings) (w : StorageWorld)
    : StorageWorld :=
  match ps_NodePolicies (@NormalizePrivacySettings rt lower settings) with
  | None => w
  | Some policies => applyNodePolicies policies w
  end.

Definition ServiceGetNodePolicies (env : StoreEnv) (w : StorageWorld) : NodePolicies :=
  match snd (GetNodePolicies env (sw_privacy w)) with
  | Err _ => nodePoliciesFromPreset (sw_preset w)
  | Ok policies => policies
  end.

Definition ServiceUpdateNodePolicies (env : StoreEnv) (patch : NodePoliciesPatch) : op NodePolicies :=
  match pt_Personal patch, pt_Public patch with
  | None, None => failM errInvalidNodePoliciesPatch
  | _, _ =>
      let! current := onPrivacy (GetNodePolicies env) in
      let next := @applyNodePoliciesPatch (env_rt env) lower current patch in
      let! updated := onPrivacy (UpdateNodePolicies env next) in
      modifyM (applyNodePolicies updated) ;;!
      retM updated
  end.

Definition syncNodePoliciesFromPreset (env : StoreEnv) (cfg : blobNodePresetConfig) : op unit :=
  let! _ := onPrivacy (UpdateNodePolicies env (policiesOfPreset cfg)) in retM tt.

(** The limits of a profile, on the serving half. *)
Definition servingOfPreset (rt : GoRuntime) (clock : Z) (cfg : blobNodePresetConfig) (v : @Serving F L)
    : @Serving F L :=
  let v := configurePublicServingLimits float_le0 float_of perMinute NewLimiter rt clock cfg v in
  let v := with_fetch v (SetLimitKBps float_of NewLimiter (np_FetchBandwidthKBps cfg) (sv_fetch v)) in
  with_preset v cfg.

Definition onNetwork {A} (c : nat -> M (@Network F L) error A) : op A := fun w =>
  let '(n, r) := c (sw_me w) (sw_network w) in (with_sw_network w n, r).

Definition GetBlobNodePreset (w : StorageWorld) : blobNodePresetConfig := sw_preset w.

(** [envPolicy] and [envSync] are for the two writes of the settings, [now] for the announcements. *)
Definition SetBlobNodePreset (envPolicy envSync : StoreEnv) (apply rollback : WipeEnv) (rt : GoRuntime)
    (now : Z) (rawPreset : string) : op blobNodePresetConfig :=
  let! preset := liftM (parseBlobNodePreset rawPreset) in
  let cfg := buildBlobNodePresetConfig preset in
  let! _ := UpdateStoragePolicy envPolicy apply rollback (np_StorageProtection cfg) (np_Retention cfg) 0 0 0
              (np_ImageQuotaMB cfg) (np_FileQuotaMB cfg) (np_ImageMaxItemSizeMB cfg) (np_FileMaxItemSizeMB cfg) in
  onNetwork (fun me => SetBlobReplicationMode NewLimiter AllowN rt now me (replicationModeText (np_ReplicationMode cfg))) ;;!
  let! _ := onNetwork (fun me => SetBlobFeatureFlags NewLimiter AllowN rt now me (np_AnnounceEnabled cfg)
              (np_FetchEnabled cfg) (np_RolloutPercent cfg)) in
  modifyM (updateAttachments (SetHardCapPolicy (np_HighWatermarkPercent cfg) (np_FullCapPercent cfg)
             (np_AggressiveTargetPercent cfg))) ;;!
  modifyM (updateServing (servingOfPreset rt now cfg)) ;;!
  syncNodePoliciesFromPreset envSync cfg ;;!
  let! w := getM in retM (GetBlobNodePreset w).

(** ** The switches follow the policy *)

Lemma sw_blobs_update f w : sw_blobs (updateBlobs f w) = f (sw_blobs w).
Proof. unfold sw_blobs, updateBlobs, updateDaemon. cbn. apply fn_lookup_insert. Qed.

Lemma sw_attachments_update f w : sw_attachments (updateAttachments f w) = f (sw_attachments w).
Proof. unfold sw_attachments at 1, updateAttachments. by rewrite sw_blobs_update. Qed.

Lemma sw_attachments_bindings f w : sw_attachments (updateBindings f w) = sw_attachments w.
Proof. unfold sw_attachments, updateBindings. by rewrite sw_blobs_update. Qed.

Lemma sw_bindings_update f w : sw_bindings (updateBindings f w) = f (sw_bindings w).
Proof. unfold sw_bindings at 1, updateBindings. by rewrite sw_blobs_update. Qed.

Lemma sw_bindings_attachments f w : sw_bindings (updateAttachments f w) = sw_bindings w.
Proof. unfold sw_bindings, updateAttachments. by rewrite sw_blobs_update. Qed.

Lemma sw_serving_attachments f w : sw_serving (updateAttachments f w) = sw_serving w.
Proof. unfold sw_serving, updateAttachments. by rewrite sw_blobs_update. Qed.

Lemma sw_serving_bindings f w : sw_serving (updateBindings f w) = sw_serving w.
Proof. unfold sw_serving, updateBindings. by rewrite sw_blobs_update. Qed.

(** The quotas, and whether content is written: as the policy says, in all three stores. *)
Definition follows (p : StoragePolicy) (w : StorageWorld) : Prop :=
  let allowed := negb (sp_ContentRetentionMode p == RetentionZeroRetention) in
  ms_persist (sw_messages w) = allowed /\ as_persist (sw_attachments w) = allowed
  /\ fs_persist (snd (sw_sessions w)) = allowed
  /\ as_limits (sw_attachments w)
     = mkLimits (mbToBytes (sp_ImageQuotaMB p)) (mbToBytes (sp_ImageMaxItemSizeMB p))
         (mbToBytes (sp_FileQuotaMB p)) (mbToBytes (sp_FileMaxItemSizeMB p)).

Lemma configureStores_spec p w :
  follows p (configureStores p w) /\ sw_privacy (configureStores p w) = sw_privacy w
  /\ sw_serving (configureStores p w) = sw_serving w.
Proof.
  unfold configureStores, setSessionsPersistence, ManagerSetPersistenceEnabled.
  destruct (sw_sessions _) as [h s] eqn:Es. unfold follows. cbn [sw_messages sw_sessions sw_privacy with_sw_sessions fst snd].
  split_and!; try done.
  - change (sw_attachments (with_sw_sessions ?x ?y)) with (sw_attachments x). by rewrite !sw_attachments_update.
  - change (sw_attachments (with_sw_sessions ?x ?y)) with (sw_attachments x). by rewrite !sw_attachments_update.
  - change (sw_serving (with_sw_sessions ?x ?y)) with (sw_serving x). by rewrite !sw_serving_attachments.
Qed.

(** Every content is out of memory. *)
Record memory_free (w : StorageWorld) : Prop := mkMemoryFree {
  mf_messages : ms_messages (sw_messages w) = ∅; mf_pending : ms_pending (sw_messages w) = ∅;
  mf_items : as_items (sw_attachments w) = ∅; mf_blobs : as_blobs (sw_attachments w) = ∅;
  mf_sessions : fs_sessions (snd (sw_sessions w)) = ∅; mf_bindings : nb_bindings (sw_bindings w) = ∅;
  mf_links : sw_bindingLinks w = ∅; mf_inbox : sw_inbox w = ∅;
  mf_groups : view (sw_groups w) = ∅; mf_events : eventLog (sw_groups w) = ∅; mf_replay : sw_replaySeen w = ∅
}.

(** And off the disk, for the stores that have a path. *)
Record disk_free (w : StorageWorld) : Prop := mkDiskFree {
  df_messages : TrimSpace (ms_path (sw_messages w)) <> "" -> ms_disk (sw_messages w) = None;
  df_attachments : TrimSpace (as_dir (sw_attachments w)) <> "" -> forall p data,
    as_files (sw_attachments w) !! p = Some data -> within (Clean (as_dir (sw_attachments w))) p = false;
  df_sessions : fs_path (snd (sw_sessions w)) <> "" -> fs_disk (snd (sw_sessions w)) = None;
  df_bindings : es_path (nb_file (sw_bindings w)) <> "" -> es_disk (nb_file (sw_bindings w)) = None;
  df_inbox : es_path (sw_requestFile w) <> "" -> es_disk (sw_requestFile w) = None;
  df_groups : ss_path (sw_groupStore w) <> "" -> sw_groupDisk w = None
}.

(** The file system removes what it is asked to. *)
Definition wipe_ok (env : WipeEnv) : Prop :=
  env_remove (we_messages env) = None /\ env_remove (we_sessions env) = None
  /\ ae_removeAll (we_attachments env) = None /\ env_remove (we_bindings env) = None
  /\ env_remove (we_inbox env) = None /\ env_remove (we_groups env) = None.

#[export] Instance wipe_ok_dec env : Decision (wipe_ok env).
Proof. unfold wipe_ok. apply _. Defined.

Lemma wipe_messages_spec env s s' r :
  WipeMessages env s = (s', r) ->
  ms_messages s' = ∅ /\ ms_pending s' = ∅ /\ ms_persist s' = ms_persist s /\ ms_path s' = ms_path s
  /\ (env_remove env = None -> r = Ok tt /\ (TrimSpace (ms_path s) <> "" -> ms_disk s' = None)).
Proof.
  unfold WipeMessages. case_bool_decide; [intros [= <- <-]; by split_and!|].
  destruct (env_remove env) as [err|]; [|intros [= <- <-]; by split_and!].
  destruct (err == fsErrNotExist); intros [= <- <-]; by split_and!.
Qed.

Lemma wipe_sessions_spec env w w' r :
  FileWipe env w = (w', r) ->
  fs_sessions (snd w') = ∅ /\ fs_persist (snd w') = fs_persist (snd w) /\ fs_path (snd w') = fs_path (snd w)
  /\ (env_remove env = None -> r = Ok tt /\ (fs_path (snd w) <> "" -> fs_disk (snd w') = None)).
Proof.
  destruct w as [h [p sec per ses d]]. unfold FileWipe. cbn. case_bool_decide; [intros [= <- <-]; by split_and!|].
  destruct d as [d|], (env_remove env) as [err|]; try destruct (err == fsErrNotExist); intros [= <- <-]; by split_and!.
Qed.

Lemma wipe_attachments_spec env s s' r :
  AttachmentStore.Wipe env s = (s', r) ->
  as_items s' = ∅ /\ as_blobs s' = ∅ /\ as_persist s' = as_persist s /\ as_limits s' = as_limits s
  /\ as_dir s' = as_dir s
  /\ (ae_removeAll env = None -> r = Ok tt /\ (TrimSpace (as_dir s) <> "" -> forall p data,
       as_files s' !! p = Some data -> within (Clean (as_dir s)) p = false)).
Proof.
  unfold AttachmentStore.Wipe. cbn [as_dir with_items with_blobs].
  case_bool_decide; [intros [= <- <-]; by split_and!|].
  destruct (ae_removeAll env) as [[err remain]|]; intros [= <- <-]; split_and!; try done.
  intros _. split; [done|]. intros _ p data. cbn. by intros [_ ?]%map_lookup_filter_Some.
Qed.

Lemma wipeStore_spec env blank s s' r :
  wipeStore env blank s = (s', r) ->
  es_path s' = es_path s /\ (env_remove env = None -> r = Ok tt /\ (blank = false -> es_disk s' = None)).
Proof.
  unfold wipeStore. destruct blank; [intros [= <- <-]; by split_and!|].
  destruct s as [p sec [d|]], (env_remove env) as [err|]; cbn; try destruct (err == fsErrNotExist);
    intros [= <- <-]; by split_and!.
Qed.

Lemma wipe_groups_spec env s d d' e :
  GroupStore.Wipe env s d = (d', e) -> env_remove env = None -> e = None /\ (ss_path s <> "" -> d' = None).
Proof.
  unfold GroupStore.Wipe. case_bool_decide; intros H' Hr; rewrite ?Hr in H'; by injection H' as <- <-.
Qed.

(** The outcome of a wipe, store by store. *)
Lemma wipe_runs env w w' r :
  wipeContentState env w = (w', r) ->
  exists r1 r2 r3 r4 r5 e6,
    WipeMessages (we_messages env) (sw_messages w) = (sw_messages w', r1)
    /\ FileWipe (we_sessions env) (sw_sessions w) = (sw_sessions w', r2)
    /\ AttachmentStore.Wipe (we_attachments env) (sw_attachments w) = (sw_attachments w', r3)
    /\ wipeStore (we_bindings env) (es_path (nb_file (sw_bindings w)) == "") (nb_file (sw_bindings w))
       = (nb_file (sw_bindings w'), r4)
    /\ wipeStore (we_inbox env) (es_path (sw_requestFile w) == "") (sw_requestFile w) = (sw_requestFile w', r5)
    /\ GroupStore.Wipe (we_groups env) (sw_groupStore w) (sw_groupDisk w) = (sw_groupDisk w', e6)
    /\ sw_groupStore w' = sw_groupStore w /\ sw_privacy w' = sw_privacy w /\ sw_serving w' = sw_serving w
    /\ nb_bindings (sw_bindings w') = ∅ /\ sw_bindingLinks w' = ∅ /\ sw_inbox w' = ∅ /\ sw_replaySeen w' = ∅
    /\ sw_groups w' = SetSnapshot ∅ ∅
    /\ r = match joinOpt (joinOpt (joinOpt (joinOpt (joinOpt (errOf r1) (errOf r2)) (errOf r3)) (errOf r4))
                          (errOf r5)) e6 with Some err => Err err | None => Ok tt end.
Proof.
  unfold wipeContentState. destruct (WipeMessages _ _) as [m r1].
  cbn [sw_sessions with_sw_messages]. unfold ManagerWipe. cbn [StoreWipe FileStore].
  destruct (FileWipe _ _) as [s r2].
  change (sw_attachments (with_sw_sessions (with_sw_messages w m) s)) with (sw_attachments w).
  destruct (AttachmentStore.Wipe _ _) as [a r3]. rewrite sw_bindings_attachments.
  change (sw_bindings (with_sw_sessions (with_sw_messages w m) s)) with (sw_bindings w).
  unfold bindingWipe. cbn [nb_file with_bindings]. destruct (wipeStore (we_bindings env) _ _) as [bf r4].
  unfold RequestWipe. cbn [sw_requestFile updateBindings updateAttachments updateBlobs with_sw_network with_sw_sessions with_sw_messages].
  destruct (wipeStore (we_inbox env) _ _) as [rf r5].
  cbn [sw_groupStore sw_groupDisk with_sw_requestFile with_sw_network with_sw_sessions with_sw_messages].
  destruct (GroupStore.Wipe _ _ _) as [d e6]. intros [= <- <-].
  set (w2 := updateBindings _ _).
  assert (Ha : sw_attachments w2 = a) by (unfold w2; by rewrite sw_attachments_bindings, sw_attachments_update).
  assert (Hb : sw_bindings w2 = mkBindingStore bf ∅) by (unfold w2; by rewrite sw_bindings_update).
  assert (Hp : sw_serving w2 = sw_serving w) by (unfold w2; by rewrite sw_serving_bindings, sw_serving_attachments).
  set (w3 := resetVolatileRuntimeState _).
  change (sw_attachments w3) with (sw_attachments w2). change (sw_bindings w3) with (sw_bindings w2).
  change (sw_serving w3) with (sw_serving w2). rewrite Ha, Hb, Hp. by exists r1, r2, r3, r4, r5, e6.
Qed.

(** A wipe empties the memory whatever happens, and the disk when files can be removed; it leaves
    the settings and the switches alone. *)
Lemma wipe_spec env w w' r :
  wipeContentState env w = (w', r) ->
  memory_free w' /\ sw_privacy w' = sw_privacy w /\ sw_serving w' = sw_serving w
  /\ (forall p, follows p w -> follows p w')
  /\ (wipe_ok env -> r = Ok tt /\ disk_free w').
Proof.
  intros H. apply wipe_runs in H
    as (r1 & r2 & r3 & r4 & r5 & e6 & E1 & E2 & E3 & E4 & E5 & E6 & Hg & Hp & Hc & Hb & Hl & Hi & Hr & Hv & ->).
  apply wipe_messages_spec in E1 as (A1 & A2 & A3 & A4 & A5).
  apply wipe_sessions_spec in E2 as (B1 & B2 & B3 & B4).
  apply wipe_attachments_spec in E3 as (C1 & C2 & C3 & C4 & C5 & C6).
  apply wipeStore_spec in E4 as (D1 & D2). apply wipeStore_spec in E5 as (F1 & F2).
  pose proof (wipe_groups_spec _ _ _ _ _ E6) as G1. split_and!; [|done|done| |].
  - constructor; rewrite ?Hv; done.
  - intros p (P1 & P2 & P3 & P4). unfold follows. rewrite A3, B2, C3, C4. by split_and!.
  - intros (O1 & O2 & O3 & O4 & O5 & O6).
    destruct (A5 O1) as [-> A6], (B4 O2) as [-> B5], (C6 O3) as [-> C7], (D2 O4) as [-> D3], (F2 O5) as [-> F3],
      (G1 O6) as [-> G2]. split; [done|]. constructor; rewrite ?A4, ?B3, ?C5, ?D1, ?F1, ?Hg; try done.
    + intros Hn. apply D3. by apply bool_decide_eq_false.
    + intros Hn. apply F3. by apply bool_decide_eq_false.
Qed.

Lemma apply_spec rt env p w w' r :
  applyStoragePolicy rt env p w = (w', r) ->
  let q := normalizePolicy p in
  follows q w' /\ sw_privacy w' = sw_privacy w /\ sw_serving w' = sw_serving w
  /\ (sp_ContentRetentionMode q <> RetentionZeroRetention -> r = Ok tt)
  /\ (sp_ContentRetentionMode q = RetentionZeroRetention ->
      memory_free w' /\ (wipe_ok env -> r = Ok tt /\ disk_free w')).
Proof.
  intros H q. unfold applyStoragePolicy in H. rewrite (NormalizeStoragePolicy_policy (H:=rt) p) in H. fold q in H.
  destruct (configureStores_spec q w) as (Hf & Hp & Hc). revert H. case_bool_decide as Hz.
  - intros H. apply wipe_spec in H as (Hm & Hp' & Hc' & Hf' & Hd). split_and!; [by apply Hf'|congruence|congruence|done|done].
  - intros [= <- <-]. by split_and!.
Qed.

(** The policy in memory, normalized. *)
Definition policyInForce (w : StorageWorld) : StoragePolicy := normalizePolicy (policyOf (pw_privacy (sw_privacy w))).

Lemma currentPolicy_eq rt w : currentPolicy rt w = policyInForce w.
Proof.
  unfold currentPolicy, policyInForce. rewrite StoragePolicyFromSettings_policy.
  change (policyOf (NormalizePrivacySettings ?s)) with (normalizePolicy (policyOf s)).
  apply normalizePolicy_id, normalizePolicy_ok.
Qed.

Lemma update_privacy_spec env pr re mt it ft iq fq im fm policy w w' res :
  @ParseStoragePolicy (env_rt env) lower pr re mt it ft iq fq im fm = Ok policy ->
  PrivacyService.UpdateStoragePolicy env pr re mt it ft iq fq im fm w = (w', res) ->
  match res with
  | Ok _ => normalizePolicy (policyOf (pw_privacy w')) = normalizePolicy policy
  | Err _ => pw_privacy w' = pw_privacy w
  end.
Proof.
  intros Hp. unfold PrivacyService.UpdateStoragePolicy, bindM, liftM. rewrite Hp. cbn [GetPrivacySettings].
  match goal with |- context [commitSettings env ?s w] => destruct (commit_cases env s w) as (st & r & -> & _) end.
  destruct r as [[]|e]; intros [= <- <-]; [|done]. cbn [pw_privacy with_pw_privacy].
  change (policyOf (NormalizePrivacySettings ?s)) with (normalizePolicy (policyOf s)).
  rewrite (normalizePolicy_id (normalizePolicy _)) by apply normalizePolicy_ok. done.
Qed.

Lemma ParseStoragePolicy_mode rt pr re mt it ft iq fq im fm policy :
  @ParseStoragePolicy rt lower pr re mt it ft iq fq im fm = Ok policy ->
  sp_ContentRetentionMode (normalizePolicy policy) = TrimSpace re.
Proof.
  unfold ParseStoragePolicy, bindR. destruct (ParseStorageProtectionMode pr) as [pm|]; [|done].
  unfold ParseContentRetentionMode. destruct (ContentRetentionMode_Valid (TrimSpace re)) eqn:Ev; cbn [negb]; [|done].
  destruct (_ || _); [done|]. destruct (_ || _); [done|]. intros [= <-].
  change (normalizePolicy (NormalizeStoragePolicy ?p)) with (normalizePolicy (normalizePolicy p)).
  rewrite normalizePolicy_id by apply normalizePolicy_ok. cbn [normalizePolicy sp_ContentRetentionMode]. by apply normalMode_id.
Qed.

(** What an update does, whether or not it is persisted. *)
Lemma update_spec env apply rollback pr re mt it ft iq fq im fm w w' res :
  UpdateStoragePolicy env apply rollback pr re mt it ft iq fq im fm w = (w', res) ->
  (exists err, res = Err err /\ w' = w)
  \/ (TrimSpace re = RetentionZeroRetention /\ ~ wipe_ok apply)
  \/ (follows (policyInForce w') w' /\ sw_serving w' = sw_serving w
      /\ (TrimSpace re = RetentionZeroRetention -> wipe_ok apply)
      /\ match res with
         | Ok _ => sp_ContentRetentionMode (policyInForce w') = TrimSpace re
             /\ (exists policy, @ParseStoragePolicy (env_rt env) lower pr re mt it ft iq fq im fm = Ok policy
                 /\ policyInForce w' = normalizePolicy policy)
             /\ (TrimSpace re = RetentionZeroRetention -> memory_free w' /\ disk_free w')
         | Err _ => pw_privacy (sw_privacy w') = pw_privacy (sw_privacy w)
         end).
Proof.
  unfold UpdateStoragePolicy. rewrite currentPolicy_eq.
  destruct (@ParseStoragePolicy _ _ _ _ _ _ _ _ _ _ _) as [policy|err] eqn:Ep; [|intros [= <- <-]; left; by exists err].
  intros H. right. pose proof (ParseStoragePolicy_mode _ _ _ _ _ _ _ _ _ _ _ Ep) as Hm.
  destruct (applyStoragePolicy _ _ _ _) as [w1 r1] eqn:E1. apply apply_spec in E1 as (Hf & Hpr & Hc & Hok & Hz).
  rewrite Hm in *. assert (Hcase : (TrimSpace re = RetentionZeroRetention /\ ~ wipe_ok apply)
    \/ (r1 = Ok tt /\ (TrimSpace re = RetentionZeroRetention -> memory_free w1 /\ wipe_ok apply /\ disk_free w1))).
  { destruct (decide (TrimSpace re = RetentionZeroRetention)) as [Hr|Hr]; [|right; split; [auto|done]].
    destruct (decide (wipe_ok apply)) as [Hw|Hw]; [right|by left]. destruct (Hz Hr) as [Hmf Hd].
    destruct (Hd Hw). split; [done|]. intros _. by split_and!. }
  destruct Hcase as [Hcase|[-> Hfree]]; [by left|right]. revert H. unfold onPrivacy.
  destruct (PrivacyService.UpdateStoragePolicy _ _ _ _ _ _ _ _ _ _ _) as [pw res1] eqn:E2.
  pose proof (update_privacy_spec _ _ _ _ _ _ _ _ _ _ _ _ _ _ Ep E2) as Hu.
  destruct res1 as [pol|err]; intros [= <- <-].
  - assert (Hpf : policyInForce (with_sw_privacy w1 pw) = normalizePolicy policy) by exact Hu. rewrite Hpf.
    split_and!; [exact Hf|exact Hc|intros Hr; apply (Hfree Hr)|exact Hm|by exists policy|]. intros Hr. destruct (Hfree Hr) as ([] & _ & []).
    split; constructor; done.
  - destruct (applyStoragePolicy _ _ _ _) as [w3 r3] eqn:E3. apply apply_spec in E3 as (Hf3 & Hp3 & Hc3 & _).
    cbn [fst]. assert (Hpriv : pw_privacy (sw_privacy w3) = pw_privacy (sw_privacy w)).
    { rewrite Hp3. cbn [sw_privacy with_sw_privacy]. by rewrite Hu, Hpr. }
    split_and!; [|by rewrite Hc3|intros Hr; apply (Hfree Hr)|done].
    unfold policyInForce in *. rewrite Hpriv. by rewrite normalizePolicy_id in Hf3 by apply normalizePolicy_ok.
Qed.

(** C25: Zero retention leaves nothing behind. After a policy with zero retention was set, and files
    could be removed, no message, pending message, attachment, session, binding, link code,
    message request, group, group event or replay entry is in memory, no file of theirs is on
    disk, the three content stores no longer write, and the settings say so. *)
Theorem zero_retention_leaves_nothing (env : StoreEnv) (apply rollback : WipeEnv) (pr re : string)
    (mt it ft iq fq im fm : Z) (w w' : StorageWorld) (policy : StoragePolicy) :
  wipe_ok apply -> TrimSpace re = RetentionZeroRetention ->
  UpdateStoragePolicy env apply rollback pr re mt it ft iq fq im fm w = (w', Ok policy) ->
  memory_free w' /\ disk_free w'
  /\ ms_persist (sw_messages w') = false /\ as_persist (sw_attachments w') = false
  /\ fs_persist (snd (sw_sessions w')) = false
  /\ sp_ContentRetentionMode (policyInForce w') = RetentionZeroRetention.
Proof.
  intros Hw Hr H. apply update_spec in H as [(err & ? & _)|[[_ ?]|(Hf & _ & _ & Hm & _ & Hz)]]; [done|done|].
  destruct (Hz Hr). rewrite Hr in Hm. destruct Hf as (H1 & H2 & H3 & _). rewrite Hm in H1, H2, H3. by split_and!.
Qed.

(** The stores follow the settings. When the switches of the stores are those of the policy in
    force, they are again after every update of the policy, also one that is refused or that
    cannot be persisted, in which case the settings are as before; the only exception is an update
    to zero retention whose wipe fails. *)
Theorem stores_follow_settings (env : StoreEnv) (apply rollback : WipeEnv) (pr re : string)
    (mt it ft iq fq im fm : Z) (w w' : StorageWorld) (res : result error StoragePolicy) :
  follows (policyInForce w) w -> (TrimSpace re = RetentionZeroRetention -> wipe_ok apply) ->
  UpdateStoragePolicy env apply rollback pr re mt it ft iq fq im fm w = (w', res) ->
  follows (policyInForce w') w' /\ (forall err, res = Err err -> policyInForce w' = policyInForce w).
Proof.
  intros Hf Hw H. apply update_spec in H as [(err & -> & ->)|[[Hr Hn]|(Hf' & _ & _ & Hres)]].
  - by split.
  - by apply Hw in Hr.
  - split; [done|]. intros err ->. unfold policyInForce. by rewrite Hres.
Qed.

(** ** Retention *)

(** Messages expire exactly. When the policy in force is ephemeral with a time to live, one round
    of enforcement that records no error leaves exactly the messages that are younger, and the
    pending entries of those; under any other policy it leaves all of them. *)
Theorem messages_expire_exactly (env : StoreEnv) (att : AttachmentEnv) (clock now : Z) (w : StorageWorld) :
  let w' := enforceRetentionPolicies env att clock now w in
  let p := policyInForce w in
  let ttl := sp_MessageTTLSeconds p in
  sw_errors w' = sw_errors w -> ttl * Second < 2 ^ 63 ->
  if (sp_ContentRetentionMode p == RetentionEphemeral) && (0 <? ttl) then
    (forall id m, ms_messages (sw_messages w') !! id = Some m
       <-> ms_messages (sw_messages w) !! id = Some m /\ now - ttl * Second < msg_Timestamp m)
    /\ forall id q, ms_pending (sw_messages w') !! id = Some q
       <-> ms_pending (sw_messages w) !! id = Some q
           /\ forall m, ms_messages (sw_messages w) !! id = Some m -> now - ttl * Second < msg_Timestamp m
  else sw_messages w' = sw_messages w.
Proof.
  cbv zeta. unfold enforceRetentionPolicies. rewrite currentPolicy_eq. set (p := policyInForce w).
  destruct (attachmentTTLs p) as [imageTTL fileTTL].
  assert (Hgc : forall w1, let w2 := (let '(a, r) := RunGC att clock now imageTTL fileTTL false (sw_attachments w1) in
      let w := updateAttachments (fun _ => a) w1 in
      match r with Err err => recordStorageErr "storage" err w | Ok _ => w end) in
    sw_messages w2 = sw_messages w1 /\ (sw_errors w2 = sw_errors w1 \/ exists e, sw_errors w2 = sw_errors w1 ++ [e])%list).
  { intros w1. destruct (RunGC _ _ _ _ _ _ _) as [a [rep|err]]; cbv zeta; [by split; [|left]|].
    split; [done|right]. by exists ("storage", err). }
  specialize (Hgc (purgeMessages env p now w)). cbv zeta in Hgc. destruct Hgc as [-> Herr].
  intros He Httl. unfold purgeMessages in *. destruct (_ && _) eqn:Ec; [|done].
  apply andb_true_iff in Ec as [_ Ettl]. apply Z.ltb_lt in Ettl.
  destruct (MessageStore.PurgeOlderThan _ _ _) as [m [n|err]] eqn:Em.
  - apply PurgeOlderThan_exact in Em as (H1 & H2 & _). cbn [sw_messages with_sw_messages].
    assert (Hcut : ttlCutoff now (sp_MessageTTLSeconds p) = now - sp_MessageTTLSeconds p * Second).
    { unfold ttlCutoff, Second in *. rewrite (s64_small (- _)) by lia. rewrite s64_small by lia. lia. }
    rewrite Hcut in *. by split.
  - exfalso. assert (Hl : length (sw_errors w) = length (sw_errors w ++ [("storage", err)])).
    { destruct Herr as [Herr|[e Herr]]; rewrite Herr in He; cbn [sw_errors recordStorageErr with_sw_messages] in He.
      - by rewrite <- He at 1.
      - apply (f_equal length) in He. rewrite !length_app in He. cbn in He. lia. }
    rewrite length_app in Hl. cbn in Hl. lia.
Qed.

(** ** A preset *)

Lemma onNetwork_mode rt now mode m w :
  parseBlobReplicationMode mode = Ok m ->
  exists n, onNetwork (fun me => SetBlobReplicationMode NewLimiter AllowN rt now me mode) w = (with_sw_network w n, Ok tt)
    /\ nw_daemons n (sw_me w) = with_bl_replication (sw_blobs w) (Some m) (bl_flags (sw_blobs w)).
Proof.
  intros Hm. unfold onNetwork, SetBlobReplicationMode. rewrite Hm. eexists. split; [done|].
  rewrite reannounce_daemons. unfold updateDaemon. cbn. apply fn_lookup_insert.
Qed.

Lemma onNetwork_flags rt now a f r w :
  exists n, onNetwork (fun me => SetBlobFeatureFlags NewLimiter AllowN rt now me a f r) w
      = (with_sw_network w n, Ok (mkFlags a f (clampRolloutPercent r)))
    /\ nw_daemons n (sw_me w)
       = with_bl_replication (sw_blobs w) (bl_replicationMode (sw_blobs w)) (mkFlags a f (clampRolloutPercent r)).
Proof.
  unfold onNetwork, SetBlobFeatureFlags. eexists. split; [done|].
  rewrite reannounce_daemons. unfold updateDaemon. cbn. apply fn_lookup_insert.
Qed.

Lemma parse_mode_text m : parseBlobReplicationMode (replicationModeText m) = Ok m.
Proof.
  unfold parseBlobReplicationMode. rewrite ToLower_ascii by (destruct m; vm_compute; repeat constructor).
  by destruct m.
Qed.

(** Every preset keeps content, encrypted and without expiry. *)
Lemma preset_policy rt preset policy :
  let cfg := buildBlobNodePresetConfig preset in
  @ParseStoragePolicy rt lower (np_StorageProtection cfg) (np_Retention cfg) 0 0 0 (np_ImageQuotaMB cfg)
    (np_FileQuotaMB cfg) (np_ImageMaxItemSizeMB cfg) (np_FileMaxItemSizeMB cfg) = Ok policy ->
  normalizePolicy policy
    = mkPolicy (np_StorageProtection cfg) RetentionPersistent 0 0 0 (np_ImageQuotaMB cfg) (np_FileQuotaMB cfg)
        (np_ImageMaxItemSizeMB cfg) (np_FileMaxItemSizeMB cfg).
Proof.
  cbv zeta. unfold ParseStoragePolicy, bindR, ParseStorageProtectionMode, ParseContentRetentionMode.
  destruct preset; cbn -[NormalizeStoragePolicy normalizePolicy]; intros [= <-];
    change (normalizePolicy (NormalizeStoragePolicy ?p)) with (normalizePolicy (normalizePolicy p));
    vm_compute; reflexivity.
Qed.

Lemma sync_spec env cfg w w' :
  syncNodePoliciesFromPreset env cfg w = (w', Ok tt) ->
  sw_messages w' = sw_messages w /\ sw_sessions w' = sw_sessions w /\ sw_blobs w' = sw_blobs w
  /\ policyInForce w' = policyInForce w
  /\ ps_NodePolicies (pw_privacy (sw_privacy w')) = Some (normalizeNodePolicies (Some (policiesOfPreset cfg))).
Proof.
  unfold syncNodePoliciesFromPreset, bindM, onPrivacy, UpdateNodePolicies, bindM. cbn [GetPrivacySettings].
  match goal with |- context [commitSettings env ?s ?p] => destruct (commit_cases env s p) as (st & r & -> & _) end.
  destruct r as [[]|e]; [|done]. intros [= <-]. split_and!; [done|done|done| |].
  - unfold policyInForce. cbn [sw_privacy with_sw_privacy pw_privacy with_pw_privacy].
    change (policyOf (NormalizePrivacySettings ?s)) with (normalizePolicy (policyOf s)).
    change (policyOf (set_node (NormalizePrivacySettings ?s) ?n)) with (normalizePolicy (policyOf s)).
    by rewrite !(normalizePolicy_id (normalizePolicy _)) by apply normalizePolicy_ok.
  - cbn [sw_privacy with_sw_privacy pw_privacy with_pw_privacy]. reflexivity.
Qed.

Lemma servingOfPreset_spec rt clock preset (v : @Serving F L) :
  is_Some (sv_soft v) -> is_Some (sv_hard v) ->
  let cfg := buildBlobNodePresetConfig preset in
  let v' := servingOfPreset rt clock cfg v in
  sv_preset v' = cfg
  /\ limits_of v' = (np_ServeBandwidthSoftKBps cfg, np_ServeBandwidthHardKBps cfg, np_ServeMaxConcurrent cfg,
                     np_ServeRequestsPerMinPerPeer cfg).
Proof.
  intros Hs Hh. cbv zeta. split; [done|]. unfold servingOfPreset, limits_of, configurePublicServingLimits,
    configurePublicEphemeralCache.
  cbn [sv_soft sv_hard sv_maxConcurrent sv_perPeerPerMin with_cache with_degrade with_limits with_fetch with_preset].
  rewrite !LimitKBps_set by done. by destruct preset.
Qed.

(** The last step starts from a world in which the stores, the mode, the flags and the limits are set. *)
Lemma preset_runs envPolicy envSync apply rollback rt now raw w w' cfg :
  is_Some (sv_soft (bl_serving (sw_blobs w))) -> is_Some (sv_hard (bl_serving (sw_blobs w))) ->
  SetBlobNodePreset envPolicy envSync apply rollback rt now raw w = (w', Ok cfg) ->
  exists preset w2, let c := buildBlobNodePresetConfig preset in
    parseBlobNodePreset raw = Ok preset
    /\ policyInForce w2 = mkPolicy (np_StorageProtection c) RetentionPersistent 0 0 0 (np_ImageQuotaMB c)
         (np_FileQuotaMB c) (np_ImageMaxItemSizeMB c) (np_FileMaxItemSizeMB c)
    /\ follows (policyInForce w2) w2
    /\ bl_replicationMode (sw_blobs w2) = Some (np_ReplicationMode c)
    /\ bl_flags (sw_blobs w2)
       = mkFlags (np_AnnounceEnabled c) (np_FetchEnabled c) (clampRolloutPercent (np_RolloutPercent c))
    /\ sw_preset w2 = c
    /\ limits_of (sw_serving w2) = (np_ServeBandwidthSoftKBps c, np_ServeBandwidthHardKBps c,
         np_ServeMaxConcurrent c, np_ServeRequestsPerMinPerPeer c)
    /\ syncNodePoliciesFromPreset envSync c w2 = (w', Ok tt) /\ cfg = sw_preset w'.
Proof.
  intros Hs Hh H. unfold SetBlobNodePreset in H.
  apply bindM_inv in H as (w0 & preset & E & H). unfold liftM in E.
  destruct (parseBlobNodePreset raw) as [q|] eqn:Ep; [|done]. injection E as -> ->.
  set (c := buildBlobNodePresetConfig preset) in *.
  apply bindM_inv in H as (w1 & pol & E1 & H).
  apply update_spec in E1 as [(? & ? & _)|[[Hr _]|(Hf & Hv & _ & _ & (p & Hp & Hpol) & _)]];
    [done|by destruct preset|]. apply preset_policy in Hp. rewrite Hp in Hpol.
  apply bindM_inv in H as (? & ? & E & H).
  destruct (onNetwork_mode rt now (replicationModeText (np_ReplicationMode c)) (np_ReplicationMode c) w1)
    as (n1 & E' & Hn1); [apply parse_mode_text|]. rewrite E' in E. injection E as <- <-.
  apply bindM_inv in H as (? & ? & E & H).
  destruct (onNetwork_flags rt now (np_AnnounceEnabled c) (np_FetchEnabled c) (np_RolloutPercent c)
    (with_sw_network w1 n1)) as (n2 & E2 & Hn2). rewrite E2 in E. injection E as <- <-.
  apply bindM_inv in H as (w3 & ? & E3 & H). injection E3 as <- <-.
  apply bindM_inv in H as (w4 & ? & E4 & H). injection E4 as <- <-.
  apply bindM_inv in H as (w5 & [] & E5 & H). apply bindM_inv in H as (? & ? & E6 & H).
  injection E6 as <- <-. injection H as -> <-. eexists preset, _. cbv zeta. split_and!; [done|..|exact E5|done].
  all: match goal with |- context [updateServing ?f ?x] => set (g := f) in *; set (w2 := x) in * end.
  all: assert (Hb2 : sw_blobs w2 = onAttachments (SetHardCapPolicy (np_HighWatermarkPercent c)
         (np_FullCapPercent c) (np_AggressiveTargetPercent c)) (nw_daemons n2 (sw_me w1))) by apply sw_blobs_update.
  all: assert (Hb : sw_blobs (updateServing g w2) = with_bl_serving (sw_blobs w2) (g (bl_serving (sw_blobs w2))))
         by apply sw_blobs_update.
  all: change (sw_blobs (with_sw_network w1 n1)) with (nw_daemons n1 (sw_me w1)) in Hn2;
         change (sw_me (with_sw_network w1 n1)) with (sw_me w1) in Hn2; rewrite Hn1 in Hn2; rewrite Hn2 in Hb2;
         rewrite Hb2 in Hb; unfold sw_preset, sw_serving in *; rewrite ?Hb.
  all: try (apply servingOfPreset_spec; cbn; by rewrite Hv).
  - exact Hpol.
  - unfold follows, sw_attachments in *. rewrite Hb. exact Hf.
  - done.
  - done.
Qed.

(** A preset sets up everything. When [SetBlobNodePreset] succeeds, from whatever state, it returns
    the profile of the named preset, and everything in force is that profile: the storage policy of
    the settings, with which the stores agree; the replication mode and feature flags; the serving
    limits; and the node policies, whose times to live and quotas are the defaults. *)
Theorem preset_sets_everything (envPolicy envSync : StoreEnv) (apply rollback : WipeEnv) (rt : GoRuntime)
    (now : Z) (raw : string) (w w' : StorageWorld) (cfg : blobNodePresetConfig) :
  is_Some (sv_soft (bl_serving (sw_blobs w))) -> is_Some (sv_hard (bl_serving (sw_blobs w))) ->
  SetBlobNodePreset envPolicy envSync apply rollback rt now raw w = (w', Ok cfg) ->
  parseBlobNodePreset raw = Ok (np_Preset cfg) /\ cfg = buildBlobNodePresetConfig (np_Preset cfg)
  /\ sw_preset w' = cfg
  /\ policyInForce w' = mkPolicy (np_StorageProtection cfg) RetentionPersistent 0 0 0 (np_ImageQuotaMB cfg)
       (np_FileQuotaMB cfg) (np_ImageMaxItemSizeMB cfg) (np_FileMaxItemSizeMB cfg)
  /\ follows (policyInForce w') w'
  /\ bl_replicationMode (sw_blobs w') = Some (np_ReplicationMode cfg)
  /\ bl_flags (sw_blobs w')
     = mkFlags (np_AnnounceEnabled cfg) (np_FetchEnabled cfg) (clampRolloutPercent (np_RolloutPercent cfg))
  /\ limits_of (bl_serving (sw_blobs w'))
     = (np_ServeBandwidthSoftKBps cfg, np_ServeBandwidthHardKBps cfg, np_ServeMaxConcurrent cfg,
        np_ServeRequestsPerMinPerPeer cfg)
  /\ ps_NodePolicies (pw_privacy (sw_privacy w')) = Some (normalizeNodePolicies (Some (policiesOfPreset cfg))).
Proof.
  intros Hs Hh H. apply preset_runs in H as (preset & w2 & Hr & Hp & Hf & Hm & Hfl & Hc & Hl & Hsync & ->); [|done|done].
  cbv zeta in *. apply sync_spec in Hsync as (H1 & H2 & H3 & H4 & H5).
  unfold sw_preset, sw_serving, follows, sw_attachments in *. rewrite H1, H2, H3, H4, Hc, Hm, Hfl, Hp, Hl, H5.
  rewrite Hp in Hf. destruct Hf as (F1 & F2 & F3 & F4), preset; (split; [exact Hr|]); split_and!;
    first [exact F1|exact F2|exact F3|exact F4|reflexivity].
Qed.

End Storage.

(** ** A daemon to compute with, and the witnesses *)

Definition ex_wipe : WipeEnv :=
  mkWipe SecureStore.ex_env SecureStore.ex_env ex_att_env SecureStore.ex_env SecureStore.ex_env SecureStore.ex_env.

Definition ex_base : @StorageWorld Z Z :=
  mkStorage 0 ex_network PrivacyService.ex_world
    (mkMessageStore (<["m1" := ex_msg "m1" (1000 * Second) "sent"]> (<["m2" := ex_msg "m2" (2000 * Second) "sent"]> ∅)) ∅
       "messages" "pw" true (Some [1]))
    (mkSkipHeap ∅ 0, mkFileStore "sessions" "pw" true ∅ (Some [2])) ∅ (mkEncStore "requests" "pw" (Some [3])) ∅
    (mkSnapshotStore "groups" "pw") (Some [4]) (SetSnapshot ∅ ∅) {["seen" := 5]} [].

Definition ex_update (pr re : string) (mt iq im : Z) (w : @StorageWorld Z Z) :=
  UpdateStoragePolicy SecureStore.ex_env ex_wipe ex_wipe pr re mt 0 0 iq 0 im 0 w.

(** The stores under the ephemeral mode, with ten minutes for messages. *)
Definition ex_storage : @StorageWorld Z Z := fst (ex_update "standard" "ephemeral" 600 64 8 ex_base).

Abbreviation ex_zero :=
  (UpdateStoragePolicy SecureStore.ex_env ex_wipe ex_wipe "protected" "zero_retention" 0 0 0 64 0 8 0 ex_storage).

Example zero_is_accepted : snd ex_zero = Ok (mkPolicy "protected" "zero_retention" 0 0 0 64 0 8 0).
Proof. vm_compute. reflexivity. Qed.

Lemma zero_retention_leaves_nothing_witness :
  exists w, fst ex_zero = w /\ memory_free w /\ disk_free w.
Proof.
  pose proof zero_is_accepted as Hr. destruct ex_zero as [w r] eqn:E. cbn in Hr. subst r. exists w.
  split; [reflexivity|].
  destruct (zero_retention_leaves_nothing SecureStore.ex_env ex_wipe ex_wipe "protected" "zero_retention" 0 0 0 64 0 8 0
    ex_storage w (mkPolicy "protected" "zero_retention" 0 0 0 64 0 8 0)) as (H1 & H2 & _).
  - apply (bool_decide_unpack _). vm_compute. exact I.
  - vm_compute. reflexivity.
  - exact E.
  - split; assumption.
Defined.

Lemma stores_follow_settings_witness :
  exists w, fst ex_zero = w /\ follows (policyInForce w) w.
Proof.
  destruct ex_zero as [w r] eqn:E. exists w. split; [reflexivity|].
  apply (stores_follow_settings SecureStore.ex_env ex_wipe ex_wipe "protected" "zero_retention" 0 0 0 64 0 8 0
    ex_storage w r).
  - vm_compute. repeat split; reflexivity.
  - intros _. apply (bool_decide_unpack _). vm_compute. exact I.
  - exact E.
Defined.

Abbreviation ex_enforced :=
  (enforceRetentionPolicies SecureStore.ex_env ex_att_env (2100 * Second) (2100 * Second) ex_storage).

Definition ex_ephemeral : StoragePolicy := mkPolicy "standard" "ephemeral" 600 0 0 64 0 8 0.

Example ephemeral_in_force : policyInForce ex_storage = ex_ephemeral.
Proof. vm_compute. reflexivity. Qed.

Lemma messages_expire_exactly_witness :
  ms_messages (sw_messages ex_enforced) !! "m1" = None
  /\ ms_messages (sw_messages ex_enforced) !! "m2" = Some (ex_msg "m2" (2000 * Second) "sent").
Proof.
  pose proof (messages_expire_exactly SecureStore.ex_env ex_att_env (2100 * Second) (2100 * Second) ex_storage) as H.
  cbv zeta in H. rewrite ephemeral_in_force in H.
  assert (Hmode : (sp_ContentRetentionMode ex_ephemeral == RetentionEphemeral) && (0 <? sp_MessageTTLSeconds ex_ephemeral) = true)
    by (vm_compute; reflexivity).
  rewrite Hmode in H. destruct H as [H _]; [vm_compute; reflexivity|vm_compute; reflexivity|].
  split.
  - destruct (ms_messages (sw_messages ex_enforced) !! "m1") as [m|] eqn:E; [exfalso|reflexivity].
    apply H in E as [E Ht]. vm_compute in E. injection E as <-. vm_compute in Ht. discriminate.
  - apply H. split; vm_compute; reflexivity.
Defined.

Abbreviation ex_preset :=
  (SetBlobNodePreset (fun f => f <=? 0) id id ex_new ex_allow SecureStore.ex_env SecureStore.ex_env ex_wipe ex_wipe
    exRuntime (3000 * Second) " Cache" ex_storage).

Example preset_is_accepted : snd ex_preset = Ok (buildBlobNodePresetConfig blobNodePresetCache).
Proof. vm_compute. reflexivity. Qed.

Lemma preset_sets_everything_witness :
  exists w, fst ex_preset = w /\ follows (policyInForce w) w.
Proof.
  pose proof preset_is_accepted as Hr. destruct ex_preset as [w r] eqn:E. cbn [snd] in Hr. subst r. exists w.
  split; [reflexivity|].
  apply (preset_sets_everything (fun f => f <=? 0) id id ex_new ex_allow SecureStore.ex_env SecureStore.ex_env
    ex_wipe ex_wipe exRuntime (3000 * Second) " Cache" ex_storage w (buildBlobNodePresetConfig blobNodePresetCache)).
  - vm_compute. eexists. reflexivity.
  - vm_compute. eexists. reflexivity.
  - exact E.
Defined.

(** ** What the tests do not say *)

Definition ex_full_disk : StoreEnv :=
  mkEnv exRuntime ex_random None (mkWrite (Some (errorsNew "no space")) None) None.
Definition ex_denied : StoreEnv :=
  mkEnv exRuntime ex_random None (mkWrite None None) (Some (errorsNew "permission denied")).

(** Zero retention that cannot be persisted is refused and the previous policy is in force again, but
    the content is gone, in memory and on disk. *)
Example refused_zero_retention_wipes :
  let '(w, r) := UpdateStoragePolicy ex_full_disk ex_wipe ex_wipe "protected" "zero_retention" 0 0 0 0 0 0 0 ex_storage in
  (r, sp_ContentRetentionMode (policyInForce w), size (ms_messages (sw_messages w)), ms_disk (sw_messages w), sw_groupDisk w)
  = (Err (errorsNew "no space"), "ephemeral", 0%nat, None, None).
Proof. vm_compute. reflexivity. Qed.

(** When a file cannot be removed the call fails without the rollback: the settings say ephemeral, and
    the message store no longer writes. *)
Example failed_wipe_is_not_rolled_back :
  let wipe := mkWipe SecureStore.ex_env SecureStore.ex_env ex_att_env ex_denied SecureStore.ex_env SecureStore.ex_env in
  let '(w, r) := UpdateStoragePolicy SecureStore.ex_env wipe wipe "protected" "zero_retention" 0 0 0 0 0 0 0
                   (updateBindings (fun b => mkBindingStore (mkEncStore "bindings" "pw" (Some [9])) ∅) ex_storage) in
  (r, sp_ContentRetentionMode (policyInForce w), ms_persist (sw_messages w), size (ms_messages (sw_messages w)))
  = (Err (errorsNew "permission denied"), "ephemeral", false, 0%nat).
Proof. vm_compute. reflexivity. Qed.

(** A preset puts the personal quota and the pinning of the user back to the defaults. *)
Example preset_resets_personal_policy :
  let patch := mkPoliciesPatch (Some (mkPersonalPatch None None (Some 1) (Some false))) None in
  let w1 := fst (ServiceUpdateNodePolicies SecureStore.ex_env patch ex_storage) in
  let w2 := fst (SetBlobNodePreset (fun f => f <=? 0) id id ex_new ex_allow SecureStore.ex_env SecureStore.ex_env
                   ex_wipe ex_wipe exRuntime (3000 * Second) "assist" w1) in
  (nd_Personal (ServiceGetNodePolicies SecureStore.ex_env w1), nd_Personal (ServiceGetNodePolicies SecureStore.ex_env w2))
  = (mkPersonal true 0 1 false, mkPersonal true 0 10240 true).
Proof. vm_compute. reflexivity. Qed.
