(* ===== verification/RpcParams.v ===== *)
(** * Parameters of RPC methods

    Models the decoders of internal/domains/*/adapters/rpc: what a method accepts as its params. The text
    is parsed by an interface; how a parsed value is stored in strings, numbers, slices, pointers and structs is
    that of encoding/json: null leaves a value as it is, fields match without case, the last
    one counts, and one value of the wrong type makes the whole decoding fail. *)
From S2P Require Import Prelude Encoding Text Identity StoragePolicy.
From stdpp Require Import base gmap strings list sets option.
From Stdlib Require Import ZArith Lia Ascii.
Open Scope string_scope.
Open Scope Z_scope.
Open Scope go_scope.

(** ** encoding/json *)

(** A number is its literal. *)
Inductive Json :=
| JNull | JBool (b : bool) | JNum (literal : string) | JStr (s : string) | JArr (l : list Json)
| JObj (fields : list (string * Json)).

(** The parser; a literal as an int64, which has no fraction or exponent, and as a float64: its integer
    value and whether it is one, when it is finite; and the conversion of such a float to int outside of int64. *)
Class GoJson := {
  jsonParse : list Z -> option Json;
  literalInt : string -> option Z;
  literalFloat : string -> option (Z * bool);
  intOverflow : Z -> Z
}.

Section Decoding.
Context {gojson : GoJson} {fold : GoFold}.

Abbreviation raw := (list Z).

(** [dec v old]: the value after decoding [v] over [old]. *)
Definition decoder (A : Type) : Type := Json -> A -> option A.

Definition jStr : decoder string := fun v old =>
  match v with JStr s => Some s | JNull => Some old | _ => None end.
Definition jBool : decoder bool := fun v old =>
  match v with JBool b => Some b | JNull => Some old | _ => None end.
Definition jInt : decoder Z := fun v old =>
  match v with JNum l => literalInt l | JNull => Some old | _ => None end.
(** []byte is base64 text. *)
Definition jBytes : decoder (list Z) := fun v _ =>
  match v with JStr s => DecodeString s | JNull => Some [] | _ => None end.
(** A pointer: null is nil. *)
Definition jPtr {A} (zero : A) (dec : decoder A) : decoder (option A) := fun v old =>
  match v with JNull => Some None | _ => Some <$> dec v (default zero old) end.
(** A slice: null is nil. *)
Definition jSlice {A} (zero : A) (dec : decoder A) : decoder (list A) := fun v _ =>
  match v with JArr l => mapM (fun v => dec v zero) l | JNull => Some [] | _ => None end.

(** One field of a struct: every entry whose name folds to its own, in order. *)
Definition jField {A} (name : string) (dec : decoder A) (fields : list (string * Json)) (zero : A) : option A :=
  foldl (fun acc kv => a ← acc; if EqualFold kv.1 name then dec kv.2 a else Some a) (Some zero) fields.

(** A struct: null leaves what was there. A struct that one object gives twice is read from the second
    alone, where the code keeps the fields only the first one has. *)
Definition jStruct {A} (dec : list (string * Json) -> option A) (zero : A) : decoder A := fun v old =>
  match v with JObj fields => dec fields | JNull => Some old | _ => None end.

Definition Unmarshal {A} (zero : A) (dec : decoder A) (r : raw) : option A :=
  v ← jsonParse r; dec v zero.

Definition stringArray (r : raw) : option (list string) := Unmarshal [] (jSlice "" jStr) r.
(** []any: the elements as they are. *)
Definition anyArray (r : raw) : option (list Json) := Unmarshal [] (jSlice JNull (fun v _ => Some v)) r.

(** ** Strings *)

Definition decodeSingleStringParam (r : raw) : option string :=
  match stringArray r with Some [a] => if negb (a == "") then Some a else None | _ => None end.
Definition decodeTwoStringParams (r : raw) : option (string * string) :=
  match stringArray r with
  | Some [a; b] => if negb (a == "") && negb (b == "") then Some (a, b) else None
  | _ => None
  end.
Definition decodeThreeStringParams (r : raw) : option (string * string * string) :=
  match stringArray r with
  | Some [a; b; c] => if negb (a == "") && negb (b == "") && negb (c == "") then Some (a, b, c) else None
  | _ => None
  end.
Definition decodeFourStringParams (r : raw) : option (string * string * string * string) :=
  match stringArray r with
  | Some [a; b; c; d] => if (a == "") || (b == "") then None else Some (a, b, c, d)
  | _ => None
  end.

(** The packages privacy, inbox and messaging refuse white space too. *)
Definition blank (s : string) : bool := TrimSpace s == "".
Definition decodeSolidStringParam (r : raw) : option string :=
  match stringArray r with Some [a] => if negb (blank a) then Some a else None | _ => None end.
Definition decodeTwoSolidStringParams (r : raw) : option (string * string) :=
  match stringArray r with
  | Some [a; b] => if negb (blank a) && negb (blank b) then Some (a, b) else None
  | _ => None
  end.

(** ** Pages *)

Definition maxMessageListLimit : Z := 1000.
Definition maxMessageListOffset : Z := 1000000.

(** The float of the literal is compared with float64(MaxInt), which is 2^63. *)
Definition decodeStrictNonNegativeInt (v : Json) : option Z :=
  match v with
  | JNum l =>
      '(n, integral) ← literalFloat l;
      if (n <? 0) || negb integral then None else
      if 2 ^ 63 <? n then None else
      Some (if n <? 2 ^ 63 then n else intOverflow n)
  | _ => None
  end.

Definition page (limit offset : Json) : option (Z * Z) :=
  limit ← decodeStrictNonNegativeInt limit;
  offset ← decodeStrictNonNegativeInt offset;
  if (maxMessageListLimit <? limit) || (maxMessageListOffset <? offset) then None else Some (limit, offset).

(** [refuse] is the test for an identifier of the package: empty, or blank. *)
Definition decodeMessageListParams (refuse : string -> bool) (r : raw) : option (string * Z * Z) :=
  match anyArray r with
  | Some [JStr contactID; limit; offset] =>
      if refuse contactID then None else
      '(limit, offset) ← page limit offset; Some (contactID, limit, offset)
  | _ => None
  end.

Definition decodeThreadSendParams (r : raw) : option (string * string * string) :=
  match stringArray r with
  | Some [a; b; c] =>
      let targetID := TrimSpace a in
      let content := TrimSpace b in
      let threadID := TrimSpace c in
      if (targetID == "") || (content == "") || (threadID == "") then None else Some (targetID, content, threadID)
  | _ => None
  end.

Definition decodeThreadListParams (r : raw) : option (string * string * Z * Z) :=
  match anyArray r with
  | Some [JStr targetID; JStr threadID; limit; offset] =>
      if blank targetID then None else if blank threadID then None else
      '(limit, offset) ← page limit offset; Some (TrimSpace targetID, TrimSpace threadID, limit, offset)
  | _ => None
  end.

(** ** Messages and contacts *)

Definition decodeSessionInitParams (r : raw) : option (string * list Z) :=
  match stringArray r with
  | Some [a; b] => if blank a || blank b then None else key ← DecodeString b; Some (a, key)
  | _ => None
  end.

Definition decodeMessageEditParams (r : raw) : option (string * string * string) :=
  match stringArray r with
  | Some [a; b; c] => if blank a || blank b || blank c then None else Some (a, b, c)
  | _ => None
  end.

Definition noCard : ContactCard := mkCard "" "" [] [].
Definition cardFields (f : list (string * Json)) : option ContactCard :=
  id ← jField "identity_id" jStr f ""; name ← jField "display_name" jStr f "";
  key ← jField "public_key" jBytes f []; sig ← jField "signature" jBytes f []; Some (mkCard id name key sig).

Definition decodeCardParam (r : raw) : option ContactCard :=
  match Unmarshal [] (jSlice noCard (jStruct cardFields noCard)) r with
  | Some [card] => Some card
  | _ =>
      match Unmarshal noCard (jStruct (fun f => jField "card" (jStruct cardFields noCard) f noCard) noCard) r with
      | Some card => if negb (card_IdentityID card == "") then Some card else None
      | None => None
      end
  end.

Definition decodeContactByIDParams (r : raw) : option (string * string) :=
  match stringArray r with
  | Some [a] => if negb (a == "") then Some (a, "") else None
  | Some [a; b] => if negb (a == "") then Some (a, b) else None
  | _ => None
  end.

(** A card, else an identifier and a name. *)
Definition decodeAddContactParams (r : raw) : option (ContactCard * string * string) :=
  match decodeCardParam r with
  | Some card => Some (card, "", "")
  | None => '(contactID, displayName) ← decodeContactByIDParams r; Some (noCard, contactID, displayName)
  end.

(** ** One struct, alone or in an array *)

(** An array of one is tried first; then the value itself. *)
Definition decodeSingleOrDirect {A} (zero : A) (dec : list (string * Json) -> option A) (r : raw) : option A :=
  match Unmarshal [] (jSlice zero (jStruct dec zero)) r with
  | Some [a] => Some a
  | _ => Unmarshal zero (jStruct dec zero) r
  end.

(** A text in an array of one, or in a field. *)
Definition decodeTextOrField (field : string) (r : raw) : option string :=
  let text a := let a := TrimSpace a in if a == "" then None else Some a in
  match stringArray r with
  | Some [a] => text a
  | _ => a ← Unmarshal "" (jStruct (fun f => jField field jStr f "") "") r; text a
  end.

Definition decodeBlobProvidersParams : raw -> option string := decodeTextOrField "blob_id".
Definition decodeBlobReplicationModeParams : raw -> option string := decodeTextOrField "mode".
Definition decodeBlobNodePresetParams : raw -> option string := decodeTextOrField "preset".

Definition decodeBlobFeatureFlagsParams (r : raw) : option (bool * bool * Z) :=
  p ← decodeSingleOrDirect (None, None, None)
        (fun f => a ← jField "announce_enabled" (jPtr false jBool) f None;
                  b ← jField "fetch_enabled" (jPtr false jBool) f None;
                  c ← jField "rollout_percent" (jPtr 0 jInt) f None; Some (a, b, c)) r;
  match p with
  | (Some a, Some b, Some c) => if (c <? 0) || (100 <? c) then None else Some (a, b, c)
  | _ => None
  end.

Definition decodeBlobACLPolicyParams (r : raw) : option (string * list string) :=
  '(mode, allow) ← decodeSingleOrDirect ("", [])
     (fun f => mode ← jField "mode" jStr f ""; allow ← jField "allowlist" (jSlice "" jStr) f []; Some (mode, allow)) r;
  let mode := TrimSpace mode in if mode == "" then None else Some (mode, allow).

(** ** Files *)

Definition decodeFilePutParams (r : raw) : option (string * string * string) :=
  match stringArray r with
  | Some [a; b; c] => if blank a || blank c then None else Some (a, b, c)
  | _ =>
      '(a, b, c) ← Unmarshal ("", "", "") (jStruct (fun f => a ← jField "name" jStr f ""; b ← jField "mime_type" jStr f "";
                     c ← jField "data_base64" jStr f ""; Some (a, b, c)) ("", "", "")) r;
      if blank a || blank c then None else Some (a, b, c)
  end.

Record fileUploadInitParams := mkUploadInit {
  ui_Name : string; ui_MimeType : string; ui_TotalSize : Z; ui_TotalChunks : Z; ui_ChunkSize : Z; ui_FileSHA256 : string
}.
Record fileUploadChunkParams := mkUploadChunk {
  uc_UploadID : string; uc_ChunkIndex : Z; uc_DataBase64 : string; uc_ChunkSHA256 : string
}.

Definition decodeFileUploadInitParams (r : raw) : option fileUploadInitParams :=
  p ← decodeSingleOrDirect (mkUploadInit "" "" 0 0 0 "")
        (fun f => a ← jField "name" jStr f ""; b ← jField "mime_type" jStr f ""; c ← jField "total_size" jInt f 0;
                  d ← jField "total_chunks" jInt f 0; e ← jField "chunk_size" jInt f 0;
                  g ← jField "file_sha256" jStr f ""; Some (mkUploadInit a b c d e g)) r;
  if blank (ui_Name p) || (ui_TotalSize p <=? 0) || (ui_TotalChunks p <=? 0) || (ui_ChunkSize p <=? 0)
  then None else Some p.

Definition decodeFileUploadChunkParams (r : raw) : option fileUploadChunkParams :=
  p ← decodeSingleOrDirect (mkUploadChunk "" 0 "" "")
        (fun f => a ← jField "upload_id" jStr f ""; b ← jField "chunk_index" jInt f 0;
                  c ← jField "data_base64" jStr f ""; d ← jField "chunk_sha256" jStr f ""; Some (mkUploadChunk a b c d)) r;
  if blank (uc_UploadID p) || (uc_ChunkIndex p <? 0) || blank (uc_DataBase64 p) then None else Some p.

Definition decodeFileUploadCommitParams (r : raw) : option string :=
  id ← decodeSingleOrDirect "" (fun f => jField "upload_id" jStr f "") r;
  if blank id then None else Some id.

(** ** Node binding and policies *)

Definition decodeNodeBindingLinkCreateParams (r : raw) : option Z :=
  if bool_decide (r = []) || bool_decide (r = string_bytes "null") then Some 0 else
  ttl ← decodeSingleOrDirect None (fun f => jField "ttl_seconds" (jPtr 0 jInt) f None) r;
  match ttl with None => Some 0 | Some n => if n <? 1 then None else Some n end.

Definition decodeNodeBindingCompleteParams (r : raw) : option (string * string * string * string * bool) :=
  '(a, b, c, d, rebind) ← decodeSingleOrDirect ("", "", "", "", false)
     (fun f => a ← jField "link_code" jStr f ""; b ← jField "node_id" jStr f "";
               c ← jField "node_public_key_base64" jStr f ""; d ← jField "node_signature_base64" jStr f "";
               e ← jField "rebind" jBool f false; Some (a, b, c, d, e)) r;
  if blank a || blank b || blank c || blank d then None
  else Some (TrimSpace a, TrimSpace b, TrimSpace c, TrimSpace d, rebind).

Definition decodeNodeBindingUnbindParams (r : raw) : option (string * bool) :=
  '(id, confirm) ← decodeSingleOrDirect ("", false)
     (fun f => a ← jField "node_id" jStr f ""; b ← jField "confirm" jBool f false; Some (a, b)) r;
  Some (TrimSpace id, confirm).

Definition noPersonal : NodePersonalPolicyPatch := mkPersonalPatch None None None None.
Definition noPublic : NodePublicPolicyPatch := mkPublicPatch None None None None None None.
Definition personalFields (f : list (string * Json)) : option NodePersonalPolicyPatch :=
  a ← jField "store_enabled" (jPtr false jBool) f None; b ← jField "ttl_days" (jPtr 0 jInt) f None;
  c ← jField "quota_mb" (jPtr 0 jInt) f None; d ← jField "pin_enabled" (jPtr false jBool) f None;
  Some (mkPersonalPatch a b c d).
Definition publicFields (f : list (string * Json)) : option NodePublicPolicyPatch :=
  a ← jField "relay_enabled" (jPtr false jBool) f None; b ← jField "discovery_enabled" (jPtr false jBool) f None;
  c ← jField "serving_enabled" (jPtr false jBool) f None; d ← jField "store_enabled" (jPtr false jBool) f None;
  e ← jField "ttl_days" (jPtr 0 jInt) f None; g ← jField "quota_mb" (jPtr 0 jInt) f None;
  Some (mkPublicPatch a b c d e g).

(** The long names win over the short ones. *)
Definition decodeNodePoliciesPatchParams (r : raw) : option NodePoliciesPatch :=
  let personalDec := jPtr noPersonal (jStruct personalFields noPersonal) in
  let publicDec := jPtr noPublic (jStruct publicFields noPublic) in
  '(a, b, c, d) ← decodeSingleOrDirect (None, None, None, None)
     (fun f => a ← jField "personal_policy" personalDec f None; b ← jField "public_policy" publicDec f None;
               c ← jField "personal" personalDec f None; d ← jField "public" publicDec f None; Some (a, b, c, d)) r;
  let personal := match a with None => c | _ => a end in
  let public := match b with None => d | _ => b end in
  match personal, public with
  | None, None => None
  | _, _ => Some (mkPoliciesPatch personal public)
  end.

(** ** Storage policies *)

(** Protection, retention, three times to live, two quotas and two item sizes. *)
Record StoragePolicyParams := mkStorageParams {
  sp_protection : string; sp_retention : string; sp_messageTTL : Z; sp_imageTTL : Z; sp_fileTTL : Z;
  sp_imageQuotaMB : Z; sp_fileQuotaMB : Z; sp_imageMaxItemSizeMB : Z; sp_fileMaxItemSizeMB : Z
}.

Definition intPtrValue (p : option Z) : Z := default 0 p.

Definition storageFields (f : list (string * Json)) : option StoragePolicyParams :=
  let int name := intPtrValue <$> jField name (jPtr 0 jInt) f None in
  a ← jField "storage_protection_mode" jStr f ""; b ← jField "content_retention_mode" jStr f "";
  m ← int "message_ttl_seconds"; i ← int "image_ttl_seconds"; l ← int "file_ttl_seconds";
  iq ← int "image_quota_mb"; fq ← int "file_quota_mb"; im ← int "image_max_item_size_mb"; fm ← int "file_max_item_size_mb";
  Some (mkStorageParams a b m i l iq fq im fm).

Definition trimStorage (p : StoragePolicyParams) : option StoragePolicyParams :=
  let protection := TrimSpace (sp_protection p) in
  let retention := TrimSpace (sp_retention p) in
  if (protection == "") || (retention == "") then None else
  Some (mkStorageParams protection retention (sp_messageTTL p) (sp_imageTTL p) (sp_fileTTL p) (sp_imageQuotaMB p)
          (sp_fileQuotaMB p) (sp_imageMaxItemSizeMB p) (sp_fileMaxItemSizeMB p)).

Definition noStorage : StoragePolicyParams := mkStorageParams "" "" 0 0 0 0 0 0 0.

Definition decodeStoragePolicyParams (r : raw) : option StoragePolicyParams :=
  p ← decodeSingleOrDirect noStorage storageFields r; trimStorage p.

Definition decodeStorageScopePolicySetParams (r : raw) : option (string * string * StoragePolicyParams * bool * bool) :=
  '(scope, scopeID, p, infinite, pin) ← decodeSingleOrDirect ("", "", noStorage, false, false)
     (fun f => scope ← jField "scope" jStr f ""; scopeID ← jField "scope_id" jStr f ""; p ← storageFields f;
               infinite ← jField "infinite_ttl" jBool f false;
               pin ← jField "pin_required_for_infinite" jBool f false; Some (scope, scopeID, p, infinite, pin)) r;
  let scope := TrimSpace scope in
  if scope == "" then None else
  p ← trimStorage p; Some (scope, TrimSpace scopeID, p, infinite, pin).

Definition decodeStorageScopePolicyRefParams (r : raw) : option (string * string * bool) :=
  '(scope, scopeID, isPinned) ← decodeSingleOrDirect ("", "", false)
     (fun f => a ← jField "scope" jStr f ""; b ← jField "scope_id" jStr f ""; c ← jField "is_pinned" jBool f false;
               Some (a, b, c)) r;
  let scope := TrimSpace scope in
  if scope == "" then None else Some (scope, TrimSpace scopeID, isPinned).

(** ** Channels *)

Definition decodeChannelCreateParams (r : raw) : option (string * string * string) :=
  let from_object :=
    '(a, b, c) ← Unmarshal ("", "", "") (jStruct (fun f => a ← jField "name" jStr f ""; b ← jField "visibility" jStr f "";
                   c ← jField "description" jStr f ""; Some (a, b, c)) ("", "", "")) r;
    let name := TrimSpace a in
    if name == "" then None else
    let visibility := TrimSpace b in
    Some (name, if visibility == "" then "public" else visibility, TrimSpace c) in
  match stringArray r with
  | Some [a] => if blank a then None else Some (TrimSpace a, "public", "")
  | Some [a; b] => if blank a || blank b then None else Some (TrimSpace a, TrimSpace b, "")
  | Some [a; b; c] => if blank a || blank b then None else Some (TrimSpace a, TrimSpace b, TrimSpace c)
  | _ => from_object
  end.

End Decoding.
