(* ===== verification/RpcDispatch.v ===== *)
(** * RPC methods

    Models internal/domains/*/adapters/rpc, internal/domains/rpckit, internal/domains/identity/transport and
    internal/adapters/rpc/{capabilities,jsonrpc_dispatch_network}.go: which service call a method makes with its params, and
    with which code it fails. The service is an interface: a state and an answer per call. *)
From S2P Require Import Prelude Encoding Text Identity GroupModel StoragePolicy RpcParams.
From stdpp Require Import base gmap strings list sets option.
From Stdlib Require Import ZArith Lia Ascii.
Open Scope string_scope.
Open Scope Z_scope.
Open Scope go_scope.

(** ** The service *)

(** Errors of the service: [DeviceRevocationDeliveryError] is told apart from others. *)
Inductive serviceError := PlainErr (e : error) | DeliveryErr (attempted failed : Z).

Section Service.
(** A value that is handed to the client as it is. *)
Context {V : Type}.

(** contracts.DaemonService and the optional interfaces, with the type of what each answers. *)
Inductive Call : Type -> Type :=
| GetIdentity : Call V
| Login (identityID seedPassword : string) : Call unit
| SelfContactCard (displayName : string) : Call V
| CreateIdentity (password : string) : Call (V * string)
| ExportSeed (password : string) : Call string
| ExportBackup (consent password : string) : Call string
| RestoreBackup (consent password blob : string) : Call V
| ImportIdentity (mnemonic password : string) : Call V
| ValidateMnemonic (mnemonic : string) : Call bool
| ChangePassword (old new_ : string) : Call unit
| WipeData (consent : string) : Call bool
| ListAccounts : Call V
| GetCurrentAccount : Call V
| SwitchAccount (accountID : string) : Call V
| AddContactCard (card : ContactCard) : Call unit
| VerifyContactCard (card : ContactCard) : Call bool
| AddContact (contactID displayName : string) : Call unit
| RemoveContact (contactID : string) : Call unit
| GetContacts : Call V
| PutAttachment (name mimeType dataBase64 : string) : Call V
| InitAttachmentUpload (p : fileUploadInitParams) : Call V
| PutAttachmentChunk (p : fileUploadChunkParams) : Call V
| GetAttachmentUploadStatus (uploadID : string) : Call V
| CommitAttachmentUpload (uploadID : string) : Call V
| GetAttachment (attachmentID : string) : Call (string * string * list Z)
| ListBlobProviders (blobID : string) : Call V
| PinBlob (blobID : string) : Call V
| UnpinBlob (blobID : string) : Call V
| GetBlobReplicationMode : Call string
| SetBlobReplicationMode (mode : string) : Call unit
| GetBlobFeatureFlags : Call V
| SetBlobFeatureFlags (announce fetch : bool) (percent : Z) : Call V
| GetBlobACLPolicy : Call V
| SetBlobACLPolicy (mode : string) (allowlist : list string) : Call V
| GetBlobNodePreset : Call V
| SetBlobNodePreset (preset : string) : Call V
| GetNodePolicies : Call V
| UpdateNodePolicies (patch : NodePoliciesPatch) : Call V
| CreateNodeBindingLinkCode (ttlSeconds : Z) : Call V
| CompleteNodeBinding (linkCode nodeID pub sig : string) (rebind : bool) : Call V
| GetNodeBinding : Call (V * bool)
| UnbindNode (nodeID : string) (confirm : bool) : Call bool
| ListDevices : Call V
| AddDevice (name : string) : Call V
| RevokeDevice (deviceID : string) : Call V
| SendMessage (contactID content : string) : Call string
| SendMessageInThread (contactID content threadID : string) : Call string
| EditMessage (contactID messageID content : string) : Call V
| DeleteMessage (contactID messageID : string) : Call unit
| ClearMessages (contactID : string) : Call Z
| GetMessages (contactID : string) (limit offset : Z) : Call V
| GetMessagesByThread (contactID threadID : string) (limit offset : Z) : Call V
| GetMessageStatus (messageID : string) : Call V
| InitSession (contactID : string) (peerPublicKey : list Z) : Call V
| CreateGroup (title : string) : Call Group
| GetGroup (groupID : string) : Call Group
| ListGroups : Call (list Group)
| UpdateGroupTitle (groupID title : string) : Call Group
| UpdateGroupProfile (groupID title description avatar : string) : Call Group
| DeleteGroup (groupID : string) : Call bool
| ListGroupMembers (groupID : string) : Call V
| LeaveGroup (groupID : string) : Call bool
| InviteToGroup (groupID memberID : string) : Call V
| AcceptGroupInvite (groupID : string) : Call bool
| DeclineGroupInvite (groupID : string) : Call bool
| RemoveGroupMember (groupID memberID : string) : Call bool
| PromoteGroupMember (groupID memberID : string) : Call V
| DemoteGroupMember (groupID memberID : string) : Call V
| SendGroupMessage (groupID content : string) : Call V
| SendGroupMessageInThread (groupID content threadID : string) : Call V
| ListGroupMessages (groupID : string) (limit offset : Z) : Call V
| ListGroupMessagesByThread (groupID threadID : string) (limit offset : Z) : Call V
| GetGroupMessageStatus (groupID messageID : string) : Call V
| DeleteGroupMessage (groupID messageID : string) : Call unit
| ListMessageRequests : Call V
| GetMessageRequest (senderID : string) : Call V
| AcceptMessageRequest (senderID : string) : Call bool
| DeclineMessageRequest (senderID : string) : Call bool
| BlockSender (senderID : string) : Call V
| GetPrivacySettings : Call V
| UpdatePrivacySettings (mode : string) : Call V
| GetStoragePolicy : Call V
| UpdateStoragePolicy (p : StoragePolicyParams) : Call V
| SetStorageScopeOverride (scope scopeID : string) (p : StoragePolicyParams) (infinite pin : bool) : Call V
| GetStorageScopeOverride (scope scopeID : string) : Call (V * bool)
| ResolveStoragePolicy (scope scopeID : string) (isPinned : bool) : Call V
| RemoveStorageScopeOverride (scope scopeID : string) : Call bool
| GetBlocklist : Call (list string)
| AddToBlocklist (identityID : string) : Call (list string)
| RemoveFromBlocklist (identityID : string) : Call (list string)
| GetNetworkStatus : Call V
| ListenAddresses : Call (list string)
| GetMetrics : Call V
| ExportDiagnosticsBundle (windowMinutes : Z) : Call V.

(** What a method returns. *)
Inductive Any :=
| AnyV (v : V) | AnyBool (b : bool) | AnyInt (n : Z) | AnyStr (s : string) | AnyStrs (l : list string)
| AnyGroup (g : Group) | AnyGroups (l : list Group) | AnyMap (fields : list (string * Any)).

End Service.
Arguments Call : clear implicits.
Arguments Any : clear implicits.

(** [implements]: the optional interfaces the service has, by method. *)
Class DaemonService (S V : Type) := {
  call : forall A, Call V A -> M S serviceError A;
  implements : string -> bool
}.
Arguments call {S V _} {A} _.

Record rpcError := mkRpcError { re_Code : Z; re_Message : string }.

Definition InvalidParams : rpcError := mkRpcError (-32602) "invalid params".

Section Dispatch.
Context {S V : Type} {service : DaemonService S V} {errtext : GoErrorText} {gojson : GoJson} {fold : GoFold}.

(** [DeviceRevocationDeliveryError] *)
Definition deliveryErrorText (attempted failed : Z) : string :=
  if attempted <=? 0 then "device revocation delivery failed: no recipients" else
  if attempted <=? failed then "device revocation delivery failed for all recipients"
  else "device revocation delivery partially failed".
Definition IsFullFailure (attempted failed : Z) : bool := (0 <? attempted) && (attempted <=? failed).

Definition serviceErrorText (e : serviceError) : string :=
  match e with PlainErr e => ErrorText e | DeliveryErr a f => deliveryErrorText a f end.

Definition ServiceError (code : Z) (e : serviceError) : rpcError := mkRpcError code (serviceErrorText e).

(** What a method does: calls on the service, and a result or an error for the client. *)
Definition reply : Type := M S rpcError (Any V).
Definition svc (A : Type) : Type := M S serviceError A.

Definition mapErr (f : serviceError -> rpcError) (m : svc (Any V)) : reply := fun s =>
  let '(s, r) := m s in (s, match r with Ok a => Ok a | Err e => Err (f e) end).

(** [callWithoutParams]; [callWith p] is each of the functions callWith...Params. *)
Definition callWithoutParams (code : Z) (m : svc (Any V)) : reply := mapErr (ServiceError code) m.
Definition callWith {P} (p : option P) (code : Z) (m : P -> svc (Any V)) : reply :=
  match p with None => failM InvalidParams | Some p => mapErr (ServiceError code) (m p) end.

(** A call with its answer as a value of the reply. *)
Definition ret {A} (f : A -> Any V) (c : Call V A) : svc (Any V) := let! a := call c in retM (f a).
Definition value : Call V V -> svc (Any V) := ret AnyV.
Definition flag (name : string) (c : Call V bool) : svc (Any V) := ret (fun b => AnyMap [(name, AnyBool b)]) c.
(** A call that only fails or succeeds. *)
Definition done_ (name : string) (c : Call V unit) : svc (Any V) := ret (fun _ => AnyMap [(name, AnyBool true)]) c.

(** A type assertion. *)
Definition optional (method text : string) (m : svc (Any V)) : svc (Any V) :=
  if implements (S := S) (V := V) method then m else failM (PlainErr (errorsNew text)).

(** ** privacy, inbox, messaging *)

Definition noStorageText : string := "privacy storage policy is not supported".
Definition noScopeText : string := "privacy scoped storage policy is not supported".
Definition blocked (c : Call V (list string)) : svc (Any V) := ret (fun l => AnyMap [("blocked", AnyStrs l)]) c.

Definition privacyDispatch (method : string) (raw : list Z) : option reply :=
  match method with
  | "privacy.get" => Some (callWithoutParams (-32080) (value GetPrivacySettings))
  | "privacy.set" => Some (callWith (decodeSolidStringParam raw) (-32081) (fun mode => value (UpdatePrivacySettings mode)))
  | "privacy.storage.get" =>
      Some (callWithoutParams (-32082) (optional "GetStoragePolicy" noStorageText (value GetStoragePolicy)))
  | "privacy.storage.set" =>
      Some (callWith (decodeStoragePolicyParams raw) (-32083)
        (fun p => optional "UpdateStoragePolicy" noStorageText (value (UpdateStoragePolicy p))))
  | "privacy.storage.scope.set" =>
      Some (callWith (decodeStorageScopePolicySetParams raw) (-32084) (fun '(scope, scopeID, p, infinite, pin) =>
        optional "SetStorageScopeOverride" noScopeText (value (SetStorageScopeOverride scope scopeID p infinite pin))))
  | "privacy.storage.scope.get" =>
      Some (callWith (decodeStorageScopePolicyRefParams raw) (-32085) (fun '(scope, scopeID, _) =>
        optional "GetStorageScopeOverride" noScopeText
          (ret (fun '(override, exists_) => AnyMap [("exists", AnyBool exists_); ("override", AnyV override)])
             (GetStorageScopeOverride scope scopeID))))
  | "privacy.storage.scope.resolve" =>
      Some (callWith (decodeStorageScopePolicyRefParams raw) (-32086) (fun '(scope, scopeID, isPinned) =>
        optional "ResolveStoragePolicy" noScopeText (value (ResolveStoragePolicy scope scopeID isPinned))))
  | "privacy.storage.scope.delete" =>
      Some (callWith (decodeStorageScopePolicyRefParams raw) (-32087) (fun '(scope, scopeID, _) =>
        optional "RemoveStorageScopeOverride" noScopeText (flag "removed" (RemoveStorageScopeOverride scope scopeID))))
  | "blocklist.list" => Some (callWithoutParams (-32090) (blocked GetBlocklist))
  | "blocklist.add" => Some (callWith (decodeSolidStringParam raw) (-32091) (fun id => blocked (AddToBlocklist id)))
  | "blocklist.remove" => Some (callWith (decodeSolidStringParam raw) (-32092) (fun id => blocked (RemoveFromBlocklist id)))
  | _ => None
  end.

Definition inboxDispatch (method : string) (raw : list Z) : option reply :=
  match method with
  | "request.list" => Some (callWithoutParams (-32093) (value ListMessageRequests))
  | "request.get" => Some (callWith (decodeSolidStringParam raw) (-32094) (fun id => value (GetMessageRequest id)))
  | "request.accept" => Some (callWith (decodeSolidStringParam raw) (-32095) (fun id => flag "accepted" (AcceptMessageRequest id)))
  | "request.decline" => Some (callWith (decodeSolidStringParam raw) (-32096) (fun id => flag "declined" (DeclineMessageRequest id)))
  | "request.block" => Some (callWith (decodeSolidStringParam raw) (-32097) (fun id => value (BlockSender id)))
  | _ => None
  end.

Definition messageID_ (c : Call V string) : svc (Any V) := ret (fun id => AnyMap [("message_id", AnyStr id)]) c.

Definition messagingDispatch (method : string) (raw : list Z) : option reply :=
  match method with
  | "session.init" => Some (callWith (decodeSessionInitParams raw) (-32030) (fun '(id, key) => value (InitSession id key)))
  | "message.send" => Some (callWith (decodeTwoSolidStringParams raw) (-32040) (fun '(id, content) => messageID_ (SendMessage id content)))
  | "message.thread.send" =>
      Some (callWith (decodeThreadSendParams raw) (-32046) (fun '(id, content, thread) => messageID_ (SendMessageInThread id content thread)))
  | "message.edit" =>
      Some (callWith (decodeMessageEditParams raw) (-32043) (fun '(id, messageID, content) => value (EditMessage id messageID content)))
  | "message.delete" =>
      Some (callWith (decodeTwoSolidStringParams raw) (-32044) (fun '(id, messageID) => done_ "deleted" (DeleteMessage id messageID)))
  | "message.clear" =>
      Some (callWith (decodeSolidStringParam raw) (-32045)
        (fun id => ret (fun n => AnyMap [("cleared", AnyInt n)]) (ClearMessages id)))
  | "message.list" =>
      Some (callWith (decodeMessageListParams blank raw) (-32041) (fun '(id, limit, offset) => value (GetMessages id limit offset)))
  | "message.thread.list" =>
      Some (callWith (decodeThreadListParams raw) (-32047)
        (fun '(id, thread, limit, offset) => value (GetMessagesByThread id thread limit offset)))
  | "message.status" => Some (callWith (decodeSolidStringParam raw) (-32042) (fun id => value (GetMessageStatus id)))
  | _ => None
  end.

(** ** group *)

Definition group (c : Call V Group) : svc (Any V) := ret AnyGroup c.

Definition dispatchGroupRPC (method : string) (raw : list Z) : option reply :=
  let one := decodeSingleStringParam raw in
  let two := decodeTwoStringParams raw in
  match method with
  | "group.create" => Some (callWith one (-32100) (fun title => group (CreateGroup title)))
  | "group.get" => Some (callWith one (-32101) (fun id => group (GetGroup id)))
  | "group.list" => Some (callWithoutParams (-32102) (ret AnyGroups ListGroups))
  | "group.members.list" => Some (callWith one (-32103) (fun id => value (ListGroupMembers id)))
  | "group.leave" => Some (callWith one (-32104) (fun id => flag "left" (LeaveGroup id)))
  | "group.update_title" => Some (callWith two (-32105) (fun '(id, title) => group (UpdateGroupTitle id title)))
  | "group.update_profile" =>
      Some (callWith (decodeFourStringParams raw) (-32107)
        (fun '(id, title, description, avatar) => group (UpdateGroupProfile id title description avatar)))
  | "group.delete" => Some (callWith one (-32106) (fun id => flag "deleted" (DeleteGroup id)))
  | "group.invite" => Some (callWith two (-32110) (fun '(id, member) => value (InviteToGroup id member)))
  | "group.accept_invite" => Some (callWith one (-32111) (fun id => flag "accepted" (AcceptGroupInvite id)))
  | "group.decline_invite" => Some (callWith one (-32112) (fun id => flag "declined" (DeclineGroupInvite id)))
  | "group.remove_member" => Some (callWith two (-32113) (fun '(id, member) => flag "removed" (RemoveGroupMember id member)))
  | "group.promote" => Some (callWith two (-32114) (fun '(id, member) => value (PromoteGroupMember id member)))
  | "group.demote" => Some (callWith two (-32115) (fun '(id, member) => value (DemoteGroupMember id member)))
  | "group.send" => Some (callWith two (-32120) (fun '(id, content) => value (SendGroupMessage id content)))
  | "group.thread.send" =>
      Some (callWith (decodeThreadSendParams raw) (-32124) (fun '(id, content, thread) => value (SendGroupMessageInThread id content thread)))
  | "group.messages.list" =>
      Some (callWith (decodeMessageListParams (fun id => id == "") raw) (-32121)
        (fun '(id, limit, offset) => value (ListGroupMessages id limit offset)))
  | "group.thread.list" =>
      Some (callWith (decodeThreadListParams raw) (-32125)
        (fun '(id, thread, limit, offset) => value (ListGroupMessagesByThread id thread limit offset)))
  | "group.message.status" => Some (callWith two (-32122) (fun '(id, messageID) => value (GetGroupMessageStatus id messageID)))
  | "group.message.delete" => Some (callWith two (-32123) (fun '(id, messageID) => done_ "deleted" (DeleteGroupMessage id messageID)))
  | _ => None
  end.

(** *** Channels are groups with a prefix in their title *)

Definition normalizeChannelVisibility (visibility : string) : string :=
  if EqualFold (TrimSpace visibility) "private" then "private" else "public".

Definition encodeChannelGroupTitle (name visibility : string) : string :=
  "[channel:" +:+ normalizeChannelVisibility visibility +:+ "] " +:+ TrimSpace name.

(** The regular expression [channelGroupTitlePrefixRe] on a trimmed title: no match, no group, the group. *)
Definition channelPrefix (title : string) : option string :=
  let title := TrimSpace title in
  if HasPrefix title "[channel]" then Some "" else
  if HasPrefix title "[channel:public]" then Some "public" else
  if HasPrefix title "[channel:private]" then Some "private" else None.

Definition isChannelGroupTitle (title : string) : bool :=
  match channelPrefix title with Some _ => true | None => false end.

Definition channelVisibilityFromTitle (title : string) : string :=
  match channelPrefix title with
  | Some v => if negb (TrimSpace v == "") then normalizeChannelVisibility v else "public"
  | None => "public"
  end.

Definition ensureChannelGroup (groupID : string) : svc Group :=
  let! group := call (GetGroup groupID) in
  if negb (isChannelGroupTitle (g_Title group)) then failM (PlainErr (errorsNew "group not found")) else retM group.

(** A call that is made when the group is a channel. *)
Definition onChannel (groupID : string) (m : svc (Any V)) : svc (Any V) := let! _ := ensureChannelGroup groupID in m.

Definition dispatchChannelRPC (method : string) (raw : list Z) : option reply :=
  let one := decodeSingleStringParam raw in
  let two := decodeTwoStringParams raw in
  match method with
  | "channel.create" =>
      Some (callWith (decodeChannelCreateParams raw) (-32200) (fun '(name, visibility, description) =>
        let! g := call (CreateGroup (encodeChannelGroupTitle name visibility)) in
        let description := TrimSpace description in
        if description == "" then retM (AnyGroup g) else group (UpdateGroupProfile (g_ID g) (g_Title g) description (g_Avatar g))))
  | "channel.get" => Some (callWith one (-32201) (fun id => let! g := ensureChannelGroup id in retM (AnyGroup g)))
  | "channel.list" =>
      Some (callWithoutParams (-32202) (ret (fun l => AnyGroups (List.filter (fun g => isChannelGroupTitle (g_Title g)) l)) ListGroups))
  | "channel.members.list" => Some (callWith one (-32203) (fun id => onChannel id (value (ListGroupMembers id))))
  | "channel.rename" =>
      Some (callWith two (-32205) (fun '(id, name) =>
        let! g := ensureChannelGroup id in
        group (UpdateGroupTitle id (encodeChannelGroupTitle name (channelVisibilityFromTitle (g_Title g))))))
  | "channel.update_profile" =>
      Some (callWith (decodeFourStringParams raw) (-32207) (fun '(id, name, description, avatar) =>
        let! g := ensureChannelGroup id in
        group (UpdateGroupProfile id (encodeChannelGroupTitle name (channelVisibilityFromTitle (g_Title g))) description avatar)))
  | "channel.delete" => Some (callWith one (-32206) (fun id => onChannel id (flag "deleted" (DeleteGroup id))))
  | "channel.leave" => Some (callWith one (-32204) (fun id => onChannel id (flag "left" (LeaveGroup id))))
  | "channel.invite" => Some (callWith two (-32210) (fun '(id, member) => onChannel id (value (InviteToGroup id member))))
  | "channel.accept_invite" => Some (callWith one (-32211) (fun id => onChannel id (flag "accepted" (AcceptGroupInvite id))))
  | "channel.decline_invite" => Some (callWith one (-32212) (fun id => onChannel id (flag "declined" (DeclineGroupInvite id))))
  | "channel.remove_member" =>
      Some (callWith two (-32213) (fun '(id, member) => onChannel id (flag "removed" (RemoveGroupMember id member))))
  | "channel.promote" => Some (callWith two (-32214) (fun '(id, member) => onChannel id (value (PromoteGroupMember id member))))
  | "channel.demote" => Some (callWith two (-32215) (fun '(id, member) => onChannel id (value (DemoteGroupMember id member))))
  | "channel.send" => Some (callWith two (-32220) (fun '(id, content) => value (SendGroupMessage id content)))
  | "channel.thread.send" =>
      Some (callWith (decodeThreadSendParams raw) (-32224) (fun '(id, content, thread) => value (SendGroupMessageInThread id content thread)))
  | "channel.messages.list" =>
      Some (callWith (decodeMessageListParams (fun id => id == "") raw) (-32221)
        (fun '(id, limit, offset) => onChannel id (value (ListGroupMessages id limit offset))))
  | "channel.thread.list" =>
      Some (callWith (decodeThreadListParams raw) (-32225)
        (fun '(id, thread, limit, offset) => onChannel id (value (ListGroupMessagesByThread id thread limit offset))))
  | "channel.message.status" =>
      Some (callWith two (-32222) (fun '(id, messageID) => onChannel id (value (GetGroupMessageStatus id messageID))))
  | "channel.message.delete" =>
      Some (callWith two (-32223) (fun '(id, messageID) => onChannel id (done_ "deleted" (DeleteGroupMessage id messageID))))
  | _ => None
  end.

Definition groupDispatch (method : string) (raw : list Z) : option reply :=
  match dispatchGroupRPC method raw with Some r => Some r | None => dispatchChannelRPC method raw end.

(** ** identity: contacts, files, blobs, nodes, devices *)

(** Adding a contact has its own codes. *)
Definition dispatchAddContactByID (contactID displayName : string) : reply :=
  mapErr (ServiceError (-32013)) (done_ "added" (AddContact contactID displayName)).

Definition dispatchContactAdd (raw : list Z) : reply :=
  match decodeAddContactParams raw with
  | None => failM InvalidParams
  | Some (card, contactID, displayName) =>
      if negb (card_IdentityID card == "") then mapErr (ServiceError (-32011)) (done_ "added" (AddContactCard card))
      else dispatchAddContactByID contactID displayName
  end.

Definition dispatchContactRPC (method : string) (raw : list Z) : option reply :=
  match method with
  | "contact.verify" => Some (callWith (decodeCardParam raw) (-32010) (fun card => flag "valid" (VerifyContactCard card)))
  | "contact.add" => Some (dispatchContactAdd raw)
  | "contact.add_by_id" =>
      Some match decodeContactByIDParams raw with
           | None => failM InvalidParams
           | Some (contactID, displayName) => dispatchAddContactByID contactID displayName
           end
  | "contact.list" => Some (callWithoutParams (-32012) (value GetContacts))
  | "contact.remove" => Some (callWith (decodeSingleStringParam raw) (-32014) (fun id => done_ "removed" (RemoveContact id)))
  | _ => None
  end.

Definition noUploadText : string := "chunked file upload is not supported".

Definition dispatchFileUploadRPC (method : string) (raw : list Z) : option reply :=
  match method with
  | "file.put" => Some (callWith (decodeFilePutParams raw) (-32060) (fun '(name, mime, data) => value (PutAttachment name mime data)))
  | "file.upload.init" =>
      Some (callWith (decodeFileUploadInitParams raw) (-32061)
        (fun p => optional "InitAttachmentUpload" noUploadText (value (InitAttachmentUpload p))))
  | "file.upload.chunk" =>
      Some (callWith (decodeFileUploadChunkParams raw) (-32062)
        (fun p => optional "PutAttachmentChunk" noUploadText (value (PutAttachmentChunk p))))
  | "file.upload.status" =>
      Some (callWith (decodeFileUploadCommitParams raw) (-32063)
        (fun id => optional "GetAttachmentUploadStatus" noUploadText (value (GetAttachmentUploadStatus id))))
  | "file.upload.commit" =>
      Some (callWith (decodeFileUploadCommitParams raw) (-32064)
        (fun id => optional "CommitAttachmentUpload" noUploadText (value (CommitAttachmentUpload id))))
  | _ => None
  end.

Definition dispatchBlobRPC (method : string) (raw : list Z) : option reply :=
  let mode : svc (Any V) := ret (fun m => AnyMap [("mode", AnyStr m)]) GetBlobReplicationMode in
  match method with
  | "blob.providers.list" => Some (callWith (decodeBlobProvidersParams raw) (-32065) (fun id => value (ListBlobProviders id)))
  | "blob.pin" =>
      Some (callWith (decodeBlobProvidersParams raw) (-32066)
        (fun id => optional "PinBlob" "blob pinning is not supported" (value (PinBlob id))))
  | "blob.unpin" =>
      Some (callWith (decodeBlobProvidersParams raw) (-32067)
        (fun id => optional "UnpinBlob" "blob pinning is not supported" (value (UnpinBlob id))))
  | "blob.replication.get" =>
      Some (callWithoutParams (-32068) (optional "GetBlobReplicationMode" "blob replication mode is not supported" mode))
  | "blob.replication.set" =>
      Some (callWith (decodeBlobReplicationModeParams raw) (-32069) (fun m =>
        optional "SetBlobReplicationMode" "blob replication mode is not supported"
          (let! _ := call (SetBlobReplicationMode m) in mode)))
  | "blob.features.get" =>
      Some (callWithoutParams (-32071) (optional "GetBlobFeatureFlags" "blob feature flags are not supported" (value GetBlobFeatureFlags)))
  | "blob.features.set" =>
      Some (callWith (decodeBlobFeatureFlagsParams raw) (-32072) (fun '(announce, fetch, percent) =>
        optional "SetBlobFeatureFlags" "blob feature flags are not supported" (value (SetBlobFeatureFlags announce fetch percent))))
  | "blob.acl.get" =>
      Some (callWithoutParams (-32077) (optional "GetBlobACLPolicy" "blob acl policy is not supported" (value GetBlobACLPolicy)))
  | "blob.acl.set" =>
      Some (callWith (decodeBlobACLPolicyParams raw) (-32078) (fun '(m, allowlist) =>
        optional "SetBlobACLPolicy" "blob acl policy is not supported" (value (SetBlobACLPolicy m allowlist))))
  | "blob.preset.get" =>
      Some (callWithoutParams (-32079) (optional "GetBlobNodePreset" "blob node preset is not supported" (value GetBlobNodePreset)))
  | "blob.preset.set" =>
      Some (callWith (decodeBlobNodePresetParams raw) (-32088)
        (fun preset => optional "SetBlobNodePreset" "blob node preset is not supported" (value (SetBlobNodePreset preset))))
  | _ => None
  end.

Definition noPoliciesText : string := "node policies are not supported".
Definition noBindingText : string := "node binding is not supported".

Definition dispatchNodeBindingRPC (method : string) (raw : list Z) : option reply :=
  match method with
  | "node.getPolicies" => Some (callWithoutParams (-32089) (optional "GetNodePolicies" noPoliciesText (value GetNodePolicies)))
  | "node.updatePolicies" =>
      Some (callWith (decodeNodePoliciesPatchParams raw) (-32090)
        (fun patch => optional "UpdateNodePolicies" noPoliciesText (value (UpdateNodePolicies patch))))
  | "node.binding.link.create" =>
      Some (callWith (decodeNodeBindingLinkCreateParams raw) (-32073)
        (fun ttl => optional "CreateNodeBindingLinkCode" noBindingText (value (CreateNodeBindingLinkCode ttl))))
  | "node.binding.complete" =>
      Some (callWith (decodeNodeBindingCompleteParams raw) (-32074) (fun '(link, id, pub, sig, rebind) =>
        optional "CompleteNodeBinding" noBindingText (value (CompleteNodeBinding link id pub sig rebind))))
  | "node.binding.get" =>
      Some (callWithoutParams (-32075) (optional "GetNodeBinding" noBindingText
        (ret (fun '(record, exists_) => AnyMap [("exists", AnyBool exists_); ("binding", AnyV record)]) GetNodeBinding)))
  | "node.binding.unbind" =>
      Some (callWith (decodeNodeBindingUnbindParams raw) (-32076)
        (fun '(id, confirm) => optional "UnbindNode" noBindingText (flag "removed" (UnbindNode id confirm))))
  | _ => None
  end.

Definition mapDeviceRevokeRPCError (e : serviceError) : rpcError :=
  match e with
  | DeliveryErr a f => mkRpcError (if IsFullFailure a f then -32054 else -32053) (serviceErrorText e)
  | PlainErr _ => mkRpcError (-32052) (serviceErrorText e)
  end.

Definition dispatchDeviceRPC (method : string) (raw : list Z) : option reply :=
  match method with
  | "device.list" => Some (callWithoutParams (-32050) (value ListDevices))
  | "device.add" => Some (callWith (decodeSingleStringParam raw) (-32051) (fun name => value (AddDevice name)))
  | "device.revoke" =>
      Some match decodeSingleStringParam raw with
           | None => failM InvalidParams
           | Some id => mapErr mapDeviceRevokeRPCError (value (RevokeDevice id))
           end
  | _ => None
  end.

(** The first dispatcher that knows the method. *)
Fixpoint firstKnown (l : list (string -> list Z -> option reply)) (method : string) (raw : list Z) : option reply :=
  match l with
  | [] => None
  | d :: l => match d method raw with Some r => Some r | None => firstKnown l method raw end
  end.

Definition dispatchContactFileBlobNodeDevice : string -> list Z -> option reply :=
  firstKnown [dispatchContactRPC; dispatchFileUploadRPC; dispatchBlobRPC; dispatchNodeBindingRPC; dispatchDeviceRPC].

Definition noAccountsText : string := "account profiles are not supported".

Definition identityDispatch (method : string) (raw : list Z) : option reply :=
  let one := decodeSingleStringParam raw in
  let two := decodeTwoStringParams raw in
  let identity : Call V V -> svc (Any V) := ret (fun v => AnyMap [("identity", AnyV v)]) in
  match method with
  | "identity.get" => Some (callWithoutParams (-32000) (value GetIdentity))
  | "identity.self_contact_card" => Some (callWith one (-32025) (fun name => value (SelfContactCard name)))
  | "identity.login" => Some (callWith two (-32029) (fun '(id, password) => done_ "logged_in" (Login id password)))
  | "identity.create" =>
      Some (callWith one (-32020) (fun password =>
        ret (fun '(v, mnemonic) => AnyMap [("identity", AnyV v); ("mnemonic", AnyStr mnemonic)]) (CreateIdentity password)))
  | "identity.export_seed" =>
      Some (callWith one (-32021) (fun password => ret (fun m => AnyMap [("mnemonic", AnyStr m)]) (ExportSeed password)))
  | "backup.export" =>
      Some (callWith two (-32024) (fun '(consent, password) =>
        ret (fun blob => AnyMap [("backup_blob", AnyStr blob)]) (ExportBackup consent password)))
  | "backup.restore" =>
      Some (callWith (decodeThreeStringParams raw) (-32028) (fun '(consent, password, blob) => identity (RestoreBackup consent password blob)))
  | "data.wipe" => Some (callWith one (-32027) (fun consent => optional "WipeData" "data wipe is not supported" (flag "wiped" (WipeData consent))))
  | "identity.import_seed" => Some (callWith two (-32022) (fun '(mnemonic, password) => identity (ImportIdentity mnemonic password)))
  | "identity.validate_mnemonic" => Some (callWith one (-32026) (fun mnemonic => flag "valid" (ValidateMnemonic mnemonic)))
  | "identity.change_password" => Some (callWith two (-32023) (fun '(old, new_) => done_ "changed" (ChangePassword old new_)))
  | "account.list" => Some (callWithoutParams (-32040) (optional "AccountAPI" noAccountsText (value ListAccounts)))
  | "account.current" => Some (callWithoutParams (-32041) (optional "AccountAPI" noAccountsText (value GetCurrentAccount)))
  | "account.switch" =>
      Some (callWith one (-32042) (fun id => optional "AccountAPI" noAccountsText (identity (SwitchAccount id))))
  | _ => dispatchContactFileBlobNodeDevice method raw
  end.

(** ** The server's own methods *)

(** [dispatchNetworkRPC] *)
Definition networkDispatch (method : string) (raw : list Z) : option reply :=
  match method with
  | "network.status" => Some (callWithoutParams (-32031) (value GetNetworkStatus))
  | "network.listen_addresses" =>
      Some (callWithoutParams (-32032) (ret (fun l => AnyMap [("addresses", AnyStrs l)]) ListenAddresses))
  | "metrics.get" => Some (callWithoutParams (-32070) (value GetMetrics))
  | "diagnostics.export" =>
      Some (callWithoutParams (-32071) (optional "ExportDiagnosticsBundle" "diagnostics export is not supported" (value (ExportDiagnosticsBundle 0))))
  | _ => None
  end.

Definition rpcCapabilities : list string :=
  ["rpc.version"; "rpc.capabilities"; "health_check"; "network.status"; "network.listen_addresses"; "metrics.get";
   "diagnostics.export"; "identity.get"; "identity.create"; "identity.self_contact_card"; "identity.login";
   "identity.export_seed"; "identity.validate_mnemonic"; "identity.import_seed"; "identity.change_password";
   "account.list"; "account.current"; "account.switch"; "backup.export"; "backup.restore"; "data.wipe";
   "contact.list"; "contact.verify"; "contact.add"; "contact.add_by_id"; "contact.remove"; "message.list";
   "message.send"; "message.thread.send"; "message.thread.list"; "message.edit"; "message.delete"; "message.clear";
   "session.init"; "group.list"; "group.create"; "group.get"; "group.send"; "group.thread.send"; "group.thread.list";
   "group.messages.list"; "group.message.status"; "group.message.delete"; "group.members.list"; "group.update_title";
   "group.update_profile"; "group.delete"; "group.invite"; "group.accept_invite"; "group.decline_invite";
   "group.remove_member"; "group.promote"; "group.demote"; "group.leave"; "channel.create"; "channel.get";
   "channel.list"; "channel.members.list"; "channel.rename"; "channel.update_profile"; "channel.delete";
   "channel.send"; "channel.thread.send"; "channel.thread.list"; "channel.messages.list"; "channel.invite";
   "channel.accept_invite"; "channel.decline_invite"; "channel.remove_member"; "channel.promote"; "channel.demote";
   "channel.leave"; "channel.message.status"; "channel.message.delete"; "file.open"; "file.put"; "file.upload.init";
   "file.upload.chunk"; "file.upload.status"; "file.upload.commit"; "blob.providers.list"; "blob.pin"; "blob.unpin";
   "blob.replication.get"; "blob.replication.set"; "blob.features.get"; "blob.features.set"; "blob.acl.get";
   "blob.acl.set"; "blob.preset.get"; "blob.preset.set"; "node.binding.link.create"; "node.binding.complete";
   "node.binding.get"; "node.binding.unbind"; "node.getPolicies"; "node.updatePolicies"; "privacy.get"; "privacy.set";
   "privacy.storage.get"; "privacy.storage.set"; "privacy.storage.scope.set"; "privacy.storage.scope.get";
   "privacy.storage.scope.resolve"; "privacy.storage.scope.delete"; "blocklist.list"; "blocklist.add";
   "blocklist.remove"; "request.list"; "request.get"; "request.accept"; "request.decline"; "request.block"].

(** [rpcVersionInfo] and [rpcCapabilitiesInfo] *)
Definition rpcVersionInfo : Any V :=
  AnyMap [("current_version", AnyInt 1); ("min_supported_version", AnyInt 1); ("default_version", AnyInt 1);
          ("policy", AnyStr "major-only; requests below min are rejected; requests above current are rejected")].

Definition coreDispatch (method : string) (raw : list Z) : option reply :=
  match method with
  | "rpc.version" => Some (retM rpcVersionInfo)
  | "rpc.capabilities" => Some (retM (AnyMap [("methods", AnyStrs rpcCapabilities)]))
  | "health_check" => Some (retM (AnyMap [("status", AnyStr "ok")]))
  | _ => None
  end.

(** [dispatchRPC] *)
Definition dispatchRPC (groupsEnabled : bool) (method : string) (raw : list Z) : reply :=
  match firstKnown [coreDispatch; identityDispatch; privacyDispatch; inboxDispatch; messagingDispatch] method raw with
  | Some r => r
  | None =>
      if (HasPrefix method "group." || HasPrefix method "channel.") && negb groupsEnabled
      then failM (mkRpcError (-32199) "groups feature is disabled") else
      match firstKnown [groupDispatch; networkDispatch] method raw with
      | Some r => r
      | None => failM (mkRpcError (-32601) "method not found")
      end
  end.

(** ** What is advertised *)

Definition dispatchers : list (string -> list Z -> option reply) :=
  [coreDispatch; identityDispatch; privacyDispatch; inboxDispatch; messagingDispatch; groupDispatch; networkDispatch].

Definition knows (method : string) (raw : list Z) (d : string -> list Z -> option reply) : bool :=
  match d method raw with Some _ => true | None => false end.

(** The numbers of dispatchers that know each method of a list. *)
Definition knownBy (raw : list Z) (methods : list string) : list nat :=
  (fun m => List.length (List.filter (knows m raw) dispatchers)) <$> methods.

(** The methods that are dispatched and not advertised. *)
Definition unlisted : list string := ["message.status"; "device.list"; "device.add"; "device.revoke"].

Lemma knownBy_listed raw : knownBy raw rpcCapabilities = ((fun m => if m == "file.open" then 0%nat else 1%nat) <$> rpcCapabilities).
Proof. vm_compute. reflexivity. Qed.

(** What the server advertises it has: every method of [rpc.capabilities], whatever its params, is known to
    exactly one of the dispatchers, so that their order does not matter and none hides another's method, and with
    groups enabled that dispatcher answers it; the one exception is "file.open". *)
Theorem advertised_methods_dispatched (raw : list Z) (method : string) :
  method ∈ rpcCapabilities -> method <> "file.open" ->
  List.length (List.filter (knows method raw) dispatchers) = 1%nat
  /\ exists d r, d ∈ dispatchers /\ d method raw = Some r /\ dispatchRPC true method raw = r.
Proof.
  intros Hin Hne. assert (Hk : List.length (List.filter (knows method raw) dispatchers) = 1%nat).
  { pose proof (knownBy_listed raw) as H. apply list_elem_of_lookup in Hin as [i Hi].
    apply (f_equal (fun l => l !! i)) in H. unfold knownBy in H. rewrite !list_lookup_fmap, Hi in H. cbn [fmap option_fmap option_map] in H.
    injection H as H. rewrite bool_decide_false in H by done. done. }
  split; [done|]. unfold dispatchRPC. rewrite andb_false_r.
  assert (Hf : forall l l', dispatchers = (l ++ l')%list -> forall r, firstKnown l method raw = Some r ->
    exists d r', d ∈ dispatchers /\ d method raw = Some r' /\ r = r').
  { intros l l' -> r Hr. induction l as [|d l IH] in Hr |- *; [done|]. cbn in Hr. destruct (d method raw) as [r'|] eqn:Ed.
    - injection Hr as ->. exists d, r. split_and!; [cbn; apply elem_of_cons; by left|done|done].
    - destruct (IH Hr) as (d' & r' & Hd & H). exists d', r'. split; [cbn; apply elem_of_cons; by right|done]. }
  destruct (firstKnown [_; _; _; _; _] method raw) as [r|] eqn:E1.
  - destruct (Hf [coreDispatch; identityDispatch; privacyDispatch; inboxDispatch; messagingDispatch] _ eq_refl r E1)
      as (d & r' & H1 & H2 & ->). by exists d, r'.
  - destruct (firstKnown [groupDispatch; networkDispatch] method raw) as [r|] eqn:E2.
    + assert (E : firstKnown dispatchers method raw = Some r).
      { clear -E1 E2. unfold dispatchers. cbn in *. repeat (destruct (_ method raw); [done|]). done. }
      destruct (Hf dispatchers [] (eq_sym (app_nil_r _)) r E) as (d & r' & H1 & H2 & ->). by exists d, r'.
    + exfalso. clear Hf. cbn in E1, E2, Hk. unfold knows in Hk.
      repeat match type of E1 with context [match ?x with _ => _ end] => destruct x; [done|] end.
      repeat match type of E2 with context [match ?x with _ => _ end] => destruct x; [done|] end.
      done.
Qed.

(** ** Channels are told apart from groups *)

(** What a channel method does first: params that are refused, or the group asked for. *)
Definition asks_for_group (m : reply) : Prop := forall s,
  m s = (s, Err InvalidParams)
  \/ exists groupID s' answer, call (GetGroup groupID) s = (s', answer)
       /\ match answer with
          | Ok g => isChannelGroupTitle (g_Title g) = false -> exists code, m s = (s', Err (mkRpcError code (ErrorText (errorsNew "group not found"))))
          | Err e => exists code, m s = (s', Err (ServiceError code e))
          end.

Lemma ensure_asks id (k : Group -> svc (Any V)) code :
  asks_for_group (mapErr (ServiceError code) (let! g := ensureChannelGroup id in k g)).
Proof.
  intros s. right. unfold mapErr, ensureChannelGroup, bindM. destruct (call (GetGroup id) s) as [s' answer] eqn:E.
  exists id, s', answer. split; [done|]. destruct answer as [g|e]; [|by exists code].
  intros ->. by exists code.
Qed.

(** The methods that do not look at the group first. *)
Definition unguarded : list string := ["channel.create"; "channel.list"; "channel.send"; "channel.thread.send"].

(** The channel API leaves groups alone. Whatever the params, every channel method but creating, listing
    and the two that send, first asks for the group it names; when that is not a channel, or cannot be
    read, the service is not called again and the client gets an error. *)
Theorem channel_methods_check_the_group (method : string) (raw : list Z) (m : reply) :
  dispatchChannelRPC method raw = Some m -> method ∉ unguarded -> asks_for_group m.
Proof.
  intros Hm Hu. unfold dispatchChannelRPC in Hm.
  repeat match type of Hm with
  | match ?x with _ => _ end = _ => destruct x; try done
  | (if ?x then _ else _) = _ => destruct x; try done
  end; try (exfalso; apply Hu; vm_compute; set_solver); injection Hm as <-.
  all: unfold callWith, onChannel; match goal with |- asks_for_group (match ?d with _ => _ end) => destruct d as [p|] end;
    [|intros s; by left]; repeat match goal with p : _ * _ |- _ => destruct p end; apply ensure_asks.
Qed.

(** ** Titles of channels, pages of messages *)

Lemma visibility_cases v : normalizeChannelVisibility v = "private" \/ normalizeChannelVisibility v = "public".
Proof. unfold normalizeChannelVisibility. destruct (EqualFold _ _); auto. Qed.

Lemma visibility_private : normalizeChannelVisibility "private" = "private".
Proof.
  unfold normalizeChannelVisibility. change (TrimSpace "private") with "private".
  rewrite EqualFold_ascii by ascii_const. by rewrite bool_decide_true.
Qed.
Lemma visibility_public : normalizeChannelVisibility "public" = "public".
Proof.
  unfold normalizeChannelVisibility. change (TrimSpace "public") with "public".
  rewrite EqualFold_ascii by ascii_const. by rewrite bool_decide_false.
Qed.

(** The title carries the visibility: the group made for a channel is one, with the visibility it was asked for
    (anything but "private" is public), and renaming it through the channel API keeps that. *)
Theorem channel_title_roundtrip (name visibility name' : string) :
  ascii_text name -> ascii_text name' ->
  let title := encodeChannelGroupTitle name visibility in
  isChannelGroupTitle title = true
  /\ channelVisibilityFromTitle title = normalizeChannelVisibility visibility
  /\ channelVisibilityFromTitle (encodeChannelGroupTitle name' (channelVisibilityFromTitle title))
     = normalizeChannelVisibility visibility.
Proof.
  assert (Ht : forall n p, ascii_text n -> TrimSpace n <> "" -> TrimSpace (String "["%char p +:+ TrimSpace n) = String "["%char p +:+ TrimSpace n).
  { intros n p Hn Hne. apply TrimSpace_prefixed; try done. vm_compute. lia. }
  assert (H : forall n v, ascii_text n -> channelPrefix (encodeChannelGroupTitle n v) = Some (normalizeChannelVisibility v)).
  { intros n v Hn. unfold channelPrefix, encodeChannelGroupTitle.
    destruct (visibility_cases v) as [-> | ->]; (destruct (decide (TrimSpace n = "")) as [->|Hne]; [done|]).
    - change ("[channel:" +:+ "private" +:+ "] " +:+ TrimSpace n) with ("[channel:private] " +:+ TrimSpace n). by rewrite Ht.
    - change ("[channel:" +:+ "public" +:+ "] " +:+ TrimSpace n) with ("[channel:public] " +:+ TrimSpace n). by rewrite Ht. }
  assert (Hv : forall n v, ascii_text n -> channelVisibilityFromTitle (encodeChannelGroupTitle n v) = normalizeChannelVisibility v).
  { intros n v Hn. unfold channelVisibilityFromTitle. rewrite H by done.
    destruct (visibility_cases v) as [-> | ->]; rewrite bool_decide_false by done; [apply visibility_private|apply visibility_public]. }
  intros Hn Hn'. cbv zeta. unfold isChannelGroupTitle. rewrite H, !Hv by done. split_and!; [done|done|].
  destruct (visibility_cases visibility) as [-> | ->]; [apply visibility_private|apply visibility_public].
Qed.

(** What [page] takes, when no literal is at the end of int64 or beyond. *)
Lemma page_bounds limit offset l o :
  (forall t n i, literalFloat t = Some (n, i) -> n < 2 ^ 63) -> page limit offset = Some (l, o) ->
  0 <= l <= maxMessageListLimit /\ 0 <= o <= maxMessageListOffset.
Proof.
  intros Hlit. unfold page.
  assert (Hi : forall v n, decodeStrictNonNegativeInt v = Some n -> 0 <= n).
  { intros v n. destruct v; try done. cbn. destruct (literalFloat literal) as [[m i]|] eqn:E; [|done]. cbn.
    pose proof (Hlit _ _ _ E). destruct (Z.ltb_spec m 0); [done|]. destruct i; [|done]. cbn.
    destruct (Z.ltb_spec (2 ^ 63) m); [done|]. rewrite (proj2 (Z.ltb_lt _ _)) by done. intros [= <-]. done. }
  destruct (decodeStrictNonNegativeInt limit) as [l'|] eqn:El; [|done]. cbn.
  destruct (decodeStrictNonNegativeInt offset) as [o'|] eqn:Eo; [|done]. cbn.
  apply Hi in El, Eo. destruct (Z.ltb_spec maxMessageListLimit l'); [done|].
  destruct (Z.ltb_spec maxMessageListOffset o'); [done|]. intros [= <- <-]. lia.
Qed.

(** A page of messages is bounded: when no number of the request reaches 2^63, a list method that accepts its
    params asks the service for at most 1000 messages, from an offset between 0 and 1000000, of a named conversation. *)
Theorem message_pages_bounded (raw : list Z) (refuse : string -> bool) :
  (forall t n i, literalFloat t = Some (n, i) -> n < 2 ^ 63) ->
  (forall id limit offset, decodeMessageListParams refuse raw = Some (id, limit, offset) ->
     refuse id = false /\ 0 <= limit <= 1000 /\ 0 <= offset <= 1000000)
  /\ (forall id thread limit offset, decodeThreadListParams raw = Some (id, thread, limit, offset) ->
        id <> "" /\ thread <> "" /\ 0 <= limit <= 1000 /\ 0 <= offset <= 1000000).
Proof.
  intros Hlit. split.
  - intros id limit offset. unfold decodeMessageListParams.
    destruct (anyArray raw) as [[|[] [|l [|o []]]]|]; try done. destruct (refuse s) eqn:Er; [done|].
    destruct (page l o) as [[l' o']|] eqn:Ep; [|done]. intros [= <- <- <-]. split; [done|]. by eapply page_bounds.
  - intros id thread limit offset. unfold decodeThreadListParams.
    destruct (anyArray raw) as [[|[] [|[] [|l [|o []]]]]|]; try done. unfold blank.
    case_bool_decide as H1; [done|]. case_bool_decide as H2; [done|].
    destruct (page l o) as [[l' o']|] eqn:Ep; [|done]. intros [= <- <- <- <-]. split; [done|]. split; [done|].
    by eapply page_bounds.
Qed.

End Dispatch.

(** ** A service to compute with, and the witnesses *)

(** Texts of params, as the parser sees them; numbers are decimal. *)
Definition ex_num (s : string) : option Z :=
  foldl (fun acc a => n ← acc; if (48 <=? byteN a)%nat && (byteN a <=? 57)%nat then Some (10 * n + Z.of_nat (byteN a) - 48) else None)
    (Some 0) (String.list_ascii_of_string s).

Fixpoint ex_json (fuel : nat) (bs : list Z) : option (Json * list Z) :=
  match fuel with
  | O => None
  | Datatypes.S fuel =>
      match bs with
      | 0 :: bs => Some (JNull, bs)
      | 1 :: n :: bs => Some (JStr (bytes_string (take (Z.to_nat n) bs)), drop (Z.to_nat n) bs)
      | 2 :: n :: bs => Some (JNum (bytes_string (take (Z.to_nat n) bs)), drop (Z.to_nat n) bs)
      | 3 :: n :: bs =>
          '(l, bs) ← Nat.iter (Z.to_nat n) (fun acc => '(l, bs) ← acc; '(v, bs) ← ex_json fuel bs; Some ((l ++ [v])%list, bs))
                       (Some ([], bs));
          Some (JArr l, bs)
      | _ => None
      end
  end.

#[export] Instance exJson : GoJson := {
  jsonParse bs := match ex_json 5 bs with Some (v, []) => Some v | _ => None end;
  literalInt := ex_num;
  literalFloat s := (fun n => (n, true)) <$> ex_num s;
  intOverflow n := n - 2 ^ 64
}.

(** The toy texts of an array of strings, and of a page. *)
Definition ex_str (s : string) : list Z := (1 :: Z.of_nat (String.length s) :: string_bytes s)%list.
Definition ex_lit (s : string) : list Z := (2 :: Z.of_nat (String.length s) :: string_bytes s)%list.
Definition ex_args (l : list string) : list Z := (3 :: Z.of_nat (length l) :: concat (map ex_str l))%list.
Definition ex_page (id limit offset : string) : list Z := (3 :: 3 :: ex_str id ++ ex_lit limit ++ ex_lit offset)%list.

(** A service whose state counts its calls: it has a channel and a group. *)
Definition ex_groups (id : string) : option Group :=
  if id == "c" then Some (mkGroup "c" "[channel:private] News" "" "" "me" 1 1) else
  if id == "g" then Some (mkGroup "g" "Friends" "" "" "me" 1 1) else None.

Definition ex_call (A : Type) (c : Call string A) : M Z serviceError A := fun n =>
  (n + 1, match c in Call _ T return result serviceError T with
          | GetGroup id => match ex_groups id with Some g => Ok g | None => Err (PlainErr ErrGroupNotFound) end
          | DeleteGroup _ => Ok true
          | SendGroupMessage id content => Ok (id +:+ "<-" +:+ content)
          | GetMessages id limit _ => Ok (if limit <? 0 then "negative limit" else id)
          | RevokeDevice _ => Err (DeliveryErr 3 3)
          | _ => Err (PlainErr (errorsNew "not here"))
          end).

#[export] Instance exService : DaemonService Z string := { call := ex_call; implements _ := true }.

Definition ex_dispatch (method : string) (params : list Z) : Z * result rpcError (Any string) :=
  dispatchRPC true method params 0.

Lemma advertised_methods_dispatched_witness :
  exists d r, d ∈ dispatchers /\ d "group.delete" (ex_args ["g"]) = Some r
    /\ r 0 = (1, Ok (AnyMap [("deleted", AnyBool true)])).
Proof.
  destruct (advertised_methods_dispatched (S := Z) (V := string) (ex_args ["g"]) "group.delete") as (_ & d & r & Hd & Hr & He).
  - apply (bool_decide_eq_true_1 _). vm_compute. reflexivity.
  - discriminate.
  - exists d, r. split; [exact Hd|]. split; [exact Hr|]. rewrite <- He. vm_compute. reflexivity.
Defined.

Lemma channel_methods_check_the_group_witness :
  exists m, dispatchChannelRPC (S := Z) (V := string) "channel.delete" (ex_args ["g"]) = Some m /\ asks_for_group m
    /\ m 0 = (1, Err (mkRpcError (-32206) "group not found")).
Proof.
  destruct (dispatchChannelRPC (S := Z) (V := string) "channel.delete" (ex_args ["g"])) as [m|] eqn:E; [|discriminate].
  exists m. split; [reflexivity|]. split.
  - apply (channel_methods_check_the_group "channel.delete" (ex_args ["g"]) m E).
    apply (bool_decide_eq_true_1 _). vm_compute. reflexivity.
  - injection E as <-. vm_compute. reflexivity.
Defined.

Lemma channel_title_roundtrip_witness :
  channelVisibilityFromTitle (encodeChannelGroupTitle "Daily" (channelVisibilityFromTitle (encodeChannelGroupTitle " News " "Private"))) = "private".
Proof.
  destruct (channel_title_roundtrip " News " "Private" "Daily") as (_ & _ & H).
  - ascii_const.
  - ascii_const.
  - exact H.
Defined.

(** A parser whose numbers are small. *)
Definition smallJson : GoJson := {|
  jsonParse := @jsonParse exJson;
  literalInt := ex_num;
  literalFloat s := n ← ex_num s; if n <? 2 ^ 53 then Some (n, true) else None;
  intOverflow n := n
|}.

Lemma message_pages_bounded_witness :
  @decodeMessageListParams smallJson blank (ex_page "bob" "1000" "7") = Some ("bob", 1000, 7) /\ 0 <= 1000 <= 1000.
Proof.
  destruct (@message_pages_bounded smallJson (ex_page "bob" "1000" "7") blank) as [H _].
  - intros t n i. cbn. destruct (ex_num t) as [m|]; [|discriminate]. cbn. destruct (Z.ltb_spec m (2 ^ 53)); [|discriminate].
    intros [= <- _]. lia.
  - assert (E : @decodeMessageListParams smallJson blank (ex_page "bob" "1000" "7") = Some ("bob", 1000, 7))
      by (vm_compute; reflexivity).
    split; [exact E|]. apply (H _ _ _ E).
Defined.

(** 2^63 is not above float64(MaxInt), its conversion to int wraps where the processor does so, and the limit that is
    asked for is negative. *)
Example page_of_2_63 :
  ex_dispatch "message.list" (ex_page "bob" "9223372036854775808" "0") = (1, Ok (AnyV "negative limit"))
  /\ ex_dispatch "message.list" (ex_page "bob" "1001" "0") = (0, Err InvalidParams).
Proof. vm_compute. split; reflexivity. Qed.

(** Two methods of the channel API send to any group. *)
Example channel_send_reaches_groups :
  ex_dispatch "channel.send" (ex_args ["g"; "hi"]) = (1, Ok (AnyV "g<-hi"))
  /\ ex_dispatch "channel.get" (ex_args ["g"]) = (1, Err (mkRpcError (-32201) "group not found")).
Proof. vm_compute. split; reflexivity. Qed.

(** Advertised and unknown; known and not advertised. *)
Example file_open_is_not_there :
  ex_dispatch "file.open" (ex_args ["x"]) = (0, Err (mkRpcError (-32601) "method not found"))
  /\ knownBy (S := Z) (V := string) (ex_args ["x"]) unlisted = [1%nat; 1%nat; 1%nat; 1%nat]
  /\ Forall (fun m => m ∉ rpcCapabilities) unlisted.
Proof.
  split; [vm_compute; reflexivity|]. split; [vm_compute; reflexivity|]. apply (bool_decide_eq_true_1 _). vm_compute. reflexivity.
Qed.

(** One code for a version that is not supported and for privacy settings that cannot be read; others are shared by
    two methods. *)
Example codes_are_shared :
  map (fun '(m, p) => match snd (ex_dispatch m p) with Err e => re_Code e | Ok _ => 0 end)
    [("privacy.get", []); ("account.list", []); ("message.send", ex_args ["a"; "b"]); ("blocklist.list", [])]
  = [-32080; -32040; -32040; -32090]
  /\ ex_dispatch "device.revoke" (ex_args ["d"]) = (1, Err (mkRpcError (-32054) "device revocation delivery failed for all recipients")).
Proof. vm_compute. split; reflexivity. Qed.
