(* ===== verification/RpcServer.v ===== *)
(** * The JSON-RPC server

    Models internal/adapters/rpc: jsonrpc.go, server_impl.go, versioning.go, idempotency.go, rate_limit.go and
    stream_limit.go: who may call what, from where, how often; replays of one request; subscriptions; file downloads.
    A request is the parts of it the handlers read. net, net/url, path and the JSON decoder are interfaces. *)
From S2P Require Import Prelude Encoding Text SecureStore Identity GroupModel RateLimiter StoragePolicy RpcParams RpcDispatch.
From stdpp Require Import base gmap strings list sets option.
From Stdlib Require Import ZArith Lia Ascii.
Open Scope string_scope.
Open Scope Z_scope.
Open Scope go_scope.

(** ** Requests and replies *)

Record Request := mkRequest {
  rq_Method : string; rq_Origin : string; rq_Token : string; rq_Authorization : string; rq_IdempotencyKey : string;
  rq_RequestID : string; rq_RemoteAddr : string; rq_Path : string; rq_QueryToken : string; rq_Cursor : string;
  rq_Body : list Z
}.

Record rpcRequest := mkRpcRequest {
  rr_JSONRPC : string; rr_ID : list Z; rr_Method : string; rr_Params : list Z; rr_APIVersion : option Z
}.

(** The version of the protocol is that of every response. *)
Record rpcResponse {V : Type} := mkRpcResponse { rs_ID : list Z; rs_Result : option (Any V); rs_Error : option rpcError }.
Arguments rpcResponse : clear implicits.

(** The body of a reply. [HttpError]: a code and a text. *)
Inductive Payload {V : Type} :=
| NoContent
| HttpError (code : Z) (text : string)
| RpcReply (r : rpcResponse V)
| HealthOK
| FileReply (mime disposition : string) (data : list Z).
Arguments Payload : clear implicits.

(** A reply, with the headers that depend on the request. *)
Record Reply {V : Type} := mkReply {
  hr_AllowOrigin : option string; hr_RetryAfter : bool; hr_RequestID : option string; hr_Payload : Payload V
}.
Arguments Reply : clear implicits.
Arguments mkReply {V}.
Arguments mkRpcResponse {V}.

Class GoNet := {
  (** the host of an address; whether a text is a loopback address; the host of a URL; path.Clean; url.QueryEscape *)
  SplitHostPort : string -> option string;
  loopbackIP : string -> bool;
  urlHostname : string -> option string;
  pathClean : string -> string;
  QueryEscape : string -> string;
  (** one JSON value from a body of limited size: too large, or not a request; and whether the body then ends *)
  decodeRequest : Z -> list Z -> result bool (rpcRequest * list Z);
  decodeEOF : Z -> list Z -> bool;
  (** rpcRequestHash: sha256 of the encoding of method, params and version *)
  requestSum : string -> list Z -> option Z -> string
}.

Definition maxRPCBodyBytes : Z := 2 ^ 20.

(** ** Versions *)

Definition rpcAPICurrentVersion : Z := 1.
Definition rpcAPIMinSupportedVersion : Z := 1.

Definition validateRPCAPIVersion (v : option Z) : option rpcError :=
  match v with
  | None => None
  | Some v =>
      if v <? rpcAPIMinSupportedVersion
      then Some (mkRpcError (-32081) "rpc api version is deprecated and no longer supported") else
      if rpcAPICurrentVersion <? v
      then Some (mkRpcError (-32080) "rpc api version is not supported by this server") else None
  end.

(** ** Subscriptions *)

Record rpcStreamLimiter := mkStreams { sl_maxGlobal : Z; sl_maxPerClient : Z; sl_global : Z; sl_byClient : gmap string Z }.

Definition acquire (client : string) (l : rpcStreamLimiter) : rpcStreamLimiter * bool :=
  if sl_maxGlobal l <=? sl_global l then (l, false) else
  if sl_maxPerClient l <=? default 0 (sl_byClient l !! client) then (l, false) else
  (mkStreams (sl_maxGlobal l) (sl_maxPerClient l) (sl_global l + 1)
     (<[client := default 0 (sl_byClient l !! client) + 1]> (sl_byClient l)), true).

(** The function [acquire] returns. *)
Definition release (client : string) (l : rpcStreamLimiter) : rpcStreamLimiter :=
  let next := default 0 (sl_byClient l !! client) - 1 in
  mkStreams (sl_maxGlobal l) (sl_maxPerClient l) (if 0 <? sl_global l then sl_global l - 1 else sl_global l)
    (if next <=? 0 then delete client (sl_byClient l) else <[client := next]> (sl_byClient l)).

(** ** Idempotency *)

Definition rpcIdempotencyTTL : Z := 10 * Minute.
Definition rpcIdempotencyMaxEntries : nat := 1024.

Section Cache.
Context {V : Type} {rt : GoRuntime}.

Record rpcIdempotencyEntry := mkEntry_ { ie_hash : string; ie_response : rpcResponse V; ie_createdAt : Z }.
Abbreviation Cache := (gmap string rpcIdempotencyEntry).

Definition prune (now : Z) (c : Cache) : Cache :=
  filter (fun kv => timeSub now (ie_createdAt kv.2) <= rpcIdempotencyTTL) c.

(** [get]: the pruned cache; a response, a conflict, or neither. *)
Inductive cacheAnswer := CacheMiss | CacheHit (r : rpcResponse V) | CacheConflict.

Definition cacheGet (key hash : string) (now : Z) (c : Cache) : Cache * cacheAnswer :=
  let c := prune now c in
  (c, match c !! key with
      | None => CacheMiss
      | Some e => if negb (ie_hash e == hash) then CacheConflict else CacheHit (ie_response e)
      end).

(** The loop over a map that looks for the oldest entry. *)
Definition oldest (c : Cache) : string :=
  fst (foldl (fun acc kv => match acc with
                            | (_, None) => (kv.1, Some (ie_createdAt kv.2))
                            | (k, Some at_) => if Before (ie_createdAt kv.2) at_ then (kv.1, Some (ie_createdAt kv.2)) else (k, Some at_)
                            end) ("", None) (rangeMap c)).

Definition cacheSet (key hash : string) (resp : rpcResponse V) (now : Z) (c : Cache) : Cache :=
  let c := <[key := mkEntry_ hash resp now]> (prune now c) in
  if (size c <=? rpcIdempotencyMaxEntries)%nat then c else
  let oldestKey := oldest c in
  if negb (oldestKey == "") then delete oldestKey c else c.

End Cache.
Arguments rpcIdempotencyEntry : clear implicits.
Arguments cacheAnswer : clear implicits.

Definition rpcIdempotencyKey (raw authToken : string) : string :=
  let key := TrimSpace raw in if key == "" then "" else authToken +:+ "|" +:+ key.

(** ** Request identifiers *)

Definition requestIDChar (a : ascii) : ascii :=
  let n := byteN a in
  if ((97 <=? n) && (n <=? 122) || (65 <=? n) && (n <=? 90) || (48 <=? n) && (n <=? 57)
      || (n =? 46) || (n =? 95) || (n =? 45) || (n =? 58))%nat then a else "_"%char.

(** The loop stops at 128 bytes. *)
Definition sanitizeRPCRequestID (raw : string) : string :=
  let trimmed := TrimSpace raw in
  if trimmed == "" then "" else
  TrimSpace (String.string_of_list_ascii (take 128 (map requestIDChar (String.list_ascii_of_string trimmed)))).

Definition resolveRPCRequestID (header : string) (rpcID : list Z) (nano : string) : string :=
  let headerID := sanitizeRPCRequestID header in
  if negb (headerID == "") then headerID else
  let trimmed := TrimSpace (bytes_string rpcID) in
  let fallback := sanitizeRPCRequestID trimmed in
  if negb (trimmed == "") && negb (fallback == "") then "rpc." +:+ fallback else "rpc." +:+ nano.

(** ** Configuration *)

Section Env.
Context {lower : GoLower} {fold : GoFold} (getenv : string -> string).

Definition parseBoolEnv (name : string) : option bool :=
  let v := TrimSpace (ToLower (getenv name)) in
  if bool_decide (v ∈ ["1"; "true"; "yes"; "on"]) then Some true else
  if bool_decide (v ∈ ["0"; "false"; "no"; "off"]) then Some false else None.

Definition isNonProdEnv : bool :=
  bool_decide (ToLower (TrimSpace (getenv "AIM_ENV")) ∈ ["test"; "testing"; "dev"; "development"; "local"]).

Definition requiresRPCToken : bool :=
  match parseBoolEnv "AIM_REQUIRE_RPC_TOKEN" with
  | Some v => if negb v && negb isNonProdEnv then true else v
  | None => if isNonProdEnv then false else true
  end.

Definition groupsEnabledEnv : bool :=
  match parseBoolEnv "AIM_GROUPS_ENABLED" with Some v => v | None => isNonProdEnv end.

(** [buf]: what the random source gives; [persisted]: what becomes of the token's file. *)
Definition resolveRPCToken (buf : result error (list Z)) (persisted : result error unit) : result error string :=
  let token := TrimSpace (getenv "AIM_RPC_TOKEN") in
  let rotate := EqualFold token "auto" || match parseBoolEnv "AIM_RPC_TOKEN_ROTATE_ON_START" with Some v => v | None => false end in
  if rotate then
    try! buf := buf in
    let token := "rpc_" +:+ hexEncode buf in
    try! _ := if TrimSpace (getenv "AIM_RPC_TOKEN_FILE") == "" then Ok tt else persisted in Ok token
  else Ok token.

Definition positiveAtoi (name : string) (dflt : Z) : Z :=
  let raw := TrimSpace (getenv name) in
  if raw == "" then dflt else
  match Atoi raw with Some parsed => if 0 <? parsed then parsed else dflt | None => dflt end.

Definition newRPCStreamLimiter : rpcStreamLimiter :=
  mkStreams (positiveAtoi "AIM_RPC_STREAM_MAX_GLOBAL" 128) (positiveAtoi "AIM_RPC_STREAM_MAX_PER_CLIENT" 8) 0 ∅.

End Env.

Section Server.
Context {S V : Type} {service : DaemonService S V} {errtext : GoErrorText} {gojson : GoJson} {fold : GoFold} {lower : GoLower}.
Context {rt : GoRuntime} {net : GoNet}.
(** float64 and rate.Limiter, as in the rate limiter's file *)
Context {F L : Type} (float_le0 float_gt0 : F -> bool) (ParseFloat : string -> option F) (float_of : Z -> F).
Context (NewLimiter : F -> Z -> L) (AllowN : L -> Z -> Z -> L * bool).

Abbreviation Limiter := (option (MapLimiter F L)).

(** *** Rate limits *)

(** Enabled, rate and burst. *)
Definition loadRateLimitConfig (getenv : string -> string) (enabledEnv rpsEnv burstEnv : string) (rps burst : Z) : bool * F * Z :=
  let enabled := match parseBoolEnv getenv enabledEnv with
                 | Some v => v
                 | None => negb (bool_decide (ToLower (TrimSpace (getenv "AIM_ENV")) ∈ ["test"; "testing"]))
                 end in
  let rps := let raw := TrimSpace (getenv rpsEnv) in
             if raw == "" then float_of rps else
             match ParseFloat raw with Some p => if float_gt0 p then p else float_of rps | None => float_of rps end in
  (enabled, rps, positiveAtoi getenv burstEnv burst).

(** A limiter that is disabled, or whose arguments are invalid, allows everything. *)
Definition newLimiter (cfg : bool * F * Z) : Limiter :=
  let '(enabled, rps, burst) := cfg in if enabled then New float_le0 rps burst (10 * Minute) else None.

Definition newRPCRateLimiter (getenv : string -> string) : Limiter :=
  newLimiter (loadRateLimitConfig getenv "AIM_RPC_RATE_LIMIT_ENABLED" "AIM_RPC_RATE_LIMIT_RPS" "AIM_RPC_RATE_LIMIT_BURST" 30 60).
Definition newFileRateLimiter (getenv : string -> string) : Limiter :=
  newLimiter (loadRateLimitConfig getenv "AIM_FILE_RATE_LIMIT_ENABLED" "AIM_FILE_RATE_LIMIT_RPS" "AIM_FILE_RATE_LIMIT_BURST" 12 24).

Definition rpcRateLimitKey (r : Request) (token : string) : string :=
  if negb (TrimSpace token == "") then "token:" +:+ token else
  let remote := TrimSpace (rq_RemoteAddr r) in
  if remote == "" then "ip:unknown" else
  match SplitHostPort remote with
  | None => "ip:" +:+ remote
  | Some host => if TrimSpace host == "" then "ip:unknown" else "ip:" +:+ host
  end.

(** *** Server *)

Record ServerConfig := mkServerConfig {
  sv_hasService : bool; sv_rpcToken : string; sv_requireRPC : bool; sv_groupsEnabled : bool
}.
Record ServerState := mkServerState {
  ss_service : S; ss_rpcLimiter : Limiter; ss_fileLimiter : Limiter; ss_streams : rpcStreamLimiter;
  ss_idempotency : gmap string (rpcIdempotencyEntry V)
}.

Definition with_service (s : S) (st : ServerState) : ServerState :=
  mkServerState s (ss_rpcLimiter st) (ss_fileLimiter st) (ss_streams st) (ss_idempotency st).
Definition with_rpcLimiter (l : Limiter) (st : ServerState) : ServerState :=
  mkServerState (ss_service st) l (ss_fileLimiter st) (ss_streams st) (ss_idempotency st).
Definition with_fileLimiter (l : Limiter) (st : ServerState) : ServerState :=
  mkServerState (ss_service st) (ss_rpcLimiter st) l (ss_streams st) (ss_idempotency st).
Definition with_streams (l : rpcStreamLimiter) (st : ServerState) : ServerState :=
  mkServerState (ss_service st) (ss_rpcLimiter st) (ss_fileLimiter st) l (ss_idempotency st).
Definition with_idempotency (c : gmap string (rpcIdempotencyEntry V)) (st : ServerState) : ServerState :=
  mkServerState (ss_service st) (ss_rpcLimiter st) (ss_fileLimiter st) (ss_streams st) c.

(** [NewServerWithService]: an error is kept as the server's [initErr]. *)
Definition NewServerWithService (getenv : string -> string) (buf : result error (list Z)) (persisted : result error unit)
    (hasService : bool) (s : S) : result error (ServerConfig * ServerState) :=
  let requireRPC := requiresRPCToken getenv in
  try! rpcToken := resolveRPCToken getenv buf persisted in
  if requireRPC && (rpcToken == "")
  then Err (errorsNew "AIM_RPC_TOKEN is required unless AIM_REQUIRE_RPC_TOKEN=false or AIM_ENV is test/development/local") else
  Ok (mkServerConfig hasService rpcToken requireRPC (groupsEnabledEnv getenv),
      mkServerState s (newRPCRateLimiter getenv) (newFileRateLimiter getenv) (newRPCStreamLimiter getenv) ∅).

(** *** Who asks *)

Definition extractRPCToken (r : Request) : string :=
  let token := TrimSpace (rq_Token r) in
  if negb (token == "") then token else
  let auth := TrimSpace (rq_Authorization r) in
  if HasPrefix (ToLower auth) "bearer "
  then TrimSpace (String.string_of_list_ascii (drop 7 (String.list_ascii_of_string auth))) else
  if (rq_Method r == "GET") && HasPrefix (pathClean (rq_Path r)) "/files/" then TrimSpace (rq_QueryToken r) else "".

Definition authorized (cfg : ServerConfig) (r : Request) : bool :=
  if (sv_rpcToken cfg == "") && negb (sv_requireRPC cfg) then true else extractRPCToken r == sv_rpcToken cfg.

Definition isAllowedOrigin (getenv : string -> string) (raw : string) : bool :=
  if raw == "null" then match parseBoolEnv getenv "AIM_ALLOW_NULL_ORIGIN" with Some v => v | None => false end else
  match urlHostname raw with
  | None => false
  | Some host => bool_decide (TrimSpace host ∈ ["localhost"; "127.0.0.1"; "::1"])
  end.

Definition isAllowedRequestOrigin (getenv : string -> string) (cfg : ServerConfig) (origin : string) : bool :=
  if negb (isAllowedOrigin getenv origin) then false else
  if (sv_rpcToken cfg == "") && negb (sv_requireRPC cfg) then false else true.

(** The allowed origin of the reply, or a refusal. *)
Definition applyCORS (getenv : string -> string) (cfg : ServerConfig) (r : Request) : result (Reply V) (option string) :=
  let origin := TrimSpace (rq_Origin r) in
  if negb (origin == "") && negb (isAllowedRequestOrigin getenv cfg origin)
  then Err (mkReply None false None (HttpError 403 "origin is not allowed"))
  else Ok (if origin == "" then None else Some origin).

Definition isLoopbackRequest (r : Request) : bool :=
  let remote := TrimSpace (rq_RemoteAddr r) in
  if remote == "" then false else
  let host := TrimSpace (match SplitHostPort remote with Some host => host | None => remote end) in
  if host == "" then false else if host == "localhost" then true else loopbackIP host.

(** *** /rpc *)

(** The clocks of one request. *)
Record RequestEnv := mkRequestEnv { re_rate : Z; re_get : Z; re_set : Z; re_nano : string }.

Definition rpcFail (id : list Z) (code : Z) (text : string) : Payload V :=
  RpcReply (mkRpcResponse id None (Some (mkRpcError code text))).

(** The body of a request as one call, or what is answered instead. *)
Definition readRequest (r : Request) : result (Payload V) rpcRequest :=
  match decodeRequest maxRPCBodyBytes (rq_Body r) with
  | Err true => Err (HttpError 413 "request body too large")
  | Err false => Err (rpcFail [] (-32700) "parse error")
  | Ok (req, rest) =>
      if negb (decodeEOF maxRPCBodyBytes rest) then Err (rpcFail (rr_ID req) (-32600) "invalid request") else
      if negb (rr_JSONRPC req == "2.0") || (rr_Method req == "") then Err (rpcFail (rr_ID req) (-32600) "invalid request") else
      if HasPrefix (rr_Method req) "node." && negb (isLoopbackRequest r)
      then Err (rpcFail (rr_ID req) (-32084) "node methods are available only from loopback client") else
      match validateRPCAPIVersion (rr_APIVersion req) with
      | Some e => Err (RpcReply (mkRpcResponse (rr_ID req) None (Some e)))
      | None => Ok req
      end
  end.

Definition rpcRequestHash (req : rpcRequest) : string := requestSum (rr_Method req) (rr_Params req) (rr_APIVersion req).

(** A response is kept when the request has a key. *)
Definition remember (env : RequestEnv) (key hash : string) (resp : rpcResponse V) (st : ServerState) : ServerState :=
  if negb (key == "") then with_idempotency (cacheSet key hash resp (re_set env) (ss_idempotency st)) st else st.

(** From the idempotency key on: the state, the request identifier and the answer. *)
Definition execute (cfg : ServerConfig) (env : RequestEnv) (r : Request) (req : rpcRequest) (key : string) (st : ServerState)
    : ServerState * option string * Payload V :=
  let hash := if negb (key == "") then rpcRequestHash req else "" in
  if negb (sv_hasService cfg) && negb (rr_Method req == "rpc.version") && negb (rr_Method req == "rpc.capabilities") then
    let resp := mkRpcResponse [] None (Some (mkRpcError (-32099) "service is not initialized")) in
    (remember env key hash resp st, None, RpcReply resp)
  else
    let reqID := resolveRPCRequestID (rq_RequestID r) (rr_ID req) (re_nano env) in
    let '(s, result) := dispatchRPC (sv_groupsEnabled cfg) (rr_Method req) (rr_Params req) (ss_service st) in
    let resp := match result with
                | Ok v => mkRpcResponse (rr_ID req) (Some v) None
                | Err e => mkRpcResponse (rr_ID req) None (Some e)
                end in
    (remember env key hash resp (with_service s st), Some reqID, RpcReply resp).

Definition respond (cfg : ServerConfig) (env : RequestEnv) (r : Request) (req : rpcRequest) (st : ServerState)
    : ServerState * option string * Payload V :=
  let key := rpcIdempotencyKey (rq_IdempotencyKey r) (extractRPCToken r) in
  if key == "" then execute cfg env r req key st else
  let '(cache, answer) := cacheGet key (rpcRequestHash req) (re_get env) (ss_idempotency st) in
  let st := with_idempotency cache st in
  match answer with
  | CacheConflict => (st, None, rpcFail (rr_ID req) (-32082) "idempotency key reuse with different request payload")
  | CacheHit cached => (st, None, RpcReply (mkRpcResponse (rr_ID req) (rs_Result cached) (rs_Error cached)))
  | CacheMiss => execute cfg env r req key st
  end.

Definition handleRPC (getenv : string -> string) (cfg : ServerConfig) (env : RequestEnv) (r : Request) (st : ServerState)
    : ServerState * Reply V :=
  match applyCORS getenv cfg r with
  | Err reply => (st, reply)
  | Ok origin =>
      if rq_Method r == "OPTIONS" then (st, mkReply origin false None NoContent) else
      let '(limiter, allowed) := Allow NewLimiter AllowN (ss_rpcLimiter st) (rpcRateLimitKey r (extractRPCToken r)) (re_rate env) in
      let st := with_rpcLimiter limiter st in
      if negb allowed then (st, mkReply origin true None (HttpError 429 "rate limit exceeded")) else
      if negb (authorized cfg r) then (st, mkReply origin false None (HttpError 401 "unauthorized")) else
      if negb (rq_Method r == "POST") then (st, mkReply origin false None (HttpError 405 "method not allowed")) else
      match readRequest r with
      | Err payload => (st, mkReply origin false None payload)
      | Ok req =>
          let '(st, reqID, payload) := respond cfg env r req st in
          (st, mkReply origin false reqID payload)
      end
  end.

(** *** /healthz, /rpc/stream and /files/ *)

Definition handleHealth (getenv : string -> string) (cfg : ServerConfig) (r : Request) : Reply V :=
  match applyCORS getenv cfg r with
  | Err reply => reply
  | Ok origin =>
      mkReply origin false None
        (if rq_Method r == "OPTIONS" then NoContent else
         if negb (rq_Method r == "GET") then HttpError 405 "method not allowed" else HealthOK)
  end.

(** The digits of strconv.ParseInt, not negative. *)
Definition parseCursor (raw : string) : option Z :=
  if raw == "" then Some 0 else
  match Atoi raw with Some v => if v <? 0 then None else Some v | None => None end.

(** A subscription: the client's key and the cursor it starts from, or a refusal, after which the slot is free again. *)
Definition handleRPCStream (getenv : string -> string) (cfg : ServerConfig) (r : Request) (st : ServerState)
    : ServerState * result (Reply V) (string * Z) :=
  match applyCORS getenv cfg r with
  | Err reply => (st, Err reply)
  | Ok origin =>
      let refuse code text := mkReply origin false None (HttpError code text) in
      if rq_Method r == "OPTIONS" then (st, Err (mkReply origin false None NoContent)) else
      if negb (authorized cfg r) then (st, Err (refuse 401 "unauthorized")) else
      let clientKey := rpcRateLimitKey r (extractRPCToken r) in
      let '(streams, allowed) := acquire clientKey (ss_streams st) in
      let st := with_streams streams st in
      if negb allowed then (st, Err (refuse 429 "too many stream subscriptions")) else
      let freed := with_streams (release clientKey (ss_streams st)) st in
      if negb (rq_Method r == "GET") then (freed, Err (refuse 405 "method not allowed")) else
      match parseCursor (rq_Cursor r) with
      | None => (freed, Err (refuse 400 "invalid cursor"))
      | Some cursor => (st, Ok (clientKey, cursor))
      end
  end.

(** The end of a subscription. *)
Definition endStream (clientKey : string) (st : ServerState) : ServerState :=
  with_streams (release clientKey (ss_streams st)) st.

(** [errors.Is] for the two errors of a download. *)
Definition downloadError (e : serviceError) : Z * string :=
  let fix cause (e : error) := match e with categorizedError _ e => cause e | e => e end in
  match e with
  | PlainErr e =>
      if cause e == ErrAttachmentAccessDenied then (403, "attachment access denied") else
      if cause e == ErrAttachmentTemporarilyUnavailable then (503, "attachment temporarily unavailable")
      else (404, "attachment not found")
  | DeliveryErr _ _ => (404, "attachment not found")
  end.

Definition handleFileDownload (getenv : string -> string) (cfg : ServerConfig) (now : Z) (r : Request) (st : ServerState)
    : ServerState * Reply V :=
  match applyCORS getenv cfg r with
  | Err reply => (st, reply)
  | Ok origin =>
      let refuse code text := mkReply origin false None (HttpError code text) in
      if rq_Method r == "OPTIONS" then (st, mkReply origin false None NoContent) else
      let '(limiter, allowed) := Allow NewLimiter AllowN (ss_fileLimiter st) (rpcRateLimitKey r (extractRPCToken r)) now in
      let st := with_fileLimiter limiter st in
      if negb allowed then (st, mkReply origin true None (HttpError 429 "rate limit exceeded")) else
      if negb (authorized cfg r) then (st, refuse 401 "unauthorized") else
      if negb (rq_Method r == "GET") then (st, refuse 405 "method not allowed") else
      let id := TrimSpace (TrimPrefix (pathClean (rq_Path r)) "/files/") in
      if (id == "") || (id == ".") || Contains id "/" then (st, refuse 400 "invalid attachment id") else
      let '(s, answer) := call (GetAttachment id) (ss_service st) in
      let st := with_service s st in
      match answer with
      | Err e => let '(code, text) := downloadError e in (st, refuse code text)
      | Ok (name, mime, data) =>
          let filename := if name == "" then id else name in
          (st, mkReply origin false None (FileReply mime ("attachment; filename*=UTF-8''" +:+ QueryEscape filename) data))
      end
  end.

(** ** Who reaches the service *)

Lemma execute_service cfg env r req key st :
  ss_service (execute cfg env r req key st).1.1 <> ss_service st ->
  sv_hasService cfg = true \/ rr_Method req ∈ ["rpc.version"; "rpc.capabilities"].
Proof.
  unfold execute. destruct (sv_hasService cfg); [by left|]. cbn [negb andb].
  case_bool_decide; [intros _; right; rewrite H; set_unfold; auto|].
  case_bool_decide; [intros _; right; rewrite H0; set_unfold; auto|]. cbn. unfold remember.
  by destruct (negb _).
Qed.

Lemma execute_state cfg env r req key st :
  ss_service (execute cfg env r req key st).1.1 = ss_service st
  \/ ss_service (execute cfg env r req key st).1.1
     = fst (dispatchRPC (sv_groupsEnabled cfg) (rr_Method req) (rr_Params req) (ss_service st)).
Proof.
  unfold execute. destruct (_ && _); unfold remember.
  - left. by destruct (negb (key == "")).
  - destruct (dispatchRPC _ _ _ _) as [s a]. right. by destruct (negb (key == "")).
Qed.

(** What a request that was let through is. *)
Record admitted (getenv : string -> string) (cfg : ServerConfig) (r : Request) (req : rpcRequest) : Prop := mkAdmitted {
  ad_origin : TrimSpace (rq_Origin r) = "" \/ isAllowedRequestOrigin getenv cfg (TrimSpace (rq_Origin r)) = true;
  ad_token : authorized cfg r = true;
  ad_post : rq_Method r = "POST";
  ad_body : exists rest, decodeRequest maxRPCBodyBytes (rq_Body r) = Ok (req, rest) /\ decodeEOF maxRPCBodyBytes rest = true;
  ad_rpc : rr_JSONRPC req = "2.0" /\ rr_Method req <> "";
  ad_loopback : HasPrefix (rr_Method req) "node." = true -> isLoopbackRequest r = true;
  ad_version : rr_APIVersion req = None \/ rr_APIVersion req = Some 1
}.

Lemma readRequest_Ok r req :
  readRequest r = Ok req ->
  (exists rest, decodeRequest maxRPCBodyBytes (rq_Body r) = Ok (req, rest) /\ decodeEOF maxRPCBodyBytes rest = true)
  /\ (rr_JSONRPC req = "2.0" /\ rr_Method req <> "") /\ (HasPrefix (rr_Method req) "node." = true -> isLoopbackRequest r = true)
  /\ (rr_APIVersion req = None \/ rr_APIVersion req = Some 1).
Proof.
  unfold readRequest. destruct (decodeRequest _ _) as [[req' rest]|[]] eqn:Ed; [|done|done].
  destruct (decodeEOF _ rest) eqn:Ee; [|done]. cbn [negb]. destruct (_ || _) eqn:Eh; [done|].
  destruct (HasPrefix (rr_Method req') "node." && negb (isLoopbackRequest r)) eqn:El; [done|].
  destruct (validateRPCAPIVersion _) eqn:Ev; [done|]. intros [= <-].
  apply orb_false_iff in Eh as [H1 H2]. apply negb_false_iff, bool_decide_eq_true in H1. apply bool_decide_eq_false in H2.
  split; [by exists rest|]. split; [done|]. split.
  - intros Hn. rewrite Hn in El. by apply negb_false_iff in El.
  - unfold validateRPCAPIVersion in Ev. destruct (rr_APIVersion req') as [v|]; [right|by left].
    destruct (v <? _) eqn:E1; [done|]. destruct (_ <? v) eqn:E2; [done|]. apply Z.ltb_ge in E1, E2.
    unfold rpcAPIMinSupportedVersion, rpcAPICurrentVersion in *. f_equal. lia.
Qed.

Lemma applyCORS_Ok getenv cfg r origin :
  applyCORS getenv cfg r = Ok origin -> TrimSpace (rq_Origin r) = "" \/ isAllowedRequestOrigin getenv cfg (TrimSpace (rq_Origin r)) = true.
Proof.
  unfold applyCORS. destruct (TrimSpace (rq_Origin r) == "") eqn:Et; [left; by apply bool_decide_eq_true in Et|right].
  cbn [negb andb] in *. by destruct (isAllowedRequestOrigin _ _ _).
Qed.

Lemma respond_state cfg env r req st :
  ss_service (respond cfg env r req st).1.1 = ss_service st
  \/ ss_service (respond cfg env r req st).1.1
     = fst (dispatchRPC (sv_groupsEnabled cfg) (rr_Method req) (rr_Params req) (ss_service st)).
Proof.
  unfold respond. destruct (rpcIdempotencyKey _ _ == ""); [apply execute_state|].
  destruct (cacheGet _ _ _ _) as [cache []]; [|by left..].
  destruct (execute_state cfg env r req (rpcIdempotencyKey (rq_IdempotencyKey r) (extractRPCToken r)) (with_idempotency cache st)); [by left|by right].
Qed.

(** What a download that was let through is. *)
Record admitted_file (getenv : string -> string) (cfg : ServerConfig) (r : Request) (id : string) : Prop := mkAdmittedFile {
  af_origin : TrimSpace (rq_Origin r) = "" \/ isAllowedRequestOrigin getenv cfg (TrimSpace (rq_Origin r)) = true;
  af_token : authorized cfg r = true;
  af_get : rq_Method r = "GET";
  af_id : id = TrimSpace (TrimPrefix (pathClean (rq_Path r)) "/files/") /\ id <> "" /\ id <> "." /\ Contains id "/" = false
}.

(** A subscription that was let through. *)
Record admitted_stream (getenv : string -> string) (cfg : ServerConfig) (r : Request) (client : string) (cursor : Z) : Prop := mkAdmittedStream {
  as_origin : TrimSpace (rq_Origin r) = "" \/ isAllowedRequestOrigin getenv cfg (TrimSpace (rq_Origin r)) = true;
  as_token : authorized cfg r = true;
  as_get : rq_Method r = "GET";
  as_cursor : parseCursor (rq_Cursor r) = Some cursor /\ 0 <= cursor;
  as_client : client = rpcRateLimitKey r (extractRPCToken r)
}.

Lemma stream_admitted getenv cfg r st client cursor :
  snd (handleRPCStream getenv cfg r st) = Ok (client, cursor) ->
  admitted_stream getenv cfg r client cursor /\ snd (acquire client (ss_streams st)) = true.
Proof.
  unfold handleRPCStream. destruct (applyCORS getenv cfg r) as [origin|] eqn:Ec; [|done]. apply applyCORS_Ok in Ec.
  destruct (rq_Method r == "OPTIONS"); [done|]. destruct (authorized cfg r) eqn:Ea; [|done]. cbn [negb].
  set (c := rpcRateLimitKey _ _). destruct (acquire c (ss_streams st)) as [streams []] eqn:El; [|done]. cbn [negb].
  destruct (rq_Method r == "GET") eqn:Eg; [apply bool_decide_eq_true in Eg|done]. cbn [negb].
  destruct (parseCursor (rq_Cursor r)) as [v|] eqn:Ep; [|done]. cbn [snd]. intros [= <- <-]. rewrite El. split; [|done].
  constructor; try done. split; [done|]. unfold parseCursor in Ep. destruct (rq_Cursor r == ""); [by injection Ep as <-|].
  destruct (Atoi _) as [w|]; [|done]. destruct (w <? 0) eqn:Ew; [done|]. injection Ep as <-. by apply Z.ltb_ge in Ew.
Qed.

Lemma stream_keeps_service getenv cfg r st : ss_service (fst (handleRPCStream getenv cfg r st)) = ss_service st.
Proof.
  unfold handleRPCStream. destruct (applyCORS _ _ _); [|done]. destruct (_ == "OPTIONS"); [done|]. destruct (authorized _ _); [|done].
  cbn [negb]. destruct (acquire _ _) as [l []]; [|done]. cbn [negb]. destruct (_ == "GET"); [|done]. cbn [negb]. by destruct (parseCursor _).
Qed.

(** ** One request, one execution *)

Lemma prune_lookup (c : gmap string (rpcIdempotencyEntry V)) now key e :
  c !! key = Some e -> timeSub now (ie_createdAt e) <= rpcIdempotencyTTL -> prune now c !! key = Some e.
Proof. intros Hk He. unfold prune. by apply map_lookup_filter_Some. Qed.

Lemma prune_size now (c : gmap string (rpcIdempotencyEntry V)) : (size (prune now c) <= size c)%nat.
Proof. apply map_size_filter. Qed.

(** The entry that goes when the cache is full is one of the oldest. *)
Lemma oldest_min (c : gmap string (rpcIdempotencyEntry V)) :
  c <> ∅ -> exists e, c !! oldest c = Some e /\ forall k e', c !! k = Some e' -> ie_createdAt e <= ie_createdAt e'.
Proof.
  intros Hc. unfold oldest. set (f := fun acc kv => match acc with (_, None) => _ | (k, Some at_) => _ end).
  assert (Hf : forall l acc, (forall kv, kv ∈ l -> c !! kv.1 = Some kv.2) ->
    (forall k at_, acc = (k, Some at_) -> exists e, c !! k = Some e /\ ie_createdAt e = at_) -> (l <> [] \/ snd acc <> None) ->
    exists e, c !! fst (foldl f acc l) = Some e
      /\ (forall kv, kv ∈ l -> ie_createdAt e <= ie_createdAt kv.2) /\ (forall at_, snd acc = Some at_ -> ie_createdAt e <= at_)).
  { induction l as [|kv l IH]; intros [k at_] Hl Hacc Hne; cbn [foldl].
    { destruct at_ as [at_|]; [|by destruct Hne]. destruct (Hacc k at_ eq_refl) as (e & He & Hat). exists e. split; [done|].
      split; [by intros kv ?%not_elem_of_nil|]. intros at' [= <-]. lia. }
    assert (Hkv : c !! kv.1 = Some kv.2) by (apply Hl; left).
    assert (Hl' : forall kv', kv' ∈ l -> c !! kv'.1 = Some kv'.2) by (intros kv' ?; apply Hl; by right).
    assert (Hstep : exists k2 at2, f (k, at_) kv = (k2, Some at2) /\ (exists e, c !! k2 = Some e /\ ie_createdAt e = at2)
      /\ at2 <= ie_createdAt kv.2 /\ forall a, at_ = Some a -> at2 <= a).
    { unfold f. destruct at_ as [at_|]; [|exists kv.1, (ie_createdAt kv.2); split_and!; [done|by exists kv.2|lia|done]].
      unfold Before. destruct (Z.ltb_spec (ie_createdAt kv.2) at_).
      - exists kv.1, (ie_createdAt kv.2). split_and!; [done|by exists kv.2|lia|intros ? [= <-]; lia].
      - exists k, at_. split_and!; [done|by apply Hacc|lia|intros ? [= <-]; lia]. }
    destruct Hstep as (k2 & at2 & -> & He2 & Hkv2 & Hat2).
    destruct (IH (k2, Some at2) Hl') as (e & He & Hmin & Hacc'); [by intros ? ? [= <- <-]|by right|]. exists e. split; [done|].
    pose proof (Hacc' at2 eq_refl). split.
    - intros kv' [->|Hin]%elem_of_cons; [lia|by apply Hmin].
    - intros a Ha. pose proof (Hat2 a Ha). lia. }
  assert (Hin : forall kv, kv ∈ rangeMap c <-> c !! kv.1 = Some kv.2).
  { intros [k e]. rewrite (rangeMap_perm _ c). apply elem_of_map_to_list. }
  destruct (Hf (rangeMap c) ("", None)) as (e & He & Hmin & _).
  - intros kv Hkv. by apply Hin.
  - done.
  - left. intros Hl. apply Hc. apply map_to_list_empty_iff. apply Permutation_nil. by rewrite <- (rangeMap_perm _ c), Hl.
  - exists e. split; [done|]. intros k e' He'. by apply (Hmin (k, e')), Hin.
Qed.

Lemma oldest_key (c : gmap string (rpcIdempotencyEntry V)) : c <> ∅ -> exists e, c !! oldest c = Some e.
Proof. intros Hc. destruct (oldest_min c Hc) as (e & He & _). by exists e. Qed.

(** How many entries are not older than [t]. *)
Definition late (t : Z) (c : gmap string (rpcIdempotencyEntry V)) : nat := size (filter (fun kv => t <= ie_createdAt kv.2) c).

Lemma late_sub t (c c' : gmap string (rpcIdempotencyEntry V)) : c ⊆ c' -> (late t c <= late t c')%nat.
Proof. intros H. by apply map_subseteq_size, map_filter_subseteq_mono. Qed.

Lemma late_insert t key e (c : gmap string (rpcIdempotencyEntry V)) : (late t (<[key := e]> c) <= Datatypes.S (late t c))%nat.
Proof.
  unfold late. transitivity (size (<[key := e]> (filter (fun kv => t <= ie_createdAt kv.2) c))).
  - apply map_subseteq_size. apply map_subseteq_spec. intros k x [Hk Hx]%map_lookup_filter_Some.
    destruct (decide (k = key)) as [->|Hne]; [by rewrite lookup_insert_eq in Hk |- *|].
    rewrite lookup_insert_ne in Hk |- * by done. by apply map_lookup_filter_Some.
  - rewrite map_size_insert. destruct (_ !! _); cbn; lia.
Qed.

Lemma late_all t (c : gmap string (rpcIdempotencyEntry V)) : (forall k e, c !! k = Some e -> t <= ie_createdAt e) -> late t c = size c.
Proof. intros H. unfold late. f_equal. apply map_filter_id. intros k e Hk. by apply (H k). Qed.

(** An answer that is kept does not push out one of the time [t], unless the cache is full of entries that are not older. *)
Lemma cacheSet_keeps key e key' hash resp now (c : gmap string (rpcIdempotencyEntry V)) :
  <[key' := mkEntry_ hash resp now]> (prune now c) !! key = Some e -> (late (ie_createdAt e) c < rpcIdempotencyMaxEntries)%nat ->
  cacheSet key' hash resp now c !! key = Some e
  /\ (late (ie_createdAt e) (cacheSet key' hash resp now c) <= Datatypes.S (late (ie_createdAt e) c))%nat.
Proof.
  intros Hk Hc. unfold cacheSet. set (c1 := <[key' := _]> (prune now c)) in *.
  assert (H1 : (late (ie_createdAt e) c1 <= Datatypes.S (late (ie_createdAt e) c))%nat).
  { etransitivity; [apply late_insert|]. apply le_n_S, late_sub, map_filter_subseteq. }
  destruct (Nat.leb_spec (size c1) rpcIdempotencyMaxEntries) as [|Hgt]; [done|].
  destruct (negb (oldest c1 == "")); [|done]. split.
  - rewrite lookup_delete_ne; [done|]. intros Eo. destruct (oldest_min c1) as (e0 & He0 & Hmin).
    { intros E. rewrite E in Hk. by rewrite lookup_empty in Hk. }
    rewrite Eo, Hk in He0. injection He0 as <-. rewrite (late_all _ _ Hmin) in H1. unfold rpcIdempotencyMaxEntries in *. lia.
  - etransitivity; [apply late_sub, delete_subseteq|done].
Qed.

(** The answer of a request that is executed is kept, unless it has no key. *)
Lemma execute_keeps cfg env r req key st :
  exists resp, (execute cfg env r req key st).2 = RpcReply resp
    /\ ss_idempotency (execute cfg env r req key st).1.1
       = if key == "" then ss_idempotency st else cacheSet key (rpcRequestHash req) resp (re_set env) (ss_idempotency st).
Proof.
  unfold execute, remember. destruct (key == "") eqn:Ek; cbn [negb].
  - destruct (_ && _); [by eexists|]. destruct (dispatchRPC _ _ _ _) as [s a]. by eexists.
  - destruct (_ && _); [by eexists|]. destruct (dispatchRPC _ _ _ _) as [s a]. by eexists.
Qed.

(** A request that the gates let through, in the state it finds. *)
Definition let_through (getenv : string -> string) (cfg : ServerConfig) (env : RequestEnv) (r : Request) (st : ServerState) : bool :=
  is_ok (applyCORS getenv cfg r) && (rq_Method r == "POST") && authorized cfg r
  && snd (Allow NewLimiter AllowN (ss_rpcLimiter st) (rpcRateLimitKey r (extractRPCToken r)) (re_rate env)).

Lemma handleRPC_through getenv cfg env r req st :
  let_through getenv cfg env r st = true -> readRequest r = Ok req ->
  exists st', ss_service st' = ss_service st /\ ss_idempotency st' = ss_idempotency st
    /\ fst (handleRPC getenv cfg env r st) = (respond cfg env r req st').1.1
    /\ hr_Payload (snd (handleRPC getenv cfg env r st)) = (respond cfg env r req st').2.
Proof.
  unfold let_through, handleRPC. intros Hl ->. destruct (applyCORS _ _ _) as [origin|]; [|done]. cbn [is_ok andb] in Hl.
  destruct (rq_Method r == "POST") eqn:Ep; [|done]. destruct (authorized cfg r); [|done]. cbn [andb] in Hl.
  apply bool_decide_eq_true in Ep. rewrite (bool_decide_false (rq_Method r = "OPTIONS")) by congruence.
  destruct (Allow _ _ _ _ _) as [limiter allowed]. cbn [snd] in Hl. subst allowed. cbn [negb].
  exists (with_rpcLimiter limiter st). destruct (respond _ _ _ _ _) as [[st1 id] payload]. by split_and!.
Qed.

(** What arrives at the server between a request and its retry. *)
Inductive ServerCall := CallRPC (env : RequestEnv) (r : Request) | CallFile (now : Z) (r : Request) | CallStream (r : Request) | CallEnd (client : string).

Definition serveCall (getenv : string -> string) (cfg : ServerConfig) (st : ServerState) (c : ServerCall) : ServerState :=
  match c with
  | CallRPC env r => fst (handleRPC getenv cfg env r st)
  | CallFile now r => fst (handleFileDownload getenv cfg now r st)
  | CallStream r => fst (handleRPCStream getenv cfg r st)
  | CallEnd client => endStream client st
  end.
Definition isRPC (c : ServerCall) : bool := match c with CallRPC _ _ => true | _ => false end.

(** The clocks of a call show no more than the time to live since [t]. *)
Definition not_expired (t : Z) (c : ServerCall) : Prop :=
  match c with
  | CallRPC env _ => timeSub (re_get env) t <= rpcIdempotencyTTL /\ timeSub (re_set env) t <= rpcIdempotencyTTL
  | _ => True
  end.

Lemma handleFileDownload_same getenv cfg now r st :
  ss_streams (fst (handleFileDownload getenv cfg now r st)) = ss_streams st
  /\ ss_idempotency (fst (handleFileDownload getenv cfg now r st)) = ss_idempotency st.
Proof.
  unfold handleFileDownload. destruct (applyCORS _ _ _); [|done]. destruct (rq_Method r == "OPTIONS"); [done|].
  destruct (Allow _ _ _ _ _) as [limiter []]; [|done]. cbn [negb]. destruct (authorized _ _); [|done]. cbn [negb].
  destruct (rq_Method r == "GET"); [|done]. cbn [negb]. destruct (_ || _); [done|].
  destruct (call _ _) as [s [[[name mime] data]|e]]; [done|]. by destruct (downloadError e).
Qed.

Lemma stream_keeps_idempotency getenv cfg r st : ss_idempotency (fst (handleRPCStream getenv cfg r st)) = ss_idempotency st.
Proof.
  unfold handleRPCStream. destruct (applyCORS _ _ _); [|done]. destruct (_ == "OPTIONS"); [done|]. destruct (authorized _ _); [|done].
  cbn [negb]. destruct (acquire _ _) as [l []]; [|done]. cbn [negb]. destruct (_ == "GET"); [|done]. cbn [negb]. by destruct (parseCursor _).
Qed.

Lemma respond_retains cfg env r req st key e :
  ss_idempotency st !! key = Some e -> (late (ie_createdAt e) (ss_idempotency st) < rpcIdempotencyMaxEntries)%nat ->
  timeSub (re_get env) (ie_createdAt e) <= rpcIdempotencyTTL -> timeSub (re_set env) (ie_createdAt e) <= rpcIdempotencyTTL ->
  let st' := (respond cfg env r req st).1.1 in
  ss_idempotency st' !! key = Some e /\ (late (ie_createdAt e) (ss_idempotency st') <= Datatypes.S (late (ie_createdAt e) (ss_idempotency st)))%nat.
Proof.
  intros Hk Hl Hg Hs. unfold respond. set (k := rpcIdempotencyKey _ _). destruct (k == "") eqn:Ek.
  { destruct (execute_keeps cfg env r req k st) as (resp & _ & E). rewrite Ek in E. rewrite E. split; [done|lia]. }
  unfold cacheGet. set (st1 := with_idempotency _ st).
  assert (H1 : ss_idempotency st1 !! key = Some e) by (by apply prune_lookup).
  assert (H2 : (late (ie_createdAt e) (ss_idempotency st1) <= late (ie_createdAt e) (ss_idempotency st))%nat) by apply late_sub, map_filter_subseteq.
  change (prune _ _ !! k) with (ss_idempotency st1 !! k). destruct (ss_idempotency st1 !! k) as [e'|] eqn:E'.
  { destruct (negb _); (split; [exact H1|]); cbn [fst]; lia. }
  destruct (execute_keeps cfg env r req k st1) as (resp & _ & E). rewrite Ek in E. rewrite E.
  destruct (cacheSet_keeps key e k (rpcRequestHash req) resp (re_set env) (ss_idempotency st1)) as [H3 H4]; [|lia|split; [done|lia]].
  rewrite lookup_insert_ne by congruence. by apply prune_lookup.
Qed.

Lemma serveCall_retains getenv cfg st c key e :
  ss_idempotency st !! key = Some e -> (late (ie_createdAt e) (ss_idempotency st) < rpcIdempotencyMaxEntries)%nat -> not_expired (ie_createdAt e) c ->
  let st' := serveCall getenv cfg st c in
  ss_idempotency st' !! key = Some e
  /\ (late (ie_createdAt e) (ss_idempotency st') <= (if isRPC c then 1 else 0) + late (ie_createdAt e) (ss_idempotency st))%nat.
Proof.
  intros Hk Hl Hn. destruct c as [env r|now r|r|client]; cbn [serveCall isRPC].
  - destruct Hn as [Hg Hs]. unfold handleRPC. destruct (applyCORS _ _ _); [|cbn; split; [done|lia]]. destruct (rq_Method r == "OPTIONS"); [cbn; split; [done|lia]|].
    destruct (Allow _ _ _ _ _) as [limiter []]; [|cbn; split; [done|lia]]. cbn [negb]. destruct (authorized _ _); [|cbn; split; [done|lia]]. cbn [negb].
    destruct (rq_Method r == "POST"); [|cbn; split; [done|lia]]. cbn [negb]. destruct (readRequest _) as [req|]; [|cbn; split; [done|lia]].
    pose proof (respond_retains cfg env r req (with_rpcLimiter limiter st) key e Hk Hl Hg Hs) as Hr.
    destruct (respond _ _ _ _ _) as [[st1 id] payload]. exact Hr.
  - destruct (handleFileDownload_same getenv cfg now r st) as [_ ->]. split; [done|cbn; lia].
  - rewrite stream_keeps_idempotency. split; [done|cbn; lia].
  - split; [done|cbn; lia].
Qed.

Lemma serveCalls_retain getenv cfg key e calls : forall st,
  ss_idempotency st !! key = Some e ->
  (late (ie_createdAt e) (ss_idempotency st) + length (List.filter isRPC calls) <= rpcIdempotencyMaxEntries)%nat -> Forall (not_expired (ie_createdAt e)) calls ->
  ss_idempotency (fold_left (serveCall getenv cfg) calls st) !! key = Some e.
Proof.
  induction calls as [|c calls IH]; intros st Hk Hl Hc; [done|]. apply list.Forall_cons in Hc as [Hc Hcs]. cbn [fold_left].
  cbn [List.filter] in Hl. destruct (isRPC c) eqn:Ec.
  - cbn [length] in Hl. destruct (serveCall_retains getenv cfg st c key e Hk ltac:(lia) Hc) as [H1 H2]. rewrite Ec in H2.
    apply IH; [done| |done]. lia.
  - assert (Es : ss_idempotency (serveCall getenv cfg st c) = ss_idempotency st).
    { destruct c; [done|apply handleFileDownload_same|apply stream_keeps_idempotency|done]. }
    apply IH; [by rewrite Es| |done]. by rewrite Es.
Qed.

(** C24: A retry is not executed again. A POST to /rpc with an idempotency key that is let through and is new is answered, and then
    other clients and the same one may do anything: calls with this or other keys, downloads, subscriptions and their ends. When
    a request with the same key, token, method, params and version is then let through, it gets the same result or error under its
    own identifier, and the state of the service does not change. All this happens within ten minutes by the clocks of the requests,
    and the calls between, with the entries that were kept no earlier than the first answer, are fewer than the 1024 of the cache;
    older entries may fill it. (Requests that arrive while the first is still being executed are executed too.) *)
Theorem retry_is_replayed (getenv : string -> string) (cfg : ServerConfig) (env env' : RequestEnv) (r r' : Request)
    (req req' : rpcRequest) (st : ServerState) (calls : list ServerCall) :
  let key := rpcIdempotencyKey (rq_IdempotencyKey r) (extractRPCToken r) in
  let first := handleRPC getenv cfg env r st in
  let st2 := fold_left (serveCall getenv cfg) calls (fst first) in
  let retry := handleRPC getenv cfg env' r' st2 in
  key <> "" -> ss_idempotency st !! key = None ->
  (late (re_set env) (ss_idempotency st) + length (List.filter isRPC calls) < rpcIdempotencyMaxEntries)%nat ->
  let_through getenv cfg env r st = true -> readRequest r = Ok req ->
  Forall (not_expired (re_set env)) calls ->
  let_through getenv cfg env' r' st2 = true -> readRequest r' = Ok req' ->
  rpcIdempotencyKey (rq_IdempotencyKey r') (extractRPCToken r') = key -> rpcRequestHash req' = rpcRequestHash req ->
  timeSub (re_get env') (re_set env) <= rpcIdempotencyTTL ->
  exists resp, hr_Payload (snd first) = RpcReply resp
    /\ hr_Payload (snd retry) = RpcReply (mkRpcResponse (rr_ID req') (rs_Result resp) (rs_Error resp))
    /\ ss_service (fst retry) = ss_service st2.
Proof.
  intros key first st2 retry Hkey Hnone Hroom Hthrough Hreq Hcalls Hthrough' Hreq' Hkey' Hhash Hage.
  destruct (handleRPC_through getenv cfg env r req st Hthrough Hreq) as (sa & Hsa & Hia & Ha & Hpa). fold first in Ha, Hpa.
  assert (Ek : (key == "") = false) by (by apply bool_decide_eq_false).
  unfold respond in Ha, Hpa. fold key in Ha, Hpa. rewrite Ek in Ha, Hpa. unfold cacheGet in Ha, Hpa. rewrite Hia in Ha, Hpa.
  assert (Hp : prune (re_get env) (ss_idempotency st) !! key = None) by (apply map_lookup_filter_None; by left).
  rewrite Hp in Ha, Hpa. set (sb := with_idempotency _ sa) in *.
  destruct (execute_keeps cfg env r req key sb) as (resp & Hr & Hi). rewrite Ek in Hi. rewrite Hr in Hpa.
  set (e := mkEntry_ (rpcRequestHash req) resp (re_set env)).
  assert (Hlate : (late (re_set env) (ss_idempotency sb) <= late (re_set env) (ss_idempotency st))%nat) by apply late_sub, map_filter_subseteq.
  destruct (cacheSet_keeps key e key (rpcRequestHash req) resp (re_set env) (ss_idempotency sb)) as [H1 H2].
  { by rewrite lookup_insert_eq. } { cbn [ie_createdAt e]. lia. }
  rewrite <- Hi, <- Ha in H1, H2. cbn [ie_createdAt e] in H2.
  assert (H3 : ss_idempotency st2 !! key = Some e).
  { apply serveCalls_retain; [exact H1| |exact Hcalls]. cbn [ie_createdAt e]. lia. }
  destruct (handleRPC_through getenv cfg env' r' req' st2 Hthrough' Hreq') as (sc & Hsc & Hic & Hc & Hpc). fold retry in Hc, Hpc.
  unfold respond in Hc, Hpc. rewrite Hkey', Ek in Hc, Hpc. unfold cacheGet in Hc, Hpc. rewrite Hic in Hc, Hpc.
  rewrite (prune_lookup _ (re_get env') key e H3 Hage) in Hc, Hpc. cbn [ie_hash ie_response e] in Hc, Hpc.
  rewrite Hhash, bool_decide_true in Hc, Hpc by done. exists resp. split_and!; [exact Hpa|exact Hpc|]. by rewrite Hc.
Qed.

(** ** Bounds *)

Lemma cacheSet_size key hash resp now (c : gmap string (rpcIdempotencyEntry V)) :
  key <> "" -> c !! "" = None -> (size c <= rpcIdempotencyMaxEntries)%nat ->
  cacheSet key hash resp now c !! "" = None /\ (size (cacheSet key hash resp now c) <= rpcIdempotencyMaxEntries)%nat.
Proof.
  intros Hk H0 Hc. unfold cacheSet. set (c1 := <[key:=_]> (prune now c)).
  assert (H1 : c1 !! "" = None).
  { unfold c1. rewrite lookup_insert_ne by done. apply map_lookup_filter_None. by left. }
  destruct (Nat.leb_spec (size c1) rpcIdempotencyMaxEntries) as [Hle|Hgt]; [done|].
  destruct (oldest_key c1) as [e He].
  { intros E. rewrite E, map_size_empty in Hgt. unfold rpcIdempotencyMaxEntries in Hgt. lia. }
  assert (Hne : oldest c1 <> "") by (intros E; rewrite E in He; congruence).
  rewrite bool_decide_false by done. cbn [negb]. split.
  - by rewrite lookup_delete_ne.
  - rewrite map_size_delete, He. assert (Hs : (size c1 <= Datatypes.S (size c))%nat); [|cbn; lia].
    unfold c1. pose proof (prune_size now c). rewrite map_size_insert. destruct (prune now c !! key); cbn; lia.
Qed.

Definition cache_ok (st : ServerState) : Prop :=
  ss_idempotency st !! "" = None /\ (size (ss_idempotency st) <= rpcIdempotencyMaxEntries)%nat.

Lemma idempotency_prune_ok now st : cache_ok st -> cache_ok (with_idempotency (prune now (ss_idempotency st)) st).
Proof.
  intros [H1 H2]. split; cbn; [apply map_lookup_filter_None; by left|]. pose proof (prune_size now (ss_idempotency st)). lia.
Qed.

Lemma remember_ok env key hash resp st : cache_ok st -> cache_ok (remember env key hash resp st).
Proof.
  intros H. unfold remember. destruct (key == "") eqn:E; [done|]. apply bool_decide_eq_false in E. destruct H.
  by apply cacheSet_size.
Qed.

Lemma execute_ok cfg env r req key st : cache_ok st -> cache_ok (execute cfg env r req key st).1.1.
Proof.
  intros H. unfold execute. destruct (_ && _); [by apply remember_ok|]. destruct (dispatchRPC _ _ _ _). by apply remember_ok.
Qed.

Lemma handleRPC_ok getenv cfg env r st : cache_ok st -> cache_ok (fst (handleRPC getenv cfg env r st)).
Proof.
  intros H. unfold handleRPC. destruct (applyCORS _ _ _); [|done]. destruct (rq_Method r == "OPTIONS"); [done|].
  destruct (Allow _ _ _ _ _) as [limiter []]; [|done]. cbn [negb]. destruct (authorized _ _); [|done]. cbn [negb].
  destruct (rq_Method r == "POST"); [|done]. cbn [negb]. destruct (readRequest _) as [req|]; [|done].
  assert (H' : cache_ok (respond cfg env r req (with_rpcLimiter limiter st)).1.1).
  { unfold respond. destruct (rpcIdempotencyKey _ _ == ""); [by apply execute_ok|]. unfold cacheGet.
    pose proof (idempotency_prune_ok (re_get env) (with_rpcLimiter limiter st) H) as Hp.
    destruct (prune _ _ !! _) as [e|]; [|by apply execute_ok]. by destruct (negb _). }
  by destruct (respond _ _ _ _ _) as [[st1 id] payload].
Qed.

(** The subscriptions that are open, by client. *)
Inductive serving (getenv : string -> string) (cfg : ServerConfig) (st0 : ServerState) : ServerState -> list string -> Prop :=
| sv_start : serving getenv cfg st0 st0 []
| sv_rpc env r st open : serving getenv cfg st0 st open -> serving getenv cfg st0 (fst (handleRPC getenv cfg env r st)) open
| sv_file now r st open : serving getenv cfg st0 st open -> serving getenv cfg st0 (fst (handleFileDownload getenv cfg now r st)) open
| sv_stream r st open :
    serving getenv cfg st0 st open ->
    serving getenv cfg st0 (fst (handleRPCStream getenv cfg r st))
      (match snd (handleRPCStream getenv cfg r st) with Ok (client, _) => client :: open | Err _ => open end)
| sv_end client st open open' :
    serving getenv cfg st0 st open -> open ≡ₚ client :: open' -> serving getenv cfg st0 (endStream client st) open'.

Definition countOf (client : string) (open : list string) : Z := Z.of_nat (length (filter (fun c => c = client) open)).

(** The limiter counts what is open, in total and by client, and within its limits. *)
Record streams_ok (l : rpcStreamLimiter) (open : list string) : Prop := mkStreamsOk {
  st_global : sl_global l = Z.of_nat (length open);
  st_client : forall client, default 0 (sl_byClient l !! client) = countOf client open;
  st_max : sl_global l <= Z.max 0 (sl_maxGlobal l);
  st_maxClient : forall client, countOf client open <= Z.max 0 (sl_maxPerClient l)
}.

Lemma countOf_cons client c open : countOf client (c :: open) = (if bool_decide (c = client) then 1 else 0) + countOf client open.
Proof.
  unfold countOf. destruct (bool_decide (c = client)) eqn:E.
  - apply bool_decide_eq_true in E. rewrite filter_cons_True by done. cbn [length]. lia.
  - apply bool_decide_eq_false in E. rewrite filter_cons_False by done. lia.
Qed.

Lemma countOf_pos client open : 0 <= countOf client open <= Z.of_nat (length open).
Proof. unfold countOf. pose proof (length_filter (fun c => c = client) open). lia. Qed.

Lemma countOf_perm client open open' : open ≡ₚ open' -> countOf client open = countOf client open'.
Proof. intros H. unfold countOf. by rewrite H. Qed.

Lemma acquire_ok client l open :
  streams_ok l open ->
  let '(l', allowed) := acquire client l in
  streams_ok l' (if allowed then client :: open else open) /\ sl_maxGlobal l' = sl_maxGlobal l /\ sl_maxPerClient l' = sl_maxPerClient l
  /\ (allowed = false -> l' = l).
Proof.
  intros [H1 H2 H3 H4]. unfold acquire. destruct (Z.leb_spec (sl_maxGlobal l) (sl_global l)); [done|].
  destruct (Z.leb_spec (sl_maxPerClient l) (default 0 (sl_byClient l !! client))) as [|Hc]; [done|]. split; [|done].
  rewrite H2 in *. constructor; cbn [sl_global sl_byClient sl_maxGlobal sl_maxPerClient].
  - cbn [length]. lia.
  - intros c. rewrite countOf_cons. destruct (bool_decide (client = c)) eqn:E.
    + apply bool_decide_eq_true in E as <-. rewrite lookup_insert_eq. cbn. lia.
    + apply bool_decide_eq_false in E. rewrite lookup_insert_ne by done. by rewrite H2.
  - lia.
  - intros c. rewrite countOf_cons. destruct (bool_decide (client = c)) eqn:E; [|apply H4].
    apply bool_decide_eq_true in E as <-. lia.
Qed.

Lemma release_ok client l open open' :
  streams_ok l open -> open ≡ₚ client :: open' ->
  streams_ok (release client l) open' /\ sl_maxGlobal (release client l) = sl_maxGlobal l
  /\ sl_maxPerClient (release client l) = sl_maxPerClient l.
Proof.
  intros [H1 H2 H3 H4] Hp. split; [|done].
  assert (Hlen : length open = Datatypes.S (length open')) by (by rewrite Hp).
  assert (Hcount : forall c, countOf c open = (if bool_decide (client = c) then 1 else 0) + countOf c open').
  { intros c. rewrite (countOf_perm _ _ _ Hp). apply countOf_cons. }
  unfold release. rewrite (proj2 (Z.ltb_lt 0 (sl_global l))) by lia.
  constructor; cbn [sl_global sl_byClient sl_maxGlobal sl_maxPerClient].
  - lia.
  - intros c. rewrite H2, Hcount, bool_decide_true by done. specialize (Hcount c). rewrite <- H2 in Hcount.
    pose proof (countOf_pos client open'). pose proof (countOf_pos c open').
    destruct (Z.leb_spec (1 + countOf client open' - 1) 0).
    + destruct (decide (client = c)) as [<-|Hne].
      * rewrite lookup_delete_eq. cbn. rewrite bool_decide_true in Hcount by done. lia.
      * rewrite lookup_delete_ne by done. rewrite bool_decide_false in Hcount by done. lia.
    + destruct (decide (client = c)) as [<-|Hne].
      * rewrite lookup_insert_eq. cbn. lia.
      * rewrite lookup_insert_ne by done. rewrite bool_decide_false in Hcount by done. lia.
  - lia.
  - intros c. specialize (H4 c). rewrite Hcount in H4. destruct (bool_decide (client = c)); lia.
Qed.

Lemma execute_streams cfg env r req key st : ss_streams (execute cfg env r req key st).1.1 = ss_streams st.
Proof.
  unfold execute, remember. destruct (_ && _); [by destruct (negb (key == ""))|].
  destruct (dispatchRPC _ _ _ _). by destruct (negb (key == "")).
Qed.

Lemma handleRPC_streams getenv cfg env r st : ss_streams (fst (handleRPC getenv cfg env r st)) = ss_streams st.
Proof.
  unfold handleRPC. destruct (applyCORS _ _ _); [|done]. destruct (rq_Method r == "OPTIONS"); [done|].
  destruct (Allow _ _ _ _ _) as [limiter []]; [|done]. cbn [negb]. destruct (authorized _ _); [|done]. cbn [negb].
  destruct (rq_Method r == "POST"); [|done]. cbn [negb]. destruct (readRequest _) as [req|]; [|done].
  assert (H : ss_streams (respond cfg env r req (with_rpcLimiter limiter st)).1.1 = ss_streams st).
  { unfold respond. destruct (rpcIdempotencyKey _ _ == ""); [by rewrite execute_streams|].
    destruct (cacheGet _ _ _ _) as [cache []]; [by rewrite execute_streams|done|done]. }
  by destruct (respond _ _ _ _ _) as [[st1 id] payload].
Qed.

Lemma handleRPCStream_ok getenv cfg r st open :
  streams_ok (ss_streams st) open ->
  let out := handleRPCStream getenv cfg r st in
  streams_ok (ss_streams (fst out)) (match snd out with Ok (client, _) => client :: open | Err _ => open end)
  /\ sl_maxGlobal (ss_streams (fst out)) = sl_maxGlobal (ss_streams st)
  /\ sl_maxPerClient (ss_streams (fst out)) = sl_maxPerClient (ss_streams st)
  /\ ss_idempotency (fst out) = ss_idempotency st.
Proof.
  intros H. unfold handleRPCStream. destruct (applyCORS _ _ _); [|done]. destruct (rq_Method r == "OPTIONS"); [done|].
  destruct (authorized _ _); [|done]. cbn [negb]. set (client := rpcRateLimitKey r _).
  pose proof (acquire_ok client _ _ H) as Ha. destruct (acquire client (ss_streams st)) as [l []].
  2: { destruct Ha as (Ha & H1 & H2 & H3). cbn. by rewrite H3. }
  destruct Ha as (Ha & H1 & H2 & _). cbn [negb].
  assert (Hfree : streams_ok (release client l) open) by (by apply (release_ok client l (client :: open))).
  destruct (rq_Method r == "GET"); [|done]. cbn [negb]. by destruct (parseCursor _).
Qed.

(** C32: What the server keeps is bounded. Over any sequence of calls, downloads, subscriptions and their ends, the
    idempotency cache has at most 1024 entries; and the stream limiter counts exactly the subscriptions that are open, in
    total and by client, which are never more than the configured limits. *)
Theorem server_memory_bounded (getenv : string -> string) (cfg : ServerConfig) (st0 st : ServerState) (open : list string) :
  ss_idempotency st0 = ∅ -> sl_global (ss_streams st0) = 0 -> sl_byClient (ss_streams st0) = ∅ ->
  serving getenv cfg st0 st open ->
  (size (ss_idempotency st) <= 1024)%nat
  /\ Z.of_nat (length open) <= Z.max 0 (sl_maxGlobal (ss_streams st0))
  /\ (forall client, countOf client open <= Z.max 0 (sl_maxPerClient (ss_streams st0)))
  /\ sl_global (ss_streams st) = Z.of_nat (length open)
  /\ (forall client, default 0 (sl_byClient (ss_streams st) !! client) = countOf client open).
Proof.
  intros Hi Hg Hb Hs.
  assert (H : cache_ok st /\ streams_ok (ss_streams st) open /\ sl_maxGlobal (ss_streams st) = sl_maxGlobal (ss_streams st0)
    /\ sl_maxPerClient (ss_streams st) = sl_maxPerClient (ss_streams st0)).
  { induction Hs as [|env r st open _ IH|now r st open _ IH|r st open _ IH|client st open open' _ IH Hp].
    - split_and!; [split; [by rewrite Hi|rewrite Hi; apply Nat.le_0_l]| |done|done].
      constructor; [done| |lia|].
      + intros client. by rewrite Hb.
      + intros client. unfold countOf. rewrite filter_nil. cbn [length]. lia.
    - destruct IH as (H1 & H2 & H3 & H4). split; [by apply handleRPC_ok|]. by rewrite handleRPC_streams.
    - destruct IH as (H1 & H2 & H3 & H4). destruct (handleFileDownload_same getenv cfg now r st) as [E1 E2].
      unfold cache_ok. by rewrite E1, E2.
    - destruct IH as (H1 & H2 & H3 & H4). destruct (handleRPCStream_ok getenv cfg r st open H2) as (E1 & E2 & E3 & E4).
      split; [unfold cache_ok; by rewrite E4|]. split_and!; [exact E1|congruence|congruence].
    - destruct IH as (H1 & H2 & H3 & H4). destruct (release_ok client _ open open' H2 Hp) as (E1 & E2 & E3).
      split; [exact H1|]. split_and!; [exact E1|exact (eq_trans E2 H3)|exact (eq_trans E3 H4)]. }
  destruct H as ([_ H1] & [H2 H3 H4 H5] & E1 & E2). rewrite <- E1, <- E2, <- H2. by split_and!.
Qed.

(** The server does not run open by accident: it is made with an empty token only where a test or development
    environment says so; everywhere else, whatever else the environment has, the token is required and not empty. *)
Theorem open_server_only_in_development (getenv : string -> string) (buf : result error (list Z)) (persisted : result error unit)
    (hasService : bool) (s : S) (cfg : ServerConfig) (st : ServerState) :
  NewServerWithService getenv buf persisted hasService s = Ok (cfg, st) ->
  sv_rpcToken cfg = "" \/ sv_requireRPC cfg = false ->
  isNonProdEnv getenv = true.
Proof.
  unfold NewServerWithService, bindR. destruct (resolveRPCToken _ _ _) as [token|]; [|done].
  destruct (requiresRPCToken getenv && (token == "")) eqn:E; [done|]. intros [= <- <-] H. cbn in H.
  destruct (isNonProdEnv getenv) eqn:En; [done|].
  assert (Hr : requiresRPCToken getenv = true).
  { unfold requiresRPCToken. rewrite En. destruct (parseBoolEnv _ _) as [[]|]; done. }
  rewrite Hr in H, E. destruct H as [H|]; [|done]. rewrite H in E. done.
Qed.

End Server.

(** ** Who reaches the service *)

Section Reach.
Context {S V : Type} {errtext : GoErrorText} {gojson : GoJson} {fold : GoFold} {lower : GoLower} {rt : GoRuntime} {net : GoNet} {F L : Type}.
Context (NewLimiter : F -> Z -> L) (AllowN : L -> Z -> Z -> L * bool) (service : DaemonService S V).

(** The handlers of this service, and those of any other one. *)
Abbreviation rpc svc := (handleRPC (service := svc) NewLimiter AllowN).
Abbreviation download svc := (handleFileDownload (service := svc) NewLimiter AllowN).

(** C5: No call reaches the service unless the client may make it. A request to /rpc was let pass by the limiter and was a POST from an
    allowed origin or none, with the token the server requires (unless the server runs without one), its body was one JSON-RPC
    2.0 call of a supported version and nothing else, a node method came from this machine, and the state of the service is as it
    was or as the dispatched method leaves it; or the service plays no part: its state is unchanged, and any other service in its
    place gives the same answer and the same state. A request to /files/ was let pass by its limiter, was a GET of one name from an
    allowed origin or none with the token, and the service is asked for this attachment; or the service plays no part. A
    subscription is made only by a GET from an allowed origin or none with the token and a cursor that is not negative, when the
    stream limiter has room; what the handler does up to there leaves the service alone. *)
Theorem service_reached_only_when_admitted (getenv : string -> string) (cfg : ServerConfig) :
  (forall env r st, let out := rpc service getenv cfg env r st in
     (snd (Allow NewLimiter AllowN (ss_rpcLimiter st) (rpcRateLimitKey r (extractRPCToken r)) (re_rate env)) = true
      /\ exists req, admitted getenv cfg r req
          /\ (ss_service (fst out) = ss_service st
              \/ ss_service (fst out) = fst (dispatchRPC (service := service) (sv_groupsEnabled cfg) (rr_Method req) (rr_Params req) (ss_service st))))
     \/ (ss_service (fst out) = ss_service st /\ forall other : DaemonService S V, rpc other getenv cfg env r st = out))
  /\ (forall now r st, let out := download service getenv cfg now r st in
     (snd (Allow NewLimiter AllowN (ss_fileLimiter st) (rpcRateLimitKey r (extractRPCToken r)) now) = true
      /\ exists id, admitted_file getenv cfg r id
          /\ ss_service (fst out) = fst (call (DaemonService := service) (GetAttachment id) (ss_service st)))
     \/ (ss_service (fst out) = ss_service st /\ forall other : DaemonService S V, download other getenv cfg now r st = out))
  /\ (forall r (st : ServerState (S := S) (V := V) (F := F) (L := L)) client cursor,
     ss_service (fst (handleRPCStream getenv cfg r st)) = ss_service st
     /\ (snd (handleRPCStream getenv cfg r st) = Ok (client, cursor) ->
         admitted_stream getenv cfg r client cursor /\ snd (acquire client (ss_streams st)) = true)).
Proof.
  split; [|split; [|by split; [apply stream_keeps_service|apply stream_admitted]]].
  - intros env r st out. subst out. unfold handleRPC.
    destruct (applyCORS getenv cfg r) as [origin|] eqn:Ec; [|by right]. apply applyCORS_Ok in Ec.
    destruct (rq_Method r == "OPTIONS"); [by right|].
    destruct (Allow _ _ _ _ _) as [limiter []]; [|by right]. cbn [negb snd].
    destruct (authorized cfg r) eqn:Ea; [|by right]. cbn [negb].
    destruct (rq_Method r == "POST") eqn:Hpost; [apply bool_decide_eq_true in Hpost|by right]. cbn [negb].
    destruct (readRequest r) as [req|] eqn:Er; [|by right]. destruct (readRequest_Ok _ _ Er) as (H1 & H2 & H3 & H4).
    left. split; [done|]. exists req. split; [by constructor|].
    pose proof (respond_state (service := service) cfg env r req (with_rpcLimiter limiter st)) as Hs.
    by destruct (respond _ _ _ _ _) as [[st1 id] payload].
  - intros now r st out. subst out. unfold handleFileDownload.
    destruct (applyCORS getenv cfg r) as [origin|] eqn:Ec; [|by right]. apply applyCORS_Ok in Ec.
    destruct (rq_Method r == "OPTIONS"); [by right|].
    destruct (Allow _ _ _ _ _) as [limiter []]; [|by right]. cbn [negb snd].
    destruct (authorized cfg r) eqn:Ea; [|by right]. cbn [negb].
    destruct (rq_Method r == "GET") eqn:Hget; [apply bool_decide_eq_true in Hget|by right]. cbn [negb].
    set (id := TrimSpace _). destruct (_ || _) eqn:Eid; [by right|]. left. split; [done|]. exists id.
    apply orb_false_iff in Eid as [[E1 E2]%orb_false_iff E3]. apply bool_decide_eq_false in E1, E2. split; [by constructor|].
    cbn [ss_service with_fileLimiter].
    destruct (call (GetAttachment id) (ss_service st)) as [s [[[name mime] data]|e]]; [done|]. by destruct (downloadError e).
Qed.

End Reach.

(** ** A server to compute with, and the witnesses *)

Definition ex_methods : list string := ["group.delete"; "node.getPolicies"; "rpc.version"; "message.list"].

(** A body is the number of a method, and its params. *)
#[export] Instance exNet : GoNet := {
  SplitHostPort s := fst <$> Cut s ":"%char;
  loopbackIP s := s == "127.0.0.1";
  urlHostname s := Some (TrimPrefix s "http://");
  pathClean s := s;
  QueryEscape s := s;
  decodeRequest _ bs := match bs with
    | k :: params => match ex_methods !! Z.to_nat k with
                     | Some m => Ok (mkRpcRequest "2.0" [49] m params None, []) | None => Err false end
    | [] => Err false
    end;
  decodeEOF _ rest := bool_decide (rest = []);
  requestSum m p _ := m +:+ hexEncode p
}.

#[local] Existing Instance exRuntime.

Abbreviation ex_state := (ServerState (S := Z) (V := string) (F := Z) (L := Z)).
Definition ex_prod (name : string) : string :=
  if name == "AIM_RPC_TOKEN" then " secret " else if name == "AIM_GROUPS_ENABLED" then "on" else
  if name == "AIM_RPC_RATE_LIMIT_BURST" then "2" else if name == "AIM_RPC_STREAM_MAX_PER_CLIENT" then "1" else "".
Definition ex_new (getenv : string -> string) : result error (ServerConfig * ex_state) :=
  NewServerWithService (fun z => z <=? 0) (fun z => 0 <? z) Atoi (fun z => z) getenv (Ok [1; 2]) (Ok tt) true 0.
Definition ex_server : ServerConfig * ex_state :=
  match ex_new ex_prod with
  | Ok p => p
  | Err _ => (mkServerConfig false "" false false, mkServerState 0 None None (mkStreams 0 0 0 ∅) ∅)
  end.
Definition ex_request (token key : string) (method : Z) : Request :=
  mkRequest "POST" "" token "" key "" "10.0.0.9:4000" "/rpc" "" "" (method :: ex_args ["g"])%list.
Definition ex_renv : RequestEnv := mkRequestEnv 10 10 11 "11".
Definition ex_handle (r : Request) (st : ex_state) : ex_state * Reply string :=
  handleRPC ex_NewLimiter ex_AllowN ex_prod (fst ex_server) ex_renv r st.
Definition ex_answer (out : ex_state * Reply string) : Z * Z :=
  (ss_service (fst out), match hr_Payload (snd out) with
                         | HttpError code _ => code
                         | RpcReply r => match rs_Error r with Some e => re_Code e | None => 200 end
                         | _ => 0 end).

(** A call; the wrong token; a node method from elsewhere. *)
Example answers :
  (ex_answer (ex_handle (ex_request "secret" "" 0) (snd ex_server)),
   ex_answer (ex_handle (ex_request "guess" "" 0) (snd ex_server)),
   ex_answer (ex_handle (ex_request "secret" "" 1) (snd ex_server)))
  = ((1, 200), (0, 401), (0, -32084)).
Proof. vm_compute. reflexivity. Qed.

Definition ex_called : ex_state * Reply string := ex_handle (ex_request "secret" "k1" 0) (snd ex_server).

Lemma service_reached_only_when_admitted_witness :
  ss_service (fst ex_called) = 1
  /\ exists req, admitted ex_prod (fst ex_server) (ex_request "secret" "k1" 0) req /\ rr_Method req = "group.delete".
Proof.
  destruct (service_reached_only_when_admitted ex_NewLimiter ex_AllowN _ ex_prod (fst ex_server)) as [Hrpc _].
  assert (E : ss_service (fst ex_called) = 1) by (vm_compute; reflexivity). split; [exact E|].
  destruct (Hrpc ex_renv (ex_request "secret" "k1" 0) (snd ex_server)) as [(_ & req & Hreq & _)|[Hs _]].
  - exists req. split; [exact Hreq|]. destruct (ad_body _ _ _ _ Hreq) as (rest & H & _). vm_compute in H. injection H as <- _. reflexivity.
  - exfalso. vm_compute in Hs. discriminate Hs.
Defined.

Definition ex_req : rpcRequest := mkRpcRequest "2.0" [49] "group.delete" (ex_args ["g"]) None.
Definition ex_retry : rpcRequest := mkRpcRequest "2.0" [50] "group.delete" (ex_args ["g"]) None.
Definition ex_resp : rpcResponse string := mkRpcResponse [49] (Some (AnyMap [("deleted", AnyBool true)])) None.
(** Between the call and its retry: the key is used for another method, another key is used, a file is asked for. *)
Definition ex_between : list ServerCall :=
  [CallRPC (mkRequestEnv (2 * Second) 30 31 "") (ex_request "secret" "k1" 3);
   CallRPC (mkRequestEnv (4 * Second) 40 41 "") (ex_request "secret" "k2" 0); CallFile 50 (ex_request "secret" "" 0)].
(** A server with room for nine calls at once. *)
Definition ex_busy (name : string) : string := if name == "AIM_RPC_RATE_LIMIT_BURST" then "9" else ex_prod name.
Definition ex_busy_server : ServerConfig * ex_state := match ex_new ex_busy with Ok p => p | Err _ => ex_server end.
Definition ex_busy_handle (env : RequestEnv) : ex_state -> ex_state * Reply string :=
  handleRPC ex_NewLimiter ex_AllowN ex_busy (fst ex_busy_server) env (ex_request "secret" "k1" 0).
Definition ex_later : ex_state := fold_left (serveCall ex_NewLimiter ex_AllowN ex_busy (fst ex_busy_server)) ex_between (fst (ex_busy_handle ex_renv (snd ex_busy_server))).
Definition ex_late_env : RequestEnv := mkRequestEnv (5 * Minute) (5 * Minute) (5 * Minute) "".

Lemma retry_is_replayed_witness :
  ss_service ex_later = 2
  /\ hr_Payload (snd (ex_busy_handle ex_late_env ex_later))
     = RpcReply ex_resp
  /\ ss_service (fst (ex_busy_handle ex_late_env ex_later)) = 2.
Proof.
  assert (E : ss_service ex_later = 2) by (vm_compute; reflexivity). split; [exact E|].
  destruct (retry_is_replayed ex_NewLimiter ex_AllowN ex_busy (fst ex_busy_server) ex_renv ex_late_env (ex_request "secret" "k1" 0)
    (ex_request "secret" "k1" 0) ex_req ex_req (snd ex_busy_server) ex_between) as (resp & H1 & H2 & H3).
  - vm_compute. discriminate.
  - vm_compute. reflexivity.
  - apply Nat.ltb_lt. vm_compute. reflexivity.
  - vm_compute. reflexivity.
  - vm_compute. reflexivity.
  - repeat constructor; apply Z.leb_le; vm_compute; reflexivity.
  - vm_compute. reflexivity.
  - vm_compute. reflexivity.
  - reflexivity.
  - reflexivity.
  - apply Z.leb_le. vm_compute. reflexivity.
  - assert (Er : resp = ex_resp).
    { assert (Ef : hr_Payload (snd (ex_busy_handle ex_renv (snd ex_busy_server))) = RpcReply ex_resp) by (vm_compute; reflexivity).
      unfold ex_busy_handle in Ef. rewrite H1 in Ef. by injection Ef. }
    subst resp. split; [exact H2|]. exact (eq_trans H3 E).
Defined.

Definition ex_stream (st : ex_state) := handleRPCStream ex_prod (fst ex_server)
  (mkRequest "GET" "" "secret" "" "" "" "10.0.0.9:4000" "/rpc/stream" "" "3" []) st.

Lemma server_memory_bounded_witness :
  serving ex_NewLimiter ex_AllowN ex_prod (fst ex_server) (snd ex_server) (fst (ex_stream (snd ex_server))) ["token:secret"]
  /\ Z.of_nat (length ["token:secret"]) <= 128.
Proof.
  assert (H : serving ex_NewLimiter ex_AllowN ex_prod (fst ex_server) (snd ex_server) (fst (ex_stream (snd ex_server))) ["token:secret"])
    by exact (sv_stream ex_NewLimiter ex_AllowN ex_prod (fst ex_server) (snd ex_server)
      (mkRequest "GET" "" "secret" "" "" "" "10.0.0.9:4000" "/rpc/stream" "" "3" []) (snd ex_server) [] (sv_start _ _ _ _ _)).
  split; [exact H|].
  destruct (server_memory_bounded ex_NewLimiter ex_AllowN ex_prod (fst ex_server) (snd ex_server) (fst (ex_stream (snd ex_server)))
    ["token:secret"]) as (_ & H2 & _).
  - vm_compute. reflexivity.
  - vm_compute. reflexivity.
  - vm_compute. reflexivity.
  - exact H.
  - vm_compute in H2. vm_compute. exact H2.
Defined.

Lemma open_server_only_in_development_witness :
  isNonProdEnv (fun name => if name == "AIM_ENV" then " Dev " else "") = true.
Proof.
  set (env := fun name => if name == "AIM_ENV" then " Dev " else "").
  destruct (ex_new env) as [[cfg st]|e] eqn:E; [|vm_compute in E; discriminate].
  apply (open_server_only_in_development (fun z => z <=? 0) (fun z => 0 <? z) Atoi (fun z => z) env (Ok [1; 2]) (Ok tt) true 0 cfg st E).
  left. vm_compute in E. injection E as <- _. reflexivity.
Defined.

(** The third request with one token is refused, and so would be a third guess of it; but the key of the limiter is the token
    that is offered, so that each other guess is limited on its own. *)
Example guesses_are_not_limited :
  let run token n := snd (Nat.iter n (fun acc => let '(st, l) := acc : ex_state * list Z in
                            let out := ex_handle (ex_request (token (length l)) "" 0) st in
                            (fst out, (l ++ [snd (ex_answer out)])%list)) (snd ex_server, [])) in
  run (fun _ => "guess") 4%nat = [401; 401; 429; 429]
  /\ run (fun n => "guess" +:+ hexEncode [Z.of_nat n]) 4%nat = [401; 401; 401; 401].
Proof. vm_compute. split; reflexivity. Qed.

(** Two requests with one key that arrive together: both look the key up before either answer is kept, and both
    are executed. *)
Example concurrent_retries_both_execute :
  let st := snd ex_server in
  let key := rpcIdempotencyKey "k1" "secret" in
  let '(cache, first) := cacheGet key (rpcRequestHash ex_req) 10 (ss_idempotency st) in
  let '(cache, second) := cacheGet key (rpcRequestHash ex_retry) 10 cache in
  (first, second) = (CacheMiss, CacheMiss)
  /\ let '(st1, _, _) := execute (fst ex_server) ex_renv (ex_request "secret" "k1" 0) ex_req key (with_idempotency cache st) in
     let '(st2, _, _) := execute (fst ex_server) ex_renv (ex_request "secret" "k1" 0) ex_retry key st1 in
     ss_service st2 = 2.
Proof. vm_compute. split; reflexivity. Qed.

(** Without a service the answer has no identifier, so the client cannot tell what it answers. *)
Example no_service_no_identifier :
  let cfg := mkServerConfig false "secret" true true in
  (execute cfg ex_renv (ex_request "secret" "" 0) ex_req "" (snd ex_server)).2
  = RpcReply (mkRpcResponse [] None (Some (mkRpcError (-32099) "service is not initialized"))).
Proof. vm_compute. reflexivity. Qed.
