(* ===== verification/Notifications.v ===== *)
(** * Notifications to clients

    Models the hub of internal/platform/runtime/runtime.go: events with sequence numbers, the history
    that is replayed to a new subscriber, and a buffered channel for each one. Channels
    live in the hub by the number they were made with, since the hub and its reader share them. *)
From S2P Require Import Prelude Identity.
From stdpp Require Import base gmap strings list sets option list_numbers.
From Stdlib Require Import ZArith Lia.
Open Scope string_scope.
Open Scope Z_scope.
Open Scope go_scope.
Local Open Scope list_scope.

(** The order of a range over a map with integer keys. *)
Class IntRange := {
  rangeInts : forall {A : Type}, gmap Z A -> list (Z * A);
  rangeInts_perm : forall A (m : gmap Z A), rangeInts m ≡ₚ map_to_list m
}.

Section Hub.
(** The payload of an event, and the clock of its creation. *)
Context {P : Type} {ir : IntRange}.

Record NotificationEvent := mkEvent { ne_Seq : Z; ne_Method : string; ne_Payload : P; ne_Timestamp : Z }.

Record channel := mkChannel { ch_buf : list NotificationEvent; ch_closed : bool }.

Record NotificationHub := mkHub {
  nh_nextSeq : Z; nh_limit : Z; nh_history : list NotificationEvent; nh_subs : gmap Z nat; nh_nextSub : Z;
  nh_channels : list channel
}.

Definition NewNotificationHub (limit : Z) : NotificationHub :=
  mkHub 0 (if limit <? 1 then 1 else limit) [] ∅ 0 [].

(** The size of a subscriber's buffer. *)
Definition subscriberBuffer : nat := 128.

Definition with_subs (s : gmap Z nat) (chans : list channel) (h : NotificationHub) : NotificationHub :=
  mkHub (nh_nextSeq h) (nh_limit h) (nh_history h) s (nh_nextSub h) chans.

(** [close(ch); delete(h.subs, id)]: closing a closed channel panics. *)
Definition closeSub (id : Z) (c : nat) (h : NotificationHub) : panics NotificationHub :=
  match nh_channels h !! c with
  | Some (mkChannel buf false) =>
      Returns (with_subs (delete id (nh_subs h)) (<[c := mkChannel buf true]> (nh_channels h)) h)
  | _ => Panics
  end.

(** One turn of the loop of [Publish]: sending on a closed channel panics. *)
Definition trySend (event : NotificationEvent) (id : Z) (c : nat) (h : NotificationHub) : panics NotificationHub :=
  match nh_channels h !! c with
  | Some (mkChannel buf false) =>
      if (length buf <? subscriberBuffer)%nat
      then Returns (with_subs (nh_subs h) (<[c := mkChannel (buf ++ [event]) false]> (nh_channels h)) h)
      else closeSub id c h
  | _ => Panics
  end.

(** The loop over the subscribers. *)
Fixpoint forSubs (body : Z -> nat -> NotificationHub -> panics NotificationHub) (l : list (Z * nat))
    (h : NotificationHub) : panics NotificationHub :=
  match l with
  | [] => Returns h
  | (id, c) :: l => match body id c h with Panics => Panics | Returns h => forSubs body l h end
  end.

Definition Publish (method : string) (payload : P) (now : Z) (h : NotificationHub)
    : panics (NotificationHub * NotificationEvent) :=
  let nextSeq := s64 (nh_nextSeq h + 1) in
  let event := mkEvent nextSeq method payload now in
  let history := (nh_history h ++ [event])%list in
  let n := Z.of_nat (length history) in
  let history := if nh_limit h <? n then drop (Z.to_nat (n - nh_limit h)) history else history in
  let h := mkHub nextSeq (nh_limit h) history (nh_subs h) (nh_nextSub h) (nh_channels h) in
  match forSubs (trySend event) (rangeInts (nh_subs h)) h with
  | Panics => Panics
  | Returns h => Returns (h, event)
  end.

(** [Subscribe]: what is replayed, the identifier its [cancel] closes over, the channel. *)
Definition Subscribe (fromSeq : Z) (h : NotificationHub) : NotificationHub * (list NotificationEvent * Z * nat) :=
  let replay := List.filter (fun e => fromSeq <? ne_Seq e) (nh_history h) in
  let id := nh_nextSub h in
  let c := length (nh_channels h) in
  (mkHub (nh_nextSeq h) (nh_limit h) (nh_history h) (<[id := c]> (nh_subs h)) (s64 (nh_nextSub h + 1))
     (nh_channels h ++ [mkChannel [] false]), (replay, id, c)).

(** The function [Subscribe] returns. *)
Definition cancel (id : Z) (h : NotificationHub) : panics NotificationHub :=
  match nh_subs h !! id with Some c => closeSub id c h | None => Returns h end.

Definition BacklogSize (h : NotificationHub) : Z := Z.of_nat (length (nh_history h)).

Definition Reset (h : NotificationHub) : panics NotificationHub :=
  match forSubs closeSub (rangeInts (nh_subs h)) h with
  | Panics => Panics
  | Returns h => Returns (mkHub 0 (nh_limit h) [] (nh_subs h) 0 (nh_channels h))
  end.

(** A receive on a channel: an event, the end, or nothing yet. *)
Inductive received := Got (e : NotificationEvent) | Closed | Waits.

Definition receive (c : nat) (h : NotificationHub) : NotificationHub * received :=
  match nh_channels h !! c with
  | Some (mkChannel (e :: buf) closed) =>
      (with_subs (nh_subs h) (<[c := mkChannel buf closed]> (nh_channels h)) h, Got e)
  | Some (mkChannel [] true) => (h, Closed)
  | _ => (h, Waits)
  end.

(** *** Runs *)

Inductive hub_op :=
| OpPublish (method : string) (payload : P) (now : Z)
| OpSubscribe (fromSeq : Z)
| OpCancel (id : Z)
| OpReset
| OpReceive (c : nat).

(** What a step shows: the event published, the event taken from a channel. *)
Inductive hub_out := Published (e : NotificationEvent) | Taken (c : nat) (e : NotificationEvent) | Quiet.

Definition hub_step (op : hub_op) (h : NotificationHub) : panics (NotificationHub * hub_out) :=
  match op with
  | OpPublish method payload now =>
      match Publish method payload now h with Returns (h, e) => Returns (h, Published e) | Panics => Panics end
  | OpSubscribe fromSeq => Returns (fst (Subscribe fromSeq h), Quiet)
  | OpCancel id => match cancel id h with Returns h => Returns (h, Quiet) | Panics => Panics end
  | OpReset => match Reset h with Returns h => Returns (h, Quiet) | Panics => Panics end
  | OpReceive c => let '(h, r) := receive c h in Returns (h, match r with Got e => Taken c e | _ => Quiet end)
  end.

Fixpoint run_hub (ops : list hub_op) (h : NotificationHub) : panics (NotificationHub * list hub_out) :=
  match ops with
  | [] => Returns (h, [])
  | op :: ops =>
      match hub_step op h with
      | Panics => Panics
      | Returns (h, o) => match run_hub ops h with Returns (h, os) => Returns (h, o :: os) | Panics => Panics end
      end
  end.

Definition published (outs : list hub_out) : list NotificationEvent :=
  omap (fun o => match o with Published e => Some e | _ => None end) outs.
Definition taken (c : nat) (outs : list hub_out) : list NotificationEvent :=
  omap (fun o => match o with Taken c' e => if (c' =? c)%nat then Some e else None | _ => None end) outs.

(** ** Subscribers and their channels *)

(** The subscribed channels are exactly the open ones, each under one identifier. *)
Record live (h : NotificationHub) : Prop := {
  live_open id c : nh_subs h !! id = Some c -> exists buf, nh_channels h !! c = Some (mkChannel buf false);
  live_sub c buf : nh_channels h !! c = Some (mkChannel buf false) -> exists id, nh_subs h !! id = Some c;
  live_inj i j c : nh_subs h !! i = Some c -> nh_subs h !! j = Some c -> i = j
}.

(** What the loops leave alone. *)
Definition sameRest (h h' : NotificationHub) : Prop :=
  nh_nextSeq h' = nh_nextSeq h /\ nh_limit h' = nh_limit h /\ nh_history h' = nh_history h /\ nh_nextSub h' = nh_nextSub h.

(** A step of a loop: the channel becomes [f] of it, and leaves the map if it is closed now. *)
Definition touches (f : channel -> channel) (body : Z -> nat -> NotificationHub -> panics NotificationHub) : Prop :=
  forall id c buf h, live h -> nh_subs h !! id = Some c -> nh_channels h !! c = Some (mkChannel buf false) ->
  exists h', body id c h = Returns h' /\ live h' /\ sameRest h h'
    /\ nh_channels h' = <[c := f (mkChannel buf false)]> (nh_channels h)
    /\ nh_subs h' = (if ch_closed (f (mkChannel buf false)) then delete id (nh_subs h) else nh_subs h).

Definition shut (ch : channel) : channel := mkChannel (ch_buf ch) true.
Definition push (event : NotificationEvent) (ch : channel) : channel :=
  if (length (ch_buf ch) <? subscriberBuffer)%nat then mkChannel (ch_buf ch ++ [event]) (ch_closed ch) else shut ch.

Lemma live_close h id c ch :
  live h -> nh_subs h !! id = Some c -> is_Some (nh_channels h !! c) -> ch_closed ch = true ->
  live (with_subs (delete id (nh_subs h)) (<[c := ch]> (nh_channels h)) h).
Proof.
  intros [Ho Hs Hi] Hid [ch0 Hc] Hcl. split; cbn [nh_subs nh_channels with_subs].
  - intros id' c' H. apply lookup_delete_Some in H as [Hne H]. destruct (Ho _ _ H) as [buf Hb]. exists buf.
    rewrite list_lookup_insert_ne; [done|]. intros ->. by apply Hne, (Hi _ _ c').
  - intros c' buf H. destruct (decide (c' = c)) as [->|Hne].
    { apply lookup_lt_Some in Hc. rewrite list_lookup_insert_eq in H by done. injection H as ->. done. }
    rewrite list_lookup_insert_ne in H by done. destruct (Hs _ _ H) as [id' Hid']. exists id'.
    rewrite lookup_delete_ne; [done|]. intros <-. congruence.
  - intros i j c'. rewrite !lookup_delete_Some. intros [_ H1] [_ H2]. by apply (Hi _ _ c').
Qed.

Lemma live_keep h c buf buf' :
  live h -> nh_channels h !! c = Some (mkChannel buf false) ->
  live (with_subs (nh_subs h) (<[c := mkChannel buf' false]> (nh_channels h)) h).
Proof.
  intros [Ho Hs Hi] Hc. pose proof (lookup_lt_Some _ _ _ Hc) as Hlt. split; cbn [nh_subs nh_channels with_subs]; [| |done].
  - intros id' c' H. destruct (decide (c' = c)) as [->|Hne]; [exists buf'; by rewrite list_lookup_insert_eq|].
    rewrite list_lookup_insert_ne by done. eauto.
  - intros c' b H. destruct (decide (c' = c)) as [->|Hne]; [eauto|]. rewrite list_lookup_insert_ne in H by done. eauto.
Qed.

Lemma closeSub_touches : touches shut closeSub.
Proof.
  intros id c buf h Hl Hid Hc. unfold closeSub. rewrite Hc. eexists. split; [done|].
  split; [by apply live_close|]. by repeat split.
Qed.

Lemma trySend_touches event : touches (push event) (trySend event).
Proof.
  intros id c buf h Hl Hid Hc. unfold trySend, push. rewrite Hc. cbn [ch_buf].
  destruct (_ <? _)%nat; [|by apply closeSub_touches].
  eexists. split; [done|]. split; [by eapply live_keep|]. by repeat split.
Qed.

Lemma forSubs_spec f body l h :
  touches f body -> live h -> NoDup l.*1 -> (forall id c, (id, c) ∈ l -> nh_subs h !! id = Some c) ->
  exists h', forSubs body l h = Returns h' /\ live h' /\ sameRest h h' /\ nh_subs h' ⊆ nh_subs h
    /\ length (nh_channels h') = length (nh_channels h)
    /\ forall c, nh_channels h' !! c = (if decide (c ∈ l.*2) then f <$> nh_channels h !! c else nh_channels h !! c).
Proof.
  intros Hf. revert h. induction l as [|[id c] l IH]; intros h Hl Hnd Hin; cbn [forSubs fmap list_fmap fst snd].
  { exists h. by split_and!. }
  apply NoDup_cons in Hnd as [Hid Hnd]. assert (Hs : nh_subs h !! id = Some c) by (apply Hin; left).
  destruct (live_open _ Hl _ _ Hs) as [buf Hc].
  destruct (Hf id c buf h Hl Hs Hc) as (h1 & -> & Hl1 & Hr1 & Hch1 & Hsub1).
  assert (Hout : c ∉ l.*2).
  { intros ([i c'] & Hc' & Hi)%list_elem_of_fmap. cbn in Hc'. subst c'. assert (i = id) as ->.
    { apply (live_inj _ Hl _ _ c); [apply Hin; by right|done]. }
    apply Hid, list_elem_of_fmap. by exists (id, c). }
  destruct (IH h1 Hl1 Hnd) as (h2 & E & Hl2 & Hr2 & Hsub2 & Hlen2 & Hch2).
  { intros i c' Hi. rewrite Hsub1. destruct (ch_closed _); [rewrite lookup_delete_ne|]; try (apply Hin; by right).
    intros ->. apply Hid, list_elem_of_fmap. by exists (i, c'). }
  exists h2. split; [done|]. split; [done|]. destruct Hr1 as (A1 & B1 & C1 & D1), Hr2 as (A2 & B2 & C2 & D2).
  split; [repeat split; congruence|]. split.
  { etrans; [exact Hsub2|]. rewrite Hsub1. destruct (ch_closed _); [apply delete_subseteq|done]. }
  split; [rewrite Hlen2, Hch1; apply length_insert|]. intros c'. rewrite Hch2, Hch1.
  pose proof (lookup_lt_Some _ _ _ Hc) as Hlt. destruct (decide (c' = c)) as [->|Hne].
  - rewrite (decide_False (P := c ∈ l.*2)) by done. rewrite list_lookup_insert_eq by done.
    rewrite decide_True by left. by rewrite Hc.
  - rewrite list_lookup_insert_ne by done.
    destruct (decide (c' ∈ l.*2)), (decide (c' ∈ c :: l.*2)) as [H|H]; try done; exfalso; [apply H; by right|].
    by apply elem_of_cons in H as [?|?].
Qed.

Lemma forSubs_all f body h :
  touches f body -> live h ->
  exists h', forSubs body (rangeInts (nh_subs h)) h = Returns h' /\ live h' /\ sameRest h h' /\ nh_subs h' ⊆ nh_subs h
    /\ length (nh_channels h') = length (nh_channels h)
    /\ forall c ch, nh_channels h !! c = Some ch -> nh_channels h' !! c = Some (if ch_closed ch then ch else f ch).
Proof.
  intros Hf Hl. destruct (forSubs_spec f body (rangeInts (nh_subs h)) h Hf Hl) as (h' & E & Hl' & Hr & Hs & Hn & Hc).
  { rewrite rangeInts_perm. apply NoDup_fst_map_to_list. }
  { intros id c. by rewrite rangeInts_perm, elem_of_map_to_list. }
  exists h'. split_and!; try done. intros c [buf []] Hch; rewrite Hc, Hch; cbn [ch_closed].
  - rewrite decide_False; [done|]. intros ([id c'] & Hc' & Hin)%list_elem_of_fmap. cbn in Hc'. subst c'.
    rewrite rangeInts_perm, elem_of_map_to_list in Hin. destruct (live_open _ Hl _ _ Hin) as [b Hb]. congruence.
  - rewrite decide_True; [done|]. destruct (live_sub _ Hl _ _ Hch) as [id Hid]. apply list_elem_of_fmap.
    exists (id, c). split; [done|]. by rewrite rangeInts_perm, elem_of_map_to_list.
Qed.

(** ** What every run keeps *)

Lemma seqZ_snoc m n : 0 <= n -> seqZ m (n + 1) = (seqZ m n ++ [m + n])%list.
Proof. intros H. rewrite seqZ_app by lia. by rewrite (seqZ_cons (m + n)) by lia. Qed.

Lemma drop_seqZ k m n : 0 <= k <= n -> drop (Z.to_nat k) (seqZ m n) = seqZ (m + k) (n - k).
Proof.
  intros H. replace n with (k + (n - k)) at 1 by lia. rewrite seqZ_app by lia. apply drop_app_length'.
  rewrite length_seqZ. lia.
Qed.

Lemma take_seqZ k m n : take k (seqZ m (Z.of_nat n)) = seqZ m (Z.of_nat (k `min` n)).
Proof. unfold seqZ. by rewrite <- fmap_take, take_seq, !Nat2Z.id. Qed.

(** The limit a hub is made with. *)
Context (limit : Z).

(** [n] bounds the number of steps so far. *)
Record hub_ok (n : Z) (h : NotificationHub) : Prop := {
  ho_live : live h;
  ho_buf c ch : nh_channels h !! c = Some ch -> (length (ch_buf ch) <= subscriberBuffer)%nat;
  ho_ids id c : nh_subs h !! id = Some c -> 0 <= id < nh_nextSub h;
  ho_count : 0 <= nh_nextSeq h <= n /\ 0 <= nh_nextSub h <= n;
  ho_limit : nh_limit h = Z.max 1 limit;
  ho_len : Z.of_nat (length (nh_history h)) = Z.min (nh_limit h) (nh_nextSeq h);
  ho_hist : ne_Seq <$> nh_history h
            = seqZ (nh_nextSeq h - Z.of_nat (length (nh_history h)) + 1) (Z.of_nat (length (nh_history h)))
}.

Lemma new_hub_ok : hub_ok 0 (NewNotificationHub limit).
Proof.
  split; cbn; try done; try lia.
  - destruct (Z.ltb_spec limit 1); lia.
  - destruct (Z.ltb_spec limit 1); lia.
Qed.

Lemma push_buf event ch :
  (length (ch_buf ch) <= subscriberBuffer)%nat -> (length (ch_buf (push event ch)) <= subscriberBuffer)%nat.
Proof.
  unfold push. destruct (Nat.ltb_spec (length (ch_buf ch)) subscriberBuffer); [|done].
  intros _. cbn. rewrite length_app. cbn. lia.
Qed.

Lemma loop_ok f body n h h0 :
  touches f body -> (forall ch, (length (ch_buf ch) <= subscriberBuffer)%nat -> (length (ch_buf (f ch)) <= subscriberBuffer)%nat) ->
  hub_ok n h0 -> live h -> nh_subs h = nh_subs h0 -> nh_channels h = nh_channels h0 ->
  exists h', forSubs body (rangeInts (nh_subs h)) h = Returns h' /\ live h' /\ sameRest h h' /\ nh_subs h' ⊆ nh_subs h
    /\ (forall c ch, nh_channels h !! c = Some ch -> nh_channels h' !! c = Some (if ch_closed ch then ch else f ch))
    /\ (forall c ch, nh_channels h' !! c = Some ch -> (length (ch_buf ch) <= subscriberBuffer)%nat).
Proof.
  intros Hf Hb Hok Hl Es Ec. destruct (forSubs_all f body h Hf Hl) as (h' & E & Hl' & Hr & Hs & Hn & Hc).
  exists h'. split_and!; try done. intros c ch Hch. assert (Hlt : (c < length (nh_channels h))%nat).
  { rewrite <- Hn. by eapply lookup_lt_Some. }
  destruct (lookup_lt_is_Some_2 _ _ Hlt) as [ch0 H0]. rewrite (Hc _ _ H0) in Hch. injection Hch as <-.
  rewrite Ec in H0. pose proof (ho_buf _ _ Hok _ _ H0). destruct (ch_closed ch0); auto.
Qed.

Lemma hub_ok_mono n n' h : n <= n' -> hub_ok n h -> hub_ok n' h.
Proof. intros H [? ? ? ? ? ? ?]. split; try done. lia. Qed.

Lemma Publish_ok n method payload now h :
  hub_ok n h -> n + 1 < 2 ^ 63 ->
  exists h', Publish method payload now h = Returns (h', mkEvent (nh_nextSeq h + 1) method payload now)
    /\ hub_ok (n + 1) h' /\ (nh_nextSeq h' = nh_nextSeq h + 1 /\ nh_nextSub h' = nh_nextSub h) /\ nh_subs h' ⊆ nh_subs h
    /\ (forall c ch, nh_channels h !! c = Some ch ->
          nh_channels h' !! c = Some (if ch_closed ch then ch else push (mkEvent (nh_nextSeq h + 1) method payload now) ch)).
Proof.
  intros Hok Hn. pose proof (ho_count _ _ Hok) as [Hseq Hsub]. unfold Publish.
  rewrite (s64_small (nh_nextSeq h + 1)) by lia. set (event := mkEvent _ _ _ _).
  set (hist := if _ <? _ then _ else _). set (h1 := mkHub (nh_nextSeq h + 1) _ hist _ _ _).
  assert (Hlen : Z.of_nat (length hist) = Z.min (nh_limit h) (nh_nextSeq h + 1)
                 /\ ne_Seq <$> hist = seqZ (nh_nextSeq h + 1 - Z.of_nat (length hist) + 1) (Z.of_nat (length hist))).
  { pose proof (ho_len _ _ Hok) as Hl. pose proof (ho_hist _ _ Hok) as Hh. pose proof (ho_limit _ _ Hok) as Hlim.
    assert (Ha : ne_Seq <$> (nh_history h ++ [event]) = seqZ (nh_nextSeq h - Z.of_nat (length (nh_history h)) + 1)
                   (Z.of_nat (length (nh_history h)) + 1)).
    { rewrite fmap_app, Hh, seqZ_snoc by lia. f_equal. cbn. f_equal. lia. }
    unfold hist. rewrite length_app, Nat2Z.inj_add. change (Z.of_nat (length [event])) with 1.
    destruct (Z.ltb_spec (nh_limit h) (Z.of_nat (length (nh_history h)) + 1)) as [Hlt|Hge].
    - rewrite length_drop, length_app. cbn [length]. split; [lia|]. rewrite fmap_drop, Ha, drop_seqZ by lia. f_equal; lia.
    - rewrite length_app. cbn [length]. split; [lia|]. rewrite Ha. f_equal; lia. }
  assert (Hl1 : live h1) by (destruct (ho_live _ _ Hok); by split).
  destruct (loop_ok (push event) (trySend event) n h1 h (trySend_touches event) (push_buf event) Hok Hl1 eq_refl eq_refl)
    as (h' & E & Hl' & (R1 & R2 & R3 & R4) & Hs & Hc & Hb).
  rewrite E. exists h'. split; [done|]. split_and!; [|done..].
  split; [done|done| | | | |].
  - intros id c Hid. rewrite R4. apply (ho_ids _ _ Hok _ c). by eapply lookup_weaken.
  - rewrite R1, R4. cbn. lia.
  - rewrite R2. apply (ho_limit _ _ Hok).
  - rewrite R1, R2, R3. apply Hlen.
  - rewrite R1, R3. apply Hlen.
Qed.

Lemma with_subs_ok n subs chans h :
  hub_ok n h -> live (with_subs subs chans h) -> subs ⊆ nh_subs h ->
  (forall c ch, chans !! c = Some ch -> (length (ch_buf ch) <= subscriberBuffer)%nat) ->
  hub_ok n (with_subs subs chans h).
Proof.
  intros [? ? Hid ? ? ? ?] Hl Hs Hb. split; try done. intros id c H. apply (Hid id c). by eapply lookup_weaken.
Qed.

Lemma insert_buf (chans : list channel) c ch :
  (forall i x, chans !! i = Some x -> (length (ch_buf x) <= subscriberBuffer)%nat) ->
  (length (ch_buf ch) <= subscriberBuffer)%nat ->
  forall i x, <[c := ch]> chans !! i = Some x -> (length (ch_buf x) <= subscriberBuffer)%nat.
Proof. intros H Hc i x [(<- & <- & _)|[_ Hx]]%list_lookup_insert_Some; [done|by eapply H]. Qed.

Lemma cancel_ok n id h :
  hub_ok n h -> exists h', cancel id h = Returns h' /\ hub_ok n h' /\ nh_nextSeq h' = nh_nextSeq h
    /\ nh_subs h' ⊆ nh_subs h
    /\ forall c ch, nh_channels h !! c = Some ch ->
         nh_channels h' !! c = Some (if decide (nh_subs h !! id = Some c) then shut ch else ch).
Proof.
  intros Hok. unfold cancel. destruct (nh_subs h !! id) as [c|] eqn:Hid.
  2: { exists h. split_and!; try done. }
  destruct (live_open _ (ho_live _ _ Hok) _ _ Hid) as [buf Hc].
  destruct (closeSub_touches id c buf h (ho_live _ _ Hok) Hid Hc) as (h' & E & Hl & _). exists h'. split; [done|].
  revert E Hl. unfold closeSub. rewrite Hc. intros [= <-] Hl. split_and!; try done.
  - apply with_subs_ok; [done|done|apply delete_subseteq|]. apply insert_buf; [apply Hok|]. apply (ho_buf _ _ Hok _ _ Hc).
  - apply delete_subseteq.
  - cbn. intros c' ch Hch. destruct (decide (c' = c)) as [->|Hne].
    + rewrite list_lookup_insert_eq by (by eapply lookup_lt_Some). rewrite decide_True by done. rewrite Hc in Hch.
      by injection Hch as <-.
    + rewrite list_lookup_insert_ne by done. rewrite decide_False; [done|]. intros [= ->]. done.
Qed.

Lemma Reset_ok n h : hub_ok n h -> exists h', Reset h = Returns h' /\ hub_ok n h'
  /\ forall c ch, nh_channels h !! c = Some ch -> nh_channels h' !! c = Some (if ch_closed ch then ch else shut ch).
Proof.
  intros Hok. unfold Reset.
  destruct (loop_ok shut closeSub n h h closeSub_touches ltac:(done) Hok (ho_live _ _ Hok) eq_refl eq_refl)
    as (h' & -> & Hl & (R1 & R2 & R3 & R4) & Hs & Hc & Hb).
  eexists. split; [done|]. split; [|exact Hc]. pose proof (ho_count _ _ Hok). pose proof (ho_limit _ _ Hok).
  split; cbn; try done; try lia.
  - destruct Hl; by split.
  - intros id c Hid. destruct (live_open _ Hl _ _ Hid) as [buf Hbuf].
    destruct (live_open _ (ho_live _ _ Hok) id c) as [b Hb']; [by eapply lookup_weaken|].
    rewrite (Hc _ _ Hb') in Hbuf. done.
Qed.

Lemma Subscribe_ok n from h :
  hub_ok n h -> n + 1 < 2 ^ 63 -> hub_ok (n + 1) (fst (Subscribe from h)).
Proof.
  intros Hok Hn. pose proof (ho_count _ _ Hok) as [Hq Hs]. pose proof (ho_live _ _ Hok) as [Ho Hsub Hi].
  unfold Subscribe. cbn [fst]. rewrite s64_small by lia.
  assert (Hfresh : nh_subs h !! nh_nextSub h = None).
  { destruct (nh_subs h !! nh_nextSub h) eqn:E; [|done]. apply (ho_ids _ _ Hok) in E. lia. }
  split; cbn [nh_subs nh_channels nh_nextSub nh_nextSeq nh_limit nh_history].
  - split; cbn [nh_subs nh_channels].
    + intros id c [(<- & <-)|[Hne H]]%lookup_insert_Some.
      * exists []. rewrite lookup_app_r, Nat.sub_diag by done. done.
      * destruct (Ho _ _ H) as [buf Hb]. exists buf. by apply lookup_app_l_Some.
    + intros c buf H. apply lookup_app_Some in H as [H|[Hc H]].
      * destruct (Hsub _ _ H) as [id Hid]. exists id. rewrite lookup_insert_ne; [done|]. intros <-. congruence.
      * apply list_lookup_singleton_Some in H as [H0 _]. exists (nh_nextSub h). rewrite lookup_insert_eq.
        f_equal. lia.
    + intros i j c. rewrite !lookup_insert_Some. intros [(<- & Hc)|[Hne H1]] [(<- & Hc')|[Hne' H2]].
      * done.
      * apply Ho in H2 as [b H2]. apply lookup_lt_Some in H2. lia.
      * apply Ho in H1 as [b H1]. apply lookup_lt_Some in H1. lia.
      * by apply (Hi _ _ c).
  - intros c ch [H|[_ H]]%lookup_app_Some; [by apply (ho_buf _ _ Hok _ _ H)|].
    apply list_lookup_singleton_Some in H as [_ <-]. cbn. lia.
  - intros id c [(<- & _)|[_ H]]%lookup_insert_Some; [lia|]. apply (ho_ids _ _ Hok) in H. lia.
  - lia.
  - apply (ho_limit _ _ Hok).
  - apply (ho_len _ _ Hok).
  - apply (ho_hist _ _ Hok).
Qed.

Lemma receive_ok n c h : hub_ok n h -> hub_ok n (fst (receive c h)).
Proof.
  intros Hok. unfold receive. destruct (nh_channels h !! c) as [[[|e buf] closed]|] eqn:Hc; [by destruct closed| |done].
  cbn [fst]. pose proof (ho_buf _ _ Hok _ _ Hc) as Hb. cbn [ch_buf length] in Hb. apply with_subs_ok; [done| |done|].
  - destruct closed; [|by eapply live_keep; [apply Hok|]]. destruct (ho_live _ _ Hok) as [Ho Hs Hi].
    assert (Hne : forall c' b, nh_channels h !! c' = Some (mkChannel b false) -> c' <> c) by (intros c' b H ->; congruence).
    split; cbn [nh_subs nh_channels with_subs]; [| |done].
    + intros id c' H. destruct (Ho _ _ H) as [b Hb']. exists b. by rewrite list_lookup_insert_ne by (intros ->; by eapply Hne).
    + intros c' b [(<- & [=] & _)|[_ H]]%list_lookup_insert_Some. eauto.
  - apply insert_buf; [apply Hok|]. cbn [ch_buf]. lia.
Qed.

Lemma hub_step_ok n op h :
  hub_ok n h -> n + 1 < 2 ^ 63 -> exists h' o, hub_step op h = Returns (h', o) /\ hub_ok (n + 1) h'.
Proof.
  intros Hok Hn. assert (Hm : n <= n + 1) by lia. destruct op as [method payload now|from|id| |c]; cbn [hub_step].
  - destruct (Publish_ok n method payload now h Hok Hn) as (h' & -> & Hok' & _). by eexists _, _.
  - eexists _, _. split; [done|]. by apply Subscribe_ok.
  - destruct (cancel_ok n id h Hok) as (h' & -> & Hok' & _). eexists _, _. split; [done|]. by eapply hub_ok_mono.
  - destruct (Reset_ok n h Hok) as (h' & -> & Hok' & _). eexists _, _. split; [done|]. by eapply hub_ok_mono.
  - pose proof (receive_ok n c h Hok) as Hr. destruct (receive c h) as [h' r]. eexists _, _. split; [done|].
    by eapply hub_ok_mono.
Qed.

Lemma run_hub_ok n ops h :
  hub_ok n h -> n + Z.of_nat (length ops) < 2 ^ 63 ->
  exists h' outs, run_hub ops h = Returns (h', outs) /\ hub_ok (n + Z.of_nat (length ops)) h'.
Proof.
  revert n h. induction ops as [|op ops IH]; intros n h Hok Hn; cbn [run_hub length] in *.
  { exists h, []. split; [done|]. eapply hub_ok_mono; [|done]. lia. }
  destruct (hub_step_ok n op h Hok) as (h1 & o & -> & Hok1); [lia|].
  destruct (IH (n + 1) h1 Hok1) as (h2 & outs & -> & Hok2); [lia|]. exists h2, (o :: outs). split; [done|].
  eapply hub_ok_mono; [|done]. lia.
Qed.

(** *** One subscriber *)

(** What can close the channel [ch] of the subscriber [id]. *)
Definition closes (op : hub_op) (id : Z) (ch : channel) : Prop :=
  op = OpReset \/ op = OpCancel id
  \/ (exists method payload now, op = OpPublish method payload now) /\ length (ch_buf ch) = subscriberBuffer.

(** What a step leaves of an open channel: what was published is in it, or it is closed. *)
Definition follows (op : hub_op) (id : Z) (c : nat) (h h' : NotificationHub) (o : hub_out) (ch ch' : channel) : Prop :=
  (ch_closed ch' = false /\ nh_subs h' !! id = Some c /\ taken c [o] ++ ch_buf ch' = ch_buf ch ++ published [o]
   /\ nh_nextSeq h' = nh_nextSeq h + Z.of_nat (length (published [o]))
   /\ ne_Seq <$> published [o] = seqZ (nh_nextSeq h + 1) (Z.of_nat (length (published [o]))))
  \/ (ch' = shut ch /\ taken c [o] = [] /\ closes op id ch).

Lemma follows_same op id c h h' ch :
  ch_closed ch = false -> nh_subs h' !! id = Some c -> nh_nextSeq h' = nh_nextSeq h -> follows op id c h h' Quiet ch ch.
Proof. intros Hc Hs Hn. left. cbn. rewrite app_nil_r. split_and!; try done. lia. Qed.

Lemma follow_step n op h id c ch h' o :
  hub_ok n h -> n + 1 < 2 ^ 63 -> nh_channels h !! c = Some ch -> ch_closed ch = false -> nh_subs h !! id = Some c ->
  hub_step op h = Returns (h', o) ->
  exists ch', nh_channels h' !! c = Some ch' /\ follows op id c h h' o ch ch'.
Proof.
  intros Hok Hn Hch Hcl Hid Hs.
  assert (Hstill : forall n' h1 buf, hub_ok n' h1 -> nh_subs h1 ⊆ nh_subs h -> nh_channels h1 !! c = Some (mkChannel buf false) ->
    nh_subs h1 !! id = Some c).
  { intros n' h1 buf Hok1 Hsub Hc1. destruct (live_sub _ (ho_live _ _ Hok1) _ _ Hc1) as [i Hi].
    pose proof (lookup_weaken _ _ _ _ Hi Hsub) as Hi'. by rewrite (live_inj _ (ho_live _ _ Hok) id i c Hid Hi'). }
  destruct op as [method payload now|from|id'| |c']; cbn [hub_step] in Hs.
  - destruct (Publish_ok n method payload now h Hok Hn) as (h1 & E & Hok' & [Hseq _] & Hsub & Hc). rewrite E in Hs.
    injection Hs as <- <-. specialize (Hc _ _ Hch). rewrite Hcl in Hc. eexists. split; [exact Hc|].
    unfold push in *. destruct (Nat.ltb_spec (length (ch_buf ch)) subscriberBuffer) as [Hlt|Hge].
    + left. rewrite Hcl in Hc |- *. split; [done|]. split; [by eapply Hstill|]. cbn. split_and!; [done|lia|done].
    + right. split; [done|]. split; [done|]. right. right. split; [by eexists _, _, _|].
      pose proof (ho_buf _ _ Hok _ _ Hch). lia.
  - injection Hs as <- <-. exists ch. split; [by apply lookup_app_l_Some|]. apply follows_same; [done| |done].
    cbn [fst Subscribe nh_subs]. rewrite lookup_insert_ne; [done|]. intros <-. apply (ho_ids _ _ Hok) in Hid. lia.
  - destruct (cancel_ok n id' h Hok) as (h1 & E & Hok' & Hseq & Hsub & Hc). rewrite E in Hs. injection Hs as <- <-.
    pose proof (Hc _ _ Hch) as Hc'. eexists. split; [exact Hc'|]. destruct (decide (nh_subs h !! id' = Some c)) as [Hd|Hd].
    + right. split; [done|]. split; [done|]. right. left. by rewrite (live_inj _ (ho_live _ _ Hok) id id' c Hid Hd).
    + apply follows_same; [done| |done]. destruct ch as [buf cl]. cbn in Hcl. subst cl. by eapply Hstill.
  - destruct (Reset_ok n h Hok) as (h1 & E & Hok' & Hc). rewrite E in Hs. injection Hs as <- <-.
    eexists. split; [by apply Hc|]. rewrite Hcl. right. split; [done|]. split; [done|]. by left.
  - unfold receive in Hs. destruct (nh_channels h !! c') as [[[|e buf] closed]|] eqn:Hc'.
    + assert (h' = h /\ o = Quiet) as [-> ->] by (destruct closed; by injection Hs).
      exists ch. split; [done|]. by apply follows_same.
    + injection Hs as <- <-. cbn [nh_channels nh_subs with_subs].
      destruct (decide (c' = c)) as [->|Hne].
      * rewrite Hch in Hc'. injection Hc' as ->. cbn in Hcl. subst closed. eexists.
        rewrite list_lookup_insert_eq by (by eapply lookup_lt_Some). split; [done|]. left. split; [done|]. split; [done|].
        unfold taken, published. cbn. rewrite Nat.eqb_refl. cbn. rewrite app_nil_r. split_and!; [done|lia|done].
      * exists ch. rewrite list_lookup_insert_ne by done. split; [done|]. left. unfold taken, published. cbn.
        rewrite (proj2 (Nat.eqb_neq _ _) Hne), app_nil_r. cbn. split_and!; try done. lia.
    + injection Hs as <- <-. exists ch. split; [done|]. by apply follows_same.
Qed.

(** From a closed channel only what waits in it is taken. *)
Lemma closed_step n op h c ch h' o :
  hub_ok n h -> n + 1 < 2 ^ 63 -> nh_channels h !! c = Some ch -> ch_closed ch = true -> hub_step op h = Returns (h', o) ->
  exists ch', nh_channels h' !! c = Some ch' /\ ch_closed ch' = true /\ taken c [o] ++ ch_buf ch' = ch_buf ch.
Proof.
  intros Hok Hn Hch Hcl Hs. destruct op as [method payload now|from|id'| |c']; cbn [hub_step] in Hs.
  - destruct (Publish_ok n method payload now h Hok Hn) as (h1 & E & _ & _ & _ & Hc). rewrite E in Hs.
    injection Hs as <- <-. specialize (Hc _ _ Hch). rewrite Hcl in Hc. by exists ch.
  - injection Hs as <- <-. exists ch. split; [by apply lookup_app_l_Some|done].
  - destruct (cancel_ok n id' h Hok) as (h1 & E & _ & _ & _ & Hc). rewrite E in Hs. injection Hs as <- <-.
    specialize (Hc _ _ Hch). eexists. split; [exact Hc|]. destruct (decide _) as [Hd|]; [|done].
    destruct (live_open _ (ho_live _ _ Hok) _ _ Hd) as [buf Hb]. rewrite Hch in Hb. injection Hb as ->. done.
  - destruct (Reset_ok n h Hok) as (h1 & E & _ & Hc). rewrite E in Hs. injection Hs as <- <-.
    specialize (Hc _ _ Hch). rewrite Hcl in Hc. by exists ch.
  - unfold receive in Hs. destruct (nh_channels h !! c') as [[[|e buf] closed]|] eqn:Hc'.
    + assert (h' = h /\ o = Quiet) as [-> ->] by (destruct closed; by injection Hs). by exists ch.
    + injection Hs as <- <-. cbn [nh_channels with_subs]. destruct (decide (c' = c)) as [->|Hne].
      * rewrite Hch in Hc'. injection Hc' as ->. eexists. rewrite list_lookup_insert_eq by (by eapply lookup_lt_Some).
        split; [done|]. split; [done|]. unfold taken. cbn. by rewrite Nat.eqb_refl.
      * exists ch. rewrite list_lookup_insert_ne by done. split_and!; [done..|]. unfold taken. cbn.
        by rewrite (proj2 (Nat.eqb_neq _ _) Hne).
    + injection Hs as <- <-. by exists ch.
Qed.

Lemma taken_cons c o (os : list hub_out) : taken c (o :: os) = taken c [o] ++ taken c os.
Proof. unfold taken. cbn. destruct o as [?|c' ?|]; [done| |done]. by destruct (_ =? _)%nat. Qed.
Lemma published_cons o (os : list hub_out) : published (o :: os) = published [o] ++ published os.
Proof. by destruct o. Qed.

Lemma closed_run n ops h c ch :
  hub_ok n h -> n + Z.of_nat (length ops) < 2 ^ 63 -> nh_channels h !! c = Some ch -> ch_closed ch = true ->
  exists h' outs ch', run_hub ops h = Returns (h', outs) /\ nh_channels h' !! c = Some ch' /\ ch_closed ch' = true
    /\ taken c outs ++ ch_buf ch' = ch_buf ch.
Proof.
  revert n h ch. induction ops as [|op ops IH]; intros n h ch Hok Hn Hch Hcl; cbn [run_hub length] in *.
  { by exists h, [], ch. }
  destruct (hub_step_ok n op h Hok) as (h1 & o & E & Hok1); [lia|].
  destruct (closed_step n op h c ch h1 o Hok ltac:(lia) Hch Hcl E) as (ch1 & Hch1 & Hcl1 & Ht1).
  destruct (IH (n + 1) h1 ch1 Hok1 ltac:(lia) Hch1 Hcl1) as (h2 & outs & ch2 & E2 & Hch2 & Hcl2 & Ht2).
  rewrite E, E2. exists h2, (o :: outs), ch2. split_and!; [done..|]. by rewrite taken_cons, <- app_assoc, Ht2.
Qed.

(** The channel is open after [ops], with everything that was published. *)
Record open_after (ops : list hub_op) (h : NotificationHub) (c : nat) (ch : channel) (h' : NotificationHub) (outs : list hub_out) (ch' : channel)
    : Prop := mkOpenAfter {
  oa_run : run_hub ops h = Returns (h', outs);
  oa_channel : nh_channels h' !! c = Some ch' /\ ch_closed ch' = false;
  oa_all : taken c outs ++ ch_buf ch' = ch_buf ch ++ published outs;
  oa_seq : ne_Seq <$> published outs = seqZ (nh_nextSeq h + 1) (Z.of_nat (length (published outs)))
}.

Lemma open_after_cons op ops h c ch h1 o ch1 h2 outs ch2 :
  hub_step op h = Returns (h1, o) -> taken c [o] ++ ch_buf ch1 = ch_buf ch ++ published [o] ->
  nh_nextSeq h1 = nh_nextSeq h + Z.of_nat (length (published [o])) ->
  ne_Seq <$> published [o] = seqZ (nh_nextSeq h + 1) (Z.of_nat (length (published [o]))) ->
  open_after ops h1 c ch1 h2 outs ch2 -> open_after (op :: ops) h c ch h2 (o :: outs) ch2.
Proof.
  intros E Hb Hseq Hpub [E2 Hc2 Ha2 Hs2]. split; [cbn; by rewrite E, E2|done| |].
  - rewrite taken_cons, published_cons, <- app_assoc, Ha2, app_assoc, Hb. by rewrite <- app_assoc.
  - rewrite published_cons, fmap_app, Hpub, Hs2, Hseq, length_app, Nat2Z.inj_add, seqZ_app by lia. f_equal. f_equal. lia.
Qed.

Lemma follow_run n ops h id c ch :
  hub_ok n h -> n + Z.of_nat (length ops) < 2 ^ 63 -> nh_channels h !! c = Some ch -> ch_closed ch = false -> nh_subs h !! id = Some c ->
  exists h' outs ch', run_hub ops h = Returns (h', outs) /\ nh_channels h' !! c = Some ch'
    /\ (open_after ops h c ch h' outs ch'
        \/ ch_closed ch' = true /\ exists p op q hp outsp chp, ops = p ++ op :: q /\ open_after p h c ch hp outsp chp
             /\ closes op id chp /\ taken c outs ++ ch_buf ch' = ch_buf ch ++ published outsp).
Proof.
  revert n h ch. induction ops as [|op ops IH]; intros n h ch Hok Hn Hch Hcl Hid; cbn [length] in *.
  { exists h, [], ch. split_and!; [done..|]. left. split; [done|done|by rewrite app_nil_r|done]. }
  destruct (hub_step_ok n op h Hok) as (h1 & o & E & Hok1); [lia|].
  destruct (follow_step n op h id c ch h1 o Hok ltac:(lia) Hch Hcl Hid E) as (ch1 & Hch1 & [(Hcl1 & Hid1 & Hb & Hseq & Hpub)|(-> & Ht & Hclose)]).
  - destruct (IH (n + 1) h1 ch1 Hok1 ltac:(lia) Hch1 Hcl1 Hid1) as (h2 & outs & ch2 & E2 & Hch2 & Hcase).
    exists h2, (o :: outs), ch2. split; [cbn [run_hub]; by rewrite E, E2|]. split; [done|].
    destruct Hcase as [Ho|(Hcl2 & p & op2 & q & hp & outsp & chp & -> & Hp & Hc2 & Ht2)].
    + left. by eapply open_after_cons.
    + right. split; [done|]. exists (op :: p), op2, q, hp, (o :: outsp), chp. split; [done|]. split; [by eapply open_after_cons|].
      split; [done|]. rewrite taken_cons, published_cons, <- app_assoc, Ht2, app_assoc, Hb. by rewrite <- app_assoc.
  - destruct (closed_run (n + 1) ops h1 c (shut ch) Hok1 ltac:(lia) Hch1 eq_refl) as (h2 & outs & ch2 & E2 & Hch2 & Hcl2 & Ht2).
    exists h2, (o :: outs), ch2. split; [cbn [run_hub]; by rewrite E, E2|]. split; [done|]. right. split; [done|].
    exists [], op, ops, h, [], ch. split; [done|]. split; [split; [done|done|by rewrite app_nil_r|done]|]. split; [done|].
    rewrite taken_cons, Ht. cbn [app]. by rewrite Ht2, app_nil_r.
Qed.

(** *** Identifiers *)

Definition isSubscribe (op : hub_op) : bool := match op with OpSubscribe _ => true | _ => false end.

Lemma step_nextSub n op h h' o :
  hub_ok n h -> n + 1 < 2 ^ 63 -> op <> OpReset -> hub_step op h = Returns (h', o) ->
  nh_nextSub h' = nh_nextSub h + (if isSubscribe op then 1 else 0).
Proof.
  intros Hok Hn Hr Hs. pose proof (ho_count _ _ Hok) as [_ Hsub]. destruct op as [method payload now|from|id| |c]; cbn [hub_step isSubscribe] in *.
  - destruct (Publish_ok n method payload now h Hok Hn) as (h1 & E & _ & [_ Hx] & _). rewrite E in Hs. injection Hs as <- _. lia.
  - injection Hs as <- _. cbn. apply s64_small. lia.
  - unfold cancel in Hs. destruct (nh_subs h !! id) as [c|]; [|injection Hs as <- _; lia].
    unfold closeSub in Hs. destruct (nh_channels h !! c) as [[buf []]|]; try done. injection Hs as <- _. cbn. lia.
  - done.
  - unfold receive in Hs. destruct (nh_channels h !! c) as [[[|e buf] []]|]; injection Hs as <- _; cbn; lia.
Qed.

Lemma run_nextSub n ops h h' outs :
  hub_ok n h -> n + Z.of_nat (length ops) < 2 ^ 63 -> OpReset ∉ ops -> run_hub ops h = Returns (h', outs) ->
  nh_nextSub h' = nh_nextSub h + Z.of_nat (length (List.filter isSubscribe ops)).
Proof.
  revert n h outs. induction ops as [|op ops IH]; intros n h outs Hok Hn Hr Hrun; cbn [run_hub length List.filter] in *.
  { injection Hrun as <- _. lia. }
  apply not_elem_of_cons in Hr as [Hr0 Hr].
  destruct (hub_step_ok n op h Hok) as (h1 & o & E & Hok1); [lia|]. rewrite E in Hrun.
  destruct (run_hub ops h1) as [[h2 os]|] eqn:E2; [|done]. injection Hrun as <- _.
  rewrite (IH (n + 1) h1 os Hok1 ltac:(lia) Hr E2), (step_nextSub n op h h1 o Hok ltac:(lia) ltac:(done) E).
  destruct (isSubscribe op); cbn [length]; lia.
Qed.

Lemma replay_suffix from (l : list NotificationEvent) m :
  ne_Seq <$> l = seqZ m (Z.of_nat (length l)) ->
  ne_Seq <$> List.filter (fun e => from <? ne_Seq e) l
  = let n := Z.of_nat (length (List.filter (fun e => from <? ne_Seq e) l)) in seqZ (m + Z.of_nat (length l) - n) n.
Proof.
  revert m. induction l as [|e l IH]; intros m; [done|]. cbn [fmap list_fmap length].
  rewrite Nat2Z.inj_succ, seqZ_cons by lia. intros [= He Hl]. rewrite Z.pred_succ in Hl. cbn [List.filter].
  destruct (Z.ltb_spec from (ne_Seq e)) as [Hlt|Hge].
  - assert (Hall : List.filter (fun e => from <? ne_Seq e) l = l).
    { assert (Hge : Forall (fun x => from < ne_Seq x) l).
      { apply list.Forall_forall. intros x Hx. assert (Hs : ne_Seq x ∈ seqZ (Z.succ m) (Z.of_nat (length l))).
        { rewrite <- Hl. by apply list_elem_of_fmap_2. } apply elem_of_seqZ in Hs. lia. }
      clear -Hge. induction Hge as [|x l Hx _ IH]; [done|]. cbn. rewrite (proj2 (Z.ltb_lt _ _) Hx). by f_equal. }
    rewrite Hall. cbn [fmap list_fmap length]. rewrite Nat2Z.inj_succ, seqZ_cons by lia. rewrite Z.pred_succ, Hl, He.
    f_equal; [lia|]. f_equal. lia.
  - cbn zeta. rewrite (IH _ Hl). f_equal. lia.
Qed.

(** C30: A subscriber misses nothing. Whatever happened to a hub before, a subscription replays every event of the history after the
    cursor; then, whatever other clients do, resets included, what was replayed, taken from the channel and waits in it are events
    with consecutive numbers, the last of the replayed ones first and then the published ones in order. While the channel is
    open none of the published ones is missing. When it is closed, a step of the run closed it: a reset, a cancel with its
    identifier, or a publication while exactly 128 events waited in it; and until then none is missing. The identifier is the number
    of the subscriptions before, as long as there was no reset, so that a cancel with it is its own (a reset lets the identifiers
    start again). The hub never panics, and keeps no more history than its limit. *)
Theorem notifications_have_no_gaps (fromSeq : Z) (before after : list hub_op) :
  Z.of_nat (length before + length after) + 1 < 2 ^ 63 ->
  exists h1 outs1 h3 outs ch,
    run_hub before (NewNotificationHub limit) = Returns (h1, outs1)
    /\ let '(h2, (replay, id, c)) := Subscribe fromSeq h1 in
       let stream := replay ++ taken c outs ++ ch_buf ch in
       run_hub after h2 = Returns (h3, outs) /\ nh_channels h3 !! c = Some ch
       /\ (forall e, e ∈ nh_history h1 -> fromSeq < ne_Seq e -> e ∈ replay)
       /\ ne_Seq <$> stream = seqZ (nh_nextSeq h1 + 1 - Z.of_nat (length replay)) (Z.of_nat (length stream))
       /\ (ch_closed ch = false -> taken c outs ++ ch_buf ch = published outs)
       /\ (ch_closed ch = true -> exists p op q h' outs' ch', after = p ++ op :: q
             /\ run_hub p h2 = Returns (h', outs') /\ nh_channels h' !! c = Some ch' /\ ch_closed ch' = false
             /\ closes op id ch' /\ taken c outs ++ ch_buf ch = published outs')
       /\ (OpReset ∉ before -> id = Z.of_nat (length (List.filter isSubscribe before)))
       /\ BacklogSize h3 <= Z.max 1 limit.
Proof.
  intros Hn. destruct (run_hub_ok 0 before _ new_hub_ok) as (h1 & outs1 & E1 & Hok1); [lia|].
  pose proof (Subscribe_ok _ fromSeq _ Hok1 ltac:(lia)) as Hok2. unfold Subscribe in *. cbn [fst] in Hok2.
  set (h2 := mkHub _ _ _ _ _ _) in *.
  destruct (follow_run _ after h2 (nh_nextSub h1) (length (nh_channels h1)) (mkChannel [] false) Hok2)
    as (h3 & outs & ch & E3 & Hch & Hcase); try done.
  { lia. } { cbn. by rewrite lookup_app_r, Nat.sub_diag. } { cbn. apply lookup_insert_eq. }
  exists h1, outs1, h3, outs, ch. cbv zeta.
  assert (Hsome : exists events, taken (length (nh_channels h1)) outs ++ ch_buf ch = events
    /\ ne_Seq <$> events = seqZ (nh_nextSeq h2 + 1) (Z.of_nat (length events))).
  { destruct Hcase as [[_ _ Ha Hs]|(_ & p & op & q & hp & outsp & chp & _ & [_ _ _ Hs] & _ & Ha)]; eexists; (split; [exact Ha|exact Hs]). }
  destruct Hsome as (events & Hev & Hseq). split_and!; try done.
  - intros e He Hlt. apply list_elem_of_In, List.filter_In. split; [by apply list_elem_of_In|]. by apply Z.ltb_lt.
  - rewrite fmap_app, Hev, Hseq, (replay_suffix _ _ _ (ho_hist _ _ Hok1)). cbn zeta.
    rewrite length_app, Nat2Z.inj_add, seqZ_app by lia. change (nh_nextSeq h2) with (nh_nextSeq h1). f_equal; f_equal; lia.
  - intros Hcl. destruct Hcase as [[_ _ Ha _]|(Hcl' & _)]; [exact Ha|congruence].
  - intros Hcl. destruct Hcase as [[_ [Hc Hcl'] _ _]|(_ & p & op & q & hp & outsp & chp & -> & [Ep [Hp Hpc] _ _] & Hclose & Ha)]; [congruence|].
    by exists p, op, q, hp, outsp, chp.
  - intros Hr. rewrite (run_nextSub 0 before _ h1 outs1 new_hub_ok ltac:(lia) Hr E1). cbn. lia.
  - destruct (run_hub_ok _ after h2 Hok2) as (h3' & outs' & E3' & Hok3); [lia|]. rewrite E3 in E3'. injection E3' as <- <-.
    unfold BacklogSize. rewrite (ho_len _ _ Hok3), (ho_limit _ _ Hok3). lia.
Qed.

End Hub.

(** ** Examples *)

#[export] Program Instance exIntRange : IntRange := { rangeInts A m := map_to_list m }.
Next Obligation. done. Qed.

Definition ex_publish (method : string) : @hub_op string := OpPublish method "" 0.
Definition ex_before : list (@hub_op string) := [ex_publish "x"; ex_publish "y"; ex_publish "z"].
Definition ex_after : list (@hub_op string) := [ex_publish "v"; OpReceive 0; OpSubscribe 0; ex_publish "w"; OpCancel 1].

(** With a history of two events a client at cursor 1 gets the second and third event replayed and the fourth
    from its channel, where the fifth waits. *)
Lemma notifications_have_no_gaps_witness :
  exists h1 outs1 h3 outs ch,
    run_hub ex_before (NewNotificationHub 2) = Returns (h1, outs1)
    /\ run_hub ex_after (fst (Subscribe 1 h1)) = Returns (h3, outs) /\ nh_channels h3 !! 0%nat = Some ch
    /\ ne_Seq <$> (snd (Subscribe 1 h1)).1.1 = [2; 3] /\ ne_Seq <$> taken 0 outs = [4] /\ ne_Seq <$> ch_buf ch = [5].
Proof.
  destruct (notifications_have_no_gaps 2 1 ex_before ex_after) as (h1 & outs1 & h3 & outs & ch & E1 & H).
  { vm_compute. reflexivity. }
  assert (E1' := E1). vm_compute in E1'. injection E1' as <- <-.
  destruct H as (E3 & Hch & _). cbn [fst snd Subscribe] in *. assert (E3' := E3). vm_compute in E3'.
  injection E3' as <- <-. assert (H := Hch). vm_compute in H. injection H as <-.
  eexists _, _, _, _, _. split_and!; [exact E1|exact E3|exact Hch|vm_compute; reflexivity..].
Defined.

(** Reset lets the numbers start again: a client that comes back with its old cursor gets nothing of the history. *)
Example reset_hides_events :
  match run_hub (ex_before ++ [OpReset; ex_publish "new"; ex_publish "newer"]) (NewNotificationHub 8) with
  | Returns (h, _) => (nh_nextSeq h, length (nh_history h), (snd (Subscribe 3 h)).1.1) = (2, 2%nat, [])
  | Panics => False
  end.
Proof. vm_compute. reflexivity. Qed.

(** The identifiers start again too: the cancel of a subscription from before the reset, which runs when its reader has
    seen the end of its channel, closes the channel of whoever subscribed since. *)
Example stale_cancel_ends_another :
  match run_hub [OpSubscribe 0; OpReset; OpSubscribe 0; OpCancel 0; OpReceive 1] (NewNotificationHub (P := string) 8) with
  | Returns (h, _) => (nh_channels h !! 1%nat, snd (receive 1 h)) = (Some (mkChannel [] true), Closed)
  | Panics => False
  end.
Proof. vm_compute. reflexivity. Qed.
