(* ===== verification/Runtime.v ===== *)
(** * The counters and the running state of the service

    Models the rest of internal/platform/runtime/runtime.go: the metrics with their snapshot, and the
    state that says whether the service is networking. Contexts and the functions that cancel them
    are numbers. *)
From S2P Require Import Prelude.
From stdpp Require Import base gmap strings list sets option.
From Stdlib Require Import ZArith Lia.
Open Scope string_scope.
Open Scope Z_scope.
Open Scope go_scope.

(** ** Networking *)

(** models.NetworkStatus *)
Record NetworkStatus := mkNetworkStatus {
  ns_Status : string; ns_PeerCount : Z; ns_PeerTarget : Z; ns_HealthSummary : string; ns_ActionHint : string;
  ns_ProfileID : string; ns_RelayEnabled : bool; ns_PublicDiscoveryEnabled : bool; ns_PublicServingEnabled : bool;
  ns_PublicStoreEnabled : bool; ns_PersonalStoreEnabled : bool; ns_LastSync : Z; ns_BootstrapSource : string;
  ns_BootstrapManifestVersion : Z; ns_BootstrapManifestKeyID : string
}.

(** [None] is a nil context or function; [LastNetwork] is unset until [NetworkStateSet]. [RetryWG] is the
    counter of the wait group. *)
Record ServiceRuntime := mkRuntime {
  sr_Networking : bool; sr_NetworkCtx : option nat; sr_NetworkCancel : option nat; sr_RetryCancel : option nat;
  sr_RetryWG : Z; sr_LastNetwork : option NetworkStatus
}.

Definition NewServiceRuntime : ServiceRuntime := mkRuntime false None None None 0 None.

Definition IsNetworking (r : ServiceRuntime) : bool := sr_Networking r.

Definition TryActivate (networkCtx networkCancel retryCancel : nat) (r : ServiceRuntime) : ServiceRuntime * bool :=
  if sr_Networking r then (r, false) else
  (mkRuntime true (Some networkCtx) (Some networkCancel) (Some retryCancel) (sr_RetryWG r + 1) (sr_LastNetwork r), true).

Definition RetryLoopDone (r : ServiceRuntime) : ServiceRuntime :=
  mkRuntime (sr_Networking r) (sr_NetworkCtx r) (sr_NetworkCancel r) (sr_RetryCancel r) (sr_RetryWG r - 1) (sr_LastNetwork r).

(** The functions that cancel the retry loop and the network context, when it was running. *)
Definition Deactivate (r : ServiceRuntime) : ServiceRuntime * option (option nat * option nat) :=
  if negb (sr_Networking r) then (r, None) else
  (mkRuntime false None None None (sr_RetryWG r) (sr_LastNetwork r), Some (sr_RetryCancel r, sr_NetworkCancel r)).

Definition CurrentNetworkContext (r : ServiceRuntime) : option nat :=
  if negb (sr_Networking r) then None else sr_NetworkCtx r.

Definition UpdateLastNetworkStatus (current : NetworkStatus) (force : bool) (r : ServiceRuntime) : ServiceRuntime * bool :=
  let changed := match sr_LastNetwork r with
                 | None => true
                 | Some last => negb (ns_Status last == ns_Status current) || negb (ns_PeerCount last =? ns_PeerCount current)
                 end in
  if force || changed
  then (mkRuntime (sr_Networking r) (sr_NetworkCtx r) (sr_NetworkCancel r) (sr_RetryCancel r) (sr_RetryWG r) (Some current), true)
  else (r, false).

(** ** Metrics *)

Record OpMetric := mkOpMetric { om_Count : Z; om_Errors : Z; om_TotalNs : Z; om_MaxNs : Z; om_LastNs : Z }.

Record blobFetchMetricState := mkBlobFetch {
  bf_attemptsTotal : Z; bf_successTotal : Z; bf_unavailableTotal : Z; bf_failureTotal : Z;
  bf_unavailableReasons : gmap string Z; bf_totalLatencyNs : Z; bf_maxLatencyNs : Z; bf_lastLatencyNs : Z
}.

Record ServiceMetricsState := mkMetrics {
  sm_errorCounters : gmap string Z; sm_groupCounters : gmap string Z; sm_gcEvictionByClass : gmap string Z;
  sm_opMetrics : gmap string OpMetric; sm_blobFetch : blobFetchMetricState; sm_retryAttempts : Z;
  sm_lastUpdatedAt : Z
}.

Definition zeroCounters (names : list string) : gmap string Z := list_to_map ((fun n => (n, 0)) <$> names).

Definition NewServiceMetricsState : ServiceMetricsState :=
  mkMetrics (zeroCounters ["api"; "network"; "crypto"; "storage"])
    (zeroCounters ["create"; "invite"; "accept"; "remove"; "send"; "decrypt_fail"; "policy_reject"])
    (zeroCounters ["image"; "file"]) ∅ (mkBlobFetch 0 0 0 0 ∅ 0 0 0) 0 0.

(** A counter of a map; one that is missing is zero. *)
Definition counter (name : string) (m : gmap string Z) : Z := default 0 (m !! name).
Definition count (name : string) (n : Z) (m : gmap string Z) : gmap string Z := <[name := s64 (counter name m + n)]> m.

Definition RecordError (category : string) (now : Z) (m : ServiceMetricsState) : ServiceMetricsState :=
  mkMetrics (count category 1 (sm_errorCounters m)) (sm_groupCounters m) (sm_gcEvictionByClass m) (sm_opMetrics m)
    (sm_blobFetch m) (sm_retryAttempts m) now.

Definition RecordRetryAttempt (now : Z) (m : ServiceMetricsState) : ServiceMetricsState :=
  mkMetrics (sm_errorCounters m) (sm_groupCounters m) (sm_gcEvictionByClass m) (sm_opMetrics m) (sm_blobFetch m)
    (s64 (sm_retryAttempts m + 1)) now.

Definition RecordGroupAggregate (name : string) (now : Z) (m : ServiceMetricsState) : ServiceMetricsState :=
  let name := TrimSpace name in
  if name == "" then m else
  mkMetrics (sm_errorCounters m) (count name 1 (sm_groupCounters m)) (sm_gcEvictionByClass m) (sm_opMetrics m)
    (sm_blobFetch m) (sm_retryAttempts m) now.

(** The loop adds every positive count. *)
Definition RecordGCEvictions `{GoRuntime} (evictedByClass : gmap string Z) (now : Z) (m : ServiceMetricsState)
    : ServiceMetricsState :=
  let evicted := List.filter (fun kv => 0 <? kv.2) (rangeMap evictedByClass) in
  match evicted with
  | [] => m
  | _ => mkMetrics (sm_errorCounters m) (sm_groupCounters m)
           (foldl (fun acc kv => count kv.1 kv.2 acc) (sm_gcEvictionByClass m) evicted) (sm_opMetrics m) (sm_blobFetch m)
           (sm_retryAttempts m) now
  end.

Definition noOp : OpMetric := mkOpMetric 0 0 0 0 0.

Definition with_op (operation : string) (f : OpMetric -> OpMetric) (now : Z) (m : ServiceMetricsState) : ServiceMetricsState :=
  mkMetrics (sm_errorCounters m) (sm_groupCounters m) (sm_gcEvictionByClass m)
    (<[operation := f (default noOp (sm_opMetrics m !! operation))]> (sm_opMetrics m)) (sm_blobFetch m)
    (sm_retryAttempts m) now.

(** [latency] is the time since the operation started. *)
Definition RecordOp (operation : string) (latency now : Z) : ServiceMetricsState -> ServiceMetricsState :=
  with_op operation (fun o => mkOpMetric (s64 (om_Count o + 1)) (om_Errors o) (s64 (om_TotalNs o + latency))
                                (if om_MaxNs o <? latency then latency else om_MaxNs o) latency) now.

Definition RecordOpError (operation : string) (now : Z) : ServiceMetricsState -> ServiceMetricsState :=
  with_op operation (fun o => mkOpMetric (om_Count o) (s64 (om_Errors o + 1)) (om_TotalNs o) (om_MaxNs o) (om_LastNs o)) now.

Definition recordBlobFetchLocked (latency : Z) (b : blobFetchMetricState) : blobFetchMetricState :=
  mkBlobFetch (s64 (bf_attemptsTotal b + 1)) (bf_successTotal b) (bf_unavailableTotal b) (bf_failureTotal b)
    (bf_unavailableReasons b) (s64 (bf_totalLatencyNs b + latency))
    (if bf_maxLatencyNs b <? latency then latency else bf_maxLatencyNs b) latency.

Definition with_blobFetch (f : blobFetchMetricState -> blobFetchMetricState) (now : Z) (m : ServiceMetricsState)
    : ServiceMetricsState :=
  mkMetrics (sm_errorCounters m) (sm_groupCounters m) (sm_gcEvictionByClass m) (sm_opMetrics m) (f (sm_blobFetch m))
    (sm_retryAttempts m) now.

Definition RecordBlobFetchSuccess (latency now : Z) : ServiceMetricsState -> ServiceMetricsState :=
  with_blobFetch (fun b => let b := recordBlobFetchLocked latency b in
    mkBlobFetch (bf_attemptsTotal b) (s64 (bf_successTotal b + 1)) (bf_unavailableTotal b) (bf_failureTotal b)
      (bf_unavailableReasons b) (bf_totalLatencyNs b) (bf_maxLatencyNs b) (bf_lastLatencyNs b)) now.

Definition RecordBlobFetchUnavailable (reason : string) (latency now : Z) : ServiceMetricsState -> ServiceMetricsState :=
  with_blobFetch (fun b => let b := recordBlobFetchLocked latency b in
    let reason := TrimSpace reason in
    let reason := if reason == "" then "unknown" else reason in
    mkBlobFetch (bf_attemptsTotal b) (bf_successTotal b) (s64 (bf_unavailableTotal b + 1)) (bf_failureTotal b)
      (count reason 1 (bf_unavailableReasons b)) (bf_totalLatencyNs b) (bf_maxLatencyNs b) (bf_lastLatencyNs b)) now.

Definition RecordBlobFetchFailure (latency now : Z) : ServiceMetricsState -> ServiceMetricsState :=
  with_blobFetch (fun b => let b := recordBlobFetchLocked latency b in
    mkBlobFetch (bf_attemptsTotal b) (bf_successTotal b) (bf_unavailableTotal b) (s64 (bf_failureTotal b + 1))
      (bf_unavailableReasons b) (bf_totalLatencyNs b) (bf_maxLatencyNs b) (bf_lastLatencyNs b)) now.

(** *** The snapshot *)

(** models.OperationMetric, models.BlobFetchMetric *)
Record OperationMetric := mkOperation {
  op_Count : Z; op_Errors : Z; op_AvgLatencyMs : Z; op_MaxLatencyMs : Z; op_LastLatencyMs : Z
}.
Record BlobFetchMetric := mkBlobStats {
  bm_AttemptsTotal : Z; bm_SuccessTotal : Z; bm_UnavailableTotal : Z; bm_FailureTotal : Z;
  bm_UnavailableReasons : gmap string Z; bm_AvgLatencyMs : Z; bm_MaxLatencyMs : Z; bm_LastLatencyMs : Z;
  bm_UnavailableRateBps : Z
}.

Definition Millisecond : Z := 1000000.

(** Division of int64 truncates. *)
Definition averageMs (total n : Z) : Z := if 0 <? n then Z.quot (Z.quot total n) Millisecond else 0.

Definition opStats (o : OpMetric) : OperationMetric :=
  mkOperation (om_Count o) (om_Errors o) (averageMs (om_TotalNs o) (om_Count o)) (Z.quot (om_MaxNs o) Millisecond)
    (Z.quot (om_LastNs o) Millisecond).

Definition blobStats (b : blobFetchMetricState) : BlobFetchMetric :=
  mkBlobStats (bf_attemptsTotal b) (bf_successTotal b) (bf_unavailableTotal b) (bf_failureTotal b)
    (bf_unavailableReasons b) (averageMs (bf_totalLatencyNs b) (bf_attemptsTotal b))
    (Z.quot (bf_maxLatencyNs b) Millisecond) (Z.quot (bf_lastLatencyNs b) Millisecond)
    (if 0 <? bf_attemptsTotal b then Z.quot (s64 (bf_unavailableTotal b * 10000)) (bf_attemptsTotal b) else 0).

(** [Snapshot]: error counters, group counters, evictions, blob fetches, operations, retries, time. *)
Definition Snapshot (m : ServiceMetricsState)
    : gmap string Z * gmap string Z * gmap string Z * BlobFetchMetric * gmap string OperationMetric * Z * Z :=
  (sm_errorCounters m, sm_groupCounters m, sm_gcEvictionByClass m, blobStats (sm_blobFetch m),
   opStats <$> sm_opMetrics m, sm_retryAttempts m, sm_lastUpdatedAt m).

(** ** What the numbers mean *)

(** What is recorded about fetches and operations. *)
Inductive measure :=
| MSuccess (latency now : Z)
| MUnavailable (reason : string) (latency now : Z)
| MFailure (latency now : Z)
| MOp (operation : string) (latency now : Z)
| MOpError (operation : string) (now : Z)
| MError (category : string) (now : Z)
| MRetry (now : Z).

Definition record (x : measure) : ServiceMetricsState -> ServiceMetricsState :=
  match x with
  | MSuccess l now => RecordBlobFetchSuccess l now
  | MUnavailable r l now => RecordBlobFetchUnavailable r l now
  | MFailure l now => RecordBlobFetchFailure l now
  | MOp o l now => RecordOp o l now
  | MOpError o now => RecordOpError o now
  | MError c now => RecordError c now
  | MRetry now => RecordRetryAttempt now
  end.

(** The latency of a fetch, and of an operation of a name. *)
Definition fetchLatency (x : measure) : option Z :=
  match x with MSuccess l _ | MUnavailable _ l _ | MFailure l _ => Some l | _ => None end.
Definition opLatency (operation : string) (x : measure) : option Z :=
  match x with MOp o l _ => if o == operation then Some l else None | _ => None end.
Definition isUnavailable (x : measure) : bool := match x with MUnavailable _ _ _ => true | _ => false end.
Definition reasonOf (x : measure) : option string :=
  match x with
  | MUnavailable r _ _ => Some (let r := TrimSpace r in if r == "" then "unknown" else r)
  | _ => None
  end.
Definition hasReason (reason : string) (x : measure) : bool := reasonOf x == Some reason.
Definition isOpError (operation : string) (x : measure) : bool :=
  match x with MOpError o _ => o == operation | _ => false end.

Definition latencyOf (x : measure) : Z :=
  match x with MSuccess l _ | MUnavailable _ l _ | MFailure l _ | MOp _ l _ => l | _ => 0 end.

Definition sumZ (l : list Z) : Z := foldr Z.add 0 l.
Definition maxZ (l : list Z) : Z := foldr Z.max 0 l.

(** How many of a list, as an int. *)
Definition number {A} (f : A -> bool) (l : list A) : Z := Z.of_nat (length (List.filter f l)).

Lemma number_snoc {A} (f : A -> bool) l x : number f (l ++ [x])%list = number f l + (if f x then 1 else 0).
Proof. unfold number. rewrite List.filter_app, length_app. cbn. destruct (f x); cbn; lia. Qed.

Lemma number_bound {A} (f : A -> bool) l : 0 <= number f l <= Z.of_nat (length l).
Proof. unfold number. induction l as [|x l IH]; cbn; [lia|]. destruct (f x); cbn; lia. Qed.

Lemma sumZ_snoc l x : sumZ (l ++ [x])%list = sumZ l + x.
Proof. unfold sumZ. rewrite foldr_app. cbn. induction l; cbn; lia. Qed.
Lemma maxZ_snoc l x : 0 <= x -> maxZ (l ++ [x])%list = Z.max (maxZ l) x.
Proof. intros Hx. unfold maxZ. rewrite foldr_app. cbn. induction l; cbn; lia. Qed.
Lemma sumZ_le_max l : sumZ l <= Z.of_nat (length l) * maxZ l.
Proof. induction l as [|x l IH]; cbn [sumZ maxZ foldr length]; [lia|]. change (foldr Z.add 0 l) with (sumZ l).
  change (foldr Z.max 0 l) with (maxZ l). nia. Qed.

(** The latencies that pass a selection are a part of all of them. *)
Lemma sumZ_omap (f : measure -> option Z) xs :
  (forall x l, f x = Some l -> l = latencyOf x) -> Forall (fun x => 0 <= latencyOf x) xs ->
  0 <= sumZ (omap f xs) <= sumZ (latencyOf <$> xs) /\ Forall (fun l => 0 <= l) (omap f xs).
Proof.
  intros Hf. unfold sumZ. induction 1 as [|x xs Hx _ [IH Hn]]; [by cbn; split; [lia|constructor]|]. cbn.
  destruct (f x) as [l|] eqn:E; cbn; [rewrite (Hf _ _ E)|]; (split; [lia|]); by try constructor.
Qed.

Lemma fetchLatency_of x l : fetchLatency x = Some l -> l = latencyOf x.
Proof. by destruct x; intros [= <-]. Qed.
Lemma opLatency_of o x l : opLatency o x = Some l -> l = latencyOf x.
Proof. destruct x; cbn; try done. case_bool_decide; [|done]. by intros [= <-]. Qed.

(** Blob fetches as a function of what was recorded. *)
Record fetches_exact (xs : list measure) (b : blobFetchMetricState) : Prop := {
  fe_attempts : bf_attemptsTotal b = Z.of_nat (length (omap fetchLatency xs));
  fe_unavailable : bf_unavailableTotal b = number isUnavailable xs;
  fe_sum : bf_attemptsTotal b = bf_successTotal b + bf_unavailableTotal b + bf_failureTotal b;
  fe_nonneg : 0 <= bf_successTotal b /\ 0 <= bf_failureTotal b;
  fe_total : bf_totalLatencyNs b = sumZ (omap fetchLatency xs);
  fe_max : bf_maxLatencyNs b = maxZ (omap fetchLatency xs);
  fe_last : bf_lastLatencyNs b = List.last (omap fetchLatency xs) 0;
  fe_reasons r : counter r (bf_unavailableReasons b) = number (hasReason r) xs
}.

(** One operation as a function of what was recorded. *)
Definition op_exact (o : string) (xs : list measure) (m : OpMetric) : Prop :=
  om_Count m = Z.of_nat (length (omap (opLatency o) xs)) /\ om_Errors m = number (isOpError o) xs
  /\ om_TotalNs m = sumZ (omap (opLatency o) xs) /\ om_MaxNs m = maxZ (omap (opLatency o) xs)
  /\ om_LastNs m = List.last (omap (opLatency o) xs) 0.

Lemma omap_length {A B} (f : A -> option B) l : (length (omap f l) <= length l)%nat.
Proof. induction l as [|x l IH]; cbn; [lia|]. destruct (f x); cbn; lia. Qed.

Lemma counter_count r r' n m : counter r' (count r n m) = if r == r' then s64 (counter r m + n) else counter r' m.
Proof.
  unfold counter, count. case_bool_decide; [subst; by rewrite lookup_insert_eq|by rewrite lookup_insert_ne].
Qed.

(** A run that fits in an int64. *)
Definition measurable (xs : list measure) : Prop :=
  Forall (fun x => 0 <= latencyOf x) xs /\ sumZ (latencyOf <$> xs) < 2 ^ 63 /\ Z.of_nat (length xs) < 2 ^ 63.

Lemma measurable_snoc xs x : measurable (xs ++ [x])%list -> measurable xs /\ 0 <= latencyOf x.
Proof.
  intros (Hf & Hs & Hn). apply Forall_app in Hf as [Hf Hx]. inversion_clear Hx as [|? ? Hx0 _]. split; [|exact Hx0].
  rewrite fmap_app, length_app in *. cbn [fmap list_fmap length] in *. rewrite sumZ_snoc in Hs. unfold measurable. split_and!; [done|lia|lia].
Qed.

Lemma recordBlobFetch_exact xs x l b :
  measurable (xs ++ [x])%list -> fetches_exact xs b -> fetchLatency x = Some l ->
  let b' := recordBlobFetchLocked l b in
  bf_attemptsTotal b' = Z.of_nat (length (omap fetchLatency (xs ++ [x])%list))
  /\ bf_attemptsTotal b' = bf_attemptsTotal b + 1
  /\ bf_totalLatencyNs b' = sumZ (omap fetchLatency (xs ++ [x])%list)
  /\ bf_maxLatencyNs b' = maxZ (omap fetchLatency (xs ++ [x])%list)
  /\ bf_lastLatencyNs b' = List.last (omap fetchLatency (xs ++ [x])%list) 0.
Proof.
  intros Hm [Ha _ _ _ Ht Hx _ _] El. cbn. pose proof (fetchLatency_of _ _ El) as ->.
  destruct (measurable_snoc _ _ Hm) as [_ H0]. destruct Hm as (Hf & Hs & Hn).
  destruct (sumZ_omap fetchLatency _ fetchLatency_of Hf) as [Hsum _]. revert Hsum.
  rewrite omap_app. cbn [omap list_omap]. rewrite El, Ha, Ht, Hx, sumZ_snoc, maxZ_snoc, last_last, !length_app by done. intros Hsum.
  pose proof (omap_length fetchLatency xs) as Hl. rewrite length_app in Hn. cbn [length] in *.
  assert (Hnn : 0 <= sumZ (omap fetchLatency xs)).
  { apply Forall_app in Hf as [Hf _]. by apply (sumZ_omap _ _ fetchLatency_of Hf). }
  rewrite !s64_small by lia. split_and!; try done; try lia.
  destruct (Z.ltb_spec (maxZ (omap fetchLatency xs)) (latencyOf x)); lia.
Qed.

Lemma hasReason_none r x : reasonOf x = None -> hasReason r x = false.
Proof. unfold hasReason. intros ->. by apply bool_decide_eq_false. Qed.

Lemma hasReason_unavailable r' r l now :
  hasReason r' (MUnavailable r l now) = ((if TrimSpace r == "" then "unknown" else TrimSpace r) == r').
Proof. unfold hasReason. cbn. repeat case_bool_decide; congruence. Qed.

Lemma record_fetches xs x m :
  measurable (xs ++ [x])%list -> fetches_exact xs (sm_blobFetch m) -> fetches_exact (xs ++ [x])%list (sm_blobFetch (record x m)).
Proof.
  intros Hm He. assert (Hsame : fetchLatency x = None -> reasonOf x = None -> isUnavailable x = false ->
                             fetches_exact (xs ++ [x])%list (sm_blobFetch m)).
  { intros E1 E2 E3. destruct He. split; try done; try (rewrite omap_app; cbn [omap list_omap]; rewrite E1, app_nil_r; done).
    - rewrite number_snoc, E3. lia.
    - intros r. rewrite number_snoc, (hasReason_none r x E2), fe_reasons0. lia. }
  assert (Hn : Z.of_nat (length xs) + 1 < 2 ^ 63). { destruct Hm as (_ & _ & Hn). rewrite length_app in Hn. cbn in Hn. lia. }
  pose proof (number_bound isUnavailable xs) as Hu. pose proof (omap_length fetchLatency xs) as Hl.
  destruct He as [Ha Hun Hsum [Hs0 Hf0] Ht Hx Hla Hr] eqn:Eq; clear Eq.
  destruct x as [l now|r l now|l now|o l now|o now|c now|now]; cbn [record]; try by apply Hsame.
  - destruct (recordBlobFetch_exact xs (MSuccess l now) l _ Hm He eq_refl) as (A & B & C & D & E).
    cbn in *. split; cbn; try done; rewrite ?number_snoc; cbn; rewrite ?s64_small by lia; try lia.
    intros r. rewrite number_snoc, Hr, hasReason_none by done. lia.
  - destruct (recordBlobFetch_exact xs (MUnavailable r l now) l _ Hm He eq_refl) as (A & B & C & D & E).
    cbn in *. split; cbn; try done; rewrite ?number_snoc; cbn; rewrite ?s64_small by lia; try lia.
    intros r'. rewrite number_snoc, hasReason_unavailable, counter_count, !Hr.
    pose proof (number_bound (hasReason r') xs). generalize (if TrimSpace r == "" then "unknown" else TrimSpace r).
    intros reason. destruct (decide (reason = r')) as [->|Hne].
    + rewrite !bool_decide_true, s64_small by (done || lia). lia.
    + rewrite !bool_decide_false by done. lia.
  - destruct (recordBlobFetch_exact xs (MFailure l now) l _ Hm He eq_refl) as (A & B & C & D & E).
    cbn in *. split; cbn; try done; rewrite ?number_snoc; cbn; rewrite ?s64_small by lia; try lia.
    intros r. rewrite number_snoc, Hr, hasReason_none by done. lia.
Qed.

Lemma record_op o xs x m :
  measurable (xs ++ [x])%list -> op_exact o xs (default noOp (sm_opMetrics m !! o)) ->
  op_exact o (xs ++ [x])%list (default noOp (sm_opMetrics (record x m) !! o)).
Proof.
  intros Hm (Hc & He & Ht & Hx & Hl).
  assert (Hn : Z.of_nat (length xs) + 1 < 2 ^ 63). { destruct Hm as (_ & _ & Hn). rewrite length_app in Hn. cbn in Hn. lia. }
  pose proof (number_bound (isOpError o) xs) as Hb. pose proof (omap_length (opLatency o) xs) as Hle.
  assert (Hother : opLatency o x = None -> isOpError o x = false ->
            op_exact o (xs ++ [x])%list (default noOp (sm_opMetrics m !! o))).
  { intros E1 E2. unfold op_exact. rewrite omap_app. cbn [omap list_omap]. rewrite E1, app_nil_r, number_snoc, E2.
    split_and!; try done. lia. }
  destruct x as [l now|r l now|l now|o' l now|o' now|c now|now]; cbn [record] in *; try by apply Hother.
  - unfold RecordOp, with_op. cbn [sm_opMetrics]. destruct (decide (o' = o)) as [->|Hne].
    2: { rewrite lookup_insert_ne by done. apply Hother; [|done]. cbn. by rewrite bool_decide_false. }
    rewrite lookup_insert_eq. cbn [default from_option id]. set (old := default noOp _) in *.
    assert (El : opLatency o (MOp o l now) = Some l) by (cbn; by rewrite bool_decide_true).
    destruct (measurable_snoc _ _ Hm) as [[Hf _] Hl0]. cbn in Hl0. destruct Hm as (Hf' & Hs & _).
    destruct (sumZ_omap _ _ (opLatency_of o) Hf') as [Hsum _]. destruct (sumZ_omap _ _ (opLatency_of o) Hf) as [Hsum0 _].
    unfold op_exact. cbn [om_Count om_Errors om_TotalNs om_MaxNs om_LastNs]. revert Hsum. rewrite omap_app, number_snoc.
    cbn [omap list_omap]. rewrite El, sumZ_snoc, maxZ_snoc, last_last, length_app by done. intros Hsum.
    cbn [length isOpError]. rewrite !s64_small by lia. split_and!; try done; try lia.
    rewrite Hx. destruct (Z.ltb_spec (maxZ (omap (opLatency o) xs)) l); lia.
  - unfold RecordOpError, with_op. cbn [sm_opMetrics]. destruct (decide (o' = o)) as [->|Hne].
    2: { rewrite lookup_insert_ne by done. apply Hother; [done|]. cbn. by rewrite bool_decide_false. }
    rewrite lookup_insert_eq. cbn [default from_option id]. unfold op_exact.
    cbn [om_Count om_Errors om_TotalNs om_MaxNs om_LastNs]. rewrite omap_app. cbn [omap list_omap opLatency].
    rewrite app_nil_r, number_snoc. cbn [isOpError]. rewrite bool_decide_true, s64_small by (done || lia).
    split_and!; try done. lia.
Qed.

Lemma recorded xs :
  measurable xs ->
  fetches_exact xs (sm_blobFetch (foldl (flip record) NewServiceMetricsState xs))
  /\ forall o, op_exact o xs (default noOp (sm_opMetrics (foldl (flip record) NewServiceMetricsState xs) !! o)).
Proof.
  induction xs as [|x xs IH] using rev_ind; intros Hm.
  - split; [by split|]. intros o. by cbn.
  - rewrite foldl_app. cbn [foldl]. destruct (measurable_snoc _ _ Hm) as [Hm' _]. destruct (IH Hm') as [Hf Ho].
    split; [by apply record_fetches|]. intros o. by apply record_op.
Qed.

Lemma average_le_max l :
  Forall (fun x => 0 <= x) l -> 0 <= averageMs (sumZ l) (Z.of_nat (length l)) <= Z.quot (maxZ l) Millisecond.
Proof.
  intros Hf. assert (Hs : 0 <= sumZ l /\ 0 <= maxZ l). { unfold sumZ, maxZ. induction Hf; cbn; lia. }
  pose proof (sumZ_le_max l) as Hle. unfold averageMs. destruct (Z.ltb_spec 0 (Z.of_nat (length l))) as [Hlt|Hge].
  - rewrite !Z.quot_div_nonneg by (unfold Millisecond; try apply Z.quot_pos; lia).
    assert (sumZ l / Z.of_nat (length l) <= maxZ l) by (apply Z.div_le_upper_bound; lia).
    split; [apply Z.div_pos; [apply Z.div_pos; lia|done]|by apply Z.div_le_mono].
  - split; [lia|]. apply Z.quot_pos; [lia|done].
Qed.

(** The metrics count what happened. After any record of fetches and operations whose latencies add up within an
    int64, the snapshot shows as many attempts as there were fetches, each of them a success, unavailable or a
    failure, and as many of every reason as were reported; the share of unavailable ones lies between nothing
    and all of them; every operation has its calls, its errors and its last latency; and an average is
    never above the maximum. *)
Theorem metrics_count_what_happened (xs : list measure) (o : string) :
  measurable xs -> number isUnavailable xs * 10000 < 2 ^ 63 ->
  let '(_, _, _, blobs, ops, _, _) := Snapshot (foldl (flip record) NewServiceMetricsState xs) in
  bm_AttemptsTotal blobs = Z.of_nat (length (omap fetchLatency xs))
  /\ bm_AttemptsTotal blobs = bm_SuccessTotal blobs + bm_UnavailableTotal blobs + bm_FailureTotal blobs
  /\ bm_UnavailableTotal blobs = number isUnavailable xs
  /\ (forall r, counter r (bm_UnavailableReasons blobs) = number (hasReason r) xs)
  /\ 0 <= bm_UnavailableRateBps blobs <= 10000
  /\ 0 <= bm_AvgLatencyMs blobs <= bm_MaxLatencyMs blobs
  /\ match ops !! o with
     | None => True
     | Some m => op_Count m = Z.of_nat (length (omap (opLatency o) xs)) /\ op_Errors m = number (isOpError o) xs
                 /\ op_LastLatencyMs m = Z.quot (List.last (omap (opLatency o) xs) 0) Millisecond
                 /\ 0 <= op_AvgLatencyMs m <= op_MaxLatencyMs m
     end.
Proof.
  intros Hm Hu. destruct (recorded xs Hm) as [[Ha Hun Hsum [Hs Hf] Ht Hx Hl Hr] Ho]. unfold Snapshot. cbn.
  destruct Hm as (Hnn & _ & _). pose proof (number_bound isUnavailable xs) as Hb.
  destruct (sumZ_omap _ _ fetchLatency_of Hnn) as [_ Hlat]. split_and!; try done.
  - destruct (Z.ltb_spec 0 (bf_attemptsTotal (sm_blobFetch (foldl (flip record) NewServiceMetricsState xs)))); [|lia].
    rewrite s64_small, Z.quot_div_nonneg by lia. apply Z.div_pos; lia.
  - destruct (Z.ltb_spec 0 (bf_attemptsTotal (sm_blobFetch (foldl (flip record) NewServiceMetricsState xs)))); [|lia].
    rewrite s64_small, Z.quot_div_nonneg by lia. apply Z.div_le_upper_bound; lia.
  - rewrite Ht, Ha. by apply average_le_max.
  - rewrite Ht, Ha, Hx. by apply average_le_max.
  - rewrite lookup_fmap. specialize (Ho o). destruct (sm_opMetrics _ !! o) as [m|]; [|done]. cbn in *.
    destruct Ho as (Hc & He & Ht' & Hx' & Hl'). rewrite Hc, Ht', Hx', Hl'.
    destruct (sumZ_omap _ _ (opLatency_of o) Hnn) as [_ Hlat']. by split_and!; try done; apply average_le_max.
Qed.

Definition ex_measures : list measure :=
  [MSuccess 4000000 1; MUnavailable " offline " 9000000 2; MFailure 2000000 3; MOp "send" 7000000 4; MOp "send" 1000000 5;
   MOpError "send" 5; MUnavailable "" 1 6].

Lemma metrics_count_what_happened_witness :
  measurable ex_measures
  /\ let '(_, _, _, blobs, ops, _, _) := Snapshot (foldl (flip record) NewServiceMetricsState ex_measures) in
     bm_AttemptsTotal blobs = 4 /\ counter "unknown" (bm_UnavailableReasons blobs) = 1 /\ bm_UnavailableRateBps blobs = 5000.
Proof.
  assert (Hm : measurable ex_measures).
  { split; [|split; vm_compute; reflexivity]. repeat (apply List.Forall_cons; [vm_compute; discriminate|]). apply List.Forall_nil. }
  split; [exact Hm|]. pose proof (metrics_count_what_happened ex_measures "send" Hm ltac:(vm_compute; reflexivity)) as H.
  cbn zeta beta iota delta [Snapshot] in H |- *. destruct H as (A & _ & _ & R & _). rewrite A, R.
  split_and!; vm_compute; reflexivity.
Defined.
