(* ===== verification/WakuNode.v ===== *)
(** * The node of the network and its message bus

    Models internal/waku/node.go and message_bus.go: the configuration with its defaults, the states of
    a node, starting and stopping, and the bus that the mock transport delivers on. The go-waku backend is
    the interface [goWakuBackend] of the code, over a state [G] of its own; the default build has none.
    A handler is a value of [H]. A publication to a subscriber starts a goroutine that calls the handler, and a
    subscription hands the waiting messages to the handler after the bus is unlocked: the calls are steps of their
    own, in any order with everything else. *)
From S2P Require Import Prelude Encoding Text SecureStore Identity ManifestTrust NetworkManifest RefreshPolicy Bootstrap WakuConfig Wire.
From stdpp Require Import base gmap strings list sets option.
From Stdlib Require Import ZArith Lia.
Open Scope string_scope.
Open Scope Z_scope.
Open Scope go_scope.
Local Open Scope list_scope.

(** ** The bus *)

Section Bus.
Context {H : Type}.

Record messageBus := mkBus {
  mb_subscribers : gmap string H; mb_mailbox : gmap string (list InboundPrivateMessage)
}.

Definition emptyBus : messageBus := mkBus ∅ ∅.

(** With the lock held: the goroutines that are started, [go handler(msg)]. A message without a subscriber waits. *)
Definition busPublish (msg : InboundPrivateMessage) (b : messageBus) : messageBus * list (H * InboundPrivateMessage) :=
  match mb_subscribers b !! im_Recipient msg with
  | Some handler => (b, [(handler, msg)])
  | None =>
      (mkBus (mb_subscribers b)
         (<[im_Recipient msg := default [] (mb_mailbox b !! im_Recipient msg) ++ [msg]]> (mb_mailbox b)), [])
  end.

(** With the lock held: what was pending, which the caller hands over one by one when it has unlocked the bus. *)
Definition busSubscribe (recipient : string) (handler : H) (b : messageBus) : messageBus * list InboundPrivateMessage :=
  (mkBus (<[recipient := handler]> (mb_subscribers b)) (delete recipient (mb_mailbox b)),
   default [] (mb_mailbox b !! recipient)).

Definition busUnsubscribe (recipient : string) (b : messageBus) : messageBus :=
  mkBus (delete recipient (mb_subscribers b)) (mb_mailbox b).

End Bus.
Arguments messageBus : clear implicits.

Definition TransportGoWaku : string := "go-waku".
Definition StateDisconnected : string := "disconnected".
Definition StateConnecting : string := "connecting".
Definition StateConnected : string := "connected".
Definition StateDegraded : string := "degraded".

Section Waku.
Context {float : GoFloat} {conf : GoConfig}.

(** ** Configuration *)

Definition normalizeConfig (c : Config) : Config :=
  let def := DefaultConfig in
  let interval := positiveOr (wc_ReconnectInterval c) (wc_ReconnectInterval def) in
  let backoff := positiveOr (wc_ReconnectBackoffMax c) (wc_ReconnectBackoffMax def) in
  let base := positiveOr (wc_ManifestBackoffBase c) (wc_ManifestBackoffBase def) in
  let max := positiveOr (wc_ManifestBackoffMax c) (wc_ManifestBackoffMax def) in
  mkConfig (if wc_Transport c == "" then wc_Transport def else wc_Transport c) (wc_Port c) (wc_AdvertiseAddress c)
    (wc_EnableRelay c) (wc_EnableStore c) (wc_EnableFilter c) (wc_EnableLightPush c) (wc_BootstrapNodes c)
    (wc_FailoverV1 c) (if wc_MinPeers c <? 0 then 0 else wc_MinPeers c)
    (positiveOr (wc_StoreQueryFanout c) (wc_StoreQueryFanout def)) interval
    (if backoff <? interval then interval else backoff)
    (positiveOr (wc_ManifestRefreshInterval c) (wc_ManifestRefreshInterval def))
    (positiveOr (wc_ManifestStaleWindow c) (wc_ManifestStaleWindow def))
    (positiveOr (wc_ManifestRefreshTimeout c) (wc_ManifestRefreshTimeout def)) base (if max <? base then base else max)
    (if flt (wc_ManifestBackoffFactor c) (fofZ 1) then wc_ManifestBackoffFactor def else wc_ManifestBackoffFactor c)
    (if flt (wc_ManifestBackoffJitterRatio c) (fofZ 0) then fofZ 0
     else if flt (fofZ 1) (wc_ManifestBackoffJitterRatio c) then fofZ 1 else wc_ManifestBackoffJitterRatio c)
    (wc_BootstrapSource c) (wc_BootstrapManifestVersion c) (wc_BootstrapManifestKeyID c)
    (wc_BootstrapManifestPath c) (wc_BootstrapTrustBundlePath c) (wc_BootstrapCachePath c).

(** The number of addresses, as an int. *)
Definition bootstrapCount (c : Config) : Z := Z.of_nat (length (wc_BootstrapNodes c)).

Definition estimatedPeers (c : Config) : Z :=
  if bootstrapCount c =? 0 then 1 else if 12 <? bootstrapCount c then 12 else bootstrapCount c.

Definition startupPeerTarget (c : Config) : Z :=
  let target := if wc_MinPeers c <=? 0 then 1 else wc_MinPeers c in
  let target := if (0 <? bootstrapCount c) && (bootstrapCount c <? target) then bootstrapCount c else target in
  if target <? 1 then 1 else target.

Definition startupHandshakeTimeout (c : Config) : Z :=
  let base := if wc_ReconnectInterval c <=? 0 then Second else wc_ReconnectInterval c in
  let timeout := s64 (base * 5) in
  let timeout := if timeout <? 2 * Second then 2 * Second else timeout in
  let timeout := if (0 <? wc_ReconnectBackoffMax c) && (wc_ReconnectBackoffMax c <? timeout)
                 then wc_ReconnectBackoffMax c else timeout in
  if timeout <=? 0 then 2 * Second else timeout.

Definition startupStateFromPeerCount (peerCount : Z) (c : Config) : string :=
  if startupPeerTarget c <=? peerCount then StateConnected else StateDegraded.

(** ** Nodes *)

Context {G H : Type}.

Class goWakuBackend := {
  newGoWakuBackend : option G;
  gwStart : Config -> M G error unit;
  gwStop : G -> G;
  gwPeerCount : G -> Z;
  gwNetworkMetrics : G -> gmap string Z;
  gwApplyConfig : Config -> G -> G;
  gwSetIdentity : string -> G -> G;
  gwListenAddresses : G -> list string;
  gwSubscribePrivate : H -> M G error unit;
  gwPublishPrivate : InboundPrivateMessage -> M G error unit;
  gwFetchPrivateSince : string -> Z -> Z -> M G error (list InboundPrivateMessage)
}.
Context {backend : goWakuBackend}.

Record NodeStatus := mkNodeStatus {
  st_State : string; st_PeerCount : Z; st_LastSync : Z; st_BootstrapSource : string;
  st_BootstrapManifestVersion : Z; st_BootstrapManifestKeyID : string
}.

(** [nd_monitor]: whether [monitorCancel] is set. [nd_lost] is no field of the code: the backends that the node started
    and that run although it has no pointer to them. *)
Record Node := mkNode {
  nd_cfg : Config; nd_status : NodeStatus; nd_selfID : string; nd_handler : option H; nd_gw : option G;
  nd_monitor : bool; nd_stateTransitions : Z; nd_lost : list G
}.

Definition NewNode (cfg : Config) : Node :=
  let cfg := normalizeConfig cfg in
  mkNode cfg (mkNodeStatus StateDisconnected 0 0 (wc_BootstrapSource cfg) 0 "") "" None None false 0 [].

Definition with_status (s : NodeStatus) (n : Node) : Node :=
  mkNode (nd_cfg n) s (nd_selfID n) (nd_handler n) (nd_gw n) (nd_monitor n) (nd_stateTransitions n) (nd_lost n).
Definition with_gw (g : option G) (n : Node) : Node :=
  mkNode (nd_cfg n) (nd_status n) (nd_selfID n) (nd_handler n) g (nd_monitor n) (nd_stateTransitions n) (nd_lost n).
Definition with_lost (l : list G) (n : Node) : Node :=
  mkNode (nd_cfg n) (nd_status n) (nd_selfID n) (nd_handler n) (nd_gw n) (nd_monitor n) (nd_stateTransitions n) l.
Definition with_monitor (m : bool) (n : Node) : Node :=
  mkNode (nd_cfg n) (nd_status n) (nd_selfID n) (nd_handler n) (nd_gw n) m (nd_stateTransitions n) (nd_lost n).

(** [status.PeerCount] and [status.LastSync] *)
Definition with_peers (peers now : Z) (n : Node) : Node :=
  let s := nd_status n in
  with_status (mkNodeStatus (st_State s) peers now (st_BootstrapSource s) (st_BootstrapManifestVersion s)
                 (st_BootstrapManifestKeyID s)) n.

Definition transitionStateLocked (next : string) (n : Node) : Node :=
  let s := nd_status n in
  if next == "" then n else
  if st_State s == next then n else
  mkNode (nd_cfg n) (mkNodeStatus next (st_PeerCount s) (st_LastSync s) (st_BootstrapSource s)
                       (st_BootstrapManifestVersion s) (st_BootstrapManifestKeyID s)) (nd_selfID n) (nd_handler n)
    (nd_gw n) (nd_monitor n) (s64 (nd_stateTransitions n + 1)) (nd_lost n).

Definition setDisconnected (now : Z) (n : Node) : Node := with_peers 0 now (transitionStateLocked StateDisconnected n).

(** What [waitForStartupPeerCount] sees in a turn of its loop, after the backend changed by itself. *)
Inductive waitEvent := WaitDone (change : G -> G) (err : error) | WaitTimeout (change : G -> G) | WaitTick (change : G -> G).

(** [None] while no event of the list ends the wait; the timer makes sure that one does. *)
Fixpoint waitLoop (target : Z) (events : list waitEvent) (g : G) : option (G * result error Z) :=
  match events with
  | [] => None
  | WaitDone change err :: _ => Some (change g, Err err)
  | WaitTimeout change :: _ => Some (change g, Ok (gwPeerCount (change g)))
  | WaitTick change :: events =>
      let g := change g in
      if target <=? gwPeerCount g then Some (g, Ok (gwPeerCount g)) else waitLoop target events g
  end.

Definition waitForStartupPeerCount (cfg : Config) (events : list waitEvent) (g : G) : option (G * result error Z) :=
  let target := startupPeerTarget cfg in
  let peerCount := gwPeerCount g in
  if target <=? peerCount then Some (g, Ok peerCount) else waitLoop target events g.

(** The clocks of [Start], the context's error when it ends before the mock is up, and the events of the wait. *)
Record StartEnv := mkStartEnv { se_now : Z; se_later : Z; se_done : option error; se_wait : list waitEvent }.

Definition noBackend : error := errorsNew "go-waku backend is not available in this build".

(** [None]: the wait goes on. The monitor's goroutine runs [refreshRuntimeStatus]. A backend that was started is not
    stopped when the wait for peers fails, nor is one that another start replaces. *)
Definition Start (env : StartEnv) (n : Node) : option (Node * result error unit) :=
  let n := with_peers (st_PeerCount (nd_status n)) (se_now env) (transitionStateLocked StateConnecting n) in
  if wc_Transport (nd_cfg n) == TransportGoWaku then
    match newGoWakuBackend with
    | None => Some (setDisconnected (se_later env) n, Err noBackend)
    | Some g =>
        let '(g, r) := gwStart (nd_cfg n) g in
        match r with
        | Err err => Some (setDisconnected (se_later env) n, Err err)
        | Ok _ =>
            let wait := if wc_FailoverV1 (nd_cfg n) then waitForStartupPeerCount (nd_cfg n) (se_wait env) g
                        else Some (g, Ok (gwPeerCount g)) in
            match wait with
            | None => None
            | Some (g, Err err) => Some (setDisconnected (se_later env) (with_lost (g :: nd_lost n) n), Err err)
            | Some (g, Ok peerCount) =>
                let n := with_lost (match nd_gw n with Some old => old :: nd_lost n | None => nd_lost n end) n in
                let n := transitionStateLocked (startupStateFromPeerCount peerCount (nd_cfg n)) (with_gw (Some g) n) in
                Some (with_monitor true (with_peers peerCount (se_later env) n), Ok tt)
            end
        end
    end
  else
    match se_done env with
    | Some err => Some (n, Err err)
    | None =>
        let n := transitionStateLocked StateConnected n in
        Some (with_peers (estimatedPeers (nd_cfg n)) (se_later env) n, Ok tt)
    end.

Definition Stop (now : Z) (nb : Node * messageBus H) : Node * messageBus H :=
  let '(n, b) := nb in
  let n := with_gw None (with_monitor false n) in
  let b := if negb (nd_selfID n == "") then busUnsubscribe (nd_selfID n) b else b in
  (with_peers 0 now (transitionStateLocked StateDisconnected n), b).

Definition StatusOf (n : Node) : NodeStatus :=
  let s := nd_status n in
  mkNodeStatus (st_State s) (match nd_gw n with Some g => gwPeerCount g | None => st_PeerCount s end) (st_LastSync s)
    (if st_BootstrapSource s == "" then wc_BootstrapSource (nd_cfg n) else st_BootstrapSource s)
    (wc_BootstrapManifestVersion (nd_cfg n)) (wc_BootstrapManifestKeyID (nd_cfg n)).

Definition SetIdentity (identityID : string) (n : Node) : Node :=
  mkNode (nd_cfg n) (nd_status n) identityID (nd_handler n) (gwSetIdentity identityID <$> nd_gw n) (nd_monitor n)
    (nd_stateTransitions n) (nd_lost n).

(** The fields [ApplyBootstrapConfig] takes over. *)
Definition with_bootstrap (src dst : Config) : Config :=
  mkConfig (wc_Transport dst) (wc_Port dst) (wc_AdvertiseAddress dst) (wc_EnableRelay dst) (wc_EnableStore dst)
    (wc_EnableFilter dst) (wc_EnableLightPush dst) (wc_BootstrapNodes src) (wc_FailoverV1 dst) (wc_MinPeers src)
    (wc_StoreQueryFanout dst) (wc_ReconnectInterval src) (wc_ReconnectBackoffMax src) (wc_ManifestRefreshInterval dst)
    (wc_ManifestStaleWindow dst) (wc_ManifestRefreshTimeout dst) (wc_ManifestBackoffBase dst)
    (wc_ManifestBackoffMax dst) (wc_ManifestBackoffFactor dst) (wc_ManifestBackoffJitterRatio dst)
    (wc_BootstrapSource src) (wc_BootstrapManifestVersion src) (wc_BootstrapManifestKeyID src)
    (wc_BootstrapManifestPath dst) (wc_BootstrapTrustBundlePath dst) (wc_BootstrapCachePath dst).

Definition ApplyBootstrapConfig (cfg : Config) (n : Node) : Node :=
  let cfg := normalizeConfig cfg in
  let nodeCfg := with_bootstrap cfg (nd_cfg n) in
  let s := nd_status n in
  mkNode nodeCfg (mkNodeStatus (st_State s) (st_PeerCount s) (st_LastSync s) (wc_BootstrapSource cfg)
                    (wc_BootstrapManifestVersion cfg) (wc_BootstrapManifestKeyID cfg)) (nd_selfID n) (nd_handler n)
    (gwApplyConfig nodeCfg <$> nd_gw n) (nd_monitor n) (nd_stateTransitions n) (nd_lost n).

(** Whether the node may send and receive. *)
Definition connected (n : Node) : bool :=
  let state := st_State (nd_status n) in (state == StateConnected) || (state == StateDegraded).

Definition notConnected : error := errorsNew "waku not connected".

(** With the messages that are then handed to the handler, before the call returns. *)
Definition SubscribePrivate (handler : H) (nb : Node * messageBus H)
    : Node * messageBus H * list InboundPrivateMessage * result error unit :=
  let '(n, b) := nb in
  let n := mkNode (nd_cfg n) (nd_status n) (nd_selfID n) (Some handler) (nd_gw n) (nd_monitor n) (nd_stateTransitions n) (nd_lost n) in
  if negb (connected n) then (n, b, [], Err notConnected) else
  if nd_selfID n == "" then (n, b, [], Err (errorsNew "identity is not set")) else
  match nd_gw n with
  | Some g => let '(g, r) := gwSubscribePrivate handler g in (with_gw (Some g) n, b, [], r)
  | None => let '(b, pending) := busSubscribe (nd_selfID n) handler b in (n, b, pending, Ok tt)
  end.

(** With the goroutines that are started. *)
Definition PublishPrivate (msg : InboundPrivateMessage) (nb : Node * messageBus H)
    : Node * messageBus H * list (H * InboundPrivateMessage) * result error unit :=
  let '(n, b) := nb in
  if negb (connected n) then (n, b, [], Err notConnected) else
  if im_Recipient msg == "" then (n, b, [], Err (errorsNew "recipient is required")) else
  match nd_gw n with
  | Some g => let '(g, r) := gwPublishPrivate msg g in (with_gw (Some g) n, b, [], r)
  | None => let '(b, calls) := busPublish msg b in (n, b, calls, Ok tt)
  end.

Definition ListenAddresses (n : Node) : list string :=
  match nd_gw n with None => [] | Some g => gwListenAddresses g end.

(** The mock transport has nothing to fetch: its mailbox is emptied by the subscription. *)
Definition FetchPrivateSince (recipient : string) (since limit : Z) (n : Node)
    : Node * result error (list InboundPrivateMessage) :=
  if negb (connected n) then (n, Err notConnected) else
  if recipient == "" then (n, Err (errorsNew "recipient is required")) else
  match nd_gw n with
  | None => (n, Ok [])
  | Some g => let '(g, r) := gwFetchPrivateSince recipient since limit g in (with_gw (Some g) n, r)
  end.

(** The monitor looks at the peers of the backend. *)
Definition refreshRuntimeStatus (now : Z) (n : Node) : Node :=
  match nd_gw n with
  | None => n
  | Some g =>
      let peerCount := gwPeerCount g in
      let nextState := if peerCount <=? 0 then StateDegraded else StateConnected in
      if st_State (nd_status n) == StateDisconnected then n else
      if negb (st_State (nd_status n) == nextState) || negb (st_PeerCount (nd_status n) =? peerCount)
      then with_peers peerCount now (transitionStateLocked nextState n) else n
  end.

(** The backend's values win over the node's. *)
Definition NetworkMetrics (n : Node) : gmap string Z :=
  match nd_gw n with Some g => gwNetworkMetrics g | None => ∅ end
  ∪ {["network_state_transitions" := nd_stateTransitions n]}.

(** ** What a normal configuration is *)

Definition config_ok (c : Config) : Prop :=
  wc_Transport c <> "" /\ 0 <= wc_MinPeers c /\ 0 < wc_StoreQueryFanout c
  /\ 0 < wc_ReconnectInterval c <= wc_ReconnectBackoffMax c /\ 0 < wc_ManifestRefreshInterval c
  /\ 0 < wc_ManifestStaleWindow c /\ 0 < wc_ManifestRefreshTimeout c
  /\ 0 < wc_ManifestBackoffBase c <= wc_ManifestBackoffMax c
  /\ flt (wc_ManifestBackoffFactor c) (fofZ 1) = false
  /\ flt (wc_ManifestBackoffJitterRatio c) (fofZ 0) = false /\ flt (fofZ 1) (wc_ManifestBackoffJitterRatio c) = false.

Lemma positiveOr_positive v d : 0 < d -> 0 < positiveOr v d.
Proof. unfold positiveOr. destruct (Z.leb_spec v 0); lia. Qed.
Lemma positiveOr_id v d : 0 < v -> positiveOr v d = v.
Proof. unfold positiveOr. destruct (Z.leb_spec v 0); lia. Qed.
Lemma floor_zero v : 0 <= (if v <? 0 then 0 else v).
Proof. destruct (Z.ltb_spec v 0); lia. Qed.
Lemma raise_le base max : base <= (if max <? base then base else max).
Proof. destruct (Z.ltb_spec max base); lia. Qed.
Lemma raise_id base max : base <= max -> (if max <? base then base else max) = max.
Proof. destruct (Z.ltb_spec max base); lia. Qed.

(** The configuration of a node is always normal, and a normal one is used as it is: intervals and limits are
    positive, no maximum lies below its base, the factor is not below one and the jitter within [0, 1]. *)
Lemma normal_configuration (laws : GoFloatLaws float) (c : Config) :
  flt (thousandths 2000) (fofZ 1) = false ->
  config_ok (normalizeConfig c) /\ (config_ok c -> normalizeConfig c = c).
Proof.
  intros H2. assert (Hf : forall a b, 0 <= b <= a -> a <= 1 -> flt (fofZ a) (fofZ b) = false).
  { intros a b Hb Ha. rewrite flt_ofZ by lia. apply Z.ltb_ge. lia. }
  split.
  - unfold config_ok, normalizeConfig. cbn. split_and!; try (apply positiveOr_positive; done); try apply floor_zero; try apply raise_le.
    + destruct (wc_Transport c == "") eqn:E; [done|]. by apply bool_decide_eq_false in E.
    + destruct (flt (wc_ManifestBackoffFactor c) (fofZ 1)) eqn:E; done.
    + destruct (flt (wc_ManifestBackoffJitterRatio c) (fofZ 0)) eqn:E; [by apply Hf|].
      destruct (flt (fofZ 1) (wc_ManifestBackoffJitterRatio c)) eqn:E'; [by apply Hf|done].
    + destruct (flt (wc_ManifestBackoffJitterRatio c) (fofZ 0)) eqn:E; [|destruct (flt (fofZ 1) (wc_ManifestBackoffJitterRatio c)) eqn:E'; [by apply Hf|done]].
      rewrite flt_ofZ by lia. done.
  - intros (Ht & Hp & Hs & [Hi Hb] & Hr & Hw & Ho & [Hbb Hbm] & Hfac & Hj0 & Hj1). unfold normalizeConfig.
    rewrite !positiveOr_id by (done || lia). rewrite !raise_id, Hfac, Hj0, Hj1 by done.
    rewrite (bool_decide_false (wc_Transport c = "")) by done. by destruct c.
Qed.

(** The wait for peers has a target the bootstrap nodes can meet, and a timeout that is positive and bounded. *)
Lemma startup_wait_bounds (c : Config) :
  let base := if wc_ReconnectInterval c <=? 0 then Second else wc_ReconnectInterval c in
  1 <= startupPeerTarget c <= Z.max 1 (wc_MinPeers c)
  /\ (wc_BootstrapNodes c <> [] -> startupPeerTarget c <= bootstrapCount c)
  /\ (base * 5 < 2 ^ 63 -> 0 < startupHandshakeTimeout c <= Z.max (2 * Second) (base * 5)).
Proof.
  intros base. unfold startupPeerTarget, startupHandshakeTimeout. fold base. assert (HS : Second = 1000000000) by reflexivity.
  assert (Hb : 0 < base) by (unfold base; destruct (Z.leb_spec (wc_ReconnectInterval c) 0); lia).
  split; [|split].
  - destruct (Z.leb_spec (wc_MinPeers c) 0), (Z.ltb_spec 0 (bootstrapCount c)); cbn [andb];
      repeat match goal with |- context[?a <? ?b] => destruct (Z.ltb_spec a b) end; lia.
  - intros Hn. assert (0 < bootstrapCount c) by (unfold bootstrapCount; destruct (wc_BootstrapNodes c); cbn; [done|lia]).
    destruct (Z.leb_spec (wc_MinPeers c) 0), (Z.ltb_spec 0 (bootstrapCount c)); cbn [andb];
      repeat match goal with |- context[?a <? ?b] => destruct (Z.ltb_spec a b) end; lia.
  - intros Ho. rewrite s64_small by lia.
    destruct (Z.ltb_spec (base * 5) (2 * Second)), (Z.ltb_spec 0 (wc_ReconnectBackoffMax c)); cbn [andb];
      repeat match goal with |- context[?a <? ?b] => destruct (Z.ltb_spec a b) end;
      repeat match goal with |- context[?a <=? ?b] => destruct (Z.leb_spec a b) end; lia.
Qed.

(** The wait ends at the latest when the timer fires or the context ends. *)
Lemma waitLoop_ends target events g :
  Exists (fun e => match e with WaitTick _ => False | _ => True end) events -> is_Some (waitLoop target events g).
Proof.
  intros He. revert g. induction He as [e events He|e events _ IH]; intros g; cbn; destruct e as [f err|f|f]; try done; try by eexists.
  destruct (target <=? gwPeerCount (f g)); [by eexists|]. apply IH.
Qed.

(** ** Nodes on one bus *)

(** What an operation of a node shows outside; [Published msg true]: the message was taken for the bus. *)
Inductive net_label :=
| Started (ok : bool) | Stopped | Subscribed (id : string) (handler : H)
| Published (msg : InboundPrivateMessage) (taken : bool) | Quiet.

Definition on_bus (n : Node) : bool := match nd_gw n with None => true | Some _ => false end.

(** A subscription that hands its pending messages over: those that are left. *)
Record handOver := mkHandOver { ho_id : string; ho_handler : H; ho_left : list InboundPrivateMessage }.

(** The operations of a node, the ticks of its monitor, and the changes its backend makes by itself, with the
    goroutines and the handing over that they start. *)
Inductive node_step : Node * messageBus H -> net_label -> list (H * InboundPrivateMessage) -> list handOver
    -> Node * messageBus H -> Prop :=
| step_start env n n' b r : Start env n = Some (n', r) -> node_step (n, b) (Started (is_ok r)) [] [] (n', b)
| step_stop now s : node_step s Stopped [] [] (Stop now s)
| step_identity id n b : node_step (n, b) Quiet [] [] (SetIdentity id n, b)
| step_apply cfg n b : node_step (n, b) Quiet [] [] (ApplyBootstrapConfig cfg n, b)
| step_subscribe handler s s' pending r : SubscribePrivate handler s = (s', pending, r) ->
    node_step s (Subscribed (nd_selfID (fst s)) handler) [] [mkHandOver (nd_selfID (fst s)) handler pending] s'
| step_publish msg s s' gs r : PublishPrivate msg s = (s', gs, r) ->
    node_step s (Published msg (on_bus (fst s) && is_ok r)) gs [] s'
| step_fetch recipient since limit n b :
    node_step (n, b) Quiet [] [] (fst (FetchPrivateSince recipient since limit n), b)
| step_monitor now n b : nd_monitor n = true -> node_step (n, b) Quiet [] [] (refreshRuntimeStatus now n, b)
| step_backend g g' n b : nd_gw n = Some g -> node_step (n, b) Quiet [] [] (with_gw (Some g') n, b).

(** The nodes of one process and their bus; the goroutines [go handler(msg)] that have not run yet; the subscriptions
    in the order in which they were made, with what they still have to hand over. *)
Record netState := mkNet {
  net_nodes : gmap nat Node; net_bus : messageBus H; net_goroutines : list (H * InboundPrivateMessage); net_handing : list handOver
}.

(** A call of a handler, from a goroutine or from the subscription of that number. *)
Record handlerCall := mkCall { hc_from : option nat; hc_handler : H; hc_message : InboundPrivateMessage }.

(** A run: the labels with their nodes, and the calls of handlers in their order. A goroutine runs when the scheduler
    takes it; a subscription hands over its messages one by one while anything else goes on. *)
Inductive net_run (nodes : gmap nat Node) : list (nat * net_label) -> list handlerCall -> netState -> Prop :=
| net_start : net_run nodes [] [] (mkNet nodes emptyBus [] [])
| net_step ls calls s i n l gs hs n' b' :
    net_run nodes ls calls s -> net_nodes s !! i = Some n -> node_step (n, net_bus s) l gs hs (n', b') ->
    net_run nodes (ls ++ [(i, l)]) calls
      (mkNet (<[i := n']> (net_nodes s)) b' (net_goroutines s ++ gs) (net_handing s ++ hs))
| net_goroutine ls calls ns b g1 handler msg g2 hs :
    net_run nodes ls calls (mkNet ns b (g1 ++ (handler, msg) :: g2) hs) ->
    net_run nodes ls (calls ++ [mkCall None handler msg]) (mkNet ns b (g1 ++ g2) hs)
| net_hand_over ls calls ns b gs hs k id handler msg left :
    net_run nodes ls calls (mkNet ns b gs hs) -> hs !! k = Some (mkHandOver id handler (msg :: left)) ->
    net_run nodes ls (calls ++ [mkCall (Some k) handler msg]) (mkNet ns b gs (<[k := mkHandOver id handler left]> hs)).

(** The messages the bus took, and whether the last start or stop of a node was a successful start. *)
Definition taken (l : nat * net_label) : list InboundPrivateMessage :=
  match l with (_, Published msg true) => [msg] | _ => [] end.

Definition started_after (i : nat) (up : bool) (l : nat * net_label) : bool :=
  match l with
  | (j, Started ok) => if Nat.eqb i j then ok else up
  | (j, Stopped) => if Nat.eqb i j then false else up
  | _ => up
  end.
Definition started (i : nat) (ls : list (nat * net_label)) : bool := fold_left (started_after i) ls false.

Definition addressed (r : string) (msg : InboundPrivateMessage) : Prop := im_Recipient msg = r.
#[global] Instance addressed_dec r msg : Decision (addressed r msg).
Proof. unfold addressed. apply _. Defined.

Definition waiting (b : messageBus H) (r : string) : list InboundPrivateMessage := default [] (mb_mailbox b !! r).

Definition fresh_nodes (nodes : gmap nat Node) : Prop := map_Forall (fun _ n => exists cfg, n = NewNode cfg) nodes.

(** *** The bus hands every message over once *)

(** Nobody has both a handler and a mailbox. *)
Definition bus_ok (b : messageBus H) : Prop := forall r, is_Some (mb_subscribers b !! r) -> mb_mailbox b !! r = None.
(** What waits for a recipient is addressed to it, and what a subscription hands over to its identity. *)
Definition mail_ok (b : messageBus H) : Prop := forall r, Forall (addressed r) (waiting b r).
Definition handing_ok (x : handOver) : Prop := Forall (addressed (ho_id x)) (ho_left x).

Definition for_recipient (r : string) (msgs : list InboundPrivateMessage) : list InboundPrivateMessage := filter (addressed r) msgs.

(** What was handed to a recipient, and what is on its way: in a goroutine, in a subscription, in the mailbox. *)
Definition delivered (r : string) (calls : list handlerCall) : list InboundPrivateMessage := for_recipient r (hc_message <$> calls).
Definition on_its_way (r : string) (s : netState) : list InboundPrivateMessage :=
  for_recipient r (snd <$> net_goroutines s) ++ for_recipient r (net_handing s ≫= ho_left) ++ waiting (net_bus s) r.

(** What the subscription [k] has handed over, and the messages for a recipient that had to wait: what its subscriptions
    handed over or have left, in their order. *)
Definition handed (calls : list handlerCall) (k : nat) : list InboundPrivateMessage :=
  omap (fun c => if decide (hc_from c = Some k) then Some (hc_message c) else None) calls.
Definition queued (r : string) (calls : list handlerCall) (hs : list handOver) : list InboundPrivateMessage :=
  mjoin (imap (fun k x => if decide (ho_id x = r) then handed calls k ++ ho_left x else []) hs).

(** What the bus takes, from one state of it to the next: the goroutines and the new pending messages account for it. *)
Definition bus_moves (b : messageBus H) (msgs : list InboundPrivateMessage) (gs : list (H * InboundPrivateMessage))
    (hs : list handOver) (b' : messageBus H) : Prop :=
  bus_ok b' /\ mail_ok b' /\ Forall handing_ok hs
  /\ forall r, for_recipient r (snd <$> gs) ++ for_recipient r (hs ≫= ho_left) ++ waiting b' r ≡ₚ waiting b r ++ for_recipient r msgs
       /\ (hs ≫= (fun x => if decide (ho_id x = r) then ho_left x else [])) ++ waiting b' r `sublist_of` waiting b r ++ for_recipient r msgs.

Lemma bus_quiet b : bus_ok b -> mail_ok b -> bus_moves b [] [] [] b.
Proof. intros Hb Hm. split_and!; [done..|constructor|]. intros r. cbn. by rewrite app_nil_r. Qed.

Lemma addressed_one r msg : for_recipient r [msg] = if decide (im_Recipient msg = r) then [msg] else [].
Proof. unfold for_recipient. rewrite filter_cons, filter_nil. unfold decide at 1, addressed_dec. done. Qed.

Lemma addressed_every r l : Forall (addressed r) l -> for_recipient r l = l.
Proof. intros Hl. by apply filter_all, list.Forall_forall. Qed.

Lemma addressed_other r r' l : r <> r' -> Forall (addressed r) l -> for_recipient r' l = [].
Proof.
  intros Hne. induction 1 as [|m l Hm _ IH]; [done|]. unfold for_recipient, addressed in *. rewrite filter_cons_False by congruence. done.
Qed.

Lemma busPublish_moves msg b : bus_ok b -> mail_ok b -> bus_moves b [msg] (busPublish msg b).2 [] (busPublish msg b).1.
Proof.
  intros Hb Hm. unfold busPublish. destruct (mb_subscribers b !! im_Recipient msg) as [handler|] eqn:Es; cbn [fst snd].
  - split_and!; [done..|constructor|]. intros r. cbn [fmap list_fmap snd mbind list_bind]. rewrite !addressed_one.
    destruct (decide (im_Recipient msg = r)) as [<-|]; cbn [app].
    + assert (E : waiting b (im_Recipient msg) = []) by (unfold waiting; by rewrite Hb by (by rewrite Es)). rewrite E.
      split; [done|]. cbn. apply sublist_nil_l.
    + by rewrite app_nil_r.
  - split_and!.
    + intros r [h Hr]. cbn in *. rewrite lookup_insert_ne by congruence. apply Hb. by eexists.
    + intros r. unfold waiting. cbn. destruct (decide (im_Recipient msg = r)) as [<-|]; [|rewrite lookup_insert_ne by done; apply Hm].
      rewrite lookup_insert_eq. cbn. apply Forall_app. split; [apply Hm|]. by constructor.
    + constructor.
    + intros r. cbn [fmap list_fmap mbind list_bind]. rewrite addressed_one. unfold waiting. cbn.
      destruct (decide (im_Recipient msg = r)) as [<-|]; [by rewrite lookup_insert_eq|]. by rewrite lookup_insert_ne, app_nil_r.
Qed.

Lemma busSubscribe_moves id handler b : bus_ok b -> mail_ok b ->
  let '(b', pending) := busSubscribe id handler b in bus_moves b [] [] [mkHandOver id handler pending] b'.
Proof.
  intros Hb Hm. unfold busSubscribe. fold (waiting b id).
  assert (Hw : forall r, waiting (mkBus (<[id:=handler]> (mb_subscribers b)) (delete id (mb_mailbox b))) r = if decide (id = r) then [] else waiting b r).
  { intros r. unfold waiting. cbn [mb_mailbox]. destruct (decide (id = r)) as [<-|]; [by rewrite lookup_delete_eq|by rewrite lookup_delete_ne]. }
  split_and!.
  - intros r [h Hr]. cbn in *. destruct (decide (id = r)) as [<-|]; [by rewrite lookup_delete_eq|].
    rewrite lookup_insert_ne in Hr by done. rewrite lookup_delete_ne by done. apply Hb. by eexists.
  - intros r. rewrite Hw. case_decide; [constructor|apply Hm].
  - constructor; [apply Hm|constructor].
  - intros r. rewrite Hw. cbn [fmap list_fmap mbind list_bind ho_left ho_id]. rewrite !app_nil_r.
    cbn [app]. change (for_recipient r []) with (@nil InboundPrivateMessage). rewrite app_nil_l. case_decide as Hr; [subst r; rewrite (addressed_every id) by apply Hm; by rewrite app_nil_r|].
    by rewrite (addressed_other id r).
Qed.

(** Handlers are subscribed by a node with the identity they are called for. *)
Definition subscribed (ls : list (nat * net_label)) (r : string) (handler : H) : Prop :=
  exists i, (i, Subscribed r handler) ∈ ls.
Definition subs_ok (ls : list (nat * net_label)) (b : messageBus H) : Prop :=
  forall r handler, mb_subscribers b !! r = Some handler -> subscribed ls r handler.
Definition goroutines_ok (ls : list (nat * net_label)) (gs : list (H * InboundPrivateMessage)) : Prop :=
  Forall (fun g => subscribed ls (im_Recipient g.2) g.1) gs.
Definition subscriptions_ok (ls : list (nat * net_label)) (hs : list handOver) : Prop :=
  Forall (fun x => subscribed ls (ho_id x) (ho_handler x)) hs.

Lemma subscribed_app ls ls' r handler : subscribed ls r handler -> subscribed (ls ++ ls') r handler.
Proof. intros [i Hi]. exists i. apply elem_of_app. by left. Qed.

Definition bus_inv (ls : list (nat * net_label)) (b : messageBus H) : Prop := bus_ok b /\ mail_ok b /\ subs_ok ls b.

(** What a step of a node does to the bus, and who is called for it. *)
Definition accounts (ls : list (nat * net_label)) (i : nat) (b : messageBus H) (l : net_label) (gs : list (H * InboundPrivateMessage))
    (hs : list handOver) (b' : messageBus H) : Prop :=
  let ls' := ls ++ [(i, l)] in
  bus_moves b (taken (i, l)) gs hs b' /\ bus_inv ls' b' /\ goroutines_ok ls' gs /\ subscriptions_ok ls' hs.

Lemma same_bus ls i l b hs : taken (i, l) = [] -> bus_inv ls b ->
  Forall (fun x => ho_left x = [] /\ subscribed (ls ++ [(i, l)]) (ho_id x) (ho_handler x)) hs -> accounts ls i b l [] hs b.
Proof.
  intros Ht (Hb & Hm & Hs) Hhs. unfold accounts. cbv zeta. rewrite Ht.
  assert (E : forall r, hs ≫= (fun x => if decide (ho_id x = r) then ho_left x else []) = [] /\ hs ≫= ho_left = []).
  { intros r. clear - Hhs. induction Hhs as [|x hs [Hx _] _ [IH1 IH2]]; [done|]. rewrite !bind_cons, IH1, IH2, Hx. by case_decide. }
  split_and!; [split_and!; [done..| |]| |constructor|].
  - eapply list.Forall_impl; [exact Hhs|]. intros x [Hx _]. unfold handing_ok. rewrite Hx. constructor.
  - intros r. destruct (E r) as [-> ->]. cbn. by rewrite app_nil_r.
  - split_and!; [done..|]. intros r h Hr. by apply subscribed_app, Hs.
  - eapply list.Forall_impl; [exact Hhs|]. by intros x [_ Hx].
Qed.

Lemma publish_accounts ls i msg s s' gs r : PublishPrivate msg s = (s', gs, r) -> bus_inv ls (snd s) ->
  accounts ls i (snd s) (Published msg (on_bus (fst s) && is_ok r)) gs [] (snd s').
Proof.
  destruct s as [n b]. unfold PublishPrivate, on_bus. cbn [fst snd]. intros E Hinv.
  destruct (negb (connected n)); [simplify_eq; rewrite andb_false_r; by apply same_bus|].
  destruct (im_Recipient msg == ""); [simplify_eq; rewrite andb_false_r; by apply same_bus|].
  destruct (nd_gw n) as [g|]; [destruct (gwPublishPrivate msg g); simplify_eq; by apply same_bus|].
  destruct (busPublish msg b) as [b' gs'] eqn:Ep. simplify_eq. cbn [is_ok andb snd taken]. destruct Hinv as (Hb & Hm & Hs).
  pose proof (busPublish_moves msg b Hb Hm) as Hmv. rewrite Ep in Hmv. cbn in Hmv. unfold busPublish in Ep.
  pose proof Hmv as (Hb' & Hm' & _). split; [done|]. split; [|split; [|constructor]].
  - split_and!; [done..|]. intros q h Hq. apply subscribed_app, Hs. by destruct (mb_subscribers b !! im_Recipient msg); simplify_eq.
  - destruct (mb_subscribers b !! im_Recipient msg) eqn:E; simplify_eq; [|constructor].
    constructor; [|constructor]. by apply subscribed_app, Hs.
Qed.

Lemma subscribe_accounts ls i handler s s' pending r : SubscribePrivate handler s = (s', pending, r) -> bus_inv ls (snd s) ->
  let id := nd_selfID (fst s) in accounts ls i (snd s) (Subscribed id handler) [] [mkHandOver id handler pending] (snd s').
Proof.
  destruct s as [n b]. unfold SubscribePrivate. cbn [fst snd]. change (connected (mkNode _ _ _ _ _ _ _ _)) with (connected n).
  cbn [nd_selfID nd_gw]. intros E Hinv.
  assert (Hsub : subscribed (ls ++ [(i, Subscribed (nd_selfID n) handler)]) (nd_selfID n) handler).
  { exists i. apply elem_of_app. right. by apply list_elem_of_singleton. }
  assert (Hnone : forall b, bus_inv ls b ->
    accounts ls i b (Subscribed (nd_selfID n) handler) [] [mkHandOver (nd_selfID n) handler []] b).
  { intros b0 Hb0. apply same_bus; [done|done|]. by repeat constructor. }
  destruct (negb (connected n)); [simplify_eq; by apply Hnone|].
  destruct (nd_selfID n == ""); [simplify_eq; by apply Hnone|].
  destruct (nd_gw n) as [g|]; [destruct (gwSubscribePrivate handler g); simplify_eq; by apply Hnone|].
  destruct Hinv as (Hb & Hm & Hs). pose proof (busSubscribe_moves (nd_selfID n) handler b Hb Hm) as Hmv.
  destruct (busSubscribe (nd_selfID n) handler b) as [b' pending'] eqn:Ep. simplify_eq.
  pose proof Hmv as (Hb' & Hm' & _). split; [done|]. split; [|split; [constructor|by repeat constructor]].
  split_and!; [done..|]. unfold busSubscribe in Ep. injection Ep as <- <-. intros r h Hr. cbn in Hr.
  destruct (decide (nd_selfID n = r)) as [<-|Hne]; [rewrite lookup_insert_eq in Hr; by injection Hr as <-|].
  rewrite lookup_insert_ne in Hr by done. by apply subscribed_app, Hs.
Qed.

Lemma stop_accounts ls i now s : bus_inv ls (snd s) -> accounts ls i (snd s) Stopped [] [] (snd (Stop now s)).
Proof.
  destruct s as [n b]. cbn [fst snd]. intros Hinv.
  change (snd (Stop now (n, b))) with (if negb (nd_selfID n == "") then busUnsubscribe (nd_selfID n) b else b).
  destruct (negb (nd_selfID n == "")); [|by apply same_bus; [| |constructor]].
  destruct Hinv as (Hb & Hm & Hs). assert (Hd : forall r h, delete (nd_selfID n) (mb_subscribers b) !! r = Some h -> mb_subscribers b !! r = Some h).
  { intros r h Hr. by apply lookup_delete_Some in Hr as [_ Hr]. }
  assert (Hb' : bus_ok (busUnsubscribe (nd_selfID n) b)) by (intros r [h Hr]; apply Hb; exists h; by apply Hd).
  split; [|split; [|split; constructor]].
  - split_and!; [done|exact Hm|constructor|]. intros r. cbn. rewrite app_nil_r. done.
  - split_and!; [done|exact Hm|]. intros r h Hr. apply subscribed_app, Hs. by apply Hd.
Qed.

Lemma step_accounts ls i s l gs hs s' : node_step s l gs hs s' -> bus_inv ls (snd s) -> accounts ls i (snd s) l gs hs (snd s').
Proof.
  intros Hst Hinv. destruct Hst; try (by apply same_bus; [| |constructor]);
    [by apply stop_accounts|by eapply subscribe_accounts|by eapply publish_accounts].
Qed.

(** Every subscription's calls are its own, with its handler and its identity. *)
Definition calls_ok (ls : list (nat * net_label)) (calls : list handlerCall) (hs : list handOver) : Prop :=
  Forall (fun c => subscribed ls (im_Recipient (hc_message c)) (hc_handler c)
    /\ match hc_from c with None => True | Some k => is_Some (hs !! k) end) calls.

Lemma handed_app calls c k :
  handed (calls ++ [c]) k = handed calls k ++ (if decide (hc_from c = Some k) then [hc_message c] else []).
Proof. unfold handed. rewrite omap_app. f_equal. cbn. by case_decide. Qed.

Lemma handed_none ls calls hs : calls_ok ls calls hs -> forall k, (length hs <= k)%nat -> handed calls k = [].
Proof.
  intros Hall k Hk. unfold handed. induction Hall as [|c calls [_ Hc] _ IH]; [done|]. cbn. case_decide as E; [|done].
  rewrite E in Hc. apply lookup_lt_is_Some in Hc. lia.
Qed.

(** What every run keeps. *)
Record run_inv (ls : list (nat * net_label)) (calls : list handlerCall) (s : netState) : Prop := {
  ri_bus : bus_inv ls (net_bus s);
  ri_goroutines : goroutines_ok ls (net_goroutines s);
  ri_subscriptions : subscriptions_ok ls (net_handing s) /\ Forall handing_ok (net_handing s);
  ri_calls : calls_ok ls calls (net_handing s);
  ri_once r : delivered r calls ++ on_its_way r s ≡ₚ for_recipient r (ls ≫= taken);
  ri_order r : queued r calls (net_handing s) ++ waiting (net_bus s) r `sublist_of` for_recipient r (ls ≫= taken)
}.

Lemma queued_app r ls calls hs hs' : calls_ok ls calls hs ->
  queued r calls (hs ++ hs') = queued r calls hs ++ (hs' ≫= (fun x => if decide (ho_id x = r) then ho_left x else [])).
Proof.
  intros Hc. unfold queued. rewrite imap_app, join_app. f_equal.
  assert (E : forall k, (length hs <= k)%nat -> handed calls k = []) by (by eapply handed_none).
  clear Hc. generalize (length hs) E. clear E. induction hs' as [|x hs' IH]; intros n E; [done|].
  rewrite imap_cons, bind_cons. cbn [mjoin list_join]. rewrite E by lia. f_equal.
  rewrite <- (IH (Datatypes.S n)) by (intros k Hk; apply E; lia). f_equal. apply imap_ext. intros k y _. cbn.
  by replace (n + Datatypes.S k)%nat with (Datatypes.S n + k)%nat by lia.
Qed.

Lemma run_step_inv ls calls s i n l gs hs n' b' : run_inv ls calls s -> node_step (n, net_bus s) l gs hs (n', b') ->
  run_inv (ls ++ [(i, l)]) calls (mkNet (<[i := n']> (net_nodes s)) b' (net_goroutines s ++ gs) (net_handing s ++ hs)).
Proof.
  intros [H1 H2 [H3 H3'] H4 H5 H6] Hst.
  apply (step_accounts ls i) in Hst as ((_ & _ & Hho & Hmv) & Hinv & Hgs & Hhs); [|done]. cbn [fst snd] in *.
  assert (Ht : forall r, for_recipient r ((ls ++ [(i, l)]) ≫= taken) = for_recipient r (ls ≫= taken) ++ for_recipient r (taken (i, l))).
  { intros r. unfold for_recipient. rewrite bind_app, list.filter_app. change ([(i, l)] ≫= taken) with (taken (i, l) ++ []). by rewrite app_nil_r. }
  split; cbn [net_bus net_goroutines net_handing].
  - done.
  - apply Forall_app. split; [|done]. eapply list.Forall_impl; [exact H2|]. intros g. apply subscribed_app.
  - split; apply Forall_app; (split; [|done]); [|done]. eapply list.Forall_impl; [exact H3|]. intros x. apply subscribed_app.
  - eapply list.Forall_impl; [exact H4|]. intros c [Hc Hk]. split; [by apply subscribed_app|].
    destruct (hc_from c); [|done]. destruct Hk as [x Hx]. exists x. by apply lookup_app_l_Some.
  - intros r. rewrite Ht, <- H5. destruct (Hmv r) as [Hp _]. unfold on_its_way. cbn [net_bus net_goroutines net_handing].
    rewrite fmap_app, bind_app. unfold for_recipient in *. rewrite !list.filter_app, <- !app_assoc. f_equiv. f_equiv.
    rewrite <- Hp. solve_Permutation.
  - intros r. rewrite Ht, (queued_app r ls) by done. destruct (Hmv r) as [_ Hsub]. rewrite <- app_assoc.
    etrans; [by apply sublist_app; [reflexivity|exact Hsub]|]. rewrite app_assoc. by apply sublist_app.
Qed.

Lemma one_call_inv ls calls h msg from hs hs' : calls_ok ls calls hs -> subscribed ls (im_Recipient msg) h -> length hs' = length hs ->
  match from with None => True | Some k => is_Some (hs !! k) end -> calls_ok ls (calls ++ [mkCall from h msg]) hs'.
Proof.
  intros Hc Hs Hl Hf. assert (E : forall k, is_Some (hs !! k) -> is_Some (hs' !! k)) by (intros k; rewrite !lookup_lt_is_Some; lia).
  apply Forall_app. split.
  - eapply list.Forall_impl; [exact Hc|]. intros c [? Hk]. split; [done|]. destruct (hc_from c); auto.
  - constructor; [|constructor]. cbn. split; [done|]. destruct from; auto.
Qed.

Lemma run_goroutine_inv ls calls ns b g1 h msg g2 hs : run_inv ls calls (mkNet ns b (g1 ++ (h, msg) :: g2) hs) ->
  run_inv ls (calls ++ [mkCall None h msg]) (mkNet ns b (g1 ++ g2) hs).
Proof.
  intros [H1 H2 H3 H4 H5 H6]. unfold on_its_way in *. cbn [net_bus net_goroutines net_handing] in *.
  unfold goroutines_ok in H2. apply List.Forall_app in H2 as [Hg1 H2]. inversion_clear H2 as [|? ? Hg Hg2].
  split; unfold on_its_way; cbn [net_bus net_goroutines net_handing].
  - done.
  - by apply Forall_app.
  - done.
  - by apply (one_call_inv ls calls h msg None hs).
  - intros r. rewrite <- H5. unfold delivered, for_recipient. rewrite !fmap_app, fmap_cons. cbn [fmap list_fmap snd hc_message].
    rewrite !list.filter_app, !filter_cons, filter_nil. destruct (decide (addressed r msg)); solve_Permutation.
  - intros r. replace (queued r (calls ++ [mkCall None h msg]) hs) with (queued r calls hs); [done|]. unfold queued. f_equal.
    apply imap_ext. intros k x _. rewrite handed_app. cbn. by rewrite app_nil_r.
Qed.

Lemma run_hand_over_inv ls calls ns b gs hs k id h msg left :
  run_inv ls calls (mkNet ns b gs hs) -> hs !! k = Some (mkHandOver id h (msg :: left)) ->
  run_inv ls (calls ++ [mkCall (Some k) h msg]) (mkNet ns b gs (<[k := mkHandOver id h left]> hs)).
Proof.
  intros [H1 H2 [H3 H3'] H4 H5 H6] Hk. unfold on_its_way in *. cbn [net_bus net_goroutines net_handing] in *.
  pose proof (Forall_lookup_1 _ _ _ _ H3 Hk) as Hsub. pose proof (Forall_lookup_1 _ _ _ _ H3' Hk) as Hid. cbn in Hsub.
  unfold handing_ok in Hid. cbn in Hid. inversion_clear Hid as [|? ? Hm Hleft]. unfold addressed in Hm.
  assert (E : hs = take k hs ++ mkHandOver id h (msg :: left) :: drop (Datatypes.S k) hs) by (symmetry; by apply take_drop_middle).
  assert (Hlt : (k < length hs)%nat) by (by eapply lookup_lt_Some).
  split; unfold on_its_way; cbn [net_bus net_goroutines net_handing].
  - done.
  - done.
  - split; apply Forall_insert; done.
  - apply (one_call_inv ls calls h msg (Some k) hs); [done|by rewrite Hm|apply length_insert|by eexists].
  - intros r. rewrite <- H5. rewrite (insert_take_drop hs k) by done. rewrite E at 3. unfold delivered, for_recipient.
    rewrite !fmap_app, !bind_app, !bind_cons. cbn [fmap list_fmap hc_message ho_left].
    rewrite !list.filter_app, !filter_cons, filter_nil. destruct (decide (addressed r msg)); solve_Permutation.
  - intros r. replace (queued r (calls ++ [mkCall (Some k) h msg]) (<[k:=mkHandOver id h left]> hs)) with (queued r calls hs); [done|].
    unfold queued. f_equal. apply list_eq. intros j. rewrite !list_lookup_imap. destruct (decide (j = k)) as [->|Hne].
    + rewrite list_lookup_insert_eq by done. rewrite Hk. cbn. rewrite handed_app. cbn [hc_from hc_message].
      rewrite (decide_True (P := Some k = Some k)) by done. by rewrite <- app_assoc.
    + rewrite list_lookup_insert_ne by done. destruct (hs !! j) as [x|]; [|done]. cbn. rewrite handed_app. cbn.
      rewrite (decide_False (P := Some k = Some j)) by congruence. by rewrite app_nil_r.
Qed.

Lemma net_run_inv nodes ls calls s : net_run nodes ls calls s -> run_inv ls calls s.
Proof.
  induction 1 as [|ls calls s i n l gs hs n' b' _ IH _ Hst|ls calls ns b g1 h msg g2 hs _ IH|ls calls ns b gs hs k id h msg left _ IH Hk].
  - split; cbn; try done; try by repeat constructor.
  - by eapply run_step_inv.
  - by apply run_goroutine_inv.
  - by eapply run_hand_over_inv.
Qed.

(** Running the goroutines and the subscriptions to their ends. *)
Lemma goroutines_end nodes ls calls ns b gs hs : net_run nodes ls calls (mkNet ns b gs hs) ->
  exists calls', net_run nodes ls (calls ++ calls') (mkNet ns b [] hs).
Proof.
  revert calls. induction gs as [|[h msg] gs IH]; intros calls Hr; [exists []; by rewrite app_nil_r|].
  destruct (IH (calls ++ [mkCall None h msg])) as [calls' Hr']; [by apply (net_goroutine nodes ls calls ns b [] h msg gs hs)|].
  exists (mkCall None h msg :: calls'). by rewrite <- app_assoc in Hr'.
Qed.

Lemma one_subscription_ends nodes ls calls ns b gs hs k id h left :
  net_run nodes ls calls (mkNet ns b gs hs) -> hs !! k = Some (mkHandOver id h left) ->
  exists calls', net_run nodes ls (calls ++ calls') (mkNet ns b gs (<[k := mkHandOver id h []]> hs)).
Proof.
  revert calls hs. induction left as [|msg left IH]; intros calls hs Hr Hk.
  - exists []. rewrite app_nil_r. by rewrite list_insert_id.
  - destruct (IH (calls ++ [mkCall (Some k) h msg]) (<[k := mkHandOver id h left]> hs)) as [calls' Hr'].
    + by eapply net_hand_over.
    + apply list_lookup_insert_eq. by eapply lookup_lt_Some.
    + exists (mkCall (Some k) h msg :: calls'). rewrite <- app_assoc, list_insert_insert_eq in Hr'. exact Hr'.
Qed.

Lemma subscriptions_end nodes ls calls ns b gs hs : net_run nodes ls calls (mkNet ns b gs hs) ->
  exists calls' hs', net_run nodes ls (calls ++ calls') (mkNet ns b gs hs') /\ Forall (fun x => ho_left x = []) hs'.
Proof.
  assert (Hends : forall m calls hs, net_run nodes ls calls (mkNet ns b gs hs) -> (m <= length hs)%nat ->
    exists calls' hs', net_run nodes ls (calls ++ calls') (mkNet ns b gs hs') /\ length hs' = length hs
      /\ forall k x, (k < m)%nat -> hs' !! k = Some x -> ho_left x = []).
  { clear. induction m as [|m IH]; intros calls hs Hr Hm.
    - exists [], hs. rewrite app_nil_r. split_and!; [done..|]. intros k x Hk. lia.
    - destruct (IH calls hs Hr ltac:(lia)) as (c1 & hs1 & Hr1 & Hl1 & Hdone).
      destruct (lookup_lt_is_Some_2 hs1 m) as [[id h left] Hk]; [lia|].
      destruct (one_subscription_ends _ _ _ _ _ _ _ _ _ _ _ Hr1 Hk) as [c2 Hr2]. rewrite <- app_assoc in Hr2.
      eexists _, _. split; [exact Hr2|]. split; [by rewrite length_insert|]. intros k x Hk' Hx.
      destruct (decide (k = m)) as [->|Hne]; [|rewrite list_lookup_insert_ne in Hx by done; apply (Hdone k); [lia|done]].
      rewrite list_lookup_insert_eq in Hx by lia. by injection Hx as <-. }
  intros Hr. destruct (Hends (length hs) calls hs Hr (le_n _)) as (calls' & hs' & Hr' & Hl & Hdone). exists calls', hs'.
  split; [done|]. apply Forall_lookup_2. intros k x Hx. apply (Hdone k); [|done]. rewrite <- Hl. by eapply lookup_lt_Some.
Qed.

(** C20: Between the nodes of a process no message is lost or handed over twice, whatever the nodes, the goroutines of the
    publications and the handing over of the subscriptions do in whatever order: for every recipient, the messages that
    handlers were called with and those on their way - in a goroutine, in a subscription, in the mailbox - are together
    exactly the messages that the bus took for it. The messages that had to wait for a subscriber are handed over by
    each subscription in the order of publication (those that start a goroutine each are not ordered). A handler is only
    called with messages for an identity it was subscribed under, and nothing waits for a recipient that has a handler.
    And from any point everything that is on its way can be handed over: the calls then are all but what waits. *)
Theorem bus_hands_over_once nodes ls calls s :
  net_run nodes ls calls s ->
  (forall r, delivered r calls ++ on_its_way r s ≡ₚ for_recipient r (ls ≫= taken))
  /\ (forall r, queued r calls (net_handing s) ++ waiting (net_bus s) r `sublist_of` for_recipient r (ls ≫= taken))
  /\ Forall (fun c => exists i, (i, Subscribed (im_Recipient (hc_message c)) (hc_handler c)) ∈ ls) calls
  /\ (forall r, is_Some (mb_subscribers (net_bus s) !! r) -> waiting (net_bus s) r = [])
  /\ exists calls' hs, net_run nodes ls (calls ++ calls') (mkNet (net_nodes s) (net_bus s) [] hs)
       /\ forall r, delivered r (calls ++ calls') ++ waiting (net_bus s) r ≡ₚ for_recipient r (ls ≫= taken).
Proof.
  intros Hrun. pose proof (net_run_inv _ _ _ _ Hrun) as [H1 _ _ H4 H5 H6]. split_and!; [done|done| | |].
  - eapply list.Forall_impl; [exact H4|]. by intros c [Hc _].
  - intros r Hr. unfold waiting. destruct H1 as (Hb & _). by rewrite Hb.
  - destruct s as [ns b gs hs]. destruct (goroutines_end _ _ _ _ _ _ _ Hrun) as [c1 Hr1].
    destruct (subscriptions_end _ _ _ _ _ _ _ Hr1) as (c2 & hs' & Hr2 & Hdone). rewrite <- app_assoc in Hr2.
    exists (c1 ++ c2), hs'. split; [exact Hr2|]. intros r. rewrite <- (ri_once _ _ _ (net_run_inv _ _ _ _ Hr2) r).
    unfold on_its_way. cbn [net_goroutines net_handing net_bus fmap list_fmap].
    assert (E : hs' ≫= ho_left = []) by (clear - Hdone; induction Hdone as [|x l Hx _ IH]; [done|]; by rewrite bind_cons, Hx, IH).
    by rewrite E.
Qed.

(** *** A node sends only while it is started *)

Definition node_ok (n : Node) : Prop :=
  (wc_Transport (nd_cfg n) <> TransportGoWaku -> nd_gw n = None)
  /\ (nd_gw n <> None -> st_State (nd_status n) <> StateConnecting)
  /\ st_State (nd_status n) ∈ [StateDisconnected; StateConnecting; StateConnected; StateDegraded].

(** A state that the lifecycle reaches: stopped or failed, or up. *)
Definition up_state (s : string) : bool := (s == StateConnected) || (s == StateDegraded).

Lemma transition_state next n : next <> "" -> st_State (nd_status (transitionStateLocked next n)) = next.
Proof.
  intros Hn. unfold transitionStateLocked. destruct (next == "") eqn:E; [by apply bool_decide_eq_true in E|].
  destruct (st_State (nd_status n) == next) eqn:E'; [by apply bool_decide_eq_true in E'|done].
Qed.

Lemma transition_rest next n : nd_cfg (transitionStateLocked next n) = nd_cfg n /\ nd_gw (transitionStateLocked next n) = nd_gw n.
Proof. unfold transitionStateLocked. destruct (next == ""), (st_State (nd_status n) == next); done. Qed.

Lemma startup_state_up peers c : up_state (startupStateFromPeerCount peers c) = true.
Proof. unfold startupStateFromPeerCount. by destruct (startupPeerTarget c <=? peers). Qed.

Lemma up_not_empty s : up_state s = true ->
  s <> "" /\ s <> StateConnecting /\ s ∈ [StateDisconnected; StateConnecting; StateConnected; StateDegraded].
Proof.
  intros Hu. split_and!; [by intros ->|by intros ->|]. apply orb_true_iff in Hu as [->%bool_decide_eq_true | ->%bool_decide_eq_true]; set_solver.
Qed.

(** Only [with_peers] of [Start]'s pieces is transparent to the state and the backend. *)
Lemma start_connected env n n' r : Start env n = Some (n', r) -> node_ok n -> node_ok n' /\ connected n' = is_ok r.
Proof.
  intros E (Ht & Hc & _). unfold Start in E. cbv zeta in E.
  set (n0 := with_peers _ _ (transitionStateLocked StateConnecting n)) in E.
  assert (H0 : nd_cfg n0 = nd_cfg n /\ nd_gw n0 = nd_gw n) by (apply transition_rest). destruct H0 as [Hcfg Hgw].
  assert (Hs0 : st_State (nd_status n0) = StateConnecting) by (by apply (transition_state StateConnecting)).
  rewrite Hcfg in E. clearbody n0.
  assert (Hdown : forall m now err, nd_cfg m = nd_cfg n -> nd_gw m = nd_gw n ->
    node_ok (setDisconnected now m) /\ connected (setDisconnected now m) = is_ok (A := unit) (Err (E := error) err)).
  { intros m now err Em Eg. unfold setDisconnected, node_ok, connected. cbn. destruct (transition_rest StateDisconnected m) as [-> ->].
    rewrite transition_state, Em, Eg by done. split; [split_and!; [done..|by left]|done]. }
  destruct (wc_Transport (nd_cfg n) == TransportGoWaku) eqn:Etr.
  - apply bool_decide_eq_true in Etr. destruct newGoWakuBackend as [g|]; [|injection E as <- <-; by apply (Hdown n0 _ noBackend)].
    destruct (gwStart (nd_cfg n) g) as [g1 [[]|err]]; [|injection E as <- <-; by apply (Hdown n0 _ err)].
    destruct (if wc_FailoverV1 (nd_cfg n) then _ else _) as [[g2 [peers|err]]|]; [|injection E as <- <-; by apply (Hdown _ _ err)|done].
    set (n1 := with_lost _ n0) in E. change (nd_cfg n1) with (nd_cfg n0) in E. rewrite Hcfg in E.
    injection E as <- <-. pose proof (startup_state_up peers (nd_cfg n)) as Hup. pose proof (up_not_empty _ Hup) as (Hne & Hnc & Hin).
    change (connected (with_monitor _ (with_peers _ _ ?m))) with (up_state (st_State (nd_status m))). unfold node_ok. cbn.
    destruct (transition_rest (startupStateFromPeerCount peers (nd_cfg n)) (with_gw (Some g2) n1)) as [-> ->].
    rewrite transition_state by done. change (nd_cfg (with_gw (Some g2) n1)) with (nd_cfg n0). cbn [with_gw nd_gw]. rewrite Hcfg. split; [|done]. by split_and!.
  - apply bool_decide_eq_false in Etr. destruct (se_done env) as [err|]; injection E as <- <-.
    + unfold node_ok, connected. rewrite Hcfg, Hgw, Hs0. split; [|done]. split_and!; [done| |by right; left]. by rewrite Ht.
    + change (connected (with_peers _ _ ?m)) with (up_state (st_State (nd_status m))). unfold node_ok. cbn.
      destruct (transition_rest StateConnected n0) as [-> ->]. rewrite transition_state, Hcfg, Hgw by done. split; [|done]. split_and!; [done..|by right; right; left].
Qed.

Lemma transition_lost next n : nd_lost (transitionStateLocked next n) = nd_lost n.
Proof. unfold transitionStateLocked. by destruct (next == ""), (st_State (nd_status n) == next). Qed.

(** A node without a backend loses one in a start only when its backend is up and the wait for its peers fails. *)
Lemma start_lost env n n' r : Start env n = Some (n', r) -> nd_gw n = None ->
  nd_lost n' = nd_lost n
  \/ exists g g0 g1 err, newGoWakuBackend = Some g0 /\ gwStart (nd_cfg n) g0 = (g1, Ok tt)
       /\ waitForStartupPeerCount (nd_cfg n) (se_wait env) g1 = Some (g, Err err)
       /\ wc_Transport (nd_cfg n) = TransportGoWaku /\ wc_FailoverV1 (nd_cfg n) = true /\ r = Err err /\ nd_lost n' = g :: nd_lost n.
Proof.
  intros E Hg. unfold Start in E. cbv zeta in E. set (n0 := with_peers _ _ (transitionStateLocked StateConnecting n)) in E.
  assert (H0 : nd_cfg n0 = nd_cfg n /\ nd_gw n0 = nd_gw n) by (apply transition_rest). destruct H0 as [Hcfg Hgw].
  assert (Hl : nd_lost n0 = nd_lost n) by apply transition_lost. rewrite Hgw, Hg in E. rewrite Hcfg in E. clearbody n0.
  assert (Hdown : forall now m, nd_lost (setDisconnected now m) = nd_lost m) by (intros; apply transition_lost).
  destruct (wc_Transport (nd_cfg n) == TransportGoWaku) eqn:Etr; [apply bool_decide_eq_true in Etr|].
  2: { left. destruct (se_done env); injection E as <- _; [done|]. etrans; [apply transition_lost|done]. }
  destruct newGoWakuBackend as [g0|]; [|injection E as <- _; left; by rewrite Hdown].
  destruct (gwStart (nd_cfg n) g0) as [g1 [[]|err]] eqn:Eg; [|injection E as <- _; left; by rewrite Hdown].
  destruct (wc_FailoverV1 (nd_cfg n)) eqn:Ef.
  - destruct (waitForStartupPeerCount (nd_cfg n) (se_wait env) g1) as [[g [peers|err]]|] eqn:Ew; [| |done]; injection E as <- <-.
    + left. etrans; [apply transition_lost|]. exact Hl.
    + right. exists g, g0, g1, err. split_and!; try done. rewrite Hdown. cbn. by rewrite Hl.
  - injection E as <- _. left. etrans; [apply transition_lost|]. exact Hl.
Qed.

Lemma stop_connected now (n : Node) (b : messageBus H) :
  node_ok (fst (Stop now (n, b))) /\ connected (fst (Stop now (n, b))) = false.
Proof.
  set (n0 := with_gw None (with_monitor false n)).
  change (fst (Stop now (n, b))) with (with_peers 0 now (transitionStateLocked StateDisconnected n0)).
  change (connected (with_peers _ _ ?m)) with (up_state (st_State (nd_status m))). unfold node_ok. cbn.
  destruct (transition_rest StateDisconnected n0) as [-> ->]. rewrite transition_state by done. split; [|done].
  split_and!; [done..|set_solver].
Qed.

(** The monitor moves a node between the two states it is up in. *)
Lemma monitor_connected now n : node_ok n -> node_ok (refreshRuntimeStatus now n) /\ connected (refreshRuntimeStatus now n) = connected n.
Proof.
  intros Hok. unfold refreshRuntimeStatus. destruct (nd_gw n) as [g|] eqn:Eg; [|done].
  set (next := if gwPeerCount g <=? 0 then StateDegraded else StateConnected).
  assert (Hup : up_state next = true) by (unfold next; by destruct (gwPeerCount g <=? 0)).
  destruct (st_State (nd_status n) == StateDisconnected) eqn:Ed; [done|]. apply bool_decide_eq_false in Ed.
  destruct (_ || _); [|done]. destruct (up_not_empty _ Hup) as (Hne & Hnc & Hin). destruct Hok as (Ht & Hc & Hs).
  assert (Hconn : connected n = true).
  { unfold connected. rewrite Eg in Hc. specialize (Hc ltac:(done)). rewrite !elem_of_cons in Hs.
    by destruct Hs as [Hs|[Hs|[Hs|[Hs|Hs%elem_of_nil]]]]; rewrite ?Hs. }
  change (connected (with_peers _ _ ?m)) with (up_state (st_State (nd_status m))). unfold node_ok. cbn.
  destruct (transition_rest next n) as [-> ->]. rewrite transition_state by done. rewrite Hconn. by split_and!.
Qed.

(** Everything else keeps the state, and whether there is a backend. *)
Definition same_life (n n' : Node) : Prop :=
  nd_status n' = nd_status n /\ wc_Transport (nd_cfg n') = wc_Transport (nd_cfg n) /\ on_bus n' = on_bus n /\ nd_lost n' = nd_lost n.

Lemma same_life_ok n n' : same_life n n' -> node_ok n -> node_ok n' /\ connected n' = connected n.
Proof.
  intros (Hs & Ht & Hb & _) (H1 & H2 & H3). unfold connected, node_ok. rewrite Hs, Ht. split; [|done].
  unfold on_bus in Hb. split_and!; [| |done].
  - intros Hn. specialize (H1 Hn). rewrite H1 in Hb. by destruct (nd_gw n').
  - intros Hn. apply H2. by destruct (nd_gw n), (nd_gw n').
Qed.

Lemma apply_connected cfg n : node_ok n -> node_ok (ApplyBootstrapConfig cfg n) /\ connected (ApplyBootstrapConfig cfg n) = connected n.
Proof.
  intros (H1 & H2 & H3). unfold node_ok, connected. cbn. split; [|done]. split_and!; [|by destruct (nd_gw n); auto|done].
  intros Hn. by rewrite H1.
Qed.

Lemma publish_life msg s s' gs r : PublishPrivate msg s = (s', gs, r) -> same_life (fst s) (fst s').
Proof.
  destruct s as [n b]. unfold PublishPrivate, same_life, on_bus. intros E. repeat case_match; simplify_eq; cbn; by simplify_option_eq.
Qed.

Lemma subscribe_life handler s s' pending r : SubscribePrivate handler s = (s', pending, r) -> same_life (fst s) (fst s').
Proof.
  destruct s as [n b]. unfold SubscribePrivate, same_life, on_bus. intros E. repeat case_match; simplify_eq; cbn in *; by simplify_option_eq.
Qed.

Lemma fetch_life recipient since limit n : same_life n (fst (FetchPrivateSince recipient since limit n)).
Proof.
  unfold FetchPrivateSince, same_life, on_bus. destruct (negb (connected n)); [done|]. destruct (recipient == ""); [done|].
  destruct (nd_gw n) as [g|] eqn:Eg; [|cbn; by rewrite Eg]. by destruct (gwFetchPrivateSince recipient since limit g).
Qed.

Lemma step_connected i s l gs hs s' : node_step s l gs hs s' -> node_ok (fst s) ->
  node_ok (fst s') /\ connected (fst s') = started_after i (connected (fst s)) (i, l).
Proof.
  intros Hst Hok. destruct Hst; cbn [fst started_after]; rewrite ?Nat.eqb_refl.
  - by eapply start_connected.
  - destruct s. apply stop_connected.
  - apply same_life_ok; [|done]. unfold same_life, on_bus. cbn. by destruct (nd_gw n).
  - by apply apply_connected.
  - eapply same_life_ok; [by eapply subscribe_life|done].
  - eapply same_life_ok; [by eapply publish_life|done].
  - apply same_life_ok; [apply fetch_life|done].
  - by apply monitor_connected.
  - apply same_life_ok; [|done]. unfold same_life, on_bus. cbn. by simplify_option_eq.
Qed.

Lemma started_other i j l up : i <> j -> started_after i up (j, l) = up.
Proof. intros Hne. cbn. apply Nat.eqb_neq in Hne. destruct l; rewrite ?Hne; done. Qed.

Lemma run_connected nodes ls calls s : net_run nodes ls calls s -> fresh_nodes nodes ->
  forall i n, net_nodes s !! i = Some n -> node_ok n /\ connected n = started i ls.
Proof.
  intros Hrun Hf. induction Hrun as [|ls calls s i n l gs hs n' b' Hrun IH Hi Hst|ls calls ns b g1 h msg g2 hs _ IH|ls calls ns b gs hs k id h msg left _ IH Hk];
    [|intros j m Hj; cbn [net_nodes] in Hj|done..].
  - intros j m Hj. destruct (Hf j m Hj) as [cfg ->]. split; [|done]. split_and!; [done..|]. cbn. set_solver.
  - unfold started. rewrite fold_left_app. cbn [fold_left]. fold (started j ls). destruct (decide (i = j)) as [<-|Hne].
    + rewrite lookup_insert_eq in Hj. injection Hj as <-. destruct (IH i n Hi) as [Hok <-]. by apply (step_connected i) in Hst.
    + rewrite lookup_insert_ne in Hj by done. rewrite started_other by congruence. by apply IH.
Qed.

(** C19: A node is open for messages exactly while its last start or stop was a start that succeeded, whatever its
    monitor, its backend and the operations between do. When it is not, subscribing, publishing and fetching
    fail with "waku not connected" and leave the bus as it was. *)
Theorem open_only_while_started nodes ls calls s i n :
  fresh_nodes nodes -> net_run nodes ls calls s -> net_nodes s !! i = Some n ->
  connected n = started i ls
  /\ (started i ls = false ->
        let b := net_bus s in
        (forall msg, PublishPrivate msg (n, b) = (n, b, [], Err notConnected))
        /\ (forall handler, exists n', SubscribePrivate handler (n, b) = (n', b, [], Err notConnected))
        /\ forall recipient since limit, FetchPrivateSince recipient since limit n = (n, Err notConnected)).
Proof.
  intros Hf Hrun Hi. destruct (run_connected _ _ _ _ Hrun Hf i n Hi) as [_ Hc]. split; [done|]. rewrite <- Hc. intros Hn b.
  split_and!.
  - intros msg. unfold PublishPrivate. by rewrite Hn.
  - intros handler. unfold SubscribePrivate. change (connected (mkNode _ _ _ _ _ _ _ _)) with (connected n). rewrite Hn. by eexists.
  - intros recipient since limit. unfold FetchPrivateSince. by rewrite Hn.
Qed.

(** *** Runs that can be computed *)

Inductive node_op :=
| OpStart (env : StartEnv) | OpStop (now : Z) | OpIdentity (id : string) | OpApply (cfg : Config)
| OpSubscribe (handler : H) | OpPublish (msg : InboundPrivateMessage) | OpMonitor (now : Z).

Definition node_do (op : node_op) (s : Node * messageBus H)
    : option (net_label * list (H * InboundPrivateMessage) * list handOver * (Node * messageBus H)) :=
  let '(n, b) := s in
  match op with
  | OpStart env => '(n', r) ← Start env n; Some (Started (is_ok r), [], [], (n', b))
  | OpStop now => Some (Stopped, [], [], Stop now s)
  | OpIdentity id => Some (Quiet, [], [], (SetIdentity id n, b))
  | OpApply cfg => Some (Quiet, [], [], (ApplyBootstrapConfig cfg n, b))
  | OpSubscribe handler =>
      let '(s', pending, r) := SubscribePrivate handler s in
      Some (Subscribed (nd_selfID n) handler, [], [mkHandOver (nd_selfID n) handler pending], s')
  | OpPublish msg => let '(s', gs, r) := PublishPrivate msg s in Some (Published msg (on_bus n && is_ok r), gs, [], s')
  | OpMonitor now => if nd_monitor n then Some (Quiet, [], [], (refreshRuntimeStatus now n, b)) else None
  end.

Lemma node_do_step op s l gs hs s' : node_do op s = Some (l, gs, hs, s') -> node_step s l gs hs s'.
Proof.
  destruct s as [n b], op; cbn [node_do]; intros E.
  - destruct (Start env n) as [[n' r]|] eqn:Es; [|done]. injection E as <- <- <- <-. by eapply step_start.
  - change (Some (Stopped, @nil (H * InboundPrivateMessage), @nil handOver, Stop now (n, b)) = Some (l, gs, hs, s')) in E.
    injection E as <- <- <- Hs. rewrite <- Hs. exact (step_stop now (n, b)).
  - injection E as <- <- <- <-. apply step_identity.
  - injection E as <- <- <- <-. apply step_apply.
  - destruct (SubscribePrivate handler (n, b)) as [[s1 p1] r] eqn:Es. injection E as <- <- <- <-. by apply (step_subscribe handler (n, b) _ _ r).
  - destruct (PublishPrivate msg (n, b)) as [[s1 c1] r] eqn:Es. injection E as <- <- <- <-. by apply (step_publish msg (n, b) _ _ r).
  - destruct (nd_monitor n) eqn:Em; [|done]. injection E as <- <- <- <-. by apply step_monitor.
Qed.

(** An operation of a node, or a goroutine or a subscription that goes on, by its position. *)
Inductive net_op := NodeOp (i : nat) (op : node_op) | RunGoroutine (j : nat) | HandOver (k : nat).

Definition net_do (op : net_op) (x : list (nat * net_label) * list handlerCall * netState)
    : option (list (nat * net_label) * list handlerCall * netState) :=
  let '(ls, calls, mkNet ns b gs hs) := x in
  match op with
  | NodeOp i op =>
      n ← ns !! i; '(l, gs', hs', (n', b')) ← node_do op (n, b);
      Some (ls ++ [(i, l)], calls, mkNet (<[i := n']> ns) b' (gs ++ gs') (hs ++ hs'))
  | RunGoroutine j =>
      '(h, msg) ← gs !! j; Some (ls, calls ++ [mkCall None h msg], mkNet ns b (take j gs ++ drop (Datatypes.S j) gs) hs)
  | HandOver k =>
      x ← hs !! k;
      match ho_left x with
      | [] => None
      | msg :: rest => Some (ls, calls ++ [mkCall (Some k) (ho_handler x) msg],
                             mkNet ns b gs (<[k := mkHandOver (ho_id x) (ho_handler x) rest]> hs))
      end
  end.

Lemma net_do_run nodes op ls calls s ls' calls' s' :
  net_run nodes ls calls s -> net_do op (ls, calls, s) = Some (ls', calls', s') -> net_run nodes ls' calls' s'.
Proof.
  destruct s as [ns b gs hs]. intros Hrun. destruct op as [i op|j|k]; cbn [net_do]; intros E.
  - destruct (ns !! i) as [n|] eqn:En; [|done]. cbn [mbind option_bind] in E.
    destruct (node_do op (n, b)) as [[[[l c] hs1] [n' b1]]|] eqn:Ed; [|done]. injection E as <- <- <-.
    apply (net_step nodes ls calls (mkNet ns b gs hs) i n l c hs1 n' b1 Hrun En). by apply (node_do_step op).
  - destruct (gs !! j) as [[h msg]|] eqn:Ej; [|done]. injection E as <- <- <-. apply net_goroutine.
    by rewrite take_drop_middle.
  - destruct (hs !! k) as [[id h [|msg left]]|] eqn:Ek; [done| |done]. injection E as <- <- <-. by eapply net_hand_over.
Qed.

Fixpoint net_play (ops : list net_op) (x : list (nat * net_label) * list handlerCall * netState)
    : option (list (nat * net_label) * list handlerCall * netState) :=
  match ops with [] => Some x | op :: ops => x ← net_do op x; net_play ops x end.

Lemma net_play_run nodes ops ls calls s ls' calls' s' :
  net_run nodes ls calls s -> net_play ops (ls, calls, s) = Some (ls', calls', s') -> net_run nodes ls' calls' s'.
Proof.
  revert ls calls s. induction ops as [|op ops IH]; intros ls calls s Hrun E; cbn [net_play] in E; [by injection E as <- <- <-|].
  destruct (net_do op (ls, calls, s)) as [[[ls1 calls1] s1]|] eqn:Ed; [|done].
  eapply IH; [|exact E]. by eapply net_do_run.
Qed.

End Waku.

(** ** Examples: the node over floats that are decimal fractions, with the mock transport and with a backend *)

(** A backend whose state is the number of its peers; the default build has none. *)
Definition ex_backend (initial : option Z) : goWakuBackend (G := Z) (H := string) := {|
  newGoWakuBackend := initial; gwStart := fun _ g => (g, Ok tt); gwStop := fun _ => 0; gwPeerCount := fun g => g;
  gwNetworkMetrics := fun g => {["peer_count" := g]}; gwApplyConfig := fun _ g => g; gwSetIdentity := fun _ g => g;
  gwListenAddresses := fun _ => []; gwSubscribePrivate := fun _ g => (g, Ok tt); gwPublishPrivate := fun _ g => (g, Ok tt);
  gwFetchPrivateSince := fun _ _ _ g => (g, Ok [])
|}.
#[export] Instance ex_no_backend : goWakuBackend (G := Z) (H := string) := ex_backend None.

Definition ex_message (recipient id : string) : InboundPrivateMessage := mkInboundPrivate id "alice" recipient [].
Definition ex_start (t : Z) : StartEnv (G := Z) := mkStartEnv t (t + 1) None [].
Definition ex_nodes : gmap nat (Node (G := Z) (H := string)) :=
  {[0%nat := NewNode DefaultConfig; 1%nat := NewNode DefaultConfig]}.

Lemma ex_fresh : fresh_nodes ex_nodes.
Proof. intros i n Hi. unfold ex_nodes in Hi. apply lookup_insert_Some in Hi as [[_ <-]|[_ Hi]]; [by eexists|].
  apply lookup_singleton_Some in Hi as [_ <-]. by eexists. Qed.

(** Alice sends before Bob subscribes, twice while he is subscribed, and after he stopped; the second of the two is handed
    over first. *)
Definition ex_ops : list (net_op (G := Z) (H := string)) :=
  [NodeOp 0 (OpStart (ex_start 10)); NodeOp 1 (OpStart (ex_start 20)); NodeOp 1 (OpIdentity "bob");
   NodeOp 0 (OpPublish (ex_message "bob" "m1")); NodeOp 1 (OpSubscribe "inbox"); NodeOp 0 (OpPublish (ex_message "bob" "m2"));
   NodeOp 0 (OpPublish (ex_message "bob" "m3")); RunGoroutine 1; HandOver 0; RunGoroutine 0;
   NodeOp 1 (OpStop 30); NodeOp 0 (OpPublish (ex_message "bob" "m4"))].

Definition ex_result := Eval vm_compute in net_play ex_ops ([], [], mkNet ex_nodes emptyBus [] []).

Lemma ex_played ls calls s : ex_result = Some (ls, calls, s) -> net_run ex_nodes ls calls s.
Proof.
  intros E. apply (net_play_run ex_nodes ex_ops [] [] (mkNet ex_nodes emptyBus [] [])); [apply net_start|].
  rewrite <- E. vm_compute. reflexivity.
Qed.

(** The second of two messages that were sent to a subscriber overtakes the first, and one that had to wait. *)
Example later_message_overtakes :
  match ex_result with
  | Some (ls, calls, _) => im_ID <$> (ls ≫= taken) = ["m1"; "m2"; "m3"; "m4"]
                           /\ im_ID <$> (hc_message <$> calls) = ["m3"; "m1"; "m2"]
  | None => False
  end.
Proof. vm_compute. done. Qed.

Lemma bus_hands_over_once_witness : exists ls calls s, net_run ex_nodes ls calls s
  /\ im_ID <$> delivered "bob" calls = ["m3"; "m1"; "m2"]
  /\ delivered "bob" calls ++ on_its_way "bob" s
     ≡ₚ [ex_message "bob" "m1"; ex_message "bob" "m2"; ex_message "bob" "m3"; ex_message "bob" "m4"].
Proof.
  eexists _, _, _. assert (Hrun : net_run ex_nodes _ _ _) by (apply ex_played; reflexivity). split; [exact Hrun|].
  split; [reflexivity|]. destruct (bus_hands_over_once _ _ _ _ Hrun) as [Hd _]. rewrite (Hd "bob"). reflexivity.
Defined.

Lemma open_only_while_started_witness : exists ls calls s n, net_run ex_nodes ls calls s
  /\ net_nodes s !! 1%nat = Some n /\ started 0 ls = true
  /\ PublishPrivate (ex_message "bob" "m5") (n, net_bus s) = (n, net_bus s, [], Err notConnected).
Proof.
  eexists _, _, _, _. assert (Hrun : net_run ex_nodes _ _ _) by (apply ex_played; reflexivity). split; [exact Hrun|].
  split; [reflexivity|]. split; [reflexivity|].
  destruct (open_only_while_started _ _ _ _ 1 _ ex_fresh Hrun eq_refl) as [_ Hp]. by apply Hp.
Defined.

(** A start of the mock that its context ends leaves the node "connecting". *)
Example cancelled_start_stays_connecting :
  let n := NewNode DefaultConfig in
  exists n', Start (mkStartEnv 1 2 (Some (errorsNew "context canceled")) []) n = Some (n', Err (errorsNew "context canceled"))
    /\ st_State (nd_status n') = "connecting".
Proof. eexists. split; reflexivity. Qed.

(** A node whose identity changed keeps the old subscription when it stops: its handler is called although it is
    down. *)
Example old_identity_still_receives :
  let n := with_status (mkNodeStatus StateConnected 1 0 "" 0 "") (SetIdentity "bob" (NewNode DefaultConfig)) in
  let '(n, b, _, _) := SubscribePrivate "inbox" (n, emptyBus) in
  let '(n, b) := Stop 9 (SetIdentity "robert" n, b) in
  connected n = false /\ busPublish (ex_message "bob" "m") b = (b, [("inbox", ex_message "bob" "m")]).
Proof. split; reflexivity. Qed.

(** With one peer of two wanted a node starts degraded, and the first look of the monitor calls it connected. *)
Example monitor_forgets_the_target :
  let backend := ex_backend (Some 1) in
  let cfg := WakuConfig.Merge DefaultConfig (mkNetworkConfig "go-waku" 0 "" None None None None (Some ["a"; "b"]) (Some true) 2 0 0 0 0 0 0 0 0 (Some 0) (Some 0)) in
  exists n, Start (G := Z) (mkStartEnv 1 2 None [WaitTimeout id]) (NewNode cfg) = Some (n, Ok tt)
    /\ st_State (nd_status n) = "degraded" /\ st_State (nd_status (refreshRuntimeStatus 3 n)) = "connected".
Proof. eexists. split; [vm_compute; reflexivity|]. split; reflexivity. Qed.

(** When the context ends before the peers are there, the backend that was started keeps running: the node has no pointer to
    it, so that no stop ends it, and the next start makes another. *)
Example failed_wait_leaves_backend_running :
  let backend := ex_backend (Some 0) in
  let cfg := WakuConfig.Merge DefaultConfig (mkNetworkConfig "go-waku" 0 "" None None None None (Some ["a"; "b"]) (Some true) 2 0 0 0 0 0 0 0 0 (Some 0) (Some 0)) in
  let ended := errorsNew "context deadline exceeded" in
  exists n, Start (G := Z) (mkStartEnv 1 2 None [WaitTick id; WaitDone id ended]) (NewNode cfg) = Some (n, Err ended)
    /\ st_State (nd_status n) = "disconnected" /\ nd_gw n = None /\ nd_lost n = [0] /\ nd_lost (fst (Stop 3 (n, emptyBus))) = [0].
Proof. eexists. split; [vm_compute; reflexivity|]. split; [reflexivity|]. split; [reflexivity|]. split; reflexivity. Qed.
