(* ===== verification/GoWaku.v ===== *)
(** * The go-waku backend

    Models internal/waku/gowaku_enabled.go: how the node is started and stopped, what is made of a message of
    the relay, the store query with its failover and pages, and the maintenance of the peers. The go-waku
    library is the interface [WakuLib] over its own state [L]; the backend is an instance of the interface
    [goWakuBackend] of WakuNode. Log lines are left out. *)
From S2P Require Import Prelude Encoding Text SecureStore Identity ManifestTrust NetworkManifest RefreshPolicy Bootstrap WakuConfig Wire WakuNode.
From stdpp Require Import base gmap strings list sets option.
From Stdlib Require Import ZArith Lia Sorted.
Open Scope string_scope.
Open Scope Z_scope.
Open Scope go_scope.
Local Open Scope list_scope.

Definition privatePubsubTopic : string := "/waku/2/default-waku/proto".
Definition privateContentTopic : string := "/aim-chat/1/private-message/proto".

Inductive wakuOption :=
| WithHostAddress (port : Z) | WithWakuRelay | WithMessageProvider | WithWakuStore
| WithWakuFilterLightNode | WithWakuFilterFullNode | WithLightPush.

Record Query := mkQuery { qu_PubsubTopic : string; qu_ContentTopics : list string; qu_StartTime : Z; qu_EndTime : Z }.

(** The options of a request: the page size, and the peer that is asked unless the library chooses one. *)
Record requestOptions := mkRequest { ro_pageSize : Z; ro_peer : option string }.

(** A state that [wakuNew] made belongs to a node; [queryResult] is a page of an answer of the store. *)
Class WakuLib (L : Type) := {
  resolveHost : Z -> option error;
  newMessageProvider : option error;
  wakuNew : list wakuOption -> result error L;
  wakuStart : M L error unit;
  dialPeer : string -> M L error unit;
  wakuPeerCount : L -> Z;
  wakuAddresses : L -> list string;
  newMultiaddr : string -> bool;
  relaySubscribe : M L error unit;
  relayPublish : list Z -> Z -> M L error unit;
  queryResult : Type;
  resultMessages : queryResult -> list (option (list Z));
  isComplete : queryResult -> bool;
  storeQuery : Query -> requestOptions -> M L error queryResult;
  storeNext : queryResult -> M L error queryResult
}.

Section GoWaku.
Context {float : GoFloat} {conf : GoConfig} {rt : GoRuntime}.
Context {L H : Type} {lib : WakuLib L} {codec : JsonCodec InboundPrivateMessage}.

(** ** State *)

Record goWakuMetrics := mkGoMetrics {
  gm_DialAttempts : Z; gm_DialSuccess : Z; gm_DialFailures : Z; gm_StoreQueryFailover : Z; gm_StoreQueryFailures : Z
}.

(** The variables of the goroutine of [startPeerMaintenance]. *)
Record maintenance := mkMaintenance { mt_cfg : Config; mt_backoff : Z; mt_nextAttemptAt : Z }.

Record goWakuNode := mkGoWaku {
  gn_node : option L; gn_selfID : string; gn_handler : option H; gn_cfg : Config; gn_bootstrapNodes : list string;
  gn_maintain : option maintenance; gn_metrics : goWakuMetrics
}.

Definition noConfig : Config :=
  mkConfig "" 0 "" false false false false [] false 0 0 0 0 0 0 0 0 0 (fofZ 0) (fofZ 0) "" 0 "" "" "" "".

Definition newGoWaku : goWakuNode := mkGoWaku None "" None noConfig [] None (mkGoMetrics 0 0 0 0 0).

Definition with_node (n : option L) (g : goWakuNode) : goWakuNode :=
  mkGoWaku n (gn_selfID g) (gn_handler g) (gn_cfg g) (gn_bootstrapNodes g) (gn_maintain g) (gn_metrics g).
Definition with_config (c : Config) (nodes : list string) (g : goWakuNode) : goWakuNode :=
  mkGoWaku (gn_node g) (gn_selfID g) (gn_handler g) c nodes (gn_maintain g) (gn_metrics g).
Definition with_maintain (m : option maintenance) (g : goWakuNode) : goWakuNode :=
  mkGoWaku (gn_node g) (gn_selfID g) (gn_handler g) (gn_cfg g) (gn_bootstrapNodes g) m (gn_metrics g).
Definition with_metrics (f : goWakuMetrics -> goWakuMetrics) (g : goWakuNode) : goWakuNode :=
  mkGoWaku (gn_node g) (gn_selfID g) (gn_handler g) (gn_cfg g) (gn_bootstrapNodes g) (gn_maintain g) (f (gn_metrics g)).

Definition recordDialAttempt : goWakuNode -> goWakuNode := with_metrics (fun m =>
  mkGoMetrics (s64 (gm_DialAttempts m + 1)) (gm_DialSuccess m) (gm_DialFailures m) (gm_StoreQueryFailover m) (gm_StoreQueryFailures m)).
Definition recordDialSuccess : goWakuNode -> goWakuNode := with_metrics (fun m =>
  mkGoMetrics (gm_DialAttempts m) (s64 (gm_DialSuccess m + 1)) (gm_DialFailures m) (gm_StoreQueryFailover m) (gm_StoreQueryFailures m)).
Definition recordDialFailure : goWakuNode -> goWakuNode := with_metrics (fun m =>
  mkGoMetrics (gm_DialAttempts m) (gm_DialSuccess m) (s64 (gm_DialFailures m + 1)) (gm_StoreQueryFailover m) (gm_StoreQueryFailures m)).
Definition recordStoreQueryFailover : goWakuNode -> goWakuNode := with_metrics (fun m =>
  mkGoMetrics (gm_DialAttempts m) (gm_DialSuccess m) (gm_DialFailures m) (s64 (gm_StoreQueryFailover m + 1)) (gm_StoreQueryFailures m)).
Definition recordStoreQueryFailure : goWakuNode -> goWakuNode := with_metrics (fun m =>
  mkGoMetrics (gm_DialAttempts m) (gm_DialSuccess m) (gm_DialFailures m) (gm_StoreQueryFailover m) (s64 (gm_StoreQueryFailures m + 1))).

(** ** Starting, stopping and configuration *)

Definition startPeerMaintenance (now : Z) (g : goWakuNode) : goWakuNode :=
  let g := with_maintain None g in
  match gn_bootstrapNodes g, gn_node g with
  | [], _ | _, None => g
  | _, Some _ => with_maintain (Some (mkMaintenance (gn_cfg g) (wc_ReconnectInterval (gn_cfg g)) now)) g
  end.

Definition stopPeerMaintenance (g : goWakuNode) : goWakuNode := with_maintain None g.

Definition startOptions (cfg : Config) : list wakuOption :=
  [WithHostAddress (wc_Port cfg)]
  ++ (if wc_EnableRelay cfg then [WithWakuRelay] else [])
  ++ (if wc_EnableStore cfg then [WithMessageProvider; WithWakuStore] else [])
  ++ (if wc_EnableFilter cfg then [WithWakuFilterLightNode; WithWakuFilterFullNode] else [])
  ++ (if wc_EnableLightPush cfg then [WithLightPush] else []).

(** The outcome of a dial is not looked at. *)
Definition dialAll (addrs : list string) (node : L) : L := fold_left (fun node addr => (dialPeer addr node).1) addrs node.

Definition Start (now : Z) (cfg : Config) : M goWakuNode error unit := fun g =>
  match resolveHost (wc_Port cfg) with
  | Some err => (g, Err err)
  | None =>
      match (if wc_EnableStore cfg then newMessageProvider else None) with
      | Some err => (g, Err err)
      | None =>
          match wakuNew (startOptions cfg) with
          | Err err => (g, Err err)
          | Ok node =>
              match wakuStart node with
              | (_, Err err) => (g, Err err)
              | (node, Ok _) =>
                  let node := dialAll (wc_BootstrapNodes cfg) node in
                  let g := with_config cfg (wc_BootstrapNodes cfg) (with_node (Some node) g) in
                  (if wc_FailoverV1 cfg then startPeerMaintenance now g else g, Ok tt)
              end
          end
      end
  end.

Definition Stop (g : goWakuNode) : goWakuNode := with_node None (stopPeerMaintenance g).

Definition PeerCount (g : goWakuNode) : Z := match gn_node g with None => 0 | Some node => wakuPeerCount node end.

Definition NetworkMetrics (g : goWakuNode) : gmap string Z :=
  let m := gn_metrics g in
  {["dial_attempts" := gm_DialAttempts m; "dial_success" := gm_DialSuccess m; "dial_failures" := gm_DialFailures m;
    "store_query_failover" := gm_StoreQueryFailover m; "store_query_failures" := gm_StoreQueryFailures m]}.

(** The fields [ApplyConfig] takes over. *)
Definition with_reconnect (src dst : Config) : Config :=
  mkConfig (wc_Transport dst) (wc_Port dst) (wc_AdvertiseAddress dst) (wc_EnableRelay dst) (wc_EnableStore dst)
    (wc_EnableFilter dst) (wc_EnableLightPush dst) (wc_BootstrapNodes dst) (wc_FailoverV1 src) (wc_MinPeers src)
    (wc_StoreQueryFanout dst) (wc_ReconnectInterval src) (wc_ReconnectBackoffMax src) (wc_ManifestRefreshInterval dst)
    (wc_ManifestStaleWindow dst) (wc_ManifestRefreshTimeout dst) (wc_ManifestBackoffBase dst)
    (wc_ManifestBackoffMax dst) (wc_ManifestBackoffFactor dst) (wc_ManifestBackoffJitterRatio dst)
    (wc_BootstrapSource dst) (wc_BootstrapManifestVersion dst) (wc_BootstrapManifestKeyID dst)
    (wc_BootstrapManifestPath dst) (wc_BootstrapTrustBundlePath dst) (wc_BootstrapCachePath dst).

Definition ApplyConfig (now : Z) (cfg : Config) (g : goWakuNode) : goWakuNode :=
  let g := with_config (with_reconnect cfg (gn_cfg g)) (wc_BootstrapNodes cfg) g in
  if wc_FailoverV1 cfg then startPeerMaintenance now g else stopPeerMaintenance g.

Definition SetIdentity (identityID : string) (g : goWakuNode) : goWakuNode :=
  mkGoWaku (gn_node g) identityID (gn_handler g) (gn_cfg g) (gn_bootstrapNodes g) (gn_maintain g) (gn_metrics g).

Definition ListenAddresses (g : goWakuNode) : list string :=
  match gn_node g with None => [] | Some node => wakuAddresses node end.

(** ** The relay *)

Definition nodeIsNil : error := errorsNew "go-waku node is nil".

Definition SubscribePrivate (handler : H) : M goWakuNode error unit := fun g =>
  let g := mkGoWaku (gn_node g) (gn_selfID g) (Some handler) (gn_cfg g) (gn_bootstrapNodes g) (gn_maintain g) (gn_metrics g) in
  match gn_node g with
  | None => (g, Err nodeIsNil)
  | Some node =>
      if gn_selfID g == "" then (g, Err (errorsNew "identity is not set")) else
      let '(node, r) := relaySubscribe node in (with_node (Some node) g, r)
  end.

(** What a subscription of [selfID] hands to its handler of the payload of an envelope. *)
Definition relayed (selfID : string) (payload : option (list Z)) : option InboundPrivateMessage :=
  match payload with
  | None => None
  | Some payload =>
      match unmarshalJSON payload with
      | Err _ => None
      | Ok msg => if negb (im_Recipient msg == selfID) then None else Some msg
      end
  end.

Definition PublishPrivate (now : Z) (msg : InboundPrivateMessage) : M goWakuNode error unit := fun g =>
  match gn_node g with
  | None => (g, Err nodeIsNil)
  | Some node =>
      match marshalJSON msg with
      | Err err => (g, Err err)
      | Ok payload => let '(node, r) := relayPublish payload now node in (with_node (Some node) g, r)
      end
  end.

(** ** The store query *)

(** The peers that are asked, in order; [seen] holds the addresses that were looked at. *)
Fixpoint addCandidates (addrs : list string) (fanout : Z) (candidates seen : list string) : list string :=
  match addrs with
  | [] => candidates
  | addr :: addrs =>
      if fanout <=? Z.of_nat (length candidates) then candidates else
      let addr := TrimSpace addr in
      if addr == "" then addCandidates addrs fanout candidates seen else
      if bool_decide (addr ∈ seen) then addCandidates addrs fanout candidates seen else
      let seen := addr :: seen in
      if negb (newMultiaddr addr) then addCandidates addrs fanout candidates seen
      else addCandidates addrs fanout (candidates ++ [addr]) seen
  end.

(** [None] leaves the choice of the peer to the library. *)
Definition queryCandidates (g : goWakuNode) : list (option string) :=
  let fanout := if wc_StoreQueryFanout (gn_cfg g) <=? 0 then 1 else wc_StoreQueryFanout (gn_cfg g) in
  let candidates := (Some <$> addCandidates (gn_bootstrapNodes g) fanout [] []) ++ [None] in
  if negb (wc_FailoverV1 (gn_cfg g)) then take 1 candidates else candidates.

(** The attempts, with the number of the one that succeeded. There is at least one candidate, so that the first
    [lastErr] is never seen. *)
Fixpoint queryFirst (criteria : Query) (limit : Z) (candidates : list (option string)) (attempt : Z) (lastErr : error)
    (node : L) (g : goWakuNode) : L * goWakuNode * result error (queryResult * Z) :=
  match candidates with
  | [] => (node, g, Err lastErr)
  | peer :: candidates =>
      match storeQuery criteria (mkRequest limit peer) node with
      | (node, Ok result) => (node, g, Ok (result, attempt))
      | (node, Err err) => queryFirst criteria limit candidates (attempt + 1) err node (recordStoreQueryFailure g)
      end
  end.

Definition consumeOne (recipient : string) (acc : gmap string InboundPrivateMessage * list string) (wm : option (list Z))
    : gmap string InboundPrivateMessage * list string :=
  match relayed recipient wm with
  | None => acc
  | Some msg =>
      match acc.1 !! im_ID msg with
      | Some _ => acc
      | None => (<[im_ID msg := msg]> acc.1, acc.2 ++ [im_ID msg])
      end
  end.

Definition consume (recipient : string) (result : queryResult) (acc : gmap string InboundPrivateMessage * list string) :=
  fold_left (consumeOne recipient) (resultMessages result) acc.

Definition deadlineExceeded : error := errorsNew "context deadline exceeded".

(** The next pages; the context of the caller ends before the library is asked more than [calls] times. *)
Fixpoint nextPages (calls : nat) (recipient : string) (limit : Z) (result : queryResult)
    (acc : gmap string InboundPrivateMessage * list string) (node : L)
    : L * Prelude.result error (gmap string InboundPrivateMessage * list string) :=
  if isComplete result || (limit <=? Z.of_nat (length acc.2)) then (node, Ok acc) else
  match calls with
  | O => (node, Err deadlineExceeded)
  | S calls =>
      match storeNext result node with
      | (node, Err err) => (node, Err err)
      | (node, Ok result) => nextPages calls recipient limit result (consume recipient result acc) node
      end
  end.

Definition noMessage : InboundPrivateMessage := mkInboundPrivate "" "" "" [].

(** The messages of a page set, ordered by identifier and cut to the limit. *)
Definition selectMessages (limit : Z) (acc : gmap string InboundPrivateMessage * list string) : list InboundPrivateMessage :=
  (fun id => default noMessage (acc.1 !! id)) <$> take (Z.to_nat limit) (sortSlice String.ltb acc.2).

Definition FetchPrivateSince (now : Z) (calls : nat) (recipient : string) (since limit : Z)
    : M (goWakuNode) error (list InboundPrivateMessage) := fun g =>
  match gn_node g with
  | None => (g, Err nodeIsNil)
  | Some node =>
      if recipient == "" then (g, Err (errorsNew "recipient is required")) else
      let limit := if limit <=? 0 then 100 else limit in
      let criteria := mkQuery privatePubsubTopic [privateContentTopic] since now in
      match queryFirst criteria limit (queryCandidates g) 1 (errorsNew "") node g with
      | (node, g, Err err) => (with_node (Some node) g, Err err)
      | (node, g, Ok (result, successAttempt)) =>
          let g := if 1 <? successAttempt then recordStoreQueryFailover g else g in
          match nextPages calls recipient limit result (consume recipient result (∅, [])) node with
          | (node, Err err) => (with_node (Some node) g, Err err)
          | (node, Ok acc) => (with_node (Some node) g, Ok (selectMessages limit acc))
          end
      end
  end.

(** ** The maintenance of the peers *)

Definition desiredPeerFloor (bootstrapCount : Z) : Z :=
  if bootstrapCount <=? 0 then 0 else if bootstrapCount =? 1 then 1 else 2.

Definition needMorePeers (g : goWakuNode) : bool :=
  match gn_node g with
  | None => false
  | Some node =>
      let bootstrapCount := Z.of_nat (length (gn_bootstrapNodes g)) in
      let target := wc_MinPeers (gn_cfg g) in
      let target := if target <=? 0 then desiredPeerFloor bootstrapCount else target in
      let target := if (0 <? bootstrapCount) && (bootstrapCount <? target) then bootstrapCount else target in
      wakuPeerCount node <? target
  end.

Fixpoint redialLoop (addrs : list string) (node : L) (success : bool) (g : goWakuNode) : goWakuNode * bool :=
  match addrs with
  | [] => (with_node (Some node) g, success)
  | addr :: addrs =>
      let addr := TrimSpace addr in
      if addr == "" then redialLoop addrs node success g else
      let g := recordDialAttempt g in
      match dialPeer addr node with
      | (node, Ok _) => redialLoop addrs node true (recordDialSuccess g)
      | (node, Err _) => redialLoop addrs node success (recordDialFailure g)
      end
  end.

(** [shuffle] is the permutation that the random source draws. *)
Definition redialBootstrapPeers (shuffle : list string -> list string) (g : goWakuNode) : goWakuNode * bool :=
  match gn_node g, gn_bootstrapNodes g with
  | None, _ | _, [] => (g, false)
  | Some node, nodes => redialLoop (shuffle nodes) node false g
  end.

(** A tick: the clock when it comes and after the dials, the permutation, and [Int63n]. *)
Record tickEnv := mkTick { te_now : Z; te_later : Z; te_shuffle : list string -> list string; te_Int63n : Z -> Z }.

Definition maintainTick (env : tickEnv) (g : goWakuNode) : panics (goWakuNode) :=
  match gn_maintain g with
  | None => Returns g
  | Some mt =>
      let cfg := mt_cfg mt in
      if te_now env <? mt_nextAttemptAt mt then Returns g else
      if negb (needMorePeers g)
      then Returns (with_maintain (Some (mkMaintenance cfg (wc_ReconnectInterval cfg) (te_later env))) g) else
      let '(g, ok) := redialBootstrapPeers (te_shuffle env) g in
      if ok || negb (needMorePeers g)
      then Returns (with_maintain (Some (mkMaintenance cfg (wc_ReconnectInterval cfg) (te_later env))) g) else
      let backoff := s64 (mt_backoff mt * 2) in
      let backoff := if wc_ReconnectBackoffMax cfg <? backoff then wc_ReconnectBackoffMax cfg else backoff in
      if Z.quot backoff 2 <=? 0 then Panics else
      let jitter := te_Int63n env (Z.quot backoff 2) in
      Returns (with_maintain (Some (mkMaintenance cfg backoff (te_later env + s64 (backoff + jitter)))) g)
  end.

(** ** The backend of a node

    [now] is the clock and [calls] the bound on the page requests of a fetch. *)
Definition goWaku (now : Z) (calls : nat) : goWakuBackend (G := goWakuNode) (H := H) := {|
  newGoWakuBackend := Some newGoWaku; gwStart := Start now; gwStop := Stop; gwPeerCount := PeerCount;
  gwNetworkMetrics := NetworkMetrics; gwApplyConfig := ApplyConfig now; gwSetIdentity := SetIdentity;
  gwListenAddresses := ListenAddresses; gwSubscribePrivate := SubscribePrivate; gwPublishPrivate := PublishPrivate now;
  gwFetchPrivateSince := FetchPrivateSince now calls
|}.

(** ** What a fetch returns *)

(** The first message of every identifier. *)
Definition addDistinct (ms : list InboundPrivateMessage) (m : InboundPrivateMessage) : list InboundPrivateMessage :=
  if bool_decide (im_ID m ∈ im_ID <$> ms) then ms else ms ++ [m].
Definition distinct (ms : list InboundPrivateMessage) : list InboundPrivateMessage := fold_left addDistinct ms [].

(** The messages for [recipient] on pages. *)
Definition messagesFor (recipient : string) (results : list queryResult) : list InboundPrivateMessage :=
  distinct (omap (relayed recipient) (results ≫= resultMessages)).

(** [results] follow [result]: every page was asked for with the one before. *)
Inductive pages : queryResult -> L -> list queryResult -> queryResult -> L -> Prop :=
| pages_end result node : pages result node [] result node
| pages_next result node result' node' results last node'' :
    storeNext result node = (node', Ok result') -> pages result' node' results last node'' ->
    pages result node (result' :: results) last node''.

Definition represents (acc : gmap string InboundPrivateMessage * list string) (ms : list InboundPrivateMessage) : Prop :=
  acc.2 = im_ID <$> ms /\ NoDup acc.2 /\ (forall m, m ∈ ms -> acc.1 !! im_ID m = Some m)
  /\ forall id, is_Some (acc.1 !! id) -> id ∈ acc.2.

Lemma consumeOne_represents recipient acc ms wm : represents acc ms ->
  represents (consumeOne recipient acc wm) (match relayed recipient wm with None => ms | Some m => addDistinct ms m end).
Proof.
  intros (Ho & Hn & Hm & Hd). unfold consumeOne. destruct (relayed recipient wm) as [m|]; [|done]. unfold addDistinct.
  destruct (acc.1 !! im_ID m) as [m'|] eqn:E.
  - rewrite bool_decide_true; [done|]. rewrite <- Ho. apply Hd. by eexists.
  - rewrite bool_decide_false.
    2: { rewrite <- Ho. intros Hin. rewrite Ho in Hin. apply list_elem_of_fmap in Hin as (m' & He & Hin). rewrite He in E. rewrite Hm in E; done. }
    assert (Hnew : im_ID m ∉ acc.2).
    { rewrite Ho. intros Hin. apply list_elem_of_fmap in Hin as (m' & He & Hin). rewrite He in E. rewrite Hm in E; done. }
    split_and!; cbn.
    + by rewrite fmap_app, Ho.
    + apply list.NoDup_app. split; [done|]. split; [|apply NoDup_singleton]. intros x Hx Hx'. apply list_elem_of_singleton in Hx' as ->. done.
    + intros x Hx. apply elem_of_app in Hx as [Hx| ->%list_elem_of_singleton]; [|by rewrite lookup_insert_eq].
      rewrite lookup_insert_ne; [by apply Hm|]. intros He. apply Hnew. rewrite He, Ho. by apply list_elem_of_fmap_2.
    + intros id Hid. apply elem_of_app. destruct (decide (im_ID m = id)) as [<-|Hne]; [right; by apply list_elem_of_singleton|].
      left. apply Hd. by rewrite lookup_insert_ne in Hid.
Qed.

Lemma consume_represents recipient payloads acc ms : represents acc ms ->
  represents (fold_left (consumeOne recipient) payloads acc) (fold_left addDistinct (omap (relayed recipient) payloads) ms).
Proof.
  revert acc ms. induction payloads as [|wm payloads IH]; intros acc ms Hr; [done|]. cbn [fold_left omap list_omap].
  apply (consumeOne_represents recipient _ _ wm) in Hr. apply IH in Hr. by destruct (relayed recipient wm).
Qed.

Lemma represents_empty : represents (∅, []) [].
Proof. split_and!; [done|constructor|intros m Hm; by apply elem_of_nil in Hm|intros id [m Hm]; done]. Qed.

Lemma nextPages_spec calls recipient limit result acc node node' acc' done_ :
  represents acc (messagesFor recipient (done_ ++ [result])) ->
  nextPages calls recipient limit result acc node = (node', Ok acc') ->
  exists results last, pages result node results last node'
    /\ represents acc' (messagesFor recipient (done_ ++ result :: results))
    /\ (isComplete last = true \/ limit <= Z.of_nat (length acc'.2)).
Proof.
  revert result acc node done_. induction calls as [|calls IH]; intros result acc node done_ Hr E; cbn [nextPages] in E;
    destruct (isComplete result || (limit <=? Z.of_nat (length acc.2))) eqn:Eb; try done.
  1, 2: injection E as <- <-; exists [], result; split; [constructor|]; split; [done|];
    apply orb_true_iff in Eb as [Eb|Eb%Z.leb_le]; auto.
  destruct (storeNext result node) as [node1 [result1|err]] eqn:En; [|done].
  assert (Hr' : represents (consume recipient result1 acc) (messagesFor recipient ((done_ ++ [result]) ++ [result1]))).
  { unfold messagesFor, distinct in *. rewrite bind_app, omap_app, fold_left_app. cbn [mbind list_bind]. rewrite app_nil_r.
    by apply consume_represents. }
  destruct (IH _ _ _ _ Hr' E) as (results & last & Hp & Hacc & Hend). exists (result1 :: results), last.
  split; [by eapply pages_next|]. split; [|done]. by rewrite <- app_assoc in Hacc.
Qed.

Lemma string_weak_order : weak_order String.ltb.
Proof. split; [apply string_ltb_asym|apply string_ltb_neg_trans]. Qed.

Lemma sorted_strictly (l : list string) : NoDup l -> StronglySorted (fun a b => String.ltb b a = false) l ->
  StronglySorted (fun a b => String.ltb a b = true) l.
Proof.
  intros Hn Hs. induction Hs as [|a l Hs IH Ha]; [constructor|]. apply list.NoDup_cons in Hn as [Hni Hn].
  constructor; [by apply IH|]. rewrite list.Forall_forall in Ha |- *. intros x Hx. specialize (Ha x Hx).
  destruct (String.ltb a x) eqn:E; [done|]. destruct Hni. by rewrite (string_ltb_total a x).
Qed.

(** Strictly increasing identifiers. *)
Definition by_id (ms : list InboundPrivateMessage) : Prop := StronglySorted (fun a b => String.ltb a b = true) (im_ID <$> ms).

Lemma selectMessages_spec limit acc ms : represents acc ms -> 0 < limit ->
  exists rest, selectMessages limit acc ++ rest ≡ₚ ms /\ by_id (selectMessages limit acc ++ rest)
    /\ (rest <> [] -> Z.of_nat (length (selectMessages limit acc)) = limit).
Proof.
  intros (Ho & Hn & Hm & _) Hl. set (f := fun id => default noMessage (acc.1 !! id)).
  set (ids := sortSlice String.ltb acc.2). assert (Hp : ids ≡ₚ acc.2) by apply sortSlice_perm.
  exists (f <$> drop (Z.to_nat limit) ids). unfold selectMessages. fold f ids. rewrite <- fmap_app, take_drop.
  assert (Hf : forall l, l ⊆ acc.2 -> im_ID <$> (f <$> l) = l).
  { intros l Hin. rewrite <- list_fmap_compose. induction l as [|id l IH]; [done|]. cbn. rewrite IH by set_solver. f_equal.
    assert (Hid : id ∈ acc.2) by set_solver. rewrite Ho in Hid. apply list_elem_of_fmap in Hid as (m & -> & Hin').
    unfold f. by rewrite (Hm m Hin'). }
  split_and!.
  - rewrite Hp, Ho. rewrite <- list_fmap_compose. rewrite <- (list_fmap_id ms) at 2. apply Permutation_refl'.
    apply list_fmap_ext. intros i m Hi. unfold compose, f. by rewrite (Hm m) by (by eapply list_elem_of_lookup_2).
  - unfold by_id. rewrite Hf by (intros x; by rewrite Hp). apply sorted_strictly; [by rewrite Hp|].
    apply sortSlice_sorted, string_weak_order.
  - intros Hr. rewrite length_fmap, length_take. destruct (decide (Z.to_nat limit < length ids)%nat); [lia|].
    rewrite drop_ge in Hr by lia. done.
Qed.

(** *** The attempts *)

(** Peers that were asked and failed, with the states of the library between. *)
Inductive all_failed (criteria : Query) (limit : Z) : list (option string) -> L -> L -> Prop :=
| failed_none node : all_failed criteria limit [] node node
| failed_one peer peers node node' node'' err :
    storeQuery criteria (mkRequest limit peer) node = (node', Err err) -> all_failed criteria limit peers node' node'' ->
    all_failed criteria limit (peer :: peers) node node''.

(** What the attempts leave: every peer failed, or those before the one that answered. *)
Definition attempts_outcome (criteria : Query) (limit : Z) (candidates : list (option string)) (attempt : Z) (node node' : L)
    (r : result error (queryResult * Z)) : Prop :=
  match r with
  | Err _ => all_failed criteria limit candidates node node'
  | Ok (result, k) =>
      exists failed peer rest node1, candidates = failed ++ peer :: rest /\ all_failed criteria limit failed node node1
        /\ storeQuery criteria (mkRequest limit peer) node1 = (node', Ok result) /\ k = attempt + Z.of_nat (length failed)
  end.

Lemma queryFirst_spec criteria limit candidates attempt lastErr node g node' g' r :
  queryFirst criteria limit candidates attempt lastErr node g = (node', g', r) ->
  attempts_outcome criteria limit candidates attempt node node' r /\ gn_node g' = gn_node g /\ gn_cfg g' = gn_cfg g
  /\ gn_bootstrapNodes g' = gn_bootstrapNodes g.
Proof.
  revert attempt lastErr node g. induction candidates as [|peer candidates IH]; intros attempt lastErr node g E; cbn [queryFirst] in E.
  - injection E as <- <- <-. split; [constructor|done].
  - destruct (storeQuery criteria (mkRequest limit peer) node) as [node1 [result|err]] eqn:Eq.
    + injection E as <- <- <-. split; [|done]. exists [], peer, candidates, node. split_and!; [done|constructor|done|cbn; lia].
    + destruct (IH _ _ _ _ E) as (Ho & Hn & Hc & Hb). split; [|done]. destruct r as [[result k]|err']; cbn in Ho |- *.
      * destruct Ho as (failed & peer1 & rest & node2 & -> & Hf & Hq & ->). exists (peer :: failed), peer1, rest, node2.
        split_and!; [done|by eapply failed_one|done|cbn [length]; lia].
      * by eapply failed_one.
Qed.

(** The addresses that can be asked: trimmed, parsed, without doubles, in the order of the configuration. *)
Definition usable (addrs : list string) (addr : string) : Prop :=
  addr <> "" /\ newMultiaddr addr = true /\ addr ∈ TrimSpace <$> addrs.

Lemma addCandidates_spec fanout addrs all candidates seen :
  NoDup candidates -> candidates ⊆ seen -> 0 < fanout -> Z.of_nat (length candidates) <= fanout ->
  (forall a, a ∈ candidates -> usable all a) -> (forall a, a ∈ seen -> newMultiaddr a = true -> a ∈ candidates) ->
  (forall a, a ∈ TrimSpace <$> all -> a <> "" -> newMultiaddr a = true -> a ∈ candidates \/ a ∈ TrimSpace <$> addrs) ->
  TrimSpace <$> addrs ⊆ TrimSpace <$> all ->
  let out := addCandidates addrs fanout candidates seen in
  NoDup out /\ Z.of_nat (length out) <= fanout /\ (forall a, a ∈ out -> usable all a)
  /\ (Z.of_nat (length out) < fanout -> forall a, usable all a -> a ∈ out).
Proof.
  revert candidates seen. induction addrs as [|addr addrs IH]; intros candidates seen Hn Hs Hf Hl Hu Hseen Hall Hin; cbn [addCandidates].
  - split_and!; [done..|]. intros _ a (Ha & Hv & Hi). destruct (Hall a Hi Ha Hv) as [|Hc]; [done|]. by apply elem_of_nil in Hc.
  - destruct (Z.leb_spec fanout (Z.of_nat (length candidates))); [split_and!; [done..|lia]|].
    assert (Hin' : TrimSpace <$> addrs ⊆ TrimSpace <$> all) by (intros x Hx; apply Hin; by right).
    assert (Hskip : forall cs, candidates ⊆ cs -> (TrimSpace addr <> "" -> newMultiaddr (TrimSpace addr) = true -> TrimSpace addr ∈ cs) ->
      forall a, a ∈ TrimSpace <$> all -> a <> "" -> newMultiaddr a = true -> a ∈ cs \/ a ∈ TrimSpace <$> addrs).
    { intros cs Hcs Hc a Hi Ha Hv. destruct (Hall a Hi Ha Hv) as [|Hc']; [left; by apply Hcs|]. cbn in Hc'.
      apply elem_of_cons in Hc' as [->|]; [left; by apply Hc|by right]. }
    destruct (TrimSpace addr == "") eqn:Ee.
    { apply bool_decide_eq_true in Ee. apply IH; try done. by apply Hskip. }
    apply bool_decide_eq_false in Ee. destruct (bool_decide (TrimSpace addr ∈ seen)) eqn:Es.
    { apply bool_decide_eq_true in Es. apply IH; try done. apply Hskip; [done|]. intros _. by apply Hseen. }
    apply bool_decide_eq_false in Es. destruct (newMultiaddr (TrimSpace addr)) eqn:Ev; cbn [negb].
    + apply IH; try done.
      * apply list.NoDup_app. split; [done|]. split; [|apply list.NoDup_singleton]. intros x Hx ->%list_elem_of_singleton. by apply Es, Hs.
      * intros x [Hx| ->%list_elem_of_singleton]%elem_of_app; [right; by apply Hs|by left].
      * rewrite length_app. cbn. lia.
      * intros a [Ha| ->%list_elem_of_singleton]%elem_of_app; [by apply Hu|]. split_and!; [done..|]. apply Hin. by left.
      * intros a [->|Ha]%elem_of_cons Hv; apply elem_of_app; [right; by left|left; by apply Hseen].
      * apply Hskip; [intros x Hx; apply elem_of_app; by left|]. intros _ _. apply elem_of_app. right. by left.
    + apply IH; try done; try (apply Hskip; [done|intros _ Hv; congruence]); [by apply list_subseteq_cons|].
      intros a [->|Ha]%elem_of_cons Hv; [congruence|by apply Hseen].
Qed.

Lemma queryCandidates_ok (g : goWakuNode) :
  let fanout := if wc_StoreQueryFanout (gn_cfg g) <=? 0 then 1 else wc_StoreQueryFanout (gn_cfg g) in
  exists addrs, queryCandidates g = (if wc_FailoverV1 (gn_cfg g) then (Some <$> addrs) ++ [None] else take 1 ((Some <$> addrs) ++ [None]))
    /\ NoDup addrs /\ Z.of_nat (length addrs) <= fanout /\ (forall a, a ∈ addrs -> usable (gn_bootstrapNodes g) a)
    /\ (Z.of_nat (length addrs) < fanout -> forall a, usable (gn_bootstrapNodes g) a -> a ∈ addrs).
Proof.
  intros fanout. unfold queryCandidates. fold fanout. exists (addCandidates (gn_bootstrapNodes g) fanout [] []).
  split; [by destruct (wc_FailoverV1 (gn_cfg g))|].
  assert (0 < fanout) by (unfold fanout; destruct (Z.leb_spec (wc_StoreQueryFanout (gn_cfg g)) 0); lia).
  apply addCandidates_spec; try done; [constructor|cbn; lia|intros a Ha; by apply elem_of_nil in Ha|by right].
Qed.

Definition fetchLimit (limit : Z) : Z := if limit <=? 0 then 100 else limit.


(** with failover the query of a fetch is lost only when every peer failed: the usable bootstrap addresses, each
    asked once and in order up to the fanout, and at last a peer of the library's choice. Without failover there
    is one attempt. *)
Theorem query_fails_over (g : goWakuNode) node criteria limit :
  exists addrs,
    NoDup addrs /\ (forall a, a ∈ addrs -> usable (gn_bootstrapNodes g) a)
    /\ Z.of_nat (length addrs) <= Z.max 1 (wc_StoreQueryFanout (gn_cfg g))
    /\ (Z.of_nat (length addrs) < Z.max 1 (wc_StoreQueryFanout (gn_cfg g)) -> forall a, usable (gn_bootstrapNodes g) a -> a ∈ addrs)
    /\ forall node' g' r, queryFirst criteria limit (queryCandidates g) 1 (errorsNew "") node g = (node', g', r) ->
        attempts_outcome criteria limit (if wc_FailoverV1 (gn_cfg g) then (Some <$> addrs) ++ [None] else [default None (Some <$> head addrs)]) 1
          node node' r.
Proof.
  destruct (queryCandidates_ok g) as (addrs & Hc & Hn & Hl & Hu & Hall). exists addrs.
  assert (Hf : (if wc_StoreQueryFanout (gn_cfg g) <=? 0 then 1 else wc_StoreQueryFanout (gn_cfg g)) = Z.max 1 (wc_StoreQueryFanout (gn_cfg g)))
    by (destruct (Z.leb_spec (wc_StoreQueryFanout (gn_cfg g)) 0); lia).
  rewrite Hf in Hl, Hall. split_and!; try done. intros node' g' r E. apply queryFirst_spec in E as [E _]. rewrite Hc in E.
  destruct (wc_FailoverV1 (gn_cfg g)); [done|]. by destruct addrs as [|a addrs].
Qed.

(** *** The maintenance of the peers *)

(** The goroutine of a normal configuration: its backoff lies between the interval and the maximum. *)
Definition maintenance_ok (mt : maintenance) : Prop :=
  2 <= wc_ReconnectInterval (mt_cfg mt) <= wc_ReconnectBackoffMax (mt_cfg mt) /\ wc_ReconnectBackoffMax (mt_cfg mt) < 2 ^ 62
  /\ wc_ReconnectInterval (mt_cfg mt) <= mt_backoff mt <= wc_ReconnectBackoffMax (mt_cfg mt).

Lemma redialLoop_keeps addrs node success g :
  let g' := (redialLoop addrs node success g).1 in gn_maintain g' = gn_maintain g /\ gn_cfg g' = gn_cfg g /\ gn_bootstrapNodes g' = gn_bootstrapNodes g.
Proof.
  revert node success g. induction addrs as [|addr addrs IH]; intros node success g; cbn [redialLoop]; [done|].
  destruct (TrimSpace addr == ""); [apply IH|]. destruct (dialPeer (TrimSpace addr) node) as [node' [[]|err]];
    match goal with |- context[redialLoop addrs ?n ?s ?g'] => destruct (IH n s g') as (-> & -> & ->) end; done.
Qed.

Lemma redial_keeps shuffle g :
  let g' := (redialBootstrapPeers shuffle g).1 in gn_maintain g' = gn_maintain g /\ gn_cfg g' = gn_cfg g /\ gn_bootstrapNodes g' = gn_bootstrapNodes g.
Proof.
  unfold redialBootstrapPeers. destruct (gn_node g) as [node|]; [|done]. destruct (gn_bootstrapNodes g) as [|a l] eqn:E; [done|].
  destruct (redialLoop_keeps (shuffle (a :: l)) node false g) as (-> & -> & ->). done.
Qed.

Lemma backoff_doubles mt : maintenance_ok mt ->
  let cfg := mt_cfg mt in
  let backoff := s64 (mt_backoff mt * 2) in
  let backoff := if wc_ReconnectBackoffMax cfg <? backoff then wc_ReconnectBackoffMax cfg else backoff in
  backoff = Z.min (wc_ReconnectBackoffMax cfg) (2 * mt_backoff mt) /\ 2 <= backoff /\ 0 < Z.quot backoff 2 /\ 2 * Z.quot backoff 2 <= backoff.
Proof.
  intros (Hi & Hm & Hb). cbv zeta. rewrite s64_small by lia.
  destruct (Z.ltb_spec (wc_ReconnectBackoffMax (mt_cfg mt)) (mt_backoff mt * 2)); (split; [lia|]); split_and!; try lia.
  all: try (apply Z.quot_str_pos; lia); apply Z.mul_quot_le; lia.
Qed.

(** the maintenance of the peers never stops by itself: with a configured interval of two nanoseconds at least, no tick
    panics. A tick comes to nothing while the node has enough peers, or before the time of the next attempt; after a
    tick that found no peer the wait is doubled up to the configured maximum and a half of it at most is added,
    and after one that did it is the interval again. *)
Theorem maintenance_backs_off env g mt :
  gn_maintain g = Some mt -> maintenance_ok mt -> (forall n, 0 < n -> 0 <= te_Int63n env n < n) ->
  exists g' mt', maintainTick env g = Returns g' /\ gn_maintain g' = Some mt' /\ maintenance_ok mt' /\ mt_cfg mt' = mt_cfg mt
    /\ (te_now env < mt_nextAttemptAt mt \/ needMorePeers g = false -> gn_node g' = gn_node g /\ gn_metrics g' = gn_metrics g)
    /\ (mt_nextAttemptAt mt <= te_now env ->
          (mt_backoff mt' = wc_ReconnectInterval (mt_cfg mt) /\ mt_nextAttemptAt mt' = te_later env
             /\ (needMorePeers g' = false \/ exists g1, redialBootstrapPeers (te_shuffle env) g = (g1, true)))
          \/ (needMorePeers g' = true /\ mt_backoff mt' = Z.min (wc_ReconnectBackoffMax (mt_cfg mt)) (2 * mt_backoff mt)
             /\ te_later env + mt_backoff mt' <= mt_nextAttemptAt mt' <= te_later env + mt_backoff mt' + Z.quot (mt_backoff mt') 2)).
Proof.
  intros Hmt Hok Hrnd. unfold maintainTick. rewrite Hmt. pose proof (backoff_doubles mt Hok) as Hb. cbv zeta in Hb.
  destruct (Z.ltb_spec (te_now env) (mt_nextAttemptAt mt)).
  { exists g, mt. split_and!; [done..|lia]. }
  assert (Hreset : maintenance_ok (mkMaintenance (mt_cfg mt) (wc_ReconnectInterval (mt_cfg mt)) (te_later env)))
    by (destruct Hok as (Hi & Hm & _); split_and!; cbn; lia).
  destruct (needMorePeers g) eqn:En; cbn [negb].
  2: { eexists _, _. split; [done|]. split; [done|]. split; [done|]. split_and!; [done..|]. intros _. left. by split_and!; [..|left]. }
  destruct (redialBootstrapPeers (te_shuffle env) g) as [g1 ok] eqn:Er.
  destruct (ok || negb (needMorePeers g1)) eqn:Eok.
  { eexists _, _. split; [done|]. split; [done|]. split; [done|]. split_and!; [done|intros [|]; [lia|done]|].
    intros _. left. split_and!; [done..|]. apply orb_true_iff in Eok as [->|Hn%negb_true_iff]; [right; by eexists|by left]. }
  set (b := if _ <? s64 (mt_backoff mt * 2) then _ else _) in *. destruct Hb as (Hb & Hb2 & Hq & Hq2). clearbody b.
  destruct (Z.leb_spec (Z.quot b 2) 0); [lia|]. destruct Hok as (Hi & Hm & Hbm). pose proof (Hrnd (Z.quot b 2) Hq) as Hj.
  eexists _, _. split; [done|]. split; [done|]. cbn [mt_cfg mt_backoff mt_nextAttemptAt]. split; [split_and!; cbn; lia|].
  split; [done|]. split; [intros [|]; [lia|done]|]. intros _. right. apply orb_false_iff in Eok as [_ Hn%negb_false_iff].
  split; [done|]. split; [done|]. rewrite s64_small by lia. lia.
Qed.

End GoWaku.
Arguments goWakuNode {float} L H.

(** ** Examples: a library whose store answers in pages *)

#[export] Instance InboundPrivate_eq_dec : EqDecision InboundPrivateMessage.
Proof. solve_decision. Defined.
#[export] Instance InboundPrivate_countable : Countable InboundPrivateMessage.
Proof.
  apply (inj_countable' (fun m => (im_ID m, im_SenderID m, im_Recipient m, im_Payload m))
    (fun '(v1, v2, v3, v4) => mkInboundPrivate v1 v2 v3 v4)). by intros [].
Defined.
#[export] Instance exMessageCodec : JsonCodec InboundPrivateMessage := {
  marshalJSON m := Ok [zenc m];
  unmarshalJSON bs := match bs with
    | [z] => match zdec z with Some m => Ok m | None => Err (errorsNew "json") end
    | _ => Err (errorsNew "json")
    end
}.

Definition ex_private (recipient id : string) : option (list Z) := Some [zenc (mkInboundPrivate id "alice" recipient [])].

(** The state is the number of peers; no peer can be dialled, and the first bootstrap node does not answer queries. *)
#[export] Instance exWakuLib : WakuLib Z := {
  resolveHost _ := None; newMessageProvider := None; wakuNew _ := Ok 0; wakuStart := retM tt;
  dialPeer _ := failM (errorsNew "dial failed"); wakuPeerCount n := n; wakuAddresses _ := [];
  newMultiaddr a := negb (a == "not an address"); relaySubscribe := retM tt; relayPublish _ _ := retM tt;
  queryResult := list (list (option (list Z)));
  resultMessages ps := match ps with p :: _ => p | [] => [] end;
  isComplete ps := bool_decide (length ps <= 1)%nat;
  storeQuery _ o := if bool_decide (ro_peer o = Some "/dns4/a") then failM (errorsNew "no answer")
    else retM [[ex_private "bob" "m9"; ex_private "carol" "m1"]; [ex_private "bob" "m9"; None; ex_private "bob" "m2"; ex_private "bob" "m4"];
               [ex_private "bob" "m5"]];
  storeNext ps := retM (match ps with _ :: ps => ps | [] => [] end)
}.

Definition ex_waku_config : Config :=
  normalizeConfig (WakuConfig.Merge DefaultConfig
    (mkNetworkConfig "go-waku" 0 "" None None None None (Some [" /dns4/a"; "not an address"; "/dns4/a"; "/dns4/b"]) (Some true) 2 0 0 0 0 0 0 0 0 (Some 0) (Some 0))).
Definition ex_waku : goWakuNode Z string := fst (Start 100 ex_waku_config newGoWaku).


Example limit_cuts_by_identifier :
  let '(g', r) := FetchPrivateSince 200 5 "bob" 0 2 ex_waku in
  (exists out, r = Ok out /\ im_ID <$> out = ["m2"; "m4"]) /\ gm_StoreQueryFailures (gn_metrics g') = 1
  /\ gm_StoreQueryFailover (gn_metrics g') = 1.
Proof. vm_compute. split; [by eexists|done]. Qed.

Definition ex_tick (now : Z) : tickEnv := mkTick now (now + 1) id (fun n => n - 1).

Lemma maintenance_backs_off_witness : exists mt g' mt',
  gn_maintain ex_waku = Some mt /\ maintainTick (ex_tick 100) ex_waku = Returns g' /\ gn_maintain g' = Some mt'
  /\ mt_backoff mt' = 2 * Second /\ mt_nextAttemptAt mt' = 101 + 2 * Second + (Second - 1) /\ gm_DialFailures (gn_metrics g') = 4.
Proof.
  assert (Hm : gn_maintain ex_waku = Some _) by (vm_compute; reflexivity).
  destruct (maintenance_backs_off (ex_tick 100) ex_waku _ Hm) as (g' & mt' & Ht & Hm' & _).
  - vm_compute. intuition discriminate.
  - intros n Hn. cbn. lia.
  - eexists _, g', mt'. split; [exact Hm|]. split; [exact Ht|]. split; [exact Hm'|].
    assert (Ht' := Ht). vm_compute in Ht'. injection Ht' as <-. assert (Hm2 := Hm'). vm_compute in Hm2. injection Hm2 as <-.
    vm_compute. done.
Defined.

(** An interval and a maximum of one nanosecond are accepted by the configuration, and end the process at the first tick
    that finds no peer. *)
Example tiny_backoff_panics :
  let cfg := normalizeConfig (WakuConfig.Merge DefaultConfig
    (mkNetworkConfig "go-waku" 0 "" None None None None (Some ["/dns4/a"]) (Some true) 2 0 1 1 0 0 0 0 0 (Some 0) (Some 0))) in
  maintainTick (ex_tick 100) (fst (Start 100 cfg (newGoWaku (L := Z) (H := string)))) = Panics.
Proof. vm_compute. reflexivity. Qed.

(** The subscription keeps the identity it was made with. *)
Example identity_is_fixed_at_subscription :
  let g := SetIdentity "robert" (fst (SubscribePrivate "inbox" (SetIdentity "bob" ex_waku))) in
  gn_selfID g = "robert" /\ relayed "bob" (ex_private "robert" "m1") = None /\ is_Some (relayed "bob" (ex_private "bob" "m2")).
Proof. vm_compute. split; [done|]. split; [done|by eexists]. Qed.
