(* ===== verification/StorageKey.v ===== *)
(** * The secret of the storage

    Models internal/composition/daemon/storage_key.go and bootstrap.go: where the secret of the encrypted files
    comes from, the policy for production, and the migration to a legacy secret. The environment, the outcome
    of writing (a failure may leave a part of the key), and the opening of the stores ([BuildStorageBundle], modelled store by store elsewhere) are
    arguments; filepath.Join is the one of WakuConfig. *)
From S2P Require Import Prelude Encoding RefreshPolicy WakuConfig.
From Stdlib Require Import ZArith Lia Ascii String.
From stdpp Require Import base gmap strings list sets option.
Open Scope string_scope.
Open Scope Z_scope.
Open Scope go_scope.
Local Open Scope list_scope.

Definition storagePassphraseEnv : string := "AIM_STORAGE_PASSPHRASE".
Definition legacyMigrationSecretEnv : string := "AIM_LEGACY_STORAGE_PASSPHRASE".
Definition storageKeyWrappedEnv : string := "AIM_STORAGE_KEY_WRAPPED".
Definition DefaultDataDir : string := "go-backend/data".

(** ErrLegacyStorageSecretRequired and ErrInsecureStorageKeyMode, the wrapped authentication failure, and other errors. *)
Inductive keyError := LegacySecretRequired | InsecureKeyMode | StorageAuthFailed (e : error) | KeyIO (e : error).
#[export] Instance keyError_eq_dec : EqDecision keyError.
Proof. solve_decision. Defined.

(** What is at a path. *)
Inductive entry := File (data : list Z) | Directory | Unreadable (err : error).
Abbreviation FS := (gmap string entry).

Section StorageKey.
Context {float : GoFloat} {conf : GoConfig} {lower : GoLower}.
Context (getenv : string -> string).

Definition ReadFile (path : string) (fs : FS) : result error (list Z) :=
  match fs !! path with
  | None => Err fsErrNotExist
  | Some (File data) => Ok data
  | Some Directory => Err (errorsNew "is a directory")
  | Some (Unreadable err) => Err err
  end.

(** [os.Stat] finds a file that is not empty. *)
Definition hasContent (path : string) (fs : FS) : bool :=
  match fs !! path with Some (File data) => 0 <? Z.of_nat (length data) | _ => false end.

Definition isProductionEnv : bool := bool_decide (ToLower (TrimSpace (getenv "AIM_ENV")) ∈ ["prod"; "production"]).

(** The value, and whether there is one. *)
Definition parseBoolEnv (name : string) : bool * bool :=
  let v := ToLower (TrimSpace (getenv name)) in
  if bool_decide (v ∈ ["1"; "true"; "yes"; "on"]) then (true, true) else
  if bool_decide (v ∈ ["0"; "false"; "no"; "off"]) then (false, true) else (false, false).

Definition enforceStorageKeyPolicy (source : string) : option keyError :=
  if negb isProductionEnv then None else
  if source == "auto-generate" then Some InsecureKeyMode else
  if (parseBoolEnv storageKeyWrappedEnv).1 then None else Some InsecureKeyMode.

Definition hasLegacyPersistentData (dataDir : string) (fs : FS) : bool :=
  existsb (fun p => hasContent p fs)
    ((fun name => filepathJoin [dataDir; name]) <$> ["messages.json"; "sessions.json"; "identity.enc"; "privacy.enc"; "blocklist.enc"]
     ++ [filepathJoin [dataDir; "attachments"; "index.json"]]).

Definition keyPath (dataDir : string) : string := filepathJoin [dataDir; "storage.key"].

(** How writing the key file fails, if it does: before the file is opened ([None]), or after it was truncated, which leaves what was
    written so far. *)
Definition WriteFault : Type := option (error * option (list Z)).

Definition WriteStorageKey (written : WriteFault) (dataDir secret : string) (fs : FS) : FS * option keyError :=
  match enforceStorageKeyPolicy "write-file" with
  | Some err => (fs, Some err)
  | None =>
      match written with
      | Some (err, None) => (fs, Some (KeyIO err))
      | Some (err, Some part) => (<[keyPath dataDir := File part]> fs, Some (KeyIO err))
      | None => (<[keyPath dataDir := File (string_bytes secret)]> fs, None)
      end
  end.

Definition LegacyMigrationSecret : string := TrimSpace (getenv legacyMigrationSecretEnv).

(** base64.RawStdEncoding *)
Definition RawStdEncodeToString (bs : list Z) : string :=
  string_of_list_ascii (List.filter (fun a => negb (Ascii.eqb a pad)) (encodeQuanta bs)).

(** [buf]: the 32 bytes of the random source. *)
Definition generateKey (buf : result error (list Z)) (written : WriteFault) (dataDir : string) (fs : FS)
    : FS * result keyError string :=
  match enforceStorageKeyPolicy "auto-generate" with
  | Some err => (fs, Err err)
  | None =>
      if hasLegacyPersistentData dataDir fs then (fs, Err LegacySecretRequired) else
      match buf with
      | Err err => (fs, Err (KeyIO err))
      | Ok buf =>
          let secret := RawStdEncodeToString buf in
          match WriteStorageKey written dataDir secret fs with
          | (fs, Some err) => (fs, Err err)
          | (fs, None) => (fs, Ok secret)
          end
      end
  end.

Definition StoragePassphrase (buf : result error (list Z)) (written : WriteFault) (dataDir : string) (fs : FS)
    : FS * result keyError string :=
  let secret := TrimSpace (getenv storagePassphraseEnv) in
  if negb (secret == "") then (fs, Ok secret) else
  match ReadFile (keyPath dataDir) fs with
  | Ok existing =>
      let secret := TrimSpace (bytes_string existing) in
      if negb (secret == "") then
        match enforceStorageKeyPolicy "file" with Some err => (fs, Err err) | None => (fs, Ok secret) end
      else generateKey buf written dataDir fs
  | Err err => if negb (err == fsErrNotExist) then (fs, Err (KeyIO err)) else generateKey buf written dataDir fs
  end.

(** ** Opening the storage *)

(** [build]: the stores in a directory under a secret. *)
Context {B : Type} (build : string -> string -> FS -> FS * result error B).

Definition resolvedDir (dataDir : string) : string := if TrimSpace dataDir == "" then DefaultDataDir else TrimSpace dataDir.

(** The secret, with the one of the migration when the data is older than the key. *)
Definition resolveSecret (buf : result error (list Z)) (written : WriteFault) (dataDir : string) (fs : FS)
    : FS * result keyError string :=
  match StoragePassphrase buf written dataDir fs with
  | (fs, Ok secret) => (fs, Ok secret)
  | (fs, Err LegacySecretRequired) =>
      if LegacyMigrationSecret == "" then (fs, Err LegacySecretRequired) else
      match WriteStorageKey written dataDir LegacyMigrationSecret fs with
      | (fs, Some err) => (fs, Err err)
      | (fs, None) => (fs, Ok LegacyMigrationSecret)
      end
  | (fs, Err err) => (fs, Err err)
  end.

Definition ResolveStorage (buf : result error (list Z)) (written : WriteFault) (dataDir : string) (fs : FS)
    : FS * result keyError (string * string * B) :=
  let dir := resolvedDir dataDir in
  match resolveSecret buf written dir fs with
  | (fs, Err err) => (fs, Err err)
  | (fs, Ok secret) =>
      match build dir secret fs with
      | (fs, Ok bundle) => (fs, Ok (dir, secret, bundle))
      | (fs, Err err) =>
          if negb (err == ErrAuthFailed) then (fs, Err (KeyIO err)) else
          let legacySecret := LegacyMigrationSecret in
          if (legacySecret == "") || (legacySecret == secret) then (fs, Err (StorageAuthFailed err)) else
          match WriteStorageKey written dir legacySecret fs with
          | (fs, Some err) => (fs, Err err)
          | (fs, None) =>
              match build dir legacySecret fs with
              | (fs, Err err) => (fs, Err (KeyIO err))
              | (fs, Ok bundle) => (fs, Ok (dir, legacySecret, bundle))
              end
          end
      end
  end.

(** ** The generated key reads back *)

Lemma rawStd_text bs : Forall (fun b => 0 <= b < 256) bs ->
  Forall textChar (List.filter (fun a => negb (Ascii.eqb a pad)) (encodeQuanta bs)).
Proof.
  intros Hb. apply encodeQuanta_text in Hb. apply List.Forall_forall. intros a [Ha _]%List.filter_In.
  by apply (proj1 (List.Forall_forall _ _) Hb).
Qed.

(** A key of at least one byte is a text without white space around it. *)
Lemma generated_key_is_solid p bs : Forall (fun b => 0 <= b < 256) (p :: bs) ->
  TrimSpace (RawStdEncodeToString (p :: bs)) = RawStdEncodeToString (p :: bs) /\ RawStdEncodeToString (p :: bs) <> "".
Proof.
  intros Hb. pose proof (rawStd_text _ Hb) as Hc. unfold RawStdEncodeToString.
  assert (Hlen : (2 <= length (List.filter (fun a => negb (Ascii.eqb a pad)) (encodeQuanta (p :: bs))))%nat).
  { assert (Hd : forall v l, 0 <= v < 64 -> length (List.filter (fun a => negb (Ascii.eqb a pad)) (b64digit v :: l))
      = S (length (List.filter (fun a => negb (Ascii.eqb a pad)) l))).
    { intros v l Hv. cbn [List.filter]. destruct (b64digit_plain v Hv) as [Hp _]. apply Ascii.eqb_neq in Hp. by rewrite Hp. }
    destruct bs as [|q [|r bs]]; repeat (apply List.Forall_cons_iff in Hb as [? Hb]); cbv beta in *; cbn [encodeQuanta];
      rewrite !Hd by divlia; lia. }
  split; [by apply TrimSpace_text|]. intros E. apply (f_equal list_ascii_of_string) in E.
  rewrite list_ascii_of_string_of_list_ascii in E. rewrite E in Hlen. cbn in Hlen. lia.
Qed.

(** ** What a start does to the key *)

Definition keyFromFile (dataDir : string) (fs : FS) : option string :=
  match ReadFile (keyPath dataDir) fs with
  | Ok existing => let secret := TrimSpace (bytes_string existing) in if secret == "" then None else Some secret
  | Err _ => None
  end.

Lemma generateKey_spec buf written dataDir fs fs' r : generateKey buf written dataDir fs = (fs', r) ->
  match r with
  | Ok secret => isProductionEnv = false /\ hasLegacyPersistentData dataDir fs = false
      /\ exists bs, buf = Ok bs /\ secret = RawStdEncodeToString bs /\ fs' = <[keyPath dataDir := File (string_bytes secret)]> fs
  | Err _ => fs' = fs \/ isProductionEnv = false /\ hasLegacyPersistentData dataDir fs = false
      /\ exists err left, written = Some (err, Some left) /\ fs' = <[keyPath dataDir := File left]> fs
  end.
Proof.
  unfold generateKey. destruct (enforceStorageKeyPolicy "auto-generate") eqn:Ep; [by intros [= <- <-]; left|].
  assert (Hp : isProductionEnv = false) by (unfold enforceStorageKeyPolicy in Ep; destruct isProductionEnv; [by vm_compute in Ep|done]).
  destruct (hasLegacyPersistentData dataDir fs) eqn:El; [by intros [= <- <-]; left|].
  destruct buf as [bs|err]; [|by intros [= <- <-]; left]. unfold WriteStorageKey.
  assert (Hw : enforceStorageKeyPolicy "write-file" = None) by (unfold enforceStorageKeyPolicy; by rewrite Hp).
  rewrite Hw. destruct written as [[err [left|]]|]; intros [= <- <-].
  - right. split_and!; [done..|by exists err, left].
  - by left.
  - split; [done|]. split; [done|]. by exists bs.
Qed.


(** the secret survives a restart: once it was handed out, the next start with the same environment finds the same
    one, whatever its random source gives, and changes nothing. *)
Theorem secret_survives_restart buf written buf' written' dataDir fs fs' secret :
  (forall bs, buf = Ok bs -> bs <> [] /\ Forall (fun b => 0 <= b < 256) bs) ->
  StoragePassphrase buf written dataDir fs = (fs', Ok secret) ->
  StoragePassphrase buf' written' dataDir fs' = (fs', Ok secret).
Proof.
  intros Hbuf. assert (Hgen : TrimSpace (getenv storagePassphraseEnv) = "" -> generateKey buf written dataDir fs = (fs', Ok secret) ->
    StoragePassphrase buf' written' dataDir fs' = (fs', Ok secret)).
  { intros Ee E. apply generateKey_spec in E as (Hp & _ & bs & Hb & -> & ->). destruct (Hbuf bs Hb) as [Hne Hbytes].
    destruct bs as [|p bs]; [done|]. destruct (generated_key_is_solid p bs Hbytes) as [Ht Hn].
    unfold StoragePassphrase, ReadFile. rewrite Ee, lookup_insert_eq, bytes_string_bytes, Ht. cbn [negb].
    rewrite (bool_decide_false (RawStdEncodeToString (p :: bs) = "")) by done. unfold enforceStorageKeyPolicy. by rewrite Hp. }
  unfold StoragePassphrase at 1. destruct (TrimSpace (getenv storagePassphraseEnv) == "") eqn:Ee; cbn [negb].
  2: { intros [= <- <-]. unfold StoragePassphrase. by rewrite Ee. }
  apply bool_decide_eq_true in Ee. destruct (ReadFile (keyPath dataDir) fs) as [existing|err] eqn:Er.
  - destruct (TrimSpace (bytes_string existing) == "") eqn:Ek; cbn [negb]; [by apply Hgen|].
    destruct (enforceStorageKeyPolicy "file") eqn:Ep; [done|]. intros [= <- <-]. unfold StoragePassphrase.
    rewrite Ee, Er. cbn [negb]. by rewrite Ek, Ep.
  - destruct (negb (err == fsErrNotExist)); [done|]. by apply Hgen.
Qed.

End StorageKey.

(** ** Examples *)

Definition ex_no_env (_ : string) : string := "".
Definition ex_random_key : list Z := [0; 1; 2; 250; 251; 252].

Lemma secret_survives_restart_witness : exists fs' secret,
  StoragePassphrase ex_no_env (Ok ex_random_key) None "/d" ∅ = (fs', Ok secret) /\ secret = "AAEC+vv8"
  /\ StoragePassphrase ex_no_env (Ok [9; 9]) None "/d" fs' = (fs', Ok secret).
Proof.
  assert (E : StoragePassphrase ex_no_env (Ok ex_random_key) None "/d" ∅ = (_, Ok _)) by (vm_compute; reflexivity).
  eexists _, _. split; [exact E|]. split; [reflexivity|].
  eapply secret_survives_restart; [|exact E].
  intros bs [= <-]. split; [done|]. repeat constructor; lia.
Defined.


(** A key whose writing failed part-way is taken for the whole key at the next start. *)
Example cut_key_is_taken :
  let '(fs, r) := StoragePassphrase ex_no_env (Ok ex_random_key) (Some (errorsNew "disk full", Some (string_bytes "AA"))) "/d" ∅ in
  r = Err (KeyIO (errorsNew "disk full")) /\ StoragePassphrase ex_no_env (Ok ex_random_key) None "/d" fs = (fs, Ok "AA").
Proof. vm_compute. split; reflexivity. Qed.

(** The data of an account lives under profiles, which is not looked at: when storage.key is lost a new key is made, and the
    profile cannot be opened with it. *)
Example profile_data_is_not_seen :
  let fs : FS := {["/d/profiles/acct_1/identity.enc" := File [1]; "/d/groups.enc" := File [2]]} in
  exists fs', StoragePassphrase ex_no_env (Ok ex_random_key) None "/d" fs = (fs', Ok "AAEC+vv8").
Proof. eexists. vm_compute. reflexivity. Qed.

(** A migration secret that does not open the data either has replaced the key by then. *)
Example wrong_migration_secret_replaces_key :
  let fs : FS := {["/d/storage.key" := File (string_bytes "right")]} in
  let env name := if name == legacyMigrationSecretEnv then "wrong" else "" in
  let build (dir secret : string) (fs : FS) : FS * result error unit := (fs, Err ErrAuthFailed) in
  ResolveStorage env build (Ok ex_random_key) None "/d" fs
  = ({["/d/storage.key" := File (string_bytes "wrong")]}, Err (KeyIO ErrAuthFailed)).
Proof. vm_compute. reflexivity. Qed.
