(* ===== verification/Accounts.v ===== *)
(** * Account profiles

    Models internal/composition/daemonservice/account_profiles.go: the registry of accounts on disk, switching
    between accounts, and creating or importing an identity in an account of its own. The components that are
    loaded for an account (stores, identity, privacy, groups, inbox: each modelled in its file) and the network
    lifecycle are the interface [AccountParts], with the calls that this file makes of them; encoding/json and
    filepath.Clean are interfaces. The locks make every operation one step. The registry file is written in place:
    a failed write leaves it alone or leaves what was written so far. *)
From S2P Require Import Prelude SecureStore Identity RefreshPolicy WakuConfig.
From Stdlib Require Import ZArith Lia Ascii String.
From stdpp Require Import base gmap strings list sets option.
Open Scope string_scope.
Open Scope Z_scope.
Open Scope go_scope.
Local Open Scope list_scope.

Definition legacyAccountID : string := "legacy".
Definition accountRegistryFile : string := "accounts.json".
Definition accountRegistryV1 : Z := 1.
Definition accountPrefix : string := "acct".

Record persistedAccountMeta := mkMeta { am_ID : string; am_RelPath : string; am_CreatedAt : Z }.
Record persistedAccountRegistry := mkRegistry { ar_Version : Z; ar_ActiveID : string; ar_Accounts : list persistedAccountMeta }.
Record AccountProfile := mkProfile { ap_ID : string; ap_Active : bool }.

(** The calls on the components of an account. [D] holds them, with what they keep on disk; [S] is the type of the
    privacy settings. *)
Class AccountParts (D Bundle S : Type) := {
  buildStorageBundle : string -> string -> M D error Bundle;
  newManager : M D error unit;
  installStores : Bundle -> string -> D -> D;
  identityBootstrap : M D error unit;
  privacyConfigure : Bundle -> string -> D -> D;
  privacyBootstrapPartial : D -> D * S;
  applyStoragePolicyFromSettings : S -> M D error unit;
  bootstrapStateStores : Bundle -> string -> D -> D;
  rebuildCores : D -> D;
  notifierReset : D -> D;
  forgetBindingLinks : D -> D;
  getIdentity : D -> IdentityRecord;
  createIdentityOp : string -> M D error (IdentityRecord * string);
  importIdentityOp : string -> string -> M D error IdentityRecord;
  isNetworking : D -> bool;
  startNetworking : M D error unit;
  stopNetworking : M D error unit
}.

(** filepath.Clean *)
Class GoPath := { filepathClean : string -> string }.

Section Accounts.
Context {float : GoFloat} {conf : GoConfig} {path : GoPath}.
Context {D Bundle S : Type} {parts : AccountParts D Bundle S} {codec : JsonCodec persistedAccountRegistry}.
Context (dataDir : string).

(** How a write of the registry file ends: it succeeds, or it fails with an error, before the file is opened ([None]) or after it was
    truncated, which leaves what was written so far. *)
Definition WriteOutcome : Type := option (error * option (list Z)).

(** What reading the registry file gives ([fsErrNotExist]: there is none), the outcomes of its next writes (successes when there are
    no more), and the fields of the service. *)
Record Profiles := mkProfiles {
  pf_file : result error (list Z); pf_writes : list WriteOutcome; pf_secret : string; pf_current : string; pf_parts : D
}.

Definition with_file (f : result error (list Z)) (w : list WriteOutcome) (p : Profiles) : Profiles :=
  mkProfiles f w (pf_secret p) (pf_current p) (pf_parts p).
Definition with_current (c : string) (p : Profiles) : Profiles :=
  mkProfiles (pf_file p) (pf_writes p) (pf_secret p) c (pf_parts p).
Definition with_secret (s : string) (p : Profiles) : Profiles :=
  mkProfiles (pf_file p) (pf_writes p) s (pf_current p) (pf_parts p).
Definition with_parts (d : D) (p : Profiles) : Profiles :=
  mkProfiles (pf_file p) (pf_writes p) (pf_secret p) (pf_current p) d.

Definition onParts {A} (m : M D error A) : M Profiles error A := fun p =>
  let '(d, r) := m (pf_parts p) in (with_parts d p, r).
Definition doParts (f : D -> D) : M Profiles error unit := modifyM (fun p => with_parts (f (pf_parts p)) p).

(** [_ = m] *)
Definition ignoring {A} (m : M Profiles error A) : M Profiles error unit := fun p => (fst (m p), Ok tt).

(** ** The registry *)

Definition legacyMeta (now : Z) : persistedAccountMeta := mkMeta legacyAccountID "." now.

Definition hasLegacy (reg : persistedAccountRegistry) : bool :=
  existsb (fun entry => TrimSpace (am_ID entry) == legacyAccountID) (ar_Accounts reg).

Definition unsupportedVersion : error := errorsNew "unsupported account registry version".

Definition readRegistry (now : Z) (file : result error (list Z)) : result error persistedAccountRegistry :=
  match file with
  | Err err => if err == fsErrNotExist then Ok (mkRegistry accountRegistryV1 legacyAccountID [legacyMeta now]) else Err err
  | Ok raw =>
      try! reg := unmarshalJSON raw in
      if negb (ar_Version reg =? accountRegistryV1) then Err unsupportedVersion else
      let reg := if negb (hasLegacy reg)
                 then mkRegistry (ar_Version reg) (ar_ActiveID reg) (ar_Accounts reg ++ [legacyMeta now]) else reg in
      Ok (if TrimSpace (ar_ActiveID reg) == "" then mkRegistry (ar_Version reg) legacyAccountID (ar_Accounts reg) else reg)
  end.

Definition loadAccountRegistry (now : Z) : M Profiles error persistedAccountRegistry := fun p => (p, readRegistry now (pf_file p)).

Definition saveAccountRegistry (reg : persistedAccountRegistry) : M Profiles error unit := fun p =>
  let reg := mkRegistry accountRegistryV1 (ar_ActiveID reg) (ar_Accounts reg) in
  match marshalJSON reg with
  | Err err => (p, Err err)
  | Ok raw =>
      match pf_writes p with
      | Some (err, None) :: writes => (with_file (pf_file p) writes p, Err err)
      | Some (err, Some written) :: writes => (with_file (Ok written) writes p, Err err)
      | None :: writes => (with_file (Ok raw) writes p, Ok tt)
      | [] => (with_file (Ok raw) [] p, Ok tt)
      end
  end.

Definition findAccountMeta (reg : persistedAccountRegistry) (accountID : string) : option persistedAccountMeta :=
  let accountID := TrimSpace accountID in
  if accountID == "" then None else List.find (fun entry => TrimSpace (am_ID entry) == accountID) (ar_Accounts reg).

Definition resolveAccountDataDir (entry : persistedAccountMeta) : string :=
  let rel := filepathClean (TrimSpace (am_RelPath entry)) in
  if (rel == "") || (rel == ".") then dataDir else filepathJoin [dataDir; rel].

(** ** Loading an account *)

Definition reloadFromBundle (bundle : Bundle) (secret : string) : M Profiles error unit :=
  onParts newManager ;;!
  doParts (installStores bundle secret) ;;!
  onParts identityBootstrap ;;!
  doParts (privacyConfigure bundle secret) ;;!
  let! settings := onParts (fun d => let '(d, s) := privacyBootstrapPartial d in (d, Ok s)) in
  onParts (applyStoragePolicyFromSettings settings) ;;!
  doParts (bootstrapStateStores bundle secret) ;;!
  doParts rebuildCores ;;!
  doParts notifierReset ;;!
  doParts forgetBindingLinks.

Definition accountNotFound : error := errorsNew "account profile is not found".

Definition activateAccountLocked (now : Z) (accountID : string) (persistActive : bool) : M Profiles error unit :=
  let! reg := loadAccountRegistry now in
  match findAccountMeta reg accountID with
  | None => failM accountNotFound
  | Some entry =>
      let! p := getM in
      let! bundle := onParts (buildStorageBundle (resolveAccountDataDir entry) (pf_secret p)) in
      reloadFromBundle bundle (pf_secret p) ;;!
      modifyM (with_current (am_ID entry)) ;;!
      if persistActive
      then saveAccountRegistry (mkRegistry (ar_Version reg) (am_ID entry) (ar_Accounts reg)) else retM tt
  end.

Definition initializeAccountRegistry (now : Z) (secret : string) : M Profiles error unit :=
  let! reg := loadAccountRegistry now in
  saveAccountRegistry reg ;;!
  modifyM (fun p => with_current (ar_ActiveID reg) (with_secret secret p)) ;;!
  if ar_ActiveID reg == legacyAccountID then retM tt else activateAccountLocked now (ar_ActiveID reg) false.

(** strings.ReplaceAll of one character *)
Definition replaceChar (a b : ascii) (s : string) : string :=
  string_of_list_ascii ((fun c => if Ascii.eqb c a then b else c) <$> list_ascii_of_string s).

Definition GeneratePrefixedID (prefix : string) (buf : result error (list Z)) : result error string :=
  try! buf := buf in Ok (prefix +:+ "_" +:+ hexEncode buf).

Definition createAccountProfileLocked (now : Z) (buf : result error (list Z)) : M Profiles error persistedAccountMeta :=
  let! reg := loadAccountRegistry now in
  let! profileID := liftM (GeneratePrefixedID accountPrefix buf) in
  let profileID := replaceChar "-"%char "_"%char (TrimSpace profileID) in
  let entry := mkMeta profileID (filepathJoin ["profiles"; profileID]) now in
  saveAccountRegistry (mkRegistry (ar_Version reg) (ar_ActiveID reg) (ar_Accounts reg ++ [entry])) ;;!
  retM entry.

Definition removeAccountProfileLocked (now : Z) (accountID : string) : M Profiles error unit :=
  let! reg := loadAccountRegistry now in
  saveAccountRegistry (mkRegistry (ar_Version reg)
    (if ar_ActiveID reg == accountID then legacyAccountID else ar_ActiveID reg)
    (List.filter (fun entry => negb (TrimSpace (am_ID entry) == accountID)) (ar_Accounts reg))).

(** ** The operations *)

Definition ListAccounts (now : Z) : M Profiles error (list AccountProfile) :=
  let! reg := loadAccountRegistry now in
  retM (omap (fun entry => let id := TrimSpace (am_ID entry) in
                           if id == "" then None else Some (mkProfile id (id == TrimSpace (ar_ActiveID reg)))) (ar_Accounts reg)).

Definition GetCurrentAccount (now : Z) : M Profiles error AccountProfile :=
  let! reg := loadAccountRegistry now in retM (mkProfile (TrimSpace (ar_ActiveID reg)) true).

Definition whenM (b : bool) (m : M Profiles error unit) : M Profiles error unit := if b then m else retM tt.

(** [m], and [cleanup] when it fails. *)
Definition orElse {A} (m : M Profiles error A) (cleanup : M Profiles error unit) : M Profiles error A := fun p =>
  match m p with
  | (p, Ok a) => (p, Ok a)
  | (p, Err err) => (fst (cleanup p), Err err)
  end.

Definition accountIDRequired : error := errorsNew "account id is required".

Definition SwitchAccount (now : Z) (accountID : string) : M Profiles error IdentityRecord :=
  let accountID := TrimSpace accountID in
  if accountID == "" then failM accountIDRequired else
  let! p := getM in
  if accountID == pf_current p then retM (getIdentity (pf_parts p)) else
  let wasRunning := isNetworking (pf_parts p) in
  let previousAccountID := pf_current p in
  whenM wasRunning (ignoring (onParts stopNetworking)) ;;!
  orElse (activateAccountLocked now accountID true)
    (whenM (negb (previousAccountID == "")) (ignoring (activateAccountLocked now previousAccountID false)) ;;!
     whenM wasRunning (ignoring (onParts startNetworking))) ;;!
  whenM wasRunning (onParts startNetworking) ;;!
  let! p := getM in retM (getIdentity (pf_parts p)).

Definition runIdentityOpOnNewAccountLocked {A} (now : Z) (buf : result error (list Z)) (op : M D error A) : M Profiles error A :=
  let! entry := createAccountProfileLocked now buf in
  let! p := getM in
  let previousAccountID := pf_current p in
  let wasRunning := isNetworking (pf_parts p) in
  whenM wasRunning (ignoring (onParts stopNetworking)) ;;!
  let! created := orElse (activateAccountLocked now (am_ID entry) true ;;! onParts op)
    (ignoring (removeAccountProfileLocked now (am_ID entry)) ;;!
     whenM (negb (previousAccountID == "")) (ignoring (activateAccountLocked now previousAccountID true)) ;;!
     whenM wasRunning (ignoring (onParts startNetworking))) in
  whenM wasRunning (onParts startNetworking) ;;!
  retM created.

Definition CreateIdentity (now : Z) (buf : result error (list Z)) (password : string) : M Profiles error (IdentityRecord * string) :=
  runIdentityOpOnNewAccountLocked now buf (createIdentityOp password).

Definition ImportIdentity (now : Z) (buf : result error (list Z)) (mnemonic password : string) : M Profiles error IdentityRecord :=
  runIdentityOpOnNewAccountLocked now buf (importIdentityOp mnemonic password).

(** ** The registry stays usable *)

Class RegistryCodecLaws := { registry_roundtrip : forall reg raw, marshalJSON reg = Ok raw -> unmarshalJSON raw = Ok reg }.
Context {laws : RegistryCodecLaws}.

Definition solidID (id : string) : Prop := TrimSpace id = id /\ id <> "".

(** Its version is known, the legacy account is there, identifiers are trimmed, and the active one is an account. *)
Record registry_ok (reg : persistedAccountRegistry) : Prop := {
  ro_version : ar_Version reg = accountRegistryV1;
  ro_legacy : hasLegacy reg = true;
  ro_solid : Forall (fun entry => solidID (am_ID entry)) (ar_Accounts reg);
  ro_active : Exists (fun entry => am_ID entry = ar_ActiveID reg) (ar_Accounts reg)
}.

(** The file is missing, or holds such a registry. *)
Definition usable (file : result error (list Z)) : Prop :=
  match file with
  | Err err => err = fsErrNotExist
  | Ok raw => exists reg, unmarshalJSON raw = Ok reg /\ registry_ok reg
  end.

(** No write fails after it opened the file. *)
Definition whole (w : WriteOutcome) : Prop := match w with Some (_, Some _) => False | _ => True end.

Definition file_ok (p : Profiles) : Prop := usable (pf_file p) /\ Forall whole (pf_writes p).

(** [m] keeps the file usable, and what it returns satisfies [Q]. *)
Definition safe {A} (m : M Profiles error A) (Q : A -> Prop) : Prop :=
  forall p, file_ok p -> file_ok (fst (m p)) /\ forall a, snd (m p) = Ok a -> Q a.

Lemma safe_bind {A B} (m : M Profiles error A) (k : A -> M Profiles error B) Q R :
  safe m Q -> (forall a, Q a -> safe (k a) R) -> safe (bindM m k) R.
Proof.
  intros Hm Hk p Hp. unfold bindM. destruct (Hm p Hp) as [H1 H2]. destruct (m p) as [p1 [a|err]]; cbn in *; [|by split].
  apply Hk; [by apply H2|done].
Qed.

Lemma safe_ret {A} (a : A) (Q : A -> Prop) : Q a -> safe (retM a) Q.
Proof. intros Hq p Hp. split; [done|]. by intros ? [= <-]. Qed.
Lemma safe_fail {A} err (Q : A -> Prop) : safe (failM err) Q.
Proof. intros p Hp. by split. Qed.
Lemma safe_modify f (Q : unit -> Prop) :
  (forall p, pf_file (f p) = pf_file p /\ pf_writes (f p) = pf_writes p) -> Q tt -> safe (modifyM f) Q.
Proof. intros Hf Hq p Hp. unfold file_ok. cbn. destruct (Hf p) as [-> ->]. split; [done|]. by intros [] _. Qed.
Lemma safe_parts {A} (m : M D error A) : safe (onParts m) (fun _ => True).
Proof. intros p Hp. unfold onParts. destruct (m (pf_parts p)) as [d r]. by split. Qed.
Lemma safe_get : safe getM (fun _ => True).
Proof. intros p Hp. by split. Qed.
Lemma safe_weaken {A} (m : M Profiles error A) Q : safe m Q -> safe m (fun _ => True).
Proof. intros Hm p Hp. destruct (Hm p Hp) as [H _]. by split. Qed.
Lemma safe_ignoring {A} (m : M Profiles error A) Q : safe m Q -> safe (ignoring m) (fun _ => True).
Proof. intros Hm p Hp. destruct (Hm p Hp) as [H _]. by split. Qed.
Lemma safe_when b m : safe m (fun _ => True) -> safe (whenM b m) (fun _ => True).
Proof. intros Hm. destruct b; [done|by apply safe_ret]. Qed.
Lemma safe_orElse {A} (m : M Profiles error A) cleanup Q : safe m Q -> safe cleanup (fun _ => True) -> safe (orElse m cleanup) Q.
Proof.
  intros Hm Hc p Hp. unfold orElse. destruct (Hm p Hp) as [H1 H2]. destruct (m p) as [p1 [a|err]]; cbn in *; [by split|].
  split; [|done]. by apply Hc.
Qed.
Lemma safe_lift {A} (r : result error A) (Q : A -> Prop) : (forall a, r = Ok a -> Q a) -> safe (liftM r) Q.
Proof. intros Hr p Hp. split; [done|]. exact Hr. Qed.

Lemma legacy_ok now : registry_ok (mkRegistry accountRegistryV1 legacyAccountID [legacyMeta now]).
Proof. split; [done|done|by repeat constructor|by constructor]. Qed.

Lemma readRegistry_id now raw reg : unmarshalJSON raw = Ok reg -> registry_ok reg -> readRegistry now (Ok raw) = Ok reg.
Proof.
  intros Hu [Hv Hl Hs Ha]. unfold readRegistry. rewrite Hu. cbn [bindR]. rewrite Hv, Hl. cbn [negb Z.eqb accountRegistryV1]. apply list.Exists_exists in Ha as (entry & Hin & He).
  rewrite list.Forall_forall in Hs. destruct (Hs entry Hin) as [Ht Hn]. rewrite He in Ht, Hn. rewrite Ht.
  by rewrite bool_decide_false.
Qed.

Lemma readRegistry_ok now file : usable file -> exists reg, readRegistry now file = Ok reg /\ registry_ok reg.
Proof.
  unfold usable. destruct file as [raw|err].
  - intros (reg & Hu & Hok). exists reg. split; [by apply readRegistry_id|done].
  - intros ->. eexists. split; [done|]. apply legacy_ok.
Qed.

Lemma safe_load now : safe (loadAccountRegistry now) registry_ok.
Proof.
  intros p Hp. split; [done|]. cbn. destruct (readRegistry_ok now _ (proj1 Hp)) as (reg & -> & Hok). by intros ? [= <-].
Qed.

Lemma safe_save reg : registry_ok (mkRegistry accountRegistryV1 (ar_ActiveID reg) (ar_Accounts reg)) ->
  safe (saveAccountRegistry reg) (fun _ => True).
Proof.
  intros Hok p Hp. unfold saveAccountRegistry. destruct (marshalJSON _) as [raw|err] eqn:Em; [|by split].
  apply registry_roundtrip in Em. destruct Hp as [Hu Hw]. unfold file_ok.
  destruct Hw as [|[[err [written|]]|] writes Hw1 Hw]; (split; [|done]); cbn; try done; (split; [by eexists|done]).
Qed.

Lemma find_active reg : registry_ok reg -> exists entry, findAccountMeta reg (ar_ActiveID reg) = Some entry /\ am_ID entry = ar_ActiveID reg.
Proof.
  intros [_ _ Hs Ha]. apply list.Exists_exists in Ha as (entry & Hin & He). rewrite list.Forall_forall in Hs.
  unfold findAccountMeta. destruct (Hs entry Hin) as [Ht Hn]. rewrite He in Ht, Hn. rewrite Ht, bool_decide_false by done.
  destruct (List.find _ (ar_Accounts reg)) as [found|] eqn:Ef.
  - exists found. split; [done|]. apply List.find_some in Ef as [Hf Heq%bool_decide_eq_true].
    apply list_elem_of_In in Hf. destruct (Hs found Hf) as [Ht' _]. congruence.
  - pose proof (List.find_none _ _ Ef entry) as Hnone. apply list_elem_of_In in Hin. specialize (Hnone Hin).
    cbv beta in Hnone. apply bool_decide_eq_false in Hnone. by rewrite He, Ht in Hnone.
Qed.

Lemma find_entry reg id entry : findAccountMeta reg id = Some entry -> registry_ok reg ->
  am_ID entry = TrimSpace id /\ registry_ok (mkRegistry accountRegistryV1 (am_ID entry) (ar_Accounts reg)).
Proof.
  unfold findAccountMeta. destruct (TrimSpace id == ""); [done|]. intros Hf [_ Hl Hs _].
  apply List.find_some in Hf as [Hin Heq%bool_decide_eq_true]. apply list_elem_of_In in Hin.
  assert (Hs' := Hs). rewrite list.Forall_forall in Hs'. destruct (Hs' entry Hin) as [Ht _]. split; [congruence|].
  split; [done|done|done|]. apply list.Exists_exists. by exists entry.
Qed.

Lemma safe_reload bundle secret : safe (reloadFromBundle bundle secret) (fun _ => True).
Proof.
  unfold reloadFromBundle, doParts.
  repeat first [apply safe_parts | by apply (safe_modify _ (fun _ => True)) | eapply safe_bind; [|intros ? _]].
Qed.

Lemma safe_activate now id persist : safe (activateAccountLocked now id persist) (fun _ => True).
Proof.
  unfold activateAccountLocked. eapply safe_bind; [apply safe_load|]. intros reg Hok.
  destruct (findAccountMeta reg id) as [entry|] eqn:Ef; [|apply safe_fail]. destruct (find_entry _ _ _ Ef Hok) as [_ Hreg].
  eapply safe_bind; [apply safe_get|]. intros p _. eapply safe_bind; [apply safe_parts|]. intros bundle _.
  eapply safe_bind; [apply safe_reload|]. intros _ _. eapply safe_bind; [by apply (safe_modify _ (fun _ => True))|]. intros _ _.
  destruct persist; [by apply safe_save|by apply safe_ret].
Qed.

Lemma replaceChar_id a b s : Forall (fun c => c <> a) (list_ascii_of_string s) -> replaceChar a b s = s.
Proof.
  intros Hs. unfold replaceChar. rewrite <- (string_of_list_ascii_of_string s) at 2. f_equal.
  induction Hs as [|c l Hc _ IH]; [done|]. cbn. rewrite IH. apply Ascii.eqb_neq in Hc. by rewrite Hc.
Qed.

(** A hexadecimal digit, as a character. *)
Lemma hex_digit_plain n : 0 <= n < 16 ->
  (byteN (hex_digit n) < 128)%nat /\ space1 (hex_digit n) = false /\ hex_digit n <> "-"%char.
Proof.
  intros Hn. assert (H : forallb (fun n => (byteN (hex_digit n) <? 128)%nat && negb (space1 (hex_digit n)) && negb (Ascii.eqb (hex_digit n) "-"%char))
    (seqZ 0 16) = true) by (by vm_compute). rewrite forallb_forall in H. specialize (H n). cbv beta in H.
  rewrite !andb_true_iff, !negb_true_iff in H. destruct H as [[H1 H2] H3]; [apply list_elem_of_In, elem_of_seqZ; lia|].
  split_and!; [by apply Nat.ltb_lt|done|by apply Ascii.eqb_neq].
Qed.

Lemma hexEncode_no_dash bs : Forall (fun b => 0 <= b < 256) bs ->
  Forall (fun c => (byteN c < 128)%nat /\ space1 c = false /\ c <> "-"%char) (list_ascii_of_string (hexEncode bs)).
Proof.
  intros Hb. unfold hexEncode. rewrite list_ascii_of_string_of_list_ascii. induction Hb as [|b bs Hb _ IH]; cbn; [constructor|].
  constructor; [apply hex_digit_plain; split; [apply Z.div_pos; lia|apply Z.div_lt_upper_bound; lia]|].
  constructor; [apply hex_digit_plain, Z.mod_pos_bound; lia|done].
Qed.

(** The identifier of a new account is used as it was drawn. *)
Lemma new_id_solid buf id : (forall bs, buf = Ok bs -> Forall (fun b => 0 <= b < 256) bs) ->
  GeneratePrefixedID accountPrefix buf = Ok id ->
  replaceChar "-"%char "_"%char (TrimSpace id) = id /\ solidID id /\ id <> legacyAccountID.
Proof.
  intros Hbuf. unfold GeneratePrefixedID. destruct buf as [bs|err]; [|done]. cbn [bindR]. intros [= <-].
  pose proof (hexEncode_no_dash bs (Hbuf bs eq_refl)) as Hh.
  set (h := hexEncode bs) in *. change (accountPrefix +:+ "_" +:+ h) with ("acct_" +:+ h).
  assert (Hl : list_ascii_of_string ("acct_" +:+ h) = list_ascii_of_string "acct_" ++ list_ascii_of_string h) by done.
  assert (Hall : Forall (fun c => (byteN c < 128)%nat /\ space1 c = false /\ c <> "-"%char) (list_ascii_of_string ("acct_" +:+ h))).
  { rewrite Hl. apply Forall_app. split; [|done]. repeat constructor; try done; vm_compute; lia. }
  assert (Ht : TrimSpace ("acct_" +:+ h) = "acct_" +:+ h).
  { rewrite <- (string_of_list_ascii_of_string ("acct_" +:+ h)). rewrite Hl in Hall |- *.
    cbn [list_ascii_of_string app] in Hall |- *. inversion_clear Hall as [|? ? Ha Hall'].
    destruct (list_ascii_of_string h) as [|z l _] using rev_ind.
    - apply (TrimSpace_solid "a"%char ["c"; "c"; "t"]%char "_"%char); vm_compute; (done || lia).
    - change ("a"%char :: "c"%char :: "c"%char :: "t"%char :: "_"%char :: l ++ [z])
        with ("a"%char :: (["c"; "c"; "t"; "_"]%char ++ l) ++ [z]).
      apply Forall_app in Hh as [_ Hz]. apply List.Forall_cons_iff in Hz as [(Hz & Hz' & _) _].
      apply TrimSpace_solid; [vm_compute; lia|done|done|done]. }
  rewrite Ht. split; [apply replaceChar_id; eapply list.Forall_impl; [exact Hall|]; by intros c (_ & _ & ?)|].
  split; [by split|done].
Qed.

Lemma safe_create now buf : (forall bs, buf = Ok bs -> Forall (fun b => 0 <= b < 256) bs) ->
  safe (createAccountProfileLocked now buf) (fun entry => solidID (am_ID entry) /\ am_ID entry <> legacyAccountID).
Proof.
  intros Hbuf. unfold createAccountProfileLocked. eapply safe_bind; [apply safe_load|]. intros reg [Hv Hl Hs Ha].
  eapply safe_bind; [apply (safe_lift _ (fun id => GeneratePrefixedID accountPrefix buf = Ok id)); by intros ? ->|].
  intros id Hid. destruct (new_id_solid buf id Hbuf Hid) as (-> & Hsolid & Hne).
  eapply safe_bind; [|intros _ _; by apply safe_ret]. apply safe_save. split; cbn; [done| | |].
  - unfold hasLegacy in *. cbn. by rewrite existsb_app, Hl.
  - apply Forall_app. split; [done|]. constructor; [done|constructor].
  - apply Exists_app. by left.
Qed.

Lemma safe_remove now id : solidID id -> id <> legacyAccountID -> safe (removeAccountProfileLocked now id) (fun _ => True).
Proof.
  intros [Ht Hne] Hl. unfold removeAccountProfileLocked. eapply safe_bind; [apply safe_load|]. intros reg [Hv Hlg Hs Ha].
  apply safe_save. cbn. assert (Hs' := Hs). rewrite list.Forall_forall in Hs'.
  unfold hasLegacy in Hlg. apply existsb_exists in Hlg as (old & Hold & Heq). assert (Heq' := Heq). apply bool_decide_eq_true in Heq'.
  assert (Hkeep : forall entry, In entry (ar_Accounts reg) -> TrimSpace (am_ID entry) <> id ->
    In entry (List.filter (fun entry => negb (TrimSpace (am_ID entry) == id)) (ar_Accounts reg))).
  { intros entry Hin Hn. apply List.filter_In. split; [done|]. by rewrite bool_decide_false. }
  split; cbn; [done| | |].
  - unfold hasLegacy. cbn. apply existsb_exists. exists old. split; [|done]. apply Hkeep; [done|]. congruence.
  - apply list.Forall_forall. intros entry Hin. apply list_elem_of_In, List.filter_In in Hin as [Hin _]. apply Hs'. by apply list_elem_of_In.
  - apply list.Exists_exists. destruct (ar_ActiveID reg == id) eqn:E.
    + exists old. split; [apply list_elem_of_In, Hkeep; [done|congruence]|]. destruct (Hs' old) as [Ht' _]; [by apply list_elem_of_In|congruence].
    + apply bool_decide_eq_false in E. apply list.Exists_exists in Ha as (entry & Hin & He). exists entry. split; [|done].
      apply list_elem_of_In, Hkeep; [by apply list_elem_of_In|]. destruct (Hs' entry Hin) as [Ht' _]. congruence.
Qed.

Lemma safe_init now secret : safe (initializeAccountRegistry now secret) (fun _ => True).
Proof.
  unfold initializeAccountRegistry. eapply safe_bind; [apply safe_load|]. intros reg Hok.
  eapply safe_bind; [apply safe_save; by destruct Hok as [Hv ???]; split|]. intros _ _.
  eapply safe_bind; [by apply (safe_modify _ (fun _ => True))|]. intros _ _.
  destruct (ar_ActiveID reg == legacyAccountID); [by apply safe_ret|apply safe_activate].
Qed.

Lemma safe_switch now id : safe (SwitchAccount now id) (fun _ => True).
Proof.
  unfold SwitchAccount. destruct (TrimSpace id == ""); [apply safe_fail|]. eapply safe_bind; [apply safe_get|]. intros p _.
  destruct (TrimSpace id == pf_current p); [by apply safe_ret|].
  eapply safe_bind; [eapply safe_when, safe_ignoring, safe_parts|]. intros _ _.
  eapply safe_bind; [apply safe_orElse; [apply safe_activate|]|].
  - eapply safe_bind; [eapply safe_when, safe_ignoring, safe_activate|]. intros _ _. eapply safe_when, safe_ignoring, safe_parts.
  - intros _ _. eapply safe_bind; [apply safe_when, safe_parts|]. intros _ _. eapply safe_bind; [apply safe_get|]. intros ? _. by apply safe_ret.
Qed.

Lemma safe_new_identity {A} now buf (op : M D error A) : (forall bs, buf = Ok bs -> Forall (fun b => 0 <= b < 256) bs) ->
  safe (runIdentityOpOnNewAccountLocked now buf op) (fun _ => True).
Proof.
  intros Hbuf. unfold runIdentityOpOnNewAccountLocked. eapply safe_bind; [by apply safe_create|]. intros entry [Hs Hl].
  eapply safe_bind; [apply safe_get|]. intros p _. eapply safe_bind; [eapply safe_when, safe_ignoring, safe_parts|]. intros _ _.
  eapply safe_bind; [apply safe_orElse|].
  - eapply safe_bind; [apply safe_activate|]. intros _ _. apply safe_parts.
  - eapply safe_bind; [by eapply safe_ignoring, safe_remove|]. intros _ _.
    eapply safe_bind; [eapply safe_when, safe_ignoring, safe_activate|]. intros _ _. eapply safe_when, safe_ignoring, safe_parts.
  - intros a _. eapply safe_bind; [apply safe_when, safe_parts|]. intros _ _. by apply safe_ret.
Qed.

(** The operations that write the registry. *)
Inductive account_op :=
| OpInit (secret : string) | OpSwitch (id : string) | OpCreate (buf : result error (list Z)) (password : string)
| OpImport (buf : result error (list Z)) (mnemonic password : string).

Definition account_step (p : Profiles) (op : Z * account_op) : Profiles :=
  match op with
  | (now, OpInit secret) => fst (initializeAccountRegistry now secret p)
  | (now, OpSwitch id) => fst (SwitchAccount now id p)
  | (now, OpCreate buf password) => fst (CreateIdentity now buf password p)
  | (now, OpImport buf mnemonic password) => fst (ImportIdentity now buf mnemonic password p)
  end.

(** Random sources give bytes. *)
Definition op_ok (op : Z * account_op) : Prop :=
  match op with
  | (_, OpCreate buf _) | (_, OpImport buf _ _) => forall bs, buf = Ok bs -> Forall (fun b => 0 <= b < 256) bs
  | _ => True
  end.

(** C28: Whatever fails on the way (opening the registry file for writing, loading an account, the network, making the identity), the
    registry on disk stays usable, as long as no write of it fails part-way: it can be read at the next start, it holds the legacy
    account, and the account it names as active is one of its accounts, so that the start finds it. (The file is written in place;
    a write that fails part-way leaves what was written so far.) *)
Theorem active_account_is_always_found ops p now :
  pf_file p = Err fsErrNotExist -> Forall whole (pf_writes p) -> Forall op_ok ops ->
  exists reg entry, readRegistry now (pf_file (fold_left account_step ops p)) = Ok reg
    /\ hasLegacy reg = true /\ findAccountMeta reg (ar_ActiveID reg) = Some entry /\ am_ID entry = ar_ActiveID reg.
Proof.
  intros Hf Hw Hops. assert (Hp : file_ok p) by (split; [by rewrite Hf|done]). clear Hf Hw. revert p Hp.
  induction Hops as [|op ops Hop _ IH]; intros p Hp; cbn [fold_left].
  - destruct (readRegistry_ok now _ (proj1 Hp)) as (reg & Hr & Hok). destruct (find_active reg Hok) as (entry & He & Ha).
    exists reg, entry. split; [done|]. split; [apply Hok|done].
  - apply IH. destruct op as [t [secret|id|buf password|buf mnemonic password]]; cbn [account_step].
    + by apply safe_init.
    + by apply safe_switch.
    + by apply (safe_new_identity t buf (createIdentityOp password)).
    + by apply (safe_new_identity t buf (importIdentityOp mnemonic password)).
Qed.

(** ** Switching and the next start *)

(** [m] leaves the registry and the fields of the service alone. *)
Definition frame {A} (m : M Profiles error A) : Prop :=
  forall p, pf_file (fst (m p)) = pf_file p /\ pf_current (fst (m p)) = pf_current p /\ pf_secret (fst (m p)) = pf_secret p.

Lemma frame_parts {A} (m : M D error A) : frame (onParts m).
Proof. intros p. unfold onParts. by destruct (m (pf_parts p)). Qed.
Lemma frame_do f : frame (doParts f).
Proof. by intros p. Qed.
Lemma frame_bind {A B} (m : M Profiles error A) (k : A -> M Profiles error B) : frame m -> (forall a, frame (k a)) -> frame (bindM m k).
Proof.
  intros Hm Hk p. unfold bindM. destruct (Hm p) as (H1 & H2 & H3). destruct (m p) as [p1 [a|err]]; cbn in *; [|done].
  destruct (Hk a p1) as (-> & -> & ->). done.
Qed.
Lemma frame_ignoring {A} (m : M Profiles error A) : frame m -> frame (ignoring m).
Proof. intros Hm p. apply Hm. Qed.
Lemma frame_when b m : frame m -> frame (whenM b m).
Proof. intros Hm. by destruct b; [|intros p]. Qed.

Lemma frame_reload bundle secret : frame (reloadFromBundle bundle secret).
Proof. unfold reloadFromBundle. repeat first [apply frame_parts | apply frame_do | apply frame_bind; [|intros ?]]. Qed.

Lemma save_ok reg p p' : saveAccountRegistry reg p = (p', Ok tt) ->
  exists raw, marshalJSON (mkRegistry accountRegistryV1 (ar_ActiveID reg) (ar_Accounts reg)) = Ok raw /\ pf_file p' = Ok raw
    /\ pf_current p' = pf_current p.
Proof.
  unfold saveAccountRegistry. destruct (marshalJSON _) as [raw|err]; [|done].
  destruct (pf_writes p) as [|[[err [written|]]|] writes]; intros [= <-]; by exists raw.
Qed.

Lemma activate_ok now id persist p p' : usable (pf_file p) -> activateAccountLocked now id persist p = (p', Ok tt) ->
  exists reg, readRegistry now (pf_file p) = Ok reg /\ registry_ok reg /\ pf_current p' = TrimSpace id
    /\ (persist = true -> exists raw, pf_file p' = Ok raw
          /\ unmarshalJSON raw = Ok (mkRegistry accountRegistryV1 (TrimSpace id) (ar_Accounts reg))
          /\ registry_ok (mkRegistry accountRegistryV1 (TrimSpace id) (ar_Accounts reg))).
Proof.
  intros Hp. destruct (readRegistry_ok now _ Hp) as (reg & Hr & Hok). unfold activateAccountLocked, bindM at 1, loadAccountRegistry.
  rewrite Hr. destruct (findAccountMeta reg id) as [entry|] eqn:Ef; [|done]. destruct (find_entry _ _ _ Ef Hok) as [Hid Hnew].
  cbn [bindM getM]. unfold bindM at 1. cbn [getM]. unfold bindM at 1.
  destruct (onParts (buildStorageBundle _ _) p) as [p1 [bundle|err]] eqn:Eb; [|done].
  unfold bindM at 1. destruct (reloadFromBundle bundle (pf_secret p) p1) as [p2 [[]|err]] eqn:Er; [|done].
  try unfold bindM at 1. unfold modifyM. intros E. exists reg. split; [done|]. split; [done|]. destruct persist.
  - apply save_ok in E as (raw & Hm & Hf & Hc). apply registry_roundtrip in Hm. cbn in Hm, Hc. rewrite Hid in Hm, Hc, Hnew.
    split; [done|]. intros _. by exists raw.
  - injection E as <-. by split.
Qed.

Lemma init_ok now secret p p' reg : usable (pf_file p) -> initializeAccountRegistry now secret p = (p', Ok tt) ->
  readRegistry now (pf_file p) = Ok reg -> pf_current p' = ar_ActiveID reg.
Proof.
  intros Hp E Hr. destruct (readRegistry_ok now _ Hp) as (reg0 & Hr0 & Hok). rewrite Hr in Hr0. injection Hr0 as <-.
  assert (Hsaved : registry_ok (mkRegistry accountRegistryV1 (ar_ActiveID reg) (ar_Accounts reg))) by (destruct Hok; by split).
  unfold initializeAccountRegistry, bindM at 1, loadAccountRegistry in E. rewrite Hr in E. try unfold bindM at 1 in E.
  destruct (saveAccountRegistry reg p) as [p1 [[]|err]] eqn:Es; [|done].
  assert (Hp1 : usable (pf_file p1)).
  { apply save_ok in Es as (raw & Hm & -> & _). apply registry_roundtrip in Hm. by eexists. } try unfold bindM at 1 in E. unfold modifyM in E.
  destruct (ar_ActiveID reg == legacyAccountID) eqn:El; [by injection E as <-|].
  apply activate_ok in E as (_ & _ & _ & Hc & _); [|exact Hp1]. rewrite Hc. destruct (find_active reg Hok) as (entry & _ & He).
  destruct Hok as [_ _ Hs Ha]. apply list.Exists_exists in Ha as (entry' & Hin & <-). rewrite list.Forall_forall in Hs. by apply (Hs entry').
Qed.

(** The network comes up when it is started. *)
Class PartsLaws := { start_networking : forall d d', startNetworking d = (d', Ok tt) -> isNetworking d' = true }.

(** a switch that succeeds makes the account the current one, hands out the identity that was loaded for it and leaves the
    network up when it was; and a later start of the daemon that succeeds loads the same account. *)
Theorem switch_survives_restart {plaws : PartsLaws} now id p p' identity :
  usable (pf_file p) -> TrimSpace id <> pf_current p -> SwitchAccount now id p = (p', Ok identity) ->
  pf_current p' = TrimSpace id /\ identity = getIdentity (pf_parts p')
  /\ (isNetworking (pf_parts p) = true -> isNetworking (pf_parts p') = true)
  /\ forall now' secret d writes p'',
       initializeAccountRegistry now' secret (mkProfiles (pf_file p') writes "" legacyAccountID d) = (p'', Ok tt) ->
       pf_current p'' = TrimSpace id.
Proof.
  intros Hp Hne. unfold SwitchAccount. destruct (TrimSpace id == "") eqn:Ee; [done|]. unfold bindM at 1. cbn [getM].
  rewrite bool_decide_false by done. unfold bindM at 1.
  set (stop := whenM (isNetworking (pf_parts p)) (ignoring (onParts stopNetworking))).
  assert (Hstop : frame stop) by (apply frame_when, frame_ignoring, frame_parts).
  assert (Hp1 : usable (pf_file (fst (stop p)))) by (by rewrite (proj1 (Hstop p))).
  destruct (stop p) as [p1 [[]|err]]; [|done]. cbn [fst] in Hp1. unfold bindM at 1, orElse.
  destruct (activateAccountLocked now (TrimSpace id) true p1) as [p2 [[]|err]] eqn:Ea.
  2: done.
  destruct (activate_ok _ _ _ _ _ Hp1 Ea) as (reg & _ & Hok & Hc & Hf). destruct (Hf eq_refl) as (raw & Hf2 & Hu & Hnew).
  rewrite TrimSpace_idemp in Hc, Hu, Hnew. unfold bindM at 1.
  assert (Hstart : frame (whenM (isNetworking (pf_parts p)) (onParts startNetworking))) by (apply frame_when, frame_parts).
  destruct (Hstart p2) as (Hsf & Hsc & _).
  destruct (whenM (isNetworking (pf_parts p)) (onParts startNetworking) p2) as [p3 [[]|err]] eqn:En; [|done].
  cbn [fst] in Hsf, Hsc. unfold bindM. cbn [getM retM]. intros [= <- <-]. rewrite Hsc. split; [done|]. split; [done|]. split.
  - intros Hrun. rewrite Hrun in En. cbn [whenM] in En. unfold onParts in En.
    destruct (startNetworking (pf_parts p2)) as [d [[]|err]] eqn:Es; [|done]. injection En as <-. by apply start_networking in Es.
  - intros now' secret d writes p'' Ei. rewrite Hsf, Hf2 in Ei.
    eapply init_ok in Ei; [|by exists (mkRegistry accountRegistryV1 (TrimSpace id) (ar_Accounts reg))|by apply readRegistry_id]. done.
Qed.

End Accounts.

(** ** Examples: accounts that are known by their directory *)

#[export] Instance persistedAccountMeta_eq_dec : EqDecision persistedAccountMeta.
Proof. solve_decision. Defined.
#[export] Instance persistedAccountMeta_countable : Countable persistedAccountMeta.
Proof.
  apply (inj_countable' (fun m => (am_ID m, am_RelPath m, am_CreatedAt m)) (fun '(v1, v2, v3) => mkMeta v1 v2 v3)). by intros [].
Defined.
#[export] Instance persistedAccountRegistry_eq_dec : EqDecision persistedAccountRegistry.
Proof. solve_decision. Defined.
#[export] Instance persistedAccountRegistry_countable : Countable persistedAccountRegistry.
Proof.
  apply (inj_countable' (fun r => (ar_Version r, ar_ActiveID r, ar_Accounts r)) (fun '(v1, v2, v3) => mkRegistry v1 v2 v3)). by intros [].
Defined.
#[export] Instance exRegistryCodec : JsonCodec persistedAccountRegistry := {
  marshalJSON r := Ok [zenc r];
  unmarshalJSON bs := match bs with
    | [z] => match zdec z with Some r => Ok r | None => Err (errorsNew "json") end
    | _ => Err (errorsNew "json")
    end
}.
#[export] Instance exRegistryLaws : RegistryCodecLaws.
Proof. constructor. intros reg raw [= <-]. unfold unmarshalJSON, exRegistryCodec. by rewrite zdec_zenc. Qed.

#[export] Instance exPath : GoPath := { filepathClean s := s }.

(** The directory that is loaded, the identities by directory, and the network with whether it can be started. *)
Record exDaemon := mkDaemon { xd_dir : string; xd_identities : gmap string string; xd_up : bool; xd_network : bool }.

Definition ex_identity (id : string) : IdentityRecord := mkIdentity id [].

#[export] Instance exParts : AccountParts exDaemon string unit := {
  buildStorageBundle dir _ := fun d => if dir == "/data/broken" then (d, Err ErrAuthFailed) else (d, Ok dir);
  newManager := retM tt;
  installStores dir _ d := mkDaemon dir (xd_identities d) (xd_up d) (xd_network d);
  identityBootstrap := retM tt; privacyConfigure _ _ d := d; privacyBootstrapPartial d := (d, tt);
  applyStoragePolicyFromSettings _ := retM tt; bootstrapStateStores _ _ d := d; rebuildCores d := d; notifierReset d := d;
  forgetBindingLinks d := d;
  getIdentity d := ex_identity (default "" (xd_identities d !! xd_dir d));
  createIdentityOp _ := fun d => (mkDaemon (xd_dir d) (<[xd_dir d := "aim1new"]> (xd_identities d)) (xd_up d) (xd_network d), Ok (ex_identity "aim1new", "twelve words"));
  importIdentityOp _ _ := failM (errorsNew "invalid mnemonic");
  isNetworking := xd_up;
  startNetworking := fun d => if xd_network d then (mkDaemon (xd_dir d) (xd_identities d) true true, Ok tt) else (d, Err (errorsNew "offline"));
  stopNetworking := fun d => (mkDaemon (xd_dir d) (xd_identities d) false (xd_network d), Ok tt)
}.
#[export] Instance exPartsLaws : PartsLaws.
Proof. constructor. intros d d'. cbn. destruct (xd_network d); [by intros [= <-]|done]. Qed.

Definition ex_profiles (network : bool) : Profiles := mkProfiles (Err fsErrNotExist) [] "secret" "legacy" (mkDaemon "/data" {["/data" := "aim1old"]} true network).
Definition ex_created : Profiles := fst (CreateIdentity "/data" 100 (Ok [1; 171]) "password" (ex_profiles true)).

Lemma active_account_is_always_found_witness : exists reg entry,
  readRegistry 900 (pf_file (fold_left (account_step "/data") [(100, OpCreate (Ok [1; 171]) "password"); (200, OpSwitch "legacy");
    (300, OpImport (Ok [2]) "words" "password"); (400, OpSwitch "acct_01ab")] (ex_profiles true))) = Ok reg
  /\ findAccountMeta reg (ar_ActiveID reg) = Some entry /\ am_ID entry = "acct_01ab" /\ am_ID <$> ar_Accounts reg = ["legacy"; "acct_01ab"].
Proof.
  destruct (active_account_is_always_found "/data" [(100, OpCreate (Ok [1; 171]) "password"); (200, OpSwitch "legacy");
    (300, OpImport (Ok [2]) "words" "password"); (400, OpSwitch "acct_01ab")] (ex_profiles true) 900) as (reg & entry & Hr & _ & Hf & _).
  - reflexivity.
  - constructor.
  - repeat constructor; intros bs [= <-]; repeat constructor; lia.
  - assert (Hr' := Hr). vm_compute in Hr'. injection Hr' as <-. assert (Hf' := Hf). vm_compute in Hf'. injection Hf' as <-.
    eexists _, _. split; [exact Hr|]. split; [exact Hf|]. split; reflexivity.
Defined.

Lemma switch_survives_restart_witness : exists p' identity,
  SwitchAccount "/data" 200 " legacy" ex_created = (p', Ok identity) /\ pf_current p' = "legacy" /\ identity = ex_identity "aim1old".
Proof.
  assert (E : SwitchAccount "/data" 200 " legacy" ex_created = (_, Ok _)) by (vm_compute; reflexivity).
  eexists _, _. split; [exact E|].
  destruct (switch_survives_restart "/data" 200 " legacy" ex_created _ _ ltac:(vm_compute; eexists; split; [reflexivity|]; split; [reflexivity|reflexivity|repeat constructor; (vm_compute; done)|right; left; reflexivity]) ltac:(vm_compute; discriminate) E) as (Hc & _).
  split; [rewrite Hc; reflexivity|reflexivity].
Defined.

(** The identity is made and active, but the network does not come up again: the call fails, and the mnemonic is never seen. *)
Example mnemonic_is_lost :
  let '(p, r) := CreateIdentity "/data" 100 (Ok [1; 171]) "password" (ex_profiles false) in
  r = Err (errorsNew "offline") /\ pf_current p = "acct_01ab" /\ getIdentity (pf_parts p) = ex_identity "aim1new".
Proof. vm_compute. done. Qed.

(** A write of the registry that fails part-way leaves a file that no later start can read, although a whole registry was there. *)
Example torn_registry_stops_the_daemon :
  let p := fst (initializeAccountRegistry "/data" 50 "secret" (ex_profiles true)) in
  let torn := mkProfiles (pf_file p) [Some (errorsNew "disk full", Some [])] (pf_secret p) (pf_current p) (pf_parts p) in
  let p2 := account_step "/data" torn (100, OpCreate (Ok [1; 171]) "password") in
  is_ok (readRegistry 60 (pf_file p)) = true /\ pf_file p2 = Ok []
  /\ snd (initializeAccountRegistry "/data" 200 "secret" p2) = Err (errorsNew "json").
Proof. vm_compute. done. Qed.
