(* ===== verification/Backup.v ===== *)
(** * Backups

    Models internal/domains/identity/usecase/backup_flows.go and the consent of domain/backup.go: exporting the
    identity, the contacts, the messages and the sessions of a device as one encrypted text, and restoring them on
    another. The identity manager is the one of Identity.v, the message store that of MessageStore.v, the session
    manager that of Session.v over any of its stores; encoding/json of the payload is an interface. The call of the
    identity service that restores a backup (usecase/service.go) also writes the identity file of IdentityStore.v. *)
From S2P Require Import Prelude Encoding SecureStore MessageStore Session SessionSafety Identity IdentityStore.
From stdpp Require Import base gmap strings list sets option.
From Stdlib Require Import ZArith Lia.
Open Scope string_scope.
Open Scope Z_scope.
Open Scope go_scope.
Local Open Scope list_scope.

Definition BackupConsentToken : string := "I_UNDERSTAND_BACKUP_RISK".
Definition IsBackupConsentTokenValid (token : string) : bool := TrimSpace token == BackupConsentToken.

Record BackupExportResult := mkExport { be_Blob : string; be_IdentityID : string; be_MessageCount : Z; be_SessionCount : Z }.
Record BackupRestoreResult := mkRestore { br_IdentityID : string; br_MessageCount : Z; br_SessionCount : Z }.

(** The two byte strings are empty when they are missing; a session holds its skipped keys by value. *)
Record backupPayload := mkPayload {
  bp_Version : Z; bp_ExportedAt : Z; bp_Identity : IdentityRecord; bp_SigningPrivateKey : list Z; bp_SeedEnvelope : list Z;
  bp_Contacts : list Contact; bp_Messages : Messages; bp_Pending : Pendings; bp_Sessions : list SessionVal
}.

Section Backup.
Context {crypto : IdentityCrypto} {cipher : Cipher} {ecodec : EnvelopeCodec} {mcodec : MessageCodec}.
Context {scodec : JsonCodec Envelope} {pcodec : JsonCodec backupPayload}.
Context {S : Type} {store : SessionStore S}.

(** The state of the identity manager, the message store, and the session manager. *)
Record BackupWorld := mkBackupWorld { bw_identity : Manager; bw_messages : MessageStore; bw_sessions : SkipHeap * S }.

Definition onIdentity {A} (m : M Manager error A) : M BackupWorld error A := fun w =>
  let '(i, r) := m (bw_identity w) in (mkBackupWorld i (bw_messages w) (bw_sessions w), r).
Definition onMessages {A} (m : M MessageStore error A) : M BackupWorld error A := fun w =>
  let '(s, r) := m (bw_messages w) in (mkBackupWorld (bw_identity w) s (bw_sessions w), r).
Definition onSessions {A} (m : M (SkipHeap * S) error A) : M BackupWorld error A := fun w =>
  let '(s, r) := m (bw_sessions w) in (mkBackupWorld (bw_identity w) (bw_messages w) s, r).

(** [for i, x := range l] with an error that ends it. *)
Fixpoint eachM {X} (f : nat -> X -> M BackupWorld error unit) (i : nat) (l : list X) : M BackupWorld error unit :=
  match l with
  | [] => retM tt
  | x :: l => f i x ;;! eachM f (Datatypes.S i) l
  end.

Definition exportConsentRequired : error := errorsNew "backup export requires explicit consent token".
Definition restoreConsentRequired : error := errorsNew "backup restore requires explicit consent token".
Definition passwordRequired : error := errorsNew "backup password is required".
Definition blobRequired : error := errorsNew "backup blob is required".

Definition ExportBackup (env : StoreEnv) (now : Z) (r : Random) (consentToken password : string) : M BackupWorld error BackupExportResult :=
  let consentToken := TrimSpace consentToken in
  let password := TrimSpace password in
  rejectM (negb (IsBackupConsentTokenValid consentToken)) exportConsentRequired ;;!
  rejectM (password == "") passwordRequired ;;!
  let! w := getM in
  let '(messages, pending) := MessageStore.Snapshot (bw_messages w) in
  let! sessions := onSessions (Session.Snapshot env) in
  let! w := getM in
  let identity := bw_identity w in
  let signingPrivateKey := snd (SnapshotIdentityKeys identity) in
  rejectM (length signingPrivateKey =? 0)%nat (errorsNew "backup export requires identity private key snapshot") ;;!
  let payload := mkPayload 1 now (im_identity identity) signingPrivateKey (SnapshotSeedEnvelopeJSON identity)
                   (@Contacts (env_rt env) identity) messages pending (derefSession (fst (bw_sessions w)) <$> sessions) in
  let! raw := liftM (marshalJSON payload) in
  let! encrypted := liftM (Encrypt r password raw) in
  retM (mkExport (EncodeToString encrypted) (id_ID (bp_Identity payload)) (Z.of_nat (size messages)) (Z.of_nat (length sessions))).

(** The environments of the calls of a restore: one for every message, pending entry and session. *)
Record RestoreEnv := mkRestoreEnv {
  re_rt : GoRuntime; re_now : Z; re_wipeMessages : StoreEnv; re_wipeSessions : StoreEnv;
  re_message : nat -> StoreEnv; re_pending : nat -> StoreEnv; re_session : nat -> StoreEnv
}.

Definition decodeBackup (password blob : string) : result error backupPayload :=
  match DecodeString blob with
  | None => Err (errorsNew "illegal base64 data")
  | Some raw =>
      try! plain := Decrypt password raw in
      try! payload := unmarshalJSON plain in
      if negb (bp_Version payload =? 1) then Err (errorsNew "backup payload version is invalid") else
      if (length (bp_SigningPrivateKey payload) =? 0)%nat
      then Err (errorsNew "backup payload does not contain identity private key") else Ok payload
  end.

Definition restoreIdentity (env : RestoreEnv) (payload : backupPayload) : M BackupWorld error unit :=
  onIdentity (RestoreIdentityPrivateKey (re_now env) (bp_SigningPrivateKey payload)) ;;!
  (if (0 <? Z.of_nat (length (bp_SeedEnvelope payload)))
   then onIdentity (RestoreSeedEnvelopeJSON (bp_SeedEnvelope payload)) else retM tt) ;;!
  let! w := getM in
  rejectM (negb (id_ID (bp_Identity payload) == "") && negb (id_ID (im_identity (bw_identity w)) == id_ID (bp_Identity payload)))
    (errorsNew "backup identity id mismatch").

Definition restoreContent (env : RestoreEnv) (payload : backupPayload) : M BackupWorld error unit :=
  eachM (fun _ contact => onIdentity (AddContactByIdentityID (re_now env) (ct_ID contact) (ct_DisplayName contact))) 0 (bp_Contacts payload) ;;!
  eachM (fun i kv => onMessages (SaveMessage (re_message env i) (snd kv))) 0 (@rangeMap (re_rt env) _ (bp_Messages payload)) ;;!
  eachM (fun i kv => let p := snd kv in
           onMessages (AddOrUpdatePending (re_pending env i) (pm_Message p) (pm_RetryCount p) (pm_NextRetry p) (pm_LastError p)))
    0 (@rangeMap (re_rt env) _ (bp_Pending payload)) ;;!
  onSessions (fun '(h, s) => let '(h, states) := materializeAll h (bp_Sessions payload) in RestoreSnapshot (re_session env) states (h, s)).

Definition RestoreBackup (env : RestoreEnv) (consentToken password blob : string) : M BackupWorld error BackupRestoreResult :=
  let consentToken := TrimSpace consentToken in
  let password := TrimSpace password in
  let blob := TrimSpace blob in
  rejectM (negb (IsBackupConsentTokenValid consentToken)) restoreConsentRequired ;;!
  rejectM (password == "") passwordRequired ;;!
  rejectM (blob == "") blobRequired ;;!
  let! payload := liftM (decodeBackup password blob) in
  onMessages (WipeMessages (re_wipeMessages env)) ;;!
  onSessions (ManagerWipe (re_wipeSessions env)) ;;!
  restoreIdentity env payload ;;!
  restoreContent env payload ;;!
  let! w := getM in
  retM (mkRestore (id_ID (im_identity (bw_identity w))) (Z.of_nat (size (bp_Messages payload))) (Z.of_nat (length (bp_Sessions payload)))).

(** ** The service's calls that write the identity file *)

Section IdentityFile.
Context {icodec : JsonCodec persistedIdentityState} {rcodec : JsonCodec persistedRuntimeState}.

Definition onIdentityFile {A} (m : M IdentityWorld error A) : M (BackupWorld * EncStore) error A := fun '(w, file) =>
  let '(iw, r) := m (mkIdentityWorld (bw_identity w) file) in
  ((mkBackupWorld (iw_manager iw) (bw_messages w) (bw_sessions w), iw_store iw), r).
Definition onDevice {A} (m : M BackupWorld error A) : M (BackupWorld * EncStore) error A := fun '(w, file) =>
  let '(w, r) := m w in ((w, file), r).

(** RestoreBackup of usecase/service.go: the identity file is written after the backup was restored. *)
Definition ServiceRestoreBackup (persist : StoreEnv) (env : RestoreEnv) (consentToken password blob : string)
    : M (BackupWorld * EncStore) error IdentityRecord :=
  onDevice (RestoreBackup env consentToken password blob) ;;!
  onIdentityFile (IdentityPersist persist) ;;!
  let! w := getM in retM (im_identity (bw_identity (fst w))).

Inductive IdentityFileCall :=
| FSvc (c : SvcCall)
| FRestoreBackup (env : RestoreEnv) (consentToken password blob : string).

Definition run_file (persist : StoreEnv) (c : IdentityFileCall) : M (BackupWorld * EncStore) error unit :=
  match c with
  | FSvc c => onIdentityFile (run_svc persist c)
  | FRestoreBackup env consentToken password blob => ServiceRestoreBackup persist env consentToken password blob ;;! retM tt
  end.

End IdentityFile.

(** ** A refused restore changes nothing *)

(** C39: A restore without the consent, without a password, or of a text that is no backup under that password is refused before
    anything is wiped: the device keeps its identity, contacts, messages and sessions. *)
Theorem refused_restore_changes_nothing env consentToken password blob w :
  IsBackupConsentTokenValid (TrimSpace consentToken) = false \/ TrimSpace password = "" \/ TrimSpace blob = ""
  \/ is_ok (decodeBackup (TrimSpace password) (TrimSpace blob)) = false ->
  exists err, RestoreBackup env consentToken password blob w = (w, Err err).
Proof.
  intros Hr. unfold RestoreBackup. cbv zeta. unfold bindM at 1, rejectM at 1.
  destruct (IsBackupConsentTokenValid (TrimSpace consentToken)); cbn [negb]; [|by eexists]. unfold retM at 1, bindM at 1, rejectM at 1.
  destruct (TrimSpace password == "") eqn:Ep; [by eexists|]. unfold retM at 1, bindM at 1, rejectM at 1.
  destruct (TrimSpace blob == "") eqn:Eb; [by eexists|]. unfold retM at 1, bindM at 1, liftM at 1.
  apply bool_decide_eq_false in Ep, Eb. destruct Hr as [|[|[|Hd]]]; [done..|].
  destruct (decodeBackup (TrimSpace password) (TrimSpace blob)) as [payload|err]; [done|by eexists].
Qed.

(** ** Restoring piece by piece *)

Lemma eachM_cons {X} (f : nat -> X -> M BackupWorld error unit) i x l w w1 :
  f i x w = (w1, Ok tt) -> eachM f i (x :: l) w = eachM f (Datatypes.S i) l w1.
Proof. intros E. cbn [eachM]. unfold bindM. by rewrite E. Qed.

Lemma materialize_fresh h v : let '(h', st) := materialize h v in
  derefSession h' st = v /\ ContactID st = ContactID v /\ (sh_next h <= sh_next h')%nat
  /\ (forall l, (l < sh_next h)%nat -> sh_cells h' !! l = sh_cells h !! l)
  /\ (forall l, SkippedKeys st = Some l -> (l < sh_next h')%nat).
Proof.
  pose proof (materialize_deref h v) as Hd. unfold materialize in *. destruct (SkippedKeys v) as [m|]; cbn [allocKeys] in *.
  - split_and!; [done|done|cbn; lia| |]; cbn.
    + intros l Hl. by rewrite lookup_insert_ne by lia.
    + intros l [= <-]. lia.
  - by split_and!.
Qed.

Lemma deref_same h h' (st : SessionRef) :
  (forall l, (l < sh_next h)%nat -> sh_cells h' !! l = sh_cells h !! l) -> (forall l, SkippedKeys st = Some l -> (l < sh_next h)%nat) ->
  derefSession h' st = derefSession h st.
Proof.
  intros Hc Hl. unfold derefSession, loadKeys. destruct (SkippedKeys st) as [l|]; [|done]. by rewrite Hc by (by apply Hl).
Qed.

Lemma materializeAll_deref h vs : let '(h', sts) := materializeAll h vs in
  derefSession h' <$> sts = vs /\ ContactID <$> sts = ContactID <$> vs /\ (sh_next h <= sh_next h')%nat
  /\ (forall l, (l < sh_next h)%nat -> sh_cells h' !! l = sh_cells h !! l).
Proof.
  revert h. induction vs as [|v vs IH]; intros h; cbn [materializeAll]; [done|].
  pose proof (materialize_fresh h v) as Hm. destruct (materialize h v) as [h1 st]. destruct Hm as (Hd & Hid & Hn & Hc & Hl).
  specialize (IH h1). destruct (materializeAll h1 vs) as [h2 sts]. destruct IH as (IHd & IHid & IHn & IHc).
  split_and!; [|by rewrite !fmap_cons, Hid, IHid|lia|intros l Hlt; rewrite IHc by lia; by apply Hc].
  rewrite fmap_cons, IHd. f_equal. rewrite (deref_same h1 h2); [done|done|done].
Qed.

Lemma restore_sessions {iso : IsolatedStore S} envs states h s vals :
  (forall n, env_ok (envs n)) -> holds s vals ->
  exists s', RestoreSnapshot envs states (h, s) = ((h, s'), Ok tt)
    /\ holds s' (fold_left (fun m st => <[ContactID st := derefSession h st]> m) states vals).
Proof.
  intros He. revert envs s vals He. induction states as [|st states IH]; intros envs s vals He Hs; cbn [RestoreSnapshot fold_left]; [by exists s|].
  destruct (Save_isolated (envs O) st h s vals (He O) Hs) as (s1 & E1 & Hs1). unfold bindM. rewrite E1.
  by apply (IH (fun n => envs (Datatypes.S n))).
Qed.

Definition insertAll {A} (l : list (string * A)) (m : gmap string A) : gmap string A :=
  fold_left (fun m kv => <[kv.1 := kv.2]> m) l m.

(** Inserting the entries of a map one by one gives the map. *)
Lemma fold_insert_map {A} (l : list (string * A)) (m : gmap string A) :
  NoDup l.*1 -> (forall k, k ∈ l.*1 -> m !! k = None) ->
  insertAll l m = list_to_map l ∪ m.
Proof.
  unfold insertAll.
  revert m. induction l as [|[k a] l IH]; intros m Hn Hm; cbn [fold_left]; [cbn; by rewrite (left_id_L ∅ (∪))|].
  cbn in Hn. apply list.NoDup_cons in Hn as [Hk Hn]. rewrite IH; [|done|].
  - rewrite list_to_map_cons, <- insert_union_l. symmetry. apply insert_union_r. by apply not_elem_of_list_to_map_1.
  - intros k' Hk'. cbn [fst]. rewrite lookup_insert_ne by congruence. apply Hm. by right.
Qed.

Lemma rangeMap_all {A} (rt : GoRuntime) (m : gmap string A) :
  NoDup (@rangeMap rt A m).*1 /\ list_to_map (@rangeMap rt A m) = m.
Proof.
  pose proof (rangeMap_perm A m) as Hp. assert (Hn : NoDup (rangeMap m).*1) by (rewrite Hp; apply NoDup_fst_map_to_list).
  split; [done|]. rewrite <- (list_to_map_to_list m) at 2. by apply list_to_map_proper.
Qed.

(** *** Messages and contacts *)

Class MessageCodecTotal := { marshalMessages_total : forall sn, exists bs, marshalMessages sn = Ok bs }.
Context {mtotal : MessageCodecTotal} {claws : CipherLaws cipher} {elaws : EnvelopeCodecLaws ecodec}.

Lemma persist_succeeds env m p s : env_ok env -> exists d, persistSnapshotLocked env m p s = (with_disk s d, Ok tt).
Proof.
  intros (Hr & _ & [Hmk Hwr] & _). unfold persistSnapshotLocked.
  destruct (_ || _); [exists (ms_disk s); by destruct s|]. rewrite Hmk.
  destruct (marshalMessages_total (mkMessageSnapshot messageStoreSchemaVersion m p)) as [bs ->]. cbn [bindR].
  unfold writeFile. rewrite Hwr. destruct (negb (ms_secret s == "")); [|by eexists].
  destruct (Encrypt_Decrypt (env_rand env) (ms_secret s) bs Hr) as (data & -> & _). by eexists.
Qed.

Definition with_store (s : MessageStore) (w : BackupWorld) : BackupWorld := mkBackupWorld (bw_identity w) s (bw_sessions w).
Definition with_manager (m : Manager) (w : BackupWorld) : BackupWorld := mkBackupWorld m (bw_messages w) (bw_sessions w).

(** A message is stored under its identifier, and is normal. *)
Definition message_kept (kv : string * Message) : Prop := msg_ID kv.2 = kv.1 /\ NormalizeMessageConversation kv.2 = kv.2.

Lemma save_messages envs l i w : (forall n, env_ok (envs n)) -> NoDup l.*1 -> Forall message_kept l ->
  (forall k, k ∈ l.*1 -> ms_messages (bw_messages w) !! k = None) ->
  exists s', eachM (fun i kv => onMessages (SaveMessage (envs i) (snd kv))) i l w = (with_store s' w, Ok tt)
    /\ ms_messages s' = insertAll l (ms_messages (bw_messages w)) /\ ms_pending s' = ms_pending (bw_messages w).
Proof.
  unfold insertAll.
  intros He. revert i w. induction l as [|[k m] l IH]; intros i w Hn Hk Hm; cbn [fold_left].
  - exists (bw_messages w). by destruct w.
  - inversion_clear Hk as [|? ? [Hid Hnorm] Hk']. cbn in Hid, Hnorm, Hn. apply list.NoDup_cons in Hn as [Hni Hn].
    destruct (persist_succeeds (envs i) (<[k := m]> (ms_messages (bw_messages w))) (ms_pending (bw_messages w)) (bw_messages w) (He i)) as [d Hd].
    erewrite eachM_cons.
    2: { unfold onMessages, SaveMessage, bindM, getM, modifyM. cbn [snd]. rewrite Hnorm, Hid, (Hm k ltac:(left)), Hd. reflexivity. }
    destruct (IH (Datatypes.S i) (with_store (with_messages (with_disk (bw_messages w) d) (<[k := m]> (ms_messages (bw_messages w)))) w) Hn Hk')
      as (s' & E & Hs & Hp).
    { intros k' Hk''. cbn. rewrite lookup_insert_ne by congruence. apply Hm. by right. }
    exists s'. split; [exact E|]. split; [exact Hs|exact Hp].
Qed.

Lemma add_pendings envs l i w : (forall n, env_ok (envs n)) -> Forall (fun kv => msg_ID (pm_Message kv.2) = kv.1) l ->
  exists s', eachM (fun i kv => let p := snd kv in
      onMessages (AddOrUpdatePending (envs i) (pm_Message p) (pm_RetryCount p) (pm_NextRetry p) (pm_LastError p))) i l w = (with_store s' w, Ok tt)
    /\ ms_pending s' = insertAll l (ms_pending (bw_messages w)) /\ ms_messages s' = ms_messages (bw_messages w).
Proof.
  unfold insertAll.
  intros He. revert i w. induction l as [|[k p] l IH]; intros i w Hk; cbn [fold_left].
  - exists (bw_messages w). by destruct w.
  - inversion_clear Hk as [|? ? Hid Hk']. cbn in Hid.
    destruct (persist_succeeds (envs i) (ms_messages (bw_messages w)) (<[k := p]> (ms_pending (bw_messages w))) (bw_messages w) (He i)) as [d Hd].
    assert (Hp : mkPending (pm_Message p) (pm_RetryCount p) (pm_NextRetry p) (pm_LastError p) = p) by by destruct p.
    erewrite eachM_cons.
    2: { cbv zeta. unfold onMessages, AddOrUpdatePending, bindM, getM, modifyM. cbn [snd]. rewrite Hid, Hp, Hd. reflexivity. }
    destruct (IH (Datatypes.S i) (with_store (with_pending (with_disk (bw_messages w) d) (<[k := p]> (ms_pending (bw_messages w)))) w) Hk')
      as (s' & E & Hs & Hm). exists s'. split; [exact E|]. split; [exact Hs|exact Hm].
Qed.

(** The identifier passes the check of [AddContactByIdentityID]. *)
Definition contact_id_ok (id : string) : Prop := TrimSpace id = id /\ HasPrefix id "aim1" = true /\ (12 <= String.length id)%nat.

(** What a backup keeps of a contact: not its key. *)
Definition restoredContact (now : Z) (c : Contact) : Contact :=
  mkContact (ct_ID c) (if TrimSpace (ct_DisplayName c) == "" then ct_ID c else TrimSpace (ct_DisplayName c)) [] now 0.

Lemma add_contacts now l i w : Forall (fun c => contact_id_ok (ct_ID c)) l -> map_Forall (fun _ c => ct_PublicKey c = []) (im_contacts (bw_identity w)) ->
  exists m', eachM (fun _ c => onIdentity (AddContactByIdentityID now (ct_ID c) (ct_DisplayName c))) i l w = (with_manager m' w, Ok tt)
    /\ im_contacts m' = insertAll ((fun c => (ct_ID c, restoredContact now c)) <$> l) (im_contacts (bw_identity w))
    /\ im_identity m' = im_identity (bw_identity w) /\ im_selfPriv m' = im_selfPriv (bw_identity w) /\ im_seeds m' = im_seeds (bw_identity w).
Proof.
  unfold insertAll.
  revert i w. induction l as [|c l IH]; intros i w Hl Hk; rewrite ?fmap_nil, ?fmap_cons; cbn [fold_left fst snd].
  - exists (bw_identity w). by destruct w.
  - inversion_clear Hl as [|? ? (Ht & Hp & Hlen) Hl'].
    erewrite eachM_cons.
    2: { unfold onIdentity, AddContactByIdentityID. rewrite Ht, Hp. cbn [negb orb]. rewrite (proj2 (Nat.ltb_ge _ _) Hlen).
      assert (Hkey : match im_contacts (bw_identity w) !! ct_ID c with
        | Some existing => if verifiedKey existing then ct_PublicKey existing else [] | None => [] end = []).
      { destruct (im_contacts (bw_identity w) !! ct_ID c) as [e|] eqn:E; [|done]. specialize (Hk _ _ E). cbv beta in Hk.
        rewrite Hk. by destruct (verifiedKey e). }
      rewrite Hkey. reflexivity. }
    set (m1 := with_im_contacts _ _). fold (with_manager m1 w).
    destruct (IH (Datatypes.S i) (with_manager m1 w) Hl') as (m' & E & Hc & Hrest).
    { cbn. by apply map_Forall_insert_2. }
    exists m'. split; [exact E|]. split; [exact Hc|exact Hrest].
Qed.

(** ** The round trip *)

(** An isolated store can also be listed and wiped. *)
Class ListedStore {iso : IsolatedStore S} := {
  All_isolated : forall env h s vals, env_ok env -> holds s vals ->
    exists h' states, All env (h, s) = ((h', s), Ok states) /\ derefSession h' <$> states = (@rangeMap (env_rt env) _ vals).*2;
  wipeable : S -> Prop;
  Wipe_isolated : forall env h s vals, env_ok env -> holds s vals -> wipeable s ->
    exists s', ManagerWipe env (h, s) = ((h, s'), Ok tt) /\ holds s' ∅
}.
Context {iso : IsolatedStore S} {listed : ListedStore}.

(** The texts of envelopes are bytes. *)
Class EnvelopeBytes := { marshalEnvelope_bytes : forall e, Forall (fun b => 0 <= b < 256) (marshalEnvelope e) }.
Context {ebytes : EnvelopeBytes} {ilaws : IdentityCryptoLaws crypto}.

(** A device in good order, with the sessions [vals]. *)
Record device_ok (w : BackupWorld) (vals : gmap string SessionVal) : Prop := {
  do_identity : manager_ok (bw_identity w);
  do_seed : forall env, sm_envelope (im_seeds (bw_identity w)) = Some env ->
    exists raw, raw <> [] /\ marshalJSON env = Ok raw /\ unmarshalJSON raw = Ok env;
  do_contacts : map_Forall (fun id c => ct_ID c = id /\ contact_id_ok id) (im_contacts (bw_identity w));
  do_messages : map_Forall (fun id m => message_kept (id, m)) (ms_messages (bw_messages w));
  do_pending : map_Forall (fun id p => msg_ID (pm_Message p) = id) (ms_pending (bw_messages w));
  do_sessions : holds (snd (bw_sessions w)) vals;
  do_session_ids : map_Forall (fun id v => ContactID v = id) vals
}.

(** What the backup of a device contains. *)
Definition backupOf (rt : GoRuntime) (now : Z) (w : BackupWorld) (vals : gmap string SessionVal) : backupPayload :=
  mkPayload 1 now (im_identity (bw_identity w)) (im_selfPriv (bw_identity w)) (SnapshotSeedEnvelopeJSON (bw_identity w))
    (@Contacts rt (bw_identity w)) (ms_messages (bw_messages w)) (ms_pending (bw_messages w)) (@rangeMap rt _ vals).*2.

Lemma Encrypt_bytes r pass data out : Encrypt r pass data = Ok out -> Forall (fun b => 0 <= b < 256) out /\ out <> [].
Proof.
  unfold Encrypt, bindR. destruct (EncryptEnvelope _ _ _) as [e|]; [|done]. intros [= <-]. split; [|done].
  change (Forall (fun b => 0 <= b < 256) (filePrefix ++ marshalEnvelope e)).
  apply Forall_app. split; [|apply marshalEnvelope_bytes]. apply List.Forall_forall. intros b Hb.
  assert (H : forallb (fun b => (0 <=? b) && (b <? 256)) filePrefix = true) by reflexivity.
  rewrite forallb_forall in H. specialize (H b Hb). apply andb_true_iff in H as [H1%Z.leb_le H2%Z.ltb_lt]. lia.
Qed.

Definition with_heap (h : SkipHeap) (w : BackupWorld) : BackupWorld :=
  mkBackupWorld (bw_identity w) (bw_messages w) (h, snd (bw_sessions w)).

Lemma exported env now r token password w vals :
  env_ok env -> random_ok r -> IsBackupConsentTokenValid (TrimSpace token) = true -> TrimSpace password <> "" -> device_ok w vals ->
  json_reads (backupOf (env_rt env) now w vals) (backupOf (env_rt env) now w vals) ->
  exists h' result, ExportBackup env now r token password w = (with_heap h' w, Ok result)
    /\ be_IdentityID result = id_ID (im_identity (bw_identity w))
    /\ be_MessageCount result = Z.of_nat (size (ms_messages (bw_messages w))) /\ be_SessionCount result = Z.of_nat (size vals)
    /\ TrimSpace (be_Blob result) = be_Blob result /\ be_Blob result <> ""
    /\ decodeBackup (TrimSpace password) (be_Blob result) = Ok (backupOf (env_rt env) now w vals).
Proof.
  intros He Hr Ht Hp Hok (raw & Hm & Hu). unfold ExportBackup. cbv zeta. rewrite Ht, (bool_decide_false _ Hp). cbn [negb].
  destruct w as [i m [h s]]. destruct Hok as [Hi _ _ _ _ Hs _]. cbn [bw_identity bw_messages bw_sessions snd] in *.
  unfold bindM at 1, rejectM, retM at 1, bindM at 1, retM at 1, bindM at 1, getM at 1. cbn [MessageStore.Snapshot bw_messages].
  destruct (All_isolated env h s vals He Hs) as (h' & states & Ha & Hd).
  unfold bindM at 1, onSessions at 1, Session.Snapshot. cbn [bw_sessions]. rewrite Ha. unfold bindM at 1, getM at 1.
  cbn [bw_identity bw_sessions bw_messages fst SnapshotIdentityKeys snd]. destruct (mo_key _ Hi) as [Hlen _].
  rewrite Hlen. cbn [PrivateKeySize Nat.eqb]. unfold bindM at 1, retM at 1. rewrite Hd.
  match goal with |- context[marshalJSON ?p] => change p with (backupOf (env_rt env) now (mkBackupWorld i m (h, s)) vals) end. rewrite Hm.
  unfold bindM at 1, liftM at 1. destruct (Encrypt_Decrypt r (TrimSpace password) raw Hr) as (data & Henc & Hdec). rewrite Henc.
  unfold bindM at 1, liftM at 1. eexists _, _. split; [reflexivity|]. cbn [be_IdentityID be_MessageCount be_SessionCount be_Blob].
  destruct (Encrypt_bytes _ _ _ _ Henc) as [Hb Hne]. destruct (EncodeToString_text data Hne Hb) as [Htrim Hnb].
  split; [done|]. split; [done|]. split.
  - apply (f_equal length) in Hd. rewrite length_fmap in Hd. rewrite Hd, length_fmap. f_equal.
    by rewrite (rangeMap_perm _ vals), length_map_to_list.
  - split; [done|]. split; [done|]. unfold decodeBackup. rewrite DecodeString_EncodeToString by done. rewrite Hdec. cbn [bindR]. rewrite Hu.
    cbn [bindR bp_Version backupOf bp_SigningPrivateKey bw_identity Z.eqb negb]. rewrite Hlen. done.
Qed.

Lemma restored_key_drops_contacts now k m0 m1 : RestoreIdentityPrivateKey now k m0 = (m1, Ok tt) -> im_contacts m1 = ∅.
Proof.
  unfold RestoreIdentityPrivateKey, installIdentity, initPrimaryDevice, bindM, retM.
  destruct (negb (length k =? PrivateKeySize)%nat); [done|]. destruct (BuildIdentityID (publicKeyOf k)) as [id|]; [|done].
  destruct (length _ <? 32)%nat; [done|]. by intros [= <-].
Qed.

Lemma identity_restored env w w0 vals rt now :
  device_ok w vals -> exists m2, restoreIdentity env (backupOf rt now w vals) w0 = (with_manager m2 w0, Ok tt)
    /\ im_identity m2 = im_identity (bw_identity w) /\ im_selfPriv m2 = im_selfPriv (bw_identity w) /\ im_contacts m2 = ∅
    /\ sm_envelope (im_seeds m2) = match sm_envelope (im_seeds (bw_identity w)) with
                                    | Some e => Some e | None => sm_envelope (im_seeds (bw_identity w0)) end.
Proof.
  intros [Hi Hseed _ _ _ _ _]. destruct (restore_key (re_now env) _ (bw_identity w0) (ok_storable _ Hi)) as (m1 & E1 & Hid & Hk & Hs).
  pose proof (restored_key_drops_contacts _ _ _ _ E1) as Hc. unfold restoreIdentity, backupOf.
  cbn [bp_SigningPrivateKey bp_SeedEnvelope bp_Identity]. unfold bindM at 1, onIdentity at 1. rewrite E1.
  unfold SnapshotSeedEnvelopeJSON, SnapshotEnvelope. destruct (sm_envelope (im_seeds (bw_identity w))) as [e|] eqn:Ee.
  - destruct (Hseed e eq_refl) as (raw & Hne & Hm & Hu). rewrite Hm. unfold RestoreSeedEnvelopeJSON.
    assert (Hlen : (length raw =? 0)%nat = false) by by destruct raw.
    assert (Hpos : (0 <? Z.of_nat (length raw)) = true) by (apply Z.ltb_lt; destruct raw; cbn; [done|lia]).
    rewrite Hpos. unfold bindM at 1, onIdentity. cbn [bw_identity bw_messages bw_sessions]. rewrite Hlen, Hu. unfold bindM, getM, rejectM.
    match goal with |- context[id_ID (im_identity ?m) == id_ID (im_identity (bw_identity w))] =>
      assert (H : bool_decide (id_ID (im_identity m) = id_ID (im_identity (bw_identity w))) = true)
        by (apply bool_decide_eq_true; exact (f_equal id_ID Hid)); rewrite H; clear H end.
    cbn [negb]. rewrite andb_false_r. eexists. split; [reflexivity|]. by split_and!.
  - change (0 <? Z.of_nat (length [])) with false. unfold bindM, retM, getM, rejectM. cbv iota beta.
    match goal with |- context[id_ID (im_identity ?m) == id_ID (im_identity (bw_identity w))] =>
      assert (H : bool_decide (id_ID (im_identity m) = id_ID (im_identity (bw_identity w))) = true)
        by (apply bool_decide_eq_true; exact (f_equal id_ID Hid)); rewrite H; clear H end.
    cbn [negb]. rewrite andb_false_r. exists m1. split; [reflexivity|]. by rewrite Hs.
Qed.

Lemma restore_sessions_all envs vs h (s : S) : (forall n, env_ok (envs n)) -> holds s ∅ ->
  exists h' s', (let '(h, states) := materializeAll h vs in RestoreSnapshot envs states (h, s)) = ((h', s'), Ok tt)
    /\ holds s' (insertAll ((fun v => (ContactID v, v)) <$> vs) ∅).
Proof.
  intros He Hs. pose proof (materializeAll_deref h vs) as Hd. destruct (materializeAll h vs) as [h' states]. destruct Hd as (Hd & _).
  destruct (restore_sessions envs states h' s ∅ He Hs) as (s' & E & Hs'). exists h', s'. split; [done|].
  assert (Hf : forall m, fold_left (fun m st => <[ContactID st := derefSession h' st]> m) states m
    = insertAll ((fun v => (ContactID v, v)) <$> vs) m).
  { rewrite <- Hd. clear. induction states as [|st states IH]; intros m; [done|]. cbn [fold_left]. rewrite IH. done. }
  by rewrite <- Hf.
Qed.

(** The entries of a map under their own keys give the map. *)
Lemma insertAll_values {A B} (rt : GoRuntime) (key : A -> string) (f : A -> B) (m : gmap string A) :
  map_Forall (fun k a => key a = k) m -> insertAll ((fun a => (key a, f a)) <$> (@rangeMap rt A m).*2) ∅ = f <$> m.
Proof.
  intros Hk. destruct (rangeMap_all rt m) as [Hn Hm]. rewrite <- list_fmap_compose.
  assert (E : ((fun a => (key a, f a)) ∘ snd) <$> @rangeMap rt A m = prod_map id f <$> @rangeMap rt A m).
  { apply list_fmap_ext. intros i [k a] Hi. cbn. f_equal. apply (Hk k). rewrite <- Hm. apply elem_of_list_to_map_1; [done|].
    by eapply list_elem_of_lookup_2. }
  rewrite E, fold_insert_map.
  - rewrite (right_id_L ∅ (∪)), list_to_map_fmap. by rewrite Hm.
  - rewrite <- list_fmap_compose. erewrite list_fmap_ext; [exact Hn|by intros ? []].
  - intros k _. apply lookup_empty.
Qed.

Lemma insertAll_range {A} (rt : GoRuntime) (m : gmap string A) : insertAll (@rangeMap rt A m) ∅ = m.
Proof.
  destruct (rangeMap_all rt m) as [Hn Hm]. rewrite fold_insert_map; [by rewrite (right_id_L ∅ (∪))|done|intros k _; apply lookup_empty].
Qed.

Lemma rangeMap_forall {A} (rt : GoRuntime) (P : string * A -> Prop) (m : gmap string A) :
  map_Forall (fun k a => P (k, a)) m -> Forall P (@rangeMap rt A m).
Proof.
  intros HP. apply list.Forall_forall. intros [k a] Hin. apply HP. destruct (rangeMap_all rt m) as [Hn Hm].
  rewrite <- Hm. by apply elem_of_list_to_map_1.
Qed.

(** The environments of a restore in which nothing fails. *)
Record restore_env_ok (env : RestoreEnv) : Prop := {
  ro_wipeMessages : env_ok (re_wipeMessages env); ro_wipeSessions : env_ok (re_wipeSessions env);
  ro_message : forall n, env_ok (re_message env n); ro_pending : forall n, env_ok (re_pending env n);
  ro_session : forall n, env_ok (re_session env n)
}.

Lemma wipe_messages env s : env_ok env -> exists s', WipeMessages env s = (s', Ok tt) /\ ms_messages s' = ∅ /\ ms_pending s' = ∅.
Proof.
  intros (_ & _ & _ & Hr). unfold WipeMessages. cbv zeta. destruct (TrimSpace (ms_path s) == ""); [by eexists|]. rewrite Hr. by eexists.
Qed.

(** The contents of a backup, into a device that has been wiped. *)
Lemma content_restored env rt now w vals w0 :
  device_ok w vals -> restore_env_ok env -> im_contacts (bw_identity w0) = ∅ -> ms_messages (bw_messages w0) = ∅ ->
  ms_pending (bw_messages w0) = ∅ -> holds (snd (bw_sessions w0)) ∅ ->
  exists w1, restoreContent env (backupOf rt now w vals) w0 = (w1, Ok tt)
    /\ im_contacts (bw_identity w1) = restoredContact (re_now env) <$> im_contacts (bw_identity w)
    /\ im_identity (bw_identity w1) = im_identity (bw_identity w0) /\ im_selfPriv (bw_identity w1) = im_selfPriv (bw_identity w0)
    /\ im_seeds (bw_identity w1) = im_seeds (bw_identity w0)
    /\ ms_messages (bw_messages w1) = ms_messages (bw_messages w) /\ ms_pending (bw_messages w1) = ms_pending (bw_messages w)
    /\ holds (snd (bw_sessions w1)) vals.
Proof.
  intros [_ _ Hc Hm Hp _ Hs] [_ _ Em Ep Es] Hc0 Hm0 Hp0 Hs0. unfold restoreContent, backupOf. cbn [bp_Contacts bp_Messages bp_Pending bp_Sessions].
  destruct (add_contacts (re_now env) (@Contacts rt (bw_identity w)) 0 w0) as (m1 & E1 & C1 & I1 & K1 & S1).
  { apply Forall_fmap, (rangeMap_forall rt). intros id c Hin. destruct (Hc id c Hin) as [<- H]. exact H. }
  { rewrite Hc0. apply map_Forall_empty. }
  unfold bindM at 1. rewrite E1. rewrite Hc0 in C1. unfold Contacts in C1. rewrite insertAll_values in C1 by (intros id c Hin; apply (Hc id c Hin)).
  destruct (save_messages (re_message env) (@rangeMap (re_rt env) _ (ms_messages (bw_messages w))) 0 (with_manager m1 w0) Em)
    as (s2 & E2 & M2 & P2).
  { apply rangeMap_all. }
  { apply rangeMap_forall. exact Hm. }
  { intros k _. cbn. by rewrite Hm0. }
  unfold bindM at 1. rewrite E2. cbn in M2, P2. rewrite Hm0, insertAll_range in M2. rewrite Hp0 in P2.
  destruct (add_pendings (re_pending env) (@rangeMap (re_rt env) _ (ms_pending (bw_messages w))) 0 (with_store s2 (with_manager m1 w0)) Ep)
    as (s3 & E3 & P3 & M3). { apply rangeMap_forall. exact Hp. }
  cbv zeta in E3. unfold bindM at 1. rewrite E3. cbn in P3, M3. rewrite P2, insertAll_range in P3.
  destruct (bw_sessions w0) as [h s] eqn:Ew. cbn [snd] in Hs0.
  destruct (restore_sessions_all (re_session env) (@rangeMap rt _ vals).*2 h s Es Hs0) as (h' & s' & E4 & H4).
  rewrite insertAll_values, map_fmap_id in H4 by exact Hs.
  unfold onSessions. cbn [bw_sessions with_store with_manager bw_identity bw_messages]. rewrite Ew, E4.
  eexists. split; [reflexivity|]. cbn. by rewrite M3, M2.
Qed.

(** Restoring a text that decodes to a backup of [src]. *)
Lemma blob_restores renv rt now token password blob src vals w0 vals0 :
  restore_env_ok renv -> IsBackupConsentTokenValid (TrimSpace token) = true -> TrimSpace password <> "" ->
  TrimSpace blob = blob -> blob <> "" -> decodeBackup (TrimSpace password) blob = Ok (backupOf rt now src vals) ->
  device_ok src vals -> holds (snd (bw_sessions w0)) vals0 -> wipeable (snd (bw_sessions w0)) ->
  exists w1, RestoreBackup renv token password blob w0 =
      (w1, Ok (mkRestore (id_ID (im_identity (bw_identity src))) (Z.of_nat (size (ms_messages (bw_messages src)))) (Z.of_nat (size vals))))
    /\ im_identity (bw_identity w1) = im_identity (bw_identity src) /\ im_selfPriv (bw_identity w1) = im_selfPriv (bw_identity src)
    /\ sm_envelope (im_seeds (bw_identity w1)) =
         match sm_envelope (im_seeds (bw_identity src)) with Some e => Some e | None => sm_envelope (im_seeds (bw_identity w0)) end
    /\ im_contacts (bw_identity w1) = restoredContact (re_now renv) <$> im_contacts (bw_identity src)
    /\ ms_messages (bw_messages w1) = ms_messages (bw_messages src) /\ ms_pending (bw_messages w1) = ms_pending (bw_messages src)
    /\ holds (snd (bw_sessions w1)) vals.
Proof.
  intros Hre Ht Hp Htrim Hnb Hdec Hok Hs0 Hw0. unfold RestoreBackup. cbv zeta. rewrite Ht, Htrim, (bool_decide_false _ Hp), (bool_decide_false _ Hnb), Hdec. cbn [negb].
  unfold rejectM, bindM at 1, retM at 1, bindM at 1, retM at 1, bindM at 1, retM at 1, bindM at 1, liftM at 1.
  destruct (wipe_messages _ (bw_messages w0) (ro_wipeMessages _ Hre)) as (s1 & Ew & Hm1 & Hp1).
  unfold bindM at 1, onMessages at 1. rewrite Ew. destruct w0 as [i0 m0 [h0 s0]]. cbn [bw_identity bw_messages bw_sessions snd] in *.
  destruct (Wipe_isolated _ h0 s0 vals0 (ro_wipeSessions _ Hre) Hs0 Hw0) as (s2 & Ew2 & Hs2).
  unfold bindM at 1, onSessions at 1. cbn [bw_identity bw_messages bw_sessions]. rewrite Ew2.
  destruct (identity_restored renv src (mkBackupWorld i0 s1 (h0, s2)) vals rt now Hok) as (m2 & E2 & I2 & K2 & C2 & S2).
  unfold bindM at 1. rewrite E2.
  destruct (content_restored renv rt now src vals (with_manager m2 (mkBackupWorld i0 s1 (h0, s2))) Hok Hre C2 Hm1 Hp1 Hs2)
    as (w1 & E3 & C3 & I3 & K3 & S3 & M3 & P3 & H3).
  unfold bindM at 1. rewrite E3. unfold bindM, getM, retM. exists w1.
  cbn in I3, K3, S3. cbn in S2. rewrite I3, K3, S3. split_and!; try done.
  cbn [backupOf bp_Messages bp_Sessions]. rewrite length_fmap, (rangeMap_perm _ vals), length_map_to_list. by rewrite I2.
Qed.


(** ** The identity file *)

Lemma eachM_preserves {X} (I : BackupWorld -> Prop) (f : nat -> X -> M BackupWorld error unit) l :
  (forall i x, preserves I (f i x)) -> forall i, preserves I (eachM f i l).
Proof. intros Hf. induction l as [|x l IH]; intros i; cbn [eachM]; [apply preserves_ret|]. by apply preserves_bind. Qed.

(** What is restored can be written: the key of the backup and its identity go together. *)
Lemma restored_storable env consentToken password blob w w1 r :
  RestoreBackup env consentToken password blob w = (w1, Ok r) -> storable (bw_identity w1).
Proof.
  set (I := fun w => storable (bw_identity w)).
  assert (Hkeep : forall A (m : M BackupWorld error A) w w1 (a : A), preserves I m -> m w = (w1, Ok a) -> I w -> I w1).
  { intros A m v v1 a Hp E Hv. specialize (Hp v Hv). by rewrite E in Hp. }
  assert (Hmsg : forall A (m : M MessageStore error A), preserves I (onMessages m)).
  { intros A m v Hv. unfold onMessages. by destruct (m (bw_messages v)). }
  assert (Hses : forall A (m : M (SkipHeap * S) error A), preserves I (onSessions m)).
  { intros A m v Hv. unfold onSessions. by destruct (m (bw_sessions v)). }
  unfold RestoreBackup. cbv zeta.
  intros (? & ? & _ & (? & ? & _ & (? & ? & _ & (? & payload & _ & (? & ? & _ & (? & ? & _ & (w2 & [] & E2 &
    (w3 & [] & E3 & (w4 & ? & E4 & E5)%bindM_inv)%bindM_inv)%bindM_inv)%bindM_inv)%bindM_inv)%bindM_inv)%bindM_inv)%bindM_inv)%bindM_inv.
  injection E4 as <- _. injection E5 as <- _. apply (Hkeep _ _ _ _ _) in E3; [exact E3| |].
  - unfold restoreContent. apply preserves_bind.
    { apply eachM_preserves. intros i c v Hv. unfold onIdentity.
      pose proof (storable_AddContactByID (re_now env) (ct_ID c) (ct_DisplayName c) _ Hv) as Hs.
      by destruct (AddContactByIdentityID _ _ _ _). }
    intros _. apply preserves_bind; [apply eachM_preserves; intros; apply Hmsg|]. intros _.
    apply preserves_bind; [apply eachM_preserves; intros; apply Hmsg|]. intros _. apply Hses.
  - unfold restoreIdentity in E2. apply bindM_inv in E2 as (v1 & [] & Ekey & E2). apply (Hkeep _ _ _ _ _) in E2; [exact E2| |].
    + apply preserves_bind; [|intros _; apply preserves_bind; [apply preserves_get|intros ?; apply preserves_reject]].
      apply preserves_if; [|apply preserves_ret]. intros v Hv. unfold onIdentity, RestoreSeedEnvelopeJSON.
      destruct (_ =? 0)%nat; [done|]. destruct (unmarshalJSON _); [by apply storable_seeds|done].
    + unfold onIdentity in Ekey. destruct (RestoreIdentityPrivateKey _ _ _) as [m q] eqn:E. injection Ekey as <- ->.
      by apply storable_restored_key in E.
Qed.

(** C38: The identity survives a restart. After any call of the service that writes the identity file has succeeded (a contact card or
    contact added, a contact removed, a device added, an identity created or imported, a backup restored), a new process restores
    the key pair and identity, every contact with its pinned key, every device with its private key and its certificate, the
    active device, the revocations of the contacts' devices and the encrypted seed. The start does not depend on the manager
    the process was created with, and encoding/json is assumed faithful on the final state only. The state after the call is one
    that the next call can start from; restoring a backup needs nothing of the state before. *)
Theorem identity_survives_restart {icodec : JsonCodec persistedIdentityState} {rcodec : JsonCodec persistedRuntimeState}
    (env env' : StoreEnv) (now now' : Z) (c : IdentityFileCall) (w w1 : BackupWorld) (file file1 : EncStore) (seed : list Z) (m0 : Manager) :
  env_ok env -> env_ok env' -> es_configured file = true ->
  match c with FSvc _ => storable (bw_identity w) | FRestoreBackup _ _ _ _ => True end ->
  run_file env c (w, file) = ((w1, file1), Ok tt) -> json_faithful_identity (bw_identity w1) ->
  NewManager now (Ok seed) = Ok m0 ->
  storable (bw_identity w1)
  /\ exists w2, IdentityBootstrap env' now' (mkIdentityWorld m0 file1) = (w2, Ok tt)
     /\ same_identity (bw_identity w1) (iw_manager w2).
Proof.
  intros He He' Hc Hm Hrun Hj Hnew.
  assert (H : exists iw, es_configured (iw_store iw) = true /\ storable (iw_manager iw)
    /\ IdentityPersist env iw = (mkIdentityWorld (bw_identity w1) file1, Ok tt)).
  { destruct c as [c|renv token password blob]; cbn [run_file] in Hrun.
    - unfold onIdentityFile in Hrun. destruct (run_svc env c _) as [[m f] q] eqn:E. cbn in Hrun. injection Hrun as <- <- ->.
      apply svc_persists in E. eexists. split; [|split; [|exact E]]; [done|]. by apply svc_storable.
    - apply bindM_inv in Hrun as (w2 & id & E & Hr). injection Hr as ->. unfold ServiceRestoreBackup in E.
      apply bindM_inv in E as ([w2 f2] & res & E2 & (w3 & [] & E3 & (w4 & ? & E4 & E5)%bindM_inv)%bindM_inv).
      injection E4 as <- <-. injection E5 as -> _. unfold onDevice in E2. destruct (RestoreBackup _ _ _ _ w) as [w5 q] eqn:E.
      injection E2 as <- <- ->. apply restored_storable in E. unfold onIdentityFile in E3.
      destruct (IdentityPersist _ _) as [[m f] q] eqn:Ep. cbn in E3. injection E3 as <- <- ->. eexists. split; [|split; [|exact Ep]]; done. }
  destruct H as (iw & Hc' & Hs & Hp). split.
  - destruct (IdentityPersist_holds env iw _ He Hc' Hp) as [E _]. cbn in E. by rewrite E.
  - by apply (persisted_survives_restart env env' now now' iw _ seed m0 He He' Hc' Hs Hp).
Qed.

End Backup.

(** ** The file store of the daemon can be listed and wiped *)

Section FileStoreListed.
Context {cipher : Cipher} {ecodec : EnvelopeCodec} {sescodec : SessionCodec}
  `{!CipherLaws cipher} `{!EnvelopeCodecLaws ecodec} `{!SessionCodecLaws sescodec}.

#[export] Program Instance FileStore_listed : @ListedStore FileSessionStore FileStore FileStore_isolated := {
  wipeable s := fs_path s <> ""
}.
Next Obligation.
  intros env h s vals He [Hp Hl]. destruct He as (_ & Hr & _). cbn [All FileStore]. unfold FileAll. rewrite Hp, (Hl env Hr). cbn [negb].
  pose proof (materializeAll_deref h (@rangeMap (env_rt env) _ vals).*2) as Hd. destruct (materializeAll h _) as [h' states].
  exists h', states. split; [done|]. apply Hd.
Qed.
Next Obligation.
  intros env h s vals (_ & _ & _ & Hr) [Hp Hl] Hw. unfold ManagerWipe. cbn [StoreWipe FileStore]. unfold FileWipe. rewrite Hr.
  rewrite bool_decide_false by exact Hw. cbn [fs_disk with_sessions].
  assert (Hempty : forall s', fs_persist s' = true -> fs_disk s' = None -> file_holds s' ∅).
  { intros s' Hp' Hd. split; [done|]. intros env' He'. unfold loadAllLocked, readFile. by rewrite He', Hd. }
  destruct (fs_disk s) eqn:Ed; eexists; (split; [reflexivity|]); by apply Hempty.
Qed.
End FileStoreListed.

(** ** Backups to compute with *)

(** A value as the bytes 0 and 1. *)
Fixpoint posBits (p : positive) : list Z :=
  match p with xH => [] | xO p => 0 :: posBits p | xI p => 1 :: posBits p end.
Fixpoint bitsPos (l : list Z) : positive :=
  match l with [] => xH | b :: l => if b =? 0 then xO (bitsPos l) else xI (bitsPos l) end.

Lemma bitsPos_posBits p : bitsPos (posBits p) = p.
Proof. induction p as [p IH|p IH|]; cbn; by rewrite ?IH. Qed.

Lemma posBits_bytes p : Forall (fun b => 0 <= b < 256) (posBits p).
Proof. induction p; cbn; constructor; (lia || done). Qed.

#[export] Instance exByteEnvelopes : EnvelopeCodec | 5 := {
  marshalEnvelope e := posBits (encode e); unmarshalEnvelope l := decode (bitsPos l)
}.
#[export] Instance exByteEnvelopesLaws : EnvelopeCodecLaws exByteEnvelopes.
Proof. constructor. intros e. cbn. rewrite bitsPos_posBits. apply decode_encode. Qed.
#[export] Instance exByteEnvelopesBytes : @EnvelopeBytes exByteEnvelopes.
Proof. constructor. intros e. apply posBits_bytes. Qed.
#[local] Existing Instance exByteEnvelopes | 0.

#[export] Instance exMessagesTotal : @MessageCodecTotal exMessageCodec.
Proof. constructor. intros sn. by eexists. Qed.

#[export] Program Instance exStore_listed : @ListedStore exStore exSessionStore exStore_isolated := { wipeable _ := True }.
Next Obligation.
  intros env h s vals _ <-. cbn. pose proof (materializeAll_deref h (@rangeMap (env_rt env) _ (ex_vals s)).*2) as Hd.
  destruct (materializeAll h _) as [h' states]. exists h', states. split; [done|]. apply Hd.
Qed.
Next Obligation. intros env h s vals _ _ _. by eexists. Qed.

#[export] Instance IdentityRecord_eq_dec : EqDecision IdentityRecord.
Proof. solve_decision. Defined.
#[export] Instance IdentityRecord_countable : Countable IdentityRecord.
Proof. apply (inj_countable' (fun i => (id_ID i, id_SigningPublicKey i)) (fun '(i, k) => mkIdentity i k)). by intros []. Defined.
#[export] Instance backupPayload_eq_dec : EqDecision backupPayload.
Proof. solve_decision. Defined.
#[export] Instance backupPayload_countable : Countable backupPayload.
Proof.
  apply (inj_countable' (fun p => (bp_Version p, bp_ExportedAt p, (bp_Identity p, bp_SigningPrivateKey p, bp_SeedEnvelope p),
      (bp_Contacts p, bp_Messages p), (bp_Pending p, bp_Sessions p)))
    (fun '(v, at_, (id, key, seed), (cs, ms), (ps, ss)) => mkPayload v at_ id key seed cs ms ps ss)). by intros [].
Defined.

#[export] Instance exPayloadCodec : JsonCodec backupPayload := {
  marshalJSON p := Ok (posBits (encode p));
  unmarshalJSON l := match decode (bitsPos l) with Some p => Ok p | None => Err (errorsNew "json") end
}.

Lemma ex_payload_reads (p : backupPayload) : json_reads p p.
Proof. eexists. split; [reflexivity|]. cbn. by rewrite bitsPos_posBits, decode_encode. Qed.

(** Bob, who knows Alice, has a seed, a message, a pending one and a session. *)
Definition ex_backup_session : SessionVal := mkSession "s" "alice" ex_key ex_key ex_key ex_key 0 0 [] (Some ∅) 1 1.
Definition ex_seed_envelope : Envelope := mkEnvelope 1 "argon2id" 3 65536 1 [1] [2] [3].
Definition ex_bob_manager : Manager := with_im_seeds ex_bob1 (RestoreEnvelope (Some ex_seed_envelope) (im_seeds ex_bob1)).
Definition ex_bob_device : BackupWorld (S := exStore) :=
  mkBackupWorld ex_bob_manager
    (mkMessageStore {["m1" := ex_msg "m1" 5 "sent"]} {["m1" := mkPending (ex_msg "m1" 5 "sent") 1 9 "offline"]} "" "" true None)
    (mkSkipHeap ∅ 0, mkExStore {["alice" := ex_backup_session]}).
(** The device the backup is restored on. *)
Definition ex_other_device : BackupWorld (S := exStore) :=
  mkBackupWorld ex_alice (mkMessageStore {["x" := ex_msg "x" 5 "sent"]} ∅ "" "" true None) (mkSkipHeap ∅ 0, mkExStore ∅).
Definition ex_restore_env : RestoreEnv := mkRestoreEnv exRuntime 50 ex_env ex_env (fun _ => ex_env) (fun _ => ex_env) (fun _ => ex_env).

Lemma ex_restore_env_ok : restore_env_ok ex_restore_env.
Proof. split; intros; apply ex_env_ok. Qed.

Lemma ex_bob_manager_ok : manager_ok ex_bob_manager.
Proof.
  destruct (NewManager_ok 5 (replicate 32 2) eq_refl) as (m & E & Hm).
  assert (Eb : ex_bob = m) by (unfold ex_bob; by rewrite E). subst m.
  destruct (run_ids_ok [IAddContact 9 ex_card] ex_bob Hm) as [H1 H2 H3 H4 H5 H6]. by split.
Qed.

Lemma ex_bob_ready : device_ok ex_bob_device {["alice" := ex_backup_session]}.
Proof.
  split.
  - exact ex_bob_manager_ok.
  - intros env [= <-]. eexists. split; [|split; [reflexivity|]]; [done|]. unfold unmarshalJSON, exSeedCodec. by rewrite zdec_zenc.
  - unfold contact_id_ok. apply (bool_decide_unpack _). vm_compute. exact I.
  - by apply map_Forall_singleton.
  - by apply map_Forall_singleton.
  - done.
  - by apply map_Forall_singleton.
Qed.

Lemma refused_restore_changes_nothing_witness :
  exists err, RestoreBackup ex_restore_env BackupConsentToken "pass" "no backup" ex_bob_device = (ex_bob_device, Err err).
Proof. apply refused_restore_changes_nothing. right. right. right. vm_compute. reflexivity. Defined.


(** A restore is not atomic: when a write fails after the wipe, the messages of the device are gone, its identity is the one of the
    backup, and the call reports an error. *)
Definition ex_full_disk : StoreEnv := mkEnv exRuntime ex_random None (mkWrite (Some (errorsNew "no space left on device")) None) None.
Definition ex_failing_env : RestoreEnv := mkRestoreEnv exRuntime 50 ex_env ex_env (fun _ => ex_full_disk) (fun _ => ex_env) (fun _ => ex_env).
Definition ex_saving_device : BackupWorld (S := exStore) :=
  mkBackupWorld ex_alice (mkMessageStore {["x" := ex_msg "x" 5 "sent"]} ∅ "messages" "pass" true None) (mkSkipHeap ∅ 0, mkExStore ∅).

Example failed_restore_loses_the_device : exists h' result,
  ExportBackup ex_env 40 ex_random BackupConsentToken "pass" ex_bob_device = (with_heap h' ex_bob_device, Ok result)
  /\ let '(w1, r) := RestoreBackup ex_failing_env BackupConsentToken "pass" (be_Blob result) ex_saving_device in
     r = Err (errorsNew "no space left on device") /\ ms_messages (bw_messages w1) = ∅
     /\ im_identity (bw_identity w1) = im_identity ex_bob.
Proof.
  destruct (exported ex_env 40 ex_random BackupConsentToken "pass" ex_bob_device {["alice" := ex_backup_session]} ex_env_ok ex_random_ok
    eq_refl ltac:(discriminate) ex_bob_ready (ex_payload_reads _)) as (h' & result & E & _ & _ & _ & Ht & Hb & Hd).
  exists h', result. split; [exact E|]. unfold RestoreBackup. cbv zeta. rewrite Ht, Hd, (bool_decide_false _ Hb).
  clear. vm_compute. split; [reflexivity|split; reflexivity].
Qed.

(** The backup of Bob's device, restored on the other one, is there after a restart. *)
Lemma identity_survives_restart_witness : exists h' result w1 file1 w2,
  ExportBackup ex_env 40 ex_random BackupConsentToken "pass" ex_bob_device = (with_heap h' ex_bob_device, Ok result)
  /\ run_file ex_env (FRestoreBackup ex_restore_env BackupConsentToken "pass" (be_Blob result)) (ex_other_device, mkEncStore "id" "secret" None)
     = ((w1, file1), Ok tt)
  /\ IdentityBootstrap ex_env 99 (mkIdentityWorld ex_alice file1) = (w2, Ok tt) /\ im_identity (iw_manager w2) = im_identity ex_bob_manager.
Proof.
  destruct (exported ex_env 40 ex_random BackupConsentToken "pass" ex_bob_device {["alice" := ex_backup_session]} ex_env_ok ex_random_ok
    eq_refl ltac:(discriminate) ex_bob_ready (ex_payload_reads _)) as (h' & result & E1 & _ & _ & _ & Ht & Hnb & Hd).
  destruct (blob_restores ex_restore_env _ 40 BackupConsentToken "pass" _ ex_bob_device {["alice" := ex_backup_session]} ex_other_device ∅
    ex_restore_env_ok eq_refl ltac:(discriminate) Ht Hnb Hd ex_bob_ready eq_refl I) as (w1 & E2 & Hi & _).
  set (file1 := iw_store (fst (IdentityPersist ex_env (mkIdentityWorld (bw_identity w1) (mkEncStore "id" "secret" None))))).
  assert (Hrun : run_file ex_env (FRestoreBackup ex_restore_env BackupConsentToken "pass" (be_Blob result))
    (ex_other_device, mkEncStore "id" "secret" None) = ((w1, file1), Ok tt)).
  { cbn [run_file]. unfold ServiceRestoreBackup, onDevice. unfold bindM at 1 2. rewrite E2. by destruct w1. }
  destruct (identity_survives_restart ex_env ex_env 5 99 (FRestoreBackup ex_restore_env BackupConsentToken "pass" (be_Blob result))
    ex_other_device w1 (mkEncStore "id" "secret" None) file1 (replicate 32 1) ex_alice) as (_ & w2 & Hb & Hs).
  - apply ex_env_ok.
  - apply ex_env_ok.
  - vm_compute. reflexivity.
  - done.
  - exact Hrun.
  - apply ex_identity_json_faithful.
  - apply ex_alice_new.
  - exists h', result, w1, file1, w2. split; [exact E1|]. split; [exact Hrun|]. split; [exact Hb|]. rewrite (si_identity _ _ Hs). exact Hi.
Defined.
