(* ===== verification/Sanitizer.v ===== *)
(** * The log and its sanitizer

    Models internal/platform/privacylog/sanitizer.go, the handler that every logger of the daemon is wrapped in, and
    internal/composition/daemonservice/logging_schema.go, the lines the daemon writes. The types of log/slog are modelled as
    far as the source looks at them; the formats of numbers, times and values of other types are an interface. *)
From Stdlib Require Import ZArith Lia Ascii String.
From stdpp Require Import base gmap strings list option pretty.
From S2P Require Import Prelude Text.
Open Scope string_scope.
Open Scope Z_scope.
Open Scope go_scope.
Local Open Scope list_scope.

Section Sanitizer.
(** The type of floats, and the values of other types. *)
Context {F A : Type}.

(** [slog.Value] by its kinds, and [any]. *)
Inductive Value :=
| StringValue (s : string) | Int64Value (n : Z) | Uint64Value (n : Z) | Float64Value (f : F) | BoolValue (b : bool)
| DurationValue (d : Z) | TimeValue (t : Z) | AnyValue (p : payload) | GroupValue (attrs : list (string * Value)) | LogValuerValue (a : A)
with payload :=
| PString (s : string) | PInt64 (n : Z) | PUint64 (n : Z) | PFloat64 (f : F) | PBool (b : bool) | POther (a : A)
| PMap (m : gmap string payload) | PAttrs (attrs : list (string * Value)).

Definition Attr : Type := string * Value.

(** [%g], [Duration.String], the format of times in UTC with nine decimals, and [fmt.Sprint]. *)
Class LogFormat := {
  formatG : F -> string; durationString : Z -> string; timeString : Z -> string; sprint : payload -> string
}.
Context {format : LogFormat} {lower : GoLower}.
Context (sha256 : list Z -> list Z) (bootNonce : string).

Definition redactedValue : string := "[REDACTED]".
Definition disallowedPlainIDs : list string := ["contact_id"; "message_id"; "group_id"; "event_id"; "identity_id"].
Definition sensitiveKeyParts : list string := ["token"; "secret"; "password"; "passphrase"; "authorization"; "auth"].
Definition sensitiveValueParts : list string :=
  ["token"; "secret"; "password"; "passphrase"; "authorization"; "bearer "; "api_key"; "apikey"; "private key"; "mnemonic";
   "seed phrase"].

(** [fmt.Sprintf("%d")] and [%t]. *)
Definition formatInt (n : Z) : string := pretty n.
Definition formatBool (b : bool) : string := if b then "true" else "false".

(** [v.Any()] for the kinds that have no case of their own. *)
Definition valueAny (v : Value) : payload :=
  match v with
  | StringValue s => PString s | Int64Value n => PInt64 n | Uint64Value n => PUint64 n | Float64Value f => PFloat64 f
  | BoolValue b => PBool b | DurationValue d => PInt64 d | TimeValue t => PInt64 t
  | AnyValue p => p | GroupValue attrs => PAttrs attrs | LogValuerValue a => POther a
  end.

Definition valueToString (v : Value) : string :=
  match v with
  | StringValue s => s
  | Int64Value n | Uint64Value n => formatInt n
  | Float64Value f => formatG f
  | BoolValue b => formatBool b
  | DurationValue d => durationString d
  | TimeValue t => timeString t
  | v => sprint (valueAny v)
  end.

Definition shouldFingerprintKey (key : string) : bool :=
  if bool_decide (key ∈ disallowedPlainIDs) then true
  else (key == "actor_id") || (key == "member_id") || (key == "device_id").

Definition HasSuffix (s suffix : string) : bool :=
  let l := list_ascii_of_string s in let r := list_ascii_of_string suffix in
  bool_decide (drop (length l - length r) l = r).

Definition fingerprintKeyName (key : string) : string :=
  if HasSuffix (ToLower (TrimSpace key)) "_fp" then key else key +:+ "_fp".

Definition isSensitiveKey (key : string) : bool := existsb (Contains key) sensitiveKeyParts.

Definition isSensitiveValue (value : string) : bool :=
  let lower := ToLower (TrimSpace value) in
  if lower == "" then false else existsb (Contains lower) sensitiveValueParts.

Definition shouldRedactValue (v : Value) : bool := isSensitiveValue (valueToString v).

Definition FingerprintID (value : string) : string :=
  let trimmed := TrimSpace value in
  if trimmed == "" then "" else
  "fp_" +:+ hexEncode (take 8 (sha256 (string_bytes (trimmed +:+ "|" +:+ bootNonce)))).

(** What becomes of the value of an attribute inside a group. *)
Definition groupEntry (v : Value) : payload :=
  match v with
  | StringValue s => PString s | Int64Value n => PInt64 n | Uint64Value n => PUint64 n | Float64Value f => PFloat64 f
  | BoolValue b => PBool b | DurationValue d => PString (durationString d) | TimeValue t => PString (timeString t)
  | v => valueAny v
  end.

(** [out[attr.Key] = ...] for every attribute in order: the last one under a key stays. *)
Definition groupMap (attrs : list Attr) : gmap string payload :=
  fold_left (fun out attr => <[attr.1 := groupEntry attr.2]> out) attrs ∅.

Fixpoint sanitizeValue (attrKey : string) (v : Value) {struct v} : Attr :=
  let key := TrimSpace attrKey in
  let lowerKey := ToLower key in
  if isSensitiveKey lowerKey then (key, StringValue redactedValue) else
  if shouldFingerprintKey lowerKey then (fingerprintKeyName key, StringValue (FingerprintID (valueToString v))) else
  match v with
  | GroupValue group => (key, AnyValue (PMap (groupMap (map (fun '(k, v) => sanitizeValue k v) group))))
  | v => if shouldRedactValue v then (key, StringValue redactedValue) else (attrKey, v)
  end.

Definition SanitizeAttr (attr : Attr) : Attr := sanitizeValue attr.1 attr.2.
Definition sanitizeAttrs (attrs : list Attr) : list Attr := map SanitizeAttr attrs.
Definition sanitizeGroupValue (attrs : list Attr) : gmap string payload := groupMap (sanitizeAttrs attrs).

Fixpoint SanitizeArgs (args : list payload) : list payload :=
  match args with
  | [] => []
  | PString key :: value :: rest =>
      let lowerKey := ToLower (TrimSpace key) in
      (if isSensitiveKey lowerKey then [PString key; PString redactedValue] else
       if shouldFingerprintKey lowerKey then [PString (fingerprintKeyName key); PString (FingerprintID (sprint value))] else
       if isSensitiveValue (sprint value) then [PString key; PString redactedValue] else [PString key; value])
      ++ SanitizeArgs rest
  | other :: rest => other :: SanitizeArgs rest
  end.

(** ** The handler

    A handler of log/slog is what it was derived with: [next] lists the attributes and groups the wrapped handler was given. *)
Record LogRecord := mkLogRecord { lr_Time : Z; lr_Level : Z; lr_Message : string; lr_PC : Z; lr_Attrs : list Attr }.
Inductive derivation := DerivedAttrs (attrs : list Attr) | DerivedGroup (name : string).
Record SanitizingHandler := mkHandler { sh_next : list derivation }.

Definition WrapHandler (next : option (list derivation)) : option SanitizingHandler := mkHandler <$> next.
Definition WithAttrs (attrs : list Attr) (h : SanitizingHandler) : SanitizingHandler :=
  mkHandler (sh_next h ++ [DerivedAttrs (sanitizeAttrs attrs)]).
Definition WithGroup (name : string) (h : SanitizingHandler) : SanitizingHandler := mkHandler (sh_next h ++ [DerivedGroup name]).
(** The record the wrapped handler is given, with the handler it is given to. *)
Definition Handle (rec : LogRecord) (h : SanitizingHandler) : list derivation * LogRecord :=
  (sh_next h, mkLogRecord (lr_Time rec) (lr_Level rec) (lr_Message rec) (lr_PC rec) (map SanitizeAttr (lr_Attrs rec))).

(** ** Lines of the daemon *)

Definition daemonComponentName : string := "daemonservice".

Definition messageCorrelationID (messageID contactID : string) : string :=
  let trimmedMessageID := TrimSpace messageID in
  let trimmedContactID := TrimSpace contactID in
  if negb (trimmedMessageID == "") && negb (trimmedContactID == "") then trimmedContactID +:+ ":" +:+ trimmedMessageID else
  if negb (trimmedMessageID == "") then trimmedMessageID else
  if negb (trimmedContactID == "") then trimmedContactID else "n/a".

Definition logLine (level now pc : Z) (message : string) (base attrs : list Attr) : SanitizingHandler -> list derivation * LogRecord :=
  Handle (mkLogRecord now level message pc (base ++ attrs)).
Definition logBase (operation correlationID : string) : list Attr :=
  [("component", StringValue daemonComponentName); ("operation", StringValue (TrimSpace operation));
   ("correlation_id", StringValue (TrimSpace correlationID))].
Definition levelInfo : Z := 0.
Definition levelWarn : Z := 4.
Definition levelError : Z := 8.

Definition logInfo (now pc : Z) (operation correlationID message : string) (attrs : list Attr) :=
  logLine levelInfo now pc message (logBase operation correlationID) attrs.
Definition logWarn (now pc : Z) (operation correlationID message : string) (attrs : list Attr) :=
  logLine levelWarn now pc message (logBase operation correlationID) attrs.
(** The line of [recordErrorWithContext], with the text of the error. *)
Definition logError (now pc : Z) (category err operation correlationID : string) (attrs : list Attr) :=
  logLine levelError now pc "service error"
    [("component", StringValue daemonComponentName); ("operation", StringValue (TrimSpace operation));
     ("category", StringValue (TrimSpace category)); ("correlation_id", StringValue (TrimSpace correlationID)); ("error", StringValue err)]
    attrs.

(** ** What may be in the log

    Said without the functions of the handler: the words that make a key or a text secret, the keys of identifiers, and the digest
    that an identifier is written as. *)

Definition secretKeyWords : list string := ["token"; "secret"; "password"; "passphrase"; "authorization"; "auth"].
Definition secretTextWords : list string :=
  ["token"; "secret"; "password"; "passphrase"; "authorization"; "bearer "; "api_key"; "apikey"; "private key"; "mnemonic"; "seed phrase"].
Definition identifierKeys : list string :=
  ["contact_id"; "message_id"; "group_id"; "event_id"; "identity_id"; "actor_id"; "member_id"; "device_id"].

Definition hasWord (words : list string) (text : string) : Prop :=
  exists w a b, w ∈ words /\ ToLower (TrimSpace text) = a +:+ w +:+ b.
Definition secretKey : string -> Prop := hasWord secretKeyWords.
Definition secretText : string -> Prop := hasWord secretTextWords.
Definition identifierKey (key : string) : Prop := ToLower (TrimSpace key) ∈ identifierKeys.
Definition isGroup (v : Value) : bool := match v with GroupValue _ => true | _ => false end.

(** The text of a value. *)
Definition shown (v : Value) : string :=
  match v with
  | StringValue s => s | Int64Value n => pretty n | Uint64Value n => pretty n | Float64Value f => formatG f
  | BoolValue true => "true" | BoolValue false => "false" | DurationValue d => durationString d | TimeValue t => timeString t
  | AnyValue p => sprint p | GroupValue attrs => sprint (PAttrs attrs) | LogValuerValue a => sprint (POther a)
  end.

(** The first eight bytes of the hash of an identifier and the nonce of this run of the daemon. *)
Definition digest (id : string) : list Z := take 8 (sha256 (string_bytes (id +:+ "|" +:+ bootNonce))).
Definition same_digest (a b : string) : Prop :=
  TrimSpace a = TrimSpace b \/ TrimSpace a <> "" /\ TrimSpace b <> "" /\ digest (TrimSpace a) = digest (TrimSpace b).

(** Attributes that an observer must not tell apart: they differ in the value of a secret key, in identifiers with one digest, in
    values whose text has a secret word, or in such parts of groups. *)
Inductive similar : Attr -> Attr -> Prop :=
| similar_same a : similar a a
| similar_secret k v v' : secretKey k -> similar (k, v) (k, v')
| similar_identifier k v v' : identifierKey k -> same_digest (shown v) (shown v') -> similar (k, v) (k, v')
| similar_words k v v' :
    ~ identifierKey k -> isGroup v = false -> isGroup v' = false -> secretText (shown v) -> secretText (shown v') -> similar (k, v) (k, v')
| similar_group k l l' : ~ identifierKey k -> Forall2 similar l l' -> similar (k, GroupValue l) (k, GroupValue l').

Definition plainKey (key : string) : Prop := ~ secretKey key /\ ~ identifierKey key.
Definition plain (a : Attr) : Prop := plainKey a.1 /\ isGroup a.2 = false /\ ~ secretText (shown a.2).

(** An attribute that may be written: redacted; the digest of an identifier, under a name that says so; plain; or a group of such
    under a plain key. *)
Inductive clean : Attr -> Prop :=
| clean_redacted k : clean (k, StringValue "[REDACTED]")
| clean_fingerprint k id : identifierKey k -> clean (k +:+ "_fp", StringValue ("fp_" +:+ hexEncode (digest id)))
| clean_no_identifier k : identifierKey k -> clean (k +:+ "_fp", StringValue "")
| clean_plain a : plain a -> clean a
| clean_group k m :
    plainKey k -> (forall k' p, m !! k' = Some p -> exists v, clean (k', v) /\ p = groupEntry v) -> clean (k, AnyValue (PMap m)).

Inductive similar_derivation : derivation -> derivation -> Prop :=
| similar_attrs l l' : Forall2 similar l l' -> similar_derivation (DerivedAttrs l) (DerivedAttrs l')
| similar_name name : similar_derivation (DerivedGroup name) (DerivedGroup name).

Definition derive (h : SanitizingHandler) (d : derivation) : SanitizingHandler :=
  match d with DerivedAttrs attrs => WithAttrs attrs h | DerivedGroup name => WithGroup name h end.
Definition clean_derivation (d : derivation) : Prop := match d with DerivedAttrs l => Forall clean l | DerivedGroup _ => True end.

(** *** The functions of the handler decide these *)

Definition sensitive (key : string) : bool := isSensitiveKey (ToLower (TrimSpace key)).
Definition identifying (key : string) : bool := shouldFingerprintKey (ToLower (TrimSpace key)).

Lemma isPrefix_split p l : isPrefix p l = true -> exists r, l = p ++ r.
Proof.
  revert l. induction p as [|a p IH]; intros [|b l] Hp; try done; [by exists []|by exists (b :: l)|]. cbn in Hp.
  apply andb_true_iff in Hp as [->%bool_decide_eq_true [r ->]%IH]. by exists r.
Qed.

Lemma containsList_split sub l : containsList sub l = true -> exists a b, l = a ++ sub ++ b.
Proof.
  induction l as [|c l IH]; cbn [containsList]; intros [Hp|Hp]%orb_true_iff; try done.
  - apply isPrefix_split in Hp as [r ->]. by exists [], r.
  - apply isPrefix_split in Hp as [r ->]. by exists [], r.
  - destruct (IH Hp) as (a & b & ->). by exists (c :: a), b.
Qed.

Lemma Contains_iff s sub : Contains s sub = true <-> exists a b, s = a +:+ sub +:+ b.
Proof.
  split; [|intros (a & b & ->); apply Contains_app]. intros (a & b & E)%containsList_split.
  exists (string_of_list_ascii a), (string_of_list_ascii b). rewrite <- (string_of_list_ascii_of_string s), E.
  rewrite <- (string_of_list_ascii_of_string (_ +:+ _ +:+ _)), !list_ascii_app. by rewrite !list_ascii_of_string_of_list_ascii.
Qed.

Lemma words_iff words text : existsb (Contains (ToLower (TrimSpace text))) words = true <-> hasWord words text.
Proof.
  rewrite existsb_exists. split.
  - intros (w & Hin & (a & b & E)%Contains_iff). exists w, a, b. split; [by apply list_elem_of_In|done].
  - intros (w & a & b & Hin & E). exists w. split; [by apply list_elem_of_In|]. apply Contains_iff. by exists a, b.
Qed.

Lemma secretKey_iff key : sensitive key = true <-> secretKey key.
Proof. apply (words_iff secretKeyWords). Qed.

Lemma secretText_iff text : isSensitiveValue text = true <-> secretText text.
Proof.
  unfold isSensitiveValue, secretText. rewrite <- words_iff. case_bool_decide as He; [rewrite He; by cbn|done].
Qed.

Lemma identifierKey_iff key : identifying key = true <-> identifierKey key.
Proof.
  unfold identifying, shouldFingerprintKey, identifierKey, identifierKeys, disallowedPlainIDs.
  case_bool_decide as Hd; rewrite ?orb_true_iff, ?bool_decide_eq_true; revert Hd; rewrite !list.elem_of_cons, list.elem_of_nil; tauto.
Qed.

Lemma plainKey_iff key : sensitive key = false /\ identifying key = false <-> plainKey key.
Proof. unfold plainKey. by rewrite <- secretKey_iff, <- identifierKey_iff, !not_true_iff_false. Qed.

Lemma valueToString_shown v : valueToString v = shown v.
Proof. by destruct v as [| | | |[]| | | | |]. Qed.

Lemma shouldRedact_iff v : shouldRedactValue v = true <-> secretText (shown v).
Proof. unfold shouldRedactValue. by rewrite secretText_iff, valueToString_shown. Qed.

Lemma fingerprint_name k : identifierKey k -> fingerprintKeyName k = k +:+ "_fp".
Proof.
  unfold identifierKey, fingerprintKeyName. intros Hk. destruct (HasSuffix _ _) eqn:Es; [|done].
  unfold identifierKeys in Hk. rewrite !list.elem_of_cons, list.elem_of_nil in Hk.
  repeat destruct Hk as [Hk|Hk]; try (rewrite Hk in Es; discriminate Es). done.
Qed.

Lemma fingerprint_same a b : same_digest a b -> FingerprintID a = FingerprintID b.
Proof.
  unfold same_digest, FingerprintID, digest. intros [->|(Ha & Hb & E)]; [done|]. rewrite !bool_decide_false by done. by rewrite E.
Qed.

Lemma sanitizeValue_unfold k v : sanitizeValue k v =
  let key := TrimSpace k in
  if sensitive k then (key, StringValue redactedValue) else
  if identifying k then (fingerprintKeyName key, StringValue (FingerprintID (valueToString v))) else
  match v with
  | GroupValue group => (key, AnyValue (PMap (sanitizeGroupValue group)))
  | v => if shouldRedactValue v then (key, StringValue redactedValue) else (k, v)
  end.
Proof.
  assert (E : forall group, map (fun '(k, v) => sanitizeValue k v) group = sanitizeAttrs group).
  { intros group. apply List.map_ext. by intros []. }
  unfold sensitive, identifying, sanitizeGroupValue. destruct v; try done. cbn. by rewrite E.
Qed.

Lemma sanitize_not_group k v : isGroup v = false -> sanitizeValue k v =
  let key := TrimSpace k in
  if sensitive k then (key, StringValue redactedValue) else
  if identifying k then (fingerprintKeyName key, StringValue (FingerprintID (valueToString v))) else
  if shouldRedactValue v then (key, StringValue redactedValue) else (k, v).
Proof. rewrite sanitizeValue_unfold. by destruct v. Qed.

Lemma not_identifying k : ~ identifierKey k -> identifying k = false.
Proof. by rewrite <- identifierKey_iff, not_true_iff_false. Qed.

(** What is similar is written the same. *)
Fixpoint similar_written (a b : Attr) (H : similar a b) {struct H} : SanitizeAttr a = SanitizeAttr b.
Proof.
  destruct H as [a|k v v' Hk|k v v' Hk Hf|k v v' Hi Hg Hg' Hr Hr'|k l l' Hi Hl]; [done|..]; unfold SanitizeAttr; cbn [fst snd].
  - apply secretKey_iff in Hk. by rewrite !sanitizeValue_unfold, Hk.
  - apply identifierKey_iff in Hk. rewrite !sanitizeValue_unfold, Hk, !valueToString_shown. by rewrite (fingerprint_same _ _ Hf).
  - apply not_identifying in Hi. apply shouldRedact_iff in Hr, Hr'. by rewrite !sanitize_not_group, Hi, Hr, Hr' by done.
  - apply not_identifying in Hi. rewrite !sanitizeValue_unfold. cbv zeta. destruct (sensitive k); [done|].
    assert (E : sanitizeAttrs l = sanitizeAttrs l').
    { induction Hl as [|x y l l' Hxy Hl IH]; [done|]. unfold sanitizeAttrs in *. cbn [map]. by rewrite (similar_written x y Hxy), IH. }
    by rewrite Hi; unfold sanitizeGroupValue; rewrite E.
Qed.

(** What is plain is written as it is. *)
Lemma plain_written a : plain a -> SanitizeAttr a = a.
Proof.
  destruct a as [k v]. intros ([Hs Hi]%plainKey_iff & Hg & Ht). cbn [fst snd] in *. unfold SanitizeAttr. cbn [fst snd].
  rewrite sanitize_not_group, Hs, Hi by done. destruct (shouldRedactValue v) eqn:E; [|done]. by apply shouldRedact_iff in E.
Qed.

Lemma groupMap_entry (attrs : list Attr) : forall (m : gmap string payload) k p, fold_left (fun out attr => <[attr.1 := groupEntry attr.2]> out) attrs m !! k = Some p ->
  (exists v, (k, v) ∈ attrs /\ p = groupEntry v) \/ m !! k = Some p.
Proof.
  induction attrs as [|[k0 v0] attrs IH]; intros m k p H; cbn [fold_left] in H; [by right|].
  apply IH in H as [(v & Hin & Hp)|H]; [left; exists v; split; [by right|done]|]. cbn in H.
  destruct (decide (k0 = k)) as [<-|Hne].
  - rewrite lookup_insert_eq in H. injection H as <-. left. exists v0. split; [left|done].
  - rewrite lookup_insert_ne in H by done. by right.
Qed.

Lemma TrimSpace_key k : plainKey (TrimSpace k) <-> plainKey k.
Proof. unfold plainKey, secretKey, hasWord, identifierKey. by rewrite TrimSpace_idemp. Qed.

Lemma fingerprint_clean k id : identifierKey k -> clean (fingerprintKeyName k, StringValue (FingerprintID id)).
Proof.
  intros Hk. rewrite fingerprint_name by done. unfold FingerprintID. case_bool_decide; [by apply clean_no_identifier|by apply clean_fingerprint].
Qed.

Lemma plain_kept k v : plainKey k -> isGroup v = false -> shouldRedactValue v = false -> clean (k, v).
Proof.
  intros Hk Hg Hr. apply clean_plain. split; [exact Hk|]. split; [exact Hg|]. cbn [snd]. intros Hw. apply shouldRedact_iff in Hw. congruence.
Qed.

(** What is written is clean. *)
Fixpoint written_clean (k : string) (v : Value) {struct v} : clean (sanitizeValue k v).
Proof.
  rewrite sanitizeValue_unfold. cbv zeta. destruct (sensitive k) eqn:Es; [apply clean_redacted|]. destruct (identifying k) eqn:Ei.
  { apply fingerprint_clean. apply identifierKey_iff in Ei. unfold identifierKey in *. by rewrite TrimSpace_idemp. }
  assert (Hk : plainKey k) by (by apply plainKey_iff).
  destruct v as [s|n|n|f|b|d|t|p|group|a];
    try (destruct (shouldRedactValue _) eqn:Er;
         [apply clean_redacted|by apply plain_kept]; fail).
  apply clean_group; [by rewrite TrimSpace_key|]. intros k' p Hp. unfold sanitizeGroupValue, groupMap in Hp.
  apply groupMap_entry in Hp as [(v' & Hin & ->)|Hp]; [|by rewrite lookup_empty in Hp]. exists v'. split; [|done].
  assert (Hall : Forall clean (sanitizeAttrs group)).
  { clear Hin. induction group as [|[k1 v1] group IH]; [constructor|]. constructor; [apply written_clean|apply IH]. }
  revert Hin. by apply list.Forall_forall.
Qed.

Lemma similar_all l l' : Forall2 similar l l' -> sanitizeAttrs l = sanitizeAttrs l'.
Proof. induction 1 as [|a b l l' Hab _ IH]; [done|]. unfold sanitizeAttrs in *. cbn [map]. by rewrite (similar_written a b Hab), IH. Qed.

Lemma clean_all l : Forall clean (sanitizeAttrs l).
Proof. induction l as [|[k v] l IH]; constructor; [apply written_clean|done]. Qed.

Lemma derived_same ds ds' h : Forall2 similar_derivation ds ds' -> fold_left derive ds h = fold_left derive ds' h.
Proof.
  intros H. revert h. induction H as [|d d' ds ds' Hd _ IH]; intros h; [done|]. cbn [fold_left]. rewrite IH. f_equal.
  destruct Hd as [l l' Hl|name]; [|done]. cbn. unfold WithAttrs. by rewrite (similar_all _ _ Hl).
Qed.

Lemma derived_clean ds : forall h, Forall clean_derivation (sh_next h) -> Forall clean_derivation (sh_next (fold_left derive ds h)).
Proof.
  induction ds as [|d ds IH]; intros h Hh; [done|]. cbn [fold_left]. apply IH. destruct d; cbn; apply list.Forall_app; split; try done.
  - constructor; [apply clean_all|constructor].
  - by constructor.
Qed.

(** C17: Secrets do not reach the log: whatever attributes and groups a logger is derived with, two records with the same message
    whose attributes differ in the values of keys with a secret word ("token", "password", ...), in values whose text has a secret
    word, in identifiers with one digest, or in such parts of groups at any depth, are written the same. Every attribute that is
    written is "[REDACTED]", the digest of an identifier under the name "..._fp", plain (no secret word in the key or the text, and
    the key of no identifier), or a group of such; and plain attributes are written as they are. *)
Theorem secrets_stay_out_of_the_log ds ds' time level message pc attrs attrs' :
  Forall2 similar_derivation ds ds' -> Forall2 similar attrs attrs' ->
  let log ds attrs := Handle (mkLogRecord time level message pc attrs) (fold_left derive ds (mkHandler [])) in
  log ds attrs = log ds' attrs' /\ Forall clean_derivation (log ds attrs).1 /\ Forall clean (lr_Attrs (log ds attrs).2)
  /\ (forall i a, attrs !! i = Some a -> plain a -> lr_Attrs (log ds attrs).2 !! i = Some a)
  /\ lr_Message (log ds attrs).2 = message.
Proof.
  intros Hd Ha log. subst log. unfold Handle. cbn [lr_Time lr_Level lr_Message lr_PC lr_Attrs fst snd].
  rewrite (derived_same ds ds' _ Hd). fold (sanitizeAttrs attrs). fold (sanitizeAttrs attrs'). rewrite (similar_all _ _ Ha).
  split_and!; [done| |apply clean_all| |done].
  - by apply derived_clean.
  - intros i a Hi Hp. rewrite <- (similar_all _ _ Ha). unfold sanitizeAttrs. rewrite list_lookup_fmap, Hi. cbn. by rewrite plain_written.
Qed.

(** The arguments of a log call, given in pairs. *)
Definition pairs (l : list (string * payload)) : list payload := l ≫= (fun kv => [PString kv.1; kv.2]).

Inductive similar_arg : string * payload -> string * payload -> Prop :=
| arg_same a : similar_arg a a
| arg_secret k p p' : secretKey k -> similar_arg (k, p) (k, p')
| arg_identifier k p p' : identifierKey k -> same_digest (sprint p) (sprint p') -> similar_arg (k, p) (k, p')
| arg_words k p p' : ~ identifierKey k -> secretText (sprint p) -> secretText (sprint p') -> similar_arg (k, p) (k, p').

Lemma SanitizeArgs_pair k p l : SanitizeArgs (pairs ((k, p) :: l)) =
  (if sensitive k then [PString k; PString redactedValue] else
   if identifying k then [PString (fingerprintKeyName k); PString (FingerprintID (sprint p))] else
   if isSensitiveValue (sprint p) then [PString k; PString redactedValue] else [PString k; p]) ++ SanitizeArgs (pairs l).
Proof. done. Qed.

Lemma secrets_stay_out_of_arguments l l' : Forall2 similar_arg l l' -> SanitizeArgs (pairs l) = SanitizeArgs (pairs l').
Proof.
  induction 1 as [|[k p] [k' p'] l l' Ha _ IH]; [done|]. rewrite !SanitizeArgs_pair, IH. f_equal.
  inversion Ha as [|? ? ? Hk|? ? ? Hk Hf|? ? ? Hi Hr Hr']; subst; [done|..].
  - by apply secretKey_iff in Hk as ->.
  - apply identifierKey_iff in Hk as ->. by rewrite (fingerprint_same _ _ Hf).
  - apply secretText_iff in Hr as ->, Hr' as ->. by rewrite (not_identifying _ Hi).
Qed.

End Sanitizer.

Arguments LogFormat : clear implicits.

(** ** Lines to compute with *)

(** Floats and values of other types are left out here. *)
#[export] Instance exLogFormat : LogFormat unit unit := {
  formatG _ := "0"; durationString d := pretty d; timeString t := pretty t; sprint p := match p with PString s => s | _ => "value" end
}.

Definition ex_hash (l : list Z) : list Z := take 8 (l ++ replicate 8 0).

Definition ex_line (contact secret : string) : LogRecord (F := unit) (A := unit) :=
  mkLogRecord 1 0 "message" 0
    [("contact_id", StringValue contact); ("api_token", StringValue secret);
     ("request", GroupValue [("password", StringValue secret); ("size", Int64Value 3)])].

Lemma secrets_stay_out_of_the_log_witness :
  Handle ex_hash "nonce" (ex_line "aim1bob" "abc") (mkHandler []) = Handle ex_hash "nonce" (ex_line "aim1bob" "xyz") (mkHandler []).
Proof.
  refine (proj1 (secrets_stay_out_of_the_log (F := unit) (A := unit) ex_hash "nonce" [] [] 1 0 "message" 0 _ _ ltac:(constructor) _)).
  apply List.Forall2_cons; [constructor|].
  apply List.Forall2_cons; [apply similar_secret; exists "token", "api_", ""; split; [left|reflexivity]|].
  apply List.Forall2_cons; [|constructor]. apply similar_group; [intros Hk; apply identifierKey_iff in Hk; discriminate Hk|].
  apply List.Forall2_cons; [apply similar_secret; exists "password", "", ""; split; [by right; right; left|reflexivity]|].
  apply List.Forall2_cons; constructor.
Defined.

(** The correlation of a line joins the identifiers of the contact and the message: they are written as they are, beside the
    fingerprints of the same line. *)
Example correlation_shows_the_identifiers :
  lr_Attrs (logWarn (F := unit) (A := unit) ex_hash "nonce" 1 0 "message.retry_limit" (messageCorrelationID "msg1" "aim1bob")
    "message retry limit reached" [("message_id", StringValue "msg1"); ("contact_id", StringValue "aim1bob")] (mkHandler [])).2
  = [("component", StringValue "daemonservice"); ("operation", StringValue "message.retry_limit");
     ("correlation_id", StringValue "aim1bob:msg1");
     ("message_id_fp", StringValue "fp_6d7367317c6e6f6e"); ("contact_id_fp", StringValue "fp_61696d31626f627c")].
Proof. vm_compute. reflexivity. Qed.
