(* ===== verification/Diagnostics.v ===== *)
(** * Diagnostics

    Models internal/composition/daemonservice/diagnostics_export.go: the last warnings and errors of the daemon, the texts they are
    reduced to, and the package that is exported; and the two calls of logging_schema.go that record them. The three regular
    expressions are written out as matchers. *)
From Stdlib Require Import ZArith Lia Ascii String.
From stdpp Require Import base gmap strings list option.
From S2P Require Import Prelude Text ServingLimits Runtime Sanitizer.
Open Scope string_scope.
Open Scope Z_scope.
Open Scope go_scope.
Local Open Scope list_scope.

Definition diagnosticsExportSchemaVersion : Z := 1.
Definition diagnosticEventsRingLimit : Z := 512.

(** ** Letters

    The package regexp folds two letters outside of ASCII to letters inside it, the long s (U+017F) and the Kelvin sign (U+212A);
    all other bytes beyond ASCII are treated alike by the three expressions. *)
Inductive letter := Byte (a : ascii) | LongS | Kelvin.
#[export] Instance letter_eq_dec : EqDecision letter.
Proof. solve_decision. Defined.

Definition longS : list ascii := [ascii_of_nat 197; ascii_of_nat 191].
Definition kelvin : list ascii := [ascii_of_nat 226; ascii_of_nat 132; ascii_of_nat 170].

Fixpoint lettersOf (l : list ascii) : list letter :=
  match l with
  | [] => []
  | a :: l1 =>
      match l1 with
      | b :: l2 =>
          if bool_decide ([a; b] = longS) then LongS :: lettersOf l2 else
          match l2 with
          | c :: l3 => if bool_decide ([a; b; c] = kelvin) then Kelvin :: lettersOf l3 else Byte a :: lettersOf l1
          | [] => Byte a :: lettersOf l1
          end
      | [] => [Byte a]
      end
  end.

Definition bytesOf (x : letter) : list ascii := match x with Byte a => [a] | LongS => longS | Kelvin => kelvin end.
Definition letters (s : string) : list letter := lettersOf (list_ascii_of_string s).
Definition text (l : list letter) : string := string_of_list_ascii (l ≫= bytesOf).
Definition plain (s : string) : list letter := Byte <$> list_ascii_of_string s.

Definition between (lo hi : ascii) (x : letter) : bool :=
  match x with Byte a => (byteN lo <=? byteN a)%nat && (byteN a <=? byteN hi)%nat | _ => false end.
Definition among (cs : list ascii) (x : letter) : bool := match x with Byte a => bool_decide (a ∈ cs) | _ => false end.

(** [[0-9a-zA-Z]], and the word characters of [\b]. *)
Definition alnum (x : letter) : bool := between "0" "9" x || between "a" "z" x || between "A" "Z" x.
Definition wordChar (x : letter) : bool := alnum x || among ["_"%char] x.
(** [\s] *)
Definition isBlank (x : letter) : bool := among (ascii_of_nat <$> [9; 10; 12; 13; 32])%nat x.

Definition wordAt (x : option letter) : bool := match x with Some x => wordChar x | None => false end.
Definition boundary (before after : option letter) : bool := xorb (wordAt before) (wordAt after).

(** A letter of an expression with the flag [(?i)]: [a] is in lower case. *)
Definition folded (a : ascii) (x : letter) : bool :=
  match x with
  | Byte b => bool_decide (lower_ascii b = a)
  | LongS => bool_decide (a = "s"%char)
  | Kelvin => bool_decide (a = "k"%char)
  end.

(** The rest after a literal. *)
Fixpoint literal (same : ascii -> letter -> bool) (word : list ascii) (l : list letter) : option (list letter) :=
  match word, l with
  | [], _ => Some l
  | a :: word, x :: l => if same a x then literal same word l else None
  | _ :: _, [] => None
  end.
Definition exactly (a : ascii) (x : letter) : bool := bool_decide (x = Byte a).

Fixpoint takeWhile (f : letter -> bool) (l : list letter) : list letter :=
  match l with [] => [] | x :: l => if f x then x :: takeWhile f l else [] end.
Fixpoint dropWhile (f : letter -> bool) (l : list letter) : list letter :=
  match l with [] => [] | x :: l' => if f x then dropWhile f l' else l end.

(** [class+\b] where [class] matches the first [k] letters of [l]: the longest part that ends at a boundary. *)
Fixpoint lastBoundary (k : nat) (l : list letter) : option nat :=
  match k with
  | O => None
  | Datatypes.S k' => if boundary (l !! k') (l !! k) then Some k else lastBoundary k' l
  end.

(** A match at a position: its length and what replaces it. [before] is the letter before the position. *)
Definition matcher : Type := option letter -> list letter -> option (nat * list letter).

(** [ReplaceAllString]: matches are taken from left to right and do not overlap. *)
Fixpoint replaceFrom (m : matcher) (skip : nat) (before : option letter) (l : list letter) : list letter :=
  match l with
  | [] => []
  | x :: l' =>
      match skip with
      | Datatypes.S k => replaceFrom m k (Some x) l'
      | O =>
          match m before l with
          | Some (Datatypes.S k, replacement) => replacement ++ replaceFrom m k (Some x) l'
          | _ => x :: replaceFrom m O (Some x) l'
          end
      end
  end.

(** [(?i)\b(rpc_[a-z0-9._-]+)\b] *)
Definition tokenClass (x : letter) : bool :=
  alnum x || among ["."%char; "_"%char; "-"%char] x || match x with Byte _ => false | _ => true end.
Definition diagnosticTokenPattern : matcher := fun before l =>
  if negb (boundary before (list.head l)) then None else
  rest ← literal folded (list_ascii_of_string "rpc_") l;
  n ← lastBoundary (length (takeWhile tokenClass rest)) rest;
  Some ((4 + n)%nat, plain "rpc_[REDACTED]").

(** [\baim1[0-9a-zA-Z]+\b] *)
Definition diagnosticIdentityPattern : matcher := fun before l =>
  if negb (boundary before (list.head l)) then None else
  rest ← literal exactly (list_ascii_of_string "aim1") l;
  n ← lastBoundary (length (takeWhile alnum rest)) rest;
  Some ((4 + n)%nat, plain "aim1[REDACTED]").

(** [(?i)\b(token|secret|password|passphrase|private[_-]?key)\s*[:=]\s*([^\s,;]+)]; the replacement keeps the key. *)
Definition secretKey (l : list letter) : option (list letter) :=
  match literal folded (list_ascii_of_string "token") l, literal folded (list_ascii_of_string "secret") l,
        literal folded (list_ascii_of_string "password") l, literal folded (list_ascii_of_string "passphrase") l,
        literal folded (list_ascii_of_string "private") l with
  | Some rest, _, _, _, _ | None, Some rest, _, _, _ | None, None, Some rest, _, _ | None, None, None, Some rest, _ => Some rest
  | None, None, None, None, Some rest =>
      literal folded (list_ascii_of_string "key")
        match rest with x :: rest' => if among ["_"%char; "-"%char] x then rest' else rest | [] => rest end
  | None, None, None, None, None => None
  end.

Definition secretValue (x : letter) : bool := negb (isBlank x || among [","%char; ";"%char] x).
Definition diagnosticSecretKVPattern : matcher := fun before l =>
  if negb (boundary before (list.head l)) then None else
  rest ← secretKey l;
  match dropWhile isBlank rest with
  | x :: rest2 =>
      if negb (among [":"%char; "="%char] x) then None else
      let rest3 := dropWhile isBlank rest2 in
      let value := takeWhile secretValue rest3 in
      if (length value =? 0)%nat then None else
      Some ((length l - length (drop (length value) rest3))%nat,
            take (length l - length rest) l ++ plain "=[REDACTED]")
  | [] => None
  end.

Definition replaceAll (m : matcher) (value : list letter) : list letter := replaceFrom m 0 None value.

Definition sanitizeDiagnosticText (value : string) : string :=
  let value := TrimSpace value in
  if value == "" then "" else
  text (replaceAll diagnosticIdentityPattern (replaceAll diagnosticTokenPattern
    (replaceAll diagnosticSecretKVPattern (letters value)))).

Example sanitized_texts :
  sanitizeDiagnosticText "login with Password: hunter2, peer aim1Abc9 used rpc_k.3-" = "login with Password=[REDACTED], peer aim1[REDACTED] used rpc_[REDACTED]-".
Proof. vm_compute. reflexivity. Qed.

(** ** No identity is left in a text *)

Lemma lettersOf_bytes l : lettersOf l ≫= bytesOf = l.
Proof.
  induction l as [l IH] using (induction_ltof1 _ (@length ascii)). unfold ltof in IH.
  destruct l as [|a [|b l2]]; [done..|]. cbn [lettersOf]. case_bool_decide as Hs.
  - rewrite bind_cons, IH by (cbn; lia). injection Hs as -> ->. done.
  - assert (E : (Byte a :: lettersOf (b :: l2)) ≫= bytesOf = a :: b :: l2) by (rewrite bind_cons, IH by (cbn; lia); done).
    destruct l2 as [|c l3]; [exact E|]. case_bool_decide as Hk; [|exact E].
    rewrite bind_cons, IH by (cbn; lia). injection Hk as -> -> ->. done.
Qed.

(** An identity on its own in a text: [aim1] and letters or digits, with no word character before or after. *)
Definition alnumByte (a : ascii) : bool := alnum (Byte a).
Definition wordByteAt (a : option ascii) : bool := wordAt (Byte <$> a).
Definition aim1 : list ascii := list_ascii_of_string "aim1".
Definition names_identity (s : string) : Prop := exists pre id post,
  list_ascii_of_string s = pre ++ aim1 ++ id ++ post /\ id <> [] /\ Forall (fun a => alnumByte a = true) id
  /\ wordByteAt (list.last pre) = false /\ wordByteAt (list.head post) = false.

(** A position where the expression for identities matches. *)
Definition identityAt (before : option letter) (l : list letter) : bool :=
  match diagnosticIdentityPattern before l with Some _ => true | None => false end.

Fixpoint identities (before : option letter) (l : list letter) : bool :=
  match l with [] => false | x :: l' => identityAt before l || identities (Some x) l' end.

Lemma alnum_word x : alnum x = true -> wordChar x = true.
Proof. unfold wordChar. by intros ->. Qed.

Lemma takeWhile_all f l r : Forall (fun x => f x = true) l -> match list.head r with Some x => f x = false | None => True end ->
  takeWhile f (l ++ r) = l.
Proof.
  induction 1 as [|x l Hx _ IH]; intros Hr; cbn.
  - destruct r as [|x r]; [done|]. cbn in *. by rewrite Hr.
  - by rewrite Hx, IH.
Qed.

Lemma takeWhile_prefix f l : exists r, l = takeWhile f l ++ r /\ Forall (fun x => f x = true) (takeWhile f l)
  /\ match list.head r with Some x => f x = false | None => True end.
Proof.
  induction l as [|x l (r & E & Hf & Hr)]; [by exists []|]. cbn. destruct (f x) eqn:Ex.
  - exists r. split; [by cbn; f_equal|]. split; [by constructor|done].
  - exists (x :: l). by cbn.
Qed.

(** No boundary is inside a run of letters and digits: it matches as a whole or not at all. *)
Lemma lastBoundary_run k l : (forall i x, (i < k)%nat -> l !! i = Some x -> alnum x = true) -> (k <= length l)%nat ->
  lastBoundary k l = if (0 <? k)%nat && negb (wordAt (l !! k)) then Some k else None.
Proof.
  revert k. assert (Hsome : forall k, (forall i x, (i < k)%nat -> l !! i = Some x -> alnum x = true) -> (k <= length l)%nat ->
    forall k', k = Datatypes.S k' -> wordAt (l !! k') = true).
  { intros k Ha Hk k' ->. destruct (l !! k') as [x|] eqn:E; [|apply lookup_ge_None in E; lia]. cbn. apply alnum_word. eapply Ha; [|done]. lia. }
  induction k as [|k IH]; intros Ha Hk; [done|]. cbn [lastBoundary]. unfold boundary.
  rewrite (Hsome (Datatypes.S k) Ha Hk k eq_refl). cbn [xorb]. destruct (wordAt (l !! Datatypes.S k)) eqn:Ew; cbn [negb]; [|done].
  rewrite IH; [|intros i x Hi; apply Ha; lia|lia].
  destruct k as [|k']; [done|]. by rewrite (Hsome (Datatypes.S (Datatypes.S k')) Ha Hk _ eq_refl), andb_false_r.
Qed.

Lemma literal_exactly w l rest : literal exactly w l = Some rest <-> l = (Byte <$> w) ++ rest.
Proof.
  revert l. induction w as [|a w IH]; intros l; cbn [literal fmap list_fmap app]; [split; congruence|].
  destruct l as [|x l]; [split; [done|intros H; discriminate H]|]. unfold exactly. case_bool_decide as Hx.
  - subst. rewrite IH. split; [by intros ->|by intros [= ->]].
  - split; [done|]. intros [= -> _]. done.
Qed.

(** What the expression for identities matches. *)
Lemma identity_match before l n rep : diagnosticIdentityPattern before l = Some (n, rep) <->
  rep = plain "aim1[REDACTED]" /\ wordAt before = false /\ exists id r, l = (Byte <$> aim1) ++ id ++ r /\ id <> [] /\ Forall (fun x => alnum x = true) id
    /\ wordAt (list.head r) = false /\ n = (4 + length id)%nat.
Proof.
  unfold diagnosticIdentityPattern, aim1. destruct (literal exactly (list_ascii_of_string "aim1") l) as [rest|] eqn:El.
  - apply literal_exactly in El as ->. 
    assert (Eb : boundary before (list.head ((Byte <$> list_ascii_of_string "aim1") ++ rest)) = negb (wordAt before)) by apply xorb_true_r.
    rewrite Eb, negb_involutive.
    destruct (takeWhile_prefix alnum rest) as (r & Er & Ha & Hr). cbn [mbind option_bind].
    rewrite lastBoundary_run.
    2: { intros i x Hi Hx. rewrite Er, lookup_app_l in Hx by done. rewrite list.Forall_lookup in Ha. by eapply Ha. }
    2: { rewrite Er at 2. rewrite length_app. lia. }
    assert (Eat : rest !! length (takeWhile alnum rest) = list.head r).
    { rewrite Er at 2. by rewrite lookup_app_r, Nat.sub_diag, head_lookup. }
    rewrite Eat.
    split.
    + destruct (wordAt before); [done|]. destruct (takeWhile alnum rest) as [|y id] eqn:Et; [done|]. cbn [length Nat.ltb Nat.leb andb].
      destruct (wordAt (list.head r)) eqn:Ew; [done|]. intros [= <- <-]. split_and!; [done|done|]. exists (y :: id), r. by rewrite Er at 1.
    + intros (-> & -> & id & r' & E & Hid & Hal & Hw & ->). apply (f_equal (drop 4)) in E. cbn in E. rewrite !drop_0 in E.
      assert (Et : takeWhile alnum rest = id).
      { rewrite E. apply takeWhile_all; [done|]. destruct r' as [|y r']; [done|]. cbn in *. apply orb_false_iff in Hw. by destruct Hw. }
      rewrite Et in Er |- *. rewrite E in Er. apply app_inv_head in Er as <-. rewrite Hw. by destruct id.
  - split; [by destruct (negb _)|]. intros (_ & _ & id & r & E & _). apply (literal_exactly _ _ (id ++ r)) in E. congruence.
Qed.

(** ** After the replacement *)

Lemma identity_starts_a_word before x l : wordAt before = true -> diagnosticIdentityPattern before (x :: l) = None.
Proof. intros Hb. destruct (diagnosticIdentityPattern before (x :: l)) as [[n rep]|] eqn:E; [|done]. apply identity_match in E as (_ & ? & _). congruence. Qed.

Lemma identity_is_a_word before x l : wordChar x = false -> diagnosticIdentityPattern before (x :: l) = None.
Proof.
  intros Hx. destruct (diagnosticIdentityPattern before (x :: l)) as [[n rep]|] eqn:E; [|done].
  apply identity_match in E as (_ & _ & id & r & [= -> _] & _). done.
Qed.

Abbreviation hide := (replaceFrom diagnosticIdentityPattern).

(** Inside a word nothing is replaced. *)
Lemma word_kept before l : wordAt before = true ->
  exists r, hide 0 before l = takeWhile wordChar l ++ r /\ wordAt (list.head r) = false.
Proof.
  revert before. induction l as [|x l IH]; intros before Hb; cbn [takeWhile]; [by exists []|]. cbn [replaceFrom].
  destruct (wordChar x) eqn:Ex.
  - rewrite identity_starts_a_word by done. destruct (IH (Some x) Ex) as (r & -> & Hr). by exists r.
  - rewrite identity_is_a_word by done. exists (x :: hide 0 (Some x) l). by cbn.
Qed.

(** Whether there is a match depends on the word at the position only. *)
Lemma identity_word before before' w r r' : wordAt before = wordAt before' -> Forall (fun x => wordChar x = true) w ->
  wordAt (list.head r) = false -> wordAt (list.head r') = false ->
  identityAt before (w ++ r) = true -> identityAt before' (w ++ r') = true.
Proof.
  intros Hb Hw Hr Hr' H. unfold identityAt in *. destruct (diagnosticIdentityPattern before (w ++ r)) as [[n rep]|] eqn:E; [|done].
  apply identity_match in E as (-> & Hb0 & id & r0 & E & Hid & Hal & Hr0 & ->).
  assert (Et : forall l q, Forall (fun x => wordChar x = true) l -> wordAt (list.head q) = false -> takeWhile wordChar (l ++ q) = l).
  { intros l q Hl Hq. apply takeWhile_all; [done|]. by destruct q. }
  assert (Ew : w = (Byte <$> aim1) ++ id).
  { rewrite <- (Et w r Hw Hr), E, app_assoc. apply Et; [|done]. apply list.Forall_app. split; [by repeat constructor|].
    eapply list.Forall_impl; [exact Hal|]. intros x. apply alnum_word. }
  assert (E' : diagnosticIdentityPattern before' (w ++ r') = Some ((4 + length id)%nat, plain "aim1[REDACTED]")).
  { apply identity_match. split_and!; [done|congruence|]. exists id, r'. split_and!; try done. by rewrite Ew, <- app_assoc. }
  by rewrite E'.
Qed.

(** After the end of a match the letter before a position may differ, but the word has ended there. *)
Definition agree (before before' : option letter) (l : list letter) : Prop :=
  wordAt before = wordAt before' \/ wordAt (list.head l) = false.

Lemma replacement_hides before r : wordAt before = false ->
  identities before (plain "aim1[REDACTED]" ++ r) = identities (Some (Byte "]"%char)) r.
Proof.
  intros _. assert (Hword : forall b x l, wordAt b = true -> identityAt b (x :: l) = false).
  { intros b x l Hb. unfold identityAt. by rewrite identity_starts_a_word. }
  assert (Hno : forall b x l, x <> Byte "a"%char -> identityAt b (x :: l) = false).
  { intros b x l Hx. unfold identityAt. destruct (diagnosticIdentityPattern b (x :: l)) as [[n rep]|] eqn:E; [|done].
    apply identity_match in E as (_ & _ & id & q & [= -> _] & _). done. }
  assert (Hfirst : identityAt before (plain "aim1[REDACTED]" ++ r) = false).
  { unfold identityAt. destruct (diagnosticIdentityPattern before _) as [[n rep]|] eqn:E; [|done].
    apply identity_match in E as (_ & _ & id & q & E & Hid & Hal & _). apply (f_equal (drop 4)) in E. cbn in E.
    destruct id as [|y id]; [done|]. injection E as <- _. by inversion_clear Hal. }
  cbn in *. rewrite Hfirst. cbn. by rewrite ?Hno by done.
Qed.

Lemma hidden l : forall skip before before',
  match skip with O => agree before before' l | Datatypes.S _ => wordAt (list.head (drop skip l)) = false end ->
  identities before' (hide skip before l) = false.
Proof.
  induction l as [|x l IH]; intros skip before before' Hs; [done|]. cbn [replaceFrom]. destruct skip as [|k].
  2: { apply IH. cbn in Hs. destruct k; [right; by rewrite drop_0 in Hs|exact Hs]. }
  destruct (diagnosticIdentityPattern before (x :: l)) as [[n rep]|] eqn:E.
  - apply identity_match in E as (-> & Hb & id & r & E & Hid & Hal & Hr & ->). cbn [Nat.add].
    assert (Hb' : wordAt before' = false).
    { destruct Hs as [<-|Hs]; [done|]. cbn in Hs. injection E as -> _. done. }
    rewrite replacement_hides by done. apply IH. apply (f_equal (drop (4 + length id)%nat)) in E. cbn in E.
    rewrite drop_app_length in E. cbn [skipn] in E |- *. by rewrite E.
  - cbn [identities]. rewrite (IH O (Some x) (Some x)) by (by left). rewrite orb_false_r.
    destruct (wordChar x) eqn:Ex; [|unfold identityAt; by rewrite identity_is_a_word].
    destruct (word_kept (Some x) l Ex) as (r & -> & Hr). destruct (takeWhile_prefix wordChar l) as (r0 & El & Hw & Hr0).
    destruct (identityAt before' (x :: takeWhile wordChar l ++ r)) eqn:Ei; [|done].
    assert (Hi : identityAt before (x :: l) = true); [|unfold identityAt in Hi; by rewrite E in Hi]. rewrite El.
    apply (identity_word before' before (x :: takeWhile wordChar l) r r0); try done.
    + destruct Hs as [<-|Hs]; [done|]. cbn in Hs. congruence.
    + by constructor.
    + destruct r0; [done|exact Hr0].
Qed.

Lemma identities_at before l1 l2 : l2 <> [] ->
  identityAt (match list.last l1 with Some x => Some x | None => before end) l2 = true -> identities before (l1 ++ l2) = true.
Proof.
  revert before. induction l1 as [|x l1 IH]; intros before Hne H; cbn [app identities].
  - destruct l2 as [|y l2]; [done|]. cbn in *. by rewrite H.
  - rewrite (IH (Some x)); [apply orb_true_r|done|]. rewrite last_cons in H. by destruct (list.last l1).
Qed.

Lemma byte_large a : (byteN a < 128)%nat -> (byteN a <? 128)%nat = true.
Proof. apply Nat.ltb_lt. Qed.

(** A byte inside of ASCII is a letter of its own. *)
Lemma ascii_letter l pre a rest : (byteN a < 128)%nat -> l ≫= bytesOf = pre ++ a :: rest ->
  exists l1 l2, l = l1 ++ Byte a :: l2 /\ l1 ≫= bytesOf = pre /\ l2 ≫= bytesOf = rest.
Proof.
  intros Ha. revert pre. induction l as [|x l IH]; intros pre E; [by destruct pre|]. rewrite bind_cons in E.
  assert (Hx : (exists pre', pre = bytesOf x ++ pre' /\ l ≫= bytesOf = pre' ++ a :: rest) \/ (pre = [] /\ x = Byte a /\ l ≫= bytesOf = rest)).
  { destruct x as [b| |]; cbn in E.
    - destruct pre as [|c pre]; injection E as -> E; [by right|]. left. by exists pre.
    - destruct pre as [|c1 [|c2 pre]]; injection E; intros; subst; [apply byte_large in Ha; done..|]. left. by exists pre.
    - destruct pre as [|c1 [|c2 [|c3 pre]]]; injection E; intros; subst; [apply byte_large in Ha; done..|]. left. by exists pre. }
  destruct Hx as [(pre' & -> & E')|(-> & -> & E')]; [|by exists [], l].
  destruct (IH pre' E') as (l1 & l2 & -> & <- & Hr). by exists (x :: l1), l2.
Qed.

Lemma ascii_letters w l rest : Forall (fun a => (byteN a < 128)%nat) w -> l ≫= bytesOf = w ++ rest ->
  exists l2, l = (Byte <$> w) ++ l2 /\ l2 ≫= bytesOf = rest.
Proof.
  intros Hw. revert l. induction Hw as [|a w Ha _ IH]; intros l E; [by exists l|].
  destruct (ascii_letter l [] a (w ++ rest) Ha E) as (l1 & l2 & -> & E1 & E2).
  assert (l1 = []) as ->. { destruct l1 as [|[]]; done. }
  destruct (IH l2 E2) as (l3 & -> & E3). by exists l3.
Qed.

Lemma alnum_ascii a : alnumByte a = true -> (byteN a < 128)%nat.
Proof.
  unfold alnumByte, alnum, between. intros H. repeat rewrite ?orb_true_iff, ?andb_true_iff, ?Nat.leb_le in H.
  change (byteN "9") with 57%nat in H. change (byteN "z") with 122%nat in H. change (byteN "Z") with 90%nat in H. lia.
Qed.

Lemma last_word l : wordByteAt (list.last (l ≫= bytesOf)) = wordAt (list.last l).
Proof.
  induction l as [|x l _] using rev_ind; [done|]. rewrite bind_app, last_snoc. cbn. rewrite app_nil_r.
  destruct x as [a| |]; cbn [bytesOf]; [by rewrite last_snoc|..]; unfold longS, kelvin.
  - by rewrite last_app.
  - by rewrite last_app.
Qed.

Lemma head_word l : wordByteAt (list.head (l ≫= bytesOf)) = wordAt (list.head l).
Proof. by destruct l as [|[] l]. Qed.

(** The text of letters without identities names none. *)
Lemma no_identity_named l : identities None l = false -> ~ names_identity (text l).
Proof.
  intros Hl (pre & id & post & E & Hid & Hal & Hpre & Hpost). unfold text in E. rewrite list_ascii_of_string_of_list_ascii in E.
  destruct (ascii_letter l pre "a"%char (list_ascii_of_string "im1" ++ id ++ post) ltac:(by apply Nat.ltb_lt) E) as (l1 & l2 & -> & E1 & E2).
  rewrite app_assoc in E2. apply ascii_letters in E2 as (l3 & -> & E3).
  2: { apply list.Forall_app. split; [repeat constructor; by apply Nat.ltb_lt|]. eapply list.Forall_impl; [exact Hal|apply alnum_ascii]. }
  subst pre post. rewrite last_word in Hpre. rewrite head_word in Hpost.
  assert (Hi : diagnosticIdentityPattern (list.last l1) (Byte "a"%char :: (Byte <$> list_ascii_of_string "im1" ++ id) ++ l3)
    = Some ((4 + length (Byte <$> id))%nat, plain "aim1[REDACTED]")).
  { apply identity_match. split_and!; [done|done|]. exists (Byte <$> id), l3. split_and!; try done.
    - by destruct id.
    - by apply Forall_fmap. }
  rewrite identities_at in Hl; [done|done|]. unfold identityAt. destruct (list.last l1) eqn:El; by rewrite Hi.
Qed.

Lemma sanitized_names_nobody value : ~ names_identity (sanitizeDiagnosticText value).
Proof.
  unfold sanitizeDiagnosticText. cbv zeta. case_bool_decide as Hv.
  - intros (pre & id & post & E & _). by destruct pre.
  - apply no_identity_named. apply hidden. by left.
Qed.

(** ** The events kept *)

Record diagnosticEventEntry := mkEntry { de_Level : string; de_OccurredAt : Z; de_Operation : string; de_Message : string }.

(** [models.MetricsSnapshot] and the package that is exported. *)
Record MetricsSnapshot := mkMetricsSnapshot {
  mt_PeerCount : Z; mt_PendingQueueSize : Z; mt_ErrorCounters : gmap string Z; mt_GroupAggregates : gmap string Z;
  mt_NetworkMetrics : gmap string Z; mt_DiskUsageByClass : gmap string Z; mt_GCEvictionCountByClass : gmap string Z;
  mt_BlobFetchStats : BlobFetchMetric; mt_StorageGuardrails : gmap string Z; mt_OperationStats : gmap string OperationMetric;
  mt_RetryAttemptsTotal : Z; mt_LastUpdatedAt : Z; mt_NotificationBacklog : Z
}.
Record DiagnosticsProfileConfig := mkProfileConfig {
  dp_ProfileID : string; dp_Preset : string; dp_RelayEnabled : bool; dp_PublicDiscoveryEnabled : bool; dp_PublicServingEnabled : bool;
  dp_PublicStoreEnabled : bool; dp_PersonalStoreEnabled : bool; dp_ServeBandwidthSoftKBps : Z; dp_ServeBandwidthHardKBps : Z;
  dp_ServeMaxConcurrent : Z; dp_ServeRequestsPerMinPerPeer : Z; dp_PublicEphemeralCacheMaxMB : Z; dp_PublicEphemeralCacheTTLMin : Z;
  dp_FetchBandwidthKBps : Z
}.
Record DiagnosticsAggregatedMetrics := mkAggregated {
  ag_PeerCount : Z; ag_PendingQueueSize : Z; ag_RetryAttemptsTotal : Z; ag_NotificationBacklog : Z; ag_ErrorCounters : gmap string Z;
  ag_BlobFetchStats : BlobFetchMetric; ag_DiskUsageByClass : gmap string Z
}.
Record DiagnosticsExportPackage := mkPackage {
  dx_SchemaVersion : Z; dx_ExportedAt : Z; dx_AppVersion : string; dx_NodeVersion : string;
  dx_ProfileConfig : DiagnosticsProfileConfig; dx_Metrics : DiagnosticsAggregatedMetrics; dx_Events : list diagnosticEventEntry
}.

Section Events.
Context {lower : GoLower} (getenv : string -> string).

(** The call of an event: now, the level, the operation, the message, and when it occurred. *)
Definition appendDiagnosticEvent (now : Z) (level operation message : string) (occurredAt : Z) (events : list diagnosticEventEntry)
    : list diagnosticEventEntry :=
  let level := ToLower (TrimSpace level) in
  if negb (level == "warn") && negb (level == "error") then events else
  let occurredAt := if IsZero occurredAt then now else occurredAt in
  let event := mkEntry level occurredAt (sanitizeDiagnosticText operation) (sanitizeDiagnosticText message) in
  let events := events ++ [event] in
  let n := Z.of_nat (length events) in
  if diagnosticEventsRingLimit <? n then drop (Z.to_nat (n - diagnosticEventsRingLimit)) events else events.

Definition diagnosticsEventsSince (cutoff : Z) (events : list diagnosticEventEntry) : list diagnosticEventEntry :=
  List.filter (fun event => negb (negb (IsZero cutoff) && Before (de_OccurredAt event) cutoff)) events.

Definition envStringOrUnknown (key : string) : string :=
  let value := TrimSpace (getenv key) in if value == "" then "unknown" else sanitizeDiagnosticText value.

Definition exportWindow (windowMinutes : Z) : Z :=
  if windowMinutes <=? 0 then envBoundedIntWithFallback getenv "AIM_DIAGNOSTICS_EXPORT_WINDOW_MIN" 15 1 (24 * 60) else windowMinutes.
(** [now.Add(-time.Duration(windowMinutes) * time.Minute)] *)
Definition exportCutoff (windowMinutes now : Z) : Z := now + s64 (s64 (- windowMinutes) * Minute).

(** [preset] is the preset of the node under its name. *)
Definition ExportDiagnosticsBundle (windowMinutes now : Z) (metrics : MetricsSnapshot) (preset : blobNodePresetConfig) (presetName : string)
    (events : list diagnosticEventEntry) : DiagnosticsExportPackage :=
  let windowMinutes := exportWindow windowMinutes in
  mkPackage diagnosticsExportSchemaVersion now (envStringOrUnknown "AIM_APP_VERSION") (envStringOrUnknown "AIM_NODE_VERSION")
    (mkProfileConfig (sanitizeDiagnosticText (np_ProfileID preset)) (sanitizeDiagnosticText presetName) (np_RelayEnabled preset)
       (np_PublicDiscoveryEnabled preset) (np_PublicServingEnabled preset) (np_PublicStoreEnabled preset) (np_PersonalStoreEnabled preset)
       (np_ServeBandwidthSoftKBps preset) (np_ServeBandwidthHardKBps preset) (np_ServeMaxConcurrent preset)
       (np_ServeRequestsPerMinPerPeer preset) (np_PublicEphemeralCacheMaxMB preset) (np_PublicEphemeralCacheTTLMin preset)
       (np_FetchBandwidthKBps preset))
    (mkAggregated (mt_PeerCount metrics) (mt_PendingQueueSize metrics) (mt_RetryAttemptsTotal metrics) (mt_NotificationBacklog metrics)
       (mt_ErrorCounters metrics) (mt_BlobFetchStats metrics) (mt_DiskUsageByClass metrics))
    (diagnosticsEventsSince (exportCutoff windowMinutes now) events).

(** [GetMetrics]: what the node, the store, the attachments and the notification hub say, and the counters. *)
Definition GetMetrics (peerCount pendingCount backlog : Z) (network usageByClass guardrails : gmap string Z) (m : ServiceMetricsState)
    : MetricsSnapshot :=
  let '(counters, groupAggregates, gcEvictionByClass, blobStats, opStats, retries, lastAt) := Snapshot m in
  mkMetricsSnapshot peerCount pendingCount counters groupAggregates network usageByClass gcEvictionByClass blobStats guardrails opStats
    retries lastAt backlog.

(** The warnings of the daemon and its errors: the line, and the event; an error is counted too. *)
Section Lines.
Context {F A : Type} {format : LogFormat F A} (sha256 : list Z -> list Z) (bootNonce : string).

Definition warn (now pc : Z) (operation correlationID message : string) (attrs : list (@Attr F A)) (h : SanitizingHandler)
    (events : list diagnosticEventEntry) :=
  (logWarn sha256 bootNonce now pc operation correlationID message attrs h, appendDiagnosticEvent now "warn" operation message now events).

(** [err] is the text of the error, or nothing. *)
Definition recordErrorWithContext (now pc : Z) (category : string) (err : option string) (operation correlationID : string)
    (attrs : list (@Attr F A)) (h : SanitizingHandler) (m : ServiceMetricsState) (events : list diagnosticEventEntry) :=
  match err with
  | None => (None, m, events)
  | Some err =>
      (Some (logError sha256 bootNonce now pc category err operation correlationID attrs h), RecordError category now m,
       appendDiagnosticEvent now "error" operation err now events)
  end.
End Lines.

(** ** What an export contains *)

Record diagnosticCall := mkCall { dc_now : Z; dc_level : string; dc_operation : string; dc_message : string; dc_occurredAt : Z }.
Definition runCall (events : list diagnosticEventEntry) (c : diagnosticCall) : list diagnosticEventEntry :=
  appendDiagnosticEvent (dc_now c) (dc_level c) (dc_operation c) (dc_message c) (dc_occurredAt c) events.

(** The entry of a call, for the two levels that are kept. *)
Definition entryOf (c : diagnosticCall) : list diagnosticEventEntry :=
  let level := ToLower (TrimSpace (dc_level c)) in
  if bool_decide (level ∈ ["warn"; "error"]) then
    [mkEntry level (if IsZero (dc_occurredAt c) then dc_now c else dc_occurredAt c)
       (sanitizeDiagnosticText (dc_operation c)) (sanitizeDiagnosticText (dc_message c))] else [].

Definition newest {X} (n : nat) (l : list X) : list X := drop (length l - n) l.

Lemma newest_snoc {X} n (l : list X) x : (0 < n)%nat -> newest n (newest n l ++ [x]) = newest n (l ++ [x]).
Proof.
  intros Hn. unfold newest. rewrite !length_app, length_drop. cbn [length].
  destruct (decide (length l <= n)%nat) as [Hl|Hl].
  - replace (length l - n)%nat with O by lia. rewrite drop_0. f_equal. lia.
  - replace (length l - (length l - n) + 1 - n)%nat with 1%nat by lia.
    rewrite <- (drop_app_le l [x]) by lia. rewrite drop_drop. f_equal. lia.
Qed.

Lemma elem_of_newest {X} n (l : list X) x : x ∈ newest n l -> x ∈ l.
Proof. intros H. rewrite <- (take_drop (length l - n) l). apply elem_of_app. by right. Qed.

Lemma runCall_newest (es : list diagnosticEventEntry) c : runCall (newest 512 es) c = newest 512 (es ++ entryOf c).
Proof.
  unfold runCall, appendDiagnosticEvent, entryOf. cbv zeta. set (level := ToLower _).
  assert (Hl : negb (level == "warn") && negb (level == "error") = negb (bool_decide (level ∈ ["warn"; "error"]))).
  { rewrite <- negb_orb. f_equal. apply eq_true_iff_eq. rewrite orb_true_iff, !bool_decide_eq_true, !elem_of_cons, elem_of_nil. tauto. }
  rewrite Hl. destruct (bool_decide (level ∈ _)); cbn [negb]; [|by rewrite app_nil_r]. set (e := mkEntry _ _ _ _).
  rewrite <- newest_snoc by lia. unfold newest at 5, diagnosticEventsRingLimit. case_match eqn:E.
  - f_equal. lia.
  - apply Z.ltb_ge in E. replace (length (newest 512 es ++ [e]) - 512)%nat with O by lia. done.
Qed.

Lemma runCalls_newest calls : forall es, fold_left runCall calls (newest 512 es) = newest 512 (es ++ (calls ≫= entryOf)).
Proof.
  induction calls as [|c calls IH]; intros es; cbn [fold_left]; [by rewrite app_nil_r|]. by rewrite runCall_newest, IH, bind_cons, app_assoc.
Qed.

Lemma unknown_names_nobody key : ~ names_identity (envStringOrUnknown key).
Proof.
  unfold envStringOrUnknown. cbv zeta. case_bool_decide; [|apply sanitized_names_nobody].
  intros (pre & id & post & E & _). apply (f_equal (fun l => bool_decide ("a"%char ∈ l))) in E. cbn in E.
  symmetry in E. apply bool_decide_eq_false in E. apply E. apply elem_of_app. right. left.
Qed.

(** C18: The diagnostics that leave the node are recent and anonymous: after any calls the events kept are the newest 512 of those
    with the level warn or error; an export contains those of the window, which has between one minute and a day when it is not
    given; and neither the operation, the message, the versions nor the preset of an export names an identity. *)
Theorem diagnostics_are_recent_and_anonymous windowMinutes now metrics preset presetName (calls : list diagnosticCall) :
  let events := fold_left runCall calls [] in
  let cutoff := exportCutoff (exportWindow windowMinutes) now in
  let package := ExportDiagnosticsBundle windowMinutes now metrics preset presetName events in
  events = newest 512 (calls ≫= entryOf)
  /\ (length (dx_Events package) <= 512)%nat
  /\ (forall e, e ∈ dx_Events package <-> e ∈ events /\ (cutoff = 0 \/ cutoff <= de_OccurredAt e))
  /\ (windowMinutes <= 0 -> 1 <= exportWindow windowMinutes <= 1440 /\ cutoff = now - exportWindow windowMinutes * Minute)
  /\ Forall (fun e => (de_Level e = "warn" \/ de_Level e = "error")
       /\ ~ names_identity (de_Operation e) /\ ~ names_identity (de_Message e)) (dx_Events package)
  /\ ~ names_identity (dx_AppVersion package) /\ ~ names_identity (dx_NodeVersion package)
  /\ ~ names_identity (dp_ProfileID (dx_ProfileConfig package)) /\ ~ names_identity (dp_Preset (dx_ProfileConfig package)).
Proof.
  intros events cutoff package.
  assert (He : events = newest 512 (calls ≫= entryOf)).
  { apply (runCalls_newest calls []). }
  assert (Hin : forall e, e ∈ dx_Events package <-> e ∈ events /\ (cutoff = 0 \/ cutoff <= de_OccurredAt e)).
  { intros e. subst package. cbn [dx_Events ExportDiagnosticsBundle]. unfold diagnosticsEventsSince. rewrite list_elem_of_In, filter_In, <- list_elem_of_In.
    fold cutoff. unfold IsZero, Before. destruct (Z.eqb_spec cutoff 0), (Z.ltb_spec (de_OccurredAt e) cutoff); cbn; intuition (done || lia). }
  split_and!; [done| |exact Hin| | | | | |].
  - subst package. cbn [dx_Events ExportDiagnosticsBundle]. unfold diagnosticsEventsSince. etransitivity; [apply filter_length_le|].
    rewrite He. unfold newest. rewrite length_drop. lia.
  - intros Hw. assert (Hb : 1 <= exportWindow windowMinutes <= 1440).
    { unfold exportWindow. rewrite (proj2 (Z.leb_le _ _) Hw). unfold envBoundedIntWithFallback. cbv zeta. repeat case_match; lia. }
    split; [done|]. subst cutoff. unfold exportCutoff. rewrite (s64_small (- _)), s64_small; unfold Minute, Second; lia.
  - apply list.Forall_forall. intros e He'. apply Hin in He' as [He' _]. rewrite He in He'.
    apply elem_of_newest, list_elem_of_bind in He' as (c & He' & _). unfold entryOf in He'. case_bool_decide as Hl; [|by apply elem_of_nil in He'].
    apply list_elem_of_singleton in He' as ->. cbn [de_Level de_Operation de_Message]. split; [|split; apply sanitized_names_nobody]. set_solver.
  - apply unknown_names_nobody.
  - apply unknown_names_nobody.
  - apply sanitized_names_nobody.
  - apply sanitized_names_nobody.
Qed.
End Events.

(** ** Exports to compute with *)

Definition ex_calls : list diagnosticCall :=
  [mkCall 100 "warn" "message.retry_limit" "peer aim1bob9 is away" 0; mkCall 200 "info" "x" "y" 0; mkCall 300 "Error " "service.error" "no route" 250].
Definition ex_metrics : MetricsSnapshot := GetMetrics 0 0 0 ∅ ∅ ∅ NewServiceMetricsState.
Definition ex_preset (id : string) : blobNodePresetConfig :=
  mkPreset blobNodePresetCustom id "" "" 0 0 0 0 blobReplicationModeNone true true false false true true true 0 0 0 0 0 0 0 0 0 0 0 0.

Lemma diagnostics_are_recent_and_anonymous_witness :
  exportWindow (fun _ => "") 0 = 15
  /\ dx_Events (ExportDiagnosticsBundle (fun _ => "") 0 (200 + 15 * Minute) ex_metrics (ex_preset "p") "custom" (fold_left runCall ex_calls []))
  = [mkEntry "error" 250 "service.error" "no route"]
  /\ exportCutoff 15 (200 + 15 * Minute) = 200.
Proof.
  destruct (diagnostics_are_recent_and_anonymous (fun _ => "") 0 (200 + 15 * Minute) ex_metrics (ex_preset "p") "custom" ex_calls)
    as (_ & _ & _ & H & _). destruct (H ltac:(lia)) as [_ Hc].
  split; [vm_compute; reflexivity|]. split; [vm_compute; reflexivity|]. exact Hc.
Defined.

Example events_are_reduced :
  fold_left runCall ex_calls [] = [mkEntry "warn" 100 "message.retry_limit" "peer aim1[REDACTED] is away"; mkEntry "error" 250 "service.error" "no route"].
Proof. vm_compute. reflexivity. Qed.

(** A secret is left in the text when its key is part of a longer name, when it is written as JSON, and from its second word on; an
    identity is left when an underscore follows. *)
Definition quote : string := String (ascii_of_nat 34) "".
Example secrets_are_left :
  sanitizeDiagnosticText "access_token=abc123" = "access_token=abc123"
  /\ sanitizeDiagnosticText (quote +:+ "token" +:+ quote +:+ ":" +:+ quote +:+ "abc123" +:+ quote)
     = quote +:+ "token" +:+ quote +:+ ":" +:+ quote +:+ "abc123" +:+ quote
  /\ sanitizeDiagnosticText "passphrase: correct horse" = "passphrase=[REDACTED] horse"
  /\ sanitizeDiagnosticText "aim1bob9_backup" = "aim1bob9_backup".
Proof. vm_compute. done. Qed.
