(* ===== verification/Lifecycle.v ===== *)
(** * The running service

    Models internal/composition/daemonservice/service_runtime.go and data_wipe.go: starting and stopping the network, the retry loop,
    the refresher of the bootstrap configuration, the status that clients see, and wiping all data. The node is that of WakuNode.v,
    the flag and the contexts' functions that of Runtime.v. The rest of the service (messages, blobs, identity, storage) is the
    interface [ServiceParts]; its parts are modelled in files of their own.

    A context is the list of the numbers of its cancel functions, its own first and then those of its parents. A message can arrive
    at any time, from a goroutine of the bus or from the backend; what a subscription finds waiting is handled before it returns. *)
From S2P Require Import Prelude Encoding Text SecureStore Identity ManifestTrust NetworkManifest RefreshPolicy Bootstrap WakuConfig Wire ServingLimits WakuNode Runtime.
From stdpp Require Import base gmap strings list sets option.
From Stdlib Require Import ZArith Lia.
Open Scope string_scope.
Open Scope Z_scope.
Open Scope go_scope.
Local Open Scope list_scope.

Definition Context : Type := list nat.

(** [ctx.Err() != nil] *)
Definition isDone (cancelled : gset nat) (ctx : Context) : bool := existsb (fun n => bool_decide (n ∈ cancelled)) ctx.

Definition describeNetworkStatus (state : string) (peerCount peerTarget : Z) (bootstrapSource : string) : string * string :=
  if state == StateDisconnected then ("Node is offline.", "Start or reload backend, then retry connection.") else
  if state == StateConnecting
  then ("Node is connecting to the network.", "Wait for peer discovery. If it does not recover, retry backend.") else
  let fallback := (bootstrapSource == "cache") || (bootstrapSource == "baked") in
  if peerCount <? peerTarget then
    if fallback then ("Connected with fallback bootstrap source.", "Keep app online and retry backend to restore manifest source.")
    else ("Connected with low peer count.", "Keep app online while peers are discovered. Retry backend if this persists.") else
  if fallback then ("Connected with fallback bootstrap source.", "Connection works, but check manifest availability when convenient.")
  else ("Connection is stable.", "No action needed.").

Section Service.
Context {float : GoFloat} {conf : GoConfig} {G H : Type} {backend : goWakuBackend (G := G) (H := H)} {D : Type}.

Abbreviation Net := (Node (G := G) (H := H) * messageBus H)%type.

(** The rest of the service, over its state [D]; what publishes messages is given the node too. *)
Class ServiceParts := {
  identityID : D -> string;
  handler : H;
  handleIncomingPrivateMessage : InboundPrivateMessage -> Net * D -> Net * D;
  announceAllLocalBlobProviders : D -> D;
  recoverPendingOnStartup : Z -> Net * D -> Net * D;
  recordNetworkError : error -> D -> D;
  removeLocalPeer : D -> D;
  cleanupOnStopIfZeroRetention : M D error unit;
  publishNetworkStatus : NetworkStatus -> D -> D;
  nodePreset : D -> blobNodePresetConfig;
  enforceRetentionPolicies : Z -> D -> D;
  purgePublicEphemeralCache : Z -> D -> D;
  evaluatePublicServingAutodegrade : Z -> Z -> D -> D;
  processDuePending : Z -> Net * D -> Net * D;
  wipeContentState : M D error unit;
  wipeIdentityState : option (M D error unit);
  removeStorageKey : M D error unit;
  wipePrivacyState : option (M D error unit)
}.
Context {parts : ServiceParts}.

(** [sv_wakuCfg]: the configuration, if any. [sv_bootstrapCancel] is the function that ends the refresher. [sv_retry] and
    [sv_refreshing] are the contexts of the retry loops and refreshers that run. *)
Record Service := mkService {
  sv_runtime : ServiceRuntime; sv_net : Net; sv_parts : D; sv_wakuCfg : option (Config (float := float));
  sv_bootstrapCancel : option nat; sv_next : nat; sv_cancelled : gset nat; sv_retry : list Context; sv_refreshing : list Context
}.

Definition with_runtime (r : ServiceRuntime) (s : Service) : Service :=
  mkService r (sv_net s) (sv_parts s) (sv_wakuCfg s) (sv_bootstrapCancel s) (sv_next s) (sv_cancelled s) (sv_retry s) (sv_refreshing s).
Definition with_net (n : Net) (s : Service) : Service :=
  mkService (sv_runtime s) n (sv_parts s) (sv_wakuCfg s) (sv_bootstrapCancel s) (sv_next s) (sv_cancelled s) (sv_retry s) (sv_refreshing s).
Definition with_parts (d : D) (s : Service) : Service :=
  mkService (sv_runtime s) (sv_net s) d (sv_wakuCfg s) (sv_bootstrapCancel s) (sv_next s) (sv_cancelled s) (sv_retry s) (sv_refreshing s).
Definition with_cancelled (c : gset nat) (s : Service) : Service :=
  mkService (sv_runtime s) (sv_net s) (sv_parts s) (sv_wakuCfg s) (sv_bootstrapCancel s) (sv_next s) c (sv_retry s) (sv_refreshing s).
Definition with_loops (retry : list Context) (s : Service) : Service :=
  mkService (sv_runtime s) (sv_net s) (sv_parts s) (sv_wakuCfg s) (sv_bootstrapCancel s) (sv_next s) (sv_cancelled s) retry (sv_refreshing s).
Definition with_refresher (cancel : option nat) (running : list Context) (s : Service) : Service :=
  mkService (sv_runtime s) (sv_net s) (sv_parts s) (sv_wakuCfg s) cancel (sv_next s) (sv_cancelled s) (sv_retry s) running.

Definition onPart (f : D -> D) (s : Service) : Service := with_parts (f (sv_parts s)) s.
Definition onNode (f : Net * D -> Net * D) (s : Service) : Service :=
  let '(n, d) := f (sv_net s, sv_parts s) in with_parts d (with_net n s).

(** [context.WithCancel(parent)]: the context; its cancel function has the number at its head. *)
Definition withCancel (parent : Context) (s : Service) : Service * Context :=
  (mkService (sv_runtime s) (sv_net s) (sv_parts s) (sv_wakuCfg s) (sv_bootstrapCancel s) (Datatypes.S (sv_next s)) (sv_cancelled s) (sv_retry s)
     (sv_refreshing s), sv_next s :: parent).
Definition cancel (n : nat) (s : Service) : Service := with_cancelled ({[n]} ∪ sv_cancelled s) s.
Definition cancelOf (ctx : Context) : nat := List.hd O ctx.

(** ** Status *)

Definition GetNetworkStatus (s : Service) : NetworkStatus :=
  let status := StatusOf (fst (sv_net s)) in
  let preset := nodePreset (sv_parts s) in
  let peerTarget := match sv_wakuCfg s with Some cfg => if 0 <? wc_MinPeers cfg then wc_MinPeers cfg else 1 | None => 1 end in
  let '(healthSummary, actionHint) := describeNetworkStatus (st_State status) (st_PeerCount status) peerTarget (st_BootstrapSource status) in
  mkNetworkStatus (st_State status) (st_PeerCount status) peerTarget healthSummary actionHint (np_ProfileID preset) (np_RelayEnabled preset)
    (np_PublicDiscoveryEnabled preset) (np_PublicServingEnabled preset) (np_PublicStoreEnabled preset) (np_PersonalStoreEnabled preset)
    (st_LastSync status) (st_BootstrapSource status) (st_BootstrapManifestVersion status) (st_BootstrapManifestKeyID status).

Definition notifyNetworkStatus (force : bool) (s : Service) : Service :=
  let current := GetNetworkStatus s in
  let '(r, shouldNotify) := UpdateLastNetworkStatus current force (sv_runtime s) in
  let s := with_runtime r s in
  if shouldNotify then onPart (publishNetworkStatus current) s else s.

(** ** Starting *)

(** Messages that are handled one after the other. *)
Definition handleMessages (msgs : list InboundPrivateMessage) (s : Service) : Service :=
  fold_left (fun s msg => onNode (handleIncomingPrivateMessage msg) s) msgs s.

Definition syncMissedInboundMessages (now : Z) (s : Service) : Service :=
  let '(n, b) := sv_net s in
  let '(n, r) := FetchPrivateSince (identityID (sv_parts s)) (now - 24 * (60 * Minute)) 500 n in
  let s := with_net (n, b) s in
  match r with
  | Err err => onPart (recordNetworkError err) s
  | Ok missed => handleMessages missed s
  end.

Definition startBootstrapRefreshLoop (ctx : Context) (s : Service) : Service :=
  match sv_wakuCfg s with
  | None => s
  | Some cfg =>
      if (wc_BootstrapManifestPath cfg == "") || (wc_BootstrapTrustBundlePath cfg == "") then s else
      match sv_bootstrapCancel s with
      | Some _ => s
      | None =>
          let '(s, refreshCtx) := withCancel ctx s in
          with_refresher (Some (cancelOf refreshCtx)) (refreshCtx :: sv_refreshing s) s
      end
  end.

(** The clocks of a start besides those of the node. *)
Record NetEnv := mkNetEnv { ne_start : StartEnv (G := G); ne_stop : Z; ne_now : Z }.

(** [None] while the node waits for peers. *)
Definition StartNetworking (env : NetEnv) (ctx : Context) (s : Service) : option (Service * result error unit) :=
  if IsNetworking (sv_runtime s) then Some (s, Ok tt) else
  let '(n, b) := sv_net s in
  match Start (ne_start env) n with
  | None => None
  | Some (n, Err err) => Some (onPart (recordNetworkError err) (with_net (n, b) s), Err err)
  | Some (n, Ok _) =>
      let n := SetIdentity (identityID (sv_parts s)) n in
      let '((n, b), pending, r) := SubscribePrivate handler (n, b) in
      let s := handleMessages pending (with_net (n, b) s) in
      match r with
      | Err err => Some (onPart (recordNetworkError err) (with_net (Stop (ne_stop env) (sv_net s)) s), Err err)
      | Ok _ =>
          let s := onPart announceAllLocalBlobProviders (syncMissedInboundMessages (ne_now env) s) in
          let '(s, networkCtx) := withCancel ctx s in
          let s := onNode (recoverPendingOnStartup (ne_now env)) s in
          let '(s, retryCtx) := withCancel networkCtx s in
          let '(rt, activated) := TryActivate (cancelOf networkCtx) (cancelOf networkCtx) (cancelOf retryCtx) (sv_runtime s) in
          if negb activated then Some (cancel (cancelOf networkCtx) (cancel (cancelOf retryCtx) s), Ok tt) else
          let s := startBootstrapRefreshLoop networkCtx (with_runtime rt s) in
          let s := with_loops (retryCtx :: sv_retry s) s in
          Some (notifyNetworkStatus true s, Ok tt)
      end
  end.

(** ** The loops *)

(** A retry loop sees that its context is done, and ends. *)
Definition retryLoopEnds (i : nat) (s : Service) : option Service :=
  ctx ← sv_retry s !! i;
  if isDone (sv_cancelled s) ctx then Some (with_runtime (RetryLoopDone (sv_runtime s)) (with_loops (delete i (sv_retry s)) s)) else None.

(** A turn of a retry loop whose last one was at [lastTick]. *)
Definition retryTick (lastTick now : Z) (s : Service) : Service :=
  let lag := timeSub now lastTick - RetryLoopTick in
  let lag := if lag <? 0 then 0 else lag in
  let s := notifyNetworkStatus false s in
  let s := onPart (enforceRetentionPolicies now) s in
  let s := onPart (purgePublicEphemeralCache now) s in
  let s := onPart (evaluatePublicServingAutodegrade now lag) s in
  onNode (processDuePending now) s.

(** [WaitRetryLoop]: the loops that were told to end do, and the wait ends when none is left. *)
Definition waitRetryLoop (s : Service) : option Service :=
  let ended := List.filter (isDone (sv_cancelled s)) (sv_retry s) in
  let s := with_loops (List.filter (fun ctx => negb (isDone (sv_cancelled s) ctx)) (sv_retry s)) s in
  let rt := Nat.iter (length ended) RetryLoopDone (sv_runtime s) in
  if sr_RetryWG rt =? 0 then Some (with_runtime rt s) else None.

Definition stopBootstrapRefreshLoop (s : Service) : Service :=
  match sv_bootstrapCancel s with
  | None => s
  | Some c =>
      let s := cancel c s in
      with_refresher None (List.filter (fun ctx => negb (isDone (sv_cancelled s) ctx)) (sv_refreshing s)) s
  end.

(** ** Stopping *)

Definition cleanup (s : Service) : Service * result error unit :=
  let '(d, r) := cleanupOnStopIfZeroRetention (sv_parts s) in (with_parts d s, r).

(** The node's [Stop] reports no error. *)
Definition StopNetworking (now : Z) (s : Service) : option (Service * result error unit) :=
  let '(rt, running) := Deactivate (sv_runtime s) in
  let s := with_runtime rt s in
  match running with
  | None => Some (cleanup (onPart removeLocalPeer s))
  | Some (retryCancel, networkCancel) =>
      s ← match retryCancel with Some c => waitRetryLoop (cancel c s) | None => Some s end;
      let s := stopBootstrapRefreshLoop s in
      let s := match networkCancel with Some c => cancel c s | None => s end in
      let s := with_net (Stop now (sv_net s)) s in
      Some (cleanup (notifyNetworkStatus true (onPart removeLocalPeer s)))
  end.

(** ** Wiping the data *)

Definition DataWipeConsentToken : string := "I_UNDERSTAND_LOCAL_DATA_WIPE".
Definition consentRequired : error := errorsNew "data wipe requires explicit consent token".

(** One step of the wipe; [errors.Join] of the errors so far is their list. *)
Definition wipeStep (step : option (M D error unit)) (s : Service * list error) : Service * list error :=
  match step with
  | None => s
  | Some m => let '(d, r) := m (sv_parts s.1) in
              (with_parts d s.1, match r with Err err => s.2 ++ [err] | Ok _ => s.2 end)
  end.

Definition WipeData (now : Z) (consentToken : string) (s : Service) : option (Service * result (list error) bool) :=
  if negb (TrimSpace consentToken == DataWipeConsentToken) then Some (s, Err [consentRequired]) else
  '(s, r) ← StopNetworking now s;
  match r with
  | Err err => Some (s, Err [err])
  | Ok _ =>
      let s := wipeStep (Some wipeContentState) (s, []) in
      let s := match wipeIdentityState with Some m => wipeStep (Some removeStorageKey) (wipeStep (Some m) s) | None => s end in
      let '(s, errs) := wipeStep wipePrivacyState s in
      Some (s, match errs with [] => Ok true | _ => Err errs end)
  end.

(** ** What holds between the calls *)

(** The rest of the service publishes on the node, and does not start or stop it. *)
Class PartsLaws := {
  handle_keeps : forall msg n d, same_life n.1 (handleIncomingPrivateMessage msg (n, d)).1.1;
  recover_keeps : forall now n d, same_life n.1 (recoverPendingOnStartup now (n, d)).1.1;
  due_keeps : forall now n d, same_life n.1 (processDuePending now (n, d)).1.1
}.
Context {laws : PartsLaws}.

Definition keeps_node (f : Net * D -> Net * D) : Prop := forall n d, same_life n.1 (f (n, d)).1.1.

(** The numbers of the cancel functions that the service holds itself. *)
Definition held (s : Service) (c : nat) : Prop :=
  sr_NetworkCancel (sv_runtime s) = Some c \/ sr_RetryCancel (sv_runtime s) = Some c \/ sv_bootstrapCancel s = Some c.

(** Calls of the service, turns of its goroutines, and its callers' contexts. Starting and stopping exclude each other. *)
Inductive service_step : Service -> Service -> Prop :=
| step_start_networking env ctx s s' r : StartNetworking env ctx s = Some (s', r) -> service_step s s'
| step_stop_networking now s s' r : StopNetworking now s = Some (s', r) -> service_step s s'
| step_tick (i : nat) ctx lastTick now s :
    sv_retry s !! i = Some ctx -> isDone (sv_cancelled s) ctx = false -> service_step s (retryTick lastTick now s)
| step_retry_ends (i : nat) s s' : retryLoopEnds i s = Some s' -> service_step s s'
| step_refresh (i : nat) (ctx : Context) cfg s :
    sv_refreshing s !! i = Some ctx -> service_step s (with_net (ApplyBootstrapConfig cfg (sv_net s).1, (sv_net s).2) s)
| step_refresher_ends (i : nat) ctx s :
    sv_refreshing s !! i = Some ctx -> isDone (sv_cancelled s) ctx = true ->
    service_step s (with_refresher (sv_bootstrapCancel s) (delete i (sv_refreshing s)) s)
| step_monitor_turn now s : nd_monitor (sv_net s).1 = true -> service_step s (with_net (refreshRuntimeStatus now (sv_net s).1, (sv_net s).2) s)
| step_delivery msg s : service_step s (onNode (handleIncomingPrivateMessage msg) s)
| step_call f s : keeps_node f -> service_step s (onNode f s)
| step_status force s : service_step s (notifyNetworkStatus force s)
| step_context ctx s : service_step s (withCancel ctx s).1
| step_cancel c s : (c < sv_next s)%nat -> ~ held s c -> service_step s (cancel c s).

(** A service that was built: its node is new, and nothing runs. *)
Definition built (s : Service) : Prop :=
  (exists cfg, (sv_net s).1 = NewNode cfg) /\ sv_runtime s = NewServiceRuntime /\ sv_bootstrapCancel s = None /\ sv_retry s = []
  /\ sv_refreshing s = [] /\ sv_cancelled s = ∅.

(** At most one refresher runs, and the function that is held ends it. *)
Definition refresher_ok (s : Service) : Prop :=
  match sv_bootstrapCancel s with
  | None => sv_refreshing s = []
  | Some c => (length (sv_refreshing s) <= 1)%nat /\ Forall (fun ctx => c ∈ ctx) (sv_refreshing s)
  end.

(** The network runs for a caller's context: its own two contexts are not cancelled, and its retry loop runs or has seen that the
    caller's context ended. *)
Definition running_for (ctx : Context) (s : Service) : Prop :=
  exists retry net, sr_RetryCancel (sv_runtime s) = Some retry /\ sr_NetworkCancel (sv_runtime s) = Some net
    /\ (retry ∉ sv_cancelled s) /\ (net ∉ sv_cancelled s)
    /\ (sv_retry s = [retry :: net :: ctx] \/ (sv_retry s = [] /\ isDone (sv_cancelled s) ctx = true)).

Record service_ok (s : Service) : Prop := {
  so_node : node_ok (sv_net s).1;
  so_flag : connected (sv_net s).1 = IsNetworking (sv_runtime s);
  so_loops : sr_RetryWG (sv_runtime s) = Z.of_nat (length (sv_retry s)) /\ (length (sv_retry s) <= 1)%nat;
  so_running : IsNetworking (sv_runtime s) = true -> exists ctx, running_for ctx s;
  so_idle : IsNetworking (sv_runtime s) = false -> sv_retry s = [] /\ sv_bootstrapCancel s = None /\ nd_gw (sv_net s).1 = None;
  so_refresher : refresher_ok s;
  so_cancelled : forall c, c ∈ sv_cancelled s -> (c < sv_next s)%nat;
  so_held : forall c, held s c -> (c < sv_next s)%nat
}.

(** Steps that touch the node and the rest only, and leave the node as open as it was. *)
Record calm (s s' : Service) : Prop := {
  ca_runtime : sv_runtime s' = sv_runtime s; ca_cancel : sv_bootstrapCancel s' = sv_bootstrapCancel s; ca_next : sv_next s' = sv_next s;
  ca_cancelled : sv_cancelled s' = sv_cancelled s; ca_retry : sv_retry s' = sv_retry s; ca_refreshing : sv_refreshing s' = sv_refreshing s;
  ca_node : node_ok (sv_net s).1 -> node_ok (sv_net s').1 /\ connected (sv_net s').1 = connected (sv_net s).1;
  ca_backend : on_bus (sv_net s').1 = on_bus (sv_net s).1 /\ nd_lost (sv_net s').1 = nd_lost (sv_net s).1
}.

Lemma calm_trans s1 s2 s3 : calm s1 s2 -> calm s2 s3 -> calm s1 s3.
Proof.
  intros [A1 A2 A3 A4 A5 A6 A7 [A8 A9]] [B1 B2 B3 B4 B5 B6 B7 [B8 B9]]. split; try congruence; [|split; congruence].
  intros Hn. destruct (A7 Hn) as [Hn2 E]. destruct (B7 Hn2). split; congruence.
Qed.

Lemma on_bus_gw (n n' : Node (G := G) (H := H)) : on_bus n' = on_bus n -> nd_gw n = None -> nd_gw n' = None.
Proof. unfold on_bus. intros E Hg. rewrite Hg in E. by destruct (nd_gw n'). Qed.

Lemma calm_ok s s' : calm s s' -> service_ok s -> service_ok s'.
Proof.
  intros [A1 A2 A3 A4 A5 A6 A7 [A8 A9]] [H1 H2 H3 H4 H5 H6 H7 H8]. destruct (A7 H1) as [Hn Hc].
  split; unfold refresher_ok, held, running_for in *; rewrite ?A1, ?A2, ?A3, ?A4, ?A5, ?A6; try done; [by rewrite Hc|].
  intros Hf. destruct (H5 Hf) as (? & ? & Hg). split_and!; [done..|]. by apply (on_bus_gw _ _ A8).
Qed.

Lemma onNode_calm f s : keeps_node f -> calm s (onNode f s).
Proof.
  intros Hf. unfold onNode. pose proof (Hf (sv_net s) (sv_parts s)) as Hl. destruct (f (sv_net s, sv_parts s)) as [n d].
  split; try done; [intros Hn; by apply same_life_ok|]. destruct Hl as (_ & _ & H1 & H2). by split.
Qed.

Lemma onPart_calm f s : calm s (onPart f s).
Proof. by split. Qed.

Lemma calm_refl s : calm s s.
Proof. by split. Qed.

Lemma with_net_calm n b s : node_ok n /\ connected n = connected (sv_net s).1 -> on_bus n = on_bus (sv_net s).1 ->
  nd_lost n = nd_lost (sv_net s).1 -> calm s (with_net (n, b) s).
Proof. intros Hn Hb Hl. by split. Qed.

Lemma keeps_handle msg : keeps_node (handleIncomingPrivateMessage msg).
Proof. intros n d. apply handle_keeps. Qed.

Lemma messages_calm msgs s : calm s (handleMessages msgs s).
Proof.
  revert s. induction msgs as [|msg msgs IH]; intros s; cbn [handleMessages fold_left]; [apply calm_refl|].
  apply (calm_trans _ _ _ (onNode_calm _ _ (keeps_handle msg))), IH.
Qed.

Lemma life_calm n b b' s : (sv_net s) = (n, b) -> forall n', same_life n n' -> calm s (with_net (n', b') s).
Proof.
  intros En n' Hl. split; try done; rewrite En; [intros Hn; by apply same_life_ok|]. destruct Hl as (_ & _ & H1 & H2). by split.
Qed.

Lemma sync_calm now s : calm s (syncMissedInboundMessages now s).
Proof.
  unfold syncMissedInboundMessages. destruct (sv_net s) as [n b] eqn:En.
  pose proof (fetch_life (identityID (sv_parts s)) (now - 24 * (60 * Minute)) 500 n) as Hl.
  destruct (FetchPrivateSince _ _ _ n) as [n' r]. cbn [fst] in Hl. pose proof (life_calm n b b s En n' Hl) as Hs.
  destruct r as [missed|err]; apply (calm_trans _ _ _ Hs); [apply messages_calm|apply onPart_calm].
Qed.

Lemma notify_ok force s : service_ok s -> service_ok (notifyNetworkStatus force s).
Proof.
  intros [H1 H2 H3 H4 H5 H6 H7 H8]. unfold notifyNetworkStatus, UpdateLastNetworkStatus. cbv zeta. destruct (_ || _); by split.
Qed.

Lemma isDone_mono cs cs' ctx : cs ⊆ cs' -> isDone cs ctx = true -> isDone cs' ctx = true.
Proof.
  intros Hs (c & Hin & Hc%bool_decide_eq_true)%existsb_exists. apply existsb_exists. exists c. split; [done|].
  apply bool_decide_eq_true. set_solver.
Qed.

Lemma context_cancelled c s : (c < sv_next s)%nat -> ~ held s c -> service_ok s -> service_ok (cancel c s).
Proof.
  intros Hc Hh [H1 H2 H3 H4 H5 H6 H7 H8]. split; try done.
  - cbn. intros Hf. destruct (H4 Hf) as (ctx & retry & net & Hr & Hn & Hnr & Hnn & Hl). exists ctx, retry, net. cbn.
    assert (c <> retry /\ c <> net) as [? ?] by (split; intros ->; apply Hh; unfold held; auto).
    split_and!; [done|done|set_solver|set_solver|]. destruct Hl as [Hl|[Hl Hd]]; [by left|right]. split; [done|].
    eapply isDone_mono; [|done]. set_solver.
  - cbn. intros c' [->%elem_of_singleton|Hin]%elem_of_union; [done|by apply H7].
Qed.

Lemma context_ok ctx s : service_ok s -> service_ok (withCancel ctx s).1.
Proof. intros [H1 H2 H3 H4 H5 H6 H7 H8]. split; try done; cbn; intros c Hc; [specialize (H7 c Hc)|specialize (H8 c Hc)]; lia. Qed.

(** *** Starting *)

(** The service while its flag is off: nothing runs. *)
Lemma idle s : service_ok s -> IsNetworking (sv_runtime s) = false ->
  sr_RetryWG (sv_runtime s) = 0 /\ sv_retry s = [] /\ sv_bootstrapCancel s = None /\ sv_refreshing s = [] /\ nd_gw (sv_net s).1 = None.
Proof.
  intros [H1 H2 [H3 _] H4 H5 H6 H7 H8] Hf. destruct (H5 Hf) as (Hr & Hb & Hg). unfold refresher_ok in H6. rewrite Hb in H6. rewrite Hr in H3. by split_and!.
Qed.

(** The end of a start: the contexts, the flag and the loops. *)
Definition activate (now : Z) (ctx : Context) (s : Service) : option (Service * result error unit) :=
  let '(s, networkCtx) := withCancel ctx s in
  let s := onNode (recoverPendingOnStartup now) s in
  let '(s, retryCtx) := withCancel networkCtx s in
  let '(rt, activated) := TryActivate (cancelOf networkCtx) (cancelOf networkCtx) (cancelOf retryCtx) (sv_runtime s) in
  if negb activated then Some (cancel (cancelOf networkCtx) (cancel (cancelOf retryCtx) s), Ok tt) else
  let s := startBootstrapRefreshLoop networkCtx (with_runtime rt s) in
  let s := with_loops (retryCtx :: sv_retry s) s in
  Some (notifyNetworkStatus true s, Ok tt).

Lemma start_refresher ctx s : sv_bootstrapCancel s = None -> sv_refreshing s = [] ->
  let s' := startBootstrapRefreshLoop ctx s in
  sv_runtime s' = sv_runtime s /\ sv_net s' = sv_net s /\ sv_retry s' = sv_retry s /\ sv_cancelled s' = sv_cancelled s
  /\ (sv_next s <= sv_next s')%nat /\ refresher_ok s' /\ (forall c, sv_bootstrapCancel s' = Some c -> (c < sv_next s')%nat).
Proof.
  intros Hb Hf. cbv zeta. unfold startBootstrapRefreshLoop, refresher_ok. rewrite Hb.
  destruct (sv_wakuCfg s) as [cfg|]; [|rewrite Hb; by split_and!]. destruct (_ || _); [rewrite Hb; by split_and!|].
  cbn. rewrite Hf. do 4 (split; [done|]). split; [lia|]. split; [split; [cbn; lia|]; constructor; [left|constructor]|]. intros c [= <-]. lia.
Qed.

Lemma notify_rest force s : sv_cancelled (notifyNetworkStatus force s) = sv_cancelled s /\ sv_retry (notifyNetworkStatus force s) = sv_retry s
  /\ IsNetworking (sv_runtime (notifyNetworkStatus force s)) = IsNetworking (sv_runtime s) /\ sv_net (notifyNetworkStatus force s) = sv_net s
  /\ sr_RetryCancel (sv_runtime (notifyNetworkStatus force s)) = sr_RetryCancel (sv_runtime s)
  /\ sr_NetworkCancel (sv_runtime (notifyNetworkStatus force s)) = sr_NetworkCancel (sv_runtime s).
Proof. unfold notifyNetworkStatus, UpdateLastNetworkStatus. cbv zeta. by destruct (_ || _). Qed.

Lemma network_activated now ctx s : node_ok (sv_net s).1 -> connected (sv_net s).1 = true -> IsNetworking (sv_runtime s) = false ->
  sr_RetryWG (sv_runtime s) = 0 -> sv_retry s = [] -> sv_bootstrapCancel s = None -> sv_refreshing s = [] ->
  (forall c, c ∈ sv_cancelled s -> (c < sv_next s)%nat) ->
  exists s', activate now ctx s = Some (s', Ok tt) /\ service_ok s' /\ IsNetworking (sv_runtime s') = true
    /\ running_for ctx s' /\ sv_retry s' = [Datatypes.S (sv_next s) :: sv_next s :: ctx] /\ sv_cancelled s' = sv_cancelled s
    /\ nd_lost (sv_net s').1 = nd_lost (sv_net s).1.
Proof.
  intros Hno Hup Hoff Hwg Hr Hb Hf Hc. unfold activate. cbn [withCancel].
  set (s1 := mkService _ _ _ _ _ _ _ _ _).
  destruct (onNode_calm (recoverPendingOnStartup now) s1) as [A1 A2 A3 A4 A5 A6 A7 [_ A9]]; [intros n d; apply recover_keeps|].
  set (s2 := onNode _ s1) in *. destruct (A7 Hno) as [Hno2 Hup2]. cbn in A1, A2, A3, A4, A5, A6. cbn [sv_runtime cancelOf List.hd].
  unfold TryActivate. rewrite A1. unfold IsNetworking in Hoff. rewrite Hoff. cbn [negb]. eexists. split; [reflexivity|].
  set (s3 := with_runtime _ _). destruct (start_refresher (sv_next s :: ctx) s3) as (E1 & E2 & E3 & E4 & E5 & E6 & E7); [by cbn; rewrite A2|by cbn; rewrite A6|].
  set (s4 := startBootstrapRefreshLoop _ s3) in *. cbn in E1, E2, E3, E4, E5.
  set (s5 := with_loops _ s4). destruct (notify_rest true s5) as (F1 & F2 & F3 & F4 & F5 & F6). rewrite F1, F2, F3, F4.
  assert (Hnew : forall k, (sv_next s <= k)%nat -> k ∉ sv_cancelled s) by (intros k Hk Hin; apply Hc in Hin; lia).
  assert (Hrun : running_for ctx s5).
  { exists (Datatypes.S (sv_next s)), (sv_next s). cbn. rewrite E1, E3, E4, A3, A4, A5, Hr. cbn.
    split_and!; [done|done|apply Hnew; lia|apply Hnew; lia|by left]. }
  split; [|split; [|split; [|split; [|split]]]].
  - apply notify_ok. split; cbn; rewrite ?E1, ?E2, ?E3, ?E4, ?A1, ?A3, ?A4, ?A5, ?Hr, ?Hwg; cbn; try done.
    + by rewrite Hup2.
    + intros _. by exists ctx.
    + intros c Hin. specialize (Hc c Hin). lia.
    + unfold held. cbn. rewrite E1. cbn. intros c [[= <-]|[[= <-]|Hh]]; [lia..|by apply E7].
  - cbn. by rewrite E1.
  - unfold running_for. by rewrite F1, F2, F5, F6.
  - cbn. by rewrite E3, A3, A5, Hr.
  - cbn. by rewrite E4, A4.
  - cbn. by rewrite E2, A9.
Qed.

Lemma stop_node now (nb : Net) : on_bus (Stop now nb).1 = true /\ nd_lost (Stop now nb).1 = nd_lost nb.1 /\ nd_gw (Stop now nb).1 = None.
Proof.
  destruct nb as [n b]. set (n0 := with_gw None (with_monitor false n)).
  change (Stop now (n, b)).1 with (with_peers 0 now (transitionStateLocked StateDisconnected n0)).
  destruct (transition_rest StateDisconnected n0) as [_ E]. unfold on_bus. cbn. rewrite transition_lost, E. done.
Qed.

(** What a start of an idle service does to the backends that nobody points to. *)
Definition lost_by_start (s s' : Service) (r : result error unit) : Prop :=
  nd_lost (sv_net s').1 = nd_lost (sv_net s).1
  \/ exists g err, r = Err err /\ wc_Transport (nd_cfg (sv_net s).1) = TransportGoWaku /\ wc_FailoverV1 (nd_cfg (sv_net s).1) = true
       /\ nd_lost (sv_net s').1 = g :: nd_lost (sv_net s).1.

(** A start that fails keeps the service in order. *)
Lemma start_failed s s' : service_ok s -> IsNetworking (sv_runtime s) = false ->
  sv_runtime s' = sv_runtime s -> sv_bootstrapCancel s' = sv_bootstrapCancel s -> sv_next s' = sv_next s -> sv_cancelled s' = sv_cancelled s ->
  sv_retry s' = sv_retry s -> sv_refreshing s' = sv_refreshing s ->
  node_ok (sv_net s').1 -> connected (sv_net s').1 = false -> nd_gw (sv_net s').1 = None -> service_ok s'.
Proof.
  intros Hok Hf A1 A2 A3 A4 A5 A6 Hn Hc Hg. destruct (idle s Hok Hf) as (I1 & I2 & I3 & I4 & _). destruct Hok as [H1 H2 H3 H4 H5 H6 H7 H8].
  split; unfold refresher_ok, held, running_for in *; rewrite ?A1, ?A2, ?A3, ?A4, ?A5, ?A6; try done.
  by rewrite Hc, Hf.
Qed.

(** Only a start that succeeds gives the node a backend. *)
Lemma start_failed_gw env n n' err : Start env n = Some (n', Err err) -> nd_gw n' = nd_gw n.
Proof.
  unfold Start. cbv zeta. set (n0 := with_peers _ _ (transitionStateLocked StateConnecting n)).
  assert (Hgw : nd_gw n0 = nd_gw n) by exact (proj2 (transition_rest StateConnecting n)).
  assert (Hdown : forall now (m : Node (G := G) (H := H)), nd_gw (setDisconnected now m) = nd_gw m) by (intros ? m; exact (proj2 (transition_rest StateDisconnected m))).
  destruct (_ == TransportGoWaku).
  2: { destruct (se_done env); [|done]. by intros [= <- _]. }
  destruct newGoWakuBackend as [g0|]; [|intros [= <- _]; by rewrite Hdown].
  destruct (gwStart _ g0) as [g1 [[]|e]]; [|intros [= <- _]; by rewrite Hdown].
  destruct (if wc_FailoverV1 _ then _ else _) as [[g [peers|e]]|]; [done| |done]. intros [= <- _]. by rewrite Hdown.
Qed.

Lemma start_networking_ok env ctx s s' r : service_ok s -> StartNetworking env ctx s = Some (s', r) ->
  service_ok s' /\ IsNetworking (sv_runtime s') = (IsNetworking (sv_runtime s) || is_ok r)
  /\ (IsNetworking (sv_runtime s) = false -> lost_by_start s s' r
        /\ (is_ok r = true -> running_for ctx s' /\ length (sv_retry s') = 1%nat /\ sv_cancelled s' = sv_cancelled s)).
Proof.
  intros Hok. unfold StartNetworking. destruct (IsNetworking (sv_runtime s)) eqn:Ef; [by intros [= <- <-]|].
  destruct (sv_net s) as [n b] eqn:En. destruct (idle s Hok Ef) as (I1 & I2 & I3 & I4 & I5). pose proof (so_node _ Hok) as Hno.
  unfold lost_by_start. rewrite En in Hno, I5 |- *. cbn [fst] in Hno, I5 |- *.
  destruct (Start (ne_start env) n) as [[n1 [[]|err]]|] eqn:Es; [| |done]; pose proof (start_lost _ _ _ _ Es I5) as Hlost;
    destruct (start_connected _ _ _ _ Es Hno) as [Hn1 Hc1].
  2: { intros [= <- <-]. split; [|split; [done|intros _; split; [|done]]].
       - apply (start_failed s); try done. cbn. by rewrite (start_failed_gw _ _ _ _ Es).
       - destruct Hlost as [Hl|(g & _ & _ & e & _ & _ & _ & H1 & H2 & H3 & Hl)]; [by left|right]. exists g, e. by split_and!. }
  assert (Hl1 : nd_lost n1 = nd_lost n) by (destruct Hlost as [Hl|(g & ? & ? & e & _ & _ & _ & _ & _ & [=] & _)]; done).
  destruct (SubscribePrivate handler (SetIdentity (identityID (sv_parts s)) n1, b)) as [[[n2 b2] pending] r2] eqn:Eu.
  pose proof (subscribe_life _ _ _ _ _ Eu) as Hl. cbn [fst] in Hl.
  assert (Hid : same_life n1 (SetIdentity (identityID (sv_parts s)) n1)) by (unfold same_life, on_bus; cbn; by destruct (nd_gw n1)).
  destruct (same_life_ok _ _ Hid Hn1) as [Hn1' Hc1']. destruct (same_life_ok _ _ Hl Hn1') as [Hn2 Hc2].
  assert (Hl2 : nd_lost n2 = nd_lost n1) by (destruct Hl as (_ & _ & _ & ->), Hid as (_ & _ & _ & ->); done).
  set (s1 := with_net (n2, b2) s). destruct (messages_calm pending s1) as [M1 M2 M3 M4 M5 M6 M7 [_ M9]].
  set (sm := handleMessages pending s1) in *. destruct (M7 Hn2) as [Hnm Hcm]. change (sv_net s1) with (n2, b2) in M9, Hcm. cbn [fst] in M9, Hcm.
  destruct r2 as [[]|err].
  2: { intros [= <- <-]. destruct (stop_node (ne_stop env) (sv_net sm)) as (_ & Hls & Hgs).
       split; [|split; [by cbn; rewrite M1|intros _; split; [left; by cbn; rewrite Hls, M9, Hl2, Hl1|done]]].
       destruct (sv_net sm) as [nm bm]. destruct (stop_connected (ne_stop env) nm bm). by apply (start_failed s). }
  cbv zeta. fold (activate (ne_now env) ctx (onPart announceAllLocalBlobProviders (syncMissedInboundMessages (ne_now env) sm))).
  destruct (calm_trans _ _ _ (sync_calm (ne_now env) sm) (onPart_calm announceAllLocalBlobProviders _)) as [A1 A2 A3 A4 A5 A6 A7 [_ A9]].
  set (s2 := onPart _ _) in *. destruct (A7 Hnm) as [Hn3 Hc3]. rewrite M1 in A1. rewrite M2 in A2. rewrite M3 in A3. rewrite M4 in A4.
  rewrite M5 in A5. rewrite M6 in A6. change (sv_runtime s1) with (sv_runtime s) in A1. change (sv_next s1) with (sv_next s) in A3.
  change (sv_bootstrapCancel s1) with (sv_bootstrapCancel s) in A2. change (sv_cancelled s1) with (sv_cancelled s) in A4.
  change (sv_retry s1) with (sv_retry s) in A5. change (sv_refreshing s1) with (sv_refreshing s) in A6. clearbody s2.
  destruct (network_activated (ne_now env) ctx s2) as (s3 & -> & Hok3 & Hnet & Hrun & Hret & Hcan & Hlo); rewrite ?A1, ?A2, ?A3, ?A4, ?A5, ?A6; try done.
  - by rewrite Hc3, Hcm, Hc2, Hc1', Hc1.
  - apply Hok.
  - intros [= <- <-]. split; [done|]. split; [done|]. intros _. split; [left; by rewrite Hlo, A9, M9, Hl2, Hl1|].
    intros _. rewrite Hret, Hcan, A4. by split_and!.
Qed.

(** *** Stopping *)

Lemma all_ended c cs l : Forall (fun ctx => c ∈ ctx) l -> c ∈ cs ->
  List.filter (isDone cs) l = l /\ List.filter (fun ctx => negb (isDone cs ctx)) l = [].
Proof.
  intros Hl Hc. induction Hl as [|ctx l Hin _ [IH1 IH2]]; [done|].
  assert (Hd : isDone cs ctx = true). { apply existsb_exists. exists c. split; [by apply list_elem_of_In|by apply bool_decide_eq_true]. }
  cbn. by rewrite Hd, IH1, IH2.
Qed.

Lemma iter_done n r : sr_RetryWG (Nat.iter n RetryLoopDone r) = sr_RetryWG r - Z.of_nat n
  /\ IsNetworking (Nat.iter n RetryLoopDone r) = IsNetworking r.
Proof.
  induction n as [|n [IH1 IH2]]; [split; [cbn; lia|done]|].
  change (Nat.iter (Datatypes.S n) RetryLoopDone r) with (RetryLoopDone (Nat.iter n RetryLoopDone r)).
  split; [|exact IH2]. cbn [RetryLoopDone sr_RetryWG]. rewrite IH1. lia.
Qed.

Lemma cleanup_calm s : calm s (cleanup s).1.
Proof. unfold cleanup. destruct (cleanupOnStopIfZeroRetention (sv_parts s)) as [d r]. by split. Qed.

Lemma loops_waited c s : Forall (fun ctx => c ∈ ctx) (sv_retry s) -> sr_RetryWG (sv_runtime s) = Z.of_nat (length (sv_retry s)) ->
  exists rt, waitRetryLoop (cancel c s) = Some (with_runtime rt (with_loops [] (cancel c s)))
    /\ sr_RetryWG rt = 0 /\ IsNetworking rt = IsNetworking (sv_runtime s) /\ (forall k, sr_NetworkCancel rt = Some k \/ sr_RetryCancel rt = Some k ->
         sr_NetworkCancel (sv_runtime s) = Some k \/ sr_RetryCancel (sv_runtime s) = Some k).
Proof.
  intros Hall Hwg. unfold waitRetryLoop. destruct (all_ended c ({[c]} ∪ sv_cancelled s) (sv_retry s) Hall ltac:(set_solver)) as [E1 E2].
  cbv zeta. cbn [sv_retry sv_cancelled sv_runtime cancel with_cancelled with_loops]. rewrite E1, E2.
  destruct (iter_done (length (sv_retry s)) (sv_runtime s)) as [W1 W2].
  assert (Hz : (sr_RetryWG (Nat.iter (length (sv_retry s)) RetryLoopDone (sv_runtime s)) =? 0) = true) by (apply Z.eqb_eq; rewrite W1; lia).
  rewrite Hz. eexists. split; [reflexivity|]. apply Z.eqb_eq in Hz. split_and!; [done|done|].
  intros k. clear. induction (length (sv_retry s)) as [|n IH]; [done|].
  change (Nat.iter (Datatypes.S n) RetryLoopDone (sv_runtime s)) with (RetryLoopDone (Nat.iter n RetryLoopDone (sv_runtime s))). exact IH.
Qed.

Lemma refresher_stopped s : refresher_ok s ->
  let s' := stopBootstrapRefreshLoop s in
  sv_runtime s' = sv_runtime s /\ sv_net s' = sv_net s /\ sv_retry s' = sv_retry s /\ sv_next s' = sv_next s /\ sv_bootstrapCancel s' = None
  /\ sv_refreshing s' = [] /\ forall c, c ∈ sv_cancelled s' -> c ∈ sv_cancelled s \/ sv_bootstrapCancel s = Some c.
Proof.
  intros Hr. cbv zeta. unfold stopBootstrapRefreshLoop, refresher_ok in *. destruct (sv_bootstrapCancel s) as [c|] eqn:Eb.
  - destruct Hr as [_ Hall]. destruct (all_ended c ({[c]} ∪ sv_cancelled s) (sv_refreshing s) Hall ltac:(set_solver)) as [_ E]. cbn. rewrite E.
    split_and!; try done. intros k [->%elem_of_singleton|Hk]%elem_of_union; [by right|by left].
  - rewrite Eb, Hr. split_and!; try done. intros k Hk. by left.
Qed.

Lemma stopped_ok s : node_ok (sv_net s).1 -> connected (sv_net s).1 = false -> IsNetworking (sv_runtime s) = false ->
  nd_gw (sv_net s).1 = None -> sr_RetryWG (sv_runtime s) = 0 -> sv_retry s = [] -> sv_bootstrapCancel s = None -> sv_refreshing s = [] ->
  (forall c, c ∈ sv_cancelled s -> (c < sv_next s)%nat) -> (forall c, held s c -> (c < sv_next s)%nat) -> service_ok s.
Proof.
  intros Hn Hc Hf Hg Hw Hr Hb Hre Hca Hh. split; unfold refresher_ok; rewrite ?Hr, ?Hb, ?Hre; try done; rewrite ?Hc, ?Hf, ?Hw; try done.
  split; [done|cbn; lia].
Qed.

Lemma stop_networking_ok now s : service_ok s -> exists s' r, StopNetworking now s = Some (s', r)
  /\ service_ok s' /\ IsNetworking (sv_runtime s') = false.
Proof.
  intros Hok. unfold StopNetworking, Deactivate. destruct (sr_Networking (sv_runtime s)) eqn:Ef; cbn [negb].
  2: { destruct (cleanup_calm (onPart removeLocalPeer (with_runtime (sv_runtime s) s))) as [A1 A2 A3 A4 A5 A6 A7].
       destruct (cleanup _) as [s2 r]. exists s2, r. split; [done|]. cbn [fst] in *. split; [|by rewrite A1]. by apply (calm_ok s). }
  destruct (so_running _ Hok Ef) as (ctx & c & nc & Hrc & Hnc & _ & _ & Hl). rewrite Hrc, Hnc. cbv zeta.
  assert (Hall : Forall (fun ctx => c ∈ ctx) (sv_retry s)) by (destruct Hl as [->|[-> _]]; repeat constructor).
  set (s1 := with_runtime (mkRuntime false None None None (sr_RetryWG (sv_runtime s)) (sr_LastNetwork (sv_runtime s))) s).
  destruct Hok as [H1 H2 [H3 _] H4 H5 H6 H7 H8]. destruct (loops_waited c s1 Hall H3) as (rt & -> & W1 & W2 & W3). cbn [mbind option_bind].
  set (s2 := with_runtime rt _). destruct (refresher_stopped s2 H6) as (B1 & B2 & B3 & B4 & B5 & B6 & B7).
  set (s3 := stopBootstrapRefreshLoop s2) in *. change (sv_net s2) with (sv_net s) in B2. change (sv_next s2) with (sv_next s) in B4.
  set (s4 := with_net _ (cancel nc s3)).
  assert (Hs4 : service_ok s4).
  { destruct (stop_connected now (sv_net s).1 (sv_net s).2) as [S1 S2]. rewrite <- surjective_pairing in S1, S2.
    assert (E4 : sv_net s4 = Stop now (sv_net s)) by (unfold s4; cbn; by rewrite B2).
    destruct (stop_node now (sv_net s)) as (_ & _ & Hg4). apply stopped_ok; rewrite ?E4; try done; unfold s4; cbn; rewrite ?B1, ?B3, ?B4, ?B5, ?B6; try done.
    - intros k [->%elem_of_singleton|Hk]%elem_of_union; [apply H8; left; exact Hnc|]. destruct (B7 k Hk) as [Hk'|Hk'].
      + cbn in Hk'. apply elem_of_union in Hk' as [->%elem_of_singleton|Hk']; [apply H8; right; left; exact Hrc|by apply H7].
      + apply H8. right. right. exact Hk'.
    - unfold held. cbn. rewrite B1, B5. intros k [Hk|[Hk|Hk]]; [| |done]; destruct (W3 k) as [Hk'|Hk']; auto; done. }
  assert (Hf4 : IsNetworking (sv_runtime s4) = false) by (unfold s4; cbn; by rewrite B1).
  clearbody s4. set (s5 := notifyNetworkStatus true (onPart removeLocalPeer s4)).
  assert (Hs5 : service_ok s5) by (by apply notify_ok, (calm_ok s4), Hs4; apply onPart_calm).
  assert (Hf5 : IsNetworking (sv_runtime s5) = false).
  { destruct (notify_rest true (onPart removeLocalPeer s4)) as (_ & _ & E & _). unfold s5. by rewrite E. }
  destruct (cleanup_calm s5) as [A1 A2 A3 A4 A5 A6 A7]. destruct (cleanup s5) as [s6 r] eqn:Ec. exists s6, r. split; [done|]. cbn [fst] in *.
  split; [|by rewrite A1]. by apply (calm_ok s5).
Qed.

(** *** Every step *)

Lemma retry_ends_ok i s s' : retryLoopEnds i s = Some s' -> service_ok s -> service_ok s'.
Proof.
  unfold retryLoopEnds. intros E [H1 H2 [H3 H3'] H4 H5 H6 H7 H8]. destruct (sv_retry s !! i) as [ctx|] eqn:Ei; [|done]. cbn [mbind option_bind] in E.
  destruct (isDone (sv_cancelled s) ctx) eqn:Ed; [|done]. injection E as <-.
  assert (Hlen : length (sv_retry s) = Datatypes.S (length (delete i (sv_retry s)))).
  { rewrite length_delete by by eexists. apply lookup_lt_Some in Ei. lia. }
  split; try done; cbn.
  - split; lia.
  - intros Hf. destruct (H4 Hf) as (ctx' & c & n & Hr & Hn & Hcr & Hcn & [Hl|[Hl _]]); rewrite Hl in Ei; [|done].
    apply list_lookup_singleton_Some in Ei as [-> <-]. exists ctx', c, n. split_and!; [done..|]. right. cbn. rewrite Hl. split; [done|].
    revert Ed. unfold isDone. cbn [existsb]. by rewrite !bool_decide_false.
  - intros Hf. destruct (H5 Hf) as [Hr _]. by rewrite Hr in Ei.
Qed.

Lemma refresher_ends_ok i ctx s : sv_refreshing s !! i = Some ctx -> service_ok s ->
  service_ok (with_refresher (sv_bootstrapCancel s) (delete i (sv_refreshing s)) s).
Proof.
  intros Ei [H1 H2 H3 H4 H5 H6 H7 H8]. split; try done. unfold refresher_ok in *. cbn. destruct (sv_bootstrapCancel s); [|by rewrite H6 in Ei].
  destruct H6 as [Hl Hall]. split; [|by apply Forall_delete]. rewrite length_delete by by eexists. lia.
Qed.

Lemma monitor_backend now (n : Node (G := G) (H := H)) : on_bus (refreshRuntimeStatus now n) = on_bus n /\ nd_lost (refreshRuntimeStatus now n) = nd_lost n.
Proof.
  unfold refreshRuntimeStatus. destruct (nd_gw n) as [g|] eqn:Eg; [|done]. destruct (_ == StateDisconnected); [done|].
  destruct (_ || _); [|done]. unfold on_bus. cbn. rewrite transition_lost. by destruct (transition_rest (if gwPeerCount g <=? 0 then StateDegraded else StateConnected) n) as [_ ->].
Qed.

Lemma step_ok s s' : service_step s s' -> service_ok s -> service_ok s'.
Proof.
  intros Hst Hok. destruct Hst as [env ctx s s' r E|now s s' r E|i ctx lt now s _ _|i s s' E|i ctx cfg s _|i ctx s Hi _|now s Hm|msg s|f s Hf|force s|ctx s|c s Hc Hh].
  - by apply (start_networking_ok env ctx s s' r).
  - destruct (stop_networking_ok now s Hok) as (s1 & r1 & E1 & Hs1 & _). rewrite E in E1. by injection E1 as <- <-.
  - unfold retryTick. cbv zeta. apply (calm_ok _ _ (onNode_calm _ _ (due_keeps now))).
    do 3 apply (calm_ok _ _ (onPart_calm _ _)). by apply notify_ok.
  - by apply (retry_ends_ok i s).
  - apply (calm_ok s); [|done]. apply with_net_calm; [apply apply_connected, Hok|unfold on_bus; cbn; by destruct (nd_gw (sv_net s).1)|done].
  - by eapply refresher_ends_ok.
  - destruct (monitor_backend now (sv_net s).1). apply (calm_ok s); [|done]. apply with_net_calm; [apply monitor_connected, Hok|done..].
  - by apply (calm_ok _ _ (onNode_calm _ _ (keeps_handle msg))).
  - by apply (calm_ok _ _ (onNode_calm f s Hf)).
  - by apply notify_ok.
  - by apply context_ok.
  - by apply context_cancelled.
Qed.

Lemma built_ok s : built s -> service_ok s.
Proof.
  intros ((cfg & Hn) & Hr & Hb & Hre & Hrf & Hc). apply stopped_ok; rewrite ?Hr, ?Hn; try done.
  - split_and!; [done..|]. cbn. set_solver.
  - rewrite Hc. set_solver.
  - unfold held. rewrite Hr, Hb. intros c [Hk|[Hk|Hk]]; done.
Qed.


(** *** Wiping *)

(** Without the consent nothing happens. With it the network is stopped first; when that succeeds every store is wiped, also after
    one of them failed, and the errors are reported together. *)
Lemma wipe_is_complete now token s : service_ok s ->
  match WipeData now token s with
  | None => False
  | Some (s', r) =>
      (TrimSpace token <> DataWipeConsentToken /\ s' = s /\ is_ok r = false)
      \/ (TrimSpace token = DataWipeConsentToken /\ IsNetworking (sv_runtime s') = false
          /\ exists s1 r1, StopNetworking now s = Some (s1, r1)
             /\ match r1 with
                | Err err => s' = s1 /\ r = Err [err]
                | Ok _ =>
                    let steps := [Some wipeContentState] ++ match wipeIdentityState with Some m => [Some m; Some removeStorageKey] | None => [] end
                                 ++ [wipePrivacyState] in
                    let '(s2, errs) := fold_left (fun st step => wipeStep step st) steps (s1, []) in
                    s' = s2 /\ r = match errs with [] => Ok true | _ => Err errs end
                end)
  end.
Proof.
  intros Hok. unfold WipeData. case_bool_decide as Ht; cbn [negb]; [|by left].
  destruct (stop_networking_ok now s Hok) as (s1 & r1 & E & _ & Hf). rewrite E. cbn [mbind option_bind].
  assert (Hstep : forall step st, sv_runtime (wipeStep step st).1 = sv_runtime st.1).
  { intros step st. unfold wipeStep. destruct step as [m|]; [|done]. by destruct (m (sv_parts st.1)). }
  destruct r1 as [[]|err]; [|right; split_and!; [done..|by exists s1, (Err err)]].
  set (st := match wipeIdentityState with Some m => _ | None => _ end).
  assert (Est : st = fold_left (fun st step => wipeStep step st)
    (match wipeIdentityState with Some m => [Some m; Some removeStorageKey] | None => [] end) (wipeStep (Some wipeContentState) (s1, []))).
  { unfold st. by destruct wipeIdentityState. }
  destruct (wipeStep wipePrivacyState st) as [s2 errs] eqn:E2. right. split; [done|]. split.
  - change s2 with (s2, errs).1. rewrite <- E2, Hstep. rewrite Est. destruct wipeIdentityState; cbn [fold_left]; by rewrite !Hstep.
  - exists s1, (Ok tt). split; [done|]. cbv zeta. rewrite !fold_left_app. cbn [fold_left]. rewrite <- Est, E2. done.
Qed.

End Service.

(** ** A service to compute with: its state is its identity and the log of its calls, its node uses the mock transport *)

#[export] Instance exServiceParts : ServiceParts (G := Z) (H := string) (D := string * list string) := {
  identityID d := d.1; handler := "incoming";
  handleIncomingPrivateMessage msg x := (x.1, (x.2.1, x.2.2 ++ ["message " +:+ im_ID msg]));
  announceAllLocalBlobProviders d := (d.1, d.2 ++ ["announce"]);
  recoverPendingOnStartup _ x := (x.1, (x.2.1, x.2.2 ++ ["recover"]));
  recordNetworkError _ d := (d.1, d.2 ++ ["network error"]);
  removeLocalPeer d := (d.1, d.2 ++ ["remove peer"]);
  cleanupOnStopIfZeroRetention d := (d, Ok tt);
  publishNetworkStatus st d := (d.1, d.2 ++ [ns_HealthSummary st]);
  nodePreset _ := mkPreset blobNodePresetCustom "" "" "" 0 0 0 0 blobReplicationModeNone true true false false true true true 0 0 0 0 0 0 0 0 0 0 0 0;
  enforceRetentionPolicies _ d := d; purgePublicEphemeralCache _ d := d; evaluatePublicServingAutodegrade _ _ d := d;
  processDuePending _ x := x;
  wipeContentState d := ((d.1, d.2 ++ ["wipe content"]), Ok tt);
  wipeIdentityState := Some (fun d => (("", d.2 ++ ["wipe identity"]), Ok tt));
  removeStorageKey d := ((d.1, d.2 ++ ["remove key"]), Ok tt);
  wipePrivacyState := Some (fun d => ((d.1, d.2 ++ ["wipe privacy"]), Ok tt))
}.

#[export] Instance exPartsLaws : PartsLaws.
Proof. by split. Qed.

Definition ex_service (id : string) : Service (G := Z) (H := string) (D := string * list string) :=
  mkService NewServiceRuntime (NewNode DefaultConfig, emptyBus) (id, []) (Some DefaultConfig) None 1 ∅ [] [].
Definition ex_net_env : NetEnv (G := Z) := mkNetEnv (ex_start 10) 20 15.

Lemma ex_service_built id : built (ex_service id).
Proof. split_and!; [by eexists|done..]. Qed.

(** Started under the context 0 of a caller. *)
Definition ex_running := Eval vm_compute in StartNetworking ex_net_env [0%nat] (ex_service "alice").

Lemma ex_running_steps s r : ex_running = Some (s, r) -> rtc service_step (ex_service "alice") s.
Proof.
  intros E. apply rtc_once. apply (step_start_networking ex_net_env [0%nat] (ex_service "alice") s r).
  rewrite <- E. vm_compute. reflexivity.
Qed.


(** A service without an identity does not start, and its node is stopped again. *)
Example no_identity_no_network :
  match StartNetworking ex_net_env [0%nat] (ex_service "") with
  | Some (s, Err err) => err = errorsNew "identity is not set" /\ st_State (nd_status (sv_net s).1) = StateDisconnected /\ sv_retry s = []
  | _ => False
  end.
Proof. vm_compute. done. Qed.

(** When the context of the caller ends without a stop, the retry loop ends and the flag stays: another start does nothing, and
    pending messages are not sent again until the network was stopped. *)
Example ended_context_blocks_restart :
  match ex_running with
  | Some (s, _) =>
      match retryLoopEnds 0 (cancel 0 s) with
      | Some s => StartNetworking ex_net_env [] s = Some (s, Ok tt) /\ sv_retry s = [] /\ connected (sv_net s).1 = true
      | None => False
      end
  | None => False
  end.
Proof. vm_compute. done. Qed.

Example wipe_in_order :
  match ex_running with
  | Some (s, _) =>
      match WipeData 40 DataWipeConsentToken s with
      | Some (s, r) => r = Ok true /\ (sv_parts s).2 = ["announce"; "recover"; "Connected with low peer count."; "remove peer"; "Node is offline.";
                                                      "wipe content"; "wipe identity"; "remove key"; "wipe privacy"]
      | None => False
      end
  | None => False
  end.
Proof. vm_compute. done. Qed.
